(* ===== verification/_CoqProject ===== *)
-Q . S2P
Prelude.v
Bits.v
DoubleList.v
Pmalloc.v
PmallocRun.v
PageAlloc.v
PageLimit.v
VMem.v
VMemInv.v
VMemAlloc.v
VMemRun.v
VMemPages.v
Paging.v
PagingRun.v
PagingLeaf.v
Slab.v
SlabRun.v
VSpace.v
VSpaceRun.v
ProcMem.v
ProcRun.v
ProcCorrect.v
Vector.v
HandleTable.v
RbTree.v
RbTreeFun.v
RbTreeHeap.v
RbTreeBalance.v
RbTreeLinks.v
RbTreeRun.v
StringView.v
RingBuffer.v
Vfs.v
Pipe.v
Tar.v
Random.v
Blake2b.v
RandomCorrect.v
Chipset.v
EvmPci.v
Locks.v
Sched.v
SchedInv.v
SchedFrame.v
SchedRun.v
SchedBalance.v
SchedCorrect.v
Threads.v
SchedThreads.v
Event.v
Mutex.v
WaitCorrect.v
UnorderedMap.v
NetPacket.v
Arp.v
Udp.v
Tcp.v
TcpRun.v
TcpCorrect.v
Dns.v
Dhcp.v
InputQueue.v
Hid.v
HidCorrect.v
Ps2Dev.v
Ps2Port.v
Ps2Correct.v
Ps2Ctl.v
XhciRing.v
UiDraw.v
UiWindow.v
UiGui.v
UiMouse.v
UiDesk.v
Ipc.v
IpcTransfer.v
IpcWait.v
IpcCorrect.v
