(* ===== verification/Prelude.v ===== *)
(** * Crescent: a verification development

    Crescent is a preemptive multithreaded kernel (x86-64 and AArch64) in C++ with
    its own standard library, memory manager, scheduler, network stack, and a few
    programs, among them a virtual machine monitor.  This library models the parts
    that carry its logic as executable definitions, one per function of the source,
    and proves what makes them correct; where the code does not do what it means to,
    a theorem shows what it does instead.

    ** How the parts fit together

    The page allocator hands out physical pages.  The address allocator cuts the
    kernel's address range into regions and keeps its records in such pages; the
    page tables map regions to pages; the heap combines the three, with slabs for
    small objects.  Containers live in the heap.  The scheduler runs threads on
    CPUs under spinlocks; events block and wake threads, mutexes are built on
    events, ring buffers, pipes and sockets wait on events.  Frames that a network
    driver receives go through Ethernet and IPv4 to ARP, UDP, TCP and DHCP; the
    resolver is a program that uses a UDP socket.  Files come from a tar archive
    behind the virtual file system.

    ** Conventions

    An integer of [w] bits is a [Z] that is wrapped ([u8] to [u64], [⊞], [⊟], [⊠])
    wherever the C++ type can overflow.  A pointer is the address, or an index when
    an object is all that is pointed to.  [None] stands for what ends the run: a
    failed assertion, a panic, an access outside an object, a use after free, a
    lock that the CPU already holds; the theorems that an operation gives [Some]
    are therefore safety theorems.  Errors that the code returns are values.  What
    the code waits for is either a step of its own, when the interleaving matters,
    or an argument.  Code outside the sources is an argument too.

    ** Memory

    - Bits.v: std/bit.hpp, byte order and powers of two.
    - DoubleList.v: std/double_list.hpp, the intrusive list as a heap of hooks; any
      run of its operations refines the sequence of nodes.
    - Pmalloc.v, PmallocRun.v: mem/pmalloc.cpp, the buddy allocator.
      The free blocks of each region and the pages in use partition it; allocation
      and freeing do what they should from boot to any later state, and a free merges
      until the buddy of the block is in use.  PageAlloc.v is
      the class of what its users rely on, with the allocator as instance;
      PageLimit.v is the same below a limit of physical memory.
    - VMem.v, VMemInv.v, VMemAlloc.v, VMemRun.v, VMemPages.v: mem/vmem.cpp, the
      address allocator: its segments tile the range, allocations are disjoint, and
      freeing merges neighbours.
    - Paging.v, PagingRun.v: arch/x86/mem/paging.cpp.  [translate] is
      the walk that the processor makes; map, unmap and protect change it at one
      page and nowhere else.
    - Slab.v, SlabRun.v, VSpace.v, VSpaceRun.v: mem/malloc.cpp and
      mem/vspace.cpp.  Every page in use has exactly one user; the heap holds
      exactly a set of disjoint objects, in any execution from its set-up on; a failed
      allocation gives everything back.
    - PagingLeaf.v, ProcMem.v, ProcRun.v, ProcCorrect.v:
      sched/process.cpp, the address space of a process over all of the above:
      what the processor sees is what the mappings say, in any execution no page has
      two users, a deleted process leaves nothing behind; and where fixed allocations,
      protection and copies go wrong.

    ** Containers

    - Vector.v: std/vector.hpp over a heap of blocks, with the storage that an
      assignment loses.
    - HandleTable.v: sched/handle_table.cpp, a refinement of a finite map.
    - RbTree.v, RbTreeFun.v, RbTreeHeap.v, RbTreeBalance.v, RbTreeLinks.v,
      RbTreeRun.v: std/rb_tree.hpp, the intrusive red-black tree down to its
      pointers: insertion and removal keep order, colours and links, and look-ups
      take logarithmic time.
    - UnorderedMap.v: std/unordered_map.hpp, linear probing with growth, for tables whose
      member [used], which no constructor sets, happens to start at zero.
    - StringView.v, RingBuffer.v, Pipe.v: std/string_view.hpp, std/ring_buffer.hpp,
      fs/pipe.cpp; bytes come out of a ring buffer in the order they went in, with
      any number of readers and writers.

    ** Files, random numbers, virtual machines

    - Vfs.v, Tar.v: fs/vfs.cpp, fs/tar.cpp; a path look-up is the walk that it
      stands for, and an archive reads back what was put into it.
    - Random.v, Blake2b.v, RandomCorrect.v: dev/random.cpp: ChaCha20, BLAKE2b, the
      entropy pool and the generator; hashing in pieces gives the digest of the whole,
      as RFC 7693 defines it (Blake2b.v, independent of the code).
    - Chipset.v, EvmPci.v: apps/evm: timer, keyboard controller, CMOS and PCI bus of
      the virtual machine monitor.

    ** Threads

    - Locks.v: utils/spinlock.hpp and utils/rw_spinlock.hpp at the granularity of
      atomic instructions.
    - Sched.v, SchedInv.v, SchedFrame.v, SchedRun.v, SchedBalance.v, SchedCorrect.v:
      sched/sched.cpp: every thread is in the one list that its status says, in any
      run of timer ticks, blocking, sleeping, waking and new threads, and of the load
      balancer; exits, and waking a thread that runs, are modelled and fail, which
      theorems of their own show.
    - Threads.v is the class of what waiting code relies on of the scheduler, and
      SchedThreads.v shows that Sched.v is an instance.
    - Event.v, Mutex.v, WaitCorrect.v: dev/event.cpp and sched/mutex.hpp over that
      class, with all interleavings: exclusion, no lost wake-up, and where it fails.

    - Ipc.v, IpcTransfer.v, IpcWait.v, IpcCorrect.v: sched/ipc.cpp and the process
      descriptors it owns (sched/process.cpp): order of the bytes in all
      interleavings, connections, and where locks, events and lifetimes go wrong.
      IpcWait.v has the lists of waiters of the events and the CPUs: blocking transfers
      always end when both threads are on one CPU, and can panic on two.

    ** Network

    - NetPacket.v: checksum, packets, Ethernet and IPv4 of dev/net, down to bytes.
    - Arp.v, Udp.v: dev/net/arp.cpp, dev/net/udp.cpp; a datagram that is sent
      arrives at the socket of its port.
    - Tcp.v, TcpRun.v, TcpCorrect.v: dev/net/tcp.cpp: two sockets of this kernel
      connect and exchange data in order, and what is lost when they do not take
      turns.
    - Dhcp.v, Dns.v: dev/net/dhcp.cpp and libs/libnet/src/dns.cpp: leases, queries
      and answers, and messages that are read past their end.

    ** Input devices

    - InputQueue.v: sys/event_queue.cpp, the ring of input events, refines a queue.
    - Hid.v, HidCorrect.v: dev/usb/dev/hid.cpp: report descriptors, the fields of a
      report as numbers, and the key and mouse events they become.
    - Ps2Dev.v, Ps2Port.v, Ps2Correct.v, Ps2Ctl.v:
      arch/x86/dev/ps2.cpp, ps2_keyboard.cpp and ps2_mouse.cpp: the bytes of both
      devices as events, for the keyboard against the table of scan code set 2; commands with their interrupts in all interleavings, and
      the controller, for which there is an instance in Chipset.v.
    - XhciRing.v: dev/usb/hcd/xhci/transfer_ring.cpp: the rings of requests refine a
      queue between the driver and the controller.

    ** Windows

    - UiDraw.v: libs/libui (primitive.hpp, context.cpp, text.cpp)
      and libs/libtext: rectangles and how they are cut, drawing into clip
      rectangles, fonts.
    - UiWindow.v: libs/libui/src/window.cpp: a tree of windows drawn
      from the back to the front equals what is found looking from the front.
    - UiGui.v, UiMouse.v, UiDesk.v: libs/libui/src/gui.cpp
      and apps/desktop/src: mouse, keyboard and the windows of programs; through any
      mouse events, dragging of windows included, the screen is up to date but for what
      is marked as dirty and for a window that was raised by a click, which the code does
      not redraw.

    ** Fuel

    A loop that is not structural takes fuel and gives [None] without it.  The bound
    is in the definition, computed from the data (the length of a list, the number
    of nodes, of levels of a table, of bytes of a message), and the theorems show
    that it is enough, since they conclude [Some].  A loop that the code itself does
    not end (spinning on a lock, following a link to itself) has no bound and is
    shown to need any fuel.

    ** Not modelled

    Device drivers and machine code (network cards, the USB host controller, sound, graphics,
    ACPI, interrupt entry, virtualization, the AArch64 port) are accesses to registers of
    hardware whose behaviour is not in the sources.  The system calls check their
    arguments and call the components above; the POSIX layer and the ELF loader
    compose them.  The menu and the clock of the desktop, the console and the
    other user libraries draw, or wrap system calls.  Memory ordering below the atomic instructions, and the
    time that operations take, are outside the model. *)

From stdpp Require Export prelude list gmap.
From Stdlib Require Export ZArith Lia.

#[global] Open Scope Z_scope.
Set Default Goal Selector "!".

(** ** Machine integers

    A [w]-bit unsigned integer of the code is a [Z]; every operation that can
    wrap is written with [wrap] at the width of its C++ type. *)

Definition wrap (w z : Z) : Z := z mod 2 ^ w.
Definition u8 (z : Z) : Z := wrap 8 z.
Definition u16 (z : Z) : Z := wrap 16 z.
Definition u32 (z : Z) : Z := wrap 32 z.
Definition u64 (z : Z) : Z := wrap 64 z.

Declare Scope mach_scope.
Delimit Scope mach_scope with mach.
Definition add64 (a b : Z) : Z := u64 (a + b).
Definition sub64 (a b : Z) : Z := u64 (a - b).
Definition mul64 (a b : Z) : Z := u64 (a * b).
Infix "⊞" := add64 (at level 50, left associativity) : mach_scope.
Infix "⊟" := sub64 (at level 50, left associativity) : mach_scope.
Infix "⊠" := mul64 (at level 40, left associativity) : mach_scope.
#[global] Open Scope mach_scope.

(** The range predicate of a [w]-bit unsigned value. *)
Definition fits (w z : Z) : Prop := 0 <= z < 2 ^ w.

#[global] Instance fits_dec w z : Decision (fits w z).
Proof. unfold fits. apply _. Defined.

#[global] Instance divide_dec (a b : Z) : Decision (a | b) :=
  match Z.eq_dec a 0 with
  | left Ha => match Z.eq_dec b 0 with
               | left Hb => left (eq_ind_r (fun b => (a | b)) (Z.divide_0_r a) Hb)
               | right Hb => right (fun H => Hb (Z.divide_0_l b (eq_ind a (fun a => (a | b)) H 0 Ha)))
               end
  | right Ha => match Z.eq_dec (b mod a) 0 with
                | left H => left (proj1 (Z.mod_divide b a Ha) H)
                | right H => right (fun D => H (proj2 (Z.mod_divide b a Ha) D))
                end
  end.

(** C++'s [assert]: a failed assertion stops the kernel, which is [None]. *)
Definition assert (b : bool) : option unit := if b then Some tt else None.

(** The alignment macros of src/src/mem/mem.hpp, at 64 bits. *)
Definition ALIGNUP (value align : Z) : Z :=
  Z.land (u64 (value + (align - 1))) (u64 (Z.lnot (align - 1))).
Definition ALIGNDOWN (value align : Z) : Z :=
  Z.land value (u64 (Z.lnot (align - 1))).

Definition PAGE_SIZE : Z := 0x1000.

(** ** Bytes *)

(** The little-endian bytes of an [n]-byte object, and the value they denote. *)
Fixpoint le_bytes (n : nat) (z : Z) : list Z :=
  match n with
  | O => []
  | S n => z mod 256 :: le_bytes n (z / 256)
  end.

Fixpoint le_val (bs : list Z) : Z :=
  match bs with
  | [] => 0
  | b :: bs => b + 256 * le_val bs
  end.

(** [memcpy] of [src] into an array at index [off]. *)
Definition splice {A} (off : nat) (src l : list A) : list A :=
  take off l ++ src ++ drop (off + length src) l.

(** Unlinking one element: [None] when it is not there. *)
Fixpoint list_remove {A} `{EqDecision A} (x : A) (l : list A) : option (list A) :=
  match l with
  | [] => None
  | y :: l => if decide (y = x) then Some l else l' ← list_remove x l; Some (y :: l')
  end.

(** ** Automation *)

Create HintDb mach.
Create Rewrite HintDb mach_small.

Ltac case_bool :=
  match goal with
  | |- context [if ?b then _ else _] => destruct b eqn:?
  end.

(** Turns the boolean tests of the code into propositions. *)
Ltac bool_to_prop :=
  repeat match goal with
  | H : (_ && _)%bool = true |- _ => apply andb_true_iff in H as [? ?]
  | H : (_ || _)%bool = false |- _ => apply orb_false_iff in H as [? ?]
  | H : negb _ = true |- _ => apply negb_true_iff in H
  | H : negb _ = false |- _ => apply negb_false_iff in H
  | H : (_ =? _) = true |- _ => apply Z.eqb_eq in H
  | H : (_ =? _) = false |- _ => apply Z.eqb_neq in H
  | H : (_ <? _) = true |- _ => apply Z.ltb_lt in H
  | H : (_ <? _) = false |- _ => apply Z.ltb_ge in H
  | H : (_ <=? _) = true |- _ => apply Z.leb_le in H
  | H : (_ <=? _) = false |- _ => apply Z.leb_gt in H
  | H : (_ >=? _) = true |- _ => rewrite Z.geb_leb in H; apply Z.leb_le in H
  | H : (_ >=? _) = false |- _ => rewrite Z.geb_leb in H; apply Z.leb_gt in H
  | H : (_ >? _) = true |- _ => rewrite Z.gtb_ltb in H; apply Z.ltb_lt in H
  | H : (_ >? _) = false |- _ => rewrite Z.gtb_ltb in H; apply Z.ltb_ge in H
  end.

(** ** Lemmas on machine integers *)

Lemma wrap_bound w z : 0 <= w -> fits w (wrap w z).
Proof. intros. apply Z.mod_pos_bound, Z.pow_pos_nonneg; lia. Qed.

Lemma wrap_small w z : fits w z -> wrap w z = z.
Proof. apply Z.mod_small. Qed.

Lemma wrap_wrap w z : wrap w (wrap w z) = wrap w z.
Proof. unfold wrap. apply Zmod_mod. Qed.

Lemma u8_bound z : 0 <= u8 z < 2 ^ 8.
Proof. by apply wrap_bound. Qed.
Lemma u16_bound z : 0 <= u16 z < 2 ^ 16.
Proof. by apply wrap_bound. Qed.
Lemma u32_bound z : 0 <= u32 z < 2 ^ 32.
Proof. by apply wrap_bound. Qed.
Lemma u64_bound z : 0 <= u64 z < 2 ^ 64.
Proof. by apply wrap_bound. Qed.
Lemma u8_small z : 0 <= z < 2 ^ 8 -> u8 z = z.
Proof. apply wrap_small. Qed.
Lemma u16_small z : 0 <= z < 2 ^ 16 -> u16 z = z.
Proof. apply wrap_small. Qed.
Lemma u32_small z : 0 <= z < 2 ^ 32 -> u32 z = z.
Proof. apply wrap_small. Qed.
Lemma u64_small z : 0 <= z < 2 ^ 64 -> u64 z = z.
Proof. apply wrap_small. Qed.

#[export] Hint Resolve wrap_bound u8_bound u16_bound u32_bound u64_bound : mach.
#[export] Hint Rewrite u8_small u16_small u32_small u64_small using lia : mach_small.

Lemma testbit_wrap w z i : 0 <= i -> 0 <= w ->
  Z.testbit (wrap w z) i = ((i <? w) && Z.testbit z i)%bool.
Proof.
  intros. unfold wrap. destruct (Z.ltb_spec i w).
  - by rewrite Z.mod_pow2_bits_low.
  - by rewrite Z.mod_pow2_bits_high by lia.
Qed.

(** Bits at or above the width of a value are clear. *)
Lemma testbit_fits w z i : fits w z -> w <= i -> Z.testbit z i = false.
Proof.
  intros [? Hz] ?. destruct (decide (w < 0)).
  { rewrite Z.pow_neg_r in Hz; lia. }
  rewrite <- (wrap_small w z) by done. rewrite testbit_wrap by lia.
  destruct (Z.ltb_spec i w); [lia|done].
Qed.

Lemma fits_bits w z : 0 <= w -> 0 <= z ->
  (forall i, w <= i -> Z.testbit z i = false) -> fits w z.
Proof.
  intros Hw Hz Hb. split; [done|]. destruct (Z.lt_ge_cases z (2 ^ w)); [done|].
  assert (0 < z) by (pose proof (Z.pow_pos_nonneg 2 w); lia).
  pose proof (Z.bit_log2 z) as Hl. rewrite Hb in Hl.
  - by apply Hl in H0.
  - apply Z.log2_le_pow2; lia.
Qed.

Lemma fits_lor w a b : 0 <= w -> fits w a -> fits w b -> fits w (Z.lor a b).
Proof.
  intros Hw [Ha1 Ha2] [Hb1 Hb2]. apply fits_bits; [done| |].
  - apply Z.lor_nonneg; lia.
  - intros i Hi. rewrite Z.lor_spec.
    rewrite (testbit_fits w a), (testbit_fits w b); done.
Qed.

Lemma fits_land w a b : 0 <= w -> fits w a -> 0 <= b -> fits w (Z.land a b).
Proof.
  intros Hw [Ha1 Ha2] Hb. apply fits_bits; [done| |].
  - apply Z.land_nonneg; lia.
  - intros i Hi. rewrite Z.land_spec. rewrite (testbit_fits w a); done.
Qed.

Lemma u64_lnot_ones k : 0 <= k <= 64 ->
  u64 (Z.lnot (2 ^ k - 1)) = 2 ^ 64 - 2 ^ k.
Proof.
  intros. unfold u64, wrap. unfold Z.lnot.
  pose proof (Z.pow_le_mono_r 2 k 64). pose proof (Z.pow_pos_nonneg 2 k).
  symmetry. apply Z.mod_unique with (-1); lia.
Qed.

Lemma land_lnot_low k z : 0 <= k <= 64 -> fits 64 z ->
  Z.land z (u64 (Z.lnot (2 ^ k - 1))) = z / 2 ^ k * 2 ^ k.
Proof.
  intros Hk Hz. rewrite <- Z.shiftr_div_pow2, <- Z.shiftl_mul_pow2 by lia.
  apply Z.bits_inj'. intros i Hi. rewrite Z.land_spec.
  rewrite Z.shiftl_spec by lia. unfold u64. rewrite testbit_wrap by lia.
  rewrite Z.lnot_spec by lia.
  replace (2 ^ k - 1) with (Z.ones k) by (rewrite Z.ones_equiv; lia).
  destruct (Z.lt_ge_cases i k).
  - rewrite Z.ones_spec_low by lia. rewrite Z.testbit_neg_r with (n := i - k) by lia.
    by rewrite andb_false_r, andb_false_r.
  - rewrite Z.ones_spec_high by lia. rewrite Z.shiftr_spec by lia.
    replace (i - k + k) with i by lia. rewrite andb_true_r.
    destruct (Z.ltb_spec i 64); [by rewrite andb_true_r|].
    by rewrite (testbit_fits 64 z i).
Qed.

(** [ALIGNDOWN] and [ALIGNUP] at a power of two are rounding. *)
Lemma ALIGNDOWN_spec k z : 0 <= k <= 64 -> fits 64 z ->
  ALIGNDOWN z (2 ^ k) = z / 2 ^ k * 2 ^ k.
Proof. apply land_lnot_low. Qed.

Lemma ALIGNUP_spec k z : 0 <= k <= 64 -> 0 <= z -> z + (2 ^ k - 1) < 2 ^ 64 ->
  ALIGNUP z (2 ^ k) = (z + (2 ^ k - 1)) / 2 ^ k * 2 ^ k.
Proof.
  intros. unfold ALIGNUP. pose proof (Z.pow_pos_nonneg 2 k).
  rewrite (u64_small (z + (2 ^ k - 1))) by lia.
  apply land_lnot_low; [lia|]. split; lia.
Qed.

(** ** Lemmas on bytes *)

Lemma length_le_bytes n z : length (le_bytes n z) = n.
Proof. revert z. induction n; intros; simpl; auto. Qed.

Lemma le_bytes_range n z : Forall (fun b => 0 <= b < 256) (le_bytes n z).
Proof.
  revert z. induction n; intros; simpl; constructor; auto.
  apply Z.mod_pos_bound. lia.
Qed.

Lemma le_val_bytes n z : le_val (le_bytes n z) = z mod 2 ^ (8 * Z.of_nat n).
Proof.
  revert z. induction n as [|n IH]; intros z.
  { simpl. by rewrite Z.mod_1_r. }
  cbn [le_bytes le_val]. rewrite IH.
  replace (8 * Z.of_nat (S n)) with (8 + 8 * Z.of_nat n) by lia.
  rewrite Z.pow_add_r by lia. change (2 ^ 8) with 256.
  rewrite Z.rem_mul_r; [lia|lia|]. apply Z.pow_pos_nonneg; lia.
Qed.

Lemma le_bytes_val bs : Forall (fun b => 0 <= b < 256) bs ->
  le_bytes (length bs) (le_val bs) = bs.
Proof.
  induction 1 as [|b bs Hb _ IH]; [done|]. cbn [length le_val le_bytes].
  f_equal.
  - rewrite Z.mul_comm, Z_mod_plus_full. by apply Z.mod_small.
  - rewrite Z.mul_comm, Z.div_add by lia. by rewrite (Z.div_small b).
Qed.

Lemma le_val_bound bs : Forall (fun b => 0 <= b < 256) bs ->
  0 <= le_val bs < 2 ^ (8 * Z.of_nat (length bs)).
Proof.
  induction 1 as [|b bs Hb _ IH]; [simpl; lia|]. cbn [length le_val].
  replace (8 * Z.of_nat (S (length bs))) with (8 + 8 * Z.of_nat (length bs)) by lia.
  rewrite Z.pow_add_r by lia. change (2 ^ 8) with 256. lia.
Qed.

(** ** Lemmas on [splice] *)

Lemma length_splice {A} off (src l : list A) :
  (off + length src <= length l)%nat -> length (splice off src l) = length l.
Proof. intros. unfold splice. rewrite !length_app, length_take, length_drop. lia. Qed.

Lemma splice_nil {A} off (l : list A) : splice off [] l = l.
Proof. unfold splice. simpl. rewrite Nat.add_0_r. apply take_drop. Qed.

Lemma lookup_splice_in {A} off (src l : list A) i :
  (off <= i < off + length src)%nat -> (off + length src <= length l)%nat ->
  splice off src l !! i = src !! (i - off)%nat.
Proof.
  intros. unfold splice. rewrite lookup_app_r; rewrite length_take; [|lia].
  rewrite lookup_app_l by lia. f_equal. lia.
Qed.

Lemma lookup_splice_out {A} off (src l : list A) i :
  (i < off \/ off + length src <= i)%nat -> (off + length src <= length l)%nat ->
  splice off src l !! i = l !! i.
Proof.
  intros. unfold splice. destruct (decide (i < off)%nat).
  - rewrite lookup_app_l by (rewrite length_take; lia). by rewrite lookup_take_lt.
  - rewrite lookup_app_r; rewrite length_take; [|lia].
    rewrite lookup_app_r by lia. rewrite lookup_drop. f_equal. lia.
Qed.

(** ** Lemmas on lists *)

Lemma NoDup_middle {A} (l1 l2 : list A) x :
  NoDup (l1 ++ x :: l2) <-> x ∉ l1 ++ l2 /\ NoDup (l1 ++ l2).
Proof. rewrite <- Permutation_middle. apply NoDup_cons. Qed.

Lemma list_remove_elem {A} `{EqDecision A} (x : A) l : x ∈ l -> NoDup l ->
  exists l', list_remove x l = Some l' /\ NoDup l' /\ forall y, y ∈ l' <-> y ∈ l /\ y <> x.
Proof.
  induction l as [|y l IH]; [by intros ?%elem_of_nil|]. intros Hx [Hy Hnd]%NoDup_cons.
  simpl. case_decide as Hd.
  - subst. exists l. split_and!; [done..|]. set_solver.
  - destruct IH as (l' & -> & Hnd' & Hl'); [set_solver|done|]. simpl. eexists.
    split_and!; [done| |].
    + apply NoDup_cons. split; [|done]. rewrite Hl'. tauto.
    + intros z. rewrite !elem_of_cons, Hl'. split; [|tauto].
      intros [->|[? ?]]; [split; [by left|congruence]|tauto].
Qed.
