(* ===== verification/Bits.v ===== *)
(** * Bit utilities of the kernel's standard library (src/src/std/bit.hpp)

    Byte order conversion, bit counting and powers of two.  A template over an
    unsigned type [T] takes the number of bits [digits] of [T]
    ([numeric_limits<T>::digits]); the compiler builtins are written out.  A
    shift by the width or more is undefined behaviour in C++ and is [None]. *)

From S2P Require Import Prelude.

(** ** Compiler builtins *)

(** [__builtin_clz]/[clzl]: leading zeros of a non-zero [n]-bit value. *)
Definition builtin_clz (n value : Z) : Z := n - 1 - Z.log2 value.

Fixpoint pos_ctz (p : positive) : Z :=
  match p with
  | xO p => 1 + pos_ctz p
  | _ => 0
  end.

(** [__builtin_ctz]: trailing zeros of a non-zero value. *)
Definition builtin_ctz (value : Z) : Z :=
  match value with
  | Zpos p => pos_ctz p
  | _ => 0
  end.

Fixpoint pos_popcount (p : positive) : Z :=
  match p with
  | xH => 1
  | xO p => pos_popcount p
  | xI p => 1 + pos_popcount p
  end.

(** [__builtin_popcount]: the number of set bits. *)
Definition builtin_popcount (value : Z) : Z :=
  match value with
  | Zpos p => pos_popcount p
  | _ => 0
  end.

(** [__builtin_bswap]: the bytes of an [n]-byte value in reverse order. *)
Definition builtin_bswap (n : nat) (value : Z) : Z :=
  le_val (rev (le_bytes n value)).

(** ** The library functions *)

Definition byteswap (size : nat) (value : Z) : Z :=
  match size with
  | 1%nat => value
  | _ => builtin_bswap size value
  end.

(** Both supported architectures are little-endian. *)
Definition to_ne_from_be (size : nat) (value : Z) : Z := byteswap size value.
Definition to_be (size : nat) (value : Z) : Z := byteswap size value.

Definition has_single_bit (digits value : Z) : bool :=
  negb (value =? 0) && (Z.land value (wrap digits (value - 1)) =? 0).

Definition countl_zero (digits value : Z) : Z :=
  if value =? 0 then digits
  else if digits <=? 32 then builtin_clz 32 value - (32 - digits)
  else builtin_clz 64 value - (64 - digits).

Definition countl_one (digits value : Z) : Z :=
  countl_zero digits (wrap digits (Z.lnot value)).

Definition countr_zero (digits value : Z) : Z :=
  if value =? 0 then digits else builtin_ctz value.

Definition countr_one (digits value : Z) : Z :=
  countr_zero digits (wrap digits (Z.lnot value)).

Definition bit_width (digits value : Z) : Z := digits - countl_zero digits value.

Definition shl_checked (digits value n : Z) : option Z :=
  if n <? digits then Some (wrap digits (Z.shiftl value n)) else None.

Definition bit_ceil (digits value : Z) : option Z :=
  shl_checked digits 1 (bit_width digits (wrap digits (value - 1))).

Definition bit_floor (digits value : Z) : option Z :=
  if value =? 0 then Some 0
  else shl_checked digits 1 (bit_width digits value - 1).

Definition popcount (value : Z) : Z := builtin_popcount value.

(** ** Byte order *)

Lemma builtin_bswap_involutive n v : fits (8 * Z.of_nat n) v ->
  builtin_bswap n (builtin_bswap n v) = v.
Proof.
  intros Hv. unfold builtin_bswap.
  replace n with (length (rev (le_bytes n v))) at 1
    by (rewrite length_rev; apply length_le_bytes).
  rewrite le_bytes_val by (apply Forall_rev, le_bytes_range).
  rewrite rev_involutive, le_val_bytes. by apply Z.mod_small.
Qed.

Lemma builtin_bswap_fits n v : fits (8 * Z.of_nat n) (builtin_bswap n v).
Proof.
  unfold builtin_bswap.
  replace (8 * Z.of_nat n) with (8 * Z.of_nat (length (rev (le_bytes n v)))).
  - apply le_val_bound, Forall_rev, le_bytes_range.
  - by rewrite length_rev, length_le_bytes.
Qed.

(** [to_ne_from_be] undoes [to_be], and both stay in range. *)
Lemma to_ne_to_be size v : fits (8 * Z.of_nat size) v ->
  to_ne_from_be size (to_be size v) = v.
Proof.
  intros. unfold to_ne_from_be, to_be, byteswap.
  destruct size as [|[|]]; auto using builtin_bswap_involutive.
Qed.

Lemma to_be_to_ne size v : fits (8 * Z.of_nat size) v ->
  to_be size (to_ne_from_be size v) = v.
Proof. apply to_ne_to_be. Qed.

Lemma to_be_fits size v : fits (8 * Z.of_nat size) v ->
  fits (8 * Z.of_nat size) (to_be size v).
Proof.
  intros. unfold to_be, byteswap. destruct size as [|[|]]; auto.
  - apply (builtin_bswap_fits 0).
  - apply builtin_bswap_fits.
Qed.

Lemma to_be_inj size a b : fits (8 * Z.of_nat size) a -> fits (8 * Z.of_nat size) b ->
  to_be size a = to_be size b -> a = b.
Proof.
  intros Ha Hb Hab. rewrite <- (to_ne_to_be size a), <- (to_ne_to_be size b) by done.
  by rewrite Hab.
Qed.

(** ** Bit counting *)

Lemma bit_width_log2 digits v : 0 < v < 2 ^ digits -> 0 < digits <= 64 ->
  bit_width digits v = Z.log2 v + 1.
Proof.
  intros. unfold bit_width, countl_zero, builtin_clz.
  destruct (Z.eqb_spec v 0); [lia|]. destruct (Z.leb_spec digits 32); lia.
Qed.

Lemma countl_zero_64 v : 0 < v < 2 ^ 64 -> countl_zero 64 v = 63 - Z.log2 v.
Proof.
  intros. pose proof (bit_width_log2 64 v). unfold bit_width in *. lia.
Qed.

Lemma pos_ctz_spec p : exists q, Zpos p = 2 ^ pos_ctz p * (2 * q + 1) /\ 0 <= q /\ 0 <= pos_ctz p.
Proof.
  induction p as [p IH|p IH|].
  - exists (Zpos p). cbn [pos_ctz]. rewrite Z.pow_0_r. lia.
  - destruct IH as (q & Hq & ? & ?). exists q. cbn [pos_ctz].
    rewrite Z.pow_add_r by lia. lia.
  - exists 0. cbn [pos_ctz]. rewrite Z.pow_0_r. lia.
Qed.

(** Trailing zeros: the value is an odd multiple of that power of two. *)
Lemma countr_zero_spec digits v : 0 < v ->
  0 <= countr_zero digits v /\ exists q, v = 2 ^ countr_zero digits v * (2 * q + 1).
Proof.
  intros. unfold countr_zero. destruct (Z.eqb_spec v 0); [lia|].
  destruct v as [|p|p]; try lia. destruct (pos_ctz_spec p) as (q & Hq & ? & ?).
  simpl. eauto.
Qed.

Lemma has_single_bit_pow2 digits v : 0 <= digits -> fits digits v ->
  has_single_bit digits v = true <-> exists k, 0 <= k /\ v = 2 ^ k.
Proof.
  intros Hd [Hv1 Hv2]. unfold has_single_bit. split.
  - intros Hb. apply andb_true_iff in Hb as [Hne Hl]. bool_to_prop.
    rewrite wrap_small in Hl by (split; lia).
    exists (Z.log2 v). split; [apply Z.log2_nonneg|].
    pose proof (Z.log2_spec v) as Hs.
    destruct (Z.eq_dec v (2 ^ Z.log2 v)) as [|Hneq]; [done|exfalso].
    assert (Hb : Z.testbit (Z.land v (v - 1)) (Z.log2 v) = true).
    { rewrite Z.land_spec, Z.bit_log2 by lia.
      assert (Z.log2 (v - 1) = Z.log2 v) as <-.
      { apply Z.log2_unique; [apply Z.log2_nonneg|]. lia. }
      assert (1 < v).
      { destruct (Z.eq_dec v 1) as [->|]; [by exfalso|lia]. }
      rewrite Z.bit_log2 by lia. done. }
    rewrite Hl, Z.testbit_0_l in Hb. done.
  - intros (k & Hk & ->). pose proof (Z.pow_pos_nonneg 2 k).
    apply andb_true_iff. split.
    + apply negb_true_iff, Z.eqb_neq. lia.
    + rewrite wrap_small by (split; lia). apply Z.eqb_eq.
      replace (2 ^ k - 1) with (Z.ones k) by (rewrite Z.ones_equiv; lia).
      rewrite Z.land_ones by lia. apply Z_mod_same_full.
Qed.

(** [bit_ceil] at a positive value that has a power of two above it in range is
    the least such power. *)
Lemma bit_ceil_least digits v : 0 < digits <= 64 -> 1 <= v <= 2 ^ (digits - 1) ->
  exists k, bit_ceil digits v = Some (2 ^ k) /\ 0 <= k < digits /\
    v <= 2 ^ k /\ forall j, 0 <= j -> v <= 2 ^ j -> k <= j.
Proof.
  intros Hd Hv. assert (Hp : 2 ^ digits = 2 * 2 ^ (digits - 1)).
  { rewrite <- Z.pow_succ_r by lia. f_equal. lia. }
  unfold bit_ceil. rewrite wrap_small by (split; lia).
  destruct (Z.eq_dec v 1) as [->|Hne].
  - exists 0. simpl. unfold bit_width, countl_zero. simpl.
    replace (digits - digits) with 0 by lia. unfold shl_checked.
    destruct (Z.ltb_spec 0 digits); [|lia]. rewrite wrap_small.
    + repeat split; lia.
    + pose proof (Z.pow_gt_1 2 digits). split; [done|].
      change (Z.shiftl 1 0) with 1. lia.
  - exists (Z.log2 (v - 1) + 1). rewrite bit_width_log2 by lia.
    pose proof (Z.log2_spec (v - 1)) as Hs. pose proof (Z.log2_nonneg (v - 1)).
    assert (Z.log2 (v - 1) < digits - 1) by (apply Z.log2_lt_pow2; lia).
    unfold shl_checked. destruct (Z.ltb_spec (Z.log2 (v - 1) + 1) digits); [|lia].
    rewrite Z.shiftl_1_l. rewrite wrap_small.
    2: { split; [apply Z.pow_nonneg; lia|]. apply Z.pow_lt_mono_r; lia. }
    replace (Z.succ (Z.log2 (v - 1))) with (Z.log2 (v - 1) + 1) in Hs by lia.
    repeat split; try lia. intros j Hj Hvj.
    destruct (Z.lt_ge_cases j (Z.log2 (v - 1) + 1)); [|lia].
    assert (2 ^ j <= 2 ^ Z.log2 (v - 1)) by (apply Z.pow_le_mono_r; lia). lia.
Qed.

(** [bit_floor] is the greatest power of two below a positive value. *)
Lemma bit_floor_greatest digits v : 0 < digits <= 64 -> 0 < v < 2 ^ digits ->
  bit_floor digits v = Some (2 ^ Z.log2 v).
Proof.
  intros Hd Hv. unfold bit_floor. destruct (Z.eqb_spec v 0); [lia|].
  rewrite bit_width_log2 by lia. replace (Z.log2 v + 1 - 1) with (Z.log2 v) by lia.
  assert (Z.log2 v < digits) by (apply Z.log2_lt_pow2; lia).
  pose proof (Z.log2_nonneg v).
  unfold shl_checked. destruct (Z.ltb_spec (Z.log2 v) digits); [|lia].
  rewrite Z.shiftl_1_l, wrap_small; [done|].
  split; [apply Z.pow_nonneg; lia|]. apply Z.pow_lt_mono_r; lia.
Qed.
