(* ===== verification/DoubleList.v ===== *)
(** * The intrusive doubly linked list (src/src/std/double_list.hpp)

    The code's list is a pair of pointers into nodes that carry a
    [DoubleListHook].  The store maps the address of every live node to its
    hook; dereferencing an address outside the store is undefined behaviour and
    is [None].  The operations are transcribed pointer write by pointer write,
    and refine operations on sequences, which is the view of the list that the
    other components use. *)

From S2P Require Import Prelude.

Module DoubleList.

(** A pointer: [None] is [nullptr]. *)
Definition ptr : Set := option Z.

Record hook := Hook { prev : ptr; next : ptr }.

(** The hooks of all nodes, by address. *)
Definition store : Type := gmap Z hook.

Record dlist := DList { root : ptr; end_ : ptr }.

#[global] Instance hook_eq_dec : EqDecision hook.
Proof. solve_decision. Defined.
#[global] Instance dlist_eq_dec : EqDecision dlist.
Proof. solve_decision. Defined.

Definition empty_list : dlist := DList None None.

(** [(value->*Hook).prev = p] and [(value->*Hook).next = p]. *)
Definition set_prev (value : Z) (p : ptr) (h : gmap Z hook) : option (gmap Z hook) :=
  k ← h !! value; Some (<[value := Hook p (next k)]> h).
Definition set_next (value : Z) (p : ptr) (h : gmap Z hook) : option (gmap Z hook) :=
  k ← h !! value; Some (<[value := Hook (prev k) p]> h).

Definition push_front (value : Z) (h : gmap Z hook) (l : dlist) : option (gmap Z hook * dlist) :=
  h ← set_prev value None h;
  h ← set_next value (root l) h;
  match root l with
  | Some r => h ← set_prev r (Some value) h; Some (h, DList (Some value) (end_ l))
  | None => Some (h, DList (Some value) (Some value))
  end.

Definition push (value : Z) (h : gmap Z hook) (l : dlist) : option (gmap Z hook * dlist) :=
  h ← set_prev value (end_ l) h;
  h ← set_next value None h;
  match end_ l with
  | Some e => h ← set_next e (Some value) h; Some (h, DList (root l) (Some value))
  | None => Some (h, DList (Some value) (Some value))
  end.

Definition pop_front (h : gmap Z hook) (l : dlist) : option (gmap Z hook * dlist * ptr) :=
  match root l with
  | None => Some (h, l, None)
  | Some node =>
      k ← h !! node;
      match next k with
      | Some r => h ← set_prev r None h; Some (h, DList (Some r) (end_ l), Some node)
      | None => Some (h, DList None None, Some node)
      end
  end.

Definition pop (h : gmap Z hook) (l : dlist) : option (gmap Z hook * dlist * ptr) :=
  match end_ l with
  | None => Some (h, l, None)
  | Some node =>
      k ← h !! node;
      match prev k with
      | Some e => h ← set_next e None h; Some (h, DList (root l) (Some e), Some node)
      | None => Some (h, DList None None, Some node)
      end
  end.

Definition remove (value : Z) (h : gmap Z hook) (l : dlist) : option (gmap Z hook * dlist) :=
  k ← h !! value;
  let p := prev k in
  hl ← match p with
       | Some pv => h ← set_next pv (next k) h; Some (h, l)
       | None => Some (h, DList (next k) (end_ l))
       end;
  let '(h, l) := hl in
  k ← h !! value;
  match next k with
  | Some nx => h ← set_prev nx p h; Some (h, l)
  | None => Some (h, DList (root l) p)
  end.

Definition insert (pv : ptr) (value : Z) (h : gmap Z hook) (l : dlist)
    : option (gmap Z hook * dlist) :=
  h ← set_prev value pv h;
  hl ← match pv with
       | Some p =>
           kp ← h !! p;
           h ← set_next value (next kp) h;
           h ← set_next p (Some value) h;
           Some (h, l)
       | None =>
           h ← set_next value (root l) h;
           Some (h, DList (Some value) (end_ l))
       end;
  let '(h, l) := hl in
  k ← h !! value;
  match next k with
  | Some nx => h ← set_prev nx (Some value) h; Some (h, l)
  | None => Some (h, DList (root l) (Some value))
  end.

Definition insert_before (nx : ptr) (value : Z) (h : gmap Z hook) (l : dlist)
    : option (gmap Z hook * dlist) :=
  h ← set_next value nx h;
  match nx with
  | Some n =>
      kn ← h !! n;
      h ← set_prev value (prev kn) h;
      h ← set_prev n (Some value) h;
      k ← h !! value;
      match prev k with
      | Some p => h ← set_next p (Some value) h; Some (h, l)
      | None => Some (h, DList (Some value) (end_ l))
      end
  | None =>
      h ← set_prev value None h;
      h ← set_next value (root l) h;
      match root l with
      | Some r => h ← set_prev r (Some value) h; Some (h, DList (Some value) (end_ l))
      | None => Some (h, DList (Some value) (Some value))
      end
  end.

Definition clear (_ : dlist) : dlist := DList None None.

Definition is_empty (l : dlist) : bool :=
  match root l with Some _ => false | None => true end.

Definition front (l : dlist) : ptr := root l.
Definition back (l : dlist) : ptr := end_ l.

(** [class Iterator]: the successor is read when the iterator arrives at a
    node, so the loop body may unlink the current node. *)
Record iterator := Iterator { it_ptr : ptr; it_next : ptr }.

Definition iter_at (h : gmap Z hook) (p : ptr) : option iterator :=
  match p with
  | Some v => k ← h !! v; Some (Iterator p (next k))
  | None => Some (Iterator None None)
  end.

Definition begin_ (h : gmap Z hook) (l : dlist) : option iterator := iter_at h (root l).

Definition iter_incr (h : gmap Z hook) (it : iterator) : option iterator :=
  match it_next it with
  | Some v => k ← h !! v; Some (Iterator (Some v) (next k))
  | None => Some (Iterator None (it_next it))
  end.

(** [find]; the loop runs at most once per node, which is the fuel. *)
Fixpoint find_loop (fuel : nat) (comp : Z -> bool) (h : gmap Z hook) (it : iterator)
    : option ptr :=
  match it_ptr it with
  | None => Some None
  | Some v =>
      if comp v then Some (Some v)
      else match fuel with
           | O => None
           | S fuel => it ← iter_incr h it; find_loop fuel comp h it
           end
  end.

Definition find (comp : Z -> bool) (h : gmap Z hook) (l : dlist) : option ptr :=
  it ← begin_ h l; find_loop (size h) comp h it.

(** ** The operations as one step function *)

Inductive op :=
  | PushFront (value : Z) | Push (value : Z) | PopFront | Pop | Remove (value : Z)
  | Insert (pv : ptr) (value : Z) | InsertBefore (nx : ptr) (value : Z) | Clear.

Definition step (o : op) (h : gmap Z hook) (l : dlist) : option (gmap Z hook * dlist * ptr) :=
  let ret r := '(h, l) ← r; Some (h, l, None) in
  match o with
  | PushFront v => ret (push_front v h l)
  | Push v => ret (push v h l)
  | PopFront => pop_front h l
  | Pop => pop h l
  | Remove v => ret (remove v h l)
  | Insert p v => ret (insert p v h l)
  | InsertBefore n v => ret (insert_before n v h l)
  | Clear => Some (h, clear l, None)
  end.

Fixpoint run (os : list op) (h : gmap Z hook) (l : dlist)
    : option (gmap Z hook * dlist * list ptr) :=
  match os with
  | [] => Some (h, l, [])
  | o :: os =>
      '(h, l, r) ← step o h l;
      '(h, l, rs) ← run os h l;
      Some (h, l, r :: rs)
  end.

(** ** The specification on sequences *)

(** The part of [xs] before the first [x] and the part after it. *)
Fixpoint split_at (x : Z) (xs : list Z) : option (list Z * list Z) :=
  match xs with
  | [] => None
  | y :: ys =>
      if decide (y = x) then Some ([], ys)
      else '(l1, l2) ← split_at x ys; Some (y :: l1, l2)
  end.

(** What each operation does to the sequence and what it returns; [None] where
    the caller breaks the operation's contract (linking a node that is already
    linked or does not exist, unlinking one that is not linked). *)
Definition spec_step (nodes : Z -> bool) (o : op) (xs : list Z) : option (list Z * ptr) :=
  let fresh v := nodes v && negb (bool_decide (v ∈ xs)) in
  match o with
  | PushFront v => if fresh v then Some (v :: xs, None) else None
  | Push v => if fresh v then Some (xs ++ [v], None) else None
  | PopFront => Some (tail xs, head xs)
  | Pop => Some (take (length xs - 1) xs, last xs)
  | Remove v => '(l1, l2) ← split_at v xs; Some (l1 ++ l2, None)
  | Insert (Some p) v =>
      if fresh v then '(l1, l2) ← split_at p xs; Some (l1 ++ p :: v :: l2, None) else None
  | Insert None v => if fresh v then Some (v :: xs, None) else None
  | InsertBefore (Some n) v =>
      if fresh v then '(l1, l2) ← split_at n xs; Some (l1 ++ v :: n :: l2, None) else None
  | InsertBefore None v => if fresh v then Some (v :: xs, None) else None
  | Clear => Some ([], None)
  end.

Fixpoint spec_run (nodes : Z -> bool) (os : list op) (xs : list Z)
    : option (list Z * list ptr) :=
  match os with
  | [] => Some (xs, [])
  | o :: os =>
      '(xs, r) ← spec_step nodes o xs;
      '(xs, rs) ← spec_run nodes os xs;
      Some (xs, r :: rs)
  end.

(** ** The representation predicate *)

Definition hd_or (xs : list Z) (n : ptr) : ptr :=
  match xs with [] => n | x :: _ => Some x end.
Definition last_or (p : ptr) (xs : list Z) : ptr :=
  match last xs with Some x => Some x | None => p end.

(** [dseg h p xs n]: the nodes [xs] are linked both ways between [p] and [n]. *)
Fixpoint dseg (h : gmap Z hook) (p : ptr) (xs : list Z) (n : ptr) : Prop :=
  match xs with
  | [] => True
  | x :: xs => h !! x = Some (Hook p (hd_or xs n)) /\ dseg h (Some x) xs n
  end.

Definition dll (h : gmap Z hook) (l : dlist) (xs : list Z) : Prop :=
  NoDup xs /\ root l = hd_or xs None /\ end_ l = last_or None xs /\ dseg h None xs None.

(** ** Segment lemmas *)

Lemma dseg_app h p xs ys n :
  dseg h p (xs ++ ys) n <-> dseg h p xs (hd_or ys n) /\ dseg h (last_or p xs) ys n.
Proof.
  revert p. induction xs as [|x xs IH]; intros p; [by simpl; tauto|].
  cbn [dseg app]. rewrite IH.
  assert (hd_or (xs ++ ys) n = hd_or xs (hd_or ys n)) as -> by by destruct xs.
  assert (last_or (Some x) xs = last_or p (x :: xs)) as ->.
  { unfold last_or. rewrite last_cons. by destruct (last xs). }
  tauto.
Qed.

Lemma dseg_frame h h' p xs n :
  (forall x, x ∈ xs -> h' !! x = h !! x) -> dseg h p xs n -> dseg h' p xs n.
Proof.
  revert p. induction xs as [|x xs IH]; intros p Hf; [done|]. simpl. intros [Hx Hxs].
  split; [rewrite Hf; [done|left]|]. apply IH; [|done]. intros. apply Hf. by right.
Qed.

Lemma dseg_insert h p xs n x k : x ∉ xs -> dseg h p xs n -> dseg (<[x := k]> h) p xs n.
Proof.
  intros Hx. apply dseg_frame. intros y Hy. apply lookup_insert_ne. by intros ->.
Qed.

Lemma last_or_app p xs x : last_or p (xs ++ [x]) = Some x.
Proof. unfold last_or. by rewrite last_snoc. Qed.

Lemma last_or_cons p x xs : last_or p (x :: xs) = last_or (Some x) xs.
Proof. unfold last_or. rewrite last_cons. by destruct (last xs). Qed.

Lemma last_or_app_cons p xs x ys : last_or p (xs ++ x :: ys) = last_or (Some x) ys.
Proof.
  revert p. induction xs as [|y xs IH]; intros p; simpl.
  - apply last_or_cons.
  - rewrite last_or_cons. apply IH.
Qed.

(** The last node of a segment points at what follows it. *)
Lemma dseg_last h p xs x n : dseg h p (xs ++ [x]) n -> h !! x = Some (Hook (last_or p xs) n).
Proof. intros [_ Hx]%dseg_app. simpl in Hx. tauto. Qed.

(** Redirecting the pointer that enters a segment. *)
Lemma dseg_set_prev h p p' x xs n : NoDup (x :: xs) ->
  dseg h p (x :: xs) n ->
  exists k, h !! x = Some k /\ next k = hd_or xs n /\
    dseg (<[x := Hook p' (next k)]> h) p' (x :: xs) n.
Proof.
  intros [Hx ?]%NoDup_cons [Hhx Hs]. eexists. split; [done|]. split; [done|]. simpl.
  split; [by rewrite lookup_insert_eq|]. by apply dseg_insert.
Qed.

(** Redirecting the pointer that leaves a segment. *)
Lemma dseg_set_next h p n n' x xs : NoDup (xs ++ [x]) ->
  dseg h p (xs ++ [x]) n ->
  exists k, h !! x = Some k /\ prev k = last_or p xs /\
    dseg (<[x := Hook (prev k) n']> h) p (xs ++ [x]) n'.
Proof.
  intros Hnd [H1 [H2 _]]%dseg_app. eexists. split; [done|]. split; [done|].
  apply NoDup_app in Hnd as (_ & Hnd & _). simpl.
  apply dseg_app. split.
  - apply dseg_insert; [|done]. intros Hx. apply (Hnd x Hx). left.
  - simpl. by rewrite lookup_insert_eq.
Qed.

Lemma split_at_app x xs l1 l2 : split_at x xs = Some (l1, l2) -> xs = l1 ++ x :: l2 /\ x ∉ l1.
Proof.
  revert l1. induction xs as [|y ys IH]; intros l1; simpl; [done|].
  case_decide as Hd; intros Hs; simplify_eq/=.
  - split; [done|apply not_elem_of_nil].
  - destruct (split_at x ys) as [[a b]|]; simplify_eq/=.
    destruct (IH a) as [-> Hn]; [done|]. split; [done|].
    apply not_elem_of_cons. by split.
Qed.

Lemma split_at_elem x xs : x ∈ xs -> is_Some (split_at x xs).
Proof.
  induction xs as [|y ys IH]; [by intros ?%elem_of_nil|]. simpl. case_decide; [eauto|].
  intros [->|Hx]%elem_of_cons; [done|]. destruct IH as [[a b] ->]; [done|]. simpl. eauto.
Qed.

(** ** Each operation on a represented list *)

(** The operation touched only the nodes of [D] and freed none. *)
Definition only_touches (h h' : gmap Z hook) (D : list Z) : Prop :=
  (forall y, y ∉ D -> h' !! y = h !! y) /\ (forall y, is_Some (h' !! y) <-> is_Some (h !! y)).

Lemma only_touches_refl h D : only_touches h h D.
Proof. by split. Qed.

Lemma only_touches_insert h h' D x k : is_Some (h !! x) -> x ∈ D ->
  only_touches h h' D -> only_touches h (<[x := k]> h') D.
Proof.
  intros Hs HD [Hf Hd]. split; intros y.
  - intros Hy. rewrite lookup_insert_ne; [auto|]. by intros ->.
  - destruct (decide (x = y)) as [<-|].
    + rewrite lookup_insert_eq. split; eauto.
    + by rewrite lookup_insert_ne.
Qed.

Ltac hooks := repeat first
  [ progress simplify_eq/=
  | rewrite lookup_insert_eq | rewrite insert_insert_eq
  | rewrite lookup_insert_ne by (set_solver || congruence)
  | match goal with H : ?h !! ?x = Some _ |- context [?h !! ?x] => rewrite H end ].

Lemma push_front_dll h l xs v : dll h l xs -> is_Some (h !! v) -> v ∉ xs ->
  exists h' l', push_front v h l = Some (h', l') /\ dll h' l' (v :: xs) /\
    only_touches h h' (v :: xs).
Proof.
  intros (Hnd & Hr & He & Hs) [k Hk] Hv. unfold push_front, set_prev, set_next.
  rewrite Hk. hooks. rewrite Hr. destruct xs as [|r xs]; simpl.
  - eexists _, _. split; [done|]. split.
    + split; [apply NoDup_singleton|]. split_and!; [done..|]. simpl. hooks. done.
    + apply only_touches_insert; [eauto|left|apply only_touches_refl].
  - assert (v ≠ r) by set_solver.
    destruct (dseg_set_prev (<[v:=Hook None (Some r)]> h) None (Some v) r xs None)
      as (kr & Hkr & Hnx & Hseg); [done|by apply dseg_insert|].
    rewrite Hkr. simpl. eexists _, _. split; [done|]. split.
    + split; [by apply NoDup_cons|]. split; [done|]. split; [by rewrite He, !last_or_cons|].
      cbn [dseg]. split; [by hooks|done].
    + rewrite lookup_insert_ne in Hkr by done.
      repeat apply only_touches_insert; eauto; [set_solver..|apply only_touches_refl].
Qed.

Lemma push_dll h l xs v : dll h l xs -> is_Some (h !! v) -> v ∉ xs ->
  exists h' l', push v h l = Some (h', l') /\ dll h' l' (xs ++ [v]) /\
    only_touches h h' (v :: xs).
Proof.
  intros (Hnd & Hr & He & Hs) [k Hk] Hv. unfold push, set_prev, set_next.
  rewrite Hk. hooks. rewrite He. destruct xs as [|e xs _] using rev_ind.
  - simpl. eexists _, _. split; [done|]. split.
    + split; [apply NoDup_singleton|]. split_and!; [done..|]. simpl. hooks. done.
    + apply only_touches_insert; [eauto|left|apply only_touches_refl].
  - rewrite last_or_app. assert (v ≠ e) by set_solver.
    destruct (dseg_set_next (<[v:=Hook (Some e) None]> h) None None (Some v) e xs)
      as (ke & Hke & Hpv & Hseg); [done|by apply dseg_insert|].
    rewrite Hke. simpl. eexists _, _. split; [done|]. split.
    + split; [|split; [|split]].
      * apply NoDup_app. split_and!; [done| |apply NoDup_singleton]. set_solver.
      * simpl. rewrite Hr. by destruct xs.
      * by rewrite last_or_app.
      * apply dseg_app. rewrite last_or_app. split; [done|]. cbn [dseg hd_or].
        split; [|done]. by hooks.
    + rewrite lookup_insert_ne in Hke by done.
      repeat apply only_touches_insert; eauto; [set_solver..|apply only_touches_refl].
Qed.

Lemma pop_front_dll h l xs : dll h l xs ->
  exists h' l', pop_front h l = Some (h', l', head xs) /\ dll h' l' (tail xs) /\
    only_touches h h' xs.
Proof.
  intros (Hnd & Hr & He & Hs). unfold pop_front. rewrite Hr.
  destruct xs as [|x [|y xs]]; simpl.
  - eexists _, _. split; [done|]. split; [|apply only_touches_refl].
    split_and!; [apply NoDup_nil_2|done|done|done].
  - destruct Hs as [-> _]. simpl. eexists _, _. split; [done|].
    split; [|apply only_touches_refl]. split_and!; [apply NoDup_nil_2|done|done|done].
  - destruct Hs as [-> Hs]. simpl. apply NoDup_cons in Hnd as [Hx Hnd].
    destruct (dseg_set_prev h (Some x) None y xs None) as (ky & Hky & _ & Hseg); [done..|].
    unfold set_prev. rewrite Hky. simpl. eexists _, _. split; [done|]. split.
    + split_and!; [done|done| |done]. by rewrite He, !last_or_cons.
    + apply only_touches_insert; [eauto|set_solver|apply only_touches_refl].
Qed.

Lemma pop_dll h l xs : dll h l xs ->
  exists h' l', pop h l = Some (h', l', last xs) /\ dll h' l' (take (length xs - 1) xs) /\
    only_touches h h' xs.
Proof.
  intros (Hnd & Hr & He & Hs). unfold pop. rewrite He.
  destruct xs as [|x xs _] using rev_ind.
  { eexists _, _. split; [done|]. split; [|apply only_touches_refl].
    split_and!; [apply NoDup_nil_2|done|done|done]. }
  rewrite last_or_app, last_snoc, length_app. simpl.
  replace (length xs + 1 - 1)%nat with (length xs) by lia. rewrite take_app_length.
  rewrite (dseg_last _ _ _ _ _ Hs). simpl.
  destruct xs as [|y xs _] using rev_ind.
  { simpl. eexists _, _. split; [done|]. split; [|apply only_touches_refl].
    split_and!; [apply NoDup_nil_2|done|done|done]. }
  rewrite last_or_app. apply NoDup_app in Hnd as (Hnd & Hx & _).
  apply dseg_app in Hs as [Hs _]. simpl in Hs.
  destruct (dseg_set_next h None (Some x) None y xs) as (ky & Hky & _ & Hseg); [done..|].
  unfold set_next. rewrite Hky. simpl. eexists _, _. split; [done|]. split.
  - split_and!; [done| |by rewrite last_or_app|done]. rewrite Hr. by destruct xs.
  - apply only_touches_insert; [eauto|set_solver|apply only_touches_refl].
Qed.

(** Unlinking the node between two segments. *)
Lemma remove_dll h l l1 x l2 : dll h l (l1 ++ x :: l2) ->
  exists h' l', remove x h l = Some (h', l') /\ dll h' l' (l1 ++ l2) /\
    only_touches h h' (l1 ++ x :: l2).
Proof.
  intros (Hnd & Hr & He & Hs). apply dseg_app in Hs as [Hs1 [Hx Hs2]]. simpl in Hs1.
  rewrite last_or_app_cons in He. unfold remove. rewrite Hx. cbn [mbind option_bind prev next].
  assert (Hnd' : NoDup (l1 ++ l2)).
  { by apply NoDup_middle in Hnd as [? ?]. }
  assert (x ∉ l1 /\ x ∉ l2) as [Hx1 Hx2].
  { apply NoDup_middle in Hnd as [? ?]. set_solver. }
  (* the predecessor, or the root *)
  assert (exists h1 l1',
    match last_or None l1 with
    | Some pv => h ← set_next pv (hd_or l2 None) h; Some (h, l)
    | None => Some (h, DList (hd_or l2 None) (end_ l))
    end = Some (h1, l1') /\ root l1' = hd_or (l1 ++ l2) None /\ end_ l1' = end_ l /\
    dseg h1 None l1 (hd_or l2 None) /\ (forall y, y ∉ l1 -> h1 !! y = h !! y) /\
    only_touches h h1 (l1 ++ x :: l2)) as (h1 & l' & -> & Hr1 & He1 & Hs1' & Hf1 & Ht1).
  { destruct l1 as [|pv l1 _] using rev_ind.
    - eexists _, _. split; [done|]. split_and!; try done.
    - rewrite last_or_app. rewrite <- app_assoc in Hnd'. apply NoDup_app in Hnd as (Hnd1 & _).
      destruct (dseg_set_next h None (Some x) (hd_or l2 None) pv l1)
        as (kp & Hkp & _ & Hseg); [done..|].
      unfold set_next. rewrite Hkp. simpl. eexists _, _. split; [done|]. split_and!; try done.
      + rewrite Hr. by destruct l1.
      + intros y Hy. apply lookup_insert_ne. set_solver.
      + apply only_touches_insert; [eauto|set_solver|apply only_touches_refl]. }
  simpl. rewrite (Hf1 x) by done. rewrite Hx. simpl.
  apply NoDup_app in Hnd' as (Hnd1 & Hdis & Hnd2).
  assert (Hs2' : dseg h1 (Some x) l2 None).
  { eapply dseg_frame; [|done]. intros y Hy. apply Hf1. intros Hy1. by apply (Hdis y). }
  destruct l2 as [|n l2]; simpl.
  - eexists _, _. split; [done|]. split; [|done].
    split_and!; [|done| |]; rewrite ?app_nil_r; try done.
  - destruct (dseg_set_prev h1 (Some x) (last_or None l1) n l2 None)
      as (kn & Hkn & _ & Hseg); [done..|].
    unfold set_prev. rewrite Hkn. simpl. eexists _, _. split; [done|]. split.
    + split_and!; [by apply NoDup_app|done| |].
      * by rewrite He1, He, last_or_app_cons, last_or_cons.
      * apply dseg_app. split; [|done]. apply dseg_insert; [|done].
        intros Hn. apply (Hdis n Hn). left.
    + apply only_touches_insert; [|set_solver|done]. apply Ht1. eauto.
Qed.

(** Linking a fresh node between two segments, by its predecessor. *)
Lemma insert_dll h l l1 p l2 v : dll h l (l1 ++ p :: l2) -> is_Some (h !! v) ->
  v ∉ l1 ++ p :: l2 ->
  exists h' l', insert (Some p) v h l = Some (h', l') /\ dll h' l' (l1 ++ p :: v :: l2) /\
    only_touches h h' (v :: l1 ++ p :: l2).
Proof.
  intros (Hnd & Hr & He & Hs) [k Hk] Hv.
  rewrite cons_middle, app_assoc in Hs. rewrite cons_middle, app_assoc in Hnd.
  apply dseg_app in Hs as [Hs1 Hs2].
  rewrite last_or_app in Hs2. rewrite last_or_app_cons in He.
  apply NoDup_app in Hnd as (Hnd1 & Hdis & Hnd2).
  assert (v ≠ p) by set_solver.
  unfold insert, set_prev, set_next. rewrite Hk. simpl.
  rewrite (lookup_insert_ne h v p) by done. rewrite (dseg_last _ _ _ _ _ Hs1). simpl.
  rewrite lookup_insert_eq. simpl. rewrite insert_insert_eq.
  destruct (dseg_set_next (<[v:=Hook (Some p) (hd_or l2 None)]> h) None (hd_or l2 None)
    (Some v) p l1) as (kp & Hkp & _ & Hseg); [done|apply dseg_insert; [set_solver|done]|].
  rewrite Hkp. simpl. rewrite lookup_insert_ne by done. rewrite lookup_insert_eq. simpl.
  rewrite lookup_insert_ne in Hkp by done.
  assert (Hndv : NoDup (l1 ++ p :: v :: l2)).
  { rewrite cons_middle, app_assoc. apply NoDup_app. split_and!; [done| |].
    - set_solver.
    - apply NoDup_cons. split; [set_solver|done]. }
  destruct l2 as [|n l2]; simpl.
  - eexists _, _. split; [done|]. split.
    + split_and!; [done| |by rewrite last_or_app_cons|].
      * simpl. rewrite Hr. by destruct l1.
      * rewrite cons_middle, app_assoc. apply dseg_app. rewrite last_or_app.
        split; [done|]. cbn [dseg hd_or]. split; [|done]. by hooks.
    + repeat apply only_touches_insert; eauto; [set_solver..|apply only_touches_refl].
  - assert (n ≠ p /\ n ≠ v) as [Hnp Hnv] by set_solver.
    assert (Hn : h !! n = Some (Hook (Some p) (hd_or l2 None))) by apply Hs2.
    rewrite !lookup_insert_ne by done. rewrite Hn. simpl.
    eexists _, _. split; [done|]. split.
    + split_and!; [done| | |].
      * rewrite Hr. by destruct l1.
      * by rewrite He, last_or_app_cons, !last_or_cons.
      * rewrite cons_middle, app_assoc. apply dseg_app. rewrite last_or_app. split.
        -- apply dseg_insert; [|done]. intros Hn'. apply (Hdis n Hn'). left.
        -- cbn [dseg hd_or]. destruct Hs2 as [_ Hs2]. apply NoDup_cons in Hnd2 as [? ?].
           split; [by hooks|]. split; [by hooks|].
           repeat (apply dseg_insert; [set_solver|]). done.
    + repeat apply only_touches_insert; eauto; [set_solver..|apply only_touches_refl].
Qed.

(** A node linked at the front: [insert] and [insert_before] at [nullptr]. *)
Lemma insert_null_dll h l xs v : dll h l xs -> is_Some (h !! v) -> v ∉ xs ->
  insert None v h l = push_front v h l /\ insert_before None v h l = push_front v h l.
Proof.
  intros (Hnd & Hr & He & Hs) [k Hk] Hv.
  unfold insert, insert_before, push_front, set_prev, set_next. rewrite Hk. hooks. rewrite Hr.
  destruct xs as [|r xs]; hooks; [done|]. by repeat (hooks; case_match).
Qed.

Lemma insert_before_dll h l l1 n l2 v : dll h l (l1 ++ n :: l2) -> is_Some (h !! v) ->
  v ∉ l1 ++ n :: l2 ->
  exists h' l', insert_before (Some n) v h l = Some (h', l') /\
    dll h' l' (l1 ++ v :: n :: l2) /\ only_touches h h' (v :: l1 ++ n :: l2).
Proof.
  intros (Hnd & Hr & He & Hs) [k Hk] Hv.
  apply dseg_app in Hs as [Hs1 Hs2]. rewrite last_or_app_cons in He.
  apply NoDup_app in Hnd as (Hnd1 & Hdis & Hnd2). assert (v ≠ n) by set_solver.
  unfold insert_before, set_prev, set_next. rewrite Hk. simpl.
  rewrite (lookup_insert_ne h v n) by done. destruct Hs2 as [Hn Hs2]. rewrite Hn. simpl.
  rewrite lookup_insert_eq. simpl. rewrite insert_insert_eq.
  rewrite (lookup_insert_ne h v n) by done. rewrite Hn. simpl.
  rewrite lookup_insert_ne by done. rewrite lookup_insert_eq. simpl.
  assert (Hndv : NoDup (l1 ++ v :: n :: l2)).
  { apply NoDup_app. split_and!; [done| |].
    - intros x Hx1 [->|Hx2]%elem_of_cons; [set_solver|]. by apply (Hdis x).
    - apply NoDup_cons. split; [set_solver|done]. }
  apply NoDup_cons in Hnd2 as [Hn2 Hnd2].
  destruct l1 as [|p l1 _] using rev_ind.
  - simpl. eexists _, _. split; [done|]. split.
    + split_and!; [done|done| |].
      * simpl. by rewrite He, !last_or_cons.
      * cbn [dseg hd_or app]. split; [by hooks|]. split; [by hooks|].
        repeat (apply dseg_insert; [set_solver|]). done.
    + repeat apply only_touches_insert; eauto; [set_solver..|apply only_touches_refl].
  - rewrite last_or_app. assert (p ≠ v) by set_solver.
    assert (p ≠ n). { intros ->. apply (Hdis n); [|left]. set_solver. }
    set (h2 := <[n:=Hook (Some v) (hd_or l2 None)]> (<[v:=Hook (Some p) (Some n)]> h)).
    destruct (dseg_set_next h2 None (Some n) (Some v) p l1) as (kp & Hkp & _ & Hseg);
      [done| |].
    { repeat (apply dseg_insert; [set_solver|]). done. }
    rewrite Hkp. simpl. eexists _, _. split; [done|]. split.
    + split_and!; [done| | |].
      * rewrite Hr. by destruct l1.
      * by rewrite He, last_or_app_cons, last_or_cons.
      * apply dseg_app. rewrite last_or_app. split; [done|]. cbn [dseg hd_or].
        unfold h2. split; [by hooks|]. split; [by hooks|].
        repeat (apply dseg_insert; [set_solver|]). done.
    + unfold h2 in Hkp. rewrite !lookup_insert_ne in Hkp by done.
      repeat apply only_touches_insert; eauto; [set_solver..|apply only_touches_refl].
Qed.

(** The nodes an operation may write. *)
Definition touched (o : op) (xs : list Z) : list Z :=
  match o with
  | PushFront v | Push v | Remove v | Insert _ v | InsertBefore _ v => v :: xs
  | PopFront | Pop | Clear => xs
  end.

Lemma only_touches_mono h h' D D' : D ⊆ D' -> only_touches h h' D -> only_touches h h' D'.
Proof. intros Hsub [Hf Hd]. split; [|done]. intros y Hy. apply Hf. set_solver. Qed.

Lemma step_refines nodes o h l xs xs' r :
  dll h l xs -> (forall v, nodes v = true -> is_Some (h !! v)) ->
  spec_step nodes o xs = Some (xs', r) ->
  exists h' l', step o h l = Some (h', l', r) /\ dll h' l' xs' /\
    only_touches h h' (touched o xs).
Proof.
  intros Hdll Hnodes Hspec.
  assert (Hfresh : forall v, nodes v && negb (bool_decide (v ∈ xs)) = true ->
    is_Some (h !! v) /\ v ∉ xs).
  { intros v [Hv Hx]%andb_true_iff. apply negb_true_iff, bool_decide_eq_false in Hx. auto. }
  destruct o as [v|v| | |v|[p|] v|[n|] v|]; simpl in Hspec;
    repeat match type of Hspec with
    | (if ?b then _ else _) = Some _ => destruct b eqn:Hb; [|done];
        apply Hfresh in Hb as [Hv Hx]
    | (split_at ?x xs ≫= _) = _ => destruct (split_at x xs) as [[l1 l2]|] eqn:Hsp; [|done];
        apply split_at_app in Hsp as [-> Hn]
    end; simplify_eq/=.
  - destruct (push_front_dll h l xs v) as (h' & l' & -> & ?); simpl; eauto.
  - destruct (push_dll h l xs v) as (h' & l' & -> & ?); simpl; eauto.
  - by apply pop_front_dll.
  - by apply pop_dll.
  - destruct (remove_dll h l l1 v l2) as (h' & l' & -> & ? & Ht); [done|]. simpl.
    eexists _, _. split_and!; [done..|]. eapply only_touches_mono; [|done]. set_solver.
  - destruct (insert_dll h l l1 p l2 v) as (h' & l' & -> & ?); simpl; eauto.
  - destruct (insert_null_dll h l xs v) as [-> _]; [done..|].
    destruct (push_front_dll h l xs v) as (h' & l' & -> & ?); simpl; eauto.
  - destruct (insert_before_dll h l l1 n l2 v) as (h' & l' & -> & ?); simpl; eauto.
  - destruct (insert_null_dll h l xs v) as [_ ->]; [done..|].
    destruct (push_front_dll h l xs v) as (h' & l' & -> & ?); simpl; eauto.
  - eexists _, _. split_and!; [done| |apply only_touches_refl].
    split_and!; [apply NoDup_nil_2|done..].
Qed.

(** every sequence of list operations that respects the list's contract
    (nodes exist, a node is linked at most once, only linked nodes are
    unlinked) runs without a wild dereference on the linked structure, returns
    the same pointers as the operations on sequences, and leaves the linked
    structure representing the resulting sequence. *)
Theorem run_refines_sequence nodes os h l xs xs' rs :
  dll h l xs -> (forall v, nodes v = true -> is_Some (h !! v)) ->
  spec_run nodes os xs = Some (xs', rs) ->
  exists h' l', run os h l = Some (h', l', rs) /\ dll h' l' xs'.
Proof.
  revert h l xs xs' rs. induction os as [|o os IH]; intros h l xs xs' rs Hdll Hnodes Hspec;
    simpl in *; simplify_eq; [eauto|].
  destruct (spec_step nodes o xs) as [[xs1 r]|] eqn:Ho; simplify_eq/=.
  destruct (spec_run nodes os xs1) as [[xs2 rs']|] eqn:Hos; simplify_eq/=.
  destruct (step_refines nodes o h l xs xs1 r) as (h1 & l1 & -> & Hdll1 & _ & Hdom); [done..|].
  simpl. destruct (IH h1 l1 xs1 xs' rs') as (h2 & l2 & -> & Hdll2); [done| |done|].
  - intros v Hv. apply Hdom. auto.
  - simpl. eauto.
Qed.

(** The example store: four unlinked nodes. *)
Definition ex_store : gmap Z hook :=
  {[ 1 := Hook None None; 2 := Hook None None; 3 := Hook None None; 4 := Hook None None ]}.
Definition ex_nodes (v : Z) : bool := (1 <=? v) && (v <=? 4).
Definition ex_ops : list op :=
  [Push 1; PushFront 2; Insert (Some 2) 3; InsertBefore (Some 1) 4; Remove 3; Pop; PopFront].

Lemma run_refines_sequence_witness :
  exists h' l', run ex_ops ex_store empty_list =
    Some (h', l', [None; None; None; None; None; Some 1; Some 2]) /\ dll h' l' [4].
Proof.
  apply (run_refines_sequence ex_nodes ex_ops ex_store empty_list []).
  - split_and!; [apply NoDup_nil_2|done|done|exact I].
  - intros v Hv. unfold ex_nodes in Hv. apply andb_true_iff in Hv as [H1 H2].
    apply Z.leb_le in H1, H2.
    assert (v = 1 \/ v = 2 \/ v = 3 \/ v = 4) as [->|[->|[->| ->]]] by lia; eexists; reflexivity.
  - vm_compute. reflexivity.
Defined.

Lemma dll_length h l xs : dll h l xs -> (length xs <= size h)%nat.
Proof.
  intros (Hnd & _ & _ & Hs).
  rewrite <- (size_dom h), <- (size_list_to_set (C:=gset Z) xs) by done.
  apply subseteq_size. intros x Hx. apply elem_of_list_to_set in Hx. apply elem_of_dom.
  clear Hnd. revert Hs. generalize (@None Z) at 1. induction xs as [|y xs IH]; [set_solver|].
  intros p [Hy Hs]. apply elem_of_cons in Hx as [->|Hx]; eauto.
Qed.

Lemma find_loop_dseg fuel comp h p xs : (length xs <= fuel)%nat -> dseg h p xs None ->
  (it ← iter_at h (hd_or xs None); find_loop fuel comp h it) = Some (List.find comp xs).
Proof.
  revert fuel p. induction xs as [|x xs IH]; intros fuel p Hf Hs; [by destruct fuel|].
  destruct Hs as [Hx Hs]. simpl. rewrite Hx. simpl.
  destruct fuel as [|fuel]; [simpl in Hf; lia|].
  simpl. destruct (comp x); [done|]. simpl in Hf.
  rewrite <- (IH fuel (Some x)) by (done || lia).
  unfold iter_incr, iter_at. simpl. by destruct xs as [|y xs]; simpl.
Qed.

(** [find] visits the nodes in list order, terminates, and returns the
    first node that satisfies the predicate, or [nullptr] when none does. *)
Theorem find_first comp h l xs : dll h l xs -> find comp h l = Some (List.find comp xs).
Proof.
  intros Hdll. pose proof (dll_length _ _ _ Hdll). destruct Hdll as (_ & Hr & _ & Hs).
  unfold find, begin_. rewrite Hr. by eapply find_loop_dseg.
Qed.

Lemma find_first_witness :
  find (fun v => 2 <? v) {[ 1 := Hook None (Some 3); 3 := Hook (Some 1) None ]}
    (DList (Some 1) (Some 3)) = Some (Some 3).
Proof.
  refine (find_first (fun v => 2 <? v) _ _ [1; 3] _). split_and!.
  - apply (bool_decide_unpack _). vm_compute. exact I.
  - reflexivity.
  - reflexivity.
  - vm_compute. auto.
Defined.

End DoubleList.
