(* ===== verification/Pmalloc.v ===== *)
(** * The physical page allocator (src/src/mem/pmalloc.cpp, pmalloc.hpp)

    A buddy allocator over the memory regions the boot loader reports.  Each
    region starts with its own metadata: the [PRegion] header followed by one
    [Page] record per frame.  The allocator's state is the list of regions, the
    page records, the fourteen free lists and the three counters.  A page
    pointer [&region->pages[i]] is the pair of the region's base and [i]; an
    access outside the region's array or outside [FREELISTS] is [None], like a
    failed assertion.  The free lists are sequences of page pointers, the view
    of a [DoubleList] proved in DoubleList.v.  [GIANT_LOCK] serialises
    [pmalloc] and [pfree], so the operations are atomic steps and the inner
    locks have no effect; the filling of freed and allocated memory with a
    pattern is recorded in [fills]. *)

From S2P Require Import Prelude Bits.

Module Pmalloc.

Definition FREELIST_COUNT : Z := 14.

(** [sizeof(PRegion)] and [sizeof(Page)], which the ABI fixes. *)
Section Layout.
Context (sizeof_PRegion sizeof_Page : Z).

(** [struct Page]; the bit fields [page_num : 36] and [list_index : 4] are
    truncated where they are written. *)
Record Page := mkPage {
  region : Z;
  ref_count : Z;
  page_num : Z;
  used : bool;
  in_list : bool;
  list_index : Z
}.

(** [struct PRegion] without the pages; its address is [to_virt(base)]. *)
Record PRegion := mkPRegion { base : Z; page_count : Z; res_count : Z }.

Definition pptr : Type := Z * Z.

Record state := mkState {
  p_regions : list Z;
  regions : gmap Z PRegion;
  pages : gmap (Z * Z) Page;
  freelists : list (list (Z * Z));
  total_memory : Z;
  reserved_memory : Z;
  used_memory : Z;
  fills : list (Z * Z * Z)
}.

Definition initial : state := mkState [] ∅ ∅ (replicate 14 []) 0 0 0 [].

Definition phys (p : Page) : Z := u64 (Z.shiftl (page_num p) 12).

Definition index_to_size (index : Z) : Z := Z.shiftl 1 index.
Definition size_to_index (size : Z) : Z := 64 - countl_zero 64 (size ⊟ 1).

(** ** Field updates *)

Definition set_used (b : bool) (p : Page) : Page :=
  mkPage (region p) (ref_count p) (page_num p) b (in_list p) (list_index p).
Definition set_in_list (b : bool) (p : Page) : Page :=
  mkPage (region p) (ref_count p) (page_num p) (used p) b (list_index p).
Definition set_list_index (i : Z) (p : Page) : Page :=
  mkPage (region p) (ref_count p) (page_num p) (used p) (in_list p) (wrap 4 i).

Definition with_pages (f : gmap (Z * Z) Page) (s : state) : state :=
  mkState (p_regions s) (regions s) f (freelists s) (total_memory s) (reserved_memory s)
    (used_memory s) (fills s).
Definition with_freelists (f : list (list (Z * Z))) (s : state) : state :=
  mkState (p_regions s) (regions s) (pages s) f (total_memory s) (reserved_memory s)
    (used_memory s) (fills s).
Definition account (delta : Z) (fill : Z * Z * Z) (s : state) : state :=
  mkState (p_regions s) (regions s) (pages s) (freelists s) (total_memory s)
    (reserved_memory s) (u64 (used_memory s + delta)) (fill :: fills s).

(** [page->field = ...] *)
Definition update_page (q : Z * Z) (f : Page -> Page) (s : state) : option state :=
  p ← pages s !! q; Some (with_pages (<[q := f p]> (pages s)) s).

(** [FREELISTS[i].push(page)], [.remove(page)], [.pop()]. *)
Definition fl_push (i : Z) (q : Z * Z) (s : state) : option state :=
  l ← freelists s !! Z.to_nat i;
  Some (with_freelists (<[Z.to_nat i := l ++ [q]]> (freelists s)) s).
Definition fl_remove (i : Z) (q : Z * Z) (s : state) : option state :=
  l ← freelists s !! Z.to_nat i;
  l' ← list_remove q l;
  Some (with_freelists (<[Z.to_nat i := l']> (freelists s)) s).
Definition fl_pop (i : Z) (s : state) : option (option (Z * Z) * state) :=
  l ← freelists s !! Z.to_nat i;
  match last l with
  | Some q => Some (Some q,
      with_freelists (<[Z.to_nat i := take (length l - 1) l]> (freelists s)) s)
  | None => Some (None, s)
  end.

(** [page < buddy] on pointers into one region's array. *)
Definition ptr_ltb (a b : Z * Z) : bool := snd a <? snd b.

(** ** freelist_insert *)

(** The merge loop; [None] of the inner option is [break].  The loop counts
    [new_i] up to [FREELIST_COUNT - 1], which bounds its fuel. *)
Definition buddy_of (r : PRegion) (p : Page) (new_i : Z) : Z :=
  let count := index_to_size new_i in
  let size := count ⊠ PAGE_SIZE in
  let region_free_base := base r ⊞ (res_count r ⊠ PAGE_SIZE) in
  let page_offset := phys p ⊟ region_free_base in
  let next_size := index_to_size (new_i + 1) ⊠ PAGE_SIZE in
  let buddy_phys :=
    if negb (Z.land page_offset (next_size ⊟ 1) =? 0) then phys p ⊟ size else phys p ⊞ size in
  (buddy_phys ⊟ base r) / PAGE_SIZE.

Fixpoint merge_loop (fuel : nat) (new_i final_i : Z) (page : Z * Z) (s : state)
    : option (Z * (Z * Z) * state) :=
  if new_i <? FREELIST_COUNT - 1 then
    p ← pages s !! page;
    r ← regions s !! region p;
    let buddy_index := buddy_of r p new_i in
    if buddy_index >=? page_count r then Some (final_i, page, s)
    else
      let buddy := (region p, buddy_index) in
      b ← pages s !! buddy;
      if negb (used b) && (list_index b =? list_index p) then
        s ← (if in_list b then
               s ← fl_remove (list_index b) buddy s;
               update_page buddy (set_in_list false) s
             else Some s);
        let first := if ptr_ltb page buddy then page else buddy in
        s ← update_page first (fun p => set_list_index (new_i + 1) (set_in_list false p)) s;
        match fuel with
        | O => None
        | S fuel => merge_loop fuel (new_i + 1) (new_i + 1) first s
        end
      else Some (final_i, page, s)
  else Some (final_i, page, s).

Definition freelist_insert (index : Z) (page : Z * Z) (s : state) : option state :=
  s ← update_page page (fun p => set_list_index index (set_used false p)) s;
  '(final_i, page, s) ← merge_loop 14 index index page s;
  s ← update_page page (set_in_list true) s;
  fl_push final_i page s.

(** ** freelist_get *)

(** The split loop, [i] from [new_i] down to [index + 1]. *)
Fixpoint split_loop (fuel : nat) (i index : Z) (reg page_n : Z) (s : state) : option state :=
  if index <? i then
    let size := index_to_size i in
    let second := (reg, page_n ⊞ size / 2) in
    s ← update_page second (set_list_index (i - 1)) s;
    s ← fl_push (i - 1) second s;
    s ← update_page second (set_in_list true) s;
    match fuel with
    | O => None
    | S fuel => split_loop fuel (i - 1) index reg page_n s
    end
  else Some s.

(** The search loop over the larger free lists. *)
Fixpoint get_loop (fuel : nat) (new_i index : Z) (s : state)
    : option (option (Z * Z) * state) :=
  if new_i <? FREELIST_COUNT then
    '(popped, s) ← fl_pop new_i s;
    match popped with
    | None =>
        match fuel with
        | O => None
        | S fuel => get_loop fuel (new_i + 1) index s
        end
    | Some page =>
        s ← update_page page
              (fun p => set_list_index index (set_used true (set_in_list false p))) s;
        p ← pages s !! page;
        r ← regions s !! region p;
        s ← split_loop 14 new_i index (region p) ((phys p ⊟ base r) / PAGE_SIZE) s;
        Some (Some page, s)
    end
  else Some (None, s).

Definition freelist_get (index : Z) (s : state) : option (option (Z * Z) * state) :=
  '(popped, s) ← fl_pop index s;
  match popped with
  | Some page =>
      s ← update_page page (fun p => set_in_list false (set_used true p)) s;
      Some (Some page, s)
  | None =>
      if index =? FREELIST_COUNT - 1 then Some (None, s)
      else get_loop 14 (index + 1) index s
  end.

(** ** pmalloc_add_mem *)

Fixpoint add_pages (n : nat) (reg i index : Z) (ps : gmap (Z * Z) Page) : gmap (Z * Z) Page :=
  match n with
  | O => ps
  | S n =>
      add_pages n reg (i + 1) index
        (<[(reg, i) := mkPage reg 0 (wrap 36 (Z.shiftr reg 12 ⊞ i)) false false
                         (wrap 4 index)]> ps)
  end.

(** The inner loop over the block sizes, [j] from [FREELIST_COUNT] down: the
    order of the largest block that starts at the page. *)
Fixpoint block_order (fuel : nat) (j : Z) (p : Page) (free_pages : Z) : option Z :=
  if 0 <? j then
    let block_pages := index_to_size (j - 1) in
    if (phys p mod (block_pages ⊠ PAGE_SIZE) =? 0) && (free_pages >=? block_pages)
    then Some (j - 1)
    else match fuel with
         | O => None
         | S fuel => block_order fuel (j - 1) p free_pages
         end
  else None.

(** The outer loop; every round places a block of at least one page, so it
    runs at most once per page.  A round that places nothing would spin. *)
Fixpoint place_loop (fuel : nat) (reg i npages free_pages : Z) (s : state) : option state :=
  if i <? npages then
    p ← pages s !! (reg, i);
    k ← block_order 14 FREELIST_COUNT p free_pages;
    s ← fl_push k (reg, i) s;
    s ← update_page (reg, i) (fun p => set_in_list true (set_list_index k p)) s;
    match fuel with
    | O => None
    | S fuel =>
        place_loop fuel reg (i ⊞ index_to_size k) npages (free_pages ⊟ index_to_size k) s
    end
  else Some s.

(** [P_REGIONS]: [insert] links after the first region at a higher address. *)
Definition link_region (reg : Z) (rs : list Z) : list Z :=
  match rs with
  | [] => [reg]
  | _ =>
      match list_find (fun r => r > reg) rs with
      | Some (i, r) => take (S i) rs ++ reg :: drop (S i) rs
      | None => reg :: rs
      end
  end.

Definition pmalloc_add_mem (phys_ size : Z) (s : state) : option state :=
  let npages := size / PAGE_SIZE in
  if npages =? 0 then Some s
  else
    let needed := sizeof_PRegion ⊞ ((npages ⊟ 1) ⊠ sizeof_Page) in
    if needed >=? size then Some s
    else
      let res_pages := ALIGNUP needed PAGE_SIZE / PAGE_SIZE in
      let ps := add_pages (Z.to_nat res_pages) phys_ 0 0 (pages s) in
      let ps := add_pages (Z.to_nat (npages - res_pages)) phys_ res_pages FREELIST_COUNT ps in
      let s := mkState (p_regions s)
                 (<[phys_ := mkPRegion phys_ npages res_pages]> (regions s)) ps (freelists s)
                 (u64 (total_memory s + size))
                 (u64 (reserved_memory s + res_pages * PAGE_SIZE))
                 (used_memory s) (fills s) in
      s ← place_loop (Z.to_nat npages) phys_ res_pages npages (npages ⊟ res_pages) s;
      Some (mkState (link_region phys_ (p_regions s)) (regions s) (pages s) (freelists s)
              (total_memory s) (reserved_memory s) (used_memory s) (fills s)).

(** ** pmalloc, pfree, Page::from_phys *)

Definition pmalloc (count : Z) (s : state) : option (Z * state) :=
  if count =? 0 then Some (0, s)
  else
    '(page, s) ← freelist_get (size_to_index count) s;
    match page with
    | Some q =>
        p ← pages s !! q;
        Some (phys p, account (count * PAGE_SIZE) (phys p, 0xCB, count ⊠ PAGE_SIZE) s)
    | None => Some (0, s)
    end.

Fixpoint from_phys_loop (rs : list Z) (addr : Z) (s : state) : option (option (Z * Z)) :=
  match rs with
  | [] => Some None
  | reg :: rs =>
      r ← regions s !! reg;
      if (base r <=? addr) && (addr <? base r ⊞ (page_count r ⊠ PAGE_SIZE))
      then Some (Some (reg, (addr ⊟ base r) / PAGE_SIZE))
      else from_phys_loop rs addr s
  end.

Definition from_phys (addr : Z) (s : state) : option (option (Z * Z)) :=
  from_phys_loop (p_regions s) addr s.

Definition pfree (addr count : Z) (s : state) : option state :=
  page ← from_phys addr s;
  q ← page;
  p ← pages s !! q;
  _ ← assert (phys p =? addr);
  _ ← assert (used p);
  _ ← assert (list_index p =? size_to_index count);
  let s := account (- (count * PAGE_SIZE)) (addr, 0xFD, count ⊠ PAGE_SIZE) s in
  freelist_insert (list_index p) q s.

Definition pmalloc_get_total_mem (s : state) : Z := total_memory s.
Definition pmalloc_get_reserved_mem (s : state) : Z := reserved_memory s.
Definition pmalloc_get_used_mem (s : state) : Z := used_memory s.

End Layout.

End Pmalloc.
