(* ===== verification/PmallocRun.v ===== *)
(** * Correctness of the physical page allocator

    The invariant of Pmalloc.v: at every moment the free part of each region is
    tiled by power-of-two blocks, aligned relative to the start of the free
    part, and the page records and free lists describe that tiling.  The proofs
    split it into the geometry of the blocks, the page records and the free
    lists, and treat allocation as splitting and freeing as merging of blocks.

    [freelist_insert] looks for the buddy of a block relative to the start of the
    free part, while [pmalloc_add_mem] places blocks by physical alignment; the
    two agree when the free part starts at an aligned frame, which is the
    hypothesis of the positive results.  When they disagree the allocator hands
    out overlapping blocks ([pmalloc_misaligned_overlap] of PmallocRun.v). *)

From S2P Require Import Prelude Bits Pmalloc.


Module PmallocInv.
Import Pmalloc.

(** ** The invariant *)

Record region_ok (b : Z) (r : PRegion) : Prop := {
  ro_base : base r = b;
  ro_aligned : (PAGE_SIZE | b);
  ro_nonneg : 0 <= b;
  ro_res : 1 <= res_count r <= page_count r;
  ro_limit : b / PAGE_SIZE + page_count r <= 2 ^ 36
}.

(** A tiling: the head of each block, its order and whether it is allocated. *)
Definition tiling : Type := gmap (Z * Z) (Z * bool).

Record geom (rs : gmap Z PRegion) (B : gmap (Z * Z) (Z * bool)) : Prop := {
  g_regions : forall b r, rs !! b = Some r -> region_ok b r;
  g_block : forall b i k u, B !! (b, i) = Some (k, u) ->
    exists r, rs !! b = Some r /\ 0 <= k < FREELIST_COUNT /\ res_count r <= i /\
      i + 2 ^ k <= page_count r /\ (2 ^ k | i - res_count r);
  g_disj : forall b i k u j k' u', B !! (b, i) = Some (k, u) -> B !! (b, j) = Some (k', u') ->
    i <> j -> i + 2 ^ k <= j \/ j + 2 ^ k' <= i;
  g_cover : forall b r x, rs !! b = Some r -> res_count r <= x < page_count r ->
    exists i k u, B !! (b, i) = Some (k, u) /\ i <= x < i + 2 ^ k
}.

(** The page record of [q] when the tiling holds [o] there; [f] is the free
    block that is being merged and is in no list. *)
Definition page_agrees (q : Z * Z) (o : option (Z * bool)) (f : option (Z * Z)) (p : Page)
    : Prop :=
  region p = fst q /\ page_num p = fst q / PAGE_SIZE + snd q /\
  match o with
  | Some (k, u) => used p = u /\ list_index p = k /\
      in_list p = negb u && negb (bool_decide (f = Some q))
  | None => used p = false /\ in_list p = false
  end.

Definition pages_agree (ps : gmap (Z * Z) Page) (B : gmap (Z * Z) (Z * bool))
    (f : option (Z * Z)) : Prop :=
  forall q p, ps !! q = Some p -> page_agrees q (B !! q) f p.

Definition pages_dom (rs : gmap Z PRegion) (ps : gmap (Z * Z) Page) : Prop :=
  forall b i, is_Some (ps !! (b, i)) <-> exists r, rs !! b = Some r /\ 0 <= i < page_count r.

Definition lists_agree (fl : list (list (Z * Z))) (B : gmap (Z * Z) (Z * bool))
    (f : option (Z * Z)) : Prop :=
  length fl = 14%nat /\
  forall k l, fl !! k = Some l ->
    NoDup l /\ forall q, q ∈ l <-> B !! q = Some (Z.of_nat k, false) /\ f <> Some q.

Record inv (s : state) (B : gmap (Z * Z) (Z * bool)) (f : option (Z * Z)) : Prop := {
  i_geom : geom (regions s) B;
  i_dom : pages_dom (regions s) (pages s);
  i_pages : pages_agree (pages s) B f;
  i_lists : lists_agree (freelists s) B f
}.

(** The registered regions are those of [P_REGIONS] and do not overlap. *)
Definition regions_listed (s : state) : Prop :=
  (forall b, b ∈ p_regions s <-> is_Some (regions s !! b)) /\
  (forall b r b' r', regions s !! b = Some r -> regions s !! b' = Some r' -> b <> b' ->
     b + page_count r * PAGE_SIZE <= b' \/ b' + page_count r' * PAGE_SIZE <= b).

(** The allocator's invariant. *)
Definition wf (s : state) : Prop := regions_listed s /\ exists B, inv s B None.

(** The live allocations: address and order of the blocks in use. *)
Definition allocated (s : state) (addr order : Z) : Prop :=
  exists q p, pages s !! q = Some p /\ used p = true /\ phys p = addr /\ list_index p = order.

(** ** Aligned blocks *)

Lemma pow2_pos k : 0 <= k -> 0 < 2 ^ k.
Proof. intros. by apply Z.pow_pos_nonneg. Qed.
#[local] Hint Resolve pow2_pos : mach.

Lemma pow2_succ k : 0 <= k -> 2 ^ (k + 1) = 2 * 2 ^ k.
Proof. intros. rewrite Z.pow_add_r by lia. lia. Qed.

Lemma pow2_dvd k k' : 0 <= k <= k' -> (2 ^ k | 2 ^ k').
Proof.
  intros. replace k' with (k + (k' - k)) by lia. rewrite Z.pow_add_r by lia.
  apply Z.divide_factor_l.
Qed.

Lemma pow2_le_13 k : 0 <= k <= 13 -> 1 <= 2 ^ k <= 8192.
Proof.
  intros. split; [pose proof (pow2_pos k ltac:(lia)); lia|].
  change 8192 with (2 ^ 13). apply Z.pow_le_mono_r; lia.
Qed.

Lemma dvd_small d x : (d | x) -> 0 <= x < d -> x = 0.
Proof.
  intros [m ->] ?. destruct (Z.lt_trichotomy m 0) as [|[->|]]; [nia|lia|nia].
Qed.

(** An aligned position inside an aligned block of no larger order is its head. *)
Lemma aligned_head k k' h x : 0 <= k' <= k ->
  (2 ^ k' | h) -> (2 ^ k | x) -> h <= x < h + 2 ^ k' -> x = h.
Proof.
  intros Hk Hh Hx Hr. assert ((2 ^ k' | x - h)) as Hd.
  { apply Z.divide_sub_r; [|done]. eapply Z.divide_trans; [by apply (pow2_dvd k' k)|done]. }
  apply dvd_small in Hd; lia.
Qed.

(** Two halves of an aligned block lie in the same block of larger order. *)
Lemma aligned_pair k k' h x y : 0 <= k < k' ->
  (2 ^ k' | h) -> (2 ^ (k + 1) | x) -> x <= y < x + 2 ^ (k + 1) ->
  h <= y < h + 2 ^ k' -> h <= x /\ x + 2 ^ (k + 1) <= h + 2 ^ k'.
Proof.
  intros Hk [m Hm] [n Hn] Hxy Hr.
  assert (Hp : 2 ^ k' = 2 ^ (k + 1) * 2 ^ (k' - (k + 1))).
  { rewrite <- Z.pow_add_r by lia. f_equal. lia. }
  pose proof (pow2_pos (k + 1) ltac:(lia)). pose proof (pow2_pos (k' - (k + 1)) ltac:(lia)).
  set (a := 2 ^ (k + 1)) in *. set (c := 2 ^ (k' - (k + 1))) in *.
  subst h x. rewrite Hp in *.
  assert (m * c < n + 1) by (apply (Z.mul_lt_mono_pos_r a); lia).
  assert (n < m * c + c) by (apply (Z.mul_lt_mono_pos_r a); lia).
  split; nia.
Qed.

Lemma half_aligned k d : 0 <= k -> (2 ^ k | d) -> ~ (2 ^ (k + 1) | d) -> (2 ^ (k + 1) | d - 2 ^ k).
Proof.
  intros Hk [m ->] Hn. rewrite pow2_succ in * by done. pose proof (pow2_pos k Hk).
  destruct (Z.even m) eqn:E.
  - apply Zeven_bool_iff in E. apply Zeven_ex in E as [j ->]. exfalso. apply Hn. exists j. lia.
  - rewrite <- Z.negb_odd in E. apply negb_false_iff in E. apply Zodd_bool_iff in E.
    apply Zodd_ex in E as [j ->]. exists j. lia.
Qed.

Lemma dvd_nonneg_ge k d : 0 <= k -> 0 <= d -> (2 ^ k | d) -> ~ (2 ^ (k + 1) | d) -> 2 ^ k <= d.
Proof.
  intros Hk Hd Hdv Hn. destruct (decide (d = 0)) as [->|].
  { exfalso. apply Hn, Z.divide_0_r. }
  apply Z.divide_pos_le; [lia|done].
Qed.

(** ** Addresses *)

Lemma index_to_size_pow k : 0 <= k -> index_to_size k = 2 ^ k.
Proof. intros. apply Z.shiftl_1_l. Qed.

Lemma phys_spec b r i p : region_ok b r -> 0 <= i < page_count r ->
  page_num p = b / PAGE_SIZE + i -> phys p = b + i * PAGE_SIZE.
Proof.
  intros [Hb [m ->] Hn Hr Hl] Hi Hp. unfold phys. rewrite Hp, Z.shiftl_mul_pow2 by lia.
  unfold PAGE_SIZE in *. rewrite Z.div_mul in * by lia. change (2 ^ 12) with 4096.
  rewrite u64_small; lia.
Qed.

Lemma land_pow2_pred k z : 0 <= k -> Z.land z (2 ^ k - 1) = z mod 2 ^ k.
Proof. intros. rewrite <- Z.land_ones by done. by rewrite Z.ones_equiv, <- Z.sub_1_r. Qed.

Lemma buddy_of_spec b r i p k : region_ok b r -> res_count r <= i < page_count r ->
  0 <= k < 13 -> page_num p = b / PAGE_SIZE + i -> (2 ^ k | i - res_count r) ->
  buddy_of r p k = if decide ((2 ^ (k + 1) | i - res_count r)) then i + 2 ^ k else i - 2 ^ k.
Proof.
  intros Hr Hi Hk Hp Hd. unfold buddy_of.
  rewrite (phys_spec b r i p) by (done || (destruct Hr; lia)).
  destruct Hr as [Hb [m Hm] Hn Hres Hl]. rewrite Hb. rewrite !index_to_size_pow by lia.
  pose proof (pow2_le_13 k ltac:(lia)). pose proof (pow2_le_13 (k + 1) ltac:(lia)).
  unfold PAGE_SIZE, add64, sub64, mul64 in *. rewrite Hm in *. rewrite Z.div_mul in Hl by lia.
  rewrite (u64_small (2 ^ k * 4096)) by lia. rewrite (u64_small (res_count r * 4096)) by lia.
  rewrite (u64_small (m * 4096 + res_count r * 4096)) by lia.
  rewrite (u64_small (m * 4096 + i * 4096 - _)) by lia.
  rewrite (u64_small (2 ^ (k + 1) * 4096)) by lia.
  rewrite (u64_small (2 ^ (k + 1) * 4096 - 1)) by lia.
  replace (2 ^ (k + 1) * 4096 - 1) with (2 ^ (k + 1 + 12) - 1)
    by (rewrite (Z.pow_add_r _ (k + 1)) by lia; lia).
  rewrite land_pow2_pred by lia. rewrite (Z.pow_add_r _ (k + 1)) by lia.
  change (2 ^ 12) with 4096.
  replace (m * 4096 + i * 4096 - (m * 4096 + res_count r * 4096))
    with ((i - res_count r) * 4096) by lia.
  rewrite Z.mul_mod_distr_r by lia.
  destruct (decide ((2 ^ (k + 1) | i - res_count r))) as [Hdv|Hdv].
  - rewrite (proj2 (Z.mod_divide (i - res_count r) (2 ^ (k + 1)) ltac:(lia)) Hdv). simpl.
    rewrite (u64_small (m * 4096 + i * 4096 + _)) by lia.
    replace (m * 4096 + i * 4096 + 2 ^ k * 4096 - m * 4096) with ((i + 2 ^ k) * 4096) by lia.
    rewrite u64_small by lia. apply Z.div_mul. lia.
  - assert (2 ^ k <= i - res_count r) by (apply dvd_nonneg_ge; (done || lia)).
    destruct (Z.eqb_spec ((i - res_count r) mod 2 ^ (k + 1) * 4096) 0) as [He|_].
    { exfalso. apply Hdv, Z.mod_divide; lia. }
    simpl. rewrite (u64_small (m * 4096 + i * 4096 - _)) by lia.
    replace (m * 4096 + i * 4096 - 2 ^ k * 4096 - m * 4096) with ((i - 2 ^ k) * 4096) by lia.
    rewrite u64_small by lia. apply Z.div_mul. lia.
Qed.

(** ** Geometry *)

(** A position aligned like a block and in the same aligned pair is itself the
    head of a block: it cannot lie inside a larger block, whatever a stale
    record there says. *)
Lemma geom_pair rs B b r i k u x y : geom rs B -> rs !! b = Some r ->
  B !! (b, i) = Some (k, u) ->
  (2 ^ (k + 1) | x - res_count r) -> x <= i < x + 2 ^ (k + 1) -> x <= y < x + 2 ^ (k + 1) ->
  (2 ^ k | y - res_count r) -> res_count r <= y < page_count r ->
  exists k' u', B !! (b, y) = Some (k', u').
Proof.
  intros G Hr HB Hx Hi Hy Hyd Hyr. set (d := res_count r) in *.
  destruct (g_block _ _ G _ _ _ _ HB) as (r' & Hr' & Hk' & _). simplify_eq.
  destruct (g_cover _ _ G b r y) as (h & k' & u' & HB' & Hh); [done..|].
  destruct (g_block _ _ G _ _ _ _ HB') as (? & ? & Hkk & Hh1 & Hh2 & Hh3). simplify_eq.
  destruct (decide (k' <= k)).
  - assert (y - d = h - d) by (apply (aligned_head k k'); (done || lia)).
    exists k', u'. by replace y with h by lia.
  - assert (h - d <= x - d /\ x - d + 2 ^ (k + 1) <= h - d + 2 ^ k') as [? ?]
      by (apply (aligned_pair k k' _ _ (y - d)); (done || lia)).
    exfalso. destruct (decide (h = i)) as [->|]; [simplify_eq; lia|].
    destruct (g_disj _ _ G b h k' u' i k u); [done..| |]; lia.
Qed.

(** The lower half of the pair a block belongs to, and its buddy. *)
Lemma geom_buddy rs B b r i k u : geom rs B -> rs !! b = Some r ->
  B !! (b, i) = Some (k, u) ->
  let y := if decide ((2 ^ (k + 1) | i - res_count r)) then i + 2 ^ k else i - 2 ^ k in
  y < page_count r ->
  (2 ^ (k + 1) | Z.min i y - res_count r) /\ Z.max i y = Z.min i y + 2 ^ k /\
  res_count r <= y /\ exists k' u', B !! (b, y) = Some (k', u').
Proof.
  intros G Hr HB. destruct (g_block _ _ G _ _ _ _ HB) as (r' & Hr' & Hk' & Hi & Hic & Hd).
  simplify_eq. set (d := res_count r) in *. pose proof (pow2_pos k ltac:(lia)).
  pose proof (pow2_succ k ltac:(lia)) as Hp.
  destruct (decide _) as [Hdv|Hdv]; intros y Hy; subst y.
  - rewrite Z.min_l, Z.max_r by lia. split_and!; [done|lia|lia|].
    apply (geom_pair rs B b r i k u i); try (done || lia).
    replace (i + 2 ^ k - res_count r) with (i - d + 2 ^ k) by lia. by apply Z.divide_add_r.
  - assert (2 ^ k <= i - d) by (apply dvd_nonneg_ge; (done || lia)).
    assert (Hx : (2 ^ (k + 1) | i - 2 ^ k - d)).
    { replace (i - 2 ^ k - d) with (i - d - 2 ^ k) by lia. apply half_aligned; (done || lia). }
    rewrite Z.min_r, Z.max_l by lia. split_and!; [done|lia|lia|].
    apply (geom_pair rs B b r i k u (i - 2 ^ k)); try (done || lia).
    replace (i - 2 ^ k - res_count r) with (i - d - 2 ^ k) by lia. by apply Z.divide_sub_r.
Qed.

(** Marking a block allocated or free. *)
Lemma geom_flag rs B q k u u' : geom rs B -> B !! q = Some (k, u) ->
  geom rs (<[q := (k, u')]> B).
Proof.
  intros G HB. split.
  - apply G.
  - intros b i k0 u0 Hl. apply lookup_insert_Some in Hl as [[-> Heq]|[_ Hl]].
    + simplify_eq. eapply (g_block _ _ G), HB.
    + eapply (g_block _ _ G), Hl.
  - intros b i k0 u0 j k1 u1 H1 H2 Hne.
    apply lookup_insert_Some in H1 as [[-> ?]|[? H1]];
      apply lookup_insert_Some in H2 as [[? ?]|[? H2]]; simplify_eq;
      eapply (g_disj _ _ G); eauto.
  - intros b r x Hr Hx. destruct (g_cover _ _ G b r x) as (i & k0 & u0 & Hl & Hi); [done..|].
    destruct (decide (q = (b, i))) as [->|].
    + simplify_eq. exists i, k, u'. rewrite lookup_insert_eq. auto.
    + exists i, k0, u0. by rewrite lookup_insert_ne.
Qed.

(** Splitting a block in two halves. *)
Lemma geom_split rs B b i k u v : geom rs B -> 0 <= k ->
  B !! (b, i) = Some (k + 1, u) ->
  B !! (b, i + 2 ^ k) = None /\
  geom rs (<[(b, i + 2 ^ k) := (k, v)]> (<[(b, i) := (k, u)]> B)).
Proof.
  intros G Hk HB. pose proof (pow2_pos k Hk) as Hp. pose proof (pow2_succ k Hk) as Hs.
  destruct (g_block _ _ G _ _ _ _ HB) as (r & Hr & Hk1 & Hi & Hic & Hd).
  assert (Hnone : B !! (b, i + 2 ^ k) = None).
  { destruct (B !! (b, i + 2 ^ k)) as [[k' u']|] eqn:E; [|done]. exfalso.
    destruct (g_block _ _ G _ _ _ _ E) as (? & ? & ? & _).
    pose proof (pow2_pos k' ltac:(lia)).
    destruct (g_disj _ _ G b i (k + 1) u (i + 2 ^ k) k' u'); [done..|lia|lia|lia]. }
  split; [done|].
  assert (Hcase : forall j k' u',
    <[(b, i + 2 ^ k) := (k, v)]> (<[(b, i) := (k, u)]> B) !! (b, j) = Some (k', u') ->
    (j = i + 2 ^ k /\ k' = k) \/ (j = i /\ k' = k) \/
    ((i + 2 * 2 ^ k <= j \/ j + 2 ^ k' <= i) /\ B !! (b, j) = Some (k', u'))).
  { intros j k' u' Hl. apply lookup_insert_Some in Hl as [[? ?]|[? Hl]]; simplify_eq; [auto|].
    apply lookup_insert_Some in Hl as [[? ?]|[? Hl]]; simplify_eq; [auto|].
    right; right. rewrite <- Hs. split; [|done]. eapply (g_disj _ _ G); eauto. congruence. }
  split.
  - apply G.
  - intros b' j k' u' Hl. destruct (decide (b' = b)) as [->|].
    + exists r. split; [done|]. apply Hcase in Hl as [[-> ->]|[[-> ->]|(? & Hl)]].
      * split_and!; try lia. replace (i + 2 ^ k - res_count r) with (i - res_count r + 2 ^ k) by lia.
        apply Z.divide_add_r; [|done]. eapply Z.divide_trans; [apply (pow2_dvd k (k + 1)); lia|done].
      * split_and!; try lia. eapply Z.divide_trans; [apply (pow2_dvd k (k + 1)); lia|done].
      * destruct (g_block _ _ G _ _ _ _ Hl) as (? & ? & ?). by simplify_eq.
    + rewrite !lookup_insert_ne in Hl by congruence. eapply (g_block _ _ G), Hl.
  - intros b' j k' u' j' k'' u'' Hl1 Hl2 Hne. destruct (decide (b' = b)) as [->|].
    + apply Hcase in Hl1 as [[-> ->]|[[-> ->]|(? & Hl1)]];
        apply Hcase in Hl2 as [[-> ->]|[[-> ->]|(? & Hl2)]]; try lia.
      eapply (g_disj _ _ G); eauto.
    + rewrite !lookup_insert_ne in Hl1, Hl2 by congruence. eapply (g_disj _ _ G); eauto.
  - intros b' r' x Hr' Hx. destruct (g_cover _ _ G b' r' x) as (h & k' & u' & Hl & Hh); [done..|].
    destruct (decide ((b', h) = (b, i))) as [|Hne]; simplify_eq.
    + destruct (decide (x < i + 2 ^ k)).
      * exists i, k, u. rewrite lookup_insert_ne by (intros ?; simplify_eq; lia).
        rewrite lookup_insert_eq. split; [done|lia].
      * exists (i + 2 ^ k), k, v. rewrite lookup_insert_eq. split; [done|lia].
    + exists h, k', u'. rewrite !lookup_insert_ne; [done|congruence|]. by intros ?; simplify_eq.
Qed.

(** Merging two halves; the merged block is free. *)
Lemma geom_merge rs B b r i k u1 u2 : geom rs B -> rs !! b = Some r -> k + 1 < FREELIST_COUNT ->
  (2 ^ (k + 1) | i - res_count r) ->
  B !! (b, i) = Some (k, u1) -> B !! (b, i + 2 ^ k) = Some (k, u2) ->
  geom rs (<[(b, i) := (k + 1, false)]> (delete (b, i + 2 ^ k) B)).
Proof.
  intros G Hr Hk13 Hal HB1 HB2.
  destruct (g_block _ _ G _ _ _ _ HB1) as (r1 & Hr1 & Hk & Hi & Hic & Hd). simplify_eq.
  destruct (g_block _ _ G _ _ _ _ HB2) as (r2 & Hr2 & _ & Hi2 & Hic2 & _). simplify_eq.
  pose proof (pow2_pos k ltac:(lia)) as Hp. pose proof (pow2_succ k ltac:(lia)) as Hs.
  assert (Hcase : forall j k' u',
    <[(b, i) := (k + 1, false)]> (delete (b, i + 2 ^ k) B) !! (b, j) = Some (k', u') ->
    (j = i /\ k' = k + 1) \/
    ((i + 2 ^ (k + 1) <= j \/ j + 2 ^ k' <= i) /\ B !! (b, j) = Some (k', u'))).
  { intros j k' u' Hl. apply lookup_insert_Some in Hl as [[? ?]|[? Hl]]; simplify_eq; [auto|].
    apply lookup_delete_Some in Hl as [? Hl]. right. split; [|done].
    destruct (g_block _ _ G _ _ _ _ Hl) as (? & _ & Hk' & _).
    pose proof (pow2_pos k' ltac:(lia)).
    assert (j <> i /\ j <> i + 2 ^ k) as [? ?] by (split; congruence).
    destruct (g_disj _ _ G b i k u1 j k' u'); [done..| |lia].
    destruct (g_disj _ _ G b (i + 2 ^ k) k u2 j k' u'); [done..| |lia]. lia. }
  split.
  - apply G.
  - intros b' j k' u' Hl. destruct (decide (b' = b)) as [->|].
    + exists r. split; [done|]. apply Hcase in Hl as [[-> ->]|(? & Hl)].
      * split_and!; (done || lia).
      * destruct (g_block _ _ G _ _ _ _ Hl) as (? & ? & ?). by simplify_eq.
    + rewrite lookup_insert_ne, lookup_delete_ne in Hl by congruence.
      eapply (g_block _ _ G), Hl.
  - intros b' j k' u' j' k'' u'' Hl1 Hl2 Hne. destruct (decide (b' = b)) as [->|].
    + apply Hcase in Hl1 as [[-> ->]|(? & Hl1)]; apply Hcase in Hl2 as [[-> ->]|(? & Hl2)];
        try lia. eapply (g_disj _ _ G); eauto.
    + rewrite lookup_insert_ne, lookup_delete_ne in Hl1 by congruence.
      rewrite lookup_insert_ne, lookup_delete_ne in Hl2 by congruence.
      eapply (g_disj _ _ G); eauto.
  - intros b' r' x Hr' Hx. destruct (g_cover _ _ G b' r' x) as (h & k' & u' & Hl & Hh); [done..|].
    destruct (decide ((b', h) = (b, i) \/ (b', h) = (b, i + 2 ^ k))) as [[?|?]|Hne]; simplify_eq.
    + exists i, (k + 1), false. rewrite lookup_insert_eq. split; [done|lia].
    + exists i, (k + 1), false. rewrite lookup_insert_eq. split; [done|lia].
    + exists h, k', u'. rewrite lookup_insert_ne, lookup_delete_ne; [done|..]; intros ?;
        apply Hne; by auto.
Qed.

(** ** Page records *)

Lemma pages_agree_set ps B B' f f' q g :
  pages_agree ps B f ->
  (forall q', q' <> q -> is_Some (ps !! q') -> B' !! q' = B !! q' /\
     (f' = Some q' <-> f = Some q')) ->
  (forall p, ps !! q = Some p -> page_agrees q (B !! q) f p -> page_agrees q (B' !! q) f' (g p)) ->
  forall p, ps !! q = Some p -> pages_agree (<[q := g p]> ps) B' f'.
Proof.
  intros Ha Hother Hq p Hp q' p' Hl. apply lookup_insert_Some in Hl as [[<- <-]|[Hne Hl]]; [auto|].
  destruct (Hother q') as [-> Hf]; [done|eauto|]. destruct (Ha q' p' Hl) as (? & ? & Hm).
  split_and!; [done..|]. destruct (B !! q') as [[k u]|]; [|done].
  destruct Hm as (? & ? & Hin). split_and!; [done..|]. rewrite Hin. f_equal. f_equal.
  by apply bool_decide_ext.
Qed.

Lemma pages_dom_insert rs ps q p : pages_dom rs ps -> is_Some (ps !! q) ->
  pages_dom rs (<[q := p]> ps).
Proof.
  unfold pages_dom. intros Hd Hq b i. rewrite <- Hd. destruct (decide (q = (b, i))) as [->|].
  - rewrite lookup_insert_eq. split; eauto.
  - by rewrite lookup_insert_ne.
Qed.

(** ** Free lists *)

Lemma lists_lookup fl B f k : lists_agree fl B f -> 0 <= k < FREELIST_COUNT ->
  exists l, fl !! Z.to_nat k = Some l /\ NoDup l /\
    forall q, q ∈ l <-> B !! q = Some (k, false) /\ f <> Some q.
Proof.
  intros [Hlen Hl] Hk. unfold FREELIST_COUNT in Hk.
  destruct (lookup_lt_is_Some_2 fl (Z.to_nat k)) as [l Hkl]; [lia|].
  exists l. split; [done|]. destruct (Hl _ _ Hkl) as [? Hq]. split; [done|].
  intros q. rewrite Hq. by rewrite Z2Nat.id by lia.
Qed.

(** Replacing one list when the tiling changes only at that list's blocks. *)
Lemma lists_agree_set fl B B' f f' k l' : lists_agree fl B f -> 0 <= k < FREELIST_COUNT ->
  NoDup l' -> (forall q, q ∈ l' <-> B' !! q = Some (k, false) /\ f' <> Some q) ->
  (forall q k', k' <> k -> (B' !! q = Some (k', false) /\ f' <> Some q <->
     B !! q = Some (k', false) /\ f <> Some q)) ->
  lists_agree (<[Z.to_nat k := l']> fl) B' f'.
Proof.
  intros [Hlen Hl] Hk Hnd Hq Hother. split; [by rewrite length_insert|].
  intros j l Hj. destruct (decide (j = Z.to_nat k)) as [->|Hne].
  - rewrite list_lookup_insert_eq in Hj by (unfold FREELIST_COUNT in *; lia).
    simplify_eq. rewrite Z2Nat.id by lia. done.
  - rewrite list_lookup_insert_ne in Hj by done. destruct (Hl _ _ Hj) as [? Hjq].
    split; [done|]. intros q. rewrite Hjq. symmetry. apply Hother. lia.
Qed.

Lemma update_page_Some q g s p : pages s !! q = Some p ->
  update_page q g s = Some (with_pages (<[q := g p]> (pages s)) s).
Proof. intros Hp. unfold update_page. by rewrite Hp. Qed.

(** ** Merging *)

Definition same_used (B B' : gmap (Z * Z) (Z * bool)) : Prop :=
  forall q k, B' !! q = Some (k, true) <-> B !! q = Some (k, true).

(** What the list operations leave alone. *)
Definition same_meta (s s' : state) : Prop :=
  regions s' = regions s /\ p_regions s' = p_regions s /\
  total_memory s' = total_memory s /\ reserved_memory s' = reserved_memory s /\
  used_memory s' = used_memory s /\ fills s' = fills s.

Lemma same_meta_refl s : same_meta s s.
Proof. done. Qed.

Lemma same_meta_trans s1 s2 s3 : same_meta s1 s2 -> same_meta s2 s3 -> same_meta s1 s3.
Proof.
  intros (? & ? & ? & ? & ? & ?) (? & ? & ? & ? & ? & ?).
  split_and!; congruence.
Qed.

#[local] Hint Resolve same_meta_refl : mach.

(** One merge: blocks [a] (lower) and [c] (upper) of order [k], one of them the
    floating [page] and the other the listed [buddy]. *)
Lemma merge_agree s B k a c page buddy pb :
  inv s B (Some page) -> a <> c -> 0 <= k < 13 ->
  (page = a /\ buddy = c \/ page = c /\ buddy = a) ->
  B !! a = Some (k, false) -> B !! c = Some (k, false) ->
  pages s !! buddy = Some pb ->
  let B1 := <[a := (k + 1, false)]> (delete c B) in
  exists l', list_remove buddy (default [] (freelists s !! Z.to_nat k)) = Some l' /\
    lists_agree (<[Z.to_nat k := l']> (freelists s)) B1 (Some a) /\
    forall p1, <[buddy := set_in_list false pb]> (pages s) !! a = Some p1 ->
      pages_agree (<[a := set_list_index (k + 1) (set_in_list false p1)]>
        (<[buddy := set_in_list false pb]> (pages s))) B1 (Some a).
Proof.
  intros I Hac Hk Hpb Ha Hc Hbuddy B1.
  destruct (lists_lookup _ _ _ k (i_lists _ _ _ I)) as (l & Hl & Hnd & Hq);
    [unfold FREELIST_COUNT; lia|]. rewrite Hl. simpl.
  assert (Hpne : page <> buddy) by (destruct Hpb as [[-> ->]|[-> ->]]; congruence).
  assert (Hbl : buddy ∈ l).
  { apply Hq. split; [|congruence]. by destruct Hpb as [[-> ->]|[-> ->]]. }
  destruct (list_remove_elem buddy l Hbl Hnd) as (l' & -> & Hnd' & Hl').
  eexists. split; [done|]. split.
  - eapply lists_agree_set; [apply I|unfold FREELIST_COUNT; lia|done| |].
    + intros q. rewrite Hl', Hq. unfold B1. rewrite lookup_insert_Some, lookup_delete_Some.
      destruct Hpb as [[-> ->]|[-> ->]]; split.
      * intros [[? ?] ?]. split; [right|]; split_and?; congruence.
      * intros [[[? [=]]|(? & ? & ?)] ?]; [lia|]. split_and!; congruence.
      * intros [[? ?] ?]. split; [right|]; split_and?; congruence.
      * intros [[[? [=]]|(? & ? & ?)] ?]; [lia|]. split_and!; congruence.
    + intros q k' Hk'. unfold B1. rewrite lookup_insert_Some, lookup_delete_Some.
      destruct Hpb as [[-> ->]|[-> ->]]; split.
      * intros [[[? ?]|(? & ? & ?)] ?]; [congruence|]. split; congruence.
      * intros [? ?]. split; [right|]; split_and?; congruence.
      * intros [[[? ?]|(? & ? & ?)] ?]; [congruence|]. split; congruence.
      * intros [? ?]. split; [right|]; split_and?; congruence.
  - intros p1 Hp1 q p' Hl0. unfold B1.
    assert (Hag : forall q0 p0, <[buddy := set_in_list false pb]> (pages s) !! q0 = Some p0 ->
      exists p00, pages s !! q0 = Some p00 /\ page_agrees q0 (B !! q0) (Some page) p00 /\
        (p0 = p00 /\ q0 <> buddy \/ p0 = set_in_list false p00 /\ q0 = buddy)).
    { intros q0 p0 Hq0. apply lookup_insert_Some in Hq0 as [[<- <-]|[Hne Hq0]].
      - exists pb. split_and!; [done|by apply (i_pages _ _ _ I)|]. right. done.
      - exists p0. split_and!; [done|by apply (i_pages _ _ _ I)|]. left. split; congruence. }
    apply lookup_insert_Some in Hl0 as [[<- <-]|[Hne Hl0]].
    + destruct (Hag _ _ Hp1) as (p00 & _ & (? & ? & Hm) & Hor). rewrite lookup_insert_eq.
      rewrite Ha in Hm. destruct Hm as (Hu & _ & _).
      assert (used p1 = false) by by destruct Hor as [[-> _]|[-> _]].
      destruct Hor as [[-> _]|[-> _]]; unfold page_agrees; simpl;
        rewrite (wrap_small 4) by (split; lia); split_and!; try done;
        by rewrite bool_decide_eq_true_2.
    + rewrite lookup_insert_ne by done. destruct (Hag _ _ Hl0) as (p00 & Hp00 & (? & ? & Hm) & Hor).
      destruct (decide (q = c)) as [->|Hqc].
      * rewrite lookup_delete_eq. rewrite Hc in Hm. destruct Hm as (Hu & _ & Hin).
        destruct Hor as [[-> Hb]|[-> _]]; unfold page_agrees; simpl; split_and!; try done.
        assert (page = c) as -> by (destruct Hpb as [[-> ->]|[-> ->]]; congruence).
        rewrite Hin. by rewrite bool_decide_eq_true_2.
      * rewrite lookup_delete_ne by done.
        assert (q <> buddy /\ q <> page) as [Hqb Hqp]
          by (destruct Hpb as [[-> ->]|[-> ->]]; split; congruence).
        destruct Hor as [[-> _]|[_ ?]]; [|done]. split_and!; [done..|].
        destruct (B !! q) as [[k0 u0]|]; [|done]. destruct Hm as (? & ? & Hin).
        split_and!; [done..|]. rewrite Hin. f_equal.
        rewrite !bool_decide_eq_false_2; congruence.
Qed.

(** The page record at the head of a block. *)
Lemma block_page s B f b i k u : inv s B f -> B !! (b, i) = Some (k, u) ->
  exists r p, regions s !! b = Some r /\ region_ok b r /\ pages s !! (b, i) = Some p /\
    page_agrees (b, i) (Some (k, u)) f p /\ 0 <= k < FREELIST_COUNT /\ res_count r <= i /\
    i + 2 ^ k <= page_count r /\ (2 ^ k | i - res_count r).
Proof.
  intros I HB. destruct (g_block _ _ (i_geom _ _ _ I) _ _ _ _ HB) as (r & Hr & Hk & Hi & Hic & Hd).
  pose proof (g_regions _ _ (i_geom _ _ _ I) _ _ Hr) as Hro.
  pose proof (pow2_pos k ltac:(lia)).
  destruct (proj2 (i_dom _ _ _ I b i)) as [p Hp].
  { exists r. split; [done|]. destruct Hro. lia. }
  exists r, p. pose proof (i_pages _ _ _ I _ _ Hp) as Ha. rewrite HB in Ha. done.
Qed.

(** The free block at [i] of order [k] has grown to the one at [i'] of order
    [k']: the free blocks inside of it are gone, the others are as before. *)
Definition merged (B B' : gmap (Z * Z) (Z * bool)) (b i k i' k' : Z) : Prop :=
  i' <= i /\ i + 2 ^ k <= i' + 2 ^ k' /\
  forall q kk, B' !! q = Some (kk, false) <->
    q = (b, i') /\ kk = k' \/
    B !! q = Some (kk, false) /\ ~ (fst q = b /\ i' <= snd q < i' + 2 ^ k').

Definition buddy_index (r : PRegion) (i k : Z) : Z :=
  if decide ((2 ^ (k + 1) | i - res_count r)) then i + 2 ^ k else i - 2 ^ k.

(** The other half of the pair that the block belongs to is not free. *)
Definition no_buddy (rs : gmap Z PRegion) (B : gmap (Z * Z) (Z * bool)) (b i k : Z) : Prop :=
  k < FREELIST_COUNT - 1 -> forall r, rs !! b = Some r -> buddy_index r i k < page_count r ->
  B !! (b, buddy_index r i k) <> Some (k, false).

Lemma merged_refl rs B b i k : geom rs B -> B !! (b, i) = Some (k, false) -> merged B B b i k i k.
Proof.
  intros G HB. split_and!; [lia..|]. intros [b' j] kk. simpl. split.
  - intros Hq. destruct (decide ((b', j) = (b, i))) as [Heq|Hne]; [left; split; congruence|right].
    split; [done|]. intros [-> Hj].
    destruct (g_block _ _ G _ _ _ _ Hq) as (? & _ & ? & _). pose proof (pow2_pos kk ltac:(lia)).
    destruct (g_disj _ _ G b j kk false i k false); [done..|congruence|lia|lia].
  - intros [[[= -> ->] ->]|[? _]]; done.
Qed.

(** One merge, then the others. *)
Lemma merged_step B B2 b i k x y k2 j : 0 <= k -> y = x + 2 ^ k -> (i = x \/ i = y) ->
  B !! (b, x) = Some (k, false) -> B !! (b, y) = Some (k, false) ->
  merged (<[(b, x) := (k + 1, false)]> (delete (b, y) B)) B2 b x (k + 1) j k2 ->
  merged B B2 b i k j k2.
Proof.
  intros Hk Hy Hi Hx HB (Hle & Hend & Hq). pose proof (pow2_pos k Hk). pose proof (pow2_succ k Hk).
  split_and!; [lia..|]. intros q kk. rewrite Hq, lookup_insert_Some, lookup_delete_Some. split.
  - intros [?|[[[<- ?]|(? & ? & ?)] Hout]]; [by left| |by right]. destruct Hout. simpl. lia.
  - intros [?|[HBq Hout]]; [by left|right]. split; [|done]. right.
    split_and!; [intros <-|intros <-|done]; apply Hout; simpl; lia.
Qed.

Lemma merge_loop_inv fuel k page s B : inv s B (Some page) -> B !! page = Some (k, false) ->
  (13 <= k + Z.of_nat fuel) ->
  exists k' i' s' B', merge_loop fuel k k page s = Some (k', (fst page, i'), s') /\
    inv s' B' (Some (fst page, i')) /\ B' !! (fst page, i') = Some (k', false) /\
    same_used B B' /\ same_meta s s' /\ merged B B' (fst page) (snd page) k i' k' /\
    no_buddy (regions s) B' (fst page) i' k'.
Proof.
  revert k page s B. induction fuel as [|fuel IH]; intros k page s B I HB Hfuel;
    destruct page as [b i]; cbn [fst snd];
    pose proof (merged_refl _ _ _ _ _ (i_geom _ _ _ I) HB) as Hmr;
    destruct (block_page _ _ _ _ _ _ _ I HB) as (r & p & Hr & Hro & Hp & (Hreg & Hnum & _ & Hidx & _)
      & Hk & Hi & Hic & Hd); cbn [merge_loop]; unfold FREELIST_COUNT in *.
  { destruct (Z.ltb_spec k (14 - 1)); [lia|]. eexists _, _, _, _. split; [done|].
    split_and!; [done..|by intros|apply same_meta_refl|done|]. intros Hlt. unfold FREELIST_COUNT in Hlt. lia. }
  destruct (Z.ltb_spec k (14 - 1)).
  2: { eexists _, _, _, _. split; [done|]. split_and!; [done..|by intros|apply same_meta_refl|done|].
       intros Hlt. unfold FREELIST_COUNT in Hlt. lia. }
  rewrite Hp. cbn [mbind option_bind]. rewrite Hreg. simpl fst. rewrite Hr. cbn [mbind option_bind].
  pose proof (pow2_pos k ltac:(lia)).
  rewrite (buddy_of_spec b r i p k) by (done || lia).
  fold (buddy_index r i k). set (y := buddy_index r i k).
  destruct (y >=? page_count r) eqn:Hge; bool_to_prop.
  { eexists _, _, _, _. split; [done|]. split_and!; [done..|by intros|apply same_meta_refl|done|].
    intros _ r0 Hr0. simplify_eq. fold y. lia. }
  destruct (geom_buddy _ _ b r i k false (i_geom _ _ _ I) Hr HB) as (Hal & Hmax & Hy & k' & u' & HB');
    [done|]. fold (buddy_index r i k) in Hal, Hmax, Hy, HB'. fold y in Hal, Hmax, Hy, HB'.
  destruct (block_page _ _ _ _ _ _ _ I HB') as (r' & pb & Hr' & _ & Hpb & (_ & _ & Hu' & Hidx' & Hin')
    & Hk' & _). simplify_eq. rewrite Hpb. cbn [mbind option_bind].
  destruct (negb (used pb) && (list_index pb =? list_index p)) eqn:Hcond.
  2: { eexists _, _, _, _. split; [done|]. split_and!; [done..|by intros|apply same_meta_refl|done|].
       intros _ r0 Hr0. simplify_eq. fold y. intros _ HBy.
       apply andb_false_iff in Hcond as [Hc|Hc]; [apply negb_false_iff in Hc|apply Z.eqb_neq in Hc]; congruence. }
  apply andb_true_iff in Hcond as [Hun Hix]. apply negb_true_iff in Hun. apply Z.eqb_eq in Hix.
  rewrite Hun in Hin', HB'. rewrite Hix in HB'. rewrite Hin'.
  assert (Hne : (b, i) <> (b, y)).
  { intros [= Hiy]. unfold y, buddy_index in Hiy. destruct (decide _); lia. }
  rewrite bool_decide_eq_false_2 by congruence. cbn [negb andb].
  unfold ptr_ltb. cbn [fst snd].
  set (a := (b, Z.min i y)). set (c := (b, Z.max i y)).
  assert (Hfirst : (if i <? y then (b, i) else (b, y)) = a).
  { unfold a. destruct (Z.ltb_spec i y); f_equal; lia. }
  rewrite Hfirst.
  assert (Hor : (b, i) = a /\ (b, y) = c \/ (b, i) = c /\ (b, y) = a).
  { unfold a, c. destruct (Z.le_ge_cases i y); [left|right]; split; f_equal; lia. }
  assert (Hac : a <> c) by (unfold a, c; intros [=]; lia).
  assert (Ha : B !! a = Some (list_index p, false)) by (destruct Hor as [[<- _]|[_ <-]]; congruence).
  assert (Hc : B !! c = Some (list_index p, false)) by (destruct Hor as [[_ <-]|[<- _]]; congruence).
  destruct (merge_agree s B (list_index p) a c (b, i) (b, y) pb I Hac) as (l' & Hrm & Hli & Hpa);
    [lia|done..|].
  destruct (lists_lookup _ _ _ (list_index p) (i_lists _ _ _ I)) as (l & Hl & _ & _);
    [unfold FREELIST_COUNT; lia|].
  rewrite Hl in Hrm. simpl in Hrm. unfold fl_remove. rewrite Hix, Hl. cbn [mbind option_bind].
  rewrite Hrm. cbn [mbind option_bind].
  rewrite (update_page_Some (b, y) _ _ pb) by done. cbn [mbind option_bind].
  set (ps1 := <[(b, y):=set_in_list false pb]> (pages s)) in *.
  assert (exists p1, ps1 !! a = Some p1) as [p1 Hp1].
  { unfold ps1. destruct Hor as [[<- _]|[_ <-]].
    - rewrite lookup_insert_ne by done. eauto.
    - rewrite lookup_insert_eq. eauto. }
  rewrite (update_page_Some a _ _ p1) by done. cbn [mbind option_bind].
  specialize (Hpa p1 Hp1).
  set (B1 := <[a := (list_index p + 1, false)]> (delete c B)) in *.
  match goal with |- context [merge_loop fuel _ _ a ?x] => set (s1 := x) end.
  assert (Hcm : Z.max i y = Z.min i y + 2 ^ list_index p) by done.
  assert (I1 : inv s1 B1 (Some a)).
  { split; [|apply pages_dom_insert; [apply pages_dom_insert; [apply I|eauto]|eauto]|done|done].
    unfold B1, a, c. rewrite Hcm.
    apply (geom_merge _ _ b r _ _ false false); [apply I|done|unfold FREELIST_COUNT; lia|done|done|].
    by rewrite <- Hcm. }
  destruct (IH (list_index p + 1) a s1 B1) as (k2 & i2 & s2 & B2 & Hrun & I2 & HB2 & Hsu & Hm & Hmg & Hnb);
    [done|apply lookup_insert_eq|lia|].
  exists k2, i2, s2, B2. split; [exact Hrun|]. split_and!; [exact I2|exact HB2| | | |exact Hnb].
  - intros q k0. etransitivity; [apply Hsu|]. unfold B1. rewrite lookup_insert_Some, lookup_delete_Some. split.
    + intros [[? ?]|(? & ? & ?)]; congruence.
    + intros HBq. right. split_and!; congruence.
  - eapply same_meta_trans; [|exact Hm]. by split_and!.
  - apply (merged_step B B2 b i (list_index p) (Z.min i y) (Z.max i y)); [lia|done|lia|done|done|exact Hmg].
Qed.

(** ** Freeing *)

(** Adding an element to a list: a block becomes free or stops floating. *)
Lemma fl_push_agree s B B' f f' k q : lists_agree (freelists s) B f -> 0 <= k < FREELIST_COUNT ->
  B' !! q = Some (k, false) -> f' <> Some q ->
  (B !! q <> Some (k, false) \/ f = Some q) ->
  (forall q' k', q' <> q -> (B' !! q' = Some (k', false) /\ f' <> Some q' <->
     B !! q' = Some (k', false) /\ f <> Some q')) ->
  (forall k', k' <> k -> B !! q = Some (k', false) -> f = Some q) ->
  exists s', fl_push k q s = Some s' /\ lists_agree (freelists s') B' f' /\
    pages s' = pages s /\ same_meta s s'.
Proof.
  intros Hla Hk HB' Hf' Hnew Hother Hq.
  destruct (lists_lookup _ _ _ k Hla Hk) as (l & Hl & Hnd & Hin).
  unfold fl_push. rewrite Hl. simpl. eexists. split; [done|].
  split_and!; [|done|by split_and!]. simpl. apply (lists_agree_set (freelists s) B B' f f'); [done..| | |].
  - apply NoDup_app. split_and!; [done| |apply NoDup_singleton].
    intros q' Hq' ->%list_elem_of_singleton. apply Hin in Hq' as [? ?]. by destruct Hnew.
  - intros q'. rewrite elem_of_app, list_elem_of_singleton, Hin.
    destruct (decide (q' = q)) as [->|Hne].
    + split; [|by right]. intros _. done.
    + rewrite <- Hother by done. tauto.
  - intros q' k' Hk'. destruct (decide (q' = q)) as [->|Hne]; [|by apply Hother].
    split; [intros [? _]; congruence|]. intros [HBq Hfq]. exfalso. eapply Hfq, Hq; eauto.
Qed.

Lemma freelist_insert_inv s B q k : inv s B None -> B !! q = Some (k, true) ->
  exists s' B' i' k', freelist_insert k q s = Some s' /\ inv s' B' None /\ same_meta s s' /\
    (forall q' k', B' !! q' = Some (k', true) <-> B !! q' = Some (k', true) /\ q' <> q) /\
    B' !! (fst q, i') = Some (k', false) /\
    merged (<[q := (k, false)]> B) B' (fst q) (snd q) k i' k' /\ no_buddy (regions s') B' (fst q) i' k'.
Proof.
  intros I HB. destruct q as [b i].
  destruct (block_page _ _ _ _ _ _ _ I HB) as (r & p & Hr & Hro & Hp & Hag & Hk & _).
  unfold freelist_insert. rewrite (update_page_Some _ _ _ p) by done. cbn [mbind option_bind].
  set (s1 := with_pages _ s). set (B1 := <[(b, i) := (k, false)]> B).
  assert (I1 : inv s1 B1 (Some (b, i))).
  { split; simpl.
    - by apply (geom_flag _ _ _ _ true), HB; apply I.
    - apply pages_dom_insert; [apply I|eauto].
    - apply (pages_agree_set (pages s) B B1 None (Some (b, i)) (b, i)
        (fun p => set_list_index k (set_used false p))); [apply I| | |done].
      + intros q' Hne _. unfold B1. rewrite lookup_insert_ne by done. split; [done|].
        split; congruence.
      + intros p' _ (? & ? & Hx). rewrite HB in Hx. destruct Hx as (_ & _ & Hin).
        unfold B1. rewrite lookup_insert_eq. unfold page_agrees. simpl.
        rewrite wrap_small by (unfold FREELIST_COUNT in *; split; lia).
        split_and!; try done. rewrite Hin. simpl. symmetry.
        by apply negb_false_iff, bool_decide_eq_true_2.
    - destruct (i_lists _ _ _ I) as [Hlen Hl]. split; [done|]. intros j l Hj.
      destruct (Hl _ _ Hj) as [Hnd Hq]. split; [done|]. intros q'. rewrite Hq. unfold B1.
      rewrite lookup_insert_Some. split.
      + intros [? _]. split; [right; split; congruence|congruence].
      + intros [[[? ?]|[? ?]] ?]; [congruence|done]. }
  destruct (merge_loop_inv 14 k (b, i) s1 B1 I1) as (k' & i2 & s2 & B2 & -> & I2 & HB2 & Hsu & Hm & Hmg & Hnb);
    [apply lookup_insert_eq|unfold FREELIST_COUNT in *; lia|].
  cbn [mbind option_bind fst snd] in *. set (q2 := (b, i2)) in *.
  assert (exists p2, pages s2 !! q2 = Some p2 /\ page_agrees q2 (Some (k', false)) (Some q2) p2 /\
    0 <= k' < FREELIST_COUNT) as (p2 & Hp2 & Hag2 & Hk').
  { destruct (block_page _ _ _ _ _ _ _ I2 HB2) as (? & p2 & _ & _ & ? & ? & ? & _).
    eauto. }
  rewrite (update_page_Some _ _ _ p2) by done. cbn [mbind option_bind].
  set (s3 := with_pages _ s2).
  destruct (fl_push_agree s3 B2 B2 (Some q2) None k' q2) as (s4 & Hpush & Hla & Hps & Hm4);
    [apply I2|done..|by right| | |].
  { intros q' k0 Hne. split; intros [? ?]; split; congruence. }
  { intros k0 _ _. done. }
  exists s4, B2, i2, k'. split; [exact Hpush|]. split_and!; [| | |done|done|].
  - destruct Hm4 as (Hreg & _). split.
    + rewrite Hreg. apply I2.
    + rewrite Hreg, Hps. apply pages_dom_insert; [apply I2|eauto].
    + rewrite Hps. apply (pages_agree_set (pages s2) B2 B2 (Some q2) None q2 (set_in_list true));
        [apply I2| | |done].
      * intros q' Hne _. split; [done|]. split; congruence.
      * intros p' _ (? & ? & Hx). rewrite HB2 in *. destruct Hx as (? & ? & _).
        unfold page_agrees; simpl. by split_and!.
    + done.
  - eapply same_meta_trans; [|eapply same_meta_trans; [exact Hm|exact Hm4]]. by split_and!.
  - intros q' k0. etransitivity; [apply Hsu|]. unfold B1. rewrite lookup_insert_Some. split.
    + intros [[? ?]|[? ?]]; [congruence|]. split; congruence.
    + intros [? ?]. right. split; congruence.
  - destruct Hm4 as (-> & _). change (regions s3) with (regions s2). destruct Hm as (-> & _). exact Hnb.
Qed.

(** ** Allocating *)

(** Popping the last block of a free list. *)
Lemma fl_pop_agree s B k : inv s B None -> 0 <= k < FREELIST_COUNT ->
  (fl_pop k s = Some (None, s) /\ forall q, B !! q <> Some (k, false)) \/
  exists q s1, fl_pop k s = Some (Some q, s1) /\ B !! q = Some (k, false) /\
    pages s1 = pages s /\ same_meta s s1 /\
    lists_agree (freelists s1) (<[q := (k, true)]> B) None.
Proof.
  intros I Hk. destruct (lists_lookup _ _ _ k (i_lists _ _ _ I) Hk) as (l & Hl & Hnd & Hin).
  unfold fl_pop. rewrite Hl. simpl. destruct l as [|q l _] using rev_ind.
  - left. split; [done|]. intros q Hq. destruct (Hin q) as [_ Hin'].
    by apply (not_elem_of_nil q), Hin'.
  - right. rewrite last_snoc. eexists q, _. split; [done|].
    assert (HBq : B !! q = Some (k, false)) by (apply Hin; set_solver).
    split_and!; [done|done|by split_and!|]. simpl.
    rewrite length_app. simpl. replace (length l + 1 - 1)%nat with (length l) by lia.
    rewrite take_app_length. apply NoDup_app in Hnd as (Hnd & Hd & _).
    apply (lists_agree_set (freelists s) B _ None None); [apply I|done|done| |].
    + intros q'. rewrite lookup_insert_Some. specialize (Hin q').
      rewrite elem_of_app, list_elem_of_singleton in Hin. split.
      * intros Hq'. assert (q' <> q). { intros ->. apply (Hd q Hq'). set_solver. }
        split; [right; split; [congruence|]; by apply Hin; left|done].
      * intros [[[? ?]|[? ?]] _]; [congruence|]. destruct Hin as [_ Hin].
        destruct Hin as [?| ->]; done.
    + intros q' k' Hk'. rewrite lookup_insert_Some. split; intros [? _]; split; try done.
      * destruct H as [[? ?]|[? ?]]; congruence.
      * right. split; congruence.
Qed.

(** The state with another order written in the record of [q]: while a block is
    being split its head already carries the final order. *)
Definition relabel (q : Z * Z) (k : Z) (s : state) : state :=
  with_pages (alter (set_list_index k) q (pages s)) s.

Lemma relabel_id q k s p : pages s !! q = Some p -> list_index p = k -> fits 4 k ->
  relabel q k s = s.
Proof.
  intros Hp Hk Hf. unfold relabel. destruct s. unfold with_pages. simpl in *. f_equal.
  apply map_eq. intros q'. rewrite lookup_alter. case_decide; [subst q'|done].
  rewrite Hp. simpl. f_equal. destruct p. unfold set_list_index. simpl in *. subst.
  by rewrite wrap_small.
Qed.

Lemma split_loop_inv fuel i index b n s B p : inv (relabel (b, n) i s) B None ->
  pages s !! (b, n) = Some p -> B !! (b, n) = Some (i, true) -> 0 <= index <= i ->
  i <= index + Z.of_nat fuel ->
  exists s' B', split_loop fuel i index b n s = Some s' /\ inv (relabel (b, n) index s') B' None /\
    pages s' !! (b, n) = Some p /\ B' !! (b, n) = Some (index, true) /\ same_meta s s' /\
    forall q k, q <> (b, n) -> (B' !! q = Some (k, true) <-> B !! q = Some (k, true)).
Proof.
  revert i s B. induction fuel as [|fuel IH]; intros i s B I Hp HB Hi Hf; cbn [split_loop].
  { destruct (Z.ltb_spec index i); [lia|]. assert (i = index) as -> by lia.
    exists s, B. split_and!; try done. }
  destruct (Z.ltb_spec index i).
  2: { assert (i = index) as -> by lia. exists s, B. split_and!; try done. }
  destruct (g_block _ _ (i_geom _ _ _ I) _ _ _ _ HB) as (r & Hr & Hk & Hir & Hic & Hd).
  simpl in Hr. unfold FREELIST_COUNT in Hk.
  destruct (geom_split _ _ b n (i - 1) true false (i_geom _ _ _ I)) as [Hnone G'];
    [lia|by replace (i - 1 + 1) with i by lia|].
  pose proof (pow2_pos (i - 1) ltac:(lia)) as Hpos.
  pose proof (pow2_succ (i - 1) ltac:(lia)) as Hsucc. replace (i - 1 + 1) with i in Hsucc by lia.
  destruct (g_regions _ _ (i_geom _ _ _ I) _ _ Hr) as [? ? Hb0 Hres Hlim].
  pose proof (pow2_le_13 i ltac:(lia)).
  assert (Hb36 : 0 <= b / PAGE_SIZE) by (apply Z.div_pos; [done|by unfold PAGE_SIZE]).
  rewrite index_to_size_pow by lia. rewrite Hsucc. rewrite (Z.mul_comm 2), Z.div_mul by lia.
  unfold add64. rewrite u64_small by lia.
  set (q2 := (b, n + 2 ^ (i - 1))) in *. set (q := (b, n)) in *.
  assert (Hq2 : q2 <> q) by (unfold q2, q; intros [=]; lia).
  destruct (proj2 (i_dom _ _ _ I b (n + 2 ^ (i - 1)))) as [p2 Hp2].
  { exists r. split; [done|]. lia. }
  fold q2 in Hp2. simpl in Hp2. rewrite lookup_alter_ne in Hp2 by congruence.
  rewrite (update_page_Some q2 _ s p2) by done. cbn [mbind option_bind].
  set (B1 := <[q2 := (i - 1, false)]> (<[q := (i - 1, true)]> B)) in *.
  destruct (fl_push_agree (with_pages (<[q2:=set_list_index (i - 1) p2]> (pages s)) s)
    B B1 None None (i - 1) q2) as (s1 & Hpush & Hla & Hps & Hm1);
    [apply (i_lists _ _ _ I)|unfold FREELIST_COUNT; lia|apply lookup_insert_eq|done|left; congruence
    | |congruence|].
  { intros q' k' Hne. unfold B1. rewrite lookup_insert_ne by congruence.
    rewrite lookup_insert_Some. split; intros [? _]; split; try done.
    - destruct H1 as [[? ?]|[? ?]]; congruence.
    - right. split; congruence. }
  rewrite Hpush. cbn [mbind option_bind].
  assert (Hps1 : pages s1 !! q2 = Some (set_list_index (i - 1) p2)).
  { rewrite Hps. apply lookup_insert_eq. }
  rewrite (update_page_Some q2 _ s1 _ Hps1). cbn [mbind option_bind].
  match goal with |- context [split_loop fuel _ _ _ _ ?x] => set (s2 := x) end.
  assert (Hpages2 : pages s2 = <[q2 := set_in_list true (set_list_index (i - 1) p2)]> (pages s)).
  { unfold s2. simpl. rewrite Hps. simpl. by rewrite insert_insert_eq. }
  assert (Hm2 : same_meta s s2) by (destruct Hm1 as (?&?&?&?&?&?); by split_and!).
  destruct (IH (i - 1) s2 B1) as (s' & B' & Hrun & I' & Hp' & HB' & Hm' & Hu'); try done.
  - destruct Hm1 as (Hreg & _). split.
    + unfold s2. simpl. rewrite Hreg. apply G'.
    + intros b' i'. change (pages (relabel q (i - 1) s2)) with
        (alter (set_list_index (i - 1)) q (pages s2)). rewrite Hpages2, lookup_alter_is_Some.
      change (regions (relabel q (i - 1) s2)) with (regions s1). rewrite Hreg.
      rewrite <- (i_dom _ _ _ I b' i'). simpl. rewrite lookup_alter_is_Some.
      destruct (decide (q2 = (b', i'))) as [<-|]; [rewrite lookup_insert_eq; split; eauto|].
      by rewrite lookup_insert_ne.
    + intros q' p' Hl. change (pages (relabel q (i - 1) s2)) with
        (alter (set_list_index (i - 1)) q (pages s2)) in Hl. rewrite Hpages2 in Hl.
      pose proof (i_pages _ _ _ I q') as Ha. simpl in Ha.
      destruct (decide (q' = q)) as [->|Hq].
      * rewrite lookup_alter_eq, lookup_insert_ne, Hp in Hl by congruence. simplify_eq/=.
        rewrite lookup_alter_eq, Hp in Ha. destruct (Ha _ eq_refl) as (? & ? & Hx).
        rewrite HB in Hx. destruct Hx as (? & ? & ?). unfold B1.
        rewrite lookup_insert_ne, lookup_insert_eq by congruence.
        unfold page_agrees; simpl. rewrite wrap_small by (split; lia). done.
      * rewrite lookup_alter_ne in Hl by congruence. rewrite lookup_alter_ne in Ha by congruence.
        unfold B1. destruct (decide (q' = q2)) as [->|Hqq2].
        -- rewrite lookup_insert_eq in Hl. simplify_eq. rewrite lookup_insert_eq.
           destruct (Ha _ Hp2) as (? & ? & Hx). rewrite Hnone in Hx. destruct Hx as [? ?].
           unfold page_agrees; simpl. rewrite wrap_small by (split; lia). done.
        -- rewrite lookup_insert_ne in Hl by congruence. rewrite !lookup_insert_ne by congruence.
           by apply Ha.
    + done.
  - rewrite Hpages2, lookup_insert_ne by congruence. done.
  - unfold B1. by rewrite lookup_insert_ne, lookup_insert_eq by congruence.
  - lia.
  - lia.
  - exists s', B'. split_and!; try done; [by eapply same_meta_trans|].
    intros q' k' Hne. rewrite Hu' by done. unfold B1.
    destruct (decide (q' = q2)) as [->|]; [rewrite lookup_insert_eq; split; congruence|].
    by rewrite !lookup_insert_ne by congruence.
Qed.

(** A popped block after its record is marked allocated. *)
Lemma take_agree s s1 B q k p g : inv s B None -> B !! q = Some (k, false) ->
  pages s1 = pages s -> same_meta s s1 -> lists_agree (freelists s1) (<[q := (k, true)]> B) None ->
  pages s !! q = Some p ->
  region (g p) = region p -> page_num (g p) = page_num p -> used (g p) = true ->
  in_list (g p) = false -> 0 <= k < FREELIST_COUNT ->
  inv (relabel q k (with_pages (<[q := g p]> (pages s1)) s1)) (<[q := (k, true)]> B) None.
Proof.
  intros I HB Hps (Hreg & _) Hla Hp Hg1 Hg2 Hg3 Hg4 Hk. split; simpl.
  - rewrite Hreg. by eapply geom_flag; [apply I|].
  - rewrite Hreg, Hps. intros b i. rewrite lookup_alter_is_Some.
    apply pages_dom_insert; [apply I|eauto].
  - intros q' p' Hl. rewrite Hps in Hl. pose proof (i_pages _ _ _ I q') as Ha.
    destruct (decide (q' = q)) as [->|Hne].
    + rewrite lookup_alter_eq, lookup_insert_eq in Hl. simplify_eq/=. rewrite lookup_insert_eq.
      destruct (Ha _ Hp) as (? & ? & _). unfold page_agrees; simpl.
      rewrite wrap_small by (unfold FREELIST_COUNT in *; split; lia).
      split_and!; congruence || done.
    + rewrite lookup_alter_ne, lookup_insert_ne in Hl by congruence.
      rewrite lookup_insert_ne by congruence. by apply Ha.
  - done.
Qed.

(** What [freelist_get] promises for the order [index]. *)
Definition get_result (index : Z) (s : state) (B : gmap (Z * Z) (Z * bool))
    (o : option (Z * Z)) (s' : state) : Prop :=
  match o with
  | None => s' = s /\ forall q k, B !! q = Some (k, false) -> k < index
  | Some q => exists B', inv s' B' None /\ B' !! q = Some (index, true) /\
      (exists k, B !! q = Some (k, false) /\ index <= k) /\
      forall q' k', q' <> q -> (B' !! q' = Some (k', true) <-> B !! q' = Some (k', true))
  end.

Lemma get_loop_inv fuel new_i index s B : inv s B None -> 0 <= index < new_i ->
  new_i <= FREELIST_COUNT -> FREELIST_COUNT <= new_i + Z.of_nat fuel ->
  (forall q k, B !! q = Some (k, false) -> k < index \/ new_i <= k) ->
  exists o s', get_loop fuel new_i index s = Some (o, s') /\ same_meta s s' /\
    get_result index s B o s'.
Proof.
  revert new_i. unfold FREELIST_COUNT. induction fuel as [|fuel IH]; intros new_i I Hi Hn Hf Hno;
    cbn [get_loop]; unfold FREELIST_COUNT in *.
  { destruct (Z.ltb_spec new_i 14); [lia|]. exists None, s. split; [done|]. split; [apply same_meta_refl|]. split; [done|].
    intros q k Hq. destruct (block_page _ _ _ q.1 q.2 k false I) as (?&?&?&?&?&?&Hk&_);
      [by destruct q|]. unfold FREELIST_COUNT in Hk. destruct (Hno _ _ Hq); lia. }
  destruct (Z.ltb_spec new_i 14).
  2: { exists None, s. split; [done|]. split; [apply same_meta_refl|]. split; [done|].
    intros q k Hq. destruct (block_page _ _ _ q.1 q.2 k false I) as (?&?&?&?&?&?&Hk&_);
      [by destruct q|]. unfold FREELIST_COUNT in Hk. destruct (Hno _ _ Hq); lia. }
  destruct (fl_pop_agree s B new_i I) as [[-> Hnone]|([b n] & s1 & -> & HB & Hps & Hm & Hla)];
    [unfold FREELIST_COUNT; lia|..]; cbn [mbind option_bind].
  - destruct (IH (new_i + 1)) as (o & s' & Hrun & ?); [done|lia..| |by eauto].
    intros q k Hq. destruct (Hno _ _ Hq); [by left|]. right.
    assert (k <> new_i) by (intros ->; by eapply Hnone). lia.
  - destruct (block_page _ _ _ _ _ _ _ I HB) as (r & p & Hr & Hro & Hp & Hag & Hk & Hres & Hic & Hd).
    pose proof (pow2_pos new_i ltac:(lia)) as Hpos.
    set (g := fun p => set_list_index index (set_used true (set_in_list false p))).
    rewrite (update_page_Some _ _ s1 p) by by rewrite Hps. cbn [mbind option_bind].
    fold (g p). set (s2 := with_pages _ s1).
    destruct Hag as (Hregp & Hnum & _). simpl in Hregp, Hnum. destruct Hm as (Hregs & Hm).
    assert (Hp2 : pages s2 !! (b, n) = Some (g p)) by apply lookup_insert_eq.
    assert (Hr2 : regions s2 !! b = Some r) by by rewrite <- Hregs in Hr.
    rewrite Hp2. cbn [mbind option_bind]. change (region (g p)) with (region p).
    rewrite Hregp, Hr2. cbn [mbind option_bind].
    rewrite (phys_spec b r n (g p)) by (done || (destruct Hro; lia)).
    pose proof Hro as [Hb [m Hm0] Hn0 Hrr Hl]. rewrite Hb.
    unfold sub64. replace (b + n * PAGE_SIZE - b) with (n * PAGE_SIZE) by lia.
    assert (Hnu : 0 <= n * PAGE_SIZE < 2 ^ 64).
    { unfold PAGE_SIZE in *. rewrite Hm0, Z.div_mul in Hl by lia. lia. }
    rewrite u64_small by done. rewrite Z.div_mul by (unfold PAGE_SIZE; lia).
    destruct (split_loop_inv 14 new_i index b n s2 (<[(b, n) := (new_i, true)]> B) (g p))
      as (s' & B' & Hrun & I' & Hp' & HB' & Hm' & Hu').
    + by eapply take_agree with (s := s); try done; split_and!.
    + simpl. by rewrite lookup_insert_eq.
    + apply lookup_insert_eq.
    + lia.
    + lia.
    + rewrite Hrun. cbn [mbind option_bind]. exists (Some (b, n)), s'. split; [done|].
      split; [eapply same_meta_trans; [|exact Hm']; by split|].
      rewrite (relabel_id _ _ _ (g p)) in I'; [|done| |split; lia].
      2: { simpl. apply wrap_small. split; lia. }
      exists B'. split; [done|]. split; [done|]. split; [exists new_i; split; [done|lia]|].
      intros q' k' Hne. rewrite Hu' by done. by rewrite lookup_insert_ne.
Qed.

Lemma freelist_get_inv index s B : inv s B None -> 0 <= index < FREELIST_COUNT ->
  exists o s', freelist_get index s = Some (o, s') /\ same_meta s s' /\
    get_result index s B o s'.
Proof.
  intros I Hi. unfold freelist_get.
  destruct (fl_pop_agree s B index I Hi) as [[-> Hnone]|([b n] & s1 & -> & HB & Hps & Hm & Hla)];
    cbn [mbind option_bind].
  - assert (Hlt : forall q k, B !! q = Some (k, false) -> k < index \/ index + 1 <= k).
    { intros q k Hq. assert (k <> index) by (intros ->; by eapply Hnone). lia. }
    destruct (Z.eqb_spec index (FREELIST_COUNT - 1)) as [->|].
    + exists None, s. split; [done|]. split; [apply same_meta_refl|]. split; [done|]. intros q k Hq.
      destruct (block_page _ _ _ q.1 q.2 k false I) as (?&?&?&?&?&?&Hk&_); [by destruct q|].
      unfold FREELIST_COUNT in *. destruct (Hlt _ _ Hq); lia.
    + unfold FREELIST_COUNT in *.
      apply get_loop_inv; unfold FREELIST_COUNT; try done; lia.
  - destruct (block_page _ _ _ _ _ _ _ I HB) as (r & p & Hr & Hro & Hp & Hag & Hk & _).
    rewrite (update_page_Some _ _ s1 p) by by rewrite Hps. cbn [mbind option_bind].
    eexists _, _. split; [done|]. split; [destruct Hm as (?&?&?&?&?&?); by split_and!|].
    pose proof (take_agree s s1 B (b, n) index p (fun p => set_in_list false (set_used true p))
      I HB Hps Hm Hla Hp eq_refl eq_refl eq_refl eq_refl Hk) as I'.
    destruct Hag as (_ & _ & _ & Hix & _).
    erewrite relabel_id in I'; [|simpl; apply lookup_insert_eq|done|].
    2: { unfold FREELIST_COUNT in *. split; lia. }
    exists (<[(b, n) := (index, true)]> B). split; [done|]. split; [apply lookup_insert_eq|]. split; [exists index; split; [done|lia]|].
    intros q' k' Hne. by rewrite lookup_insert_ne.
Qed.

(** ** Blocks as address ranges *)

(** A free block of the given order starts at the address. *)
Definition free_block (s : state) (addr order : Z) : Prop :=
  exists q p, pages s !! q = Some p /\ in_list p = true /\ phys p = addr /\ list_index p = order.

(** [size_to_index] rounds up to a power of two. *)
Lemma size_to_index_spec count : 1 <= count <= 8192 ->
  0 <= size_to_index count < FREELIST_COUNT /\ count <= 2 ^ size_to_index count /\
  (0 < size_to_index count -> 2 ^ (size_to_index count - 1) < count).
Proof.
  intros Hc. unfold size_to_index, sub64, FREELIST_COUNT.
  rewrite u64_small by lia. destruct (Z.eq_dec count 1) as [->|].
  { by vm_compute. }
  rewrite countl_zero_64 by lia. pose proof (Z.log2_spec (count - 1) ltac:(lia)) as Hs.
  assert (Z.log2 (count - 1) < 13) by (apply Z.log2_lt_pow2; [lia|change (2 ^ 13) with 8192; lia]).
  pose proof (Z.log2_nonneg (count - 1)).
  replace (64 - (63 - Z.log2 (count - 1))) with (Z.succ (Z.log2 (count - 1))) by lia.
  replace (Z.succ (Z.log2 (count - 1)) - 1) with (Z.log2 (count - 1)) by lia. lia.
Qed.

Lemma block_phys s B f b i k u p : inv s B f -> B !! (b, i) = Some (k, u) ->
  pages s !! (b, i) = Some p -> phys p = b + i * PAGE_SIZE.
Proof.
  intros I HB Hp. destruct (block_page _ _ _ _ _ _ _ I HB) as (r & p' & Hr & Hro & Hp' & Hag & Hk & Hi & Hic & _).
  simplify_eq. destruct Hag as (_ & Hn & _). pose proof (pow2_pos k ltac:(lia)).
  apply (phys_spec b r i p); [done| |done]. destruct Hro. lia.
Qed.

Lemma allocated_iff s B addr k : inv s B None ->
  allocated s addr k <-> exists b i, B !! (b, i) = Some (k, true) /\ addr = b + i * PAGE_SIZE.
Proof.
  intros I. split.
  - intros ([b i] & p & Hp & Hu & <- & Hk). pose proof (i_pages _ _ _ I _ _ Hp) as (_ & _ & Hag).
    destruct (B !! (b, i)) as [[k' u']|] eqn:HB; [|destruct Hag; congruence].
    destruct Hag as (? & ? & _). exists b, i. split; [congruence|]. by eapply block_phys.
  - intros (b & i & HB & ->).
    destruct (block_page _ _ _ _ _ _ _ I HB) as (r & p & Hr & Hro & Hp & (_ & _ & ? & ? & _) & _).
    exists (b, i), p. split_and!; try done. by eapply block_phys.
Qed.

Lemma free_block_iff s B addr k : inv s B None ->
  free_block s addr k <-> exists b i, B !! (b, i) = Some (k, false) /\ addr = b + i * PAGE_SIZE.
Proof.
  intros I. split.
  - intros ([b i] & p & Hp & Hu & <- & Hk). pose proof (i_pages _ _ _ I _ _ Hp) as (_ & _ & Hag).
    destruct (B !! (b, i)) as [[k' u']|] eqn:HB; [|destruct Hag; congruence].
    destruct Hag as (? & ? & Hin). rewrite Hu in Hin. destruct u'; [done|].
    exists b, i. split; [congruence|]. by eapply block_phys.
  - intros (b & i & HB & ->).
    destruct (block_page _ _ _ _ _ _ _ I HB) as (r & p & Hr & Hro & Hp & (_ & _ & ? & ? & ?) & _).
    exists (b, i), p. split_and!; try done. by eapply block_phys.
Qed.

(** [n] pages at [a] and [n'] pages at [a'] do not overlap. *)
Definition ranges_disjoint (a n a' n' : Z) : Prop :=
  a + n * PAGE_SIZE <= a' \/ a' + n' * PAGE_SIZE <= a.

Lemma blocks_disjoint s B b i k u b' i' k' u' : regions_listed s -> inv s B None ->
  B !! (b, i) = Some (k, u) -> B !! (b', i') = Some (k', u') -> (b, i) <> (b', i') ->
  ranges_disjoint (b + i * PAGE_SIZE) (2 ^ k) (b' + i' * PAGE_SIZE) (2 ^ k').
Proof.
  intros [_ Hdis] I H1 H2 Hne. unfold ranges_disjoint, PAGE_SIZE in *.
  destruct (decide (b = b')) as [<-|Hb].
  - destruct (g_disj _ _ (i_geom _ _ _ I) b i k u i' k' u'); [done|done|congruence|lia|lia].
  - destruct (g_block _ _ (i_geom _ _ _ I) _ _ _ _ H1) as (r & Hr & ? & ? & ? & _).
    destruct (g_block _ _ (i_geom _ _ _ I) _ _ _ _ H2) as (r' & Hr' & ? & ? & ? & _).
    destruct (g_regions _ _ (i_geom _ _ _ I) _ _ Hr).
    destruct (g_regions _ _ (i_geom _ _ _ I) _ _ Hr').
    destruct (Hdis b r b' r'); [done..| |]; lia.
Qed.

Lemma same_meta_listed s s' : same_meta s s' -> regions_listed s -> regions_listed s'.
Proof. intros (Hr & Hp & _). unfold regions_listed. by rewrite Hr, Hp. Qed.

Lemma inv_account s B f d x : inv s B f -> inv (account d x s) B f.
Proof. intros []. by split. Qed.

(** ** The results *)

(** In every state of the allocator that satisfies its invariant the live
    blocks are pairwise disjoint, and disjoint from every free block. *)
Lemma live_blocks_disjoint s a k a' k' : wf s -> allocated s a k ->
  (allocated s a' k' /\ a <> a') \/ free_block s a' k' ->
  ranges_disjoint a (2 ^ k) a' (2 ^ k').
Proof.
  intros [Hl [B I]] Ha Hor. apply (allocated_iff s B) in Ha as (b & i & HB & ->); [|done].
  destruct Hor as [[Ha' Hne]|Hf].
  - apply (allocated_iff s B) in Ha' as (b' & i' & HB' & ->); [|done].
    eapply blocks_disjoint; eauto. congruence.
  - apply (free_block_iff s B) in Hf as (b' & i' & HB' & ->); [|done].
    eapply blocks_disjoint; eauto. congruence.
Qed.

(** [pmalloc] of 1 to 8192 pages on a well-formed allocator always returns.
    It either returns 0 and changes nothing, because no free block is large
    enough, or returns the non-zero address of a block of the rounded-up order
    that was free, keeps the invariant and every earlier allocation, and
    accounts for the memory. *)
Lemma pmalloc_spec s count : wf s -> 1 <= count <= 8192 ->
  exists addr s', pmalloc count s = Some (addr, s') /\ wf s' /\
    ((addr = 0 /\ s' = s /\ forall a k, free_block s a k -> k < size_to_index count) \/
     (0 < addr /\ allocated s' addr (size_to_index count) /\
      (exists k, free_block s addr k /\ size_to_index count <= k) /\
      (forall a k, allocated s' a k <->
         allocated s a k \/ a = addr /\ k = size_to_index count) /\
      used_memory s' = u64 (used_memory s + count * PAGE_SIZE))).
Proof.
  intros [Hl [B I]] Hc. destruct (size_to_index_spec count Hc) as (Hi & Hle & _).
  unfold pmalloc. destruct (Z.eqb_spec count 0); [lia|].
  destruct (freelist_get_inv (size_to_index count) s B I Hi) as (o & s1 & -> & Hm & Hres).
  cbn [mbind option_bind]. destruct o as [[b i]|].
  - destruct Hres as (B' & I' & HB' & (k & HB & Hk) & Hu).
    destruct (block_page _ _ _ _ _ _ _ I' HB') as (r & p & Hr & Hro & Hp & Hag & Hkk & Hri & _).
    rewrite Hp. cbn [mbind option_bind]. eexists _, _. split; [done|].
    pose proof (block_phys _ _ _ _ _ _ _ _ I' HB' Hp) as Hphys.
    apply (inv_account _ _ _ (count * PAGE_SIZE) (phys p, 203, count ⊠ PAGE_SIZE)) in I' as Ia.
    assert (Hl' : regions_listed (account (count * PAGE_SIZE) (phys p, 203, count ⊠ PAGE_SIZE) s1))
      by by apply (same_meta_listed s s1).
    split; [split; eauto|]. right. split_and!.
    + rewrite Hphys. unfold PAGE_SIZE. destruct Hro. lia.
    + apply (allocated_iff _ B'); [done|]. eauto.
    + exists k. split; [|done]. apply (free_block_iff _ B); [done|]. eauto.
    + intros a k'. rewrite (allocated_iff _ B') by done. rewrite (allocated_iff _ B) by done. split.
      * intros (b' & i' & HB2 & ->). destruct (decide ((b', i') = (b, i))) as [|Hne].
        -- simplify_eq. by right.
        -- left. exists b', i'. split; [by apply Hu|done].
      * intros [(b' & i' & HB2 & ->)|[-> ->]]; [|eauto].
        exists b', i'. split; [|done]. apply Hu; [|done]. congruence.
    + destruct Hm as (_ & _ & _ & _ & Hum & _). simpl. by rewrite Hum.
  - destruct Hres as [-> Hno]. exists 0, s. split; [done|]. split; [split; eauto|]. left.
    split_and!; [done..|]. intros a k Hf. apply (free_block_iff _ B) in Hf as (b & i & HB & _); [|done].
    eauto.
Qed.

Lemma from_phys_spec s b r i : regions_listed s ->
  (forall b r, regions s !! b = Some r -> region_ok b r) ->
  regions s !! b = Some r -> 0 <= i < page_count r ->
  from_phys (b + i * PAGE_SIZE) s = Some (Some (b, i)).
Proof.
  intros [Hin Hdis] Hro Hr Hi. unfold from_phys.
  assert (Hb : b ∈ p_regions s) by (apply Hin; eauto).
  assert (Hall : forall b', b' ∈ p_regions s -> is_Some (regions s !! b')) by (intros; by apply Hin).
  clear Hin. induction (p_regions s) as [|b0 rs IH]; [by apply elem_of_nil in Hb|].
  cbn [from_phys_loop]. destruct (Hall b0) as [r0 Hr0]; [left|]. rewrite Hr0. cbn [mbind option_bind].
  pose proof (Hro _ _ Hr0) as [Hb0 [m0 Hm0] ? ? Hl0]. pose proof (Hro _ _ Hr) as [? [m Hm] ? ? Hlm].
  assert (Hend : base r0 ⊞ (page_count r0 ⊠ PAGE_SIZE) = b0 + page_count r0 * PAGE_SIZE).
  { unfold add64, mul64, PAGE_SIZE in *. rewrite Hm0, Z.div_mul in Hl0 by lia.
    rewrite (u64_small (page_count r0 * 4096)) by lia. rewrite u64_small; lia. }
  rewrite Hend, Hb0. destruct (decide (b0 = b)) as [Heq|Hne].
  - rewrite Heq in Hr0 |- *. rewrite Hr in Hr0. injection Hr0 as <-. replace ((b <=? _) && _) with true.
    + do 3 f_equal. unfold sub64, PAGE_SIZE in *. rewrite Hm, Z.div_mul in Hlm by lia.
      replace (b + i * 4096 - b) with (i * 4096) by lia.
      rewrite u64_small by lia. apply Z.div_mul. lia.
    + symmetry. apply andb_true_iff. rewrite Z.leb_le, Z.ltb_lt. unfold PAGE_SIZE. lia.
  - replace ((b0 <=? _) && _) with false.
    + apply IH; [|intros; apply Hall; by right]. apply elem_of_cons in Hb as [?|?]; congruence.
    + symmetry. apply andb_false_iff. rewrite Z.leb_gt, Z.ltb_ge.
      destruct (Hdis b0 r0 b r); [done..| |]; unfold PAGE_SIZE in *; lia.
Qed.

(** The pages of a block are in the free part of its region. *)
Definition block_in (r : PRegion) (b a k : Z) : Prop :=
  b + res_count r * PAGE_SIZE <= a /\ a + 2 ^ k * PAGE_SIZE <= b + page_count r * PAGE_SIZE.

(** Blocks of order [k] at [a] and [a'] are the two halves of an aligned block
    of the next order in the free part of a region. *)
Definition buddies (s : state) (a a' k : Z) : Prop :=
  exists b r, regions s !! b = Some r /\ block_in r b a (k + 1) /\ a' = a + 2 ^ k * PAGE_SIZE /\
    (2 ^ (k + 1) * PAGE_SIZE | a - (b + res_count r * PAGE_SIZE)).

(** A block is in one region only. *)
Lemma region_unique s b r b' r' a : regions_listed s -> regions s !! b = Some r ->
  regions s !! b' = Some r' -> b <= a < b + page_count r * PAGE_SIZE ->
  b' <= a < b' + page_count r' * PAGE_SIZE -> b' = b.
Proof.
  intros [_ Hd] Hr Hr' Ha Ha'. destruct (decide (b' = b)) as [|Hne]; [done|].
  destruct (Hd b' r' b r); [done..| |]; lia.
Qed.

Lemma no_buddy_free s B b i k a : regions_listed s -> inv s B None -> B !! (b, i) = Some (k, false) ->
  no_buddy (regions s) B b i k -> k < FREELIST_COUNT - 1 -> free_block s a k ->
  ~ buddies s (b + i * PAGE_SIZE) a k /\ ~ buddies s a (b + i * PAGE_SIZE) k.
Proof.
  intros Hl I HB Hn Hk Hf. apply (free_block_iff _ B) in Hf as (b' & j & HB' & ->); [|done].
  destruct (g_block _ _ (i_geom _ _ _ I) _ _ _ _ HB) as (r & Hr & Hk0 & Hi & Hic & Hdv).
  destruct (g_block _ _ (i_geom _ _ _ I) _ _ _ _ HB') as (r' & Hr' & _ & Hj & Hjc & _).
  pose proof (pow2_pos k ltac:(lia)) as Hp. pose proof (pow2_succ k ltac:(lia)) as Hs.
  pose proof (g_regions _ _ (i_geom _ _ _ I) _ _ Hr) as [_ _ _ Hres _].
  pose proof (g_regions _ _ (i_geom _ _ _ I) _ _ Hr') as [_ _ _ Hres' _].
  assert (Hone : forall b0 r0 x, regions s !! b0 = Some r0 -> block_in r0 b0 x (k + 1) ->
    x <= b + i * PAGE_SIZE < x + 2 ^ (k + 1) * PAGE_SIZE ->
    x <= b' + j * PAGE_SIZE < x + 2 ^ (k + 1) * PAGE_SIZE -> b0 = b /\ r0 = r /\ b' = b).
  { intros b0 r0 x Hr0 [H1 H2] Hx Hx'. pose proof (g_regions _ _ (i_geom _ _ _ I) _ _ Hr0) as [_ _ _ ? _].
    unfold PAGE_SIZE in *.
    assert (b0 = b) as -> by (eapply (region_unique s b r b0 r0 (b + i * 4096)); unfold PAGE_SIZE; (done || lia)).
    simplify_eq. split_and!; [done..|].
    eapply (region_unique s b r b' r' (b' + j * 4096)); unfold PAGE_SIZE; (done || lia). }
  specialize (Hn Hk r Hr). unfold buddy_index in Hn.
  assert (Hdiv : forall x, (2 ^ (k + 1) * PAGE_SIZE | b + x * PAGE_SIZE - (b + res_count r * PAGE_SIZE)) ->
    (2 ^ (k + 1) | x - res_count r)).
  { intros x [m Hm]. exists m. unfold PAGE_SIZE in Hm. lia. }
  split; intros (b0 & r0 & Hr0 & Hin & Ha & Hd).
  - destruct (Hone b0 r0 _ Hr0 Hin) as (-> & -> & ->); [unfold PAGE_SIZE in *; lia..|]. assert (r' = r) as -> by congruence.
    apply Hdiv in Hd. rewrite decide_True in Hn by done. assert (j = i + 2 ^ k) as -> by (unfold PAGE_SIZE in Ha; lia).
    apply Hn; [lia|done].
  - destruct (Hone b0 r0 _ Hr0 Hin) as (-> & -> & ->); [unfold PAGE_SIZE in *; lia..|]. assert (r' = r) as -> by congruence.
    apply Hdiv in Hd. assert (i = j + 2 ^ k) as -> by (unfold PAGE_SIZE in Ha; lia).
    rewrite decide_False in Hn.
    + replace (j + 2 ^ k - 2 ^ k) with j in Hn by lia. apply Hn; [lia|done].
    + intros Hd'. assert (Hx : (2 ^ (k + 1) | 2 ^ k)).
      { replace (2 ^ k) with ((j + 2 ^ k - res_count r) - (j - res_count r)) by lia. by apply Z.divide_sub_r. }
      apply Z.divide_pos_le in Hx; lia.
Qed.

(** The free blocks after a merge, as address ranges. *)
Lemma merged_free s s' B B' b i k i' k' : regions_listed s' -> inv s (<[(b, i) := (k, true)]> B) None ->
  inv s' B' None -> B !! (b, i) = Some (k, false) ->
  B' !! (b, i') = Some (k', false) -> merged B B' b i k i' k' ->
  forall a kk, free_block s' a kk <-> a = b + i' * PAGE_SIZE /\ kk = k' \/
    free_block s a kk /\ ranges_disjoint a (2 ^ kk) (b + i' * PAGE_SIZE) (2 ^ k').
Proof.
  intros Hl I I' HB HB' (Hle & Hend & Hm) a kk. rewrite (free_block_iff _ B') by done.
  rewrite (free_block_iff s) by done. split.
  - intros (b2 & j & Hq & ->). destruct (proj1 (Hm _ _) Hq) as [[[= -> ->] ->]|[HBq Hout]]; [by left|].
    right. simpl in Hout. pose proof (g_block _ _ (i_geom _ _ _ I') _ _ _ _ HB') as (_ & _ & Hk' & _).
    pose proof (pow2_pos k' ltac:(lia)). split.
    + exists b2, j. split; [|done]. rewrite lookup_insert_ne; [done|]. intros [= <- <-].
      pose proof (g_block _ _ (i_geom _ _ _ I) b i k true (lookup_insert_eq _ _ _)) as (_ & _ & Hk & _).
      pose proof (pow2_pos k ltac:(lia)). apply Hout. lia.
    + eapply blocks_disjoint; [done|done|exact Hq|exact HB'|]. intros [= -> ->]. apply Hout. lia.
  - intros [[-> ->]|[(b2 & j & Hq & ->) Hd]]; [eauto|]. exists b2, j. split; [|done]. apply Hm. right.
    apply lookup_insert_Some in Hq as [[_ [=]]|[_ Hq]]. split; [done|]. intros [Hb Hj]. simpl in Hb, Hj. subst b2.
    assert (Hkk : 0 <= kk).
    { destruct (decide ((b, i) = (b, j))) as [Heq|Hne].
      - injection Heq as <-. rewrite HB in Hq. injection Hq as <-.
        pose proof (g_block _ _ (i_geom _ _ _ I) b i k true (lookup_insert_eq _ _ _)) as (_ & _ & Hk & _). lia.
      - assert (Hq' : <[(b, i):=(k, true)]> B !! (b, j) = Some (kk, false)) by (rewrite lookup_insert_ne; done).
        pose proof (g_block _ _ (i_geom _ _ _ I) _ _ _ _ Hq') as (_ & _ & ? & _). lia. }
    pose proof (pow2_pos kk Hkk). unfold ranges_disjoint, PAGE_SIZE in Hd. lia.
Qed.

(** [pfree] of a live block with a page count of its order passes every
    assertion, keeps the invariant, removes exactly that allocation and accounts
    for the memory.  The block becomes free together with the free blocks that it
    merges with, as one block; every other free block stays, and the new block
    has no free buddy that it could be merged with further. *)
Lemma pfree_spec s addr count : wf s -> 1 <= count <= 8192 ->
  allocated s addr (size_to_index count) ->
  exists s' addr' order, pfree addr count s = Some s' /\ wf s' /\
    (forall a k, allocated s' a k <-> allocated s a k /\ a <> addr) /\
    used_memory s' = u64 (used_memory s - count * PAGE_SIZE) /\
    addr' <= addr /\
    addr + 2 ^ size_to_index count * PAGE_SIZE <= addr' + 2 ^ order * PAGE_SIZE /\
    (forall a k, free_block s' a k <->
       a = addr' /\ k = order \/ free_block s a k /\ ranges_disjoint a (2 ^ k) addr' (2 ^ order)) /\
    (order < FREELIST_COUNT - 1 -> forall a, free_block s' a order ->
       ~ buddies s addr' a order /\ ~ buddies s a addr' order).
Proof.
  intros [Hl [B I]] Hc Ha. pose proof Ha as Ha0.
  apply (allocated_iff s B) in Ha as (b & i & HB & Haddr); [|done].
  destruct (block_page _ _ _ _ _ _ _ I HB) as (r & p & Hr & Hro & Hp & Hag & Hk & Hi & Hic & _).
  pose proof (block_phys _ _ _ _ _ _ _ _ I HB Hp) as Hphys. destruct Hag as (_ & _ & Hu & Hix & _).
  pose proof (pow2_pos (size_to_index count) ltac:(lia)).
  assert (Hfp : from_phys addr s = Some (Some (b, i))).
  { rewrite Haddr. apply (from_phys_spec s b r i); [done|apply I|done|destruct Hro; lia]. }
  unfold pfree. rewrite Hfp.
  cbn [mbind option_bind]. rewrite Hp. cbn [mbind option_bind].
  rewrite Hphys, <- Haddr, Z.eqb_refl, Hu, Hix, Z.eqb_refl. cbn [assert mbind option_bind].
  apply (inv_account _ _ _ (- (count * PAGE_SIZE)) (addr, 253, count ⊠ PAGE_SIZE)) in I as Ia.
  destruct (freelist_insert_inv _ B (b, i) (size_to_index count) Ia HB) as
    (s' & B' & i' & k' & -> & I' & Hm & Hu' & HB' & Hmg & Hnb). cbn [fst snd] in *.
  assert (Hl' : regions_listed s') by (by eapply same_meta_listed; [exact Hm|]).
  pose proof Hmg as (Hle & Hend & _).
  exists s', (b + i' * PAGE_SIZE), k'. split; [done|]. split_and!.
  - split; eauto.
  - intros a k. rewrite (allocated_iff _ B') by done. rewrite (allocated_iff _ B) by done. split.
    + intros (b' & j & HB2 & ->). apply Hu' in HB2 as [HB2 Hne]. split; [eauto|].
      rewrite Haddr. destruct (blocks_disjoint s B b' j k true b i _ true Hl I HB2 HB Hne);
      destruct (g_block _ _ (i_geom _ _ _ I) _ _ _ _ HB2) as (? & _ & ? & _);
      pose proof (pow2_pos k ltac:(lia)); unfold PAGE_SIZE in *; lia.
    + intros [(b' & j & HB2 & ->) Hne]. exists b', j. split; [|done]. apply Hu'.
      split; [done|]. congruence.
  - destruct Hm as (_ & _ & _ & _ & Hum & _). rewrite Hum. simpl. f_equal; lia.
  - unfold PAGE_SIZE in *. lia.
  - unfold PAGE_SIZE in *. lia.
  - apply (merged_free s s' (<[(b, i) := (size_to_index count, false)]> B) B' b i (size_to_index count));
      [done| |done|apply lookup_insert_eq|done|done].
    rewrite insert_insert_eq, insert_id by done. done.
  - intros Hlt a Hf. assert (Hr' : regions s' = regions s) by apply Hm.
    unfold buddies. rewrite <- Hr'. by apply (no_buddy_free s' B').
Qed.

End PmallocInv.

(** * The physical page allocator from boot to any later moment

    [pmalloc_add_mem] establishes the invariant of PmallocInv.v for the region
    it adds, and the sequences of [pmalloc_add_mem], [pmalloc] and [pfree] that
    kernel code can issue keep it: the results of the whole component. *)

Module PmallocRun.
Import Pmalloc PmallocInv.

(** ** Adding a region *)

Lemma add_pages_lookup n reg i index ps q : add_pages n reg i index ps !! q =
  if decide (fst q = reg /\ i <= snd q < i + Z.of_nat n)
  then Some (mkPage reg 0 (wrap 36 (Z.shiftr reg 12 ⊞ snd q)) false false (wrap 4 index))
  else ps !! q.
Proof.
  revert i ps. induction n as [|n IH]; intros i ps; cbn [add_pages].
  { destruct (decide _) as [[? ?]|]; [lia|done]. }
  rewrite IH. destruct q as [a x]. simpl in *. destruct (decide (a = reg /\ x = i)) as [[-> ->]|Hne].
  - rewrite decide_False by lia. rewrite lookup_insert_eq, decide_True by lia. done.
  - rewrite (lookup_insert_ne ps (reg, i) (a, x)) by (intros ?; simplify_eq; auto).
    destruct (decide (a = reg /\ i + 1 <= _ < _)), (decide (a = reg /\ i <= _ < _)); (done || lia).
Qed.

Lemma block_order_spec fuel j p free : 1 <= j <= Z.of_nat fuel -> j <= 14 -> 1 <= free ->
  (PAGE_SIZE | phys p) -> exists k, block_order fuel j p free = Some k /\ 0 <= k < j /\
  2 ^ k <= free /\ (2 ^ k * PAGE_SIZE | phys p).
Proof.
  revert j. induction fuel as [|fuel IH]; intros j Hj Hj14 Hf Hp; [lia|]. cbn [block_order].
  replace (0 <? j) with true by lia. rewrite index_to_size_pow by lia.
  pose proof (pow2_le_13 (j - 1) ltac:(lia)).
  assert (Hsz : 2 ^ (j - 1) ⊠ PAGE_SIZE = 2 ^ (j - 1) * PAGE_SIZE).
  { unfold mul64. apply u64_small. unfold PAGE_SIZE. lia. }
  rewrite Hsz. destruct (Z.eqb_spec (phys p mod (2 ^ (j - 1) * PAGE_SIZE)) 0) as [Hm|Hm];
    [destruct (Z.geb_spec free (2 ^ (j - 1)))|].
  - exists (j - 1). split; [done|]. split_and!; [lia..|]. apply Z.mod_divide; [|done].
    unfold PAGE_SIZE. lia.
  - cbn [andb]. assert (j <> 1) by (intros ->; simpl in *; lia).
    destruct (IH (j - 1)) as (k & -> & ? & ? & ?); [lia..|done|]. exists k. split_and!; (done || lia).
  - cbn [andb]. assert (j <> 1).
    { intros ->. apply Hm. simpl. rewrite Z.mul_1_l. apply Z.mod_divide; [|done].
      unfold PAGE_SIZE. lia. }
    destruct (IH (j - 1)) as (k & -> & ? & ? & ?); [lia..|done|]. exists k. split_and!; (done || lia).
Qed.

(** A region whose free part is tiled only up to page [i] is a region of [i]
    pages for the geometry. *)
Definition partial (b i res : Z) (rs : gmap Z PRegion) : gmap Z PRegion :=
  <[b := mkPRegion b i res]> rs.

Lemma geom_start rs B b r : geom rs B -> rs !! b = None -> region_ok b r ->
  geom (partial b (res_count r) (res_count r) rs) B.
Proof.
  intros G Hn [? ? ? ? ?]. split.
  - intros b' r' Hl. unfold partial in Hl; apply lookup_insert_Some in Hl as [[<- <-]|[_ Hl]]; [|by apply G].
    split; simpl; (done || lia).
  - intros b' i k u HB. destruct (g_block _ _ G _ _ _ _ HB) as (r' & Hr' & ?). exists r'.
    split; [|done]. unfold partial. rewrite lookup_insert_ne; congruence.
  - apply G.
  - intros b' r' x Hl Hx. unfold partial in Hl; apply lookup_insert_Some in Hl as [[<- <-]|[_ Hl]]; [simpl in *; lia|].
    by eapply G.
Qed.

Lemma geom_place rs B b i res k : geom (partial b i res rs) B -> 0 <= k < FREELIST_COUNT ->
  (2 ^ k | i - res) -> b / PAGE_SIZE + (i + 2 ^ k) <= 2 ^ 36 ->
  geom (partial b (i + 2 ^ k) res rs) (<[(b, i) := (k, false)]> B) /\ B !! (b, i) = None.
Proof.
  intros G Hk Hd Hlim. pose proof (pow2_pos k ltac:(lia)).
  assert (Hpb : forall i', partial b i' res rs !! b = Some (mkPRegion b i' res))
    by (intros; apply lookup_insert_eq).
  assert (Hpn : forall b' i', b' <> b -> partial b i' res rs !! b' = rs !! b')
    by (intros; by apply lookup_insert_ne).
  pose proof (g_regions _ _ G _ _ (Hpb i)) as [? ? ? ? ?]. simpl in *.
  assert (Hlow : forall j k' u', B !! (b, j) = Some (k', u') ->
            0 <= k' < FREELIST_COUNT /\ res <= j /\ j + 2 ^ k' <= i /\ (2 ^ k' | j - res)).
  { intros j k' u' HB. destruct (g_block _ _ G _ _ _ _ HB) as (r' & Hr' & ?).
    rewrite Hpb in Hr'. by simplify_eq. }
  assert (Hnone : B !! (b, i) = None).
  { destruct (B !! (b, i)) as [[k' u']|] eqn:E; [|done]. apply Hlow in E as (? & ? & ? & ?).
    pose proof (pow2_pos k' ltac:(lia)). lia. }
  split; [|done]. split.
  - intros b' r' Hl. destruct (decide (b' = b)) as [->|].
    + rewrite Hpb in Hl. simplify_eq. split; simpl; (done || lia).
    + rewrite Hpn in Hl by done. apply G. by rewrite Hpn.
  - intros b' j k' u' Hl. destruct (decide (b' = b)) as [->|].
    + eexists. split; [apply Hpb|]. simpl.
      apply lookup_insert_Some in Hl as [[? ?]|[? Hl]]; simplify_eq; [split_and!; (done || lia)|].
      apply Hlow in Hl as (? & ? & ? & ?). split_and!; (done || lia).
    + rewrite lookup_insert_ne in Hl by congruence.
      destruct (g_block _ _ G _ _ _ _ Hl) as (r' & Hr' & ?). rewrite Hpn in Hr' by done.
      exists r'. by rewrite Hpn.
  - intros b' j k' u' j' k'' u'' H1 H2 Hne.
    apply lookup_insert_Some in H1 as [[? ?]|[? H1]];
      apply lookup_insert_Some in H2 as [[? ?]|[? H2]]; simplify_eq.
    + apply Hlow in H2. lia.
    + apply Hlow in H1. lia.
    + eapply (g_disj _ _ G); eauto.
  - intros b' r' x Hl Hx. destruct (decide (b' = b /\ i <= x)) as [[-> ?]|].
    + rewrite Hpb in Hl. simplify_eq. simpl in *. exists i, k, false.
      rewrite lookup_insert_eq. split; [done|lia].
    + destruct (g_cover _ _ G b' (if decide (b' = b) then mkPRegion b i res else r') x)
        as (j & k' & u' & HB & ?).
      * destruct (decide (b' = b)) as [->|]; [apply Hpb|]. by rewrite Hpn in Hl |- *.
      * destruct (decide (b' = b)) as [->|]; [|done]. rewrite Hpb in Hl. simplify_eq. simpl in *. lia.
      * exists j, k', u'. rewrite lookup_insert_ne by congruence. done.
Qed.

(** Pushing the head of a block that no list holds yet. *)
Lemma place_push s B b i k res p : geom (partial b i res (regions s)) B ->
  pages_agree (pages s) B None -> lists_agree (freelists s) B None ->
  0 <= k < FREELIST_COUNT -> B !! (b, i) = None -> pages s !! (b, i) = Some p ->
  exists s', (s ← fl_push k (b, i) s;
    update_page (b, i) (fun p => set_in_list true (set_list_index k p)) s) = Some s' /\
    same_meta s s' /\ lists_agree (freelists s') (<[(b, i) := (k, false)]> B) None /\
    pages_agree (pages s') (<[(b, i) := (k, false)]> B) None /\
    pages s' = <[(b, i) := set_in_list true (set_list_index k p)]> (pages s).
Proof.
  intros G Hpa Hla Hk HB Hp.
  destruct (fl_push_agree s B (<[(b, i) := (k, false)]> B) None None k (b, i))
    as (s1 & -> & Hla1 & Hps1 & Hm1); [done|done| | | | | |].
  - apply lookup_insert_eq.
  - done.
  - left. congruence.
  - intros q' k' Hne. by rewrite lookup_insert_ne.
  - congruence.
  - cbn [mbind option_bind]. rewrite (update_page_Some _ _ s1 p) by congruence.
    eexists. split; [done|]. simpl. split_and!; [by destruct Hm1 as (?&?&?&?&?&?)|done| |by rewrite Hps1].
    rewrite Hps1. intros q p' Hq. apply lookup_insert_Some in Hq as [[<- <-]|[Hne Hq]].
    + rewrite lookup_insert_eq. destruct (Hpa _ _ Hp) as (? & ? & Hno). rewrite HB in Hno.
      split_and!; simpl; [done|done|by destruct Hno| |done].
      apply wrap_small. unfold FREELIST_COUNT in *. unfold fits. lia.
    + unfold page_agrees. rewrite lookup_insert_ne by done. by apply Hpa.
Qed.

Lemma place_loop_inv fuel b i n res s B : geom (partial b i res (regions s)) B ->
  pages_agree (pages s) B None -> lists_agree (freelists s) B None ->
  (forall j, 0 <= j < n -> is_Some (pages s !! (b, j))) ->
  region_ok b (mkPRegion b n res) -> res <= i <= n -> n - i <= Z.of_nat fuel ->
  (forall k, 0 <= k < FREELIST_COUNT -> 2 ^ k <= n - res -> (2 ^ k | b / PAGE_SIZE + res)) ->
  exists s' B', place_loop fuel b i n (n - i) s = Some s' /\ same_meta s s' /\
    geom (partial b n res (regions s)) B' /\
    pages_agree (pages s') B' None /\ lists_agree (freelists s') B' None /\
    (forall q, is_Some (pages s' !! q) <-> is_Some (pages s !! q)) /\
    same_used B B'.
Proof.
  revert i s B. induction fuel as [|fuel IH]; intros i s B G Hpa Hla Hdom Hro Hi Hf Hal;
    cbn [place_loop]; pose proof Hro as [_ Hb Hb0 Hres Hlim]; simpl in Hres, Hlim.
  { replace i with n in * by lia. rewrite Z.ltb_irrefl. exists s, B. by split_and!. }
  destruct (Z.ltb_spec i n); [|replace i with n in * by lia; exists s, B; by split_and!].
  destruct (Hdom i) as [p Hp]; [lia|]. rewrite Hp. cbn [mbind option_bind].
  assert (Hph : phys p = b + i * PAGE_SIZE).
  { destruct (Hpa _ _ Hp) as (_ & Hn & _). apply (phys_spec b (mkPRegion b n res)); [done|simpl; lia|done]. }
  destruct (block_order_spec 14 FREELIST_COUNT p (n - i)) as (k & -> & Hk & Hkn & Hkd); [unfold FREELIST_COUNT; lia..| |].
  { rewrite Hph. apply Z.divide_add_r; [done|]. apply Z.divide_factor_r. }
  cbn [mbind option_bind]. pose proof (pow2_pos k ltac:(lia)) as Hpk.
  assert (0 <= b / PAGE_SIZE) by (apply Z.div_pos; unfold PAGE_SIZE; lia).
  assert (Hkres : (2 ^ k | i - res)).
  { replace (i - res) with (b / PAGE_SIZE + i - (b / PAGE_SIZE + res)) by lia.
    apply Z.divide_sub_r; [|apply Hal; [done|lia]].
    rewrite Hph in Hkd. destruct Hb as [m Hm]. rewrite Hm in Hkd |- *.
    rewrite Z.div_mul by (unfold PAGE_SIZE; lia). apply (Z.mul_divide_cancel_r _ _ PAGE_SIZE); [unfold PAGE_SIZE; lia|].
    by rewrite Z.mul_add_distr_r. }
  destruct (geom_place (regions s) B b i res k) as [G' HBn]; [done|done|done|lia|].
  destruct (place_push s B b i k res p) as (s1 & Hs1 & Hm1 & Hla1 & Hpa1 & Hps1);
    [done..|done|done|done|].
  destruct (fl_push k (b, i) s) as [s0|]; [|done]. cbn [mbind option_bind] in Hs1 |- *.
  rewrite Hs1. cbn [mbind option_bind]. rewrite index_to_size_pow by lia.
  assert (i ⊞ 2 ^ k = i + 2 ^ k) as -> by (unfold add64; apply u64_small; lia).
  assert ((n - i) ⊟ 2 ^ k = n - (i + 2 ^ k)) as -> by (unfold sub64; rewrite u64_small; lia).
  assert (Hdom1 : forall q, is_Some (pages s1 !! q) <-> is_Some (pages s !! q)).
  { intros q. rewrite Hps1. destruct (decide (q = (b, i))) as [->|].
    - rewrite lookup_insert_eq, Hp. done.
    - by rewrite lookup_insert_ne. }
  destruct (IH (i + 2 ^ k) s1 (<[(b, i) := (k, false)]> B)) as (s' & B' & -> & Hm & HG & HP & HL & HD & HU).
  - destruct Hm1 as (-> & _). done.
  - done.
  - done.
  - intros j Hj. apply Hdom1. by apply Hdom.
  - done.
  - lia.
  - lia.
  - done.
  - exists s', B'. split_and!; try done.
    + by eapply same_meta_trans.
    + destruct Hm1 as (<- & _). done.
    + intros q. by rewrite HD, Hdom1.
    + intros q k'. rewrite (HU q k'). destruct (decide (q = (b, i))) as [->|].
      * rewrite lookup_insert_eq, HBn. done.
      * by rewrite lookup_insert_ne.
Qed.

Lemma elem_of_link_region b reg rs : b ∈ link_region reg rs <-> b = reg \/ b ∈ rs.
Proof.
  unfold link_region. destruct rs as [|r0 rs]; [by rewrite list_elem_of_singleton, elem_of_nil; tauto|].
  destruct (list_find _ _) as [[i r]|].
  - rewrite elem_of_app, elem_of_cons.
    assert (b ∈ r0 :: rs <-> b ∈ take (S i) (r0 :: rs) \/ b ∈ drop (S i) (r0 :: rs)) as ->; [|tauto].
    by rewrite <- elem_of_app, take_drop.
  - by rewrite elem_of_cons.
Qed.

Section Run.
Context (sizeof_PRegion sizeof_Page : Z).

(** The frames at the start of a region that its metadata takes. *)
Definition reserved_pages (size : Z) : Z :=
  ALIGNUP (sizeof_PRegion + (size / PAGE_SIZE - 1) * sizeof_Page) PAGE_SIZE / PAGE_SIZE.

(** What the memory map must guarantee of a region: it is made of whole frames
    below 2^48, is not part of a region added before, and the part that is left
    after the metadata starts at a frame aligned for every block that fits. *)
Record mem_ok (s : state) (phys_ size : Z) : Prop := {
  mo_layout : 0 < sizeof_PRegion <= PAGE_SIZE /\ 0 <= sizeof_Page <= PAGE_SIZE;
  mo_aligned : (PAGE_SIZE | phys_);
  mo_size : (PAGE_SIZE | size);
  mo_nonneg : 0 <= phys_ /\ 0 <= size;
  mo_limit : phys_ / PAGE_SIZE + size / PAGE_SIZE <= 2 ^ 36;
  mo_fresh : forall b r, regions s !! b = Some r ->
    ranges_disjoint b (page_count r) phys_ (size / PAGE_SIZE);
  mo_free_base : forall k, 0 <= k < FREELIST_COUNT ->
    2 ^ k <= size / PAGE_SIZE - reserved_pages size ->
    (2 ^ k | phys_ / PAGE_SIZE + reserved_pages size)
}.

Lemma needed_small s phys_ size : mem_ok s phys_ size -> 0 < size / PAGE_SIZE ->
  0 < sizeof_PRegion + (size / PAGE_SIZE - 1) * sizeof_Page < 2 ^ 63 /\
  sizeof_PRegion ⊞ ((size / PAGE_SIZE ⊟ 1) ⊠ sizeof_Page) =
    sizeof_PRegion + (size / PAGE_SIZE - 1) * sizeof_Page.
Proof.
  intros [Hl _ _ Hn Hlim _ _] Hp.
  assert (0 <= phys_ / PAGE_SIZE) by (apply Z.div_pos; unfold PAGE_SIZE; lia).
  set (n := size / PAGE_SIZE) in *. unfold PAGE_SIZE in Hl. unfold add64, sub64, mul64.
  assert (0 <= (n - 1) * sizeof_Page <= 2 ^ 36 * 4096) by nia.
  rewrite (u64_small (n - 1)) by lia. rewrite (u64_small ((n - 1) * _)) by lia.
  rewrite u64_small by lia. lia.
Qed.

Lemma reserved_bound s phys_ size : mem_ok s phys_ size -> 0 < size / PAGE_SIZE ->
  sizeof_PRegion + (size / PAGE_SIZE - 1) * sizeof_Page < size ->
  1 <= reserved_pages size <= size / PAGE_SIZE.
Proof.
  intros Hok Hp Hlt. destruct (needed_small _ _ _ Hok Hp) as [Hn _]. unfold reserved_pages.
  set (needed := sizeof_PRegion + _) in *.
  assert (HA : ALIGNUP needed PAGE_SIZE = (needed + 4095) / 4096 * 4096)
    by (apply (ALIGNUP_spec 12); lia).
  rewrite HA. unfold PAGE_SIZE in *. rewrite Z.div_mul by lia. destruct Hok as [_ _ [m Hm] _ _ _ _].
  unfold PAGE_SIZE in Hm. rewrite Hm, Z.div_mul in * by lia. split.
  - apply Z.div_le_lower_bound; lia.
  - apply Z.lt_succ_r, Z.div_lt_upper_bound; lia.
Qed.

Lemma fresh_region s B phys_ size : inv s B None -> mem_ok s phys_ size -> 0 < size / PAGE_SIZE ->
  regions s !! phys_ = None /\ (forall i, B !! (phys_, i) = None) /\
  (forall i, pages s !! (phys_, i) = None).
Proof.
  intros I Hok Hn. assert (Hnone : regions s !! phys_ = None).
  { destruct (regions s !! phys_) as [r|] eqn:E; [|done].
    destruct (mo_fresh _ _ _ Hok _ _ E); destruct (g_regions _ _ (i_geom _ _ _ I) _ _ E);
      unfold PAGE_SIZE in *; lia. }
  split_and!; [done|intros i..].
  - destruct (B !! (phys_, i)) as [[k u]|] eqn:E; [|done].
    apply (g_block _ _ (i_geom _ _ _ I)) in E as (? & ? & _). congruence.
  - destruct (pages s !! (phys_, i)) as [p|] eqn:E; [|done].
    destruct (proj1 (i_dom _ _ _ I phys_ i)) as (? & ? & _); [eauto|congruence].
Qed.

(** The pages of a fresh region, before any block is placed. *)
Definition region_pages (b n res : Z) (ps : gmap (Z * Z) Page) : gmap (Z * Z) Page :=
  add_pages (Z.to_nat (n - res)) b res FREELIST_COUNT (add_pages (Z.to_nat res) b 0 0 ps).

Lemma region_pages_lookup b n res ps q : 0 <= res <= n ->
  (fst q = b -> ps !! q = None) ->
  region_pages b n res ps !! q =
    if decide (fst q = b) then
      if decide (0 <= snd q < n) then
        Some (mkPage b 0 (wrap 36 (Z.shiftr b 12 ⊞ snd q)) false false
                (wrap 4 (if decide (snd q < res) then 0 else FREELIST_COUNT)))
      else None
    else ps !! q.
Proof.
  intros Hn Hps. unfold region_pages. rewrite !add_pages_lookup. rewrite !Z2Nat.id by lia.
  repeat (destruct (decide _)); try (done || lia || by apply Hps).
Qed.

Lemma region_pages_agree b n res ps B : region_ok b (mkPRegion b n res) ->
  pages_agree ps B None -> (forall i, B !! (b, i) = None) -> (forall i, ps !! (b, i) = None) ->
  pages_agree (region_pages b n res ps) B None.
Proof.
  intros [_ [m Hm] Hb Hres Hlim] Hpa HB Hps [b' i] p Hq. simpl in *.
  rewrite region_pages_lookup in Hq; [|lia|intros ?; simpl in *; subst; apply Hps]. simpl in Hq.
  destruct (decide (b' = b)) as [->|]; [|by apply Hpa].
  destruct (decide (0 <= i < n)); [|done]. injection Hq as <-. unfold page_agrees. rewrite HB. simpl.
  split_and!; [done| |done|done]. rewrite Z.shiftr_div_pow2 by lia. change (2 ^ 12) with PAGE_SIZE.
  assert (0 <= b / PAGE_SIZE) by (apply Z.div_pos; unfold PAGE_SIZE; lia).
  unfold add64. rewrite u64_small by lia. apply wrap_small. unfold fits. lia.
Qed.

(** Adding a region keeps the invariant and the live allocations. *)
Lemma add_mem_spec s phys_ size : wf s -> mem_ok s phys_ size ->
  exists s', pmalloc_add_mem sizeof_PRegion sizeof_Page phys_ size s = Some s' /\ wf s' /\
    (forall a k, allocated s' a k <-> allocated s a k) /\ used_memory s' = used_memory s /\
    (s' = s \/ total_memory s' = u64 (total_memory s + size) /\
       regions s' = <[phys_ := mkPRegion phys_ (size / PAGE_SIZE) (reserved_pages size)]> (regions s)).
Proof.
  intros [Hl [B I]] Hok. unfold pmalloc_add_mem. pose proof (mo_nonneg _ _ _ Hok) as [Hp0 Hs0].
  assert (Hn0 : 0 <= size / PAGE_SIZE) by (apply Z.div_pos; unfold PAGE_SIZE; lia).
  destruct (Z.eqb_spec (size / PAGE_SIZE) 0) as [|Hnz].
  { exists s. split_and!; try done; [by split; eauto|by left]. }
  destruct (needed_small _ _ _ Hok) as [Hneed ->]; [lia|].
  set (needed := sizeof_PRegion + _) in *. destruct (Z.geb_spec needed size) as [|Hlt].
  { exists s. split_and!; try done; [by split; eauto|by left]. }
  destruct (reserved_bound _ _ _ Hok) as [Hr1 Hr2]; [lia|done|].
  change (ALIGNUP needed PAGE_SIZE / PAGE_SIZE) with (reserved_pages size).
  set (n := size / PAGE_SIZE) in *. set (res := reserved_pages size) in *.
  destruct (fresh_region _ B _ _ I Hok) as (Hrn & HBn & Hpn); [lia|].
  assert (Hro : region_ok phys_ (mkPRegion phys_ n res)) by (destruct Hok; split; simpl; (done || lia)).
  fold (region_pages phys_ n res (pages s)).
  assert (n ⊟ res = n - res) as ->.
  { destruct Hro as [_ _ ? _ Hlim]. simpl in Hlim.
    assert (0 <= phys_ / PAGE_SIZE) by (apply Z.div_pos; unfold PAGE_SIZE; lia).
    unfold sub64. rewrite u64_small; lia. }
  set (s1 := mkState _ _ _ _ _ _ _ _).
  destruct (place_loop_inv (Z.to_nat n) phys_ res n res s1 B)
    as (s' & B' & -> & Hm & HG & HP & HL & HD & HU).
  - subst s1. unfold partial. simpl. rewrite insert_insert_eq.
    apply (geom_start _ _ _ (mkPRegion phys_ n res)); [apply I|done|done].
  - apply region_pages_agree; [done|apply I|done|done].
  - apply I.
  - intros j Hj. simpl. rewrite region_pages_lookup by (lia || (intros; by apply Hpn)).
    simpl. rewrite !decide_True by lia. eauto.
  - done.
  - lia.
  - lia.
  - apply Hok.
  - cbn [mbind option_bind]. eexists. split; [done|].
    set (s2 := mkState _ _ _ _ _ _ _ _). destruct Hm as (Hm1 & Hm2 & Hm3 & Hm4 & Hm5 & Hm6).
    assert (I2 : inv s2 B' None).
    { unfold partial in HG. simpl in HG. rewrite insert_insert_eq in HG.
      split; simpl; rewrite ?Hm1; simpl; [done| |done|done].
      intros b j. rewrite HD. simpl. rewrite region_pages_lookup by (lia || (simpl; intros ->; apply Hpn)).
      simpl. destruct (decide (b = phys_)) as [->|].
      - rewrite lookup_insert_eq. destruct (decide _); split.
        + intros _. by eexists.
        + eauto.
        + by intros [? ?].
        + intros (? & ? & ?). by simplify_eq.
      - rewrite lookup_insert_ne by done. apply I. }
    split_and!.
    + split; [|eauto]. split; simpl; rewrite ?Hm1, ?Hm2; simpl.
      * intros b. rewrite elem_of_link_region, (proj1 Hl b). rewrite lookup_insert_is_Some. destruct (decide (b = phys_)); naive_solver.
      * intros b r b' r' H1 H2 Hne. apply lookup_insert_Some in H1 as [[<- <-]|[_ H1]];
          apply lookup_insert_Some in H2 as [[<- <-]|[_ H2]]; [done| | |by eapply Hl].
        -- destruct (mo_fresh _ _ _ Hok _ _ H2); [by right|by left].
        -- destruct (mo_fresh _ _ _ Hok _ _ H1); [by left|by right].
    + intros a k. rewrite (allocated_iff _ B' _ _ I2), (allocated_iff _ B _ _ I).
      unfold same_used in HU. by setoid_rewrite HU.
    + done.
    + right. done.
Qed.

(** ** Executions *)

(** The states the allocator reaches, with the blocks its clients hold: the
    address [pmalloc] returned and the page count that was asked for. *)
Inductive reachable : state -> list (Z * Z) -> Prop :=
| reach_initial : reachable initial []
| reach_add_mem s live phys_ size s' :
    reachable s live -> mem_ok s phys_ size ->
    pmalloc_add_mem sizeof_PRegion sizeof_Page phys_ size s = Some s' ->
    reachable s' live
| reach_pmalloc s live count addr s' :
    reachable s live -> 1 <= count <= 8192 -> pmalloc count s = Some (addr, s') ->
    reachable s' (if addr =? 0 then live else (addr, count) :: live)
| reach_pfree s l1 addr count l2 s' :
    reachable s (l1 ++ (addr, count) :: l2) -> pfree addr count s = Some s' ->
    reachable s' (l1 ++ l2).

Definition live_pages (live : list (Z * Z)) : Z := foldr (fun b n => snd b + n) 0 live.

(** The clients' view agrees with the allocator's. *)
Record run_inv (s : state) (live : list (Z * Z)) : Prop := {
  ri_wf : wf s;
  ri_live : forall a k, allocated s a k <-> exists c, (a, c) ∈ live /\ k = size_to_index c;
  ri_counts : forall a c, (a, c) ∈ live -> 1 <= c <= 8192;
  ri_nodup : NoDup live.*1;
  ri_used : used_memory s = u64 (PAGE_SIZE * live_pages live)
}.

Lemma wf_initial : wf initial.
Proof.
  split; [split|].
  - intros b. simpl. rewrite elem_of_nil, lookup_empty. split; [done|by intros [? ?]].
  - done.
  - exists ∅. split; simpl.
    + split; intros *; rewrite ?lookup_empty; done.
    + intros b i. rewrite lookup_empty. split; [by intros [? ?]|intros (? & ? & _); by rewrite lookup_empty in *].
    + intros q p. by rewrite lookup_empty.
    + split; [done|]. intros k l Hl. apply (lookup_replicate 14 []) in Hl as [-> _].
      split; [constructor|]. intros q. rewrite elem_of_nil, lookup_empty. split; [done|by intros [? ?]].
Qed.

Lemma u64_add_l x y : u64 (u64 x + y) = u64 (x + y).
Proof. unfold u64, wrap. by rewrite Zplus_mod_idemp_l. Qed.

Lemma live_pages_app l1 l2 : live_pages (l1 ++ l2) = live_pages l1 + live_pages l2.
Proof. induction l1; simpl; lia. Qed.

Lemma run_inv_pmalloc s live count addr s' : run_inv s live -> 1 <= count <= 8192 ->
  pmalloc count s = Some (addr, s') ->
  run_inv s' (if addr =? 0 then live else (addr, count) :: live).
Proof.
  intros [Hwf Hlive Hc Hnd Hu] Hcount Hp.
  destruct (pmalloc_spec s count Hwf Hcount) as (a & s1 & Hp' & Hwf' & Hcase).
  rewrite Hp in Hp'. injection Hp' as <- <-.
  destruct Hcase as [(-> & -> & _)|(Ha & _ & (k & Hf & _) & Hal & Hu')]; [done|].
  replace (addr =? 0) with false by lia. split; [done| | | |].
  - intros a k'. rewrite Hal, Hlive. set_unfold. naive_solver.
  - intros a c Hin. apply elem_of_cons in Hin as [Hin|Hin]; [by simplify_eq|by eapply Hc].
  - simpl. constructor; [|done]. intros Hin. apply list_elem_of_fmap in Hin as ([a c] & Heq & Hin).
    simpl in Heq. subst a.
    assert (Haa : allocated s addr (size_to_index c)) by (apply Hlive; eauto).
    destruct (live_blocks_disjoint s addr (size_to_index c) addr k Hwf Haa ltac:(by right)) as [Hd|Hd].
    + destruct (size_to_index_spec c ltac:(by eapply Hc)) as (? & ? & _). unfold PAGE_SIZE in Hd.
      pose proof (Hc _ _ Hin). lia.
    + destruct Hwf as [_ [B I]]. apply (free_block_iff _ B) in Hf as (b & i & HB & _); [|done].
      destruct (g_block _ _ (i_geom _ _ _ I) _ _ _ _ HB) as (_ & _ & ? & _).
      pose proof (pow2_pos k ltac:(lia)). unfold PAGE_SIZE in Hd. lia.
  - rewrite Hu', Hu, u64_add_l. simpl. f_equal. lia.
Qed.

Lemma run_inv_pfree s l1 addr count l2 s' : run_inv s (l1 ++ (addr, count) :: l2) ->
  pfree addr count s = Some s' -> run_inv s' (l1 ++ l2).
Proof.
  intros [Hwf Hlive Hc Hnd Hu] Hp.
  assert (Hin : (addr, count) ∈ l1 ++ (addr, count) :: l2) by set_solver.
  destruct (pfree_spec s addr count Hwf) as (s1 & ? & ? & Hp' & Hwf' & Hal & Hu' & _).
  { by eapply Hc. }
  { apply Hlive. eauto. }
  rewrite Hp in Hp'. injection Hp' as <-.
  rewrite fmap_app, fmap_cons in Hnd. apply NoDup_middle in Hnd as [Hna Hnd].
  assert (Hno : forall c, (addr, c) ∉ l1 ++ l2).
  { intros c Hi. apply Hna. rewrite <- fmap_app. by apply (list_elem_of_fmap_2 fst _ (addr, c)). }
  split; [done| | | |].
  - intros a k. rewrite Hal, Hlive. split.
    + intros [(c & Hi & ->) Hne]. exists c. set_solver.
    + intros (c & Hi & ->). split; [exists c; set_solver|]. intros ->. by eapply Hno.
  - intros a c Hi. eapply (Hc a). set_solver.
  - by rewrite fmap_app.
  - rewrite Hu', Hu, !live_pages_app. simpl. unfold Z.sub. rewrite u64_add_l. f_equal. lia.
Qed.

Lemma reachable_inv s live : reachable s live -> run_inv s live.
Proof.
  induction 1 as [|s live phys_ size s' _ IH Hok Hadd|s live count addr s' _ IH Hc Hp|
                  s l1 addr count l2 s' _ IH Hp].
  - split; [apply wf_initial| | |constructor|done].
    + intros a k. split; [|intros (? & ?%elem_of_nil & _); done].
      intros (q & p & Hq & _). simpl in Hq. by rewrite lookup_empty in Hq.
    + by intros a c ?%elem_of_nil.
  - destruct IH as [Hwf Hlive Hc Hnd Hu].
    destruct (add_mem_spec s phys_ size Hwf Hok) as (s1 & Hs1 & Hwf' & Hal & Hu' & _).
    simplify_eq. split; [done| |done|done|congruence]. intros a k. by rewrite Hal.
  - by eapply run_inv_pmalloc.
  - by eapply run_inv_pfree.
Qed.

(** C1: at any point of an execution of [pmalloc_add_mem], [pmalloc] and [pfree]
    on regions with an aligned free part, two blocks the clients hold never
    overlap, none of them starts at address 0, the used-memory counter is the
    total of the pages held, and no call of [pmalloc] up to the largest block or
    of [pfree] on a held block hits an assertion or leaves the arrays. *)
Theorem reachable_safe s live : reachable s live ->
  (forall i j a c a' c', live !! i = Some (a, c) -> live !! j = Some (a', c') -> i <> j ->
     ranges_disjoint a c a' c') /\
  (forall a c, (a, c) ∈ live -> 0 < a) /\
  pmalloc_get_used_mem s = u64 (PAGE_SIZE * live_pages live) /\
  (forall c, 1 <= c <= 8192 -> is_Some (pmalloc c s)) /\
  (forall a c, (a, c) ∈ live -> is_Some (pfree a c s)).
Proof.
  intros Hr. pose proof (reachable_inv _ _ Hr) as [Hwf Hlive Hc Hnd Hu]. split_and!.
  - intros i j a c a' c' Hi Hj Hne.
    pose proof (Hc _ _ (list_elem_of_lookup_2 _ _ _ Hi)) as Hci.
    pose proof (Hc _ _ (list_elem_of_lookup_2 _ _ _ Hj)) as Hcj.
    destruct (size_to_index_spec c Hci) as (_ & ? & _).
    destruct (size_to_index_spec c' Hcj) as (_ & ? & _).
    assert (Hd : ranges_disjoint a (2 ^ size_to_index c) a' (2 ^ size_to_index c')).
    { apply (live_blocks_disjoint s); [done|apply Hlive; eauto using list_elem_of_lookup_2|].
      left. split; [apply Hlive; eauto using list_elem_of_lookup_2|]. intros <-. apply Hne.
      eapply (NoDup_lookup live.*1 i j a); [done|by rewrite list_lookup_fmap, Hi|
        by rewrite list_lookup_fmap, Hj]. }
    unfold ranges_disjoint, PAGE_SIZE in *. lia.
  - intros a c Hin. destruct Hwf as [_ [B I]].
    assert (Ha : allocated s a (size_to_index c)) by (apply Hlive; eauto).
    apply (allocated_iff _ B) in Ha as (b & i & HB & ->); [|done].
    destruct (g_block _ _ (i_geom _ _ _ I) _ _ _ _ HB) as (r & Hr' & _ & ? & _).
    destruct (g_regions _ _ (i_geom _ _ _ I) _ _ Hr'). unfold PAGE_SIZE. lia.
  - done.
  - intros c Hcc. destruct (pmalloc_spec s c Hwf Hcc) as (? & ? & -> & _). eauto.
  - intros a c Hin. destruct (pfree_spec s a c Hwf) as (? & ? & ? & -> & _); [by eapply Hc| |eauto].
    apply Hlive. eauto.
Qed.

(** [pmalloc_add_mem] of a region with an aligned free part always returns,
    establishes the invariant for the new region (its free frames are tiled by
    free blocks), keeps the one of the regions before it, and allocates nothing. *)
Theorem pmalloc_add_mem_correct s phys_ size : wf s -> mem_ok s phys_ size ->
  exists s', pmalloc_add_mem sizeof_PRegion sizeof_Page phys_ size s = Some s' /\ wf s' /\
    (forall a k, allocated s' a k <-> allocated s a k) /\ used_memory s' = used_memory s /\
    (s' = s \/ total_memory s' = u64 (total_memory s + size) /\
       regions s' = <[phys_ := mkPRegion phys_ (size / PAGE_SIZE) (reserved_pages size)]> (regions s)).
Proof. apply add_mem_spec. Qed.

End Run.

(** C2: [pmalloc] of 1 to 8192 pages on a well-formed allocator always returns.
    It either returns 0 and changes nothing, because no free block is large
    enough, or returns the non-zero address of a block of the rounded-up order
    that was free, keeps the invariant and every earlier allocation, and
    accounts for the memory. *)
Theorem pmalloc_correct s count : wf s -> 1 <= count <= 8192 ->
  exists addr s', pmalloc count s = Some (addr, s') /\ wf s' /\
    ((addr = 0 /\ s' = s /\ forall a k, free_block s a k -> k < size_to_index count) \/
     (0 < addr /\ allocated s' addr (size_to_index count) /\
      (exists k, free_block s addr k /\ size_to_index count <= k) /\
      (forall a k, allocated s' a k <->
         allocated s a k \/ a = addr /\ k = size_to_index count) /\
      used_memory s' = u64 (used_memory s + count * PAGE_SIZE))).
Proof. apply pmalloc_spec. Qed.

(** C3: [pfree] of a live block with a page count of its order passes every
    assertion, keeps the invariant, removes exactly that allocation and accounts
    for the memory.  The pages of the block are then part of one free block,
    which replaces exactly the free blocks inside of it, every other free block
    stays as it was, and the buddy of the new block is not free: all merging is
    done. *)
Theorem pfree_correct s addr count : wf s -> 1 <= count <= 8192 ->
  allocated s addr (size_to_index count) ->
  exists s' addr' order, pfree addr count s = Some s' /\ wf s' /\
    (forall a k, allocated s' a k <-> allocated s a k /\ a <> addr) /\
    used_memory s' = u64 (used_memory s - count * PAGE_SIZE) /\
    addr' <= addr /\
    addr + 2 ^ size_to_index count * PAGE_SIZE <= addr' + 2 ^ order * PAGE_SIZE /\
    (forall a k, free_block s' a k <->
       a = addr' /\ k = order \/ free_block s a k /\ ranges_disjoint a (2 ^ k) addr' (2 ^ order)) /\
    (order < FREELIST_COUNT - 1 -> forall a, free_block s' a order ->
       ~ buddies s addr' a order /\ ~ buddies s a addr' order).
Proof. apply pfree_spec. Qed.

(** ** Concrete executions *)

(** A region of eight frames whose metadata takes one frame, the free part
    starting at frame 8192. *)
Definition demo_base : Z := 8191 * PAGE_SIZE.
Definition demo_size : Z := 8 * PAGE_SIZE.

Lemma demo_mem_ok : mem_ok 80 40 initial demo_base demo_size.
Proof.
  split.
  - unfold PAGE_SIZE. lia.
  - by exists 8191.
  - by exists 8.
  - unfold demo_base, demo_size, PAGE_SIZE. lia.
  - by vm_compute.
  - intros b r Hr. simpl in Hr. by rewrite lookup_empty in Hr.
  - intros k Hk _. change (2 ^ k | 8192). change 8192 with (2 ^ 13). apply pow2_dvd.
    unfold FREELIST_COUNT in Hk. lia.
Qed.

Definition demo_state : state := default initial (pmalloc_add_mem 80 40 demo_base demo_size initial).

Lemma demo_add : pmalloc_add_mem 80 40 demo_base demo_size initial = Some demo_state.
Proof. vm_compute. reflexivity. Qed.

Lemma demo_reachable : reachable 80 40 demo_state [].
Proof. eapply reach_add_mem; [apply reach_initial|apply demo_mem_ok|apply demo_add]. Qed.

Lemma demo_wf : wf demo_state.
Proof. exact (ri_wf _ _ (reachable_inv _ _ _ _ demo_reachable)). Qed.

(** Witness of [reachable_safe]: two blocks are allocated and the first freed. *)
Lemma reachable_safe_witness : exists s, reachable 80 40 s [(8192 * PAGE_SIZE, 2)] /\
  (forall c, 1 <= c <= 8192 -> is_Some (pmalloc c s)) /\
  pmalloc_get_used_mem s = u64 (PAGE_SIZE * 2).
Proof.
  assert (H : reachable 80 40 (default initial (
    '(a, s) ← pmalloc 2 demo_state; '(b, s) ← pmalloc 2 s; pfree a 2 s)) [(8192 * PAGE_SIZE, 2)]).
  { eapply (reach_pfree _ _ _ [(8192 * PAGE_SIZE, 2)] (8196 * PAGE_SIZE) 2 []).
    - eapply (reach_pmalloc _ _ _ [(8196 * PAGE_SIZE, 2)] 2 (8192 * PAGE_SIZE)).
      + eapply (reach_pmalloc _ _ demo_state [] 2 (8196 * PAGE_SIZE));
          [apply demo_reachable|lia|vm_compute; reflexivity].
      + lia.
      + vm_compute. reflexivity.
    - vm_compute. reflexivity. }
  eexists. split; [exact H|]. destruct (reachable_safe 80 40 _ _ H) as (_ & _ & Hu & Hp & _).
  split; [exact Hp|exact Hu].
Defined.

Lemma pmalloc_add_mem_correct_witness :
  exists s', pmalloc_add_mem 80 40 demo_base demo_size initial = Some s' /\ wf s'.
Proof.
  destruct (pmalloc_add_mem_correct 80 40 initial demo_base demo_size wf_initial demo_mem_ok)
    as (s' & H & Hwf & _).
  exists s'. split; [exact H|exact Hwf].
Defined.

Lemma pmalloc_correct_witness : exists addr s',
  pmalloc 4 demo_state = Some (addr, s') /\ wf s' /\ addr = 8192 * PAGE_SIZE.
Proof.
  destruct (pmalloc_correct demo_state 4 demo_wf ltac:(lia)) as (addr & s' & H & Hwf & _).
  exists addr, s'. split; [exact H|split; [exact Hwf|]].
  assert (Hv : fst <$> pmalloc 4 demo_state = Some (8192 * PAGE_SIZE)) by (vm_compute; reflexivity).
  rewrite H in Hv. simpl in Hv. congruence.
Defined.

(** The second half of a split block is freed and merges with the first. *)
Lemma pfree_correct_witness : exists s s' addr' order, free_block s (8194 * PAGE_SIZE) 1 /\
  pfree (8192 * PAGE_SIZE) 2 s = Some s' /\ free_block s' addr' order /\
  addr' <= 8192 * PAGE_SIZE /\ 8194 * PAGE_SIZE <= addr' + 2 ^ order * PAGE_SIZE /\ order <> 1.
Proof.
  destruct (pmalloc_spec demo_state 2 demo_wf ltac:(lia)) as (a0 & s0 & H0 & Hwf0 & _).
  destruct (pmalloc_spec s0 2 Hwf0 ltac:(lia)) as (addr & s & H & Hwf & Hc).
  assert (Hs : ('(_, s) ← pmalloc 2 demo_state; pmalloc 2 s) = Some (addr, s)) by (rewrite H0; exact H).
  assert (Hv : ('(a, s) ← '(_, s) ← pmalloc 2 demo_state; pmalloc 2 s;
    p ← pages s !! (demo_base, 3);
    r ← regions s !! demo_base;
    Some (a, in_list p, phys p, list_index p, page_count r, res_count r))
    = Some (8192 * PAGE_SIZE, true, 8194 * PAGE_SIZE, 1, 8, 1)) by (vm_compute; reflexivity).
  rewrite Hs in Hv. cbn [mbind option_bind] in Hv.
  destruct (pages s !! (demo_base, 3)) as [p|] eqn:Hp; [|done]. cbn [mbind option_bind] in Hv.
  destruct (regions s !! demo_base) as [r|] eqn:Hr; [|done]. cbn [mbind option_bind] in Hv.
  injection Hv as Ha Hin Hph Hix Hpc Hrc. subst addr.
  destruct Hc as [[Hz _]|(_ & Hal & _)]; [by vm_compute in Hz|].
  assert (Hfree : free_block s (8194 * PAGE_SIZE) 1) by (exists (demo_base, 3), p; split_and!; done).
  destruct (pfree_correct s (8192 * PAGE_SIZE) 2 Hwf ltac:(lia) Hal)
    as (s' & addr' & order & Hf & Hwf' & _ & _ & Hle & Hend & Hfb & Hmax).
  change (2 ^ size_to_index 2 * PAGE_SIZE) with (2 * PAGE_SIZE) in Hend.
  exists s, s', addr', order. split; [exact Hfree|]. split; [exact Hf|]. split; [apply Hfb; left; by split|].
  split; [exact Hle|]. split; [clear - Hend; unfold PAGE_SIZE in *; lia|].
  intros ->. change (2 ^ 1) with 2 in *.
  assert (addr' = 8192 * PAGE_SIZE) as -> by (clear - Hle Hend; unfold PAGE_SIZE in *; lia).
  assert (Hb : free_block s' (8194 * PAGE_SIZE) 1).
  { apply Hfb. right. split; [exact Hfree|]. unfold ranges_disjoint, PAGE_SIZE. lia. }
  apply (proj1 (Hmax ltac:(done) _ Hb)).
  exists demo_base, r. split; [exact Hr|]. unfold block_in, demo_base, PAGE_SIZE. rewrite Hpc, Hrc.
  split; [split; [discriminate|discriminate]|]. split; [reflexivity|by exists 0].
Defined.

(** a request for more than 8192 pages indexes [FREELISTS] past its end: the
    order of a page count above the largest block is at least [FREELIST_COUNT],
    and [freelist_get] does not check it. *)
Theorem pmalloc_oversized s count : wf s -> 8192 < count < 2 ^ 64 ->
  FREELIST_COUNT <= size_to_index count /\ pmalloc count s = None.
Proof.
  intros [_ [B I]] Hc. assert (Hge : FREELIST_COUNT <= size_to_index count).
  { unfold size_to_index, sub64, FREELIST_COUNT. rewrite u64_small by lia.
    rewrite countl_zero_64 by lia.
    assert (13 <= Z.log2 (count - 1)) by (apply Z.log2_le_pow2; lia). lia. }
  split; [done|]. unfold pmalloc. destruct (Z.eqb_spec count 0); [lia|].
  destruct (i_lists _ _ _ I) as [Hlen _]. unfold freelist_get, fl_pop.
  rewrite lookup_ge_None_2; [done|]. unfold FREELIST_COUNT in Hge. lia.
Qed.

Lemma pmalloc_oversized_witness : pmalloc 8193 demo_state = None.
Proof. exact (proj2 (pmalloc_oversized demo_state 8193 demo_wf ltac:(lia))). Defined.

(** without the alignment hypothesis the allocator is wrong.  On a region of
    128 frames at 1 MiB, whose free part starts at frame 2 of the region, four
    blocks of four pages are allocated and three of them freed; the buddies of
    the freed blocks are computed relative to the free part while the blocks
    were cut at physical alignment, and two later allocations of eight pages
    return the overlapping ranges at 0x10C000 and 0x108000. *)
Theorem pmalloc_misaligned_overlap : exists a b,
  (s ← pmalloc_add_mem 80 40 0x100000 (128 * PAGE_SIZE) initial;
   '(_, s) ← pmalloc 4 s; '(x, s) ← pmalloc 4 s; '(y, s) ← pmalloc 4 s;
   '(z, s) ← pmalloc 4 s;
   s ← pfree x 4 s; s ← pfree y 4 s; s ← pfree z 4 s;
   '(a, s) ← pmalloc 8 s; '(b, s) ← pmalloc 8 s; Some (a, b)) = Some (a, b) /\
  0 < a /\ 0 < b /\ a <> b /\ ~ ranges_disjoint a 8 b 8.
Proof.
  do 2 eexists. split; [vm_compute; reflexivity|]. unfold ranges_disjoint, PAGE_SIZE. lia.
Qed.

End PmallocRun.
