(* ===== verification/PageAlloc.v ===== *)
(** * What the kernel's components rely on of the page allocator

    [VMem] (and every other user of single pages) needs little of the physical
    allocator: a page that is handed out is not held by anybody, stays held until
    it is freed, other pages are not affected, and its address is that of a page
    below the 52 bits of a physical address.  The class [PageAlloc] states
    this; its instance is the buddy allocator of Pmalloc.v, whose laws follow
    from its invariant. *)

From S2P Require Import Prelude Bits Pmalloc PmallocRun.

Class PageAlloc (A : Type) := {
  pa_alloc : A -> option Z * A;
  pa_free : Z -> A -> option A;
  pa_ok : A -> Prop;
  pa_held : A -> Z -> Prop;
  pa_alloc_ok : forall a, pa_ok a ->
    match pa_alloc a with
    | (None, a') => a' = a
    | (Some p, a') => pa_ok a' /\ 0 < p /\ ~ pa_held a p /\
        forall q, pa_held a' q <-> pa_held a q \/ q = p
    end;
  pa_free_ok : forall a p, pa_ok a -> pa_held a p ->
    exists a', pa_free p a = Some a' /\ pa_ok a' /\ forall q, pa_held a' q <-> pa_held a q /\ q <> p;
  pa_page : forall a p, pa_ok a -> pa_held a p -> (PAGE_SIZE | p) /\ 0 < p < 2 ^ 52
}.

(** Giving back a list of pages, one by one. *)
Section FreeAll.
Context {A : Type} `{PageAlloc A}.

Fixpoint pa_free_all (ps : list Z) (a : A) : option A :=
  match ps with
  | [] => Some a
  | p :: ps => a ← pa_free p a; pa_free_all ps a
  end.

Lemma pa_free_all_ok ps : forall (a : A), pa_ok a -> NoDup ps -> (forall q, q ∈ ps -> pa_held a q) ->
  exists a', pa_free_all ps a = Some a' /\ pa_ok a' /\ forall q, pa_held a' q <-> pa_held a q /\ q ∉ ps.
Proof.
  induction ps as [|p ps IH]; intros a Hok Hnd Hh; simpl.
  { exists a. split_and!; [done|done|]. set_solver. }
  apply NoDup_cons in Hnd as [Hp Hnd].
  destruct (pa_free_ok a p Hok) as (a1 & -> & Hok1 & H1); [apply Hh; left|]. cbn [mbind option_bind].
  destruct (IH a1 Hok1 Hnd) as (a' & -> & Hok' & H').
  { intros q Hq. apply H1. split; [apply Hh; by right|]. set_solver. }
  exists a'. split_and!; [done|done|]. intros q. rewrite H', H1. set_solver.
Qed.

End FreeAll.

Section PmallocInstance.
Import Pmalloc PmallocInv.

(** [pmalloc(1)] with 0 as "no memory", and [pfree(addr, 1)]. *)
Definition page_alloc (s : state) : option Z * state :=
  match pmalloc 1 s with
  | Some (addr, s') => if addr =? 0 then (None, s) else (Some addr, s')
  | None => (None, s)
  end.

(** Pages are the blocks of order 0. *)
Definition page_held (s : state) (p : Z) : Prop := allocated s p 0.

Lemma page_alloc_ok s : wf s ->
  match page_alloc s with
  | (None, s') => s' = s
  | (Some p, s') => wf s' /\ 0 < p /\ ~ page_held s p /\
      forall q, page_held s' q <-> page_held s q \/ q = p
  end.
Proof.
  intros Hwf. unfold page_alloc. destruct (pmalloc_spec s 1 Hwf ltac:(lia)) as (addr & s' & -> & Hwf' & Hc).
  destruct Hc as [(-> & -> & _)|(Hpos & _ & (k & Hf & Hk) & Hal & _)]; [done|].
  replace (addr =? 0) with false by lia. change (size_to_index 1) with 0 in *. split_and!; [done|done| |].
  - intros Ha. destruct (live_blocks_disjoint s addr 0 addr k Hwf Ha ltac:(by right)) as [Hd|Hd].
    + unfold PAGE_SIZE in Hd. simpl in Hd. lia.
    + pose proof (pow2_pos k ltac:(lia)). unfold PAGE_SIZE in Hd. lia.
  - intros q. unfold page_held. rewrite Hal. naive_solver.
Qed.

Lemma page_free_ok s p : wf s -> page_held s p ->
  exists s', pfree p 1 s = Some s' /\ wf s' /\ forall q, page_held s' q <-> page_held s q /\ q <> p.
Proof.
  intros Hwf Hp. destruct (pfree_spec s p 1 Hwf ltac:(lia) Hp) as (s' & ? & ? & Hf & Hwf' & Hal & _).
  exists s'. split_and!; [done|done|]. intros q. apply Hal.
Qed.

Lemma page_held_page s p : wf s -> page_held s p -> (PAGE_SIZE | p) /\ 0 < p < 2 ^ 52.
Proof.
  intros [_ [B I]] Hp. apply (allocated_iff s B) in Hp as (b & i & HB & ->); [|done].
  destruct (block_page _ _ _ _ _ _ _ I HB) as (r & q & Hr & Hro & _ & _ & _ & Hi & Hic & _).
  destruct Hro as [_ [m ->] ? ? Hlim]. unfold PAGE_SIZE in *. rewrite Z.div_mul in Hlim by lia. simpl in Hic.
  split; [exists (m + i); lia|lia].
Qed.

#[global] Instance pmalloc_pages : PageAlloc state := {
  pa_alloc := page_alloc;
  pa_free := fun p s => pfree p 1 s;
  pa_ok := wf;
  pa_held := page_held;
  pa_alloc_ok := page_alloc_ok;
  pa_free_ok := page_free_ok;
  pa_page := page_held_page
}.

End PmallocInstance.
