(* ===== verification/PageLimit.v ===== *)
(** * Pages below a limit

    The direct map of the kernel covers the memory that the boot loader has
    reported, not all 52 bits of a physical address.  [pmalloc] and [pfree] never
    change the regions, so a buddy allocator whose regions end below a limit is a
    page allocator that hands out pages below the limit. *)

From S2P Require Import Prelude Bits Pmalloc PmallocRun PageAlloc.

Module PageLimit.
Import Pmalloc PmallocInv.

Lemma update_page_regions q f s s' : update_page q f s = Some s' -> regions s' = regions s.
Proof. unfold update_page. destruct (pages s !! q); [|done]. by intros [= <-]. Qed.

Lemma fl_push_regions i q s s' : fl_push i q s = Some s' -> regions s' = regions s.
Proof. unfold fl_push. destruct (freelists s !! _); [|done]. by intros [= <-]. Qed.

Lemma fl_remove_regions i q s s' : fl_remove i q s = Some s' -> regions s' = regions s.
Proof.
  unfold fl_remove. destruct (freelists s !! _) as [l|]; [|done]. cbn [mbind option_bind].
  destruct (list_remove q l); [|done]. by intros [= <-].
Qed.

Lemma fl_pop_regions i s o s' : fl_pop i s = Some (o, s') -> regions s' = regions s.
Proof.
  unfold fl_pop. destruct (freelists s !! _) as [l|]; [|done]. cbn [mbind option_bind].
  destruct (last l); by intros [= <- <-].
Qed.

(** One step of a chain of operations in [H]. *)
Ltac step H lem s1 E :=
  match type of H with
  | mbind _ ?e = Some _ => destruct e as [s1|] eqn:E; [cbn [mbind option_bind] in H; apply lem in E|discriminate H]
  end.

Ltac unbind_all H :=
  repeat match type of H with
  | mbind _ ?e = Some _ => destruct e; [cbn [mbind option_bind] in H|discriminate H]
  end.

Lemma merge_loop_regions fuel : forall new_i final_i page s r,
  merge_loop fuel new_i final_i page s = Some r -> regions r.2 = regions s.
Proof.
  induction fuel as [|fuel IH]; intros new_i final_i page s r H; cbn [merge_loop] in H;
    (destruct (new_i <? _); [|by injection H as <-]);
    (destruct (pages s !! page) as [p|]; [|discriminate H]; cbn [mbind option_bind] in H);
    (destruct (regions s !! region p) as [rg|]; [|discriminate H]; cbn [mbind option_bind] in H; cbv zeta in H);
    (destruct (_ >=? _); [by injection H as <-|]);
    (destruct (pages s !! _) as [b|]; [|discriminate H]; cbn [mbind option_bind] in H);
    (destruct (_ && _); [|by injection H as <-]).
  - unbind_all H. discriminate H.
  - assert (Hs : exists s1, (if in_list b then s ← fl_remove (list_index b) (region p, buddy_of rg p new_i) s;
      update_page (region p, buddy_of rg p new_i) (set_in_list false) s else Some s) = Some s1 /\ regions s1 = regions s).
    { destruct (in_list b); [|by exists s]. destruct (fl_remove _ _ s) as [s1|] eqn:E1; [|discriminate H].
      cbn [mbind option_bind] in H |- *. apply fl_remove_regions in E1.
      destruct (update_page _ _ s1) as [s2|] eqn:E2; [|discriminate H]. apply update_page_regions in E2. exists s2. split; [done|congruence]. }
    destruct Hs as (s1 & Hs1 & Er). rewrite Hs1 in H. cbn [mbind option_bind] in H. step H update_page_regions s2 E2.
    apply IH in H. congruence.
Qed.

Lemma freelist_insert_regions i q s s' : freelist_insert i q s = Some s' -> regions s' = regions s.
Proof.
  unfold freelist_insert. intros H. step H update_page_regions s1 E1. step H merge_loop_regions x E2. destruct x as [[fi pg] s2].
  cbn [snd] in E2. step H update_page_regions s3 E3. apply fl_push_regions in H. congruence.
Qed.

Lemma split_loop_regions fuel : forall i index reg n s s', split_loop fuel i index reg n s = Some s' -> regions s' = regions s.
Proof.
  induction fuel as [|fuel IH]; intros i index reg n s s' H; cbn [split_loop] in H;
    (destruct (index <? i); [|by injection H as <-]); cbv zeta in H; step H update_page_regions s1 E1;
    step H fl_push_regions s2 E2; step H update_page_regions s3 E3; [discriminate H|]. apply IH in H. congruence.
Qed.

Lemma get_loop_regions fuel : forall new_i index s o s', get_loop fuel new_i index s = Some (o, s') -> regions s' = regions s.
Proof.
  induction fuel as [|fuel IH]; intros new_i index s o s' H; cbn [get_loop] in H;
    (destruct (new_i <? _); [|by injection H as <- <-]);
    (destruct (fl_pop new_i s) as [[pop s1]|] eqn:E1; [|discriminate H]; cbn [mbind option_bind] in H; apply fl_pop_regions in E1);
    (destruct pop as [page|];
      [step H update_page_regions s2 E2; destruct (pages s2 !! page) as [p|]; [|discriminate H]; cbn [mbind option_bind] in H;
       destruct (regions s2 !! _) as [rg|]; [|discriminate H]; cbn [mbind option_bind] in H; step H split_loop_regions s3 E3;
       injection H as <- <-; congruence|]); [discriminate H|]. apply IH in H. congruence.
Qed.

Lemma pmalloc_regions count s addr s' : pmalloc count s = Some (addr, s') -> regions s' = regions s.
Proof.
  unfold pmalloc, freelist_get. destruct (count =? 0); [by intros [= _ <-]|]. intros H.
  destruct (fl_pop (size_to_index count) s) as [[pop s1]|] eqn:E1; [|discriminate H]. cbn [mbind option_bind] in H. apply fl_pop_regions in E1.
  assert (Hg : exists o s2, match pop with
    | Some page => s ← update_page page (fun p => set_in_list false (set_used true p)) s1; Some (Some page, s)
    | None => if size_to_index count =? FREELIST_COUNT - 1 then Some (None, s1)
              else get_loop 14 (size_to_index count + 1) (size_to_index count) s1
    end = Some (o, s2) /\ regions s2 = regions s1).
  { destruct pop as [page|].
    - destruct (update_page _ _ s1) as [s2|] eqn:E2; [|discriminate H]. apply update_page_regions in E2. by eexists _, s2.
    - destruct (_ =? _); [by eexists _, s1|]. destruct (get_loop _ _ _ s1) as [[o s2]|] eqn:E2; [|discriminate H].
      apply get_loop_regions in E2. by exists o, s2. }
  destruct Hg as (o & s2 & Hg & Er). rewrite Hg in H. cbn [mbind option_bind] in H.
  destruct o as [q|]; [destruct (pages s2 !! q) as [p|]; [|discriminate H]|]; injection H as _ <-; cbn; congruence.
Qed.

Lemma pfree_regions addr count s s' : pfree addr count s = Some s' -> regions s' = regions s.
Proof.
  unfold pfree. intros H. unbind_all H. by apply freelist_insert_regions in H.
Qed.

(** ** The instance *)

Section Limit.
Context (limit : Z).

Definition below (s : state) : Prop :=
  forall b r, regions s !! b = Some r -> b + page_count r * PAGE_SIZE <= limit.

Definition low_ok (s : state) : Prop := wf s /\ below s.

Lemma low_alloc_ok s : low_ok s ->
  match page_alloc s with
  | (None, s') => s' = s
  | (Some p, s') => low_ok s' /\ 0 < p /\ ~ page_held s p /\
      forall q, page_held s' q <-> page_held s q \/ q = p
  end.
Proof.
  intros [Hw Hb]. pose proof (page_alloc_ok s Hw) as H. unfold page_alloc in *.
  destruct (pmalloc 1 s) as [[addr s']|] eqn:E; [|done]. destruct (addr =? 0); [done|]. destruct H as (Hw' & H).
  split; [|done]. split; [done|]. intros b r Hr. apply (Hb b r). by rewrite <- (pmalloc_regions _ _ _ _ E).
Qed.

Lemma low_free_ok s p : low_ok s -> page_held s p ->
  exists s', pfree p 1 s = Some s' /\ low_ok s' /\ forall q, page_held s' q <-> page_held s q /\ q <> p.
Proof.
  intros [Hw Hb] Hp. destruct (page_free_ok s p Hw Hp) as (s' & E & Hw' & Hh). exists s'. split; [done|]. split; [|done].
  split; [done|]. intros b r Hr. apply (Hb b r). by rewrite <- (pfree_regions _ _ _ _ E).
Qed.

Lemma low_page s p : low_ok s -> page_held s p -> (PAGE_SIZE | p) /\ 0 < p < 2 ^ 52.
Proof. intros [Hw _]. by apply page_held_page. Qed.

Definition low_pages : PageAlloc state := {|
  pa_alloc := page_alloc;
  pa_free := fun p s => pfree p 1 s;
  pa_ok := low_ok;
  pa_held := page_held;
  pa_alloc_ok := low_alloc_ok;
  pa_free_ok := low_free_ok;
  pa_page := low_page
|}.

Lemma low_end s p : pa_ok (PageAlloc := low_pages) s -> pa_held (PageAlloc := low_pages) s p -> p + PAGE_SIZE <= limit.
Proof.
  intros [[_ [B I]] Hb] Hp. apply (allocated_iff s B) in Hp as (b & i & HB & ->); [|done].
  destruct (block_page _ _ _ _ _ _ _ I HB) as (r & q & Hr & _ & _ & _ & _ & _ & Hic & _). simpl in Hic.
  pose proof (Hb b r Hr). unfold PAGE_SIZE in *. lia.
Qed.

End Limit.
End PageLimit.
