(* ===== verification/VMem.v ===== *)
(** * The virtual address allocator (src/src/mem/vmem.cpp, vmem.hpp)

    [VMem] cuts an address range into segments.  A segment pointer is the page
    and the slot of its record; [segs] is the memory of the records, and the
    intrusive lists are sequences of pointers (DoubleList.v).  [seg_list] holds
    the span and the segments in address order, [freelists] the free segments by
    the logarithm of their size and [hash_tab] the used ones by a hash of their
    base.  Pages for records come from any [PageAlloc].  [None] is a failed
    assertion or a wild pointer.  The code unlinks merged segments from [seg_list]
    by hand without moving the list's end pointer, which only [push] in [init]
    reads, so the sequence of segments is all that matters.  The lock makes the operations atomic. *)

From S2P Require Import Prelude Bits PageAlloc.

Module VMem.

Definition FREELIST_COUNT : Z := 64.
Definition HASHTAB_COUNT : Z := 16.

Inductive seg_type := Free | Used | Span.

#[global] Instance seg_type_dec : EqDecision seg_type.
Proof. solve_decision. Defined.

Record Segment := mkSeg { base : Z; size : Z; type : seg_type }.

Record vmem := mkVMem {
  segs : gmap (Z * Z) Segment;
  freelists : list (list (Z * Z));
  seg_list : list (Z * Z);
  hash_tab : list (list (Z * Z));
  free_segs : list (Z * Z);
  seg_page_list : list Z;
  _base : Z;
  _size : Z;
  _quantum : Z
}.

Definition empty_vmem : vmem := mkVMem ∅ (replicate 64 []) [] (replicate 16 []) [] [] 0 0 0.

Definition with_segs (m : gmap (Z * Z) Segment) (v : vmem) : vmem :=
  mkVMem m (freelists v) (seg_list v) (hash_tab v) (free_segs v) (seg_page_list v)
    (_base v) (_size v) (_quantum v).
Definition with_freelists (f : list (list (Z * Z))) (v : vmem) : vmem :=
  mkVMem (segs v) f (seg_list v) (hash_tab v) (free_segs v) (seg_page_list v)
    (_base v) (_size v) (_quantum v).
Definition with_seg_list (l : list (Z * Z)) (v : vmem) : vmem :=
  mkVMem (segs v) (freelists v) l (hash_tab v) (free_segs v) (seg_page_list v)
    (_base v) (_size v) (_quantum v).
Definition with_hash_tab (h : list (list (Z * Z))) (v : vmem) : vmem :=
  mkVMem (segs v) (freelists v) (seg_list v) h (free_segs v) (seg_page_list v)
    (_base v) (_size v) (_quantum v).
Definition with_free_segs (f : list (Z * Z)) (ps : list Z) (v : vmem) : vmem :=
  mkVMem (segs v) (freelists v) (seg_list v) (hash_tab v) f ps (_base v) (_size v) (_quantum v).

Definition murmur64 (key : Z) : Z :=
  let key := Z.lxor key (Z.shiftr key 33) in
  let key := u64 (key * 0xFF51AFD7ED558CCD) in
  let key := Z.lxor key (Z.shiftr key 33) in
  let key := u64 (key * 0xC4CEB9FE1A85EC53) in
  Z.lxor key (Z.shiftr key 33).

Definition size_to_index (size : Z) : Z := u32 (FREELIST_COUNT - countl_zero 64 size - 1).

(** Writes to a record. *)
Definition set_seg (p : Z * Z) (s : Segment) (v : vmem) : vmem := with_segs (<[p := s]> (segs v)) v.

(** List operations on one of an array of lists. *)
Definition push_front_at (i : Z) (p : Z * Z) (ls : list (list (Z * Z))) : option (list (list (Z * Z))) :=
  l ← ls !! Z.to_nat i; Some (<[Z.to_nat i := p :: l]> ls).
Definition remove_at (i : Z) (p : Z * Z) (ls : list (list (Z * Z))) : option (list (list (Z * Z))) :=
  l ← ls !! Z.to_nat i; l' ← list_remove p l; Some (<[Z.to_nat i := l']> ls).

(** The neighbours in [seg_list]. *)
Fixpoint prev_of (p : Z * Z) (l : list (Z * Z)) : option (Z * Z) :=
  match l with
  | a :: ((b :: _) as l') => if decide (b = p) then Some a else prev_of p l'
  | _ => None
  end.
Fixpoint next_of (p : Z * Z) (l : list (Z * Z)) : option (Z * Z) :=
  match l with
  | a :: ((b :: _) as l') => if decide (a = p) then Some b else next_of p l'
  | _ => None
  end.
Fixpoint insert_before (p q : Z * Z) (l : list (Z * Z)) : list (Z * Z) :=
  match l with
  | [] => []
  | a :: l => if decide (a = p) then q :: a :: l else a :: insert_before p q l
  end.

(** ** Segment records *)

Section WithPages.
Context {A : Type} `{PageAlloc A}.

(** [PAGE_SIZE / sizeof(Segment)]: two hooks, two words and the type. *)
Definition SEGS_PER_PAGE : Z := PAGE_SIZE / 56.

(** The free list after the loop over a new page: its slots, the last first. *)
Definition page_slots (page : Z) : list (Z * Z) :=
  map (fun i => (page, Z.of_nat i)) (rev (seq 1 (Z.to_nat SEGS_PER_PAGE - 1))).

Definition seg_alloc (v : vmem) (a : A) : option (Z * Z) * vmem * A :=
  match free_segs v with
  | seg :: rest => (Some seg, with_free_segs rest (seg_page_list v) v, a)
  | [] =>
      match pa_alloc a with
      | (None, a) => (None, v, a)
      | (Some page, a) =>
          match page_slots page with
          | seg :: rest => (Some seg, with_free_segs rest (page :: seg_page_list v) v, a)
          | [] => (None, v, a)
          end
      end
  end.

Definition seg_free (seg : Z * Z) (v : vmem) : vmem :=
  with_free_segs (seg :: free_segs v) (seg_page_list v) v.

(** ** The lists *)

Definition freelist_remove (seg : Z * Z) (v : vmem) : option vmem :=
  s ← segs v !! seg;
  f ← remove_at (size_to_index (size s)) seg (freelists v);
  Some (with_freelists f v).

Definition freelist_insert_no_merge (seg : Z * Z) (v : vmem) : option vmem :=
  s ← segs v !! seg;
  _ ← assert (negb (size s =? 0));
  f ← push_front_at (size_to_index (size s)) seg (freelists v);
  Some (with_freelists f (set_seg seg (mkSeg (base s) (size s) Free) v)).

(** A neighbour that is free and adjacent. *)
Definition mergeable (lo hi : Segment) (nb : Segment) : bool :=
  bool_decide (type nb = Free) && (base lo ⊞ size lo =? base hi).

Fixpoint insert_loop (fuel : nat) (seg : Z * Z) (v : vmem) : option vmem :=
  match fuel with
  | O => None
  | S fuel =>
      s ← segs v !! seg;
      let try_next :=
        match next_of seg (seg_list v) with
        | Some next =>
            n ← segs v !! next;
            if mergeable s n n then
              l ← list_remove next (seg_list v);
              v ← freelist_remove next (with_seg_list l v);
              let v := set_seg seg (mkSeg (base s) (size s ⊞ size n) (type s)) v in
              insert_loop fuel seg (seg_free next v)
            else freelist_insert_no_merge seg v
        | None => freelist_insert_no_merge seg v
        end in
      match prev_of seg (seg_list v) with
      | Some prev =>
          p ← segs v !! prev;
          if mergeable p s p then
            l ← list_remove seg (seg_list v);
            v ← freelist_remove prev (with_seg_list l v);
            let v := set_seg prev (mkSeg (base p) (size p ⊞ size s) (type p)) v in
            insert_loop fuel prev (seg_free seg v)
          else try_next
      | None => try_next
      end
  end.

Definition freelist_insert (seg : Z * Z) (v : vmem) : option vmem :=
  s ← segs v !! seg;
  _ ← assert (negb (size s =? 0));
  insert_loop (S (length (seg_list v))) seg v.

Definition hashtab_insert (seg : Z * Z) (v : vmem) : option vmem :=
  s ← segs v !! seg;
  h ← push_front_at (murmur64 (base s) mod HASHTAB_COUNT) seg (hash_tab v);
  Some (with_hash_tab h (set_seg seg (mkSeg (base s) (size s) Used) v)).

(** The first entry of the bucket with the base; [Some None] when there is none. *)
Fixpoint find_base (key : Z) (l : list (Z * Z)) (v : vmem) : option (option (Z * Z)) :=
  match l with
  | [] => Some None
  | e :: l => s ← segs v !! e; if base s =? key then Some (Some e) else find_base key l v
  end.
Definition hashtab_remove (key : Z) (v : vmem) : option (option (Z * Z) * vmem) :=
  let i := murmur64 key mod HASHTAB_COUNT in
  l ← hash_tab v !! Z.to_nat i;
  e ← find_base key l v;
  match e with
  | None => Some (None, v)
  | Some e => h ← remove_at i e (hash_tab v); Some (Some e, with_hash_tab h v)
  end.

(** ** init, destroy *)

Definition init (base size quantum : Z) (v : vmem) (a : A) : option (vmem * A) :=
  let v := mkVMem (segs v) (freelists v) (seg_list v) (hash_tab v) (free_segs v) (seg_page_list v)
             base size quantum in
  let '(span, v, a) := seg_alloc v a in
  span ← span;
  let v := set_seg span (mkSeg base size Span) v in
  let '(ini, v, a) := seg_alloc v a in
  ini ← ini;
  let v := set_seg ini (mkSeg base size Free) v in
  let v := with_seg_list (seg_list v ++ [span] ++ [ini]) v in
  l ← freelists v !! Z.to_nat (size_to_index size);
  Some (with_freelists (<[Z.to_nat (size_to_index size) := l ++ [ini]]> (freelists v)) v, a).

Definition destroy (assert_allocations : bool) (v : vmem) (a : A) : option (vmem * A) :=
  a ← pa_free_all (seg_page_list v) a;
  _ ← assert (negb assert_allocations || forallb (fun l => bool_decide (l = [])) (hash_tab v));
  Some (mkVMem (segs v) (replicate 64 []) [] (hash_tab v) [] [] (_base v) (_size v) (_quantum v), a).

(** ** xalloc *)

(** The parts of the lambda [seg_fit].  [seg] has been popped from the list [i]
    or is still in it; it goes back, or is removed. *)
Definition seg_fit_undo (seg : Z * Z) (i : Z) (popped : bool) (v : vmem) (a : A)
    : option (Z * vmem * A) :=
  if popped then f ← push_front_at i seg (freelists v); Some (0, with_freelists f v, a)
  else Some (0, v, a).

Definition seg_fit_unlink (seg : Z * Z) (i : Z) (popped : bool) (v : vmem) : option vmem :=
  if popped then Some v else f ← remove_at i seg (freelists v); Some (with_freelists f v).

(** From the removal to the end: [s] starts where the allocation shall start. *)
Definition seg_fit_place (sz : Z) (seg : Z * Z) (i : Z) (popped : bool) (alloc_seg : Z * Z)
    (s : Segment) (v : vmem) (a : A) : option (Z * vmem * A) :=
  v ← seg_fit_unlink seg i popped v;
  if size s =? sz then
    v ← hashtab_insert seg (seg_free alloc_seg v);
    Some (base s, v, a)
  else
    let v := set_seg alloc_seg (mkSeg (base s) sz Used) v in
    let v := with_seg_list (insert_before seg alloc_seg (seg_list v)) v in
    let v := set_seg seg (mkSeg (base s ⊞ sz) (size s ⊟ sz) (type s)) v in
    v ← freelist_insert seg v;
    v ← hashtab_insert alloc_seg v;
    Some (base s, v, a).

(** The address is 0 when the segment does not fit. *)
Definition seg_fit (sz min max : Z) (seg : Z * Z) (i : Z) (popped : bool) (v : vmem) (a : A)
    : option (Z * vmem * A) :=
  s ← segs v !! seg;
  let start := Z.max (base s) min in
  let end_ := Z.min (base s ⊞ size s) max in
  if (start >? end_) || (end_ ⊟ start <? sz) then seg_fit_undo seg i popped v a
  else if size s =? sz then
    v ← seg_fit_unlink seg i popped v;
    v ← hashtab_insert seg v;
    Some (base s, v, a)
  else
    let '(alloc_seg, v, a) := seg_alloc v a in
    match alloc_seg with
    | None => seg_fit_undo seg i popped v a
    | Some alloc_seg =>
        if negb (start =? base s) then
          let '(new_seg, v, a) := seg_alloc v a in
          match new_seg with
          | None => '(r, v, a) ← seg_fit_undo seg i popped v a; Some (r, seg_free alloc_seg v, a)
          | Some new_seg =>
              let v := set_seg new_seg (mkSeg (base s) (start ⊟ base s) Free) v in
              let v := with_seg_list (insert_before seg new_seg (seg_list v)) v in
              let s' := mkSeg start (size s ⊟ (start ⊟ base s)) (type s) in
              let v := set_seg seg s' v in
              v ← freelist_insert_no_merge new_seg v;
              seg_fit_place sz seg i popped alloc_seg s' v a
          end
        else seg_fit_place sz seg i popped alloc_seg s v a
    end.

(** The loop over the segments of one list, none popped. *)
Fixpoint fit_others (sz min max i : Z) (l : list (Z * Z)) (v : vmem) (a : A) : option (Z * vmem * A) :=
  match l with
  | [] => Some (0, v, a)
  | seg :: l =>
      s ← segs v !! seg;
      if size s >=? sz then
        '(addr, v, a) ← seg_fit sz min max seg i false v a;
        if negb (addr =? 0) then Some (addr, v, a) else fit_others sz min max i l v a
      else fit_others sz min max i l v a
  end.

(** [for (usize i = index; i < FREELIST_COUNT; ++i)]; [has_min_max] is true
    because [max] is never 0 there. *)
Fixpoint alloc_loop (fuel : nat) (sz min max i : Z) (v : vmem) (a : A) : option (Z * vmem * A) :=
  if i <? FREELIST_COUNT then
    match fuel with
    | O => None
    | S fuel =>
        l ← freelists v !! Z.to_nat i;
        match l with
        | [] => alloc_loop fuel sz min max (i + 1) v a
        | seg :: rest =>
            s ← segs v !! seg;
            '(addr, v, a) ←
              (if size s >=? sz then
                 seg_fit sz min max seg i true (with_freelists (<[Z.to_nat i := rest]> (freelists v)) v) a
               else fit_others sz min max i l v a);
            if negb (addr =? 0) then Some (addr, v, a) else alloc_loop fuel sz min max (i + 1) v a
        end
    end
  else Some (0, v, a).

Definition xalloc (sz min max : Z) (v : vmem) (a : A) : option (Z * vmem * A) :=
  let sz := ALIGNUP sz (_quantum v) in
  let max := if max =? 0 then 2 ^ 64 - 1 else if max =? min then min ⊞ sz else max in
  alloc_loop 65 sz min max (size_to_index sz) v a.

Definition xfree (ptr sz : Z) (v : vmem) : option vmem :=
  '(seg, v) ← hashtab_remove ptr v;
  match seg with
  | None => Some v
  | Some seg =>
      s ← segs v !! seg;
      _ ← assert (size s =? ALIGNUP sz (_quantum v));
      freelist_insert seg v
  end.

End WithPages.

End VMem.
