(* ===== verification/VMemInv.v ===== *)
(** * Correctness of the virtual address allocator

    The invariant of VMem.v: the segments of [seg_list] tile the managed range in
    order, no two neighbours are both free, and the free lists and the hash table
    hold exactly the free and the used segments in their buckets.  The proofs
    follow a ghost view [w] of the segment list; a segment that an operation has
    taken out of its list is in limbo ([X]) and counts as used in the view. *)

From S2P Require Import Prelude Bits PageAlloc VMem.

Module VMemInv.
Import VMem.

(** ** Lists of pointers *)

Lemma prev_of_app p a l1 l2 : p ∉ l1 -> prev_of p ((a :: l1) ++ p :: l2) = last (a :: l1).
Proof.
  revert a. induction l1 as [|b l1 IH]; intros a Hp; simpl.
  - by rewrite decide_True.
  - rewrite not_elem_of_cons in Hp. destruct Hp as [Hne Hp]. rewrite decide_False by done.
    by apply (IH b).
Qed.

Lemma next_of_app p l1 l2 : p ∉ l1 -> next_of p (l1 ++ p :: l2) = head l2.
Proof.
  induction l1 as [|a l1 IH]; intros Hp.
  - destruct l2; simpl; [done|]. by rewrite decide_True.
  - rewrite not_elem_of_cons in Hp. destruct Hp as [Hne Hp]. simpl.
    destruct (l1 ++ p :: l2) as [|b l] eqn:E; [by destruct l1|].
    rewrite decide_False by done. by apply IH.
Qed.

Lemma list_remove_app {A} `{EqDecision A} (p : A) l1 l2 : p ∉ l1 ->
  list_remove p (l1 ++ p :: l2) = Some (l1 ++ l2).
Proof.
  induction l1 as [|a l1 IH]; intros Hp; simpl; [by rewrite decide_True|].
  rewrite not_elem_of_cons in Hp. destruct Hp as [Hne Hp]. rewrite decide_False by done.
  by rewrite IH.
Qed.

Lemma insert_before_app p q l1 l2 : p ∉ l1 ->
  insert_before p q (l1 ++ p :: l2) = l1 ++ q :: p :: l2.
Proof.
  induction l1 as [|a l1 IH]; intros Hp; simpl; [by rewrite decide_True|].
  rewrite not_elem_of_cons in Hp. destruct Hp as [Hne Hp]. rewrite decide_False by done.
  by rewrite IH.
Qed.

(** ** Buckets

    An array of lists holds the pointers of a ghost map in the bucket it gives. *)

Definition buckets (ls : list (list (Z * Z))) (n : Z) (B : gmap (Z * Z) Z) : Prop :=
  Z.of_nat (length ls) = n /\ (forall p i, B !! p = Some i -> 0 <= i < n) /\
  forall i l, ls !! i = Some l -> NoDup l /\ forall p, p ∈ l <-> B !! p = Some (Z.of_nat i).

Lemma buckets_lookup ls n B i : buckets ls n B -> 0 <= i < n ->
  exists l, ls !! Z.to_nat i = Some l /\ NoDup l /\ forall p, p ∈ l <-> B !! p = Some i.
Proof.
  intros (Hl & _ & Hb) Hi. destruct (lookup_lt_is_Some_2 ls (Z.to_nat i)) as [l Hli]; [lia|].
  exists l. destruct (Hb _ _ Hli) as [Hn Hp]. rewrite Z2Nat.id in Hp by lia. done.
Qed.

Lemma buckets_set ls n B B' i l' : buckets ls n B -> 0 <= i < n -> NoDup l' ->
  (forall p, p ∈ l' <-> B' !! p = Some i) ->
  (forall p j, j <> i -> B' !! p = Some j <-> B !! p = Some j) ->
  buckets (<[Z.to_nat i := l']> ls) n B'.
Proof.
  intros (Hl & Hr & Hb) Hi Hn Hp Ho. split_and!.
  - by rewrite length_insert.
  - intros p j Hj. destruct (decide (j = i)) as [->|]; [done|]. eapply Hr, Ho; eauto.
  - intros j l Hj. destruct (decide (j = Z.to_nat i)) as [->|].
    + rewrite list_lookup_insert_eq in Hj by lia. simplify_eq. by rewrite Z2Nat.id by lia.
    + rewrite list_lookup_insert_ne in Hj by done. destruct (Hb _ _ Hj) as [? Hpj]. split; [done|].
      intros p. rewrite Hpj. symmetry. apply Ho. lia.
Qed.

Lemma push_front_ok ls n B i p : buckets ls n B -> 0 <= i < n -> B !! p = None ->
  exists ls', push_front_at i p ls = Some ls' /\ buckets ls' n (<[p := i]> B).
Proof.
  intros Hb Hi Hp. destruct (buckets_lookup _ _ _ _ Hb Hi) as (l & Hl & Hn & Hin).
  unfold push_front_at. rewrite Hl. simpl. eexists. split; [done|].
  apply (buckets_set _ _ B); [done|done|..].
  - constructor; [|done]. rewrite Hin. congruence.
  - intros q. rewrite elem_of_cons, Hin. destruct (decide (q = p)) as [->|].
    + rewrite lookup_insert_eq. naive_solver.
    + rewrite lookup_insert_ne by done. naive_solver.
  - intros q j Hj. destruct (decide (q = p)) as [->|].
    + rewrite lookup_insert_eq, Hp. split; congruence.
    + by rewrite lookup_insert_ne.
Qed.

Lemma remove_at_ok ls n B i p : buckets ls n B -> B !! p = Some i ->
  exists ls', remove_at i p ls = Some ls' /\ buckets ls' n (delete p B).
Proof.
  intros Hb Hp. pose proof Hb as (_ & Hr & _). specialize (Hr _ _ Hp).
  destruct (buckets_lookup _ _ _ _ Hb Hr) as (l & Hl & Hn & Hin).
  unfold remove_at. rewrite Hl. simpl.
  destruct (list_remove_elem p l) as (l' & -> & Hn' & Hin'); [by apply Hin|done|]. simpl.
  eexists. split; [done|]. apply (buckets_set _ _ B); [done|done|done|..].
  - intros q. rewrite Hin', Hin. destruct (decide (q = p)) as [->|].
    + rewrite lookup_delete_eq. naive_solver.
    + rewrite lookup_delete_ne by done. naive_solver.
  - intros q j Hj. destruct (decide (q = p)) as [->|].
    + rewrite lookup_delete_eq. split; congruence.
    + by rewrite lookup_delete_ne.
Qed.

Lemma pop_front_ok ls n B i p l : buckets ls n B -> 0 <= i -> ls !! Z.to_nat i = Some (p :: l) ->
  B !! p = Some i /\ buckets (<[Z.to_nat i := l]> ls) n (delete p B).
Proof.
  intros Hb Hi Hl. pose proof Hb as (Hlen & _ & Hbb). destruct (Hbb _ _ Hl) as [Hn Hin].
  apply NoDup_cons in Hn as [Hpl Hn]. rewrite Z2Nat.id in Hin by done.
  apply lookup_lt_Some in Hl. split; [apply Hin; left|].
  apply (buckets_set _ _ B); [done|lia|done|..].
  - intros q. destruct (decide (q = p)) as [->|].
    + rewrite lookup_delete_eq. split; [done|congruence].
    + rewrite lookup_delete_ne by done. rewrite <- Hin, elem_of_cons. naive_solver.
  - intros q j Hj. destruct (decide (q = p)) as [->|].
    + rewrite lookup_delete_eq. split; [congruence|]. intros Hq.
      assert (B !! p = Some i) by (apply Hin; left). congruence.
    + by rewrite lookup_delete_ne.
Qed.

(** ** The invariant *)

Fixpoint tiles (b e : Z) (ss : list Segment) : Prop :=
  match ss with
  | [] => b = e
  | s :: ss => base s = b /\ 0 < size s /\ type s <> Span /\ tiles (b + size s) e ss
  end.

(** No two neighbours are both free. *)
Fixpoint no_adj (ss : list Segment) : Prop :=
  match ss with
  | a :: ((b :: _) as ss') => (type a <> Free \/ type b <> Free) /\ no_adj ss'
  | _ => True
  end.

Definition seg_hash (s : Segment) : Z := murmur64 (base s) mod HASHTAB_COUNT.

Record inv (v : vmem) (w : list ((Z * Z) * Segment)) (FB HB : gmap (Z * Z) Z)
    (X : option (Z * Z)) : Prop := {
  i_span : exists span b n, seg_list v = span :: w.*1 /\ segs v !! span = Some (mkSeg b n Span);
  i_nodup : NoDup (seg_list v ++ free_segs v);
  i_segs : forall p s, (p, s) ∈ w -> exists t, segs v !! p = Some (mkSeg (base s) (size s) t) /\
    (X <> Some p -> t = type s);
  i_limbo : forall p s, X = Some p -> (p, s) ∈ w -> type s = Used;
  i_tiles : tiles (_base v) (_base v + _size v) w.*2;
  i_adj : no_adj w.*2;
  i_range : 0 < _base v /\ 0 <= _size v /\ _base v + _size v < 2 ^ 64;
  i_fl : buckets (freelists v) FREELIST_COUNT FB;
  i_ht : buckets (hash_tab v) HASHTAB_COUNT HB;
  i_fb : forall p i, X <> Some p ->
    FB !! p = Some i <-> exists s, (p, s) ∈ w /\ type s = Free /\ i = Z.log2 (size s);
  i_hb : forall p i, HB !! p = Some i <->
    X <> Some p /\ exists s, (p, s) ∈ w /\ type s = Used /\ i = seg_hash s
}.

(** ** Tilings *)

Lemma tiles_app b e l1 l2 : tiles b e (l1 ++ l2) <-> exists m, tiles b m l1 /\ tiles m e l2.
Proof.
  revert b. induction l1 as [|s l1 IH]; intros b; simpl.
  - split; [eauto|]. by intros (m & <- & ?).
  - rewrite IH. naive_solver.
Qed.

Lemma tiles_le b e l : tiles b e l -> b <= e.
Proof.
  revert b. induction l as [|s l IH]; intros b; simpl; [lia|]. intros (_ & ? & _ & Ht).
  specialize (IH _ Ht). lia.
Qed.

Lemma tiles_split b e l1 s l2 : tiles b e (l1 ++ s :: l2) ->
  tiles b (base s) l1 /\ 0 < size s /\ type s <> Span /\ tiles (base s + size s) e l2.
Proof. rewrite tiles_app. simpl. intros (m & ? & <- & ? & ? & ?). done. Qed.

Lemma tiles_join b e l1 s l2 : tiles b (base s) l1 -> 0 < size s -> type s <> Span ->
  tiles (base s + size s) e l2 -> tiles b e (l1 ++ s :: l2).
Proof. intros. rewrite tiles_app. simpl. eauto 6. Qed.

Lemma no_adj_app l1 l2 : no_adj (l1 ++ l2) <-> no_adj l1 /\ no_adj l2 /\
  (forall a b, last l1 = Some a -> head l2 = Some b -> type a <> Free \/ type b <> Free).
Proof.
  induction l1 as [|a l1 IH]; simpl; [naive_solver|]. destruct l1 as [|b l1]; simpl in *.
  - destruct l2 as [|b l2]; simpl; naive_solver.
  - rewrite IH. naive_solver.
Qed.

(** ** Reading the view *)

Definition as_used (s : Segment) : Segment := mkSeg (base s) (size s) Used.
Definition as_free (s : Segment) : Segment := mkSeg (base s) (size s) Free.

(** What no list operation changes. *)
Definition same_frame (v v' : vmem) : Prop :=
  _base v' = _base v /\ _size v' = _size v /\ _quantum v' = _quantum v /\
  seg_page_list v' = seg_page_list v /\
  forall q, q ∈ seg_list v' ++ free_segs v' <-> q ∈ seg_list v ++ free_segs v.

Lemma same_frame_refl v : same_frame v v.
Proof. by split_and!. Qed.

Lemma same_frame_trans v1 v2 v3 : same_frame v1 v2 -> same_frame v2 v3 -> same_frame v1 v3.
Proof.
  intros (? & ? & ? & ? & F1) (? & ? & ? & ? & F2). split_and!; try congruence.
  intros q. by rewrite F2, F1.
Qed.

Lemma inv_nodup v w FB HB X : inv v w FB HB X -> NoDup w.*1 /\
  forall span b n, seg_list v = span :: w.*1 -> segs v !! span = Some (mkSeg b n Span) -> span ∉ w.*1.
Proof.
  intros I. destruct (i_span _ _ _ _ _ I) as (span & b & n & Hl & _).
  pose proof (i_nodup _ _ _ _ _ I) as Hn. rewrite Hl in Hn. simpl in Hn.
  apply NoDup_cons in Hn as [Hs Hn]. apply NoDup_app in Hn as (Hn & _ & _). split; [done|].
  intros span' b' n' Hl' _. rewrite Hl in Hl'. simplify_eq. set_solver.
Qed.

Lemma view_split v w1 p s w2 FB HB X : inv v (w1 ++ (p, s) :: w2) FB HB X ->
  p ∉ w1.*1 /\ p ∉ w2.*1 /\
  (forall q s', (q, s') ∈ w1 ++ (p, s) :: w2 -> q = p -> s' = s) /\
  (forall span b n, seg_list v = span :: (w1 ++ (p, s) :: w2).*1 ->
     segs v !! span = Some (mkSeg b n Span) -> span <> p).
Proof.
  intros I. destruct (inv_nodup _ _ _ _ _ I) as [Hn Hs]. rewrite fmap_app, fmap_cons in Hn, Hs.
  simpl in Hn, Hs. pose proof Hn as Hn'. apply NoDup_middle in Hn' as [Hp _].
  assert (p ∉ w1.*1 /\ p ∉ w2.*1) as [H1 H2] by set_solver. split_and!; [done|done| |].
  - intros q s' Hin ->. apply elem_of_app in Hin as [Hin|Hin].
    + exfalso. apply H1. by apply (list_elem_of_fmap_2 fst _ (p, s')).
    + apply elem_of_cons in Hin as [Hin|Hin]; [by simplify_eq|].
      exfalso. apply H2. by apply (list_elem_of_fmap_2 fst _ (p, s')).
  - intros span b n Hl Hsp ->. rewrite fmap_app, fmap_cons in Hl. eapply Hs; [done|done|]. set_solver.
Qed.

Lemma view_mem w1 (p : Z * Z) (s s' : Segment) w2 q t : q <> p ->
  (q, t) ∈ w1 ++ (p, s) :: w2 <-> (q, t) ∈ w1 ++ (p, s') :: w2.
Proof. intros Hne. rewrite !elem_of_app, !elem_of_cons. split; intros [?|[?|?]]; simplify_eq; tauto. Qed.

Lemma view_bounds v w FB HB X p s : inv v w FB HB X -> (p, s) ∈ w ->
  _base v <= base s /\ 0 < size s /\ base s + size s <= _base v + _size v /\ type s <> Span.
Proof.
  intros I Hin. apply list_elem_of_split in Hin as (w1 & w2 & ->).
  pose proof (i_tiles _ _ _ _ _ I) as Ht. rewrite fmap_app, fmap_cons in Ht.
  apply tiles_split in Ht as (H1 & H2 & H3 & H4). simpl in *.
  apply tiles_le in H1, H4. done.
Qed.

Lemma size_to_index_log2 n : 0 < n < 2 ^ 64 -> size_to_index n = Z.log2 n /\ 0 <= Z.log2 n < 64.
Proof.
  intros Hn. assert (Hl : 0 <= Z.log2 n < 64).
  { split; [apply Z.log2_nonneg|]. apply Z.log2_lt_pow2; lia. }
  split; [|done]. unfold size_to_index, FREELIST_COUNT. rewrite countl_zero_64 by lia.
  unfold u32. rewrite wrap_small by (unfold fits; lia). lia.
Qed.

Lemma seg_hash_bound s : 0 <= seg_hash s < HASHTAB_COUNT.
Proof. apply Z.mod_pos_bound. unfold HASHTAB_COUNT. lia. Qed.

(** Changing the type of one segment in the view. *)
Lemma tiles_retype b e l1 s s' l2 : base s' = base s -> size s' = size s -> type s' <> Span ->
  tiles b e (l1 ++ s :: l2) -> tiles b e (l1 ++ s' :: l2).
Proof.
  intros Hb Hs Ht Hti. apply tiles_split in Hti as (? & ? & ? & ?).
  apply tiles_join; rewrite ?Hb, ?Hs; done.
Qed.

Lemma no_adj_used l1 s l2 : no_adj (l1 ++ s :: l2) -> no_adj (l1 ++ as_used s :: l2).
Proof.
  rewrite !no_adj_app. intros (H1 & H2 & H3). split_and!; [done| |].
  - destruct l2 as [|b l2]; [done|]. simpl in *. split; [by left|tauto].
  - intros a b Ha Hb. simpl in Hb. simplify_eq. by right.
Qed.

(** A free segment goes into limbo. *)
Lemma take_limbo v w1 p s w2 FB HB : inv v (w1 ++ (p, s) :: w2) FB HB None -> type s = Free ->
  inv v (w1 ++ (p, as_used s) :: w2) FB HB (Some p) /\ FB !! p = Some (Z.log2 (size s)) /\ HB !! p = None.
Proof.
  intros I Hf. destruct (view_split _ _ _ _ _ _ _ _ I) as (H1 & H2 & Hu & Hsp).
  assert (HHB : HB !! p = None).
  { destruct (HB !! p) as [i|] eqn:E; [|done]. apply (i_hb _ _ _ _ _ I) in E as (_ & s' & Hin & Ht & _).
    rewrite (Hu p s' Hin eq_refl) in Ht. congruence. }
  split_and!; [|apply (i_fb _ _ _ _ _ I); [done|]; exists s; set_solver|done].
  destruct I as [Hspan Hn Hs Hl Ht Ha Hr Hfl Hht Hfb Hhb]. split; try done.
  - by rewrite fmap_app, fmap_cons in Hspan |- *.
  - intros q t Hin. destruct (decide (q = p)) as [->|Hne].
    + destruct (Hs p s) as (t' & Hseg & _); [set_solver|].
      assert (t = as_used s) as ->.
      { apply elem_of_app in Hin as [Hin|Hin]; [exfalso; apply H1; by apply (list_elem_of_fmap_2 fst _ (p, t))|].
        apply elem_of_cons in Hin as [Hin|Hin]; [by simplify_eq|].
        exfalso; apply H2; by apply (list_elem_of_fmap_2 fst _ (p, t)). }
      exists t'. split; [done|congruence].
    + apply (view_mem _ _ _ s) in Hin; [|done]. destruct (Hs _ _ Hin) as (t' & ? & Heq).
      exists t'. split; [done|]. intros _. by apply Heq.
  - intros q t Hq Hin. simplify_eq.
    apply elem_of_app in Hin as [Hin|Hin]; [exfalso; apply H1; by apply (list_elem_of_fmap_2 fst _ (q, t))|].
    apply elem_of_cons in Hin as [Hin|Hin]; [by simplify_eq|].
    exfalso; apply H2; by apply (list_elem_of_fmap_2 fst _ (q, t)).
  - rewrite fmap_app, fmap_cons in Ht |- *. by eapply tiles_retype; [..|exact Ht].
  - rewrite fmap_app, fmap_cons in Ha |- *. by apply no_adj_used.
  - intros q i Hq. rewrite Hfb by done. split; intros (t & Hin & ?); exists t; (split; [|done]);
      (eapply view_mem; [|exact Hin]); congruence.
  - intros q i. rewrite Hhb. split.
    + intros (_ & t & Hin & Htt & ->). destruct (decide (q = p)) as [->|Hne].
      * rewrite (Hu p t Hin eq_refl) in Htt. congruence.
      * split; [congruence|]. exists t. split; [|done]. by eapply view_mem.
    + intros (Hq & t & Hin & ?). split; [done|]. exists t. split; [|done].
      eapply view_mem; [congruence|exact Hin].
Qed.

(** ** The lists, with a segment in limbo *)

Lemma with_freelists_inv v w FB FB' HB X f : inv v w FB HB X -> buckets f FREELIST_COUNT FB' ->
  (forall p, X <> Some p -> FB' !! p = FB !! p) -> inv (with_freelists f v) w FB' HB X.
Proof.
  intros I Hf Hfb. destruct I as [? ? ? ? ? ? ? ? ? Hfbo ?]. split; simpl; try done.
  intros p i Hp. rewrite Hfb by done. by apply Hfbo.
Qed.

Lemma unlink_limbo v w FB HB p i : inv v w FB HB (Some p) -> FB !! p = Some i ->
  exists f, remove_at i p (freelists v) = Some f /\
    inv (with_freelists f v) w (delete p FB) HB (Some p).
Proof.
  intros I Hp. destruct (remove_at_ok _ _ _ _ _ (i_fl _ _ _ _ _ I) Hp) as (f & Hf & Hb).
  exists f. split; [done|]. eapply with_freelists_inv; [done|done|].
  intros q Hq. by rewrite lookup_delete_ne by congruence.
Qed.

(** Rewriting the limbo segment's record with the same place and size. *)
Lemma retype_inv v w1 p s w2 FB HB X X' t s' : inv v (w1 ++ (p, s) :: w2) FB HB X ->
  (forall q, q <> p -> X <> Some q /\ X' <> Some q) ->
  base s' = base s -> size s' = size s -> (X' <> Some p -> t = type s') ->
  (X' = Some p -> type s' = Used) -> type s' <> Span ->
  no_adj (w1 ++ (p, s') :: w2).*2 ->
  forall f h FB' HB', buckets f FREELIST_COUNT FB' -> buckets h HASHTAB_COUNT HB' ->
  (forall q, q <> p -> FB' !! q = FB !! q) -> (forall q, q <> p -> HB' !! q = HB !! q) ->
  (forall i, X' <> Some p -> FB' !! p = Some i <-> type s' = Free /\ i = Z.log2 (size s')) ->
  (forall i, HB' !! p = Some i <-> X' <> Some p /\ type s' = Used /\ i = seg_hash s') ->
  inv (with_hash_tab h (with_freelists f (set_seg p (mkSeg (base s) (size s) t) v)))
    (w1 ++ (p, s') :: w2) FB' HB' X'.
Proof.
  intros I Hx Hb Hs Ht Hu Hnsp Hadj f h FB' HB' Hf Hh HFB HHB HFp HHp.
  destruct (view_split _ _ _ _ _ _ _ _ I) as (H1 & H2 & Huq & Hsp).
  assert (Huq' : forall u, (p, u) ∈ w1 ++ (p, s') :: w2 -> u = s').
  { intros u Hin. apply elem_of_app in Hin as [Hin|Hin];
      [exfalso; apply H1; by apply (list_elem_of_fmap_2 fst _ (p, u))|].
    apply elem_of_cons in Hin as [Hin|Hin]; [by simplify_eq|].
    exfalso; apply H2; by apply (list_elem_of_fmap_2 fst _ (p, u)). }
  destruct I as [Hspan Hn Hsg Hl Hti Ha Hr Hfl Hht Hfb Hhb].
  destruct Hspan as (span & b & n & Hsl & Hss). specialize (Hsp _ _ _ Hsl Hss).
  split; simpl; try done.
  - exists span, b, n. rewrite lookup_insert_ne by done. split; [|done].
    by rewrite fmap_app, fmap_cons in Hsl |- *.
  - intros q u Hin. destruct (decide (q = p)) as [->|Hne].
    + rewrite (Huq' _ Hin), lookup_insert_eq. exists t. by rewrite Hb, Hs.
    + rewrite lookup_insert_ne by done. apply (view_mem _ _ _ s) in Hin; [|done].
      destruct (Hsg _ _ Hin) as (t' & ? & Heq). exists t'. split; [done|]. intros _.
      apply Heq. by apply Hx.
  - intros q u Hq Hin. destruct (decide (q = p)) as [->|Hne].
    + rewrite (Huq' _ Hin). auto.
    + by destruct (Hx q Hne).
  - rewrite fmap_app, fmap_cons in Hti |- *. by eapply tiles_retype; [..|exact Hti].
  - intros q i Hq. destruct (decide (q = p)) as [->|Hne].
    + rewrite HFp by done. split.
      * intros [? ->]. exists s'. split; [set_solver|done].
      * intros (u & Hin & ? & ->). by rewrite (Huq' _ Hin) in *.
    + rewrite HFB, Hfb by (done || by apply Hx).
      split; intros (u & Hin & ?); exists u; (split; [|done]); by eapply view_mem.
  - intros q i. destruct (decide (q = p)) as [->|Hne].
    + rewrite HHp. split.
      * intros (? & ? & ->). split; [done|]. exists s'. split; [set_solver|done].
      * intros (? & u & Hin & ? & ->). by rewrite (Huq' _ Hin) in *.
    + rewrite HHB, Hhb by done. destruct (Hx q Hne). split; intros (_ & u & Hin & ?);
        (split; [done|]); exists u; (split; [|done]); by eapply view_mem.
Qed.

Lemma hashtab_insert_ok v w1 p s w2 FB HB : inv v (w1 ++ (p, s) :: w2) FB HB (Some p) ->
  FB !! p = None ->
  exists v' HB', hashtab_insert p v = Some v' /\ inv v' (w1 ++ (p, s) :: w2) FB HB' None /\
    same_frame v v'.
Proof.
  intros I HF. destruct (i_segs _ _ _ _ _ I p s) as (t & Hseg & _); [set_solver|].
  pose proof (i_limbo _ _ _ _ _ I p s eq_refl ltac:(set_solver)) as Hus.
  assert (HH : HB !! p = None).
  { destruct (HB !! p) as [i|] eqn:E; [|done]. by apply (i_hb _ _ _ _ _ I) in E as [? _]. }
  unfold hashtab_insert. rewrite Hseg. cbn [mbind option_bind base size].
  destruct (push_front_ok _ _ HB (seg_hash s) p (i_ht _ _ _ _ _ I) (seg_hash_bound s) HH) as (h & Hh & Hb).
  fold (seg_hash s). rewrite Hh. cbn [mbind option_bind]. eexists _, _. split; [done|]. split; [|by split_and!].
  apply (retype_inv v w1 p s w2 FB HB (Some p) None Used s) with (f := freelists v); try done.
  - intros q Hq. split; [congruence|done].
  - congruence.
  - apply I.
  - apply I.
  - intros q Hq. by rewrite lookup_insert_ne.
  - intros i _. rewrite HF. split; [done|]. intros [? _]. congruence.
  - intros i. rewrite lookup_insert_eq. split; [intros [= <-]; done|]. by intros (_ & _ & ->).
Qed.

Lemma no_merge_ok v w1 p s w2 FB HB : inv v (w1 ++ (p, s) :: w2) FB HB (Some p) ->
  FB !! p = None -> no_adj (w1 ++ (p, as_free s) :: w2).*2 ->
  exists v', freelist_insert_no_merge p v = Some v' /\
    inv v' (w1 ++ (p, as_free s) :: w2) (<[p := Z.log2 (size s)]> FB) HB None /\ same_frame v v'.
Proof.
  intros I HF Hadj. destruct (i_segs _ _ _ _ _ I p s) as (t & Hseg & _); [set_solver|].
  destruct (view_bounds _ _ _ _ _ p s I) as (? & Hpos & ? & _); [set_solver|].
  destruct (i_range _ _ _ _ _ I) as (? & ? & ?).
  destruct (size_to_index_log2 (size s)) as [Hidx Hlog]; [lia|].
  assert (HH : HB !! p = None).
  { destruct (HB !! p) as [i|] eqn:E; [|done]. by apply (i_hb _ _ _ _ _ I) in E as [? _]. }
  unfold freelist_insert_no_merge. rewrite Hseg. cbn [mbind option_bind base size].
  replace (size s =? 0) with false by lia. cbn [negb assert mbind option_bind]. rewrite Hidx.
  destruct (push_front_ok _ _ FB (Z.log2 (size s)) p (i_fl _ _ _ _ _ I) Hlog HF) as (f & Hf & Hb).
  rewrite Hf. cbn [mbind option_bind]. eexists. split; [done|]. split; [|by split_and!].
  change (with_freelists f ?x) with (with_hash_tab (hash_tab v) (with_freelists f x)).
  apply (retype_inv v w1 p s w2 FB HB (Some p) None Free (as_free s)); try done.
  - intros q Hq. split; [congruence|done].
  - apply I.
  - intros q Hq. by rewrite lookup_insert_ne.
  - intros i _. rewrite lookup_insert_eq. split; [intros [= <-]; done|]. by intros (_ & ->).
  - intros i. rewrite HH. split; [done|]. by intros (_ & ? & _).
Qed.

(** ** Merging neighbours *)

Lemma no_adj_merge l1 a b c l2 : type c = Used -> no_adj (l1 ++ a :: b :: l2) -> no_adj (l1 ++ c :: l2).
Proof.
  intros Hc. rewrite !no_adj_app. intros (H1 & H2 & H3). split_and!; [done| |].
  - destruct l2 as [|d l2]; [done|]. simpl in *. split; [left; congruence|tauto].
  - intros x y _ Hy. simpl in Hy. simplify_eq. right. congruence.
Qed.

(** The records [a] and [b] of two neighbours become one segment, kept in record
    [k] while [d] is released; one of the two was in limbo, the other free. *)
Lemma merge_inv v w1 a sa b sb w2 FB HB x k d f FB' t span :
  inv v (w1 ++ (a, sa) :: (b, sb) :: w2) FB HB (Some x) ->
  (k = a /\ d = b \/ k = b /\ d = a) -> HB !! a = None -> HB !! b = None -> (x = a \/ x = b) ->
  (forall q, q <> a -> q <> b -> FB' !! q = FB !! q) -> FB' !! a = None -> FB' !! b = None ->
  buckets f FREELIST_COUNT FB' -> seg_list v = span :: (w1 ++ (a, sa) :: (b, sb) :: w2).*1 ->
  let s := mkSeg (base sa) (size sa + size sb) t in
  let v' := seg_free d (set_seg k s (with_freelists f (with_seg_list (span :: w1.*1 ++ k :: w2.*1) v))) in
  inv v' (w1 ++ (k, as_used s) :: w2) FB' HB (Some k) /\ same_frame v v'.
Proof.
  intros I Hkd HHa HHb Hx HFB HFa HFb Hf Hsl s v'.
  pose proof (i_nodup _ _ _ _ _ I) as Hnd. rewrite Hsl, fmap_app in Hnd. simpl in Hnd.
  assert (Hperm : (span :: w1.*1 ++ k :: w2.*1) ++ d :: free_segs v ≡ₚ seg_list v ++ free_segs v).
  { rewrite Hsl, fmap_app. simpl. destruct Hkd as [[-> ->]|[-> ->]]; solve_Permutation. }
  assert (Hab : a <> b /\ span <> a /\ span <> b /\ a ∉ w1.*1 /\ a ∉ w2.*1 /\ b ∉ w1.*1 /\ b ∉ w2.*1).
  { apply NoDup_cons in Hnd as [Hs Hnd]. rewrite <- (assoc_L app) in Hnd.
    apply NoDup_app in Hnd as (_ & Hd & Hnd). simpl in Hnd. apply NoDup_cons in Hnd as [Ha Hnd].
    apply NoDup_cons in Hnd as [Hb _]. set_solver. }
  destruct Hab as (Hab & Hsa & Hsb & Ha1 & Ha2 & Hb1 & Hb2).
  assert (Hk : k = a \/ k = b) by tauto. assert (Hsk : span <> k) by (destruct Hk; congruence).
  assert (Hout : forall q u, (q, u) ∈ w1 ++ w2 -> q <> a /\ q <> b).
  { intros q u Hin. assert (q ∈ w1.*1 ++ w2.*1).
    { rewrite <- fmap_app. by apply (list_elem_of_fmap_2 fst _ (q, u)). }
    set_solver. }
  assert (Hmem : forall q u, (q, u) ∈ w1 ++ (k, as_used s) :: w2 <->
            (q, u) ∈ w1 ++ w2 \/ (q, u) = (k, as_used s)) by (intros; set_solver).
  assert (Hold : forall q u, (q, u) ∈ w1 ++ (a, sa) :: (b, sb) :: w2 <->
            (q, u) ∈ w1 ++ w2 \/ (q, u) = (a, sa) \/ (q, u) = (b, sb)) by (intros; set_solver).
  destruct I as [Hspan Hn Hsg Hl Hti Ha Hr Hfl Hht Hfbo Hhbo].
  split; [|split_and!; try done; intros q; simpl; by rewrite Hperm].
  split; simpl; try done.
  - destruct Hspan as (sp & bb & nn & Hsl' & Hss). rewrite Hsl in Hsl'. simplify_eq.
    exists sp, bb, nn. rewrite lookup_insert_ne by done. split; [|done]. by rewrite fmap_app.
  - by rewrite Hperm.
  - intros q u Hin. apply Hmem in Hin as [Hin|Hin].
    + destruct (Hout _ _ Hin). rewrite lookup_insert_ne by (destruct Hk; congruence).
      destruct (Hsg q u) as (t' & ? & Heq); [apply Hold; by left|]. exists t'. split; [done|].
      intros _. apply Heq. destruct Hx; congruence.
    + simplify_eq. rewrite lookup_insert_eq. exists t. split; [done|congruence].
  - intros q u Hq Hin. simplify_eq. apply Hmem in Hin as [Hin|Hin]; [|by simplify_eq].
    destruct (Hout _ _ Hin). destruct Hk; congruence.
  - rewrite fmap_app, fmap_cons in Hti |- *. simpl in *. apply tiles_app in Hti as (m & Ht1 & <- & ? & ? & Hb & ? & ? & Ht2).
    apply tiles_join; simpl; [done|lia|done|]. by rewrite Z.add_assoc.
  - rewrite fmap_app, fmap_cons in Ha |- *. simpl in *. by eapply no_adj_merge.
  - intros q i Hq. split.
    + intros Hi. assert (q <> a /\ q <> b) as [? ?] by (split; congruence). rewrite HFB in Hi by done.
      apply Hfbo in Hi as (u & Hin & ?); [|destruct Hx; congruence]. exists u. split; [|done].
      apply Hold in Hin as [Hin|[Hin|Hin]]; [apply Hmem; by left|congruence..].
    + intros (u & Hin & Hu & ->). apply Hmem in Hin as [Hin|Hin]; [|simplify_eq].
      destruct (Hout _ _ Hin). rewrite HFB by done. apply Hfbo; [destruct Hx; congruence|].
      exists u. split; [apply Hold; by left|done].
  - intros q i. split.
    + intros Hi. assert (q <> a /\ q <> b) as [? ?] by (split; congruence).
      apply Hhbo in Hi as (? & u & Hin & ?). split; [destruct Hk; congruence|]. exists u. split; [|done].
      apply Hold in Hin as [Hin|[Hin|Hin]]; [apply Hmem; by left|congruence..].
    + intros (Hq & u & Hin & Hu & ->). apply Hmem in Hin as [Hin|Hin]; [|simplify_eq].
      destruct (Hout _ _ Hin). apply Hhbo. split; [destruct Hx; congruence|].
      exists u. split; [apply Hold; by left|done].
Qed.

(** The used segments after [p] has become free. *)
Definition released (p : Z * Z) (w w' : list ((Z * Z) * Segment)) : Prop :=
  forall q u, type u = Used -> (q, u) ∈ w' <-> (q, u) ∈ w /\ q <> p.

Lemma limbo_not_hashed v w FB HB p : inv v w FB HB (Some p) -> HB !! p = None.
Proof.
  intros I. destruct (HB !! p) as [i|] eqn:E; [|done]. by apply (i_hb _ _ _ _ _ I) in E as [? _].
Qed.

Lemma free_in_list v w FB HB x q s : inv v w FB HB (Some x) -> (q, s) ∈ w -> q <> x -> type s = Free ->
  segs v !! q = Some s /\ FB !! q = Some (Z.log2 (size s)) /\ HB !! q = None /\
  size_to_index (size s) = Z.log2 (size s).
Proof.
  intros I Hin Hne Hf. destruct (i_segs _ _ _ _ _ I _ _ Hin) as (t & Hs & Ht).
  rewrite Ht in Hs by congruence. destruct (view_bounds _ _ _ _ _ _ _ I Hin) as (? & ? & ? & _).
  destruct (i_range _ _ _ _ _ I) as (? & ? & ?). split_and!.
  - rewrite Hs. by destruct s.
  - apply (i_fb _ _ _ _ _ I); [congruence|eauto].
  - destruct (HB !! q) as [i|] eqn:E; [|done].
    apply (i_hb _ _ _ _ _ I) in E as (_ & s' & Hin' & Hu & _).
    destruct (inv_nodup _ _ _ _ _ I) as [Hn _].
    apply list_elem_of_split in Hin as (w1 & w2 & ->).
    destruct (view_split _ _ _ _ _ _ _ _ I) as (_ & _ & Huq & _).
    rewrite (Huq q s' Hin' eq_refl) in Hu. congruence.
  - apply size_to_index_log2. lia.
Qed.

Lemma merge_prev_ok v w1 q sq p s w2 FB HB fuel :
  inv v (w1 ++ (q, sq) :: (p, s) :: w2) FB HB (Some p) -> type sq = Free -> FB !! p = None ->
  exists v1 FB1 s1, insert_loop (S fuel) p v = insert_loop fuel q v1 /\
    inv v1 (w1 ++ (q, s1) :: w2) FB1 HB (Some q) /\ FB1 !! q = None /\ same_frame v v1.
Proof.
  intros I Hf HF. destruct (i_span _ _ _ _ _ I) as (span & b & n & Hsl & Hss).
  assert (Hinq : (q, sq) ∈ w1 ++ (q, sq) :: (p, s) :: w2) by set_solver.
  assert (Hinp : (p, s) ∈ w1 ++ (q, sq) :: (p, s) :: w2) by set_solver.
  assert (Hqp : q <> p).
  { intros ->. destruct (view_split _ _ _ _ _ _ _ _ I) as (_ & Hno & _ & _). simpl in Hno. set_solver. }
  destruct (free_in_list _ _ _ _ _ q sq I Hinq Hqp Hf) as (Hsegq & HFq & HHq & Hidx).
  destruct (i_segs _ _ _ _ _ I p s Hinp) as (t & Hsegp & _).
  assert (Hw : (w1 ++ (q, sq) :: (p, s) :: w2) = (w1 ++ [(q, sq)]) ++ (p, s) :: w2) by (by rewrite <- (assoc_L app)).
  destruct (view_split v (w1 ++ [(q, sq)]) p s w2 FB HB (Some p)) as (Hp1 & Hp2 & _ & Hps); [by rewrite <- Hw|].
  rewrite fmap_app in Hp1. simpl in Hp1.
  assert (Hl : seg_list v = (span :: w1.*1 ++ [q]) ++ p :: w2.*1).
  { rewrite Hsl, fmap_app. simpl. by rewrite <- (assoc_L app). }
  assert (Hsp : span <> p) by (eapply Hps; [by rewrite <- Hw|done]).
  cbn [insert_loop]. rewrite Hsegp. cbn [mbind option_bind]. rewrite Hl.
  rewrite prev_of_app by done. replace (last (span :: w1.*1 ++ [q])) with (Some q).
  2:{ rewrite app_comm_cons, last_snoc. done. }
  rewrite Hsegq. cbn [mbind option_bind]. unfold mergeable. rewrite bool_decide_true by done.
  pose proof (i_tiles _ _ _ _ _ I) as Hti. rewrite fmap_app, !fmap_cons in Hti. simpl in Hti.
  apply tiles_app in Hti as (m & Ht1 & <- & Hz1 & _ & Hb & Hz2 & _ & Ht2).
  apply tiles_le in Ht1, Ht2. destruct (i_range _ _ _ _ _ I) as (? & ? & ?). cbn [base size].
  assert (base sq ⊞ size sq = base s) as -> by (unfold add64; rewrite u64_small; lia).
  rewrite Z.eqb_refl. cbn [andb]. rewrite list_remove_app by set_solver. cbn [mbind option_bind].
  unfold freelist_remove. simpl (segs (with_seg_list _ _)). rewrite Hsegq. cbn [mbind option_bind].
  rewrite Hidx. simpl (freelists (with_seg_list _ _)).
  destruct (remove_at_ok _ _ _ _ _ (i_fl _ _ _ _ _ I) HFq) as (f & -> & Hbf). cbn [mbind option_bind].
  assert (size sq ⊞ size s = size sq + size s) as -> by (unfold add64; apply u64_small; lia).
  eexists _, _, _. split; [done|].
  destruct (merge_inv v w1 q sq p s w2 FB HB p q p f (delete q FB) (type sq) span) as [I' Hsf]; try done.
  - by left.
  - by apply (limbo_not_hashed _ _ _ _ _ I).
  - by right.
  - intros r Hr _. by rewrite lookup_delete_ne.
  - apply lookup_delete_eq.
  - by rewrite lookup_delete_ne.
  - replace ((span :: w1.*1 ++ [q]) ++ w2.*1) with (span :: w1.*1 ++ q :: w2.*1)
      by (simpl; by rewrite <- (assoc_L app)).
    split_and!; [exact I'|apply lookup_delete_eq|exact Hsf].
Qed.

(** The pass when the segment before is not free. *)
Lemma no_prev v w1 p s w2 FB HB : inv v (w1 ++ (p, s) :: w2) FB HB (Some p) ->
  (forall q sq, last w1 = Some (q, sq) -> type sq <> Free) ->
  exists prev pr, prev_of p (seg_list v) = Some prev /\ segs v !! prev = Some pr /\
    forall lo hi, mergeable lo hi pr = false.
Proof.
  intros I Hlast. destruct (i_span _ _ _ _ _ I) as (span & b & n & Hsl & Hss).
  destruct (view_split _ _ _ _ _ _ _ _ I) as (Hp1 & Hp2 & _ & Hps).
  rewrite Hsl, fmap_app, fmap_cons. simpl (fst _). rewrite app_comm_cons, prev_of_app by done.
  assert (Hnf : forall pr : Segment, type pr <> Free -> forall lo hi, mergeable lo hi pr = false).
  { intros pr Hpr lo hi. unfold mergeable. by rewrite bool_decide_false. }
  destruct (last w1) as [[q sq]|] eqn:El.
  - apply last_Some in El as [w1' ->]. rewrite fmap_app. simpl. rewrite app_comm_cons, last_snoc.
    assert (Hin : (q, sq) ∈ (w1' ++ [(q, sq)]) ++ (p, s) :: w2) by set_solver.
    destruct (i_segs _ _ _ _ _ I q sq Hin) as (t & Hs & Ht). eexists _, _. split; [done|]. split; [done|].
    apply Hnf. simpl. rewrite Ht; [by eapply Hlast|]. intros ?. simplify_eq.
    rewrite fmap_app in Hp1. simpl in Hp1. set_solver.
  - apply last_None in El as ->. simpl. eexists _, _. split; [done|]. split; [done|]. by apply Hnf.
Qed.

Lemma merge_next_ok v w1 p s q sq w2 FB HB fuel :
  inv v (w1 ++ (p, s) :: (q, sq) :: w2) FB HB (Some p) -> type sq = Free -> FB !! p = None ->
  (forall r sr, last w1 = Some (r, sr) -> type sr <> Free) ->
  exists v1 FB1 s1, insert_loop (S fuel) p v = insert_loop fuel p v1 /\
    inv v1 (w1 ++ (p, s1) :: w2) FB1 HB (Some p) /\ FB1 !! p = None /\ same_frame v v1.
Proof.
  intros I Hf HF Hprev. destruct (i_span _ _ _ _ _ I) as (span & b & n & Hsl & Hss).
  destruct (no_prev _ _ _ _ _ _ _ I Hprev) as (prev & pr & Hpo & Hpr & Hmg).
  assert (Hinq : (q, sq) ∈ w1 ++ (p, s) :: (q, sq) :: w2) by set_solver.
  assert (Hinp : (p, s) ∈ w1 ++ (p, s) :: (q, sq) :: w2) by set_solver.
  destruct (view_split v w1 p s _ FB HB (Some p) I) as (Hp1 & Hp2 & _ & Hps). simpl in Hp2.
  assert (Hqp : q <> p) by set_solver.
  destruct (free_in_list _ _ _ _ _ q sq I Hinq Hqp Hf) as (Hsegq & HFq & HHq & Hidx).
  destruct (i_segs _ _ _ _ _ I p s Hinp) as (t & Hsegp & _).
  assert (Hl : seg_list v = (span :: w1.*1) ++ p :: q :: w2.*1) by (rewrite Hsl, fmap_app; done).
  assert (Hsp : span <> p) by (by eapply Hps).
  assert (Hq1 : q ∉ (span :: w1.*1 ++ [p])).
  { pose proof (i_nodup _ _ _ _ _ I) as Hn. rewrite Hl in Hn.
    replace ((span :: w1.*1) ++ p :: q :: w2.*1) with ((span :: w1.*1 ++ [p]) ++ q :: w2.*1) in Hn
      by (simpl; by rewrite <- (assoc_L app)).
    apply NoDup_app in Hn as (Hn & _). apply NoDup_app in Hn as (_ & Hn & _). intros Hin.
    eapply Hn; [done|left]. }
  cbn [insert_loop]. rewrite Hsegp. cbn [mbind option_bind]. rewrite Hpo, Hpr. cbn [mbind option_bind].
  rewrite Hmg. rewrite Hl, next_of_app by set_solver. cbn [head]. rewrite Hsegq. cbn [mbind option_bind].
  unfold mergeable. rewrite bool_decide_true by done. cbn [base size].
  pose proof (i_tiles _ _ _ _ _ I) as Hti. rewrite fmap_app, !fmap_cons in Hti. simpl in Hti.
  apply tiles_app in Hti as (m & Ht1 & <- & Hz1 & _ & Hb & Hz2 & _ & Ht2).
  apply tiles_le in Ht1, Ht2. destruct (i_range _ _ _ _ _ I) as (? & ? & ?).
  assert (base s ⊞ size s = base sq) as -> by (unfold add64; rewrite u64_small; lia).
  rewrite Z.eqb_refl. cbn [andb].
  replace ((span :: w1.*1) ++ p :: q :: w2.*1) with ((span :: w1.*1 ++ [p]) ++ q :: w2.*1)
    by (simpl; by rewrite <- (assoc_L app)).
  rewrite list_remove_app by done. cbn [mbind option_bind].
  unfold freelist_remove. simpl (segs (with_seg_list _ _)). rewrite Hsegq. cbn [mbind option_bind].
  rewrite Hidx. simpl (freelists (with_seg_list _ _)).
  destruct (remove_at_ok _ _ _ _ _ (i_fl _ _ _ _ _ I) HFq) as (f & -> & Hbf). cbn [mbind option_bind type].
  assert (size s ⊞ size sq = size s + size sq) as -> by (unfold add64; apply u64_small; lia).
  eexists _, _, _. split; [done|].
  destruct (merge_inv v w1 p s q sq w2 FB HB p p q f (delete q FB) t span) as [I' Hsf]; try done.
  - by left.
  - by apply (limbo_not_hashed _ _ _ _ _ I).
  - by left.
  - intros r _ Hr. by rewrite lookup_delete_ne.
  - by rewrite lookup_delete_ne.
  - apply lookup_delete_eq.
  - replace ((span :: w1.*1 ++ [p]) ++ w2.*1) with (span :: w1.*1 ++ p :: w2.*1)
      by (simpl; by rewrite <- (assoc_L app)).
    split_and!; [exact I'|by rewrite lookup_delete_ne|exact Hsf].
Qed.

Lemma released_trans_merge p q (s sq s1 : Segment) w1 w2 w' :
  type sq = Free -> (q, sq) ∉ w1 ++ w2 -> True ->
  (forall u, (p, u) ∉ w1 ++ w2) -> (forall u, (q, u) ∉ w1 ++ w2) ->
  released q (w1 ++ (q, s1) :: w2) w' -> q <> p ->
  released p (w1 ++ (q, sq) :: (p, s) :: w2) w'.
Proof.
  intros Hf _ _ Hp Hq Hr Hne r u Hu. rewrite (Hr r u Hu). rewrite !elem_of_app, !elem_of_cons.
  specialize (Hp u). specialize (Hq u). rewrite elem_of_app in Hp, Hq.
  split; [intros [[?|[?|?]] ?]|intros [[?|[?|[?|?]]] ?]]; simplify_eq; split; try tauto; try congruence.
  - intros ->. tauto.
  - intros ->. tauto.
  - intros ->. tauto.
  - intros ->. tauto.
Qed.

Lemma no_dup_view v w1 p s w2 FB HB X : inv v (w1 ++ (p, s) :: w2) FB HB X -> forall u, (p, u) ∉ w1 ++ w2.
Proof.
  intros I u Hin. destruct (view_split _ _ _ _ _ _ _ _ I) as (H1 & H2 & _).
  assert (p ∈ w1.*1 ++ w2.*1) by (rewrite <- fmap_app; by apply (list_elem_of_fmap_2 fst _ (p, u))).
  set_solver.
Qed.

Lemma insert_loop_ok fuel v w1 p s w2 FB HB : inv v (w1 ++ (p, s) :: w2) FB HB (Some p) ->
  FB !! p = None -> (length (w1 ++ (p, s) :: w2) <= fuel)%nat ->
  exists v' w' FB', insert_loop fuel p v = Some v' /\ inv v' w' FB' HB None /\ same_frame v v' /\
    released p (w1 ++ (p, s) :: w2) w'.
Proof.
  revert v w1 p s w2 FB. induction fuel as [|fuel IH]; intros v w1 p s w2 FB I HF Hlen.
  { rewrite length_app in Hlen. simpl in Hlen. lia. }
  assert (Hlast : (exists w1' q sq, w1 = w1' ++ [(q, sq)] /\ type sq = Free) \/
                  forall q sq, last w1 = Some (q, sq) -> type sq <> Free).
  { destruct (last w1) as [[q sq]|] eqn:El; [|right; congruence]. apply last_Some in El as [w1' ->].
    destruct (decide (type sq = Free)) as [Hf|Hf]; [left; eauto|right]. intros. by simplify_eq. }
  destruct Hlast as [(w1' & q & sq & -> & Hf)|Hlast].
  { rewrite <- (assoc_L app) in I, Hlen |- *. cbn [app] in I, Hlen |- *.
    destruct (merge_prev_ok _ _ _ _ _ _ _ _ _ fuel I Hf HF) as (v1 & FB1 & s1 & -> & I1 & HF1 & Hsf1).
    destruct (IH v1 w1' q s1 w2 FB1 I1 HF1) as (v' & w' & FB' & -> & I' & Hsf & Hrel).
    { rewrite length_app in *. simpl in *. lia. }
    exists v', w', FB'. split_and!; [done|done|by eapply same_frame_trans|].
    assert (Hq : forall u, (q, u) ∉ w1' ++ w2) by (by eapply no_dup_view).
    assert (Hp : forall u, (p, u) ∉ w1' ++ (q, sq) :: w2).
    { assert (Hw : w1' ++ (q, sq) :: (p, s) :: w2 = (w1' ++ [(q, sq)]) ++ (p, s) :: w2) by (by rewrite <- (assoc_L app)).
      rewrite Hw in I. intros u Hu. eapply (no_dup_view _ _ _ _ _ _ _ _ I u). set_solver. }
    eapply released_trans_merge; try done.
    - intros u Hu. apply (Hp u). set_solver.
    - intros ->. apply (Hp sq). set_solver. }
  destruct w2 as [|[q sq] w2].
  - destruct (no_prev _ _ _ _ _ _ _ I Hlast) as (prev & pr & Hpo & Hpr & Hmg).
    destruct (no_merge_ok v w1 p s [] FB HB I HF) as (v' & Hv' & I' & Hsf).
    { rewrite fmap_app. simpl. apply no_adj_app. pose proof (i_adj _ _ _ _ _ I) as Ha.
      rewrite fmap_app in Ha. apply no_adj_app in Ha as (Ha & _ & _). split_and!; [done|done|].
      intros x y Hx Hy. left. rewrite fmap_last in Hx. destruct (last w1) as [[r sr]|] eqn:E; [|done].
      simpl in Hx. simplify_eq. by eapply Hlast. }
    destruct (i_span _ _ _ _ _ I) as (span & b & n & Hsl & Hss).
    destruct (view_split _ _ _ _ _ _ _ _ I) as (Hp1 & _ & _ & Hps).
    destruct (i_segs _ _ _ _ _ I p s ltac:(set_solver)) as (t & Hsegp & _).
    exists v', (w1 ++ [(p, as_free s)]), (<[p := Z.log2 (size s)]> FB). split_and!; [|done|done|].
    + cbn [insert_loop]. rewrite Hsegp. cbn [mbind option_bind]. rewrite Hpo, Hpr. cbn [mbind option_bind].
      rewrite Hmg, Hsl, fmap_app. simpl (fst <$> _). rewrite app_comm_cons, next_of_app; [done|].
      apply not_elem_of_cons. split; [|done]. intros Heq. eapply Hps; [exact Hsl|exact Hss|done].
    + intros r u Hu. pose proof (no_dup_view _ _ _ _ _ _ _ _ I u) as Hnd. rewrite app_nil_r in Hnd.
      rewrite !elem_of_app, !list_elem_of_singleton. split.
      * intros [?|?]; [|simplify_eq]. split; [by left|]. intros ->. done.
      * intros [[?|?] ?]; [by left|simplify_eq].
  - destruct (decide (type sq = Free)) as [Hf|Hf].
    + destruct (merge_next_ok _ _ _ _ _ _ _ _ _ fuel I Hf HF Hlast) as (v1 & FB1 & s1 & -> & I1 & HF1 & Hsf1).
      destruct (IH v1 w1 p s1 w2 FB1 I1 HF1) as (v' & w' & FB' & -> & I' & Hsf & Hrel).
      { rewrite length_app in *. simpl in *. lia. }
      exists v', w', FB'. split_and!; [done|done|by eapply same_frame_trans|].
      intros r u Hu. rewrite (Hrel r u Hu). rewrite !elem_of_app, !elem_of_cons.
      split; [intros [[?|[?|?]] ?]|intros [[?|[?|[?|?]]] ?]]; simplify_eq; (tauto || congruence).
    + destruct (no_prev _ _ _ _ _ _ _ I Hlast) as (prev & pr & Hpo & Hpr & Hmg).
      destruct (no_merge_ok v w1 p s ((q, sq) :: w2) FB HB I HF) as (v' & Hv' & I' & Hsf).
      { rewrite fmap_app. simpl. apply no_adj_app. pose proof (i_adj _ _ _ _ _ I) as Ha.
        rewrite fmap_app in Ha. simpl in Ha. apply no_adj_app in Ha as (Ha & Ha2 & _).
        split_and!; [done| |].
        - simpl in Ha2 |- *. split; [by right|tauto].
        - intros x y Hx Hy. left. rewrite fmap_last in Hx. destruct (last w1) as [[r sr]|] eqn:E; [|done].
          simpl in Hx. simplify_eq. by eapply Hlast. }
      destruct (i_span _ _ _ _ _ I) as (span & b & n & Hsl & Hss).
      destruct (view_split _ _ _ _ _ _ _ _ I) as (Hp1 & Hp2 & _ & Hps).
      destruct (i_segs _ _ _ _ _ I p s ltac:(set_solver)) as (t & Hsegp & _).
      destruct (i_segs _ _ _ _ _ I q sq ltac:(set_solver)) as (tq & Hsegq & Htq).
      exists v', (w1 ++ (p, as_free s) :: (q, sq) :: w2), (<[p := Z.log2 (size s)]> FB). split_and!; [|done|done|].
      * cbn [insert_loop]. rewrite Hsegp. cbn [mbind option_bind]. rewrite Hpo, Hpr. cbn [mbind option_bind].
        rewrite Hmg, Hsl, fmap_app. simpl (fst <$> _). rewrite app_comm_cons, next_of_app.
        -- cbn [head]. rewrite Hsegq. cbn [mbind option_bind]. unfold mergeable at 1. cbn [type].
           rewrite bool_decide_false; [done|]. rewrite Htq; [done|]. intros ?. simplify_eq.
           simpl in Hp2. set_solver.
        -- apply not_elem_of_cons. split; [|done]. intros Heq. eapply Hps; [exact Hsl|exact Hss|done].
      * intros r u Hu. pose proof (no_dup_view _ _ _ _ _ _ _ _ I u) as Hnd.
        rewrite !elem_of_app, !elem_of_cons. split.
        -- intros [?|[?|?]]; [|simplify_eq|].
           ++ split; [by left|]. intros ->. apply Hnd. set_solver.
           ++ split; [tauto|]. intros ->. apply Hnd. set_solver.
        -- intros [[?|[?|?]] ?]; [by left|simplify_eq|tauto].
Qed.

End VMemInv.
