(* ===== verification/VMemAlloc.v ===== *)
(** * xalloc and xfree of the virtual address allocator

    Built on the invariant and the merging loop of VMemInv.v: the hash table
    lookup of [xfree], the two splits of [seg_fit], the search over the free
    lists and [init].  The theorems speak of [allocated], the ranges that have a
    used segment. *)

From S2P Require Import Prelude Bits PageAlloc VMem VMemInv.

Module VMemAlloc.
Import VMem VMemInv.

(** ** What the view says of the ranges *)

Definition live (w : list ((Z * Z) * Segment)) (b n : Z) : Prop :=
  exists p s, (p, s) ∈ w /\ type s = Used /\ base s = b /\ size s = n.

(** The range has a used segment. *)
Definition allocated (v : vmem) (b n : Z) : Prop :=
  exists p, p ∈ seg_list v /\ segs v !! p = Some (mkSeg b n Used).

(** A free segment. *)
Definition available (v : vmem) (b n : Z) : Prop :=
  exists p, p ∈ seg_list v /\ segs v !! p = Some (mkSeg b n Free).

Lemma view_order v w FB HB X p s q u : inv v w FB HB X -> (p, s) ∈ w -> (q, u) ∈ w ->
  (p, s) = (q, u) \/ base s + size s <= base u \/ base u + size u <= base s.
Proof.
  intros I Hp Hq. apply list_elem_of_split in Hp as (w1 & w2 & ->).
  pose proof (i_tiles _ _ _ _ _ I) as Ht. rewrite fmap_app, fmap_cons in Ht.
  apply tiles_split in Ht as (H1 & _ & _ & H2). simpl in *.
  apply elem_of_app in Hq as [Hq|Hq]; [|apply elem_of_cons in Hq as [Hq|Hq]; [by left|]];
    apply list_elem_of_split in Hq as (x & y & ->); right; rewrite fmap_app, fmap_cons in H1 || rewrite fmap_app, fmap_cons in H2.
  - apply tiles_split in H1 as (_ & _ & _ & H1). apply tiles_le in H1. simpl in *. lia.
  - apply tiles_split in H2 as (H2 & _). apply tiles_le in H2. simpl in *. lia.
Qed.

Lemma view_base_inj v w FB HB X p s q u : inv v w FB HB X -> (p, s) ∈ w -> (q, u) ∈ w ->
  base s = base u -> p = q /\ s = u.
Proof.
  intros I Hp Hq Hb. destruct (view_order _ _ _ _ _ _ _ _ _ I Hp Hq) as [?|Hd]; [by simplify_eq|].
  destruct (view_bounds _ _ _ _ _ _ _ I Hp) as (? & ? & ? & _).
  destruct (view_bounds _ _ _ _ _ _ _ I Hq) as (? & ? & ? & _). lia.
Qed.

(** The records are the view when nothing is in limbo. *)
Lemma view_records v w FB HB p b n t : inv v w FB HB None -> t <> Span ->
  (p ∈ seg_list v /\ segs v !! p = Some (mkSeg b n t)) <-> (p, mkSeg b n t) ∈ w.
Proof.
  intros I Hsp. split.
  - intros [Hin Hs]. destruct (i_span _ _ _ _ _ I) as (span & b' & n' & Hl & Hss). rewrite Hl in Hin.
    apply elem_of_cons in Hin as [->|Hin]; [congruence|].
    apply list_elem_of_fmap in Hin as ([q s] & -> & Hin). simpl in *.
    destruct (i_segs _ _ _ _ _ I _ _ Hin) as (t' & Hs' & Ht). rewrite Ht in Hs' by done.
    destruct s. simpl in *. by simplify_eq.
  - intros Hin. destruct (i_segs _ _ _ _ _ I _ _ Hin) as (t' & Hs' & Ht). rewrite Ht in Hs' by done.
    destruct (i_span _ _ _ _ _ I) as (span & b' & n' & Hl & _). rewrite Hl. split; [|done].
    right. by apply (list_elem_of_fmap_2 fst _ (p, mkSeg b n t)).
Qed.

Lemma allocated_live v w FB HB b n : inv v w FB HB None -> allocated v b n <-> live w b n.
Proof.
  intros I. split.
  - intros (p & Hp). apply (view_records _ _ _ _ _ _ _ _ I) in Hp; [|done]. by eexists _, _.
  - intros (p & [b' n' t] & Hin & ? & ? & ?). simpl in *. simplify_eq. exists p.
    by eapply view_records.
Qed.

(** ** freelist_insert *)

Lemma freelist_insert_ok v w1 p s w2 FB HB : inv v (w1 ++ (p, s) :: w2) FB HB (Some p) ->
  FB !! p = None ->
  exists v' w' FB', freelist_insert p v = Some v' /\ inv v' w' FB' HB None /\ same_frame v v' /\
    released p (w1 ++ (p, s) :: w2) w'.
Proof.
  intros I HF. destruct (i_segs _ _ _ _ _ I p s) as (t & Hseg & _); [set_solver|].
  destruct (view_bounds _ _ _ _ _ p s I) as (_ & Hpos & _); [set_solver|].
  unfold freelist_insert. rewrite Hseg. cbn [mbind option_bind size].
  replace (size s =? 0) with false by lia. cbn [negb assert mbind option_bind].
  apply (insert_loop_ok _ v w1 p s w2 FB HB I HF). destruct (i_span _ _ _ _ _ I) as (span & b & n & -> & _).
  simpl. rewrite length_fmap. lia.
Qed.

(** ** Looking a base up in the hash table *)

Lemma find_base_ok v w FB HB key l : inv v w FB HB None ->
  (forall p, p ∈ l -> exists s, (p, s) ∈ w /\ type s = Used) ->
  (exists p s, (p, s) ∈ w /\ p ∈ l /\ base s = key /\ find_base key l v = Some (Some p)) \/
  find_base key l v = Some None /\ forall p s, (p, s) ∈ w -> p ∈ l -> base s <> key.
Proof.
  intros I. induction l as [|e l IH]; intros Hl; [right; set_solver|].
  destruct (Hl e) as (s & Hin & Hu); [left|].
  destruct (i_segs _ _ _ _ _ I _ _ Hin) as (t & Hs & Ht). simpl. rewrite Hs.
  cbn [mbind option_bind base]. destruct (base s =? key) eqn:E.
  - left. exists e, s. split_and!; [done|left|lia|done].
  - destruct IH as [(p & s' & ? & ? & ? & ->)|(-> & Hno)]; [intros; apply Hl; by right| |].
    + left. exists p, s'. split_and!; [done|by right|done|done].
    + right. split; [done|]. intros p s' Hp Hpl. apply elem_of_cons in Hpl as [->|Hpl]; [|by eauto].
      assert (Hsp : s' = s).
      { apply list_elem_of_split in Hin as (x & y & ->).
        destruct (view_split _ _ _ _ _ _ _ _ I) as (_ & _ & Hu' & _). by eapply Hu'. }
      subst. lia.
Qed.

(** Changing the hash table for the segment that leaves it. *)
Lemma hashtab_drop v w FB HB p s h : inv v w FB HB None -> (p, s) ∈ w -> type s = Used ->
  buckets h HASHTAB_COUNT (delete p HB) ->
  inv (with_hash_tab h v) w FB (delete p HB) (Some p) /\ FB !! p = None.
Proof.
  intros I Hin Hu Hh.
  assert (Huq : forall u, (p, u) ∈ w -> u = s).
  { intros u Hup. pose proof Hin as Hin'. apply list_elem_of_split in Hin' as (x & y & ->).
    destruct (view_split _ _ _ _ _ _ _ _ I) as (_ & _ & Hq & _). by eapply Hq. }
  split.
  - destruct I as [? ? Hs ? ? ? ? ? ? Hfb Hhb]. split; simpl; try done.
    + intros q u Hq. destruct (Hs _ _ Hq) as (t & ? & Ht). exists t. split; [done|]. intros _. by apply Ht.
    + intros q u Hq Hqu. simplify_eq. by rewrite (Huq _ Hqu).
    + intros q i _. by apply Hfb.
    + intros q i. destruct (decide (q = p)) as [->|Hne].
      * rewrite lookup_delete_eq. naive_solver.
      * rewrite lookup_delete_ne, Hhb by done. split; intros (_ & ?); (split; [congruence|done]).
  - destruct (FB !! p) as [i|] eqn:E; [|done].
    apply (i_fb _ _ _ _ _ I) in E as (u & Hin' & Hf & _); [|done]. rewrite (Huq _ Hin') in Hf. congruence.
Qed.

Lemma hashtab_remove_ok v w FB HB key : inv v w FB HB None ->
  (exists p s v', (p, s) ∈ w /\ type s = Used /\ base s = key /\ hashtab_remove key v = Some (Some p, v') /\
     inv v' w FB (delete p HB) (Some p) /\ FB !! p = None /\ same_frame v v') \/
  hashtab_remove key v = Some (None, v) /\ forall p s, (p, s) ∈ w -> type s = Used -> base s <> key.
Proof.
  intros I. unfold hashtab_remove. set (i := murmur64 key mod HASHTAB_COUNT).
  assert (Hi : 0 <= i < HASHTAB_COUNT) by (apply Z.mod_pos_bound; unfold HASHTAB_COUNT; lia).
  destruct (buckets_lookup _ _ _ _ (i_ht _ _ _ _ _ I) Hi) as (l & -> & Hnd & Hmem). cbn [mbind option_bind].
  assert (Hin : forall p, p ∈ l <-> exists s, (p, s) ∈ w /\ type s = Used /\ i = seg_hash s).
  { intros p. rewrite Hmem, (i_hb _ _ _ _ _ I). naive_solver. }
  destruct (find_base_ok v w FB HB key l I) as [(p & s & Hp & Hpl & Hk & ->)|(-> & Hno)].
  { intros p Hp. apply Hin in Hp as (s & ? & ? & _). eauto. }
  - cbn [mbind option_bind]. left. apply Hmem in Hpl as HHB.
    apply Hin in Hpl as (s' & Hp' & Hu & _).
    assert (s' = s) as ->.
    { apply list_elem_of_split in Hp as (x & y & ->).
      destruct (view_split _ _ _ _ _ _ _ _ I) as (_ & _ & Hq & _). by eapply Hq. }
    destruct (remove_at_ok _ _ _ _ _ (i_ht _ _ _ _ _ I) HHB) as (h & -> & Hh). cbn [mbind option_bind].
    destruct (hashtab_drop _ _ _ _ _ _ h I Hp Hu Hh) as [I' HF].
    eexists p, s, _. split_and!; try done; by split_and!.
  - right. split; [done|]. intros p s Hp Hu Hk. eapply (Hno p s); [done|apply Hin|done].
    exists s. split_and!; [done|done|]. unfold seg_hash. by rewrite Hk.
Qed.

(** ** Segment records *)

Section Pages.
Context {A : Type} {PA : PageAlloc A}.

(** The records of the lists, and those in [extra] that an operation has just
    taken, are distinct slots of pages that the allocator has handed out. *)
Definition pages_ok (v : vmem) (a : A) (extra : list (Z * Z)) : Prop :=
  (pa_ok a /\ NoDup (seg_page_list v)) /\ (forall q, q ∈ seg_page_list v -> pa_held a q) /\
  NoDup (seg_list v ++ free_segs v ++ extra) /\
  (forall p, p ∈ seg_list v ++ free_segs v ++ extra -> fst p ∈ seg_page_list v).

Definition wf (v : vmem) (a : A) : Prop :=
  (exists w FB HB, inv v w FB HB None) /\ pages_ok v a [].

Lemma pages_ok_frame v v' a : pages_ok v a [] -> same_frame v v' ->
  NoDup (seg_list v' ++ free_segs v') -> pages_ok v' a [].
Proof.
  intros ([H0 H1] & H2 & H3 & H4) (_ & _ & _ & Hp & Hf) Hn. rewrite !app_nil_r in *. unfold pages_ok. rewrite Hp, app_nil_r.
  split_and!; try done. intros p Hin. apply H4. by apply Hf.
Qed.

Definition same_config (v v' : vmem) : Prop :=
  _base v' = _base v /\ _size v' = _size v /\ _quantum v' = _quantum v.

Lemma same_frame_config v v' : same_frame v v' -> same_config v v'.
Proof. intros (? & ? & ? & _). done. Qed.

Lemma xfree_spec v a ptr sz : wf v a ->
  (exists n, allocated v ptr n /\
     (n = ALIGNUP sz (_quantum v) ->
      exists v', xfree ptr sz v = Some v' /\ wf v' a /\ same_config v v' /\
        forall b m, allocated v' b m <-> allocated v b m /\ b <> ptr) /\
     (n <> ALIGNUP sz (_quantum v) -> xfree ptr sz v = None)) \/
  (forall n, ~ allocated v ptr n) /\ xfree ptr sz v = Some v.
Proof.
  intros ((w & FB & HB & I) & Hpg). unfold xfree.
  destruct (hashtab_remove_ok v w FB HB ptr I)
    as [(p & s & v1 & Hp & Hu & <- & -> & I1 & HF & Hsf)|(-> & Hno)].
  - left. cbn [mbind option_bind]. exists (size s).
    destruct (i_segs _ _ _ _ _ I1 _ _ Hp) as (t & -> & _). cbn [mbind option_bind size].
    pose proof Hsf as (_ & _ & -> & _). split_and!.
    + apply (allocated_live _ _ _ _ _ _ I). by exists p, s.
    + intros <-. rewrite Z.eqb_refl. cbn [assert mbind option_bind].
      pose proof Hp as Hsp. apply list_elem_of_split in Hsp as (w1 & w2 & ->).
      destruct (freelist_insert_ok _ _ _ _ _ _ _ I1 HF) as (v' & w' & FB' & -> & I' & Hsf' & Hrel).
      pose proof (same_frame_trans _ _ _ Hsf Hsf') as Hs. exists v'. split; [done|]. split; [|split; [by apply same_frame_config|]].
      * split; [by eexists _, _, _|]. eapply pages_ok_frame; [done|done|apply I'].
      * intros b m. rewrite (allocated_live _ _ _ _ _ _ I'), (allocated_live _ _ _ _ _ _ I). split.
        -- intros (q & u & Hin & Hq & <- & <-). apply Hrel in Hin as [Hin Hne]; [|done].
           split; [by exists q, u|]. intros Hb. by destruct (view_base_inj _ _ _ _ _ _ _ _ _ I Hin Hp Hb).
        -- intros [(q & u & Hin & Hq & <- & <-) Hb]. exists q, u. split_and!; try done.
           apply Hrel; [done|]. split; [done|]. intros ->. apply Hb.
           destruct (view_split _ _ _ _ _ _ _ _ I) as (_ & _ & Huq & _). by rewrite (Huq p u Hin eq_refl).
    + intros Hne. replace (size s =? ALIGNUP sz (_quantum v)) with false by lia. done.
  - right. split; [|done]. intros n Ha. apply (allocated_live _ _ _ _ _ _ I) in Ha as (p & s & ? & ? & ? & _).
    by eapply Hno.
Qed.

Lemma page_slots_ok page : NoDup (page_slots page) /\ (forall p, p ∈ page_slots page -> fst p = page) /\
  exists seg rest, page_slots page = seg :: rest /\ rest <> [].
Proof.
  unfold page_slots. split_and!.
  - apply (NoDup_fmap_2_strong _ _); [|rewrite NoDup_ListNoDup; apply List.NoDup_rev, List.seq_NoDup]. intros. simplify_eq. lia.
  - intros p Hp. apply list_elem_of_fmap in Hp as (i & -> & _). done.
  - by eexists _, _.
Qed.

(** Taking a record fails only when no page can be had. *)
Lemma seg_alloc_ok v a ex : pages_ok v a ex ->
  (seg_alloc v a = (None, v, a) /\ fst (pa_alloc a) = None) \/
  exists q fs ps a', seg_alloc v a = (Some q, with_free_segs fs ps v, a') /\
    pages_ok (with_free_segs fs ps v) a' (q :: ex) /\ (fst (pa_alloc a) = None -> a' = a).
Proof.
  intros ((Hok & Hnp) & Hheld & Hnd & Hin). unfold seg_alloc.
  destruct (free_segs v) as [|q fs] eqn:Ef.
  - pose proof (pa_alloc_ok a Hok) as Hal. destruct (pa_alloc a) as [[page|] a'].
    + destruct (page_slots_ok page) as (Hn & Hpg & seg & rest & Hps & _). rewrite Hps in *.
      destruct Hal as (Hok' & _ & Hfresh & Hh). right. eexists _, _, _, _. split; [done|]. split; [|done].
      assert (Hnew : forall p, p ∈ seg_list v ++ ex -> p ∉ seg :: rest).
      { intros p Hp Hp'. apply Hfresh. rewrite <- (Hpg p Hp'). apply Hheld, Hin. done. }
      assert (Hperm : seg_list v ++ rest ++ seg :: ex ≡ₚ (seg_list v ++ ex) ++ (seg :: rest)) by solve_Permutation.
      split_and!; simpl.
      * done.
      * constructor; [|done]. intros Hpage. by apply Hfresh, Hheld.
      * intros p Hp. apply Hh. apply elem_of_cons in Hp as [->|Hp]; [by right|left; by apply Hheld].
      * rewrite Hperm. apply NoDup_app. split_and!; [done|done|done].
      * intros p Hp. rewrite Hperm in Hp. apply elem_of_app in Hp as [Hp|Hp].
        -- right. by apply Hin.
        -- rewrite (Hpg p Hp). left.
    + subst a'. by left.
  - right. eexists q, fs, (seg_page_list v), a. split; [done|]. split; [|done].
    assert (Hperm : seg_list v ++ fs ++ q :: ex ≡ₚ seg_list v ++ (q :: fs) ++ ex) by solve_Permutation.
    split_and!; simpl; [done|done|done|by rewrite Hperm|]. intros p Hp. rewrite Hperm in Hp. by apply Hin.
Qed.

Lemma pages_ok_perm v v' a ex ex' : pages_ok v a ex -> seg_page_list v' = seg_page_list v ->
  seg_list v' ++ free_segs v' ++ ex' ≡ₚ seg_list v ++ free_segs v ++ ex -> pages_ok v' a ex'.
Proof.
  intros ([? ?] & ? & ? & Hin) Hp Hperm. unfold pages_ok. rewrite Hp, Hperm. split_and!; try done.
  intros p. rewrite Hperm. apply Hin.
Qed.

Lemma inv_free_segs v w FB HB X fs ps : inv v w FB HB X -> NoDup (seg_list v ++ fs) ->
  inv (with_free_segs fs ps v) w FB HB X.
Proof. intros [] Hn. by split. Qed.

Lemma pages_ok_nodup v a ex : pages_ok v a ex -> NoDup (seg_list v ++ free_segs v).
Proof. intros (_ & _ & H & _). rewrite (assoc_L app) in H. by apply NoDup_app in H as (? & _). Qed.

Lemma pages_ok_fresh v a q ex : pages_ok v a (q :: ex) -> q ∉ seg_list v ++ free_segs v.
Proof.
  intros (_ & _ & H & _). rewrite (assoc_L app) in H. apply NoDup_app in H as (_ & H & _).
  intros Hq. apply (H q Hq). left.
Qed.

(** ** Splitting the segment in limbo

    Record [q] takes the first [d] bytes of [p]. *)
Lemma split_inv v w1 p s w2 FB HB q d tq t f h FB' HB' :
  inv v (w1 ++ (p, s) :: w2) FB HB (Some p) -> q ∉ seg_list v ++ free_segs v -> 0 < d < size s ->
  tq <> Span -> (tq = Free -> forall r sr, last w1 = Some (r, sr) -> type sr <> Free) ->
  buckets f FREELIST_COUNT FB' -> buckets h HASHTAB_COUNT HB' ->
  (forall r, r <> q -> r <> p -> FB' !! r = FB !! r) -> (forall r, r <> q -> HB' !! r = HB !! r) ->
  let sq := mkSeg (base s) d tq in
  (forall i, FB' !! q = Some i <-> tq = Free /\ i = Z.log2 d) ->
  (forall i, HB' !! q = Some i <-> tq = Used /\ i = seg_hash sq) ->
  forall v', segs v' = <[p := mkSeg (base s + d) (size s - d) t]> (<[q := sq]> (segs v)) ->
  freelists v' = f -> hash_tab v' = h -> seg_list v' = insert_before p q (seg_list v) ->
  free_segs v' = free_segs v -> _base v' = _base v -> _size v' = _size v ->
  inv v' (w1 ++ (q, sq) :: (p, mkSeg (base s + d) (size s - d) Used) :: w2) FB' HB' (Some p).
Proof.
  intros I Hq Hd Htq Hlast Hf Hh HFB HHB sq HFq HHq v' Esg Efl Eht Esl Efs Eb Es.
  destruct (view_split _ _ _ _ _ _ _ _ I) as (Hp1 & Hp2 & Huq & Hsp).
  destruct (i_span _ _ _ _ _ I) as (span & b & n & Hsl & Hss).
  pose proof (Hsp _ _ _ Hsl Hss) as Hspp. rewrite fmap_app, fmap_cons in Hsl. simpl in Hsl.
  assert (Hsl' : seg_list v' = span :: w1.*1 ++ q :: p :: w2.*1).
  { rewrite Esl, Hsl, (app_comm_cons _ _ span), insert_before_app; [done|]. set_solver. }
  assert (Hqv : q <> span /\ q <> p /\ q ∉ w1.*1 /\ q ∉ w2.*1) by (rewrite Hsl in Hq; set_solver).
  destruct Hqv as (Hqs & Hqp & Hq1 & Hq2).
  set (s' := mkSeg (base s + d) (size s - d) Used).
  assert (Hmem : forall r u, (r, u) ∈ w1 ++ (q, sq) :: (p, s') :: w2 <->
     (r, u) = (q, sq) \/ (r, u) = (p, s') \/ (r <> q /\ r <> p /\ (r, u) ∈ w1 ++ (p, s) :: w2)).
  { intros r u. rewrite !elem_of_app, !elem_of_cons.
    assert ((r, u) ∈ w1 \/ (r, u) ∈ w2 -> r <> q /\ r <> p).
    { intros [Hr|Hr]; apply (list_elem_of_fmap_2 fst _ (r, u)) in Hr; simpl in Hr; set_solver. }
    split; [intros [?|[?|[?|?]]]; tauto|]. intros [?|[?|(? & ? & [?|[?|?]])]]; simplify_eq; tauto. }
  clear Hsp. pose proof (view_bounds _ _ _ _ _ p s I ltac:(set_solver)) as (_ & _ & _ & Hnsp).
  destruct I as [_ Hn Hsg Hl Hti Ha Hr Hfl Hht Hfb Hhb]. split.
  - exists span, b, n. rewrite Hsl', Esg, !lookup_insert_ne by done. by rewrite fmap_app.
  - rewrite Hsl', Efs. rewrite Hsl in Hn, Hq. assert (Hpm : (span :: w1.*1 ++ q :: p :: w2.*1) ++ free_segs v ≡ₚ
      q :: ((span :: w1.*1 ++ p :: w2.*1) ++ free_segs v)) by solve_Permutation.
    rewrite Hpm. by constructor.
  - intros r u Hin. rewrite Esg. apply Hmem in Hin as [Hin|[Hin|(? & ? & Hin)]]; simplify_eq.
    + rewrite lookup_insert_ne, lookup_insert_eq by done. by exists tq.
    + rewrite lookup_insert_eq. exists t. split; [done|congruence].
    + rewrite !lookup_insert_ne by done. by apply Hsg.
  - intros r u Hr' Hin. simplify_eq. apply Hmem in Hin as [Hin|[Hin|(? & ? & Hin)]]; by simplify_eq.
  - rewrite Eb, Es. rewrite fmap_app, fmap_cons in Hti. apply tiles_split in Hti as (Ht1 & _ & _ & Ht2).
    rewrite fmap_app, !fmap_cons. simpl in *. apply tiles_join; simpl; try done; [lia|].
    split_and!; [done|lia|done|]. by replace (base s + d + (size s - d)) with (base s + size s) by lia.
  - rewrite fmap_app in Ha |- *. simpl in *. apply no_adj_app in Ha as (Ha1 & Ha2 & Ha3).
    apply no_adj_app. split_and!; [done| |].
    + split; [by right|]. destruct w2; [done|]. simpl in *. split; [by left|tauto].
    + intros x y Hx [= <-]. rewrite fmap_last in Hx. destruct (last w1) as [[r sr]|] eqn:El; [|done].
      simpl in Hx. simplify_eq. destruct (decide (tq = Free)) as [E|E]; [left; eauto|by right].
  - by rewrite Eb, Es.
  - by rewrite Efl.
  - by rewrite Eht.
  - intros r i Hr'. destruct (decide (r = q)) as [->|Hne].
    + rewrite HFq. split; [intros [-> ->]; exists sq; split; [set_solver|done]|].
      intros (u & Hin & Hu & ->). apply Hmem in Hin as [Hin|[Hin|(? & ? & Hin)]]; by simplify_eq.
    + assert (r <> p) by congruence. rewrite HFB, Hfb by done.
      split; intros (u & Hin & ?); exists u; (split; [|done]); [apply Hmem; tauto|].
      apply Hmem in Hin as [Hin|[Hin|(? & ? & Hin)]]; by simplify_eq.
  - intros r i. destruct (decide (r = q)) as [->|Hne].
    + rewrite HHq. split; [intros [-> ->]; split; [congruence|]; exists sq; split; [set_solver|done]|].
      intros (_ & u & Hin & Hu & ->). apply Hmem in Hin as [Hin|[Hin|(? & ? & Hin)]]; by simplify_eq.
    + rewrite HHB, Hhb by done. split; intros (Hrp & u & Hin & ?); (split; [done|]); exists u; (split; [|done]).
      * apply Hmem. right. right. split_and!; [done|congruence|done].
      * apply Hmem in Hin as [Hin|[Hin|(? & ? & Hin)]]; by simplify_eq.
Qed.

(** A record that is in no list is not in the view either. *)
Lemma fresh_facts v w1 p s w2 FB HB q : inv v (w1 ++ (p, s) :: w2) FB HB (Some p) ->
  q ∉ seg_list v ++ free_segs v -> q <> p /\ FB !! q = None /\ HB !! q = None.
Proof.
  intros I Hq.
  assert (Hqp : q <> p).
  { intros ->. apply Hq. destruct (i_span _ _ _ _ _ I) as (span & b & n & -> & _).
    rewrite fmap_app, fmap_cons. set_solver. }
  assert (Hnv : forall u, (q, u) ∉ w1 ++ (p, s) :: w2).
  { intros u Hu. apply Hq. destruct (i_span _ _ _ _ _ I) as (span & b & n & -> & _).
    apply (list_elem_of_fmap_2 fst _ (q, u)) in Hu. set_solver. }
  assert (HFq : FB !! q = None).
  { destruct (FB !! q) as [i|] eqn:E; [|done]. apply (i_fb _ _ _ _ _ I) in E as (u & Hu & _); [|congruence].
    by apply Hnv in Hu. }
  assert (HHq : HB !! q = None).
  { destruct (HB !! q) as [i|] eqn:E; [|done]. apply (i_hb _ _ _ _ _ I) in E as (_ & u & Hu & _).
    by apply Hnv in Hu. }
  done.
Qed.

(** The part in front of the wanted address becomes a free segment of its own. *)
Lemma front_split_ok v w1 p s w2 FB HB q d t : inv v (w1 ++ (p, s) :: w2) FB HB (Some p) ->
  q ∉ seg_list v ++ free_segs v -> 0 < d < size s ->
  (forall r sr, last w1 = Some (r, sr) -> type sr <> Free) ->
  let sq := mkSeg (base s) d Free in let s' := mkSeg (base s + d) (size s - d) t in
  let v1 := set_seg p s' (with_seg_list (insert_before p q (seg_list (set_seg q sq v))) (set_seg q sq v)) in
  exists v2, freelist_insert_no_merge q v1 = Some v2 /\
    inv v2 (w1 ++ (q, sq) :: (p, as_used s') :: w2) (<[q := Z.log2 d]> FB) HB (Some p) /\
    seg_list v2 = insert_before p q (seg_list v) /\ free_segs v2 = free_segs v /\
    seg_page_list v2 = seg_page_list v /\ _quantum v2 = _quantum v /\ _base v2 = _base v /\
    _size v2 = _size v /\ segs v2 !! p = Some s'.
Proof.
  intros I Hq Hd Hlast sq s' v1.
  destruct (fresh_facts _ _ _ _ _ _ _ _ I Hq) as (Hqp & HFq & HHq).
  destruct (view_bounds _ _ _ _ _ p s I) as (? & ? & ? & _); [set_solver|].
  destruct (i_range _ _ _ _ _ I) as (? & ? & ?).
  destruct (size_to_index_log2 d) as [Hidx Hlog]; [lia|].
  assert (Hsq : segs v1 !! q = Some sq) by (simpl; rewrite lookup_insert_ne, lookup_insert_eq by done; done).
  destruct (push_front_ok _ _ FB (Z.log2 d) q (i_fl _ _ _ _ _ I) Hlog HFq) as (f & Hf & Hb).
  unfold freelist_insert_no_merge. rewrite Hsq. cbn [mbind option_bind]. unfold sq at 1 2 3 4 5. cbn [base size].
  replace (d =? 0) with false by lia. cbn [negb assert mbind option_bind]. rewrite Hidx.
  change (freelists v1) with (freelists v). rewrite Hf. cbn [mbind option_bind]. eexists. split; [done|].
  assert (Hsg : <[q := sq]> (segs v1) = segs v1) by (by apply insert_id).
  split_and!; try done.
  - eapply (split_inv v w1 p s w2 FB HB q d Free t f (hash_tab v)); try done.
    + apply I.
    + intros r Hr _. by rewrite lookup_insert_ne.
    + intros i. rewrite lookup_insert_eq. split; [intros [= <-]; done|]. by intros (_ & ->).
    + intros i. rewrite HHq. split; [done|]. by intros [? _].
  - change (<[q := sq]> (segs v1) !! p = Some s'). rewrite Hsg. apply lookup_insert_eq.
Qed.

(** The merging loop does not look at the hash table. *)
Lemma no_merge_hash h p v : freelist_insert_no_merge p (with_hash_tab h v) =
  (with_hash_tab h <$> freelist_insert_no_merge p v).
Proof.
  unfold freelist_insert_no_merge. simpl (segs _). destruct (segs v !! p) as [s|]; [|done].
  cbn [mbind option_bind]. destruct (assert _); [|done]. cbn [mbind option_bind]. simpl (freelists _).
  by destruct (push_front_at _ _ _).
Qed.

Lemma freelist_remove_hash h l p v : freelist_remove p (with_seg_list l (with_hash_tab h v)) =
  (with_hash_tab h <$> freelist_remove p (with_seg_list l v)).
Proof.
  unfold freelist_remove. simpl (segs _). destruct (segs v !! p) as [s|]; [|done].
  cbn [mbind option_bind]. simpl (freelists _). by destruct (remove_at _ _ _).
Qed.

Lemma insert_loop_hash h fuel p v : insert_loop fuel p (with_hash_tab h v) =
  (with_hash_tab h <$> insert_loop fuel p v).
Proof.
  revert p v. induction fuel as [|fuel IH]; intros p v; [done|]. cbn [insert_loop]. simpl (segs _).
  simpl (seg_list _). destruct (segs v !! p) as [s|]; [|done]. cbn [mbind option_bind].
  rewrite !no_merge_hash.
  repeat match goal with
    | |- context [match prev_of ?a ?b with _ => _ end] => destruct (prev_of a b)
    | |- context [match next_of ?a ?b with _ => _ end] => destruct (next_of a b)
    | |- context [?m !! ?x] => destruct (m !! x) as [?|]; cbn [mbind option_bind]; try done
    | |- context [mergeable ?a ?b ?c] => destruct (mergeable a b c)
    | |- context [list_remove ?a ?b] => destruct (list_remove a b); cbn [mbind option_bind]; try done
    | |- context [freelist_remove ?a (with_seg_list ?l (with_hash_tab ?h ?v))] =>
        rewrite freelist_remove_hash; destruct (freelist_remove a (with_seg_list l v)) as [?|];
        cbn [fmap option_fmap option_map mbind option_bind]; try done
    end; try done; (etrans; [|apply IH]); done.
Qed.

Lemma freelist_insert_hash h p v : freelist_insert p (with_hash_tab h v) =
  (with_hash_tab h <$> freelist_insert p v).
Proof.
  unfold freelist_insert. simpl (segs _). destruct (segs v !! p) as [s|]; [|done]. cbn [mbind option_bind].
  destruct (assert _); [|done]. cbn [mbind option_bind]. apply insert_loop_hash.
Qed.

Lemma with_hash_tab_id v : with_hash_tab (hash_tab v) v = v.
Proof. by destruct v. Qed.

(** The first [d] bytes become the used segment [q]; the rest goes back to the
    free lists. *)
Lemma back_split_ok v w1 p s w2 FB HB q d t : inv v (w1 ++ (p, s) :: w2) FB HB (Some p) ->
  q ∉ seg_list v ++ free_segs v -> 0 < d < size s -> FB !! p = None ->
  let sq := mkSeg (base s) d Used in let s' := mkSeg (base s + d) (size s - d) t in
  let v1 := set_seg p s' (with_seg_list (insert_before p q (seg_list (set_seg q sq v))) (set_seg q sq v)) in
  exists v2 w' FB' HB', (v2 ← freelist_insert p v1; hashtab_insert q v2) = Some v2 /\
    inv v2 w' FB' HB' None /\ same_frame v1 v2 /\
    released p (w1 ++ (q, sq) :: (p, as_used s') :: w2) w'.
Proof.
  intros I Hq Hd HF sq s' v1. destruct (fresh_facts _ _ _ _ _ _ _ _ I Hq) as (Hqp & HFq & HHq).
  destruct (push_front_ok _ _ HB (seg_hash sq) q (i_ht _ _ _ _ _ I) (seg_hash_bound sq) HHq) as (h & Hh & Hb).
  assert (I1 : inv (with_hash_tab h v1) (w1 ++ (q, sq) :: (p, as_used s') :: w2) FB
                 (<[q := seg_hash sq]> HB) (Some p)).
  { eapply (split_inv v w1 p s w2 FB HB q d Used t (freelists v) h); try done.
    - apply I.
    - intros r Hr. by rewrite lookup_insert_ne.
    - intros i. rewrite HFq. split; [done|]. by intros [? _].
    - intros i. rewrite lookup_insert_eq. split; [intros [= <-]; done|]. by intros (_ & ->). }
  change (w1 ++ (q, sq) :: (p, as_used s') :: w2) with (w1 ++ [(q, sq)] ++ (p, as_used s') :: w2) in *.
  rewrite (assoc_L app) in *.
  destruct (freelist_insert_ok _ _ _ _ _ _ _ I1 HF) as (v2 & w' & FB' & Hins & I' & Hsf & Hrel).
  exists v2, w', FB', (<[q := seg_hash sq]> HB). split_and!; [|done|done|done].
  assert (Hv1 : v1 = with_hash_tab (hash_tab v) (with_hash_tab h v1)) by done.
  rewrite Hv1, freelist_insert_hash, Hins. cbn [fmap option_fmap option_map mbind option_bind].
  assert (Hin : (q, sq) ∈ w') by (apply Hrel; [done|]; split; [set_solver|done]).
  destruct (i_segs _ _ _ _ _ I' _ _ Hin) as (t' & Hsg & Ht'). rewrite Ht' in Hsg by done. simpl in Hsg.
  fold sq in Hsg.
  unfold hashtab_insert. simpl (segs _). rewrite Hsg. cbn [mbind option_bind]. fold (seg_hash sq).
  simpl (hash_tab _). rewrite Hh. cbn [mbind option_bind]. f_equal.
  assert (Hhv : hash_tab v2 = h).
  { pose proof (freelist_insert_hash h p (with_hash_tab h v1)) as E.
    change (with_hash_tab h (with_hash_tab h v1)) with (with_hash_tab h v1) in E. rewrite Hins in E.
    simpl in E. injection E as E. by rewrite E. }
  rewrite <- Hhv. unfold set_seg. simpl. change (mkSeg _ _ Used) with sq. rewrite insert_id by done. by destruct v2.
Qed.

(** ** seg_fit *)

(** The segment goes back to where it was. *)
Lemma undo_ok v w1 p s w2 FB HB i (popped : bool) (a : A) : inv v (w1 ++ (p, as_used s) :: w2) FB HB (Some p) ->
  segs v !! p = Some s -> type s = Free -> no_adj (w1 ++ (p, s) :: w2).*2 ->
  FB !! p = (if popped then None else Some i) -> i = Z.log2 (size s) ->
  exists f FB', seg_fit_undo p i popped v a = Some (0, with_freelists f v, a) /\
    inv (with_freelists f v) (w1 ++ (p, s) :: w2) FB' HB None.
Proof.
  intros I Hs Ht Hadj HF Hi. pose proof (limbo_not_hashed _ _ _ _ _ I) as HH.
  destruct (view_bounds _ _ _ _ _ p (as_used s) I) as (? & ? & ? & _); [set_solver|]. simpl in *.
  destruct (i_range _ _ _ _ _ I) as (? & ? & ?).
  destruct (size_to_index_log2 (size s)) as [_ Hlog]; [lia|]. rewrite <- Hi in Hlog.
  assert (exists f FB', seg_fit_undo p i popped v a = Some (0, with_freelists f v, a) /\
    buckets f FREELIST_COUNT FB' /\ FB' !! p = Some i /\ forall q, q <> p -> FB' !! q = FB !! q)
    as (f & FB' & Hu & Hb & Hp & Ho).
  { unfold seg_fit_undo. destruct popped.
    - destruct (push_front_ok _ _ FB i p (i_fl _ _ _ _ _ I) Hlog HF) as (f & -> & Hb).
      exists f, (<[p := i]> FB). split_and!; [done|done|apply lookup_insert_eq|].
      intros q Hq. by apply lookup_insert_ne.
    - exists (freelists v), FB. split_and!; [by destruct v|apply I|done|done]. }
  exists f, FB'. split; [done|].
  replace (with_freelists f v) with
    (with_hash_tab (hash_tab v) (with_freelists f (set_seg p (mkSeg (base s) (size s) Free) v))).
  2:{ unfold set_seg. rewrite insert_id; [by destruct v|]. rewrite Hs. destruct s; simpl in *; by subst. }
  apply (retype_inv v w1 p (as_used s) w2 FB HB (Some p) None Free s); try done.
  - intros q Hq. split; [congruence|done].
  - congruence.
  - apply I.
  - intros j _. rewrite Hp, Ht, Hi. naive_solver.
  - intros j. rewrite HH, Ht. naive_solver.
Qed.

Lemma unlink_ok v w FB HB p i (popped : bool) : inv v w FB HB (Some p) ->
  FB !! p = (if popped then None else Some i) ->
  exists f, seg_fit_unlink p i popped v = Some (with_freelists f v) /\
    inv (with_freelists f v) w (delete p FB) HB (Some p).
Proof.
  intros I HF. unfold seg_fit_unlink. destruct popped.
  - exists (freelists v). rewrite delete_id by done. split; [by destruct v|]. by destruct v.
  - destruct (unlink_limbo _ _ _ _ _ _ I HF) as (f & -> & I'). by exists f.
Qed.

Lemma live_middle w1 (p : Z * Z) s w2 b n : live (w1 ++ (p, s) :: w2) b n <->
  live (w1 ++ w2) b n \/ type s = Used /\ b = base s /\ n = size s.
Proof.
  unfold live. split.
  - intros (q & u & Hin & ? & ? & ?). rewrite elem_of_app, elem_of_cons in Hin.
    destruct Hin as [Hin|[Hin|Hin]]; [left|right|left]; [|by simplify_eq|];
      exists q, u; rewrite elem_of_app; tauto.
  - intros [(q & u & Hin & ? & ? & ?)|(? & -> & ->)].
    + exists q, u. rewrite elem_of_app in Hin. rewrite elem_of_app, elem_of_cons. tauto.
    + exists p, s. split_and!; [set_solver|done..].
Qed.

Lemma place_ok v w1 p s w2 FB HB i (popped : bool) q (a : A) sz : inv v (w1 ++ (p, as_used s) :: w2) FB HB (Some p) ->
  FB !! p = (if popped then None else Some i) -> pages_ok v a [q] -> 0 < sz <= size s ->
  exists v' w' FB' HB', seg_fit_place sz p i popped q s v a = Some (base s, v', a) /\
    inv v' w' FB' HB' None /\ pages_ok v' a [] /\ same_config v v' /\
    forall b n, live w' b n <-> live (w1 ++ w2) b n \/ b = base s /\ n = sz.
Proof.
  intros I HF Hpg Hsz. unfold seg_fit_place.
  destruct (view_bounds _ _ _ _ _ p (as_used s) I) as (? & ? & ? & _); [set_solver|]. simpl in *.
  destruct (i_range _ _ _ _ _ I) as (? & ? & ?).
  destruct (unlink_ok _ _ _ _ _ _ _ I HF) as (f & -> & I1). cbn [mbind option_bind].
  destruct (Z.eqb_spec (size s) sz) as [Heq|Hne].
  - assert (Hp' : pages_ok (seg_free q (with_freelists f v)) a []).
    { eapply pages_ok_perm; [exact Hpg|done|]. simpl. solve_Permutation. }
    assert (I2 : inv (seg_free q (with_freelists f v)) (w1 ++ (p, as_used s) :: w2) (delete p FB) HB (Some p)).
    { apply inv_free_segs; [done|]. by apply pages_ok_nodup in Hp'. }
    destruct (hashtab_insert_ok _ _ _ _ _ _ _ I2) as (v' & HB' & -> & I' & Hsf); [apply lookup_delete_eq|].
    cbn [mbind option_bind]. eexists _, _, _, _. split; [done|]. split; [exact I'|]. split_and!.
    + eapply pages_ok_frame; [exact Hp'|done|apply I'].
    + apply same_frame_config in Hsf. done.
    + intros b n. rewrite live_middle. simpl. rewrite Heq. naive_solver.
  - assert (base s ⊞ sz = base s + sz) as -> by (unfold add64; apply u64_small; lia).
    assert (size s ⊟ sz = size s - sz) as -> by (unfold sub64; apply u64_small; lia).
    pose proof (pages_ok_fresh _ _ _ _ Hpg) as Hq.
    destruct (back_split_ok _ _ _ _ _ _ _ q sz (type s) I1 Hq) as (v' & w' & FB' & HB' & Hv' & I' & Hsf & Hrel);
      [simpl; lia|apply lookup_delete_eq|].
    cbv zeta. cbv zeta in Hv'. change (base (as_used s)) with (base s) in *. change (size (as_used s)) with (size s) in *.
    exists v', w', FB', HB'. split_and!.
    + destruct (freelist_insert p _) as [v2|]; [|done]. cbn [mbind option_bind] in Hv' |- *. by rewrite Hv'.
    + done.
    + eapply pages_ok_frame; [|exact Hsf|apply I']. eapply pages_ok_perm; [exact Hpg|done|].
      simpl. destruct (i_span _ _ _ _ _ I) as (span & bb & nn & Hl & Hss).
      destruct (view_split _ _ _ _ _ _ _ _ I) as (Hp1 & _ & _ & Hps). specialize (Hps _ _ _ Hl Hss).
      rewrite Hl, fmap_app, fmap_cons. simpl (fst _). rewrite app_comm_cons, insert_before_app by set_solver.
      solve_Permutation.
    + by apply same_frame_config in Hsf.
    + intros b n. unfold live. split.
      * intros (r & u & Hin & Hu & <- & <-). apply Hrel in Hin as [Hin Hr]; [|done].
        rewrite elem_of_app, !elem_of_cons in Hin. destruct Hin as [Hin|[Hin|[Hin|Hin]]]; simplify_eq.
        -- left. exists r, u. set_solver.
        -- by right.
        -- left. exists r, u. set_solver.
      * intros [(r & u & Hin & Hu & <- & <-)|[-> ->]].
        -- exists r, u. split_and!; try done. apply Hrel; [done|]. split; [set_solver|].
           intros ->. by eapply no_dup_view.
        -- exists q, (mkSeg (base s) sz Used). split_and!; try done. apply Hrel; [done|]. split; [set_solver|].
           by destruct (fresh_facts _ _ _ _ _ _ _ _ I Hq).
Qed.

Lemma no_adj_last w1 (p : Z * Z) s (w2 : list ((Z * Z) * Segment)) : no_adj (w1 ++ (p, s) :: w2).*2 -> type s = Free ->
  forall r sr, last w1 = Some (r, sr) -> type sr <> Free.
Proof.
  intros Ha Hf r sr Hl. rewrite fmap_app in Ha. apply no_adj_app in Ha as (_ & _ & Ha).
  destruct (Ha sr s) as [?|?]; [by rewrite fmap_last, Hl|done|done|done].
Qed.

(** The wanted range lies in the segment. *)
Definition range_fits (sz min max : Z) (s : Segment) : Prop :=
  Z.max (base s) min + sz <= Z.min (base s + size s) max.

Definition no_pages (a : A) : Prop := fst (pa_alloc a) = None.

(** The outcome of an attempt on the view [w], whose used ranges are [L]. *)
Definition outcome (v : vmem) (w : list ((Z * Z) * Segment)) (a : A) (sz : Z)
    (why : A -> Prop) (where_ : Z -> Prop) (r : Z) (v' : vmem) (a' : A) : Prop :=
  exists w' FB' HB', inv v' w' FB' HB' None /\ pages_ok v' a' [] /\ same_config v v' /\
    (no_pages a -> no_pages a') /\
    (r = 0 /\ w' = w /\ why a' \/
     where_ r /\ 0 < r /\ forall b n, live w' b n <-> live w b n \/ b = r /\ n = sz).

Lemma undo_outcome v w1 p s w2 FB HB i (popped : bool) (a : A) sz why wh :
  inv v (w1 ++ (p, as_used s) :: w2) FB HB (Some p) ->
  segs v !! p = Some s -> type s = Free -> no_adj (w1 ++ (p, s) :: w2).*2 ->
  FB !! p = (if popped then None else Some i) -> i = Z.log2 (size s) -> pages_ok v a [] -> why a ->
  exists v', seg_fit_undo p i popped v a = Some (0, v', a) /\
    outcome v (w1 ++ (p, s) :: w2) a sz why wh 0 v' a.
Proof.
  intros I Hs Ht Hadj HF Hi Hpg Hw.
  destruct (undo_ok _ _ _ _ _ _ _ _ _ a I Hs Ht Hadj HF Hi) as (f & FB' & -> & I').
  eexists. split; [done|]. exists (w1 ++ (p, s) :: w2), FB', HB. split_and!; try done.
  by left.
Qed.

Lemma place_outcome v v0 w1 p s w2 FB HB i (popped : bool) q (a a0 : A) sz why (wh : Z -> Prop) w :
  inv v (w1 ++ (p, as_used s) :: w2) FB HB (Some p) ->
  FB !! p = (if popped then None else Some i) -> pages_ok v a [q] -> 0 < sz <= size s ->
  same_config v0 v -> (no_pages a0 -> no_pages a) -> wh (base s) ->
  (forall b n, live (w1 ++ w2) b n <-> live w b n) ->
  exists v', seg_fit_place sz p i popped q s v a = Some (base s, v', a) /\
    outcome v0 w a0 sz why wh (base s) v' a.
Proof.
  intros I HF Hpg Hsz Hc Hno Hwh Hw.
  destruct (place_ok _ _ _ _ _ _ _ _ _ _ _ _ I HF Hpg Hsz) as (v' & w' & FB' & HB' & -> & I' & Hp' & Hc' & Hl).
  destruct (view_bounds _ _ _ _ _ p (as_used s) I) as (? & _ & _ & _); [set_solver|]. simpl in *.
  destruct (i_range _ _ _ _ _ I) as (? & _ & _).
  exists v'. split; [done|]. exists w', FB', HB'. split_and!; try done.
  - destruct Hc as (? & ? & ?), Hc' as (? & ? & ?). split_and!; congruence.
  - right. split_and!; [done|lia|]. intros b n. by rewrite Hl, Hw.
Qed.

(** The same after the part in front has been split off. *)
Lemma front_outcome v v0 w1 p s w2 FB HB i (popped : bool) q2 q (a a0 : A) sz d why (wh : Z -> Prop) :
  inv v (w1 ++ (p, as_used s) :: w2) FB HB (Some p) -> type s = Free ->
  no_adj (w1 ++ (p, s) :: w2).*2 ->
  FB !! p = (if popped then None else Some i) -> pages_ok v a [q2; q] -> 0 < d -> 0 < sz -> d + sz <= size s ->
  same_config v0 v -> (no_pages a0 -> no_pages a) -> wh (base s + d) ->
  let sq := mkSeg (base s) d Free in let s' := mkSeg (base s + d) (size s - d) (type s) in
  let v1 := set_seg p s' (with_seg_list (insert_before p q2 (seg_list (set_seg q2 sq v))) (set_seg q2 sq v)) in
  exists v', (v ← freelist_insert_no_merge q2 v1; seg_fit_place sz p i popped q s' v a) =
      Some (base s + d, v', a) /\
    outcome v0 (w1 ++ (p, s) :: w2) a0 sz why wh (base s + d) v' a.
Proof.
  intros I Ht Hadj HF Hpg Hd Hsz Hds Hc Hno Hwh sq s' v1. pose proof (pages_ok_fresh _ _ _ _ Hpg) as Hq2.
  destruct (fresh_facts _ _ _ _ _ _ _ _ I Hq2) as (Hqp & _).
  destruct (front_split_ok _ _ _ _ _ _ _ q2 d (type s) I Hq2) as
    (v3 & Hv3 & I3 & Hsl & Hfs & Hpl & Hqt & Hbs & Hsz3 & Hs3); [simpl; lia|by apply (no_adj_last _ _ _ _ Hadj)|].
  change (freelist_insert_no_merge q2 v1 = Some v3) in Hv3. rewrite Hv3. cbn [mbind option_bind].
  replace (w1 ++ _) with ((w1 ++ [(q2, sq)]) ++ (p, as_used s') :: w2) in I3 by (by rewrite <- (assoc_L app)).
  change (base s + d) with (base s'). eapply (place_outcome v3 v0 _ p s' w2); [exact I3|..].
  - by rewrite lookup_insert_ne.
  - eapply pages_ok_perm; [exact Hpg|done|]. rewrite Hsl, Hfs.
    destruct (i_span _ _ _ _ _ I) as (span & bb & nn & Hl & Hss).
    destruct (view_split _ _ _ _ _ _ _ _ I) as (Hp1 & _ & _ & Hps). specialize (Hps _ _ _ Hl Hss).
    rewrite Hl, fmap_app, fmap_cons. simpl (fst _). rewrite app_comm_cons, insert_before_app by set_solver.
    solve_Permutation.
  - simpl. lia.
  - destruct Hc as (? & ? & ?). split_and!; congruence.
  - done.
  - done.
  - intros b n. rewrite <- (assoc_L app). cbn [app]. rewrite !live_middle, Ht. simpl. naive_solver.
Qed.

Lemma seg_fit_ok v w1 p s w2 FB HB i (popped : bool) (a : A) sz min max :
  inv v (w1 ++ (p, as_used s) :: w2) FB HB (Some p) ->
  segs v !! p = Some s -> type s = Free -> no_adj (w1 ++ (p, s) :: w2).*2 ->
  FB !! p = (if popped then None else Some i) -> i = Z.log2 (size s) -> pages_ok v a [] ->
  0 < sz -> 0 <= min -> 0 <= max ->
  exists r v' a', seg_fit sz min max p i popped v a = Some (r, v', a') /\
    outcome v (w1 ++ (p, s) :: w2) a sz (fun a' => ~ range_fits sz min max s \/ no_pages a')
      (fun r => range_fits sz min max s /\ r = Z.max (base s) min) r v' a'.
Proof.
  intros I Hs Ht Hadj HF Hi Hpg Hsz Hmin Hmax. pose proof (limbo_not_hashed _ _ _ _ _ I) as HH.
  destruct (view_bounds _ _ _ _ _ p (as_used s) I) as (? & ? & ? & _); [set_solver|]. simpl in *.
  destruct (i_range _ _ _ _ _ I) as (? & ? & ?).
  assert (Hlive : forall b n, live (w1 ++ w2) b n <-> live (w1 ++ (p, s) :: w2) b n).
  { intros b n. rewrite live_middle, Ht. naive_solver. }
  unfold seg_fit. rewrite Hs. cbn [mbind option_bind]. cbv zeta.
  assert (base s ⊞ size s = base s + size s) as -> by (unfold add64; apply u64_small; lia).
  set (start := Z.max (base s) min). set (end_ := Z.min (base s + size s) max).
  destruct ((start >? end_) || (end_ ⊟ start <? sz)) eqn:Efit.
  { destruct (undo_outcome v w1 p s w2 FB HB i popped a sz
      (fun a' => ~ range_fits sz min max s \/ no_pages a') (fun r => range_fits sz min max s /\ r = start))
      as (v' & -> & Ho); try done; [|by eexists _, _, _].
    left. unfold range_fits. fold start end_. destruct (start >? end_) eqn:E; [lia|].
    unfold sub64 in Efit. rewrite u64_small in Efit by lia. simpl in Efit. lia. }
  assert (Hfit : start + sz <= end_).
  { destruct (start >? end_) eqn:E; [done|]. unfold sub64 in Efit. rewrite u64_small in Efit by lia.
    simpl in Efit. lia. }
  destruct (Z.eqb_spec (size s) sz) as [Heq|Hne].
  { destruct (unlink_ok _ _ _ _ _ _ _ I HF) as (f & -> & I1). cbn [mbind option_bind].
    destruct (hashtab_insert_ok _ _ _ _ _ _ _ I1) as (v' & HB' & -> & I' & Hsf); [apply lookup_delete_eq|].
    cbn [mbind option_bind]. eexists _, _, _. split; [done|]. eexists _, _, _. split; [exact I'|]. split_and!.
    - eapply pages_ok_frame; [exact Hpg|exact Hsf|apply I'].
    - by apply same_frame_config in Hsf.
    - done.
    - right. split_and!; [done|lia|lia|]. intros b n. rewrite live_middle, Hlive. simpl. rewrite Heq. naive_solver. }
  destruct (seg_alloc_ok v a [] Hpg) as [[-> Hnp]|(q & fs & ps & a1 & -> & Hpg1 & Hno1)].
  { destruct (undo_outcome v w1 p s w2 FB HB i popped a sz
      (fun a' => ~ range_fits sz min max s \/ no_pages a') (fun r => range_fits sz min max s /\ r = start))
      as (v' & -> & Ho); try done; [by right|by eexists _, _, _]. }
  assert (I1 : inv (with_free_segs fs ps v) (w1 ++ (p, as_used s) :: w2) FB HB (Some p)).
  { apply inv_free_segs; [done|]. by apply pages_ok_nodup in Hpg1. }
  assert (Hno1' : no_pages a -> no_pages a1) by (intros Hn; by rewrite (Hno1 Hn)).
  destruct (Z.eqb_spec start (base s)) as [Hst|Hst]; cbn [negb].
  { destruct (place_outcome (with_free_segs fs ps v) v w1 p s w2 FB HB i popped q a1 a sz
      (fun a' => ~ range_fits sz min max s \/ no_pages a') (fun r => range_fits sz min max s /\ r = start) (w1 ++ (p, s) :: w2))
      as (v' & -> & Ho); try done; [lia|by eexists _, _, _]. }
  assert (Hsub : start ⊟ base s = start - base s) by (unfold sub64; apply u64_small; lia).
  destruct (seg_alloc_ok _ _ _ Hpg1) as [[-> Hnp]|(q2 & fs2 & ps2 & a2 & -> & Hpg2 & Hno2)].
  { destruct (undo_ok _ _ _ _ _ _ _ _ _ a1 I1 Hs Ht Hadj HF Hi) as (f & FB' & -> & I').
    cbn [mbind option_bind]. eexists _, _, _. split; [done|].
    assert (Hp' : pages_ok (seg_free q (with_freelists f (with_free_segs fs ps v))) a1 []).
    { eapply pages_ok_perm; [exact Hpg1|done|]. simpl. solve_Permutation. }
    eexists _, _, _. split; [apply inv_free_segs; [exact I'|by apply pages_ok_nodup in Hp']|].
    split_and!; try done. left. split_and!; [done|done|by right]. }
  simpl in Hs, HF. rewrite Hsub.
  assert (size s ⊟ (start - base s) = size s - (start - base s)) as -> by (unfold sub64; apply u64_small; lia).
  destruct (front_outcome (with_free_segs fs2 ps2 (with_free_segs fs ps v)) v w1 p s w2 FB HB i popped q2 q a2 a sz
    (start - base s) (fun a' => ~ range_fits sz min max s \/ no_pages a') (fun r => range_fits sz min max s /\ r = start))
    as (v' & Hv' & Ho); try done; try lia.
  - apply inv_free_segs; [done|]. by apply pages_ok_nodup in Hpg2.
  - intros Hn. rewrite (Hno2 (Hno1' Hn)). auto.
  - split; [done|lia].
  - replace (base s + (start - base s)) with start in * by lia. by eexists _, _, _.
Qed.

(** ** The search *)

Definition placed (w : list ((Z * Z) * Segment)) (sz min max r : Z) : Prop :=
  exists p s, (p, s) ∈ w /\ type s = Free /\ range_fits sz min max s /\ r = Z.max (base s) min.

(** An attempt that fails leaves the view as it was. *)
Lemma outcome_failed v w a sz why wh v' a' : outcome v w a sz why wh 0 v' a' ->
  (exists FB HB, inv v' w FB HB None) /\ pages_ok v' a' [] /\ same_config v v' /\
  (no_pages a -> no_pages a') /\ why a'.
Proof.
  intros (w' & FB' & HB' & I & Hp & Hc & Hn & [(_ & -> & Hw)|(_ & ? & _)]); [|lia].
  split_and!; try done. by eexists _, _.
Qed.

Lemma outcome_after v v1 w a a1 sz (why why' : A -> Prop) wh r v' a' :
  same_config v v1 -> (no_pages a -> no_pages a1) ->
  outcome v1 w a1 sz why' wh r v' a' -> (why' a' -> why a') -> outcome v w a sz why wh r v' a'.
Proof.
  intros Hc Hn (w' & FB' & HB' & I & Hp & Hc' & Hn' & Hr) Hw. exists w', FB', HB'. split_and!; auto.
  - destruct Hc as (? & ? & ?), Hc' as (? & ? & ?). split_and!; congruence.
  - destruct Hr as [(? & ? & ?)|?]; [left|by right]. auto.
Qed.

Lemma outcome_impl v w a sz (why why' : A -> Prop) (wh wh' : Z -> Prop) r v' a' :
  outcome v w a sz why wh r v' a' -> (r = 0 -> why a' -> why' a') -> (wh r -> wh' r) ->
  outcome v w a sz why' wh' r v' a'.
Proof.
  intros (w' & FB' & HB' & I & Hp & Hc & Hn & Hr) Hw Hwh. exists w', FB', HB'. split_and!; auto.
  destruct Hr as [(? & ? & ?)|(? & ? & ?)]; [left|right]; auto.
Qed.

Lemma fit_popped v w FB HB i p l (a : A) sz min max : inv v w FB HB None -> pages_ok v a [] -> 0 <= i ->
  freelists v !! Z.to_nat i = Some (p :: l) -> 0 < sz -> 0 <= min -> 0 <= max ->
  exists s r v' a', (p, s) ∈ w /\ segs v !! p = Some s /\
    seg_fit sz min max p i true (with_freelists (<[Z.to_nat i := l]> (freelists v)) v) a = Some (r, v', a') /\
    outcome v w a sz (fun a' => ~ range_fits sz min max s \/ no_pages a') (placed w sz min max) r v' a'.
Proof.
  intros I Hpg Hi Hl Hsz Hmin Hmax.
  destruct (pop_front_ok _ _ _ _ _ _ (i_fl _ _ _ _ _ I) Hi Hl) as [HFp Hb].
  pose proof HFp as (s & Hin & Hf & Hlog)%(i_fb _ _ _ _ _ I); [|done].
  destruct (i_segs _ _ _ _ _ I _ _ Hin) as (t & Hs & Ht). rewrite Ht in Hs by done.
  assert (Hs' : segs v !! p = Some s) by (rewrite Hs; by destruct s).
  pose proof Hin as Hsp. apply list_elem_of_split in Hsp as (w1 & w2 & ->).
  destruct (take_limbo _ _ _ _ _ _ _ I Hf) as (I1 & _ & _).
  pose proof (with_freelists_inv _ _ _ (delete p FB) _ _ _ I1 Hb) as I2.
  destruct (seg_fit_ok _ w1 p s w2 _ _ i true a sz min max (I2 ltac:(intros q Hq; by rewrite lookup_delete_ne by congruence)))
    as (r & v' & a' & Hr & Ho); try done.
  - apply I.
  - apply lookup_delete_eq.
  - exists s, r, v', a'. split_and!; try done. eapply outcome_impl; [exact Ho|done|].
    intros [? ->]. exists p, s. set_solver.
Qed.

Lemma fit_in_list v w FB HB p s (a : A) sz min max : inv v w FB HB None -> pages_ok v a [] ->
  (p, s) ∈ w -> type s = Free -> 0 < sz -> 0 <= min -> 0 <= max ->
  exists r v' a', segs v !! p = Some s /\ seg_fit sz min max p (Z.log2 (size s)) false v a = Some (r, v', a') /\
    outcome v w a sz (fun a' => ~ range_fits sz min max s \/ no_pages a') (placed w sz min max) r v' a'.
Proof.
  intros I Hpg Hin Hf Hsz Hmin Hmax.
  destruct (i_segs _ _ _ _ _ I _ _ Hin) as (t & Hs & Ht). rewrite Ht in Hs by done.
  assert (Hs' : segs v !! p = Some s) by (rewrite Hs; by destruct s).
  pose proof Hin as Hsp. apply list_elem_of_split in Hsp as (w1 & w2 & ->).
  destruct (take_limbo _ _ _ _ _ _ _ I Hf) as (I1 & HF & _).
  destruct (seg_fit_ok _ w1 p s w2 _ _ (Z.log2 (size s)) false a sz min max I1) as (r & v' & a' & Hr & Ho); try done.
  - apply I.
  - exists r, v', a'. split_and!; try done. eapply outcome_impl; [exact Ho|done|].
    intros [? ->]. exists p, s. set_solver.
Qed.

Lemma fit_others_ok w i sz min max l : forall v FB HB (a : A), inv v w FB HB None -> pages_ok v a [] ->
  (forall p, p ∈ l -> exists s, (p, s) ∈ w /\ type s = Free /\ i = Z.log2 (size s)) ->
  0 < sz -> 0 <= min -> 0 <= max ->
  exists r v' a', fit_others sz min max i l v a = Some (r, v', a') /\
    outcome v w a sz (fun a' => no_pages a' \/ forall p s, p ∈ l -> (p, s) ∈ w -> sz <= size s -> ~ range_fits sz min max s)
      (placed w sz min max) r v' a'.
Proof.
  induction l as [|p l IH]; intros v FB HB a I Hpg Hl Hsz Hmin Hmax.
  { eexists _, _, _. split; [done|]. exists w, FB, HB. split_and!; try done. left. split_and!; [done|done|].
    right. set_solver. }
  destruct (Hl p) as (s & Hin & Hf & ->); [left|].
  destruct (fit_in_list _ _ _ _ _ _ a sz min max I Hpg Hin Hf Hsz Hmin Hmax) as (r & v1 & a1 & Hs & Hr & Ho).
  assert (Huq : forall u, (p, u) ∈ w -> u = s).
  { intros u Hu. apply list_elem_of_split in Hin as (x & y & ->).
    destruct (view_split _ _ _ _ _ _ _ _ I) as (_ & _ & Hq & _). by eapply Hq. }
  cbn [fit_others]. rewrite Hs. cbn [mbind option_bind]. destruct (Z.geb_spec (size s) sz) as [Hge|Hlt].
  - rewrite Hr. cbn [mbind option_bind]. destruct (Z.eqb_spec r 0) as [->|Hr0]; cbn [negb].
    + apply outcome_failed in Ho as ((FB1 & HB1 & I1) & Hpg1 & Hc1 & Hn1 & Hw1).
      destruct (IH v1 FB1 HB1 a1 I1 Hpg1) as (r & v' & a' & -> & Ho'); try done; [intros; apply Hl; by right|].
      exists r, v', a'. split; [done|]. destruct Hw1 as [Hw1|Hw1].
      * eapply outcome_after; [done|done|exact Ho'|]. intros [?|Hno]; [by left|right].
        intros q u Hq Hqw Hsz'. apply elem_of_cons in Hq as [->|Hq]; [by rewrite (Huq _ Hqw)|by eapply Hno].
      * pose proof Ho' as (_ & _ & _ & _ & _ & _ & Hnp & _).
        eapply outcome_after; [done|done|exact Ho'|]. intros _. left. by apply Hnp.
    + eexists _, _, _. split; [done|]. eapply outcome_impl; [exact Ho|done|done].
  - destruct (IH v FB HB a I Hpg) as (r' & v' & a' & -> & Ho'); try done; [intros; apply Hl; by right|].
    exists r', v', a'. split; [done|]. eapply outcome_impl; [exact Ho'| |done]. intros _ [?|Hno]; [by left|right].
    intros q u Hq Hqw Hsz'. apply elem_of_cons in Hq as [->|Hq]; [rewrite (Huq _ Hqw) in Hsz'; lia|by eapply Hno].
Qed.

(** With no bounds every free segment that is large enough fits. *)
Definition exhausted (w : list ((Z * Z) * Segment)) (sz min max i : Z) : Prop :=
  min = 0 -> max = 2 ^ 64 - 1 ->
  forall p s, (p, s) ∈ w -> type s = Free -> i <= Z.log2 (size s) -> size s < sz.

Lemma fits_unbounded v w FB HB p s sz : inv v w FB HB None -> (p, s) ∈ w -> sz <= size s ->
  range_fits sz 0 (2 ^ 64 - 1) s.
Proof.
  intros I Hin Hsz. destruct (view_bounds _ _ _ _ _ _ _ I Hin) as (? & ? & ? & _).
  destruct (i_range _ _ _ _ _ I) as (? & ? & ?). unfold range_fits. lia.
Qed.

Lemma bucket_members v w FB HB i l : inv v w FB HB None -> 0 <= i -> freelists v !! Z.to_nat i = Some l ->
  forall p, p ∈ l <-> exists s, (p, s) ∈ w /\ type s = Free /\ i = Z.log2 (size s).
Proof.
  intros I Hi Hl p. destruct (i_fl _ _ _ _ _ I) as (_ & _ & Hb). destruct (Hb _ _ Hl) as [_ Hm].
  rewrite Hm, Z2Nat.id by done. by apply (i_fb _ _ _ _ _ I).
Qed.

(** One bucket: it succeeds, or it holds nothing that would do. *)
Lemma bucket_ok v w FB HB i l (a : A) sz min max : inv v w FB HB None -> pages_ok v a [] -> 0 <= i ->
  freelists v !! Z.to_nat i = Some l -> l <> [] -> 0 < sz -> 0 <= min -> 0 <= max ->
  exists seg rest s r v' a', l = seg :: rest /\ segs v !! seg = Some s /\
    (if size s >=? sz then
       seg_fit sz min max seg i true (with_freelists (<[Z.to_nat i := rest]> (freelists v)) v) a
     else fit_others sz min max i l v a) = Some (r, v', a') /\
    outcome v w a sz (fun a' => no_pages a' \/ (min = 0 -> max = 2 ^ 64 - 1 ->
        forall p s, p ∈ l -> (p, s) ∈ w -> size s < sz))
      (placed w sz min max) r v' a'.
Proof.
  intros I Hpg Hi Hl Hne Hsz Hmin Hmax. destruct l as [|seg rest]; [done|].
  pose proof (bucket_members _ _ _ _ _ _ I Hi Hl) as Hmem.
  destruct (fit_popped _ _ _ _ _ _ _ a sz min max I Hpg Hi Hl Hsz Hmin Hmax) as (s & r & v1 & a1 & Hin & Hs & Hr & Ho).
  destruct (Z.geb_spec (size s) sz) as [Hge|Hlt].
  - exists seg, rest, s, r, v1, a1. split_and!; try done.
    { by replace (size s >=? sz) with true by lia. }
    eapply outcome_impl; [exact Ho| |done]. intros _ [Hnf|?]; [|by left]. right. intros -> ->.
    destruct Hnf. by eapply fits_unbounded.
  - destruct (fit_others_ok w i sz min max (seg :: rest) v FB HB a I Hpg) as (r' & v' & a' & Hr' & Ho'); try done.
    { intros p Hp. by apply Hmem. }
    exists seg, rest, s, r', v', a'. split_and!; try done.
    { by replace (size s >=? sz) with false by lia. }
    eapply outcome_impl; [exact Ho'| |done]. intros _ [?|Hno]; [by left|]. right. intros -> -> p u Hp Hpw.
    destruct (decide (size u < sz)) as [|Hge]; [done|]. exfalso.
    eapply (Hno p u); [done|done|lia|]. eapply fits_unbounded; [done|done|lia].
Qed.

Lemma alloc_loop_ok w sz min max fuel : forall i v FB HB (a : A), inv v w FB HB None -> pages_ok v a [] ->
  0 <= i -> 64 - i < Z.of_nat fuel -> 0 < sz -> 0 <= min -> 0 <= max ->
  exists r v' a', alloc_loop fuel sz min max i v a = Some (r, v', a') /\
    outcome v w a sz (fun a' => no_pages a' \/ exhausted w sz min max i) (placed w sz min max) r v' a'.
Proof.
  induction fuel as [|fuel IH]; intros i v FB HB a I Hpg Hi Hfuel Hsz Hmin Hmax.
  { cbn [alloc_loop]. replace (i <? FREELIST_COUNT) with false by (unfold FREELIST_COUNT; lia).
    eexists _, _, _. split; [done|]. exists w, FB, HB. split_and!; try done. left. split_and!; [done|done|].
    right. intros _ _ p s Hin Hf Hlog. destruct (view_bounds _ _ _ _ _ _ _ I Hin) as (? & ? & ? & _).
    destruct (i_range _ _ _ _ _ I) as (? & ? & ?). destruct (size_to_index_log2 (size s)); lia. }
  cbn [alloc_loop]. destruct (Z.ltb_spec i FREELIST_COUNT) as [Hlt|Hge].
  2:{ eexists _, _, _. split; [done|]. exists w, FB, HB. split_and!; try done. left. split_and!; [done|done|].
    right. intros _ _ p s Hin Hf Hlog. destruct (view_bounds _ _ _ _ _ _ _ I Hin) as (? & ? & ? & _).
    destruct (i_range _ _ _ _ _ I) as (? & ? & ?). unfold FREELIST_COUNT in Hge. destruct (size_to_index_log2 (size s)); lia. }
  destruct (buckets_lookup _ _ _ _ (i_fl _ _ _ _ _ I) (conj Hi Hlt)) as (l & Hl & _).
  pose proof (bucket_members _ _ _ _ _ _ I Hi Hl) as Hmem.
  rewrite Hl. cbn [mbind option_bind].
  assert (Hstep : exhausted w sz min max (i + 1) ->
    (min = 0 -> max = 2 ^ 64 - 1 -> forall p s, p ∈ l -> (p, s) ∈ w -> size s < sz) -> exhausted w sz min max i).
  { intros He Hb -> -> p s Hin Hf Hlog. destruct (decide (i = Z.log2 (size s))) as [E|E].
    - eapply Hb; [done|done| |done]. apply Hmem. eauto.
    - eapply He; [done|done|done|done|lia]. }
  destruct (decide (l = [])) as [->|Hne].
  - destruct (IH (i + 1) v FB HB a I Hpg) as (r & v' & a' & -> & Ho); try done; try lia.
    exists r, v', a'. split; [done|]. eapply outcome_impl; [exact Ho| |done].
    intros _ [?|He]; [by left|right]. apply Hstep; [done|]. set_solver.
  - destruct (bucket_ok _ _ _ _ _ _ a sz min max I Hpg Hi Hl Hne Hsz Hmin Hmax)
      as (seg & rest & s & r & v1 & a1 & -> & -> & Hr & Ho).
    cbn [mbind option_bind]. rewrite Hr. cbn [mbind option_bind].
    destruct (Z.eqb_spec r 0) as [->|Hr0]; cbn [negb].
    + apply outcome_failed in Ho as ((FB1 & HB1 & I1) & Hpg1 & Hc1 & Hn1 & Hw1).
      destruct (IH (i + 1) v1 FB1 HB1 a1 I1 Hpg1) as (r & v' & a' & -> & Ho'); try done; try lia.
      exists r, v', a'. split; [done|]. pose proof Ho' as (_ & _ & _ & _ & _ & _ & Hnp & _).
      eapply outcome_after; [done|done|exact Ho'|]. intros [?|He]; [by left|].
      destruct Hw1 as [?|Hw1]; [left; by apply Hnp|right; by apply Hstep].
    + eexists _, _, _. split; [done|]. eapply outcome_impl; [exact Ho|done|done].
Qed.

(** ** xalloc *)

Definition upper (min max n : Z) : Z :=
  if max =? 0 then 2 ^ 64 - 1 else if max =? min then min ⊞ n else max.

Lemma available_view v w FB HB b n : inv v w FB HB None ->
  available v b n <-> exists p, (p, mkSeg b n Free) ∈ w.
Proof.
  intros I. unfold available. split; intros (p & Hp); exists p; by eapply (view_records _ _ _ _ p b n Free I).
Qed.

Lemma alloc_loop_end fuel sz min max i v (a : A) : FREELIST_COUNT <= i ->
  alloc_loop fuel sz min max i v a = Some (0, v, a).
Proof. intros Hi. destruct fuel; cbn [alloc_loop]; by replace (i <? FREELIST_COUNT) with false by lia. Qed.

Lemma ALIGNUP_bound z q : 0 <= ALIGNUP z q < 2 ^ 64.
Proof. apply (fits_land 64); [lia|apply u64_bound|apply u64_bound]. Qed.

Lemma xalloc_spec v (a : A) sz min max : wf v a -> 0 <= min -> 0 <= max ->
  let n := ALIGNUP sz (_quantum v) in
  exists r v' a', xalloc sz min max v a = Some (r, v', a') /\ wf v' a' /\ same_config v v' /\
    ((r = 0 /\ (forall b m, allocated v' b m <-> allocated v b m) /\
      (forall b m, available v' b m <-> available v b m) /\
      (0 < n -> min = 0 -> max = 0 -> no_pages a' \/ forall b m, available v b m -> m < n)) \/
     (0 < n /\ 0 < r /\ min <= r /\ r + n <= upper min max n /\
      (exists b m, available v b m /\ b <= r /\ r + n <= b + m) /\
      forall b m, allocated v' b m <-> allocated v b m \/ b = r /\ m = n)).
Proof.
  intros ((w & FB & HB & I) & Hpg) Hmin Hmax n. pose proof (ALIGNUP_bound sz (_quantum v)) as Hn. fold n in Hn. unfold xalloc. fold n. cbv zeta.
  fold (upper min max n).
  assert (Hup : 0 <= upper min max n).
  { unfold upper. destruct (max =? 0); [lia|]. destruct (max =? min); [|lia].
    apply u64_bound. }
  destruct (decide (n = 0)) as [E|E].
  { rewrite E. rewrite alloc_loop_end by done. eexists _, _, _. split; [done|]. split_and!; try done.
    - split; [by eexists _, _, _|done].
    - left. split_and!; try done. }
  destruct (size_to_index_log2 n) as [-> Hlog]; [lia|].
  destruct (alloc_loop_ok w n min (upper min max n) 65 (Z.log2 n) v FB HB a I Hpg) as (r & v' & a' & -> & Ho); try lia.
  exists r, v', a'. split; [done|]. destruct Ho as (w' & FB' & HB' & I' & Hpg' & Hc & _ & Hr).
  split_and!; [split; [by eexists _, _, _|done]|apply Hc..|].
  destruct Hr as [(-> & -> & Hwhy)|((p & s & Hin & Hf & Hfit & ->) & Hpos & Hl)].
  - left. split_and!; [done| | |].
    + intros b m. by rewrite (allocated_live _ _ _ _ _ _ I), (allocated_live _ _ _ _ _ _ I').
    + intros b m. by rewrite (available_view _ _ _ _ _ _ I), (available_view _ _ _ _ _ _ I').
    + intros _ -> ->. destruct Hwhy as [?|He]; [by left|right]. intros b m Hav.
      apply (available_view _ _ _ _ _ _ I) in Hav as (p & Hin).
      destruct (decide (m < n)) as [|Hge]; [done|].
      apply (He eq_refl eq_refl p _ Hin eq_refl). simpl. apply Z.log2_le_mono. lia.
  - right. unfold range_fits in Hfit. split_and!; [lia|lia|lia|lia| |].
    + exists (base s), (size s). split_and!; [|lia|lia]. apply (available_view _ _ _ _ _ _ I).
      exists p. by destruct s; simpl in *; subst.
    + intros b m. rewrite (allocated_live _ _ _ _ _ _ I), (allocated_live _ _ _ _ _ _ I'). apply Hl.
Qed.

End Pages.

End VMemAlloc.
