(* ===== verification/VMemRun.v ===== *)
(** * Runs of the virtual address allocator

    [init] establishes the invariant, [xalloc], [xfree] and [destroy] keep their
    promises in every reachable state, and one search that gives up too early. *)

From S2P Require Import Prelude Bits PageAlloc VMem VMemInv VMemAlloc Pmalloc PmallocRun.

Module VMemRun.
Import VMem VMemInv VMemAlloc.

Section Pages.
Context {A : Type} {PA : PageAlloc A}.

(** ** init *)

Lemma empty_buckets n : buckets (replicate n []) (Z.of_nat n) ∅.
Proof.
  split_and!; [by rewrite length_replicate|done|]. intros i l Hl.
  apply lookup_replicate in Hl as [-> _]. split; [constructor|]. intros p. rewrite lookup_empty. set_solver.
Qed.

Lemma seg_alloc_new v (a : A) page a' seg rest : free_segs v = [] -> pa_alloc a = (Some page, a') ->
  page_slots page = seg :: rest ->
  seg_alloc v a = (Some seg, with_free_segs rest (page :: seg_page_list v) v, a').
Proof. intros H1 H2 H3. unfold seg_alloc. by rewrite H1, H2, H3. Qed.

Lemma seg_alloc_pop v (a : A) seg rest : free_segs v = seg :: rest ->
  seg_alloc v a = (Some seg, with_free_segs rest (seg_page_list v) v, a).
Proof. intros H1. unfold seg_alloc. by rewrite H1. Qed.

Lemma init_inv base size quantum span ini fs ps : 0 < base -> 0 < size -> base + size < 2 ^ 64 ->
  NoDup (span :: ini :: fs) ->
  inv (mkVMem (<[ini := mkSeg base size Free]> (<[span := mkSeg base size Span]> ∅))
         (<[Z.to_nat (Z.log2 size) := [ini]]> (replicate 64 [])) [span; ini] (replicate 16 []) fs ps
         base size quantum)
    [(ini, mkSeg base size Free)] {[ini := Z.log2 size]} ∅ None.
Proof.
  intros Hb Hs Hr Hnd. destruct (size_to_index_log2 size) as [_ Hlog]; [lia|].
  assert (Hne : ini <> span) by (inversion Hnd; set_solver).
  split; simpl; try done.
  - exists span, base, size. rewrite lookup_insert_ne, lookup_insert_eq by done. done.
  - intros p s Hin. apply list_elem_of_singleton in Hin. simplify_eq. exists Free.
    by rewrite lookup_insert_eq.
  - lia.
  - pose proof (empty_buckets 64) as Hbk. apply (buckets_set _ _ ∅); [exact Hbk|unfold FREELIST_COUNT; lia|apply NoDup_singleton|..].
    + intros p. rewrite list_elem_of_singleton. split; [intros ->; apply lookup_singleton_eq|].
      intros Hp. by apply lookup_singleton_Some in Hp as [-> _].
    + intros p j Hj. rewrite lookup_empty, lookup_singleton_Some. naive_solver.
  - apply (empty_buckets 16).
  - intros p i _. rewrite lookup_singleton_Some. split.
    + intros [-> <-]. exists (mkSeg base size Free). split; [set_solver|done].
    + intros (s & Hin & _ & ->). apply list_elem_of_singleton in Hin. by simplify_eq.
  - intros p i. rewrite lookup_empty. split; [done|]. intros (_ & s & Hin & Hu & _).
    apply list_elem_of_singleton in Hin. by simplify_eq.
Qed.

Lemma init_spec base size quantum (a : A) : pa_ok a -> 0 < base -> 0 < size -> base + size < 2 ^ 64 ->
  (no_pages a /\ init base size quantum empty_vmem a = None) \/
  exists v a', init base size quantum empty_vmem a = Some (v, a') /\ wf v a' /\
    _base v = base /\ _size v = size /\ _quantum v = quantum /\
    (forall b n, ~ allocated v b n) /\ forall b n, available v b n <-> b = base /\ n = size.
Proof.
  intros Hok Hb Hs Hr. pose proof (pa_alloc_ok a Hok) as Hal. unfold no_pages.
  destruct (pa_alloc a) as [[page|] a'] eqn:Ea; [right|left; split; [done|]].
  2:{ unfold init. cbv zeta. unfold seg_alloc at 1. cbn [free_segs empty_vmem]. by rewrite Ea. }
  destruct Hal as (Hok' & _ & Hfresh & Hh).
  destruct (page_slots_ok page) as (Hnd & Hpg & span & rest & Hps & Hne). destruct rest as [|ini fs]; [done|].
  unfold init. cbv zeta. rewrite (seg_alloc_new _ a page a' span (ini :: fs)) by done. cbn [mbind option_bind].
  rewrite (seg_alloc_pop _ _ ini fs) by done. cbn [mbind option_bind].
  destruct (size_to_index_log2 size) as [Hi Hlog]; [lia|]. rewrite Hi.
  cbn [freelists with_seg_list set_seg with_segs with_free_segs empty_vmem].
  rewrite lookup_replicate_2 by lia. cbn [mbind option_bind]. rewrite Hps in *.
  pose proof (init_inv base size quantum span ini fs [page] Hb Hs Hr Hnd) as I.
  eexists _, _. split; [done|]. split_and!; try done.
  - split; [eexists _, _, _; exact I|]. split_and!; simpl.
    + done.
    + apply NoDup_singleton.
    + intros q Hq. apply list_elem_of_singleton in Hq as ->. apply Hh. by right.
    + by rewrite app_nil_r.
    + intros p Hp. rewrite app_nil_r in Hp. rewrite (Hpg p Hp). set_solver.
  - intros b n Ha. apply (allocated_live _ _ _ _ _ _ I) in Ha as (p & s & Hin & Hu & _).
    apply list_elem_of_singleton in Hin. by simplify_eq.
  - intros b n. rewrite (available_view _ _ _ _ _ _ I). split.
    + intros (p & Hin). apply list_elem_of_singleton in Hin. by simplify_eq.
    + intros [-> ->]. exists ini. set_solver.
Qed.

(** ** What a well-formed state promises *)

Lemma wf_disjoint v (a : A) b1 n1 b2 n2 : wf v a -> allocated v b1 n1 -> allocated v b2 n2 ->
  (b1 = b2 /\ n1 = n2) \/ b1 + n1 <= b2 \/ b2 + n2 <= b1.
Proof.
  intros ((w & FB & HB & I) & _) H1 H2.
  apply (allocated_live _ _ _ _ _ _ I) in H1 as (p & s & Hp & _ & <- & <-).
  apply (allocated_live _ _ _ _ _ _ I) in H2 as (q & u & Hq & _ & <- & <-).
  destruct (view_order _ _ _ _ _ _ _ _ _ I Hp Hq) as [?|?]; [left; by simplify_eq|by right].
Qed.

Lemma wf_available_disjoint v (a : A) b1 n1 b2 n2 : wf v a -> allocated v b1 n1 -> available v b2 n2 ->
  b1 + n1 <= b2 \/ b2 + n2 <= b1.
Proof.
  intros ((w & FB & HB & I) & _) H1 H2.
  apply (allocated_live _ _ _ _ _ _ I) in H1 as (p & s & Hp & Hu & <- & <-).
  apply (available_view _ _ _ _ _ _ I) in H2 as (q & Hq).
  destruct (view_order _ _ _ _ _ _ _ _ _ I Hp Hq) as [?|?]; [by simplify_eq|done].
Qed.

Lemma wf_bounds v (a : A) b n : wf v a -> allocated v b n ->
  _base v <= b /\ 0 < n /\ b + n <= _base v + _size v.
Proof.
  intros ((w & FB & HB & I) & _) H.
  apply (allocated_live _ _ _ _ _ _ I) in H as (p & s & Hp & _ & <- & <-).
  destruct (view_bounds _ _ _ _ _ _ _ I Hp) as (? & ? & ? & _). done.
Qed.

(** Free space is never left in pieces. *)
Lemma wf_coalesced v (a : A) : wf v a -> 0 < _size v -> (forall b n, ~ allocated v b n) ->
  available v (_base v) (_size v).
Proof.
  intros ((w & FB & HB & I) & _) Hs Hno. rewrite (available_view _ _ _ _ _ _ I).
  assert (Hfree : forall p s, (p, s) ∈ w -> type s = Free).
  { intros p s Hin. destruct (view_bounds _ _ _ _ _ _ _ I Hin) as (_ & _ & _ & Hsp).
    destruct (type s) eqn:E; [done| |done]. destruct (Hno (base s) (size s)).
    apply (allocated_live _ _ _ _ _ _ I). by exists p, s. }
  pose proof (i_tiles _ _ _ _ _ I) as Ht. pose proof (i_adj _ _ _ _ _ I) as Ha.
  destruct w as [|[p s] [|[q u] w]]; simpl in *; [lia| |].
  - destruct Ht as (Hb & _ & _ & He). exists p. apply list_elem_of_singleton.
    specialize (Hfree p s ltac:(set_solver)). destruct s as [sb sn st]. simpl in *. subst. repeat f_equal. lia.
  - destruct Ha as [[Ha|Ha] _]; destruct Ha; eapply Hfree; [left|right; left].
Qed.

(** ** destroy *)

Lemma hash_empty v w FB HB : inv v w FB HB None ->
  if forallb (fun l => bool_decide (l = [])) (hash_tab v) then forall b n, ~ allocated v b n
  else exists b n, allocated v b n.
Proof.
  intros I. destruct (i_ht _ _ _ _ _ I) as (_ & _ & Hb). destruct (forallb _ _) eqn:E.
  - intros b n Ha. apply (allocated_live _ _ _ _ _ _ I) in Ha as (p & s & Hin & Hu & _).
    assert (Hp : HB !! p = Some (seg_hash s)) by (apply (i_hb _ _ _ _ _ I); split; [done|by eexists]).
    destruct (buckets_lookup _ _ _ _ (i_ht _ _ _ _ _ I) (seg_hash_bound s)) as (l & Hl & _ & Hm).
    rewrite List.forallb_forall in E. specialize (E l). rewrite <- list_elem_of_In, bool_decide_eq_true in E.
    rewrite E in Hm by (by eapply list_elem_of_lookup_2). apply Hm in Hp. set_solver.
  - assert (exists i p l, hash_tab v !! i = Some (p :: l)) as (i & p & l & Hl).
    { clear -E. induction (hash_tab v) as [|[|p l] ls IH]; simpl in E; [done| |by exists 0%nat, p, l].
      destruct (IH E) as (i & p & l & Hl). by exists (S i), p, l. }
    destruct (Hb _ _ Hl) as [_ Hm]. destruct (Hm p) as [Hp _]. specialize (Hp ltac:(left)).
    apply (i_hb _ _ _ _ _ I) in Hp as (_ & s & Hin & Hu & _). exists (base s), (size s).
    apply (allocated_live _ _ _ _ _ _ I). by exists p, s.
Qed.

(** ** Runs *)

(** Other users of the page allocator may run in between, as long as they leave
    the pages of the records alone. *)
Inductive reachable (base size quantum : Z) : vmem -> A -> Prop :=
| reach_init a v a' : pa_ok a -> init base size quantum empty_vmem a = Some (v, a') ->
    reachable base size quantum v a'
| reach_xalloc v a sz min max r v' a' : reachable base size quantum v a -> 0 <= min -> 0 <= max ->
    xalloc sz min max v a = Some (r, v', a') -> reachable base size quantum v' a'
| reach_xfree v a ptr sz v' : reachable base size quantum v a -> xfree ptr sz v = Some v' ->
    reachable base size quantum v' a
| reach_pages v a a' : reachable base size quantum v a -> pa_ok a' ->
    (forall q, q ∈ seg_page_list v -> pa_held a' q) -> reachable base size quantum v a'.

Lemma reachable_wf base size quantum v a : 0 < base -> 0 < size -> base + size < 2 ^ 64 ->
  reachable base size quantum v a ->
  wf v a /\ _base v = base /\ _size v = size /\ _quantum v = quantum.
Proof.
  intros Hb Hs Hr. induction 1 as [a v a' Hok Hi|v a sz min max r v' a' _ IH Hmin Hmax Hx|v a ptr sz v' _ IH Hx|v a a' _ IH Hok Hh].
  - destruct (init_spec base size quantum a Hok Hb Hs Hr) as [[_ ?]|(v1 & a1 & Hi' & ? & ? & ? & ? & _)];
      [congruence|]. rewrite Hi' in Hi. by simplify_eq.
  - destruct IH as (Hwf & ? & ? & ?).
    destruct (xalloc_spec v a sz min max Hwf Hmin Hmax) as (r1 & v1 & a1 & Hx' & Hwf' & (? & ? & ?) & _).
    rewrite Hx' in Hx. simplify_eq. by split_and!.
  - destruct IH as (Hwf & ? & ? & ?).
    destruct (xfree_spec v a ptr sz Hwf) as [(n & Ha & Hok & Hbad)|(_ & Hx')]; [|by simplify_eq].
    destruct (decide (n = ALIGNUP sz (_quantum v))) as [E|E]; [|by rewrite Hbad in Hx].
    destruct (Hok E) as (v1 & Hx' & Hwf' & (? & ? & ?) & _). rewrite Hx' in Hx. simplify_eq. by split_and!.
  - destruct IH as ((Hw & (_ & Hnp) & _ & Hnd & Hin) & ? & ? & ?). by split_and!.
Qed.

(** C15: In every state that [init], [xalloc] and [xfree] reach, with any other use of the page allocator in between, the allocated ranges are nonempty, lie in the managed range and are pairwise disjoint; and when everything has been freed the whole range is one free segment again, whatever the order of the frees was. *)
Theorem vmem_reachable_safe base size quantum v a :
  0 < base -> 0 < size -> base + size < 2 ^ 64 -> reachable base size quantum v a ->
  (forall b n, allocated v b n -> base <= b /\ 0 < n /\ b + n <= base + size) /\
  (forall b1 n1 b2 n2, allocated v b1 n1 -> allocated v b2 n2 ->
     (b1 = b2 /\ n1 = n2) \/ b1 + n1 <= b2 \/ b2 + n2 <= b1) /\
  ((forall b n, ~ allocated v b n) -> available v base size).
Proof.
  intros Hb Hs Hr Hre. destruct (reachable_wf _ _ _ _ _ Hb Hs Hr Hre) as (Hwf & <- & <- & _). split_and!.
  - intros b n. by apply wf_bounds with a.
  - intros b1 n1 b2 n2. by apply wf_disjoint with a.
  - by apply wf_coalesced with a.
Qed.

(** C17: [xalloc] on a well-formed allocator always returns.  A nonzero result is the start of a range of the rounded size that lies inside one free segment and inside the bounds (exactly at [min] when [max == min]); the allocated ranges grow by exactly this range.  A zero result changes no range, and without bounds it means that no free segment is large enough or that no page for the segment records can be had. *)
Theorem xalloc_correct v (a : A) sz min max : wf v a -> 0 <= min -> 0 <= max ->
  let n := ALIGNUP sz (_quantum v) in
  exists r v' a', xalloc sz min max v a = Some (r, v', a') /\ wf v' a' /\
    ((r = 0 /\ (forall b m, allocated v' b m <-> allocated v b m) /\
      (forall b m, available v' b m <-> available v b m) /\
      (0 < n -> min = 0 -> max = 0 -> no_pages a' \/ forall b m, available v b m -> m < n)) \/
     (0 < r /\ min <= r /\ (max <> 0 -> max <> min -> r + n <= max) /\
      (max <> 0 -> max = min -> min + n < 2 ^ 64 -> r = min) /\
      (exists b m, available v b m /\ b <= r /\ r + n <= b + m) /\
      forall b m, allocated v' b m <-> allocated v b m \/ b = r /\ m = n)).
Proof.
  intros Hwf Hmin Hmax n. destruct (xalloc_spec v a sz min max Hwf Hmin Hmax) as (r & v' & a' & Hx & Hwf' & _ & Hr).
  exists r, v', a'. split_and!; [done|done|]. destruct Hr as [Hr|(Hn & Hpos & Hge & Hle & Hav & Hal)]; [by left|right].
  fold n in Hn, Hle, Hav. unfold upper in Hle. split_and!; try done.
  - intros H0 H1. replace (max =? 0) with false in Hle by lia. by replace (max =? min) with false in Hle by lia.
  - intros H0 -> Hw. replace (min =? 0) with false in Hle by lia. rewrite Z.eqb_refl in Hle.
    unfold add64 in Hle. rewrite u64_small in Hle by lia. lia.
Qed.

(** C18: [xfree] of an allocated range with its size removes exactly this range (its neighbours merge, so the loop ends); with a size that does not round to the range's size it panics; and for an address that is not the start of an allocated range it changes nothing. *)
Theorem xfree_correct v (a : A) ptr sz : wf v a ->
  (exists n, allocated v ptr n /\
     (n = ALIGNUP sz (_quantum v) ->
      exists v', xfree ptr sz v = Some v' /\ wf v' a /\
        forall b m, allocated v' b m <-> allocated v b m /\ b <> ptr) /\
     (n <> ALIGNUP sz (_quantum v) -> xfree ptr sz v = None)) \/
  (forall n, ~ allocated v ptr n) /\ xfree ptr sz v = Some v.
Proof.
  intros Hwf. destruct (xfree_spec v a ptr sz Hwf) as [(n & Ha & Hok & Hbad)|?]; [left|by right].
  exists n. split_and!; [done| |done]. intros E. destruct (Hok E) as (v' & ? & ? & _ & ?). eauto.
Qed.

(** A successful [xalloc] followed by [xfree] of the address with the same size gives back the allocated ranges of before. *)
Theorem vmem_round_trip v (a : A) sz min max r v1 a1 : wf v a -> 0 <= min -> 0 <= max ->
  xalloc sz min max v a = Some (r, v1, a1) -> r <> 0 ->
  exists v2, xfree r sz v1 = Some v2 /\ wf v2 a1 /\ forall b m, allocated v2 b m <-> allocated v b m.
Proof.
  intros Hwf Hmin Hmax Hx Hr0.
  destruct (xalloc_spec v a sz min max Hwf Hmin Hmax) as (r' & v' & a' & Hx' & Hwf' & (_ & _ & Hq) & Hr).
  rewrite Hx' in Hx. simplify_eq. destruct Hr as [(-> & _)|(Hn & _ & _ & _ & (b0 & m0 & Hav & Hb0 & Hm0) & Hal)]; [done|].
  set (n := ALIGNUP sz (_quantum v)) in *.
  assert (Ha : allocated v1 r n) by (apply Hal; by right).
  destruct (xfree_spec v1 a1 r sz Hwf') as [(m & Hm & Hok & _)|(Hno & _)]; [|by destruct (Hno n)].
  assert (m = n) as ->.
  { destruct (wf_disjoint _ _ _ _ _ _ Hwf' Hm Ha) as [[_ ?]|Hd]; [done|].
    pose proof (wf_bounds _ _ _ _ Hwf' Hm). lia. }
  destruct (Hok ltac:(by rewrite Hq)) as (v2 & Hf & Hwf2 & _ & Hal2). exists v2. split_and!; [done|done|].
  intros b k. rewrite Hal2, Hal. split; [intros [[?|[? _]] ?]; done|]. intros Hb. split; [by left|]. intros ->.
  pose proof (wf_available_disjoint _ _ _ _ _ _ Hwf Hb Hav). pose proof (wf_bounds _ _ _ _ Hwf Hb). lia.
Qed.

Lemma destroy_ok v (a : A) assert_allocations : wf v a ->
  (assert_allocations = false \/ (forall b n, ~ allocated v b n)) /\
  (exists v' a', destroy assert_allocations v a = Some (v', a') /\ pa_ok a' /\
     (forall q, pa_held a' q <-> pa_held a q /\ q ∉ seg_page_list v) /\
     seg_page_list v' = [] /\ forall b n, ~ allocated v' b n) \/
  (assert_allocations = true /\ (exists b n, allocated v b n)) /\ destroy assert_allocations v a = None.
Proof.
  intros ((w & FB & HB & I) & (Hok & Hnd) & Hh & _). pose proof (hash_empty _ _ _ _ I) as He. unfold destroy.
  destruct (pa_free_all_ok _ a Hok Hnd Hh) as (a' & -> & Hok' & Hh'). cbn [mbind option_bind].
  destruct assert_allocations; [destruct (forallb _ _)|]; cbn [negb orb assert mbind option_bind].
  - left. split; [by right|]. eexists _, _. split; [done|]. split_and!; try done.
    intros b n (p & Hp & _). set_solver.
  - by right.
  - left. split; [by left|]. eexists _, _. split; [done|]. split_and!; try done.
    intros b n (p & Hp & _). set_solver.
Qed.

(** [destroy] gives every page of segment records back to the page allocator and nothing else; with [assert_allocations] it panics exactly when a range is still allocated. *)
Theorem destroy_correct v (a : A) assert_allocations : wf v a ->
  (assert_allocations = false \/ (forall b n, ~ allocated v b n)) /\
  (exists v' a', destroy assert_allocations v a = Some (v', a') /\ pa_ok a' /\
     (forall q, pa_held a' q <-> pa_held a q /\ q ∉ seg_page_list v) /\
     seg_page_list v' = [] /\ forall b n, ~ allocated v' b n) \/
  (assert_allocations = true /\ (exists b n, allocated v b n)) /\ destroy assert_allocations v a = None.
Proof. apply destroy_ok. Qed.

(** Calls without bounds, as data. *)
Inductive vop := OpAlloc (sz : Z) | OpFree (ptr sz : Z).

Fixpoint vrun (ops : list vop) (v : vmem) (a : A) : option (vmem * A) :=
  match ops with
  | [] => Some (v, a)
  | OpAlloc sz :: ops => '(_, v, a) ← xalloc sz 0 0 v a; vrun ops v a
  | OpFree ptr sz :: ops => v ← xfree ptr sz v; vrun ops v a
  end.

#[local] Opaque xalloc xfree.

Lemma vrun_reachable base size quantum ops : forall v a v' a', reachable base size quantum v a ->
  vrun ops v a = Some (v', a') -> reachable base size quantum v' a'.
Proof.
  induction ops as [|[sz|ptr sz] ops IH]; intros v a v' a' Hre Hrun; cbn [vrun] in Hrun.
  - by simplify_eq.
  - destruct (xalloc sz _ _ v a) as [[[r v1] a1]|] eqn:E; [|done]. cbn [mbind option_bind] in Hrun.
    eapply IH; [|exact Hrun]. eapply reach_xalloc; [exact Hre| | |exact E]; lia.
  - destruct (xfree ptr sz v) as [v1|] eqn:E; [|done]. cbn [mbind option_bind] in Hrun.
    eapply IH; [|exact Hrun]. by eapply reach_xfree.
Qed.

#[local] Transparent xalloc xfree.

End Pages.

(** ** Concrete runs over the buddy allocator of Pmalloc.v *)

(** Two segments of two pages are free; the one that the list offers first does
    not lie in the range that is wanted next. *)
Definition demo_ops : list vop :=
  [OpAlloc 0x2000; OpAlloc 0x1000; OpAlloc 0x2000; OpAlloc 0x1000;
   OpFree 0x10000 0x2000; OpFree 0x13000 0x2000].

Definition demo_start : vmem * Pmalloc.state :=
  default (empty_vmem, Pmalloc.initial) (init 0x10000 0x8000 0x1000 empty_vmem PmallocRun.demo_state).
Definition demo_end : vmem * Pmalloc.state :=
  default (empty_vmem, Pmalloc.initial) (vrun demo_ops demo_start.1 demo_start.2).
Definition demo_v : vmem := demo_end.1.
Definition demo_a : Pmalloc.state := demo_end.2.

Lemma demo_init : init 0x10000 0x8000 0x1000 empty_vmem PmallocRun.demo_state = Some (demo_start.1, demo_start.2).
Proof. vm_compute. reflexivity. Qed.

Lemma demo_run : vrun demo_ops demo_start.1 demo_start.2 = Some (demo_v, demo_a).
Proof. vm_compute. reflexivity. Qed.

Lemma vmem_demo_reachable : reachable 0x10000 0x8000 0x1000 demo_v demo_a.
Proof.
  exact (vrun_reachable _ _ _ _ _ _ _ _ (reach_init _ _ _ _ _ _ PmallocRun.demo_wf demo_init) demo_run).
Qed.

Lemma vmem_demo_wf : wf demo_v demo_a.
Proof. eapply reachable_wf; [..|apply vmem_demo_reachable]; lia. Qed.

Lemma vmem_reachable_safe_witness : reachable 0x10000 0x8000 0x1000 demo_v demo_a /\
  forall b n, allocated demo_v b n -> 0x10000 <= b /\ 0 < n /\ b + n <= 0x10000 + 0x8000.
Proof.
  split; [apply vmem_demo_reachable|].
  apply (vmem_reachable_safe 0x10000 0x8000 0x1000 demo_v demo_a); [lia|lia|lia|apply vmem_demo_reachable].
Defined.

Lemma xalloc_correct_witness : exists r v' a', xalloc 0x1800 0 0 demo_v demo_a = Some (r, v', a') /\ r = 0x13000.
Proof.
  destruct (xalloc_correct demo_v demo_a 0x1800 0 0 vmem_demo_wf ltac:(lia) ltac:(lia)) as (r & v' & a' & H & _).
  exists r, v', a'. split; [exact H|].
  assert (Hv : (fst ∘ fst) <$> xalloc 0x1800 0 0 demo_v demo_a = Some 0x13000) by (vm_compute; reflexivity).
  rewrite H in Hv. by injection Hv as Hv.
Defined.

Lemma demo_allocated : allocated demo_v 0x12000 0x1000.
Proof. exists (nth 2 (seg_list demo_v) (0, 0)). split; [|vm_compute; reflexivity]. vm_compute. right. right. left. Qed.

Lemma xfree_correct_witness : exists v', xfree 0x12000 0x1000 demo_v = Some v' /\
  forall m, ~ allocated v' 0x12000 m.
Proof.
  destruct (xfree_correct demo_v demo_a 0x12000 0x1000 vmem_demo_wf) as [(n & Ha & Hok & _)|(Hno & _)].
  - destruct Hok as (v' & Hf & _ & Hal).
    + destruct (wf_disjoint _ _ _ _ _ _ vmem_demo_wf Ha demo_allocated) as [[_ ->]|Hd]; [vm_compute; reflexivity|].
      pose proof (wf_bounds _ _ _ _ vmem_demo_wf Ha). lia.
    + exists v'. split; [exact Hf|]. intros m Hm. apply Hal in Hm as [_ Hm]. exact (Hm eq_refl).
  - destruct (Hno 0x1000). apply demo_allocated.
Defined.

Lemma vmem_round_trip_witness : exists v1 a1 v2, xalloc 0x1800 0 0 demo_v demo_a = Some (0x13000, v1, a1) /\
  xfree 0x13000 0x1800 v1 = Some v2.
Proof.
  destruct (xalloc 0x1800 0 0 demo_v demo_a) as [[[r v1] a1]|] eqn:E; [|exfalso; by vm_compute in E].
  assert (Hv : (fst ∘ fst) <$> xalloc 0x1800 0 0 demo_v demo_a = Some 0x13000) by (vm_compute; reflexivity).
  rewrite E in Hv. injection Hv as ->.
  destruct (vmem_round_trip demo_v demo_a 0x1800 0 0 0x13000 v1 a1 vmem_demo_wf ltac:(lia) ltac:(lia) E ltac:(lia))
    as (v2 & H & _).
  exists v1, a1, v2. split; [reflexivity|exact H].
Defined.

Lemma destroy_correct_witness : exists v' a', destroy false demo_v demo_a = Some (v', a').
Proof.
  destruct (destroy_correct demo_v demo_a false vmem_demo_wf) as [(_ & v' & a' & H & _)|((? & _) & _)]; [|done].
  by exists v', a'.
Defined.

(** The bounded search gives up too early: in a reachable state with the free segment [0x10000, 0x12000), [xalloc] of one page inside exactly these bounds returns 0, because only the first segment of each free list is tried when that one is large enough but out of bounds. *)
Theorem bounded_search_gives_up : exists v a v' a', reachable (A := Pmalloc.state) 0x10000 0x8000 0x1000 v a /\
  available v 0x10000 0x2000 /\ xalloc 0x1000 0x10000 0x12000 v a = Some (0, v', a').
Proof.
  destruct (xalloc 0x1000 0x10000 0x12000 demo_v demo_a) as [[[r v1] a1]|] eqn:E; [|exfalso; by vm_compute in E].
  assert (Hv : (fst ∘ fst) <$> xalloc 0x1000 0x10000 0x12000 demo_v demo_a = Some 0) by (vm_compute; reflexivity).
  rewrite E in Hv. injection Hv as ->.
  exists demo_v, demo_a, v1, a1. split_and!; [apply vmem_demo_reachable| |exact E].
  exists (nth 1 (seg_list demo_v) (0, 0)). split; [|vm_compute; reflexivity]. vm_compute. right. left.
Qed.

End VMemRun.
