(* ===== verification/VMemPages.v ===== *)
(** * The pages and the alignment of the virtual address allocator

    [xalloc] and [xfree] take pages for their records and nothing else of the
    page allocator, and when everything starts at a multiple of the quantum every
    segment stays at one.  Both follow from what the operations write, without
    the invariant of VMemInv.v. *)

From S2P Require Import Prelude Bits PageAlloc VMem VMemInv VMemAlloc.

Module VMemPages.
Import VMem.

(** Every record starts and ends at a multiple of [q]. *)
Definition aligned (q : Z) (v : vmem) : Prop :=
  forall p s, segs v !! p = Some s -> (q | base s) /\ (q | size s).

(** What an operation without the page allocator leaves alone. *)
Record tame (q : Z) (v v' : vmem) : Prop := {
  tm_pages : seg_page_list v' = seg_page_list v;
  tm_quantum : _quantum v' = _quantum v;
  tm_aligned : aligned q v -> aligned q v'
}.

Lemma tame_refl q v : tame q v v.
Proof. done. Qed.

Lemma tame_trans q v1 v2 v3 : tame q v1 v2 -> tame q v2 v3 -> tame q v1 v3.
Proof. intros [A1 B1 C1] [A2 B2 C2]. split; [congruence|congruence|auto]. Qed.

(** Takes one [x ← e; k] of a hypothesis apart. *)
Ltac unbind H x E :=
  match type of H with
  | mbind _ ?e = Some _ => destruct e as [x|] eqn:E; [cbn [mbind option_bind] in H|discriminate H]
  end.

Section Tame.
Context (q : Z) (Hq : (q | 2 ^ 64)).

Lemma divide_u64 z : (q | z) -> (q | u64 z).
Proof.
  intros Hz. unfold u64, wrap. rewrite Z.mod_eq by lia. apply Z.divide_sub_r; [done|]. by apply Z.divide_mul_l.
Qed.

Lemma aligned_set v p s : aligned q v -> (q | base s) -> (q | size s) -> aligned q (set_seg p s v).
Proof.
  intros Hv Hb Hs p' s'. unfold set_seg. cbn [segs with_segs]. intros [[_ <-]|[_ ?]]%lookup_insert_Some; [done|eauto].
Qed.

Lemma tame_lists v f l h fs : tame q v (mkVMem (segs v) f l h fs (seg_page_list v) (_base v) (_size v) (_quantum v)).
Proof. by split. Qed.

Lemma tame_set v p s v' : tame q v v' -> (aligned q v -> (q | base s) /\ (q | size s)) ->
  tame q v (set_seg p s v').
Proof. intros [A1 B1 C1] Hs. split; [done|done|]. intros Ha. destruct (Hs Ha). apply aligned_set; auto. Qed.

Lemma freelist_remove_tame p v v' : freelist_remove p v = Some v' -> tame q v v'.
Proof.
  unfold freelist_remove. intros H. unbind H s Es. unbind H f Ef. injection H as <-. apply tame_lists.
Qed.

Lemma insert_no_merge_tame p v v' : freelist_insert_no_merge p v = Some v' -> tame q v v'.
Proof.
  unfold freelist_insert_no_merge. intros H. unbind H s Es. unbind H u Eu. unbind H f Ef. injection H as <-.
  apply (tame_trans q v (set_seg p (mkSeg (base s) (size s) Free) v)); [|apply tame_lists].
  apply tame_set; [apply tame_refl|]. intros Ha. apply (Ha _ _ Es).
Qed.

(** One merge: the record of [d] gets a new size, that of [r] is free again. *)
Lemma merge_tame v v1 l p d r sd sr : freelist_remove p (with_seg_list l v) = Some v1 ->
  segs v !! d = Some sd -> segs v !! r = Some sr ->
  tame q v (seg_free r (set_seg d (mkSeg (base sd) (size sd ⊞ size sr) (type sd)) v1)).
Proof.
  intros H Hd Hr. apply freelist_remove_tame in H.
  eapply tame_trans; [|apply tame_lists]. apply tame_set; [eapply tame_trans; [apply tame_lists|exact H]|].
  intros Ha. destruct (Ha _ _ Hd), (Ha _ _ Hr). split; [done|]. by apply divide_u64, Z.divide_add_r.
Qed.

Lemma insert_loop_tame fuel : forall p v v', insert_loop fuel p v = Some v' -> tame q v v'.
Proof.
  induction fuel as [|fuel IH]; intros p v v' H; [discriminate H|]. cbn [insert_loop] in H. unbind H s Es. cbn zeta in H.
  assert (Hnext : forall w, (match next_of p (seg_list v) with
    | Some next => n ← segs v !! next;
        if mergeable s n n then
          l ← list_remove next (seg_list v);
          v ← freelist_remove next (with_seg_list l v);
          insert_loop fuel p (seg_free next (set_seg p (mkSeg (base s) (size s ⊞ size n) (type s)) v))
        else freelist_insert_no_merge p v
    | None => freelist_insert_no_merge p v
    end) = Some w -> tame q v w).
  { intros w Hw. destruct (next_of p (seg_list v)) as [next|]; [|by eapply insert_no_merge_tame].
    unbind Hw n En. destruct (mergeable s n n); [|by eapply insert_no_merge_tame].
    unbind Hw l El. unbind Hw v1 E1. eapply tame_trans; [|by eapply IH]. by eapply merge_tame. }
  destruct (prev_of p (seg_list v)) as [pv|]; [|by apply Hnext].
  unbind H sp Ep. destruct (mergeable sp s sp); [|by apply Hnext].
  unbind H l El. unbind H v1 E1. eapply tame_trans; [|by eapply IH]. by eapply merge_tame.
Qed.

Lemma freelist_insert_tame p v v' : freelist_insert p v = Some v' -> tame q v v'.
Proof.
  unfold freelist_insert. intros H. unbind H s Es. unbind H u Eu. by eapply insert_loop_tame.
Qed.

Lemma hashtab_insert_tame p v v' : hashtab_insert p v = Some v' -> tame q v v'.
Proof.
  unfold hashtab_insert. intros H. unbind H s Es. unbind H h Eh. injection H as <-.
  apply (tame_trans q v (set_seg p (mkSeg (base s) (size s) Used) v)); [|apply tame_lists].
  apply tame_set; [apply tame_refl|]. intros Ha. apply (Ha _ _ Es).
Qed.

Lemma xfree_tame ptr sz v v' : xfree ptr sz v = Some v' -> tame q v v'.
Proof.
  unfold xfree, hashtab_remove. intros H. unbind H r E. destruct r as [o v1]. cbn zeta in E. unbind E l El. unbind E e Ee.
  destruct e as [e|]; [unbind E h Eh|]; injection E as <- <-.
  - unbind H s Es. unbind H u Eu. apply freelist_insert_tame in H. eapply tame_trans; [|exact H]. apply tame_lists.
  - injection H as <-. apply tame_refl.
Qed.

Lemma unlink_tame p i popped v v' : seg_fit_unlink p i popped v = Some v' -> tame q v v'.
Proof.
  unfold seg_fit_unlink. intros H. destruct popped; [injection H as <-; apply tame_refl|].
  unbind H f Ef. injection H as <-. apply tame_lists.
Qed.

(** ** With the page allocator *)

Context {A : Type} {PA : PageAlloc A}.

Record took (v : vmem) (a : A) (v' : vmem) (a' : A) : Prop := {
  tk_ok : pa_ok a';
  tk_quantum : _quantum v' = _quantum v;
  tk_aligned : aligned q v -> aligned q v';
  tk_mono : forall p, p ∈ seg_page_list v -> p ∈ seg_page_list v';
  tk_new : forall p, p ∈ seg_page_list v' -> p ∈ seg_page_list v \/ ~ pa_held a p;
  tk_held : forall p, pa_held a' p <-> pa_held a p \/ p ∈ seg_page_list v'
}.

Definition based (v : vmem) (a : A) : Prop := pa_ok a /\ forall p, p ∈ seg_page_list v -> pa_held a p.

Lemma tame_took v v' a : based v a -> tame q v v' -> took v a v' a.
Proof.
  intros [Hok Hb] [Hp Hq' Ha]. split; [done|done|done|by rewrite Hp|rewrite Hp; by left|]. rewrite Hp. intros p. split; [by left|].
  intros [?|?]; auto.
Qed.

Lemma took_based v a v' a' : took v a v' a' -> based v' a'.
Proof. intros [Hok _ _ _ _ Hh]. split; [done|]. intros p Hp. apply Hh. by right. Qed.

Lemma took_trans v1 a1 v2 a2 v3 a3 : took v1 a1 v2 a2 -> took v2 a2 v3 a3 -> took v1 a1 v3 a3.
Proof.
  intros [A1 B1 C1 D1 E1 F1] [A2 B2 C2 D2 E2 F2]. split; [done|congruence|auto|auto| |].
  - intros p Hp. destruct (E2 p Hp) as [Hp'|Hn]; [auto|]. right. intros Hh. apply Hn, F1. by left.
  - intros p. rewrite F2, F1. split; [|naive_solver]. intros [[?|?]|?]; auto.
Qed.

Lemma took_tame v a v' a' v'' : took v a v' a' -> tame q v' v'' -> took v a v'' a'.
Proof. intros H1 H2. eapply took_trans; [exact H1|]. apply tame_took; [by eapply took_based|done]. Qed.

Lemma seg_alloc_took v a o v' a' : based v a -> seg_alloc v a = (o, v', a') ->
  took v a v' a' /\ segs v' = segs v.
Proof.
  intros Hb H. pose proof Hb as [Hok Hh]. unfold seg_alloc in H. destruct (free_segs v) as [|p rest].
  2:{ injection H as <- <- <-. split; [|done]. apply tame_took; [done|]. apply tame_lists. }
  pose proof (pa_alloc_ok a Hok) as Hal. destruct (pa_alloc a) as [[page|] a1].
  2:{ subst a1. injection H as <- <- <-. split; [|done]. by apply tame_took. }
  destruct Hal as (Hok1 & _ & Hn & Hh1). destruct (VMemAlloc.page_slots_ok page) as (_ & _ & p & rest & Eps & _). rewrite Eps in H.
  injection H as <- <- <-. split; [|done]. split; cbn [seg_page_list with_free_segs _quantum]; try done.
  - set_solver.
  - intros x. rewrite elem_of_cons. intros [->|?]; [by right|by left].
  - intros x. rewrite Hh1, elem_of_cons. pose proof (Hh x). naive_solver.
Qed.

Lemma undo_tame p i popped v (a : A) r v' a' : seg_fit_undo p i popped v a = Some (r, v', a') -> tame q v v' /\ a' = a /\ r = 0.
Proof.
  unfold seg_fit_undo. intros H. destruct popped; [unbind H f Ef|]; injection H as <- <- <-; (split; [|done]).
  - apply tame_lists.
  - apply tame_refl.
Qed.

Lemma place_tame sz p i popped al s v (a : A) r v' a' : seg_fit_place sz p i popped al s v a = Some (r, v', a') ->
  (q | base s) -> (q | size s) -> (q | sz) -> tame q v v' /\ a' = a /\ r = base s.
Proof.
  unfold seg_fit_place. intros H Hs1 Hs2 Hsz. unbind H v1 E1. apply unlink_tame in E1. destruct (size s =? sz).
  - unbind H v2 E2. apply hashtab_insert_tame in E2. injection H as <- <- <-. split; [|done].
    eapply tame_trans; [exact E1|]. eapply tame_trans; [apply tame_lists|exact E2].
  - cbn zeta in H. unbind H v2 E2. unbind H v3 E3. injection H as <- <- <-. split; [|done].
    apply freelist_insert_tame in E2. apply hashtab_insert_tame in E3.
    eapply tame_trans; [|exact E3]. eapply tame_trans; [|exact E2].
    apply tame_set; [eapply tame_trans; [|apply tame_lists]; apply tame_set; [exact E1|done]|].
    intros _. split; cbn [base size]; apply divide_u64; [by apply Z.divide_add_r|by apply Z.divide_sub_r].
Qed.

(** Splitting off the part in front of [start]. *)
Lemma front_tame v p nw s start t v' : (q | base s) -> (q | size s) -> (q | start) ->
  freelist_insert_no_merge nw (set_seg p (mkSeg start (size s ⊟ (start ⊟ base s)) t)
    (with_seg_list (insert_before p nw (seg_list (set_seg nw (mkSeg (base s) (start ⊟ base s) Free) v)))
      (set_seg nw (mkSeg (base s) (start ⊟ base s) Free) v))) = Some v' ->
  tame q v v' /\ (q | size s ⊟ (start ⊟ base s)).
Proof.
  intros Hb Hs Hst H. apply insert_no_merge_tame in H.
  assert (Hd : (q | start ⊟ base s)) by (by apply divide_u64, Z.divide_sub_r).
  assert (Hd' : (q | size s ⊟ (start ⊟ base s))) by (by apply divide_u64, Z.divide_sub_r).
  split; [|done]. eapply tame_trans; [|exact H].
  apply tame_set; [eapply tame_trans; [|apply tame_lists]; apply tame_set; [apply tame_refl|done]|done].
Qed.

Lemma seg_fit_took sz min max p i popped v a r v' a' : based v a -> aligned q v -> (q | sz) -> (q | min) ->
  seg_fit sz min max p i popped v a = Some (r, v', a') -> took v a v' a' /\ (q | r).
Proof.
  intros Hb Ha Hsz Hmin H. unfold seg_fit in H. unbind H s Es. cbn zeta in H. destruct (Ha _ _ Es) as [Hsb Hss].
  assert (Hundo : forall v1 a1 r1 v2 a2, took v a v1 a1 -> seg_fit_undo p i popped v1 a1 = Some (r1, v2, a2) ->
    took v a v2 a2 /\ (q | r1)).
  { intros v1 a1 r1 v2 a2 H1 Hu. apply undo_tame in Hu as (Ht & -> & ->).
    split; [by eapply took_tame|apply Z.divide_0_r]. }
  pose proof (tame_took _ _ _ Hb (tame_refl q v)) as Hrefl.
  destruct (_ || _); [by eapply Hundo|]. destruct (size s =? sz).
  { unbind H v1 E1. unbind H v2 E2. injection H as <- <- <-. apply unlink_tame in E1. apply hashtab_insert_tame in E2.
    split; [|done]. eapply took_tame, E2. by apply tame_took. }
  destruct (seg_alloc v a) as [[o1 v1] a1] eqn:Es1. destruct (seg_alloc_took _ _ _ _ _ Hb Es1) as [Ht1 Eg1].
  destruct o1 as [al|]; [|by eapply Hundo].
  assert (Hst : (q | Z.max (base s) min)) by (destruct (Z.max_dec (base s) min) as [-> | ->]; done).
  destruct (negb _).
  - destruct (seg_alloc v1 a1) as [[o2 v2] a2] eqn:Es2.
    destruct (seg_alloc_took _ _ _ _ _ (took_based _ _ _ _ Ht1) Es2) as [Ht2 Eg2].
    pose proof (took_trans _ _ _ _ _ _ Ht1 Ht2) as Ht12. destruct o2 as [nw|].
    + unbind H v3 E3. apply front_tame in E3 as [Hf Hd]; [|done..].
      apply place_tame in H as (Ht & -> & ->); [|done..]. split; [|done]. by do 2 (eapply took_tame; [|done]).
    + unbind H x Ex. destruct x as [[r1 v3] a3]. injection H as <- <- <-. apply undo_tame in Ex as (Ht & -> & ->).
      split; [|apply Z.divide_0_r]. eapply took_tame; [|apply tame_lists]. by eapply took_tame.
  - apply place_tame in H as (Ht & -> & ->); [|done..]. split; [|done]. by eapply took_tame.
Qed.

Lemma fit_others_took sz min max i l : forall v a r v' a', based v a -> aligned q v -> (q | sz) -> (q | min) ->
  fit_others sz min max i l v a = Some (r, v', a') -> took v a v' a' /\ (q | r).
Proof.
  induction l as [|p l IH]; intros v a r v' a' Hb Ha Hsz Hmin H; cbn [fit_others] in H.
  { injection H as <- <- <-. split; [by apply tame_took|apply Z.divide_0_r]. }
  unbind H s Es. destruct (size s >=? sz); [|by apply IH]. unbind H x Ex. destruct x as [[r1 v1] a1].
  apply seg_fit_took in Ex as [Ht Hr]; [|done..]. destruct (negb _).
  - by injection H as <- <- <-.
  - apply IH in H as [Ht' Hr']; [|by eapply took_based|by apply (tk_aligned _ _ _ _ Ht)|done..].
    split; [by eapply took_trans|done].
Qed.

Lemma alloc_loop_took fuel : forall sz min max i v a r v' a', based v a -> aligned q v -> (q | sz) -> (q | min) ->
  alloc_loop fuel sz min max i v a = Some (r, v', a') -> took v a v' a' /\ (q | r).
Proof.
  induction fuel as [|fuel IH]; intros sz min max i v a r v' a' Hb Ha Hsz Hmin H; cbn [alloc_loop] in H.
  { destruct (i <? _); [discriminate H|]. injection H as <- <- <-. split; [by apply tame_took|apply Z.divide_0_r]. }
  destruct (i <? _); [|injection H as <- <- <-; split; [by apply tame_took|apply Z.divide_0_r]].
  unbind H l El. destruct l as [|p rest]; [exact (IH _ _ _ _ _ _ _ _ _ Hb Ha Hsz Hmin H)|]. unbind H s Es. unbind H x Ex. destruct x as [[r1 v1] a1].
  assert (Ht : took v a v1 a1 /\ (q | r1)).
  { destruct (size s >=? sz); [|exact (fit_others_took _ _ _ _ _ _ _ _ _ _ Hb Ha Hsz Hmin Ex)].
    set (v0 := with_freelists _ v) in Ex. assert (Ht0 : took v a v0 a) by (apply tame_took; [done|apply tame_lists]).
    apply seg_fit_took in Ex as [Ht Hr]; [split; [by eapply took_trans|done]| | |done|done].
    - by eapply took_based.
    - by apply (tk_aligned _ _ _ _ Ht0). }
  destruct Ht as [Ht Hr]. destruct (negb _); [by injection H as <- <- <-|].
  apply IH in H as [Ht' Hr']; [|by eapply took_based|by apply (tk_aligned _ _ _ _ Ht)|done..].
  split; [by eapply took_trans|done].
Qed.

(** [xalloc] takes pages only for its records; without bounds it returns a
    multiple of the quantum. *)
Lemma xalloc_took sz v a r v' a' : based v a -> aligned q v -> (q | ALIGNUP sz (_quantum v)) ->
  xalloc sz 0 0 v a = Some (r, v', a') -> took v a v' a' /\ (q | r).
Proof.
  intros Hb Ha Hsz. unfold xalloc. cbv zeta. generalize 65%nat (2 ^ 64 - 1). intros fuel mx H.
  exact (alloc_loop_took _ _ _ _ _ _ _ _ _ _ Hb Ha Hsz (Z.divide_0_r q) H).
Qed.

(** [init] takes pages for two records. *)
Lemma init_took b n quantum (a a' : A) v : pa_ok a -> (q | b) -> (q | n) ->
  init b n quantum empty_vmem a = Some (v, a') ->
  aligned q v /\ (forall p, p ∈ seg_page_list v -> ~ pa_held a p) /\
  (forall p, pa_held a' p <-> pa_held a p \/ p ∈ seg_page_list v).
Proof.
  intros Hok Hqb Hqn H. unfold init in H. cbv zeta in H. set (v0 := mkVMem _ _ _ _ _ _ _ _ _) in H.
  destruct (seg_alloc v0 a) as [[span v1] a1] eqn:E1.
  destruct (seg_alloc_took v0 a span v1 a1) as [T1 _]; [split; [done|by intros p ?%elem_of_nil]|done|].
  destruct span as [span|]; [cbn [mbind option_bind] in H|discriminate H].
  set (v2 := set_seg _ _ v1) in H. assert (T2 : took v0 a v2 a1) by (eapply took_tame; [exact T1|]; by apply tame_set).
  destruct (seg_alloc v2 a1) as [[ini v3] a2] eqn:E2.
  destruct (seg_alloc_took v2 a1 ini v3 a2) as [T3 _]; [by eapply took_based|done|].
  destruct ini as [ini|]; [cbn [mbind option_bind] in H|discriminate H]. unbind H l El. injection H as <- <-.
  assert (T4 : took v0 a (set_seg ini (mkSeg b n Free) v3) a2).
  { eapply took_tame; [by eapply took_trans|]. by apply tame_set. }
  destruct T4 as [_ _ Hal _ Hnew Hh]. split; [|split].
  - intros p s Hp. apply (fun H0 => Hal H0 p s Hp). intros x sx Hx. unfold v0 in Hx. cbn [segs empty_vmem] in Hx. by rewrite lookup_empty in Hx.
  - intros p Hp. destruct (Hnew p Hp) as [?%elem_of_nil|?]; done.
  - exact Hh.
Qed.

End Tame.
End VMemPages.
