(* ===== verification/Paging.v ===== *)
(** * The x86-64 page tables (src/src/arch/x86/mem/paging.cpp, paging.hpp)

    A [PageMap] is a tree of tables of 512 entries.  [mem] is the physical memory
    that holds tables, one list of entries per page; the pointer to a table is its
    physical address.  Pages come from a [PageAlloc].  [None] is an access outside
    a table or to a page that holds none.  [invlpg] and [mov cr3] do not change
    the memory and are left out. *)

From S2P Require Import Prelude Bits PageAlloc.

Module Paging.

Definition FLAG_PRESENT : Z := 1.
Definition FLAG_RW : Z := Z.shiftl 1 1.
Definition FLAG_USER : Z := Z.shiftl 1 2.
Definition FLAG_WT : Z := Z.shiftl 1 3.
Definition FLAG_CD : Z := Z.shiftl 1 4.
Definition FLAG_HUGE : Z := Z.shiftl 1 7.
Definition FLAG_NX : Z := Z.shiftl 1 63.
Definition PAGE_ADDR_MASK : Z := 0x000FFFFFFFFFF000.

(** [PageFlags] is a bit mask. *)
Definition PF_Read : Z := 1.
Definition PF_Write : Z := 2.
Definition PF_Execute : Z := 4.
Definition PF_User : Z := 8.
Definition pf_and (lhs rhs : Z) : bool := negb (Z.land lhs rhs =? 0).

Inductive CacheMode := WriteBack | WriteCombine | WriteThrough | Uncached.

Record PageMap := mkMap { level0 : Z; used_pages : list Z }.

Definition has (e flag : Z) : bool := negb (Z.land e flag =? 0).

(** The four indices of an address. *)
Definition indices (virt : Z) : nat * nat * nat * nat :=
  let virt := Z.shiftr virt 12 in
  let level3_index := Z.land virt 0x1FF in
  let virt := Z.shiftr virt 9 in
  let level2_index := Z.land virt 0x1FF in
  let virt := Z.shiftr virt 9 in
  let level1_index := Z.land virt 0x1FF in
  let virt := Z.shiftr virt 9 in
  let level0_index := Z.land virt 0x1FF in
  (Z.to_nat level0_index, Z.to_nat level1_index, Z.to_nat level2_index, Z.to_nat level3_index).

(** The flags of an entry that maps a page. *)
Definition real_flags (init flags : Z) (cache_mode : CacheMode) : Z :=
  let f := init in
  let f := if pf_and flags PF_Read then Z.lor f FLAG_PRESENT else f in
  let f := if pf_and flags PF_Write then Z.lor f FLAG_RW else f in
  let f := if negb (pf_and flags PF_Execute) then Z.lor f FLAG_NX else f in
  let f := if pf_and flags PF_User then Z.lor f FLAG_USER else f in
  match cache_mode with
  | WriteBack => f
  | WriteCombine => Z.lor f FLAG_WT
  | WriteThrough => Z.lor f FLAG_CD
  | Uncached => Z.lor f (Z.lor FLAG_WT FLAG_CD)
  end.

(** The flags of an entry that points to a table. *)
Definition all_flags (flags : Z) : Z :=
  Z.lor (Z.lor FLAG_PRESENT FLAG_RW) (if pf_and flags PF_User then FLAG_USER else 0).

(** ** Memory *)

Notation tables := (gmap Z (list Z)).

Definition read_entry (mem : tables) (table : Z) (i : nat) : option Z := t ← mem !! table; t !! i.
Definition write_entry (mem : tables) (table : Z) (i : nat) (v : Z) : option tables :=
  t ← mem !! table; _ ← t !! i; Some (<[table := <[i := v]> t]> mem).

Section WithPages.
Context {A : Type} `{PageAlloc A}.

Record state := mkState { mem : tables; pm : PageMap; alloc : A }.

(** One level of [map] and [map_2mb]: the next table, created when there is none;
    [Some (None, _)] when there is no memory for it. *)
Definition descend (table : Z) (i : nat) (flags : Z) (s : state) : option (option Z * state) :=
  e ← read_entry (mem s) table i;
  if has e FLAG_PRESENT then Some (Some (Z.land e PAGE_ADDR_MASK), s)
  else
    match pa_alloc (alloc s) with
    | (None, a) => Some (None, mkState (mem s) (pm s) a)
    | (Some page_phys, a) =>
        let m := <[page_phys := replicate 512 0]> (mem s) in
        m ← write_entry m table i (Z.lor page_phys flags);
        Some (Some page_phys, mkState m (mkMap (level0 (pm s)) (used_pages (pm s) ++ [page_phys])) a)
    end.

Definition set_entry (table : Z) (i : nat) (v : Z) (s : state) : option state :=
  m ← write_entry (mem s) table i v; Some (mkState m (pm s) (alloc s)).

Definition map_2mb (virt phys flags : Z) (cache_mode : CacheMode) (s : state) : option (bool * state) :=
  let '(level0_index, level1_index, level2_index, _) := indices virt in
  '(level1, s) ← descend (level0 (pm s)) level0_index (all_flags flags) s;
  match level1 with
  | None => Some (false, s)
  | Some level1 =>
      '(level2, s) ← descend level1 level1_index (all_flags flags) s;
      match level2 with
      | None => Some (false, s)
      | Some level2 =>
          s ← set_entry level2 level2_index (Z.lor phys (real_flags FLAG_HUGE flags cache_mode)) s;
          Some (true, s)
      end
  end.

Definition map (virt phys flags : Z) (cache_mode : CacheMode) (s : state) : option (bool * state) :=
  let '(level0_index, level1_index, level2_index, level3_index) := indices virt in
  '(level1, s) ← descend (level0 (pm s)) level0_index (all_flags flags) s;
  match level1 with
  | None => Some (false, s)
  | Some level1 =>
      '(level2, s) ← descend level1 level1_index (all_flags flags) s;
      match level2 with
      | None => Some (false, s)
      | Some level2 =>
          '(level3, s) ← descend level2 level2_index (all_flags flags) s;
          match level3 with
          | None => Some (false, s)
          | Some level3 =>
              s ← set_entry level3 level3_index (Z.lor phys (real_flags 0 flags cache_mode)) s;
              Some (true, s)
          end
      end
  end.

(** The walk of [unmap], [get_phys] and [protect]: the table of the last level,
    or the entry of a large page, or nothing. *)
Inductive walk_result := NotMapped | Huge (entry : Z) | Table (level3 : Z) (index : nat).

Definition find (virt : Z) (m : tables) (root : Z) : option walk_result :=
  let '(level0_index, level1_index, level2_index, level3_index) := indices virt in
  e0 ← read_entry m root level0_index;
  if negb (has e0 FLAG_PRESENT) then Some NotMapped
  else
    e1 ← read_entry m (Z.land e0 PAGE_ADDR_MASK) level1_index;
    if negb (has e1 FLAG_PRESENT) then Some NotMapped
    else
      e2 ← read_entry m (Z.land e1 PAGE_ADDR_MASK) level2_index;
      if negb (has e2 FLAG_PRESENT) then Some NotMapped
      else if has e2 FLAG_HUGE then Some (Huge e2)
      else Some (Table (Z.land e2 PAGE_ADDR_MASK) level3_index).

Definition unmap (virt : Z) (s : state) : option state :=
  r ← find virt (mem s) (level0 (pm s));
  match r with
  | Table level3 i => set_entry level3 i 0 s
  | _ => Some s
  end.

Definition get_phys (virt : Z) (s : state) : option Z :=
  r ← find virt (mem s) (level0 (pm s));
  match r with
  | NotMapped => Some 0
  | Huge e => Some (Z.lor (Z.land e PAGE_ADDR_MASK) (Z.land virt 0x1FFFFF))
  | Table level3 i =>
      e ← read_entry (mem s) level3 i;
      Some (Z.lor (Z.land e PAGE_ADDR_MASK) (Z.land virt 0xFFF))
  end.

Definition protect (virt flags : Z) (cache_mode : CacheMode) (s : state) : option state :=
  r ← find virt (mem s) (level0 (pm s));
  match r with
  | Table level3 i =>
      e ← read_entry (mem s) level3 i;
      set_entry level3 i (Z.lor (Z.land e PAGE_ADDR_MASK) (real_flags 0 flags cache_mode)) s
  | _ => Some s
  end.

(** The constructor; [kernel] is the top table whose upper half is copied. *)
Definition new_map (kernel : option Z) (m : tables) (a : A) : option state :=
  match pa_alloc a with
  | (None, _) => None
  | (Some phys, a) =>
      upper ← match kernel with
              | None => Some (replicate 256 0)
              | Some k => t ← m !! k; Some (drop 256 t)
              end;
      Some (mkState (<[phys := replicate 256 0 ++ upper]> m) (mkMap phys [phys]) a)
  end.

(** The destructor. *)
Definition destroy_map (s : state) : option state :=
  a ← pa_free_all (used_pages (pm s)) (alloc s); Some (mkState (mem s) (mkMap (level0 (pm s)) []) a).

(** [fill_high_half], from entry [i] on. *)
Fixpoint fill_loop (n i : nat) (s : state) : option state :=
  match n with
  | O => Some s
  | S n =>
      match pa_alloc (alloc s) with
      | (None, _) => None
      | (Some phys, a) =>
          m ← write_entry (<[phys := replicate 512 0]> (mem s)) (level0 (pm s)) i
                (Z.lor (Z.lor phys FLAG_PRESENT) FLAG_RW);
          fill_loop n (S i) (mkState m (mkMap (level0 (pm s)) (used_pages (pm s) ++ [phys])) a)
      end
  end.
Definition fill_high_half (s : state) : option state := fill_loop 512 0 s.

Definition get_top_level_phys (s : state) : Z := level0 (pm s).

End WithPages.

End Paging.
