(* ===== verification/PagingRun.v ===== *)
(** * The page tables and the processor

    [translate] is the walk that the processor makes (Intel SDM volume 3, 4-level
    paging): every entry on the way must be present, the page size bit ends the
    walk early, write and user access need the bit in every entry, and a set NX
    bit in any entry forbids execution.  The theorems say what [map], [map_2mb],
    [unmap] and [protect] change of it.  The ghost [T] names the table at each
    path of indices: the tables form a tree. *)

From S2P Require Import Prelude Bits Pmalloc PmallocRun PageAlloc Paging.


Module PagingInv.
Import Paging.

(** ** The processor's walk *)

(** The present entries on the way; [d] is the level of the first one. *)
Fixpoint spine (m : tables) (d : nat) (table : Z) (ix : list nat) : list Z :=
  match ix with
  | [] => []
  | i :: rest =>
      match read_entry m table i with
      | Some e =>
          if has e FLAG_PRESENT then
            e :: if has e FLAG_HUGE && bool_decide (1 <= d <= 2)%nat then []
                 else spine m (S d) (Z.land e PAGE_ADDR_MASK) rest
          else []
      | None => []
      end
  end.

Record access := mkAccess { a_phys : Z; a_write : bool; a_user : bool; a_exec : bool }.

(** The permissions are those that all entries grant. *)
Definition granted (es : list Z) (base virt off : Z) : access :=
  mkAccess (Z.lor (Z.land base PAGE_ADDR_MASK) (Z.land virt off))
    (forallb (fun e => has e FLAG_RW) es) (forallb (fun e => has e FLAG_USER) es)
    (forallb (fun e => negb (has e FLAG_NX)) es).

Definition path (virt : Z) : list nat := let '(a, b, c, d) := indices virt in [a; b; c; d].

Definition translate (m : tables) (root virt : Z) : option access :=
  match spine m 0 root (path virt) with
  | [_; _; _; e] as es => Some (granted es e virt 0xFFF)
  | [_; _; e] as es => if has e FLAG_HUGE then Some (granted es e virt 0x1FFFFF) else None
  | [_; e] as es => if has e FLAG_HUGE then Some (granted es e virt 0x3FFFFFFF) else None
  | _ => None
  end.

(** ** Bits of entries *)

Definition is_page (p : Z) : Prop := Z.land p PAGE_ADDR_MASK = p.

Lemma page_mask p : (PAGE_SIZE | p) -> 0 <= p < 2 ^ 52 -> is_page p.
Proof.
  intros [k ->] Hp. unfold is_page, PAGE_ADDR_MASK, PAGE_SIZE in *.
  change 0x000FFFFFFFFFF000 with (Z.shiftl (Z.ones 40) 12). change 0x1000 with (2 ^ 12) in *.
  rewrite <- Z.shiftl_mul_pow2 by lia. rewrite <- Z.shiftl_land, Z.land_ones by lia.
  rewrite Z.mod_small; [done|]. lia.
Qed.

Lemma page_flag p f : is_page p -> Z.land PAGE_ADDR_MASK f = 0 -> Z.land p f = 0.
Proof. intros Hp Hf. unfold is_page in Hp. rewrite <- Hp, <- Z.land_assoc, Hf. apply Z.land_0_r. Qed.

Lemma has_lor p f flag : is_page p -> Z.land PAGE_ADDR_MASK flag = 0 ->
  has (Z.lor p f) flag = has f flag.
Proof. intros Hp Hf. unfold has. by rewrite Z.land_lor_distr_l, (page_flag p flag Hp Hf). Qed.

Lemma mask_lor p f : is_page p -> Z.land f PAGE_ADDR_MASK = 0 -> Z.land (Z.lor p f) PAGE_ADDR_MASK = p.
Proof. intros Hp Hf. by rewrite Z.land_lor_distr_l, Hf, Z.lor_0_r. Qed.

(** What the flag words say. *)
Lemma real_flags_facts init flags cm : init = 0 \/ init = FLAG_HUGE ->
  let f := real_flags init flags cm in
  Z.land f PAGE_ADDR_MASK = 0 /\ has f FLAG_PRESENT = pf_and flags PF_Read /\
  has f FLAG_RW = pf_and flags PF_Write /\ has f FLAG_USER = pf_and flags PF_User /\
  has f FLAG_NX = negb (pf_and flags PF_Execute) /\ has f FLAG_HUGE = has init FLAG_HUGE.
Proof.
  intros Hi. unfold real_flags.
  destruct (pf_and flags PF_Read), (pf_and flags PF_Write), (pf_and flags PF_Execute),
    (pf_and flags PF_User), cm, Hi as [-> | ->]; vm_compute; done.
Qed.

Lemma all_flags_facts flags :
  let f := all_flags flags in
  Z.land f PAGE_ADDR_MASK = 0 /\ has f FLAG_PRESENT = true /\ has f FLAG_RW = true /\
  has f FLAG_USER = pf_and flags PF_User /\ has f FLAG_NX = false /\ has f FLAG_HUGE = false.
Proof. unfold all_flags. destruct (pf_and flags PF_User); vm_compute; done. Qed.

Lemma indices_bound virt : Forall (fun i => i < 512)%nat (path virt).
Proof.
  unfold path, indices. change 0x1FF with (Z.ones 9).
  rewrite !Forall_cons, Forall_nil. split_and!; try done; rewrite Z.land_ones by lia;
    match goal with |- context [?a mod ?b] => pose proof (Z.mod_pos_bound a b ltac:(lia)) end; lia.
Qed.

(** ** Reading and writing tables *)

Lemma write_entry_ok m table t i v : m !! table = Some t -> (i < length t)%nat ->
  write_entry m table i v = Some (<[table := <[i := v]> t]> m).
Proof.
  intros Ht Hi. unfold write_entry. rewrite Ht. cbn [mbind option_bind].
  destruct (lookup_lt_is_Some_2 t i Hi) as [x ->]. done.
Qed.

Lemma read_write m table t i v q j : m !! table = Some t -> (i < length t)%nat ->
  read_entry (<[table := <[i := v]> t]> m) q j =
    if decide (q = table /\ j = i) then Some v else read_entry m q j.
Proof.
  intros Ht Hi. unfold read_entry. destruct (decide (q = table)) as [->|Hne].
  - rewrite lookup_insert_eq, Ht. cbn [mbind option_bind]. destruct (decide (j = i)) as [->|Hj].
    + rewrite decide_True by done. by apply list_lookup_insert_eq.
    + rewrite decide_False by tauto. by rewrite list_lookup_insert_ne.
  - rewrite lookup_insert_ne by done. by rewrite decide_False by tauto.
Qed.

Lemma read_fresh m p zs q j : q <> p -> read_entry (<[p := zs]> m) q j = read_entry m q j.
Proof. intros Hne. unfold read_entry. by rewrite lookup_insert_ne. Qed.

Lemma read_zero m p j : (j < 512)%nat -> read_entry (<[p := replicate 512 0]> m) p j = Some 0.
Proof. intros Hj. unfold read_entry. rewrite lookup_insert_eq. cbn [mbind option_bind]. by apply lookup_replicate_2. Qed.

(** ** The tree of tables *)

Record tree (m : tables) (root : Z) (T : gmap (list nat) Z) : Prop := {
  t_root : T !! [] = Some root;
  t_inj : forall p q t, T !! p = Some t -> T !! q = Some t -> p = q;
  t_tab : forall p t, T !! p = Some t -> (length p <= 3)%nat /\ exists es, m !! t = Some es /\ length es = 512%nat;
  t_closed : forall p i t, T !! (p ++ [i]) = Some t -> exists t' e, T !! p = Some t' /\ read_entry m t' i = Some e;
  t_child : forall p t i e, T !! p = Some t -> (length p < 3)%nat -> read_entry m t i = Some e ->
    T !! (p ++ [i]) = (if has e FLAG_PRESENT && negb (has e FLAG_HUGE) then Some (Z.land e PAGE_ADDR_MASK) else None);
  t_upper : forall p t i e, T !! p = Some t -> read_entry m t i = Some e -> has e FLAG_PRESENT = true ->
    ((length p < 2)%nat -> has e FLAG_HUGE = false) /\
    ((length p < 3)%nat -> has e FLAG_HUGE = false -> has e FLAG_RW = true /\ has e FLAG_NX = false)
}.

Lemma tree_read m root T p t i : tree m root T -> T !! p = Some t -> (i < 512)%nat ->
  exists e, read_entry m t i = Some e.
Proof.
  intros HT Hp Hi. destruct (t_tab _ _ _ HT _ _ Hp) as (_ & es & Hes & Hl). unfold read_entry.
  rewrite Hes. cbn [mbind option_bind]. apply lookup_lt_is_Some_2. lia.
Qed.

(** One step of the walk inside the tree. *)
Lemma spine_step m root T p t t' i rest : tree m root T -> T !! p = Some t -> T !! (p ++ [i]) = Some t' ->
  exists e, read_entry m t i = Some e /\ has e FLAG_PRESENT = true /\ has e FLAG_HUGE = false /\
    t' = Z.land e PAGE_ADDR_MASK /\ spine m (length p) t (i :: rest) = e :: spine m (S (length p)) t' rest.
Proof.
  intros HT Hp Hc. destruct (t_closed _ _ _ HT _ _ _ Hc) as (t1 & e & Ht1 & He).
  assert (t1 = t) as -> by congruence.
  destruct (t_tab _ _ _ HT _ _ Hc) as [Hlen _]. rewrite length_app in Hlen. simpl in Hlen.
  rewrite (t_child _ _ _ HT _ _ _ _ Hp ltac:(lia) He) in Hc.
  destruct (has e FLAG_PRESENT) eqn:E1; [|done]. destruct (has e FLAG_HUGE) eqn:E2; [done|].
  simpl in Hc. simplify_eq. exists e. split_and!; try done. simpl. by rewrite He, E1, E2.
Qed.

(** A step that leaves the tree ends the walk. *)
Lemma spine_stop m root T p t i e rest : tree m root T -> T !! p = Some t -> (length p < 3)%nat ->
  read_entry m t i = Some e -> T !! (p ++ [i]) = None ->
  spine m (length p) t (i :: rest) = if has e FLAG_PRESENT then [e] else [].
Proof.
  intros HT Hp Hlen He Hc. rewrite (t_child _ _ _ HT _ _ _ _ Hp Hlen He) in Hc. simpl. rewrite He.
  destruct (has e FLAG_PRESENT) eqn:E1; [|done]. destruct (has e FLAG_HUGE) eqn:E2; [|done].
  simpl. destruct (t_upper _ _ _ HT _ _ _ _ Hp He E1) as [Hh _].
  rewrite bool_decide_true; [done|]. split; [|lia].
  destruct (decide (length p < 2)%nat) as [Hl|]; [|lia]. specialize (Hh Hl). congruence.
Qed.

(** Walking down to a table of the tree. *)
Lemma spine_app m root T p q t u rest : tree m root T -> T !! p = Some t -> T !! (p ++ q) = Some u ->
  spine m (length p) t (q ++ rest) = spine m (length p) t q ++ spine m (length (p ++ q)) u rest.
Proof.
  intros HT. revert p t. induction q as [|i q IH]; intros p t Hp Hu.
  { rewrite app_nil_r in *. simplify_eq. done. }
  replace (p ++ i :: q) with ((p ++ [i]) ++ q) in * by (by rewrite <- (assoc_L app)).
  assert (exists t', T !! (p ++ [i]) = Some t') as [t' Ht'].
  { clear -HT Hu. revert u Hu. induction q as [|j q IHq] using rev_ind; intros u Hu.
    - rewrite app_nil_r in Hu. eauto.
    - rewrite (assoc_L app) in Hu. destruct (t_closed _ _ _ HT _ _ _ Hu) as (v & _ & Hv & _). eauto. }
  destruct (spine_step _ _ _ _ _ _ _ (q ++ rest) HT Hp Ht') as (e & He & _ & _ & _ & Hs).
  destruct (spine_step _ _ _ _ _ _ _ q HT Hp Ht') as (e' & He' & _ & _ & _ & Hs').
  assert (e' = e) as -> by congruence. cbn [app]. rewrite Hs, Hs'. cbn [app].
  specialize (IH _ _ Ht' Hu). rewrite length_app in IH. simpl in IH. rewrite Nat.add_1_r in IH. by rewrite IH.
Qed.

(** A write to one cell is seen only by the walks through it. *)
Lemma spine_frame m m' root T w table i : tree m root T -> T !! w = Some table ->
  (forall q t j, T !! q = Some t -> t <> table \/ j <> i -> read_entry m' t j = read_entry m t j) ->
  forall ix p t, T !! p = Some t -> (length p + length ix <= 4)%nat ->
  (forall rest, p ++ ix <> w ++ i :: rest) ->
  spine m' (length p) t ix = spine m (length p) t ix.
Proof.
  intros HT Hw Hread. induction ix as [|j ix IH]; intros p t Hp Hlen Hno; [done|].
  assert (Hr : read_entry m' t j = read_entry m t j).
  { apply (Hread p); [done|]. destruct (decide (t = table)) as [->|]; [right|by left]. intros ->.
    rewrite (t_inj _ _ _ HT _ _ _ Hp Hw) in Hno. by apply (Hno ix). }
  simpl. rewrite Hr. destruct (read_entry m t j) as [e|] eqn:He; [|done].
  destruct (has e FLAG_PRESENT) eqn:E1; [|done]. f_equal.
  destruct (has e FLAG_HUGE && _) eqn:E2; [done|]. simpl in Hlen.
  destruct (decide (length p = 3)%nat) as [E3|E3].
  { destruct ix; [done|]. simpl in Hlen. lia. }
  destruct (t_tab _ _ _ HT _ _ Hp) as [Hl3 _].
  assert (Hc : T !! (p ++ [j]) = Some (Z.land e PAGE_ADDR_MASK)).
  { rewrite (t_child _ _ _ HT _ _ _ _ Hp ltac:(lia) He), E1.
    destruct (has e FLAG_HUGE) eqn:E4; [|done]. exfalso.
    destruct (t_upper _ _ _ HT _ _ _ _ Hp He E1) as [Hh _]. simpl in E2.
    apply bool_decide_eq_false in E2. rewrite Hh in E4 by lia. done. }
  specialize (IH _ _ Hc). rewrite length_app in IH. simpl in IH. rewrite Nat.add_1_r in IH.
  apply IH; [lia|]. intros rest. rewrite <- (assoc_L app). apply Hno.
Qed.

(** Writing an entry that is no table where there was none. *)
Lemma tree_write m root T w table es i v : tree m root T -> T !! w = Some table ->
  m !! table = Some es -> (i < 512)%nat ->
  ((length w < 3)%nat -> T !! (w ++ [i]) = None /\ has v FLAG_PRESENT && negb (has v FLAG_HUGE) = false) ->
  ((length w < 2)%nat -> has v FLAG_PRESENT = true -> has v FLAG_HUGE = false) ->
  tree (<[table := <[i := v]> es]> m) root T.
Proof.
  intros HT Hw Hes Hi Hnc Hup. destruct (t_tab _ _ _ HT _ _ Hw) as (Hl3 & es' & Hes' & Hlen).
  assert (es' = es) as -> by congruence.
  assert (Hrw : forall t j, read_entry (<[table := <[i := v]> es]> m) t j =
    if decide (t = table /\ j = i) then Some v else read_entry m t j) by (intros; apply read_write; [done|lia]).
  split.
  - apply HT.
  - apply HT.
  - intros p t Hp. destruct (t_tab _ _ _ HT _ _ Hp) as (? & es1 & Hes1 & Hl1). split; [done|].
    destruct (decide (t = table)) as [->|].
    + rewrite lookup_insert_eq. eexists. split; [done|]. by rewrite length_insert.
    + rewrite lookup_insert_ne by done. eauto.
  - intros p j t Hp. destruct (t_closed _ _ _ HT _ _ _ Hp) as (t' & e & ? & He). exists t'.
    destruct (decide (t' = table /\ j = i)); [exists v; by rewrite Hrw, decide_True|].
    exists e. by rewrite Hrw, decide_False.
  - intros p t j e Hp Hlp. rewrite Hrw. destruct (decide _) as [[-> ->]|]; [|by apply HT].
    intros [= <-]. assert (p = w) as -> by (by eapply t_inj). destruct (Hnc Hlp) as [-> ->]. done.
  - intros p t j e Hp. rewrite Hrw. destruct (decide _) as [[-> ->]|]; [|by apply HT].
    intros [= <-] Hpr. assert (p = w) as -> by (by eapply t_inj). split; [auto|].
    intros Hlp Hh. destruct (Hnc Hlp) as [_ Hn]. rewrite Hpr, Hh in Hn. done.
Qed.

(** A new, empty table. *)
Lemma tree_grow m root T w table es i page flags : tree m root T -> T !! w = Some table ->
  m !! table = Some es -> (i < 512)%nat -> (length w < 3)%nat -> T !! (w ++ [i]) = None ->
  (forall q, T !! q <> Some page) -> is_page page ->
  tree (<[table := <[i := Z.lor page (all_flags flags)]> es]> (<[page := replicate 512 0]> m)) root
    (<[w ++ [i] := page]> T).
Proof.
  intros HT Hw Hes Hi Hl3 Hno Hfresh Hpg. destruct (t_tab _ _ _ HT _ _ Hw) as (_ & es' & Hes' & Hlen).
  assert (es' = es) as -> by congruence. assert (Htp : table <> page) by (intros ->; by eapply Hfresh).
  destruct (all_flags_facts flags) as (Hm & H1 & H2 & _ & H4 & H5). set (v := Z.lor page (all_flags flags)).
  assert (Hv1 : has v FLAG_PRESENT = true) by (unfold v; by rewrite has_lor).
  assert (Hv2 : has v FLAG_RW = true) by (unfold v; by rewrite has_lor).
  assert (Hv4 : has v FLAG_NX = false) by (unfold v; by rewrite has_lor).
  assert (Hv5 : has v FLAG_HUGE = false) by (unfold v; by rewrite has_lor).
  assert (Hv : Z.land v PAGE_ADDR_MASK = page) by (by apply mask_lor).
  set (m1 := <[page := replicate 512 0]> m). assert (Hes1 : m1 !! table = Some es) by (unfold m1; by rewrite lookup_insert_ne).
  assert (Hrw : forall t j, read_entry (<[table := <[i := v]> es]> m1) t j =
    if decide (t = table /\ j = i) then Some v else read_entry m1 t j) by (intros; apply read_write; [done|lia]).
  assert (Hkey : forall q t, <[w ++ [i] := page]> T !! q = Some t <-> (q = w ++ [i] /\ t = page) \/ (q <> w ++ [i] /\ T !! q = Some t)).
  { intros q t. destruct (decide (q = w ++ [i])) as [->|]; [rewrite lookup_insert_eq|rewrite lookup_insert_ne by done]; naive_solver. }
  assert (Hbelow : forall j, T !! ((w ++ [i]) ++ [j]) = None).
  { intros j. destruct (T !! ((w ++ [i]) ++ [j])) eqn:E; [|done].
    destruct (t_closed _ _ _ HT _ _ _ E) as (t' & _ & Ht' & _). congruence. }
  assert (Hne : forall (q : list nat) j, q ++ [j] <> q) by (intros q j E; apply (f_equal length) in E; rewrite length_app in E; simpl in E; lia).
  split.
  - apply Hkey. right. split; [by destruct w|apply HT].
  - intros p q t Hp Hq. apply Hkey in Hp as [[? ?]|[? Hp]]; apply Hkey in Hq as [[? ?]|[? Hq]].
    + congruence.
    + exfalso. apply (Hfresh q). congruence.
    + exfalso. apply (Hfresh p). congruence.
    + by eapply t_inj.
  - intros p t [[-> ->]|[? Hp]]%Hkey.
    + rewrite length_app. simpl. split; [lia|]. rewrite lookup_insert_ne by done.
      exists (replicate 512 0). unfold m1. by rewrite lookup_insert_eq, length_replicate.
    + destruct (t_tab _ _ _ HT _ _ Hp) as (? & es1 & Hes2 & Hl1). split; [done|].
      destruct (decide (t = table)) as [->|].
      * rewrite lookup_insert_eq. eexists. split; [done|]. by rewrite length_insert.
      * rewrite lookup_insert_ne by done. unfold m1. rewrite lookup_insert_ne by (intros ->; by eapply Hfresh). eauto.
  - intros p j t [[Hp ->]|[_ Hp]]%Hkey.
    + apply app_inj_tail in Hp as [-> ->]. exists table, v. split; [|by rewrite Hrw, decide_True].
      apply Hkey. right. split; [|done]. intros E. by eapply Hne.
    + destruct (t_closed _ _ _ HT _ _ _ Hp) as (t' & e & Ht' & He). exists t'.
      assert (Ht1 : <[w ++ [i] := page]> T !! p = Some t').
      { apply Hkey. right. split; [|done]. intros ->. congruence. }
      destruct (decide (t' = table /\ j = i)); [exists v; by rewrite Hrw, decide_True|].
      exists e. split; [done|]. rewrite Hrw, decide_False by done. unfold m1. rewrite read_fresh; [done|].
      intros ->. by eapply Hfresh.
  - intros p t j e [[-> ->]|[Hpw Hp]]%Hkey Hlp Hr.
    + rewrite Hrw, decide_False in Hr by naive_solver.
      assert (j < 512)%nat. { unfold read_entry, m1 in Hr. rewrite lookup_insert_eq in Hr. cbn [mbind option_bind] in Hr. apply lookup_lt_Some in Hr. by rewrite length_replicate in Hr. }
      unfold m1 in Hr. rewrite read_zero in Hr by done. simplify_eq. simpl.
      rewrite lookup_insert_ne; [apply Hbelow|]. intros E. by eapply Hne.
    + rewrite Hrw in Hr. destruct (decide _) as [[-> ->]|Hn].
      * simplify_eq. assert (p = w) as -> by (by eapply t_inj). rewrite lookup_insert_eq, Hv1, Hv5. simpl. by rewrite Hv.
      * unfold m1 in Hr. rewrite read_fresh in Hr by (intros ->; by eapply Hfresh).
        rewrite lookup_insert_ne; [by eapply (t_child _ _ _ HT)|]. intros E. apply app_inj_tail in E as [-> ->]. apply Hn.
        split; [|done]. congruence.
  - intros p t j e [[-> ->]|[Hpw Hp]]%Hkey Hr Hpr.
    + rewrite Hrw, decide_False in Hr by naive_solver.
      unfold read_entry, m1 in Hr. rewrite lookup_insert_eq in Hr. cbn [mbind option_bind] in Hr.
      apply lookup_replicate in Hr as [-> _]. done.
    + rewrite Hrw in Hr. destruct (decide _) as [[-> ->]|Hn]; [by simplify_eq|].
      unfold m1 in Hr. rewrite read_fresh in Hr by (intros ->; by eapply Hfresh). by eapply t_upper.
Qed.

Lemma tree_prefix m root T p q u : tree m root T -> T !! (p ++ q) = Some u -> exists t, T !! p = Some t.
Proof.
  intros HT. revert u. induction q as [|j q IH] using rev_ind; intros u Hu.
  - rewrite app_nil_r in Hu. eauto.
  - rewrite (assoc_L app) in Hu. destruct (t_closed _ _ _ HT _ _ _ Hu) as (v & _ & Hv & _). eauto.
Qed.

(** The entries above a table are plain pointers to tables. *)
Definition pointer (e : Z) : Prop :=
  has e FLAG_HUGE = false /\ has e FLAG_RW = true /\ has e FLAG_NX = false.

Lemma spine_pointers m root T : tree m root T -> forall q p t u, T !! p = Some t -> T !! (p ++ q) = Some u ->
  Forall pointer (spine m (length p) t q) /\ length (spine m (length p) t q) = length q.
Proof.
  intros HT. induction q as [|i q IH]; intros p t u Hp Hu; [done|].
  replace (p ++ i :: q) with ((p ++ [i]) ++ q) in Hu by (by rewrite <- (assoc_L app)).
  destruct (tree_prefix _ _ _ _ _ _ HT Hu) as [t' Ht'].
  destruct (spine_step _ _ _ _ _ _ _ q HT Hp Ht') as (e & He & E1 & E2 & _ & Hs). rewrite Hs.
  destruct (t_tab _ _ _ HT _ _ Ht') as [Hlen _]. rewrite length_app in Hlen. simpl in Hlen.
  destruct (t_upper _ _ _ HT _ _ _ _ Hp He E1) as [_ Hup]. destruct (Hup ltac:(lia) E2) as [H1 H2].
  specialize (IH _ _ _ Ht' Hu). rewrite length_app in IH. simpl in IH. rewrite Nat.add_1_r in IH.
  destruct IH as [IH1 IH2]. split; [by constructor|]. simpl. by rewrite IH2.
Qed.

(** ** Walks before and after a table has been added *)

Definition grown (flags : Z) (sp sp' : list Z) : Prop :=
  sp' = sp \/ exists page, is_page page /\ sp' = sp ++ [Z.lor page (all_flags flags)] /\
    (length sp < 3)%nat /\ Forall pointer sp.

(** The tables on the way to the page allow user access. *)
Definition tables_user (m : tables) (root virt : Z) : bool :=
  forallb (fun e => has e FLAG_USER) (take 3 (spine m 0 root (path virt))).

(** The address lies in a large page. *)
Definition large (m : tables) (root virt : Z) : bool :=
  match spine m 0 root (path virt) with [_; _; e] => has e FLAG_HUGE | _ => false end.

Lemma grown_translate flags m m' root virt :
  grown flags (spine m 0 root (path virt)) (spine m' 0 root (path virt)) ->
  translate m' root virt = translate m root virt /\ large m' root virt = large m root virt /\
  (pf_and flags PF_User = true -> tables_user m' root virt = tables_user m root virt).
Proof.
  unfold translate, tables_user, large. intros [->|(page & Hpg & -> & Hlen & Hp)]; [done|].
  destruct (all_flags_facts flags) as (_ & _ & _ & Hu & _ & Hh).
  assert (Hv : has (Z.lor page (all_flags flags)) FLAG_HUGE = false) by (by rewrite has_lor).
  assert (Hv' : has (Z.lor page (all_flags flags)) FLAG_USER = pf_and flags PF_User) by (by rewrite has_lor).
  set (v := Z.lor page (all_flags flags)) in *.
  destruct (spine m 0 root (path virt)) as [|e0 [|e1 [|e2 [|]]]]; simpl in *; try lia; rewrite ?Hv, ?Hv'.
  - split_and!; try done. by intros ->.
  - split_and!; try done. intros ->. by rewrite !andb_true_r.
  - rewrite !Forall_cons in Hp. destruct Hp as (_ & (-> & _) & _). split_and!; try done. intros ->. by rewrite !andb_true_r.
Qed.

Lemma spine_grow m root T w table es i page flags ix : tree m root T -> T !! w = Some table ->
  m !! table = Some es -> (i < 512)%nat -> (length w < 3)%nat -> T !! (w ++ [i]) = None ->
  (forall e, read_entry m table i = Some e -> has e FLAG_PRESENT = false) ->
  (forall q, T !! q <> Some page) -> is_page page -> length ix = 4%nat -> Forall (fun j => j < 512)%nat ix ->
  grown flags (spine m 0 root ix)
    (spine (<[table := <[i := Z.lor page (all_flags flags)]> es]> (<[page := replicate 512 0]> m)) 0 root ix).
Proof.
  intros HT Hw Hes Hi Hl Hno Hnp Hfresh Hpg Hix Hbd.
  pose proof (tree_grow _ _ _ _ _ _ _ _ flags HT Hw Hes Hi Hl Hno Hfresh Hpg) as HT'.
  set (m' := <[table := _]> _) in *. set (T' := <[w ++ [i] := page]> T) in *.
  destruct (t_tab _ _ _ HT _ _ Hw) as (_ & es' & Hes' & Hlen). assert (es' = es) as -> by congruence.
  assert (Htp : table <> page) by (intros ->; by eapply Hfresh).
  assert (Hread : forall q t j, T !! q = Some t -> t <> table \/ j <> i -> read_entry m' t j = read_entry m t j).
  { intros q t j Hq Hor. unfold m'. rewrite read_write by (rewrite ?lookup_insert_ne; done || lia).
    rewrite decide_False by (intros [-> ->]; tauto). apply read_fresh. intros ->. by eapply Hfresh. }
  pose proof (spine_frame m m' root T w table i HT Hw Hread) as Hframe.
  assert ((exists rest, ix = w ++ i :: rest) \/ ~ exists rest, ix = w ++ i :: rest) as [(rest & ->)|Hthrough].
  { destruct (decide ((w ++ [i]) `prefix_of` ix)) as [[rest ->]|Hn]; [left|right].
    - exists rest. by rewrite <- (assoc_L app).
    - intros [rest ->]. apply Hn. exists rest. by rewrite <- (assoc_L app). }
  2:{ left. apply (Hframe ix [] root); [apply HT|simpl; lia|]. intros rest E. apply Hthrough. by exists rest. }
  pose proof (spine_app m root T [] w root table (i :: rest) HT (t_root _ _ _ HT) Hw) as Hsp. cbn [length app] in Hsp.
  right. exists page. rewrite Hsp. destruct (tree_read m root T w table i HT Hw Hi) as [e He].
  rewrite (spine_stop m root T w table i e rest HT Hw Hl He Hno), (Hnp e He), app_nil_r.
  assert (Hw' : T' !! ([] ++ w) = Some table).
  { simpl. unfold T'. rewrite lookup_insert_ne; [done|]. intros E. apply (f_equal length) in E.
    rewrite length_app in E. simpl in E. lia. }
  pose proof (spine_app m' root T' [] w root table (i :: rest) HT' (t_root _ _ _ HT') Hw') as Hsp'.
  cbn [length app] in Hsp'. rewrite Hsp'.
  destruct (spine_step m' root T' w table page i rest HT' Hw') as (v & Hv & _ & _ & _ & ->); [apply lookup_insert_eq|].
  assert (Hvv : v = Z.lor page (all_flags flags)).
  { unfold m' in Hv. rewrite read_write in Hv by (rewrite ?lookup_insert_ne; done || lia).
    rewrite decide_True in Hv by done. by simplify_eq. }
  destruct (spine_pointers m root T HT w [] root table (t_root _ _ _ HT) Hw) as [Hptr Hlw].
  cbn [length] in Hptr, Hlw.
  split_and!; [done| |by rewrite Hlw|done]. rewrite Hvv. f_equal.
  - apply (Hframe w [] root); [apply HT|simpl; lia|]. intros r E. apply (f_equal length) in E.
    simpl in E. rewrite length_app in E. simpl in E. lia.
  - f_equal. destruct rest as [|j rest]; [done|]. simpl. unfold m'. rewrite read_write by (rewrite ?lookup_insert_ne; done || lia).
    rewrite decide_False by naive_solver. rewrite read_zero; [done|].
    rewrite Forall_app in Hbd. destruct Hbd as [_ Hbd]. rewrite !Forall_cons in Hbd. tauto.
Qed.

(** ** The operations *)

Section Pages.
Context {A : Type} {PA : PageAlloc A}.

(** The tables are pages that the allocator has handed out; those in
    [used_pages] belong to this map (the others are shared with the kernel's). *)
Record wf (s : state (A := A)) (T : gmap (list nat) Z) : Prop := {
  w_tree : tree (mem s) (level0 (pm s)) T;
  w_ok : pa_ok (alloc s);
  w_held : forall p t, T !! p = Some t -> pa_held (alloc s) t;
  w_used : NoDup (used_pages (pm s)) /\ forall p, p ∈ used_pages (pm s) -> pa_held (alloc s) p
}.

Definition no_pages (a : A) : Prop := fst (pa_alloc a) = None.

(** Nothing that the processor sees changes. *)
Definition unseen (flags : Z) (s s' : state (A := A)) : Prop :=
  level0 (pm s') = level0 (pm s) /\ forall virt,
  translate (mem s') (level0 (pm s)) virt = translate (mem s) (level0 (pm s)) virt /\
  large (mem s') (level0 (pm s)) virt = large (mem s) (level0 (pm s)) virt /\
  (pf_and flags PF_User = true ->
     tables_user (mem s') (level0 (pm s)) virt = tables_user (mem s) (level0 (pm s)) virt).

Lemma unseen_trans flags s1 s2 s3 : unseen flags s1 s2 -> unseen flags s2 s3 -> unseen flags s1 s3.
Proof.
  intros [E1 H1] [E2 H2]. rewrite E1 in H2, E2. split; [done|]. intros virt.
  destruct (H1 virt) as (<- & <- & Ha), (H2 virt) as (-> & -> & Hb). split_and!; try done. intros Hu. by rewrite Hb, Ha.
Qed.

(** New tables are pages that were free, and nothing else is taken. *)
Record grows (s s' : state (A := A)) (T T' : gmap (list nat) Z) : Prop := {
  gr_sub : T ⊆ T';
  gr_new : forall p t, T' !! p = Some t -> T !! p = Some t \/ ~ pa_held (alloc s) t;
  gr_held : forall q, pa_held (alloc s') q <-> pa_held (alloc s) q \/ exists p, T' !! p = Some q;
  gr_used : forall q, q ∈ used_pages (pm s') -> q ∈ used_pages (pm s) \/ exists p, T' !! p = Some q
}.

Lemma tables_same s T : wf s T -> grows s s T T.
Proof. intros W. split; [done|by left| |by left]. intros q. split; [by left|]. intros [?|[p ?]]; [done|by eapply w_held]. Qed.

Lemma grows_trans s1 s2 s3 T1 T2 T3 : grows s1 s2 T1 T2 -> grows s2 s3 T2 T3 -> grows s1 s3 T1 T3.
Proof.
  intros [A1 B1 C1 D1] [A2 B2 C2 D2]. split.
  - by etrans.
  - intros p t Hp. destruct (B2 p t Hp) as [Hp'|Hn]; [by apply B1|]. right. intros Hh. apply Hn, C1. by left.
  - intros q. rewrite C2, C1. split; [|naive_solver]. intros [[?|[p Hp]]|?]; [by left| |by right].
    right. exists p. by eapply lookup_weaken.
  - intros q Hq. destruct (D2 q Hq) as [Hq'|?]; [|by right]. destruct (D1 q Hq') as [?|[p Hp]]; [by left|].
    right. exists p. by eapply lookup_weaken.
Qed.

Lemma path_length virt : length (path virt) = 4%nat.
Proof. done. Qed.

Lemma descend_ok s T w table i flags : wf s T -> T !! w = Some table -> (length w < 3)%nat -> (i < 512)%nat ->
  (T !! (w ++ [i]) = None -> forall e, read_entry (mem s) table i = Some e -> has e FLAG_PRESENT = false) ->
  (descend table i (all_flags flags) s = Some (None, s) /\ no_pages (alloc s)) \/
  exists next s' T', descend table i (all_flags flags) s = Some (Some next, s') /\ wf s' T' /\ grows s s' T T' /\
    T' !! (w ++ [i]) = Some next /\ unseen flags s s' /\ (forall q, T !! q = None -> q <> w ++ [i] -> T' !! q = None).
Proof.
  intros W Hw Hl Hi Hnp. pose proof (w_tree _ _ W) as HT. unfold descend.
  destruct (tree_read _ _ _ _ _ _ HT Hw Hi) as [e He]. rewrite He. cbn [mbind option_bind].
  pose proof (t_child _ _ _ HT _ _ _ _ Hw Hl He) as Hc.
  destruct (has e FLAG_PRESENT) eqn:E1.
  - right. destruct (has e FLAG_HUGE); simpl in Hc; [by rewrite (Hnp Hc e He) in E1|].
    exists (Z.land e PAGE_ADDR_MASK), s, T. split_and!; try done. by apply tables_same.
  - simpl in Hc. pose proof (pa_alloc_ok _ (w_ok _ _ W)) as Hal. unfold no_pages.
    destruct (pa_alloc (alloc s)) as [[page|] a'] eqn:Ea.
    2:{ left. subst a'. split; [|done]. by destruct s. }
    right. destruct Hal as (Hok & _ & Hfresh & Hh).
    destruct (pa_page a' page Hok) as [Hdiv Hpos]; [apply Hh; by right|].
    assert (Hpg : is_page page) by (apply page_mask; [done|lia]).
    assert (HfT : forall q, T !! q <> Some page) by (intros q Hq; by apply Hfresh, (w_held _ _ W q)).
    assert (Htp : table <> page) by (intros ->; by eapply HfT).
    destruct (t_tab _ _ _ HT _ _ Hw) as (_ & es & Hes & Hlen).
    rewrite (write_entry_ok _ _ es) by (rewrite ?lookup_insert_ne; done || lia). cbn [mbind option_bind].
    eexists _, _, (<[w ++ [i] := page]> T). split; [done|]. split_and!.
    + split; simpl.
      * by apply tree_grow.
      * done.
      * intros p t. destruct (decide (p = w ++ [i])) as [->|]; [rewrite lookup_insert_eq|rewrite lookup_insert_ne by done].
        -- intros [= <-]. apply Hh. by right.
        -- intros Hp. apply Hh. left. by eapply w_held.
      * destruct (w_used _ _ W) as [Hnd Hall]. split.
        -- apply NoDup_app. split_and!; [done| |apply NoDup_singleton]. intros x Hx Hx'.
           apply list_elem_of_singleton in Hx' as ->. by apply Hfresh, Hall.
        -- intros p Hp. apply Hh. apply elem_of_app in Hp as [Hp|Hp]; [left; by apply Hall|right].
           by apply list_elem_of_singleton in Hp.
    + split; simpl.
      * by apply insert_subseteq.
      * intros p t [[_ <-]|[_ Hp]]%lookup_insert_Some; [by right|by left].
      * intros q. rewrite Hh. split; [intros [?| ->]; [by left|right; exists (w ++ [i]); apply lookup_insert_eq]|].
        intros [?|[p [[_ <-]|[_ Hp]]%lookup_insert_Some]]; [by left|by right|left; by eapply w_held].
      * intros q [?|Hq]%elem_of_app; [by left|]. apply list_elem_of_singleton in Hq as ->. right. exists (w ++ [i]). apply lookup_insert_eq.
    + apply lookup_insert_eq.
    + split; [done|]. intros virt. simpl. apply grown_translate. eapply spine_grow; try done.
      * intros e' He'. congruence.
      * apply indices_bound.
    + intros q Hq Hne. by rewrite lookup_insert_ne.
Qed.

(** Writing a leaf. *)
Lemma set_entry_ok s T w table i v : wf s T -> T !! w = Some table -> (i < 512)%nat ->
  ((length w < 3)%nat -> T !! (w ++ [i]) = None /\ has v FLAG_PRESENT && negb (has v FLAG_HUGE) = false) ->
  ((length w < 2)%nat -> has v FLAG_PRESENT = true -> has v FLAG_HUGE = false) ->
  exists s', set_entry table i v s = Some s' /\ wf s' T /\ pm s' = pm s /\ alloc s' = alloc s /\
    read_entry (mem s') table i = Some v /\
    (forall q t j, T !! q = Some t -> t <> table \/ j <> i -> read_entry (mem s') t j = read_entry (mem s) t j).
Proof.
  intros W Hw Hi H1 H2. pose proof (w_tree _ _ W) as HT.
  destruct (t_tab _ _ _ HT _ _ Hw) as (_ & es & Hes & Hlen). unfold set_entry.
  rewrite (write_entry_ok _ _ es) by (done || lia). cbn [mbind option_bind]. eexists. split; [done|].
  split_and!; simpl; try done.
  - destruct W as [_ ? ? ?]. split; try done. by eapply tree_write.
  - rewrite read_write by (done || lia). by rewrite decide_True.
  - intros q t j Hq Hor. rewrite read_write by (done || lia). by rewrite decide_False by (intros [-> ->]; tauto).
Qed.

(** The walk to a table of the last level. *)
Lemma spine_leaf m root T w table i e : tree m root T -> T !! w = Some table -> length w = 3%nat ->
  read_entry m table i = Some e ->
  exists e0 e1 e2, Forall pointer [e0; e1; e2] /\ spine m 0 root w = [e0; e1; e2] /\
    spine m 0 root (w ++ [i]) = [e0; e1; e2] ++ if has e FLAG_PRESENT then [e] else [].
Proof.
  intros HT Hw Hl He.
  pose proof (spine_app m root T [] w root table [i] HT (t_root _ _ _ HT) Hw) as Hsp.
  destruct (spine_pointers m root T HT w [] root table (t_root _ _ _ HT) Hw) as [Hptr Hlw].
  cbn [length app] in *. rewrite Hl in *.
  destruct (spine m 0 root w) as [|e0 [|e1 [|e2 [|]]]] eqn:Esp; try done.
  exists e0, e1, e2. split_and!; [done|done|]. rewrite Hsp. f_equal. simpl. rewrite He.
  destruct (has e FLAG_PRESENT); [|done]. by destruct (has e FLAG_HUGE).
Qed.

(** What the processor sees after a leaf has been written. *)
Lemma leaf_seen m m' root T w table i v virt : tree m root T -> tree m' root T -> T !! w = Some table ->
  length w = 3%nat -> path virt = w ++ [i] -> read_entry m' table i = Some v ->
  (forall q t j, T !! q = Some t -> t <> table \/ j <> i -> read_entry m' t j = read_entry m t j) ->
  (forall virt', path virt' <> path virt -> translate m' root virt' = translate m root virt') /\
  (forall virt', path virt' = path virt -> translate m' root virt' =
     if has v FLAG_PRESENT then
       Some (mkAccess (Z.lor (Z.land v PAGE_ADDR_MASK) (Z.land virt' 0xFFF)) (has v FLAG_RW)
               (has v FLAG_USER && tables_user m root virt) (negb (has v FLAG_NX)))
     else None).
Proof.
  intros HT HT' Hw Hl Hpath Hv Hread. pose proof (spine_frame m m' root T w table i HT Hw Hread) as Hframe.
  split; intros virt' Hp'.
  - unfold translate. pose proof (Hframe (path virt') [] root (t_root _ _ _ HT)) as Hf. cbn [length app] in Hf.
    rewrite Hf; [done|done|]. intros rest E. apply Hp'. rewrite Hpath, E.
    assert (rest = []) as ->; [|done]. apply (f_equal length) in E. rewrite path_length, length_app in E. simpl in E.
    destruct rest; [done|simpl in E; lia].
  - destruct (spine_leaf _ _ _ _ _ _ _ HT' Hw Hl Hv) as (e0 & e1 & e2 & Hptr & Hs & Hsp).
    destruct (tree_read m root T w table i HT Hw) as [e He].
    { pose proof (indices_bound virt) as Hb. rewrite Hpath, Forall_app, Forall_singleton in Hb. tauto. }
    destruct (spine_leaf _ _ _ _ _ _ _ HT Hw Hl He) as (f0 & f1 & f2 & _ & Hs' & Hsp').
    assert (Hsame : spine m' 0 root w = spine m 0 root w).
    { apply (Hframe w [] root (t_root _ _ _ HT)); [simpl; lia|]. intros rest E. apply (f_equal length) in E.
      cbn [app] in E. rewrite length_app in E. simpl in E. lia. }
    rewrite Hs, Hs' in Hsame. injection Hsame as <- <- <-. unfold translate, tables_user. rewrite Hp', Hpath, Hsp, Hsp'.
    rewrite !Forall_cons in Hptr. destruct Hptr as ((_ & H1 & H2) & (_ & H3 & H4) & (H0 & H5 & H6) & _).
    destruct (has v FLAG_PRESENT); cbn [app].
    + unfold granted. cbn [forallb]. rewrite H1, H2, H3, H4, H5, H6. cbn [andb negb]. rewrite !andb_true_r. do 2 f_equal.
      cbn [take forallb]. rewrite andb_true_r, (andb_comm (has v FLAG_USER)). by rewrite !andb_assoc.
    + by rewrite H0.
Qed.

Lemma table_not_large m root T w table virt i : tree m root T -> T !! w = Some table -> length w = 3%nat ->
  path virt = w ++ [i] -> large m root virt = false.
Proof.
  intros HT Hw Hl Hpath.
  destruct (tree_read m root T w table i HT Hw) as [e He].
  { pose proof (indices_bound virt) as Hb. rewrite Hpath, Forall_app, Forall_singleton in Hb. tauto. }
  destruct (spine_leaf _ _ _ _ _ _ _ HT Hw Hl He) as (e0 & e1 & e2 & Hptr & _ & Hsp). unfold large. rewrite Hpath, Hsp.
  rewrite !Forall_cons in Hptr. destruct Hptr as (_ & _ & (Hh & _) & _). by destruct (has e FLAG_PRESENT).
Qed.

(** Writing a leaf makes no large page. *)
Lemma leaf_large m m' root T w table i virt v : tree m root T -> tree m' root T -> T !! w = Some table ->
  length w = 3%nat -> path virt = w ++ [i] ->
  (forall q t j, T !! q = Some t -> t <> table \/ j <> i -> read_entry m' t j = read_entry m t j) ->
  large m' root v = large m root v.
Proof.
  intros HT HT' Hw Hl Hpath Hread. destruct (decide (path v = path virt)) as [E|E].
  - rewrite Hpath in E. rewrite (table_not_large m root T w table v i), (table_not_large m' root T w table v i); done.
  - pose proof (spine_frame m m' root T w table i HT Hw Hread (path v) [] root (t_root _ _ _ HT)) as Hf.
    cbn [length app] in Hf. unfold large. rewrite Hf; [done|done|]. intros rest E'. apply E. rewrite Hpath, E'.
    assert (rest = []) as ->; [|done]. apply (f_equal length) in E'. rewrite path_length, length_app in E'.
    simpl in E'. destruct rest; [done|simpl in E'; lia].
Qed.

(** In a tree, an entry that is present and no table is a large page. *)
Lemma not_large s T w table i virt rest : wf s T -> T !! w = Some table -> (length w < 3)%nat ->
  path virt = w ++ i :: rest -> large (mem s) (level0 (pm s)) virt = false ->
  T !! (w ++ [i]) = None -> forall e, read_entry (mem s) table i = Some e -> has e FLAG_PRESENT = false.
Proof.
  intros W Hw Hl Hpath Hlg Hno e He. pose proof (w_tree _ _ W) as HT.
  destruct (has e FLAG_PRESENT) eqn:E; [|done]. exfalso.
  pose proof (t_child _ _ _ HT _ _ _ _ Hw Hl He) as Hc. rewrite E, Hno in Hc.
  destruct (has e FLAG_HUGE) eqn:Eh; [|done].
  destruct (t_upper _ _ _ HT _ _ _ _ Hw He E) as [Hup _].
  assert (Hl2 : length w = 2%nat) by (destruct (decide (length w < 2)%nat) as [H2|]; [by rewrite (Hup H2) in Eh|lia]).
  pose proof (spine_app _ _ _ [] w _ table (i :: rest) HT (t_root _ _ _ HT) Hw) as Hsp.
  destruct (spine_pointers _ _ _ HT w [] _ table (t_root _ _ _ HT) Hw) as [_ Hlw]. cbn [length app] in *.
  rewrite (spine_stop _ _ _ _ _ _ _ rest HT Hw Hl He Hno), E in Hsp. unfold large in Hlg.
  rewrite Hpath, Hsp in Hlg. rewrite Hl2 in Hlw.
  destruct (spine _ 0 _ w) as [|e0 [|e1 [|]]]; try done. cbn [app] in Hlg. congruence.
Qed.

(** One level down on the way to an address that is in no large page. *)
Lemma descend_path s s0 T w table i flags virt rest : wf s T -> T !! w = Some table -> (length w < 3)%nat ->
  path virt = w ++ i :: rest -> unseen flags s0 s -> large (mem s0) (level0 (pm s0)) virt = false ->
  (descend table i (all_flags flags) s = Some (None, s) /\ no_pages (alloc s)) \/
  exists next s' T', descend table i (all_flags flags) s = Some (Some next, s') /\ wf s' T' /\
    T' !! (w ++ [i]) = Some next /\ unseen flags s0 s' /\ grows s s' T T'.
Proof.
  intros W Hw Hl Hpath Hu Hlg.
  assert (Hlg' : large (mem s) (level0 (pm s)) virt = false).
  { destruct Hu as [E Hu]. destruct (Hu virt) as (_ & Hlv & _). by rewrite E, Hlv. }
  assert (Hi : (i < 512)%nat).
  { pose proof (indices_bound virt) as Hb. rewrite Hpath, Forall_app, Forall_cons in Hb. tauto. }
  destruct (descend_ok s T w table i flags W Hw Hl Hi (not_large _ _ _ _ _ _ _ W Hw Hl Hpath Hlg'))
    as [?|(next & s' & T' & ? & ? & ? & ? & Hu' & _)]; [by left|right].
  exists next, s', T'. split_and!; try done. by eapply unseen_trans.
Qed.

Lemma unseen_refl flags s : unseen flags s s.
Proof. done. Qed.

Definition seen_as (flags phys off virt' : Z) (user : bool) : option access :=
  if pf_and flags PF_Read then
    Some (mkAccess (Z.lor phys (Z.land virt' off)) (pf_and flags PF_Write) (pf_and flags PF_User && user)
            (pf_and flags PF_Execute))
  else None.

Lemma map_spec s T virt phys flags cm : wf s T -> is_page phys ->
  large (mem s) (level0 (pm s)) virt = false ->
  exists b s' T', map virt phys flags cm s = Some (b, s') /\ wf s' T' /\ level0 (pm s') = level0 (pm s) /\
    (forall v, b = false \/ path v <> path virt ->
       translate (mem s') (level0 (pm s)) v = translate (mem s) (level0 (pm s)) v) /\
    (b = false -> no_pages (alloc s')) /\
    (b = true -> forall v, path v = path virt ->
       translate (mem s') (level0 (pm s)) v =
       seen_as flags phys 0xFFF v (tables_user (mem s) (level0 (pm s)) virt)) /\
    grows s s' T T' /\ forall v, large (mem s') (level0 (pm s)) v = large (mem s) (level0 (pm s)) v.
Proof.
  intros W Hphys Hlg. unfold map. destruct (indices virt) as [[[i0 i1] i2] i3] eqn:Eix.
  assert (Hpath : path virt = [i0; i1; i2; i3]) by (unfold path; by rewrite Eix).
  assert (Hfail : forall s1 T1, wf s1 T1 -> unseen flags s s1 -> grows s s1 T T1 -> no_pages (alloc s1) ->
    exists b s' T', Some (false, s1) = Some (b, s') /\ wf s' T' /\ level0 (pm s') = level0 (pm s) /\
    (forall v, b = false \/ path v <> path virt ->
       translate (mem s') (level0 (pm s)) v = translate (mem s) (level0 (pm s)) v) /\
    (b = false -> no_pages (alloc s')) /\
    (b = true -> forall v, path v = path virt ->
       translate (mem s') (level0 (pm s)) v =
       seen_as flags phys 0xFFF v (tables_user (mem s) (level0 (pm s)) virt)) /\
    grows s s' T T' /\ forall v, large (mem s') (level0 (pm s)) v = large (mem s) (level0 (pm s)) v).
  { intros s1 T1 W1 [E1 Hu1] Hg Hn. exists false, s1, T1. split_and!; try done; [intros v _|intros v]; by destruct (Hu1 v) as (? & ? & ?). }
  pose proof (tables_same s T W) as Hg0.
  destruct (descend_path s s T [] (level0 (pm s)) i0 flags virt [i1; i2; i3] W (t_root _ _ _ (w_tree _ _ W)))
    as [[-> Hn]|(l1 & s1 & T1 & -> & W1 & Hl1 & Hu1 & Hg1)]; try done; [simpl; lia|cbn [mbind option_bind]; by eapply Hfail|].
  cbn [mbind option_bind app] in *.
  destruct (descend_path s1 s T1 [i0] l1 i1 flags virt [i2; i3] W1 Hl1)
    as [[-> Hn]|(l2 & s2 & T2 & -> & W2 & Hl2 & Hu2 & Hg2)]; try done; [simpl; lia|cbn [mbind option_bind]; by eapply Hfail|].
  pose proof (grows_trans _ _ _ _ _ _ Hg1 Hg2) as Hg2'.
  cbn [mbind option_bind app] in *.
  destruct (descend_path s2 s T2 [i0; i1] l2 i2 flags virt [i3] W2 Hl2)
    as [[-> Hn]|(l3 & s3 & T3 & -> & W3 & Hl3 & Hu3 & Hg3)]; try done; [simpl; lia|cbn [mbind option_bind]; by eapply Hfail|].
  pose proof (grows_trans _ _ _ _ _ _ Hg2' Hg3) as Hg3'.
  cbn [mbind option_bind app] in *.
  destruct (real_flags_facts 0 flags cm) as (Hm & F1 & F2 & F3 & F4 & _); [by left|].
  destruct (set_entry_ok s3 T3 [i0; i1; i2] l3 i3 (Z.lor phys (real_flags 0 flags cm)) W3 Hl3)
    as (s' & -> & W' & Hpm & Hals & Hv & Hread); [|simpl; lia|simpl; lia|].
  { pose proof (indices_bound virt) as Hb. rewrite Hpath, !Forall_cons in Hb. tauto. }
  cbn [mbind option_bind]. destruct Hu3 as [E3 Hu3].
  assert (Hroot : level0 (pm s') = level0 (pm s)) by congruence.
  pose proof (w_tree _ _ W3) as HT3. pose proof (w_tree _ _ W') as HT'. rewrite E3 in HT3. rewrite Hroot in HT'.
  destruct (leaf_seen (mem s3) (mem s') (level0 (pm s)) T3 [i0; i1; i2] l3 i3 _ virt HT3 HT' Hl3 eq_refl Hpath Hv Hread)
    as [Hother Hthis].
  exists true, s', T3. split_and!; try done.
  - intros v [?|Hv']; [done|]. rewrite Hother by done. by destruct (Hu3 v).
  - intros _ v Hv'. rewrite Hthis by done. unfold seen_as.
    rewrite !has_lor, (mask_lor _ _ Hphys Hm), F1, F2, F3, F4 by done.
    destruct (pf_and flags PF_Read); [|done]. rewrite negb_involutive. do 2 f_equal.
    destruct (pf_and flags PF_User) eqn:EU; [|done]. simpl. destruct (Hu3 virt) as (_ & _ & Ht). by apply Ht.
  - destruct Hg3' as [G1 G2 G3 G4]. split; [done|done|by rewrite Hals|by rewrite Hpm].
  - intros v. rewrite (leaf_large (mem s3) (mem s') _ T3 [i0; i1; i2] l3 i3 virt v HT3 HT' Hl3 eq_refl Hpath Hread).
    by destruct (Hu3 v) as (_ & ? & _).
Qed.

(** [find] is the processor's walk down to the last table. *)
Lemma find_spec m root T virt i0 i1 i2 i3 : tree m root T -> path virt = [i0; i1; i2; i3] ->
  exists r, find virt m root = Some r /\
    match r with
    | NotMapped => T !! [i0; i1; i2] = None /\ (length (spine m 0 root (path virt)) <= 2)%nat /\
        Forall pointer (spine m 0 root (path virt))
    | Huge e => T !! [i0; i1; i2] = None /\ has e FLAG_HUGE = true /\
        exists e0 e1, spine m 0 root (path virt) = [e0; e1; e]
    | Table l3 i => i = i3 /\ T !! [i0; i1; i2] = Some l3
    end.
Proof.
  intros HT Hpath. assert (Eix : indices virt = (i0, i1, i2, i3)).
  { unfold path in Hpath. destruct (indices virt) as [[[? ?] ?] ?]. by simplify_eq. }
  pose proof (indices_bound virt) as Hb. rewrite Hpath, !Forall_cons in Hb. destruct Hb as (B0 & B1 & B2 & B3 & _).
  assert (Hnone : forall p q, T !! p = None -> T !! (p ++ q) = None).
  { intros p q Hp. destruct (T !! (p ++ q)) eqn:E; [|done]. destruct (tree_prefix _ _ _ _ _ _ HT E). congruence. }
  rewrite Hpath. unfold find. rewrite Eix. pose proof (t_root _ _ _ HT) as Hr.
  destruct (tree_read _ _ _ [] _ i0 HT Hr B0) as [e0 He0]. rewrite He0. cbn [mbind option_bind].
  pose proof (t_child _ _ _ HT [] _ _ _ Hr ltac:(simpl; lia) He0) as Hc0. cbn [app] in Hc0.
  destruct (has e0 FLAG_PRESENT) eqn:P0; cbn [negb].
  2:{ eexists. split; [done|]. cbn [andb] in Hc0. split; [by apply (Hnone [i0] [i1; i2])|].
      simpl. rewrite He0, P0. split; [simpl; lia|constructor]. }
  destruct (t_upper _ _ _ HT [] _ _ _ Hr He0 P0) as [Hh0 _]. rewrite Hh0 in Hc0 by (simpl; lia). cbn [andb negb] in Hc0.
  destruct (tree_read _ _ _ _ _ i1 HT Hc0 B1) as [e1 He1]. rewrite He1. cbn [mbind option_bind].
  destruct (spine_step m root T [] root _ i0 [i1; i2; i3] HT Hr Hc0) as (e & He & _ & _ & _ & Hs0).
  assert (e = e0) as -> by congruence. cbn [length] in Hs0. rewrite Hs0.
  pose proof (t_upper _ _ _ HT [] _ _ _ Hr He0 P0) as [Hx0 Hx1].
  assert (Hp0 : pointer e0) by (split; [by apply Hx0; simpl; lia|apply Hx1; [simpl; lia|apply Hx0; simpl; lia]]).
  pose proof (t_child _ _ _ HT [i0] _ _ _ Hc0 ltac:(simpl; lia) He1) as Hc1. cbn [app] in Hc1.
  destruct (has e1 FLAG_PRESENT) eqn:P1; cbn [negb].
  2:{ eexists. split; [done|]. cbn [andb] in Hc1. split; [by apply (Hnone [i0; i1] [i2])|].
      pose proof (spine_stop m root T [i0] _ i1 e1 [i2; i3] HT Hc0 ltac:(simpl; lia) He1 Hc1) as Hs. cbn [length] in Hs.
      rewrite Hs, P1. split; [simpl; lia|]. by apply Forall_singleton. }
  pose proof (t_upper _ _ _ HT [i0] _ _ _ Hc0 He1 P1) as [Hy0 Hy1]. rewrite Hy0 in Hc1 by (simpl; lia). cbn [andb negb] in Hc1.
  assert (Hp1 : pointer e1) by (split; [by apply Hy0; simpl; lia|apply Hy1; [simpl; lia|apply Hy0; simpl; lia]]).
  destruct (tree_read _ _ _ _ _ i2 HT Hc1 B2) as [e2 He2]. rewrite He2. cbn [mbind option_bind].
  destruct (spine_step m root T [i0] _ _ i1 [i2; i3] HT Hc0 Hc1) as (e & He' & _ & _ & _ & Hs1).
  assert (e = e1) as -> by congruence. cbn [length] in Hs1. rewrite Hs1.
  pose proof (t_child _ _ _ HT [i0; i1] _ _ _ Hc1 ltac:(simpl; lia) He2) as Hc2. cbn [app] in Hc2.
  destruct (has e2 FLAG_PRESENT) eqn:P2; cbn [negb].
  2:{ eexists. split; [done|]. cbn [andb] in Hc2. split; [done|].
      pose proof (spine_stop m root T [i0; i1] _ i2 e2 [i3] HT Hc1 ltac:(simpl; lia) He2 Hc2) as Hs. cbn [length] in Hs.
      rewrite Hs, P2. split; [simpl; lia|]. by rewrite !Forall_cons. }
  destruct (has e2 FLAG_HUGE) eqn:P3; cbn [andb negb] in Hc2.
  - eexists. split; [done|]. split_and!; try done. exists e0, e1. do 2 f_equal.
    pose proof (spine_stop m root T [i0; i1] _ i2 e2 [i3] HT Hc1 ltac:(simpl; lia) He2 Hc2) as Hs. cbn [length] in Hs.
    by rewrite Hs, P2.
  - eexists. split; [done|]. done.
Qed.

(** A walk that ends above the last table reaches no page. *)
Lemma short_walk m root virt : (length (spine m 0 root (path virt)) <= 2)%nat ->
  Forall pointer (spine m 0 root (path virt)) ->
  large m root virt = false /\ forall v, path v = path virt -> translate m root v = None.
Proof.
  intros Hl Hp. unfold large, translate.
  destruct (spine m 0 root (path virt)) as [|e0 [|e1 [|]]] eqn:E; simpl in Hl; try lia;
    (split; [done|]); intros v Hv; rewrite Hv, E; try done.
  rewrite !Forall_cons in Hp. destruct Hp as (_ & (-> & _) & _). done.
Qed.

Lemma path_cases virt : exists i0 i1 i2 i3, path virt = [i0; i1; i2; i3] /\ (i3 < 512)%nat.
Proof.
  pose proof (indices_bound virt) as Hb. unfold path in *. destruct (indices virt) as [[[i0 i1] i2] i3].
  rewrite !Forall_cons in Hb. exists i0, i1, i2, i3. tauto.
Qed.

Lemma unmap_spec s T virt : wf s T ->
  exists s', unmap virt s = Some s' /\ wf s' T /\ pm s' = pm s /\ alloc s' = alloc s /\
    (forall v, path v <> path virt -> translate (mem s') (level0 (pm s)) v = translate (mem s) (level0 (pm s)) v) /\
    (large (mem s) (level0 (pm s)) virt = true -> s' = s) /\
    (large (mem s) (level0 (pm s)) virt = false ->
       forall v, path v = path virt -> translate (mem s') (level0 (pm s)) v = None) /\
    forall v, large (mem s') (level0 (pm s)) v = large (mem s) (level0 (pm s)) v.
Proof.
  intros W. pose proof (w_tree _ _ W) as HT. unfold unmap.
  destruct (path_cases virt) as (i0 & i1 & i2 & i3 & Hpath & Hi).
  destruct (find_spec _ _ _ _ _ _ _ _ HT Hpath) as (r & -> & Hr). cbn [mbind option_bind].
  destruct r as [|e|l3 i].
  - destruct Hr as (_ & Hl & Hp). destruct (short_walk _ _ _ Hl Hp) as [Hlg Hno]. exists s. split_and!; try done.
  - destruct Hr as (_ & Hh & e0 & e1 & Hsp). exists s. split_and!; try done. unfold large. by rewrite Hsp, Hh.
  - destruct Hr as [-> Hl3].
    pose proof (table_not_large _ _ _ [i0; i1; i2] _ virt i3 HT Hl3 eq_refl Hpath) as Hlg.
    destruct (set_entry_ok s T [i0; i1; i2] l3 i3 0 W Hl3) as (s' & -> & W' & Hpm & Hal & Hv & Hread); [done|simpl; lia|simpl; lia|].
    pose proof (w_tree _ _ W') as HT'. rewrite Hpm in HT'.
    destruct (leaf_seen (mem s) (mem s') _ T [i0; i1; i2] l3 i3 0 virt HT HT' Hl3 eq_refl Hpath Hv Hread) as [Hother Hthis].
    exists s'. split; [done|]. split; [exact W'|]. split_and!; try done; [by rewrite Hlg|].
    intros v. exact (leaf_large (mem s) (mem s') _ T [i0; i1; i2] l3 i3 virt v HT HT' Hl3 eq_refl Hpath Hread).
Qed.

Lemma get_phys_spec s T virt : wf s T ->
  exists p, get_phys virt s = Some p /\
    forall a, translate (mem s) (level0 (pm s)) virt = Some a -> p = a_phys a.
Proof.
  intros W. pose proof (w_tree _ _ W) as HT. unfold get_phys.
  destruct (path_cases virt) as (i0 & i1 & i2 & i3 & Hpath & Hi).
  destruct (find_spec _ _ _ _ _ _ _ _ HT Hpath) as (r & -> & Hr). cbn [mbind option_bind].
  destruct r as [|e|l3 i].
  - destruct Hr as (_ & Hl & Hp). destruct (short_walk _ _ _ Hl Hp) as [_ Hno]. eexists. split; [done|].
    intros a Ha. by rewrite Hno in Ha.
  - destruct Hr as (_ & Hh & e0 & e1 & Hsp). eexists. split; [done|]. intros a Ha. unfold translate in Ha.
    rewrite Hsp, Hh in Ha. by simplify_eq.
  - destruct Hr as [-> Hl3]. destruct (tree_read _ _ _ _ _ i3 HT Hl3 Hi) as [e He]. rewrite He. cbn [mbind option_bind].
    eexists. split; [done|]. intros a Ha.
    destruct (leaf_seen (mem s) (mem s) _ T [i0; i1; i2] l3 i3 e virt HT HT Hl3 eq_refl Hpath He) as [_ Hthis]; [done|].
    rewrite Hthis in Ha by done. destruct (has e FLAG_PRESENT); [|done]. by simplify_eq.
Qed.

Lemma protect_spec s T virt flags cm : wf s T ->
  exists s', protect virt flags cm s = Some s' /\ wf s' T /\ pm s' = pm s /\ alloc s' = alloc s /\
    (forall v, path v <> path virt -> translate (mem s') (level0 (pm s)) v = translate (mem s) (level0 (pm s)) v) /\
    (large (mem s) (level0 (pm s)) virt = true -> s' = s) /\
    (large (mem s) (level0 (pm s)) virt = false -> forall v a, path v = path virt ->
       translate (mem s) (level0 (pm s)) v = Some a ->
       translate (mem s') (level0 (pm s)) v =
         if pf_and flags PF_Read then
           Some (mkAccess (a_phys a) (pf_and flags PF_Write)
                   (pf_and flags PF_User && tables_user (mem s) (level0 (pm s)) virt) (pf_and flags PF_Execute))
         else None).
Proof.
  intros W. pose proof (w_tree _ _ W) as HT. unfold protect.
  destruct (path_cases virt) as (i0 & i1 & i2 & i3 & Hpath & Hi).
  destruct (find_spec _ _ _ _ _ _ _ _ HT Hpath) as (r & -> & Hr). cbn [mbind option_bind].
  destruct r as [|e|l3 i].
  - destruct Hr as (_ & Hl & Hp). destruct (short_walk _ _ _ Hl Hp) as [Hlg Hno]. exists s. split_and!; try done.
    intros _ v a Hv Ha. by rewrite Hno in Ha.
  - destruct Hr as (_ & Hh & e0 & e1 & Hsp). exists s. split_and!; try done. unfold large. by rewrite Hsp, Hh.
  - destruct Hr as [-> Hl3]. destruct (tree_read _ _ _ _ _ i3 HT Hl3 Hi) as [e He]. rewrite He. cbn [mbind option_bind].
    pose proof (table_not_large _ _ _ [i0; i1; i2] _ virt i3 HT Hl3 eq_refl Hpath) as Hlg.
    destruct (real_flags_facts 0 flags cm) as (Hm & F1 & F2 & F3 & F4 & _); [by left|].
    destruct (set_entry_ok s T [i0; i1; i2] l3 i3 (Z.lor (Z.land e PAGE_ADDR_MASK) (real_flags 0 flags cm)) W Hl3)
      as (s' & -> & W' & Hpm & Hal & Hv & Hread); [done|simpl; lia|simpl; lia|].
    pose proof (w_tree _ _ W') as HT'. rewrite Hpm in HT'.
    destruct (leaf_seen (mem s) (mem s') _ T [i0; i1; i2] l3 i3 _ virt HT HT' Hl3 eq_refl Hpath Hv Hread) as [Hother Hthis].
    destruct (leaf_seen (mem s) (mem s) _ T [i0; i1; i2] l3 i3 e virt HT HT Hl3 eq_refl Hpath He) as [_ Hold]; [done|].
    assert (Hpg : is_page (Z.land e PAGE_ADDR_MASK)) by (unfold is_page; by rewrite <- Z.land_assoc, Z.land_diag).
    exists s'. split; [done|]. split; [exact W'|]. split_and!; try done; [by rewrite Hlg|]. intros _ v a Hp Ha. rewrite Hold in Ha by done.
    destruct (has e FLAG_PRESENT); [|done]. injection Ha as <-. cbn [a_phys]. rewrite Hthis by done.
    rewrite !has_lor, (mask_lor _ _ Hpg Hm), F1, F2, F3, F4 by done.
    destruct (pf_and flags PF_Read); [|done]. by rewrite negb_involutive.
Qed.

(** ** Large pages *)

(** The upper two levels hold no large pages. *)
Lemma upper_table s T w table i : wf s T -> T !! w = Some table -> (length w < 2)%nat ->
  T !! (w ++ [i]) = None -> forall e, read_entry (mem s) table i = Some e -> has e FLAG_PRESENT = false.
Proof.
  intros W Hw Hl Hno e He. pose proof (w_tree _ _ W) as HT. destruct (has e FLAG_PRESENT) eqn:E; [|done].
  destruct (t_upper _ _ _ HT _ _ _ _ Hw He E) as [Hup _].
  rewrite (t_child _ _ _ HT _ _ _ _ Hw ltac:(lia) He), E, (Hup Hl) in Hno. done.
Qed.

Lemma path_take virt virt' w i rest : path virt = w ++ i :: rest -> length w = 2%nat ->
  (exists rest', path virt' = w ++ i :: rest') <-> take 3 (path virt') = take 3 (path virt).
Proof.
  intros Hp Hl. rewrite Hp. replace (take 3 (w ++ i :: rest)) with (w ++ [i]).
  2:{ rewrite take_app, Hl, take_ge by lia. done. }
  split.
  - intros [rest' ->]. rewrite take_app, Hl, take_ge by lia. done.
  - intros E. exists (drop 3 (path virt')). rewrite <- (take_drop 3 (path virt')) at 1. by rewrite E, <- (assoc_L app).
Qed.

Lemma large_seen m m' root T w table i v virt rest : tree m root T -> tree m' root T -> T !! w = Some table ->
  length w = 2%nat -> path virt = w ++ i :: rest -> T !! (w ++ [i]) = None -> read_entry m' table i = Some v ->
  has v FLAG_HUGE = true ->
  (forall q t j, T !! q = Some t -> t <> table \/ j <> i -> read_entry m' t j = read_entry m t j) ->
  (forall virt', take 3 (path virt') <> take 3 (path virt) -> translate m' root virt' = translate m root virt') /\
  (forall virt', take 3 (path virt') = take 3 (path virt) -> translate m' root virt' =
     if has v FLAG_PRESENT then
       Some (mkAccess (Z.lor (Z.land v PAGE_ADDR_MASK) (Z.land virt' 0x1FFFFF)) (has v FLAG_RW)
               (has v FLAG_USER && forallb (fun e => has e FLAG_USER) (spine m 0 root w)) (negb (has v FLAG_NX)))
     else None).
Proof.
  intros HT HT' Hw Hl Hpath Hno Hv Hh Hread. pose proof (spine_frame m m' root T w table i HT Hw Hread) as Hframe.
  split; intros virt' Hp'.
  - unfold translate. pose proof (Hframe (path virt') [] root (t_root _ _ _ HT)) as Hf. cbn [length app] in Hf.
    rewrite Hf; [done|done|]. intros rest' E. apply Hp'. by apply (path_take virt virt' w i rest Hpath Hl); exists rest'.
  - apply (path_take virt virt' w i rest Hpath Hl) in Hp' as [rest' Hp'].
    assert (Hsame : spine m' 0 root w = spine m 0 root w).
    { apply (Hframe w [] root (t_root _ _ _ HT)); [simpl; lia|]. intros r E. apply (f_equal length) in E.
      cbn [app] in E. rewrite length_app in E. simpl in E. lia. }
    pose proof (spine_app m' root T [] w root table (i :: rest') HT' (t_root _ _ _ HT') Hw) as Hsp.
    destruct (spine_pointers m' root T HT' w [] root table (t_root _ _ _ HT') Hw) as [Hptr Hlw].
    cbn [length app] in *. rewrite (spine_stop _ _ _ _ _ _ _ rest' HT' Hw ltac:(lia) Hv Hno), Hsame in Hsp.
    rewrite Hl, Hsame in *. unfold translate. rewrite Hp', Hsp.
    destruct (spine m 0 root w) as [|e0 [|e1 [|]]]; try done. rewrite !Forall_cons in Hptr.
    destruct Hptr as ((_ & H1 & H2) & (H0 & H3 & H4) & _). destruct (has v FLAG_PRESENT); cbn [app].
    + rewrite Hh. unfold granted. cbn [forallb]. rewrite H1, H2, H3, H4. cbn [andb negb]. rewrite !andb_true_r. do 2 f_equal.
      rewrite (andb_comm (has v FLAG_USER)). by rewrite !andb_assoc.
    + by rewrite H0.
Qed.

Lemma map_2mb_spec s T virt phys flags cm : wf s T -> is_page phys ->
  (forall l3 i, find virt (mem s) (level0 (pm s)) <> Some (Table l3 i)) ->
  exists b s' T', map_2mb virt phys flags cm s = Some (b, s') /\ wf s' T' /\ level0 (pm s') = level0 (pm s) /\
    (forall v, b = false \/ take 3 (path v) <> take 3 (path virt) ->
       translate (mem s') (level0 (pm s)) v = translate (mem s) (level0 (pm s)) v) /\
    (b = false -> no_pages (alloc s')) /\
    (b = true -> exists user, forall v, take 3 (path v) = take 3 (path virt) ->
       translate (mem s') (level0 (pm s)) v = seen_as flags phys 0x1FFFFF v user).
Proof.
  intros W Hphys Hnt. pose proof (w_tree _ _ W) as HT. destruct (path_cases virt) as (i0 & i1 & i2 & i3 & Hpath & _).
  pose proof (indices_bound virt) as Hb. rewrite Hpath, !Forall_cons in Hb. destruct Hb as (B0 & B1 & B2 & _).
  assert (HT3 : T !! [i0; i1; i2] = None).
  { destruct (find_spec _ _ _ _ _ _ _ _ HT Hpath) as (r & Hr & Hc). destruct r; [tauto|tauto|].
    by destruct (Hnt level3 index). }
  unfold map_2mb. assert (indices virt = (i0, i1, i2, i3)) as ->.
  { unfold path in Hpath. destruct (indices virt) as [[[? ?] ?] ?]. by simplify_eq. }
  destruct (descend_ok s T [] (level0 (pm s)) i0 flags W (t_root _ _ _ HT) ltac:(simpl; lia) B0
    (upper_table _ _ _ _ _ W (t_root _ _ _ HT) ltac:(simpl; lia)))
    as [[-> Hn]|(l1 & s1 & T1 & -> & W1 & _ & Hl1 & [E1 Hu1] & Hk1)]; cbn [mbind option_bind app] in *.
  { exists false, s, T. split_and!; try done. }
  destruct (descend_ok s1 T1 [i0] l1 i1 flags W1 Hl1 ltac:(simpl; lia) B1
    (upper_table _ _ _ _ _ W1 Hl1 ltac:(simpl; lia)))
    as [[-> Hn]|(l2 & s2 & T2 & -> & W2 & _ & Hl2 & [E2 Hu2] & Hk2)]; cbn [mbind option_bind app] in *.
  { exists false, s1, T1. split_and!; try done. intros v _. by destruct (Hu1 v). }
  assert (HT3' : T2 !! ([i0; i1] ++ [i2]) = None) by (simpl; auto).
  destruct (real_flags_facts FLAG_HUGE flags cm) as (Hm & F1 & F2 & F3 & F4 & F5); [by right|].
  set (v := Z.lor phys (real_flags FLAG_HUGE flags cm)).
  assert (Hvh : has v FLAG_HUGE = true) by (unfold v; by rewrite has_lor).
  destruct (set_entry_ok s2 T2 [i0; i1] l2 i2 v W2 Hl2) as (s' & -> & W' & Hpm & _ & Hv & Hread);
    [done|intros _; split; [done|by rewrite Hvh, andb_false_r]|simpl; lia|].
  cbn [mbind option_bind]. rewrite E1 in E2, Hu2.
  assert (Hroot : level0 (pm s') = level0 (pm s)) by congruence.
  pose proof (w_tree _ _ W2) as HT2. pose proof (w_tree _ _ W') as HT'. rewrite E2 in HT2. rewrite Hroot in HT'.
  destruct (large_seen (mem s2) (mem s') (level0 (pm s)) T2 [i0; i1] l2 i2 v virt [i3] HT2 HT' Hl2 eq_refl Hpath HT3' Hv Hvh Hread)
    as [Hother Hthis].
  exists true, s', T2. split_and!; try done.
  - intros x [?|Hx]; [done|]. rewrite Hother by done. destruct (Hu2 x) as (-> & _), (Hu1 x) as (-> & _). done.
  - intros _. exists (forallb (fun e => has e FLAG_USER) (spine (mem s2) 0 (level0 (pm s)) [i0; i1])). intros x Hx.
    rewrite Hthis by done. unfold seen_as, v. rewrite !(has_lor _ _ _ Hphys), (mask_lor _ _ Hphys Hm), F1, F2, F3, F4 by done.
    destruct (pf_and flags PF_Read); [|done]. by rewrite negb_involutive.
Qed.

(** ** Construction and destruction *)

Lemma new_map_spec m (a : A) : pa_ok a ->
  (no_pages a /\ new_map None m a = None) \/
  exists s T, new_map None m a = Some s /\ wf s T /\ used_pages (pm s) = [level0 (pm s)] /\
    ~ pa_held a (level0 (pm s)) /\ (forall virt, translate (mem s) (level0 (pm s)) virt = None) /\
    (forall virt, large (mem s) (level0 (pm s)) virt = false) /\
    (forall q, (exists p, T !! p = Some q) <-> q = level0 (pm s)) /\
    forall q, pa_held (alloc s) q <-> pa_held a q \/ q = level0 (pm s).
Proof.
  intros Hok. unfold new_map, no_pages. pose proof (pa_alloc_ok a Hok) as Hal.
  destruct (pa_alloc a) as [[phys|] a']; [right|by left]. destruct Hal as (Hok' & _ & Hfresh & Hh).
  cbn [mbind option_bind]. change (replicate 256 0 ++ replicate 256 0) with (replicate 512 0).
  set (m' := <[phys := replicate 512 0]> m).
  assert (Hz : forall i e, read_entry m' phys i = Some e -> e = 0).
  { intros i e He. unfold read_entry, m' in He. rewrite lookup_insert_eq in He. cbn [mbind option_bind] in He.
    by apply lookup_replicate in He as [-> _]. }
  eexists _, {[ [] := phys ]}. split; [done|]. split_and!; [|done|done| | | |done].
  - split; simpl; [|done| |].
    + split.
      * apply lookup_singleton_eq.
      * intros p q t [<- _]%lookup_singleton_Some [<- _]%lookup_singleton_Some. done.
      * intros p t [<- <-]%lookup_singleton_Some. split; [simpl; lia|]. unfold m'. rewrite lookup_insert_eq.
        exists (replicate 512 0). by rewrite length_replicate.
      * intros p i t [E _]%lookup_singleton_Some. by destruct p.
      * intros p t i e [<- <-]%lookup_singleton_Some _ He. rewrite (Hz _ _ He). by rewrite lookup_singleton_ne.
      * intros p t i e [<- <-]%lookup_singleton_Some He. by rewrite (Hz _ _ He).
    + intros p t [_ <-]%lookup_singleton_Some. apply Hh. by right.
    + split; [apply NoDup_singleton|]. intros p ->%list_elem_of_singleton. apply Hh. by right.
  - intros virt. simpl. unfold translate. destruct (path_cases virt) as (i0 & i1 & i2 & i3 & -> & _). simpl.
    destruct (read_entry m' phys i0) as [e|] eqn:E; [|done]. by rewrite (Hz _ _ E).
  - intros virt. simpl. unfold large. destruct (path_cases virt) as (i0 & i1 & i2 & i3 & -> & _). simpl.
    destruct (read_entry m' phys i0) as [e|] eqn:E; [|done]. by rewrite (Hz _ _ E).
  - intros q. simpl. split; [by intros [p [_ <-]%lookup_singleton_Some]|]. intros ->. exists []. apply lookup_singleton_eq.
Qed.

Lemma destroy_map_spec s T : wf s T ->
  exists s', destroy_map s = Some s' /\ used_pages (pm s') = [] /\ pa_ok (alloc s') /\
    forall q, pa_held (alloc s') q <-> pa_held (alloc s) q /\ q ∉ used_pages (pm s).
Proof.
  intros W. destruct (w_used _ _ W) as [Hnd Hall]. unfold destroy_map.
  destruct (pa_free_all_ok _ _ (w_ok _ _ W) Hnd Hall) as (a' & -> & Hok & Hh). cbn [mbind option_bind].
  by eexists.
Qed.

End Pages.

End PagingInv.

(** * What the page map operations promise

    The theorems about [map], [map_2mb], [unmap], [protect], [get_phys] and the
    destructor over any page allocator, with the runs on the buddy allocator
    that witness them, and two behaviours that a caller may not expect. *)

Module PagingRun.
Import Paging PagingInv.

Section Pages.
Context {A : Type} {PA : PageAlloc A}.

(** The tables form a tree of pages that the allocator has handed out. *)
Definition ok (s : state (A := A)) : Prop := exists T, wf s T.

(** What the processor sees of the address. *)
Definition sees (s : state (A := A)) (virt : Z) : option access := translate (mem s) (level0 (pm s)) virt.

(** The page number of an address: what the four indices keep of it. *)
Definition same_page (v virt : Z) : Prop := path v = path virt.
Definition same_large_page (v virt : Z) : Prop := take 3 (path v) = take 3 (path virt).

(** C19: [map] of a page that is not inside a large page returns in every case.  When it succeeds, the processor translates each address of the page to the physical page with exactly the permissions of the flags (user access also needs it in the tables that were there before), and no other page changes.  When it fails no page of memory was left, and nothing that the processor sees has changed. *)
Theorem map_correct s virt phys flags cm : ok s -> (PAGE_SIZE | phys) -> 0 <= phys < 2 ^ 52 ->
  large (mem s) (level0 (pm s)) virt = false ->
  exists b s', map virt phys flags cm s = Some (b, s') /\ ok s' /\
    (forall v, b = false \/ ~ same_page v virt -> sees s' v = sees s v) /\
    (b = false -> no_pages (alloc s')) /\
    (b = true -> forall v, same_page v virt ->
       sees s' v = if pf_and flags PF_Read then
           Some (mkAccess (Z.lor phys (Z.land v 0xFFF)) (pf_and flags PF_Write)
                   (pf_and flags PF_User && tables_user (mem s) (level0 (pm s)) virt) (pf_and flags PF_Execute))
         else None).
Proof.
  intros [T W] Hd Hb Hlg. destruct (map_spec s T virt phys flags cm W (page_mask _ Hd Hb) Hlg)
    as (b & s' & T' & Hm & W' & E & H1 & H2 & H3 & _).
  exists b, s'. unfold sees. rewrite E. split_and!; [done|by exists T'|exact H1|exact H2|exact H3].
Qed.

(** [map_2mb] where no table of small pages is in the way: on success every address of the 2 MiB page is translated to the large physical page with the permissions of the flags and all other addresses keep their translation; on failure nothing changes and no page of memory was left. *)
Theorem map_2mb_correct s virt phys flags cm : ok s -> (2 ^ 21 | phys) -> 0 <= phys < 2 ^ 52 ->
  (forall l3 i, find virt (mem s) (level0 (pm s)) <> Some (Table l3 i)) ->
  exists b s', map_2mb virt phys flags cm s = Some (b, s') /\ ok s' /\
    (forall v, b = false \/ ~ same_large_page v virt -> sees s' v = sees s v) /\
    (b = false -> no_pages (alloc s')) /\
    (b = true -> exists user, forall v, same_large_page v virt ->
       sees s' v = if pf_and flags PF_Read then
           Some (mkAccess (Z.lor phys (Z.land v 0x1FFFFF)) (pf_and flags PF_Write)
                   (pf_and flags PF_User && user) (pf_and flags PF_Execute))
         else None).
Proof.
  intros [T W] Hd Hb Hnt.
  assert (Hd' : (PAGE_SIZE | phys)) by (eapply Z.divide_trans; [|exact Hd]; exists 512; done).
  destruct (map_2mb_spec s T virt phys flags cm W (page_mask _ Hd' Hb) Hnt)
    as (b & s' & T' & Hm & W' & E & H1 & H2 & H3).
  exists b, s'. unfold sees. rewrite E. split_and!; [done|by exists T'|exact H1|exact H2|exact H3].
Qed.

(** C23: [unmap] makes every address of the page fault and changes no other page; an address inside a large page it leaves mapped. *)
Theorem unmap_correct s virt : ok s ->
  exists s', unmap virt s = Some s' /\ ok s' /\ (forall v, ~ same_page v virt -> sees s' v = sees s v) /\
    (large (mem s) (level0 (pm s)) virt = false -> forall v, same_page v virt -> sees s' v = None) /\
    (large (mem s) (level0 (pm s)) virt = true -> s' = s).
Proof.
  intros [T W]. destruct (unmap_spec s T virt W) as (s' & Hm & W' & E & _ & H1 & H2 & H3 & _).
  exists s'. unfold sees. rewrite E. split_and!; [done|by exists T|exact H1|exact H3|exact H2].
Qed.

(** C24: [protect] of a mapped small page keeps its physical page and gives it exactly the new permissions; no other page changes. *)
Theorem protect_correct s virt flags cm : ok s -> large (mem s) (level0 (pm s)) virt = false ->
  exists s', protect virt flags cm s = Some s' /\ ok s' /\ (forall v, ~ same_page v virt -> sees s' v = sees s v) /\
    forall v a, same_page v virt -> sees s v = Some a ->
      sees s' v = if pf_and flags PF_Read then
          Some (mkAccess (a_phys a) (pf_and flags PF_Write)
                  (pf_and flags PF_User && tables_user (mem s) (level0 (pm s)) virt) (pf_and flags PF_Execute))
        else None.
Proof.
  intros [T W] Hlg. destruct (protect_spec s T virt flags cm W) as (s' & Hm & W' & E & _ & H1 & _ & H3).
  exists s'. unfold sees. rewrite E. split_and!; [done|by exists T|exact H1|exact (H3 Hlg)].
Qed.

(** [get_phys] agrees with the processor: for every address that the processor translates, in a small or a large page, it returns the physical address. *)
Theorem get_phys_correct s virt a : ok s -> sees s virt = Some a -> get_phys virt s = Some (a_phys a).
Proof.
  intros [T W] Ha. destruct (get_phys_spec s T virt W) as (p & -> & Hp). by rewrite (Hp a Ha).
Qed.

(** The destructor gives back exactly the pages of the tables that this map has allocated; tables shared with the kernel's map stay. *)
Theorem destroy_map_correct s : ok s ->
  exists s', destroy_map s = Some s' /\ used_pages (pm s') = [] /\ pa_ok (alloc s') /\
    forall q, pa_held (alloc s') q <-> pa_held (alloc s) q /\ q ∉ used_pages (pm s).
Proof. intros [T W]. by eapply destroy_map_spec. Qed.

End Pages.

(** ** Concrete runs over the buddy allocator *)

Lemma some_eq {X} (a b : X) : Some a = Some b -> b = a.
Proof. by intros [= ->]. Qed.

Lemma some_pair_eq {X Y} (a c : X) (b d : Y) : Some (a, b) = Some (c, d) -> c = a /\ d = b.
Proof. by intros [= -> ->]. Qed.

Definition demo : state := default (mkState ∅ (mkMap 0 []) Pmalloc.initial) (new_map None ∅ PmallocRun.demo_state).

Lemma demo_eq : new_map None ∅ PmallocRun.demo_state = Some demo.
Proof. vm_compute. reflexivity. Qed.

Lemma map_demo_ok : ok demo.
Proof.
  destruct (new_map_spec (PA := pmalloc_pages) ∅ PmallocRun.demo_state PmallocRun.demo_wf) as [[_ H]|(s & T & H & W & _)].
  - rewrite demo_eq in H. discriminate H.
  - rewrite demo_eq in H. apply some_eq in H as ->. by exists T.
Qed.

(** A user page is mapped; the result of each call as a pair. *)
Definition RWU : Z := 0xB.
Definition demo_mapped : state := default demo (snd <$> map 0x400000 0x5000 RWU WriteBack demo).

Lemma demo_mapped_eq : map 0x400000 0x5000 RWU WriteBack demo = Some (true, demo_mapped).
Proof. vm_compute. reflexivity. Qed.

Lemma map_correct_witness : exists s', map 0x400000 0x5000 RWU WriteBack demo = Some (true, s') /\ ok s' /\
  sees s' 0x400123 = Some (mkAccess 0x5123 true true false).
Proof.
  destruct (map_correct demo 0x400000 0x5000 RWU WriteBack map_demo_ok) as (b & s' & Hm & Hok & _ & _ & Ht).
  - exists 5. reflexivity.
  - lia.
  - vm_compute. reflexivity.
  - rewrite demo_mapped_eq in Hm. apply some_pair_eq in Hm as [-> ->]. exists demo_mapped. split_and!; [exact demo_mapped_eq|exact Hok|].
    rewrite (Ht eq_refl 0x400123) by (vm_compute; reflexivity). vm_compute. reflexivity.
Defined.

Lemma demo_mapped_ok : ok demo_mapped.
Proof.
  destruct map_demo_ok as [T W].
  destruct (map_spec demo T 0x400000 0x5000 RWU WriteBack W) as (b & s' & T' & Hm & W' & _).
  - apply page_mask; [by exists 5|lia].
  - vm_compute. reflexivity.
  - rewrite demo_mapped_eq in Hm. apply some_pair_eq in Hm as [-> ->]. by exists T'.
Qed.

Lemma map_2mb_correct_witness : exists b s', map_2mb 0x40000000 0x200000 RWU Uncached demo = Some (b, s') /\ ok s' /\ b = true.
Proof.
  destruct (map_2mb_correct demo 0x40000000 0x200000 RWU Uncached map_demo_ok) as (b & s' & Hm & Hok & _).
  - exists 1. reflexivity.
  - lia.
  - intros l3 i H. vm_compute in H. discriminate H.
  - exists b, s'. split_and!; [exact Hm|exact Hok|].
    assert (Hb : fst <$> map_2mb 0x40000000 0x200000 RWU Uncached demo = Some true) by (vm_compute; reflexivity).
    rewrite Hm in Hb. by injection Hb as Hb.
Defined.

Lemma unmap_correct_witness : exists s', unmap 0x400000 demo_mapped = Some s' /\ sees s' 0x400123 = None.
Proof.
  destruct (unmap_correct demo_mapped 0x400000 demo_mapped_ok) as (s' & Hu & _ & _ & Hn & _).
  exists s'. split; [exact Hu|]. apply Hn; vm_compute; reflexivity.
Defined.

Lemma protect_correct_witness : exists s', protect 0x400000 9 WriteBack demo_mapped = Some s' /\
  sees s' 0x400123 = Some (mkAccess 0x5123 false true false).
Proof.
  destruct (protect_correct demo_mapped 0x400000 9 WriteBack demo_mapped_ok) as (s' & Hp & _ & _ & Ht).
  - vm_compute. reflexivity.
  - exists s'. split; [exact Hp|]. rewrite (Ht 0x400123 (mkAccess 0x5123 true true false)).
    + vm_compute. reflexivity.
    + vm_compute. reflexivity.
    + vm_compute. reflexivity.
Defined.

Lemma get_phys_correct_witness : sees demo_mapped 0x400123 = Some (mkAccess 0x5123 true true false) /\
  get_phys 0x400123 demo_mapped = Some 0x5123.
Proof.
  assert (H : sees demo_mapped 0x400123 = Some (mkAccess 0x5123 true true false)) by (vm_compute; reflexivity).
  split; [exact H|exact (get_phys_correct demo_mapped 0x400123 _ demo_mapped_ok H)].
Defined.

Lemma destroy_map_correct_witness : exists s', destroy_map demo_mapped = Some s'.
Proof. destruct (destroy_map_correct demo_mapped demo_mapped_ok) as (s' & H & _). by exists s'. Defined.

(** A user page under a table that was created for a kernel page is not accessible to user code: [map] does not add the user bit to a table that exists, although it reports success. *)
Theorem user_page_under_kernel_table : exists s1 s2, map 0x400000 0x5000 3 WriteBack demo = Some (true, s1) /\
  map 0x401000 0x6000 RWU WriteBack s1 = Some (true, s2) /\
  sees s2 0x401000 = Some (mkAccess 0x6000 true false false).
Proof.
  destruct (map 0x400000 0x5000 3 WriteBack demo) as [[b1 s1]|] eqn:E1; [|vm_compute in E1; discriminate E1].
  destruct (map 0x401000 0x6000 RWU WriteBack s1) as [[b2 s2]|] eqn:E2.
  - assert (H : ('(b1, s1) ← map 0x400000 0x5000 3 WriteBack demo; '(b2, s2) ← map 0x401000 0x6000 RWU WriteBack s1;
      Some (b1, b2, sees s2 0x401000)) = Some (true, true, Some (mkAccess 0x6000 true false false))) by (vm_compute; reflexivity).
    rewrite E1 in H. cbn [mbind option_bind] in H. rewrite E2 in H. cbn [mbind option_bind] in H. injection H as -> -> H.
    exists s1, s2. split_and!; [reflexivity|exact E2|exact H].
  - exfalso. assert (H : is_Some ('(b1, s1) ← map 0x400000 0x5000 3 WriteBack demo; map 0x401000 0x6000 RWU WriteBack s1))
      by (vm_compute; eauto).
    rewrite E1 in H. cbn [mbind option_bind] in H. rewrite E2 in H. by destruct H.
Qed.

(** [protect] of a page that has been unmapped maps it to the physical page 0: it does not look at the present bit of the entry. *)
Theorem protect_after_unmap_maps_zero : exists s1 s2, unmap 0x400000 demo_mapped = Some s1 /\
  sees s1 0x400000 = None /\ protect 0x400000 RWU WriteBack s1 = Some s2 /\
  sees s2 0x400000 = Some (mkAccess 0 true true false).
Proof.
  set (s1 := default demo (unmap 0x400000 demo_mapped)).
  set (s2 := default demo (protect 0x400000 RWU WriteBack s1)).
  exists s1, s2. split_and!; vm_compute; reflexivity.
Qed.

End PagingRun.
