(* ===== verification/PagingLeaf.v ===== *)
(** * Leaf entries of the page tables

    [get_phys] reads the entry of the last level even when it is not present.
    [leaf] is this entry; it is zero where nothing was mapped.  [map] and [unmap]
    change it only for their own page. *)

From S2P Require Import Prelude Bits PageAlloc Paging PagingRun.

Module PagingLeaf.
Import Paging PagingInv.

(** The tables of a tree are determined by the memory. *)
Lemma tree_unique m root T1 T2 : tree m root T1 -> tree m root T2 -> T1 = T2.
Proof.
  intros H1 H2. apply map_eq. intros p. induction p as [|i p IH] using rev_ind.
  { by rewrite (t_root _ _ _ H1), (t_root _ _ _ H2). }
  assert (Hsub : forall T T' q, tree m root T -> tree m root T' -> T !! p = T' !! p -> T !! (p ++ [i]) = Some q -> T' !! (p ++ [i]) = Some q).
  { intros T T' q HT HT' E Hq. destruct (t_closed _ _ _ HT _ _ _ Hq) as (t & e & Ht & He).
    destruct (t_tab _ _ _ HT _ _ Hq) as [Hl _]. rewrite length_app in Hl. simpl in Hl.
    rewrite (t_child _ _ _ HT _ _ _ _ Ht ltac:(lia) He) in Hq. rewrite E in Ht.
    by rewrite (t_child _ _ _ HT' _ _ _ _ Ht ltac:(lia) He). }
  destruct (T1 !! (p ++ [i])) as [q|] eqn:E1; [symmetry; by apply (Hsub T1)|].
  destruct (T2 !! (p ++ [i])) as [q|] eqn:E2; [|done]. rewrite (Hsub T2 T1 q) in E1; done.
Qed.

Definition index3 (v : Z) : nat := default 0%nat (path v !! 3%nat).

Definition leaf (m : tables) (T : gmap (list nat) Z) (v : Z) : Z :=
  match T !! take 3 (path v) with
  | Some t => default 0 (read_entry m t (index3 v))
  | None => 0
  end.

Lemma path_split v : path v = take 3 (path v) ++ [index3 v] /\ (index3 v < 512)%nat /\ length (take 3 (path v)) = 3%nat.
Proof. destruct (path_cases v) as (i0 & i1 & i2 & i3 & E & Hi). unfold index3. by rewrite E. Qed.

Section Pages.
Context {A : Type} {PA : PageAlloc A}.

Lemma get_phys_leaf (s : state (A := A)) T v : wf s T -> large (mem s) (level0 (pm s)) v = false -> Z.land v 0xFFF = 0 ->
  get_phys v s = Some (Z.land (leaf (mem s) T v) PAGE_ADDR_MASK).
Proof.
  intros W Hlg Hv. pose proof (w_tree _ _ W) as HT. destruct (path_cases v) as (i0 & i1 & i2 & i3 & E & Hi).
  unfold leaf, index3, get_phys. rewrite E. change (take 3 [i0; i1; i2; i3]) with [i0; i1; i2].
  change (default 0%nat ([i0; i1; i2; i3] !! 3%nat)) with i3.
  destruct (find_spec _ _ _ v i0 i1 i2 i3 HT E) as (r & -> & Hr). cbn [mbind option_bind]. destruct r as [|e|l3 i].
  - destruct Hr as [-> _]. by rewrite Z.land_0_l.
  - destruct Hr as (_ & Hh & e0 & e1 & Hs). unfold large in Hlg. rewrite Hs in Hlg. congruence.
  - destruct Hr as [-> Hl3]. rewrite Hl3. destruct (tree_read _ _ _ _ _ i3 HT Hl3 Hi) as [e He]. rewrite He.
    cbn [mbind option_bind default from_option]. by rewrite Hv, Z.lor_0_r.
Qed.

(** A leaf that is zero maps nothing. *)
Lemma leaf_zero_unseen (s : state (A := A)) T v : wf s T -> large (mem s) (level0 (pm s)) v = false -> leaf (mem s) T v = 0 ->
  translate (mem s) (level0 (pm s)) v = None.
Proof.
  intros W Hlg Hz. pose proof (w_tree _ _ W) as HT. destruct (path_cases v) as (i0 & i1 & i2 & i3 & E & Hi).
  unfold leaf, index3 in Hz. rewrite E in Hz. change (take 3 [i0; i1; i2; i3]) with [i0; i1; i2] in Hz.
  change (default 0%nat ([i0; i1; i2; i3] !! 3%nat)) with i3 in Hz.
  destruct (find_spec _ _ _ v i0 i1 i2 i3 HT E) as (r & _ & Hr). destruct r as [|e|l3 i].
  - destruct Hr as (_ & Hl & Hp). by apply (short_walk _ _ v Hl Hp).
  - destruct Hr as (_ & Hh & e0 & e1 & Hs). unfold large in Hlg. rewrite Hs in Hlg. congruence.
  - destruct Hr as [-> Hl3]. rewrite Hl3 in Hz. destruct (tree_read _ _ _ _ _ i3 HT Hl3 Hi) as [e He]. rewrite He in Hz.
    cbn in Hz. subst e.
    destruct (leaf_seen (mem s) (mem s) _ T [i0; i1; i2] l3 i3 0 v HT HT Hl3 eq_refl E He) as [_ Hthis]; [done|].
    by rewrite Hthis.
Qed.

(** One level of [map] changes no leaf. *)
Lemma descend_leaf (s s' : state (A := A)) T T' w table i flags next : wf s T -> wf s' T' -> T !! w = Some table -> (length w < 3)%nat -> (i < 512)%nat ->
  descend table i flags s = Some (Some next, s') -> T' !! (w ++ [i]) = Some next ->
  (forall q, T !! q = None -> q <> w ++ [i] -> T' !! q = None) -> T ⊆ T' ->
  forall v, leaf (mem s') T' v = leaf (mem s) T v.
Proof.
  intros W W' Hw Hl Hi Hd Hn Hnone Hsub v. pose proof (w_tree _ _ W) as HT. unfold descend in Hd.
  destruct (tree_read _ _ _ _ _ _ HT Hw Hi) as [e He]. rewrite He in Hd. cbn [mbind option_bind] in Hd.
  destruct (has e FLAG_PRESENT).
  { injection Hd as <- <-. by rewrite (tree_unique _ _ _ _ HT (w_tree _ _ W')). }
  pose proof (pa_alloc_ok _ (w_ok _ _ W)) as Hal. destruct (pa_alloc (alloc s)) as [[page|] a']; [|done].
  destruct Hal as (_ & _ & Hfresh & _).
  destruct (t_tab _ _ _ HT _ _ Hw) as (_ & es & Hes & Hlen).
  assert (HfT : forall q, T !! q <> Some page) by (intros q Hq; by apply Hfresh, (w_held _ _ W q)).
  assert (Htp : table <> page) by (intros ->; by eapply HfT).
  rewrite (write_entry_ok _ _ es) in Hd by (rewrite ?lookup_insert_ne; done || lia). cbn [mbind option_bind] in Hd.
  assert (Hz : forall j, (j < 512)%nat -> replicate 512 0 !! j = Some 0) by (intros j Hj; by apply lookup_replicate_2).
  set (zeros := replicate 512 0) in *. clearbody zeros. injection Hd as <- <-. unfold leaf. destruct (path_split v) as (_ & Hb & Hl3). set (q := take 3 (path v)) in *. cbn [mem].
  destruct (T !! q) as [t|] eqn:Eq.
  - rewrite (lookup_weaken _ _ _ _ Eq Hsub). unfold read_entry.
    assert (t <> table) by (intros ->; rewrite (t_inj _ _ _ HT _ _ _ Eq Hw) in Hl3; lia).
    assert (t <> page) by (intros ->; by apply (HfT q)). by rewrite !lookup_insert_ne.
  - destruct (decide (q = w ++ [i])) as [->|Hne]; [|by rewrite (Hnone q Eq Hne)].
    rewrite Hn. unfold read_entry. rewrite lookup_insert_ne, lookup_insert_eq by done. cbn [mbind option_bind].
    by rewrite Hz.
Qed.

(** [descend_path] with the leaves. *)
Lemma descend_path_leaf (s s0 : state (A := A)) T w table i flags virt rest : wf s T -> T !! w = Some table -> (length w < 3)%nat ->
  path virt = w ++ i :: rest -> unseen flags s0 s -> large (mem s0) (level0 (pm s0)) virt = false ->
  descend table i (all_flags flags) s = Some (None, s) \/
  exists next s' T', descend table i (all_flags flags) s = Some (Some next, s') /\ wf s' T' /\
    T' !! (w ++ [i]) = Some next /\ unseen flags s0 s' /\ forall v, leaf (mem s') T' v = leaf (mem s) T v.
Proof.
  intros W Hw Hl Hpath Hu Hlg.
  assert (Hlg' : large (mem s) (level0 (pm s)) virt = false).
  { destruct Hu as [E Hu]. destruct (Hu virt) as (_ & Hlv & _). by rewrite E, Hlv. }
  assert (Hi : (i < 512)%nat).
  { pose proof (indices_bound virt) as Hb. rewrite Hpath, Forall_app, Forall_cons in Hb. tauto. }
  destruct (descend_ok s T w table i flags W Hw Hl Hi (not_large _ _ _ _ _ _ _ W Hw Hl Hpath Hlg'))
    as [[? _]|(next & s' & T' & Hd & W' & Hg & Hn & Hu' & Hno)]; [by left|right].
  exists next, s', T'. split_and!; try done; [by eapply unseen_trans|].
  by apply (descend_leaf s s' T T' w table i (all_flags flags) next); [..|apply Hg].
Qed.

Lemma leaf_set (s s' : state (A := A)) T virt t e : wf s T -> T !! take 3 (path virt) = Some t ->
  read_entry (mem s') t (index3 virt) = Some e ->
  (forall q u j, T !! q = Some u -> u <> t \/ j <> index3 virt -> read_entry (mem s') u j = read_entry (mem s) u j) ->
  leaf (mem s') T virt = e /\ forall v, path v <> path virt -> leaf (mem s') T v = leaf (mem s) T v.
Proof.
  intros W Ht He Ho. unfold leaf. rewrite Ht, He. split; [done|]. intros v Hv.
  destruct (T !! take 3 (path v)) as [u|] eqn:Eu; [|done]. rewrite (Ho (take 3 (path v)) u); [done|done|].
  destruct (decide (u = t)) as [->|]; [right|by left]. intros Ei. apply Hv.
  rewrite (proj1 (path_split v)), (proj1 (path_split virt)), Ei. by rewrite (t_inj _ _ _ (w_tree _ _ W) _ _ _ Eu Ht).
Qed.

Lemma map_leaf (s s' : state (A := A)) T T' virt phys flags cm b : wf s T -> is_page phys -> large (mem s) (level0 (pm s)) virt = false ->
  map virt phys flags cm s = Some (b, s') -> wf s' T' ->
  forall v, b = false \/ path v <> path virt -> leaf (mem s') T' v = leaf (mem s) T v.
Proof.
  intros W Hphys Hlg Hm W'. unfold map in Hm. destruct (indices virt) as [[[i0 i1] i2] i3] eqn:Eix.
  assert (Hpath : path virt = [i0; i1; i2; i3]) by (unfold path; by rewrite Eix).
  assert (Hstop : forall s1 T1, Some (false, s1) = Some (b, s') -> wf s1 T1 -> (forall v, leaf (mem s1) T1 v = leaf (mem s) T v) ->
    forall v, b = false \/ path v <> path virt -> leaf (mem s') T' v = leaf (mem s) T v).
  { intros s1 T1 [= <- <-] W1 H1 v _. by rewrite (tree_unique _ _ _ _ (w_tree _ _ W') (w_tree _ _ W1)). }
  destruct (descend_path_leaf s s T [] (level0 (pm s)) i0 flags virt [i1; i2; i3] W (t_root _ _ _ (w_tree _ _ W)))
    as [E1|(l1 & s1 & T1 & E1 & W1 & Hl1 & Hu1 & L1)]; try done; [simpl; lia| |]; rewrite E1 in Hm; cbn [mbind option_bind app] in *; [by eapply Hstop|].
  destruct (descend_path_leaf s1 s T1 [i0] l1 i1 flags virt [i2; i3] W1 Hl1)
    as [E2|(l2 & s2 & T2 & E2 & W2 & Hl2 & Hu2 & L2)]; try done; [simpl; lia| |]; rewrite E2 in Hm; cbn [mbind option_bind app] in *; [by eapply Hstop|].
  destruct (descend_path_leaf s2 s T2 [i0; i1] l2 i2 flags virt [i3] W2 Hl2)
    as [E3|(l3 & s3 & T3 & E3 & W3 & Hl3 & Hu3 & L3)]; try done; [simpl; lia| |]; rewrite E3 in Hm; cbn [mbind option_bind app] in *.
  { eapply Hstop; [done|done|]. intros v. by rewrite L2, L1. }
  destruct (set_entry_ok s3 T3 [i0; i1; i2] l3 i3 (Z.lor phys (real_flags 0 flags cm)) W3 Hl3)
    as (s4 & E4 & W4 & _ & _ & Hv & Hread); [|simpl; lia|simpl; lia|].
  { pose proof (indices_bound virt) as Hb. rewrite Hpath, !Forall_cons in Hb. tauto. }
  rewrite E4 in Hm. cbn [mbind option_bind] in Hm. injection Hm as <- <-.
  rewrite (tree_unique _ _ _ _ (w_tree _ _ W') (w_tree _ _ W4)). intros v [?|Hne]; [done|].
  destruct (leaf_set s3 s4 T3 virt l3 (Z.lor phys (real_flags 0 flags cm)) W3) as [_ Ho].
  - by rewrite Hpath.
  - unfold index3. by rewrite Hpath.
  - unfold index3. by rewrite Hpath.
  - by rewrite Ho, L3, L2, L1.
Qed.

Lemma unmap_leaf (s s' : state (A := A)) T virt : wf s T -> large (mem s) (level0 (pm s)) virt = false -> unmap virt s = Some s' ->
  leaf (mem s') T virt = 0 /\ forall v, path v <> path virt -> leaf (mem s') T v = leaf (mem s) T v.
Proof.
  intros W Hlg Hu. pose proof (w_tree _ _ W) as HT. destruct (path_cases virt) as (i0 & i1 & i2 & i3 & E & Hi).
  unfold unmap in Hu. destruct (find_spec _ _ _ virt i0 i1 i2 i3 HT E) as (r & Hf & Hr). rewrite Hf in Hu. cbn [mbind option_bind] in Hu.
  destruct r as [|e|l3 i].
  - injection Hu as <-. split; [|done]. unfold leaf. rewrite E. change (take 3 [i0; i1; i2; i3]) with [i0; i1; i2]. by destruct Hr as [-> _].
  - destruct Hr as (_ & Hh & e0 & e1 & Hs). unfold large in Hlg. rewrite Hs in Hlg. congruence.
  - destruct Hr as [-> Hl3].
    destruct (set_entry_ok s T [i0; i1; i2] l3 i3 0 W Hl3 Hi) as (s4 & E4 & W4 & _ & _ & Hv & Hread); [simpl; lia|simpl; lia|].
    rewrite E4 in Hu. injection Hu as <-. apply (leaf_set s s4 T virt l3 0 W).
    + by rewrite E.
    + unfold index3. by rewrite E.
    + unfold index3. by rewrite E.
Qed.

End Pages.
End PagingLeaf.
