(* ===== verification/Slab.v ===== *)
(** * The kernel heap's slabs (src/src/mem/malloc.cpp, malloc.hpp)

    Objects of up to 2048 bytes come from slabs: a page that starts with a
    [Header] and is cut into chunks of one of eight sizes.  A slab with a free
    chunk is in the free list of its size.  The header of a slab is kept by the
    address of its page, lists are sequences of addresses (DoubleList.v shows
    that the intrusive lists behave like these), pages come from a [PageAlloc].
    [None] is a failed assertion or an access to a page that holds no slab.  The
    mutex of each free list makes the operations atomic. *)

From S2P Require Import Prelude Bits PageAlloc.

Module Slab.

Definition FREELIST_COUNT : Z := 8.

(** [sizeof(Header)]: a hook, a list, and two counters. *)
Definition HEADER_SIZE : Z := 48.

Definition size_to_index (size : Z) : Z :=
  if size <=? 16 then 0 else u64 (64 - countl_zero 64 (size - 1) - 4).

Definition index_to_size (index : Z) : Z := u64 (Z.shiftl 16 index).

Record Header := mkHeader { nodes : list Z; count : Z; max : Z }.

Record heap := mkHeap { headers : gmap Z Header; freelists : list (list Z) }.

Definition empty_heap : heap := mkHeap ∅ (replicate 8 []).

(** [to_virt] and [to_phys] of src/src/mem/mem.hpp. *)
Section WithPages.
Context {A : Type} {PA : PageAlloc A}.
Variable HHDM_START : Z.

Definition to_virt (phys : Z) : Z := phys ⊞ HHDM_START.
Definition to_phys (ptr : Z) : Z := ptr ⊟ HHDM_START.

(** The chunk [i] of the slab at [hdr]. *)
Definition chunk (hdr chunk_size i : Z) : Z := hdr + HEADER_SIZE + i * chunk_size.

(** [DoubleList::pop]: the last element. *)
Definition pop_back (l : list Z) : option (list Z * Z) :=
  x ← last l; Some (removelast l, x).

(** The part of [Allocator::alloc] for up to 2048 bytes; 0 is the null pointer. *)
Definition slab_alloc (size : Z) (h : heap) (a : A) : option (Z * heap * A) :=
  let index := size_to_index size in
  _ ← assert (index <? FREELIST_COUNT);
  list ← freelists h !! Z.to_nat index;
  match list with
  | front :: rest =>
      hdr ← headers h !! front;
      '(ns, ptr) ← pop_back (nodes hdr);
      let hdr := mkHeader ns (count hdr ⊞ 1) (max hdr) in
      let list := if count hdr =? max hdr then rest else list in
      _ ← assert (negb (ptr =? 0));
      Some (ptr, mkHeap (<[front := hdr]> (headers h)) (<[Z.to_nat index := list]> (freelists h)), a)
  | [] =>
      match pa_alloc a with
      | (None, a) => Some (0, h, a)
      | (Some page, a) =>
          let hdr := to_virt page in
          let chunk_size := index_to_size index in
          _ ← assert (size <=? chunk_size);
          let max := (PAGE_SIZE - HEADER_SIZE) / chunk_size in
          let ns := map (chunk hdr chunk_size) (seqZ 1 (max - 1)) in
          let list := if 1 =? max then list else list ++ [hdr] in
          Some (hdr + HEADER_SIZE,
                mkHeap (<[hdr := mkHeader ns 1 max]> (headers h)) (<[Z.to_nat index := list]> (freelists h)), a)
      end
  end.

(** The part of [Allocator::free] for up to 2048 bytes. *)
Definition slab_free (ptr size : Z) (h : heap) (a : A) : option (heap * A) :=
  if (ptr =? 0) || (size =? 0) then Some (h, a)
  else
    let index := size_to_index size in
    _ ← assert (index <? FREELIST_COUNT);
    _ ← assert (size <=? index_to_size index);
    let hdr := ALIGNDOWN ptr PAGE_SIZE in
    hd ← headers h !! hdr;
    list ← freelists h !! Z.to_nat index;
    let put list :=
      Some (mkHeap (<[hdr := mkHeader (nodes hd ++ [ptr]) (count hd ⊟ 1) (max hd)]> (headers h))
              (<[Z.to_nat index := list]> (freelists h)), a) in
    if count hd =? max hd then put (list ++ [hdr])
    else if count hd =? 1 then
      list ← list_remove hdr list;
      a ← pa_free (to_phys hdr) a;
      Some (mkHeap (delete hdr (headers h)) (<[Z.to_nat index := list]> (freelists h)), a)
    else put list.

(** ** The invariant *)

Definition slab_max (i : Z) : Z := (PAGE_SIZE - HEADER_SIZE) / 2 ^ (4 + i).

Definition chunks (hdr i : Z) : list Z := map (chunk hdr (2 ^ (4 + i))) (seqZ 0 (slab_max i)).

(** A slab of the size class [i]. *)
Record slab_ok (hdr i : Z) (hd : Header) : Prop := {
  so_index : 0 <= i < FREELIST_COUNT;
  so_max : max hd = slab_max i;
  so_nodes : NoDup (nodes hd);
  so_sub : forall p, p ∈ nodes hd -> p ∈ chunks hdr i;
  so_count : count hd + Z.of_nat (length (nodes hd)) = max hd;
  so_live : 1 <= count hd \/ max hd = 1 /\ count hd = 0
}.

(** The chunk [p] of the size class [i] is in use. *)
Definition in_use (hdr : Z) (hd : Header) (i p : Z) : Prop :=
  0 <= i < FREELIST_COUNT /\ max hd = slab_max i /\ p ∈ chunks hdr i /\ p ∉ nodes hd.
Definition live_in (hs : gmap Z Header) (i p : Z) : Prop :=
  exists hdr hd, hs !! hdr = Some hd /\ in_use hdr hd i p.
Definition live (h : heap) (i p : Z) : Prop := live_in (headers h) i p.

(** The pages that hold slabs. *)
Definition owns (h : heap) (q : Z) : Prop := is_Some (headers h !! (q + HHDM_START)).

Record wf (h : heap) (a : A) : Prop := {
  wf_pages : pa_ok a;
  wf_slabs : forall hdr hd, headers h !! hdr = Some hd -> exists i, slab_ok hdr i hd;
  wf_held : forall hdr hd, headers h !! hdr = Some hd -> pa_held a (hdr - HHDM_START);
  wf_len : length (freelists h) = 8%nat;
  wf_lists : forall i l, 0 <= i < FREELIST_COUNT -> freelists h !! Z.to_nat i = Some l ->
    NoDup l /\ forall hdr, hdr ∈ l <->
      exists hd, headers h !! hdr = Some hd /\ max hd = slab_max i /\ count hd < max hd
}.

End WithPages.
End Slab.
