(* ===== verification/SlabRun.v ===== *)
(** * What the slabs promise

    Allocation and freeing keep the slabs well formed; chunks in use are
    disjoint, lie inside their page and behind its header; a freed chunk is the
    only one that stops being in use.  The exact behaviour on every branch. *)

From S2P Require Import Prelude Bits PageAlloc Slab Pmalloc PmallocRun.

Module SlabRun.
Import Slab.

(** ** The size classes *)

Lemma index_cases i : 0 <= i < FREELIST_COUNT ->
  i = 0 \/ i = 1 \/ i = 2 \/ i = 3 \/ i = 4 \/ i = 5 \/ i = 6 \/ i = 7.
Proof. unfold FREELIST_COUNT. lia. Qed.

Ltac by_index H := destruct (index_cases _ H) as [->|[->|[->|[->|[->|[->|[->| ->]]]]]]].

Lemma index_to_size_eq i : 0 <= i < FREELIST_COUNT -> index_to_size i = 2 ^ (4 + i).
Proof. intros H. by by_index H. Qed.

Lemma slab_max_bound i : 0 <= i < FREELIST_COUNT ->
  1 <= slab_max i /\ slab_max i * 2 ^ (4 + i) + HEADER_SIZE <= PAGE_SIZE /\ (slab_max i = 1 <-> i = 7).
Proof. intros H. by_index H; vm_compute; naive_solver. Qed.

Lemma slab_max_inj i j : 0 <= i < FREELIST_COUNT -> 0 <= j < FREELIST_COUNT -> slab_max i = slab_max j -> i = j.
Proof. intros Hi Hj. by_index Hi; by_index Hj; vm_compute; congruence. Qed.

Lemma size_to_index_eq size : 0 <= size <= 2048 ->
  0 <= size_to_index size < FREELIST_COUNT /\ size <= 2 ^ (4 + size_to_index size) /\
  (16 < size -> 2 ^ (3 + size_to_index size) < size).
Proof.
  intros Hs. unfold size_to_index, FREELIST_COUNT. destruct (size <=? 16) eqn:E; bool_to_prop.
  { change (2 ^ (4 + 0)) with 16. change (2 ^ (3 + 0)) with 8. lia. }
  rewrite countl_zero_64 by lia. pose proof (Z.log2_spec (size - 1) ltac:(lia)) as [Hl Hu].
  assert (4 <= Z.log2 (size - 1)) by (apply Z.log2_le_pow2; lia).
  assert (Z.log2 (size - 1) < 11) by (apply Z.log2_lt_pow2; lia).
  rewrite u64_small by lia. set (k := Z.log2 (size - 1)) in *.
  replace (4 + (64 - (63 - k) - 4)) with (Z.succ k) by lia. replace (3 + (64 - (63 - k) - 4)) with k by lia. lia.
Qed.

(** ** Chunks *)

Lemma elem_of_chunks hdr i p : p ∈ chunks hdr i <-> exists k, 0 <= k < slab_max i /\ p = chunk hdr (2 ^ (4 + i)) k.
Proof.
  unfold chunks. rewrite list_elem_of_fmap. split.
  - intros (k & -> & Hk). apply elem_of_seqZ in Hk. exists k. split; [lia|done].
  - intros (k & Hk & ->). exists k. split; [done|]. apply elem_of_seqZ. lia.
Qed.

Lemma chunk_inside hdr i p : 0 <= i < FREELIST_COUNT -> p ∈ chunks hdr i ->
  hdr + HEADER_SIZE <= p /\ p + 2 ^ (4 + i) <= hdr + PAGE_SIZE.
Proof.
  intros Hi Hp. apply elem_of_chunks in Hp as (k & Hk & ->). destruct (slab_max_bound i Hi) as (_ & Hb & _).
  pose proof (Z.pow_pos_nonneg 2 (4 + i) ltac:(lia) ltac:(lia)). unfold chunk. nia.
Qed.

Lemma chunk_aligned hdr i p : 0 <= i < FREELIST_COUNT -> (PAGE_SIZE | hdr) -> p ∈ chunks hdr i -> (16 | p).
Proof.
  intros Hi [m ->] Hp. apply elem_of_chunks in Hp as (k & Hk & ->). unfold chunk, HEADER_SIZE, PAGE_SIZE.
  exists (256 * m + 3 + k * 2 ^ i). rewrite Z.pow_add_r by lia. lia.
Qed.

Lemma chunk_page hdr i p : 0 <= i < FREELIST_COUNT -> (PAGE_SIZE | hdr) -> 0 <= hdr -> hdr + PAGE_SIZE <= 2 ^ 64 ->
  p ∈ chunks hdr i -> ALIGNDOWN p PAGE_SIZE = hdr.
Proof.
  intros Hi [m ->] H0 Hm Hp. pose proof (chunk_inside _ _ _ Hi Hp) as [Hl Hu].
  pose proof (Z.pow_pos_nonneg 2 (4 + i) ltac:(lia) ltac:(lia)). unfold HEADER_SIZE, PAGE_SIZE in *.
  change 0x1000 with (2 ^ 12) in *. rewrite ALIGNDOWN_spec by (unfold fits; lia).
  f_equal. symmetry. apply (Z.div_unique _ _ _ (p - m * 2 ^ 12)); lia.
Qed.

Lemma chunks_disjoint hdr i p q : 0 <= i < FREELIST_COUNT -> p ∈ chunks hdr i -> q ∈ chunks hdr i ->
  p = q \/ p + 2 ^ (4 + i) <= q \/ q + 2 ^ (4 + i) <= p.
Proof.
  intros Hi Hp Hq. apply elem_of_chunks in Hp as (k & Hk & ->). apply elem_of_chunks in Hq as (j & Hj & ->).
  pose proof (Z.pow_pos_nonneg 2 (4 + i) ltac:(lia) ltac:(lia)). unfold chunk.
  destruct (Z.lt_trichotomy k j) as [?|[->|?]]; [right; left; nia|by left|right; right; nia].
Qed.

Lemma NoDup_chunks hdr i : 0 <= i -> NoDup (chunks hdr i).
Proof.
  intros Hi. apply NoDup_fmap_2; [|apply NoDup_seqZ]. intros x y. unfold chunk.
  pose proof (Z.pow_pos_nonneg 2 (4 + i) ltac:(lia) ltac:(lia)). nia.
Qed.

Lemma length_chunks hdr i : 0 <= i < FREELIST_COUNT -> Z.of_nat (length (chunks hdr i)) = slab_max i.
Proof.
  intros Hi. unfold chunks. rewrite length_fmap, length_seqZ. destruct (slab_max_bound i Hi). lia.
Qed.

(** A new slab: the first chunk and the rest. *)
Lemma chunks_cons hdr i : 0 <= i < FREELIST_COUNT ->
  chunks hdr i = (hdr + HEADER_SIZE) :: map (chunk hdr (2 ^ (4 + i))) (seqZ 1 (slab_max i - 1)).
Proof.
  intros Hi. unfold chunks. destruct (slab_max_bound i Hi) as [Hm _].
  rewrite seqZ_cons by lia. cbn [map]. f_equal. unfold chunk. lia.
Qed.

Lemma pop_back_app l x : pop_back (l ++ [x]) = Some (l, x).
Proof. unfold pop_back. by rewrite last_snoc, removelast_last. Qed.

Lemma list_snoc (l : list Z) : l = [] \/ exists l' x, l = l' ++ [x].
Proof. induction l using rev_ind; eauto. Qed.

(** ** Allocating and freeing *)

Section Pages.
Context {A : Type} {PA : PageAlloc A}.
Variables HHDM_START PHYS_END : Z.

(** The direct map starts at a page and covers the physical memory, which ends
    at [PHYS_END]. *)
Hypothesis hhdm_page : (PAGE_SIZE | HHDM_START).
Hypothesis hhdm_range : 0 <= HHDM_START /\ HHDM_START + PHYS_END <= 2 ^ 64.
Hypothesis phys_end : forall (a : A) q, pa_ok a -> pa_held a q -> q + PAGE_SIZE <= PHYS_END.

Notation wf := (wf HHDM_START).

Lemma held_addr (a : A) p : pa_ok a -> pa_held a p ->
  to_virt HHDM_START p = p + HHDM_START /\ to_phys HHDM_START (p + HHDM_START) = p /\
  (PAGE_SIZE | p + HHDM_START) /\ 0 < p + HHDM_START /\ p + HHDM_START + PAGE_SIZE <= 2 ^ 64.
Proof.
  intros Hok Hp. destruct (pa_page a p Hok Hp) as [Hd Hr]. pose proof (phys_end a p Hok Hp).
  unfold to_virt, to_phys, add64, sub64, PAGE_SIZE in *. destruct hhdm_range. rewrite !u64_small by lia.
  split_and!; [done|lia|by apply Z.divide_add_r|lia|lia].
Qed.

Lemma header_addr h (a : A) hdr hd : wf h a -> headers h !! hdr = Some hd ->
  (PAGE_SIZE | hdr) /\ 0 < hdr /\ hdr + PAGE_SIZE <= 2 ^ 64 /\ to_phys HHDM_START hdr = hdr - HHDM_START.
Proof.
  intros Hwf Hh. pose proof (wf_held _ _ _ Hwf _ _ Hh) as Hp.
  destruct (held_addr a _ (wf_pages _ _ _ Hwf) Hp) as (_ & H & H1 & H2 & H3).
  by replace (hdr - HHDM_START + HHDM_START) with hdr in * by lia.
Qed.

(** A chunk in use belongs to the one slab of its page. *)
Lemma live_slab h (a : A) i p : wf h a -> live h i p ->
  exists hd, headers h !! ALIGNDOWN p PAGE_SIZE = Some hd /\ slab_ok (ALIGNDOWN p PAGE_SIZE) i hd /\
    p ∈ chunks (ALIGNDOWN p PAGE_SIZE) i /\ p ∉ nodes hd.
Proof.
  intros Hwf (hdr & hd & Hh & Hi & Hm & Hc & Hn). destruct (header_addr _ _ _ _ Hwf Hh) as (Hd & H0 & H1 & _).
  destruct (wf_slabs _ _ _ Hwf _ _ Hh) as [j Hj].
  assert (j = i) as -> by (apply slab_max_inj; [apply Hj|done|rewrite <- (so_max _ _ _ Hj); done]).
  rewrite (chunk_page hdr i p) by (done || lia). by exists hd.
Qed.

(** Other users of the pages may run in between. *)
Lemma wf_frame h (a a' : A) : wf h a -> pa_ok a' -> (forall q, owns HHDM_START h q -> pa_held a' q) -> wf h a'.
Proof.
  intros [] Hok Hh. split; try done. intros hdr hd H. apply Hh. exists hd.
  by replace (hdr - HHDM_START + HHDM_START) with hdr by lia.
Qed.

Lemma wf_owns h (a : A) q : wf h a -> owns HHDM_START h q -> pa_held a q.
Proof.
  intros Hwf [hd Hh]. pose proof (wf_held _ _ _ Hwf _ _ Hh) as Hp. by rewrite Z.add_simpl_r in Hp.
Qed.

(** *** One slab changes *)

Lemma live_in_insert hs hdr hd j p :
  live_in (<[hdr := hd]> hs) j p <-> live_in (delete hdr hs) j p \/ in_use hdr hd j p.
Proof.
  split.
  - intros (k & hd' & Hk & Hu). destruct (decide (k = hdr)) as [->|Hne].
    + rewrite lookup_insert_eq in Hk. simplify_eq. by right.
    + left. exists k, hd'. rewrite lookup_insert_ne in Hk by done. by rewrite lookup_delete_ne.
  - intros [(k & hd' & Hk & Hu)|Hu]; [|exists hdr, hd; by rewrite lookup_insert_eq].
    apply lookup_delete_Some in Hk as [? Hk]. exists k, hd'. by rewrite lookup_insert_ne.
Qed.

Lemma live_in_split hs hdr hd j p : hs !! hdr = Some hd ->
  live_in hs j p <-> live_in (delete hdr hs) j p \/ in_use hdr hd j p.
Proof. intros H. rewrite <- live_in_insert, insert_id by done. done. Qed.

Lemma in_use_class hdr i hd j p : slab_ok hdr i hd ->
  in_use hdr hd j p <-> j = i /\ p ∈ chunks hdr i /\ p ∉ nodes hd.
Proof.
  intros Hs. pose proof (so_index _ _ _ Hs). pose proof (so_max _ _ _ Hs). split.
  - intros (Hj & Hm & Hc & Hn). assert (j = i) as -> by (apply slab_max_inj; congruence || done). done.
  - intros (-> & ? & ?). done.
Qed.

(** A slab in use elsewhere does not have chunks of this page. *)
Lemma live_in_other h (a : A) hdr i j p : wf h a -> 0 <= i < FREELIST_COUNT -> (PAGE_SIZE | hdr) -> 0 <= hdr ->
  hdr + PAGE_SIZE <= 2 ^ 64 -> p ∈ chunks hdr i -> ~ live_in (delete hdr (headers h)) j p.
Proof.
  intros Hwf Hi Hd H0 H1 Hp (k & hd & Hk & Hu). apply lookup_delete_Some in Hk as [Hne Hk].
  destruct (header_addr _ _ _ _ Hwf Hk) as (? & ? & ? & _). destruct Hu as (Hj & _ & Hc & _).
  apply Hne. rewrite <- (chunk_page hdr i p), <- (chunk_page k j p); done || lia.
Qed.

(** The rest of the invariant when the slab at [hdr] becomes [hd] and its list [l']. *)
Lemma wf_set h (a a' : A) hdr i hd l l' : wf h a -> pa_ok a' -> slab_ok hdr i hd ->
  freelists h !! Z.to_nat i = Some l -> NoDup l' ->
  (forall x, x ∈ l' <-> x ∈ l /\ x <> hdr \/ x = hdr /\ count hd < max hd) ->
  (forall hd0, headers h !! hdr = Some hd0 -> max hd0 = max hd) ->
  pa_held a' (hdr - HHDM_START) -> (forall q, pa_held a q -> pa_held a' q) ->
  wf (mkHeap (<[hdr := hd]> (headers h)) (<[Z.to_nat i := l']> (freelists h))) a'.
Proof.
  intros Hwf Hok Hs Hl Hnd Hin Hold Hh Hmono. pose proof (so_index _ _ _ Hs) as Hi.
  pose proof (so_max _ _ _ Hs) as Hmax. destruct Hwf as [_ Hsl Hhe Hlen Hli].
  assert (Hlt : (Z.to_nat i < length (freelists h))%nat) by (unfold FREELIST_COUNT in *; lia).
  split; cbn [headers freelists].
  - done.
  - intros k hd' Hk. apply lookup_insert_Some in Hk as [[<- <-]|[_ Hk]]; eauto.
  - intros k hd' Hk. apply lookup_insert_Some in Hk as [[<- <-]|[_ Hk]]; eauto.
  - by rewrite length_insert.
  - intros j lj Hj Hlj. destruct (decide (i = j)) as [<-|Hne].
    + rewrite list_lookup_insert_eq in Hlj by done. simplify_eq. split; [done|]. intros x. rewrite Hin.
      destruct (Hli i l Hi Hl) as [_ Hm]. rewrite Hm. destruct (decide (x = hdr)) as [->|Hx].
      * rewrite lookup_insert_eq. naive_solver.
      * rewrite lookup_insert_ne by done. naive_solver.
    + rewrite list_lookup_insert_ne in Hlj by lia. destruct (Hli j lj Hj Hlj) as [Hndj Hm]. split; [done|].
      intros x. rewrite Hm. destruct (decide (x = hdr)) as [->|Hx].
      * rewrite lookup_insert_eq. split.
        -- intros (hd' & Hd & Hmj & _). destruct Hne. apply slab_max_inj; [done|done|]. rewrite <- Hmax, <- Hmj. symmetry. eauto.
        -- intros (hd' & [= <-] & Hmj & _). destruct Hne. apply slab_max_inj; [done|done|]. congruence.
      * by rewrite lookup_insert_ne.
Qed.

Lemma owns_set h hdr hd hd' fl q : headers h !! hdr = Some hd ->
  owns HHDM_START (mkHeap (<[hdr := hd']> (headers h)) fl) q <-> owns HHDM_START h q.
Proof.
  intros Hh. unfold owns. cbn [headers]. rewrite lookup_insert_is_Some'. split; [|by right].
  intros [->|?]; [by exists hd|done].
Qed.

(** *** Allocating *)

(** What an allocation of the class [i] that returns [r] does. *)
Record given (h h' : heap) (a a' : A) (i r : Z) : Prop := {
  gi_pos : 0 < r;
  gi_align : (16 | r);
  gi_new : forall j, ~ live h j r;
  gi_live : forall j p, live h' j p <-> live h j p \/ j = i /\ p = r;
  gi_held : forall q, pa_held a' q <-> pa_held a q \/ owns HHDM_START h' q;
  gi_owns : forall q, owns HHDM_START h' q -> owns HHDM_START h q \/ ~ pa_held a q;
  gi_mono : forall q, owns HHDM_START h q -> owns HHDM_START h' q
}.

Lemma pop_ok h (a : A) size front rest : wf h a -> 0 <= size <= 2048 ->
  freelists h !! Z.to_nat (size_to_index size) = Some (front :: rest) ->
  exists r h', slab_alloc HHDM_START size h a = Some (r, h', a) /\ wf h' a /\ given h h' a a (size_to_index size) r.
Proof.
  intros Hwf Hsz Hl. destruct (size_to_index_eq size Hsz) as (Hi & _). set (i := size_to_index size) in *.
  destruct (wf_lists _ _ _ Hwf i _ Hi Hl) as [Hnd Hm]. destruct (Hm front) as [Hf _].
  destruct Hf as (hd & Hh & Hmax & Hcnt); [left|]. destruct (wf_slabs _ _ _ Hwf _ _ Hh) as [j Hs].
  assert (j = i) as -> by (apply slab_max_inj; [apply Hs|done|by rewrite <- (so_max _ _ _ Hs)]).
  destruct (header_addr _ _ _ _ Hwf Hh) as (Hd & Hpos & H64 & _). pose proof Hs as [_ _ Hnn Hsub Hct Hlv].
  destruct (list_snoc (nodes hd)) as [E|(ns & r & E)]; [rewrite E in Hct; simpl in Hct; lia|].
  rewrite E in Hct, Hnn, Hsub. rewrite length_app in Hct. cbn [length] in Hct.
  assert (Hr : r ∈ chunks front i) by (apply Hsub; set_solver).
  assert (Hrn : r ∉ ns) by (apply NoDup_app in Hnn as (_ & Hx & _); intros Hn; apply (Hx r Hn); left).
  destruct (chunk_inside _ _ _ Hi Hr) as [Hlo _]. unfold HEADER_SIZE in Hlo.
  assert (Hmb : 1 <= max hd <= PAGE_SIZE).
  { rewrite Hmax. destruct (slab_max_bound i Hi) as (? & ? & _).
    pose proof (Z.pow_pos_nonneg 2 (4 + i) ltac:(lia) ltac:(lia)). unfold HEADER_SIZE in *. nia. }
  unfold slab_alloc. fold i. cbn zeta.
  replace (i <? FREELIST_COUNT) with true by (symmetry; apply Z.ltb_lt; lia).
  cbn [assert mbind option_bind]. rewrite Hl. cbn [mbind option_bind]. rewrite Hh. cbn [mbind option_bind].
  rewrite E, pop_back_app. cbn [mbind option_bind count max nodes].
  replace (r =? 0) with false by lia. cbn [negb assert mbind option_bind].
  unfold add64. rewrite u64_small by (unfold PAGE_SIZE in *; lia).
  set (hd' := mkHeader ns (count hd + 1) (max hd)).
  assert (Hs' : slab_ok front i hd').
  { apply NoDup_app in Hnn as (? & _ & _). split; cbn; [done|done|done| |lia|lia].
    intros p Hp. apply Hsub. set_solver. }
  eexists _, _. split; [done|]. split.
  - apply (wf_set _ a a _ _ hd' (front :: rest)); try done; cbn [max hd'].
    + apply Hwf.
    + destruct (_ =? _); [by apply NoDup_cons in Hnd as [_ ?]|done].
    + intros x. cbn [count hd']. apply NoDup_cons in Hnd as [Hnf _].
      destruct (_ =? _) eqn:Ec; bool_to_prop; set_unfold; [|].
      * split; [intros Hx; left; split; [by right|by intros ->]|]. intros [[[->|?] ?]|[_ ?]]; [done|done|lia].
      * split; [intros [->|?]; [right; split; [done|lia]|destruct (decide (x = front)) as [->|]; [done|left; naive_solver]]|].
        intros [[? _]|[-> _]]; [done|by left].
    + intros hd0 Hh0. by rewrite Hh in Hh0; simplify_eq.
    + by apply (wf_held _ _ _ Hwf _ _ Hh).
  - assert (Hno : forall j, ~ live h j r).
    { intros j Hlj. apply (live_in_split _ _ _ _ _ Hh) in Hlj as [Hlj|Hu].
      - exact (live_in_other h a front i j r Hwf Hi Hd ltac:(lia) H64 Hr Hlj).
      - apply (in_use_class _ _ _ _ _ Hs) in Hu as (_ & _ & Hu). apply Hu. rewrite E. set_solver. }
    split; [lia|by apply (chunk_aligned front i)|done|..].
    + intros j p. unfold live. cbn [headers]. rewrite live_in_insert, (live_in_split _ _ _ j p Hh).
      rewrite (in_use_class _ _ _ _ _ Hs), (in_use_class _ _ _ _ _ Hs'), E. cbn [nodes hd'].
      rewrite not_elem_of_app, list_elem_of_singleton. destruct (decide (p = r)) as [->|]; naive_solver.
    + intros q. rewrite (owns_set _ _ _ hd' _ _ Hh). pose proof (wf_owns h a q Hwf). naive_solver.
    + intros q. rewrite (owns_set _ _ _ hd' _ _ Hh). by left.
    + intros q. by rewrite (owns_set _ _ _ hd' _ _ Hh).
Qed.

Lemma new_ok h (a a' : A) size page : wf h a -> 0 <= size <= 2048 ->
  freelists h !! Z.to_nat (size_to_index size) = Some [] -> pa_alloc a = (Some page, a') ->
  exists h', slab_alloc HHDM_START size h a = Some (page + HHDM_START + HEADER_SIZE, h', a') /\ wf h' a' /\
    given h h' a a' (size_to_index size) (page + HHDM_START + HEADER_SIZE) /\
    forall q, owns HHDM_START h' q <-> owns HHDM_START h q \/ q = page.
Proof.
  intros Hwf Hsz Hl Ha. destruct (size_to_index_eq size Hsz) as (Hi & Hle & _). set (i := size_to_index size) in *.
  pose proof (pa_alloc_ok a (wf_pages _ _ _ Hwf)) as Hal. rewrite Ha in Hal. destruct Hal as (Hok & Hpp & Hnh & Hh').
  destruct (held_addr a' page Hok ltac:(apply Hh'; by right)) as (Hv & Hph & Hd & Hpos & H64).
  assert (Hnone : headers h !! (page + HHDM_START) = None).
  { apply eq_None_not_Some. intros Ho. by apply Hnh, (wf_owns h). }
  destruct (slab_max_bound i Hi) as (Hm1 & _ & _). unfold slab_alloc. fold i. cbn zeta.
  replace (i <? FREELIST_COUNT) with true by (symmetry; apply Z.ltb_lt; lia).
  cbn [assert mbind option_bind]. rewrite Hl. cbn [mbind option_bind]. rewrite Ha, Hv, index_to_size_eq by done.
  replace (size <=? _) with true by (symmetry; apply Z.leb_le; lia). cbn [assert mbind option_bind]. fold (slab_max i).
  set (hdr := page + HHDM_START) in *. set (hd := mkHeader _ 1 (slab_max i)).
  pose proof (chunks_cons hdr i Hi) as Hcc. pose proof (NoDup_chunks hdr i ltac:(lia)) as Hnd.
  pose proof (length_chunks hdr i Hi) as Hlc. rewrite Hcc in Hnd, Hlc. cbn [length] in Hlc.
  apply NoDup_cons in Hnd as [Hfst Hnd]. fold (nodes hd) in Hnd, Hfst, Hlc.
  assert (Hs : slab_ok hdr i hd).
  { split; [done|done|exact Hnd| |unfold nodes at 1, hd; cbn [count max]; lia|by left].
    intros p Hp. rewrite Hcc. by right. }
  assert (Hr : hdr + HEADER_SIZE ∈ chunks hdr i) by (rewrite Hcc; left).
  assert (Hdel : delete hdr (headers h) = headers h) by (by apply delete_id).
  assert (Hown : forall q fl, owns HHDM_START (mkHeap (<[hdr := hd]> (headers h)) fl) q <-> owns HHDM_START h q \/ q = page).
  { intros q fl. unfold owns. cbn [headers]. rewrite lookup_insert_is_Some'. unfold hdr. split; [intros [?|?]; [right; lia|by left]|].
    intros [?| ->]; [by right|by left]. }
  eexists. split; [done|]. split; [|split; [|intros q; apply Hown]].
  - apply (wf_set h a a' hdr i hd []); try done.
    + destruct (1 =? slab_max i); [constructor|apply NoDup_singleton].
    + intros x. cbn [count max hd]. destruct (1 =? slab_max i) eqn:E; bool_to_prop; set_unfold; [|].
      * split; [done|]. intros [[? _]|[_ ?]]; [done|lia].
      * split; [intros [->|?]; [right; split; [done|lia]|done]|]. intros [[? _]|[-> _]]; [done|by left].
    + intros hd0 H0. by rewrite Hnone in H0.
    + unfold hdr. rewrite Z.add_simpl_r. apply Hh'. by right.
    + intros q Hq. apply Hh'. by left.
  - split.
    + unfold HEADER_SIZE. lia.
    + by apply (chunk_aligned hdr i).
    + intros j Hj. unfold live in Hj. rewrite <- Hdel in Hj. exact (live_in_other h a hdr i j _ Hwf Hi Hd ltac:(lia) H64 Hr Hj).
    + intros j p. unfold live. cbn [headers]. rewrite live_in_insert, Hdel, (in_use_class _ _ _ _ _ Hs), Hcc.
      fold (nodes hd). set_unfold. destruct (decide (p = hdr + HEADER_SIZE)) as [->|]; naive_solver.
    + intros q. rewrite Hown, Hh'. pose proof (wf_owns h a q Hwf). naive_solver.
    + intros q. rewrite Hown. intros [?| ->]; [by left|by right].
    + intros q Ho. apply Hown. by left.
Qed.

(** No chunk of the class is free. *)
Definition full (h : heap) (i : Z) : Prop := freelists h !! Z.to_nat i = Some [].

Lemma slab_alloc_ok h (a : A) size : wf h a -> 0 <= size <= 2048 ->
  exists r h' a', slab_alloc HHDM_START size h a = Some (r, h', a') /\ wf h' a' /\
    ((r = 0 /\ h' = h /\ a' = a /\ full h (size_to_index size) /\ fst (pa_alloc a) = None) \/
     given h h' a a' (size_to_index size) r).
Proof.
  intros Hwf Hsz. destruct (size_to_index_eq size Hsz) as (Hi & _).
  destruct (freelists h !! Z.to_nat (size_to_index size)) as [[|front rest]|] eqn:El.
  - destruct (pa_alloc a) as [[page|] a'] eqn:Ea.
    + destruct (new_ok h a a' size page Hwf Hsz El Ea) as (h' & ? & ? & ? & _). eauto 10.
    + pose proof (pa_alloc_ok a (wf_pages _ _ _ Hwf)) as Hal. rewrite Ea in Hal. subst a'.
      exists 0, h, a. split; [|split; [done|left; unfold full; rewrite El; done]]. unfold slab_alloc. cbn zeta.
      replace (_ <? FREELIST_COUNT) with true by (symmetry; apply Z.ltb_lt; lia).
      cbn [assert mbind option_bind]. rewrite El. cbn [mbind option_bind]. by rewrite Ea.
  - destruct (pop_ok h a size front rest Hwf Hsz El) as (r & h' & ? & ? & ?). eauto 10.
  - apply lookup_ge_None in El. rewrite (wf_len _ _ _ Hwf) in El. unfold FREELIST_COUNT in Hi. lia.
Qed.

(** *** Freeing *)

(** What a free of the chunk [ptr] of the class [i] does: [kept] tells whether
    the page stays a slab. *)
Record taken (h h' : heap) (a a' : A) (i ptr : Z) (kept : bool) : Prop := {
  ta_live : forall j p, live h' j p <-> live h j p /\ p <> ptr;
  ta_owns : forall q, owns HHDM_START h' q <->
    owns HHDM_START h q /\ (kept = true \/ q <> ALIGNDOWN ptr PAGE_SIZE - HHDM_START);
  ta_held : forall q, pa_held a' q <-> pa_held a q /\ (owns HHDM_START h q -> owns HHDM_START h' q);
  ta_last : kept = false <-> i <> 7 /\ forall p, live h i p -> ALIGNDOWN p PAGE_SIZE = ALIGNDOWN ptr PAGE_SIZE -> p = ptr
}.

(** With [n] free chunks of [max], and [ptr] not free, some other chunk is in
    use exactly when [n + 1 < max]. *)
Lemma other_in_use hdr i hd ptr : slab_ok hdr i hd -> ptr ∈ chunks hdr i -> ptr ∉ nodes hd ->
  count hd <> 0 /\ (count hd = 1 <-> forall p, p ∈ chunks hdr i -> p ∉ nodes hd -> p = ptr).
Proof.
  intros [Hi Hm Hnd Hsub Hct Hlv] Hp Hn. pose proof (NoDup_chunks hdr i ltac:(lia)) as Hndc.
  pose proof (length_chunks hdr i Hi) as Hlen.
  assert (Hnd1 : NoDup (ptr :: nodes hd)) by (by apply NoDup_cons).
  assert (Hsub1 : ptr :: nodes hd ⊆ chunks hdr i) by (intros x [->|Hx]%elem_of_cons; auto).
  pose proof (submseteq_length _ _ (NoDup_submseteq _ _ Hnd1 Hsub1)) as Hle. cbn [length] in Hle.
  split; [lia|]. split.
  - intros H1 p Hpc Hpn. destruct (decide (p = ptr)) as [|Hne]; [done|exfalso].
    assert (Hnd2 : NoDup (p :: ptr :: nodes hd)) by (apply NoDup_cons; set_solver).
    assert (Hsub2 : p :: ptr :: nodes hd ⊆ chunks hdr i) by (intros x [->|Hx]%elem_of_cons; auto).
    pose proof (submseteq_length _ _ (NoDup_submseteq _ _ Hnd2 Hsub2)) as Hle2. cbn [length] in Hle2. lia.
  - intros Hall. assert (Hsub3 : chunks hdr i ⊆ ptr :: nodes hd).
    { intros x Hx. destruct (decide (x ∈ nodes hd)); [by right|]. rewrite (Hall x Hx) by done. left. }
    pose proof (submseteq_length _ _ (NoDup_submseteq _ _ Hndc Hsub3)) as Hle3. cbn [length] in Hle3. lia.
Qed.

Lemma live_here h (a : A) hdr i hd : wf h a -> headers h !! hdr = Some hd -> slab_ok hdr i hd ->
  (forall p, p ∈ chunks hdr i -> p ∉ nodes hd -> ALIGNDOWN p PAGE_SIZE = hdr /\ live h i p) /\
  (forall p, live h i p -> ALIGNDOWN p PAGE_SIZE = hdr -> p ∈ chunks hdr i /\ p ∉ nodes hd).
Proof.
  intros Hwf Hh Hs. destruct (header_addr _ _ _ _ Hwf Hh) as (Hd & Hpos & H64 & _).
  pose proof (so_index _ _ _ Hs) as Hi. split.
  - intros p Hc Hn. split; [apply (chunk_page hdr i); (done || lia)|]. exists hdr, hd. split; [done|].
    apply (in_use_class _ _ _ _ _ Hs). done.
  - intros p Hl E. destruct (live_slab h a i p Hwf Hl) as (hd' & Hh' & _ & Hc & Hn). rewrite E in *.
    rewrite Hh in Hh'. by simplify_eq.
Qed.

(** The chunk goes back to its slab, which is in the list afterwards. *)
Lemma put_ok h (a : A) hdr i hd ptr l l' : wf h a -> headers h !! hdr = Some hd -> slab_ok hdr i hd ->
  ptr ∈ chunks hdr i -> ptr ∉ nodes hd -> max hd = 1 \/ count hd <> 1 ->
  freelists h !! Z.to_nat i = Some l -> NoDup l' -> (forall x, x ∈ l' <-> x ∈ l \/ x = hdr) ->
  let h' := mkHeap (<[hdr := mkHeader (nodes hd ++ [ptr]) (count hd ⊟ 1) (max hd)]> (headers h))
              (<[Z.to_nat i := l']> (freelists h)) in
  wf h' a /\ taken h h' a a i ptr true.
Proof.
  intros Hwf Hh Hs Hp Hn Hc Hl Hnd Hin h'. destruct (other_in_use _ _ _ _ Hs Hp Hn) as [Hc0 Hlast].
  pose proof Hs as [Hi Hm Hnn Hsub Hct Hlv]. destruct (slab_max_bound i Hi) as (_ & Hmb & H7).
  destruct (header_addr _ _ _ _ Hwf Hh) as (Hd & Hpos & H64 & _).
  assert (Ecnt : count hd ⊟ 1 = count hd - 1).
  { unfold sub64. apply u64_small. pose proof (Z.pow_pos_nonneg 2 (4 + i) ltac:(lia) ltac:(lia)).
    unfold HEADER_SIZE, PAGE_SIZE in *. nia. }
  unfold h'. rewrite Ecnt. set (hd' := mkHeader _ _ _).
  assert (Hs' : slab_ok hdr i hd').
  { split; cbn [nodes count max hd'].
    - done.
    - done.
    - apply NoDup_app. split_and!; [done|set_solver|apply NoDup_singleton].
    - intros p. set_unfold. naive_solver.
    - rewrite length_app. cbn [length]. lia.
    - lia. }
  split.
  - apply (wf_set h a a hdr i hd' l); try done; cbn [count max hd'].
    + apply Hwf.
    + intros x. rewrite Hin. destruct (decide (x = hdr)) as [->|]; [|naive_solver].
      split; [intros _; right; split; [done|lia]|by right].
    + intros hd0 Hh0. rewrite Hh in Hh0. by simplify_eq.
    + by apply (wf_held _ _ _ Hwf _ _ Hh).
  - split.
    + intros j p. unfold live. cbn [headers]. rewrite live_in_insert, (live_in_split _ _ _ j p Hh).
      rewrite (in_use_class _ _ _ _ _ Hs), (in_use_class _ _ _ _ _ Hs'). cbn [nodes hd'].
      pose proof (live_in_other h a hdr i j ptr Hwf Hi Hd ltac:(lia) H64 Hp) as Hno. set_unfold.
      destruct (decide (p = ptr)) as [->|]; naive_solver.
    + intros q. rewrite (owns_set _ _ _ hd' _ _ Hh). naive_solver.
    + intros q. rewrite (owns_set _ _ _ hd' _ _ Hh). naive_solver.
    + split; [done|]. intros [Hi7 Hall]. exfalso.
      destruct (live_here _ _ _ _ _ Hwf Hh Hs) as [Hto Hfrom]. destruct (Hto ptr Hp Hn) as [Ep _].
      destruct Hc as [Hc|Hc]; [rewrite Hc in Hm; apply Hi7, H7; done|]. apply Hc, Hlast. intros p Hpc Hpn.
      destruct (Hto p Hpc Hpn) as [E Hlp]. apply Hall; [done|congruence].
Qed.

(** The last chunk in use: the page goes back to the page allocator. *)
Lemma drop_ok h (a : A) hdr i hd ptr l : wf h a -> headers h !! hdr = Some hd -> slab_ok hdr i hd ->
  ptr ∈ chunks hdr i -> ptr ∉ nodes hd -> max hd <> 1 -> count hd = 1 ->
  freelists h !! Z.to_nat i = Some l ->
  exists l' a', list_remove hdr l = Some l' /\ pa_free (to_phys HHDM_START hdr) a = Some a' /\
    wf (mkHeap (delete hdr (headers h)) (<[Z.to_nat i := l']> (freelists h))) a' /\
    taken h (mkHeap (delete hdr (headers h)) (<[Z.to_nat i := l']> (freelists h))) a a' i ptr false.
Proof.
  intros Hwf Hh Hs Hp Hn Hm1 Hc1 Hl. destruct (other_in_use _ _ _ _ Hs Hp Hn) as [_ Hlast].
  pose proof Hs as [Hi Hm _ _ _ _]. destruct (slab_max_bound i Hi) as (Hmp & _ & H7).
  destruct (header_addr _ _ _ _ Hwf Hh) as (Hd & Hpos & H64 & Hph).
  destruct (wf_lists _ _ _ Hwf i l Hi Hl) as [Hnd Hin].
  destruct (list_remove_elem hdr l) as (l' & Hrm & Hnd' & Hin'); [apply Hin; exists hd; split_and!; [done|done|lia]|done|].
  pose proof (wf_held _ _ _ Hwf _ _ Hh) as Hheld. pose proof (wf_pages _ _ _ Hwf) as Hok. rewrite <- Hph in Hheld.
  destruct (pa_free_ok a _ Hok Hheld) as (a' & Hfree & Hok' & Hh').
  destruct (live_here _ _ _ _ _ Hwf Hh Hs) as [Hto Hfrom]. destruct (Hto ptr Hp Hn) as [Ep _].
  exists l', a'. split_and!; [done|done| |].
  - destruct Hwf as [_ Hsl Hhe Hlen Hli]. split; cbn [headers freelists].
    + done.
    + intros k hk Hk. apply lookup_delete_Some in Hk as [_ Hk]. eauto.
    + intros k hk Hk. apply lookup_delete_Some in Hk as [Hne Hk]. apply Hh'. split; [by apply (Hhe k hk)|]. rewrite Hph. lia.
    + by rewrite length_insert.
    + intros j lj Hj Hlj. destruct (decide (i = j)) as [<-|Hne].
      * rewrite list_lookup_insert_eq in Hlj by (unfold FREELIST_COUNT in *; lia). simplify_eq. split; [done|].
        intros x. rewrite Hin', Hin. setoid_rewrite lookup_delete_Some. naive_solver.
      * rewrite list_lookup_insert_ne in Hlj by lia. destruct (Hli j lj Hj Hlj) as [Hndj Hmj]. split; [done|].
        intros x. rewrite Hmj. setoid_rewrite lookup_delete_Some. split; [|naive_solver].
        intros (hx & Hx & Hmx & Hcx). exists hx. split_and!; try done. intros <-. rewrite Hh in Hx. simplify_eq.
        apply Hne, slab_max_inj; [done|done|congruence].
  - split.
    + intros j p. unfold live. cbn [headers]. rewrite (live_in_split _ _ _ j p Hh), (in_use_class _ _ _ _ _ Hs).
      pose proof (live_in_other h a hdr i j p Hwf Hi Hd ltac:(lia) H64) as Hno. split.
      * intros Hlv. split; [by left|]. intros ->. by apply Hno.
      * intros [[Hlv|(-> & Hpc & Hpn)] Hne]; [done|]. destruct Hne. by apply Hlast.
    + intros q. rewrite Ep. unfold owns. cbn [headers]. rewrite lookup_delete_is_Some. split.
      * intros [Hne Ho]. split; [done|right; lia].
      * intros [Ho [?|Hne]]; [done|]. split; [lia|done].
    + intros q. rewrite Hh', Hph. unfold owns. cbn [headers]. rewrite lookup_delete_is_Some. split.
      * intros [Hq Hne]. split; [done|]. intros Ho. split; [lia|done].
      * intros [Hq Ho]. split; [done|]. intros ->. destruct Ho as [Hne _]; [exists hd; by rewrite Z.sub_add|]. lia.
    + split; [intros _|done]. split; [intros E7; apply Hm1; rewrite Hm; by apply H7|].
      intros p Hlp E. rewrite Ep in E. destruct (Hfrom p Hlp E) as [Hpc Hpn]. by apply Hlast.
Qed.

Lemma slab_free_ok h (a : A) ptr size : wf h a -> 0 < size <= 2048 -> live h (size_to_index size) ptr ->
  exists kept h' a', slab_free HHDM_START ptr size h a = Some (h', a') /\ wf h' a' /\
    taken h h' a a' (size_to_index size) ptr kept.
Proof.
  intros Hwf Hsz Hlive. destruct (size_to_index_eq size ltac:(lia)) as (Hi & Hle & _).
  destruct (live_slab h a _ ptr Hwf Hlive) as (hd & Hh & Hs & Hp & Hn). set (i := size_to_index size) in *.
  set (hdr := ALIGNDOWN ptr PAGE_SIZE) in *.
  destruct (header_addr _ _ _ _ Hwf Hh) as (Hd & Hpos & H64 & _). destruct (chunk_inside _ _ _ Hi Hp) as [Hlo _].
  destruct (lookup_lt_is_Some_2 (freelists h) (Z.to_nat i)) as [l Hl];
    [rewrite (wf_len _ _ _ Hwf); unfold FREELIST_COUNT in *; lia|].
  destruct (wf_lists _ _ _ Hwf i l Hi Hl) as [Hnd Hin].
  unfold slab_free. fold i. cbn zeta. unfold HEADER_SIZE in Hlo.
  replace (ptr =? 0) with false by lia. replace (size =? 0) with false by lia. cbn [orb].
  replace (i <? FREELIST_COUNT) with true by (symmetry; apply Z.ltb_lt; lia). cbn [assert mbind option_bind].
  rewrite index_to_size_eq by done. replace (size <=? _) with true by (symmetry; apply Z.leb_le; lia).
  cbn [assert mbind option_bind]. fold hdr. rewrite Hh. cbn [mbind option_bind]. rewrite Hl. cbn [mbind option_bind].
  pose proof (so_max _ _ _ Hs) as Hm. pose proof (so_count _ _ _ Hs) as Hct.
  destruct (count hd =? max hd) eqn:E1; bool_to_prop.
  - destruct (put_ok h a hdr i hd ptr l (l ++ [hdr]) Hwf Hh Hs Hp Hn) as [Hw Ht]; [lia|done| |set_solver|].
    { apply NoDup_app. split_and!; [done| |apply NoDup_singleton]. intros x Hx ->%list_elem_of_singleton.
      apply Hin in Hx as (hd' & Hh' & _ & Hlt). rewrite Hh in Hh'. simplify_eq. lia. }
    eexists true, _, _. split_and!; [done|done|done].
  - destruct (count hd =? 1) eqn:E2; bool_to_prop.
    + destruct (drop_ok h a hdr i hd ptr l Hwf Hh Hs Hp Hn ltac:(lia) E2 Hl) as (l' & a' & -> & Hf & Hw & Ht).
      cbn [mbind option_bind]. rewrite Hf. cbn [mbind option_bind]. eexists false, _, _. split_and!; [done|done|done].
    + destruct (put_ok h a hdr i hd ptr l l Hwf Hh Hs Hp Hn) as [Hw Ht]; [lia|done|done| |].
      { intros x. split; [by left|]. intros [?| ->]; [done|]. apply Hin. exists hd. split_and!; [done|done|lia]. }
      eexists true, _, _. split_and!; [done|done|done].
Qed.

Lemma largest_class size : 0 < size <= 2048 -> 1024 < size <-> size_to_index size = 7.
Proof.
  intros Hs. destruct (size_to_index_eq size ltac:(lia)) as (Hi & Hle & Hgt).
  destruct (decide (size <= 16)) as [H16|H16].
  { unfold size_to_index. replace (size <=? 16) with true by lia. lia. }
  specialize (Hgt ltac:(lia)). clear H16.
  revert Hi Hle Hgt. generalize (size_to_index size). intros i Hi Hle Hgt. by_index Hi; simpl in Hle, Hgt; lia.
Qed.

(** Another chunk of the page is in use, or all of them are this one. *)
Lemma other_live h (a : A) i ptr : wf h a -> live h i ptr ->
  (exists p, p <> ptr /\ live h i p /\ ALIGNDOWN p PAGE_SIZE = ALIGNDOWN ptr PAGE_SIZE) \/
  (forall p, live h i p -> ALIGNDOWN p PAGE_SIZE = ALIGNDOWN ptr PAGE_SIZE -> p = ptr).
Proof.
  intros Hwf Hl. destruct (live_slab h a i ptr Hwf Hl) as (hd & Hh & Hs & _).
  destruct (live_here _ _ _ _ _ Hwf Hh Hs) as [Hto Hfrom].
  destruct (decide (Exists (fun p => p <> ptr /\ p ∉ nodes hd) (chunks (ALIGNDOWN ptr PAGE_SIZE) i))) as [He|He].
  - left. apply Exists_exists in He as (p & Hp & Hne & Hn). exists p. destruct (Hto p Hp Hn). done.
  - right. intros p Hp E. destruct (Hfrom p Hp E) as [Hc Hn]. destruct (decide (p = ptr)); [done|].
    destruct He. apply Exists_exists. by exists p.
Qed.

(** ** The theorems *)

(** Freeing a chunk always succeeds and ends the use of exactly this chunk.  Its page goes back to the page allocator exactly when no other chunk of the slab is in use and the chunk is not of the largest class: a slab of 2048 byte chunks has one chunk, so it is full whenever that chunk is freed, and its page is kept for ever. *)
Theorem slab_page_returned h (a : A) ptr size : wf h a -> 0 < size <= 2048 -> live h (size_to_index size) ptr ->
  exists h' a', slab_free HHDM_START ptr size h a = Some (h', a') /\ wf h' a' /\
    (forall j p, live h' j p <-> live h j p /\ p <> ptr) /\
    (forall q, pa_held a' q <-> pa_held a q /\
       (q <> ALIGNDOWN ptr PAGE_SIZE - HHDM_START \/ 1024 < size \/
        exists p, p <> ptr /\ live h (size_to_index size) p /\ ALIGNDOWN p PAGE_SIZE = ALIGNDOWN ptr PAGE_SIZE)).
Proof.
  intros Hwf Hsz Hlive. destruct (slab_free_ok h a ptr size Hwf Hsz Hlive) as (kept & h' & a' & Hf & Hw & [Hl Ho Hh Hk]).
  exists h', a'. split; [done|]. split; [done|]. split; [done|].
  assert (Hown : owns HHDM_START h (ALIGNDOWN ptr PAGE_SIZE - HHDM_START)).
  { destruct (live_slab h a _ ptr Hwf Hlive) as (hd & Hh' & _). exists hd. by rewrite Z.sub_add. }
  pose proof (largest_class size Hsz) as H7.
  pose proof (other_live h a _ ptr Hwf Hlive) as Hd. intros q. rewrite Hh, Ho.
  destruct (decide (q = ALIGNDOWN ptr PAGE_SIZE - HHDM_START)) as [->|]; [|naive_solver]. destruct kept.
  - split; [intros [Hq _]|naive_solver]. split; [done|]. right. destruct (decide (1024 < size)); [by left|right].
    destruct Hd as [?|Hd]; [done|]. assert (true = false); [|done]. apply Hk. split; [lia|exact Hd].
  - destruct (proj1 Hk eq_refl) as [Hi Hall]. split; [intros [_ Hx]; destruct (Hx Hown) as [_ [?|?]]; done|].
    intros [_ [?|[?|(p & Hne & Hp & E)]]]; [done|lia|]. destruct Hne. auto.
Qed.

End Pages.

(** A slab of 2048 byte chunks. *)
Definition demo_slab : Z * heap * Pmalloc.state :=
  default (0, empty_heap, Pmalloc.initial) (slab_alloc 0 2000 empty_heap PmallocRun.demo_state).

Lemma demo_slab_eq : slab_alloc 0 2000 empty_heap PmallocRun.demo_state = Some demo_slab.
Proof. vm_compute. reflexivity. Qed.

Lemma empty_heap_wf : wf 0 empty_heap PmallocRun.demo_state.
Proof.
  split.
  - exact PmallocRun.demo_wf.
  - intros hdr hd H. cbn [headers empty_heap] in H. by rewrite lookup_empty in H.
  - intros hdr hd H. cbn [headers empty_heap] in H. by rewrite lookup_empty in H.
  - done.
  - intros i l Hi Hl. change (replicate 8 [] !! Z.to_nat i = Some l) in Hl. apply lookup_replicate in Hl as [-> _].
    split; [constructor|]. intros hdr. cbn [headers empty_heap]. setoid_rewrite lookup_empty. set_solver.
Qed.

Lemma pmalloc_end (a : Pmalloc.state) q : pa_ok a -> pa_held a q -> q + PAGE_SIZE <= 2 ^ 52.
Proof.
  intros Hok Hq. destruct (pa_page a q Hok Hq) as [Hd Hr]. assert (PAGE_SIZE <= 2 ^ 52 - q); [|lia].
  apply Z.divide_pos_le; [lia|]. apply Z.divide_sub_r; [by exists (2 ^ 40)|done].
Qed.

Lemma slab_page_returned_witness : exists h' a', slab_free 0 0x2006030 2000 demo_slab.1.2 demo_slab.2 = Some (h', a') /\
  pa_held a' 0x2006000.
Proof.
  destruct (slab_alloc_ok 0 (2 ^ 52) ltac:(by exists 0) ltac:(lia) pmalloc_end empty_heap PmallocRun.demo_state 2000 empty_heap_wf ltac:(lia))
    as (r & h & a & Ha & Hw & Hr).
  rewrite demo_slab_eq in Ha.
  assert (Hv : demo_slab.1.1 = 0x2006030) by (vm_compute; reflexivity).
  destruct demo_slab as [[r' h1] a1]. injection Ha as <- <- <-. cbn [fst snd] in *. subst r'.
  destruct Hr as [[? _]|Hg]; [lia|].
  destruct (slab_page_returned 0 (2 ^ 52) ltac:(by exists 0) ltac:(lia) pmalloc_end h1 a1 0x2006030 2000 Hw ltac:(lia)) as (h' & a' & Hf & _ & _ & Hq).
  - apply (gi_live _ _ _ _ _ _ _ Hg). by right.
  - exists h', a'. split; [exact Hf|]. apply Hq. split; [|right; left; lia].
    destruct (live_slab 0 (2 ^ 52) ltac:(by exists 0) ltac:(lia) pmalloc_end h1 a1 7 0x2006030 Hw) as (hd & Hh & _).
    + apply (gi_live _ _ _ _ _ _ _ Hg). by right.
    + exact (wf_held _ _ _ Hw _ _ Hh).
Defined.

End SlabRun.
