(* ===== verification/VSpace.v ===== *)
(** * The kernel's address space and heap
      (src/src/mem/vspace.cpp, vspace.hpp, malloc.cpp; [operator new] of std/new.cpp)

    [VirtualSpace] hands out ranges of kernel addresses ([alloc], [free]) and
    ranges with memory behind them ([alloc_backed], [free_backed]).  It puts four
    components together: the address allocator (VMem.v), the page tables
    (Paging.v), the page allocator, and the heap's slabs (Slab.v), from which it
    takes the nodes of its tree of regions.  [Allocator] is the kernel heap: slabs
    for small sizes, a page, or a range of [KERNEL_VSPACE] for large ones.

    The state [kmem] has the slabs, the address allocator, the regions and the
    kernel's page map with its page allocator.  The tree of regions, ordered by
    their base, is the sequence of its elements (RbTree.v).  [None] is a panic: a
    failed assertion or an access that is not defined. *)

From S2P Require Import Prelude Bits PageAlloc VMem Paging Slab.

Module VSpace.

Record Region := mkRegion { reg_node : Z; base : Z; size : Z }.

#[global] Instance Region_dec : EqDecision Region.
Proof. solve_decision. Defined.

(** [sizeof(Region)]: the hook of a tree node has 48 bytes. *)
Definition REGION_SIZE : Z := 64.

Section WithPages.
Context {A : Type} {PA : PageAlloc A}.
Variable HHDM_START : Z.

Record kmem := mkK {
  heap : Slab.heap;
  vmem : VMem.vmem;
  regions : list Region;
  page_map : Paging.state (A := A)
}.

Definition pages (k : kmem) : A := Paging.alloc (page_map k).

Definition with_pages (a : A) (k : kmem) : kmem :=
  mkK (heap k) (vmem k) (regions k) (Paging.mkState (Paging.mem (page_map k)) (Paging.pm (page_map k)) a).
Definition with_heap (h : Slab.heap) (k : kmem) : kmem := mkK h (vmem k) (regions k) (page_map k).
Definition with_vmem (v : VMem.vmem) (k : kmem) : kmem := mkK (heap k) v (regions k) (page_map k).
Definition with_regions (r : list Region) (k : kmem) : kmem := mkK (heap k) (vmem k) r (page_map k).
Definition with_map (m : Paging.state (A := A)) (k : kmem) : kmem := mkK (heap k) (vmem k) (regions k) m.

(** ** VirtualSpace *)

(** [new Region {}]: [operator new] asserts that there is memory. *)
Definition new_region (k : kmem) : option (Z * kmem) :=
  '(ret, h, a) ← Slab.slab_alloc HHDM_START REGION_SIZE (heap k) (pages k);
  _ ← assert (negb (ret =? 0));
  Some (ret, with_heap h (with_pages a k)).

Definition delete_region (node : Z) (k : kmem) : option kmem :=
  '(h, a) ← Slab.slab_free HHDM_START node REGION_SIZE (heap k) (pages k);
  Some (with_heap h (with_pages a k)).

Definition vspace_init (base size : Z) (k : kmem) : option kmem :=
  '(v, a) ← VMem.init base size PAGE_SIZE (vmem k) (pages k);
  Some (with_vmem v (with_pages a k)).

Definition vspace_destroy (k : kmem) : option kmem :=
  '(v, a) ← VMem.destroy true (vmem k) (pages k);
  Some (with_vmem v (with_pages a k)).

(** [VirtualSpace::alloc]. *)
Definition vspace_alloc (size : Z) (k : kmem) : option (Z * kmem) :=
  '(ret, v, a) ← VMem.xalloc size 0 0 (vmem k) (pages k);
  let k := with_vmem v (with_pages a k) in
  if ret =? 0 then Some (0, k)
  else
    '(reg, k) ← new_region k;
    Some (ret, with_regions (mkRegion reg ret size :: regions k) k).

(** [VirtualSpace::free]. *)
Definition vspace_free (ptr sz : Z) (k : kmem) : option kmem :=
  v ← VMem.xfree ptr sz (vmem k);
  let k := with_vmem v k in
  '(_, reg) ← list_find (fun r => base r = ptr) (regions k);
  rs ← list_remove reg (regions k);
  let k := with_regions rs k in
  _ ← assert (size reg =? sz);
  delete_region (reg_node reg) k.

(** A page is taken out of the map and given back. *)
Definition unback (virt : Z) (k : kmem) : option kmem :=
  phys ← Paging.get_phys virt (page_map k);
  m ← Paging.unmap virt (page_map k);
  let k := with_map m k in
  a ← pa_free phys (pages k);
  Some (with_pages a k).

(** [n] pages from [virt] on: the loops of [free_backed] and of the cleanup. *)
Fixpoint unback_loop (n : nat) (virt : Z) (k : kmem) : option kmem :=
  match n with
  | O => Some k
  | S n => k ← unback virt k; unback_loop n (virt ⊞ PAGE_SIZE) k
  end.

(** The label [cleanup] of [alloc_backed] after [i] pages. *)
Definition cleanup (phys vm sz : Z) (i : nat) (k : kmem) : option (Z * kmem) :=
  k ← (if phys =? 0 then Some k else a ← pa_free phys (pages k); Some (with_pages a k));
  k ← unback_loop i vm k;
  k ← vspace_free vm sz k;
  Some (0, k).

(** The loop of [alloc_backed]: [i] pages are mapped, [n] are left. *)
Fixpoint back_loop (n : nat) (vm sz flags : Z) (cache_mode : Paging.CacheMode) (i : nat) (k : kmem)
    : option (Z * kmem) :=
  match n with
  | O => Some (vm, k)
  | S n =>
      let virt := vm ⊞ Z.of_nat i * PAGE_SIZE in
      match pa_alloc (pages k) with
      | (None, a) => cleanup 0 vm sz i (with_pages a k)
      | (Some phys, a) =>
          '(ok, m) ← Paging.map virt phys flags cache_mode (page_map (with_pages a k));
          let k := with_map m k in
          if negb ok then cleanup phys vm sz i k
          else back_loop n vm sz flags cache_mode (S i) k
      end
  end.

Definition alloc_backed (sz flags : Z) (cache_mode : Paging.CacheMode) (k : kmem) : option (Z * kmem) :=
  '(vm, k) ← vspace_alloc sz k;
  if vm =? 0 then Some (0, k)
  else back_loop (Z.to_nat (ALIGNUP sz PAGE_SIZE / PAGE_SIZE)) vm sz flags cache_mode 0 k.

Definition free_backed (ptr sz : Z) (k : kmem) : option kmem :=
  k ← unback_loop (Z.to_nat (ALIGNUP sz PAGE_SIZE / PAGE_SIZE)) ptr k;
  vspace_free ptr sz k.

(** ** Allocator *)

Definition alloc (sz : Z) (k : kmem) : option (Z * kmem) :=
  if sz =? PAGE_SIZE then
    match pa_alloc (pages k) with
    | (None, a) => Some (0, with_pages a k)
    | (Some page, a) => Some (Slab.to_virt HHDM_START page, with_pages a k)
    end
  else if sz >? 2048 then alloc_backed sz (Z.lor Paging.PF_Read Paging.PF_Write) Paging.WriteBack k
  else
    '(ret, h, a) ← Slab.slab_alloc HHDM_START sz (heap k) (pages k);
    Some (ret, with_heap h (with_pages a k)).

Definition free (ptr sz : Z) (k : kmem) : option kmem :=
  if (ptr =? 0) || (sz =? 0) then Some k
  else if sz =? PAGE_SIZE then
    a ← pa_free (Slab.to_phys HHDM_START ptr) (pages k);
    Some (with_pages a k)
  else if sz >? 2048 then free_backed ptr sz k
  else
    '(h, a) ← Slab.slab_free HHDM_START ptr sz (heap k) (pages k);
    Some (with_heap h (with_pages a k)).

End WithPages.
End VSpace.
