(* ===== verification/VSpaceRun.v ===== *)
(** * The invariant of the kernel's address space and heap

    Every page that the page allocator has handed out has exactly one user: a
    slab, the records of the address allocator, a page table, the memory behind
    one kernel page, or somebody else ([acct]).  The lemmas here show that the
    steps of [VirtualSpace] keep this account and what the processor sees of
    the backed pages. *)

From S2P Require Import Prelude Bits Pmalloc PmallocRun PageAlloc PageLimit VMem VMemInv VMemAlloc VMemRun VMemPages Paging PagingRun Slab SlabRun VSpace.


Module VSpaceInv.
Import VSpace.

(** ** Pages of the address space *)

Lemma land_511 n : Z.land n 0x1FF = n mod 2 ^ 9.
Proof. change 0x1FF with (Z.ones 9). by rewrite Z.land_ones. Qed.

Lemma low_digits n : 0 <= n ->
  n mod 2 ^ 36 = Z.land n 0x1FF + 2 ^ 9 * (Z.land (Z.shiftr n 9) 0x1FF +
    2 ^ 9 * (Z.land (Z.shiftr (Z.shiftr n 9) 9) 0x1FF + 2 ^ 9 * Z.land (Z.shiftr (Z.shiftr (Z.shiftr n 9) 9) 9) 0x1FF)).
Proof.
  intros Hn. rewrite !land_511, !Z.shiftr_div_pow2 by lia.
  change (2 ^ 36) with (2 ^ 9 * (2 ^ 9 * (2 ^ 9 * 2 ^ 9))). rewrite !Z.rem_mul_r by lia. done.
Qed.

Lemma path_page v w : 0 <= v -> 0 <= w -> PagingInv.path v = PagingInv.path w ->
  Z.shiftr v 12 mod 2 ^ 36 = Z.shiftr w 12 mod 2 ^ 36.
Proof.
  intros Hv Hw. unfold PagingInv.path, Paging.indices. cbv zeta. intros [= E0 E1 E2 E3].
  assert (Hz : forall x y, Z.to_nat (Z.land x 0x1FF) = Z.to_nat (Z.land y 0x1FF) -> Z.land x 0x1FF = Z.land y 0x1FF).
  { intros x y. rewrite !land_511. pose proof (Z.mod_pos_bound x (2 ^ 9)). pose proof (Z.mod_pos_bound y (2 ^ 9)). lia. }
  apply Hz in E0, E1, E2, E3. rewrite !low_digits by (by apply Z.shiftr_nonneg). by rewrite E0, E1, E2, E3.
Qed.

(** Two pages of a range of at most 48 bits have different entries. *)
Lemma path_inj v w : 0 <= v -> 0 <= w -> (PAGE_SIZE | v) -> (PAGE_SIZE | w) -> - 2 ^ 48 < v - w < 2 ^ 48 ->
  PagingInv.path v = PagingInv.path w -> v = w.
Proof.
  intros Hv Hw [m ->] [n ->] Hd E. apply path_page in E; [|done..]. unfold PAGE_SIZE in *.
  rewrite !Z.shiftr_div_pow2 in E by lia. change 0x1000 with (2 ^ 12) in *. rewrite !Z.div_mul in E by lia.
  assert (Hmn : (m - n) mod 2 ^ 36 = 0) by (rewrite Zminus_mod, E, Z.sub_diag; done).
  apply Z.mod_divide in Hmn as [k Hk]; [|lia]. assert (k = 0) by lia. lia.
Qed.

(** ** Accounts *)

Inductive user := UHeap | USeg | UTable | UBack (virt : Z) | UOther.

Section Pages.
Context {A : Type} {PA : PageAlloc A}.
Variables HHDM_START PHYS_END : Z.

Definition acct (a : A) (C : Z -> user -> Prop) : Prop :=
  (forall q, pa_held a q <-> exists u, C q u) /\ (forall q u u', C q u -> C q u' -> u = u').

Lemma acct_grow (a a' : A) C C' u0 (N : Z -> Prop) : acct a C ->
  (forall q, pa_held a' q <-> pa_held a q \/ N q) -> (forall q u, C' q u <-> C q u \/ u = u0 /\ N q) ->
  (forall q, N q -> C q u0 \/ ~ pa_held a q) -> acct a' C'.
Proof.
  intros [Hh Hf] Hh' HC HN. split.
  - intros q. rewrite Hh', Hh. setoid_rewrite HC. split; [intros [[u ?]|?]; eauto|]. intros (u & [?|[-> ?]]); eauto.
  - intros q u u'. rewrite !HC. intros [H1|[-> H1]] [H2|[-> H2]]; [by eapply Hf| | |done].
    + destruct (HN q H2) as [H3|H3]; [by eapply Hf|]. destruct H3. apply Hh. eauto.
    + destruct (HN q H1) as [H3|H3]; [by eapply Hf|]. destruct H3. apply Hh. eauto.
Qed.

Lemma acct_shrink (a a' : A) C C' (R : Z -> Prop) : acct a C ->
  (forall q, pa_held a' q <-> pa_held a q /\ ~ R q) -> (forall q u, C' q u <-> C q u /\ ~ R q) -> acct a' C'.
Proof.
  intros [Hh Hf] Hh' HC. split.
  - intros q. rewrite Hh', Hh. setoid_rewrite HC. naive_solver.
  - intros q u u'. rewrite !HC. intros [? _] [? _]. by eapply Hf.
Qed.

Lemma acct_move (a : A) C C' q0 u0 u1 : acct a C -> C q0 u0 ->
  (forall q u, C' q u <-> q <> q0 /\ C q u \/ q = q0 /\ u = u1) -> acct a C'.
Proof.
  intros [Hh Hf] H0 HC. split.
  - intros q. rewrite Hh. setoid_rewrite HC. destruct (decide (q = q0)) as [->|]; naive_solver.
  - intros q u u'. rewrite !HC. naive_solver.
Qed.

(** ** The invariant *)

(** The user of each page: [B] has the physical page and the flags behind the
    backed kernel pages, [O] the pages of everybody else. *)
Definition claims (h : Slab.heap) (v : VMem.vmem) (T : gmap (list nat) Z) (B : gmap Z (Z * Z)) (O : Z -> Prop)
    (q : Z) (u : user) : Prop :=
  match u with
  | UHeap => Slab.owns HHDM_START h q
  | USeg => q ∈ VMem.seg_page_list v
  | UTable => exists p, T !! p = Some q
  | UBack virt => exists flags, B !! virt = Some (q, flags)
  | UOther => O q
  end.

Notation sees s virt := (PagingInv.translate (Paging.mem s) (Paging.level0 (Paging.pm s)) virt).
Notation large s virt := (PagingInv.large (Paging.mem s) (Paging.level0 (Paging.pm s)) virt).

(** The processor reaches the page through [virt], with the permissions of [flags]. *)
Definition visible (s : Paging.state (A := A)) (virt phys flags : Z) : Prop :=
  forall v, PagingInv.path v = PagingInv.path virt ->
    exists user, sees s v = Some (PagingInv.mkAccess (Z.lor phys (Z.land v 0xFFF))
      (Paging.pf_and flags Paging.PF_Write) user (Paging.pf_and flags Paging.PF_Execute)).

Definition in_space (v : VMem.vmem) (virt : Z) : Prop := VMem._base v <= virt < VMem._base v + VMem._size v.

(** The geometry of the managed range. *)
Record space_ok (v : VMem.vmem) : Prop := {
  sp_quantum : VMem._quantum v = PAGE_SIZE;
  sp_aligned : VMemPages.aligned PAGE_SIZE v;
  sp_base : 0 < VMem._base v;
  sp_end : VMem._base v + VMem._size v < 2 ^ 64;
  sp_size : VMem._size v <= 2 ^ 48;
  sp_apart : VMem._base v + VMem._size v <= HHDM_START \/ HHDM_START + PHYS_END <= VMem._base v
}.

Record core (k : kmem (A := A)) (T : gmap (list nat) Z) (B : gmap Z (Z * Z)) (O : Z -> Prop) : Prop := {
  co_heap : Slab.wf HHDM_START (heap k) (pages k);
  co_vmem : VMemAlloc.wf (vmem k) (pages k);
  co_map : PagingInv.wf (page_map k) T;
  co_used : forall q, q ∈ Paging.used_pages (Paging.pm (page_map k)) -> exists p, T !! p = Some q;
  co_acct : acct (pages k) (claims (heap k) (vmem k) T B O);
  co_space : space_ok (vmem k);
  co_small : forall virt, in_space (vmem k) virt -> large (page_map k) virt = false;
  co_back : forall virt phys flags, B !! virt = Some (phys, flags) ->
    (PAGE_SIZE | virt) /\ in_space (vmem k) virt /\ visible (page_map k) virt phys flags
}.

(** The pages stay with the components when others use the page allocator. *)
Lemma vmem_frame v (a a' : A) : VMemAlloc.wf v a -> pa_ok a' ->
  (forall q, q ∈ VMem.seg_page_list v -> pa_held a' q) -> VMemAlloc.wf v a'.
Proof. intros (Hw & (_ & Hnp) & _ & Hnd & Hin) Hok Hh. by split_and!. Qed.

Lemma map_frame (s : Paging.state (A := A)) T a' : PagingInv.wf s T -> pa_ok a' ->
  (forall p t, T !! p = Some t -> pa_held a' t) ->
  (forall q, q ∈ Paging.used_pages (Paging.pm s) -> exists p, T !! p = Some q) ->
  PagingInv.wf (Paging.mkState (Paging.mem s) (Paging.pm s) a') T.
Proof.
  intros [Ht _ _ [Hn _]] Hok Hh Hu. split; simpl; [done|done|done|]. split; [done|]. intros q Hq.
  destruct (Hu q Hq) as [p Hp]. eauto.
Qed.

(** Everything but the account after a change of the page allocator. *)
Lemma core_pages k T B O a' O' : core k T B O -> pa_ok a' ->
  acct a' (claims (heap k) (vmem k) T B O') -> core (with_pages a' k) T B O'.
Proof.
  intros [H1 H2 H3 H4 [_ H5'] H6 H7 H8] Hok Hac. pose proof Hac as [Hh _].
  split; unfold with_pages, pages; simpl; try done.
  - apply (SlabRun.wf_frame _ _ (pages k)); [done|done|]. intros q Hq. apply Hh. by exists UHeap.
  - apply (vmem_frame _ (pages k)); [done|done|]. intros q Hq. apply Hh. by exists USeg.
  - apply map_frame; [done|done| |done]. intros p t Hp. apply Hh. exists UTable. by exists p.
Qed.

Lemma core_other k T B O O' : (forall q, O q <-> O' q) -> core k T B O -> core k T B O'.
Proof.
  intros HO [H1 H2 H3 H4 [Hh Hf] H6 H7 H8]. split; try done.
  assert (HC : forall q u, claims (heap k) (vmem k) T B O' q u <-> claims (heap k) (vmem k) T B O q u)
    by (intros q [| | | |]; simpl; [done..|by rewrite HO]).
  split; [intros q; rewrite Hh; by setoid_rewrite HC|]. intros q u u'. rewrite !HC. apply Hf.
Qed.

Lemma core_ok k T B O : core k T B O -> pa_ok (pages k).
Proof. intros Hc. by apply (Slab.wf_pages _ _ _ (co_heap _ _ _ _ Hc)). Qed.

(** *** The page allocator *)

Lemma core_take k T B O p a' : core k T B O -> pa_alloc (pages k) = (Some p, a') ->
  core (with_pages a' k) T B (fun q => O q \/ q = p) /\ (PAGE_SIZE | p) /\ 0 < p < 2 ^ 52 /\ ~ O p.
Proof.
  intros Hc Ha. pose proof (pa_alloc_ok _ (core_ok _ _ _ _ Hc)) as Hal. rewrite Ha in Hal.
  destruct Hal as (Hok & _ & Hn & Hh). pose proof (pa_page a' p Hok ltac:(apply Hh; by right)) as [Hd Hp].
  pose proof (co_acct _ _ _ _ Hc) as Hac. split; [|split; [done|split; [done|]]].
  - apply (core_pages k T B O); [done|done|]. apply (acct_grow _ _ _ _ UOther (fun q => q = p) Hac).
    + done.
    + intros q [| | | |]; simpl; naive_solver.
    + intros q ->. by right.
  - intros Ho. apply Hn, (proj1 Hac). by exists UOther.
Qed.

Lemma core_give k T B O p : core k T B O -> O p ->
  exists a', pa_free p (pages k) = Some a' /\ core (with_pages a' k) T B (fun q => O q /\ q <> p).
Proof.
  intros Hc Hp. pose proof (co_acct _ _ _ _ Hc) as Hac. pose proof Hac as [Hh Hf].
  destruct (pa_free_ok (pages k) p (core_ok _ _ _ _ Hc)) as (a' & Ha & Hok & Hh'); [apply Hh; by exists UOther|].
  exists a'. split; [done|]. apply (core_pages k T B O); [done|done|].
  apply (acct_shrink _ _ _ _ (fun q => q = p) Hac); [done|]. intros q u. split.
  - intros Hq. assert (Hq' : claims (heap k) (vmem k) T B O q u) by (destruct u; simpl in *; tauto).
    split; [done|]. intros ->. pose proof (Hf p u UOther Hq' Hp) as ->. simpl in Hq. tauto.
  - destruct u; simpl; tauto.
Qed.

(** *** The slabs *)

Lemma core_slab_alloc k T B O sz r h' a' : core k T B O -> Slab.wf HHDM_START h' a' ->
  SlabRun.given HHDM_START (heap k) h' (pages k) a' (Slab.size_to_index sz) r ->
  core (with_heap h' (with_pages a' k)) T B O.
Proof.
  intros Hc Hw Hg. assert (Hac : acct a' (claims h' (vmem k) T B O)).
  { apply (acct_grow (pages k) _ _ _ UHeap (Slab.owns HHDM_START h') (co_acct _ _ _ _ Hc)).
    - apply Hg.
    - intros q [| | | |]; simpl; [|naive_solver..]. pose proof (SlabRun.gi_mono _ _ _ _ _ _ _ Hg q). naive_solver.
    - apply Hg. }
  pose proof Hac as [Hh _]. destruct Hc as [H1 H2 H3 H4 H5 H6 H7 H8].
  split; unfold with_heap, with_pages, pages; simpl; try done.
  - apply (vmem_frame _ (pages k)); [done|apply Hw|]. intros q Hq. apply Hh. by exists USeg.
  - apply map_frame; [done|apply Hw| |done]. intros p t Hp. apply Hh. exists UTable. by exists p.
Qed.

Lemma core_slab_free k T B O i ptr kept h' a' : core k T B O -> Slab.wf HHDM_START h' a' ->
  SlabRun.taken HHDM_START (heap k) h' (pages k) a' i ptr kept -> core (with_heap h' (with_pages a' k)) T B O.
Proof.
  intros Hc Hw Ht. pose proof (co_acct _ _ _ _ Hc) as Hac0. assert (Hac : acct a' (claims h' (vmem k) T B O)).
  { apply (acct_shrink (pages k) _ _ _ (fun q => Slab.owns HHDM_START (heap k) q /\ ~ Slab.owns HHDM_START h' q) Hac0).
    - intros q. rewrite (SlabRun.ta_held _ _ _ _ _ _ _ _ Ht). pose proof (SlabRun.ta_owns _ _ _ _ _ _ _ _ Ht q) as Ho.
      assert (Hd : Slab.owns HHDM_START h' q \/ ~ Slab.owns HHDM_START h' q)
        by (unfold Slab.owns; destruct (Slab.headers h' !! _); [left; eauto|right; by intros []]). tauto.
    - intros q u. pose proof (SlabRun.ta_owns _ _ _ _ _ _ _ _ Ht q) as Ho.
      assert (Hd : Slab.owns HHDM_START h' q \/ ~ Slab.owns HHDM_START h' q)
        by (unfold Slab.owns; destruct (Slab.headers h' !! _); [left; eauto|right; by intros []]).
      assert (Hx : u <> UHeap -> claims (heap k) (vmem k) T B O q u -> ~ Slab.owns HHDM_START (heap k) q)
        by (intros Hu H1 H2; by apply Hu, (proj2 Hac0 q u UHeap)).
      destruct u; simpl in *; [tauto|..]; (split; [intros H; split; [done|]; specialize (Hx ltac:(done) H); tauto|tauto]). }
  pose proof Hac as [Hh _]. destruct Hc as [H1 H2 H3 H4 H5 H6 H7 H8].
  split; unfold with_heap, with_pages, pages; simpl; try done.
  - apply (vmem_frame _ (pages k)); [done|apply Hw|]. intros q Hq. apply Hh. by exists USeg.
  - apply map_frame; [done|apply Hw| |done]. intros p t Hp. apply Hh. exists UTable. by exists p.
Qed.

(** *** The address allocator *)

Lemma page_div64 : (PAGE_SIZE | 2 ^ 64).
Proof. by exists (2 ^ 52). Qed.

Lemma alignup_div sz : (PAGE_SIZE | ALIGNUP sz PAGE_SIZE).
Proof.
  unfold ALIGNUP. change PAGE_SIZE with (2 ^ 12). rewrite land_lnot_low by (try lia; apply u64_bound).
  apply Z.divide_factor_r.
Qed.

Lemma alignup_page sz : 0 < sz -> sz + PAGE_SIZE <= 2 ^ 64 ->
  sz <= ALIGNUP sz PAGE_SIZE < sz + PAGE_SIZE /\ 0 < ALIGNUP sz PAGE_SIZE.
Proof.
  intros H1 H2. change PAGE_SIZE with (2 ^ 12) in *. rewrite ALIGNUP_spec by lia.
  pose proof (Z.div_mod (sz + (2 ^ 12 - 1)) (2 ^ 12)). pose proof (Z.mod_pos_bound (sz + (2 ^ 12 - 1)) (2 ^ 12)). lia.
Qed.

Lemma space_same v v' : VMemAlloc.same_config v v' -> VMemPages.aligned PAGE_SIZE v' -> space_ok v -> space_ok v'.
Proof. intros (E1 & E2 & E3) Ha [? ? ? ? ? ?]. split; rewrite ?E1, ?E2, ?E3; done. Qed.

Lemma core_vmem k T B O v' a' : core k T B O -> VMemAlloc.wf v' a' -> VMemAlloc.same_config (vmem k) v' ->
  VMemPages.aligned PAGE_SIZE v' -> acct a' (claims (heap k) v' T B O) ->
  core (with_vmem v' (with_pages a' k)) T B O.
Proof.
  intros Hc Hw Hsc Hal Hac. pose proof Hac as [Hh _]. pose proof Hw as (_ & (Hok & _) & _).
  destruct Hc as [H1 H2 H3 H4 H5 H6 H7 H8]. pose proof Hsc as (E1 & E2 & _).
  split; unfold with_vmem, with_pages, pages, in_space; simpl; try done.
  - apply (SlabRun.wf_frame _ _ (pages k)); [done|done|]. intros q Hq. apply Hh. by exists UHeap.
  - apply map_frame; [done|done| |done]. intros p t Hp. apply Hh. exists UTable. by exists p.
  - by eapply space_same.
  - rewrite E1, E2. done.
  - rewrite E1, E2. done.
Qed.

Lemma core_xalloc k T B O sz r v' a' : core k T B O -> VMem.xalloc sz 0 0 (vmem k) (pages k) = Some (r, v', a') ->
  core (with_vmem v' (with_pages a' k)) T B O /\ (PAGE_SIZE | r).
Proof.
  intros Hc Hx. pose proof (co_vmem _ _ _ _ Hc) as Hw. pose proof (co_space _ _ _ _ Hc) as Hsp.
  destruct (VMemAlloc.xalloc_spec _ _ sz 0 0 Hw ltac:(lia) ltac:(lia)) as (r1 & v1 & a1 & Hx1 & Hw1 & Hsc & _).
  rewrite Hx1 in Hx. injection Hx as -> -> ->. pose proof Hw as (_ & (Hok & _) & Hh & _).
  destruct (VMemPages.xalloc_took PAGE_SIZE page_div64 sz (vmem k) (pages k) r v' a') as [Ht Hr];
    [done|apply Hsp|rewrite (sp_quantum _ Hsp); apply alignup_div|exact Hx1|].
  split; [|done]. apply core_vmem; [done|done|done|by apply (VMemPages.tk_aligned _ _ _ _ _ Ht), Hsp|].
  apply (acct_grow (pages k) _ _ _ USeg (fun q => q ∈ VMem.seg_page_list v') (co_acct _ _ _ _ Hc)).
  - apply Ht.
  - intros q u. pose proof (VMemPages.tk_mono _ _ _ _ _ Ht q). destruct u; simpl; naive_solver.
  - apply Ht.
Qed.

Lemma core_xfree k T B O ptr sz v' : core k T B O -> VMem.xfree ptr sz (vmem k) = Some v' ->
  VMemAlloc.wf v' (pages k) -> VMemAlloc.same_config (vmem k) v' -> core (with_vmem v' k) T B O.
Proof.
  intros Hc Hx Hw Hsc. pose proof (VMemPages.xfree_tame PAGE_SIZE page_div64 _ _ _ _ Hx) as [Hp _ Ha].
  pose proof (core_vmem k T B O v' (pages k) Hc Hw Hsc (Ha (sp_aligned _ (co_space _ _ _ _ Hc)))) as Hv.
  destruct k as [h v rs [m pmm al]]. apply Hv. pose proof (co_acct _ _ _ _ Hc) as [Hh Hf].
  assert (HC : forall q u, claims h v' T B O q u <-> claims h v T B O q u) by (intros q []; simpl in *; by rewrite ?Hp).
  split; [intros q; rewrite Hh; by setoid_rewrite HC|]. intros q u u'. rewrite !HC. apply Hf.
Qed.

(** *** The page tables *)

Lemma visible_same (s s' : Paging.state (A := A)) virt phys flags :
  (forall v, PagingInv.path v = PagingInv.path virt -> sees s' v = sees s v) ->
  visible s virt phys flags -> visible s' virt phys flags.
Proof. intros Hs Hv v E. rewrite Hs by done. by apply Hv. Qed.

(** Two pages of the space are the same page only when they are equal. *)
Lemma space_path v x y : space_ok v -> in_space v x -> in_space v y -> (PAGE_SIZE | x) -> (PAGE_SIZE | y) ->
  PagingInv.path x = PagingInv.path y -> x = y.
Proof. intros [_ _ ? ? ? _] [? ?] [? ?] Hx Hy. apply path_inj; try done; lia. Qed.

Lemma core_map k T B O p virt flags cm : core k T B O -> O p -> (PAGE_SIZE | p) -> 0 < p < 2 ^ 52 ->
  in_space (vmem k) virt -> (PAGE_SIZE | virt) -> B !! virt = None -> Paging.pf_and flags Paging.PF_Read = true ->
  exists (ok : bool) m T', Paging.map virt p flags cm (page_map k) = Some (ok, m) /\
    if ok then core (with_map m k) T' (<[virt := (p, flags)]> B) (fun q => O q /\ q <> p)
    else core (with_map m k) T' B O /\ PagingInv.no_pages (pages (with_map m k)).
Proof.
  intros Hc Hp Hd Hr Hin Hv HB Hrd. pose proof Hc as [H1 H2 H3 H4 H5 H6 H7 H8].
  destruct (PagingInv.map_spec (page_map k) T virt p flags cm H3 (PagingInv.page_mask _ Hd ltac:(lia)) (H7 _ Hin))
    as (ok & m & T' & Hm & W & El & Hother & Hfail & Hthis & Hg & Hlg).
  exists ok, m, T'. split; [done|]. destruct Hg as [Gsub Gnew Gheld Gused].
  assert (Hac : acct (Paging.alloc m) (claims (heap k) (vmem k) T' B O)).
  { apply (acct_grow (pages k) _ _ _ UTable (fun q => exists p, T' !! p = Some q) H5).
    - done.
    - intros q u. destruct u; simpl; [naive_solver..| |naive_solver|naive_solver].
      split; [tauto|]. intros [[x Hx]|[_ ?]]; [|done]. exists x. by eapply lookup_weaken.
    - intros q [x Hx]. destruct (Gnew x q Hx) as [?|?]; [left; by exists x|by right]. }
  pose proof Hac as [Hh Hf].
  assert (Hbase : forall B' O', acct (Paging.alloc m) (claims (heap k) (vmem k) T' B' O') ->
    (forall x phys fl, B' !! x = Some (phys, fl) -> (PAGE_SIZE | x) /\ in_space (vmem k) x /\ visible m x phys fl) ->
    core (with_map m k) T' B' O').
  { intros B' O' Hac' Hvis. split; unfold with_map, pages; simpl; try done.
    - apply (SlabRun.wf_frame _ _ (pages k)); [done|apply W|]. intros q Hq. apply Hh. by exists UHeap.
    - apply (vmem_frame _ (pages k)); [done|apply W|]. intros q Hq. apply Hh. by exists USeg.
    - intros q Hq. destruct (Gused q Hq) as [Hq'|?]; [|done]. destruct (H4 q Hq') as [x Hx]. exists x. by eapply lookup_weaken.
    - intros x Hx. rewrite El, Hlg. by apply H7. }
  destruct ok.
  - apply Hbase.
    + apply (acct_move (Paging.alloc m) _ _ p UOther (UBack virt) Hac Hp). intros q u.
      assert (Hno : forall x fl, B !! x = Some (p, fl) -> False).
      { intros x fl Hx. discriminate (Hf p (UBack x) UOther ltac:(by exists fl) Hp). }
      destruct u as [| | |x|]; simpl.
      * assert (Slab.owns HHDM_START (heap k) p -> False) by (intros Hq; discriminate (Hf p UHeap UOther Hq Hp)). naive_solver.
      * assert (p ∈ VMem.seg_page_list (vmem k) -> False) by (intros Hq; discriminate (Hf p USeg UOther Hq Hp)). naive_solver.
      * assert ((exists y, T' !! y = Some p) -> False) by (intros Hq; discriminate (Hf p UTable UOther Hq Hp)).
        split; [|naive_solver]. intros Hq. left. split; [|done]. by intros ->.
      * setoid_rewrite lookup_insert_Some. split; [|naive_solver]. intros (fl & [[<- [= <- <-]]|[Hne Hx]]); [by right|].
        left. split; [|by exists fl]. intros ->. by eapply Hno.
      * naive_solver.
    + intros x phys fl [[<- [= <- <-]]|[Hne Hx]]%lookup_insert_Some.
      * split; [done|]. split; [done|]. intros v E. eexists. rewrite El, (Hthis eq_refl v E). unfold PagingInv.seen_as. by rewrite Hrd.
      * destruct (H8 x phys fl Hx) as (Hxd & Hxi & Hxv). split; [done|]. split; [done|].
        eapply visible_same; [|exact Hxv]. intros v E. rewrite El. apply Hother. right. rewrite E. intros E'.
        apply Hne. symmetry. by apply (space_path (vmem k)).
  - split; [|by apply Hfail]. apply Hbase; [done|]. intros x phys fl Hx. destruct (H8 x phys fl Hx) as (Hxd & Hxi & Hxv).
    split; [done|]. split; [done|]. eapply visible_same; [|exact Hxv]. intros v _. rewrite El. apply Hother. by left.
Qed.

Lemma page_low virt : (PAGE_SIZE | virt) -> Z.land virt 0xFFF = 0.
Proof.
  intros [m ->]. change 0xFFF with (Z.ones 12). rewrite Z.land_ones by lia. by apply Z_mod_mult.
Qed.

Lemma unback_ok k T B O virt phys flags : core k T B O -> B !! virt = Some (phys, flags) ->
  exists k', unback virt k = Some k' /\ core k' T (delete virt B) O /\
    heap k' = heap k /\ vmem k' = vmem k /\ regions k' = regions k.
Proof.
  intros Hc HB. pose proof Hc as [H1 H2 H3 H4 H5 H6 H7 H8]. destruct (H8 _ _ _ HB) as (Hd & Hin & Hvis).
  destruct (Hvis virt eq_refl) as [user Hs]. unfold unback.
  destruct (PagingInv.get_phys_spec (page_map k) T virt H3) as (x & -> & Hx). cbn [mbind option_bind].
  specialize (Hx _ Hs). cbn [PagingInv.a_phys] in Hx. rewrite page_low, Z.lor_0_r in Hx by done. subst x.
  destruct (PagingInv.unmap_spec (page_map k) T virt H3) as (m & -> & W & Epm & Eal & Hother & _ & Hthis & Hlg).
  cbn [mbind option_bind].
  destruct (pa_free_ok (pages (with_map m k)) phys) as (a' & Ha & Hok & Hh').
  { apply W. }
  { unfold pages, with_map. simpl. rewrite Eal. apply (proj1 H5). exists (UBack virt). by exists flags. }
  rewrite Ha. cbn [mbind option_bind]. eexists. split; [done|].
  unfold pages, with_map in Hh'. simpl in Hh'. rewrite Eal in Hh'. destruct H5 as [Hh Hf].
  assert (Hac : acct a' (claims (heap k) (vmem k) T (delete virt B) O)).
  { apply (acct_shrink (pages k) _ _ _ (fun q => q = phys) (conj Hh Hf)); [done|]. intros q u.
    assert (Hu : forall u, claims (heap k) (vmem k) T B O phys u -> u = UBack virt)
      by (intros u' Hu'; apply (Hf phys u' (UBack virt) Hu'); by exists flags).
    destruct u as [| | |y|]; simpl.
    5: { split; [|tauto]. intros Hq. split; [done|]. intros ->. discriminate (Hu UOther Hq). }
    4: { setoid_rewrite lookup_delete_Some. split.
         - intros (fl & Hne & Hy). split; [eauto|]. intros ->. assert (Hy' : UBack y = UBack virt) by (apply Hu; by exists fl). congruence.
         - intros [[fl Hy] Hne]. exists fl. split; [|done]. intros ->. congruence. }
    - split; [|tauto]. intros Hq. split; [done|]. intros ->. discriminate (Hu UHeap Hq).
    - split; [|tauto]. intros Hq. split; [done|]. intros ->. discriminate (Hu USeg Hq).
    - split; [|tauto]. intros Hq. split; [done|]. intros ->. discriminate (Hu UTable Hq). }
  split; [|done]. pose proof Hac as [Hh2 _]. split; unfold with_map, with_pages, pages; simpl; try done.
  - apply (SlabRun.wf_frame _ _ (pages k)); [done|done|]. intros q Hq. apply Hh2. by exists UHeap.
  - apply (vmem_frame _ (pages k)); [done|done|]. intros q Hq. apply Hh2. by exists USeg.
  - apply map_frame; [done|done| |by rewrite Epm]. intros p t Hp. apply Hh2. exists UTable. by exists p.
  - by rewrite Epm.
  - intros y Hy. rewrite Epm, Hlg. by apply H7.
  - intros y p fl [Hne Hy]%lookup_delete_Some. destruct (H8 y p fl Hy) as (Hyd & Hyi & Hyv). split; [done|]. split; [done|].
    intros v E. rewrite Epm, Hother; [by apply Hyv|]. rewrite E. intros E'. apply Hne. symmetry. by apply (space_path (vmem k)).
Qed.

(** The pages of a range. *)
Definition page_of (virt : Z) (n : nat) (x : Z) : Prop := exists j : nat, (j < n)%nat /\ x = virt + Z.of_nat j * PAGE_SIZE.

Lemma page_of_S virt n x : page_of virt (S n) x <-> x = virt \/ page_of (virt + PAGE_SIZE) n x.
Proof.
  split.
  - intros ([|j] & Hj & ->); [left; lia|]. right. exists j. split; [lia|]. lia.
  - intros [->|(j & Hj & ->)]; [exists 0%nat; lia|]. exists (S j). lia.
Qed.

#[global] Instance page_of_dec virt n x : Decision (page_of virt n x).
Proof.
  revert virt. induction n as [|n IH]; intros virt; [right; by intros (j & ? & _); lia|].
  destruct (decide (x = virt)) as [->|Hne]; [left; by apply page_of_S; left|].
  destruct (IH (virt + PAGE_SIZE)) as [Hy|Hn]; [left; by apply page_of_S; right|].
  right. rewrite page_of_S. tauto.
Qed.

Lemma unback_loop_ok n : forall k T B O virt, core k T B O -> 0 <= virt -> virt + Z.of_nat n * PAGE_SIZE < 2 ^ 64 ->
  (forall x, page_of virt n x -> is_Some (B !! x)) ->
  exists k' B', unback_loop n virt k = Some k' /\ core k' T B' O /\
    heap k' = heap k /\ vmem k' = vmem k /\ regions k' = regions k /\
    forall x, B' !! x = if decide (page_of virt n x) then None else B !! x.
Proof.
  induction n as [|n IH]; intros k T B O virt Hc H0 Hend HB.
  { exists k, B. split_and!; try done. intros x. rewrite decide_False; [done|]. intros (j & ? & _). lia. }
  destruct (HB virt) as [[phys fl] Hv]; [apply page_of_S; by left|].
  destruct (unback_ok k T B O virt phys fl Hc Hv) as (k1 & Hk1 & Hc1 & Eh & Ev & Er).
  cbn [unback_loop]. rewrite Hk1. cbn [mbind option_bind]. unfold PAGE_SIZE in *.
  unfold add64. rewrite u64_small by lia.
  assert (Hnot : forall x, page_of (virt + 0x1000) n x -> x <> virt) by (intros x (j & _ & ->); unfold PAGE_SIZE; lia).
  destruct (IH k1 T (delete virt B) O (virt + 0x1000) Hc1) as (k' & B' & Hk' & Hc' & Eh' & Ev' & Er' & HB').
  - lia.
  - lia.
  - intros x Hx. rewrite lookup_delete_ne by (by apply not_eq_sym, Hnot). apply HB, page_of_S. by right.
  - exists k', B'. split_and!; [done|done|congruence..|]. intros x. rewrite HB'.
    destruct (decide (page_of (virt + 0x1000) n x)) as [Hx|Hx].
    + rewrite decide_True; [done|]. apply page_of_S. by right.
    + destruct (decide (x = virt)) as [->|Hne].
      * rewrite lookup_delete_eq, decide_True; [done|]. apply page_of_S. by left.
      * rewrite lookup_delete_ne, decide_False by (done || (rewrite page_of_S; tauto)). done.
Qed.

End Pages.
End VSpaceInv.

(** * What the kernel's address space and heap promise

    [alloc_backed] and [free_backed] over all four components: on success every
    page of the range is mapped to a page of its own, on failure everything is
    undone.  On top of them the kernel heap: [alloc] and [free] refine an
    allocator of disjoint objects. *)

Module VSpaceRun.
Import VSpace VSpaceInv.

Lemma list_remove_sublist {X} `{EqDecision X} (x : X) l : forall l', list_remove x l = Some l' -> l' `sublist_of` l.
Proof.
  induction l as [|y l IH]; intros l' H; [discriminate H|]. cbn [list_remove] in H. case_decide.
  - injection H as <-. by apply sublist_cons.
  - destruct (list_remove x l) as [l1|]; [|discriminate H]. injection H as <-. by apply sublist_skip, IH.
Qed.

Lemma list_remove_fmap {X Y} `{EqDecision X} (f : X -> Y) x l l' : list_remove x l = Some l' ->
  NoDup (f <$> l) -> NoDup (f <$> l').
Proof. intros H Hn. eapply sublist_NoDup; [exact Hn|]. by eapply fmap_sublist, list_remove_sublist. Qed.

Section Pages.
Context {A : Type} {PA : PageAlloc A}.
Variables HHDM_START PHYS_END : Z.
Hypothesis hhdm_page : (PAGE_SIZE | HHDM_START).
Hypothesis hhdm_range : 0 <= HHDM_START /\ HHDM_START + PHYS_END <= 2 ^ 64.
Hypothesis phys_end : forall (a : A) q, pa_ok a -> pa_held a q -> q + PAGE_SIZE <= PHYS_END.

Notation core := (core HHDM_START PHYS_END).

(** The size class of the nodes. *)
Definition NODE_CLASS : Z := 2.

Definition pages_of (sz : Z) : nat := Z.to_nat (ALIGNUP sz PAGE_SIZE / PAGE_SIZE).

(** The regions are the allocated ranges, their nodes are objects of the heap,
    and backed pages lie in them. *)
Record regions_ok (k : kmem (A := A)) (B : gmap Z (Z * Z)) : Prop := {
  rg_bases : NoDup (base <$> regions k);
  rg_nodes : NoDup (reg_node <$> regions k);
  rg_range : forall r, r ∈ regions k -> VMemAlloc.allocated (vmem k) (base r) (ALIGNUP (size r) PAGE_SIZE);
  rg_live : forall r, r ∈ regions k -> Slab.live (heap k) NODE_CLASS (reg_node r);
  rg_all : forall b n, VMemAlloc.allocated (vmem k) b n -> exists r, r ∈ regions k /\ base r = b;
  rg_back : forall x, is_Some (B !! x) ->
    exists r, r ∈ regions k /\ base r <= x < base r + ALIGNUP (size r) PAGE_SIZE;
  rg_size : forall r, r ∈ regions k -> 0 < size r /\ size r + PAGE_SIZE <= 2 ^ 64
}.

Lemma pages_of_eq sz : 0 < sz -> sz + PAGE_SIZE <= 2 ^ 64 ->
  Z.of_nat (pages_of sz) * PAGE_SIZE = ALIGNUP sz PAGE_SIZE.
Proof.
  intros H1 H2. pose proof (alignup_page sz H1 H2). destruct (alignup_div sz) as [m E]. unfold pages_of. rewrite E in *.
  unfold PAGE_SIZE in *. rewrite Z.div_mul by lia. lia.
Qed.

(** The pages of a range are the multiples of the page size in it. *)
Lemma page_of_range r sz x : 0 < sz -> sz + PAGE_SIZE <= 2 ^ 64 -> (PAGE_SIZE | r) ->
  page_of r (pages_of sz) x <-> (PAGE_SIZE | x) /\ r <= x < r + ALIGNUP sz PAGE_SIZE.
Proof.
  intros H1 H2 [m ->]. rewrite <- (pages_of_eq sz H1 H2). unfold page_of, PAGE_SIZE. split.
  - intros (j & Hj & ->). split; [exists (m + Z.of_nat j); lia|lia].
  - intros [[n ->] Hn]. exists (Z.to_nat (n - m)). lia.
Qed.

Lemma node_class : Slab.size_to_index REGION_SIZE = NODE_CLASS.
Proof. reflexivity. Qed.

(** Allocated ranges with the same start are the same. *)
Lemma allocated_inj v (a : A) b n m : VMemAlloc.wf v a -> VMemAlloc.allocated v b n -> VMemAlloc.allocated v b m -> n = m.
Proof.
  intros Hw H1 H2. pose proof (VMemRun.wf_bounds _ _ _ _ Hw H1). pose proof (VMemRun.wf_bounds _ _ _ _ Hw H2).
  destruct (VMemRun.wf_disjoint _ _ _ _ _ _ Hw H1 H2) as [[_ ?]|?]; [done|lia].
Qed.

(** ** VirtualSpace::alloc *)

Lemma vspace_alloc_ok k T B O sz : core k T B O -> regions_ok k B -> 0 < sz -> sz + PAGE_SIZE <= 2 ^ 64 ->
  (vspace_alloc HHDM_START sz k = None /\ SlabRun.full (heap k) NODE_CLASS) \/
  exists r k', vspace_alloc HHDM_START sz k = Some (r, k') /\ core k' T B O /\ regions_ok k' B /\
    (r = 0 /\ regions k' = regions k /\ heap k' = heap k \/
     0 < r /\ (PAGE_SIZE | r) /\ VMem._base (vmem k') <= r /\
     r + ALIGNUP sz PAGE_SIZE <= VMem._base (vmem k') + VMem._size (vmem k') /\
     (forall x, r <= x < r + ALIGNUP sz PAGE_SIZE -> B !! x = None) /\
     exists node, regions k' = mkRegion node r sz :: regions k /\
       (forall j p, Slab.live (heap k') j p <-> Slab.live (heap k) j p \/ j = NODE_CLASS /\ p = node) /\
       (forall j, ~ Slab.live (heap k) j node)).
Proof.
  intros Hc Hrg Hsz Hmax. pose proof (co_space _ _ _ _ _ _ Hc) as Hsp. pose proof (co_vmem _ _ _ _ _ _ Hc) as Hw.
  destruct (VMemAlloc.xalloc_spec _ _ sz 0 0 Hw ltac:(lia) ltac:(lia)) as (r & v' & a' & Hx & Hw' & Hsc & Hr).
  destruct (core_xalloc HHDM_START PHYS_END k T B O sz r v' a' Hc Hx) as [Hc1 Hd]. rewrite (sp_quantum _ _ _ Hsp) in Hr. cbv zeta in Hr.
  unfold vspace_alloc. rewrite Hx. cbn [mbind option_bind]. destruct Hsc as (Eb & Es & Eq).
  destruct Hr as [(-> & Hal & _ & _)|(Hn & Hpos & _ & _ & (b0 & m0 & Hav & Hb0 & Hm0) & Hal)].
  { right. exists 0. eexists. split; [done|]. split; [done|]. split; [|by left].
    destruct Hrg as [R1 R2 R3 R4 R5 R6 R7]. split; simpl; try done; [intros x Hx'; by apply Hal, R3|intros b n Hbn; by apply Hal in Hbn; eauto]. }
  replace (r =? 0) with false by lia. set (k1 := with_vmem v' (with_pages a' k)) in *.
  destruct (SlabRun.slab_alloc_ok HHDM_START PHYS_END hhdm_page hhdm_range phys_end (heap k1) (pages k1) REGION_SIZE
    (co_heap _ _ _ _ _ _ Hc1) ltac:(unfold REGION_SIZE; lia)) as (node & h2 & a2 & Hsl & Hw2 & Hres).
  unfold new_region. rewrite Hsl. cbn [mbind option_bind].
  destruct Hres as [(-> & _ & _ & Hfull & _)|Hg]; [left; split; [done|by rewrite node_class in Hfull]|].
  right. replace (node =? 0) with false by (pose proof (SlabRun.gi_pos _ _ _ _ _ _ _ Hg); lia).
  cbn [negb assert mbind option_bind]. eexists r, _. split; [done|].
  pose proof (core_slab_alloc HHDM_START PHYS_END k1 T B O REGION_SIZE node h2 a2 Hc1 Hw2 Hg) as Hc2. rewrite node_class in Hg.
  pose proof (SlabRun.gi_live _ _ _ _ _ _ _ Hg) as Hlv. pose proof (SlabRun.gi_new _ _ _ _ _ _ _ Hg) as Hnew.
  assert (Hdisj : forall rg, rg ∈ regions k -> base rg + ALIGNUP (size rg) PAGE_SIZE <= r \/ r + ALIGNUP sz PAGE_SIZE <= base rg).
  { intros rg Hin. pose proof (VMemRun.wf_available_disjoint _ _ _ _ _ _ Hw (rg_range _ _ Hrg rg Hin) Hav). lia. }
  assert (Ha : VMemAlloc.allocated v' r (ALIGNUP sz PAGE_SIZE)) by (apply Hal; by right).
  pose proof (VMemRun.wf_bounds _ _ _ _ Hw' Ha) as (Hlo & _ & Hhi).
  split; [by destruct Hc2|]. split; [|right].
  - destruct Hrg as [R1 R2 R3 R4 R5 R6 R7]. split; simpl.
    + apply NoDup_cons. split; [|done]. intros (rg & E & Hin)%list_elem_of_fmap.
      pose proof (VMemRun.wf_bounds _ _ _ _ Hw (R3 rg Hin)). destruct (Hdisj rg Hin); lia.
    + apply NoDup_cons. split; [|done]. intros (rg & E & Hin)%list_elem_of_fmap.
      apply (Hnew NODE_CLASS). rewrite E. apply (R4 rg Hin).
    + intros rg [->|Hin]%elem_of_cons; [done|]. apply Hal. left. by apply R3.
    + intros rg [->|Hin]%elem_of_cons; apply Hlv; [by right|left]. apply (R4 rg Hin).
    + intros b n Hbn. apply Hal in Hbn as [Hbn|[-> _]]; [|eexists; split; [left|done]].
      destruct (R5 b n Hbn) as (rg & ? & ?). exists rg. split; [by right|done].
    + intros x Hx'. destruct (R6 x Hx') as (rg & ? & ?). exists rg. split; [by right|done].
    + intros rg [->|Hin]%elem_of_cons; [done|auto].
  - split_and!; [done|done|done|done| |].
    + intros x Hx'. apply eq_None_not_Some. intros HB. destruct (rg_back _ _ Hrg x HB) as (rg & Hin & ?).
      destruct (Hdisj rg Hin); lia.
    + exists node. split_and!; [done|exact Hlv|exact Hnew].
Qed.

(** ** VirtualSpace::free *)

Lemma find_region (l : list Region) rg : NoDup (base <$> l) -> rg ∈ l ->
  exists i, list_find (fun r => base r = base rg) l = Some (i, rg).
Proof.
  intros Hnd Hin. apply list_elem_of_lookup_1 in Hin as [i Hi]. exists i. apply list_find_Some.
  split_and!; [done|done|]. intros j y Hj Hlt E.
  assert (j = i); [|lia]. apply (NoDup_lookup (base <$> l) j i (base rg) Hnd); rewrite list_lookup_fmap.
  - rewrite Hj. simpl. by rewrite E.
  - by rewrite Hi.
Qed.

Lemma vspace_free_ok k T B O rg : core k T B O -> regions_ok k B -> rg ∈ regions k ->
  (forall x, base rg <= x < base rg + ALIGNUP (size rg) PAGE_SIZE -> B !! x = None) ->
  exists k', vspace_free HHDM_START (base rg) (size rg) k = Some k' /\ core k' T B O /\ regions_ok k' B /\
    (forall r, r ∈ regions k' <-> r ∈ regions k /\ r <> rg) /\
    (forall j p, Slab.live (heap k') j p <-> Slab.live (heap k) j p /\ p <> reg_node rg).
Proof.
  intros Hc Hrg Hin Hempty. pose proof (co_space _ _ _ _ _ _ Hc) as Hsp. pose proof (co_vmem _ _ _ _ _ _ Hc) as Hw.
  pose proof (rg_range _ _ Hrg rg Hin) as Hal0. unfold vspace_free.
  destruct (VMemAlloc.xfree_spec _ _ (base rg) (size rg) Hw) as [(n & Ha & Hok & _)|(Hno & _)]; [|by destruct (Hno _ Hal0)].
  rewrite (sp_quantum _ _ _ Hsp) in Hok. destruct (Hok (allocated_inj _ _ _ _ _ Hw Ha Hal0)) as (v' & Hx & Hw' & Hsc & Hal).
  rewrite Hx. cbn [mbind option_bind]. pose proof (core_xfree HHDM_START PHYS_END k T B O _ _ v' Hc Hx Hw' Hsc) as Hc1.
  destruct (find_region (regions k) rg (rg_bases _ _ Hrg) Hin) as [i Hf]. cbn [regions with_vmem]. rewrite Hf.
  cbn [mbind option_bind].
  assert (Hndr : NoDup (regions k)) by (eapply NoDup_fmap_1, (rg_bases _ _ Hrg)).
  destruct (list_remove_elem rg (regions k) Hin Hndr) as (rs & Hrm & _ & Hrs). rewrite Hrm. cbn [mbind option_bind].
  rewrite Z.eqb_refl. cbn [assert mbind option_bind]. unfold delete_region. cbn [heap with_regions with_vmem].
  set (k1 := with_regions rs (with_vmem v' k)) in *.
  destruct (SlabRun.slab_free_ok HHDM_START PHYS_END hhdm_page hhdm_range phys_end (heap k) (pages k1) (reg_node rg) REGION_SIZE)
    as (kept & h2 & a2 & Hsl & Hw2 & Htk).
  { exact (co_heap _ _ _ _ _ _ Hc). }
  { unfold REGION_SIZE. lia. }
  { rewrite node_class. by apply (rg_live _ _ Hrg). }
  rewrite Hsl. cbn [mbind option_bind]. eexists. split; [done|].
  pose proof (core_slab_free HHDM_START PHYS_END (with_vmem v' k) T B O _ _ kept h2 a2 Hc1 Hw2 Htk) as Hc2.
  pose proof (SlabRun.ta_live _ _ _ _ _ _ _ _ Htk) as Hlv.
  split; [by destruct Hc2|]. split; [|split; [done|done]].
  assert (Hbase : forall r, r ∈ rs -> base r <> base rg).
  { intros r Hr. apply Hrs in Hr as [Hr Hne]. intros E. apply Hne.
    destruct (find_region (regions k) r (rg_bases _ _ Hrg) Hr) as [j Hj]. rewrite E, Hf in Hj. by injection Hj as _ ->. }
  assert (Hsub : forall r, r ∈ rs -> r ∈ regions k) by (intros r Hr; by apply Hrs in Hr as [? _]).
  assert (Hnode : forall r, r ∈ rs -> reg_node r <> reg_node rg).
  { intros r Hr E. apply Hrs in Hr as [Hr Hne]. apply Hne.
    apply list_elem_of_lookup_1 in Hr as [i1 Hi1]. apply list_elem_of_lookup_1 in Hin as [i2 Hi2].
    assert (i1 = i2) as ->; [|congruence].
    apply (NoDup_lookup (reg_node <$> regions k) i1 i2 (reg_node rg) (rg_nodes _ _ Hrg)); rewrite list_lookup_fmap.
    - rewrite Hi1. simpl. by rewrite E.
    - by rewrite Hi2. }
  destruct Hrg as [R1 R2 R3 R4 R5 R6 R7]. split; simpl.
  - by eapply list_remove_fmap.
  - by eapply list_remove_fmap.
  - intros r Hr. apply Hal. auto.
  - intros r Hr. apply Hlv. split; [apply R4; auto|auto].
  - intros b m Hbm. apply Hal in Hbm as [Hbm Hb]. destruct (R5 b m Hbm) as (r & Hr & <-). exists r. split; [|done].
    apply Hrs. split; [done|]. by intros ->.
  - intros x HB. destruct (R6 x HB) as (r & Hr & Hx'). exists r. split; [|done]. apply Hrs. split; [done|]. intros ->.
    rewrite Hempty in HB by done. by destruct HB.
  - auto.
Qed.

(** ** Backed ranges *)

Lemma regions_same k k' B B' : heap k' = heap k -> vmem k' = vmem k -> regions k' = regions k ->
  (forall x, is_Some (B' !! x) -> is_Some (B !! x) \/ exists r, r ∈ regions k /\ base r <= x < base r + ALIGNUP (size r) PAGE_SIZE) ->
  regions_ok k B -> regions_ok k' B'.
Proof.
  intros Eh Ev Er HB [R1 R2 R3 R4 R5 R6 R7]. split; rewrite ?Eh, ?Ev, ?Er; try done.
  intros x Hx. destruct (HB x Hx) as [?|?]; [auto|done].
Qed.

(** [B'] is [B] with memory behind the first [i] pages of the range at [vm]. *)
Definition extends (B B' : gmap Z (Z * Z)) (vm flags : Z) (i : nat) : Prop :=
  (forall x, ~ page_of vm i x -> B' !! x = B !! x) /\
  (forall x, page_of vm i x -> exists phys, B' !! x = Some (phys, flags)).

(** The region that is being backed. *)
Record target (k : kmem (A := A)) (B : gmap Z (Z * Z)) (rg : Region) : Prop := {
  tg_in : rg ∈ regions k;
  tg_page : (PAGE_SIZE | base rg);
  tg_size : 0 < size rg /\ size rg + PAGE_SIZE <= 2 ^ 64;
  tg_lo : VMem._base (vmem k) <= base rg;
  tg_hi : base rg + ALIGNUP (size rg) PAGE_SIZE <= VMem._base (vmem k) + VMem._size (vmem k);
  tg_none : forall x, base rg <= x < base rg + ALIGNUP (size rg) PAGE_SIZE -> B !! x = None
}.

Lemma page_of_mono vm i n x : (i <= n)%nat -> page_of vm i x -> page_of vm n x.
Proof. intros Hin (j & Hj & ->). exists j. split; [lia|done]. Qed.

Lemma page_of_last vm i x : page_of vm (S i) x <-> page_of vm i x \/ x = vm + Z.of_nat i * PAGE_SIZE.
Proof.
  split.
  - intros (j & Hj & ->). destruct (decide (j = i)) as [->|]; [by right|left; exists j; split; [lia|done]].
  - intros [(j & Hj & ->)| ->]; [exists j|exists i]; (split; [lia|done]).
Qed.

(** After the region's pages are unmapped the region is gone and nothing else. *)
Record undone (k k' : kmem (A := A)) (rg : Region) : Prop := {
  un_regions : forall r, r ∈ regions k' <-> r ∈ regions k /\ r <> rg;
  un_live : forall j p, Slab.live (heap k') j p <-> Slab.live (heap k) j p /\ p <> reg_node rg
}.

Lemma release_ok k T B B' O rg i : core k T B' O -> regions_ok k B' -> target k B rg ->
  (i <= pages_of (size rg))%nat -> (forall x, ~ page_of (base rg) i x -> B' !! x = B !! x) ->
  (forall x, page_of (base rg) i x -> is_Some (B' !! x)) ->
  exists k', (k ← unback_loop i (base rg) k; vspace_free HHDM_START (base rg) (size rg) k) = Some k' /\
    core k' T B O /\ regions_ok k' B /\ undone k k' rg.
Proof.
  intros Hc Hrg [Tin Tpg [Ts1 Ts2] Tlo Thi Tn] Hi Hx1 Hx2. pose proof (co_space _ _ _ _ _ _ Hc) as [_ _ ? ? _ _].
  pose proof (pages_of_eq _ Ts1 Ts2) as Epg.
  destruct (unback_loop_ok HHDM_START PHYS_END i k T B' O (base rg) Hc) as (k1 & B1 & -> & Hc1 & Eh & Ev & Er & HB1).
  - lia.
  - unfold PAGE_SIZE in *. nia.
  - done.
  - cbn [mbind option_bind]. assert (B1 = B) as ->.
    { apply map_eq. intros x. rewrite HB1. destruct (decide (page_of (base rg) i x)) as [Hx|Hx]; [|by apply Hx1].
      symmetry. apply Tn. apply (page_of_mono _ i (pages_of (size rg))), page_of_range in Hx; [tauto|done..]. }
    destruct (vspace_free_ok k1 T B O rg Hc1) as (k' & Hf & Hc' & Hrg' & Hr' & Hl').
    + apply (regions_same k _ B'); try done. intros x [y Hx]. left. destruct (decide (page_of (base rg) i x)) as [Hp|Hp].
      * by apply Hx2.
      * rewrite Hx1 by done. eauto.
    + by rewrite Er.
    + done.
    + exists k'. split; [done|]. split; [done|]. split; [done|]. rewrite Er in Hr'. rewrite Eh in Hl'. by split.
Qed.

Lemma cleanup_ok k T B B' O O' rg flags i phys : core k T B' O' -> regions_ok k B' -> target k B rg ->
  (i <= pages_of (size rg))%nat -> extends B B' (base rg) flags i ->
  (phys = 0 /\ (forall q, O' q <-> O q) \/ 0 < phys /\ ~ O phys /\ (forall q, O' q <-> O q \/ q = phys)) ->
  exists k', cleanup HHDM_START phys (base rg) (size rg) i k = Some (0, k') /\
    core k' T B O /\ regions_ok k' B /\ undone k k' rg.
Proof.
  intros Hc Hrg Htg Hi Hx Hp. unfold cleanup.
  assert (Hk1 : exists k1, (if phys =? 0 then Some k else a ← pa_free phys (pages k); Some (with_pages a k)) = Some k1 /\
    core k1 T B' O /\ heap k1 = heap k /\ vmem k1 = vmem k /\ regions k1 = regions k).
  { destruct Hp as [[-> HO]|(Hpos & Hno & HO)].
    - exists k. split_and!; try done. by eapply core_other; [|exact Hc].
    - replace (phys =? 0) with false by lia. destruct (core_give HHDM_START PHYS_END k T B' O' phys Hc) as (a & Ha & Hc1); [apply HO; by right|].
      rewrite Ha. eexists. split_and!; try done. eapply core_other; [|exact Hc1]. intros q. simpl. rewrite HO.
      split; [naive_solver|]. intros Hq. split; [by left|]. by intros ->. }
  destruct Hk1 as (k1 & -> & Hc1 & Eh & Ev & Er). cbn [mbind option_bind].
  destruct Hx as [Hx1 Hx2].
  destruct (release_ok k1 T B B' O rg i) as (k' & Hk' & Hc' & Hrg' & [Hu1 Hu2]); try done.
  - apply (regions_same k _ B'); try done. auto.
  - destruct Htg. split; rewrite ?Ev, ?Er; done.
  - intros x Hx. destruct (Hx2 x Hx) as [ph ->]. eauto.
  - destruct (unback_loop i (base rg) k1) as [k2|]; [|done]. cbn [mbind option_bind] in *. rewrite Hk'. cbn [mbind option_bind].
    exists k'. split; [done|]. split; [done|]. split; [done|]. rewrite Er in Hu1. rewrite Eh in Hu2. by split.
Qed.

(** The outcome of backing the region: all of its pages, or none and no region. *)
Definition backing (k k' : kmem (A := A)) (B B' : gmap Z (Z * Z)) (rg : Region) (flags r : Z) : Prop :=
  r = base rg /\ extends B B' (base rg) flags (pages_of (size rg)) /\
    heap k' = heap k /\ vmem k' = vmem k /\ regions k' = regions k \/
  r = 0 /\ B' = B /\ undone k k' rg.

Lemma back_loop_ok n : forall k T B B' O rg flags cm i, core k T B' O -> regions_ok k B' -> target k B rg ->
  (i + n = pages_of (size rg))%nat -> extends B B' (base rg) flags i -> Paging.pf_and flags Paging.PF_Read = true ->
  exists r k' T' B'', back_loop HHDM_START n (base rg) (size rg) flags cm i k = Some (r, k') /\
    core k' T' B'' O /\ regions_ok k' B'' /\ backing k k' B B'' rg flags r.
Proof.
  induction n as [|n IH]; intros k T B B' O rg flags cm i Hc Hrg Htg Hi Hx Hrd.
  { exists (base rg), k, T, B'. split_and!; try done. left. by replace (pages_of (size rg)) with i by lia. }
  pose proof Htg as [Tin Tpg [Ts1 Ts2] Tlo Thi Tn]. pose proof (co_space _ _ _ _ _ _ Hc) as [_ _ ? ? _ _].
  pose proof (pages_of_eq _ Ts1 Ts2) as Epg. cbn [back_loop]. cbv zeta.
  set (virt := base rg + Z.of_nat i * PAGE_SIZE).
  assert (Hvr : base rg <= virt < base rg + ALIGNUP (size rg) PAGE_SIZE) by (unfold virt, PAGE_SIZE in *; nia).
  assert (Ev : base rg ⊞ Z.of_nat i * PAGE_SIZE = virt) by (unfold add64; apply u64_small; fold virt; lia). rewrite Ev.
  destruct (pa_alloc (pages k)) as [[phys|] a] eqn:Ea.
  - destruct (core_take HHDM_START PHYS_END k T B' O phys a Hc Ea) as (Hc1 & Hpd & Hpr & Hno).
    assert (Hpv : ~ page_of (base rg) i virt) by (intros (j & Hj & E); unfold virt, PAGE_SIZE in E; lia).
    destruct (core_map HHDM_START PHYS_END (with_pages a k) T B' _ phys virt flags cm Hc1) as (ok & m & T1 & Hm & Hres); try done.
    + by right.
    + unfold in_space. simpl. lia.
    + unfold virt. apply Z.divide_add_r; [done|]. apply Z.divide_factor_r.
    + destruct Hx as [Hx1 _]. rewrite Hx1 by done. by apply Tn.
    + rewrite Hm. cbn [mbind option_bind]. change (with_map m (with_pages a k)) with (with_map m k) in Hres.
      destruct ok; cbn [negb].
      * destruct (IH (with_map m k) T1 B (<[virt := (phys, flags)]> B') O rg flags cm (S i)) as (r & k' & T' & B'' & ? & ? & ? & Hb).
        -- eapply core_other; [|exact Hres]. intros q. simpl. split; [naive_solver|]. intros Hq. split; [by left|]. by intros ->.
        -- apply (regions_same k _ B'); try done. intros x [y [[<- _]|[_ Hy]]%lookup_insert_Some]; [right; by exists rg|left; eauto].
        -- by split.
        -- lia.
        -- destruct Hx as [Hx1 Hx2]. split; intros x; rewrite page_of_last; fold virt.
           ++ intros Hnx. rewrite lookup_insert_ne by (intros <-; tauto). apply Hx1. tauto.
           ++ destruct (decide (x = virt)) as [->|Hne]; [intros _; exists phys; by rewrite lookup_insert_eq|].
              intros [Hp|?]; [|done]. rewrite lookup_insert_ne by done. by apply Hx2.
        -- done.
        -- exists r, k', T', B''. split; [done|]. split; [done|]. split; [done|].
           destruct Hb as [(? & ? & ? & ? & ?)|(? & ? & [Hu1 Hu2])]; [by left|right]. split; [done|]. split; [done|]. by split.
      * destruct Hres as [Hc2 _].
        destruct (cleanup_ok (with_map m k) T1 B B' O (fun q => O q \/ q = phys) rg flags i phys Hc2) as (k' & ? & ? & ? & [Hu1 Hu2]); try done.
        -- by apply (regions_same k _ B'); auto.
        -- lia.
        -- right. split; [lia|]. done.
        -- exists 0, k', T1, B. split; [done|]. split; [done|]. split; [done|]. right. split; [done|]. split; [done|]. by split.
  - pose proof (pa_alloc_ok _ (core_ok _ _ _ _ _ _ Hc)) as Hal. rewrite Ea in Hal. subst a.
    destruct (cleanup_ok (with_pages (pages k) k) T B B' O O rg flags i 0) as (k' & ? & ? & ? & [Hu1 Hu2]); try done.
    + by apply core_pages with (O := O); [|eapply core_ok|apply Hc].
    + by apply (regions_same k _ B'); auto.
    + lia.
    + by left.
    + exists 0, k', T, B. split; [done|]. split; [done|]. split; [done|]. right. split; [done|]. split; [done|]. by split.
Qed.

(** *** alloc_backed and free_backed *)

Lemma region_target k T B O rg : core k T B O -> regions_ok k B -> rg ∈ regions k ->
  (PAGE_SIZE | base rg) /\ VMem._base (vmem k) <= base rg /\
  base rg + ALIGNUP (size rg) PAGE_SIZE <= VMem._base (vmem k) + VMem._size (vmem k).
Proof.
  intros Hc Hrg Hin. pose proof (rg_range _ _ Hrg rg Hin) as Ha.
  pose proof (VMemRun.wf_bounds _ _ _ _ (co_vmem _ _ _ _ _ _ Hc) Ha) as (? & _ & ?). split; [|done].
  destruct Ha as (p & _ & Hp). destruct (sp_aligned _ _ _ (co_space _ _ _ _ _ _ Hc) _ _ Hp) as [Hd _]. exact Hd.
Qed.

(** What a successful [alloc_backed] adds. *)
Record backed (k k' : kmem (A := A)) (B B' : gmap Z (Z * Z)) (sz flags r node : Z) : Prop := {
  bk_pos : 0 < r;
  bk_page : (PAGE_SIZE | r);
  bk_lo : VMem._base (vmem k') <= r;
  bk_hi : r + ALIGNUP sz PAGE_SIZE <= VMem._base (vmem k') + VMem._size (vmem k');
  bk_none : forall x, r <= x < r + ALIGNUP sz PAGE_SIZE -> B !! x = None;
  bk_ext : extends B B' r flags (pages_of sz);
  bk_regions : regions k' = mkRegion node r sz :: regions k;
  bk_live : forall j p, Slab.live (heap k') j p <-> Slab.live (heap k) j p \/ j = NODE_CLASS /\ p = node;
  bk_node : forall j, ~ Slab.live (heap k) j node
}.

Lemma alloc_backed_ok k T B O sz flags cm : core k T B O -> regions_ok k B -> 0 < sz -> sz + PAGE_SIZE <= 2 ^ 64 ->
  Paging.pf_and flags Paging.PF_Read = true ->
  (alloc_backed HHDM_START sz flags cm k = None /\ SlabRun.full (heap k) NODE_CLASS) \/
  exists r k' T' B', alloc_backed HHDM_START sz flags cm k = Some (r, k') /\ core k' T' B' O /\ regions_ok k' B' /\
    (r = 0 /\ B' = B /\ (forall rg, rg ∈ regions k' <-> rg ∈ regions k) /\
       (forall j p, Slab.live (heap k') j p <-> Slab.live (heap k) j p) \/
     exists node, backed k k' B B' sz flags r node).
Proof.
  intros Hc Hrg Hsz Hmax Hrd. unfold alloc_backed.
  destruct (vspace_alloc_ok k T B O sz Hc Hrg Hsz Hmax) as [[-> Hf]|(r & k1 & -> & Hc1 & Hrg1 & Hr)]; [by left|right].
  cbn [mbind option_bind]. destruct Hr as [(-> & Er & Eh)|(Hpos & Hd & Hlo & Hhi & Hn & node & Er & Hlv & Hnew)].
  { exists 0, k1, T, B. rewrite Er, Eh. split_and!; try done. left. done. }
  replace (r =? 0) with false by lia. fold (pages_of sz). set (rg := mkRegion node r sz) in *.
  assert (Hin : rg ∈ regions k1) by (rewrite Er; left).
  destruct (back_loop_ok (pages_of sz) k1 T B B O rg flags cm 0 Hc1 Hrg1) as (r' & k' & T' & B' & Hb & Hc' & Hrg' & Hres); try done.
  { split; [done|intros x (j & ? & _); lia]. }
  exists r', k', T', B'. split; [exact Hb|]. split; [done|]. split; [done|].
  destruct Hres as [(-> & Hx & Eh & Ev & Er')|(-> & -> & [Hu1 Hu2])].
  - right. exists node. split; rewrite ?Eh, ?Ev, ?Er'; done.
  - left. split_and!; [done|done| |].
    + intros x. rewrite Hu1, Er, elem_of_cons. split; [naive_solver|]. intros Hx. split; [by right|]. intros ->.
      apply (Hnew NODE_CLASS), (rg_live _ _ Hrg rg Hx).
    + intros j p. rewrite Hu2, Hlv. split; [naive_solver|]. intros Hp. split; [by left|]. intros ->. by apply (Hnew j).
Qed.

Lemma free_backed_ok k T B O rg : core k T B O -> regions_ok k B -> rg ∈ regions k ->
  (forall x, page_of (base rg) (pages_of (size rg)) x -> is_Some (B !! x)) ->
  exists k' B', free_backed HHDM_START (base rg) (size rg) k = Some k' /\ core k' T B' O /\ regions_ok k' B' /\
    undone k k' rg /\
    forall x, B' !! x = if decide (page_of (base rg) (pages_of (size rg)) x) then None else B !! x.
Proof.
  intros Hc Hrg Hin Hall. destruct (region_target _ _ _ _ _ Hc Hrg Hin) as (Hd & Hlo & Hhi).
  destruct (rg_size _ _ Hrg rg Hin) as [Hs1 Hs2].
  set (B' := filter (fun x => ~ page_of (base rg) (pages_of (size rg)) x.1) B).
  assert (HB' : forall x, B' !! x = if decide (page_of (base rg) (pages_of (size rg)) x) then None else B !! x).
  { intros x. unfold B'. case_decide as Hx.
    - apply map_lookup_filter_None. right. intros y _. simpl. tauto.
    - destruct (B !! x) as [y|] eqn:E; [by apply map_lookup_filter_Some|]. apply map_lookup_filter_None. by left. }
  destruct (release_ok k T B' B O rg (pages_of (size rg)) Hc Hrg) as (k' & Hk & Hc' & Hrg' & Hu).
  - split; try done. intros x Hx. rewrite HB'. case_decide as Hp; [done|]. apply eq_None_not_Some. intros [[phys fl] Hy].
    destruct (co_back _ _ _ _ _ _ Hc _ _ _ Hy) as (Hxd & _). apply Hp, page_of_range; done.
  - lia.
  - intros x Hx. by rewrite HB', decide_False.
  - done.
  - exists k', B'. split_and!; done.
Qed.

(** ** The heap *)

(** The flags of the heap's large objects. *)
Definition RW : Z := Z.lor Paging.PF_Read Paging.PF_Write.

(** The pages that neither the heap nor [VirtualSpace] uses, and the objects of
    one page. *)
Definition others (E : Z -> Prop) (L : gmap Z Z) (q : Z) : Prop := E q \/ L !! (q + HHDM_START) = Some PAGE_SIZE.

(** How an object of the size is kept. *)
Definition small_object (k : kmem (A := A)) (p sz : Z) : Prop :=
  Slab.live (heap k) (Slab.size_to_index sz) p /\ forall rg, rg ∈ regions k -> reg_node rg <> p.
Definition large_object (k : kmem (A := A)) (B : gmap Z (Z * Z)) (p sz : Z) : Prop :=
  exists rg, rg ∈ regions k /\ base rg = p /\ size rg = sz /\
    forall x, page_of p (pages_of sz) x -> exists phys, B !! x = Some (phys, RW).
Definition object (k : kmem (A := A)) (B : gmap Z (Z * Z)) (p sz : Z) : Prop :=
  0 < sz /\ (sz <= 2048 /\ small_object k p sz \/ sz = PAGE_SIZE \/ sz <> PAGE_SIZE /\ 2048 < sz /\ large_object k B p sz).

(** Nothing else is in use: a chunk that is in use is an object or the node of
    a region, a region is that of an object or one of the regions [R] of other
    users of [KERNEL_VSPACE]. *)
Record exact (k : kmem (A := A)) (R : Region -> Prop) (L : gmap Z Z) : Prop := {
  ex_live : forall j p, Slab.live (heap k) j p ->
    (exists sz, L !! p = Some sz /\ sz <= 2048 /\ Slab.size_to_index sz = j) \/
    exists rg, rg ∈ regions k /\ reg_node rg = p;
  ex_regions : forall rg, rg ∈ regions k ->
    R rg \/ L !! base rg = Some (size rg) /\ 2048 < size rg /\ size rg <> PAGE_SIZE;
  ex_foreign : forall rg, R rg -> rg ∈ regions k /\
    forall sz, L !! base rg = Some sz -> sz <= 2048 \/ sz = PAGE_SIZE
}.

(** The heap holds exactly the objects [L]: from the address to the size. *)
Definition heap_inv (k : kmem (A := A)) (T : gmap (list nat) Z) (B : gmap Z (Z * Z)) (E : Z -> Prop)
    (R : Region -> Prop) (L : gmap Z Z) : Prop :=
  core k T B (others E L) /\ regions_ok k B /\ (forall p sz, L !! p = Some sz -> object k B p sz) /\
  (forall q, E q -> L !! (q + HHDM_START) <> Some PAGE_SIZE) /\ exact k R L.

Definition heap_ok (k : kmem (A := A)) (E : Z -> Prop) (R : Region -> Prop) (L : gmap Z Z) : Prop :=
  exists T B, heap_inv k T B E R L.

(** *** Where objects lie *)

Lemma live_direct k T B O i p : core k T B O -> Slab.live (heap k) i p ->
  exists q, Slab.owns HHDM_START (heap k) q /\ (PAGE_SIZE | q) /\ 0 < q /\ q + PAGE_SIZE <= PHYS_END /\
    q + HHDM_START < p /\ p + 2 ^ (4 + i) <= q + HHDM_START + PAGE_SIZE /\ (16 | p).
Proof.
  intros Hc (hdr & hd & Hh & Hu). pose proof (co_heap _ _ _ _ _ _ Hc) as Hw. destruct Hu as (Hi & _ & Hp & _).
  pose proof (Slab.wf_held _ _ _ Hw _ _ Hh) as Hq. destruct (pa_page _ _ (core_ok _ _ _ _ _ _ Hc) Hq) as [Hd Hr].
  destruct (SlabRun.chunk_inside _ _ _ Hi Hp) as [H1 H2]. unfold Slab.HEADER_SIZE in H1.
  exists (hdr - HHDM_START). replace (hdr - HHDM_START + HHDM_START) with hdr by lia. unfold Slab.owns.
  replace (hdr - HHDM_START + HHDM_START) with hdr by lia. split; [eauto|]. split; [done|]. split; [lia|].
  split; [|split; [lia|split; [lia|]]].
  - by apply (phys_end (pages k)), Hq; eapply core_ok.
  - destruct (SlabRun.header_addr HHDM_START PHYS_END hhdm_page hhdm_range phys_end _ _ _ _ Hw Hh) as (Hdh & _). by apply (SlabRun.chunk_aligned hdr i).
Qed.

(** Two different pages are apart. *)
Lemma pages_apart q q' : (PAGE_SIZE | q) -> (PAGE_SIZE | q') -> q <> q' -> q + PAGE_SIZE <= q' \/ q' + PAGE_SIZE <= q.
Proof. intros [m ->] [n ->] Hne. unfold PAGE_SIZE in *. nia. Qed.


Lemma page_place k T B E L p : core k T B (others E L) -> L !! p = Some PAGE_SIZE ->
  (PAGE_SIZE | p) /\ HHDM_START < p /\ p + PAGE_SIZE <= HHDM_START + PHYS_END /\ others E L (p - HHDM_START).
Proof.
  intros Hc Hp.
  assert (Ho : others E L (p - HHDM_START)) by (right; by replace (p - HHDM_START + HHDM_START) with p by lia).
  pose proof (co_acct _ _ _ _ _ _ Hc) as [Hh _].
  destruct (pa_page (pages k) (p - HHDM_START) (core_ok _ _ _ _ _ _ Hc)) as [Hd Hr]; [apply Hh; by exists UOther|].
  assert (Hd' : (PAGE_SIZE | p)) by (replace p with (p - HHDM_START + HHDM_START) by lia; by apply Z.divide_add_r).
  split; [done|]. split; [lia|]. split; [|done].
  pose proof (phys_end (pages k) _ (core_ok _ _ _ _ _ _ Hc) (proj2 (Hh _) (ex_intro _ UOther Ho))). lia.
Qed.

(** Where an object lies: in a page of the direct map that belongs to the slabs
    or to the object alone, or in a region. *)
Lemma object_place k T B E R L p sz : heap_inv k T B E R L -> L !! p = Some sz ->
  0 < sz /\
  ((sz <= 2048 /\ small_object k p sz) \/
   (sz = PAGE_SIZE /\ (PAGE_SIZE | p) /\ HHDM_START < p /\ p + PAGE_SIZE <= HHDM_START + PHYS_END /\
    others E L (p - HHDM_START)) \/
   (2048 < sz /\ large_object k B p sz /\ VMem._base (vmem k) <= p /\
    p + sz <= VMem._base (vmem k) + VMem._size (vmem k))).
Proof.
  intros (Hc & Hrg & HL & HE & HX) Hp. destruct (HL p sz Hp) as [Hpos [?|[->|(_ & Hbig & Hlo)]]].
  - split; [done|by left].
  - split; [done|]. right. left. split; [done|]. by eapply page_place.
  - split; [done|]. right. right. split; [done|]. split; [done|]. destruct Hlo as (rg & Hin & <- & <- & _).
    destruct (region_target _ _ _ _ _ Hc Hrg Hin) as (_ & ? & ?). destruct (rg_size _ _ Hrg rg Hin) as [Hs1 Hs2].
    pose proof (alignup_page _ Hs1 Hs2). lia.
Qed.



(** *** Allocating *)

(** No object is at an address of the direct map where no chunk is in use and
    whose page is not an object. *)
Lemma fresh_direct k T B E R L r q : heap_inv k T B E R L -> (PAGE_SIZE | q) -> HHDM_START < r ->
  q + HHDM_START <= r < q + HHDM_START + PAGE_SIZE -> q + PAGE_SIZE <= PHYS_END -> ~ others E L q ->
  (forall j, ~ Slab.live (heap k) j r) -> L !! r = None.
Proof.
  intros Hk Hd Hr0 Hr Hq Hno Hlv. apply eq_None_not_Some. intros [sz Hsz].
  destruct (object_place _ _ _ _ _ _ _ _ Hk Hsz) as [Hpos [[_ [Hl _]]|[(_ & Hd' & _ & _ & Ho)|(_ & _ & Hlo & Hhi)]]].
  - by apply (Hlv _ Hl).
  - apply Hno. assert (q + HHDM_START = r) as <-; [|by rewrite Z.add_simpl_r in Ho].
    destruct (decide (q + HHDM_START = r)); [done|].
    destruct (pages_apart (q + HHDM_START) r); [by apply Z.divide_add_r|done|done|lia|lia].
  - destruct Hk as (Hc & _). destruct (sp_apart _ _ _ (co_space _ _ _ _ _ _ Hc)); lia.
Qed.

(** Objects stay when the slabs and regions only grow. *)
Lemma object_grow k k' B B' p sz : object k B p sz ->
  (forall j x, Slab.live (heap k) j x -> Slab.live (heap k') j x) ->
  (forall rg, rg ∈ regions k -> rg ∈ regions k') ->
  (forall rg, rg ∈ regions k' -> rg ∈ regions k \/ forall j, ~ Slab.live (heap k) j (reg_node rg)) ->
  (forall x y, B !! x = Some y -> B' !! x = Some y) -> object k' B' p sz.
Proof.
  intros [Hpos Hp] Hl Hr Hn HB. split; [done|]. destruct Hp as [(? & Hlv & Hnn)|[?|(? & ? & rg & ? & ? & ? & Hb)]].
  - left. split; [done|]. split; [by apply Hl|]. intros rg Hrg. destruct (Hn rg Hrg) as [?|Hno]; [auto|]. intros <-. by apply (Hno _ Hlv).
  - right. by left.
  - right. right. split; [done|]. split; [done|]. exists rg. split_and!; auto. intros x Hx. destruct (Hb x Hx) as [phys ?]. eauto.
Qed.

Lemma others_insert E L r sz q : sz <> PAGE_SIZE -> L !! r = None -> others E (<[r := sz]> L) q <-> others E L q.
Proof.
  intros Hsz Hr. unfold others. rewrite lookup_insert_Some. split; [intros [?|[[_ ?]|[_ ?]]]; [by left|done|by right]|].
  intros [?|Hq]; [by left|]. right. right. split; [|done]. intros ->. congruence.
Qed.

(** Objects that are not in regions come and go. *)
Lemma exact_add k k' R L r sz : exact k R L -> L !! r = None -> sz <= 2048 \/ sz = PAGE_SIZE ->
  regions k' = regions k ->
  (forall j p, Slab.live (heap k') j p ->
     Slab.live (heap k) j p \/ p = r /\ sz <= 2048 /\ Slab.size_to_index sz = j) ->
  exact k' R (<[r := sz]> L).
Proof.
  intros [Hl Hr Hf] Hn Hsz Er Hlv. split; rewrite ?Er.
  - intros j p Hp. destruct (Hlv j p Hp) as [Ho|(-> & ? & ?)].
    + destruct (Hl j p Ho) as [(s' & Hs & ? & ?)|?]; [left|by right]. exists s'. split; [|done].
      rewrite lookup_insert_ne; [done|]. intros ->. congruence.
    + left. exists sz. by rewrite lookup_insert_eq.
  - intros rg Hin. destruct (Hr rg Hin) as [?|(Hs & ? & ?)]; [by left|right]. split; [|done].
    rewrite lookup_insert_ne; [done|]. intros ->. congruence.
  - intros rg HR. destruct (Hf rg HR) as [? Hs]. split; [done|]. intros s' [[_ <-]|[_ ?]]%lookup_insert_Some; auto.
Qed.

Lemma exact_drop k k' R L p sz : exact k R L -> L !! p = Some sz -> sz <= 2048 \/ sz = PAGE_SIZE ->
  regions k' = regions k ->
  (forall j x, Slab.live (heap k') j x -> Slab.live (heap k) j x /\ (sz <= 2048 -> x <> p)) ->
  exact k' R (delete p L).
Proof.
  intros [Hl Hr Hf] Hp Hsz Er Hlv. split; rewrite ?Er.
  - intros j x Hx. destruct (Hlv j x Hx) as [Ho Hne]. destruct (Hl j x Ho) as [(s' & Hs & ? & ?)|?]; [left|by right].
    exists s'. split; [|done]. rewrite lookup_delete_ne; [done|]. intros <-. simplify_eq. by apply Hne.
  - intros rg Hin. destruct (Hr rg Hin) as [?|(Hs & ? & ?)]; [by left|right]. split; [|done].
    rewrite lookup_delete_ne; [done|]. intros ->. simplify_eq. destruct Hsz; [lia|done].
  - intros rg HR. destruct (Hf rg HR) as [? Hs]. split; [done|]. intros s' [_ ?]%lookup_delete_Some. auto.
Qed.

(** A region comes and goes with its node. *)
Lemma exact_map k k' R L node r sz : exact k R L -> 2048 < sz -> sz <> PAGE_SIZE -> L !! r = None ->
  regions k' = mkRegion node r sz :: regions k -> NoDup (base <$> regions k') ->
  (forall j p, Slab.live (heap k') j p -> Slab.live (heap k) j p \/ j = NODE_CLASS /\ p = node) ->
  exact k' R (<[r := sz]> L).
Proof.
  intros [Hl Hr Hf] Hsz Hnp Hn Er Hnd Hlv. rewrite Er, fmap_cons in Hnd. apply NoDup_cons in Hnd as [Hnd _].
  assert (Hne : forall rg, rg ∈ regions k -> r <> base rg).
  { intros rg Hin ->. apply Hnd. apply list_elem_of_fmap. by exists rg. }
  split; rewrite ?Er.
  - intros j p Hp. destruct (Hlv j p Hp) as [Ho|[_ ->]].
    + destruct (Hl j p Ho) as [(s' & Hs & ? & ?)|(rg & ? & ?)]; [left|right; exists rg; split; [by right|done]].
      exists s'. split; [|done]. rewrite lookup_insert_ne; [done|]. intros ->. congruence.
    + right. eexists. split; [left|done].
  - intros rg [->|Hin]%elem_of_cons; [right; by rewrite lookup_insert_eq|].
    rewrite lookup_insert_ne by auto. auto.
  - intros rg HR. destruct (Hf rg HR) as [? Hs]. split; [by right|]. rewrite lookup_insert_ne by auto. auto.
Qed.

Lemma exact_unmap k k' R L rg : exact k R L -> rg ∈ regions k -> L !! base rg = Some (size rg) ->
  2048 < size rg -> size rg <> PAGE_SIZE -> NoDup (base <$> regions k) -> NoDup (reg_node <$> regions k) ->
  (forall r, r ∈ regions k' <-> r ∈ regions k /\ r <> rg) ->
  (forall j p, Slab.live (heap k') j p <-> Slab.live (heap k) j p /\ p <> reg_node rg) ->
  exact k' R (delete (base rg) L).
Proof.
  intros [Hl Hr Hf] Hin Hp Hsz Hnp Hnd Hnn Hrg Hlv.
  assert (Hb : forall r, r ∈ regions k -> r <> rg -> base rg <> base r).
  { intros r Hr' Hne He. apply Hne. destruct (list_elem_of_lookup_1 _ _ Hin) as [i Hi].
    destruct (list_elem_of_lookup_1 _ _ Hr') as [j Hj].
    assert (i = j) as ->; [|congruence].
    apply (NoDup_lookup (base <$> regions k) i j (base rg)); [exact Hnd|by rewrite list_lookup_fmap, Hi|].
    rewrite list_lookup_fmap, Hj. simpl. congruence. }
  split.
  - intros j p Hlp. apply Hlv in Hlp as [Hlp Hne]. destruct (Hl j p Hlp) as [(s' & Hs & ? & ?)|(r & Hr' & Hrn)].
    + left. exists s'. split; [|done]. rewrite lookup_delete_ne; [done|]. intros <-. simplify_eq. lia.
    + right. exists r. split; [|done]. apply Hrg. split; [done|]. intros ->. done.
  - intros r Hr'. apply Hrg in Hr' as [Hr' Hne]. destruct (Hr r Hr') as [?|[? ?]]; [by left|right].
    split; [|done]. by rewrite lookup_delete_ne by auto.
  - intros r HR. destruct (Hf r HR) as [Hr' Hs]. split.
    + apply Hrg. split; [done|]. intros ->. destruct (Hs _ Hp); [lia|done].
    + intros s' [_ ?]%lookup_delete_Some. auto.
Qed.

(** What [alloc] returns. *)
Definition alloc_result (k' : kmem (A := A)) (E : Z -> Prop) (R : Region -> Prop) (L : gmap Z Z) (sz r : Z) : Prop :=
  r = 0 /\ heap_ok k' E R L \/ 0 < r /\ (16 | r) /\ L !! r = None /\ heap_ok k' E R (<[r := sz]> L).

Lemma alloc_small k T B E R L sz : heap_inv k T B E R L -> 0 < sz <= 2048 ->
  exists r k', alloc HHDM_START sz k = Some (r, k') /\ alloc_result k' E R L sz r.
Proof.
  intros Hk Hsz. pose proof Hk as (Hc & Hrg & HL & HE & HX). unfold alloc, PAGE_SIZE.
  replace (sz =? 0x1000) with false by lia. replace (sz >? 2048) with false by lia.
  destruct (SlabRun.slab_alloc_ok HHDM_START PHYS_END hhdm_page hhdm_range phys_end (heap k) (pages k) sz (co_heap _ _ _ _ _ _ Hc) ltac:(lia))
    as (r & h' & a' & -> & Hw & Hres). cbn [mbind option_bind].
  destruct Hres as [(-> & -> & -> & _)|Hg]; (eexists _, _; split; [done|]).
  { left. split; [done|]. exists T, B. destruct k as [h v rs [m pmm al]]. exact Hk. }
  pose proof (core_slab_alloc HHDM_START PHYS_END k T B _ sz r h' a' Hc Hw Hg) as Hc'. set (k' := with_heap h' (with_pages a' k)) in *.
  pose proof (SlabRun.gi_live _ _ _ _ _ _ _ Hg) as Hlv. pose proof (SlabRun.gi_new _ _ _ _ _ _ _ Hg) as Hnew.
  assert (Hlr : Slab.live (heap k') (Slab.size_to_index sz) r) by (apply Hlv; by right).
  assert (Hfresh : L !! r = None).
  { destruct (live_direct _ _ _ _ _ _ Hc' Hlr) as (q & Hq & Hqd & Hq0 & Hq1 & Hq2 & Hq3 & _).
    pose proof (Z.pow_pos_nonneg 2 (4 + Slab.size_to_index sz)). pose proof (proj1 (SlabRun.size_to_index_eq sz ltac:(lia))).
    apply (fresh_direct k T B E R L r q); try done; [lia|lia|]. intros Ho.
    discriminate (proj2 (co_acct _ _ _ _ _ _ Hc') q UHeap UOther Hq Ho). }
  right. split; [apply Hg|]. split; [apply Hg|]. split; [done|]. exists T, B. split_and!.
  - eapply core_other; [|exact Hc']. intros q. by rewrite others_insert by (done || (unfold PAGE_SIZE; lia)).
  - destruct Hrg. split; try done. intros rg Hin. apply Hlv. left. auto.
  - intros p s [[<- <-]|[Hne Hp]]%lookup_insert_Some.
    + split; [lia|]. left. split; [lia|]. split; [done|]. intros rg Hin Hr. apply (Hnew NODE_CLASS). rewrite <- Hr. by apply (rg_live _ _ Hrg).
    + eapply object_grow; [by apply HL|..]; try done; [intros j x Hx; apply Hlv; by left|by left].
  - intros q Hq. rewrite lookup_insert_Some. intros [[_ ?]|[_ ?]]; [unfold PAGE_SIZE in *; lia|by apply (HE q Hq)].
  - apply (exact_add k); [done|done|lia|done|]. intros j p Hp. apply Hlv in Hp as [?|[-> ->]]; [by left|right]. split; [done|split; [lia|done]].
Qed.

Lemma alloc_page k T B E R L : heap_inv k T B E R L ->
  exists r k', alloc HHDM_START PAGE_SIZE k = Some (r, k') /\ alloc_result k' E R L PAGE_SIZE r.
Proof.
  intros Hk. pose proof Hk as (Hc & Hrg & HL & HE & HX). unfold alloc. rewrite Z.eqb_refl.
  destruct (pa_alloc (pages k)) as [[page|] a'] eqn:Ea.
  2:{ pose proof (pa_alloc_ok _ (core_ok _ _ _ _ _ _ Hc)) as Hal. rewrite Ea in Hal. subst a'. eexists _, _. split; [done|].
      left. split; [done|]. exists T, B. destruct k as [h v rs [m pmm al]]. exact Hk. }
  destruct (core_take HHDM_START PHYS_END k T B _ page a' Hc Ea) as (Hc' & Hd & Hr & Hno). destruct hhdm_range.
  assert (Hend : page + PAGE_SIZE <= PHYS_END).
  { apply (phys_end a'); [apply (core_ok _ _ _ _ _ _ Hc')|]. apply (co_acct _ _ _ _ _ _ Hc'). exists UOther. by right. }
  assert (Ev : Slab.to_virt HHDM_START page = page + HHDM_START)
    by (unfold Slab.to_virt, add64; apply u64_small; unfold PAGE_SIZE in *; lia).
 
  rewrite Ev. assert (Hdv : (PAGE_SIZE | page + HHDM_START)) by (by apply Z.divide_add_r).
  assert (Hfresh : L !! (page + HHDM_START) = None).
  { apply (fresh_direct k T B E R L _ page); try done; [lia|unfold PAGE_SIZE; lia|]. intros j Hj.
    destruct (live_direct _ _ _ _ _ _ Hc Hj) as (q & _ & Hqd & _ & _ & Hq1 & Hq2 & _).
    pose proof (Z.pow_pos_nonneg 2 (4 + j)) as Hpw. destruct Hj as (? & ? & _ & Hj & _).
    destruct (pages_apart (q + HHDM_START) (page + HHDM_START)); [by apply Z.divide_add_r|done|lia|lia|lia]. }
  eexists _, _. split; [done|]. right. split; [lia|]. split; [apply (Z.divide_trans _ PAGE_SIZE); [by exists 256|done]|]. split; [done|].
  exists T, B. split_and!.
  - eapply core_other; [|exact Hc']. intros q. unfold others. rewrite lookup_insert_Some. simpl. split.
    + intros [[?|Hq]| ->]; [by left| |right; by left]. right. destruct (decide (q = page)) as [->|]; [by left|]. right. split; [lia|done].
    + intros [?|[[? _]|[_ ?]]]; [left; by left|right; lia|left; by right].
  - by destruct Hrg.
  - intros p s [[<- <-]|[Hne Hp]]%lookup_insert_Some; [split; [unfold PAGE_SIZE; lia|]; right; by left|].
    eapply object_grow; [by apply HL|..]; try done. by left.
  - intros q Hq. rewrite lookup_insert_Some. intros [[? _]|[_ ?]]; [|by apply (HE q Hq)]. apply Hno. left. by replace page with q by lia.
  - apply (exact_add k); [done|done|by right|done|]. by left.
Qed.

Lemma alloc_large k T B E R L sz : heap_inv k T B E R L -> 2048 < sz -> sz <> PAGE_SIZE -> sz + PAGE_SIZE <= 2 ^ 64 ->
  (alloc HHDM_START sz k = None /\ SlabRun.full (heap k) NODE_CLASS) \/
  exists r k', alloc HHDM_START sz k = Some (r, k') /\ alloc_result k' E R L sz r.
Proof.
  intros Hk Hsz Hnp Hmax. pose proof Hk as (Hc & Hrg & HL & HE & HX). unfold alloc.
  replace (sz =? PAGE_SIZE) with false by lia. replace (sz >? 2048) with true by lia. fold RW.
  destruct (alloc_backed_ok k T B _ sz RW Paging.WriteBack Hc Hrg ltac:(lia) Hmax eq_refl)
    as [?|(r & k' & T' & B' & -> & Hc' & Hrg' & Hr)]; [by left|right]. exists r, k'. split; [done|].
  destruct Hr as [(-> & -> & Hr & Hl)|(node & [Hpos Hd Hlo Hhi Hn [Hx1 Hx2] Er Hlv Hnew])].
  { left. split; [done|]. exists T', B. split; [done|]. split; [done|]. split; [|split; [done|]].
    - intros p s Hp. eapply object_grow; [by apply HL|..]; try done; [intros j x; by apply Hl|intros rg; by apply Hr|left; by apply Hr].
    - destruct HX as [X1 X2 X3]. split.
      + intros j p Hp. apply Hl in Hp. destruct (X1 j p Hp) as [?|(rg & ? & ?)]; [by left|]. right. exists rg. by rewrite Hr.
      + intros rg Hin. apply X2. by apply Hr.
      + intros rg HR. rewrite Hr. auto. }
  set (rg := mkRegion node r sz) in *. assert (Hin : rg ∈ regions k') by (rewrite Er; left).
  assert (Hpg := alignup_page sz ltac:(lia) Hmax).
  assert (Hfresh : L !! r = None).
  { apply eq_None_not_Some. intros [s Hs]. pose proof (sp_apart _ _ _ (co_space _ _ _ _ _ _ Hc')) as Hgeo.
    destruct (object_place _ _ _ _ _ _ _ _ Hk Hs) as [Hs0 [[_ [Hl _]]|[(_ & _ & ? & ? & _)|(_ & (r1 & Hr1 & Eb & _) & _ & _)]]].
    - destruct (live_direct _ _ _ _ _ _ Hc Hl) as (q & _ & _ & ? & ? & ? & ? & _).
      pose proof (Z.pow_pos_nonneg 2 (4 + Slab.size_to_index s)). destruct Hl as (? & ? & _ & ? & _). lia.
    - lia.
    - pose proof (rg_bases _ _ Hrg') as Hnd. rewrite Er, fmap_cons in Hnd. apply NoDup_cons in Hnd as [Hnd _]. apply Hnd.
      apply list_elem_of_fmap. exists r1. done. }
  right. split; [done|]. split; [apply (Z.divide_trans _ PAGE_SIZE); [by exists 256|done]|]. split; [done|].
  exists T', B'. split_and!.
  - eapply core_other; [|exact Hc']. intros q. by rewrite others_insert.
  - done.
  - intros p s [[<- <-]|[Hne Hp]]%lookup_insert_Some.
    + split; [lia|]. right. right. split; [done|]. split; [done|]. by exists rg.
    + eapply object_grow; [by apply HL|..].
      * intros j x Hx. apply Hlv. by left.
      * intros y Hy. rewrite Er. by right.
      * intros y. rewrite Er, elem_of_cons. intros [->|?]; [by right|by left].
      * intros x y Hx. rewrite Hx1; [done|]. intros Hp'. apply page_of_range in Hp' as [_ Hp']; [|lia|done|done].
        by rewrite Hn in Hx.
  - intros q Hq. rewrite lookup_insert_Some. intros [[_ ?]|[_ ?]]; [done|by apply (HE q Hq)].
  - apply (exact_map k _ _ _ node); [done|done|done|done|done|apply Hrg'|]. intros j p Hp. by apply Hlv.
Qed.

(** *** Freeing *)

(** The other objects stay when one region or one chunk goes. *)
Lemma object_shrink k k' B B' p sz : object k B p sz ->
  (sz <= 2048 -> Slab.live (heap k) (Slab.size_to_index sz) p -> Slab.live (heap k') (Slab.size_to_index sz) p) ->
  (forall rg, rg ∈ regions k' -> rg ∈ regions k) ->
  (forall rg, rg ∈ regions k -> base rg = p -> size rg = sz -> rg ∈ regions k' /\
     forall x, page_of p (pages_of sz) x -> B' !! x = B !! x) -> object k' B' p sz.
Proof.
  intros [Hpos Hp] Hl Hr HB. split; [done|]. destruct Hp as [(? & Hlv & Hnn)|[?|(? & ? & rg & Hin & <- & <- & Hb)]].
  - left. split; [done|]. split; [by apply Hl|]. auto.
  - right. by left.
  - right. right. split; [done|]. split; [done|]. destruct (HB rg Hin eq_refl eq_refl) as [Hin' HB']. exists rg. split_and!; try done.
    intros x Hx. rewrite HB' by done. auto.
Qed.

Lemma others_delete E L p sz q : L !! p = Some sz -> sz <> PAGE_SIZE -> others E (delete p L) q <-> others E L q.
Proof.
  intros Hp Hsz. unfold others. rewrite lookup_delete_Some. split; [tauto|]. intros [?|Hq]; [by left|]. right. split; [|done].
  intros ->. congruence.
Qed.

Lemma free_small k T B E R L p sz : heap_inv k T B E R L -> L !! p = Some sz -> sz <= 2048 ->
  exists k', free HHDM_START p sz k = Some k' /\ heap_ok k' E R (delete p L).
Proof.
  intros Hk Hp Hsz. pose proof Hk as (Hc & Hrg & HL & HE & HX). destruct (HL p sz Hp) as [Hpos Hob].
  assert (Hs : small_object k p sz) by (destruct Hob as [[_ ?]|[->|(_ & ? & _)]]; [done|unfold PAGE_SIZE in *; lia|lia]).
  destruct Hs as [Hlive Hnode]. destruct (live_direct _ _ _ _ _ _ Hc Hlive) as (q & _ & _ & ? & _ & ? & _). destruct hhdm_range.
  unfold free. replace (p =? 0) with false by lia. replace (sz =? 0) with false by lia. cbn [orb].
  replace (sz =? PAGE_SIZE) with false by (unfold PAGE_SIZE; lia). replace (sz >? 2048) with false by lia.
  destruct (SlabRun.slab_free_ok HHDM_START PHYS_END hhdm_page hhdm_range phys_end (heap k) (pages k) p sz (co_heap _ _ _ _ _ _ Hc) ltac:(lia) Hlive)
    as (kept & h' & a' & -> & Hw & Ht). cbn [mbind option_bind]. eexists. split; [done|].
  pose proof (core_slab_free HHDM_START PHYS_END k T B _ _ _ kept h' a' Hc Hw Ht) as Hc'. pose proof (SlabRun.ta_live _ _ _ _ _ _ _ _ Ht) as Hlv.
  exists T, B. split_and!.
  - eapply core_other; [|exact Hc']. intros x. by rewrite (others_delete E L p sz) by (done || (unfold PAGE_SIZE; lia)).
  - destruct Hrg. split; try done. intros rg Hin. apply Hlv. split; [auto|]. auto.
  - intros x s [Hne Hx]%lookup_delete_Some. eapply object_shrink; [by apply HL|..]; try done.
    intros _ Hl. apply Hlv. split; [done|]. by intros ->.
  - intros x Hx. rewrite lookup_delete_Some. intros [_ ?]. by apply (HE x Hx).
  - apply (exact_drop k _ _ _ _ sz); [done|done|lia|done|]. intros j x Hx. apply Hlv in Hx as [? ?]. done.
Qed.

Lemma free_page k T B E R L p : heap_inv k T B E R L -> L !! p = Some PAGE_SIZE ->
  exists k', free HHDM_START p PAGE_SIZE k = Some k' /\ heap_ok k' E R (delete p L).
Proof.
  intros Hk Hp. pose proof Hk as (Hc & Hrg & HL & HE & HX).
  destruct (page_place _ _ _ _ _ _ Hc Hp) as (Hd & Hlo & Hhi & Ho). destruct hhdm_range.
  unfold free. replace (p =? 0) with false by lia. change (PAGE_SIZE =? 0) with false. cbn [orb]. rewrite Z.eqb_refl.
  assert (Ep : Slab.to_phys HHDM_START p = p - HHDM_START) by (unfold Slab.to_phys, sub64; apply u64_small; unfold PAGE_SIZE in *; lia). rewrite Ep.
  destruct (core_give HHDM_START PHYS_END k T B _ _ Hc Ho) as (a' & -> & Hc'). cbn [mbind option_bind]. eexists. split; [done|].
  exists T, B. split_and!.
  - eapply core_other; [|exact Hc']. intros q. unfold others. rewrite lookup_delete_Some. simpl. split.
    + intros [[?|Hq] Hne]; [by left|]. right. split; [lia|done].
    + intros [Hq|[Hne Hq]]; (split; [tauto|]); [|lia]. intros ->. apply (HE _ Hq). by replace (p - HHDM_START + HHDM_START) with p by lia.
  - by destruct Hrg.
  - intros x s [Hne Hx]%lookup_delete_Some. eapply object_shrink; [by apply HL|..]; done.
  - intros x Hx. rewrite lookup_delete_Some. intros [_ ?]. by apply (HE x Hx).
  - apply (exact_drop k _ _ _ _ PAGE_SIZE); [done|done|by right|done|]. intros j x Hx. split; [done|unfold PAGE_SIZE; lia].
Qed.

Lemma free_large k T B E R L p sz : heap_inv k T B E R L -> L !! p = Some sz -> 2048 < sz -> sz <> PAGE_SIZE ->
  exists k', free HHDM_START p sz k = Some k' /\ heap_ok k' E R (delete p L).
Proof.
  intros Hk Hp Hbig Hnp. pose proof Hk as (Hc & Hrg & HL & HE & HX). destruct (HL p sz Hp) as [Hpos Hob].
  destruct Hob as [[? _]|[?|(_ & _ & rg & Hin & <- & <- & Hb)]]; [lia|done|].
  destruct (region_target _ _ _ _ _ Hc Hrg Hin) as (_ & Hlo & _). pose proof (sp_base _ _ _ (co_space _ _ _ _ _ _ Hc)).
  unfold free. replace (base rg =? 0) with false by lia. replace (size rg =? 0) with false by lia. cbn [orb].
  replace (size rg =? PAGE_SIZE) with false by lia. replace (size rg >? 2048) with true by lia.
  destruct (free_backed_ok k T B _ rg Hc Hrg Hin) as (k' & B' & -> & Hc' & Hrg' & [Hu1 Hu2] & HB').
  { intros x Hx. destruct (Hb x Hx) as [phys ->]. eauto. }
  exists k'. split; [done|]. exists T, B'. split_and!.
  - eapply core_other; [|exact Hc']. intros q. by rewrite (others_delete E L (base rg) (size rg)).
  - done.
  - intros x s [Hne Hx]%lookup_delete_Some. destruct (HL x s Hx) as [Hs0 Hox]. eapply object_shrink; [by apply HL|..].
    + intros Hs Hl. apply Hu2. split; [done|]. destruct Hox as [(_ & _ & Hnn)|[->|(_ & ? & _)]]; [|unfold PAGE_SIZE in *; lia|lia].
      by apply not_eq_sym, Hnn.
    + intros r Hr. by apply Hu1 in Hr as [? _].
    + intros r Hr <- <-. split; [apply Hu1; split; [done|]; by intros ->|]. intros y Hy. rewrite HB'. rewrite decide_False; [done|].
      intros Hy'. destruct (rg_size _ _ Hrg r Hr), (rg_size _ _ Hrg rg Hin).
      destruct (region_target _ _ _ _ _ Hc Hrg Hr) as (? & _). destruct (region_target _ _ _ _ _ Hc Hrg Hin) as (? & _).
      apply page_of_range in Hy as [_ Hy]; [|done..]. apply page_of_range in Hy' as [_ Hy']; [|done..].
      destruct (VMemRun.wf_disjoint _ _ _ _ _ _ (co_vmem _ _ _ _ _ _ Hc) (rg_range _ _ Hrg r Hr) (rg_range _ _ Hrg rg Hin)) as [[? _]|?]; [|lia].
      by apply Hne.
  - intros x Hx. rewrite lookup_delete_Some. intros [_ ?]. by apply (HE x Hx).
  - apply (exact_unmap k); [done|done|done|done|done|apply Hrg|apply Hrg|done|done].
Qed.

(** ** Start *)

(** After the kernel's page map is built and [init] has run, the heap is empty
    and all other pages belong to somebody else. *)
Lemma heap_start (a : A) s b n k : pa_ok a -> Paging.new_map None ∅ a = Some s ->
  vspace_init b n (mkK Slab.empty_heap VMem.empty_vmem [] s) = Some k ->
  (PAGE_SIZE | b) -> (PAGE_SIZE | n) -> 0 < b -> 0 < n -> b + n < 2 ^ 64 -> n <= 2 ^ 48 ->
  (b + n <= HHDM_START \/ HHDM_START + PHYS_END <= b) -> heap_ok k (pa_held a) (fun _ => False) ∅.
Proof.
  intros Hok Hnew Hinit Hdb Hdn Hb Hn Hend H48 Hgeo.
  destruct (PagingInv.new_map_spec ∅ a Hok) as [[_ ?]|(s' & T & Hs & W & Hused & Hfresh & _ & Hsm & HT & Hh)]; [congruence|].
  rewrite Hs in Hnew. injection Hnew as ->. unfold vspace_init in Hinit. cbn [vmem] in Hinit. unfold pages in Hinit. cbn [page_map] in Hinit.
  destruct (VMem.init b n PAGE_SIZE VMem.empty_vmem (Paging.alloc s)) as [[v a']|] eqn:Ei; [|discriminate Hinit].
  cbn [mbind option_bind] in Hinit. injection Hinit as <-. pose proof (PagingInv.w_ok _ _ W) as Hok1.
  destruct (VMemRun.init_spec b n PAGE_SIZE (Paging.alloc s) Hok1 Hb Hn Hend) as [[_ ?]|(v1 & a1 & Ei' & Hw & E1 & E2 & E3 & Hno & _)]; [congruence|].
  rewrite Ei' in Ei. injection Ei as -> ->.
  destruct (VMemPages.init_took PAGE_SIZE page_div64 b n PAGE_SIZE (Paging.alloc s) a' v Hok1 Hdb Hdn Ei') as (Hal & Hnp & Hheld).
  pose proof Hw as (_ & (Hok2 & _) & _).
  assert (Hac : acct a' (claims HHDM_START Slab.empty_heap v T ∅ (others (pa_held a) ∅))).
  { assert (Hc : forall q u, claims HHDM_START Slab.empty_heap v T ∅ (others (pa_held a) ∅) q u <->
      u = USeg /\ q ∈ VMem.seg_page_list v \/ u = UTable /\ q = Paging.level0 (Paging.pm s) \/ u = UOther /\ pa_held a q).
    { intros q [| | |x|]; simpl; [|naive_solver| | |].
      - unfold Slab.owns. simpl. rewrite lookup_empty. split; [by intros []|naive_solver].
      - rewrite HT. naive_solver.
      - setoid_rewrite lookup_empty. naive_solver.
      - unfold others. rewrite lookup_empty. naive_solver. }
    split.
    - intros q. rewrite Hheld, Hh. setoid_rewrite Hc. naive_solver.
    - intros q u u'. rewrite !Hc. pose proof (Hnp q) as Hnq. rewrite Hh in Hnq.
      intros [[-> ?]|[[-> ->]|[-> ?]]] [[-> ?]|[[-> ?]|[-> ?]]]; try done; naive_solver. }
  pose proof Hac as [Hhc _]. exists T, ∅. split_and!.
  - split; unfold with_vmem, with_pages, pages; cbn [heap vmem page_map regions Paging.alloc Paging.mem Paging.pm].
    + split; simpl; [done|intros ? ?; by rewrite lookup_empty|intros ? ?; by rewrite lookup_empty|done|].
      intros i l Hi Hl. change (replicate 8 [] !! Z.to_nat i = Some l) in Hl. apply lookup_replicate in Hl as [-> _]. split; [constructor|]. intros hdr. setoid_rewrite lookup_empty. set_solver.
    + done.
    + apply map_frame; [done|done| |]; [intros p t Hp; apply Hhc; exists UTable; by exists p|].
      rewrite Hused. intros q ->%list_elem_of_singleton. by apply HT.
    + rewrite Hused. intros q ->%list_elem_of_singleton. by apply HT.
    + done.
    + split; rewrite ?E1, ?E2, ?E3; done.
    + intros virt _. apply Hsm.
    + intros virt phys fl. by rewrite lookup_empty.
  - split; simpl; [constructor|constructor|by intros r ?%elem_of_nil|by intros r ?%elem_of_nil|
      |intros x; rewrite lookup_empty; by intros []|by intros r ?%elem_of_nil].
    intros x m Hx. by destruct (Hno x m).
  - intros p sz. by rewrite lookup_empty.
  - intros q _. by rewrite lookup_empty.
  - split; simpl; [|by intros r ?%elem_of_nil|done]. intros j p (hdr & hd & Hhd & _). simpl in Hhd. by rewrite lookup_empty in Hhd.
Qed.

Lemma heap_free_ok k E R L p sz : heap_ok k E R L -> L !! p = Some sz ->
  exists k', free HHDM_START p sz k = Some k' /\ heap_ok k' E R (delete p L).
Proof.
  intros (T & B & Hk) Hp. destruct (decide (sz <= 2048)); [by eapply free_small|].
  destruct (decide (sz = PAGE_SIZE)) as [->|]; [by eapply free_page|]. eapply free_large; [done|done|lia|done].
Qed.


Lemma heap_alloc_ok k E R L sz : heap_ok k E R L -> 0 < sz -> sz + PAGE_SIZE <= 2 ^ 64 ->
  (alloc HHDM_START sz k = None /\ 2048 < sz /\ SlabRun.full (heap k) NODE_CLASS) \/
  exists r k', alloc HHDM_START sz k = Some (r, k') /\ alloc_result k' E R L sz r.
Proof.
  intros (T & B & Hk) Hsz Hmax. destruct (decide (sz <= 2048)); [right; by eapply alloc_small|].
  destruct (decide (sz = PAGE_SIZE)) as [->|]; [right; by eapply alloc_page|].
  destruct (alloc_large k T B E R L sz Hk) as [[? ?]|?]; [lia|done|done|left; split_and!; [done|lia|done]|by right].
Qed.


(** ** The theorems *)

(** C7: [alloc_backed] of a readable range always returns, unless a panic reports that the heap has no node for its region.  A null result has changed nothing that a caller can see: the regions, the objects of the heap and the backed pages are those of before, and every page that was taken is back.  Otherwise the range is new, starts at a page, and each of its pages has a physical page of its own behind it, which the processor reaches with the permissions asked for; all other backed pages stay as they were. *)
Theorem alloc_backed_correct k T B O sz flags cm : core k T B O -> regions_ok k B -> 0 < sz -> sz + PAGE_SIZE <= 2 ^ 64 ->
  Paging.pf_and flags Paging.PF_Read = true ->
  (alloc_backed HHDM_START sz flags cm k = None /\ SlabRun.full (heap k) NODE_CLASS) \/
  exists r k' T' B', alloc_backed HHDM_START sz flags cm k = Some (r, k') /\ core k' T' B' O /\ regions_ok k' B' /\
    (r = 0 /\ B' = B /\ (forall rg, rg ∈ regions k' <-> rg ∈ regions k) /\
       (forall j p, Slab.live (heap k') j p <-> Slab.live (heap k) j p) \/
     0 < r /\ (PAGE_SIZE | r) /\ (forall x, page_of r (pages_of sz) x -> B !! x = None) /\
       (forall x, page_of r (pages_of sz) x ->
          exists phys, B' !! x = Some (phys, flags) /\ visible (page_map k') x phys flags) /\
       (forall x, ~ page_of r (pages_of sz) x -> B' !! x = B !! x)).
Proof.
  intros Hc Hrg Hsz Hmax Hrd.
  destruct (alloc_backed_ok k T B O sz flags cm Hc Hrg Hsz Hmax Hrd) as [?|(r & k' & T' & B' & Ha & Hc' & Hrg' & Hr)]; [by left|right].
  exists r, k', T', B'. split; [done|]. split; [done|]. split; [done|]. destruct Hr as [?|(node & [])]; [by left|right].
  destruct bk_ext0 as [Hx1 Hx2]. split; [done|]. split; [done|]. split; [|split; [|done]].
  - intros x Hx. apply page_of_range in Hx as [_ Hx]; [|done..]. by apply bk_none0.
  - intros x Hx. destruct (Hx2 x Hx) as [phys Hp]. exists phys. split; [done|]. by apply (co_back _ _ _ _ _ _ Hc' _ _ _ Hp).
Qed.

(** [free_backed] of a backed region with its size always succeeds: it unmaps the pages and gives each back to the page allocator, frees the range and the node, and leaves all other regions, objects and backed pages. *)
Theorem free_backed_correct k T B O rg : core k T B O -> regions_ok k B -> rg ∈ regions k ->
  (forall x, page_of (base rg) (pages_of (size rg)) x -> is_Some (B !! x)) ->
  exists k' B', free_backed HHDM_START (base rg) (size rg) k = Some k' /\ core k' T B' O /\ regions_ok k' B' /\
    (forall r, r ∈ regions k' <-> r ∈ regions k /\ r <> rg) /\
    (forall x, B' !! x = if decide (page_of (base rg) (pages_of (size rg)) x) then None else B !! x).
Proof.
  intros Hc Hrg Hin Hall. destruct (free_backed_ok k T B O rg Hc Hrg Hin Hall) as (k' & B' & ? & ? & ? & [? ?] & ?).
  exists k', B'. done.
Qed.

(** C4: The kernel heap allocates like an allocator of objects: in a heap that holds the objects [L], [alloc] of any size returns the null pointer and keeps [L], or an address aligned to 16 bytes where no object was and adds exactly this object.  It panics only for a large object when the slabs have no node for its region. *)
Theorem heap_alloc_correct k E R L sz : heap_ok k E R L -> 0 < sz -> sz + PAGE_SIZE <= 2 ^ 64 ->
  (alloc HHDM_START sz k = None /\ 2048 < sz /\ SlabRun.full (heap k) NODE_CLASS) \/
  exists r k', alloc HHDM_START sz k = Some (r, k') /\
    (r = 0 /\ heap_ok k' E R L \/ 0 < r /\ (16 | r) /\ L !! r = None /\ heap_ok k' E R (<[r := sz]> L)).
Proof. apply heap_alloc_ok. Qed.

(** C5: [free] of an object with the size it was allocated with always succeeds and removes exactly this object, whichever of the three ways it was allocated: the heap then holds the other objects and nothing else, so that the chunk, the page or the range with its pages is free again. *)
Theorem heap_free_correct k E R L p sz : heap_ok k E R L -> L !! p = Some sz ->
  exists k', free HHDM_START p sz k = Some k' /\ heap_ok k' E R (delete p L).
Proof. apply heap_free_ok. Qed.


End Pages.
(** ** A run over the buddy allocator *)

(** The direct map covers the first TiB, the address space is above it. *)
Definition demo_hhdm : Z := 0xFFFF800000000000.
Definition demo_end : Z := 2 ^ 40.
Definition demo_base : Z := 0xFFFFFF0000000000.

#[local] Instance demo_pages : PageAlloc Pmalloc.state := PageLimit.low_pages demo_end.

Definition demo_map : Paging.state (A := Pmalloc.state) :=
  default (Paging.mkState ∅ (Paging.mkMap 0 []) Pmalloc.initial) (Paging.new_map None ∅ PmallocRun.demo_state).

Definition boot : kmem (A := Pmalloc.state) := mkK Slab.empty_heap VMem.empty_vmem [] demo_map.
Definition demo_kernel : kmem (A := Pmalloc.state) := default boot (vspace_init demo_base 0x10000 boot).

Lemma demo_map_eq : Paging.new_map None ∅ PmallocRun.demo_state = Some demo_map.
Proof. vm_compute. reflexivity. Qed.

Lemma demo_kernel_eq : vspace_init demo_base 0x10000 boot = Some demo_kernel.
Proof. vm_compute. reflexivity. Qed.

Lemma demo_low : pa_ok PmallocRun.demo_state.
Proof.
  split; [apply PmallocRun.demo_wf|]. intros b r Hr.
  assert (Hm : map_Forall (fun b r => b + Pmalloc.page_count r * PAGE_SIZE <= demo_end) (Pmalloc.regions PmallocRun.demo_state)).
  { apply (bool_decide_unpack _). vm_compute. reflexivity. }
  exact (Hm b r Hr).
Qed.

Lemma demo_hhdm_page : (PAGE_SIZE | demo_hhdm).
Proof. exists 0xFFFF800000000. reflexivity. Qed.

Lemma demo_hhdm_range : 0 <= demo_hhdm /\ demo_hhdm + demo_end <= 2 ^ 64.
Proof. unfold demo_hhdm, demo_end. lia. Qed.

Lemma demo_phys_end (a : Pmalloc.state) q : pa_ok a -> pa_held a q -> q + PAGE_SIZE <= demo_end.
Proof. apply PageLimit.low_end. Qed.

Lemma demo_heap_ok : heap_ok demo_hhdm demo_end demo_kernel (pa_held PmallocRun.demo_state) (fun _ => False) ∅.
Proof.
  apply (heap_start demo_hhdm demo_end demo_hhdm_page demo_hhdm_range demo_phys_end _ demo_map demo_base 0x10000).
  - exact demo_low.
  - exact demo_map_eq.
  - exact demo_kernel_eq.
  - by exists 0xFFFFFF0000000.
  - by exists 16.
  - done.
  - done.
  - done.
  - done.
  - right. unfold demo_hhdm, demo_end, demo_base. lia.
Qed.

(** An object of 3000 bytes, then one of 60. *)
Definition demo_alloc1 : Z * kmem (A := Pmalloc.state) := default (0, demo_kernel) (alloc demo_hhdm 3000 demo_kernel).
Definition demo_alloc2 : Z * kmem (A := Pmalloc.state) := default (0, demo_kernel) (alloc demo_hhdm 60 demo_alloc1.2).

Lemma demo_alloc1_eq : alloc demo_hhdm 3000 demo_kernel = Some (0xFFFFFF0000000000, demo_alloc1.2).
Proof. vm_compute. reflexivity. Qed.

Lemma demo_alloc2_eq : alloc demo_hhdm 60 demo_alloc1.2 = Some (0xFFFF800002005FB0, demo_alloc2.2).
Proof. vm_compute. reflexivity. Qed.

Lemma demo_ok1 : heap_ok demo_hhdm demo_end demo_alloc1.2 (pa_held PmallocRun.demo_state) (fun _ => False) {[0xFFFFFF0000000000 := 3000]}.
Proof.
  destruct demo_heap_ok as (T & B & Hk).
  destruct (alloc_large demo_hhdm demo_end demo_hhdm_page demo_hhdm_range demo_phys_end _ _ _ _ _ _ 3000 Hk)
    as [[Ha _]|(r & k' & Ha & Hr)]; [lia|done|done| |].
  - rewrite demo_alloc1_eq in Ha. discriminate Ha.
  - rewrite demo_alloc1_eq in Ha. apply PagingRun.some_pair_eq in Ha as [-> ->].
    destruct Hr as [[? _]|(_ & _ & _ & Hr)]; [lia|exact Hr].
Qed.

Definition demo_objects : gmap Z Z := <[0xFFFF800002005FB0 := 60]> {[0xFFFFFF0000000000 := 3000]}.

Lemma demo_ok2 : heap_ok demo_hhdm demo_end demo_alloc2.2 (pa_held PmallocRun.demo_state) (fun _ => False) demo_objects.
Proof.
  destruct demo_ok1 as (T & B & Hk).
  destruct (alloc_small demo_hhdm demo_end demo_hhdm_page demo_hhdm_range demo_phys_end _ _ _ _ _ _ 60 Hk)
    as (r & k' & Ha & Hr); [lia|].
  rewrite demo_alloc2_eq in Ha. apply PagingRun.some_pair_eq in Ha as [-> ->].
  destruct Hr as [[? _]|(_ & _ & _ & Hr)]; [lia|exact Hr].
Qed.

Lemma heap_alloc_correct_witness : exists r k', alloc demo_hhdm 60 demo_alloc1.2 = Some (r, k') /\ r = 0xFFFF800002005FB0.
Proof.
  destruct (heap_alloc_correct demo_hhdm demo_end demo_hhdm_page demo_hhdm_range demo_phys_end
    demo_alloc1.2 _ _ _ 60 demo_ok1 ltac:(lia) ltac:(unfold PAGE_SIZE; lia)) as [(_ & H & _)|(r & k' & Ha & _)]; [lia|].
  exists r, k'. split; [exact Ha|]. rewrite demo_alloc2_eq in Ha. by apply PagingRun.some_pair_eq in Ha as [-> _].
Defined.

Lemma heap_free_correct_witness : exists k', free demo_hhdm 0xFFFFFF0000000000 3000 demo_alloc2.2 = Some k'.
Proof.
  destruct (heap_free_correct demo_hhdm demo_end demo_hhdm_page demo_hhdm_range demo_phys_end
    demo_alloc2.2 _ _ demo_objects 0xFFFFFF0000000000 3000 demo_ok2 eq_refl) as (k' & H & _).
  exists k'. exact H.
Defined.



Lemma alloc_backed_correct_witness : exists r k', alloc_backed demo_hhdm 3000 RW Paging.WriteBack demo_kernel = Some (r, k') /\ 0 < r.
Proof.
  destruct demo_heap_ok as (T & B & Hc & Hrg & _).
  assert (Hv : fst <$> alloc_backed demo_hhdm 3000 RW Paging.WriteBack demo_kernel = Some 0xFFFFFF0000000000) by (vm_compute; reflexivity).
  destruct (alloc_backed_correct demo_hhdm demo_end demo_hhdm_page demo_hhdm_range demo_phys_end
    demo_kernel T B _ 3000 RW Paging.WriteBack Hc Hrg ltac:(lia) ltac:(unfold PAGE_SIZE; lia) eq_refl)
    as [[H _]|(r & k' & _ & _ & H & _)]; rewrite H in Hv; [discriminate Hv|].
  exists r, k'. split; [exact H|]. injection Hv as ->. lia.
Defined.

Lemma free_backed_correct_witness : exists rg k', rg ∈ regions demo_alloc2.2 /\
  free_backed demo_hhdm (base rg) (size rg) demo_alloc2.2 = Some k'.
Proof.
  destruct demo_ok2 as (T & B & Hc & Hrg & HL & _).
  destruct (HL 0xFFFFFF0000000000 3000 eq_refl) as [_ [[? _]|[?|(_ & _ & rg & Hin & Hb & Hs & Hall)]]]; [lia|discriminate|].
  destruct (free_backed_correct demo_hhdm demo_end demo_hhdm_page demo_hhdm_range demo_phys_end
    demo_alloc2.2 T B _ rg Hc Hrg Hin) as (k' & B' & H & _).
  - rewrite Hb, Hs. intros x Hx. destruct (Hall x Hx) as [phys ->]. by eexists.
  - exists rg, k'. split; [exact Hin|exact H].
Defined.

End VSpaceRun.
