(* ===== verification/ProcMem.v ===== *)
(** * The address space of a process (src/src/sched/process.cpp)

    A process has an address allocator, a page map and a tree of its mappings.
    [allocate], [free], [protect], [handle_pagefault], [clone] and the destructor
    keep the three together.  The machine is a [kmem] of VSpace.v, with the kernel
    heap for the nodes, the address allocator and the page map of the process; the
    tree of mappings, ordered by their base, is the sequence of its elements
    (RbTree.v).  [allocate] is without a second mapping for the kernel.  [None] is a
    panic or a loop that does not end within the fuel. *)

From S2P Require Import Prelude Bits PageAlloc VMem Paging Slab VSpace.

Module ProcMem.
Import VSpace(mkK, heap, vmem, page_map, pages, with_pages, with_heap, with_vmem, with_map, unback, unback_loop).

(** [MemoryAllocFlags] *)
Definition MF_None : Z := 0.
Definition MF_Backed : Z := 8.
Definition MF_Demand : Z := 16.
Definition MF_Fixed : Z := 32.
Definition mf_and (lhs rhs : Z) : bool := negb (Z.land lhs rhs =? 0).

Record Mapping := mkMapping { node : Z; base : Z; size : Z; prot : Z; flags : Z }.
#[global] Instance Mapping_dec : EqDecision Mapping.
Proof. solve_decision. Defined.

(** [sizeof(Mapping)] *)
Definition MAPPING_SIZE : Z := 72.

(** ** The tree of mappings *)

(** The loop that goes down from the root. *)
Inductive tree := Leaf | Node (l : tree) (m : Mapping) (r : tree).
Fixpoint inorder (t : tree) : list Mapping := match t with Leaf => [] | Node l m r => inorder l ++ m :: inorder r end.
Fixpoint descend (addr : Z) (t : tree) : option Mapping :=
  match t with
  | Leaf => None
  | Node l m r =>
      if addr <? base m then descend addr l
      else if addr >=? base m ⊞ size m then descend addr r
      else Some m
  end.

(** What it finds in a tree with these elements. *)
Definition covers (addr : Z) (m : Mapping) : Prop := base m <= addr < base m ⊞ size m.
#[global] Instance covers_dec addr m : Decision (covers addr m).
Proof. unfold covers. apply _. Defined.
Definition locate (addr : Z) (ms : list Mapping) : option Mapping := snd <$> list_find (covers addr) ms.

(** [insert] fails its assertion when the base is there. *)
Fixpoint insert (m : Mapping) (ms : list Mapping) : option (list Mapping) :=
  match ms with
  | [] => Some [m]
  | x :: ms =>
      if base m <? base x then Some (m :: x :: ms)
      else if base m =? base x then None
      else ms ← insert m ms; Some (x :: ms)
  end.
Definition find (ptr : Z) (ms : list Mapping) : option Mapping := snd <$> list_find (fun m => base m = ptr) ms.

Section WithPages.
Context {A : Type} {PA : PageAlloc A}.
Variable HHDM_START : Z.
Notation kmem := (VSpace.kmem (A := A)).

Record proc := mkProc { km : kmem; mappings : list Mapping }.
Definition with_km (k : kmem) (p : proc) : proc := mkProc k (mappings p).
Definition with_mappings (ms : list Mapping) (p : proc) : proc := mkProc (km p) ms.

(** [new Mapping] and [delete]. *)
Definition new_node (k : kmem) : option (Z * kmem) :=
  '(ret, h, a) ← Slab.slab_alloc HHDM_START MAPPING_SIZE (heap k) (pages k);
  _ ← assert (negb (ret =? 0));
  Some (ret, with_heap h (with_pages a k)).
Definition delete_node (n : Z) (k : kmem) : option kmem :=
  '(h, a) ← Slab.slab_free HHDM_START n MAPPING_SIZE (heap k) (pages k);
  Some (with_heap h (with_pages a k)).

Definition add_mapping (b n pr fl : Z) (p : proc) : option proc :=
  '(nd, k) ← new_node (km p);
  ms ← insert (mkMapping nd b n pr fl) (mappings p);
  Some (mkProc k ms).

Definition xalloc (n min max : Z) (k : kmem) : option (Z * kmem) :=
  '(r, v, a) ← VMem.xalloc n min max (vmem k) (pages k);
  Some (r, with_vmem v (with_pages a k)).
Definition xfree (ptr n : Z) (k : kmem) : option kmem :=
  v ← VMem.xfree ptr n (vmem k); Some (with_vmem v k).

(** ** Giving pages back *)

Definition count (n : Z) : nat := Z.to_nat (ALIGNUP n PAGE_SIZE / PAGE_SIZE).

(** A page that may have nothing behind it. *)
Definition undemand (virt : Z) (k : kmem) : option kmem :=
  phys ← Paging.get_phys virt (page_map k);
  m ← Paging.unmap virt (page_map k);
  let k := with_map m k in
  if negb (phys =? 0) then a ← pa_free phys (pages k); Some (with_pages a k) else Some k.
Definition unmap_only (virt : Z) (k : kmem) : option kmem :=
  m ← Paging.unmap virt (page_map k); Some (with_map m k).

Fixpoint each_page (f : Z -> kmem -> option kmem) (n : nat) (virt : Z) (k : kmem) : option kmem :=
  match n with
  | O => Some k
  | S n => k ← f virt k; each_page f n (virt ⊞ PAGE_SIZE) k
  end.

(** The three loops of [free]. *)
Definition release (fl b n : Z) (k : kmem) : option kmem :=
  if mf_and fl MF_Backed then each_page unback (count n) b k
  else if mf_and fl MF_Demand then each_page undemand (count n) b k
  else each_page unmap_only (count n) b k.

Definition free (ptr : Z) (p : proc) : option (bool * proc) :=
  match find ptr (mappings p) with
  | None => Some (false, p)
  | Some m =>
      k ← release (flags m) (base m) (size m) (km p);
      k ← xfree (base m) (size m) k;
      ms ← list_remove m (mappings p);
      k ← delete_node (node m) k;
      Some (true, mkProc k ms)
  end.

(** ** Taking mappings apart *)

(** The rest of a mapping that is not in the range stays, as new mappings. *)
Definition keep_part (b n : Z) (m : Mapping) (p : proc) : option proc :=
  '(a, k) ← xalloc n b b (km p);
  _ ← assert (negb (a =? 0));
  add_mapping b n (prot m) (flags m) (with_km k p).

Definition keep_front (at_start : Z) (m : Mapping) (p : proc) : option proc :=
  if negb (at_start =? 0) then keep_part (base m) at_start m p else Some p.
Definition keep_back (range_end : Z) (m : Mapping) (p : proc) : option proc :=
  let node_end := base m ⊞ size m in
  if range_end <? node_end then keep_part range_end (node_end ⊟ range_end) m p else Some p.

Definition detach (m : Mapping) (p : proc) : option proc :=
  ms ← list_remove m (mappings p);
  k ← xfree (base m) (size m) (km p);
  Some (mkProc k ms).

(** The loop of [allocate] with [Fixed]; without a mapping at the address it goes
    round with the same [i]. *)
Fixpoint carve (fuel : nat) (real_base sz i : Z) (p : proc) : option proc :=
  match fuel with
  | O => None
  | S fuel =>
      if negb (i <? sz) then Some p
      else
        let addr := real_base ⊞ i in
        match locate addr (mappings p) with
        | None => carve fuel real_base sz i p
        | Some m =>
            p ← detach m p;
            let at_start := addr ⊟ base m in
            p ← keep_front at_start m p;
            p ← keep_back (real_base ⊞ sz) m p;
            let to_unmap := Z.min (size m ⊟ at_start) (sz ⊟ i) in
            k ← (if mf_and (flags m) MF_Backed then each_page unback (count to_unmap) addr (km p)
                 else if mf_and (flags m) MF_Demand then each_page undemand (count to_unmap) addr (km p)
                 else Some (km p));
            k ← delete_node (node m) k;
            carve fuel real_base sz (i ⊞ (size m ⊟ at_start)) (with_km k p)
        end
  end.

(** ** Allocation *)

(** The cleanup of [allocate] after [i] pages: the page at hand is not given back. *)
Definition roll_back (virt sz : Z) (i : nat) (k : kmem) : option kmem :=
  k ← each_page unback i virt k; xfree virt sz k.

Fixpoint back (n : nat) (virt sz pr : Z) (cache_mode : Paging.CacheMode) (i : nat) (k : kmem) : option (bool * kmem) :=
  match n with
  | O => Some (true, k)
  | S n =>
      match pa_alloc (pages k) with
      | (None, a) => k ← roll_back virt sz i (with_pages a k); Some (false, k)
      | (Some phys, a) =>
          '(ok, m) ← Paging.map (virt ⊞ Z.of_nat i * PAGE_SIZE) phys pr cache_mode (page_map (with_pages a k));
          let k := with_map m k in
          if negb ok then k ← roll_back virt sz i k; Some (false, k)
          else back n virt sz pr cache_mode (S i) k
      end
  end.

(** From the allocation of the addresses on, without the mapping into the kernel that the
    caller can ask for. *)
Definition allocate_at (real_base sz pr fl : Z) (cache_mode : Paging.CacheMode) (p : proc) : option (Z * proc) :=
  '(virt, k) ← xalloc sz real_base real_base (km p);
  let p := with_km k p in
  if virt =? 0 then Some (0, p)
  else
    '(ok, k) ← (if mf_and fl MF_Backed then back (count sz) virt sz pr cache_mode 0 (km p) else Some (true, km p));
    if negb ok then Some (0, with_km k p)
    else p ← add_mapping virt sz pr fl (with_km k p); Some (virt, p).

Definition allocate (fuel : nat) (ptr sz pr fl : Z) (cache_mode : Paging.CacheMode) (p : proc) : option (Z * proc) :=
  let real_base := ALIGNDOWN ptr PAGE_SIZE in
  let sz := ALIGNUP sz PAGE_SIZE in
  if sz =? 0 then Some (0, p)
  else
    p ← (if mf_and fl MF_Fixed then carve fuel real_base sz 0 p else Some p);
    allocate_at real_base sz (Z.lor pr Paging.PF_User) fl cache_mode p.

(** ** Protection *)

Definition protect_page (pr : Z) (virt : Z) (k : kmem) : option kmem :=
  m ← Paging.protect virt pr Paging.WriteBack (page_map k); Some (with_map m k).

Fixpoint protect_loop (fuel : nat) (ptr sz pr i : Z) (p : proc) : option (bool * proc) :=
  match fuel with
  | O => None
  | S fuel =>
      if negb (i <? sz) then Some (true, p)
      else
        let addr := ptr ⊞ i in
        match locate addr (mappings p) with
        | None => Some (false, p)
        | Some m =>
            if (base m =? addr) && (base m ⊞ size m =? ptr ⊞ sz) && (prot m =? pr)
            then protect_loop fuel ptr sz pr (i ⊞ size m) p
            else
              p ← detach m p;
              let at_start := addr ⊟ base m in
              p ← keep_front at_start m p;
              p ← keep_back (ptr ⊞ sz) m p;
              let to_protect := Z.min (size m ⊟ at_start) (sz ⊟ i) in
              '(a, k) ← xalloc to_protect addr addr (km p);
              _ ← assert (negb (a =? 0));
              k ← each_page (protect_page pr) (count to_protect) addr k;
              ms ← insert (mkMapping (node m) addr to_protect pr (flags m)) (mappings p);
              protect_loop fuel ptr sz pr (i ⊞ (to_protect ⊟ at_start)) (mkProc k ms)
        end
  end.

Definition protect (fuel : nat) (ptr sz pr : Z) (p : proc) : option (bool * proc) :=
  if negb (Z.land ptr (PAGE_SIZE - 1) =? 0) || negb (Z.land sz (PAGE_SIZE - 1) =? 0) then Some (false, p)
  else protect_loop fuel ptr sz (Z.lor pr Paging.PF_User) 0 p.

(** ** Page faults *)

Definition handle_pagefault (addr : Z) (p : proc) : option (bool * proc) :=
  let addr := ALIGNDOWN addr PAGE_SIZE in
  match locate addr (mappings p) with
  | None => Some (false, p)
  | Some m =>
      if mf_and (flags m) MF_Demand then
        phys ← Paging.get_phys addr (page_map (km p));
        if negb (phys =? 0) then Some (false, p)
        else
          match pa_alloc (pages (km p)) with
          | (None, a) => Some (false, with_km (with_pages a (km p)) p)
          | (Some page, a) =>
              '(ok, m) ← Paging.map addr page (prot m) Paging.WriteBack (page_map (with_pages a (km p)));
              let k := with_map m (km p) in
              if negb ok then a ← pa_free page (pages k); Some (false, with_km (with_pages a k) p)
              else Some (true, with_km k p)
          end
      else Some (false, p)
  end.

(** ** The destructor *)

(** The loop over the pages of a mapping. *)
Definition destroy_page (fl virt : Z) (k : kmem) : option kmem :=
  phys ← Paging.get_phys virt (page_map k);
  m ← Paging.unmap virt (page_map k);
  let k := with_map m k in
  if mf_and fl MF_Backed || mf_and fl MF_Demand && negb (phys =? 0)
  then a ← pa_free phys (pages k); Some (with_pages a k) else Some k.

Fixpoint destroy_loop (ms : list Mapping) (p : proc) : option proc :=
  match ms with
  | [] => Some p
  | m :: rest =>
      k ← each_page (destroy_page (flags m)) (count (size m)) (base m) (km p);
      k ← xfree (base m) (size m) k;
      ms' ← list_remove m (mappings p);
      k ← delete_node (node m) k;
      destroy_loop rest (mkProc k ms')
  end.

Definition destroy (p : proc) : option proc :=
  p ← destroy_loop (mappings p) p;
  '(v, a) ← VMem.destroy true (vmem (km p)) (pages (km p));
  Some (with_km (with_vmem v (with_pages a (km p))) p).

(** With the destructor of the page map, which comes after it. *)
Definition delete_space (p : proc) : option proc :=
  p ← destroy p;
  m ← Paging.destroy_map (page_map (km p));
  Some (with_km (with_map m (km p)) p).

(** The constructor's part: the range that is managed. *)
Definition USER_START : Z := 0x200000.
Definition new_space (k : kmem) : option proc :=
  '(v, a) ← VMem.init USER_START (0x7FFFFFFFE000 - USER_START) PAGE_SIZE (vmem k) (pages k);
  Some (mkProc (with_vmem v (with_pages a k)) []).

(** ** Copying *)

(** The page that the old process has at the address, in the memory as it is now. *)
Definition old_phys (old : Paging.PageMap) (virt : Z) (k : kmem) : option Z :=
  Paging.get_phys virt (Paging.mkState (Paging.mem (page_map k)) old (Paging.alloc (page_map k))).

(** The pages of a backed mapping; failing here deletes the new process while its
    lock on the mappings is held, which waits for ever.  The contents of the pages
    are not part of the model. *)
Fixpoint copy_pages (old : Paging.PageMap) (n : nat) (virt pr : Z) (k : kmem) : option kmem :=
  match n with
  | O => Some k
  | S n =>
      page_phys ← old_phys old virt k;
      _ ← assert (negb (page_phys =? 0));
      match pa_alloc (pages k) with
      | (None, _) => None
      | (Some new_page, a) =>
          '(ok, m) ← Paging.map virt new_page pr Paging.WriteBack (page_map (with_pages a k));
          if negb ok then None else copy_pages old n (virt ⊞ PAGE_SIZE) pr (with_map m k)
      end
  end.

(** The second test of [Demand] is inside that of [Backed]. *)
Definition clone_one (old : Paging.PageMap) (m : Mapping) (p : proc) : option proc :=
  '(new_addr, k) ← xalloc (size m) (base m) (base m) (km p);
  _ ← assert (negb (new_addr =? 0));
  k ← (if mf_and (flags m) MF_Backed then copy_pages old (count (size m)) (base m) (prot m) k else Some k);
  add_mapping (base m) (size m) (prot m) (flags m) (with_km k p).

Fixpoint clone_loop (old : Paging.PageMap) (ms : list Mapping) (p : proc) : option proc :=
  match ms with
  | [] => Some p
  | m :: ms => p ← clone_one old m p; clone_loop old ms p
  end.

(** The rest of the machine as the new process has left it. *)
Definition share (k k' : kmem) : kmem :=
  mkK (heap k') (vmem k) (VSpace.regions k) (Paging.mkState (Paging.mem (page_map k')) (Paging.pm (page_map k)) (pages k')).

(** [clone] gives the old and the new process; [kernel] is the top table of the
    kernel's page map. *)
Definition clone (kernel : Z) (p : proc) : option (proc * proc) :=
  s ← Paging.new_map (Some kernel) (Paging.mem (page_map (km p))) (pages (km p));
  new ← new_space (mkK (heap (km p)) VMem.empty_vmem [] s);
  new ← clone_loop (Paging.pm (page_map (km p))) (mappings p) new;
  Some (with_km (share (km p) (km new)) p, new).

End WithPages.
End ProcMem.
