(* ===== verification/ProcRun.v ===== *)
(** * The account of a process's pages

    The invariant of VSpaceInv.v, with what it leaves open: in the range of the
    process a page that is not backed has an empty entry, so that [get_phys]
    returns zero for it.  [look] is what the processor sees, up to the user bit. *)

From stdpp Require Import sorting.
From S2P Require Import Prelude Bits PageAlloc VMem VMemInv VMemAlloc VMemRun VMemPages Paging PagingRun PagingLeaf Slab SlabRun VSpace VSpaceRun ProcMem.


Module ProcInv.
Import VSpace VSpaceInv ProcMem.

Section Pages.
Context {A : Type} {PA : PageAlloc A}.
Variables HHDM_START PHYS_END : Z.
Hypothesis hhdm_page : (PAGE_SIZE | HHDM_START).
Hypothesis hhdm_range : 0 <= HHDM_START /\ HHDM_START + PHYS_END <= 2 ^ 64.
Hypothesis phys_end : forall (a : A) q, pa_ok a -> pa_held a q -> q + PAGE_SIZE <= PHYS_END.

Notation core := (core HHDM_START PHYS_END).
Notation kmem := (kmem (A := A)).
Notation root k := (Paging.level0 (Paging.pm (page_map k))).
Notation mem k := (Paging.mem (page_map k)).

Record kcore (k : kmem) (T : gmap (list nat) Z) (B : gmap Z (Z * Z)) (O : Z -> Prop) : Prop := {
  kc_core : core k T B O;
  kc_blank : forall x, in_space (vmem k) x -> (PAGE_SIZE | x) -> B !! x = None -> PagingLeaf.leaf (mem k) T x = 0
}.

(** ** What the processor sees *)

Definition look (k : kmem) (v : Z) : option (Z * bool * bool) :=
  (fun a => (PagingInv.a_phys a, PagingInv.a_write a, PagingInv.a_exec a)) <$> PagingInv.translate (mem k) (root k) v.

Definition page (v : Z) : Z := ALIGNDOWN v PAGE_SIZE.

Lemma page_facts v : 0 <= v < 2 ^ 64 -> (PAGE_SIZE | page v) /\ page v <= v < page v + PAGE_SIZE /\ PagingInv.path v = PagingInv.path (page v).
Proof.
  intros Hv. unfold page. change PAGE_SIZE with (2 ^ 12). rewrite ALIGNDOWN_spec by (unfold fits; lia).
  pose proof (Z.div_mod v (2 ^ 12)). pose proof (Z.mod_pos_bound v (2 ^ 12)). set (n := v / 2 ^ 12) in *.
  split_and!; [by exists n|lia|lia|]. unfold PagingInv.path, Paging.indices. cbv zeta.
  assert (E : Z.shiftr v 12 = Z.shiftr (n * 2 ^ 12) 12).
  { rewrite !Z.shiftr_div_pow2 by lia. rewrite Z.div_mul by lia. done. }
  by rewrite E.
Qed.

(** An address in a page of the process's range. *)
Definition in_range (k : kmem) (v : Z) : Prop := 0 <= v < 2 ^ 64 /\ in_space (vmem k) (page v).

Lemma look_eq k T B O v : kcore k T B O -> in_range k v ->
  look k v = match B !! page v with
             | Some (phys, fl) => Some (Z.lor phys (Z.land v 0xFFF), Paging.pf_and fl Paging.PF_Write, Paging.pf_and fl Paging.PF_Execute)
             | None => None
             end.
Proof.
  intros [Hc Hb] [Hv Hs]. destruct (page_facts v Hv) as (Hd & _ & Hp). unfold look. destruct (B !! page v) as [[phys fl]|] eqn:E.
  - destruct (co_back _ _ _ _ _ _ Hc _ _ _ E) as (_ & _ & Hvis). destruct (Hvis v Hp) as [u ->]. done.
  - assert (PagingLeaf.leaf (mem k) T v = 0) as Hz.
    { pose proof (Hb _ Hs Hd E) as H. unfold PagingLeaf.leaf, PagingLeaf.index3 in *. by rewrite Hp. }
    rewrite (PagingLeaf.leaf_zero_unseen _ T v); [done|apply (co_map _ _ _ _ _ _ Hc)| |done].
    pose proof (co_small _ _ _ _ _ _ Hc _ Hs) as Hl. unfold PagingInv.large in *. by rewrite Hp.
Qed.

Lemma kcore_other k T B O O' : (forall q, O q <-> O' q) -> kcore k T B O -> kcore k T B O'.
Proof. intros H [H1 H2]. split; [by apply (core_other _ _ _ _ _ O)|done]. Qed.

(** ** Steps *)

Lemma k_take k T B O p a' : kcore k T B O -> pa_alloc (pages k) = (Some p, a') ->
  kcore (with_pages a' k) T B (fun q => O q \/ q = p) /\ (PAGE_SIZE | p) /\ 0 < p < 2 ^ 52 /\ ~ O p.
Proof. intros [Hc Hb] Ha. destruct (core_take _ _ k T B O p a' Hc Ha) as (H1 & H2 & H3 & H4). done. Qed.

Lemma k_give k T B O p : kcore k T B O -> O p ->
  exists a', pa_free p (pages k) = Some a' /\ kcore (with_pages a' k) T B (fun q => O q /\ q <> p).
Proof. intros [Hc Hb] Hp. destruct (core_give _ _ k T B O p Hc Hp) as (a' & H1 & H2). exists a'. done. Qed.

Lemma k_map k T B O p virt fl cm : kcore k T B O -> O p -> (PAGE_SIZE | p) -> 0 < p < 2 ^ 52 ->
  in_space (vmem k) virt -> (PAGE_SIZE | virt) -> B !! virt = None -> Paging.pf_and fl Paging.PF_Read = true ->
  exists (ok : bool) m T', Paging.map virt p fl cm (page_map k) = Some (ok, m) /\
    if ok then kcore (with_map m k) T' (<[virt := (p, fl)]> B) (fun q => O q /\ q <> p)
    else kcore (with_map m k) T' B O /\ PagingInv.no_pages (pages (with_map m k)).
Proof.
  intros [Hc Hb] Hp Hd Hr Hin Hv HB Hrd. destruct (core_map _ _ k T B O p virt fl cm Hc Hp Hd Hr Hin Hv HB Hrd) as (ok & m & T' & Hm & Hres).
  exists ok, m, T'. split; [done|]. pose proof (co_space _ _ _ _ _ _ Hc) as Hsp.
  assert (Hleaf : PagingInv.wf m T' -> forall x, in_space (vmem k) x -> (PAGE_SIZE | x) -> B !! x = None -> ok = false \/ x <> virt ->
    PagingLeaf.leaf (Paging.mem m) T' x = 0).
  { intros W x Hx Hxd Hxn Hor. rewrite <- (Hb x Hx Hxd Hxn).
    apply (PagingLeaf.map_leaf (page_map k) m T T' virt p fl cm ok (co_map _ _ _ _ _ _ Hc)
      (PagingInv.page_mask _ Hd ltac:(lia)) (co_small _ _ _ _ _ _ Hc _ Hin) Hm W x).
    destruct Hor as [?|Hne]; [by left|right]. intros E. apply Hne. by apply (space_path HHDM_START PHYS_END (vmem k)). }
  destruct ok.
  - split; [done|]. intros x Hx Hxd Hxn. apply lookup_insert_None in Hxn as [Hxn Hne].
    apply Hleaf; [apply Hres|done..|right; congruence].
  - destruct Hres as [Hc' Hnp]. split; [|done]. split; [done|]. intros x Hx Hxd Hxn. apply Hleaf; [apply Hc'|done..|by left].
Qed.

Lemma unback_mem virt (k k' : kmem) : unback virt k = Some k' -> exists m, Paging.unmap virt (page_map k) = Some m /\ mem k' = Paging.mem m.
Proof.
  unfold unback. intros H. destruct (Paging.get_phys virt (page_map k)); [|done]. cbn [mbind option_bind] in H.
  destruct (Paging.unmap virt (page_map k)) as [m|]; [|done]. cbn [mbind option_bind] in H.
  destruct (pa_free _ _); [|done]. cbn in H. injection H as <-. by exists m.
Qed.

Lemma unmap_blank (k : kmem) T B O virt m (k' : kmem) : kcore k T B O -> in_space (vmem k) virt -> Paging.unmap virt (page_map k) = Some m ->
  (PAGE_SIZE | virt) -> mem k' = Paging.mem m -> vmem k' = vmem k ->
  forall x, in_space (vmem k') x -> (PAGE_SIZE | x) -> delete virt B !! x = None -> PagingLeaf.leaf (mem k') T x = 0.
Proof.
  intros [Hc Hb] Hin Hm Hd Em Ev x. rewrite Ev, Em. intros Hx Hxd Hxn.
  destruct (PagingLeaf.unmap_leaf (page_map k) m T virt (co_map _ _ _ _ _ _ Hc) (co_small _ _ _ _ _ _ Hc _ Hin) Hm) as [H0 Ho].
  destruct (decide (x = virt)) as [->|Hne]; [done|]. rewrite lookup_delete_ne in Hxn by done. rewrite Ho; [by apply Hb|].
  intros E. apply Hne. by apply (space_path _ _ _ x virt (co_space _ _ _ _ _ _ Hc)).
Qed.

(** Unmapping a page with nothing behind it. *)
Lemma k_unmap k T B O virt : kcore k T B O -> in_space (vmem k) virt -> (PAGE_SIZE | virt) -> B !! virt = None ->
  exists m, Paging.unmap virt (page_map k) = Some m /\ kcore (with_map m k) T B O.
Proof.
  intros Hk Hin Hd HB. pose proof Hk as [Hc Hb]. pose proof Hc as [H1 H2 H3 H4 H5 H6 H7 H8].
  destruct (PagingInv.unmap_spec (page_map k) T virt H3) as (m & Hm & W & Epm & Eal & Hother & _ & Hthis & Hlg).
  exists m. split; [done|]. split.
  - split; unfold with_map, pages in *; simpl; try (rewrite ?Eal, ?Epm; done).
    + rewrite Epm. intros x Hx. rewrite Hlg. by apply H7.
    + intros x phys fl Hx. destruct (H8 x phys fl Hx) as (Hxd & Hxi & Hxv). split_and!; [done|done|].
      intros v E. rewrite Epm, Hother; [by apply Hxv|]. rewrite E. intros E'. assert (x = virt) by (by apply (space_path HHDM_START PHYS_END (vmem k))). congruence.
  - intros x Hx Hxd Hxn. apply (unmap_blank k T B O virt m (with_map m k)); try done. by rewrite delete_id.
Qed.

(** What a step of one of the loops over pages does. *)
Definition page_step (f : Z -> kmem -> option kmem) (Pre : option (Z * Z) -> Prop) : Prop :=
  forall k T B O x, kcore k T B O -> in_space (vmem k) x -> (PAGE_SIZE | x) -> Pre (B !! x) ->
  exists k', f x k = Some k' /\ kcore k' T (delete x B) O /\ heap k' = heap k /\ vmem k' = vmem k.

Lemma unback_step : page_step unback (fun b => is_Some b).
Proof.
  intros k T B O x Hk Hin Hd [[phys fl] HB]. pose proof Hk as [Hc Hb].
  destruct (unback_ok _ _ k T B O x phys fl Hc HB) as (k' & E & Hc' & Eh & Ev & _). exists k'. split_and!; try done. split; [done|].
  destruct (unback_mem _ _ _ E) as (m & Hm & Em). by apply (unmap_blank k T B O x m k').
Qed.

Lemma get_phys_blank k T B O x : kcore k T B O -> in_space (vmem k) x -> (PAGE_SIZE | x) -> B !! x = None ->
  Paging.get_phys x (page_map k) = Some 0.
Proof.
  intros [Hc Hb] Hin Hd HB.
  rewrite (PagingLeaf.get_phys_leaf _ T x (co_map _ _ _ _ _ _ Hc) (co_small _ _ _ _ _ _ Hc _ Hin) (page_low x Hd)).
  by rewrite (Hb x Hin Hd HB).
Qed.

Lemma get_phys_backed k T B O x phys fl : kcore k T B O -> B !! x = Some (phys, fl) ->
  Paging.get_phys x (page_map k) = Some phys /\ 0 < phys.
Proof.
  intros [Hc Hb] HB. destruct (co_back _ _ _ _ _ _ Hc _ _ _ HB) as (Hd & Hin & Hvis). destruct (Hvis x eq_refl) as [u Hs].
  destruct (PagingInv.get_phys_spec (page_map k) T x (co_map _ _ _ _ _ _ Hc)) as (y & -> & Hy).
  specialize (Hy _ Hs). cbn [PagingInv.a_phys] in Hy. rewrite page_low, Z.lor_0_r in Hy by done. subst y. split; [done|].
  pose proof (co_acct _ _ _ _ _ _ Hc) as [Hh _]. apply (pa_page (pages k) phys (core_ok _ _ _ _ _ _ Hc)). apply Hh. exists (UBack x). by exists fl.
Qed.

Lemma unmap_step : page_step unmap_only (fun b => b = None).
Proof.
  intros k T B O x Hk Hin Hd HB. destruct (k_unmap k T B O x Hk Hin Hd HB) as (m & Hm & Hk').
  exists (with_map m k). unfold unmap_only. rewrite Hm. split_and!; try done. by rewrite delete_id.
Qed.

Lemma destroy_step fl : page_step (destroy_page fl)
  (fun b => if mf_and fl MF_Backed then is_Some b else if mf_and fl MF_Demand then True else b = None).
Proof.
  intros k T B O x Hk Hin Hd Hpre. unfold destroy_page. destruct (B !! x) as [[phys f0]|] eqn:HB.
  - destruct (get_phys_backed k T B O x phys f0 Hk HB) as [Hg Hpos]. rewrite Hg. cbn [mbind option_bind].
    destruct (unback_step k T B O x Hk Hin Hd) as (k' & E & Hk' & Eh & Ev); [by rewrite HB|].
    unfold unback in E. rewrite Hg in E. cbn [mbind option_bind] in E.
    assert (mf_and fl MF_Backed || mf_and fl MF_Demand && negb (phys =? 0) = true) as Hc.
    { replace (phys =? 0) with false by lia. rewrite andb_true_r. destruct (mf_and fl MF_Backed); [done|]. by destruct (mf_and fl MF_Demand). }
    destruct (Paging.unmap x (page_map k)) as [m|]; [|done]. cbn [mbind option_bind] in *. rewrite Hc. by exists k'.
  - rewrite (get_phys_blank k T B O x Hk Hin Hd HB). cbn [mbind option_bind].
    destruct (k_unmap k T B O x Hk Hin Hd HB) as (m & Hm & Hk'). rewrite Hm. cbn [mbind option_bind negb Z.eqb].
    destruct (mf_and fl MF_Backed); [by destruct Hpre|]. rewrite andb_false_r. cbn [orb].
    exists (with_map m k). split_and!; try done. by rewrite delete_id.
Qed.

Lemma undemand_step : page_step undemand (fun b => True).
Proof.
  intros k T B O x Hk Hin Hd _. destruct (destroy_step MF_Demand k T B O x Hk Hin Hd I) as (k' & E & H).
  exists k'. split; [|done]. unfold destroy_page in E. unfold undemand.
  destruct (Paging.get_phys x (page_map k)) as [phys|]; [|done]. cbn [mbind option_bind] in *.
  destruct (Paging.unmap x (page_map k)) as [m|]; [|done]. exact E.
Qed.

Lemma each_page_ok f Pre n : page_step f Pre -> forall k T B O virt, kcore k T B O -> (PAGE_SIZE | virt) ->
  VMem._base (vmem k) <= virt -> virt + Z.of_nat n * PAGE_SIZE <= VMem._base (vmem k) + VMem._size (vmem k) ->
  (forall x, page_of virt n x -> Pre (B !! x)) ->
  exists k' B', each_page f n virt k = Some k' /\ kcore k' T B' O /\ heap k' = heap k /\ vmem k' = vmem k /\
    forall x, B' !! x = if decide (page_of virt n x) then None else B !! x.
Proof.
  intros Hf. induction n as [|n IH]; intros k T B O virt Hk Hd Hlo Hhi Hpre.
  { exists k, B. split_and!; try done. intros x. rewrite decide_False; [done|]. intros (j & ? & _). lia. }
  pose proof (co_space _ _ _ _ _ _ (kc_core _ _ _ _ Hk)) as [_ _ Hb He _ _]. unfold PAGE_SIZE in *.
  destruct (Hf k T B O virt Hk) as (k1 & E1 & Hk1 & Eh1 & Ev1); [split; lia|done|apply Hpre, page_of_S; by left|].
  cbn [each_page]. rewrite E1. cbn [mbind option_bind]. unfold add64, PAGE_SIZE. rewrite u64_small by lia.
  assert (Hnot : forall x, page_of (virt + 0x1000) n x -> x <> virt) by (intros x (j & _ & ->); unfold PAGE_SIZE; lia).
  destruct (IH k1 T (delete virt B) O (virt + 0x1000) Hk1) as (k' & B' & E' & Hk' & Eh' & Ev' & HB').
  - apply Z.divide_add_r; [done|]. by exists 1.
  - rewrite Ev1. lia.
  - rewrite Ev1. lia.
  - intros x Hx. rewrite lookup_delete_ne by (by apply not_eq_sym, Hnot). apply Hpre, page_of_S. by right.
  - exists k', B'. split_and!; [done|done|congruence..|]. intros x. rewrite HB'.
    destruct (decide (page_of (virt + 0x1000) n x)) as [Hx|Hx].
    + rewrite decide_True; [done|]. apply page_of_S. by right.
    + destruct (decide (x = virt)) as [->|Hne].
      * rewrite lookup_delete_eq, decide_True; [done|]. apply page_of_S. by left.
      * rewrite lookup_delete_ne, decide_False by (done || (rewrite page_of_S; tauto)). done.
Qed.

(** ** Addresses and nodes *)

Lemma xalloc_took_at sz min max v (a : A) r v' a' : VMemPages.based v a -> VMemPages.aligned PAGE_SIZE v -> (PAGE_SIZE | ALIGNUP sz (VMem._quantum v)) ->
  (PAGE_SIZE | min) -> VMem.xalloc sz min max v a = Some (r, v', a') -> VMemPages.took PAGE_SIZE v a v' a' /\ (PAGE_SIZE | r).
Proof.
  intros Hb Ha Hsz Hmin. unfold VMem.xalloc. cbv zeta. generalize 65%nat. intros fuel H.
  exact (VMemPages.alloc_loop_took PAGE_SIZE page_div64 _ _ _ _ _ _ _ _ _ _ Hb Ha Hsz Hmin H).
Qed.

(** Nothing but the address allocator changes. *)
Definition same_space (k k' : kmem) : Prop := VMem._base (vmem k') = VMem._base (vmem k) /\ VMem._size (vmem k') = VMem._size (vmem k).

Lemma k_xalloc k T B O sz min max : kcore k T B O -> 0 <= min -> 0 <= max -> (PAGE_SIZE | min) ->
  let n := ALIGNUP sz PAGE_SIZE in
  exists r k', xalloc sz min max k = Some (r, k') /\ kcore k' T B O /\ (PAGE_SIZE | r) /\ heap k' = heap k /\ mem k' = mem k /\
    Paging.pm (page_map k') = Paging.pm (page_map k) /\ same_space k k' /\
    ((r = 0 /\ forall b m, VMemAlloc.allocated (vmem k') b m <-> VMemAlloc.allocated (vmem k) b m) \/
     (0 < n /\ 0 < r /\ min <= r /\ r + n <= VMemAlloc.upper min max n /\
      (exists b m, VMemAlloc.available (vmem k) b m /\ b <= r /\ r + n <= b + m) /\
      forall b m, VMemAlloc.allocated (vmem k') b m <-> VMemAlloc.allocated (vmem k) b m \/ b = r /\ m = n)).
Proof.
  intros [Hc Hb] Hmin Hmax Hd n. pose proof (co_vmem _ _ _ _ _ _ Hc) as Hw. pose proof (co_space _ _ _ _ _ _ Hc) as Hsp.
  destruct (VMemAlloc.xalloc_spec _ _ sz min max Hw Hmin Hmax) as (r & v' & a' & Hx & Hw' & Hsc & Hr). pose proof Hw as (_ & (Hok & _) & Hh & _).
  destruct (xalloc_took_at sz min max (vmem k) (pages k) r v' a') as [Ht Hrd];
    [done|apply Hsp|rewrite (sp_quantum _ _ _ Hsp); apply alignup_div|done|done|].
  exists r, (with_vmem v' (with_pages a' k)). unfold xalloc. rewrite Hx. split; [done|]. pose proof Hsc as (E1 & E2 & _).
  assert (Hc' : core (with_vmem v' (with_pages a' k)) T B O).
  { apply core_vmem; [done|done|done|by apply (VMemPages.tk_aligned _ _ _ _ _ Ht), Hsp|].
    apply (acct_grow (pages k) _ _ _ USeg (fun q => q ∈ VMem.seg_page_list v') (co_acct _ _ _ _ _ _ Hc)).
    - apply Ht.
    - intros q u. pose proof (VMemPages.tk_mono _ _ _ _ _ Ht q). destruct u; simpl; naive_solver.
    - apply Ht. }
  split; [|split_and!; try done].
  - split; [done|]. unfold in_space. cbn. rewrite E1, E2. exact Hb.
  - rewrite (sp_quantum _ _ _ Hsp) in Hr. fold n in Hr. destruct Hr as [(-> & Hal & _)|Hr]; [left|right]; done.
Qed.

Lemma k_xfree k T B O ptr sz : kcore k T B O -> VMemAlloc.allocated (vmem k) ptr (ALIGNUP sz PAGE_SIZE) ->
  exists k', xfree ptr sz k = Some k' /\ kcore k' T B O /\ heap k' = heap k /\ page_map k' = page_map k /\ same_space k k' /\
    forall b m, VMemAlloc.allocated (vmem k') b m <-> VMemAlloc.allocated (vmem k) b m /\ b <> ptr.
Proof.
  intros [Hc Hb] Hal. pose proof (co_vmem _ _ _ _ _ _ Hc) as Hw. pose proof (co_space _ _ _ _ _ _ Hc) as Hsp.
  destruct (VMemAlloc.xfree_spec _ _ ptr sz Hw) as [(n & Ha & Hok & _)|(Hno & _)]; [|by destruct (Hno _ Hal)].
  rewrite (sp_quantum _ _ _ Hsp) in Hok. destruct (Hok (VSpaceRun.allocated_inj _ _ _ _ _ Hw Ha Hal)) as (v' & Hx & Hw' & Hsc & Hal').
  exists (with_vmem v' k). unfold xfree. rewrite Hx. split; [done|]. pose proof Hsc as (E1 & E2 & _).
  split; [|done]. split; [by apply (core_xfree _ _ k T B O _ _ v' Hc Hx)|]. unfold in_space. cbn. rewrite E1, E2. exact Hb.
Qed.

(** The size class of the nodes. *)
Definition NODE_CLASS : Z := 3.
Lemma mapping_class : Slab.size_to_index MAPPING_SIZE = NODE_CLASS.
Proof. reflexivity. Qed.

Lemma k_new_node k T B O : kcore k T B O ->
  (new_node HHDM_START k = None /\ SlabRun.full (heap k) NODE_CLASS) \/
  exists nd k', new_node HHDM_START k = Some (nd, k') /\ kcore k' T B O /\ vmem k' = vmem k /\ mem k' = mem k /\
    Paging.pm (page_map k') = Paging.pm (page_map k) /\
    (forall j p, Slab.live (heap k') j p <-> Slab.live (heap k) j p \/ j = NODE_CLASS /\ p = nd) /\ (forall j, ~ Slab.live (heap k) j nd).
Proof.
  intros [Hc Hb]. unfold new_node.
  destruct (SlabRun.slab_alloc_ok HHDM_START PHYS_END hhdm_page hhdm_range phys_end (heap k) (pages k) MAPPING_SIZE
    (co_heap _ _ _ _ _ _ Hc) ltac:(unfold MAPPING_SIZE; lia)) as (nd & h2 & a2 & Hsl & Hw2 & Hres). rewrite Hsl. cbn [mbind option_bind].
  destruct Hres as [(-> & _ & _ & Hfull & _)|Hg]; [left; split; [done|by rewrite mapping_class in Hfull]|right].
  replace (nd =? 0) with false by (pose proof (SlabRun.gi_pos _ _ _ _ _ _ _ Hg); lia). cbn [negb assert mbind option_bind].
  exists nd, (with_heap h2 (with_pages a2 k)). split; [done|].
  pose proof (core_slab_alloc _ _ k T B O MAPPING_SIZE nd h2 a2 Hc Hw2 Hg) as Hc2. rewrite mapping_class in Hg.
  split; [done|]. split_and!; [done|done|done|apply Hg|apply Hg].
Qed.

Lemma k_delete_node k T B O nd : kcore k T B O -> Slab.live (heap k) NODE_CLASS nd ->
  exists k', delete_node HHDM_START nd k = Some k' /\ kcore k' T B O /\ vmem k' = vmem k /\ mem k' = mem k /\
    Paging.pm (page_map k') = Paging.pm (page_map k) /\
    forall j p, Slab.live (heap k') j p <-> Slab.live (heap k) j p /\ p <> nd.
Proof.
  intros [Hc Hb] Hl. unfold delete_node.
  destruct (SlabRun.slab_free_ok HHDM_START PHYS_END hhdm_page hhdm_range phys_end (heap k) (pages k) nd MAPPING_SIZE)
    as (kept & h2 & a2 & Hsl & Hw2 & Htk); [exact (co_heap _ _ _ _ _ _ Hc)|unfold MAPPING_SIZE; lia|by rewrite mapping_class|].
  rewrite Hsl. cbn [mbind option_bind]. exists (with_heap h2 (with_pages a2 k)). split; [done|].
  pose proof (core_slab_free _ _ k T B O _ _ kept h2 a2 Hc Hw2 Htk) as Hc2.
  split; [done|]. split_and!; [done|done|done|apply Htk].
Qed.

End Pages.
End ProcInv.

(** * What the address space of a process promises *)

Module ProcRun.
Import VSpace(heap, vmem, page_map, pages, with_pages, with_heap, with_vmem, with_map, unback).
Import VSpaceInv(page_of, page_of_S, page_of_dec, in_space, alignup_div, alignup_page).
Import ProcMem ProcInv.

(** ** Sequences of mappings *)

Definition before (a b : Mapping) : Prop := base a + size a <= base b.
Definition sound (m : Mapping) : Prop := 0 < size m /\ 0 <= base m /\ base m + size m < 2 ^ 64.

Lemma covers_iff addr m : sound m -> covers addr m <-> base m <= addr < base m + size m.
Proof. intros (? & ? & ?). unfold covers, add64. by rewrite u64_small by lia. Qed.

Lemma before_irrefl m : sound m -> ~ before m m.
Proof. unfold sound, before. lia. Qed.

(** Two mappings of a sequence are the same or apart. *)
Lemma sorted_apart ms : StronglySorted before ms -> forall x y, x ∈ ms -> y ∈ ms -> x = y \/ before x y \/ before y x.
Proof.
  induction 1 as [|a ms Hs IH Ha]; [set_solver|]. rewrite Forall_forall in Ha.
  intros x y [->|Hx]%elem_of_cons [->|Hy]%elem_of_cons; [by left|right; left; auto|right; right; auto|auto].
Qed.

Lemma locate_spec addr ms : StronglySorted before ms -> Forall sound ms ->
  forall m, locate addr ms = Some m <-> m ∈ ms /\ base m <= addr < base m + size m.
Proof.
  intros Hs Hf m. rewrite Forall_forall in Hf. unfold locate. split.
  - intros ([i y] & E & ->)%fmap_Some. apply list_find_Some in E as (Hi & Hc & _). apply list_elem_of_lookup_2 in Hi.
    split; [done|]. apply covers_iff; auto.
  - intros [Hm Ha]. apply covers_iff in Ha; [|auto]. destruct (list_find_elem_of (covers addr) ms m Hm Ha) as [[i y] E]. rewrite E. cbn.
    apply list_find_Some in E as (Hi & Hc & _). apply list_elem_of_lookup_2 in Hi. f_equal.
    destruct (sorted_apart ms Hs m y Hm Hi) as [->|Hb]; [done|].
    apply covers_iff in Ha; [|auto]. apply covers_iff in Hc; [|auto]. unfold before in Hb. lia.
Qed.

(** The loop from the root finds the same mapping in every search tree. *)
Lemma descend_locates addr t : StronglySorted before (inorder t) -> Forall sound (inorder t) -> descend addr t = locate addr (inorder t).
Proof.
  induction t as [|l IHl m r IHr]; intros Hs Hf; [done|]. cbn [inorder descend] in *.
  pose proof Hf as Hf0. rewrite Forall_app, Forall_cons in Hf. destruct Hf as (Hfl & Hm & Hfr).
  assert (Hsl : StronglySorted before (inorder l)) by (by eapply StronglySorted_app_1_l in Hs).
  assert (Hsr : StronglySorted before (inorder r)) by (apply StronglySorted_app_1_r, StronglySorted_inv in Hs; tauto).
  assert (Hsplit : (forall x, x ∈ inorder l -> before x m) /\ (forall x, x ∈ inorder r -> before m x)).
  { split; intros x Hx.
    - eapply (StronglySorted_app_1_elem_of before (inorder l) (m :: inorder r)); [exact Hs|done|left].
    - apply StronglySorted_app_1_r, StronglySorted_inv in Hs as [_ Hs]. rewrite Forall_forall in Hs. auto. }
  destruct Hsplit as [Hl Hr]. rewrite Forall_forall in Hfl, Hfr.
  assert (Hsame : forall o, (forall y, o = Some y <-> y ∈ inorder l ++ m :: inorder r /\ base y <= addr < base y + size y) ->
    o = locate addr (inorder l ++ m :: inorder r)).
  { intros o Ho. destruct o as [y|].
    - symmetry. apply locate_spec; [done|done|]. by apply Ho.
    - destruct (locate addr (inorder l ++ m :: inorder r)) as [y|] eqn:E; [|done]. apply locate_spec in E; [|done|done]. by apply Ho in E. }
  unfold add64. pose proof Hm as (? & ? & ?). rewrite u64_small by lia. apply Hsame. intros y. rewrite elem_of_app, elem_of_cons.
  destruct (Z.ltb_spec addr (base m)); [|destruct (Z.geb_spec addr (base m + size m))].
  - rewrite IHl, locate_spec by (done || by rewrite Forall_forall). split; [naive_solver|]. intros [[?|[->|Hy]] ?]; [done|lia|].
    specialize (Hr y Hy). unfold before in Hr. lia.
  - rewrite IHr, locate_spec by (done || by rewrite Forall_forall). split; [naive_solver|]. intros [[Hy|[->|?]] ?]; [|lia|done].
    specialize (Hl y Hy). unfold before in Hl. lia.
  - split; [intros [= <-]; split; [tauto|lia]|]. intros [[Hy|[->|Hy]] ?]; [|done|].
    + specialize (Hl y Hy). unfold before in Hl. lia.
    + specialize (Hr y Hy). unfold before in Hr. lia.
Qed.

Lemma find_mapping ptr ms : StronglySorted before ms -> Forall sound ms ->
  forall m, find ptr ms = Some m <-> m ∈ ms /\ base m = ptr.
Proof.
  intros Hs Hf m. rewrite Forall_forall in Hf. unfold find. split.
  - intros ([i y] & E & ->)%fmap_Some. apply list_find_Some in E as (Hi & Hc & _). by apply list_elem_of_lookup_2 in Hi.
  - intros [Hm Ha]. destruct (list_find_elem_of (fun m => base m = ptr) ms m Hm Ha) as [[i y] E]. rewrite E. cbn.
    apply list_find_Some in E as (Hi & Hc & _). apply list_elem_of_lookup_2 in Hi. f_equal.
    destruct (sorted_apart ms Hs m y Hm Hi) as [->|Hb]; [done|].
    destruct (Hf m Hm) as (? & _). destruct (Hf y Hi) as (? & _). unfold before in Hb. lia.
Qed.

Lemma insert_mapping m ms : StronglySorted before ms -> Forall sound ms -> sound m ->
  (forall x, x ∈ ms -> before x m \/ before m x) ->
  exists ms', insert m ms = Some ms' /\ StronglySorted before ms' /\ ms' ≡ₚ m :: ms.
Proof.
  intros Hs Hf Hm. induction Hs as [|x ms Hs IH Hx]; intros Hap.
  { exists [m]. split_and!; [done|by repeat constructor|done]. }
  apply Forall_cons in Hf as [Hsx Hf]. rewrite Forall_forall in Hx. cbn [insert]. destruct Hm as (M1 & M2 & M3), Hsx as (X1 & X2 & X3).
  destruct (Hap x ltac:(left)) as [Hb|Hb]; unfold before in Hb.
  - destruct (Z.ltb_spec (base m) (base x)); [lia|]. destruct (Z.eqb_spec (base m) (base x)); [lia|].
    destruct IH as (ms' & -> & Hs' & Hp'); [done|intros y Hy; apply Hap; by right|]. exists (x :: ms'). split; [done|]. split.
    + apply SSorted_cons; [done|]. apply Forall_forall. intros y Hy. rewrite Hp' in Hy. apply elem_of_cons in Hy as [->|Hy]; [done|auto].
    + rewrite Hp'. by constructor.
  - destruct (Z.ltb_spec (base m) (base x)); [|lia]. exists (m :: x :: ms). split; [done|]. split; [|done].
    apply SSorted_cons; [apply SSorted_cons; [done|by apply Forall_forall]|]. apply Forall_cons. split; [done|].
    apply Forall_forall. intros y Hy. specialize (Hx y Hy). unfold before in *. lia.
Qed.

Lemma sorted_sublist (l l' : list Mapping) : l' `sublist_of` l -> StronglySorted before l -> StronglySorted before l'.
Proof.
  induction 1 as [|x l' l Hsub IH|x l' l Hsub IH]; intros Hs; [done| |]; apply StronglySorted_inv in Hs as [Hs Hx].
  - apply SSorted_cons; [auto|]. rewrite Forall_forall in *. intros y Hy. apply Hx. by eapply elem_of_sublist.
  - auto.
Qed.

Lemma sorted_nodup ms : StronglySorted before ms -> Forall sound ms -> NoDup ms.
Proof.
  induction 1 as [|x ms Hs IH Hx]; intros Hf; [constructor|]. apply Forall_cons in Hf as [Hsx Hf]. constructor; [|auto].
  intros Hin. rewrite Forall_forall in Hx. by apply (before_irrefl x), Hx.
Qed.

(** ** The invariant *)

Section Pages.
Context {A : Type} {PA : PageAlloc A}.
Variables HHDM_START PHYS_END : Z.
Hypothesis hhdm_page : (PAGE_SIZE | HHDM_START).
Hypothesis hhdm_range : 0 <= HHDM_START /\ HHDM_START + PHYS_END <= 2 ^ 64.
Hypothesis phys_end : forall (a : A) q, pa_ok a -> pa_held a q -> q + PAGE_SIZE <= PHYS_END.

Notation kcore := (kcore HHDM_START PHYS_END).
Notation kmem := (VSpace.kmem (A := A)).
Notation proc := (proc (A := A)).
Notation sp := (VSpaceInv.co_space _ _ _ _ _ _).

Definition paged (fl : Z) : bool := mf_and fl MF_Backed || mf_and fl MF_Demand.

(** The mappings are the allocated ranges, in order; their nodes are objects of
    the heap.  Every page with memory behind it is in a mapping with such pages, and
    has its permissions; all pages of a backed mapping have memory. *)
Record PInv (p : proc) (T : gmap (list nat) Z) (B : gmap Z (Z * Z)) (O : Z -> Prop) : Prop := {
  pi_core : kcore (km p) T B O;
  pi_sorted : StronglySorted before (mappings p);
  pi_nodes : NoDup (node <$> mappings p);
  pi_map : forall m, m ∈ mappings p -> VMemAlloc.allocated (vmem (km p)) (base m) (size m) /\ (PAGE_SIZE | size m) /\
    Slab.live (heap (km p)) NODE_CLASS (node m) /\ Paging.pf_and (prot m) Paging.PF_Read = true;
  pi_all : forall b n, VMemAlloc.allocated (vmem (km p)) b n -> exists m, m ∈ mappings p /\ base m = b;
  pi_back : forall x phys fl, B !! x = Some (phys, fl) ->
    exists m, m ∈ mappings p /\ base m <= x < base m + size m /\ fl = prot m /\ paged (flags m) = true;
  pi_full : forall m, m ∈ mappings p -> mf_and (flags m) MF_Backed = true ->
    forall x, page_of (base m) (count (size m)) x -> is_Some (B !! x)
}.

Lemma alignup_id n : (PAGE_SIZE | n) -> 0 <= n < 2 ^ 63 -> ALIGNUP n PAGE_SIZE = n.
Proof.
  intros [j ->] Hn. change PAGE_SIZE with (2 ^ 12) in *. rewrite ALIGNUP_spec by lia.
  replace (j * 2 ^ 12 + (2 ^ 12 - 1)) with ((2 ^ 12 - 1) + j * 2 ^ 12) by lia. rewrite Z.div_add by lia.
  rewrite (Z.div_small (2 ^ 12 - 1)) by lia. lia.
Qed.

(** Where an allocated range is. *)
Lemma range_facts k T B O b n : kcore k T B O -> VMemAlloc.allocated (vmem k) b n ->
  (PAGE_SIZE | b) /\ VMem._base (vmem k) <= b /\ 0 < n /\ b + n <= VMem._base (vmem k) + VMem._size (vmem k) /\
  0 < VMem._base (vmem k) /\ VMem._base (vmem k) + VMem._size (vmem k) < 2 ^ 64 /\ n <= 2 ^ 48.
Proof.
  intros [Hc _] Ha. pose proof (VMemRun.wf_bounds _ _ _ _ (VSpaceInv.co_vmem _ _ _ _ _ _ Hc) Ha) as (? & ? & ?).
  pose proof (VSpaceInv.co_space _ _ _ _ _ _ Hc) as [_ Hal ? ? ? _]. split; [|lia].
  destruct Ha as (q & _ & Hq). by destruct (Hal _ _ Hq).
Qed.

Lemma pinv_sound p T B O m : PInv p T B O -> m ∈ mappings p -> sound m.
Proof.
  intros HP Hm. destruct (pi_map _ _ _ _ HP m Hm) as (Ha & _). pose proof (range_facts _ _ _ _ _ _ (pi_core _ _ _ _ HP) Ha). unfold sound. lia.
Qed.
Lemma pinv_sounds p T B O : PInv p T B O -> Forall sound (mappings p).
Proof. intros HP. apply Forall_forall. intros m. by apply (pinv_sound p T B O). Qed.

(** The pages of a range. *)
Lemma range_pages b n x : (PAGE_SIZE | b) -> (PAGE_SIZE | n) -> 0 < n <= 2 ^ 48 ->
  page_of b (count n) x <-> (PAGE_SIZE | x) /\ b <= x < b + n.
Proof.
  intros Hb Hd Hn. pose proof (VSpaceRun.page_of_range b n x ltac:(lia) ltac:(unfold PAGE_SIZE; lia) Hb) as H.
  rewrite alignup_id in H by (done || lia). exact H.
Qed.

Lemma range_count n : (PAGE_SIZE | n) -> 0 < n <= 2 ^ 48 -> Z.of_nat (count n) * PAGE_SIZE = n.
Proof.
  intros Hd Hn. pose proof (VSpaceRun.pages_of_eq n ltac:(lia) ltac:(unfold PAGE_SIZE; lia)) as H.
  rewrite alignup_id in H by (done || lia). exact H.
Qed.

(** The mapping that covers a page. *)
Lemma covered p T B O m m' x : PInv p T B O -> m ∈ mappings p -> m' ∈ mappings p ->
  base m <= x < base m + size m -> base m' <= x < base m' + size m' -> m' = m.
Proof.
  intros HP Hm Hm' H1 H2. destruct (sorted_apart _ (pi_sorted _ _ _ _ HP) m m' Hm Hm') as [?|[?|?]]; [done|unfold before in *; lia..].
Qed.

Lemma node_inj p T B O m m' : PInv p T B O -> m ∈ mappings p -> m' ∈ mappings p -> node m = node m' -> m = m'.
Proof.
  intros HP Hm Hm' E. apply list_elem_of_lookup_1 in Hm as [i Hi]. apply list_elem_of_lookup_1 in Hm' as [j Hj].
  assert (i = j) as ->; [|congruence].
  apply (NoDup_lookup (node <$> mappings p) i j (node m) (pi_nodes _ _ _ _ HP)); rewrite list_lookup_fmap.
  - by rewrite Hi.
  - rewrite Hj. cbn. by rewrite E.
Qed.

(** ** Removing a mapping *)

(** [B'] is [B] without the pages of the range. *)
Definition without (B B' : gmap Z (Z * Z)) (b n : Z) : Prop :=
  forall x, B' !! x = if decide (page_of b (count n) x) then None else B !! x.

Lemma drop_mapping p T B B' O m k : PInv p T B O -> m ∈ mappings p -> kcore k T B' O -> heap k = heap (km p) -> vmem k = vmem (km p) ->
  without B B' (base m) (size m) ->
  exists k1 ms k2, xfree (base m) (size m) k = Some k1 /\ list_remove m (mappings p) = Some ms /\ delete_node HHDM_START (node m) k1 = Some k2 /\
    PInv (mkProc k2 ms) T B' O /\ same_space (km p) k2 /\ (forall x, x ∈ ms <-> x ∈ mappings p /\ x <> m) /\ ms `sublist_of` mappings p.
Proof.
  intros HP Hm Hk Eh Ev HB. destruct (pi_map _ _ _ _ HP m Hm) as (Ha & Hd & Hl & Hrd).
  pose proof (range_facts _ _ _ _ _ _ (pi_core _ _ _ _ HP) Ha) as (Hbd & Hlo & Hn & Hhi & Hb0 & Hend & Hmax).
  destruct (k_xfree _ _ k T B' O (base m) (size m) Hk) as (k1 & E1 & Hk1 & Eh1 & Em1 & Es1 & Hal1).
  { rewrite Ev, alignup_id by (done || lia). done. }
  pose proof (pinv_sounds _ _ _ _ HP) as Hsound. pose proof (sorted_nodup _ (pi_sorted _ _ _ _ HP) Hsound) as Hnd.
  destruct (list_remove_elem m (mappings p) Hm Hnd) as (ms & E2 & _ & Hms).
  destruct (k_delete_node HHDM_START PHYS_END hhdm_page hhdm_range phys_end k1 T B' O (node m) Hk1) as (k2 & E3 & Hk2 & Ev2 & _ & _ & Hlv2).
  { by rewrite Eh1, Eh. }
  exists k1, ms, k2. pose proof (VSpaceRun.list_remove_sublist m _ _ E2) as Hsub. split_and!; try done.
  - split; cbn [km mappings].
    + done.
    + by eapply sorted_sublist, (pi_sorted _ _ _ _ HP).
    + eapply sublist_NoDup; [exact (pi_nodes _ _ _ _ HP)|]. by apply fmap_sublist.
    + intros x Hx. apply Hms in Hx as [Hx Hne]. destruct (pi_map _ _ _ _ HP x Hx) as (Hax & ? & Hlx & ?). split_and!; try done.
      * rewrite Ev2. apply Hal1. rewrite Ev. split; [done|]. intros E. apply Hne.
        apply (covered p T B O m x (base m) HP Hm Hx); [lia|]. destruct (pinv_sound _ _ _ _ x HP Hx) as (? & _). lia.
      * apply Hlv2. rewrite Eh1, Eh. split; [done|]. intros E. apply Hne. by apply (node_inj p T B O).
    + intros b n Hbn. rewrite Ev2 in Hbn. apply Hal1 in Hbn as [Hbn Hne]. rewrite Ev in Hbn. destruct (pi_all _ _ _ _ HP b n Hbn) as (x & Hx & <-).
      exists x. split; [|done]. apply Hms. split; [done|]. by intros ->.
    + intros x phys fl Hx. rewrite HB in Hx. destruct (decide _) as [|Hnp]; [done|].
      destruct (pi_back _ _ _ _ HP x phys fl Hx) as (m' & Hm' & Hc & ? & ?). exists m'. split_and!; try done; try lia. apply Hms. split; [done|]. intros ->.
      apply Hnp. apply range_pages; [done|done|lia|]. split; [|done].
      destruct (VSpaceInv.co_back _ _ _ _ _ _ (kc_core _ _ _ _ _ _ (pi_core _ _ _ _ HP)) _ _ _ Hx) as (Hxd & _). exact Hxd.
    + intros x Hx Hbk y Hy. apply Hms in Hx as [Hx Hne]. rewrite HB. destruct (decide _) as [Hp|]; [|by apply (pi_full _ _ _ _ HP x)].
      destruct Hne. destruct (pi_map _ _ _ _ HP x Hx) as (Hax & Hdx & _). pose proof (range_facts _ _ _ _ _ _ (pi_core _ _ _ _ HP) Hax).
      apply range_pages in Hp; [|done|done|lia]. apply range_pages in Hy; [|tauto|done|lia]. apply (covered p T B O m x y); tauto.
  - destruct Es1 as [S1 S2]. unfold same_space. rewrite Ev2, S1, S2, Ev. done.
Qed.

(** What is behind the pages of a mapping. *)
Lemma mapping_pages p T B O m : PInv p T B O -> m ∈ mappings p -> forall x, page_of (base m) (count (size m)) x ->
  if mf_and (flags m) MF_Backed then is_Some (B !! x) else if mf_and (flags m) MF_Demand then True else B !! x = None.
Proof.
  intros HP Hm x Hx. destruct (mf_and (flags m) MF_Backed) eqn:E1; [by apply (pi_full _ _ _ _ HP m)|].
  destruct (mf_and (flags m) MF_Demand) eqn:E2; [done|]. destruct (B !! x) as [[phys fl]|] eqn:E; [|done].
  destruct (pi_back _ _ _ _ HP x phys fl E) as (m' & Hm' & Hc & _ & Hpg).
  destruct (pi_map _ _ _ _ HP m Hm) as (Ha & Hd & _). pose proof (range_facts _ _ _ _ _ _ (pi_core _ _ _ _ HP) Ha).
  apply range_pages in Hx; [|tauto|done|lia]. rewrite (covered p T B O m m' x HP Hm Hm') in Hpg by tauto. unfold paged in Hpg. by rewrite E1, E2 in Hpg.
Qed.

Lemma pages_step p T B O m f Pre : PInv p T B O -> m ∈ mappings p -> page_step HHDM_START PHYS_END f Pre ->
  (forall x, page_of (base m) (count (size m)) x -> Pre (B !! x)) ->
  exists k B', each_page f (count (size m)) (base m) (km p) = Some k /\ kcore k T B' O /\ heap k = heap (km p) /\ vmem k = vmem (km p) /\
    without B B' (base m) (size m).
Proof.
  intros HP Hm Hf Hpre. destruct (pi_map _ _ _ _ HP m Hm) as (Ha & Hd & _).
  pose proof (range_facts _ _ _ _ _ _ (pi_core _ _ _ _ HP) Ha) as (Hbd & Hlo & Hn & Hhi & _ & _ & Hmax).
  apply (each_page_ok HHDM_START PHYS_END hhdm_range f Pre (count (size m)) Hf); try done; [apply HP|].
  rewrite range_count by (done || lia). lia.
Qed.

Lemma free_mapping p T B O m : PInv p T B O -> m ∈ mappings p ->
  exists k B' ms, free HHDM_START (base m) p = Some (true, mkProc k ms) /\ PInv (mkProc k ms) T B' O /\ same_space (km p) k /\
    without B B' (base m) (size m) /\ forall x, x ∈ ms <-> x ∈ mappings p /\ x <> m.
Proof.
  intros HP Hm. unfold free. pose proof (mapping_pages p T B O m HP Hm) as Hpre.
  assert (find (base m) (mappings p) = Some m) as -> by (apply find_mapping; [apply HP|by apply (pinv_sounds p T B O)|done]).
  assert (Hrel : exists k B', release (flags m) (base m) (size m) (km p) = Some k /\ kcore k T B' O /\ heap k = heap (km p) /\ vmem k = vmem (km p) /\
    without B B' (base m) (size m)).
  { unfold release. destruct (mf_and (flags m) MF_Backed); [|destruct (mf_and (flags m) MF_Demand)].
    - apply (pages_step p T B O m unback _ HP Hm (unback_step _ _) Hpre).
    - apply (pages_step p T B O m undemand _ HP Hm (undemand_step _ _) Hpre).
    - apply (pages_step p T B O m unmap_only _ HP Hm (unmap_step _ _) Hpre). }
  destruct Hrel as (k & B' & -> & Hk & Eh & Ev & HB). cbn [mbind option_bind].
  destruct (drop_mapping p T B B' O m k HP Hm Hk Eh Ev HB) as (k1 & ms & k2 & -> & -> & Hd & HP' & Hs & Hms & _). cbn [mbind option_bind].
  rewrite Hd. by exists k2, B', ms.
Qed.

(** ** Page faults *)

Lemma with_pages_same (k : kmem) : with_pages (pages k) k = k.
Proof. by destruct k as [? ? ? []]. Qed.

(** There was no page for the address or for a table on the way to it. *)
Definition out_of_memory (k : kmem) (x pr : Z) : Prop :=
  PagingInv.no_pages (pages k) \/
  exists phys a s, pa_alloc (pages k) = (Some phys, a) /\ Paging.map x phys pr Paging.WriteBack (page_map (with_pages a k)) = Some (false, s) /\
    PagingInv.no_pages (Paging.alloc s).

(** The same mappings over other pages. *)
Lemma pinv_pages p T B O k T' B' O' : PInv p T B O -> kcore k T' B' O' -> heap k = heap (km p) -> vmem k = vmem (km p) ->
  (forall x phys fl, B' !! x = Some (phys, fl) -> B !! x = Some (phys, fl) \/
     exists m, m ∈ mappings p /\ base m <= x < base m + size m /\ fl = prot m /\ paged (flags m) = true) ->
  (forall x, is_Some (B !! x) -> is_Some (B' !! x)) -> PInv (with_km k p) T' B' O'.
Proof.
  intros [P1 P2 P3 P4 P5 P6 P7] Hk Eh Ev HB HB'. split; cbn [km mappings with_km]; rewrite ?Eh, ?Ev; try done.
  - intros x phys fl Hx. destruct (HB x phys fl Hx) as [Hx'|?]; [by apply (P6 x phys)|done].
  - intros m Hm Hbk x Hx. by apply HB', (P7 m).
Qed.

Lemma pagefault_ok p T B O addr : PInv p T B O -> 0 <= addr < 2 ^ 64 ->
  exists (b : bool) k T' B', handle_pagefault addr p = Some (b, with_km k p) /\ PInv (with_km k p) T' B' O /\ vmem k = vmem (km p) /\
    if b then exists m phys, m ∈ mappings p /\ base m <= page addr < base m + size m /\ mf_and (flags m) MF_Demand = true /\
      B !! page addr = None /\ B' = <[page addr := (phys, prot m)]> B
    else B' = B /\ forall m, m ∈ mappings p -> base m <= page addr < base m + size m -> mf_and (flags m) MF_Demand = true ->
      B !! page addr = None -> out_of_memory (km p) (page addr) (prot m).
Proof.
  intros HP Haddr. destruct (page_facts addr Haddr) as (Hd & _ & _). unfold handle_pagefault. fold (page addr). set (x := page addr) in *.
  pose proof (pi_sorted _ _ _ _ HP) as Hs. pose proof (pinv_sounds _ _ _ _ HP) as Hso.
  assert (Hno : (forall m, m ∈ mappings p -> base m <= x < base m + size m -> mf_and (flags m) MF_Demand = true -> B !! x = None -> out_of_memory (km p) x (prot m)) ->
    exists (b : bool) k T' B', Some (false, p) = Some (b, with_km k p) /\ PInv (with_km k p) T' B' O /\ vmem k = vmem (km p) /\
    if b then exists m phys, m ∈ mappings p /\ base m <= x < base m + size m /\ mf_and (flags m) MF_Demand = true /\ B !! x = None /\ B' = <[x := (phys, prot m)]> B
    else B' = B /\ forall m, m ∈ mappings p -> base m <= x < base m + size m -> mf_and (flags m) MF_Demand = true -> B !! x = None -> out_of_memory (km p) x (prot m)).
  { intros H. exists false, (km p), T, B. destruct p. done. }
  destruct (locate x (mappings p)) as [m|] eqn:El.
  2:{ apply Hno. intros m Hm Hc. pose proof (proj2 (locate_spec x _ Hs Hso m) (conj Hm Hc)). congruence. }
  apply locate_spec in El as [Hm Hc]; [|done|done]. destruct (mf_and (flags m) MF_Demand) eqn:Ed.
  2:{ apply Hno. intros m' Hm' Hc' Hd'. rewrite (covered p T B O m m' x HP Hm Hm' Hc Hc') in Hd'. congruence. }
  destruct (pi_map _ _ _ _ HP m Hm) as (Ha & _ & _ & Hrd). pose proof (pi_core _ _ _ _ HP) as Hk.
  pose proof (range_facts _ _ _ _ _ _ Hk Ha) as (_ & Hlo & _ & Hhi & _). assert (Hin : in_space (vmem (km p)) x) by (split; lia).
  destruct (B !! x) as [[phys fl]|] eqn:HB.
  { destruct (get_phys_backed _ _ _ _ _ _ _ _ _ Hk HB) as [-> Hpos]. cbn [mbind option_bind]. replace (phys =? 0) with false by lia.
    apply Hno. congruence. }
  rewrite (get_phys_blank _ _ _ _ _ _ _ Hk Hin Hd HB). cbn [mbind option_bind negb Z.eqb].
  assert (Huniq : forall k, out_of_memory k x (prot m) -> forall m', m' ∈ mappings p -> base m' <= x < base m' + size m' -> out_of_memory k x (prot m')).
  { intros k Ho m' Hm' Hc'. by rewrite (covered p T B O m m' x HP Hm Hm' Hc Hc'). }
  destruct (pa_alloc (pages (km p))) as [[phys|] a] eqn:Ea.
  - destruct (k_take _ _ _ _ _ _ _ _ Hk Ea) as (Hk1 & Hpd & Hpr & HnO).
    destruct (k_map _ _ _ T B _ phys x (prot m) Paging.WriteBack Hk1 ltac:(by right) Hpd Hpr Hin Hd HB Hrd) as (ok & s & T' & Hmp & Hres).
    rewrite Hmp. cbn [mbind option_bind]. change (with_map s (with_pages a (km p))) with (with_map s (km p)) in Hres. destruct ok; cbn [negb].
    + exists true, (with_map s (km p)), T', (<[x := (phys, prot m)]> B). split; [done|]. split; [|split; [done|by exists m, phys]].
      apply (pinv_pages p T B O); try done.
      * eapply kcore_other; [|exact Hres]. intros q. cbn. split; [naive_solver|]. intros Hq. split; [by left|]. by intros ->.
      * intros y ph fl [[<- [= <- <-]]|[_ ?]]%lookup_insert_Some; [right|by left]. exists m. unfold paged. rewrite Ed, orb_true_r. done.
      * intros y Hy. destruct (decide (x = y)) as [->|]; [rewrite lookup_insert_eq; eauto|by rewrite lookup_insert_ne].
    + destruct Hres as [Hk2 Hnp]. destruct (k_give _ _ _ _ _ _ phys Hk2 ltac:(by right)) as (a2 & Hfr & Hk3). rewrite Hfr. cbn [mbind option_bind].
      exists false, (with_pages a2 (with_map s (km p))), T', B. split; [done|]. split; [|split; [done|split; [done|]]].
      * apply (pinv_pages p T B O); try done; [|by left]. eapply kcore_other; [|exact Hk3]. intros q. cbn. split; [naive_solver|].
        intros Hq. split; [by left|]. by intros ->.
      * intros m' Hm' Hc' _ _. apply Huniq; [|done|done]. right. by exists phys, a, s.
  - pose proof (pa_alloc_ok _ (VSpaceInv.core_ok _ _ _ _ _ _ (kc_core _ _ _ _ _ _ Hk))) as Hal. rewrite Ea in Hal. subst a.
    rewrite with_pages_same. exists false, (km p), T, B. split; [done|]. split; [by destruct p|]. split; [done|]. split; [done|].
    intros m' Hm' Hc' _ _. apply Huniq; [|done|done]. left. unfold PagingInv.no_pages. by rewrite Ea.
Qed.

(** ** The destructor *)

Lemma destroy_loop_ok ms : forall p T B O, PInv p T B O -> mappings p = ms ->
  exists k B', destroy_loop HHDM_START ms p = Some (mkProc k []) /\ PInv (mkProc k []) T B' O /\ B' = ∅.
Proof.
  induction ms as [|m ms IH]; intros p T B O HP E.
  { exists (km p), B. destruct p as [k l]. cbn in E. subst l. split_and!; [done|done|]. apply map_eq. intros x. rewrite lookup_empty.
    destruct (B !! x) as [[phys fl]|] eqn:HB; [|done]. destruct (pi_back _ _ _ _ HP x phys fl HB) as (m & Hm & _). cbn in Hm. set_solver. }
  assert (Hm : m ∈ mappings p) by (rewrite E; left). cbn [destroy_loop].
  destruct (pages_step p T B O m (destroy_page (flags m)) _ HP Hm (destroy_step _ _ (flags m)) (mapping_pages p T B O m HP Hm)) as (k & B1 & -> & Hk & Eh & Ev & HB).
  cbn [mbind option_bind].
  destruct (drop_mapping p T B B1 O m k HP Hm Hk Eh Ev HB) as (k1 & ms' & k2 & -> & Hr & Hdn & HP' & _ & _ & _). cbn [mbind option_bind].
  rewrite Hr. cbn [mbind option_bind]. rewrite Hdn. cbn [mbind option_bind]. rewrite E in Hr. cbn [list_remove] in Hr. rewrite decide_True in Hr by done.
  injection Hr as <-. exact (IH _ T B1 O HP' eq_refl).
Qed.

(** The tables of the map stay until its own destructor gives them back. *)
Definition same_map (k k' : kmem) : Prop := Paging.pm (page_map k') = Paging.pm (page_map k).

Lemma destroy_page_map fl x (k k' : kmem) : destroy_page fl x k = Some k' -> same_map k k'.
Proof.
  unfold destroy_page, same_map. destruct (Paging.get_phys _ _); [|done]. cbn [mbind option_bind].
  unfold Paging.unmap. destruct (Paging.find _ _ _) as [[| |t i]|]; cbn [mbind option_bind]; try done.
  3: unfold Paging.set_entry; destruct (Paging.write_entry _ _ _ _); cbn [mbind option_bind]; try done.
  all: destruct (_ || _); [destruct (pa_free _ _)|]; cbn; try done; by intros [= <-].
Qed.

Lemma each_page_map f n : (forall x (k k' : kmem), f x k = Some k' -> same_map k k') ->
  forall x (k k' : kmem), each_page f n x k = Some k' -> same_map k k'.
Proof.
  intros Hf. induction n as [|n IH]; intros x k k'; cbn [each_page]; [by intros [= <-]|].
  destruct (f x k) as [k1|] eqn:E; [|done]. cbn. intros H%IH. apply Hf in E. unfold same_map in *. congruence.
Qed.

Lemma destroy_loop_map ms : forall (p p' : proc), destroy_loop HHDM_START ms p = Some p' -> same_map (km p) (km p').
Proof.
  induction ms as [|m ms IH]; intros p p'; cbn [destroy_loop]; [by intros [= <-]|].
  destruct (each_page _ _ _ _) as [k|] eqn:E; [|done]. cbn [mbind option_bind].
  apply (each_page_map _ _ (fun x k k' => destroy_page_map (flags m) x k k')) in E.
  unfold xfree. destruct (VMem.xfree _ _ _); [|done]. cbn [mbind option_bind]. destruct (list_remove _ _); [|done]. cbn [mbind option_bind].
  unfold delete_node. destruct (Slab.slab_free _ _ _ _ _) as [[h a]|]; [|done]. cbn [mbind option_bind]. intros H%IH. unfold same_map in *.
  rewrite H. exact E.
Qed.

Lemma destroy_all p T B O : PInv p T B O ->
  exists p', destroy HHDM_START p = Some p' /\ mappings p' = [] /\ same_map (km p) (km p') /\ PagingInv.wf (page_map (km p')) T /\
    (forall q, q ∈ Paging.used_pages (Paging.pm (page_map (km p))) -> exists t, T !! t = Some q) /\
    (forall q t, T !! t = Some q -> ~ O q /\ ~ Slab.owns HHDM_START (heap (km p')) q) /\
    forall q, pa_held (pages (km p')) q <-> O q \/ Slab.owns HHDM_START (heap (km p')) q \/ exists t, T !! t = Some q.
Proof.
  intros HP. destruct (destroy_loop_ok (mappings p) p T B O HP eq_refl) as (k & B' & E & HP' & ->). unfold destroy. rewrite E. cbn [mbind option_bind km].
  apply destroy_loop_map in E. pose proof (kc_core _ _ _ _ _ _ (pi_core _ _ _ _ HP')) as Hc. cbn [km] in Hc, E.
  destruct (VMemRun.destroy_ok _ _ true (VSpaceInv.co_vmem _ _ _ _ _ _ Hc)) as [(_ & v' & a' & -> & Hok & Hh & _)|[[_ (b & n & Hbn)] _]].
  2:{ destruct (pi_all _ _ _ _ HP' b n Hbn) as (m & Hm & _). cbn in Hm. set_solver. }
  cbn [mbind option_bind]. eexists. split; [done|]. split; [done|]. split; [exact E|]. cbn [km with_km].
  pose proof (VSpaceInv.co_acct _ _ _ _ _ _ Hc) as [Hac Hf].
  assert (Hhe : forall q, pa_held a' q <-> O q \/ Slab.owns HHDM_START (heap k) q \/ exists t, T !! t = Some q).
  { intros q. rewrite Hh, Hac. split.
    - intros [[u Hu] Hns]. destruct u; cbn in Hu; [by right; left|done|by right; right| |by left]. destruct Hu as [fl Hu]. by rewrite lookup_empty in Hu.
    - intros Hq. assert (Hu : exists u, VSpaceInv.claims HHDM_START (heap k) (vmem k) T ∅ O q u /\ u <> VSpaceInv.USeg).
      { destruct Hq as [?|[?|?]]; [by exists VSpaceInv.UOther|by exists VSpaceInv.UHeap|by exists VSpaceInv.UTable]. }
      destruct Hu as (u & Hu & Hne). split; [by exists u|]. intros Hin. apply Hne. by apply (Hf q u VSpaceInv.USeg). }
  split_and!; [| | |exact Hhe].
  - apply VSpaceInv.map_frame; [apply (VSpaceInv.co_map _ _ _ _ _ _ Hc)|done| |apply (VSpaceInv.co_used _ _ _ _ _ _ Hc)]. intros t q Hq. apply Hhe. eauto.
  - rewrite <- E. apply (VSpaceInv.co_used _ _ _ _ _ _ Hc).
  - intros q t Hq. split; intros Hn.
    + discriminate (Hf q VSpaceInv.UTable VSpaceInv.UOther (ex_intro _ t Hq) Hn).
    + discriminate (Hf q VSpaceInv.UTable VSpaceInv.UHeap (ex_intro _ t Hq) Hn).
Qed.

Lemma delete_space_ok p T B O : PInv p T B O ->
  exists p', delete_space HHDM_START p = Some p' /\ mappings p' = [] /\ pa_ok (pages (km p')) /\
    forall q, pa_held (pages (km p')) q <->
      O q \/ Slab.owns HHDM_START (heap (km p')) q \/ (exists t, T !! t = Some q) /\ q ∉ Paging.used_pages (Paging.pm (page_map (km p))).
Proof.
  intros HP. destruct (destroy_all p T B O HP) as (p1 & E & Em & Es & W & Hu & Hx & Hh). unfold delete_space. rewrite E. cbn [mbind option_bind].
  destruct (PagingInv.destroy_map_spec _ T W) as (s & -> & _ & Hok & Hh2). cbn [mbind option_bind]. eexists. split; [done|].
  split; [exact Em|]. split; [exact Hok|]. intros q. cbn [km with_km]. rewrite <- Es. unfold pages in *. cbn [with_map page_map heap] in *. rewrite Hh2, Hh. split.
  - intros [[?|[?|?]] ?]; auto.
  - intros Hq. split; [naive_solver|]. intros Hin. rewrite Es in Hin. destruct (Hu q Hin) as [t Ht]. destruct (Hx q t Ht) as [? ?].
    rewrite Es in Hq. naive_solver.
Qed.

(** ** Allocation *)

(** A range that is allocated but has no mapping yet. *)
Record ranged (k : kmem) (virt n : Z) : Prop := {
  rn_alloc : VMemAlloc.allocated (vmem k) virt n;
  rn_page : (PAGE_SIZE | virt);
  rn_size : (PAGE_SIZE | n);
  rn_pos : 0 < n <= 2 ^ 48
}.

(** The pages of everyone else after a failure: one more at most. *)
Definition leaks (O O' : Z -> Prop) : Prop := (forall q, O' q <-> O q) \/ exists phys, ~ O phys /\ forall q, O' q <-> O q \/ q = phys.

Lemma roll_back_ok k T B B' O virt n pr i : kcore k T B' O -> ranged k virt n -> (i <= count n)%nat ->
  VSpaceRun.extends B B' virt pr i -> (forall x, virt <= x < virt + n -> B !! x = None) ->
  exists k', roll_back virt n i k = Some k' /\ kcore k' T B O /\ heap k' = heap k /\ same_space k k' /\
    forall b m, VMemAlloc.allocated (vmem k') b m <-> VMemAlloc.allocated (vmem k) b m /\ b <> virt.
Proof.
  intros Hk [Ha Hd Hdn Hn] Hi [Hx1 Hx2] HB. pose proof (range_facts _ _ _ _ _ _ Hk Ha) as (_ & Hlo & _ & Hhi & _).
  pose proof (range_count n Hdn Hn) as Hcnt. unfold roll_back.
  destruct (each_page_ok HHDM_START PHYS_END hhdm_range unback _ i (unback_step _ _) k T B' O virt Hk Hd Hlo) as (k1 & B1 & -> & Hk1 & Eh & Ev & HB1).
  - unfold PAGE_SIZE in *. nia.
  - intros x Hx. destruct (Hx2 x Hx) as [ph ->]. eauto.
  - cbn [mbind option_bind]. assert (B1 = B) as ->.
    { apply map_eq. intros x. rewrite HB1. destruct (decide _) as [Hp|Hp]; [|by apply Hx1]. symmetry. apply HB.
      apply (VSpaceRun.page_of_mono _ i (count n)), range_pages in Hp; tauto. }
    destruct (k_xfree _ _ k1 T B O virt n Hk1) as (k2 & E2 & Hk2 & Eh2 & _ & [S1 S2] & Hal).
    { rewrite Ev, alignup_id by (done || lia). done. }
    exists k2. rewrite Ev in Hal. split_and!; try done; [congruence|]. unfold same_space. rewrite S1, S2, Ev. done.
Qed.

Lemma back_ok n : forall k T B B' O virt sz pr cm i, kcore k T B' O -> ranged k virt sz -> (i + n = count sz)%nat ->
  VSpaceRun.extends B B' virt pr i -> (forall x, virt <= x < virt + sz -> B !! x = None) -> Paging.pf_and pr Paging.PF_Read = true ->
  exists (ok : bool) k' T' B'' O', back n virt sz pr cm i k = Some (ok, k') /\ kcore k' T' B'' O' /\ heap k' = heap k /\ same_space k k' /\
    if ok then vmem k' = vmem k /\ (forall q, O' q <-> O q) /\ VSpaceRun.extends B B'' virt pr (count sz)
    else B'' = B /\ leaks O O' /\ forall b m, VMemAlloc.allocated (vmem k') b m <-> VMemAlloc.allocated (vmem k) b m /\ b <> virt.
Proof.
  induction n as [|n IH]; intros k T B B' O virt sz pr cm i Hk Hrn Hi Hx HB Hrd.
  { exists true, k, T, B', O. split_and!; try done. by replace (count sz) with i by lia. }
  pose proof Hrn as [Ha Hd Hdn Hn]. pose proof (range_facts _ _ _ _ _ _ Hk Ha) as (_ & Hlo & _ & Hhi & Hb0 & Hend & _).
  pose proof (range_count sz Hdn Hn) as Hcnt. cbn [back]. set (x := virt + Z.of_nat i * PAGE_SIZE).
  assert (Hxr : virt <= x < virt + sz) by (unfold x, PAGE_SIZE in *; nia).
  assert (Ex : virt ⊞ Z.of_nat i * PAGE_SIZE = x) by (unfold add64; apply u64_small; fold x; lia).
  assert (Hxd : (PAGE_SIZE | x)) by (unfold x; apply Z.divide_add_r; [done|apply Z.divide_factor_r]).
  assert (Hpx : ~ page_of virt i x) by (intros (j & Hj & E); unfold x, PAGE_SIZE in E; lia).
  destruct (pa_alloc (pages k)) as [[phys|] a] eqn:Ea.
  - destruct (k_take _ _ _ _ _ _ _ _ Hk Ea) as (Hk1 & Hpd & Hpr & HnO).
    destruct (k_map HHDM_START PHYS_END (with_pages a k) T B' _ phys x pr cm Hk1) as (ok & s & T1 & Hm & Hres); try done.
    { by right. } { split; cbn; lia. } { rewrite (proj1 Hx) by done. by apply HB. }
    rewrite Ex, Hm. cbn [mbind option_bind]. change (with_map s (with_pages a k)) with (with_map s k) in Hres.
    assert (Hrn' : ranged (with_map s k) virt sz) by by split. destruct ok; cbn [negb].
    + destruct (IH (with_map s k) T1 B (<[x := (phys, pr)]> B') O virt sz pr cm (S i)) as (ok & k' & T' & B'' & O' & E & H); try done.
      * eapply kcore_other; [|exact Hres]. intros q. cbn. split; [naive_solver|]. intros Hq. split; [by left|]. by intros ->.
      * lia.
      * destruct Hx as [Hx1 Hx2]. split; intros y; rewrite VSpaceRun.page_of_last; fold x.
        -- intros Hny. rewrite lookup_insert_ne by (intros <-; tauto). apply Hx1. tauto.
        -- destruct (decide (y = x)) as [->|Hne]; [intros _; exists phys; by rewrite lookup_insert_eq|].
           intros [Hp|?]; [|done]. rewrite lookup_insert_ne by done. by apply Hx2.
      * by exists ok, k', T', B'', O'.
    + destruct Hres as [Hk2 _].
      destruct (roll_back_ok (with_map s k) T1 B B' _ virt sz pr i Hk2 Hrn' ltac:(lia) Hx HB) as (k' & -> & Hk' & Eh & Es & Hal). cbn [mbind option_bind].
      exists false, k', T1, B, (fun q => O q \/ q = phys). split_and!; try done. right. by exists phys.
  - pose proof (pa_alloc_ok _ (VSpaceInv.core_ok _ _ _ _ _ _ (kc_core _ _ _ _ _ _ Hk))) as Hal. rewrite Ea in Hal. subst a. rewrite with_pages_same.
    destruct (roll_back_ok k T B B' O virt sz pr i Hk Hrn ltac:(lia) Hx HB) as (k' & -> & Hk' & Eh & Es & Hal). cbn [mbind option_bind].
    exists false, k', T, B, O. split_and!; try done. by left.
Qed.

(** A new mapping over a range that has none. *)
Lemma add_mapping_ok p T B O T' B' O' k b n pr fl : PInv p T B O -> kcore k T' B' O' -> heap k = heap (km p) -> ranged k b n ->
  (forall b' m, VMemAlloc.allocated (vmem k) b' m <-> VMemAlloc.allocated (vmem (km p)) b' m \/ b' = b /\ m = n) ->
  (forall m, m ∈ mappings p -> base m + size m <= b \/ b + n <= base m) -> Paging.pf_and pr Paging.PF_Read = true ->
  (if mf_and fl MF_Backed then VSpaceRun.extends B B' b pr (count n) else B' = B) ->
  (add_mapping HHDM_START b n pr fl (with_km k p) = None /\ SlabRun.full (heap (km p)) NODE_CLASS) \/
  exists nd k' ms, add_mapping HHDM_START b n pr fl (with_km k p) = Some (mkProc k' ms) /\ PInv (mkProc k' ms) T' B' O' /\ vmem k' = vmem k /\
    ms ≡ₚ mkMapping nd b n pr fl :: mappings p.
Proof.
  intros HP Hk Eh Hrn Hal Hap Hrd HB. pose proof Hrn as [Ha Hd Hdn Hn]. unfold add_mapping. cbn [km with_km].
  destruct (k_new_node HHDM_START PHYS_END hhdm_page hhdm_range phys_end k T' B' O' Hk) as [[-> Hf]|(nd & k' & -> & Hk' & Ev & _ & _ & Hlv & Hnew)].
  { left. rewrite Eh in Hf. done. }
  right. cbn [mbind option_bind mappings with_km]. rewrite Eh in Hlv, Hnew. pose proof (pinv_sounds _ _ _ _ HP) as Hso.
  pose proof (range_facts _ _ _ _ _ _ Hk Ha) as (_ & Hlo & _ & Hhi & Hb0 & Hend & _).
  set (m := mkMapping nd b n pr fl). assert (Hms : sound m) by (unfold sound; cbn; lia).
  destruct (insert_mapping m (mappings p) (pi_sorted _ _ _ _ HP) Hso Hms) as (ms & -> & Hs & Hp).
  { intros x Hx. unfold before. cbn. destruct (Hap x Hx); lia. }
  cbn [mbind option_bind]. exists nd, k', ms. split; [done|]. split; [|done].
  assert (Hin : forall x, x ∈ ms <-> x = m \/ x ∈ mappings p) by (intros x; by rewrite Hp, elem_of_cons).
  assert (Hext : forall x, is_Some (B !! x) -> is_Some (B' !! x)).
  { intros x Hx. destruct (mf_and fl MF_Backed); [|by subst B']. destruct HB as [H1 H2]. destruct (decide (page_of b (count n) x)) as [Hpg|Hpg].
    - destruct (H2 x Hpg) as [ph ->]. eauto.
    - by rewrite H1. }
  split; cbn [km mappings]; [done|done| | | | |].
  - rewrite Hp. cbn. apply NoDup_cons. split; [|apply (pi_nodes _ _ _ _ HP)]. intros (x & E & Hx)%list_elem_of_fmap.
    apply (Hnew NODE_CLASS). rewrite E. by apply (pi_map _ _ _ _ HP x Hx).
  - intros x [->|Hx]%Hin; rewrite Ev; cbn.
    + split_and!; [done|done|apply Hlv; by right|done].
    + destruct (pi_map _ _ _ _ HP x Hx) as (? & ? & ? & ?). split_and!; [apply Hal; by left|done|apply Hlv; by left|done].
  - intros b' m' Hbm. rewrite Ev in Hbm. apply Hal in Hbm as [Hbm|[-> ->]]; [|exists m; split; [apply Hin; by left|done]].
    destruct (pi_all _ _ _ _ HP b' m' Hbm) as (x & Hx & <-). exists x. split; [apply Hin; by right|done].
  - intros x phys f Hx. assert (Hold : B !! x = Some (phys, f) -> exists m0, m0 ∈ ms /\ base m0 <= x < base m0 + size m0 /\ f = prot m0 /\ paged (flags m0) = true).
    { intros Ho. destruct (pi_back _ _ _ _ HP x phys f Ho) as (m0 & ? & ?). exists m0. split; [apply Hin; by right|done]. }
    destruct (mf_and fl MF_Backed) eqn:Ebk; [|subst B'; auto]. destruct HB as [H1 H2]. destruct (decide (page_of b (count n) x)) as [Hpg|Hpg].
    + destruct (H2 x Hpg) as [ph E]. rewrite E in Hx. injection Hx as <- <-. exists m. split; [apply Hin; by left|].
      apply range_pages in Hpg; [|done|done|lia]. cbn. unfold paged. rewrite Ebk. split; [lia|done].
    + rewrite H1 in Hx by done. auto.
  - intros x [->|Hx]%Hin Hbk y Hy; cbn in *; [|by apply Hext, (pi_full _ _ _ _ HP x)].
    rewrite Hbk in HB. destruct HB as [_ H2]. destruct (H2 y Hy) as [ph ->]. eauto.
Qed.

(** The same mappings over an address allocator with the same ranges. *)
Lemma pinv_vmem p T B O T' O' k : PInv p T B O -> kcore k T' B O' -> heap k = heap (km p) ->
  (forall b m, VMemAlloc.allocated (vmem k) b m <-> VMemAlloc.allocated (vmem (km p)) b m) -> PInv (with_km k p) T' B O'.
Proof.
  intros [P1 P2 P3 P4 P5 P6 P7] Hk Eh Hal. split; cbn [km mappings with_km]; rewrite ?Eh; try done.
  - intros m Hm. rewrite Hal. by apply P4.
  - intros b n Hbn. apply Hal in Hbn. eauto.
Qed.

Lemma u64_le z : 0 <= z -> u64 z <= z.
Proof. intros Hz. unfold u64, wrap. apply Z.mod_le; lia. Qed.

Lemma user_read pr : Paging.pf_and pr Paging.PF_Read = true -> Paging.pf_and (Z.lor pr Paging.PF_User) Paging.PF_Read = true.
Proof.
  unfold Paging.pf_and. intros H. rewrite Z.land_lor_distr_l. change (Z.land Paging.PF_User Paging.PF_Read) with 0. by rewrite Z.lor_0_r.
Qed.

(** The outcome of an allocation of [n] bytes. *)
Definition allocated_or_not (p p' : proc) (B B' : gmap Z (Z * Z)) (O O' : Z -> Prop) (rb n pr fl r : Z) : Prop :=
  (r = 0 /\ B' = B /\ mappings p' = mappings p /\ leaks O O') \/
  (0 < r /\ (forall q, O' q <-> O q) /\ (rb <> 0 -> r = rb) /\ (PAGE_SIZE | r) /\ 0 < n <= 2 ^ 48 /\
   (forall m, m ∈ mappings p -> base m + size m <= r \/ r + n <= base m) /\
   (exists nd, mappings p' ≡ₚ mkMapping nd r n pr fl :: mappings p) /\
   if mf_and fl MF_Backed then VSpaceRun.extends B B' r pr (count n) else B' = B).

Lemma fit_at rb r n : 0 < n -> 0 <= rb -> rb <= r -> r + n <= VMemAlloc.upper rb rb n -> rb <> 0 -> r = rb.
Proof.
  intros Hn Hrb Hmin Hmax Hne. unfold VMemAlloc.upper in Hmax. replace (rb =? 0) with false in Hmax by lia. rewrite Z.eqb_refl in Hmax.
  pose proof (u64_le (rb + n) ltac:(lia)). unfold add64 in Hmax. lia.
Qed.

Lemma back_or_not p T B O k r n pr fl cm : kcore k T B O -> ranged k r n -> (forall x, r <= x < r + n -> B !! x = None) -> Paging.pf_and pr Paging.PF_Read = true ->
  exists (ok : bool) k2 T2 B2 O2, (if mf_and fl MF_Backed then back (count n) r n pr cm 0 (km (with_km k p)) else Some (true, km (with_km k p))) = Some (ok, k2) /\
    kcore k2 T2 B2 O2 /\ heap k2 = heap k /\ same_space k k2 /\
    if ok then vmem k2 = vmem k /\ (forall q, O2 q <-> O q) /\ (if mf_and fl MF_Backed then VSpaceRun.extends B B2 r pr (count n) else B2 = B)
    else B2 = B /\ leaks O O2 /\ forall b m, VMemAlloc.allocated (vmem k2) b m <-> VMemAlloc.allocated (vmem k) b m /\ b <> r.
Proof.
  intros Hk Hrn HB Hrd. destruct (mf_and fl MF_Backed); [|exists true, k, T, B, O; done].
  apply (back_ok (count n) k T B B O r n pr cm 0); try done. split; [done|intros x (j & ? & _); lia].
Qed.

Lemma allocate_at_ok p T B O rb n pr fl cm : PInv p T B O -> 0 <= rb -> (PAGE_SIZE | rb) -> (PAGE_SIZE | n) -> 0 < n < 2 ^ 63 ->
  Paging.pf_and pr Paging.PF_Read = true ->
  (allocate_at HHDM_START rb n pr fl cm p = None /\ SlabRun.full (heap (km p)) NODE_CLASS) \/
  exists r p' T' B' O', allocate_at HHDM_START rb n pr fl cm p = Some (r, p') /\ PInv p' T' B' O' /\ same_space (km p) (km p') /\
    allocated_or_not p p' B B' O O' rb n pr fl r.
Proof.
  intros HP Hrb Hpd Hnd Hn Hrd. unfold allocate_at. pose proof (pi_core _ _ _ _ HP) as Hk.
  destruct (k_xalloc HHDM_START PHYS_END hhdm_range (km p) T B O n rb rb Hk Hrb Hrb Hpd) as (r & k1 & -> & Hk1 & Hrd1 & Eh1 & _ & _ & Es1 & Hres).
  rewrite alignup_id in Hres by (done || lia). cbn [mbind option_bind].
  destruct Hres as [[-> Hal]|(_ & Hr0 & Hmin & Hmax & (b0 & m0 & Hav & Hb0 & Hm0) & Hal)].
  { right. exists 0, (with_km k1 p), T, B, O. split; [done|]. split; [by apply (pinv_vmem p T B O)|]. split; [done|]. left. split_and!; try done. by left. }
  replace (r =? 0) with false by lia.
  assert (Hap : forall m, m ∈ mappings p -> base m + size m <= r \/ r + n <= base m).
  { intros m Hm. destruct (pi_map _ _ _ _ HP m Hm) as (Ham & _).
    pose proof (VMemRun.wf_available_disjoint _ _ _ _ _ _ (VSpaceInv.co_vmem _ _ _ _ _ _ (kc_core _ _ _ _ _ _ Hk)) Ham Hav). lia. }
  assert (Har : VMemAlloc.allocated (vmem k1) r n) by (apply Hal; by right).
  pose proof (range_facts _ _ _ _ _ _ Hk1 Har) as (_ & Hlo & _ & Hhi & _ & _ & H48).
  assert (Hrn : ranged k1 r n) by (split; [done|done|done|lia]).
  assert (HBr : forall x, r <= x < r + n -> B !! x = None).
  { intros x Hx. destruct (B !! x) as [[phys f]|] eqn:E; [|done]. destruct (pi_back _ _ _ _ HP x phys f E) as (m & Hm & Hc & _). destruct (Hap m Hm); lia. }
  destruct (back_or_not p T B O k1 r n pr fl cm Hk1 Hrn HBr Hrd) as (ok & k2 & T2 & B2 & O2 & -> & Hk2 & Eh2 & [S1 S2] & Hok).
  cbn [mbind option_bind]. destruct Es1 as [S3 S4]. destruct ok; cbn [negb].
  - destruct Hok as (Ev2 & HO & HB2). assert (Hrn2 : ranged k2 r n) by (destruct Hrn; split; [by rewrite Ev2|done..]).
    change (with_km k2 (with_km k1 p)) with (with_km k2 p).
    destruct (add_mapping_ok p T B O T2 B2 O2 k2 r n pr fl HP Hk2) as [[-> Hf]|(nd & k3 & ms & -> & HP3 & Ev3 & Hms)]; try done.
    + congruence.
    + by rewrite Ev2.
    + by left.
    + right. cbn [mbind option_bind]. exists r, (mkProc k3 ms), T2, B2, O2. split; [done|]. split; [done|].
      split; [unfold same_space; cbn; rewrite Ev3, S1, S2, S3, S4; done|]. right.
      split; [done|]. split; [done|]. split; [apply (fit_at rb r n); lia|]. split; [done|]. split; [lia|]. split; [done|]. split; [by exists nd|done].
  - destruct Hok as (-> & Hlk & Hal2). right. exists 0, (with_km k2 p), T2, B, O2. split; [done|]. split; [|split; [|by left]].
    + apply (pinv_vmem p T B O); [done|done|congruence|]. intros b m. rewrite Hal2, Hal. split.
      * intros [[?|[-> _]] ?]; [done|done].
      * intros Hbm. split; [by left|]. intros ->. destruct (pi_all _ _ _ _ HP r m Hbm) as (x & Hx & E). destruct (Hap x Hx); [|lia].
        destruct (pinv_sound _ _ _ _ x HP Hx) as (? & _). lia.
    + unfold same_space. cbn. rewrite S1, S2, S3, S4. done.
Qed.

End Pages.
End ProcRun.
