(* ===== verification/ProcCorrect.v ===== *)
(** * The address space of a process is what its mappings say

    The theorems on ProcMem.v, in terms of what the processor sees in the range of
    the process, with runs of a process on a machine that has just started. *)

From S2P Require Import Prelude Bits PageAlloc Pmalloc PmallocRun PageLimit VMem VMemInv VMemAlloc VMemRun VMemPages.
From S2P Require Import Paging PagingRun PagingLeaf Slab SlabRun VSpace VSpaceRun ProcMem ProcRun.

Module ProcCorrect.
Import VSpace(heap, vmem, page_map, pages, mkK).
Import VSpaceInv(page_of, in_space).
Import ProcMem ProcInv ProcRun.

Section Pages.
Context {A : Type} {PA : PageAlloc A}.
Variables HHDM_START PHYS_END : Z.
Hypothesis hhdm_page : (PAGE_SIZE | HHDM_START).
Hypothesis hhdm_range : 0 <= HHDM_START /\ HHDM_START + PHYS_END <= 2 ^ 64.
Hypothesis phys_end : forall (a : A) q, pa_ok a -> pa_held a q -> q + PAGE_SIZE <= PHYS_END.

Notation kmem := (VSpace.kmem (A := A)).
Notation proc := (proc (A := A)).
Notation PInv := (PInv HHDM_START PHYS_END).

(** The pages [O] belong to everyone else. *)
Definition ok (p : proc) (O : Z -> Prop) : Prop := exists T B, PInv p T B O.

(** ** Start *)

(** The page map is new: no address has a table of the last level. *)
Lemma new_map_blank (s : Paging.state (A := A)) T v : PagingInv.wf s T -> (forall q, (exists p, T !! p = Some q) -> q = Paging.level0 (Paging.pm s)) ->
  PagingLeaf.leaf (Paging.mem s) T v = 0.
Proof.
  intros W Hone. unfold PagingLeaf.leaf. destruct (T !! take 3 (PagingInv.path v)) as [t|] eqn:E; [|done].
  pose proof (PagingInv.w_tree _ _ W) as Ht. pose proof (Hone t (ex_intro _ _ E)) as ->.
  pose proof (PagingInv.t_inj _ _ _ Ht _ _ _ E (PagingInv.t_root _ _ _ Ht)) as En.
  destruct (PagingLeaf.path_split v) as (_ & _ & Hl). rewrite En in Hl. discriminate Hl.
Qed.

Lemma space_start (a : A) s p : pa_ok a -> Paging.new_map None ∅ a = Some s ->
  new_space (mkK Slab.empty_heap VMem.empty_vmem [] s) = Some p -> 0x7FFFFFFFE000 <= HHDM_START -> exists T, PInv p T ∅ (pa_held a).
Proof.
  intros Hok Hnew Hp Hgeo. unfold new_space in Hp.
  destruct (VMem.init USER_START _ PAGE_SIZE _ _) as [[v a']|] eqn:Ei; [|discriminate Hp]. cbn [mbind option_bind] in Hp. injection Hp as <-.
  destruct (VSpaceRun.heap_start HHDM_START PHYS_END hhdm_page hhdm_range phys_end a s USER_START (0x7FFFFFFFE000 - USER_START)
    (VSpace.with_vmem v (VSpace.with_pages a' (mkK Slab.empty_heap VMem.empty_vmem [] s))) Hok Hnew) as (T & B & Hc & Hrg & _).
  { unfold VSpace.vspace_init. by rewrite Ei. } { by exists 0x200. } { by exists (0x7FFFFFFFE - 0x200). } 1-4: done. { by left. }
  assert (B = ∅) as ->.
  { apply map_eq. intros x. rewrite lookup_empty. destruct (B !! x) eqn:E; [|done].
    destruct (VSpaceRun.rg_back _ _ Hrg x ltac:(by rewrite E)) as (r & Hr & _). by apply elem_of_nil in Hr. }
  exists T. split; cbn [km mappings]; [|constructor|constructor|by intros m ?%elem_of_nil| |intros x phys fl; by rewrite lookup_empty|by intros m ?%elem_of_nil].
  - split; [eapply VSpaceInv.core_other; [|exact Hc]; intros q; unfold VSpaceRun.others; rewrite lookup_empty; naive_solver|].
    intros x _ _ _. pose proof (VSpaceInv.co_map _ _ _ _ _ _ Hc) as W. apply (new_map_blank _ T x W).
    destruct (PagingInv.new_map_spec ∅ a Hok) as [[_ ?]|(s' & T' & Hs & W' & _ & _ & _ & _ & HT & _)]; [congruence|].
    rewrite Hs in Hnew. injection Hnew as ->. rewrite (PagingLeaf.tree_unique _ _ _ _ (PagingInv.w_tree _ _ W) (PagingInv.w_tree _ _ W')).
    intros q. apply HT.
  - intros b n Hbn. destruct (VSpaceRun.rg_all _ _ Hrg b n Hbn) as (r & Hr & _). by apply elem_of_nil in Hr.
Qed.

(** ** From pages to addresses *)

Lemma page_nonneg v : 0 <= v < 2 ^ 64 -> 0 <= page v.
Proof. intros Hv. unfold page. change PAGE_SIZE with (2 ^ 12). rewrite ALIGNDOWN_spec by (unfold fits; lia). apply Z.mul_nonneg_nonneg; [apply Z.div_pos|]; lia. Qed.

Lemma page_inside b n v : (PAGE_SIZE | b) -> (PAGE_SIZE | n) -> 0 <= v < 2 ^ 64 -> b <= page v < b + n <-> b <= v < b + n.
Proof.
  intros [i ->] [j ->] Hv. destruct (page_facts v Hv) as ([x Ex] & Hp & _). rewrite Ex in *. unfold PAGE_SIZE in *. lia.
Qed.

Lemma page_listed b n v : (PAGE_SIZE | b) -> (PAGE_SIZE | n) -> 0 < n <= 2 ^ 48 -> 0 <= v < 2 ^ 64 ->
  page_of b (count n) (page v) <-> b <= v < b + n.
Proof.
  intros Hb Hn Hr Hv. rewrite range_pages, page_inside by done. split; [tauto|]. intros ?. split; [by apply page_facts|done].
Qed.

Lemma in_range_same (k k' : kmem) v : same_space k k' -> in_range k v -> in_range k' v.
Proof. unfold in_range, VSpaceInv.in_space. intros [-> ->]. done. Qed.

Lemma look_same k k' T T' B O O' v : kcore HHDM_START PHYS_END k T B O -> kcore HHDM_START PHYS_END k' T' B O' -> same_space k k' ->
  in_range k v -> look k' v = look k v.
Proof.
  intros H1 H2 Hs Hv. rewrite (look_eq _ _ _ _ _ _ _ H2), (look_eq _ _ _ _ _ _ _ H1); [done|done|by eapply in_range_same].
Qed.

(** What the processor sees where a page was mapped with these permissions. *)
Definition seen_with (pr v : Z) (s : option (Z * bool * bool)) : Prop :=
  exists phys, (PAGE_SIZE | phys) /\ 0 < phys /\
    s = Some (Z.lor phys (Z.land v 0xFFF), Paging.pf_and pr Paging.PF_Write, Paging.pf_and pr Paging.PF_Execute).

(** The result of an allocation, to a caller. *)
Definition allocation (p p' : proc) (O O' : Z -> Prop) (ptr n pr fl r : Z) : Prop :=
  (r = 0 /\ mappings p' = mappings p /\ leaks O O' /\ forall v, in_range (km p) v -> look (km p') v = look (km p) v) \/
  (0 < r /\ (PAGE_SIZE | r) /\ (page ptr <> 0 -> r = page ptr) /\ (forall q, O' q <-> O q) /\
   (forall m, m ∈ mappings p -> base m + size m <= r \/ r + n <= base m) /\
   (exists nd, mappings p' ≡ₚ mkMapping nd r n pr fl :: mappings p) /\
   forall v, in_range (km p) v ->
     if decide (r <= v < r + n) then if mf_and fl MF_Backed then seen_with pr v (look (km p') v) else look (km p') v = None
     else look (km p') v = look (km p) v).

Lemma back_page k T B O x phys fl : kcore HHDM_START PHYS_END k T B O -> B !! x = Some (phys, fl) -> (PAGE_SIZE | phys) /\ 0 < phys < 2 ^ 52.
Proof.
  intros [Hc _] HB. destruct (VSpaceInv.co_acct _ _ _ _ _ _ Hc) as [Hac _].
  assert (Hh : pa_held (pages k) phys) by (apply Hac; exists (VSpaceInv.UBack x); by exists fl).
  destruct (pa_page _ _ (VSpaceInv.core_ok _ _ _ _ _ _ Hc) Hh) as [? ?]. done.
Qed.



Lemma allocation_seen p p' T T' B B' O O' ptr n pr fl r : PInv p T B O -> PInv p' T' B' O' -> same_space (km p) (km p') -> (PAGE_SIZE | n) ->
  allocated_or_not p p' B B' O O' (page ptr) n pr fl r -> allocation p p' O O' ptr n pr fl r.
Proof.
  intros HP HP' Hs Hn. pose proof (pi_core _ _ _ _ _ _ HP) as Hk. pose proof (pi_core _ _ _ _ _ _ HP') as Hk'.
  intros [(-> & -> & Hm & Hl)|(Hr & HO & Hat & Hd & Hsz & Hap & Hms & HB)].
  - left. split_and!; try done. intros v Hv. by apply (look_same _ _ T T' B O O').
  - right. split_and!; try done. intros v Hv. pose proof Hv as [Hv64 _].
    rewrite (look_eq _ _ _ _ _ _ _ Hk' (in_range_same _ _ _ Hs Hv)), (look_eq _ _ _ _ _ _ _ Hk Hv).
    pose proof (page_listed r n v Hd Hn Hsz Hv64) as Hp. destruct (decide (r <= v < r + n)) as [Hin|Hout].
    + destruct (mf_and fl MF_Backed).
      * destruct HB as [_ H2]. destruct (H2 (page v) (proj2 Hp Hin)) as [phys E]. rewrite E. exists phys.
        destruct (back_page _ _ _ _ _ _ _ Hk' E) as [? []]. done.
      * subst B'. destruct (B !! page v) as [[phys f]|] eqn:E; [|done]. destruct (pi_back _ _ _ _ _ _ HP _ _ _ E) as (m & Hm & Hc & _).
        apply page_inside in Hin; [|done|done|done]. destruct (Hap m Hm); lia.
    + destruct (mf_and fl MF_Backed); [|by subst B']. destruct HB as [H1 _]. rewrite H1; [done|tauto].
Qed.

Lemma allocate_ok fuel p O ptr sz pr fl cm : ok p O -> 0 <= ptr < 2 ^ 64 -> 0 < sz <= 2 ^ 62 -> mf_and fl MF_Fixed = false ->
  Paging.pf_and pr Paging.PF_Read = true ->
  (allocate HHDM_START fuel ptr sz pr fl cm p = None /\ SlabRun.full (heap (km p)) NODE_CLASS) \/
  exists r p' O', allocate HHDM_START fuel ptr sz pr fl cm p = Some (r, p') /\ ok p' O' /\
    allocation p p' O O' ptr (ALIGNUP sz PAGE_SIZE) (Z.lor pr Paging.PF_User) fl r.
Proof.
  intros (T & B & HP) Hptr Hsz Hfx Hrd. pose proof (VSpaceInv.alignup_page sz ltac:(lia) ltac:(unfold PAGE_SIZE; lia)) as Hal.
  pose proof (VSpaceInv.alignup_div sz) as Hd. unfold allocate. rewrite Hfx. cbv zeta.
  set (n := ALIGNUP sz PAGE_SIZE) in *. clearbody n. replace (n =? 0) with false by lia. cbn [mbind option_bind].
  destruct (page_facts ptr Hptr) as (Hpd & Hpr & _). fold (page ptr).
  destruct (allocate_at_ok HHDM_START PHYS_END hhdm_page hhdm_range phys_end p T B O (page ptr) n (Z.lor pr Paging.PF_User) fl cm HP)
    as [?|(r & p' & T' & B' & O' & E & HP' & Hs & Hres)]; try done.
  - by apply page_nonneg.
  - unfold PAGE_SIZE in *. lia.
  - by apply user_read.
  - by left.
  - right. exists r, p', O'. split; [done|]. split; [by exists T', B'|]. by apply (allocation_seen p p' T T' B B').
Qed.

(** C9: [allocate] of readable memory, not at a fixed address, always returns, unless the
    kernel has no memory for the node of the mapping.  A result of zero means that the
    mappings and all of the address space are as before, but one page may be lost.
    Otherwise the range is new and at the address asked for, the mapping is added,
    and every page of a backed mapping, and of no other, has memory behind it with the
    permissions asked for; nothing else is changed. *)
Theorem allocate_correct fuel p O ptr sz pr fl cm : ok p O -> 0 <= ptr < 2 ^ 64 -> 0 < sz <= 2 ^ 62 -> mf_and fl MF_Fixed = false ->
  Paging.pf_and pr Paging.PF_Read = true ->
  (allocate HHDM_START fuel ptr sz pr fl cm p = None /\ SlabRun.full (heap (km p)) NODE_CLASS) \/
  exists r p' O', allocate HHDM_START fuel ptr sz pr fl cm p = Some (r, p') /\ ok p' O' /\
    allocation p p' O O' ptr (ALIGNUP sz PAGE_SIZE) (Z.lor pr Paging.PF_User) fl r.
Proof. apply allocate_ok. Qed.

(** C10: [free] of the base of a mapping, whatever its kind, always succeeds: the mapping is
    gone, no address in it is visible, all others are as before, and everyone else
    keeps their pages.  For any other address it returns false and changes nothing. *)
Theorem free_correct p O ptr : ok p O ->
  (free HHDM_START ptr p = Some (false, p) /\ forall m, m ∈ mappings p -> base m <> ptr) \/
  exists m p', free HHDM_START ptr p = Some (true, p') /\ ok p' O /\ m ∈ mappings p /\ base m = ptr /\
    (forall x, x ∈ mappings p' <-> x ∈ mappings p /\ x <> m) /\
    forall v, in_range (km p) v -> look (km p') v = if decide (base m <= v < base m + size m) then None else look (km p) v.
Proof.
  intros (T & B & HP). destruct (find ptr (mappings p)) as [m|] eqn:E.
  - right. apply find_mapping in E as [Hm <-]; [|apply HP|by apply (pinv_sounds HHDM_START PHYS_END p T B O)].
    destruct (free_mapping HHDM_START PHYS_END hhdm_page hhdm_range phys_end p T B O m HP Hm) as (k & B' & ms & Ef & HP' & Hs & HB & Hms).
    exists m, (mkProc k ms). split_and!; try done; [by exists T, B'|]. intros v Hv. cbn [km]. pose proof Hv as [Hv64 _].
    destruct (pi_map _ _ _ _ _ _ HP m Hm) as (Ha & Hd & _). pose proof (pi_core _ _ _ _ _ _ HP) as Hk. pose proof (pi_core _ _ _ _ _ _ HP') as Hk'. cbn [km] in Hk'.
    pose proof (range_facts _ _ _ _ _ _ _ _ Hk Ha) as (Hbd & _ & Hn & _ & _ & _ & Hmax).
    rewrite (look_eq _ _ _ _ _ _ _ Hk' (in_range_same _ _ _ Hs Hv)), (look_eq _ _ _ _ _ _ _ Hk Hv), HB.
    pose proof (page_listed (base m) (size m) v Hbd Hd ltac:(lia) Hv64) as Hp. destruct (decide (page_of _ _ _)), (decide _); tauto.
  - left. unfold free. rewrite E. split; [done|]. intros m Hm Hb.
    pose proof (proj2 (find_mapping ptr (mappings p) (pi_sorted _ _ _ _ _ _ HP) (pinv_sounds _ _ _ _ _ _ HP) m) (conj Hm Hb)). congruence.
Qed.

(** C11: A page fault is handled exactly for the pages of demand mappings that have no memory
    yet: then the page gets memory with the permissions of its mapping, and all other
    addresses are as before.  Else, and when there is no memory, the address space is
    unchanged and no page is lost. *)
Theorem pagefault_correct p O addr : ok p O -> in_range (km p) addr ->
  exists (b : bool) k, handle_pagefault addr p = Some (b, with_km k p) /\ ok (with_km k p) O /\
    if b then exists m, m ∈ mappings p /\ base m <= addr < base m + size m /\ mf_and (flags m) MF_Demand = true /\ look (km p) addr = None /\
      forall v, in_range (km p) v -> if decide (page v = page addr) then seen_with (prot m) v (look k v) else look k v = look (km p) v
    else (forall v, in_range (km p) v -> look k v = look (km p) v) /\
      forall m, m ∈ mappings p -> base m <= addr < base m + size m -> mf_and (flags m) MF_Demand = true -> look (km p) addr = None ->
        out_of_memory (km p) (page addr) (prot m).
Proof.
  intros (T & B & HP) Hr. pose proof Hr as [Ha64 _].
  destruct (pagefault_ok HHDM_START PHYS_END hhdm_range p T B O addr HP Ha64) as (b & k & T' & B' & E & HP' & Ev & Hres).
  exists b, k. split; [done|]. split; [by exists T', B'|]. pose proof (pi_core _ _ _ _ _ _ HP) as Hk. pose proof (pi_core _ _ _ _ _ _ HP') as Hk'. cbn [km with_km] in Hk'.
  assert (Hs : same_space (km p) k) by (unfold same_space; by rewrite Ev).
  assert (Hin : forall m, m ∈ mappings p -> base m <= page addr < base m + size m <-> base m <= addr < base m + size m).
  { intros m Hm. destruct (pi_map _ _ _ _ _ _ HP m Hm) as (Ha & Hd & _). apply page_inside; [|done|done]. by apply (range_facts _ _ _ _ _ _ _ _ Hk Ha). }
  assert (Hnone : look (km p) addr = None <-> B !! page addr = None).
  { rewrite (look_eq _ _ _ _ _ _ _ Hk Hr). by destruct (B !! page addr) as [[? ?]|]. }
  destruct b.
  - destruct Hres as (m & phys & Hm & Hc & Hdm & HB & ->). exists m. split; [done|]. split; [by apply Hin|]. split; [done|]. split; [by apply Hnone|].
    intros v Hv. rewrite (look_eq _ _ _ _ _ _ _ Hk' (in_range_same _ _ _ Hs Hv)), (look_eq _ _ _ _ _ _ _ Hk Hv).
    destruct (decide (page v = page addr)) as [->|Hne].
    + rewrite lookup_insert_eq. exists phys. destruct (back_page k T' (<[page addr := (phys, prot m)]> B) O (page addr) phys (prot m) Hk' (lookup_insert_eq _ _ _)) as [? []]. done.
    + by rewrite lookup_insert_ne.
  - destruct Hres as [-> Ho]. split; [intros v Hv; by apply (look_same _ _ T T' B O O)|]. intros m Hm Hc Hd Hn. apply Ho; [done|by apply Hin|done|by apply Hnone].
Qed.




(** C12: Deleting an address space always succeeds: every page of its mappings, of its
    address allocator and of its own page tables is free again, and only those.  What
    stays held is everyone else's, the kernel's heap, and the tables that the page map
    shares with the kernel's. *)
Theorem delete_space_correct p T B O : PInv p T B O ->
  exists p', delete_space HHDM_START p = Some p' /\ mappings p' = [] /\ pa_ok (pages (km p')) /\
    forall q, pa_held (pages (km p')) q <->
      O q \/ Slab.owns HHDM_START (heap (km p')) q \/ (exists t, T !! t = Some q) /\ q ∉ Paging.used_pages (Paging.pm (page_map (km p))).
Proof. apply delete_space_ok; assumption. Qed.

(** An allocation at a fixed address where the process has no mapping never ends: the
    loop that clears the range goes round with the same state, and the lock on the
    mappings stays taken. *)
Theorem allocate_fixed_hangs p ptr sz pr fl cm : mf_and fl MF_Fixed = true -> 0 < sz <= 2 ^ 62 -> 0 <= ptr < 2 ^ 64 ->
  (forall m, m ∈ mappings p -> ~ covers (page ptr) m) ->
  forall fuel, carve HHDM_START (S fuel) (page ptr) (ALIGNUP sz PAGE_SIZE) 0 p = carve HHDM_START fuel (page ptr) (ALIGNUP sz PAGE_SIZE) 0 p /\
    allocate HHDM_START fuel ptr sz pr fl cm p = None.
Proof.
  intros Hf Hsz Hptr Hno fuel. pose proof (VSpaceInv.alignup_page sz ltac:(lia) ltac:(unfold PAGE_SIZE; lia)) as Hal.
  unfold allocate. rewrite Hf. fold (page ptr). cbv zeta. set (n := ALIGNUP sz PAGE_SIZE) in *. clearbody n. replace (n =? 0) with false by lia.
  assert (Hs : forall fuel, carve HHDM_START (S fuel) (page ptr) n 0 p = carve HHDM_START fuel (page ptr) n 0 p).
  { intros f. cbn [carve]. replace (0 <? n) with true by lia. cbn [negb]. destruct (page_facts ptr Hptr) as (_ & Hp & _).
    assert (page ptr ⊞ 0 = page ptr) as ->.
    { unfold add64. rewrite Z.add_0_r. apply u64_small. pose proof (page_nonneg ptr Hptr). lia. }
    unfold locate. assert (list_find (covers (page ptr)) (mappings p) = None) as ->; [|done].
    apply list_find_None, Forall_forall. exact Hno. }
  split; [apply Hs|]. assert (Hn : carve HHDM_START fuel (page ptr) n 0 p = None) by (induction fuel as [|f IH]; [done|]; rewrite Hs; exact IH).
  by rewrite Hn.
Qed.
End Pages.

(** ** Runs *)

(** A machine with 32 frames on which the first process has been set up. *)
#[local] Existing Instance VSpaceRun.demo_pages.
Notation HHDM := VSpaceRun.demo_hhdm.
Notation END := VSpaceRun.demo_end.

Definition demo_frames : Pmalloc.state :=
  default Pmalloc.initial (Pmalloc.pmalloc_add_mem 80 40 PmallocRun.demo_base (32 * PAGE_SIZE) Pmalloc.initial).
Definition demo_tables : Paging.state (A := Pmalloc.state) :=
  default (Paging.mkState ∅ (Paging.mkMap 0 []) Pmalloc.initial) (Paging.new_map None ∅ demo_frames).
Definition demo_machine : VSpace.kmem (A := Pmalloc.state) := mkK Slab.empty_heap VMem.empty_vmem [] demo_tables.
Definition demo_proc : proc (A := Pmalloc.state) := default (mkProc demo_machine []) (new_space demo_machine).

Lemma demo_frames_ok : PmallocRun.mem_ok 80 40 Pmalloc.initial PmallocRun.demo_base (32 * PAGE_SIZE).
Proof.
  split.
  - unfold PAGE_SIZE. lia.
  - by exists 8191.
  - by exists 32.
  - unfold PmallocRun.demo_base, PAGE_SIZE. lia.
  - by vm_compute.
  - intros b r Hr. simpl in Hr. by rewrite lookup_empty in Hr.
  - intros k Hk _. change (2 ^ k | 8192). change 8192 with (2 ^ 13). apply PmallocInv.pow2_dvd. unfold Pmalloc.FREELIST_COUNT in Hk. lia.
Qed.

Lemma demo_frames_pages : pa_ok demo_frames.
Proof.
  split.
  - assert (H : PmallocRun.reachable 80 40 demo_frames []).
    { eapply PmallocRun.reach_add_mem; [apply PmallocRun.reach_initial|apply demo_frames_ok|vm_compute; reflexivity]. }
    exact (PmallocRun.ri_wf _ _ (PmallocRun.reachable_inv _ _ _ _ H)).
  - intros b r Hr. assert (Hm : map_Forall (fun b r => b + Pmalloc.page_count r * PAGE_SIZE <= END) (Pmalloc.regions demo_frames)).
    { apply (bool_decide_unpack _). vm_compute. reflexivity. }
    exact (Hm b r Hr).
Qed.

Lemma demo_proc_ok : exists T, PInv HHDM END demo_proc T ∅ (pa_held demo_frames).
Proof.
  apply (space_start HHDM END VSpaceRun.demo_hhdm_page VSpaceRun.demo_hhdm_range VSpaceRun.demo_phys_end demo_frames demo_tables).
  - exact demo_frames_pages.
  - vm_compute. reflexivity.
  - vm_compute. reflexivity.
  - unfold VSpaceRun.demo_hhdm. lia.
Qed.

Notation RW := (Z.lor Paging.PF_Read Paging.PF_Write).

(** Three bytes more than a page at an address of the caller's choice, with memory at
    once or on demand. *)
Notation demo_call fl := (allocate HHDM 0 0x400000 0x1003 RW fl Paging.WriteBack demo_proc).
Definition demo_backed : proc (A := Pmalloc.state) := default demo_proc (snd <$> demo_call MF_Backed).
Definition demo_demand : proc (A := Pmalloc.state) := default demo_proc (snd <$> demo_call MF_Demand).

Lemma demo_call_ok fl p : mf_and fl MF_Fixed = false -> demo_call fl = Some (0x400000, p) ->
  exists O, ok HHDM END p O.
Proof.
  intros Hf E. destruct demo_proc_ok as [T HP].
  destruct (allocate_ok HHDM END VSpaceRun.demo_hhdm_page VSpaceRun.demo_hhdm_range VSpaceRun.demo_phys_end 0 demo_proc _ 0x400000 0x1003 RW fl Paging.WriteBack
    (ex_intro _ T (ex_intro _ ∅ HP)) ltac:(lia) ltac:(lia) Hf eq_refl) as [[H _]|(r & p' & O' & H & Hok & _)].
  - rewrite H in E. discriminate E.
  - rewrite H in E. apply PagingRun.some_pair_eq in E as [_ ->]. by exists O'.
Qed.

Lemma demo_backed_eq : demo_call MF_Backed = Some (0x400000, demo_backed).
Proof. vm_compute. reflexivity. Qed.
Lemma demo_demand_eq : demo_call MF_Demand = Some (0x400000, demo_demand).
Proof. vm_compute. reflexivity. Qed.

Lemma user_range (k : VSpace.kmem (A := Pmalloc.state)) v : VMem._base (vmem k) = USER_START -> VMem._size (vmem k) = 0x7FFFFFFFE000 - USER_START ->
  USER_START <= v < 0x7FFFFFFFE000 -> in_range k v.
Proof.
  intros E1 E2 Hv. unfold USER_START in *. destruct (page_facts v ltac:(lia)) as ([j Ej] & Hp & _). split; [lia|].
  unfold in_space. rewrite E1, E2. unfold PAGE_SIZE in *. lia.
Qed.

Ltac user_address := apply user_range; [vm_compute; reflexivity|vm_compute; reflexivity|unfold USER_START; lia].

Lemma allocate_correct_witness : exists p O', demo_call MF_Backed = Some (0x400000, p) /\ ok HHDM END p O' /\
  seen_with (Z.lor RW Paging.PF_User) 0x401456 (look (km p) 0x401456).
Proof.
  destruct demo_proc_ok as [T HP].
  assert (Hr : fst <$> demo_call MF_Backed = Some 0x400000) by (vm_compute; reflexivity).
  destruct (allocate_correct HHDM END VSpaceRun.demo_hhdm_page VSpaceRun.demo_hhdm_range VSpaceRun.demo_phys_end 0 demo_proc _ 0x400000 0x1003 RW MF_Backed
    Paging.WriteBack (ex_intro _ T (ex_intro _ ∅ HP)) ltac:(lia) ltac:(lia) eq_refl eq_refl) as [[H _]|(r & p & O' & H & Hok & Hal)];
    rewrite H in Hr; [discriminate Hr|]. apply PagingRun.some_eq in Hr. cbn in Hr. subst r. exists p, O'. split; [exact H|]. split; [exact Hok|].
  destruct Hal as [[? _]|(_ & _ & _ & _ & _ & _ & Hv)]; [lia|]. assert (Hin : in_range (km demo_proc) 0x401456) by user_address.
  specialize (Hv 0x401456 Hin). rewrite decide_True in Hv by (vm_compute; split; [done|reflexivity]). exact Hv.
Defined.

Lemma free_correct_witness : exists p', free HHDM 0x400000 demo_backed = Some (true, p') /\ look (km p') 0x401456 = None.
Proof.
  destruct (demo_call_ok MF_Backed demo_backed eq_refl demo_backed_eq) as [O Hok].
  destruct (free_correct HHDM END VSpaceRun.demo_hhdm_page VSpaceRun.demo_hhdm_range VSpaceRun.demo_phys_end demo_backed O 0x400000 Hok)
    as [[_ H]|(m & p' & H & _ & Hm & Hb & _ & Hv)].
  - destruct (H (mkMapping 0xFFFF800002010030 0x400000 0x2000 0xB 8)); [|done]. vm_compute. left.
  - exists p'. split; [exact H|]. rewrite (Hv 0x401456) by user_address.
    rewrite decide_True; [done|]. rewrite Hb. vm_compute in Hm. apply list_elem_of_singleton in Hm as ->. cbn. lia.
Defined.

Lemma pagefault_correct_witness : exists k, handle_pagefault 0x401456 demo_demand = Some (true, with_km k demo_demand) /\
  exists phys, look k 0x401456 = Some (phys, true, false).
Proof.
  destruct (demo_call_ok MF_Demand demo_demand eq_refl demo_demand_eq) as [O Hok].
  assert (Hr : fst <$> handle_pagefault 0x401456 demo_demand = Some true) by (vm_compute; reflexivity).
  assert (Hin : in_range (km demo_demand) 0x401456) by user_address.
  assert (Hms : mappings demo_demand = [mkMapping 0xFFFF80000201D030 0x400000 0x2000 0xB 16]) by (vm_compute; reflexivity).
  destruct (pagefault_correct HHDM END VSpaceRun.demo_hhdm_range demo_demand O 0x401456 Hok Hin)
    as (b & k & H & _ & Hb). rewrite H in Hr. apply PagingRun.some_eq in Hr. cbn in Hr. subst b. exists k. split; [exact H|].
  destruct Hb as (m & Hm & _ & _ & _ & Hv). rewrite Hms in Hm. apply list_elem_of_singleton in Hm. subst m. specialize (Hv 0x401456 Hin).
  rewrite decide_True in Hv by reflexivity. destruct Hv as (phys & _ & _ & Hv). exists (Z.lor phys (Z.land 0x401456 0xFFF)). exact Hv.
Defined.




Lemma delete_space_correct_witness : exists p', delete_space HHDM demo_backed = Some p' /\ mappings p' = [] /\ pa_ok (pages (km p')).
Proof.
  destruct (demo_call_ok MF_Backed demo_backed eq_refl demo_backed_eq) as (O & T & B & HP).
  destruct (delete_space_correct HHDM END VSpaceRun.demo_hhdm_page VSpaceRun.demo_hhdm_range VSpaceRun.demo_phys_end demo_backed T B O HP)
    as (p' & H & Hm & Hok & _).
  exists p'. split; [exact H|]. split; [exact Hm|exact Hok].
Defined.

Lemma allocate_fixed_hangs_witness : allocate HHDM 1000 0x500000 0x1000 RW (Z.lor MF_Backed MF_Fixed) Paging.WriteBack demo_backed = None.
Proof.
  assert (Hms : mappings demo_backed = [mkMapping 0xFFFF800002010030 0x400000 0x2000 0xB 8]) by (vm_compute; reflexivity).
  apply (allocate_fixed_hangs HHDM demo_backed 0x500000 0x1000); [reflexivity|lia|lia|].
  rewrite Hms. intros m ->%list_elem_of_singleton. vm_compute. intros [_ H]. discriminate H.
Defined.

(** ** Where the code goes wrong *)

Notation call fl b n p := (allocate HHDM 0 b n RW fl Paging.WriteBack p).

(** [protect] over two mappings that starts in the middle of the first skips the second:
    it subtracts the offset in the first mapping from a size that no longer has it, so
    that the position wraps.  It reports success, and the second page stays writable. *)
Theorem protect_skips_mapping :
  (p ← snd <$> call MF_Backed 0x400000 0x4000 demo_proc; p ← snd <$> call MF_Backed 0x404000 0x1000 p;
   '(b, p) ← protect HHDM 10 0x403000 0x2000 Paging.PF_Read p; Some (b, look (km p) 0x403000, look (km p) 0x404000)) =
  Some (true, Some (0x2011000, false, false), Some (0x2013000, true, false)).
Proof. vm_compute. reflexivity. Qed.

(** [protect] of a demand mapping gives the process the first page of physical memory at
    every page that has no memory yet and whose table exists. *)
Theorem protect_maps_page_zero :
  ('(f, p) ← handle_pagefault 0x400000 demo_demand; '(b, p) ← protect HHDM 10 0x400000 0x2000 Paging.PF_Read p; Some (f, b, look (km p) 0x401008)) =
  Some (true, true, Some (8, false, false)).
Proof. vm_compute. reflexivity. Qed.

(** A copy of a process has nothing behind the pages of demand mappings, whatever
    the process had stored there; backed mappings are copied. *)
Theorem clone_forgets_demand :
  ('(f, p) ← handle_pagefault 0x400000 demo_demand; p ← snd <$> call MF_Backed 0x500000 0x1000 p;
   '(p, new) ← clone HHDM (Paging.level0 (Paging.pm demo_tables)) p;
   Some (look (km p) 0x400123, look (km new) 0x400123, look (km p) 0x500123, look (km new) 0x500123)) =
  Some (Some (0x2018123, true, false), None, Some (0x2010123, true, false), Some (0x2013123, true, false)).
Proof. vm_compute. reflexivity. Qed.

(** An allocation that fails because there is no page for a table loses the page it was
    about to map: after the process is deleted one page is still held, and none
    without that allocation. *)
Theorem allocate_leaks_page :
  (p ← snd <$> call MF_Backed 0x800000 0x16000 demo_proc; '(r, p1) ← call MF_Backed 0x5FF000 0x2000 p;
   p ← delete_space HHDM p; p1 ← delete_space HHDM p1;
   Some (r, Pmalloc.used_memory (pages (km p)), Pmalloc.used_memory (pages (km p1)))) = Some (0, 0, PAGE_SIZE).
Proof. vm_compute. reflexivity. Qed.

End ProcCorrect.
