(* ===== verification/Vector.v ===== *)
(** * The growable array (src/src/std/vector.hpp)

    A [vector] owns one block of the kernel heap.  The heap is the map from the
    address of each live block to the size it was asked for; [free] with another
    size is undefined ([None]), as the allocator finds the size class from it.
    An allocation that fails is a panic; the model has no such case.  Slots past
    the size hold no element. *)

From S2P Require Import Prelude.

Module Vector.

Section Vector.
Context {T : Type} (dflt : T) (sizeof : Z).

Record vector := mkVec { _data : option Z; elems : list T; _cap : Z }.

Definition heap : Type := gmap Z Z.

Definition _size (v : vector) : Z := Z.of_nat (length (elems v)).

(** [Allocator::alloc] gives a block that is not in use, also for size 0. *)
Definition alloc (size : Z) (h : gmap Z Z) : Z * gmap Z Z :=
  let p := fresh (dom h) in (p, <[p := size]> h).

(** [Allocator::free] ignores a null pointer and a zero size. *)
Definition free (p : option Z) (size : Z) (h : gmap Z Z) : option (gmap Z Z) :=
  match p with
  | None => Some h
  | Some p => if size =? 0 then Some h else n ← h !! p; _ ← assert (n =? size); Some (delete p h)
  end.

Definition new : vector := mkVec None [] 0.

Definition reserve (amount : Z) (v : vector) (h : gmap Z Z) : option (vector * gmap Z Z) :=
  if _size v + amount >? _cap v then
    let new_cap := Z.max (if _cap v <? 8 then 8 else _cap v + _cap v / 2) (_cap v + amount) in
    let '(new_data, h) := alloc (new_cap * sizeof) h in
    h ← free (_data v) (_cap v * sizeof) h;
    Some (mkVec (Some new_data) (elems v) new_cap, h)
  else Some (v, h).

Definition push (x : T) (v : vector) (h : gmap Z Z) : option (vector * gmap Z Z) :=
  '(v, h) ← reserve 1 v h;
  Some (mkVec (_data v) (elems v ++ [x]) (_cap v), h).

Definition is_empty (v : vector) : bool := _size v =? 0.

Definition pop (v : vector) : option T * vector :=
  if is_empty v then (None, v)
  else (last (elems v), mkVec (_data v) (take (length (elems v) - 1) (elems v)) (_cap v)).

(** The loop that moves the elements behind [index] down by one. *)
Fixpoint shift_loop (n : nat) (i : nat) (l : list T) : option (list T) :=
  match n with
  | O => Some l
  | S n => x ← l !! i; shift_loop n (S i) (<[(i - 1)%nat := x]> l)
  end.
Definition remove (index : Z) (v : vector) : option (option T * vector) :=
  if index >=? _size v then Some (None, v)
  else
    elem ← elems v !! Z.to_nat index;
    l ← shift_loop (length (elems v) - Z.to_nat index - 1) (Z.to_nat index + 1) (elems v);
    Some (Some elem, mkVec (_data v) (take (length (elems v) - 1) l) (_cap v)).

Definition get (index : Z) (v : vector) : option T :=
  _ ← assert (index <? _size v); elems v !! Z.to_nat index.

Definition resize (new_size : Z) (v : vector) (h : gmap Z Z) : option (vector * gmap Z Z) :=
  if new_size <=? _size v then Some (mkVec (_data v) (take (Z.to_nat new_size) (elems v)) (_cap v), h)
  else
    let amount := new_size - _size v in
    '(v, h) ← reserve amount v h;
    Some (mkVec (_data v) (elems v ++ replicate (Z.to_nat amount) dflt) (_cap v), h).

Definition clear (v : vector) : vector := mkVec (_data v) [] (_cap v).

Definition shrink_to_fit (v : vector) (h : gmap Z Z) : option (vector * gmap Z Z) :=
  if is_empty v && negb (_cap v =? 0) then
    h ← free (_data v) (_cap v * sizeof) h; Some (mkVec None (elems v) 0, h)
  else Some (v, h).

Definition destroy (v : vector) (h : gmap Z Z) : option (gmap Z Z) := free (_data v) (_cap v * sizeof) h.

Definition copy (other : vector) (h : gmap Z Z) : vector * gmap Z Z :=
  if is_empty other then (new, h)
  else let '(p, h) := alloc (_size other * sizeof) h in (mkVec (Some p) (elems other) (_size other), h).

(** [operator=(const vector&)], for another vector. *)
Definition copy_assign (v other : vector) (h : gmap Z Z) : option (vector * gmap Z Z) :=
  h ← (if negb (_cap v =? 0) then free (_data v) (_cap v * sizeof) h else Some h);
  let '(p, h) := alloc (_size other * sizeof) h in
  Some (mkVec (Some p) (elems other) (_size other), h).

(** [operator=(vector&&)]: the vector and what is left of the other. *)
Definition move_assign (v other : vector) : vector * vector :=
  (mkVec (_data other) (elems other) (_cap other), mkVec None [] 0).

(** ** The invariant *)

Definition wf (v : vector) (h : gmap Z Z) : Prop :=
  _size v <= _cap v /\
  match _data v with Some p => 0 < _cap v /\ h !! p = Some (_cap v * sizeof) | None => _cap v = 0 end.

(** The heap without the vector's block. *)
Definition others (v : vector) (h : gmap Z Z) : gmap Z Z :=
  match _data v with Some p => delete p h | None => h end.

Hypothesis sizeof_pos : 0 < sizeof.

Lemma free_ok v h : wf v h -> free (_data v) (_cap v * sizeof) h = Some (others v h).
Proof.
  intros [_ H]. unfold free, others. destruct (_data v) as [p|]; [|done]. destruct H as [Hc ->].
  replace (_cap v * sizeof =? 0) with false by nia. simpl. by rewrite Z.eqb_refl.
Qed.

Lemma alloc_fresh size h : h !! fst (alloc size h) = None.
Proof. simpl. apply not_elem_of_dom, is_fresh. Qed.

Lemma reserve_spec amount v h : wf v h -> 0 <= amount ->
  exists v' h', reserve amount v h = Some (v', h') /\ wf v' h' /\ elems v' = elems v /\
    _size v + amount <= _cap v' /\ others v' h' = others v h.
Proof.
  intros Hwf Ha. pose proof Hwf as [Hs Hd]. unfold reserve.
  destruct (Z.gtb_spec (_size v + amount) (_cap v)) as [Hgt|Hle].
  2:{ exists v, h. split_and!; try done; lia. }
  assert (Hc : 0 <= _cap v) by (unfold _size in Hs; lia).
  set (new_cap := Z.max _ _).
  assert (Hn : _size v + amount <= new_cap /\ 0 < new_cap).
  { unfold new_cap. pose proof (Z.div_pos (_cap v) 2 Hc ltac:(lia)). destruct (_cap v <? 8) eqn:E; lia. }
  pose proof (alloc_fresh (new_cap * sizeof) h) as Hf.
  destruct (alloc (new_cap * sizeof) h) as [p h1] eqn:Eal. simpl in Hf.
  assert (Hh1 : h1 = <[p := new_cap * sizeof]> h) by (unfold alloc in Eal; by simplify_eq).
  assert (Hwf1 : wf v h1).
  { split; [done|]. subst h1. destruct (_data v) as [q|]; [|done]. destruct Hd as [? Hq]. split; [done|].
    rewrite lookup_insert_ne; [done|]. intros ->. congruence. }
  rewrite (free_ok _ _ Hwf1). cbn [mbind option_bind]. eexists _, _. split; [done|]. split_and!; simpl; try done; try lia.
  - split; [unfold _size in *; simpl; lia|]. simpl. split; [lia|]. unfold others. subst h1.
    destruct (_data v) as [q|]; [|apply lookup_insert_eq].
    rewrite lookup_delete_ne, lookup_insert_eq; [done|]. intros ->. destruct Hd. congruence.
  - unfold others at 1 2. simpl. subst h1. unfold others. destruct (_data v) as [q|]; [|by rewrite delete_insert_id].
    destruct Hd as [_ Hq]. rewrite delete_delete. by rewrite delete_insert_id.
Qed.

Lemma shift_loop_spec n : forall i l, (1 <= i)%nat -> (i + n = length l)%nat ->
  exists l', shift_loop n i l = Some l' /\ length l' = length l /\
    take (length l - 1) l' = take (i - 1) l ++ drop i l.
Proof.
  induction n as [|n IH]; intros i l Hi Hl; simpl.
  { exists l. split_and!; [done|done|]. rewrite (drop_ge l i), app_nil_r by lia. f_equal. lia. }
  destruct (lookup_lt_is_Some_2 l i) as [x Hx]; [lia|]. rewrite Hx. cbn [mbind option_bind].
  destruct (IH (S i) (<[(i - 1)%nat := x]> l)) as (l' & -> & Hl' & Ht); [lia|rewrite length_insert; lia|].
  rewrite length_insert in *. exists l'. split_and!; [done|done|]. rewrite Ht.
  replace (S i - 1)%nat with (S (i - 1)) by lia. rewrite (take_S_r _ _ x) by (apply list_lookup_insert_eq; lia).
  rewrite take_insert_ge, drop_insert_lt, <- (assoc_L app) by lia. by rewrite (drop_S l x i) by done.
Qed.

Lemma remove_spec index v h : wf v h -> 0 <= index ->
  exists v', remove index v = Some (elems v !! Z.to_nat index, v') /\ wf v' h /\
    elems v' = delete (Z.to_nat index) (elems v) /\ _data v' = _data v.
Proof.
  intros [Hs Hd] Hi. unfold remove. destruct (Z.geb_spec index (_size v)) as [Hge|Hlt]; unfold _size in *.
  - exists v. rewrite lookup_ge_None_2, delete_take_drop, take_ge, drop_ge, app_nil_r by lia. done.
  - destruct (lookup_lt_is_Some_2 (elems v) (Z.to_nat index)) as [x Hx]; [lia|]. rewrite Hx. cbn [mbind option_bind].
    destruct (shift_loop_spec (length (elems v) - Z.to_nat index - 1) (Z.to_nat index + 1) (elems v))
      as (l & -> & Hl & Ht); [lia|lia|]. cbn [mbind option_bind]. eexists. split; [done|].
    assert (He : take (length (elems v) - 1) l = delete (Z.to_nat index) (elems v)).
    { rewrite Ht, delete_take_drop. f_equal; f_equal; lia. }
    rewrite He. split_and!; simpl; try done. split; [|done]. unfold _size. simpl.
    rewrite length_delete by eauto. lia.
Qed.

(** ** Runs against lists *)

Inductive vop := Reserve (n : Z) | Push (x : T) | Pop | Remove (index : Z) | Resize (n : Z) | Clear | Shrink.

Definition valid (o : vop) : Prop :=
  match o with Reserve n | Remove n | Resize n => 0 <= n | _ => True end.

Definition vstep (o : vop) (v : vector) (h : gmap Z Z) : option (vector * gmap Z Z) :=
  match o with
  | Reserve n => reserve n v h
  | Push x => push x v h
  | Pop => Some (snd (pop v), h)
  | Remove i => '(_, v) ← remove i v; Some (v, h)
  | Resize n => resize n v h
  | Clear => Some (clear v, h)
  | Shrink => shrink_to_fit v h
  end.

(** The same operation on a list. *)
Definition lstep (o : vop) (l : list T) : list T :=
  match o with
  | Reserve _ | Shrink => l
  | Push x => l ++ [x]
  | Pop => take (length l - 1) l
  | Remove i => delete (Z.to_nat i) l
  | Resize n => take (Z.to_nat n) l ++ replicate (Z.to_nat n - length l) dflt
  | Clear => []
  end.

Lemma shorter v l h : wf v h -> (length l <= length (elems v))%nat -> wf (mkVec (_data v) l (_cap v)) h.
Proof. intros [Hs Hd] Hl. split; [unfold _size in *; simpl; lia|done]. Qed.

Lemma vstep_spec o v h : wf v h -> valid o ->
  exists v' h', vstep o v h = Some (v', h') /\ wf v' h' /\ elems v' = lstep o (elems v) /\ others v' h' = others v h.
Proof.
  intros Hwf Ho. destruct o as [n|x| |i|n| |]; simpl in Ho |- *.
  - destruct (reserve_spec n v h Hwf Ho) as (v' & h' & -> & ? & ? & _ & ?). eauto 10.
  - unfold push. destruct (reserve_spec 1 v h Hwf ltac:(lia)) as (v' & h' & -> & [? ?] & He & Hc & ?).
    cbn [mbind option_bind]. eexists _, _. split; [done|]. split_and!; simpl; try done; [|by rewrite He].
    split; [|done]. unfold _size in *. simpl. rewrite length_app, He. simpl. lia.
  - exists (snd (pop v)), h. unfold pop, is_empty, _size. split; [done|].
    destruct (Z.eqb_spec (Z.of_nat (length (elems v))) 0) as [E|E]; simpl.
    + split_and!; [done| |done]. destruct (elems v); [done|simpl in E; lia].
    + split_and!; [|done..]. apply shorter; [done|]. rewrite length_take. lia.
  - destruct (remove_spec i v h Hwf Ho) as (v' & -> & ? & ? & Hd). cbn [mbind option_bind].
    eexists _, _. split; [done|]. split_and!; [done|done|]. unfold others. by rewrite Hd.
  - unfold resize. destruct (Z.leb_spec n (_size v)) as [Hle|Hgt]; unfold _size in *.
    + eexists _, _. split; [done|]. split_and!; simpl; [|by rewrite (proj2 (Nat.sub_0_le _ _)), app_nil_r by lia|done].
      apply shorter; [done|]. rewrite length_take. lia.
    + destruct (reserve_spec (n - _size v) v h Hwf) as (v' & h' & Hr & [? ?] & He & Hc & ?); [unfold _size; lia|].
      unfold _size in *. rewrite Hr. cbn [mbind option_bind]. eexists _, _. split; [done|]. split_and!; simpl; [|rewrite He|done].
      * split; [|done]. unfold _size. simpl. rewrite length_app, length_replicate, He. lia.
      * rewrite take_ge by lia. f_equal. f_equal. lia.
  - eexists _, _. split; [done|]. split_and!; [|done..]. apply shorter; [done|simpl; lia].
  - unfold shrink_to_fit. destruct (is_empty v && negb (_cap v =? 0)) eqn:E.
    + rewrite (free_ok _ _ Hwf). cbn [mbind option_bind]. eexists _, _. split; [done|]. split_and!; simpl; try done.
      apply andb_true_iff in E as [E _]. unfold is_empty in E. split; simpl; [|done]. unfold _size in *. simpl. lia.
    + eauto 10.
Qed.

Fixpoint vrun (os : list vop) (v : vector) (h : gmap Z Z) : option (vector * gmap Z Z) :=
  match os with
  | [] => Some (v, h)
  | o :: os => '(v, h) ← vstep o v h; vrun os v h
  end.

Lemma vrun_spec os : Forall valid os -> forall v h, wf v h ->
  exists v' h', vrun os v h = Some (v', h') /\ wf v' h' /\
    elems v' = fold_left (fun l o => lstep o l) os (elems v) /\ others v' h' = others v h.
Proof.
  induction 1 as [|o os Ho Hos IH]; intros v h Hwf; simpl; [eauto 10|].
  destruct (vstep_spec o v h Hwf Ho) as (v1 & h1 & -> & Hwf1 & He1 & Ho1). cbn [mbind option_bind].
  destruct (IH v1 h1 Hwf1) as (v' & h' & -> & ? & He & Ho'). exists v', h'. rewrite He, He1, Ho', Ho1. done.
Qed.

End Vector.

(** Every sequence of reserve, push, pop, remove, resize, clear and shrink_to_fit on a new vector succeeds (each block is freed once and with its own size) and leaves exactly the elements that the same operations leave of a list; the destructor then restores the heap of before. *)
Theorem vector_refines_list {T} (dflt : T) sizeof os h : 0 < sizeof -> Forall valid os ->
  exists v h', vrun dflt sizeof os new h = Some (v, h') /\
    elems v = fold_left (fun l o => lstep dflt o l) os [] /\ destroy sizeof v h' = Some h.
Proof.
  intros Hs Hos. destruct (vrun_spec dflt sizeof Hs os Hos new h) as (v & h' & Hr & Hwf & He & Ho).
  { split; simpl; done. }
  exists v, h'. split_and!; [done|done|]. unfold destroy. rewrite (free_ok _ Hs _ _ Hwf). by rewrite Ho.
Qed.

Lemma vector_refines_list_witness :
  exists v h', vrun 0 4 [Push 7; Push 8; Push 9; Remove 1; Resize 4; Pop] new ∅ = Some (v, h') /\ elems v = [7; 9; 0].
Proof.
  destruct (vector_refines_list 0 4 [Push 7; Push 8; Push 9; Remove 1; Resize 4; Pop] ∅ ltac:(lia)) as (v & h' & Hr & He & _).
  - rewrite !Forall_cons, Forall_nil. simpl. lia.
  - exists v, h'. split; [exact Hr|exact He].
Defined.

(** Assignment leaks memory: the move assignment drops the block that the vector had, and the copy assignment of an empty vector allocates a block of capacity 0 that no destructor gives back. *)
Theorem vector_assign_leaks {T} sizeof (v w : vector) h p : 0 < sizeof -> wf (T := T) sizeof v h -> wf sizeof w h ->
  _data v = Some p -> _data w <> Some p ->
  (let '(v', w') := move_assign v w in
   exists h', (h ← destroy sizeof w' h; destroy sizeof v' h) = Some h' /\ h' !! p = Some (_cap v * sizeof)) /\
  (elems w = [] -> exists v' h1 h2 q, copy_assign sizeof v w h = Some (v', h1) /\ destroy sizeof v' h1 = Some h2 /\
     _data v' = Some q /\ h2 !! q = Some 0).
Proof.
  intros Hs Hv Hw Hp Hne. pose proof Hv as [_ Hd]. rewrite Hp in Hd. destruct Hd as [Hc Hlk]. split.
  - simpl. unfold destroy. simpl. rewrite (free_ok _ Hs _ _ Hw). eexists. split; [done|].
    unfold others. destruct (_data w) as [q|]; [|done]. by rewrite lookup_delete_ne by congruence.
  - intros He. unfold copy_assign. replace (_cap v =? 0) with false by lia. cbn [negb].
    rewrite (free_ok _ Hs _ _ Hv). cbn [mbind option_bind]. unfold _size. rewrite He. simpl.
    eexists _, _, _, _. split; [done|]. unfold destroy. simpl. split_and!; [done|done|]. by rewrite lookup_insert_eq.
Qed.

Lemma vector_assign_leaks_witness :
  exists h', (h ← destroy 4 (mkVec (T := Z) None [] 0) {[ 5 := 32 ]}; destroy 4 (mkVec (T := Z) None [] 0) h) = Some h' /\ h' !! 5 = Some 32.
Proof.
  apply (vector_assign_leaks 4 (mkVec (Some 5) [1] 8) (mkVec None [] 0) {[ 5 := 32 ]} 5).
  - lia.
  - split; [vm_compute; discriminate|]. split; [simpl; lia|vm_compute; reflexivity].
  - split; [vm_compute; discriminate|reflexivity].
  - reflexivity.
  - discriminate.
Defined.

End Vector.
