(* ===== verification/HandleTable.v ===== *)
(** * The handle table of a process (src/src/sched/handle_table.cpp, handle_table.hpp)

    A handle is an index into a vector of variants; the indices of removed
    handles are kept on a stack and used again.  The vectors are lists (Vector.v
    shows that they behave as such), an index past the end is a failed assertion
    ([None]), and the pointer that an alternative of the variant holds is a
    number.  The lock makes the operations atomic.  The abstract specification is
    a finite map from handles to objects; the theorem is a simulation. *)

From S2P Require Import Prelude.

Module HandleTable.

Inductive Handle :=
| Monostate
| EmptyHandle
| DeviceHandle (p : Z)
| ProcessHandle (p : Z)
| ThreadHandle (p : Z)
| SocketHandle (p : Z)
| SharedMemoryHandle (p : Z)
| OpenFileHandle (p : Z)
| EvmHandle (p : Z)
| VirtualCpuHandle (p : Z).

#[global] Instance handle_eq_dec : EqDecision Handle.
Proof. solve_decision. Defined.

Record HandleTable := mkTable { table : list Handle; count : Z; free_handles : list Z }.

Definition empty_table : HandleTable := mkTable [] 0 [].

Definition is_monostate (h : Handle) : bool := bool_decide (h = Monostate).

Definition get (handle : Z) (t : HandleTable) : option (option Handle) :=
  if handle >=? count t then Some None
  else
    loc ← table t !! Z.to_nat handle;
    if is_monostate loc then Some None else Some (Some loc).

(** [table.resize(new_size)] for a larger size. *)
Definition grow (t : list Handle) : list Handle :=
  let size := length t in
  let new_size := if bool_decide (size < 8)%nat then 8%nat else (size + size / 2)%nat in
  t ++ replicate (new_size - size) Monostate.

Definition insert (handle : Handle) (t : HandleTable) : option (Z * HandleTable) :=
  let '(index, t) :=
    match last (free_handles t) with
    | Some index => (index, mkTable (table t) (count t) (take (length (free_handles t) - 1) (free_handles t)))
    | None =>
        let tab := if count t =? Z.of_nat (length (table t)) then grow (table t) else table t in
        (count t, mkTable tab (count t + 1) (free_handles t))
    end in
  _ ← table t !! Z.to_nat index;
  Some (index, mkTable (<[Z.to_nat index := handle]> (table t)) (count t) (free_handles t)).

Definition replace (handle : Z) (with_ : Handle) (t : HandleTable) : option (bool * HandleTable) :=
  if handle >=? count t then Some (false, t)
  else
    loc ← table t !! Z.to_nat handle;
    if is_monostate loc then Some (false, t)
    else Some (true, mkTable (<[Z.to_nat handle := with_]> (table t)) (count t) (free_handles t)).

Definition remove (handle : Z) (t : HandleTable) : option (bool * HandleTable) :=
  if handle >=? count t then Some (false, t)
  else
    loc ← table t !! Z.to_nat handle;
    if is_monostate loc then Some (false, t)
    else Some (true, mkTable (<[Z.to_nat handle := Monostate]> (table t)) (count t) (free_handles t ++ [handle])).

(** ** The abstract specification *)

Inductive hop := Get (i : Z) | Insert (h : Handle) | Replace (i : Z) (h : Handle) | Remove (i : Z).
Inductive result := RHandle (o : option Handle) | RIndex (i : Z) | RBool (b : bool).

(** Handles are unsigned, and nothing stores the empty alternative. *)
Definition valid (o : hop) : Prop :=
  match o with
  | Get i | Remove i => 0 <= i
  | Insert h => h <> Monostate
  | Replace i h => 0 <= i /\ h <> Monostate
  end.

Inductive spec (m : gmap Z Handle) : hop -> result -> gmap Z Handle -> Prop :=
| spec_get i : spec m (Get i) (RHandle (m !! i)) m
| spec_insert h i : m !! i = None -> spec m (Insert h) (RIndex i) (<[i := h]> m)
| spec_replace i h old : m !! i = Some old -> spec m (Replace i h) (RBool true) (<[i := h]> m)
| spec_replace_none i h : m !! i = None -> spec m (Replace i h) (RBool false) m
| spec_remove i old : m !! i = Some old -> spec m (Remove i) (RBool true) (delete i m)
| spec_remove_none i : m !! i = None -> spec m (Remove i) (RBool false) m.

Definition step (o : hop) (t : HandleTable) : option (result * HandleTable) :=
  match o with
  | Get i => r ← get i t; Some (RHandle r, t)
  | Insert h => '(i, t) ← insert h t; Some (RIndex i, t)
  | Replace i h => '(b, t) ← replace i h t; Some (RBool b, t)
  | Remove i => '(b, t) ← remove i t; Some (RBool b, t)
  end.

(** ** The simulation *)

Record inv (t : HandleTable) : Prop := {
  i_count : 0 <= count t <= Z.of_nat (length (table t));
  i_nodup : NoDup (free_handles t);
  i_free : forall i, i ∈ free_handles t <-> 0 <= i < count t /\ table t !! Z.to_nat i = Some Monostate
}.

Definition present (t : HandleTable) (i : Z) : option Handle :=
  if bool_decide (0 <= i < count t) then
    h ← table t !! Z.to_nat i; if is_monostate h then None else Some h
  else None.

Definition sim (t : HandleTable) (m : gmap Z Handle) : Prop := inv t /\ forall i, m !! i = present t i.

Lemma slot_lookup t i : inv t -> 0 <= i -> (i >=? count t) = false ->
  exists h, table t !! Z.to_nat i = Some h /\ 0 <= i < count t /\
    present t i = (if is_monostate h then None else Some h).
Proof.
  intros I Hi Hc. destruct (i_count _ I). destruct (lookup_lt_is_Some_2 (table t) (Z.to_nat i)) as [h Hh]; [lia|].
  exists h. unfold present. rewrite bool_decide_true, Hh by lia. split_and!; [done|lia|lia|done].
Qed.

Lemma present_out t i : 0 <= i -> (i >=? count t) = true -> present t i = None.
Proof. intros Hi Hc. unfold present. by rewrite bool_decide_false by lia. Qed.

(** Changing one slot. *)
Lemma present_update t i h n f j : 0 <= i < count t -> (Z.to_nat i < length (table t))%nat -> n = count t ->
  present (mkTable (<[Z.to_nat i := h]> (table t)) n f) j =
    if decide (j = i) then (if is_monostate h then None else Some h) else present t j.
Proof.
  intros Hi Hl ->. unfold present. simpl. destruct (decide (j = i)) as [->|Hne].
  - by rewrite bool_decide_true, list_lookup_insert_eq by done.
  - case_bool_decide; [|done]. by rewrite list_lookup_insert_ne by lia.
Qed.

Lemma length_grow t : (length t < length (grow t))%nat.
Proof.
  unfold grow. rewrite length_app, length_replicate. case_bool_decide as Hc; [lia|].
  assert (0 < length t / 2)%nat by (apply Nat.div_str_pos; lia). lia.
Qed.

Lemma grow_lookup t i : (i < length t)%nat -> grow t !! i = t !! i.
Proof. intros Hi. unfold grow. by rewrite lookup_app_l. Qed.

Lemma insert_reuse t h l index : inv t -> h <> Monostate -> free_handles t = l ++ [index] ->
  exists t', insert h t = Some (index, t') /\ inv t' /\ present t index = None /\
    forall j, present t' j = if decide (j = index) then Some h else present t j.
Proof.
  intros I Hh Hf. pose proof (i_nodup _ I) as Hnd. rewrite Hf in Hnd. apply NoDup_app in Hnd as (Hnl & Hdis & _).
  destruct (i_count _ I) as [Hc1 Hc2]. pose proof (i_free _ I index) as Hi. rewrite Hf in Hi.
  destruct Hi as [Hi _]. destruct Hi as [Hr Hs]; [apply elem_of_app; right; left|].
  assert (Hlen : (Z.to_nat index < length (table t))%nat) by lia.
  unfold insert. rewrite Hf, last_snoc, length_app. simpl. rewrite Hs. cbn [mbind option_bind].
  replace (length l + 1 - 1)%nat with (length l) by lia. rewrite take_app_length. eexists. split; [done|].
  assert (Hpr : forall j, present (mkTable (<[Z.to_nat index := h]> (table t)) (count t) l) j =
                  if decide (j = index) then Some h else present t j).
  { intros j. rewrite present_update by done. by rewrite (bool_decide_false (h = Monostate) Hh : is_monostate h = false). }
  split_and!.
  - split; simpl; [by rewrite length_insert|done|]. intros i. destruct (decide (i = index)) as [->|Hne].
    + rewrite list_lookup_insert_eq by done. split; [|intros [_ ?]; congruence]. intros Hin. exfalso. apply (Hdis index Hin). left.
    + pose proof (i_free _ I i) as Hfi. rewrite Hf in Hfi. split.
      * intros Hin. destruct (proj1 Hfi) as [? ?]; [apply elem_of_app; by left|].
        by rewrite list_lookup_insert_ne by lia.
      * intros [? Hm]. rewrite list_lookup_insert_ne in Hm by lia.
        assert (Hin : i ∈ l ++ [index]) by (by apply Hfi).
        apply elem_of_app in Hin as [?|Hin]; [done|by apply list_elem_of_singleton in Hin].
  - unfold present. by rewrite bool_decide_true, Hs by lia.
  - exact Hpr.
Qed.

Lemma insert_new t h : inv t -> h <> Monostate -> free_handles t = [] ->
  exists t', insert h t = Some (count t, t') /\ inv t' /\ present t (count t) = None /\
    forall j, present t' j = if decide (j = count t) then Some h else present t j.
Proof.
  intros I Hh Hf. destruct (i_count _ I) as [Hc1 Hc2]. unfold insert. rewrite Hf. simpl.
  set (tab := if count t =? Z.of_nat (length (table t)) then grow (table t) else table t).
  assert (Htab : (Z.to_nat (count t) < length tab)%nat /\ forall i, (i < length (table t))%nat -> tab !! i = table t !! i).
  { unfold tab. destruct (Z.eqb_spec (count t) (Z.of_nat (length (table t)))) as [E|E].
    - pose proof (length_grow (table t)). split; [lia|]. intros i. apply grow_lookup.
    - split; [lia|done]. }
  destruct Htab as [Hlen Hsame]. destruct (lookup_lt_is_Some_2 tab _ Hlen) as [x ->]. cbn [mbind option_bind].
  eexists. split; [done|].
  assert (Hm : is_monostate h = false) by (by apply bool_decide_false).
  assert (Hold : forall j, 0 <= j < count t -> <[Z.to_nat (count t) := h]> tab !! Z.to_nat j = table t !! Z.to_nat j).
  { intros j Hj. rewrite list_lookup_insert_ne by lia. apply Hsame. lia. }
  split_and!.
  - split; simpl; [rewrite length_insert; lia|constructor|]. intros i. split; [set_solver|]. intros [Hi Hs]. exfalso.
    destruct (decide (i = count t)) as [->|Hne].
    + rewrite list_lookup_insert_eq in Hs by done. congruence.
    + rewrite Hold in Hs by lia. pose proof (proj2 (i_free _ I i)) as Hfi. rewrite Hf in Hfi.
      assert (i ∈ []) by (apply Hfi; split; [lia|done]). set_solver.
  - unfold present. by rewrite bool_decide_false by lia.
  - intros j. unfold present. simpl. destruct (decide (j = count t)) as [->|Hne].
    + rewrite bool_decide_true, list_lookup_insert_eq by lia. simpl. by rewrite Hm.
    + destruct (decide (0 <= j < count t)) as [Hj|Hj].
      * by rewrite !bool_decide_true, Hold by lia.
      * by rewrite !bool_decide_false by lia.
Qed.

Lemma insert_ok t h : inv t -> h <> Monostate ->
  exists i t', insert h t = Some (i, t') /\ inv t' /\ present t i = None /\
    forall j, present t' j = if decide (j = i) then Some h else present t j.
Proof.
  intros I Hh. destruct (last (free_handles t)) as [index|] eqn:El.
  - apply last_Some in El as [l Hf]. exists index. by eapply insert_reuse.
  - apply last_None in El. exists (count t). by apply insert_new.
Qed.

Lemma replace_inv t i h : inv t -> 0 <= i < count t -> h <> Monostate ->
  (exists x, table t !! Z.to_nat i = Some x /\ x <> Monostate) ->
  inv (mkTable (<[Z.to_nat i := h]> (table t)) (count t) (free_handles t)).
Proof.
  intros I Hi Hh (x & Hx & Hxm). pose proof I as [Hc Hn Hf]. apply lookup_lt_Some in Hx as Hl.
  split; simpl; [by rewrite length_insert|done|]. intros j. rewrite Hf. destruct (decide (j = i)) as [->|Hne].
  - rewrite list_lookup_insert_eq by done. rewrite Hx. split; intros [? ?]; congruence.
  - destruct (decide (0 <= j)); [|lia]. by rewrite list_lookup_insert_ne by lia.
Qed.

Lemma remove_inv t i : inv t -> 0 <= i < count t ->
  (exists x, table t !! Z.to_nat i = Some x /\ x <> Monostate) ->
  inv (mkTable (<[Z.to_nat i := Monostate]> (table t)) (count t) (free_handles t ++ [i])).
Proof.
  intros I Hi (x & Hx & Hxm). pose proof I as [Hc Hn Hf]. apply lookup_lt_Some in Hx as Hl.
  assert (Hni : i ∉ free_handles t) by (rewrite Hf; intros [_ ?]; congruence).
  split; simpl; [by rewrite length_insert| |].
  - apply NoDup_app. split_and!; [done| |apply NoDup_singleton]. intros y Hy Hy'.
    apply list_elem_of_singleton in Hy' as ->. done.
  - intros j. rewrite elem_of_app, list_elem_of_singleton, Hf. destruct (decide (j = i)) as [->|Hne].
    + rewrite list_lookup_insert_eq by done. split; [intros _|]; [done|by right].
    + destruct (decide (0 <= j)) as [|Hj]; [rewrite list_lookup_insert_ne by lia; tauto|]. split; [intros [[? _]|?]; lia|lia].
Qed.

Lemma step_sim o t m : sim t m -> valid o ->
  exists r t' m', step o t = Some (r, t') /\ spec m o r m' /\ sim t' m'.
Proof.
  intros [I Hm] Ho. destruct o as [i|h|i h|i]; simpl in Ho |- *.
  - exists (RHandle (m !! i)), t, m. split_and!; [|constructor|done]. rewrite Hm. unfold get.
    destruct (i >=? count t) eqn:E; [by rewrite present_out|].
    destruct (slot_lookup t i I Ho E) as (x & -> & _ & ->). simpl. by destruct (is_monostate x).
  - destruct (insert_ok t h I Ho) as (i & t' & -> & I' & Hno & Hpr). cbn [mbind option_bind].
    exists (RIndex i), t', (<[i := h]> m). split_and!; [done|constructor; by rewrite Hm|]. split; [done|].
    intros j. rewrite Hpr. destruct (decide (j = i)) as [->|]; [apply lookup_insert_eq|].
    by rewrite lookup_insert_ne, Hm by done.
  - destruct Ho as [Hi Hh]. unfold replace. destruct (i >=? count t) eqn:E.
    { eexists _, _, m. split; [done|]. split; [constructor; by rewrite Hm, present_out|done]. }
    destruct (slot_lookup t i I Hi E) as (x & Hx & Hr & Hp). rewrite Hx. cbn [mbind option_bind].
    destruct (is_monostate x) eqn:Ex; cbn [mbind option_bind].
    { eexists _, _, m. split; [done|]. split; [constructor; by rewrite Hm, Hp|done]. }
    apply bool_decide_eq_false in Ex. eexists _, _, (<[i := h]> m). split; [done|].
    split; [econstructor; by rewrite Hm, Hp|]. split; [apply replace_inv; eauto|].
    intros j. rewrite present_update by (done || by apply lookup_lt_Some in Hx).
    rewrite (bool_decide_false (h = Monostate) Hh : is_monostate h = false).
    destruct (decide (j = i)) as [->|]; [apply lookup_insert_eq|by rewrite lookup_insert_ne, Hm by done].
  - unfold remove. destruct (i >=? count t) eqn:E.
    { eexists _, _, m. split; [done|]. split; [constructor; by rewrite Hm, present_out|done]. }
    destruct (slot_lookup t i I Ho E) as (x & Hx & Hr & Hp). rewrite Hx. cbn [mbind option_bind].
    destruct (is_monostate x) eqn:Ex; cbn [mbind option_bind].
    { eexists _, _, m. split; [done|]. split; [constructor; by rewrite Hm, Hp|done]. }
    apply bool_decide_eq_false in Ex. eexists _, _, (delete i m). split; [done|].
    split; [econstructor; by rewrite Hm, Hp|]. split; [apply remove_inv; eauto|].
    intros j. rewrite present_update by (done || by apply lookup_lt_Some in Hx).
    change (is_monostate Monostate) with true. cbn iota.
    destruct (decide (j = i)) as [->|]; [apply lookup_delete_eq|by rewrite lookup_delete_ne, Hm by done].
Qed.

Fixpoint run (os : list hop) (t : HandleTable) : option (list result * HandleTable) :=
  match os with
  | [] => Some ([], t)
  | o :: os => '(r, t) ← step o t; '(rs, t) ← run os t; Some (r :: rs, t)
  end.

Inductive spec_run : gmap Z Handle -> list hop -> list result -> gmap Z Handle -> Prop :=
| spec_nil m : spec_run m [] [] m
| spec_cons m m1 m2 o os r rs : spec m o r m1 -> spec_run m1 os rs m2 -> spec_run m (o :: os) (r :: rs) m2.

Lemma run_sim os : Forall valid os -> forall t m, sim t m ->
  exists rs t' m', run os t = Some (rs, t') /\ spec_run m os rs m' /\ sim t' m'.
Proof.
  induction 1 as [|o os Ho _ IH]; intros t m S.
  - eexists _, _, _. split; [done|]. split; [constructor|done].
  - destruct (step_sim o t m S Ho) as (r & t1 & m1 & Hs & Hsp & S1).
    destruct (IH t1 m1 S1) as (rs & t' & m' & Hr & Hrs & S'). cbn [run]. rewrite Hs. cbn [mbind option_bind].
    rewrite Hr. cbn [mbind option_bind]. eexists _, _, _. split; [done|]. split; [by econstructor|done].
Qed.

Lemma empty_sim : sim empty_table ∅.
Proof.
  split.
  - split; simpl; [lia|constructor|]. intros i. split; [set_solver|lia].
  - intros i. unfold present. simpl. by rewrite lookup_empty, bool_decide_false by lia.
Qed.

(** C26: The handle table implements a finite map: every sequence of get, insert, replace and remove on a new table runs without an index out of bounds, and its results are those of a map in which insert picks a handle that is not in use, so that a handle names the object it was inserted with until it is replaced or removed. *)
Theorem handle_table_refines_map os : Forall valid os ->
  exists rs t m, run os empty_table = Some (rs, t) /\ spec_run ∅ os rs m /\ forall i, m !! i = present t i.
Proof.
  intros Hos. destruct (run_sim os Hos _ _ empty_sim) as (rs & t & m & Hr & Hs & _ & Hm). by exists rs, t, m.
Qed.

Lemma handle_table_refines_map_witness : exists rs t,
  run [Insert (ThreadHandle 7); Insert EmptyHandle; Remove 0; Insert (SocketHandle 9); Get 0; Get 2] empty_table = Some (rs, t) /\
  rs = [RIndex 0; RIndex 1; RBool true; RIndex 0; RHandle (Some (SocketHandle 9)); RHandle None].
Proof.
  destruct (handle_table_refines_map
    [Insert (ThreadHandle 7); Insert EmptyHandle; Remove 0; Insert (SocketHandle 9); Get 0; Get 2]) as (rs & t & m & Hr & _).
  - rewrite !Forall_cons, Forall_nil. simpl. split_and!; done || lia.
  - exists rs, t. split; [exact Hr|]. vm_compute in Hr. by injection Hr as <- _.
Defined.

End HandleTable.
