(* ===== verification/RbTree.v ===== *)
(** * The intrusive red-black tree (src/src/std/rb_tree.hpp)

    Futexes, memory mappings and USB events are kept in these trees.  A node is
    its address, 0 the null pointer; [mem] holds the hook of every node that
    exists.  The hook has the children, the parent, the colour (0 black, 1 red)
    and the neighbours in key order.  [None] is a failed assertion or a null
    dereference.  The loops have fuel; RbTreeRun.v shows that the number of nodes
    is enough. *)

From S2P Require Import Prelude.

Module RbTree.

Record RbTreeHook := mkHook {
  parent : Z; child0 : Z; child1 : Z; predecessor : Z; successor : Z; color : Z }.

Definition empty_hook : RbTreeHook := mkHook 0 0 0 0 0 0.

(** [child[d]], with [false] for 0. *)
Definition child (h : RbTreeHook) (d : bool) : Z := if d then child1 h else child0 h.

Definition with_parent (p : Z) (h : RbTreeHook) : RbTreeHook :=
  mkHook p (child0 h) (child1 h) (predecessor h) (successor h) (color h).
Definition with_child (d : bool) (c : Z) (h : RbTreeHook) : RbTreeHook :=
  if d then mkHook (parent h) (child0 h) c (predecessor h) (successor h) (color h)
  else mkHook (parent h) c (child1 h) (predecessor h) (successor h) (color h).
Definition with_predecessor (p : Z) (h : RbTreeHook) : RbTreeHook :=
  mkHook (parent h) (child0 h) (child1 h) p (successor h) (color h).
Definition with_successor (p : Z) (h : RbTreeHook) : RbTreeHook :=
  mkHook (parent h) (child0 h) (child1 h) (predecessor h) p (color h).
Definition with_color (c : Z) (h : RbTreeHook) : RbTreeHook :=
  mkHook (parent h) (child0 h) (child1 h) (predecessor h) (successor h) c.

Record tree := mkTree { root : Z; mem : gmap Z RbTreeHook }.

(** ** Memory *)

Definition hook (p : Z) (s : tree) : option RbTreeHook := if p =? 0 then None else mem s !! p.
Definition set (p : Z) (f : RbTreeHook -> RbTreeHook) (s : tree) : option tree :=
  h ← hook p s; Some (mkTree (root s) (<[p := f h]> (mem s))).
Definition set_if (p : Z) (f : RbTreeHook -> RbTreeHook) (s : tree) : option tree :=
  if p =? 0 then Some s else set p f s.
Definition set_root (p : Z) (s : tree) : tree := mkTree p (mem s).

Definition get_left (node : Z) (s : tree) : option Z := h ← hook node s; Some (child0 h).
Definition get_right (node : Z) (s : tree) : option Z := h ← hook node s; Some (child1 h).
Definition get_parent (node : Z) (s : tree) : option Z := h ← hook node s; Some (parent h).
Definition get_successor (node : Z) (s : tree) : option Z := h ← hook node s; Some (successor h).
Definition get_predecessor (node : Z) (s : tree) : option Z := h ← hook node s; Some (predecessor h).
Definition get_root (s : tree) : Z := root s.

(** The loops of [get_first] and [get_last]. *)
Fixpoint last_child (fuel : nat) (d : bool) (node : Z) (s : tree) : option Z :=
  match fuel with
  | O => None
  | S fuel => h ← hook node s; if child h d =? 0 then Some node else last_child fuel d (child h d) s
  end.
Definition get_first (s : tree) : option Z :=
  if root s =? 0 then Some 0 else last_child (S (size (mem s))) false (root s) s.
Definition get_last (s : tree) : option Z :=
  if root s =? 0 then Some 0 else last_child (S (size (mem s))) true (root s) s.

Definition is_red (node : Z) (s : tree) : option bool :=
  if node =? 0 then Some false else h ← hook node s; Some (color h =? 1).
Definition is_black (node : Z) (s : tree) : option bool :=
  if node =? 0 then Some true else h ← hook node s; Some (color h =? 0).

(** [a && b] for tests that read memory. *)
Definition both (a b : option bool) : option bool := x ← a; if x : bool then b else Some false.

(** The parent's pointer to [node] becomes [by_]; without a parent it is the
    root.  The code of [rotate], [replace_node] and [remove_half_leaf]. *)
Definition replace_child (par node by_ : Z) (s : tree) : option tree :=
  if par =? 0 then Some (set_root by_ s)
  else
    h ← hook par s;
    if child0 h =? node then set par (with_child false by_) s
    else _ ← assert (child1 h =? node); set par (with_child true by_) s.

Definition rotate (node : Z) (right : bool) (s : tree) : option tree :=
  hn ← hook node s;
  let par := parent hn in
  hp ← hook par s;
  _ ← assert (child hp (negb right) =? node);
  let c := child hn right in
  let grandparent := parent hp in
  s ← set_if c (with_parent par) s;
  s ← set par (with_child (negb right) c) s;
  s ← set par (with_parent node) s;
  s ← set node (with_child right par) s;
  s ← set node (with_parent grandparent) s;
  replace_child grandparent par node s.

(** ** Insertion *)

Fixpoint fix_insert (fuel : nat) (node : Z) (s : tree) : option tree :=
  match fuel with
  | O => None
  | S fuel =>
      hn ← hook node s;
      let par := parent hn in
      if par =? 0 then set node (with_color 0) s
      else
        s ← set node (with_color 1) s;
        hp ← hook par s;
        if color hp =? 0 then Some s
        else
          let grandparent := parent hp in
          hg ← hook grandparent s;
          _ ← assert (color hg =? 0);
          red1 ← (if child0 hg =? par then is_red (child1 hg) s else Some false);
          red0 ← (if child1 hg =? par then is_red (child0 hg) s else Some false);
          if red1 : bool then
            s ← set grandparent (with_color 1) s;
            s ← set par (with_color 0) s;
            s ← set (child1 hg) (with_color 0) s;
            fix_insert fuel grandparent s
          else if red0 : bool then
            s ← set grandparent (with_color 1) s;
            s ← set par (with_color 0) s;
            s ← set (child0 hg) (with_color 0) s;
            fix_insert fuel grandparent s
          else if child0 hg =? par then
            s ← (if child1 hp =? node then
                   s ← rotate node false s; s ← rotate node true s; set node (with_color 0) s
                 else s ← rotate par true s; set par (with_color 0) s);
            set grandparent (with_color 1) s
          else
            _ ← assert (child1 hg =? par);
            s ← (if child0 hp =? node then
                   s ← rotate node true s; s ← rotate node false s; set node (with_color 0) s
                 else s ← rotate par false s; set par (with_color 0) s);
            set grandparent (with_color 1) s
  end.

Definition fuel_of (s : tree) : nat := S (size (mem s)).

Definition insert_root (node : Z) (s : tree) : option tree :=
  s ← set node (fun _ => empty_hook) s;
  _ ← assert (root s =? 0);
  fix_insert (fuel_of s) node (set_root node s).

Definition insert_left (par node : Z) (s : tree) : option tree :=
  s ← set node (fun _ => empty_hook) s;
  hp ← hook par s;
  _ ← assert (child0 hp =? 0);
  s ← set par (with_child false node) s;
  s ← set node (with_parent par) s;
  hp ← hook par s;
  let pred := predecessor hp in
  s ← set_if pred (with_successor node) s;
  s ← set node (with_predecessor pred) s;
  s ← set node (with_successor par) s;
  s ← set par (with_predecessor node) s;
  fix_insert (fuel_of s) node s.

Definition insert_right (par node : Z) (s : tree) : option tree :=
  s ← set node (fun _ => empty_hook) s;
  hp ← hook par s;
  _ ← assert (child1 hp =? 0);
  s ← set par (with_child true node) s;
  s ← set node (with_parent par) s;
  hp ← hook par s;
  let succ := successor hp in
  s ← set_if succ (with_predecessor node) s;
  s ← set node (with_successor succ) s;
  s ← set node (with_predecessor par) s;
  s ← set par (with_successor node) s;
  fix_insert (fuel_of s) node s.

(** ** Removal *)

Fixpoint fix_remove (fuel : nat) (node : Z) (s : tree) : option tree :=
  match fuel with
  | O => None
  | S fuel =>
      hn ← hook node s;
      _ ← assert (color hn =? 0);
      let par := parent hn in
      if par =? 0 then Some s
      else
        hp ← hook par s;
        let node_is_left := child0 hp =? node in
        let n := child hp node_is_left in
        h ← hook n s;
        s ← (if color h =? 1 then
               s ← rotate n (negb node_is_left) s;
               hp ← hook par s;
               _ ← assert (child hp (negb node_is_left) =? node);
               s ← set par (with_color 1) s;
               set n (with_color 0) s
             else Some s);
        hp ← hook par s;
        let sibling := child hp node_is_left in
        hs ← hook sibling s;
        b ← both (is_black (child0 hs) s) (is_black (child1 hs) s);
        if b : bool then
          s ← set sibling (with_color 1) s;
          hp ← hook par s;
          if color hp =? 0 then fix_remove fuel par s else set par (with_color 0) s
        else
          let parent_color := color hp in
          let node_is_left := child0 hp =? node in
          let c := child hs (negb node_is_left) in
          r ← both (is_red c s) (is_black (child hs node_is_left) s);
          '(sibling, s) ←
            (if r : bool then
               s ← rotate c node_is_left s;
               s ← set sibling (with_color 1) s;
               s ← set c (with_color 0) s;
               Some (c, s)
             else Some (sibling, s));
          hs ← hook sibling s;
          red ← is_red (child hs node_is_left) s;
          _ ← assert red;
          s ← rotate sibling (negb node_is_left) s;
          s ← set par (with_color 0) s;
          s ← set sibling (with_color parent_color) s;
          hs ← hook sibling s;
          set (child hs node_is_left) (with_color 0) s
  end.

Definition replace_node (node replacement : Z) (s : tree) : option tree :=
  h ← hook node s;
  s ← replace_child (parent h) node replacement s;
  s ← set replacement (with_parent (parent h)) s;
  hn ← hook node s;
  s ← set replacement (with_color (color hn)) s;
  s ← set replacement (with_child false (child0 h)) s;
  s ← set replacement (with_child true (child1 h)) s;
  s ← set_if (child0 h) (with_parent replacement) s;
  s ← set_if (child1 h) (with_parent replacement) s;
  hn ← hook node s;
  s ← set_if (predecessor hn) (with_successor replacement) s;
  hn ← hook node s;
  s ← set replacement (with_predecessor (predecessor hn)) s;
  s ← set replacement (with_successor (successor hn)) s;
  s ← set_if (successor hn) (with_predecessor replacement) s;
  set node (fun h => mkHook 0 0 0 0 0 (color h)) s.

Definition remove_half_leaf (node c : Z) (s : tree) : option tree :=
  h ← hook node s;
  s ← set_if (predecessor h) (with_successor (successor h)) s;
  s ← set_if (successor h) (with_predecessor (predecessor h)) s;
  hn ← hook node s;
  s ← (if color hn =? 0 then
         red ← is_red c s;
         if red : bool then set c (with_color 0) s else fix_remove (fuel_of s) node s
       else Some s);
  hn ← hook node s;
  _ ← assert (((child0 hn =? 0) && (child1 hn =? c)) || ((child1 hn =? 0) && (child0 hn =? c)));
  s ← replace_child (parent hn) node c s;
  s ← set_if c (with_parent (parent hn)) s;
  set node (fun h => mkHook 0 0 0 0 0 (color h)) s.

Definition remove (node : Z) (s : tree) : option tree :=
  h ← hook node s;
  if child0 h =? 0 then remove_half_leaf node (child1 h) s
  else if child1 h =? 0 then remove_half_leaf node (child0 h) s
  else
    let pred := predecessor h in
    hp ← hook pred s;
    s ← remove_half_leaf pred (child0 hp) s;
    replace_node node pred s.

(** ** Keys *)

Section Keys.
Variable key : Z -> Z.

(** The descent of [insert]: the last node, and on which side of it. *)
Fixpoint descend (fuel : nat) (k n prev : Z) (s : tree) : option Z :=
  if n =? 0 then Some prev
  else
    match fuel with
    | O => None
    | S fuel =>
        h ← hook n s;
        if k <? key n then descend fuel k (child0 h) n s
        else if k >? key n then descend fuel k (child1 h) n s
        else None
    end.

Definition insert (node : Z) (s : tree) : option tree :=
  let n := get_root s in
  if n =? 0 then insert_root node s
  else
    prev ← descend (fuel_of s) (key node) n 0 s;
    if key node <? key prev then insert_left prev node s else insert_right prev node s.

Fixpoint find_loop (fuel : nat) (k n : Z) (s : tree) : option Z :=
  if n =? 0 then Some 0
  else
    match fuel with
    | O => None
    | S fuel =>
        h ← hook n s;
        if k <? key n then find_loop fuel k (child0 h) s
        else if k >? key n then find_loop fuel k (child1 h) s
        else Some n
    end.
Definition find (k : Z) (s : tree) : option Z := find_loop (fuel_of s) k (get_root s) s.

End Keys.

End RbTree.
