(* ===== verification/RbTreeFun.v ===== *)
(** * Trees, contexts and balance

    The shape that the hooks of RbTree.v describe: binary trees of node addresses
    with colours, and contexts (the path from a position up to the root).  [nd]
    builds a node with the side given as a bit, so that mirrored cases are one.
    [bal] and [cbal] are the red-black rules of a tree and of a context. *)

From S2P Require Import Prelude RbTree.

Module RbTreeFun.

Inductive col := Black | Red.
#[global] Instance col_eq_dec : EqDecision col.
Proof. solve_decision. Defined.
Definition colz (c : col) : Z := match c with Black => 0 | Red => 1 end.

Inductive tr := Leaf | Node (l : tr) (p : Z) (c : col) (r : tr).
#[global] Instance tr_eq_dec : EqDecision tr.
Proof. solve_decision. Defined.

(** Child [d] is [t1] and the other one [t2]. *)
Definition nd (d : bool) (t1 : tr) (p : Z) (c : col) (t2 : tr) : tr :=
  if d then Node t2 p c t1 else Node t1 p c t2.

Definition ptr (t : tr) : Z := match t with Leaf => 0 | Node _ p _ _ => p end.
Definition root_col (t : tr) : col := match t with Leaf => Black | Node _ _ c _ => c end.

Fixpoint inorder (t : tr) : list Z :=
  match t with Leaf => [] | Node l p _ r => inorder l ++ p :: inorder r end.

(** The hole is child [d] of [q]; [sib] is the other child. *)
Inductive frame := Fr (d : bool) (q : Z) (c : col) (sib : tr).

Fixpoint plug (k : list frame) (t : tr) : tr :=
  match k with [] => t | Fr d q c sib :: k => plug k (nd d t q c sib) end.

(** The nodes before and behind the hole. *)
Fixpoint cl (k : list frame) : list Z :=
  match k with
  | [] => []
  | Fr d q _ sib :: k => if d then cl k ++ inorder sib ++ [q] else cl k
  end.
Fixpoint cr (k : list frame) : list Z :=
  match k with
  | [] => []
  | Fr d q _ sib :: k => if d then cr k else q :: inorder sib ++ cr k
  end.

Definition cptr (k : list frame) : Z := match k with [] => 0 | Fr _ q _ _ :: _ => q end.
Fixpoint croot (hole : Z) (k : list frame) : Z :=
  match k with [] => hole | Fr _ q _ _ :: k => croot q k end.

Lemma ptr_nd d t1 p c t2 : ptr (nd d t1 p c t2) = p.
Proof. by destruct d. Qed.

Lemma root_col_nd d t1 p c t2 : root_col (nd d t1 p c t2) = c.
Proof. by destruct d. Qed.

Lemma inorder_plug k t : inorder (plug k t) = cl k ++ inorder t ++ cr k.
Proof.
  revert t. induction k as [|[[] q c sib] k IH]; intros t; simpl; [by rewrite app_nil_r| |];
    rewrite IH; simpl; by rewrite <- !(assoc_L app).
Qed.

Lemma plug_app k1 k2 t : plug (k1 ++ k2) t = plug k2 (plug k1 t).
Proof. revert t. induction k1 as [|[] k1 IH]; intros t; simpl; auto. Qed.

Lemma croot_ptr k t : ptr (plug k t) = croot (ptr t) k.
Proof. revert t. induction k as [|[] k IH]; intros t; simpl; [done|]. by rewrite IH, ptr_nd. Qed.

(** Rotating does not change the order. *)
Lemma inorder_rotate d a n cn b p cp y cn' cp' :
  inorder (nd d (nd d a n cn b) p cp y) = inorder (nd d a n cn' (nd d b p cp' y)).
Proof. destruct d; simpl; by rewrite <- !(assoc_L app). Qed.

Lemma inorder_recolor d a n c b c' : inorder (nd d a n c b) = inorder (nd d a n c' b).
Proof. by destruct d. Qed.

(** Every node of a tree is at the hole of some context. *)
Lemma focus t p : p ∈ inorder t -> exists k l c r, t = plug k (Node l p c r).
Proof.
  induction t as [|l IHl q c r IHr]; simpl; [set_solver|]. rewrite elem_of_app, elem_of_cons.
  intros [Hl|[->|Hr]].
  - destruct (IHl Hl) as (k & l' & c' & r' & ->). exists (k ++ [Fr false q c r]), l', c', r'. by rewrite plug_app.
  - by exists [], l, c, r.
  - destruct (IHr Hr) as (k & l' & c' & r' & ->). exists (k ++ [Fr true q c l]), l', c', r'. by rewrite plug_app.
Qed.

(** The last node in order is reached over right children. *)
Lemma focus_last t : t <> Leaf -> exists k l p c, t = plug k (Node l p c Leaf) /\ cr k = [] /\
  last (inorder t) = Some p.
Proof.
  induction t as [|l _ q c r IHr]; [done|]. intros _. destruct r as [|rl rp rc rr].
  - exists [], l, q, c. split_and!; [done|done|]. simpl. by rewrite last_snoc.
  - destruct IHr as (k & l' & p & c' & E & Hc & Hl); [done|]. exists (k ++ [Fr true q c l]), l', p, c'. split_and!.
    + by rewrite plug_app, <- E.
    + clear -Hc. induction k as [|[[] a b s] k IH]; simpl in *; [done|auto|done].
    + cbn [inorder]. rewrite last_app_cons, last_cons. cbn [inorder] in Hl. by rewrite Hl.
Qed.

(** ** Balance *)

Fixpoint bal (t : tr) (n : nat) : Prop :=
  match t with
  | Leaf => n = 0%nat
  | Node l _ Black r => exists m, n = S m /\ bal l m /\ bal r m
  | Node l _ Red r => bal l n /\ bal r n /\ root_col l = Black /\ root_col r = Black
  end.

(** The hole's parent is black (and there is one). *)
Definition cblack (k : list frame) : Prop := match k with Fr _ _ Black _ :: _ => True | _ => False end.

(** The context of a tree of black height [n]. *)
Fixpoint cbal (k : list frame) (n : nat) : Prop :=
  match k with
  | [] => True
  | Fr _ _ Black sib :: k => bal sib n /\ cbal k (S n)
  | Fr _ _ Red sib :: k => bal sib n /\ root_col sib = Black /\ cblack k /\ cbal k n
  end.

Definition rb (t : tr) : Prop := root_col t = Black /\ exists n, bal t n.

Lemma bal_nd d t1 p c t2 n : bal (nd d t1 p c t2) n <->
  match c with
  | Black => exists m, n = S m /\ bal t1 m /\ bal t2 m
  | Red => bal t1 n /\ bal t2 n /\ root_col t1 = Black /\ root_col t2 = Black
  end.
Proof. destruct d, c; simpl; naive_solver. Qed.

Lemma plug_rb k t n : cbal k n -> bal t n -> (root_col t = Black \/ cblack k) -> rb (plug k t).
Proof.
  revert t n. induction k as [|[d q [] sib] k IH]; intros t n Hk Ht Hc; simpl in *.
  - split; [destruct Hc; done|eauto].
  - destruct Hk as [Hs Hk]. apply (IH _ (S n)); [done| |left; by rewrite root_col_nd]. apply bal_nd. eauto.
  - destruct Hk as (Hs & Hsc & Hb & Hk). apply (IH _ n); [done| |by right]. apply bal_nd.
    destruct Hc as [Hc|[]]. done.
Qed.

(** The other way round: what is known of a position in a balanced tree. *)
Lemma unplug_rb k t : rb (plug k t) -> exists n, cbal k n /\ bal t n /\ (root_col t = Black \/ cblack k).
Proof.
  revert t. induction k as [|[d q c sib] k IH]; intros t Hr; simpl in *.
  - destruct Hr as [? [n ?]]. exists n. eauto.
  - destruct (IH _ Hr) as (n & Hk & Hb & Hc). rewrite root_col_nd in Hc. apply bal_nd in Hb. destruct c.
    + destruct Hb as (m & -> & ? & ?). exists m. split_and!; try done. by right.
    + destruct Hb as (? & ? & ? & ?). destruct Hc as [?|?]; [done|]. exists n. split_and!; try done. by left.
Qed.

(** Renaming a node. *)
Lemma rb_rename k l p q c r : rb (plug k (Node l p c r)) -> rb (plug k (Node l q c r)).
Proof.
  intros H. destruct (unplug_rb _ _ H) as (n & Hk & Hb & Hc). by apply (plug_rb _ _ n).
Qed.

(** ** Height *)

Fixpoint height (t : tr) : nat := match t with Leaf => 0 | Node l _ _ r => S (Nat.max (height l) (height r)) end.

Lemma height_bal t : forall n, bal t n -> (height t <= 2 * n + match root_col t with Red => 1 | Black => 0 end)%nat.
Proof.
  induction t as [|l IHl p c r IHr]; intros n; simpl; [lia|]. destruct c.
  - intros (m & -> & Hl & Hr). specialize (IHl _ Hl). specialize (IHr _ Hr).
    destruct (root_col l), (root_col r); lia.
  - intros (Hl & Hr & Hcl & Hcr). specialize (IHl _ Hl). specialize (IHr _ Hr). rewrite Hcl, Hcr in *. lia.
Qed.

Lemma bal_size t : forall n, bal t n -> (2 ^ n <= S (length (inorder t)))%nat.
Proof.
  induction t as [|l IHl p c r IHr]; intros n; simpl; [intros ->; simpl; lia|]. rewrite length_app. simpl.
  destruct c.
  - intros (m & -> & Hl & Hr). specialize (IHl _ Hl). specialize (IHr _ Hr). simpl. lia.
  - intros (Hl & Hr & _). specialize (IHl _ Hl). lia.
Qed.

Lemma height_log t : rb t -> (height t <= 2 * Nat.log2 (S (length (inorder t))))%nat.
Proof.
  intros [Hc [n Hn]]. pose proof (height_bal t n Hn) as Hh. rewrite Hc in Hh.
  pose proof (bal_size t n Hn) as Hs. apply Nat.log2_le_mono in Hs. rewrite Nat.log2_pow2 in Hs by lia. lia.
Qed.

Lemma height_length t : (height t <= length (inorder t))%nat.
Proof. induction t; simpl; [lia|]. rewrite length_app. simpl. lia. Qed.

End RbTreeFun.
