(* ===== verification/RbTreeHeap.v ===== *)
(** * The heap of a red-black tree

    [R s t k]: in the state [s] the tree [t] hangs at the hole of the context [k].
    A position can be moved up and down ([R_up], [R_down]); reading and recolouring
    a node, rotating, unlinking, attaching and replacing are lemmas on [R], so
    that the loops of RbTree.v are verified on trees and contexts.  [keeps] says
    that nothing else changes: no node outside the tree, and not the order links.
    [seg] is the doubly linked list of the order links. *)

From S2P Require Import Prelude RbTree RbTreeFun.

Module RbTreeHeap.
Import RbTree RbTreeFun.

Notation heap := (gmap Z RbTreeHook).

(** The hook with child [d] equal to [x] and the other one [y]. *)
Definition hk (par : Z) (d : bool) (x y pr su c : Z) : RbTreeHook :=
  mkHook par (if d then y else x) (if d then x else y) pr su c.

Definition node_at (m : heap) (p par : Z) (d : bool) (x y : Z) (c : col) : Prop :=
  p <> 0 /\ exists pr su, m !! p = Some (hk par d x y pr su (colz c)).

Fixpoint repr (m : heap) (par : Z) (t : tr) : Prop :=
  match t with
  | Leaf => True
  | Node l p c r => node_at m p par false (ptr l) (ptr r) c /\ repr m p l /\ repr m p r
  end.

Fixpoint crepr (m : heap) (hole : Z) (k : list frame) : Prop :=
  match k with
  | [] => True
  | Fr d q c sib :: k => node_at m q (cptr k) d hole (ptr sib) c /\ repr m q sib /\ crepr m q k
  end.

Definition R (s : tree) (t : tr) (k : list frame) : Prop :=
  repr (mem s) (cptr k) t /\ crepr (mem s) (ptr t) k /\ root s = croot (ptr t) k /\ NoDup (inorder (plug k t)).

(** ** What an operation leaves alone *)

Definition lnk (h : RbTreeHook) : Z * Z := (predecessor h, successor h).
Definition keeps (L : list Z) (m m' : heap) : Prop :=
  forall x, (x ∉ L -> m' !! x = m !! x) /\ lnk <$> m' !! x = lnk <$> m !! x.

Lemma keeps_refl L m : keeps L m m.
Proof. by split. Qed.

Lemma keeps_trans L m1 m2 m3 : keeps L m1 m2 -> keeps L m2 m3 -> keeps L m1 m3.
Proof. intros H1 H2 x. destruct (H1 x) as [A B], (H2 x) as [C D]. split; [intros; by rewrite C, A|congruence]. Qed.

Lemma keeps_sub L L' m m' : L ⊆ L' -> keeps L m m' -> keeps L' m m'.
Proof. intros HL H x. destruct (H x) as [A B]. split; [|done]. intros Hx. apply A. intros ?. apply Hx. by apply HL. Qed.

Lemma keeps_insert L (m : heap) p h h' : m !! p = Some h -> lnk h' = lnk h -> p ∈ L -> keeps L m (<[p := h']> m).
Proof.
  intros Hp Hl HL x. destruct (decide (x = p)) as [->|N].
  - split; [done|]. rewrite lookup_insert_eq, Hp. simpl. congruence.
  - by rewrite lookup_insert_ne.
Qed.

(** ** Nodes of a tree and of a context *)

Definition cnodes (k : list frame) : list Z := cl k ++ cr k.

Lemma plug_nodes k t : inorder (plug k t) ≡ₚ inorder t ++ cnodes k.
Proof. rewrite inorder_plug. unfold cnodes. solve_Permutation. Qed.

Lemma nd_nodes d t1 p c t2 : inorder (nd d t1 p c t2) ≡ₚ p :: inorder t1 ++ inorder t2.
Proof. destruct d; simpl; solve_Permutation. Qed.

Lemma cnodes_cons d q c sib k : cnodes (Fr d q c sib :: k) ≡ₚ q :: inorder sib ++ cnodes k.
Proof. unfold cnodes. destruct d; simpl; solve_Permutation. Qed.

Lemma ptr_in t : t <> Leaf -> ptr t ∈ inorder t.
Proof. destruct t; [done|]. intros _. simpl. apply elem_of_app. right. left. Qed.

Lemma node_at_flip m p par d x y c : node_at m p par d x y c <-> node_at m p par (negb d) y x c.
Proof. unfold node_at, hk. by destruct d. Qed.

Lemma repr_nd m par d t1 p c t2 : repr m par (nd d t1 p c t2) <->
  node_at m p par d (ptr t1) (ptr t2) c /\ repr m p t1 /\ repr m p t2.
Proof. destruct d; simpl; [rewrite node_at_flip; simpl|]; naive_solver. Qed.

Lemma repr_in m par t x : repr m par t -> x ∈ inorder t -> x <> 0 /\ is_Some (m !! x).
Proof.
  revert par. induction t as [|l IHl p c r IHr]; intros par; simpl; [set_solver|].
  intros ([Hp (? & ? & Hm)] & Hl & Hr). rewrite elem_of_app, elem_of_cons. intros [?|[->|?]]; eauto.
Qed.

Lemma repr_ptr0 m par t : repr m par t -> ptr t = 0 -> t = Leaf.
Proof. destruct t; [done|]. simpl. by intros [[? _] _]. Qed.

(** ** Frame *)

Lemma node_at_frame m m' p par d x y c : m' !! p = m !! p -> node_at m p par d x y c -> node_at m' p par d x y c.
Proof. unfold node_at. by intros ->. Qed.

Lemma repr_frame m m' par t : (forall x, x ∈ inorder t -> m' !! x = m !! x) -> repr m par t -> repr m' par t.
Proof.
  revert par. induction t as [|l IHl p c r IHr]; intros par E; simpl in *; [done|].
  intros (Hp & Hl & Hr). split_and!.
  - apply (node_at_frame m); [|done]. apply E. apply elem_of_app. right. left.
  - apply IHl; [|done]. intros. apply E. apply elem_of_app. by left.
  - apply IHr; [|done]. intros. apply E. apply elem_of_app. right. by right.
Qed.

Lemma crepr_frame m m' hole k : (forall x, x ∈ cnodes k -> m' !! x = m !! x) -> crepr m hole k -> crepr m' hole k.
Proof.
  revert hole. induction k as [|[d q c sib] k IH]; intros hole E; simpl; [done|]. setoid_rewrite cnodes_cons in E.
  intros (Hq & Hs & Hk). split_and!.
  - apply (node_at_frame m); [|done]. apply E. left.
  - apply (repr_frame m); [|done]. intros. apply E. right. apply elem_of_app. by left.
  - apply IH; [|done]. intros. apply E. right. apply elem_of_app. by right.
Qed.

(** The root of a tree gets a new parent. *)
Lemma repr_reparent m m' par par' t :
  (forall x, x ∈ inorder t -> x <> ptr t -> m' !! x = m !! x) ->
  (t <> Leaf -> m' !! ptr t = with_parent par' <$> m !! ptr t) ->
  NoDup (inorder t) -> repr m par t -> repr m' par' t.
Proof.
  destruct t as [|l p c r]; intros E Ep ND; [done|]. simpl in *. apply NoDup_app in ND as (_ & Hd & HN).
  apply NoDup_cons in HN as [Hp _]. intros ([Hp0 (pr & su & Hm)] & Hl & Hr). split_and!.
  - split; [done|]. exists pr, su. rewrite Ep by done. rewrite Hm. done.
  - apply (repr_frame m); [|done]. intros x Hx. apply E; [apply elem_of_app; by left|]. intros ->. apply (Hd p Hx). left.
  - apply (repr_frame m); [|done]. intros x Hx. apply E; [apply elem_of_app; right; by right|]. intros ->. done.
Qed.

(** ** Moving *)

Lemma R_up s d t q c sib k : R s t (Fr d q c sib :: k) <-> R s (nd d t q c sib) k.
Proof. unfold R. simpl. rewrite repr_nd, ptr_nd. naive_solver. Qed.

(** The sibling's side: the same position seen from the other child. *)
Lemma nd_flip d t1 p c t2 : nd d t1 p c t2 = nd (negb d) t2 p c t1.
Proof. by destruct d. Qed.

Lemma R_sib s d t q c sib k : R s t (Fr d q c sib :: k) <-> R s sib (Fr (negb d) q c t :: k).
Proof. by rewrite !R_up, nd_flip. Qed.

Lemma R_plug s t k : R s t k <-> R s (plug k t) [].
Proof. revert t. induction k as [|[d q c sib] k IH]; intros t; simpl; [done|]. by rewrite R_up, IH. Qed.

Lemma R_dom s t k x : R s t k -> x ∈ inorder (plug k t) -> x <> 0 /\ is_Some (mem s !! x).
Proof. rewrite R_plug. intros (H & _) Hx. by eapply repr_in. Qed.

Lemma R_size s t k : R s t k -> (length (inorder (plug k t)) <= size (mem s))%nat.
Proof.
  intros HR. assert (ND : NoDup (inorder (plug k t))) by apply HR.
  rewrite <- size_dom, <- (size_list_to_set (C:=gset Z)) by done. apply subseteq_size.
  intros x Hx. apply elem_of_list_to_set in Hx. apply elem_of_dom. by apply (R_dom s t k).
Qed.

Lemma length_context s t k : R s t k -> t <> Leaf -> (length k < fuel_of s)%nat.
Proof.
  intros HR Ht. pose proof (R_size s t k HR) as HS. rewrite plug_nodes, length_app in HS. unfold fuel_of.
  assert (length k <= length (cnodes k))%nat; [|lia]. clear. induction k as [|[d q c sib] k IH]; [simpl; lia|].
  rewrite cnodes_cons. simpl. rewrite length_app. lia.
Qed.

(** ** Reading *)

Lemma hook_ok s p h : p <> 0 -> mem s !! p = Some h -> hook p s = Some h.
Proof. intros H0 H. unfold hook. by rewrite (proj2 (Z.eqb_neq p 0) H0). Qed.

Lemma set_ok s p f h : hook p s = Some h -> set p f s = Some (mkTree (root s) (<[p := f h]> (mem s))).
Proof. intros H. unfold set. by rewrite H. Qed.

Lemma read_ok s d t1 p c t2 k : R s (nd d t1 p c t2) k ->
  exists h, hook p s = Some h /\ mem s !! p = Some h /\ p <> 0 /\ parent h = cptr k /\ child h d = ptr t1 /\
    child h (negb d) = ptr t2 /\ color h = colz c.
Proof.
  intros (Hr & _). apply repr_nd in Hr as ([H0 (pr & su & Hm)] & _). eexists. split; [by apply hook_ok|].
  split_and!; try done; by destruct d.
Qed.

Lemma ptr_leaf s t k : R s t k -> (ptr t =? 0) = bool_decide (t = Leaf).
Proof.
  intros (Hr & _). destruct t as [|l p c r]; [done|].
  rewrite bool_decide_eq_false_2 by done. apply Z.eqb_neq. by destruct Hr as [[? _] _].
Qed.

Lemma colz_eqb c c' : (colz c =? colz c') = bool_decide (c = c').
Proof. by destruct c, c'. Qed.

Lemma is_red_ok s t k : R s t k -> is_red (ptr t) s = Some (bool_decide (root_col t = Red)).
Proof.
  intros HR. unfold is_red. rewrite (ptr_leaf _ _ _ HR). destruct t as [|l p c r]; [done|].
  rewrite bool_decide_eq_false_2 by done. cbn [ptr root_col]. destruct (read_ok s false l p c r k HR) as (h & -> & _ & _ & _ & _ & _ & Hc).
  cbn [mbind option_bind]. rewrite Hc. change 1 with (colz Red). by rewrite colz_eqb.
Qed.

Lemma is_black_ok s t k : R s t k -> is_black (ptr t) s = Some (bool_decide (root_col t = Black)).
Proof.
  intros HR. unfold is_black. rewrite (ptr_leaf _ _ _ HR). destruct t as [|l p c r]; [done|].
  rewrite bool_decide_eq_false_2 by done. cbn [ptr root_col]. destruct (read_ok s false l p c r k HR) as (h & -> & _ & _ & _ & _ & _ & Hc).
  cbn [mbind option_bind]. rewrite Hc. change 0 with (colz Black). by rewrite colz_eqb.
Qed.

(** ** Writing *)

Lemma R_nodup s t k : R s t k -> NoDup (inorder t ++ cnodes k).
Proof. intros (_ & _ & _ & H). by rewrite plug_nodes in H. Qed.

Lemma R_root_nodup s d t1 p c t2 k : R s (nd d t1 p c t2) k -> NoDup (p :: inorder t1 ++ inorder t2 ++ cnodes k).
Proof. intros H%R_nodup. rewrite nd_nodes in H. simpl in H. by rewrite <- (assoc_L app) in H. Qed.

(** The colour or the links of the hole's root change. *)
Lemma R_local s d t1 p c t2 k h h' c' : R s (nd d t1 p c t2) k -> mem s !! p = Some h ->
  parent h' = parent h -> child0 h' = child0 h -> child1 h' = child1 h -> color h' = colz c' ->
  R (mkTree (root s) (<[p := h']> (mem s))) (nd d t1 p c' t2) k.
Proof.
  intros HR Hm E1 E2 E3 E4. pose proof (R_root_nodup _ _ _ _ _ _ _ HR) as ND.
  apply NoDup_cons in ND as [Hp _]. rewrite !elem_of_app in Hp. destruct HR as (Hr & Hk & Hroot & ND).
  apply repr_nd in Hr as ([H0 (pr & su & Hm')] & Hr1 & Hr2). rewrite ptr_nd in *. split_and!; simpl.
  - apply repr_nd. split_and!.
    + split; [done|]. exists (predecessor h'), (successor h'). rewrite lookup_insert_eq. f_equal.
      rewrite Hm in Hm'. injection Hm' as ->. destruct h'. simpl in *. unfold hk in *. simpl in *. congruence.
    + apply (repr_frame (mem s)); [|done]. intros x Hx. apply lookup_insert_ne. intros ->. tauto.
    + apply (repr_frame (mem s)); [|done]. intros x Hx. apply lookup_insert_ne. intros ->. tauto.
  - rewrite ptr_nd. apply (crepr_frame (mem s)); [|done]. intros x Hx. apply lookup_insert_ne. intros ->. tauto.
  - by rewrite ptr_nd.
  - rewrite plug_nodes in ND |- *. by rewrite (inorder_recolor _ _ _ c' _ c).
Qed.

Lemma in_hole d t1 p c t2 k : p ∈ inorder (plug k (nd d t1 p c t2)).
Proof. rewrite plug_nodes, nd_nodes. left. Qed.

Lemma set_color_ok s d t1 p c t2 k c' : R s (nd d t1 p c t2) k ->
  exists s', set p (with_color (colz c')) s = Some s' /\ R s' (nd d t1 p c' t2) k /\
    keeps (inorder (plug k (nd d t1 p c t2))) (mem s) (mem s').
Proof.
  intros HR. destruct (read_ok _ _ _ _ _ _ _ HR) as (h & Hh & Hm & _). eexists. split; [by apply set_ok|]. split.
  - by eapply R_local.
  - eapply keeps_insert; [done|done|]. apply in_hole.
Qed.

(** A tree gets a new parent. *)
Lemma set_if_parent s par x t : repr (mem s) par t -> NoDup (inorder t) ->
  exists s', set_if (ptr t) (with_parent x) s = Some s' /\ root s' = root s /\ repr (mem s') x t /\
    keeps (inorder t) (mem s) (mem s').
Proof.
  intros Hr ND. unfold set_if. destruct t as [|l p c r].
  - exists s. split_and!; (done || apply keeps_refl).
  - cbn [ptr]. assert (HN : exists h, p <> 0 /\ mem s !! p = Some h) by (destruct Hr as [[? (? & ? & ?)] _]; eauto).
    destruct HN as (h & H0 & Hm). rewrite (proj2 (Z.eqb_neq p 0) H0). eexists.
    split; [by apply set_ok, hook_ok|]. split_and!; [done| |].
    + apply (repr_reparent (mem s) _ par); [| |done|done]; cbn [ptr mem].
      * intros y _ Hy. by apply lookup_insert_ne.
      * intros _. by rewrite lookup_insert_eq, Hm.
    + eapply keeps_insert; [done|done|]. apply elem_of_app. right. left.
Qed.

(** The pointer to the hole is redirected. *)
Lemma replace_child_ok s old new k : crepr (mem s) old k -> root s = croot old k -> old ∉ cnodes k -> old <> 0 ->
  NoDup (cnodes k) ->
  exists s', replace_child (cptr k) old new s = Some s' /\ crepr (mem s') new k /\ root s' = croot new k /\
    keeps (cnodes k) (mem s) (mem s').
Proof.
  intros Hk Hroot Hold H0 ND. unfold replace_child. destruct k as [|[d q c sib] k]; cbn [cptr].
  - exists (set_root new s). split_and!; (done || apply keeps_refl).
  - destruct Hk as ([Hq (pr & su & Hm)] & Hs & Hk). rewrite cnodes_cons in Hold, ND. rewrite elem_of_cons, elem_of_app in Hold.
    apply NoDup_cons in ND as [Hqn ND]. rewrite elem_of_app in Hqn.
    rewrite (proj2 (Z.eqb_neq q 0) Hq), (hook_ok s q _ Hq Hm). cbn [mbind option_bind].
    assert (Hso : ptr sib <> old).
    { intros E. destruct (decide (sib = Leaf)) as [->|N]; [by rewrite <- E in H0|]. apply Hold. right. left. rewrite <- E. by apply ptr_in. }
    exists (mkTree (root s) (<[q := hk (cptr k) d new (ptr sib) pr su (colz c)]> (mem s))). split_and!.
    + destruct d; simpl.
      * rewrite (proj2 (Z.eqb_neq _ _) Hso), Z.eqb_refl. simpl. by rewrite (set_ok _ _ _ _ (hook_ok s q _ Hq Hm)).
      * rewrite Z.eqb_refl. by rewrite (set_ok _ _ _ _ (hook_ok s q _ Hq Hm)).
    + simpl. split_and!.
      * split; [done|]. exists pr, su. by rewrite lookup_insert_eq.
      * apply (repr_frame (mem s)); [|done]. intros x Hx. apply lookup_insert_ne. intros ->. tauto.
      * apply (crepr_frame (mem s)); [|done]. intros x Hx. apply lookup_insert_ne. intros ->. tauto.
    + done.
    + eapply keeps_insert; [done|done|]. rewrite cnodes_cons. left.
Qed.

Lemma keeps_out L m m' x : keeps L m m' -> x ∉ L -> m' !! x = m !! x.
Proof. intros H. apply H. Qed.

Lemma repr_keeps L m m' par t : keeps L m m' -> (forall x, x ∈ inorder t -> x ∉ L) -> repr m par t -> repr m' par t.
Proof. intros H HL. apply repr_frame. intros x Hx. apply (keeps_out _ _ _ _ H). auto. Qed.

Lemma crepr_keeps L m m' hole k : keeps L m m' -> (forall x, x ∈ cnodes k -> x ∉ L) -> crepr m hole k -> crepr m' hole k.
Proof. intros H HL. apply crepr_frame. intros x Hx. apply (keeps_out _ _ _ _ H). auto. Qed.

Lemma node_keeps L m m' p par d x y c : keeps L m m' -> p ∉ L -> node_at m p par d x y c -> node_at m' p par d x y c.
Proof. intros H HL. apply node_at_frame. by apply (keeps_out _ _ _ _ H). Qed.

(** The two writes to [par] and the two writes to [node] of [rotate]. *)
Lemma rotate_writes s (d : bool) n p g a b y pn sn cn pp sp cp (f : tree -> option tree) : n <> p -> n <> 0 -> p <> 0 ->
  mem s !! n = Some (hk p d a b pn sn cn) -> mem s !! p = Some (hk g d n y pp sp cp) ->
  (s ← set p (with_child d b) s; s ← set p (with_parent n) s;
   s ← set n (with_child (negb d) p) s; s ← set n (with_parent g) s; f s) =
  f (mkTree (root s) (<[n := hk g d a p pn sn cn]> (<[p := hk n d b y pp sp cp]> (mem s)))).
Proof.
  intros Hnp Hn Hp Hmn Hmp. unfold set, hook. rewrite (proj2 (Z.eqb_neq _ _) Hn), (proj2 (Z.eqb_neq _ _) Hp).
  simplify_map_eq. cbn. simplify_map_eq. cbn. simplify_map_eq. cbn. simplify_map_eq. do 2 f_equal.
  rewrite !insert_insert_eq. by destruct d.
Qed.

Lemma rotate_ok s d a n cn b p cp y k : R s (nd d (nd d a n cn b) p cp y) k ->
  exists s', rotate n (negb d) s = Some s' /\ R s' (nd d a n cn (nd d b p cp y)) k /\
    keeps (inorder (plug k (nd d (nd d a n cn b) p cp y))) (mem s) (mem s').
Proof.
  intros HR. pose proof (R_root_nodup _ _ _ _ _ _ _ HR) as ND. rewrite nd_nodes in ND.
  destruct HR as (Hr & Hk & Hroot & ND0). apply repr_nd in Hr as (Hp & Hr & Hy). apply repr_nd in Hr as (Hn & Ha & Hb).
  rewrite ptr_nd in *. simpl in ND. rewrite <- !(assoc_L app) in ND.
  apply NoDup_cons in ND as [Hpn ND]. apply NoDup_cons in ND as [Hnn ND].
  rewrite elem_of_cons, !elem_of_app in Hpn. rewrite !elem_of_app in Hnn.
  apply NoDup_app in ND as (NDa & Dab & ND). apply NoDup_app in ND as (NDb & Dby & ND).
  apply NoDup_app in ND as (NDy & Dyk & NDk).
  setoid_rewrite elem_of_app in Dab. setoid_rewrite elem_of_app in Dab. setoid_rewrite elem_of_app in Dby.
  destruct (set_if_parent s n p b Hb NDb) as (s1 & E1 & Hroot1 & Hb1 & K1).
  assert (Hp1 : node_at (mem s1) p (cptr k) d n (ptr y) cp) by (eapply node_keeps; [done| |done]; tauto).
  assert (Hn1 : node_at (mem s1) n p d (ptr a) (ptr b) cn) by (eapply node_keeps; [done| |done]; tauto).
  assert (Hk1 : crepr (mem s1) p k) by (eapply crepr_keeps; [done| |done]; naive_solver).
  assert (Ha1 : repr (mem s1) n a) by (eapply repr_keeps; [done| |done]; naive_solver).
  assert (Hy1 : repr (mem s1) p y) by (eapply repr_keeps; [done| |done]; naive_solver).
  destruct Hp as [Hp0 (pp & sp & Hp)], Hn as [Hn0 (pn & sn & Hn)].
  destruct Hp1 as [_ (pp1 & sp1 & Hp1)], Hn1 as [_ (pn1 & sn1 & Hn1)].
  unfold rotate. rewrite (hook_ok s n _ Hn0 Hn). cbn [mbind option_bind parent hk]. rewrite (hook_ok s p _ Hp0 Hp).
  cbn [mbind option_bind]. rewrite negb_involutive.
  replace (child (hk (cptr k) d n (ptr y) pp sp (colz cp)) d) with n by (by destruct d).
  replace (child (hk p d (ptr a) (ptr b) pn sn (colz cn)) (negb d)) with (ptr b) by (by destruct d).
  rewrite Z.eqb_refl. cbn [assert mbind option_bind]. cbn [parent hk]. rewrite E1. cbn [mbind option_bind].
  assert (Hne : n <> p) by naive_solver.
  pose proof (rotate_writes s1 d n p (cptr k) (ptr a) (ptr b) (ptr y) _ _ _ _ _ _
    (replace_child (cptr k) p n) Hne Hn0 Hp0 Hn1 Hp1) as EW.
  set (m2 := <[n := _]> _) in EW.
  assert (K2 : keeps [p; n] (mem s1) m2).
  { eapply keeps_trans; [apply (keeps_insert _ _ p _ (hk n d (ptr b) (ptr y) pp1 sp1 (colz cp)) Hp1); [done|left]|].
    eapply keeps_insert; [by rewrite lookup_insert_ne by done|done|right; left]. }
  destruct (replace_child_ok (mkTree (root s1) m2) p n k) as (s3 & E3 & Hk3 & Hroot3 & K3).
  { simpl. eapply crepr_keeps; [done| |done]. intros x Hx. rewrite !elem_of_cons. intros [->|[->|H]]; [tauto|tauto|set_solver]. }
  { simpl. congruence. }
  { tauto. }
  { done. }
  { done. }
  assert (Hp3 : node_at (mem s3) p n d (ptr b) (ptr y) cp).
  { eapply node_keeps; [exact K3|tauto|]. split; [done|]. exists pp1, sp1. simpl. unfold m2. by rewrite lookup_insert_ne, lookup_insert_eq. }
  assert (Hn3 : node_at (mem s3) n (cptr k) d (ptr a) p cn).
  { eapply node_keeps; [exact K3|tauto|]. split; [done|]. exists pn1, sn1. simpl. unfold m2. by rewrite lookup_insert_eq. }
  assert (HT : forall t par, (forall x, x ∈ inorder t -> x <> p /\ x <> n /\ x ∉ cnodes k) ->
    repr (mem s1) par t -> repr (mem s3) par t).
  { intros t par Hx Ht. eapply repr_keeps; [exact K3|naive_solver|]. eapply repr_keeps; [exact K2| |exact Ht].
    intros x Hi. rewrite !elem_of_cons, elem_of_nil. naive_solver. }
  exists s3. split_and!.
  - by rewrite EW.
  - split_and!.
    + apply repr_nd. rewrite ptr_nd. split_and!; [done| |].
      * apply HT; [|done]. intros x Hx. split_and!; intros E; subst; naive_solver.
      * apply repr_nd. split_and!; [done| |]; apply HT; try done; intros x Hx; split_and!; intros E; subst; naive_solver.
    + by rewrite ptr_nd.
    + by rewrite ptr_nd.
    + rewrite inorder_plug in ND0 |- *. by rewrite (inorder_rotate d a n cn b p cp y cn cp) in ND0.
  - eapply keeps_trans; [|eapply keeps_trans].
    + eapply keeps_sub; [|exact K1]. intros x Hx. rewrite plug_nodes, nd_nodes, nd_nodes. set_solver.
    + eapply keeps_sub; [|exact K2]. intros x Hx. rewrite plug_nodes, nd_nodes, nd_nodes. set_solver.
    + eapply keeps_sub; [|exact K3]. intros x Hx. rewrite plug_nodes, nd_nodes, nd_nodes. set_solver.
Qed.

(** ** Rebalancing steps

    [At L m0 s t k]: the position [t], [k] in [s], which arose from the memory [m0]
    by steps that keep the order [L] and nothing but the shape of the tree. *)
Definition At (L : list Z) (m0 : heap) (s : tree) (t : tr) (k : list frame) : Prop :=
  R s t k /\ inorder (plug k t) = L /\ keeps L m0 (mem s).

Section At.
Context (L : list Z) (m0 : heap).

Lemma At_start s t k : R s t k -> inorder (plug k t) = L -> mem s = m0 -> At L m0 s t k.
Proof. intros HR HL E. split_and!; [done|done|]. rewrite E. apply keeps_refl. Qed.

Lemma At_up s d t q c sib k : At L m0 s t (Fr d q c sib :: k) <-> At L m0 s (nd d t q c sib) k.
Proof. unfold At. by rewrite R_up. Qed.

Lemma At_plug s t k : At L m0 s t k <-> At L m0 s (plug k t) [].
Proof. unfold At. by rewrite R_plug. Qed.

Lemma At_sib s d t q c sib k : At L m0 s t (Fr d q c sib :: k) <-> At L m0 s sib (Fr (negb d) q c t :: k).
Proof. by rewrite !At_up, nd_flip. Qed.

Lemma At_color s d t1 p c t2 k c' : At L m0 s (nd d t1 p c t2) k ->
  exists s', set p (with_color (colz c')) s = Some s' /\ At L m0 s' (nd d t1 p c' t2) k.
Proof.
  intros (HR & HL & HK). destruct (set_color_ok s d t1 p c t2 k c' HR) as (s' & E & HR' & K).
  exists s'. split_and!; [done|]. split_and!; [done| |by rewrite HL in K; eapply keeps_trans].
  rewrite <- HL, !inorder_plug. by rewrite (inorder_recolor _ _ _ c' _ c).
Qed.

Lemma At_black s d t1 p c t2 k : At L m0 s (nd d t1 p c t2) k ->
  exists s', set p (with_color 0) s = Some s' /\ At L m0 s' (nd d t1 p Black t2) k.
Proof. apply (At_color s d t1 p c t2 k Black). Qed.

Lemma At_red s d t1 p c t2 k : At L m0 s (nd d t1 p c t2) k ->
  exists s', set p (with_color 1) s = Some s' /\ At L m0 s' (nd d t1 p Red t2) k.
Proof. apply (At_color s d t1 p c t2 k Red). Qed.

Lemma At_rotate s d a n cn b p cp y k : At L m0 s (nd d (nd d a n cn b) p cp y) k ->
  exists s', rotate n (negb d) s = Some s' /\ At L m0 s' (nd d a n cn (nd d b p cp y)) k.
Proof.
  intros (HR & HL & HK). destruct (rotate_ok s d a n cn b p cp y k HR) as (s' & E & HR' & K).
  exists s'. split_and!; [done|]. split_and!; [done| |by rewrite HL in K; eapply keeps_trans].
  rewrite <- HL, !inorder_plug. by rewrite (inorder_rotate _ _ _ cn _ _ cp _ cn cp).
Qed.

Lemma At_read s d t1 p c t2 k : At L m0 s (nd d t1 p c t2) k ->
  exists h, hook p s = Some h /\ p <> 0 /\ parent h = cptr k /\ child h d = ptr t1 /\
    child h (negb d) = ptr t2 /\ color h = colz c.
Proof. intros (HR & _). destruct (read_ok _ _ _ _ _ _ _ HR) as (h & ? & _ & ?). eauto. Qed.

(** Two children are different nodes. *)
Lemma At_siblings s d t1 p c t2 k : At L m0 s (nd d t1 p c t2) k -> t1 <> Leaf -> ptr t2 <> ptr t1.
Proof.
  intros (HR & _) Ht E. pose proof (R_root_nodup _ _ _ _ _ _ _ HR) as ND.
  apply NoDup_cons in ND as [_ ND]. apply NoDup_app in ND as (_ & D & _). apply (D (ptr t1) (ptr_in _ Ht)).
  apply elem_of_app. left. rewrite <- E. apply ptr_in. intros ->. destruct HR as (HR & _). apply repr_nd in HR as (_ & H1 & _).
  by apply Ht, (repr_ptr0 _ _ _ H1).
Qed.

End At.

End RbTreeHeap.
