(* ===== verification/RbTreeBalance.v ===== *)
(** * The rebalancing loops of the red-black tree

    [fix_insert] and [fix_remove] on trees and contexts: from a position where only
    the rule between the node and its parent, or only the black height of the node,
    is wrong, they end in a balanced tree with the same order. *)

From S2P Require Import Prelude RbTree RbTreeFun RbTreeHeap.

Module RbTreeBalance.
Import RbTree RbTreeFun RbTreeHeap.

Section Balance.
Context (L : list Z) (m0 : gmap Z RbTreeHook).

(** One round of [fix_insert] under a red parent, for both sides at once. *)
Lemma fix_insert_red fuel n s s1 hn q hp g hg (e : bool) u (ru : bool) :
  hook n s = Some hn -> parent hn = q -> q <> 0 -> set n (with_color 1) s = Some s1 ->
  hook q s1 = Some hp -> color hp = 1 -> parent hp = g -> hook g s1 = Some hg -> color hg = 0 ->
  child hg e = q -> child hg (negb e) = u -> u <> q -> is_red u s1 = Some ru ->
  fix_insert (S fuel) n s =
    if ru then
      s2 ← set g (with_color 1) s1; s3 ← set q (with_color 0) s2; s4 ← set u (with_color 0) s3; fix_insert fuel g s4
    else
      s3 ← (if child hp (negb e) =? n then
              s2 ← rotate n e s1; s3 ← rotate n (negb e) s2; set n (with_color 0) s3
            else s2 ← rotate q (negb e) s1; set q (with_color 0) s2);
      set g (with_color 1) s3.
Proof.
  intros Hn Pn Hq E1 Hp Cp Pp Hg Cg Ce Cne Hu Ru. cbn [fix_insert]. rewrite Hn. cbn [mbind option_bind].
  rewrite Pn, (proj2 (Z.eqb_neq _ _) Hq), E1. cbn [mbind option_bind]. rewrite Hp. cbn [mbind option_bind].
  rewrite Cp. change (1 =? 0) with false. cbn iota. rewrite Pp, Hg. cbn [mbind option_bind]. rewrite Cg.
  change (assert (0 =? 0)) with (Some tt). cbn [mbind option_bind].
  destruct e; cbn [child negb] in *; rewrite Ce, Cne, Z.eqb_refl, (proj2 (Z.eqb_neq _ _) Hu), Ru; cbn [mbind option_bind];
    destruct ru; try reflexivity; destruct (_ =? n); reflexivity.
Qed.

(** A node seen from a given side. *)
Lemma nd_side d b t1 n c t2 : exists x y, nd b t1 n c t2 = nd d x n c y.
Proof. destruct (decide (b = d)) as [->|]; [by eexists _, _|]. exists t2, t1. rewrite nd_flip. by destruct b, d. Qed.

(** The uncle is black: one or two rotations and the tree is balanced. *)
Lemma insert_rotates s t1 t2 b n d q sib e g u k H : 
  At L m0 s (nd b t1 n Red t2) (Fr d q Red sib :: Fr e g Black u :: k) ->
  bal (nd b t1 n Red t2) H -> bal sib H -> bal u H -> root_col sib = Black -> root_col u = Black -> cbal k (S H) ->
  exists s' T, (s3 ← (if (if decide (d = e) then false else true) : bool then
              s2 ← rotate n e s; s3 ← rotate n (negb e) s2; set n (with_color 0) s3
            else s2 ← rotate q (negb e) s; set q (with_color 0) s2);
      set g (with_color 1) s3) = Some s' /\ At L m0 s' T [] /\ rb T.
Proof.
  intros HA Hn Hs Hu Cs Cu Hk. rewrite !At_up in HA. destruct (decide (d = e)) as [->|Hde].
  - destruct (At_rotate _ _ _ _ _ _ _ _ _ _ _ _ HA) as (s2 & -> & HA2). cbn [mbind option_bind].
    destruct (At_black _ _ _ _ _ _ _ _ _ HA2) as (s3 & -> & HA3). cbn [mbind option_bind].
    rewrite nd_flip, <- At_up in HA3.
    destruct (At_red _ _ _ _ _ _ _ _ _ HA3) as (s4 & -> & HA4).
    rewrite At_up, At_plug in HA4. exists s4. eexists. split_and!; [done|exact HA4|].
    apply (plug_rb _ _ (S H)); [done| |left; by rewrite root_col_nd]. apply bal_nd. exists H. split_and!; [done| |done].
    by apply bal_nd.
  - assert (d = negb e) as -> by (by destruct d, e).
    destruct (nd_side (negb e) b t1 n Red t2) as (x & y & E). rewrite E in *. rewrite <- At_up in HA.
    destruct (At_rotate _ _ _ _ _ _ _ _ _ _ _ _ HA) as (s2 & E2 & HA2). rewrite negb_involutive in E2. rewrite E2.
    cbn [mbind option_bind]. rewrite At_up, (nd_flip (negb e)), negb_involutive in HA2.
    destruct (At_rotate _ _ _ _ _ _ _ _ _ _ _ _ HA2) as (s3 & -> & HA3). cbn [mbind option_bind].
    destruct (At_black _ _ _ _ _ _ _ _ _ HA3) as (s4 & -> & HA4). cbn [mbind option_bind].
    rewrite nd_flip, <- At_up in HA4. destruct (At_red _ _ _ _ _ _ _ _ _ HA4) as (s5 & -> & HA5).
    rewrite At_up, At_plug in HA5. exists s5. eexists. split_and!; [done|exact HA5|].
    apply bal_nd in Hn as (? & ? & ? & ?).
    apply (plug_rb _ _ (S H)); [done| |left; by rewrite root_col_nd]. apply bal_nd. exists H. split_and!; [done| |]; by apply bal_nd.
Qed.

Lemma fix_insert_ok fuel : forall s b t1 n c t2 k H, (length k < fuel)%nat -> At L m0 s (nd b t1 n c t2) k ->
  bal (nd b t1 n Red t2) H -> cbal k H ->
  exists s' T, fix_insert fuel n s = Some s' /\ At L m0 s' T [] /\ rb T.
Proof.
  induction fuel as [|fuel IH]; intros s b t1 n c t2 k H Hf HA Hn Hk; [lia|].
  destruct (At_read _ _ _ _ _ _ _ _ _ HA) as (hn & Hh & Hn0 & Pn & _).
  destruct k as [|[d q cq sib] k].
  - cbn [fix_insert]. rewrite Hh. cbn [mbind option_bind]. rewrite Pn. cbn [cptr]. change (0 =? 0) with true. cbn iota.
    destruct (At_black _ _ _ _ _ _ _ _ _ HA) as (s1 & -> & HA1). exists s1. eexists. split_and!; [done|exact HA1|].
    split; [by rewrite root_col_nd|]. exists (S H). apply bal_nd. apply bal_nd in Hn. naive_solver.
  - destruct (At_red _ _ _ _ _ _ _ _ _ HA) as (s1 & E1 & HA1). pose proof HA1 as HQ. rewrite At_up in HQ.
    destruct (At_read _ _ _ _ _ _ _ _ _ HQ) as (hp & Hp & Hq0 & Pp & Cd & Cnd & Cp).
    destruct cq.
    + cbn [fix_insert]. rewrite Hh. cbn [mbind option_bind]. rewrite Pn. cbn [cptr]. rewrite (proj2 (Z.eqb_neq _ _) Hq0), E1.
      cbn [mbind option_bind]. rewrite Hp. cbn [mbind option_bind]. rewrite Cp. change (colz Black =? 0) with true. cbn iota.
      rewrite At_plug in HA1. exists s1. eexists. split_and!; [done|exact HA1|]. apply (plug_rb _ _ H); [done|done|by right].
    + destruct k as [|[e g [] u] k]; [by destruct Hk as (_ & _ & [] & _)| |by destruct Hk as (_ & _ & [] & _)].
      destruct Hk as (Hs & Cs & _ & Hu & Hk). pose proof HQ as HG. rewrite At_up in HG.
      destruct (At_read _ _ _ _ _ _ _ _ _ HG) as (hg & Hg & Hg0 & Pg & Ge & Gne & Cg). rewrite ptr_nd in *.
      pose proof (At_siblings _ _ _ _ _ _ _ _ _ HG) as Hne. rewrite ptr_nd in Hne.
      pose proof HG as HU. rewrite nd_flip, <- At_up in HU.
      rewrite (fix_insert_red fuel n s s1 hn q hp g hg e (ptr u) (bool_decide (root_col u = Red)));
        try done; [|by apply Hne; destruct d|by apply (is_red_ok s1 u _ (proj1 HU))].
      destruct (root_col u) eqn:Eu.
      * rewrite bool_decide_eq_false_2 by done. cbn iota.
        replace (child hp (negb e) =? n) with (if decide (d = e) then false else true); [by eapply insert_rotates|].
        pose proof (At_siblings _ _ _ _ _ _ _ _ _ HQ) as Hns. rewrite ptr_nd in Hns. symmetry.
        destruct (decide (d = e)) as [->|Hde].
        { rewrite Cnd. apply Z.eqb_neq, Hns. by destruct b. }
        { replace (negb e) with d by (by destruct d, e). rewrite Cd. apply Z.eqb_refl. }
      * rewrite bool_decide_eq_true_2 by done. cbn iota. destruct u as [|ul up cu ur]; [done|]. simpl in Eu. subst cu.
        destruct (At_red _ _ _ _ _ _ _ _ _ HG) as (s2 & -> & HA2). cbn [mbind option_bind].
        rewrite <- At_up in HA2. destruct (At_black _ _ _ _ _ _ _ _ _ HA2) as (s3 & -> & HA3). cbn [mbind option_bind ptr].
        rewrite At_sib in HA3. destruct (At_black _ _ s3 false ul up Red ur _ HA3) as (s4 & -> & HA4). cbn [mbind option_bind].
        rewrite At_up in HA4. eapply (IH _ _ _ _ _ _ _ (S H)); [|exact HA4| |done]; [simpl in Hf; lia|].
        destruct Hu as (? & ? & ? & ?). apply bal_nd. rewrite !root_col_nd. split_and!; [|apply bal_nd|done|done]; eauto.
        apply bal_nd. eauto.
Qed.

(** ** Removal

    The tree at the hole counts one black node too many for its new place; the
    loop finds a context that expects one less. *)

(** The second half of a round: the sibling is black. *)
Definition black_sibling (fuel : nat) (par node : Z) (node_is_left : bool) (s : tree) : option tree :=
  hp ← hook par s;
  let sibling := child hp node_is_left in
  hs ← hook sibling s;
  b ← both (is_black (child0 hs) s) (is_black (child1 hs) s);
  if b : bool then
    s ← set sibling (with_color 1) s;
    hp ← hook par s;
    if color hp =? 0 then fix_remove fuel par s else set par (with_color 0) s
  else
    let parent_color := color hp in
    let node_is_left := child0 hp =? node in
    let c := child hs (negb node_is_left) in
    r ← both (is_red c s) (is_black (child hs node_is_left) s);
    '(sibling, s) ←
      (if r : bool then
         s ← rotate c node_is_left s; s ← set sibling (with_color 1) s; s ← set c (with_color 0) s; Some (c, s)
       else Some (sibling, s));
    hs ← hook sibling s;
    red ← is_red (child hs node_is_left) s;
    _ ← assert red;
    s ← rotate sibling (negb node_is_left) s;
    s ← set par (with_color 0) s;
    s ← set sibling (with_color parent_color) s;
    hs ← hook sibling s;
    set (child hs node_is_left) (with_color 0) s.

(** Its end: the far child of the sibling is red.  [d] is the side of the node. *)
Definition far_red (par sibling parent_color : Z) (d : bool) (s : tree) : option tree :=
  hs ← hook sibling s;
  red ← is_red (child hs (negb d)) s;
  _ ← assert red;
  s ← rotate sibling d s;
  s ← set par (with_color 0) s;
  s ← set sibling (with_color parent_color) s;
  hs ← hook sibling s;
  set (child hs (negb d)) (with_color 0) s.

Lemma left_test s d t p c sib k h : At L m0 s t (Fr d p c sib :: k) -> t <> Leaf -> hook p s = Some h ->
  (child0 h =? ptr t) = negb d.
Proof.
  rewrite At_up. intros HA Ht Hh. pose proof (At_siblings _ _ _ _ _ _ _ _ _ HA Ht) as Hn.
  destruct (At_read _ _ _ _ _ _ _ _ _ HA) as (h' & Hh' & _ & _ & C1 & C2 & _). rewrite Hh in Hh'. injection Hh' as <-.
  destruct d; simpl in *; [rewrite C2; by apply Z.eqb_neq|rewrite C1; apply Z.eqb_refl].
Qed.

Lemma far_red_ok s t d p c x sb y k H : At L m0 s t (Fr d p c (nd d x sb Black y) :: k) ->
  bal x H -> bal y H -> root_col y = Red -> cbal k (match c with Black => S (S H) | Red => S H end) ->
  (c = Red -> cblack k) ->
  exists s' k', far_red p sb (colz c) d s = Some s' /\ At L m0 s' t k' /\ cbal k' H.
Proof.
  intros HA Hx Hy Cy Hk Hb. unfold far_red. pose proof HA as HS. rewrite At_sib in HS.
  destruct (At_read _ _ _ _ _ _ _ _ _ HS) as (hs & -> & _ & _ & _ & Cy' & _). cbn [mbind option_bind]. rewrite Cy'.
  pose proof HS as HY. rewrite nd_flip, <- At_up in HY.
  rewrite (is_red_ok _ _ _ (proj1 HY)), Cy, bool_decide_eq_true_2 by done. cbn [mbind option_bind assert].
  pose proof HS as HP. rewrite At_up, (nd_flip d) in HP.
  destruct (At_rotate _ _ _ _ _ _ _ _ _ _ _ _ HP) as (s1 & E1 & HA1). rewrite negb_involutive in E1. rewrite E1. cbn [mbind option_bind].
  rewrite (nd_flip (negb d)), negb_involutive, <- At_up in HA1.
  destruct (At_black _ _ _ _ _ _ _ _ _ HA1) as (s2 & -> & HA2). cbn [mbind option_bind].
  rewrite At_up in HA2. destruct (At_color _ _ _ _ _ _ _ _ _ c HA2) as (s3 & -> & HA3). cbn [mbind option_bind].
  destruct (At_read _ _ _ _ _ _ _ _ _ HA3) as (hs' & -> & _ & _ & _ & Cy2 & _). cbn [mbind option_bind]. rewrite Cy2.
  destruct y as [|yl yp yc yr]; [done|]. simpl in Cy. subst yc. cbn [ptr]. rewrite nd_flip, <- At_up in HA3.
  destruct (At_black _ _ s3 false yl yp Red yr _ HA3) as (s4 & -> & HA4). 
  rewrite At_up, <- nd_flip, <- At_up, (nd_flip (negb d)), negb_involutive, <- At_up in HA4.
  exists s4. eexists. split_and!; [done|exact HA4|]. destruct Hy as (? & ? & ? & ?). 
  destruct c; simpl; split_and!; eauto.
Qed.

Lemma children_black s d x sb c y k h : At L m0 s (nd d x sb c y) k -> hook sb s = Some h ->
  both (is_black (child0 h) s) (is_black (child1 h) s) =
    Some (bool_decide (root_col x = Black) && bool_decide (root_col y = Black)).
Proof.
  intros HA Hh. destruct (At_read _ _ _ _ _ _ _ _ _ HA) as (h' & Hh' & _ & _ & C1 & C2 & _).
  rewrite Hh in Hh'. injection Hh' as <-. pose proof HA as HX. rewrite <- At_up in HX.
  rewrite nd_flip, <- At_up in HA. pose proof (is_black_ok _ _ _ (proj1 HX)) as Bx.
  pose proof (is_black_ok _ _ _ (proj1 HA)) as By. unfold both.
  destruct d; simpl in C1, C2; rewrite C1, C2, Bx, By; cbn [mbind option_bind]; repeat case_bool_decide; done.
Qed.

Lemma near_far s d x sb c y k h : At L m0 s (nd d x sb c y) k -> hook sb s = Some h ->
  both (is_red (child h d) s) (is_black (child h (negb d)) s) =
    Some (bool_decide (root_col x = Red) && bool_decide (root_col y = Black)).
Proof.
  intros HA Hh. destruct (At_read _ _ _ _ _ _ _ _ _ HA) as (h' & Hh' & _ & _ & C1 & C2 & _).
  rewrite Hh in Hh'. injection Hh' as <-. pose proof HA as HX. rewrite <- At_up in HX.
  rewrite nd_flip, <- At_up in HA. unfold both. rewrite C1, C2, (is_red_ok _ _ _ (proj1 HX)), (is_black_ok _ _ _ (proj1 HA)).
  cbn [mbind option_bind]. repeat case_bool_decide; done.
Qed.

(** What [fix_remove] does from any position. *)
Definition removes (fuel : nat) : Prop := forall s b t1 n t2 k H, (length k < fuel)%nat ->
  At L m0 s (nd b t1 n Black t2) k -> cbal k (S H) ->
  exists s' k', fix_remove fuel n s = Some s' /\ At L m0 s' (nd b t1 n Black t2) k' /\ cbal k' H.

Lemma black_sibling_ok fuel s t d p c x sb y k H : removes fuel -> (c = Black -> (length k < fuel)%nat) -> t <> Leaf ->
  At L m0 s t (Fr d p c (nd d x sb Black y) :: k) ->
  bal x H -> bal y H -> cbal k (match c with Black => S (S H) | Red => S H end) -> (c = Red -> cblack k) ->
  exists s' k', black_sibling fuel p (ptr t) (negb d) s = Some s' /\ At L m0 s' t k' /\ cbal k' H.
Proof.
  intros IH Hf Ht HA Hx Hy Hk Hb. unfold black_sibling. pose proof HA as HP. rewrite At_up in HP.
  pose proof HA as HS. rewrite At_sib in HS.
  destruct (At_read _ _ _ _ _ _ _ _ _ HP) as (hp & Hp & _ & _ & _ & Cs & Cp). rewrite ptr_nd in Cs.
  destruct (At_read _ _ _ _ _ _ _ _ _ HS) as (hs & Hs & _ & _ & Cx & _ & _).
  rewrite Hp. cbn [mbind option_bind]. rewrite Cs, Hs. cbn [mbind option_bind].
  rewrite (children_black _ _ _ _ _ _ _ _ HS Hs). cbn [mbind option_bind].
  destruct (bool_decide _ && bool_decide _) eqn:EB.
  - apply andb_true_iff in EB as [Ex%bool_decide_eq_true Ey%bool_decide_eq_true].
    destruct (At_red _ _ _ _ _ _ _ _ _ HS) as (s1 & -> & HA1). cbn [mbind option_bind].
    rewrite At_up, <- nd_flip in HA1. destruct (At_read _ _ _ _ _ _ _ _ _ HA1) as (hp1 & -> & _ & _ & _ & _ & Cp1).
    cbn [mbind option_bind]. rewrite Cp1.
    assert (Hsib : bal (nd d x sb Red y) H) by (by apply bal_nd). destruct c.
    + change (colz Black =? 0) with true. cbn iota.
      destruct (IH s1 _ _ _ _ _ (S H) (Hf eq_refl) HA1 Hk) as (s2 & k2 & -> & HA2 & Hk2). rewrite <- At_up in HA2.
      exists s2. eexists. split_and!; [done|exact HA2|by split].
    + change (colz Red =? 0) with false. cbn iota.
      destruct (At_black _ _ _ _ _ _ _ _ _ HA1) as (s2 & -> & HA2). rewrite <- At_up in HA2.
      exists s2. eexists. split_and!; [done|exact HA2|by split].
  - rewrite (left_test s d t p c _ k hp HA Ht Hp), Cp, negb_involutive.
    rewrite (near_far _ _ _ _ _ _ _ _ HS Hs). cbn [mbind option_bind]. 
    destruct (bool_decide (root_col x = Red) && _) eqn:ER.
    + apply andb_true_iff in ER as [Ex%bool_decide_eq_true Ey%bool_decide_eq_true].
      destruct x as [|xl xp xc xr]; [done|]. simpl in Ex. subst xc. rewrite Cx. cbn [ptr].
      destruct (nd_side d false xl xp Red xr) as (xa & xb & E). simpl in E. rewrite E in *. apply bal_nd in Hx as (Hxa & Hxb & Ca & Cb).
      destruct (At_rotate _ _ _ _ _ _ _ _ _ _ _ _ HS) as (s1 & -> & HA1). cbn [mbind option_bind].
      rewrite nd_flip, <- At_up in HA1. destruct (At_red _ _ _ _ _ _ _ _ _ HA1) as (s2 & -> & HA2). cbn [mbind option_bind].
      rewrite At_up in HA2. destruct (At_black _ _ _ _ _ _ _ _ _ HA2) as (s3 & -> & HA3). cbn [mbind option_bind].
      rewrite <- nd_flip, At_sib, negb_involutive in HA3.
      assert (HS' : bal (nd d xb sb Red y) H) by (by apply bal_nd).
      exact (far_red_ok _ _ _ _ _ _ _ _ _ _ HA3 Hxa HS' (root_col_nd _ _ _ _ _) Hk Hb).
    + assert (Ey : root_col y = Red) by (destruct (root_col x), (root_col y); done).
      exact (far_red_ok _ _ _ _ _ _ _ _ _ _ HA Hx Hy Ey Hk Hb).
Qed.

Lemma fix_remove_ok fuel : removes fuel.
Proof.
  induction fuel as [|fuel IH]; intros s b t1 n t2 k H Hf HA Hk; [lia|]. set (t := nd b t1 n Black t2) in *.
  destruct (At_read _ _ _ _ _ _ _ _ _ HA) as (hn & Hh & _ & Pn & _ & _ & Cn).
  assert (Ht : t <> Leaf) by (by destruct b). assert (Hn : ptr t = n) by apply ptr_nd.
  destruct k as [|[d p c sib] k].
  - cbn [fix_remove]. rewrite Hh. cbn [mbind option_bind]. rewrite Cn, Pn. exists s, []. done.
  - pose proof HA as HP. rewrite At_up in HP.
    destruct (At_read _ _ _ _ _ _ _ _ _ HP) as (hp & Hp & Hp0 & _ & Cd & Cs & Cp).
    assert (E : fix_remove (S fuel) n s =
      h ← hook (ptr sib) s;
      s ← (if color h =? 1 then
             s ← rotate (ptr sib) d s;
             hp ← hook p s;
             _ ← assert (child hp d =? n);
             s ← set p (with_color 1) s;
             set (ptr sib) (with_color 0) s
           else Some s);
      black_sibling fuel p n (negb d) s).
    { cbn [fix_remove]. rewrite Hh. cbn [mbind option_bind]. rewrite Cn, Pn. change (assert (colz Black =? 0)) with (Some tt).
      cbn [mbind option_bind cptr]. rewrite (proj2 (Z.eqb_neq _ _) Hp0), Hp. cbn [mbind option_bind].
      pose proof (left_test s d t p c sib k hp HA Ht Hp) as HL. rewrite Hn in HL. rewrite HL, Cs, negb_involutive. reflexivity. }
    rewrite E. clear E. rewrite <- Hn. destruct sib as [|sl sb sc sr]; [exfalso; clear -Hk; destruct c; simpl in Hk; lia|].
    destruct (nd_side d false sl sb sc sr) as (x & y & E). simpl in E. rewrite E in *. rewrite ptr_nd in *.
    pose proof HA as HS. rewrite At_sib in HS.
    destruct (At_read _ _ _ _ _ _ _ _ _ HS) as (hs & -> & _ & _ & _ & _ & Cc). cbn [mbind option_bind]. rewrite Cc.
    destruct sc.
    + change (colz Black =? 1) with false. cbn [mbind option_bind]. destruct c; simpl in Hk.
      * destruct Hk as [(? & [= <-] & ? & ?)%bal_nd Hk]. eapply black_sibling_ok; [exact IH| |done|exact HA|done..]. simpl in Hf. lia.
      * destruct Hk as ((? & [= <-] & ? & ?)%bal_nd & _ & ? & Hk). eapply black_sibling_ok; [exact IH| |done|exact HA|done..]. done.
    + change (colz Red =? 1) with true. cbn iota. destruct c; simpl in Hk; [|by rewrite root_col_nd in Hk; destruct Hk as (_ & ? & _)].
      destruct Hk as [(Hx & Hy & Cx & Cy)%bal_nd Hk]. rewrite At_up, (nd_flip d x) in HS.
      destruct (At_rotate _ _ _ _ _ _ _ _ _ _ _ _ HS) as (s1 & E1 & HA1). rewrite negb_involutive in E1. rewrite E1.
      cbn [mbind option_bind]. rewrite (nd_flip (negb d)), negb_involutive, <- At_up in HA1.
      destruct (At_read _ _ _ _ _ _ _ _ _ HA1) as (hp1 & -> & _ & _ & _ & Cn1 & _). cbn [mbind option_bind].
      rewrite negb_involutive in Cn1. rewrite Cn1, Z.eqb_refl. cbn [assert mbind option_bind].
      destruct (At_red _ _ _ _ _ _ _ _ _ HA1) as (s2 & -> & HA2). cbn [mbind option_bind].
      rewrite At_up in HA2. destruct (At_black _ _ _ _ _ _ _ _ _ HA2) as (s3 & -> & HA3). cbn [mbind option_bind].
      rewrite <- At_up, (nd_flip (negb d)), negb_involutive, <- At_up in HA3.
      destruct x as [|xl xp xc xr]; [done|]. simpl in Cx. subst xc. destruct (nd_side d false xl xp Black xr) as (xa & xb & Ex).
      simpl in Ex. rewrite Ex in *. apply bal_nd in Hx as (? & [= <-] & ? & ?).
      eapply black_sibling_ok; [exact IH| |done|exact HA3|done..]. done.
Qed.

End Balance.
End RbTreeBalance.
