(* ===== verification/RbTreeLinks.v ===== *)
(** * The order links, and attaching, unlinking and replacing nodes

    [seg] is a piece of the doubly linked list in key order.  [relinks] is the
    counterpart of [keeps]: only order links change, so positions stay what they
    are.  The rest are the steps of insertion and removal that change which nodes
    the tree has. *)

From S2P Require Import Prelude RbTree RbTreeFun RbTreeHeap.

Module RbTreeLinks.
Import RbTree RbTreeFun RbTreeHeap.

(** The first and the last element, or a default. *)
Definition hd (z : Z) (l : list Z) : Z := default z (head l).
Definition lst (a : Z) (l : list Z) : Z := default a (last l).

Fixpoint seg (m : heap) (prev : Z) (l : list Z) (next : Z) : Prop :=
  match l with
  | [] => True
  | x :: l => lnk <$> m !! x = Some (prev, hd next l) /\ seg m x l next
  end.

Lemma lst_cons a x l : lst a (x :: l) = lst x l.
Proof. unfold lst. rewrite last_cons. by destruct (last l). Qed.

Lemma lst_snoc a l x : lst a (l ++ [x]) = x.
Proof. unfold lst. by rewrite last_snoc. Qed.

Lemma seg_app m a l1 l2 z : seg m a (l1 ++ l2) z <-> seg m a l1 (hd z l2) /\ seg m (lst a l1) l2 z.
Proof.
  revert a. induction l1 as [|x l1 IH]; intros a; simpl; [tauto|]. rewrite IH, lst_cons.
  replace (hd z (l1 ++ l2)) with (hd (hd z l2) l1) by (by destruct l1). tauto.
Qed.

Lemma seg_frame m m' a l z : (forall x, x ∈ l -> lnk <$> m' !! x = lnk <$> m !! x) -> seg m a l z -> seg m' a l z.
Proof.
  revert a. induction l as [|x l IH]; intros a E; simpl; [done|]. intros [Hx Hl]. split.
  - rewrite <- Hx. apply E. left.
  - apply IH; [|done]. intros y Hy. apply E. by right.
Qed.

Lemma seg_keeps L m m' a l z : keeps L m m' -> seg m a l z -> seg m' a l z.
Proof. intros K. apply seg_frame. intros x _. apply K. Qed.

(** ** Changing links only *)

Definition st (h : RbTreeHook) : Z * Z * Z * Z := (parent h, child0 h, child1 h, color h).
Definition relinks (L : list Z) (m m' : heap) : Prop :=
  forall x, (x ∉ L -> m' !! x = m !! x) /\ st <$> m' !! x = st <$> m !! x.

Lemma node_at_st m m' p par d x y c : st <$> m' !! p = st <$> m !! p -> node_at m p par d x y c -> node_at m' p par d x y c.
Proof.
  intros E [H0 (pr & su & Hm)]. split; [done|]. rewrite Hm in E. destruct (m' !! p) as [[? ? ? pr' su' ?]|]; [|done].
  simpl in E. injection E as -> -> -> ->. by exists pr', su'.
Qed.

Lemma repr_st m m' par t : (forall x, st <$> m' !! x = st <$> m !! x) -> repr m par t -> repr m' par t.
Proof.
  intros E. revert par. induction t as [|l IHl p c r IHr]; intros par; simpl; [done|]. intros (Hp & Hl & Hr).
  split_and!; auto. by apply (node_at_st m).
Qed.

Lemma crepr_st m m' hole k : (forall x, st <$> m' !! x = st <$> m !! x) -> crepr m hole k -> crepr m' hole k.
Proof.
  intros E. revert hole. induction k as [|[d q c sib] k IH]; intros hole; simpl; [done|]. intros (Hp & Hl & Hr).
  split_and!; auto; [by apply (node_at_st m)|by apply (repr_st m)].
Qed.

Lemma R_relinks L s s' t k : relinks L (mem s) (mem s') -> root s' = root s -> R s t k -> R s' t k.
Proof.
  intros HL Hr (H1 & H2 & H3 & H4). split_and!; [| |congruence|done].
  - apply (repr_st (mem s)); [|done]. intros x. apply HL.
  - apply (crepr_st (mem s)); [|done]. intros x. apply HL.
Qed.

Lemma relinks_insert L (m : heap) p h h' : m !! p = Some h -> st h' = st h -> p ∈ L -> relinks L m (<[p := h']> m).
Proof.
  intros Hp Hl HL x. destruct (decide (x = p)) as [->|N].
  - split; [done|]. rewrite lookup_insert_eq, Hp. simpl. congruence.
  - by rewrite lookup_insert_ne.
Qed.

Lemma relinks_trans L m1 m2 m3 : relinks L m1 m2 -> relinks L m2 m3 -> relinks L m1 m3.
Proof. intros H1 H2 x. destruct (H1 x) as [A B], (H2 x) as [C D]. split; [intros; by rewrite C, A|congruence]. Qed.

Lemma relinks_refl L m : relinks L m m.
Proof. by split. Qed.

Lemma relinks_sub L L' m m' : L ⊆ L' -> relinks L m m' -> relinks L' m m'.
Proof. intros HL H x. destruct (H x) as [A B]. split; [|done]. intros Hx. apply A. intros ?. apply Hx. by apply HL. Qed.

(** The end of a piece is pointed elsewhere. *)
Lemma set_successor_ok s a l z w : seg (mem s) a l z -> NoDup l -> 0 ∉ l ->
  exists s', set_if (lst 0 l) (with_successor w) s = Some s' /\ root s' = root s /\ seg (mem s') a l w /\
    relinks l (mem s) (mem s').
Proof.
  intros Hs ND H0. unfold set_if. destruct (decide (l = [])) as [->|N].
  - exists s. split_and!; (done || apply relinks_refl).
  - apply last_is_Some in N as [u Hu]. apply last_Some in Hu as [l' ->]. rewrite lst_snoc.
    apply NoDup_app in ND as (_ & D & _). apply seg_app in Hs as [Hs Hu]. simpl in Hu. destruct Hu as [Hu _].
    destruct (mem s !! u) as [h|] eqn:Eu; [|done]. assert (Hu0 : u <> 0) by set_solver.
    rewrite (proj2 (Z.eqb_neq _ _) Hu0), (set_ok _ _ _ h (hook_ok s u h Hu0 Eu)). eexists. split; [done|]. split_and!; [done| |].
    + simpl. apply seg_app. split.
      * apply (seg_frame (mem s)); [|done]. intros x Hx. rewrite lookup_insert_ne; [done|]. intros ->. by apply (D x Hx), list_elem_of_singleton.
      * simpl. rewrite lookup_insert_eq. simpl in *. injection Hu as E1 E2. unfold lnk. simpl. by rewrite E1.
    + eapply relinks_insert; [done|done|]. apply elem_of_app. right. left.
Qed.

Lemma set_predecessor_ok s a l z w : seg (mem s) a l z -> NoDup l -> 0 ∉ l ->
  exists s', set_if (hd 0 l) (with_predecessor w) s = Some s' /\ root s' = root s /\ seg (mem s') w l z /\
    relinks l (mem s) (mem s').
Proof.
  intros Hs ND H0. unfold set_if. destruct l as [|v l].
  - exists s. split_and!; (done || apply relinks_refl).
  - apply NoDup_cons in ND as [Hv _]. simpl in Hs. destruct Hs as [Hv' Hs]. change (hd 0 (v :: l)) with v.
    destruct (mem s !! v) as [h|] eqn:Eu; [|done]. assert (Hu0 : v <> 0) by set_solver.
    rewrite (proj2 (Z.eqb_neq _ _) Hu0), (set_ok _ _ _ h (hook_ok s v h Hu0 Eu)). eexists. split; [done|]. split_and!; [done| |].
    + simpl. split.
      * rewrite lookup_insert_eq. simpl in *. injection Hv' as E1 E2. unfold lnk. simpl. by rewrite E2.
      * apply (seg_frame (mem s)); [|done]. intros x Hx. rewrite lookup_insert_ne; [done|]. by intros ->.
    + eapply relinks_insert; [done|done|]. left.
Qed.

(** ** Attaching a node *)

Definition frame_out (L : list Z) (m m' : heap) : Prop := forall x, x ∉ L -> m' !! x = m !! x.

Lemma keeps_frame L m m' : keeps L m m' -> frame_out L m m'.
Proof. intros H x. apply H. Qed.
Lemma relinks_frame L m m' : relinks L m m' -> frame_out L m m'.
Proof. intros H x. apply H. Qed.
Lemma frame_trans L m1 m2 m3 : frame_out L m1 m2 -> frame_out L m2 m3 -> frame_out L m1 m3.
Proof. intros H1 H2 x Hx. by rewrite H2, H1. Qed.
Lemma frame_sub L L' m m' : L ⊆ L' -> frame_out L m m' -> frame_out L' m m'.
Proof. intros HL H x Hx. apply H. intros ?. apply Hx. by apply HL. Qed.

Lemma attach_ok s d q c sib k n : R s Leaf (Fr d q c sib :: k) -> n <> 0 -> n ∉ cnodes (Fr d q c sib :: k) ->
  is_Some (mem s !! n) ->
  exists s0 hp s1 s2, set n (fun _ => empty_hook) s = Some s0 /\ hook q s0 = Some hp /\ child hp d = 0 /\
    set q (with_child d n) s0 = Some s1 /\ set n (with_parent q) s1 = Some s2 /\ root s2 = root s /\
    R s2 (Node Leaf n Black Leaf) (Fr d q c sib :: k) /\
    mem s2 !! n = Some (mkHook q 0 0 0 0 0) /\ (forall x, x <> n -> lnk <$> mem s2 !! x = lnk <$> mem s !! x) /\
    frame_out [n; q] (mem s) (mem s2).
Proof.
  intros HR Hn0 Hn [h Hh]. rewrite cnodes_cons, elem_of_cons, elem_of_app in Hn. pose proof (R_nodup _ _ _ HR) as ND.
  destruct HR as (_ & ([Hq0 (pr & su & Hq)] & Hs & Hk) & Hroot & ND0). simpl in ND. rewrite cnodes_cons in ND.
  apply NoDup_cons in ND as [Hqn _]. rewrite elem_of_app in Hqn. assert (Hne : n <> q) by naive_solver.
  exists (mkTree (root s) (<[n := empty_hook]> (mem s))), (hk (cptr k) d 0 (ptr sib) pr su (colz c)).
  exists (mkTree (root s) (<[q := hk (cptr k) d n (ptr sib) pr su (colz c)]> (<[n := empty_hook]> (mem s)))).
  exists (mkTree (root s) (<[n := mkHook q 0 0 0 0 0]> (<[q := hk (cptr k) d n (ptr sib) pr su (colz c)]> (<[n := empty_hook]> (mem s))))).
  split_and!.
  - by apply (set_ok _ _ _ h), hook_ok.
  - apply hook_ok; [done|]. simpl. by rewrite lookup_insert_ne.
  - by destruct d.
  - rewrite (set_ok _ _ _ (hk (cptr k) d 0 (ptr sib) pr su (colz c))); [by destruct d|].
    apply hook_ok; [done|]. simpl. by rewrite lookup_insert_ne.
  - rewrite (set_ok _ _ _ empty_hook); [done|]. apply hook_ok; [done|]. simpl. by rewrite lookup_insert_ne, lookup_insert_eq.
  - done.
  - split_and!; simpl.
    + split_and!; try done. split; [done|]. exists 0, 0. by rewrite lookup_insert_eq.
    + split_and!.
      * split; [done|]. exists pr, su. by rewrite lookup_insert_ne, lookup_insert_eq.
      * apply (repr_frame (mem s)); [|done]. intros x Hx. rewrite !lookup_insert_ne; [done|..]; intros ->; tauto.
      * apply (crepr_frame (mem s)); [|done]. intros x Hx. rewrite !lookup_insert_ne; [done|..]; intros ->; tauto.
    + done.
    + change (NoDup (inorder (plug (Fr d q c sib :: k) (Node Leaf n Black Leaf)))). rewrite plug_nodes, cnodes_cons. simpl.
      apply NoDup_cons. split; [rewrite elem_of_cons, elem_of_app; tauto|].
      rewrite plug_nodes, cnodes_cons in ND0. exact ND0.
  - simpl. by rewrite lookup_insert_eq.
  - intros x Hx. simpl. rewrite lookup_insert_ne by done. destruct (decide (x = q)) as [->|].
    + by rewrite lookup_insert_eq, Hq.
    + by rewrite !lookup_insert_ne.
  - intros x Hx. simpl. rewrite !lookup_insert_ne; [done|..]; intros ->; apply Hx; [left|right; left|left].
Qed.

(** ** Unlinking a node with at most one child *)

Definition clear (h : RbTreeHook) : RbTreeHook := mkHook 0 0 0 0 0 (color h).

Lemma rb_unlink_ok s d n c t k : R s (nd d Leaf n c t) k ->
  exists s1 s2 s3, replace_child (cptr k) n (ptr t) s = Some s1 /\ set_if (ptr t) (with_parent (cptr k)) s1 = Some s2 /\
    set n clear s2 = Some s3 /\ R s3 t k /\
    (forall x, x <> n -> lnk <$> mem s3 !! x = lnk <$> mem s !! x) /\
    (exists h, mem s3 !! n = Some h) /\ frame_out (inorder (plug k (nd d Leaf n c t))) (mem s) (mem s3).
Proof.
  intros HR. pose proof (R_root_nodup _ _ _ _ _ _ _ HR) as ND. destruct HR as (Hr & Hk & Hroot & ND0). rewrite ptr_nd in *.
  apply repr_nd in Hr as (Hn & _ & Ht). apply NoDup_cons in ND as [Hnn ND]. simpl in Hnn, ND. rewrite elem_of_app in Hnn.
  apply NoDup_app in ND as (NDt & D & NDk).
  destruct (replace_child_ok s n (ptr t) k Hk Hroot ltac:(tauto) (proj1 Hn) NDk) as (s1 & E1 & Hk1 & Hroot1 & K1).
  assert (Ht1 : repr (mem s1) n t) by (eapply repr_keeps; [done| |done]; naive_solver).
  destruct (set_if_parent s1 n (cptr k) t Ht1 NDt) as (s2 & E2 & Hroot2 & Ht2 & K2).
  assert (Hn2 : node_at (mem s2) n (cptr k) d 0 (ptr t) c).
  { eapply node_keeps; [exact K2|tauto|]. eapply node_keeps; [exact K1|tauto|done]. }
  destruct Hn2 as [Hn0 (pr & su & Hn2)]. exists s1, s2. eexists. split_and!; [done|done|exact (set_ok _ _ _ _ (hook_ok _ _ _ Hn0 Hn2))|..]; simpl.
  - split_and!; simpl.
    + apply (repr_frame (mem s2)); [|done]. intros x Hx. apply lookup_insert_ne. intros ->. tauto.
    + apply (crepr_frame (mem s2)); [intros x Hx; apply lookup_insert_ne; intros ->; tauto|].
      eapply crepr_keeps; [exact K2| |done]. intros x Hx Hx'. by apply (D x).
    + congruence.
    + rewrite plug_nodes in ND0 |- *. rewrite nd_nodes in ND0. simpl in ND0. by apply NoDup_cons in ND0 as [_ ?].
  - intros x Hx. rewrite lookup_insert_ne by done. rewrite (proj2 (K2 x)). apply K1.
  - rewrite lookup_insert_eq. eauto.
  - intros x. rewrite plug_nodes, nd_nodes. simpl. rewrite elem_of_cons, elem_of_app. intros Hx.
    rewrite lookup_insert_ne by naive_solver. rewrite (proj1 (K2 x)) by tauto. apply K1. tauto.
Qed.

(** ** Replacing a node *)

Lemma replace_writes s rep hr par hn n l r (f : tree -> option tree) : n <> rep -> rep <> 0 ->
  mem s !! rep = Some hr -> hook n s = Some hn ->
  (s ← set rep (with_parent par) s; hn ← hook n s; s ← set rep (with_color (color hn)) s;
   s ← set rep (with_child false l) s; s ← set rep (with_child true r) s; f s) =
  f (mkTree (root s) (<[rep := hk par false l r (predecessor hr) (successor hr) (color hn)]> (mem s))).
Proof.
  intros Hne H0 Hr Hn. rewrite (set_ok _ _ _ _ (hook_ok _ _ _ H0 Hr)). cbn [mbind option_bind].
  assert (E : forall h', hook n (mkTree (root s) (<[rep := h']> (mem s))) = Some hn).
  { intros h'. unfold hook in *. destruct (n =? 0); [done|]. simpl. by rewrite lookup_insert_ne. }
  rewrite E. cbn [mbind option_bind]. unfold set, hook. rewrite (proj2 (Z.eqb_neq _ _) H0). cbn [mem root].
  repeat (rewrite ?lookup_insert_eq, ?insert_insert_eq; cbn [mbind option_bind mem root]). done.
Qed.

Lemma replace_ok s l n c r k rep h : R s (Node l n c r) k -> rep ∉ inorder (plug k (Node l n c r)) -> rep <> 0 ->
  is_Some (mem s !! rep) -> mem s !! n = Some h ->
  exists s1 s2 hr s3 s4, replace_child (cptr k) n rep s = Some s1 /\ hook n s1 = Some h /\
    mem s1 !! rep = Some hr /\
    s2 = mkTree (root s1) (<[rep := hk (cptr k) false (ptr l) (ptr r) (predecessor hr) (successor hr) (color h)]> (mem s1)) /\
    set_if (ptr l) (with_parent rep) s2 = Some s3 /\ set_if (ptr r) (with_parent rep) s3 = Some s4 /\
    R s4 (Node l rep c r) k /\ mem s4 !! n = Some h /\ (forall x, lnk <$> mem s4 !! x = lnk <$> mem s !! x) /\
    frame_out (rep :: inorder (plug k (Node l n c r))) (mem s) (mem s4).
Proof.
  intros HR Hrep Hrep0 [hr Hhr] Hm. pose proof (R_root_nodup s false l n c r k HR) as ND. destruct HR as (Hr & Hk & Hroot & ND0).
  destruct Hr as ([Hn0 (pr & su & Hn)] & Hl & Hr). rewrite Hm in Hn. injection Hn as Hn.
  rewrite plug_nodes in Hrep, ND0. rewrite (nd_nodes false l n c r) in Hrep, ND0. simpl in *.
  rewrite elem_of_cons, !elem_of_app in Hrep.
  apply NoDup_cons in ND as [Hnn ND]. rewrite !elem_of_app in Hnn. apply NoDup_app in ND as (NDl & Dl & ND).
  apply NoDup_app in ND as (NDr & Dr & NDk). setoid_rewrite elem_of_app in Dl.
  destruct (replace_child_ok s n rep k Hk Hroot ltac:(tauto) Hn0 NDk) as (s1 & E1 & Hk1 & Hroot1 & K1).
  assert (Hm1 : mem s1 !! n = Some h) by (by rewrite (proj1 (K1 n)) by tauto).
  assert (Hhr1 : mem s1 !! rep = Some hr) by (by rewrite (proj1 (K1 rep)) by tauto).
  set (h2 := hk (cptr k) false (ptr l) (ptr r) (predecessor hr) (successor hr) (color h)).
  set (s2 := mkTree (root s1) (<[rep := h2]> (mem s1))).
  assert (K2 : forall x, (x <> rep -> mem s2 !! x = mem s1 !! x) /\ lnk <$> mem s2 !! x = lnk <$> mem s1 !! x).
  { intros x. split; [intros; by apply lookup_insert_ne|]. simpl. destruct (decide (x = rep)) as [->|]; [by rewrite lookup_insert_eq, Hhr1|by rewrite lookup_insert_ne]. }
  assert (Hl2 : repr (mem s2) n l).
  { apply (repr_frame (mem s)); [|done]. intros x Hx. rewrite (proj1 (K2 x)) by (intros ->; tauto). apply K1. naive_solver. }
  destruct (set_if_parent s2 n rep l Hl2 NDl) as (s3 & E3 & Hroot3 & Hl3 & K3).
  assert (Hr3 : repr (mem s3) n r).
  { apply (repr_frame (mem s)); [|done]. intros x Hx. rewrite (proj1 (K3 x)) by naive_solver.
    rewrite (proj1 (K2 x)) by (intros ->; tauto). apply K1. naive_solver. }
  destruct (set_if_parent s3 n rep r Hr3 NDr) as (s4 & E4 & Hroot4 & Hr4 & K4).
  exists s1, s2, hr, s3, s4. split_and!; try done.
  - by apply hook_ok.
  - split_and!; simpl.
    + split_and!; [|by eapply repr_keeps; [exact K4|naive_solver|]|done].
      split; [done|]. exists (predecessor hr), (successor hr).
      rewrite (proj1 (K4 rep)), (proj1 (K3 rep)) by tauto. simpl. rewrite lookup_insert_eq. f_equal. subst h2. f_equal. by subst h.
    + eapply crepr_keeps; [exact K4|naive_solver|]. eapply crepr_keeps; [exact K3|naive_solver|].
      apply (crepr_frame (mem s1)); [|done]. intros x Hx. apply K2. intros ->. tauto.
    + rewrite Hroot4, Hroot3. done.
    + rewrite plug_nodes, (nd_nodes false l rep c r). simpl. apply NoDup_cons. apply NoDup_cons in ND0 as [_ ?].
      split; [rewrite !elem_of_app; tauto|done].
  - rewrite (proj1 (K4 n)), (proj1 (K3 n)), (proj1 (K2 n)); [done| | |]; [intros ->|..]; tauto.
  - intros x. rewrite (proj2 (K4 x)), (proj2 (K3 x)), (proj2 (K2 x)). apply K1.
  - intros x. rewrite elem_of_cons, plug_nodes, (nd_nodes false l n c r). simpl. rewrite elem_of_cons, !elem_of_app. intros Hx.
    rewrite (proj1 (K4 x)), (proj1 (K3 x)), (proj1 (K2 x)) by tauto. apply K1. tauto.
Qed.

End RbTreeLinks.
