(* ===== verification/RbTreeRun.v ===== *)
(** * The red-black tree's operations

    [Inv s T]: the hooks of [s] are the balanced tree [T], and the order links are
    the doubly linked list of its nodes in order.  Insertion, removal and lookup
    from such a state always run through, keep it, and have the effect on the list
    of nodes that their names say. *)

From stdpp Require Import sorting.
From S2P Require Import Prelude RbTree RbTreeFun RbTreeHeap RbTreeBalance RbTreeLinks.

Module RbTreeRun.
Import RbTree RbTreeFun RbTreeHeap RbTreeBalance RbTreeLinks.

Definition Inv (s : tree) (T : tr) : Prop := R s T [] /\ rb T /\ seg (mem s) 0 (inorder T) 0.

Lemma Inv_frame s s' T : root s' = root s -> (forall x, x ∈ inorder T -> mem s' !! x = mem s !! x) -> Inv s T -> Inv s' T.
Proof.
  intros Hr Hm ((H1 & H2 & H3 & H4) & Hrb & Hs). split_and!; [|done|].
  - split_and!; [by apply (repr_frame (mem s))|done|congruence|done].
  - apply (seg_frame (mem s)); [|done]. intros x Hx. by rewrite Hm.
Qed.

(** ** Insertion *)

Lemma insert_finish s n K : R s (Node Leaf n Black Leaf) K -> seg (mem s) 0 (cl K ++ n :: cr K) 0 -> rb (plug K Leaf) ->
  exists s' T, fix_insert (fuel_of s) n s = Some s' /\ Inv s' T /\ inorder T = cl K ++ n :: cr K /\
    frame_out (inorder T) (mem s) (mem s').
Proof.
  intros HR Hs Hrb. destruct (unplug_rb _ _ Hrb) as (H & Hk & Hb & _). simpl in Hb. subst H.
  destruct (fix_insert_ok (cl K ++ n :: cr K) (mem s) (fuel_of s) s false Leaf n Black Leaf K 0) as (s' & T & E & HA & HT).
  - by eapply length_context.
  - apply At_start; [done| |done]. by rewrite inorder_plug.
  - done.
  - done.
  - destruct HA as (HR' & HL & HK). simpl in HL. exists s', T. split_and!; [done|split_and!|done|].
    + done.
    + done.
    + rewrite HL. by eapply seg_keeps.
    + rewrite HL. by apply keeps_frame.
Qed.

(** [n] has been linked between the lists [l1] and [l2]. *)
Definition linked (s s' : tree) (n : Z) (l1 l2 : list Z) : Prop :=
  root s' = root s /\ seg (mem s') 0 (l1 ++ n :: l2) 0 /\ relinks (l1 ++ n :: l2) (mem s) (mem s').

(** Two pieces of the list and a node that is in neither. *)
Definition pieces (s : tree) (n : Z) (l1 l2 : list Z) : Prop :=
  (exists z, seg (mem s) 0 l1 z) /\ (exists z, seg (mem s) z l2 0) /\ NoDup (l1 ++ l2) /\ 0 ∉ l1 ++ l2 /\
  n <> 0 /\ n ∉ l1 ++ l2 /\ is_Some (mem s !! n).

Lemma seg_out L m m' a l z : relinks L m m' -> (forall x, x ∈ l -> x ∉ L) -> seg m a l z -> seg m' a l z.
Proof. intros HL Hx. apply seg_frame. intros x Hi. by rewrite (proj1 (HL x) (Hx x Hi)). Qed.

(** A node's own link writes. *)
Lemma set_links_ok s n f h : n <> 0 -> mem s !! n = Some h -> st (f h) = st h ->
  exists s', set n f s = Some s' /\ root s' = root s /\ relinks [n] (mem s) (mem s') /\ mem s' !! n = Some (f h).
Proof.
  intros H0 Hm Hs. eexists. split; [by apply set_ok, hook_ok|]. split_and!; [done| |simpl; by rewrite lookup_insert_eq].
  by eapply relinks_insert; [done|done|left].
Qed.

Lemma links_left s n l1 l2 : pieces s n l1 l2 ->
  exists s1 s2 s3 s4, set_if (lst 0 l1) (with_successor n) s = Some s1 /\
    set n (with_predecessor (lst 0 l1)) s1 = Some s2 /\ set n (with_successor (hd 0 l2)) s2 = Some s3 /\
    set_if (hd 0 l2) (with_predecessor n) s3 = Some s4 /\ linked s s4 n l1 l2 /\ relinks l1 (mem s) (mem s1).
Proof.
  intros ([z1 Hs1] & [z2 Hs2] & ND & H0 & Hn0 & Hn & [h Hh]). rewrite elem_of_app in Hn, H0.
  apply NoDup_app in ND as (ND1 & D & ND2).
  destruct (set_successor_ok s 0 l1 z1 n Hs1 ND1) as (s1 & E1 & Hr1 & Hs1' & L1); [tauto|].
  assert (Hh1 : mem s1 !! n = Some h) by (rewrite (proj1 (L1 n)); tauto).
  destruct (set_links_ok s1 n (with_predecessor (lst 0 l1)) _ Hn0 Hh1 eq_refl) as (s2 & E2 & Hr2 & L2 & Hh2).
  destruct (set_links_ok s2 n (with_successor (hd 0 l2)) _ Hn0 Hh2 eq_refl) as (s3 & E3 & Hr3 & L3 & Hh3).
  assert (L23 : relinks [n] (mem s1) (mem s3)) by (by eapply relinks_trans).
  assert (Hs2' : seg (mem s3) z2 l2 0).
  { eapply (seg_out [n]); [exact L23|intros x Hx ->%list_elem_of_singleton; tauto|].
    eapply seg_out; [exact L1| |done]. intros x Hx Hx'. by apply (D x). }
  destruct (set_predecessor_ok s3 _ l2 0 n Hs2' ND2) as (s4 & E4 & Hr4 & Hs4 & L4); [tauto|].
  exists s1, s2, s3, s4. split_and!; try done. split_and!; [congruence| |].
  - apply seg_app. split; [|split; [|done]].
    + eapply seg_out; [exact L4|intros x Hx Hx'; by apply (D x)|]. eapply seg_out; [exact L23|intros x Hx ->%list_elem_of_singleton; tauto|done].
    + by rewrite (proj1 (L4 n)), Hh3 by tauto.
  - eapply relinks_trans; [|eapply relinks_trans]; eapply relinks_sub; [|exact L1| |exact L23| |exact L4];
      clear; set_solver.
Qed.

Lemma links_right s n l1 l2 : pieces s n l1 l2 ->
  exists s1 s2 s3 s4, set_if (hd 0 l2) (with_predecessor n) s = Some s1 /\
    set n (with_successor (hd 0 l2)) s1 = Some s2 /\ set n (with_predecessor (lst 0 l1)) s2 = Some s3 /\
    set_if (lst 0 l1) (with_successor n) s3 = Some s4 /\ linked s s4 n l1 l2.
Proof.
  intros ([z1 Hs1] & [z2 Hs2] & ND & H0 & Hn0 & Hn & [h Hh]). rewrite elem_of_app in Hn, H0.
  apply NoDup_app in ND as (ND1 & D & ND2).
  destruct (set_predecessor_ok s _ l2 0 n Hs2 ND2) as (s1 & E1 & Hr1 & Hs2' & L1); [tauto|].
  assert (Hh1 : mem s1 !! n = Some h) by (rewrite (proj1 (L1 n)); tauto).
  destruct (set_links_ok s1 n (with_successor (hd 0 l2)) _ Hn0 Hh1 eq_refl) as (s2 & E2 & Hr2 & L2 & Hh2).
  destruct (set_links_ok s2 n (with_predecessor (lst 0 l1)) _ Hn0 Hh2 eq_refl) as (s3 & E3 & Hr3 & L3 & Hh3).
  assert (L23 : relinks [n] (mem s1) (mem s3)) by (by eapply relinks_trans).
  assert (Hs1' : seg (mem s3) 0 l1 z1).
  { eapply (seg_out [n]); [exact L23|intros x Hx ->%list_elem_of_singleton; tauto|].
    eapply seg_out; [exact L1| |done]. intros x Hx Hx'. by apply (D x). }
  destruct (set_successor_ok s3 0 l1 _ n Hs1' ND1) as (s4 & E4 & Hr4 & Hs4 & L4); [tauto|].
  exists s1, s2, s3, s4. split_and!; try done. split_and!; [congruence| |].
  - apply seg_app. split; [done|split].
    + by rewrite (proj1 (L4 n)), Hh3 by tauto.
    + eapply seg_out; [exact L4|intros x Hx Hx'; by apply (D x)|]. eapply seg_out; [exact L23|intros x Hx ->%list_elem_of_singleton; tauto|done].
  - eapply relinks_trans; [|eapply relinks_trans]; eapply relinks_sub; [|exact L1| |exact L23| |exact L4];
      clear; set_solver.
Qed.

(** A leaf position in a tree with links, and a node to put there. *)
Definition vacant (s : tree) (K : list frame) (n : Z) : Prop :=
  R s Leaf K /\ seg (mem s) 0 (cl K ++ cr K) 0 /\ rb (plug K Leaf) /\
  n <> 0 /\ n ∉ cnodes K /\ is_Some (mem s !! n).

(** Attaching leaves the pieces before and behind the hole. *)
Lemma attach_pieces s s2 K n h : vacant s K n -> (forall x, x <> n -> lnk <$> mem s2 !! x = lnk <$> mem s !! x) ->
  mem s2 !! n = Some h -> seg (mem s2) 0 (cl K ++ cr K) 0 /\ pieces s2 n (cl K) (cr K).
Proof.
  intros (HR & Hs & Hrb & Hn0 & Hn & Hm) Hl Hh. pose proof (R_nodup _ _ _ HR) as ND. simpl in ND. unfold cnodes in *.
  assert (Hs2 : seg (mem s2) 0 (cl K ++ cr K) 0).
  { apply (seg_frame (mem s)); [|done]. intros x Hx. apply Hl. by intros ->. }
  split; [done|]. apply seg_app in Hs2 as [HA HB]. split_and!; eauto.
  intros H0. eapply (R_dom s Leaf K 0); [done| |done]. by rewrite inorder_plug.
Qed.

Lemma insert_linked s s2 s6 K n : vacant s K n -> R s2 (Node Leaf n Black Leaf) K -> linked s2 s6 n (cl K) (cr K) ->
  frame_out (n :: cnodes K) (mem s) (mem s2) ->
  exists s' T, fix_insert (fuel_of s6) n s6 = Some s' /\ Inv s' T /\ inorder T = cl K ++ n :: cr K /\
    frame_out (inorder T) (mem s) (mem s').
Proof.
  intros (_ & _ & Hrb & _) HR (Hroot & Hs & HL) HF. destruct (insert_finish s6 n K) as (s' & T & E & HI & HT & HF').
  - by eapply R_relinks.
  - done.
  - done.
  - exists s', T. split_and!; try done. eapply frame_trans; [|exact HF']. rewrite HT.
    eapply frame_trans; [|by apply relinks_frame]. eapply frame_sub; [|exact HF]. intros x. unfold cnodes.
    rewrite elem_of_cons, !elem_of_app, elem_of_cons. tauto.
Qed.

Lemma insert_left_ok s q c sib k n : vacant s (Fr false q c sib :: k) n ->
  exists s' T, insert_left q n s = Some s' /\ Inv s' T /\
    inorder T = cl (Fr false q c sib :: k) ++ n :: cr (Fr false q c sib :: k) /\ frame_out (inorder T) (mem s) (mem s').
Proof.
  intros HV. pose proof HV as (HR & _ & _ & Hn0 & Hn & Hm).
  destruct (attach_ok s false q c sib k n HR Hn0 Hn Hm)
    as (s0 & hp & s1 & s2 & E0 & Ehp & Ec & E1 & E2 & Hroot2 & HR2 & Hm2 & Hl2 & F2).
  destruct (attach_pieces _ _ _ _ _ HV Hl2 Hm2) as [Hs2 HP].
  apply seg_app in Hs2 as [_ Hq]. destruct Hq as [Hq _].
  destruct (mem s2 !! q) as [hq|] eqn:Eq; [|done]. simpl in Hq. injection Hq as Hqp _.
  destruct HR as (_ & [[Hq0 _] _] & _).
  destruct (links_left _ _ _ _ HP) as (s3 & s4 & s5 & s6 & E3 & E4 & E5 & E6 & HL & _).
  unfold insert_left. rewrite E0. cbn [mbind option_bind]. rewrite Ehp. cbn [mbind option_bind]. cbn [child] in Ec.
  rewrite Ec. cbn [Z.eqb assert mbind option_bind]. rewrite E1. cbn [mbind option_bind]. rewrite E2. cbn [mbind option_bind].
  rewrite (hook_ok _ _ _ Hq0 Eq). cbn [mbind option_bind]. cbn [cl] in E3, E4. rewrite Hqp, E3. cbn [mbind option_bind].
  rewrite E4. cbn [mbind option_bind]. cbn [cr hd head default] in E5, E6. unfold hd in E5, E6. cbn [head default] in E5, E6.
  cbn in E5, E6. rewrite E5. cbn [mbind option_bind].
  unfold set_if in E6. rewrite (proj2 (Z.eqb_neq _ _) Hq0) in E6. rewrite E6. cbn [mbind option_bind].
  eapply insert_linked; [done|done|done|]. eapply frame_sub; [|exact F2]. rewrite cnodes_cons. clear. set_solver.
Qed.

Lemma insert_right_ok s q c sib k n : vacant s (Fr true q c sib :: k) n ->
  exists s' T, insert_right q n s = Some s' /\ Inv s' T /\
    inorder T = cl (Fr true q c sib :: k) ++ n :: cr (Fr true q c sib :: k) /\ frame_out (inorder T) (mem s) (mem s').
Proof.
  intros HV. pose proof HV as (HR & _ & _ & Hn0 & Hn & Hm).
  destruct (attach_ok s true q c sib k n HR Hn0 Hn Hm)
    as (s0 & hp & s1 & s2 & E0 & Ehp & Ec & E1 & E2 & Hroot2 & HR2 & Hm2 & Hl2 & F2).
  destruct (attach_pieces _ _ _ _ _ HV Hl2 Hm2) as [Hs2 HP].
  assert (Hcl : cl (Fr true q c sib :: k) = (cl k ++ inorder sib) ++ [q]) by (simpl; by rewrite <- (assoc_L app)).
  apply seg_app in Hs2 as [Hq _]. rewrite Hcl in Hq. apply seg_app in Hq as [_ [Hq _]].
  destruct (mem s2 !! q) as [hq|] eqn:Eq; [|done]. simpl in Hq. injection Hq as _ Hqp.
  destruct HR as (_ & [[Hq0 _] _] & _).
  destruct (links_right _ _ _ _ HP) as (s3 & s4 & s5 & s6 & E3 & E4 & E5 & E6 & HL).
  rewrite Hcl, lst_snoc in E5, E6.
  unfold insert_right. rewrite E0. cbn [mbind option_bind]. rewrite Ehp. cbn [mbind option_bind]. cbn [child] in Ec.
  rewrite Ec. cbn [Z.eqb assert mbind option_bind]. rewrite E1. cbn [mbind option_bind]. rewrite E2. cbn [mbind option_bind].
  rewrite (hook_ok _ _ _ Hq0 Eq). cbn [mbind option_bind]. cbn [cr] in E3, E4. unfold hd in Hqp at 1. cbn in Hqp.
  rewrite Hqp, E3. cbn [mbind option_bind]. rewrite E4. cbn [mbind option_bind]. rewrite E5. cbn [mbind option_bind].
  unfold set_if in E6. rewrite (proj2 (Z.eqb_neq _ _) Hq0) in E6. rewrite E6. cbn [mbind option_bind].
  eapply insert_linked; [done|done|done|]. eapply frame_sub; [|exact F2]. rewrite cnodes_cons. clear. set_solver.
Qed.

Lemma insert_root_ok s n : R s Leaf [] -> n <> 0 -> is_Some (mem s !! n) ->
  exists s' T, insert_root n s = Some s' /\ Inv s' T /\ inorder T = [n] /\ frame_out (inorder T) (mem s) (mem s').
Proof.
  intros HR Hn0 [h Hm]. unfold insert_root. rewrite (set_ok _ _ _ _ (hook_ok _ _ _ Hn0 Hm)). cbn [mbind option_bind root].
  destruct HR as (_ & _ & -> & _). cbn [ptr croot Z.eqb assert mbind option_bind].
  set (s1 := mkTree n (<[n := empty_hook]> (mem s))).
  destruct (insert_finish s1 n []) as (s' & T & E & HI & HT & HF).
  - split_and!; try done; simpl; [|apply NoDup_singleton].
    split_and!; try done. split; [done|]. exists 0, 0. by rewrite lookup_insert_eq.
  - simpl. by rewrite lookup_insert_eq.
  - split; [done|]. by exists 0%nat.
  - exists s', T. split_and!; [exact E|done|done|]. eapply frame_trans; [|exact HF]. rewrite HT. intros x Hx. simpl.
    rewrite lookup_insert_ne; [done|]. intros ->. apply Hx. simpl. left.
Qed.

(** ** Keys *)

Section Keys.
Variable key : Z -> Z.

Definition ksorted (l : list Z) : Prop := StronglySorted (fun a b => key a < key b) l.

Lemma ksorted_app l1 x l2 : ksorted (l1 ++ x :: l2) ->
  (forall y, y ∈ l1 -> key y < key x) /\ (forall y, y ∈ l2 -> key x < key y).
Proof.
  induction l1 as [|a l1 IH]; simpl; intros H; apply StronglySorted_inv in H as [H1 H2]; rewrite Forall_forall in H2.
  - split; [set_solver|done].
  - destruct (IH H1) as [IH1 IH2]. split; [|done]. intros y [->|Hy]%elem_of_cons; [|auto]. apply H2, elem_of_app. right. left.
Qed.

(** The hole of [K] is where [k] belongs. *)
Definition belongs (k : Z) (K : list frame) : Prop :=
  (forall x, x ∈ cl K -> key x < k) /\ (forall x, x ∈ cr K -> k < key x).

Lemma belongs_left k K l p c r : ksorted (inorder (plug K (Node l p c r))) -> belongs k K -> k < key p ->
  belongs k (Fr false p c r :: K).
Proof.
  intros HS [H1 H2] Hk. split; [done|]. rewrite inorder_plug in HS. simpl in HS.
  rewrite <- (assoc_L app), (assoc_L app), <- app_comm_cons in HS. apply ksorted_app in HS as [_ HS].
  intros x. simpl. rewrite elem_of_cons, elem_of_app. intros [->|[Hx|Hx]]; [done| |auto].
  specialize (HS x). rewrite elem_of_app in HS. lia || (assert (key p < key x) by auto; lia).
Qed.

Lemma belongs_right k K l p c r : ksorted (inorder (plug K (Node l p c r))) -> belongs k K -> key p < k ->
  belongs k (Fr true p c l :: K).
Proof.
  intros HS [H1 H2] Hk. split; [|done]. rewrite inorder_plug in HS. simpl in HS.
  rewrite <- (assoc_L app), (assoc_L app), <- app_comm_cons in HS. apply ksorted_app in HS as [HS _].
  intros x. simpl. rewrite !elem_of_app, list_elem_of_singleton. intros [Hx|[Hx| ->]]; [auto| |done].
  specialize (HS x). rewrite elem_of_app in HS. assert (key x < key p) by auto. lia.
Qed.

Lemma rb_descend_ok fuel : forall s t K k, R s t K -> ksorted (inorder (plug K t)) -> belongs k K -> (height t <= fuel)%nat ->
  (descend key fuel k (ptr t) (cptr K) s = None /\ exists x, x ∈ inorder t /\ key x = k) \/
  (exists K', plug K' Leaf = plug K t /\ descend key fuel k (ptr t) (cptr K) s = Some (cptr K') /\ belongs k K').
Proof.
  induction fuel as [|fuel IH]; intros s t K k HR HS HB Hh.
  - destruct t; simpl in *; [|lia]. right. by exists K.
  - destruct t as [|l p c r]; [right; by exists K|]. cbn [descend]. rewrite (ptr_leaf _ _ _ HR), bool_decide_eq_false_2 by done.
    destruct (read_ok s false l p c r K HR) as (h & Hh' & _ & _ & _ & C0 & C1 & _). cbn [ptr]. rewrite Hh'. cbn [mbind option_bind].
    simpl in C0, C1, Hh. rewrite C0, C1. destruct (k <? key p) eqn:E1; [|rewrite Z.gtb_ltb; destruct (key p <? k) eqn:E2].
    + apply Z.ltb_lt in E1. destruct (IH s l (Fr false p c r :: K) k) as [[E (x & Hx & Hk)]|H]; try done; try lia.
      * by apply R_up.
      * by eapply belongs_left.
      * left. split; [done|]. exists x. split; [|done]. simpl. apply elem_of_app. by left.
      * by right.
    + apply Z.ltb_lt in E2. destruct (IH s r (Fr true p c l :: K) k) as [[E (x & Hx & Hk)]|H]; try done; try lia.
      * by apply R_up.
      * by eapply belongs_right.
      * left. split; [done|]. exists x. split; [|done]. simpl. apply elem_of_app. right. by right.
      * by right.
    + left. split; [done|]. apply Z.ltb_ge in E1, E2. exists p. split; [|lia]. simpl. apply elem_of_app. right. left.
Qed.

Lemma height_fuel s T : R s T [] -> (height T <= fuel_of s)%nat.
Proof. intros HR. pose proof (R_size s T [] HR). pose proof (height_length T). simpl in *. unfold fuel_of. lia. Qed.

Lemma rb_insert_ok s T n : Inv s T -> ksorted (inorder T) -> n <> 0 -> n ∉ inorder T -> is_Some (mem s !! n) ->
  (insert key n s = None /\ exists x, x ∈ inorder T /\ key x = key n) \/
  (exists s' T' l1 l2, insert key n s = Some s' /\ Inv s' T' /\ inorder T = l1 ++ l2 /\ inorder T' = l1 ++ n :: l2 /\
     (forall x, x ∈ l1 -> key x < key n) /\ (forall x, x ∈ l2 -> key n < key x) /\ frame_out (inorder T') (mem s) (mem s')).
Proof.
  intros (HR & Hrb & Hs) HS Hn0 Hn Hm. unfold insert, get_root.
  assert (Hroot : root s = ptr T) by apply HR. rewrite Hroot, (ptr_leaf _ _ _ HR).
  case_bool_decide as E.
  - subst T. destruct (insert_root_ok s n HR Hn0 Hm) as (s' & T & E & HI & HT & HF). right.
    exists s', T, [], []. split_and!; try done; set_solver.
  - change 0 with (cptr []). destruct (rb_descend_ok (fuel_of s) s T [] (key n) HR HS) as [[-> Hx]|(K & HK & -> & HB)]; [by split; intros ? []%elem_of_nil|by apply height_fuel|by left|].
    right. simpl in HK. cbn [mbind option_bind]. rewrite <- HK in HR, Hs, Hrb, Hn |- *. rewrite inorder_plug in Hs, Hn |- *. simpl in Hs, Hn |- *.
    assert (HV : vacant s K n) by (split_and!; try done; by rewrite R_plug).
    destruct K as [|[d q c sib] k]; [by simpl in HK; subst|]. cbn [cptr]. destruct HB as [HB1 HB2], d.
    + rewrite (proj2 (Z.ltb_ge _ _)); [|assert (key q < key n); [|lia]; apply HB1; simpl; set_solver].
      destruct (insert_right_ok _ _ _ _ _ _ HV) as (s' & T' & -> & HI & HT & HF). exists s', T'. eexists _, _. eauto 10.
    + rewrite (proj2 (Z.ltb_lt _ _)); [|apply HB2; simpl; left].
      destruct (insert_left_ok _ _ _ _ _ _ HV) as (s' & T' & -> & HI & HT & HF). exists s', T'. eexists _, _. eauto 10.
Qed.

Lemma find_loop_ok fuel : forall s t K k, R s t K -> ksorted (inorder t) -> (height t <= fuel)%nat ->
  exists r, find_loop key fuel k (ptr t) s = Some r /\
    ((r ∈ inorder t /\ key r = k) \/ (r = 0 /\ forall x, x ∈ inorder t -> key x <> k)).
Proof.
  induction fuel as [|fuel IH]; intros s t K k HR HS Hh.
  - destruct t; simpl in *; [|lia]. exists 0. split; [done|]. right. split; [done|]. set_solver.
  - destruct t as [|l p c r].
    { exists 0. split; [done|]. right. split; [done|]. set_solver. }
    cbn [find_loop]. rewrite (ptr_leaf _ _ _ HR), bool_decide_eq_false_2 by done.
    destruct (read_ok s false l p c r K HR) as (h & Hh' & _ & _ & _ & C0 & C1 & _). cbn [ptr]. rewrite Hh'. cbn [mbind option_bind].
    simpl in C0, C1, Hh, HS. rewrite C0, C1. destruct (ksorted_app _ _ _ HS) as [HL HRi].
    assert (HSl : ksorted (inorder l)) by (eapply StronglySorted_app_1_l; exact HS).
    assert (HSr : ksorted (inorder r)) by (apply StronglySorted_app_1_r in HS; by apply StronglySorted_inv in HS as [? _]).
    cbn [inorder]. setoid_rewrite elem_of_app. setoid_rewrite elem_of_cons.
    destruct (k <? key p) eqn:E1; [|rewrite Z.gtb_ltb; destruct (key p <? k) eqn:E2].
    + apply Z.ltb_lt in E1. destruct (IH s l (Fr false p c r :: K) k) as (x & Hx & Hc); [by apply R_up|done|lia|].
      exists x. split; [done|]. destruct Hc as [[? ?]|[-> Hc]]; [by left; auto|]. right. split; [done|].
      intros y [Hy|[->|Hy]]; [auto|lia|]. specialize (HRi y Hy). lia.
    + apply Z.ltb_lt in E2. destruct (IH s r (Fr true p c l :: K) k) as (x & Hx & Hc); [by apply R_up|done|lia|].
      exists x. split; [done|]. destruct Hc as [[? ?]|[-> Hc]]; [by left; auto|]. right. split; [done|].
      intros y [Hy|[->|Hy]]; [|lia|auto]. specialize (HL y Hy). lia.
    + apply Z.ltb_ge in E1, E2. exists p. split; [done|]. left. split; [auto|lia].
Qed.

End Keys.

(** ** Removal *)

(** A list without one of its elements. *)
Definition without (n : Z) (l : list Z) : list Z := filter (fun x => x <> n) l.

Lemma without_none n l : n ∉ l -> without n l = l.
Proof.
  unfold without. induction l as [|a l IH]; [done|]. rewrite not_elem_of_cons. intros [? ?].
  rewrite filter_cons_True by done. by rewrite IH.
Qed.

Lemma without_mid n l1 l2 : NoDup (l1 ++ n :: l2) -> without n (l1 ++ n :: l2) = l1 ++ l2.
Proof.
  intros (_ & D & [Hn _]%NoDup_cons)%NoDup_app. unfold without. rewrite filter_app, filter_cons_False by (intros H; by apply H).
  fold (without n l1) (without n l2). rewrite !without_none; [done|done|]. intros Hx. apply (D n Hx). left.
Qed.

Lemma mid_unique (n : Z) l1 l2 l1' l2' : NoDup (l1' ++ n :: l2') -> l1 ++ n :: l2 = l1' ++ n :: l2' -> l1 = l1' /\ l2 = l2'.
Proof.
  revert l1. induction l1' as [|a l1' IH]; intros [|b l1]; simpl; intros [Ha ND]%NoDup_cons E; simplify_eq; [done| | |].
  - exfalso. apply Ha, elem_of_app. right. left.
  - exfalso. apply Ha, elem_of_app. right. left.
  - destruct (IH l1 ND ltac:(assumption)) as [-> ->]. done.
Qed.

(** The nodes before and behind a node with one child. *)
Lemma half_split d n c t k : exists l1 l2, inorder (plug k (nd d Leaf n c t)) = l1 ++ n :: l2 /\
  inorder (plug k t) = l1 ++ l2.
Proof.
  rewrite !inorder_plug. destruct d; simpl.
  - exists (cl k ++ inorder t), (cr k). by rewrite <- !(assoc_L app).
  - by exists (cl k), (inorder t ++ cr k).
Qed.

Lemma half_without d n c t k : NoDup (inorder (plug k (nd d Leaf n c t))) ->
  inorder (plug k t) = without n (inorder (plug k (nd d Leaf n c t))).
Proof. destruct (half_split d n c t k) as (l1 & l2 & E1 & E2). rewrite E1, E2. intros ND. by rewrite without_mid. Qed.

(** The colours after the black height of the place has been repaired. *)
Lemma half_leaf_fix s d n c t k h : R s (nd d Leaf n c t) k -> rb (plug k (nd d Leaf n c t)) -> hook n s = Some h ->
  exists s' t' k', (if color h =? 0 then
         red ← is_red (ptr t) s;
         if red : bool then set (ptr t) (with_color 0) s else fix_remove (fuel_of s) n s
       else Some s) = Some s' /\
    At (inorder (plug k (nd d Leaf n c t))) (mem s) s' (nd d Leaf n c t') k' /\ ptr t' = ptr t /\ rb (plug k' t').
Proof.
  intros HR Hrb Hh. destruct (read_ok _ _ _ _ _ _ _ HR) as (h' & Hh' & _ & _ & _ & _ & _ & Cc).
  rewrite Hh in Hh'. injection Hh' as <-. rewrite Cc. destruct (unplug_rb _ _ Hrb) as (H & Hk & Hb & Hc).
  apply bal_nd in Hb. rewrite root_col_nd in Hc.
  assert (HA : At (inorder (plug k (nd d Leaf n c t))) (mem s) s (nd d Leaf n c t) k) by (by apply At_start). destruct c.
  - change (colz Black =? 0) with true. cbn iota. destruct Hb as (m & -> & Hm & Ht). simpl in Hm. subst m.
    pose proof HR as HT. rewrite nd_flip, <- R_up in HT. rewrite (is_red_ok _ _ _ HT). cbn [mbind option_bind].
    destruct t as [|tl tp [] tr].
    + rewrite bool_decide_eq_false_2 by done.
      destruct (fix_remove_ok _ _ (fuel_of s) s d Leaf n Leaf k 0%nat ltac:(by eapply length_context; [exact HR|destruct d]) HA Hk)
        as (s' & k' & -> & HA' & Hk'). exists s', Leaf, k'. split_and!; [done|done|done|]. apply (plug_rb _ _ 0); [done|done|by left].
    + by destruct Ht as (? & ? & _).
    + rewrite bool_decide_eq_true_2 by done. cbn [ptr]. rewrite nd_flip, <- At_up in HA.
      destruct (At_black _ _ s false tl tp Red tr _ HA) as (s' & -> & HA'). rewrite At_up, <- 2!nd_flip in HA'.
      exists s', (Node tl tp Black tr), k. split_and!; [done|done|done|].
      apply (plug_rb _ _ 1); [done| |by left]. destruct Ht as (? & ? & _). simpl. eauto.
  - change (colz Red =? 0) with false. cbn iota. destruct Hb as (Hm & Ht & _ & Ct). simpl in Hm. subst H.
    exists s, t, k. split_and!; try done. apply (plug_rb _ _ 0); [done|done|by left].
Qed.

Lemma remove_half_leaf_ok s d n c t k : Inv s (plug k (nd d Leaf n c t)) ->
  exists s' T, remove_half_leaf n (ptr t) s = Some s' /\ Inv s' T /\
    inorder T = without n (inorder (plug k (nd d Leaf n c t))) /\ is_Some (mem s' !! n) /\
    frame_out (inorder (plug k (nd d Leaf n c t))) (mem s) (mem s').
Proof.
  intros (HR & Hrb & Hs). apply R_plug in HR. assert (ND : NoDup (inorder (plug k (nd d Leaf n c t)))) by apply HR.
  set (L := inorder (plug k (nd d Leaf n c t))) in *.
  destruct (half_split d n c t k) as (l1 & l2 & EL & E12). fold L in EL.
  destruct (read_ok _ _ _ _ _ _ _ HR) as (h & Hh & Hm & Hn0 & _).
  assert (H0 : 0 ∉ L) by (intros H0; by apply (R_dom _ _ _ _ HR) in H0 as [? _]).
  rewrite EL in ND, H0, Hs. rewrite elem_of_app, elem_of_cons in H0.
  pose proof (without_mid _ _ _ ND) as HW. apply NoDup_app in ND as (ND1 & D & [Hn2 ND2]%NoDup_cons).
  setoid_rewrite elem_of_cons in D. assert (Hn1 : n ∉ l1) by (intros Hx; apply (D n Hx); auto).
  apply seg_app in Hs as [Hs1 [Hn Hs2]]. rewrite Hm in Hn. simpl in Hn. injection Hn as Hp Hsu.
  destruct (set_successor_ok s 0 l1 _ (hd 0 l2) Hs1 ND1) as (s1 & E1 & Hr1 & Hs1' & L1); [tauto|].
  assert (Hs2' : seg (mem s1) n l2 0).
  { eapply seg_out; [exact L1| |done]. intros x Hx Hx'. apply (D x Hx'). auto. }
  destruct (set_predecessor_ok s1 _ l2 0 (lst 0 l1) Hs2' ND2) as (s2 & E2 & Hr2 & Hs2'' & L2); [tauto|].
  assert (HR2 : R s2 (nd d Leaf n c t) k).
  { eapply R_relinks; [exact L2|done|]. by eapply R_relinks. }
  assert (HS2 : seg (mem s2) 0 (l1 ++ l2) 0).
  { apply seg_app. split; [|done]. eapply seg_out; [exact L2| |done]. intros x Hx Hx'. apply (D x Hx). auto. }
  destruct (read_ok _ _ _ _ _ _ _ HR2) as (h2 & Hh2 & _).
  destruct (half_leaf_fix s2 d n c t k h2 HR2 Hrb Hh2) as (s3 & t' & k' & E3 & (HR3 & HL3 & K3) & Pt & Hrb').
  fold L in HL3, K3.
  destruct (read_ok _ _ _ _ _ _ _ HR3) as (h3 & Hh3 & _ & _ & P3 & C3 & C3' & _).
  destruct (rb_unlink_ok _ _ _ _ _ _ HR3) as (s4 & s5 & s6 & E4 & E5 & E6 & HR6 & Hl6 & [h6 Hm6] & F6).
  exists s6, (plug k' t'). assert (ET : inorder (plug k' t') = without n L).
  { rewrite (half_without d n c); [by rewrite HL3|]. apply HR3. }
  split_and!; [|split_and!|done|by exists h6|].
  - unfold remove_half_leaf. rewrite Hh. cbn [mbind option_bind]. rewrite Hp, Hsu, E1. cbn [mbind option_bind].
    rewrite E2. cbn [mbind option_bind]. rewrite Hh2. cbn [mbind option_bind]. rewrite E3. cbn [mbind option_bind].
    rewrite Hh3. cbn [mbind option_bind]. rewrite Pt in C3', E4, E5.
    replace (assert _) with (Some tt); [|destruct d; simpl in C3, C3'; rewrite C3, C3', !Z.eqb_refl; by rewrite ?orb_true_r].
    cbn [mbind option_bind]. rewrite P3, E4. cbn [mbind option_bind]. rewrite E5. cbn [mbind option_bind]. exact E6.
  - by apply R_plug in HR6.
  - done.
  - rewrite ET, EL, HW. apply (seg_frame (mem s2)); [|done]. intros x Hx. rewrite Hl6.
    + apply K3.
    + intros ->. rewrite elem_of_app in Hx. tauto.
  - rewrite HL3 in F6. eapply frame_trans; [|exact F6]. eapply frame_trans; [|by apply keeps_frame].
    rewrite EL. eapply frame_trans; eapply frame_sub; [|by apply relinks_frame| |by apply relinks_frame]; clear; set_solver.
Qed.

Lemma replace_node_ok s l n c r k rep : Inv s (plug k (Node l n c r)) -> rep ∉ inorder (plug k (Node l n c r)) ->
  rep <> 0 -> is_Some (mem s !! rep) ->
  exists s', replace_node n rep s = Some s' /\ Inv s' (plug k (Node l rep c r)) /\
    frame_out (rep :: inorder (plug k (Node l n c r))) (mem s) (mem s').
Proof.
  intros (HR & Hrb & Hs) Hrep Hrep0 Hmr. apply R_plug in HR.
  destruct (read_ok s false l n c r k HR) as (h & Hh & Hm & Hn0 & P & C0 & C1 & _).
  destruct (replace_ok s l n c r k rep h HR Hrep Hrep0 Hmr Hm)
    as (s1 & s2 & hr & s3 & s4 & E1 & Hh1 & Hhr & E2 & E3 & E4 & HR4 & Hm4 & Hl4 & F4).
  set (l1 := cl k ++ inorder l). set (l2 := inorder r ++ cr k).
  assert (EL : forall p, inorder (plug k (Node l p c r)) = l1 ++ p :: l2).
  { intros p. rewrite inorder_plug. simpl. unfold l1, l2. by rewrite <- !(assoc_L app). }
  assert (NDn : NoDup (inorder (plug k (Node l n c r)))) by apply HR.
  assert (NDr : NoDup (inorder (plug k (Node l rep c r)))) by apply HR4.
  assert (H0 : 0 ∉ inorder (plug k (Node l n c r))) by (intros H0; by apply (R_dom _ _ _ _ HR) in H0 as [? _]).
  rewrite EL in *. rewrite <- Permutation_middle in NDn, NDr.
  apply NoDup_cons in NDn as [Hn ND], NDr as [Hr _]. rewrite elem_of_app, elem_of_cons in Hrep, H0. rewrite elem_of_app in Hn, Hr.
  assert (Hs4 : seg (mem s4) 0 (l1 ++ n :: l2) 0) by (apply (seg_frame (mem s)); [intros; apply Hl4|done]).
  apply seg_app in Hs4 as [Hs41 [Hsn Hs42]]. rewrite Hm4 in Hsn. simpl in Hsn. injection Hsn as Hp Hsu.
  assert (Hhr4 : is_Some (mem s4 !! rep)).
  { destruct (R_dom s4 _ k rep HR4) as [_ ?]; [|done]. rewrite EL. apply elem_of_app. right. left. }
  destruct (links_left s4 rep l1 l2) as (s5 & s6 & s7 & s8 & E5 & E6 & E7 & E8 & (Hroot8 & Hs8 & L8) & L5).
  { split_and!; eauto; rewrite elem_of_app; tauto. }
  assert (Hm5 : mem s5 !! n = Some h) by (by rewrite (proj1 (L5 n)) by tauto).
  assert (Hm8 : mem s8 !! n = Some h).
  { rewrite (proj1 (L8 n)); [done|]. rewrite elem_of_app, elem_of_cons. intros [?|[->|?]]; [tauto| |tauto].
    apply Hrep. right. by left. }
  exists (mkTree (root s8) (<[n := clear h]> (mem s8))). split; [|split].
  - unfold replace_node. rewrite Hh. cbn [mbind option_bind]. rewrite P, E1. cbn [mbind option_bind].
    rewrite (replace_writes s1 rep hr (cptr k) h n (child0 h) (child1 h)); [|intros ->; apply Hrep; right; by left|done|done|done].
    simpl in C0, C1. rewrite C0, C1, <- E2, E3. cbn [mbind option_bind]. rewrite E4. cbn [mbind option_bind].
    rewrite (hook_ok s4 n h Hn0 Hm4). cbn [mbind option_bind]. rewrite Hp, E5. cbn [mbind option_bind].
    rewrite (hook_ok s5 n h Hn0 Hm5). cbn [mbind option_bind]. rewrite Hp, E6. cbn [mbind option_bind]. rewrite Hsu, E7.
    cbn [mbind option_bind]. rewrite E8. cbn [mbind option_bind]. exact (set_ok _ _ _ _ (hook_ok s8 n h Hn0 Hm8)).
  - apply (Inv_frame s8); [done| |split_and!].
    + intros x Hx. apply lookup_insert_ne. intros ->. rewrite EL, elem_of_app, elem_of_cons in Hx.
      destruct Hx as [?|[->|?]]; [tauto| |tauto]. apply Hrep. right. by left.
    + rewrite <- R_plug. eapply R_relinks; [exact L8|done|done].
    + by eapply rb_rename.
    + by rewrite EL.
  - intros x. rewrite elem_of_cons, elem_of_app, elem_of_cons. intros Hx. simpl. rewrite lookup_insert_ne by naive_solver.
    rewrite (proj1 (L8 x)) by (rewrite elem_of_app, elem_of_cons; tauto).
    apply F4. rewrite elem_of_cons, elem_of_app, elem_of_cons. tauto.
Qed.

Lemma rb_remove_ok s T n : Inv s T -> n ∈ inorder T ->
  exists s' T', remove n s = Some s' /\ Inv s' T' /\ inorder T' = without n (inorder T) /\
    frame_out (inorder T) (mem s) (mem s').
Proof.
  intros HI Hn. destruct (focus T n Hn) as (k & l & c & r & ->). pose proof HI as (HR & _ & Hs). apply R_plug in HR.
  assert (ND : NoDup (inorder (plug k (Node l n c r)))) by apply HR.
  destruct (read_ok s false l n c r k HR) as (h & Hh & Hm & Hn0 & _ & C0 & C1 & _). simpl in C0, C1.
  pose proof (ptr_leaf s l (Fr false n c r :: k) (proj2 (R_up s false l n c r k) HR)) as Pl.
  pose proof (ptr_leaf s r (Fr true n c l :: k) (proj2 (R_up s true r n c l k) HR)) as Pr.
  unfold remove. rewrite Hh. cbn [mbind option_bind]. rewrite C0, C1, Pl, Pr.
  destruct (decide (l = Leaf)) as [El|El]; [rewrite (bool_decide_eq_true_2 _ El)|rewrite (bool_decide_eq_false_2 _ El);
    destruct (decide (r = Leaf)) as [Er|Er]; [rewrite (bool_decide_eq_true_2 _ Er)|rewrite (bool_decide_eq_false_2 _ Er)]].
  - subst l. destruct (remove_half_leaf_ok s false n c r k HI) as (s' & T' & -> & HI' & HT & _ & HF). eauto 10.
  - subst r. destruct (remove_half_leaf_ok s true n c l k HI) as (s' & T' & -> & HI' & HT & _ & HF). eauto 10.
  - destruct (focus_last l El) as (k1 & l' & p & c' & E & Hcr & Hlast).
    set (l1 := cl k ++ cl k1 ++ inorder l'). set (l2 := inorder r ++ cr k).
    assert (ET : plug k (Node l n c r) = plug (k1 ++ Fr false n c r :: k) (nd true Leaf p c' l')) by (by rewrite plug_app; simpl; rewrite E).
    assert (EL : inorder (plug k (Node l n c r)) = l1 ++ p :: n :: l2).
    { rewrite inorder_plug. simpl. rewrite E, inorder_plug. simpl. rewrite Hcr. unfold l1, l2. by rewrite app_nil_r, <- !(assoc_L app). }
    assert (Hpred : predecessor h = p).
    { rewrite EL in Hs. apply seg_app in Hs as [_ [_ [Hs _]]]. rewrite Hm in Hs. simpl in Hs. by injection Hs. }
    rewrite Hpred. rewrite ET in HI. pose proof HI as (HRp & _). apply R_plug in HRp.
    destruct (read_ok _ _ _ _ _ _ _ HRp) as (hp & Hhp & _ & Hp0 & _ & _ & Cp & _). rewrite Hhp. cbn [mbind option_bind].
    simpl in Cp. rewrite Cp.
    destruct (remove_half_leaf_ok s true p c' l' _ HI) as (s1 & T1 & -> & HI1 & HT1 & Hmp & HF1). cbn [mbind option_bind].
    rewrite <- ET in HT1, HF1. rewrite EL in ND. rewrite EL, without_mid in HT1 by done.
    destruct (focus T1 n) as (k2 & l3 & c2 & r3 & ->); [rewrite HT1; apply elem_of_app; right; left|].
    assert (Hpn : p ∉ l1 ++ n :: l2).
    { rewrite <- Permutation_middle in ND. by apply NoDup_cons in ND as [? _]. }
    destruct (replace_node_ok s1 l3 n c2 r3 k2 p HI1) as (s2 & -> & HI2 & HF2); [by rewrite HT1|done|done|].
    exists s2. eexists. split_and!; [done|exact HI2| |].
    + rewrite EL. replace (l1 ++ p :: n :: l2) with ((l1 ++ [p]) ++ n :: l2) in ND |- * by (by rewrite <- (assoc_L app)).
      rewrite without_mid, <- (assoc_L app) by done. simpl. rewrite inorder_plug in HT1 |- *. simpl in HT1 |- *.
      rewrite <- !(assoc_L app), (assoc_L app) in HT1 |- *. rewrite <- !app_comm_cons in HT1 |- *.
      apply mid_unique in HT1 as [-> ->]; [done|]. rewrite <- (assoc_L app) in ND. simpl in ND.
      apply NoDup_app in ND as (N1 & D & [_ N2]%NoDup_cons). apply NoDup_app. split_and!; [done| |done].
      intros x Hx Hx'. apply (D x Hx). by right.
    + rewrite EL in HF1 |- *. eapply frame_trans; [exact HF1|]. eapply frame_sub; [|exact HF2]. rewrite HT1. clear. set_solver.
Qed.

(** ** Iteration *)

Lemma last_child_ok fuel d : forall s t K, R s t K -> t <> Leaf -> (height t <= fuel)%nat ->
  last_child fuel d (ptr t) s = Some (if d then lst 0 (inorder t) else hd 0 (inorder t)).
Proof.
  induction fuel as [|fuel IH]; intros s t K HR Ht Hh; [destruct t; simpl in *; [done|lia]|].
  destruct t as [|l p c r]; [done|]. destruct (nd_side d false l p c r) as (x & y & E). simpl in E. rewrite E in *.
  destruct (read_ok _ _ _ _ _ _ _ HR) as (h & Hh' & _ & _ & _ & Cd & _). rewrite ptr_nd. cbn [last_child].
  rewrite Hh'. cbn [mbind option_bind]. rewrite Cd. pose proof HR as HX. rewrite <- R_up in HX.
  rewrite (ptr_leaf _ _ _ HX). destruct (decide (x = Leaf)) as [->|Hx].
  - rewrite bool_decide_eq_true_2 by done. destruct d; simpl; [by rewrite lst_snoc|done].
  - rewrite (bool_decide_eq_false_2 _ Hx), (IH s x _ HX Hx); [|destruct d; simpl in Hh; lia].
    destruct d; simpl.
    + unfold lst. rewrite last_app_cons, last_cons. destruct (last (inorder x)) eqn:El; [done|].
      apply last_None in El. destruct x; [done|]. simpl in El. by destruct (inorder x1).
    + destruct x; [done|]. simpl. by destruct (inorder x1).
Qed.

Lemma seg_at m a l1 x l2 z : seg m a (l1 ++ x :: l2) z -> lnk <$> m !! x = Some (lst a l1, hd z l2).
Proof. intros [_ [H _]]%seg_app. done. Qed.

(** ** The tree as a list *)

(** The nodes of the tree in order. *)
Definition is_tree (s : tree) (l : list Z) : Prop := exists T, Inv s T /\ inorder T = l.

Fixpoint insert_sorted (key : Z -> Z) (n : Z) (l : list Z) : list Z :=
  match l with
  | [] => [n]
  | x :: l => if key n <? key x then n :: x :: l else x :: insert_sorted key n l
  end.

Lemma insert_sorted_at key n l1 l2 : (forall x, x ∈ l1 -> key x < key n) -> (forall x, x ∈ l2 -> key n < key x) ->
  insert_sorted key n (l1 ++ l2) = l1 ++ n :: l2.
Proof.
  intros H1 H2. induction l1 as [|a l1 IH]; simpl.
  - destruct l2 as [|b l2]; [done|]. simpl. rewrite (proj2 (Z.ltb_lt _ _)); [done|]. apply H2. left.
  - rewrite (proj2 (Z.ltb_ge _ _)); [|assert (key a < key n); [|lia]; apply H1; left]. rewrite IH; [done|]. intros x Hx.
    apply H1. by right.
Qed.

Lemma insert_sorted_sorted key n l : ksorted key l -> (forall x, x ∈ l -> key x <> key n) -> ksorted key (insert_sorted key n l).
Proof.
  intros HS. induction HS as [|a l HS IH Ha]; intros Hn; simpl; [repeat constructor|]. rewrite Forall_forall in Ha.
  destruct (key n <? key a) eqn:E.
  - apply Z.ltb_lt in E. constructor; [by constructor; [|apply Forall_forall]|].
    apply Forall_forall. intros x [->|Hx]%elem_of_cons; [done|]. specialize (Ha x Hx). lia.
  - apply Z.ltb_ge in E. specialize (Hn a ltac:(left)) as Hna. constructor; [apply IH; intros; apply Hn; by right|].
    apply Forall_forall. intros x Hx. assert (Hx' : x = n \/ x ∈ l); [|destruct Hx' as [->|?]; [lia|auto]].
    clear -Hx. induction l as [|b l IH]; simpl in Hx; [set_solver|]. destruct (key n <? key b); set_solver.
Qed.

Lemma is_tree_empty m : is_tree (mkTree 0 m) [].
Proof.
  exists Leaf. split_and!; [split_and!|done]; try done.
  - split_and!; try done. constructor.
  - split; [done|]. by exists 0%nat.
Qed.

(** C20: Inserting a node that exists and is not in the tree puts it at its place in
    key order, and keeps the tree balanced and the order links complete; a
    duplicate key fails the assertion.  No other node's hook changes. *)
Theorem rb_insert_correct (key : Z -> Z) (n : Z) (s : tree) (l : list Z) :
  is_tree s l -> ksorted key l -> n <> 0 -> n ∉ l -> is_Some (mem s !! n) ->
  (insert key n s = None /\ exists x, x ∈ l /\ key x = key n) \/
  (exists s', insert key n s = Some s' /\ is_tree s' (insert_sorted key n l) /\ ksorted key (insert_sorted key n l) /\
     forall x, x <> n -> x ∉ l -> mem s' !! x = mem s !! x).
Proof.
  intros (T & HI & <-) HS Hn0 Hn Hm.
  destruct (rb_insert_ok key s T n HI HS Hn0 Hn Hm) as [?|(s' & T' & l1 & l2 & E & HI' & ET & ET' & H1 & H2 & HF)]; [by left|].
  right. exists s'. rewrite ET, insert_sorted_at, <- ET' by done. split_and!; [done|by exists T'| |].
  - rewrite ET', <- (insert_sorted_at key) by done. apply insert_sorted_sorted; [by rewrite <- ET|].
    intros x [Hx|Hx]%elem_of_app; [specialize (H1 x Hx)|specialize (H2 x Hx)]; lia.
  - intros x Hx Hx'. apply HF. rewrite ET'. rewrite elem_of_app in Hx'. rewrite elem_of_app, elem_of_cons. tauto.
Qed.

(** C21: Removing a node of the tree always runs through, takes exactly that node out
    and keeps the others in order, balanced and linked.  No hook outside the tree
    changes. *)
Theorem rb_remove_correct (n : Z) (s : tree) (l : list Z) : is_tree s l -> n ∈ l ->
  exists s', remove n s = Some s' /\ is_tree s' (without n l) /\ forall x, x ∉ l -> mem s' !! x = mem s !! x.
Proof.
  intros (T & HI & <-) Hn. destruct (rb_remove_ok s T n HI Hn) as (s' & T' & E & HI' & ET & HF).
  exists s'. split_and!; [done|by exists T'|done].
Qed.

(** C27: Lookup finds the node with the key and null when there is none, and visits
    at most [2 * log2 (n + 1)] of [n] nodes. *)
Theorem rb_find_correct (key : Z -> Z) (k : Z) (s : tree) (l : list Z) : is_tree s l -> ksorted key l ->
  exists r, find key k s = Some r /\ find_loop key (2 * Nat.log2 (S (length l))) k (get_root s) s = Some r /\
    ((r ∈ l /\ key r = k) \/ (r = 0 /\ forall x, x ∈ l -> key x <> k)).
Proof.
  intros (T & (HR & Hrb & _) & <-) HS. unfold find, get_root. assert (Hroot : root s = ptr T) by apply HR. rewrite Hroot.
  destruct (find_loop_ok key (2 * Nat.log2 (S (length (inorder T)))) s T [] k HR HS (height_log T Hrb)) as (r & E & Hr).
  exists r. split_and!; [|done|done].
  destruct (find_loop_ok key (fuel_of s) s T [] k HR HS (height_fuel s T HR)) as (r' & E' & Hr'). rewrite E'. f_equal.
  destruct Hr as [[Hr Hk]|[-> Hr]], Hr' as [[Hr' Hk']|[-> Hr']]; try done; [|by destruct (Hr' r)|by destruct (Hr r')].
  apply list_elem_of_lookup in Hr as [i Hi], Hr' as [j Hj].
  destruct (decide (i = j)) as [->|N]; [congruence|]. exfalso.
  assert (Hlt : forall i j a b, inorder T !! i = Some a -> inorder T !! j = Some b -> (i < j)%nat -> key a < key b).
  { clear -HS. intros i j a b Hi Hj Hij. rewrite <- (take_drop (S i) (inorder T)) in HS.
    eapply (StronglySorted_app_1_elem_of (fun a b => key a < key b)); [exact HS| |].
    - apply list_elem_of_lookup. exists i. rewrite lookup_take_lt by lia. done.
    - apply list_elem_of_lookup. exists (j - S i)%nat. rewrite lookup_drop. by replace (S i + (j - S i))%nat with j by lia. }
  destruct (decide (i < j)%nat); [specialize (Hlt i j r r' Hi Hj ltac:(lia))|specialize (Hlt j i r' r Hj Hi ltac:(lia))]; lia.
Qed.

(** Iteration visits the nodes in key order: the first, the last and each node's
    neighbours are those of the list. *)
Theorem rb_iteration_correct (s : tree) (l : list Z) : is_tree s l ->
  get_first s = Some (hd 0 l) /\ get_last s = Some (lst 0 l) /\
  forall l1 x l2, l = l1 ++ x :: l2 ->
    get_predecessor x s = Some (lst 0 l1) /\ get_successor x s = Some (hd 0 l2).
Proof.
  intros (T & (HR & _ & Hs) & <-). assert (Hroot : root s = ptr T) by apply HR. split_and!.
  - unfold get_first. rewrite Hroot, (ptr_leaf _ _ _ HR). case_bool_decide as E; [by subst|].
    change (S (size (mem s))) with (fuel_of s). by rewrite (last_child_ok _ false s T [] HR E (height_fuel s T HR)).
  - unfold get_last. rewrite Hroot, (ptr_leaf _ _ _ HR). case_bool_decide as E; [by subst|].
    change (S (size (mem s))) with (fuel_of s). by rewrite (last_child_ok _ true s T [] HR E (height_fuel s T HR)).
  - intros l1 x l2 E. rewrite E in Hs. apply seg_at in Hs. destruct (mem s !! x) as [h|] eqn:Hx; [|done].
    simpl in Hs. injection Hs as H1 H2. assert (H0 : x <> 0).
    { apply (R_dom s T [] x HR). simpl. rewrite E. apply elem_of_app. right. left. }
    unfold get_predecessor, get_successor. rewrite (hook_ok _ _ _ H0 Hx). simpl. by rewrite H1, H2.
Qed.

(** ** A concrete tree *)

Definition demo_key (x : Z) : Z := 10 * x.

(** Nodes 1, 2 and 3 in the tree, 4 not yet. *)
Definition demo : tree := mkTree 2 (list_to_map
  [(1, mkHook 2 0 0 0 2 1); (2, mkHook 0 1 3 1 3 0); (3, mkHook 2 0 0 2 0 1); (4, empty_hook)]).

Lemma demo_is_tree : is_tree demo [1; 2; 3].
Proof.
  exists (Node (Node Leaf 1 Red Leaf) 2 Black (Node Leaf 3 Red Leaf)). split; [split_and!|done].
  - split_and!; simpl; try done; [|by apply (bool_decide_unpack _)].
    split_and!; try done; (split; [done|eexists _, _; reflexivity]).
  - split; [done|]. exists 1%nat. simpl. eauto 10.
  - simpl. split_and!; reflexivity.
Qed.

Lemma demo_sorted : ksorted demo_key [1; 2; 3].
Proof. unfold ksorted. repeat constructor; reflexivity. Qed.

Lemma rb_insert_witness : exists s', insert demo_key 4 demo = Some s' /\ is_tree s' [1; 2; 3; 4].
Proof.
  destruct (rb_insert_correct demo_key 4 demo [1; 2; 3] demo_is_tree demo_sorted) as [[H _]|(s' & E & HT & _)].
  - done.
  - by apply (bool_decide_unpack _).
  - by exists empty_hook.
  - vm_compute in H. discriminate H.
  - exists s'. split; [exact E|exact HT].
Defined.

Lemma rb_remove_witness : exists s', remove 2 demo = Some s' /\ is_tree s' [1; 3].
Proof.
  destruct (rb_remove_correct 2 demo [1; 2; 3] demo_is_tree) as (s' & E & HT & _).
  - right. left.
  - exists s'. split; [exact E|exact HT].
Defined.

Lemma rb_find_witness : find demo_key 30 demo = Some 3.
Proof.
  destruct (rb_find_correct demo_key 30 demo [1; 2; 3] demo_is_tree demo_sorted) as (r & E & _ & [[Hr Hk]|[_ Hr]]).
  - rewrite E. unfold demo_key in Hk. f_equal. lia.
  - destruct (Hr 3); [right; right; left|reflexivity].
Defined.

Lemma rb_iteration_witness : get_first demo = Some 1 /\ get_last demo = Some 3 /\ get_successor 2 demo = Some 3.
Proof.
  destruct (rb_iteration_correct demo [1; 2; 3] demo_is_tree) as (H1 & H2 & H3).
  split_and!; [exact H1|exact H2|exact (proj2 (H3 [1] 2 [3] eq_refl))].
Defined.

End RbTreeRun.
