(* ===== verification/StringView.v ===== *)
(** * String views (src/src/std/string_view.hpp)

    A [basic_string_view] is modelled by the characters it spans, as their codes;
    positions are 64-bit values and [npos] is the largest of them.  Reading past
    the view is [None]. *)

From S2P Require Import Prelude.

Module StringView.

Definition npos : Z := 2 ^ 64 - 1.

Notation view := (list Z) (only parsing).

Definition size (v : list Z) : Z := Z.of_nat (length v).
Definition is_empty (v : list Z) : bool := size v =? 0.

(** [operator[]] *)
Definition at_ (v : list Z) (index : Z) : option Z := v !! Z.to_nat index.

(** The part [{_ptr + pos, n}] of a view. *)
Definition slice (v : list Z) (pos n : Z) : list Z := take (Z.to_nat n) (drop (Z.to_nat pos) v).

(** The loop of [operator==] over two views of the same length. *)
Fixpoint eq_loop (a b : list Z) : bool :=
  match a, b with
  | x :: a, y :: b => if x =? y then eq_loop a b else false
  | _, _ => true
  end.
Definition sv_eqb (a b : list Z) : bool := if negb (size a =? size b) then false else eq_loop a b.

Definition starts_with (v str : list Z) : bool := sv_eqb (slice v 0 (Z.min (size v) (size str))) str.
Definition starts_with_char (v : list Z) (c : Z) : bool :=
  negb (is_empty v) && bool_decide (at_ v 0 = Some c).
Definition ends_with (v str : list Z) : bool :=
  (size v >=? size str) && sv_eqb (slice v (size v - size str) (size str)) str.
Definition ends_with_char (v : list Z) (c : Z) : bool :=
  negb (is_empty v) && bool_decide (at_ v (size v - 1) = Some c).

(** The view after and the returned flag. *)
Definition remove_prefix (v prefix : list Z) : bool * list Z :=
  if starts_with v prefix then (true, drop (length prefix) v) else (false, v).
Definition remove_suffix (v suffix : list Z) : bool * list Z :=
  if ends_with v suffix then (true, take (length v - length suffix) v) else (false, v).

Definition substr (v : list Z) (pos count : Z) : list Z :=
  let count := if count =? npos then size v ⊟ pos
               else if pos ⊞ count >? size v then 0 else count in
  slice v pos count.

(** [for (; pos <= last; ++pos)] and [for (; pos < _size; ++pos)], with a round
    of fuel per character. *)
Fixpoint find_loop (fuel : nat) (v str : list Z) (pos : Z) : Z :=
  match fuel with
  | O => npos
  | S fuel =>
      if pos <=? size v - size str then
        if sv_eqb (slice v pos (size str)) str then pos else find_loop fuel v str (pos + 1)
      else npos
  end.
Definition find (v str : list Z) (pos : Z) : Z :=
  if size v <? size str then npos else find_loop (S (length v)) v str pos.

Fixpoint find_char_loop (fuel : nat) (v : list Z) (c pos : Z) : Z :=
  match fuel with
  | O => npos
  | S fuel =>
      if pos <? size v then
        if bool_decide (at_ v pos = Some c) then pos else find_char_loop fuel v c (pos + 1)
      else npos
  end.
Definition find_char (v : list Z) (c pos : Z) : Z := find_char_loop (S (length v)) v c pos.

(** [while (true) { ...; if (!pos--) break; }] counts [pos] down to 0. *)
Fixpoint rfind_loop (pos : nat) (v str : list Z) : Z :=
  if sv_eqb (slice v (Z.of_nat pos) (size str)) str then Z.of_nat pos
  else match pos with
       | O => npos
       | S pos => rfind_loop pos v str
       end.
Definition rfind (v str : list Z) (pos : Z) : Z :=
  if size v <? size str then npos
  else if pos =? npos then rfind_loop (Z.to_nat (size v - size str)) v str
  else if pos >? size v - size str then npos
  else rfind_loop (Z.to_nat pos) v str.

Fixpoint rfind_char_loop (pos : nat) (v : list Z) (c : Z) : Z :=
  if bool_decide (v !! pos = Some c) then Z.of_nat pos
  else match pos with
       | O => npos
       | S pos => rfind_char_loop pos v c
       end.
Definition rfind_char (v : list Z) (c pos : Z) : Z :=
  if is_empty v then npos
  else if pos =? npos then rfind_char_loop (Z.to_nat (size v - 1)) v c
  else if pos >? size v - 1 then npos
  else rfind_char_loop (Z.to_nat pos) v c.

(** [const_strlen] of a C string in memory; [None] when no terminator follows. *)
Fixpoint const_strlen (mem : list Z) : option nat :=
  match mem with
  | [] => None
  | c :: mem => if c =? 0 then Some O else n ← const_strlen mem; Some (S n)
  end.
Definition of_cstr (mem : list Z) : option (list Z) := n ← const_strlen mem; Some (take n mem).

(** ** Lemmas *)

Lemma sv_eqb_spec a b : sv_eqb a b = true <-> a = b.
Proof.
  unfold sv_eqb, size. destruct (Z.eqb_spec (Z.of_nat (length a)) (Z.of_nat (length b))) as [Hl|Hl]; simpl.
  - apply Nat2Z.inj in Hl. revert b Hl. induction a as [|x a IH]; intros [|y b] Hl; simpl in *; try done.
    destruct (Z.eqb_spec x y) as [->|]; [|split; [done|congruence]].
    rewrite IH by lia. split; congruence.
  - split; [done|]. intros ->. done.
Qed.

Lemma sv_eqb_refl a : sv_eqb a a = true.
Proof. by apply sv_eqb_spec. Qed.

Lemma length_slice v pos n : 0 <= pos -> 0 <= n -> pos + n <= size v -> size (slice v pos n) = n.
Proof. intros. unfold slice, size in *. rewrite length_take, length_drop. lia. Qed.

Lemma starts_with_spec v str : starts_with v str = true <-> str `prefix_of` v.
Proof.
  unfold starts_with. rewrite sv_eqb_spec. unfold slice, size. split.
  - intros Heq. exists (drop (Z.to_nat (Z.min (Z.of_nat (length v)) (Z.of_nat (length str)))) v).
    rewrite <- Heq at 1. rewrite drop_0. symmetry. apply take_drop.
  - intros [k ->]. rewrite length_app. rewrite drop_0. rewrite Z.min_r by lia.
    by rewrite Nat2Z.id, take_app_length.
Qed.

Lemma ends_with_spec v str : ends_with v str = true <-> str `suffix_of` v.
Proof.
  unfold ends_with. rewrite andb_true_iff, sv_eqb_spec. unfold slice, size. split.
  - intros [Hle Heq]. rewrite Z.geb_leb in Hle. apply Z.leb_le in Hle.
    exists (take (length v - length str) v). rewrite <- Heq at 2.
    rewrite (take_ge (drop _ _)); [|rewrite length_drop; lia].
    replace (Z.to_nat (Z.of_nat (length v) - Z.of_nat (length str))) with (length v - length str)%nat by lia.
    symmetry. apply take_drop.
  - intros [k ->]. rewrite length_app. split; [rewrite Z.geb_leb; apply Z.leb_le; lia|].
    replace (Z.to_nat _) with (length str) by lia.
    replace (Z.to_nat _) with (length k) by lia.
    by rewrite drop_app_length, firstn_all.
Qed.

(** [find(c, pos)]: the first position from [pos] on that holds [c]. *)
Lemma find_char_loop_spec fuel v c pos : size v < 2 ^ 63 -> 0 <= pos ->
  size v < pos + Z.of_nat fuel \/ size v <= pos -> (0 < fuel)%nat ->
  (find_char_loop fuel v c pos = npos /\ forall i, pos <= Z.of_nat i -> v !! i <> Some c) \/
  (exists i, find_char_loop fuel v c pos = Z.of_nat i /\ pos <= Z.of_nat i /\ v !! i = Some c /\
     forall j, pos <= Z.of_nat j -> (j < i)%nat -> v !! j <> Some c).
Proof.
  unfold size. intros Hv. revert pos. induction fuel as [|fuel IH]; intros pos Hp Hf Hpos; [lia|].
  cbn [find_char_loop]. unfold size. destruct (Z.ltb_spec pos (Z.of_nat (length v))).
  - case_bool_decide as Hc; unfold at_ in Hc.
    + right. exists (Z.to_nat pos). split_and!; [lia|lia|done|]. intros j. lia.
    + destruct (IH (pos + 1)) as [[-> Hn]|(i & -> & Hi & Hvi & Hmin)]; [lia..| |].
      * left. split; [done|]. intros i Hi. destruct (decide (Z.of_nat i = pos)) as [<-|].
        -- by rewrite Nat2Z.id in Hc.
        -- apply Hn. lia.
      * right. exists i. split_and!; [done|lia|done|]. intros j Hj Hji.
        destruct (decide (Z.of_nat j = pos)) as [<-|]; [by rewrite Nat2Z.id in Hc|].
        apply Hmin; lia.
  - left. split; [done|]. intros i Hi. rewrite lookup_ge_None_2; [done|lia].
Qed.

Lemma find_char_spec v c pos : size v < 2 ^ 63 -> 0 <= pos ->
  (find_char v c pos = npos /\ forall i, pos <= Z.of_nat i -> v !! i <> Some c) \/
  (exists i, find_char v c pos = Z.of_nat i /\ pos <= Z.of_nat i /\ v !! i = Some c /\
     forall j, pos <= Z.of_nat j -> (j < i)%nat -> v !! j <> Some c).
Proof. intros. apply find_char_loop_spec; unfold size in *; lia. Qed.

(** [rfind(c, pos)]: the last position up to [pos] that holds [c]. *)
Lemma rfind_char_loop_spec pos v c : (pos < length v)%nat -> size v < 2 ^ 63 ->
  (rfind_char_loop pos v c = npos /\ forall i, (i <= pos)%nat -> v !! i <> Some c) \/
  (exists i, rfind_char_loop pos v c = Z.of_nat i /\ (i <= pos)%nat /\ v !! i = Some c /\
     forall j, (i < j <= pos)%nat -> v !! j <> Some c).
Proof.
  intros Hp Hv. induction pos as [|pos IH]; cbn [rfind_char_loop]; case_bool_decide as Hc.
  - right. exists O. split_and!; [done|lia|done|lia].
  - left. split; [done|]. intros i Hi. by replace i with O by lia.
  - right. exists (S pos). split_and!; [done|lia|done|lia].
  - destruct IH as [[-> Hn]|(i & -> & Hi & Hvi & Hmax)]; [lia| |].
    + left. split; [done|]. intros i Hi. destruct (decide (i = S pos)) as [->|]; [done|apply Hn; lia].
    + right. exists i. split_and!; [done|lia|done|]. intros j Hj.
      destruct (decide (j = S pos)) as [->|]; [done|apply Hmax; lia].
Qed.

Lemma find_loop_spec fuel v str pos : size str <= size v < 2 ^ 63 -> 0 <= pos ->
  size v < pos + Z.of_nat fuel \/ size v < pos -> (0 < fuel)%nat ->
  (find_loop fuel v str pos = npos /\
     forall i, pos <= i <= size v - size str -> slice v i (size str) <> str) \/
  (exists i, find_loop fuel v str pos = i /\ pos <= i <= size v - size str /\
     slice v i (size str) = str /\ forall j, pos <= j < i -> slice v j (size str) <> str).
Proof.
  intros Hv. revert pos. induction fuel as [|fuel IH]; intros pos Hp Hf Hpos; [lia|].
  cbn [find_loop]. destruct (Z.leb_spec pos (size v - size str)).
  - destruct (sv_eqb (slice v pos (size str)) str) eqn:E.
    + apply sv_eqb_spec in E. right. exists pos. split_and!; (done || lia).
    + assert (Hne : slice v pos (size str) <> str) by (rewrite <- sv_eqb_spec; congruence).
      assert (1 <= size str).
      { destruct str; [by destruct Hne|]. unfold size. simpl. lia. }
      destruct (IH (pos + 1)) as [[-> Hn]|(i & -> & Hi & Hvi & Hmin)]; [lia..| |].
      * left. split; [done|]. intros i Hi. destruct (decide (i = pos)) as [->|]; [done|apply Hn; lia].
      * right. exists i. split_and!; try (done || lia). intros j Hj.
        destruct (decide (j = pos)) as [->|]; [done|apply Hmin; lia].
  - left. split; [done|]. intros i. lia.
Qed.

(** [find(str, pos)] terminates and returns the first position from [pos] on
    where [str] occurs, or [npos] when it occurs at none of them. *)
Theorem find_correct v str pos : size v < 2 ^ 63 -> 0 <= pos ->
  (find v str pos = npos /\ forall i, pos <= i <= size v - size str -> slice v i (size str) <> str) \/
  (pos <= find v str pos <= size v - size str /\ slice v (find v str pos) (size str) = str /\
     forall j, pos <= j < find v str pos -> slice v j (size str) <> str).
Proof.
  intros Hv Hp. unfold find. destruct (Z.ltb_spec (size v) (size str)).
  - left. split; [done|]. lia.
  - destruct (find_loop_spec (S (length v)) v str pos) as [?|(i & -> & ? & ? & ?)];
      [lia|lia|unfold size; lia|lia|by left|]. right. split_and!; (done || lia).
Qed.

Lemma find_correct_witness :
  find [97; 98; 97; 98; 99] [98; 99] 0 = 3 /\
  forall j, 0 <= j < 3 -> slice [97; 98; 97; 98; 99] j 2 <> [98; 99].
Proof.
  destruct (find_correct [97; 98; 97; 98; 99] [98; 99] 0 ltac:(unfold size; simpl; lia) ltac:(lia))
    as [[H _]|(_ & _ & H)]; [by vm_compute in H|]. split; [reflexivity|exact H].
Defined.

End StringView.
