(* ===== verification/RingBuffer.v ===== *)
(** * The ring buffer (src/src/std/ring_buffer.hpp) and pipes (src/src/fs/pipe.cpp)

    [RingBuffer<u8>] is shared by threads.  Each pass of an operation's loop runs
    under the buffer's lock, so a pass is one atomic step: [read_chunk] and
    [write_chunk] are those critical sections.  The two events are their counts
    of pending signals.  An operation is a [task] that alternates passes and
    waits; [step] interleaves the tasks of any number of threads, and [read] and
    [write] run one operation alone. *)

From S2P Require Import Prelude.

Module RingBuffer.

Record ring := mkRing {
  buffer : list Z;
  read_event : Z;
  write_event : Z;
  read_ptr : Z;
  write_ptr : Z;
  buffer_size : Z
}.

(** The constructor: [resize] fills the vector with zeros. *)
Definition new_ring (max_size : Z) : ring := mkRing (replicate (Z.to_nat max_size) 0) 0 0 0 0 0.

Definition capacity (rb : ring) : Z := Z.of_nat (length (buffer rb)).

Definition signal_read (rb : ring) : ring :=
  mkRing (buffer rb) (u64 (read_event rb + 1)) (write_event rb) (read_ptr rb) (write_ptr rb)
    (buffer_size rb).
Definition signal_write (rb : ring) : ring :=
  mkRing (buffer rb) (read_event rb) (u64 (write_event rb + 1)) (read_ptr rb) (write_ptr rb)
    (buffer_size rb).

(** ** The critical sections *)

(** The bytes copied out, the size still wanted and the buffer after. *)
Definition read_chunk (size : Z) (rb : ring) : list Z * Z * ring :=
  let remaining_at_end := capacity rb ⊟ read_ptr rb in
  let to_read := Z.min (Z.min (buffer_size rb) size) remaining_at_end in
  let bytes := take (Z.to_nat to_read) (drop (Z.to_nat (read_ptr rb)) (buffer rb)) in
  let rp := read_ptr rb ⊞ to_read in
  let rp := if rp =? capacity rb then 0 else rp in
  (bytes, size ⊟ to_read,
   mkRing (buffer rb) (read_event rb) (write_event rb) rp (write_ptr rb)
     (buffer_size rb ⊟ to_read)).

(** The bytes left to write and the buffer after. *)
Definition write_chunk (data : list Z) (rb : ring) : list Z * ring :=
  let size := Z.of_nat (length data) in
  let rb := if buffer_size rb =? 0 then signal_read rb else rb in
  let remaining_at_end := capacity rb ⊟ write_ptr rb in
  let to_write := Z.min (Z.min (capacity rb ⊟ buffer_size rb) size) remaining_at_end in
  let wp := write_ptr rb ⊞ to_write in
  let wp := if wp =? capacity rb then 0 else wp in
  (drop (Z.to_nat to_write) data,
   mkRing (splice (Z.to_nat (write_ptr rb)) (take (Z.to_nat to_write) data) (buffer rb))
     (read_event rb) (write_event rb) (read_ptr rb) wp (buffer_size rb ⊞ to_write)).

(** ** Operations as tasks *)

Inductive wait_for := WaitRead | WaitReadOrInterrupt | WaitWrite.

(** The sizes as the loops keep them; [acc] is what has been copied to the
    caller's buffer so far, [data] what is left to write.  [TSignal] is between
    the critical section and the wait, where [write_event] is signalled. *)
Inductive task :=
| TRead (orig_size : Z) (acc : list Z) (size : Z)
| TReadSome (min max : Z) (acc : list Z) (size : Z)
| TReadBlock (acc : list Z) (size : Z)
| TWrite (orig_size : Z) (data : list Z)
| TWriteBlock (data : list Z)
| TSignal (w : wait_for) (next : task)
| TWait (w : wait_for) (next : task)
| TDone (data : list Z) (n : Z) (interrupted : bool).

(** One pass of the loop; [TWait] and [TDone] do not run. *)
Definition run_pass (t : task) (rb : ring) : task * ring :=
  match t with
  | TRead orig_size acc size =>
      let '(bytes, size, rb) := read_chunk size rb in
      let acc := acc ++ bytes in
      if negb (size =? 0) && (buffer_size rb =? 0) then (TDone acc (orig_size ⊟ size) false, rb)
      else if size =? 0 then (TDone acc orig_size false, rb)
      else (TRead orig_size acc size, rb)
  | TReadSome min max acc size =>
      let '(bytes, size, rb) := read_chunk size rb in
      let acc := acc ++ bytes in
      if negb (size =? 0) && (buffer_size rb =? 0) then
        if max ⊟ size >=? min then (TDone acc (max ⊟ size) false, rb)
        else (TSignal WaitReadOrInterrupt (TReadSome min max acc size), rb)
      else if size =? 0 then (TDone acc (max ⊟ size) false, rb)
      else (TReadSome min max acc size, rb)
  | TReadBlock acc size =>
      let '(bytes, size, rb) := read_chunk size rb in
      let acc := acc ++ bytes in
      if negb (size =? 0) && (buffer_size rb =? 0)
      then (TSignal WaitRead (TReadBlock acc size), rb)
      else if size =? 0 then (TDone acc 0 false, rb)
      else (TReadBlock acc size, rb)
  | TWrite orig_size data =>
      let '(data, rb) := write_chunk data rb in
      let size := Z.of_nat (length data) in
      if negb (size =? 0) && (buffer_size rb =? capacity rb)
      then (TDone [] (orig_size ⊟ size) false, rb)
      else if size =? 0 then (TDone [] orig_size false, rb)
      else (TWrite orig_size data, rb)
  | TWriteBlock data =>
      let '(data, rb) := write_chunk data rb in
      let size := Z.of_nat (length data) in
      if negb (size =? 0) && (buffer_size rb =? capacity rb)
      then (TWait WaitWrite (TWriteBlock data), rb)
      else if size =? 0 then (TDone [] 0 false, rb)
      else (TWriteBlock data, rb)
  | TSignal w next => (TWait w next, signal_write rb)
  | TWait _ _ | TDone _ _ _ => (t, rb)
  end.

(** The bytes a task has copied out, and the size [read_some] returns when it
    is interrupted. *)
Fixpoint read_bytes (t : task) : list Z :=
  match t with
  | TRead _ acc _ | TReadSome _ _ acc _ | TReadBlock acc _ | TDone acc _ _ => acc
  | TSignal _ next | TWait _ next => read_bytes next
  | TWrite _ _ | TWriteBlock _ => []
  end.
Definition read_some_result (t : task) : Z :=
  match t with
  | TReadSome _ max _ size => max ⊟ size
  | _ => 0
  end.

(** The end of a wait on an event with a pending signal.  [Event::wait_any] of
    [read_some] returns 2 for the interrupt event, which can come at any time. *)
Inductive wake : task -> ring -> task -> ring -> Prop :=
| wake_read rb next : 0 < read_event rb ->
    wake (TWait WaitRead next) rb next
      (mkRing (buffer rb) (read_event rb - 1) (write_event rb) (read_ptr rb) (write_ptr rb)
         (buffer_size rb))
| wake_read_any rb next : 0 < read_event rb ->
    wake (TWait WaitReadOrInterrupt next) rb next
      (mkRing (buffer rb) (read_event rb - 1) (write_event rb) (read_ptr rb) (write_ptr rb)
         (buffer_size rb))
| wake_interrupt rb next :
    wake (TWait WaitReadOrInterrupt next) rb
      (TDone (read_bytes next) (read_some_result next) true) rb
| wake_write rb next : 0 < write_event rb ->
    wake (TWait WaitWrite next) rb next
      (mkRing (buffer rb) (read_event rb) (write_event rb - 1) (read_ptr rb) (write_ptr rb)
         (buffer_size rb)).

(** Threads by number; an idle thread starts an operation with [spawn]. *)
Definition start (t : task) : Prop :=
  match t with
  | TRead orig acc size => acc = [] /\ orig = size /\ fits 64 size
  | TReadSome _ max acc size => acc = [] /\ max = size /\ fits 64 size
  | TReadBlock acc size => acc = [] /\ fits 64 size
  | TWrite orig data => orig = Z.of_nat (length data) /\ fits 64 orig
  | TWriteBlock data => fits 64 (Z.of_nat (length data))
  | _ => False
  end.

(** The bytes a pass moves: into the buffer and out of it. *)
Definition pass_io (t : task) (rb : ring) : list Z * list Z :=
  match t with
  | TRead _ _ size | TReadSome _ _ _ size | TReadBlock _ size => ([], fst (fst (read_chunk size rb)))
  | TWrite _ data | TWriteBlock data =>
      (take (length data - length (fst (write_chunk data rb))) data, [])
  | _ => ([], [])
  end.

Inductive step : ring * gmap nat task -> list Z * list Z -> ring * gmap nat task -> Prop :=
| step_spawn rb ts i t : ts !! i = None -> start t -> step (rb, ts) ([], []) (rb, <[i := t]> ts)
| step_pass rb ts i t t' rb' : ts !! i = Some t -> run_pass t rb = (t', rb') ->
    step (rb, ts) (pass_io t rb) (rb', <[i := t']> ts)
| step_wake rb ts i t t' rb' : ts !! i = Some t -> wake t rb t' rb' ->
    step (rb, ts) ([], []) (rb', <[i := t']> ts)
| step_exit rb ts i data n int : ts !! i = Some (TDone data n int) ->
    step (rb, ts) ([], []) (rb, delete i ts).

(** What has been written to and read from a buffer since it was created. *)
Inductive exec (max_size : Z) : ring * gmap nat task -> list Z -> list Z -> Prop :=
| exec_new : exec max_size (new_ring max_size, ∅) [] []
| exec_step s w r io s' : exec max_size s w r -> step s io s' ->
    exec max_size s' (w ++ fst io) (r ++ snd io).

(** ** One operation alone *)

Fixpoint run (fuel : nat) (t : task) (rb : ring) : option (task * ring) :=
  match t with
  | TDone _ _ _ | TWait _ _ => Some (t, rb)
  | _ => match fuel with
         | O => None
         | S fuel => let '(t, rb) := run_pass t rb in run fuel t rb
         end
  end.

(** Two passes are enough: the first stops at the end of the array at the
    latest, the second has the rest before it. *)
Definition read (size : Z) (rb : ring) : option (task * ring) := run 3 (TRead size [] size) rb.
Definition write (data : list Z) (rb : ring) : option (task * ring) :=
  run 3 (TWrite (Z.of_nat (length data)) data) rb.
Definition read_some (min max : Z) (rb : ring) : option (task * ring) :=
  run 3 (TReadSome min max [] max) rb.
Definition read_block (size : Z) (rb : ring) : option (task * ring) :=
  run 3 (TReadBlock [] size) rb.
Definition write_block (data : list Z) (rb : ring) : option (task * ring) :=
  run 3 (TWriteBlock data) rb.
Definition size (rb : ring) : Z := buffer_size rb.

(** ** The queue a ring represents *)

Record ring_ok (rb : ring) : Prop := {
  ro_cap : capacity rb < 2 ^ 63;
  ro_rp : 0 <= read_ptr rb < capacity rb \/ (capacity rb = 0 /\ read_ptr rb = 0);
  ro_size : 0 <= buffer_size rb <= capacity rb;
  ro_wp : write_ptr rb = if read_ptr rb + buffer_size rb <? capacity rb
                         then read_ptr rb + buffer_size rb
                         else read_ptr rb + buffer_size rb - capacity rb
}.

Definition contents (rb : ring) : list Z :=
  take (Z.to_nat (buffer_size rb)) (drop (Z.to_nat (read_ptr rb)) (buffer rb ++ buffer rb)).

Lemma length_contents rb : ring_ok rb -> Z.of_nat (length (contents rb)) = buffer_size rb.
Proof.
  intros [? Hrp ? ?]. unfold contents, capacity in *.
  rewrite length_take, length_drop, length_app. lia.
Qed.

Lemma new_ring_ok n : 0 <= n < 2 ^ 63 -> ring_ok (new_ring n) /\ contents (new_ring n) = [].
Proof.
  intros. split; [|done]. split; unfold capacity; simpl; rewrite ?length_replicate; try lia.
  case_bool; bool_to_prop; lia.
Qed.

Lemma contents_lookup rb i : ring_ok rb -> (i < length (contents rb))%nat ->
  contents rb !! i =
    buffer rb !! (if decide (Z.to_nat (read_ptr rb) + i < length (buffer rb))%nat
                  then Z.to_nat (read_ptr rb) + i
                  else Z.to_nat (read_ptr rb) + i - length (buffer rb))%nat.
Proof.
  intros Hok Hi. pose proof (length_contents _ Hok) as Hl. destruct Hok as [? Hrp ? ?].
  unfold contents in *. rewrite lookup_take_lt by lia. rewrite lookup_drop. case_decide.
  - by rewrite lookup_app_l.
  - rewrite lookup_app_r by lia. done.
Qed.

(** A pass of a reader takes a prefix of the queue. *)
Lemma read_chunk_spec size rb bytes size' rb' : ring_ok rb -> fits 64 size ->
  read_chunk size rb = (bytes, size', rb') ->
  contents rb = bytes ++ contents rb' /\ ring_ok rb' /\
  size = Z.of_nat (length bytes) + size' /\ 0 <= size' /\
  (size' = 0 \/ buffer_size rb' = 0 \/ (read_ptr rb' = 0 /\ capacity rb <> 0 /\ read_ptr rb <> 0)) /\
  capacity rb' = capacity rb /\ read_event rb' = read_event rb /\ write_event rb' = write_event rb.
Proof.
  intros [Hcap Hrp Hbs Hwp] Hsz Heq. unfold read_chunk in Heq. injection Heq as <- <- <-.
  unfold fits, sub64, add64 in *.
  assert (Hr : u64 (capacity rb - read_ptr rb) = capacity rb - read_ptr rb) by (apply u64_small; lia).
  rewrite Hr. set (n := Z.min _ _). assert (Hn : 0 <= n /\ n <= buffer_size rb /\ n <= size /\
    n <= capacity rb - read_ptr rb /\
    (n = buffer_size rb \/ n = size \/ n = capacity rb - read_ptr rb)) by (subst n; lia).
  clearbody n. rewrite (u64_small (read_ptr rb + n)) by lia.
  rewrite (u64_small (size - n)) by lia. rewrite (u64_small (buffer_size rb - n)) by lia.
  unfold capacity in *.
  assert (Hlen : length (take (Z.to_nat n) (drop (Z.to_nat (read_ptr rb)) (buffer rb))) = Z.to_nat n)
    by (rewrite length_take, length_drop; lia).
  split_and!; simpl; try done; try lia.
  - unfold contents. simpl.
    replace (take (Z.to_nat n) (drop (Z.to_nat (read_ptr rb)) (buffer rb)))
      with (take (Z.to_nat n) (drop (Z.to_nat (read_ptr rb)) (buffer rb ++ buffer rb))).
    2:{ rewrite drop_app_le by lia. rewrite take_app_le; [done|]. rewrite length_drop. lia. }
    replace (Z.to_nat (buffer_size rb)) with (Z.to_nat n + Z.to_nat (buffer_size rb - n))%nat by lia.
    rewrite <- take_take_drop, drop_drop. f_equal.
    destruct (Z.eqb_spec (read_ptr rb + n) (Z.of_nat (length (buffer rb)))) as [He|].
    + simpl. replace (Z.to_nat (read_ptr rb) + Z.to_nat n)%nat with (length (buffer rb)) by lia.
      rewrite drop_app_length, drop_0. rewrite take_app_le by lia. done.
    + do 2 f_equal. lia.
  - split; unfold capacity; simpl; try lia.
    + destruct (Z.eqb_spec (read_ptr rb + n) (Z.of_nat (length (buffer rb)))); lia.
    + rewrite Hwp. destruct (Z.eqb_spec (read_ptr rb + n) (Z.of_nat (length (buffer rb))));
        repeat case_bool; bool_to_prop; lia.
  - destruct (Z.eqb_spec (read_ptr rb + n) (Z.of_nat (length (buffer rb)))); lia.
Qed.

(** Copying [w] to the write pointer appends it to the queue. *)
Lemma contents_append rb w wp : ring_ok rb ->
  Z.of_nat (length w) <= capacity rb - buffer_size rb ->
  Z.of_nat (length w) <= capacity rb - write_ptr rb ->
  wp = (if write_ptr rb + Z.of_nat (length w) =? capacity rb then 0
        else write_ptr rb + Z.of_nat (length w)) ->
  let rb' := mkRing (splice (Z.to_nat (write_ptr rb)) w (buffer rb)) (read_event rb)
    (write_event rb) (read_ptr rb) wp (buffer_size rb + Z.of_nat (length w)) in
  contents rb' = contents rb ++ w /\ ring_ok rb' /\ capacity rb' = capacity rb.
Proof.
  intros Hok Hfree Hend Hwp rb'. pose proof (length_contents _ Hok) as Hl.
  pose proof Hok as [Hcap Hrp Hbs Hw].
  assert (Hwr : 0 <= write_ptr rb <= capacity rb).
  { rewrite Hw. case_bool; bool_to_prop; lia. }
  assert (Hc' : capacity rb' = capacity rb).
  { unfold capacity in *. subst rb'. simpl. rewrite length_splice; lia. }
  assert (Hok' : ring_ok rb').
  { split; rewrite ?Hc'; subst rb'; simpl; try lia. rewrite Hwp. revert Hw.
    repeat case_bool; bool_to_prop; lia. }
  split_and!; [|done|done]. pose proof (length_contents _ Hok') as Hl'. simpl in Hl'.
  apply list_eq_same_length with (n := length (contents rb ++ w)); [done| |].
  { rewrite length_app. lia. }
  intros i x y Hi Hx Hy. rewrite length_app in Hi. rewrite contents_lookup in Hx by (done || lia).
  subst rb'. simpl in Hx. unfold capacity in *. simpl in Hc'. apply Nat2Z.inj in Hc'.
  rewrite Hc' in Hx. destruct (decide (i < length (contents rb))%nat).
  - rewrite lookup_app_l, contents_lookup in Hy by done.
    rewrite lookup_splice_out in Hx; [congruence| |lia].
    revert Hw. case_decide; case_bool; bool_to_prop; intros; lia.
  - rewrite lookup_app_r in Hy by lia.
    rewrite lookup_splice_in in Hx; [|revert Hw; case_decide; case_bool; bool_to_prop; intros; lia|lia].
    match type of Hx with w !! ?a = _ => replace a with (i - length (contents rb))%nat in Hx end;
      [congruence|].
    revert Hw. case_decide; case_bool; bool_to_prop; intros; lia.
Qed.

(** A pass of a writer appends a prefix of its data to the queue. *)
Lemma write_chunk_spec data rb data' rb' : ring_ok rb -> fits 64 (Z.of_nat (length data)) ->
  write_chunk data rb = (data', rb') ->
  exists w, data = w ++ data' /\ contents rb' = contents rb ++ w /\ ring_ok rb' /\
    capacity rb' = capacity rb /\ write_event rb' = write_event rb /\
    read_event rb' = (if buffer_size rb =? 0 then u64 (read_event rb + 1) else read_event rb) /\
    (data' = [] \/ buffer_size rb' = capacity rb \/ write_ptr rb' = 0) /\
    (write_ptr rb = 0 -> data' = [] \/ buffer_size rb' = capacity rb).
Proof.
  intros Hok Hd Heq. unfold write_chunk in Heq.
  set (rb0 := if buffer_size rb =? 0 then signal_read rb else rb) in *.
  assert (H0 : ring_ok rb0 /\ contents rb0 = contents rb /\ capacity rb0 = capacity rb /\
    buffer_size rb0 = buffer_size rb /\ write_ptr rb0 = write_ptr rb /\
    write_event rb0 = write_event rb /\
    read_event rb0 = (if buffer_size rb =? 0 then u64 (read_event rb + 1) else read_event rb)).
  { subst rb0. case_bool; [|by split_and!]. by split_and!; [destruct Hok; split|..]. }
  clearbody rb0. destruct H0 as (Hok0 & <- & <- & Hbs0 & Hwp0 & <- & <-). rewrite <- Hwp0.
  pose proof Hok0 as [Hcap Hrp Hbs Hw]. injection Heq as <- <-. unfold fits, add64, sub64 in *.
  assert (Hwr : 0 <= write_ptr rb0 <= capacity rb0).
  { rewrite Hw. case_bool; bool_to_prop; lia. }
  rewrite (u64_small (capacity rb0 - write_ptr rb0)) by lia.
  rewrite (u64_small (capacity rb0 - buffer_size rb0)) by lia. set (n := Z.min _ _).
  assert (Hn : 0 <= n /\ n <= capacity rb0 - buffer_size rb0 /\ n <= Z.of_nat (length data) /\
    n <= capacity rb0 - write_ptr rb0 /\ (n = capacity rb0 - buffer_size rb0 \/
      n = Z.of_nat (length data) \/ n = capacity rb0 - write_ptr rb0)) by (subst n; lia).
  clearbody n. rewrite (u64_small (write_ptr rb0 + n)), (u64_small (buffer_size rb0 + n)) by lia.
  assert (Hlw : Z.of_nat (length (take (Z.to_nat n) data)) = n) by (rewrite length_take; lia).
  exists (take (Z.to_nat n) data). split; [by rewrite take_drop|].
  destruct (contents_append rb0 (take (Z.to_nat n) data)
    (if write_ptr rb0 + n =? capacity rb0 then 0 else write_ptr rb0 + n)) as (Hc & Hok' & Hcap');
    rewrite ?Hlw in *; [done|lia|lia|done|].
  split_and!; try done; simpl.
  - destruct Hn as (_ & _ & _ & _ & [->|[->| ->]]).
    + right; left. lia.
    + left. rewrite Nat2Z.id. apply drop_all.
    + right; right. case_bool; bool_to_prop; lia.
  - intros Hz. destruct Hn as (_ & Hle & _ & _ & [->|[->| ->]]).
    + right. lia.
    + left. rewrite Nat2Z.id. apply drop_all.
    + right. rewrite Hz in *. lia.
Qed.

(** ** Interleavings *)

(** A pass of any task moves bytes in and out of the queue in order. *)
Definition task_ok (t : task) : Prop :=
  match t with
  | TRead orig acc size => fits 64 size /\ orig = Z.of_nat (length acc) + size /\ fits 64 orig
  | TReadSome _ max acc size => fits 64 size /\ max = Z.of_nat (length acc) + size /\ fits 64 max
  | TReadBlock acc size => fits 64 size
  | TWrite orig data => Z.of_nat (length data) <= orig /\ fits 64 orig
  | TWriteBlock data => fits 64 (Z.of_nat (length data))
  | _ => True
  end.

Fixpoint task_wf (t : task) : Prop :=
  match t with
  | TSignal _ next | TWait _ next => task_wf next
  | _ => task_ok t
  end.

Lemma start_wf t : start t -> task_wf t.
Proof. destruct t; simpl; try done; unfold fits; naive_solver lia. Qed.

Lemma run_pass_spec t rb t' rb' : ring_ok rb -> task_wf t -> run_pass t rb = (t', rb') ->
  contents rb ++ fst (pass_io t rb) = snd (pass_io t rb) ++ contents rb' /\
  ring_ok rb' /\ task_wf t' /\ capacity rb' = capacity rb.
Proof.
  intros Hok Hwf Hp. destruct t as [orig acc sz|min max acc sz|acc sz|orig data|data|w next|w next|data n int];
    cbn [run_pass pass_io task_wf task_ok] in *.
  1-3: destruct (read_chunk sz rb) as [[bytes sz'] rb1] eqn:E;
    destruct (read_chunk_spec sz rb _ _ _ Hok ltac:(first [exact Hwf|exact (proj1 Hwf)]) E) as (Hc & Hok1 & Hs & Hs' & _ & Hcap & _);
    simpl; rewrite app_nil_r;
    repeat (case_match; simplify_eq/=); split_and!;
      try (done || (unfold fits in *; rewrite ?length_app; lia)).
  1-2: destruct (write_chunk data rb) as [data' rb1] eqn:E;
    destruct (write_chunk_spec data rb data' rb1 Hok) as (w & Hd & Hc & Hok1 & Hcap & _);
    [unfold fits in *; lia|done|]; simpl;
    assert (take (length data - length data') data = w) as ->
      by (rewrite Hd, length_app; replace (length w + length data' - length data')%nat with (length w) by lia;
          apply take_app_length);
    assert (length data = length w + length data')%nat by (rewrite Hd; apply length_app);
    repeat (case_match; simplify_eq/=); split_and!; try done; unfold fits in *; lia.
  all: simplify_eq; simpl; rewrite ?app_nil_r; split_and!; try done. by destruct Hok.
Qed.

Lemma wake_spec t rb t' rb' : ring_ok rb -> task_wf t -> wake t rb t' rb' ->
  contents rb' = contents rb /\ ring_ok rb' /\ task_wf t' /\ capacity rb' = capacity rb.
Proof. intros [] Hwf Hw. destruct Hw; simpl in Hwf; split_and!; done. Qed.

Lemma exec_inv n rb ts w r : 0 <= n < 2 ^ 63 -> exec n (rb, ts) w r ->
  w = r ++ contents rb /\ ring_ok rb /\ capacity rb = n /\ map_Forall (fun _ => task_wf) ts.
Proof.
  intros Hn. remember (rb, ts) as s eqn:Es. intros He. revert rb ts Es.
  induction He as [|s w r io s' He IH Hst]; intros rb ts Es; simplify_eq.
  { destruct (new_ring_ok n Hn) as [Hok Hc]. rewrite Hc. split_and!; [done|done| |done].
    unfold capacity. simpl. rewrite length_replicate. lia. }
  inversion Hst as [rb0 ts0 i t Hi Ht|rb0 ts0 i t t' rb1 Hi Hp|rb0 ts0 i t t' rb1 Hi Hw|
                    rb0 ts0 i data m int Hi]; simplify_eq;
    destruct (IH _ _ eq_refl) as (Hc & Hok & Hcap & Hts); rewrite ?app_nil_r.
  - split_and!; try done. apply map_Forall_insert_2; [by apply start_wf|done].
  - destruct (run_pass_spec _ _ _ _ Hok (Hts _ _ Hi) Hp) as (Hio & Hok' & Hwf & Hcap').
    split_and!; [|done|congruence|by apply map_Forall_insert_2].
    by rewrite Hc, <- !(assoc_L app), Hio.
  - destruct (wake_spec _ _ _ _ Hok (Hts _ _ Hi) Hw) as (Hio & Hok' & Hwf & Hcap').
    split_and!; [by rewrite Hio|done|congruence|by apply map_Forall_insert_2].
  - split_and!; try done. by apply map_Forall_delete.
Qed.

(** C25: under every interleaving of any number of threads that read and write
    one ring buffer with any of its operations, blocking or not, the bytes read
    so far followed by the bytes in the buffer are the bytes written so far: the
    buffer is a FIFO queue that loses, repeats and reorders nothing, and it never
    holds more than its capacity. *)
Theorem ring_buffer_fifo n rb ts w r : 0 <= n < 2 ^ 63 -> exec n (rb, ts) w r ->
  w = r ++ contents rb /\ Z.of_nat (length (contents rb)) = size rb /\ 0 <= size rb <= n.
Proof.
  intros Hn He. destruct (exec_inv _ _ _ _ _ Hn He) as (Hc & Hok & Hcap & _).
  pose proof (length_contents _ Hok). unfold size. destruct Hok. split_and!; (done || lia).
Qed.

Lemma exec_pass n rb ts w r i t t' rb' io : exec n (rb, ts) w r -> ts !! i = Some t ->
  run_pass t rb = (t', rb') -> pass_io t rb = io ->
  exec n (rb', <[i := t']> ts) (w ++ fst io) (r ++ snd io).
Proof. intros He Hi Hp <-. eapply exec_step; [done|]. by eapply step_pass. Qed.

Lemma ring_buffer_fifo_witness : exists rb ts,
  exec 4 (rb, ts) [1; 2; 3; 4] [1; 2] /\ [1; 2; 3; 4] = [1; 2] ++ contents rb.
Proof.
  assert (H : exec 4 (mkRing [1; 2; 3; 4] 1 0 2 0 2,
      <[1%nat := TDone [1; 2] 2 false]> (<[1%nat := TRead 2 [] 2]>
        (<[0%nat := TWait WaitWrite (TWriteBlock [5; 6])]>
          (<[0%nat := TWriteBlock [1; 2; 3; 4; 5; 6]]> ∅)))) [1; 2; 3; 4] [1; 2]).
  { eapply (exec_pass 4 (mkRing [1; 2; 3; 4] 1 0 0 0 4) _ [1; 2; 3; 4] [] 1 (TRead 2 [] 2) _ _ ([], [1; 2]));
      [|reflexivity..].
    eapply (exec_step 4 (mkRing [1; 2; 3; 4] 1 0 0 0 4, _) [1; 2; 3; 4] [] ([], []));
      [|apply step_spawn; [reflexivity|done]].
    eapply (exec_pass 4 (new_ring 4) _ [] [] 0 (TWriteBlock [1; 2; 3; 4; 5; 6]) _ _ ([1; 2; 3; 4], []));
      [|reflexivity..].
    eapply (exec_step 4 (new_ring 4, ∅) [] [] ([], [])); [apply exec_new|].
    apply step_spawn; [reflexivity|done]. }
  eexists _, _. split; [exact H|]. exact (proj1 (ring_buffer_fifo 4 _ _ _ _ ltac:(lia) H)).
Defined.

(** ** One operation alone *)

Lemma contents_empty rb : ring_ok rb -> buffer_size rb = 0 -> contents rb = [].
Proof. intros _ Hz. unfold contents. by rewrite Hz. Qed.

(** The loop of the read operations: one or two passes empty the buffer or
    satisfy the request. *)
Lemma read_passes sz rb : ring_ok rb -> fits 64 sz ->
  exists bytes sz' rb', contents rb = bytes ++ contents rb' /\ ring_ok rb' /\
    sz = Z.of_nat (length bytes) + sz' /\ 0 <= sz' /\ (sz' = 0 \/ buffer_size rb' = 0) /\
    write_event rb' = write_event rb /\
    (forall orig, fits 64 orig ->
       run 3 (TRead orig [] sz) rb = Some (TDone bytes (orig ⊟ sz') false, rb')) /\
    run 3 (TReadBlock [] sz) rb =
      Some (if sz' =? 0 then (TDone bytes 0 false, rb')
            else (TWait WaitRead (TReadBlock bytes sz'), signal_write rb')) /\
    (forall min max, fits 64 max -> run 3 (TReadSome min max [] sz) rb =
       Some (if (sz' =? 0) || (max ⊟ sz' >=? min) then (TDone bytes (max ⊟ sz') false, rb')
             else (TWait WaitReadOrInterrupt (TReadSome min max bytes sz'), signal_write rb'))).
Proof.
  intros Hok Hsz. destruct (read_chunk sz rb) as [[b1 s1] r1] eqn:E1.
  destruct (read_chunk_spec _ _ _ _ _ Hok Hsz E1) as (Hc1 & Hok1 & Hs1 & Hs1' & Hd1 & _ & _ & Hw1).
  assert (Hz : forall x, fits 64 x -> x ⊟ 0 = x)
    by (intros; unfold sub64; rewrite Z.sub_0_r; by apply u64_small).
  destruct (decide (s1 = 0 \/ buffer_size r1 = 0)) as [Hdone|Hmore].
  { exists b1, s1, r1. split_and!; try done; intros; cbn [run run_pass]; rewrite E1; simpl;
      (destruct (Z.eqb_spec s1 0) as [->|]; [simpl; by rewrite ?Hz|]);
      (destruct (Z.eqb_spec (buffer_size r1) 0); [|lia]); simpl; try case_bool; done. }
  destruct (read_chunk s1 r1) as [[b2 s2] r2] eqn:E2.
  destruct (read_chunk_spec s1 r1 b2 s2 r2) as (Hc2 & Hok2 & Hs2 & Hs2' & Hd2 & _ & _ & Hw2);
    [done|unfold fits in *; lia|done|].
  assert (s2 = 0 \/ buffer_size r2 = 0) by lia.
  exists (b1 ++ b2), s2, r2. split_and!; try done.
  - by rewrite Hc1, Hc2, (assoc_L app).
  - rewrite length_app. lia.
  - congruence.
  - intros; cbn [run run_pass]; rewrite E1; replace (s1 =? 0) with false by lia;
      replace (buffer_size r1 =? 0) with false by lia; cbn [negb andb run run_pass]; rewrite E2; simpl.
    destruct (Z.eqb_spec s2 0) as [->|]; [simpl; by rewrite ?Hz|].
    by destruct (Z.eqb_spec (buffer_size r2) 0); [|lia].
  - cbn [run run_pass]; rewrite E1; replace (s1 =? 0) with false by lia;
      replace (buffer_size r1 =? 0) with false by lia; cbn [negb andb run run_pass]; rewrite E2; simpl.
    destruct (Z.eqb_spec s2 0) as [->|]; [done|].
    by destruct (Z.eqb_spec (buffer_size r2) 0); [|lia].
  - intros; cbn [run run_pass]; rewrite E1; replace (s1 =? 0) with false by lia;
      replace (buffer_size r1 =? 0) with false by lia; cbn [negb andb run run_pass]; rewrite E2; simpl.
    destruct (Z.eqb_spec s2 0) as [->|]; [simpl; by rewrite ?Hz|].
    destruct (Z.eqb_spec (buffer_size r2) 0); [|lia]. simpl. by case_bool.
Qed.

(** What such a loop leaves behind. *)
Lemma read_prefix sz bytes sz' rb rb' : ring_ok rb -> ring_ok rb' -> contents rb = bytes ++ contents rb' ->
  sz = Z.of_nat (length bytes) + sz' -> 0 <= sz' -> (sz' = 0 \/ buffer_size rb' = 0) ->
  Z.of_nat (length bytes) = Z.min sz (buffer_size rb) /\
  bytes = take (Z.to_nat (Z.min sz (buffer_size rb))) (contents rb) /\
  contents rb' = drop (Z.to_nat (Z.min sz (buffer_size rb))) (contents rb).
Proof.
  intros Hok Hok' Hc Hs Hs' Hd. pose proof (length_contents _ Hok). pose proof (length_contents _ Hok').
  assert (Hl : length (contents rb) = (length bytes + length (contents rb'))%nat) by (rewrite Hc; apply length_app).
  assert (Z.of_nat (length bytes) = Z.min sz (buffer_size rb)) as Hm by lia.
  rewrite <- Hm, Nat2Z.id, Hc. split_and!; [done|by rewrite take_app_length|by rewrite drop_app_length].
Qed.

(** a non-blocking [read] that runs alone returns in at most two passes with
    the oldest bytes of the buffer, as many as asked for or as there are, removes
    exactly those, and does not signal [write_event]: writers that wait for room
    stay blocked. *)
Theorem read_correct sz rb : ring_ok rb -> fits 64 sz ->
  exists rb', let n := Z.min sz (size rb) in
    read sz rb = Some (TDone (take (Z.to_nat n) (contents rb)) n false, rb') /\
    contents rb' = drop (Z.to_nat n) (contents rb) /\ ring_ok rb' /\
    write_event rb' = write_event rb.
Proof.
  intros Hok Hsz. destruct (read_passes sz rb Hok Hsz)
    as (bytes & sz' & rb' & Hc & Hok' & Hs & Hs' & Hd & Hw & Hrun & _).
  destruct (read_prefix sz bytes sz' rb rb') as (Hm & Hb & Hc'); [done..|].
  exists rb'. unfold read, size. rewrite Hrun by done. split_and!; try done.
  rewrite <- Hb. unfold sub64. rewrite u64_small by (unfold fits in *; lia).
  do 2 f_equal. f_equal. lia.
Qed.

Lemma read_correct_witness : exists rb',
  read 5 (mkRing [7; 8; 9] 0 0 2 1 2) = Some (TDone [9; 7] 2 false, rb') /\ contents rb' = [].
Proof.
  destruct (read_correct 5 (mkRing [7; 8; 9] 0 0 2 1 2)) as (rb' & H & Hc & _).
  - split; unfold capacity; simpl; lia.
  - unfold fits. lia.
  - exists rb'. split; [exact H|exact Hc].
Defined.

(** [read_block] that runs alone returns the oldest [sz] bytes when the
    buffer holds as many; otherwise it takes everything, wakes a writer and waits
    with the rest of its request. *)
Theorem read_block_correct sz rb : ring_ok rb -> fits 64 sz ->
  exists rb', ring_ok rb' /\ contents rb' = drop (Z.to_nat sz) (contents rb) /\
    read_block sz rb =
      if sz <=? size rb then Some (TDone (take (Z.to_nat sz) (contents rb)) 0 false, rb')
      else Some (TWait WaitRead (TReadBlock (contents rb) (sz - size rb)), rb') .
Proof.
  intros Hok Hsz. destruct (read_passes sz rb Hok Hsz)
    as (bytes & sz' & rb' & Hc & Hok' & Hs & Hs' & Hd & Hw & _ & Hrun & _).
  destruct (read_prefix sz bytes sz' rb rb') as (Hm & Hb & Hc'); [done..|].
  pose proof (length_contents _ Hok) as Hl. unfold read_block, size. rewrite Hrun.
  unfold fits in Hsz. destruct (Z.leb_spec sz (buffer_size rb)).
  - replace (sz' =? 0) with true by lia. exists rb'. rewrite Z.min_l in * by lia. subst bytes.
    by split_and!.
  - replace (sz' =? 0) with false by lia. exists (signal_write rb'). rewrite Z.min_r in * by lia.
    rewrite <- Hl, Nat2Z.id, firstn_all in Hb. subst bytes. split_and!.
    + by destruct Hok'.
    + change (contents (signal_write rb')) with (contents rb'). rewrite Hc', <- Hl, Nat2Z.id.
      rewrite !drop_ge; [done|lia|lia].
    + do 4 f_equal. lia.
Qed.

Lemma read_block_correct_witness : exists rb',
  read_block 3 (mkRing [7; 8; 9] 0 0 2 1 2) = Some (TWait WaitRead (TReadBlock [9; 7] 1), rb').
Proof.
  destruct (read_block_correct 3 (mkRing [7; 8; 9] 0 0 2 1 2)) as (rb' & _ & _ & H).
  - split; unfold capacity; simpl; lia.
  - unfold fits. lia.
  - exists rb'. exact H.
Defined.

(** The loop of the write operations: one or two passes fill the buffer or
    store everything. *)
Lemma write_passes data rb : ring_ok rb -> fits 64 (Z.of_nat (length data)) ->
  exists w data' rb', data = w ++ data' /\ contents rb' = contents rb ++ w /\ ring_ok rb' /\
    capacity rb' = capacity rb /\ (data' = [] \/ buffer_size rb' = capacity rb) /\
    write_event rb' = write_event rb /\
    (forall orig, fits 64 orig -> run 3 (TWrite orig data) rb =
       Some (TDone [] (orig ⊟ Z.of_nat (length data')) false, rb')) /\
    run 3 (TWriteBlock data) rb =
      Some (if Z.of_nat (length data') =? 0 then (TDone [] 0 false, rb')
            else (TWait WaitWrite (TWriteBlock data'), rb')).
Proof.
  intros Hok Hd. destruct (write_chunk data rb) as [d1 r1] eqn:E1.
  destruct (write_chunk_spec _ _ _ _ Hok Hd E1) as (w1 & Hd1 & Hc1 & Hok1 & Hcap1 & Hw1 & _ & Hs1 & _).
  assert (Hz : forall x, fits 64 x -> x ⊟ 0 = x)
    by (intros; unfold sub64; rewrite Z.sub_0_r; by apply u64_small).
  assert (Hl1 : length data = (length w1 + length d1)%nat) by (rewrite Hd1; apply length_app).
  destruct (decide (d1 = [] \/ buffer_size r1 = capacity rb)) as [Hdone|Hmore].
  { exists w1, d1, r1. split_and!; try done; intros; cbn [run run_pass]; rewrite E1, Hcap1;
      (destruct (Z.eqb_spec (Z.of_nat (length d1)) 0) as [Hl0|]; [simpl; by rewrite ?Hl0, ?Hz|]);
      (destruct (Z.eqb_spec (buffer_size r1) (capacity rb)); [done|]);
      destruct Hdone as [->|]; done. }
  assert (d1 <> []) by tauto. assert (buffer_size r1 <> capacity rb) by tauto.
  assert (Hn1 : Z.of_nat (length d1) <> 0) by (destruct d1; simpl; (done || lia)).
  destruct (write_chunk d1 r1) as [d2 r2] eqn:E2.
  destruct (write_chunk_spec d1 r1 d2 r2) as (w2 & Hd2 & Hc2 & Hok2 & Hcap2 & Hw2 & _ & _ & Hs2);
    [done|unfold fits in *; lia|done|].
  assert (Hdone : d2 = [] \/ buffer_size r2 = capacity rb) by (rewrite <- Hcap1; apply Hs2; tauto).
  exists (w1 ++ w2), d2, r2. split_and!; try done.
  - by rewrite Hd1, Hd2, (assoc_L app).
  - by rewrite Hc2, Hc1, (assoc_L app).
  - congruence.
  - congruence.
  - intros; cbn [run run_pass]; rewrite E1; cbv beta zeta iota; rewrite Hcap1;
      replace (Z.of_nat (length d1) =? 0) with false by lia;
      replace (buffer_size r1 =? capacity rb) with false by lia; cbn [negb andb run run_pass].
    rewrite E2. cbv beta zeta iota. rewrite Hcap2, Hcap1. destruct (Z.eqb_spec (Z.of_nat (length d2)) 0) as [->|]; [simpl; by rewrite ?Hz|].
    destruct (Z.eqb_spec (buffer_size r2) (capacity rb)); [done|]. by destruct Hdone as [->|].
  - cbn [run run_pass]; rewrite E1; cbv beta zeta iota; rewrite Hcap1;
      replace (Z.of_nat (length d1) =? 0) with false by lia;
      replace (buffer_size r1 =? capacity rb) with false by lia; cbn [negb andb run run_pass].
    rewrite E2. cbv beta zeta iota. rewrite Hcap2, Hcap1. destruct (Z.eqb_spec (Z.of_nat (length d2)) 0) as [|]; [done|].
    destruct (Z.eqb_spec (buffer_size r2) (capacity rb)); [done|]. by destruct Hdone as [->|].
Qed.

(** a non-blocking [write] that runs alone stores the longest prefix of the
    data that fits, behind what the buffer holds, and returns its length;
    [write_block] stores the same prefix and returns only when it is all of the
    data, otherwise it waits with the rest. *)
Theorem write_correct data rb : ring_ok rb -> fits 64 (Z.of_nat (length data)) ->
  exists rb', let n := Z.min (Z.of_nat (length data)) (capacity rb - size rb) in
    write data rb = Some (TDone [] n false, rb') /\
    write_block data rb =
      Some (if n =? Z.of_nat (length data) then TDone [] 0 false
            else TWait WaitWrite (TWriteBlock (drop (Z.to_nat n) data)), rb') /\
    contents rb' = contents rb ++ take (Z.to_nat n) data /\ ring_ok rb'.
Proof.
  intros Hok Hd. destruct (write_passes data rb Hok Hd)
    as (w & data' & rb' & Hdw & Hc & Hok' & Hcap & Hs & _ & Hw & Hb).
  pose proof (length_contents _ Hok). pose proof (length_contents _ Hok').
  assert (Hl : length (contents rb') = (length (contents rb) + length w)%nat)
    by (rewrite Hc; apply length_app).
  assert (Hl' : length data = (length w + length data')%nat) by (rewrite Hdw; apply length_app).
  pose proof Hok' as [? ? Hbs' ?]. rewrite Hcap in Hbs'. exists rb'. unfold size.
  assert (Hn : Z.min (Z.of_nat (length data)) (capacity rb - buffer_size rb) = Z.of_nat (length w)).
  { destruct Hs as [->|]; simpl in *; lia. }
  rewrite Hn. unfold write, write_block. rewrite Hw by done. rewrite Hb, Nat2Z.id. split_and!.
  - do 3 f_equal. unfold sub64. rewrite u64_small by (unfold fits in *; lia). lia.
  - rewrite Hdw at 2. rewrite drop_app_length.
    destruct (Z.eqb_spec (Z.of_nat (length data')) 0), (Z.eqb_spec (Z.of_nat (length w)) (Z.of_nat (length data)));
      (done || lia).
  - by rewrite Hc, Hdw, take_app_length.
  - done.
Qed.

Lemma write_correct_witness : exists rb',
  write [1; 2; 3] (mkRing [7; 8; 9] 0 0 2 0 1) = Some (TDone [] 2 false, rb') /\
  contents rb' = [9; 1; 2].
Proof.
  destruct (write_correct [1; 2; 3] (mkRing [7; 8; 9] 0 0 2 0 1)) as (rb' & H & _ & Hc & _).
  - split; unfold capacity; simpl; lia.
  - unfold fits; simpl; lia.
  - exists rb'. split; [exact H|exact Hc].
Defined.

(** a writer that waits for room is not woken by non-blocking readers: from a
    state where a thread waits in [write_block], any number of non-blocking
    [read]s leaves its wake-up condition as it was, even though they empty the
    buffer. *)
Theorem nonblocking_reads_never_wake_writer (sizes : list Z) rb : ring_ok rb ->
  Forall (fits 64) sizes -> write_event rb = 0 ->
  exists rb', foldl (fun o sz => '(_, rb) ← mbind (fun x => read sz (snd x)) o; Some (tt, rb))
      (Some (tt, rb)) sizes = Some (tt, rb') /\
    write_event rb' = 0 /\
    forall next t' rb'', ~ wake (TWait WaitWrite next) rb' t' rb''.
Proof.
  intros Hok Hf. revert rb Hok. induction Hf as [|sz sizes Hsz _ IH]; intros rb Hok Hw; simpl.
  - exists rb. split_and!; try done. intros next t' rb'' Hwk. inversion Hwk. lia.
  - destruct (read_passes sz rb Hok Hsz) as (bytes & sz' & rb1 & _ & Hok1 & _ & _ & _ & Hw1 & Hrun & _).
    unfold read at 2. rewrite Hrun by done. simpl. apply IH; [done|congruence].
Qed.

Lemma nonblocking_reads_never_wake_writer_witness : exists rb',
  foldl (fun o sz => '(_, rb) ← mbind (fun x => read sz (snd x)) o; Some (tt, rb))
      (Some (tt, mkRing [1; 2; 3; 4] 1 0 0 0 4)) [4; 1] = Some (tt, rb') /\
  forall next t' rb'', ~ wake (TWait WaitWrite next) rb' t' rb''.
Proof.
  destruct (nonblocking_reads_never_wake_writer [4; 1] (mkRing [1; 2; 3; 4] 1 0 0 0 4))
    as (rb' & H & _ & Hn).
  - split; unfold capacity; simpl; lia.
  - repeat constructor; unfold fits; lia.
  - reflexivity.
  - exists rb'. split; [exact H|exact Hn].
Defined.

End RingBuffer.
