(* ===== verification/Vfs.v ===== *)
(** * The virtual file system (src/src/fs/vfs.hpp, vfs.cpp)

    [VNode]'s virtual functions are the class [VNode]; [vfs_lookup] walks a path
    over any node type with a [lookup].  Its result is [None] for an access
    outside the path, [Some None] for [nullptr]. *)

From S2P Require Import Prelude StringView.

Module Vfs.
Import StringView.

Inductive FsStatus := Success | Unsupported | OutOfBounds | TryAgain.

#[global] Instance FsStatus_dec : EqDecision FsStatus.
Proof. solve_decision. Defined.

(** [enum class FileFlags] *)
Definition NonBlock : Z := Z.shiftl 1 0.

(** What path resolution needs of a node; the default of the code's base class
    is [fun _ _ => None]. *)
Class VNode (node : Type) := lookup_node : node -> list Z -> option node.

Definition slash : Z := 47.

Section Lookup.
Context {node : Type} `{VNode node}.

(** [while (path[i] == '/')]: [inl] is the early [return node]. *)
Fixpoint skip_root (fuel : nat) (path : list Z) (i : Z) : option (unit + Z) :=
  c ← at_ path i;
  if c =? slash then
    if i + 1 =? size path then Some (inl tt)
    else match fuel with
         | O => None
         | S fuel => skip_root fuel path (i + 1)
         end
  else Some (inr i).

(** [while (i < path.size() && path[i] == '/') ++i;] *)
Fixpoint skip_slashes (fuel : nat) (path : list Z) (i : Z) : option Z :=
  if i <? size path then
    c ← at_ path i;
    if c =? slash then
      match fuel with
      | O => None
      | S fuel => skip_slashes fuel path (i + 1)
      end
    else Some i
  else Some i.

Fixpoint walk (fuel : nat) (path : list Z) (n : node) (i : Z) : option (option node) :=
  if i <? size path then
    let end_ := find_char path slash i in
    if end_ =? npos then Some (lookup_node n (substr path i npos))
    else
      match lookup_node n (substr path i (end_ ⊟ i)) with
      | None => Some None
      | Some next =>
          i ← skip_slashes (length path) path (end_ ⊞ 1);
          match fuel with
          | O => None
          | S fuel => walk fuel path next i
          end
      end
  else Some (Some n).

Definition vfs_lookup (start : node) (path : list Z) : option (option node) :=
  if is_empty path then Some None
  else
    r ← skip_root (length path) path 0;
    match r with
    | inl _ => Some (Some start)
    | inr i => walk (length path) path start i
    end.

(** ** The meaning of a path *)

Fixpoint components_from (cur path : list Z) : list (list Z) :=
  match path with
  | [] => if decide (cur = []) then [] else [cur]
  | c :: path =>
      if c =? slash then
        if decide (cur = []) then components_from [] path else cur :: components_from [] path
      else components_from (cur ++ [c]) path
  end.
Definition components (path : list Z) : list (list Z) := components_from [] path.

Definition resolve (start : node) (cs : list (list Z)) : option node :=
  foldl (fun o c => n ← o; lookup_node n c) (Some start) cs.

Lemma components_no_slash cur s : Forall (fun c => c <> slash) s -> cur ++ s <> [] ->
  components_from cur s = [cur ++ s].
Proof.
  intros Hs. revert cur. induction Hs as [|c s Hc Hs IH]; intros cur Hne; simpl.
  - rewrite app_nil_r in *. by rewrite decide_False.
  - destruct (Z.eqb_spec c slash); [done|]. rewrite IH; rewrite <- (assoc_L app); done.
Qed.

Lemma components_slash cur s rest : Forall (fun c => c <> slash) s -> cur ++ s <> [] ->
  components_from cur (s ++ slash :: rest) = (cur ++ s) :: components rest.
Proof.
  intros Hs. revert cur. induction Hs as [|c s Hc Hs IH]; intros cur Hne; simpl.
  - rewrite app_nil_r in *. by rewrite decide_False.
  - destruct (Z.eqb_spec c slash); [done|]. rewrite IH; rewrite <- (assoc_L app); done.
Qed.

Lemma resolve_None cs : foldl (fun o c => n ← o; lookup_node n c) None cs = (None : option node).
Proof. by induction cs. Qed.

Lemma resolve_cons n c cs : resolve n (c :: cs) =
  match lookup_node n c with Some n' => resolve n' cs | None => None end.
Proof.
  unfold resolve. simpl. destruct (lookup_node n c); [done|]. apply resolve_None.
Qed.

Lemma drop_at path i c : 0 <= i -> at_ path i = Some c ->
  drop (Z.to_nat i) path = c :: drop (Z.to_nat (i + 1)) path.
Proof.
  intros Hi Hc. unfold at_ in Hc. rewrite (drop_S _ c) by done.
  replace (Z.to_nat (i + 1)) with (S (Z.to_nat i)) by lia. done.
Qed.

Lemma skip_slashes_spec fuel path i : 0 <= i <= size path -> size path - i <= Z.of_nat fuel ->
  exists j, skip_slashes fuel path i = Some j /\ i <= j <= size path /\
    components (drop (Z.to_nat i) path) = components (drop (Z.to_nat j) path) /\
    (j < size path -> at_ path j <> Some slash).
Proof.
  revert i. induction fuel as [|fuel IH]; intros i Hi Hf; cbn [skip_slashes].
  - replace (i <? size path) with false by lia. exists i. split_and!; (done || lia).
  - destruct (Z.ltb_spec i (size path)); [|exists i; split_and!; (done || lia)].
    destruct (lookup_lt_is_Some_2 path (Z.to_nat i)) as [c Hc]; [unfold size in *; lia|].
    change (path !! Z.to_nat i) with (at_ path i) in Hc. rewrite Hc. simpl.
    destruct (Z.eqb_spec c slash) as [->|]; [|exists i; split_and!; try (done || lia); congruence].
    destruct (IH (i + 1)) as (j & -> & Hj & Hcomp & Hn); [lia..|].
    exists j. split_and!; try (done || lia). rewrite (drop_at _ _ _ (proj1 Hi) Hc).
    unfold components at 1. simpl. done.
Qed.

Lemma skip_root_spec fuel path i : 0 <= i < size path -> size path - i <= Z.of_nat fuel ->
  (skip_root fuel path i = Some (inl tt) /\ components (drop (Z.to_nat i) path) = []) \/
  exists j, skip_root fuel path i = Some (inr j) /\ i <= j < size path /\
    components (drop (Z.to_nat i) path) = components (drop (Z.to_nat j) path) /\
    at_ path j <> Some slash.
Proof.
  revert i. induction fuel as [|fuel IH]; intros i Hi Hf; [lia|]. cbn [skip_root].
  destruct (lookup_lt_is_Some_2 path (Z.to_nat i)) as [c Hc]; [unfold size in *; lia|].
  change (path !! Z.to_nat i) with (at_ path i) in Hc. rewrite Hc. simpl.
  pose proof (drop_at _ _ _ (proj1 Hi) Hc) as Hd.
  destruct (Z.eqb_spec c slash) as [->|].
  - destruct (Z.eqb_spec (i + 1) (size path)) as [He|].
    + left. split; [done|]. rewrite Hd, He. rewrite drop_ge; [done|unfold size; lia].
    + rewrite Hd. unfold components at 1. simpl. fold (components (drop (Z.to_nat (i + 1)) path)).
      destruct (IH (i + 1)) as [[-> Hcs]|(j & -> & Hj & Hcomp & Hn)]; [lia..| |].
      * by left.
      * right. exists j. split_and!; (done || lia).
  - right. exists i. split_and!; (done || lia || congruence).
Qed.

Lemma walk_spec fuel path n i : size path < 2 ^ 63 -> 0 <= i <= size path ->
  size path - i <= Z.of_nat fuel -> (i < size path -> at_ path i <> Some slash) ->
  walk fuel path n i = Some (resolve n (components (drop (Z.to_nat i) path))).
Proof.
  intros Hp. revert n i. induction fuel as [|fuel IH]; intros n i Hi Hf Hns; cbn [walk].
  { replace (i <? size path) with false by lia. rewrite drop_ge; [done|unfold size in *; lia]. }
  destruct (Z.ltb_spec i (size path)); [|rewrite drop_ge; [done|unfold size in *; lia]].
  destruct (find_char_spec path slash i Hp ltac:(lia)) as [[-> Hn]|(e & -> & He & Hve & Hmin)].
  - rewrite Z.eqb_refl.
    assert (Hd : substr path i npos = drop (Z.to_nat i) path).
    { unfold substr, slice. rewrite Z.eqb_refl. apply take_ge. unfold sub64, size in *.
      rewrite u64_small, length_drop by lia. lia. }
    rewrite Hd. unfold components. rewrite components_no_slash; [done| |].
    + apply Forall_lookup_2. intros j c Hj ->. rewrite lookup_drop in Hj.
      apply (Hn (Z.to_nat i + j)%nat); [lia|done].
    + simpl. intros Hnil. apply (f_equal length) in Hnil. rewrite length_drop in Hnil.
      unfold size in *. simpl in Hnil. lia.
  - assert (He' : Z.of_nat e < size path) by (apply lookup_lt_Some in Hve; unfold size; lia).
    replace (Z.of_nat e =? npos) with false by (unfold npos; lia).
    unfold sub64, add64. rewrite (u64_small (Z.of_nat e - i)) by lia.
    rewrite (u64_small (Z.of_nat e + 1)) by lia.
    assert (Hne : Z.of_nat e <> i).
    { intros <-. apply Hns; [done|]. unfold at_. by rewrite Nat2Z.id. }
    set (s := substr path i (Z.of_nat e - i)).
    assert (Hs : s = take (e - Z.to_nat i) (drop (Z.to_nat i) path)).
    { subst s. unfold substr, slice. replace (_ =? npos) with false by (unfold npos; lia).
      unfold add64. rewrite u64_small by lia. replace (_ >? _) with false by lia. f_equal. lia. }
    assert (Hdrop : drop (Z.to_nat i) path = s ++ slash :: drop (S e) path).
    { rewrite <- (take_drop (e - Z.to_nat i) (drop (Z.to_nat i) path)) at 1. rewrite Hs. f_equal.
      rewrite drop_drop. replace (Z.to_nat i + (e - Z.to_nat i))%nat with e by lia. by apply drop_S. }
    rewrite Hdrop. unfold components. rewrite components_slash.
    + simpl. rewrite resolve_cons. destruct (lookup_node n s) as [next|]; [|done].
      destruct (skip_slashes_spec (length path) path (Z.of_nat e + 1)) as (j & -> & Hj & Hc & Hj');
        [unfold size in *; lia..|]. cbn [mbind option_bind].
      rewrite IH by (done || lia). f_equal. unfold resolve. f_equal. rewrite <- Hc. f_equal. f_equal. lia.
    + rewrite Hs. apply Forall_lookup_2. intros k c Hk ->.
      pose proof (lookup_lt_Some _ _ _ Hk) as Hlt. rewrite length_take in Hlt.
      rewrite lookup_take_lt, lookup_drop in Hk by lia. apply (Hmin (Z.to_nat i + k)%nat); [lia..|done].
    + simpl. rewrite Hs. intros Hnil. apply (f_equal length) in Hnil. rewrite length_take, length_drop in Hnil.
      unfold size in *. simpl in Hnil. lia.
Qed.

(** C38: [vfs_lookup] of any path terminates, stays inside the path and returns
    the node that the non-empty components between the slashes lead to, however
    many slashes separate, precede or follow them; the empty path is not found. *)
Theorem vfs_lookup_correct (start : node) path : size path < 2 ^ 63 ->
  vfs_lookup start path =
    Some (if decide (path = []) then None else resolve start (components path)).
Proof.
  intros Hp. unfold vfs_lookup, is_empty. case_decide as Hnil; [by subst|].
  assert (0 < size path) by (unfold size; destruct path; simpl; (done || lia)).
  replace (size path =? 0) with false by lia.
  destruct (skip_root_spec (length path) path 0) as [[-> Hcs]|(j & -> & Hj & Hcs & Hn)];
    [lia|unfold size; lia| |]; simpl; rewrite drop_0 in Hcs.
  - by rewrite Hcs.
  - rewrite walk_spec; [by rewrite Hcs|done|lia|unfold size in *; lia|done].
Qed.

End Lookup.

(** A tree with [a] under the root and [b] under it. *)
Definition demo_vnode : VNode Z := fun n name =>
  if (n =? 0) && sv_eqb name [97] then Some 1
  else if (n =? 1) && sv_eqb name [98] then Some 2 else None.

Lemma vfs_lookup_correct_witness :
  @vfs_lookup Z demo_vnode 0 [47; 47; 97; 47; 47; 98; 47] = Some (Some 2).
Proof.
  rewrite (@vfs_lookup_correct Z demo_vnode 0 [47; 47; 97; 47; 47; 98; 47] ltac:(unfold size; simpl; lia)).
  reflexivity.
Defined.

End Vfs.
