(* ===== verification/Pipe.v ===== *)
(** * Pipes (src/src/fs/pipe.cpp)

    The two ends of a pipe share a ring buffer; a blocking operation that cannot
    finish leaves a waiting task behind. *)

From S2P Require Import Prelude Vfs RingBuffer.

Module Pipe.
Import Vfs RingBuffer.

Record PipeVNode := mkPipe { flags : Z; reading : bool }.

(** The shared buffer and the two ends; [None] when the allocation fails. *)
Definition create (alloc_ok : bool) (max_size read_flags write_flags : Z)
    : option (ring * PipeVNode * PipeVNode) :=
  if alloc_ok then Some (new_ring max_size, mkPipe read_flags true, mkPipe write_flags false)
  else None.

Definition nonblock (p : PipeVNode) : bool := negb (Z.land (flags p) NonBlock =? 0).

(** What an operation comes to: a status with the updated size and the data
    copied, or a thread that waits. *)
Inductive outcome :=
| Returned (st : FsStatus) (size : Z) (data : list Z)
| Blocked (t : task).

Definition read (p : PipeVNode) (sz offset : Z) (rb : ring) : option (outcome * ring) :=
  if negb (reading p) || negb (offset =? 0) then Some (Returned Unsupported sz [], rb)
  else if nonblock p then
    '(t, rb) ← RingBuffer.read sz rb;
    match t with
    | TDone data n _ => Some (Returned (if n =? 0 then TryAgain else Success) n data, rb)
    | _ => None
    end
  else
    '(t, rb) ← RingBuffer.read_block sz rb;
    match t with
    | TDone data _ _ => Some (Returned Success sz data, rb)
    | _ => Some (Blocked t, rb)
    end.

Definition write (p : PipeVNode) (data : list Z) (offset : Z) (rb : ring) : option (outcome * ring) :=
  let sz := Z.of_nat (length data) in
  if reading p || negb (offset =? 0) then Some (Returned Unsupported sz [], rb)
  else if nonblock p then
    '(t, rb) ← RingBuffer.write data rb;
    match t with
    | TDone _ n _ => Some (Returned (if n =? 0 then TryAgain else Success) n [], rb)
    | _ => None
    end
  else
    '(t, rb) ← RingBuffer.write_block data rb;
    match t with
    | TDone _ _ _ => Some (Returned Success sz [], rb)
    | _ => Some (Blocked t, rb)
    end.

Definition stat (rb : ring) : FsStatus * Z := (Success, RingBuffer.size rb).

(** what is written to a fresh pipe comes out of its other end: after a write
    of [data] that fits, with either blocking mode on either end, a read of as
    many bytes returns [data] and leaves the pipe empty, and [stat] counts the
    bytes in between. *)
Theorem pipe_round_trip max rf wf data rb r w : 0 <= max < 2 ^ 63 ->
  create true max rf wf = Some (rb, r, w) ->
  data <> [] -> Z.of_nat (length data) <= max ->
  exists rb1 rb2,
    write w data 0 rb = Some (Returned Success (Z.of_nat (length data)) [], rb1) /\
    stat rb1 = (Success, Z.of_nat (length data)) /\
    read r (Z.of_nat (length data)) 0 rb1 =
      Some (Returned Success (Z.of_nat (length data)) data, rb2) /\
    stat rb2 = (Success, 0).
Proof.
  intros Hmax Hc Hne Hd. injection Hc as <- <- <-.
  destruct (new_ring_ok max Hmax) as [Hok Hnil].
  assert (Hcap : capacity (new_ring max) = max) by (unfold capacity; simpl; rewrite length_replicate; lia).
  assert (Hl : Z.of_nat (length data) <> 0) by (destruct data; simpl; (done || lia)).
  destruct (write_passes data (new_ring max) Hok) as (w & rest & rb1 & Hdw & Hc1 & Hok1 & Hcap1 & Hs & _ & Hw & Hwb).
  { unfold fits. lia. }
  pose proof (length_contents _ Hok1) as Hl1. rewrite Hnil in Hc1. simpl in Hc1. rewrite Hc1 in Hl1.
  assert (Hrest : rest = []).
  { apply (f_equal length) in Hdw. rewrite length_app in Hdw. destruct Hs as [|Hs]; [done|].
    rewrite Hcap in Hs. apply length_zero_iff_nil. lia. }
  subst rest. rewrite app_nil_r in Hdw. subst w.
  destruct (read_passes (Z.of_nat (length data)) rb1 Hok1) as
    (bytes & sz' & rb2 & Hc2 & Hok2 & Hsz & Hsz' & Hd2 & _ & Hr & Hrb & _).
  { unfold fits. lia. }
  destruct (read_prefix (Z.of_nat (length data)) bytes sz' rb1 rb2) as (Hm & Hb & Hc3); [done..|].
  rewrite <- Hl1, Z.min_id in Hm. rewrite <- Hl1, Z.min_id, Nat2Z.id, Hc1 in Hb, Hc3. rewrite firstn_all in Hb. subst bytes.
  rewrite drop_all in Hc3. pose proof (length_contents _ Hok2) as Hl2. rewrite Hc3 in Hl2.
  assert (sz' = 0) by lia. subst sz'. exists rb1, rb2. unfold write, read. simpl.
  assert (Hz : Z.of_nat (length data) ⊟ 0 = Z.of_nat (length data))
    by (unfold sub64; rewrite Z.sub_0_r; apply u64_small; lia).
  unfold stat, RingBuffer.size. rewrite <- Hl1, <- Hl2. split_and!; [|done| |done].
  - case_bool.
    + unfold RingBuffer.write. rewrite Hw by (unfold fits; lia). cbn [mbind option_bind length]. change (Z.of_nat 0) with 0. rewrite Hz.
      by destruct (Z.eqb_spec (Z.of_nat (length data)) 0).
    + unfold write_block. by rewrite Hwb.
  - case_bool.
    + unfold RingBuffer.read. rewrite Hr by (unfold fits; lia). cbn [mbind option_bind]. rewrite Hz.
      by destruct (Z.eqb_spec (Z.of_nat (length data)) 0).
    + unfold read_block. by rewrite Hrb.
Qed.

Lemma pipe_round_trip_witness : exists rb1 rb2,
  write (mkPipe 0 false) [5; 6] 0 (new_ring 4) = Some (Returned Success 2 [], rb1) /\
  read (mkPipe 1 true) 2 0 rb1 = Some (Returned Success 2 [5; 6], rb2).
Proof.
  destruct (pipe_round_trip 4 1 0 [5; 6] (new_ring 4) (mkPipe 1 true) (mkPipe 0 false)
    ltac:(lia) eq_refl ltac:(done) ltac:(simpl; lia)) as (rb1 & rb2 & H1 & _ & H2 & _).
  exists rb1, rb2. split; [exact H1|exact H2].
Defined.

End Pipe.
