(* ===== verification/Tar.v ===== *)
(** * The initial ram disk (src/src/fs/tar.cpp)

    A tar archive in memory is its bytes; a [TarFileNode] is the offset of its
    header.  A read outside the archive is [None].  [lookup] restarts on a
    symbolic link, which need not end, so its loop takes fuel; the theorems give
    the fuel that is enough for an archive without links. *)

From S2P Require Import Prelude StringView Vfs.

Module Tar.
Import StringView Vfs.

(** The offsets of the fields of [TarHeader] that the code reads. *)
Definition off_name : Z := 0.
Definition off_size : Z := 124.
Definition off_type_flag : Z := 156.
Definition off_linkname : Z := 157.
Definition off_magic : Z := 257.

(** A [char], which is signed. *)
Definition schar (c : Z) : Z := if c <? 128 then c else c - 256.

Definition parse_oct_chars (str : list Z) : Z :=
  foldl (fun value c => u64 (value * 8 + (schar c - 48))) 0 str.

Section Archive.
Context (img : list Z).

Definition byte_at (a : Z) : option Z := img !! Z.to_nat a.
Definition cstr_at (a : Z) : option (list Z) := of_cstr (drop (Z.to_nat a) img).
Definition parse_oct (a : Z) : option Z := str ← cstr_at a; Some (parse_oct_chars str).

(** [512 + ALIGNUP(parse_oct(hdr->size), 512)] *)
Definition entry_span (hdr : Z) : option Z :=
  sz ← parse_oct (hdr + off_size); Some (512 ⊞ ALIGNUP sz 512).

Definition dir_suffix : list Z := [47].

(** The loop of [TarFileNode::lookup]; [goto start] is the recursive call with
    the link's target. *)
Fixpoint lookup_loop (fuel : nat) (hdr : Z) (dir_name name : list Z) (offset : Z)
    : option (option Z) :=
  match fuel with
  | O => None
  | S fuel =>
      let next := hdr + offset in
      c ← byte_at (next + off_name);
      if c =? 0 then Some None
      else
        next_name ← cstr_at (next + off_name);
        let '(ok, next_name) := remove_prefix next_name dir_name in
        if negb ok then Some None
        else
          let next_name := snd (remove_suffix next_name dir_suffix) in
          if sv_eqb next_name name then
            type_flag ← byte_at (next + off_type_flag);
            if type_flag =? 50 then
              name ← cstr_at (next + off_linkname);
              span ← entry_span hdr;
              lookup_loop fuel hdr dir_name name span
            else Some (Some next)
          else
            span ← entry_span next;
            lookup_loop fuel hdr dir_name name (offset ⊞ span)
  end.

Definition lookup (fuel : nat) (hdr : Z) (name : list Z) : option (option Z) :=
  type_flag ← byte_at (hdr + off_type_flag);
  if negb (type_flag =? 53) then Some None
  else
    dir_name ← cstr_at (hdr + off_name);
    span ← entry_span hdr;
    lookup_loop fuel hdr dir_name name span.

(** The bytes copied to the caller. *)
Definition read (hdr size offset : Z) : option (FsStatus * list Z) :=
  type_flag ← byte_at (hdr + off_type_flag);
  if negb (type_flag =? 48) then Some (Unsupported, [])
  else
    max_size ← parse_oct (hdr + off_size);
    if offset ⊞ size >? max_size then Some (OutOfBounds, [])
    else
      let from := hdr ⊞ (512 ⊞ offset) in
      if from + size <=? Z.of_nat (length img) then Some (Success, slice img from size) else None.

Definition stat (hdr : Z) : option (FsStatus * Z) :=
  type_flag ← byte_at (hdr + off_type_flag);
  if negb (type_flag =? 48) then Some (Unsupported, 0)
  else size ← parse_oct (hdr + off_size); Some (Success, size).

(** [struct DirEntry]; [name] is the C string in its array. *)
Record DirEntry := mkDirEntry { de_name : list Z; de_name_len : Z; de_directory : bool }.

(** The loop of [list_dir]: the entries filled, the count and the offset. *)
Fixpoint list_loop (fuel : nat) (hdr : Z) (dir_name : list Z) (count actual_offset : Z)
    (entries : list DirEntry) : option (list DirEntry * Z * Z) :=
  let actual_count := Z.of_nat (length entries) in
  match fuel with
  | O => None
  | S fuel =>
      let next := hdr + actual_offset in
      c ← byte_at (next + off_name);
      if c =? 0 then Some (entries, actual_count, actual_offset)
      else
        orig_next_name ← cstr_at (next + off_name);
        let '(ok, _) := remove_prefix orig_next_name dir_name in
        if negb ok then Some (entries, actual_count, actual_offset)
        else if actual_count <? count then
          let n := snd (remove_suffix (snd (remove_prefix orig_next_name [46])) dir_suffix) in
          type_flag ← byte_at (next + off_type_flag);
          let entries :=
            entries ++ [mkDirEntry (slice n 0 (Z.min (StringView.size n) 127)) (StringView.size n)
                          (negb (type_flag =? 48))] in
          if actual_count + 1 =? count then Some (entries, actual_count + 1, actual_offset)
          else
            span ← entry_span next;
            list_loop fuel hdr dir_name count (actual_offset ⊞ span) entries
        else
          (* [++actual_count] without an entry: only reached with [count = 0] *)
          span ← entry_span next;
          '(entries, n, o) ← list_loop fuel hdr dir_name count (actual_offset ⊞ span) entries;
          Some (entries, n + 1, o)
  end.

Definition list_dir (fuel : nat) (hdr count offset : Z)
    : option (FsStatus * list DirEntry * Z * Z) :=
  type_flag ← byte_at (hdr + off_type_flag);
  if negb (type_flag =? 53) then Some (Unsupported, [], count, offset)
  else
    dir_name ← cstr_at (hdr + off_name);
    span ← entry_span hdr;
    '(entries, n, o) ← list_loop fuel hdr dir_name count (span ⊞ offset) [];
    Some (Success, entries, n, o).

(** [tar_initramfs_init]: the archive must be a ustar one. *)
Definition tar_initramfs_init : option Z :=
  let magic := slice img off_magic 5 in
  _ ← assert (sv_eqb magic [117; 115; 116; 97; 114]); Some 0.

End Archive.

(** ** Archives *)

(** An archive member as a tar writer stores it. *)
Record entry := mkEntry { e_name : list Z; e_type : Z; e_link : list Z; e_data : list Z }.

Definition pad (n : nat) (l : list Z) : list Z := l ++ replicate (n - length l) 0.

(** [n] octal digits of a number. *)
Fixpoint oct_digits (n : nat) (z : Z) : list Z :=
  match n with
  | O => []
  | S n => oct_digits n (z / 8) ++ [48 + z mod 8]
  end.

Definition data_size (e : entry) : Z := Z.of_nat (length (e_data e)).

Definition header (e : entry) : list Z :=
  pad 100 (e_name e) ++ replicate 24 0 ++ pad 12 (oct_digits 11 (data_size e)) ++ replicate 20 0 ++
  [e_type e] ++ pad 100 (e_link e) ++ [117; 115; 116; 97; 114; 0] ++ replicate 249 0.

Definition encode (e : entry) : list Z :=
  header e ++ pad (Z.to_nat (ALIGNUP (data_size e) 512)) (e_data e).

(** The archive ends with two zero blocks. *)
Definition archive (es : list entry) : list Z := concat (map encode es) ++ replicate 1024 0.

Record entry_ok (e : entry) : Prop := {
  eo_name : (0 < length (e_name e) < 100)%nat;
  eo_name_nz : Forall (fun c => c <> 0) (e_name e);
  eo_link : (length (e_link e) < 100)%nat;
  eo_link_nz : Forall (fun c => c <> 0) (e_link e);
  eo_size : data_size e < 8 ^ 11
}.

(** ** Fields *)

Lemma length_pad n l : (length l <= n)%nat -> length (pad n l) = n.
Proof. intros. unfold pad. rewrite length_app, length_replicate. lia. Qed.

Lemma const_strlen_app s rest : Forall (fun c => c <> 0) s -> const_strlen (s ++ 0 :: rest) = Some (length s).
Proof.
  induction 1 as [|c s Hc _ IH]; [done|]. simpl. destruct (Z.eqb_spec c 0); [done|]. by rewrite IH.
Qed.

Lemma of_cstr_pad n s rest : Forall (fun c => c <> 0) s -> (length s < n)%nat ->
  of_cstr (pad n s ++ rest) = Some s.
Proof.
  intros Hs Hl. unfold pad, of_cstr. rewrite <- (assoc_L app).
  destruct (n - length s)%nat as [|k] eqn:E; [lia|]. simpl. rewrite const_strlen_app by done. simpl.
  by rewrite take_app_length.
Qed.

Lemma length_oct_digits n z : length (oct_digits n z) = n.
Proof. revert z. induction n; intros; simpl; [done|]. rewrite length_app, IHn. simpl. lia. Qed.

Lemma oct_digits_range n z : Forall (fun c => 48 <= c < 56) (oct_digits n z).
Proof.
  revert z. induction n; intros; simpl; [constructor|]. apply Forall_app. split; [done|].
  constructor; [|constructor]. pose proof (Z.mod_pos_bound z 8). lia.
Qed.

(** The code's parser inverts the octal representation. *)
Lemma parse_oct_digits n z : 0 <= z < 8 ^ Z.of_nat n -> 8 ^ Z.of_nat n <= 2 ^ 64 ->
  parse_oct_chars (oct_digits n z) = z.
Proof.
  revert z. induction n as [|n IH]; intros z Hz Hn; [simpl in *; unfold parse_oct_chars; simpl; lia|].
  cbn [oct_digits]. unfold parse_oct_chars in *. rewrite foldl_app. simpl.
  replace (Z.of_nat (S n)) with (Z.of_nat n + 1) in * by lia. rewrite Z.pow_add_r in * by lia.
  assert (0 <= z / 8 < 8 ^ Z.of_nat n) by (split; [apply Z.div_pos|apply Z.div_lt_upper_bound]; lia).
  rewrite IH by lia. pose proof (Z.mod_pos_bound z 8 ltac:(lia)). unfold schar.
  replace (48 + z mod 8 <? 128) with true by lia. pose proof (Z.div_mod z 8 ltac:(lia)).
  rewrite u64_small; lia.
Qed.

(** [e]'s record starts at [a]. *)
Definition stored (img : list Z) (a : Z) (e : entry) : Prop :=
  0 <= a /\ exists rest, drop (Z.to_nat a) img = encode e ++ rest.

Lemma drop_stored img a e k : stored img a e -> 0 <= k ->
  exists rest, drop (Z.to_nat (a + k)) img = drop (Z.to_nat k) (encode e ++ rest).
Proof.
  intros [Ha [rest Hd]] Hk. exists rest. rewrite <- Hd, drop_drop. f_equal. lia.
Qed.

Lemma drop_app_at {A} (l1 l2 : list A) n : length l1 = n -> drop n (l1 ++ l2) = l2.
Proof. intros <-. apply drop_app_length. Qed.

(** The fields of a stored record. *)
Lemma encode_name e rest : exists post, encode e ++ rest = pad 100 (e_name e) ++ post.
Proof. unfold encode, header. rewrite <- !(assoc_L app). eauto. Qed.

Lemma encode_size e rest : entry_ok e -> exists pre post, length pre = 124%nat /\
  encode e ++ rest = pre ++ pad 12 (oct_digits 11 (data_size e)) ++ post.
Proof.
  intros []. unfold encode, header. exists (pad 100 (e_name e) ++ replicate 24 0). eexists.
  rewrite <- !(assoc_L app). split; [|reflexivity].
  rewrite length_app, length_replicate, length_pad; lia.
Qed.

Lemma encode_type e rest : entry_ok e -> exists pre post, length pre = 156%nat /\
  encode e ++ rest = pre ++ e_type e :: pad 100 (e_link e) ++ post.
Proof.
  intros []. unfold encode, header.
  exists (pad 100 (e_name e) ++ replicate 24 0 ++ pad 12 (oct_digits 11 (data_size e)) ++ replicate 20 0).
  eexists. rewrite <- !(assoc_L app). split; [|reflexivity].
  rewrite !length_app, !length_replicate, !length_pad; [lia|rewrite length_oct_digits; lia|lia].
Qed.

Lemma length_header e : entry_ok e -> length (header e) = 512%nat.
Proof.
  intros []. unfold header. rewrite !length_app, !length_replicate, !length_pad; simpl;
    rewrite ?length_oct_digits; lia.
Qed.

Lemma stored_field img a e k x : stored img a e ->
  (forall rest, exists pre post, length pre = k /\ encode e ++ rest = pre ++ x ++ post) ->
  exists post, drop (Z.to_nat (a + Z.of_nat k)) img = x ++ post.
Proof.
  intros Hst Hf. destruct (drop_stored _ _ _ (Z.of_nat k) Hst ltac:(lia)) as [rest Hd].
  destruct (Hf rest) as (p & q & Hl & He). exists q. rewrite Hd, He, Nat2Z.id. by apply drop_app_at.
Qed.

Lemma stored_name img a e : entry_ok e -> stored img a e ->
  cstr_at img (a + off_name) = Some (e_name e) /\
  exists c, byte_at img (a + off_name) = Some c /\ c <> 0.
Proof.
  intros Hok Hst. destruct (stored_field img a e 0 (pad 100 (e_name e)) Hst) as [post Hd].
  { intros rest. destruct (encode_name e rest) as [post ->]. by exists [], post. }
  destruct Hok as [Hl Hnz _ _ _]. unfold cstr_at, byte_at. change (Z.of_nat 0) with off_name in Hd. split.
  - rewrite Hd. apply of_cstr_pad; [done|lia].
  - rewrite <- (Nat.add_0_r (Z.to_nat _)), <- lookup_drop, Hd. unfold pad.
    destruct (e_name e) as [|c l]; [simpl in Hl; lia|]. exists c. split; [done|]. by inversion Hnz.
Qed.

Lemma stored_span img a e : entry_ok e -> stored img a e ->
  parse_oct img (a + off_size) = Some (data_size e) /\
  entry_span img a = Some (512 + ALIGNUP (data_size e) 512).
Proof.
  intros Hok Hst. destruct (stored_field img a e 124 (pad 12 (oct_digits 11 (data_size e))) Hst) as [post Hd].
  { intros rest. by apply encode_size. }
  assert (Hp : parse_oct img (a + off_size) = Some (data_size e)).
  { unfold parse_oct, cstr_at. change (Z.of_nat 124) with off_size in Hd. rewrite Hd, of_cstr_pad.
    - cbn [mbind option_bind]. rewrite (parse_oct_digits 11); [done| |]; change (Z.of_nat 11) with 11;
        destruct Hok; unfold data_size in *; lia.
    - eapply Forall_impl; [apply oct_digits_range|]. simpl. lia.
    - rewrite length_oct_digits. lia. }
  split; [done|]. unfold entry_span. rewrite Hp. simpl. f_equal. unfold add64. apply u64_small.
  assert (HA : ALIGNUP (data_size e) 512 = (data_size e + 511) / 512 * 512)
    by (apply (ALIGNUP_spec 9); destruct Hok; unfold data_size in *; lia).
  rewrite HA. pose proof (Z.div_mod (data_size e + 511) 512 ltac:(lia)).
  pose proof (Z.mod_pos_bound (data_size e + 511) 512 ltac:(lia)).
  destruct Hok. unfold data_size in *. lia.
Qed.

Lemma stored_type img a e : entry_ok e -> stored img a e ->
  byte_at img (a + off_type_flag) = Some (e_type e).
Proof.
  intros Hok Hst. destruct (stored_field img a e 156 [e_type e] Hst) as [post Hd].
  { intros rest. destruct (encode_type e rest Hok) as (pre & post & Hl & He). by exists pre, (pad 100 (e_link e) ++ post). }
  unfold byte_at. change (Z.of_nat 156) with off_type_flag in Hd.
  by rewrite <- (Nat.add_0_r (Z.to_nat _)), <- lookup_drop, Hd.
Qed.

(** The member after this one. *)
Definition span_of (e : entry) : Z := 512 + ALIGNUP (data_size e) 512.

Lemma align_size e : entry_ok e -> data_size e <= ALIGNUP (data_size e) 512 < data_size e + 512.
Proof.
  intros []. assert (HA : ALIGNUP (data_size e) 512 = (data_size e + 511) / 512 * 512)
    by (apply (ALIGNUP_spec 9); unfold data_size in *; lia).
  rewrite HA. pose proof (Z.div_mod (data_size e + 511) 512 ltac:(lia)).
  pose proof (Z.mod_pos_bound (data_size e + 511) 512 ltac:(lia)). lia.
Qed.

Lemma length_encode e : entry_ok e -> Z.of_nat (length (encode e)) = span_of e.
Proof.
  intros Hok. pose proof (align_size e Hok). unfold encode, span_of. rewrite length_app, length_header by done.
  rewrite length_pad; unfold data_size in *; lia.
Qed.

(** ** Directories *)

(** Members one after the other from [a] on, and the address after them. *)
Fixpoint stored_seq (img : list Z) (a : Z) (es : list entry) : Prop :=
  match es with
  | [] => True
  | e :: es => entry_ok e /\ stored img a e /\ stored_seq img (a + span_of e) es
  end.
Fixpoint seq_end (a : Z) (es : list entry) : Z :=
  match es with
  | [] => a
  | e :: es => seq_end (a + span_of e) es
  end.

(** What ends a directory: the end of the archive or a member of another one. *)
Definition terminated (img : list Z) (a : Z) (dir : list Z) : Prop :=
  byte_at img (a + off_name) = Some 0 \/
  exists e, entry_ok e /\ stored img a e /\ ~ dir `prefix_of` e_name e.

(** A member's name inside the directory, without the slash of a directory. *)
Definition local_name (dir : list Z) (e : entry) : list Z :=
  snd (remove_suffix (drop (length dir) (e_name e)) dir_suffix).

(** The address of the first member with the name. *)
Fixpoint find_member (dir name : list Z) (a : Z) (es : list entry) : option Z :=
  match es with
  | [] => None
  | e :: es => if decide (local_name dir e = name) then Some a
               else find_member dir name (a + span_of e) es
  end.

Lemma stored_bound img a e : entry_ok e -> stored img a e ->
  0 <= a /\ 512 <= span_of e /\ a + span_of e <= Z.of_nat (length img).
Proof.
  intros Hok [Ha [rest Hd]]. apply (f_equal length) in Hd. rewrite length_drop, length_app in Hd.
  pose proof (length_encode e Hok). pose proof (align_size e Hok).
  unfold span_of, data_size in *. lia.
Qed.

Lemma remove_prefix_true v p : p `prefix_of` v -> remove_prefix v p = (true, drop (length p) v).
Proof. intros H. unfold remove_prefix. by rewrite (proj2 (starts_with_spec v p) H). Qed.

Lemma remove_prefix_false v p : ~ p `prefix_of` v -> remove_prefix v p = (false, v).
Proof.
  intros H. unfold remove_prefix. destruct (starts_with v p) eqn:E; [|done].
  by apply starts_with_spec in E.
Qed.

Lemma lookup_loop_spec fuel img hdr dir name es off : 0 <= hdr -> 0 <= off ->
  Z.of_nat (length img) < 2 ^ 63 -> stored_seq img (hdr + off) es ->
  terminated img (seq_end (hdr + off) es) dir ->
  Forall (fun e => dir `prefix_of` e_name e /\ e_type e <> 50) es -> (length es < fuel)%nat ->
  lookup_loop img fuel hdr dir name off = Some (find_member dir name (hdr + off) es).
Proof.
  intros Hh. revert off fuel. induction es as [|e es IH]; intros off fuel Ho Himg Hs Ht Hes Hf;
    (destruct fuel as [|fuel]; [simpl in Hf; lia|]); cbn [lookup_loop].
  - simpl in Ht. destruct Ht as [->|(e & Hok & Hst & Hnp)]; [done|].
    destruct (stored_name _ _ _ Hok Hst) as (Hn & c & Hc & Hcz). rewrite Hc, Hn. simpl.
    destruct (Z.eqb_spec c 0); [done|]. by rewrite remove_prefix_false.
  - destruct Hs as (Hok & Hst & Hs). apply Forall_cons in Hes as [[Hpre Hty] Hes].
    destruct (stored_name _ _ _ Hok Hst) as (Hn & c & Hc & Hcz). rewrite Hc, Hn. cbn [mbind option_bind].
    destruct (Z.eqb_spec c 0); [done|]. rewrite remove_prefix_true by done. cbn [negb find_member].
    fold (local_name dir e). case_decide as Hd.
    + rewrite <- Hd, sv_eqb_refl, (stored_type _ _ _ Hok Hst). cbn [mbind option_bind].
      by destruct (Z.eqb_spec (e_type e) 50).
    + destruct (sv_eqb (local_name dir e) name) eqn:E; [by apply sv_eqb_spec in E|].
      rewrite (proj2 (stored_span _ _ _ Hok Hst)). cbn [mbind option_bind].
      fold (span_of e). pose proof (stored_bound _ _ _ Hok Hst).
      assert (off ⊞ span_of e = off + span_of e) as -> by (unfold add64; apply u64_small; lia).
      rewrite IH; try (done || lia); rewrite ?Z.add_assoc; try done. simpl in Hf. lia.
Qed.

(** [lookup] in a directory of an archive, whose members follow its own
    record and carry its name as a prefix, returns the first member with the
    name, or [nullptr] when there is none; a round of the loop per member and
    one more are enough. *)
Theorem lookup_correct img hdr d es fuel name : Z.of_nat (length img) < 2 ^ 63 ->
  stored_seq img hdr (d :: es) -> e_type d = 53 ->
  Forall (fun e => e_name d `prefix_of` e_name e /\ e_type e <> 50) es ->
  terminated img (seq_end hdr (d :: es)) (e_name d) -> (length es < fuel)%nat ->
  lookup img fuel hdr name = Some (find_member (e_name d) name (hdr + span_of d) es).
Proof.
  intros Himg (Hok & Hst & Hs) Hty Hes Ht Hf. unfold lookup.
  rewrite (stored_type _ _ _ Hok Hst), Hty. cbn [mbind option_bind]. simpl (negb _).
  rewrite (proj1 (stored_name _ _ _ Hok Hst)). rewrite (proj2 (stored_span _ _ _ Hok Hst)).
  cbn [mbind option_bind]. pose proof (stored_bound _ _ _ Hok Hst). fold (span_of d).
  by apply lookup_loop_spec; (done || lia).
Qed.

(** The data of a stored member. *)
Lemma stored_data img a e off n : entry_ok e -> stored img a e -> 0 <= off -> 0 <= n ->
  off + n <= data_size e -> slice img (a + (512 + off)) n = slice (e_data e) off n.
Proof.
  intros Hok Hst Ho Hn Hle. destruct (stored_field img a e 512 (e_data e) Hst) as [post Hd].
  { intros rest. exists (header e). eexists. split; [by apply length_header|].
    unfold encode, pad. by rewrite <- !(assoc_L app). }
  destruct Hst as [Ha _]. unfold slice. change (Z.of_nat 512) with 512 in Hd.
  replace (Z.to_nat (a + (512 + off))) with (Z.to_nat (a + 512) + Z.to_nat off)%nat by lia.
  rewrite <- drop_drop, Hd. unfold data_size in *. rewrite drop_app_le by lia.
  rewrite take_app_le; [done|]. rewrite length_drop. lia.
Qed.

(** on a regular file of an archive [stat] returns the size of its data, and
    [read] of a range inside it returns exactly those bytes, with a range that
    ends past it refused. *)
Theorem file_read_back img a e size off : Z.of_nat (length img) < 2 ^ 63 -> entry_ok e ->
  stored img a e -> e_type e = 48 -> 0 <= off -> 0 <= size -> off + size < 2 ^ 64 ->
  stat img a = Some (Success, data_size e) /\
  read img a size off =
    Some (if off + size <=? data_size e then (Success, slice (e_data e) off size)
          else (OutOfBounds, [])).
Proof.
  intros Himg Hok Hst Hty Ho Hsz Hlt. unfold stat, read.
  rewrite (stored_type _ _ _ Hok Hst), Hty, (proj1 (stored_span _ _ _ Hok Hst)). simpl. split; [done|].
  unfold add64. rewrite (u64_small (off + size)) by lia. pose proof (stored_bound _ _ _ Hok Hst).
  pose proof (align_size e Hok). rewrite Z.gtb_ltb.
  destruct (Z.ltb_spec (data_size e) (off + size)), (Z.leb_spec (off + size) (data_size e)); try lia; [done|].
  unfold span_of in *. rewrite (u64_small (512 + off)), u64_small by lia.
  destruct (Z.leb_spec (a + (512 + off) + size) (Z.of_nat (length img))); [|lia].
  by rewrite (stored_data img a e off size) by (done || lia).
Qed.

(** the bounds check of [read] adds offset and size at 64 bits and the sum
    wraps: a one-byte read at offset 2^64 - 1 passes it and returns the byte
    before the file's data, from its header. *)
Theorem file_read_offset_overflow img a e : Z.of_nat (length img) < 2 ^ 63 -> entry_ok e ->
  stored img a e -> e_type e = 48 ->
  read img a 1 (2 ^ 64 - 1) = Some (Success, slice img (a + 511) 1).
Proof.
  intros Himg Hok Hst Hty. unfold read.
  rewrite (stored_type _ _ _ Hok Hst), Hty, (proj1 (stored_span _ _ _ Hok Hst)). simpl.
  pose proof (stored_bound _ _ _ Hok Hst). pose proof (align_size e Hok).
  unfold add64. replace (u64 (2 ^ 64 - 1 + 1)) with 0 by done. rewrite Z.gtb_ltb.
  destruct (Z.ltb_spec (data_size e) 0); [unfold data_size in *; lia|].
  replace (u64 (512 + (2 ^ 64 - 1))) with 511 by done. rewrite u64_small by lia.
  unfold span_of, data_size in *. by replace (a + 511 + 1 <=? Z.of_nat (length img)) with true by lia.
Qed.

(** Every archive has its members stored in sequence, then zeros. *)
Lemma stored_archive img a es tail : Forall entry_ok es -> 0 <= a ->
  drop (Z.to_nat a) img = concat (map encode es) ++ tail ->
  stored_seq img a es /\ drop (Z.to_nat (seq_end a es)) img = tail.
Proof.
  intros Hok. revert a. induction Hok as [|e es He _ IH]; intros a Ha Hd; [done|]. simpl in Hd |- *.
  rewrite <- (assoc_L app) in Hd. pose proof (length_encode e He) as Hl.
  assert (Hd' : drop (Z.to_nat (a + span_of e)) img = concat (map encode es) ++ tail).
  { replace (Z.to_nat (a + span_of e)) with (Z.to_nat a + length (encode e))%nat by lia.
    by rewrite <- drop_drop, Hd, drop_app_length. }
  destruct (IH (a + span_of e)) as [Hs Ht]; [lia|done|]. split_and!; try done. by split; eauto.
Qed.

Lemma find_member_spec img dir name es i e a : stored_seq img a es -> es !! i = Some e ->
  local_name dir e = name ->
  (forall j e', es !! j = Some e' -> (j < i)%nat -> local_name dir e' <> name) ->
  exists a', find_member dir name a es = Some a' /\ stored img a' e /\ entry_ok e.
Proof.
  intros Hs Hi Hn. revert i a Hs Hi. induction es as [|e0 es IH]; intros i a Hs Hi Hmin; [done|].
  destruct Hs as (Hok & Hst & Hs). simpl. destruct i as [|i].
  - simpl in Hi. simplify_eq. rewrite decide_True by done. eauto.
  - rewrite decide_False by (apply (Hmin O e0); [done|lia]).
    apply (IH i); [done..|]. intros j e' Hj Hji. apply (Hmin (S j) e'); [done|lia].
Qed.

(** C39: the files of an archive can be read back by path: in the archive of a
    root directory and its members, [lookup] of a member's name from the root
    finds the first such member, and when it is a regular file [stat] and
    [read] return its size and its data. *)
Theorem archive_read_back root es name i e : Forall entry_ok (root :: es) ->
  Z.of_nat (length (archive (root :: es))) < 2 ^ 63 -> e_type root = 53 ->
  Forall (fun e => e_name root `prefix_of` e_name e /\ e_type e <> 50) es ->
  es !! i = Some e -> local_name (e_name root) e = name ->
  (forall j e', es !! j = Some e' -> (j < i)%nat -> local_name (e_name root) e' <> name) ->
  e_type e = 48 ->
  let img := archive (root :: es) in
  exists a, lookup img (S (length es)) 0 name = Some (Some a) /\
    stat img a = Some (Success, data_size e) /\
    read img a (data_size e) 0 = Some (Success, e_data e).
Proof.
  intros Hok Himg Hty Hes Hi Hn Hmin Hte img. fold img in Himg.
  destruct (stored_archive img 0 (root :: es) (replicate 1024 0)) as [Hs Ht]; [done|lia|done|].
  destruct (find_member_spec img (e_name root) name es i e (0 + span_of root)) as (a & Hf & Hst & Hoke); [apply Hs|done..|].
  exists a. split.
  - unfold lookup. destruct Hs as (Hokr & Hstr & Hs).
    rewrite (stored_type _ _ _ Hokr Hstr), Hty. cbn [mbind option_bind]. simpl (negb _).
    rewrite (proj1 (stored_name _ _ _ Hokr Hstr)), (proj2 (stored_span _ _ _ Hokr Hstr)).
    cbn [mbind option_bind]. fold (span_of root). pose proof (stored_bound _ _ _ Hokr Hstr).
    rewrite lookup_loop_spec with (es := es); [by rewrite Hf|lia|lia|done|done| |done|lia].
    left. unfold byte_at, off_name. rewrite Z.add_0_r. cbn [seq_end] in Ht.
    by rewrite <- (Nat.add_0_r (Z.to_nat _)), <- lookup_drop, Ht.
  - unfold stat, read. rewrite (stored_type _ _ _ Hoke Hst), Hte, (proj1 (stored_span _ _ _ Hoke Hst)).
    simpl. split; [done|]. pose proof (stored_bound _ _ _ Hoke Hst). pose proof (align_size e Hoke).
    unfold add64, span_of in *. assert (0 <= data_size e) by (unfold data_size; lia).
    rewrite (u64_small (0 + data_size e)) by lia. replace (_ >? _) with false by lia.
    rewrite (u64_small (512 + 0)), (u64_small (a + _)) by lia.
    replace (_ <=? _) with true by lia. rewrite (stored_data img a e 0 (data_size e)) by (done || lia).
    unfold slice, data_size. by rewrite Nat2Z.id, drop_0, firstn_all.
Qed.

(** An archive of a root directory and one file [a] that holds [1; 2; 3]. *)
Definition demo_root : entry := mkEntry [46; 47] 53 [] [].
Definition demo_file : entry := mkEntry [46; 47; 97] 48 [] [1; 2; 3].
Definition demo_img : list Z := archive [demo_root; demo_file].

Lemma demo_ok : Forall entry_ok [demo_root; demo_file].
Proof.
  repeat constructor; simpl; unfold data_size; simpl; (lia || done || (intros; lia)).
Qed.

Lemma demo_length : Z.of_nat (length demo_img) < 2 ^ 63.
Proof. by vm_compute. Qed.

Lemma demo_stored : stored_seq demo_img 0 [demo_root; demo_file] /\
  terminated demo_img (seq_end 0 [demo_root; demo_file]) [46; 47].
Proof.
  destruct (stored_archive demo_img 0 [demo_root; demo_file] (replicate 1024 0) demo_ok) as [Hs Ht];
    [lia|done|]. split; [done|]. left. by vm_compute.
Qed.

Lemma demo_members : Forall (fun e => e_name demo_root `prefix_of` e_name e /\ e_type e <> 50) [demo_file].
Proof. repeat constructor; [by exists [97]|done]. Qed.

Lemma lookup_correct_witness : lookup demo_img 2 0 [97] = Some (Some 512).
Proof.
  rewrite (lookup_correct demo_img 0 demo_root [demo_file] 2 [97] demo_length (proj1 demo_stored)
    eq_refl demo_members (proj2 demo_stored) ltac:(simpl; lia)).
  reflexivity.
Defined.

Lemma file_read_back_witness : read demo_img 512 2 1 = Some (Success, [2; 3]).
Proof.
  destruct (proj1 demo_stored) as (_ & _ & Hok & Hst & _).
  exact (proj2 (file_read_back demo_img 512 demo_file 2 1 demo_length Hok Hst eq_refl
    ltac:(lia) ltac:(lia) ltac:(lia))).
Defined.

Lemma file_read_offset_overflow_witness :
  read demo_img 512 1 (2 ^ 64 - 1) = Some (Success, slice demo_img 1023 1).
Proof.
  destruct (proj1 demo_stored) as (_ & _ & Hok & Hst & _).
  exact (file_read_offset_overflow demo_img 512 demo_file demo_length Hok Hst eq_refl).
Defined.

Lemma archive_read_back_witness : exists a,
  lookup demo_img 2 0 [97] = Some (Some a) /\ read demo_img a 3 0 = Some (Success, [1; 2; 3]).
Proof.
  destruct (archive_read_back demo_root [demo_file] [97] 0 demo_file demo_ok demo_length eq_refl
    demo_members eq_refl eq_refl ltac:(intros; lia) eq_refl) as (a & Hl & _ & Hr).
  exists a. split; [exact Hl|exact Hr].
Defined.

(** a symbolic link to itself makes [lookup] run forever: no number of
    rounds ends its loop. *)
Theorem self_link_diverges fuel :
  lookup (archive [demo_root; mkEntry [46; 47; 97] 50 [97] []]) fuel 0 [97] = None.
Proof.
  set (img := archive _). assert (Hs : stored_seq img 0 [demo_root; mkEntry [46; 47; 97] 50 [97] []]).
  { apply (stored_archive img 0 _ (replicate 1024 0)); [|lia|done].
    repeat constructor; simpl; unfold data_size; simpl; (lia || done || (intros; lia)). }
  destruct Hs as (Hok & Hst & Hok1 & Hst1 & _).
  assert (Hloop : forall fuel, lookup_loop img fuel 0 [46; 47] [97] 512 = None).
  { induction fuel0 as [|n IH]; [done|]. cbn [lookup_loop]. change (0 + 512) with (0 + span_of demo_root).
    destruct (stored_name _ _ _ Hok1 Hst1) as (-> & c & -> & Hc). cbn [mbind option_bind].
    destruct (Z.eqb_spec c 0); [done|]. rewrite (stored_type _ _ _ Hok1 Hst1).
    replace (cstr_at img (0 + span_of demo_root + off_linkname)) with (Some [97]) by (by vm_compute).
    rewrite (proj2 (stored_span _ _ _ Hok Hst)). simpl. apply IH. }
  unfold lookup. rewrite (stored_type _ _ _ Hok Hst). cbn [mbind option_bind]. simpl (negb _).
  rewrite (proj1 (stored_name _ _ _ Hok Hst)), (proj2 (stored_span _ _ _ Hok Hst)).
  cbn [mbind option_bind]. apply Hloop.
Qed.

End Tar.
