(* ===== verification/Random.v ===== *)
(** * The random number generator (src/src/dev/random.cpp)

    ChaCha20, BLAKE2b over 64-bit words, the entropy pool and the generator.
    Arrays are lists of words; the four values [arch_get_random_seed] returns in
    [get_entropy], which come from the processor, are a parameter.  [POOL]'s lock
    makes the operations atomic. *)

From S2P Require Import Prelude.

Module Random.

Definition get (v : list Z) (i : Z) : Z := nth (Z.to_nat i) v 0.
Definition set (v : list Z) (i x : Z) : list Z := <[Z.to_nat i := x]> v.

(** ** ChaCha20 *)

Definition rotate_left (value num : Z) : Z :=
  Z.lor (u32 (Z.shiftl value num)) (Z.shiftr value (32 - num)).

Definition chacha20_quarter_round (a b c d : Z) : Z * Z * Z * Z :=
  let a := u32 (a + b) in
  let d := Z.lxor d a in
  let d := rotate_left d 16 in
  let c := u32 (c + d) in
  let b := Z.lxor b c in
  let b := rotate_left b 12 in
  let a := u32 (a + b) in
  let d := Z.lxor d a in
  let d := rotate_left d 8 in
  let c := u32 (c + d) in
  let b := Z.lxor b c in
  let b := rotate_left b 7 in
  (a, b, c, d).

Definition chacha_init (key : list Z) (block_counter : Z) (nonce : list Z) : list Z :=
  [0x61707865; 0x3320646E; 0x79622D32; 0x6B206574;
   get key 0; get key 1; get key 2; get key 3; get key 4; get key 5; get key 6; get key 7;
   block_counter; get nonce 0; get nonce 1; get nonce 2].

Definition quarter_round (x y z w : Z) (s : list Z) : list Z :=
  let '(a, b, c, d) := chacha20_quarter_round (get s x) (get s y) (get s z) (get s w) in
  set (set (set (set s x a) y b) z c) w d.

Definition inner_block (s : list Z) : list Z :=
  let s := quarter_round 0 4 8 12 s in
  let s := quarter_round 1 5 9 13 s in
  let s := quarter_round 2 6 10 14 s in
  let s := quarter_round 3 7 11 15 s in
  let s := quarter_round 0 5 10 15 s in
  let s := quarter_round 1 6 11 12 s in
  let s := quarter_round 2 7 8 13 s in
  quarter_round 3 4 9 14 s.

Definition cha_cha20_block (key : list Z) (block_counter : Z) (nonce : list Z) : list Z :=
  let initial_state := chacha_init key block_counter nonce in
  let state := Nat.iter 10 inner_block initial_state in
  zip_with (fun a b => u32 (a + b)) state initial_state.

(** ** BLAKE2b *)

Definition rotate_right (value num : Z) : Z :=
  Z.lor (Z.shiftr value num) (u64 (Z.shiftl value (64 - num))).

Definition BLAKE2B_IV : list Z :=
  [0x6A09E667F3BCC908; 0xBB67AE8584CAA73B; 0x3C6EF372FE94F82B; 0xA54FF53A5F1D36F1;
   0x510E527FADE682D1; 0x9B05688C2B3E6C1F; 0x1F83D9ABFB41BD6B; 0x5BE0CD19137E2179].

Definition SIGMA : list (list Z) :=
  [[0; 1; 2; 3; 4; 5; 6; 7; 8; 9; 10; 11; 12; 13; 14; 15];
   [14; 10; 4; 8; 9; 15; 13; 6; 1; 12; 0; 2; 11; 7; 5; 3];
   [11; 8; 12; 0; 5; 2; 15; 13; 10; 14; 3; 6; 7; 1; 9; 4];
   [7; 9; 3; 1; 13; 12; 11; 14; 2; 6; 5; 10; 4; 0; 15; 8];
   [9; 0; 5; 7; 2; 4; 10; 15; 14; 1; 11; 12; 6; 8; 3; 13];
   [2; 12; 6; 10; 0; 11; 8; 3; 4; 13; 7; 5; 15; 14; 1; 9];
   [12; 5; 1; 15; 14; 13; 4; 10; 0; 7; 6; 3; 9; 2; 8; 11];
   [13; 11; 7; 14; 12; 1; 3; 9; 5; 0; 15; 4; 8; 6; 2; 10];
   [6; 15; 14; 9; 11; 3; 0; 8; 12; 2; 13; 7; 1; 4; 10; 5];
   [10; 2; 8; 4; 7; 6; 1; 5; 15; 11; 9; 14; 3; 12; 13; 0];
   [0; 1; 2; 3; 4; 5; 6; 7; 8; 9; 10; 11; 12; 13; 14; 15];
   [14; 10; 4; 8; 9; 15; 13; 6; 1; 12; 0; 2; 11; 7; 5; 3]].

Definition mix_g (a b c d x y : Z) (v : list Z) : list Z :=
  let v := set v a (u64 (get v a + (get v b + x))) in
  let v := set v d (rotate_right (Z.lxor (get v d) (get v a)) 32) in
  let v := set v c (u64 (get v c + get v d)) in
  let v := set v b (rotate_right (Z.lxor (get v b) (get v c)) 24) in
  let v := set v a (u64 (get v a + (get v b + y))) in
  let v := set v d (rotate_right (Z.lxor (get v d) (get v a)) 16) in
  let v := set v c (u64 (get v c + get v d)) in
  set v b (rotate_right (Z.lxor (get v b) (get v c)) 63).

Record Blake2bState := mkBlake {
  input : list Z;
  state : list Z;
  offset0 : Z;
  offset1 : Z;
  input_ptr : Z;
  digest_size : Z
}.

(** One row of [SIGMA]. *)
Definition sigma_round (input v s : list Z) : list Z :=
  let m i := get input (get s i) in
  let v := mix_g 0 4 8 12 (m 0) (m 1) v in
  let v := mix_g 1 5 9 13 (m 2) (m 3) v in
  let v := mix_g 2 6 10 14 (m 4) (m 5) v in
  let v := mix_g 3 7 11 15 (m 6) (m 7) v in
  let v := mix_g 0 5 10 15 (m 8) (m 9) v in
  let v := mix_g 1 6 11 12 (m 10) (m 11) v in
  let v := mix_g 2 7 8 13 (m 12) (m 13) v in
  mix_g 3 4 9 14 (m 14) (m 15) v.

(** [compress], as a function of the fields it reads; it writes [state] only. *)
Definition compress_words (input state : list Z) (o0 o1 : Z) (final : bool) : list Z :=
  let v := state ++ BLAKE2B_IV in
  let v := set v 12 (Z.lxor (get v 12) o0) in
  let v := set v 13 (Z.lxor (get v 13) o1) in
  let v := if final then set v 14 (u64 (Z.lnot (get v 14))) else v in
  let v := foldl (sigma_round input) v SIGMA in
  imap (fun i x => Z.lxor x (Z.lxor (get v (Z.of_nat i)) (get v (8 + Z.of_nat i)))) state.

Definition compress (final : bool) (b : Blake2bState) : Blake2bState :=
  mkBlake (input b) (compress_words (input b) (state b) (offset0 b) (offset1 b) final)
    (offset0 b) (offset1 b) (input_ptr b) (digest_size b).

(** [offset[0] += n; if (offset[0] < n) offset[1] += 1;] *)
Definition advance (n : Z) (b : Blake2bState) : Blake2bState :=
  let o0 := u64 (offset0 b + n) in
  mkBlake (input b) (state b) o0 (if o0 <? n then u64 (offset1 b + 1) else offset1 b)
    (input_ptr b) (digest_size b).

Definition put_word (b : Blake2bState) (w : Z) : Blake2bState :=
  let b :=
    if input_ptr b =? 16 then
      let b := compress false (advance 128 b) in
      mkBlake (input b) (state b) (offset0 b) (offset1 b) 0 (digest_size b)
    else b in
  mkBlake (set (input b) (input_ptr b) w) (state b) (offset0 b) (offset1 b) (input_ptr b + 1)
    (digest_size b).

Definition add_data (data : list Z) (b : Blake2bState) : Blake2bState := foldl put_word b data.

Definition init (chosen_digest_size : Z) (key : list Z) : Blake2bState :=
  let key_words := Z.of_nat (length key) in
  let s0 := Z.lxor (get BLAKE2B_IV 0)
              (Z.lxor (Z.lxor 0x01010000 (u64 (Z.shiftl (key_words * 8) 8))) chosen_digest_size) in
  let b := mkBlake (replicate 16 0) (set BLAKE2B_IV 0 s0) 0 0 0 chosen_digest_size in
  if negb (key_words =? 0) then
    let b := add_data key b in
    mkBlake (input b) (state b) (offset0 b) (offset1 b) 16 (digest_size b)
  else b.

(** [while (input_ptr < 16) input[input_ptr++] = 0;] *)
Fixpoint zero_fill (n : nat) (ptr : Z) (inp : list Z) : list Z :=
  match n with
  | O => inp
  | S n => zero_fill n (ptr + 1) (set inp ptr 0)
  end.

Definition generate_digest (b : Blake2bState) : list Z * Blake2bState :=
  let b := advance (input_ptr b * 8) b in
  let b := mkBlake (zero_fill (Z.to_nat (16 - input_ptr b)) (input_ptr b) (input b)) (state b)
             (offset0 b) (offset1 b) 16 (digest_size b) in
  let b := compress true b in
  (take (Z.to_nat (digest_size b / 8)) (state b), b).

(** ** The self test that the compiler evaluates *)

Definition verify : bool :=
  bool_decide (chacha20_quarter_round 0x11111111 0x01020304 0x9B8D6F43 0x01234567 =
    (0xEA2A92F4, 0xCB1CF8CE, 0x4581472E, 0x5881C4BB)) &&
  bool_decide (quarter_round 2 7 8 13
      [0x879531E0; 0xC5ECF37D; 0x516461B1; 0xC9A62F8A; 0x44C20EF3; 0x3390AF7F; 0xD9FC690B; 0x2A5F714C;
       0x53372767; 0xB00A5631; 0x974C541A; 0x359E9963; 0x5C971061; 0x3D631689; 0x2098D9D6; 0x91DBD320] =
      [0x879531E0; 0xC5ECF37D; 0xBDB886DC; 0xC9A62F8A; 0x44C20EF3; 0x3390AF7F; 0xD9FC690B; 0xCFACAFD2;
       0xE46BEA80; 0xB00A5631; 0x974C541A; 0x359E9963; 0x5C971061; 0xCCC07C79; 0x2098D9D6; 0x91DBD320]) &&
  bool_decide (cha_cha20_block
      [0x03020100; 0x07060504; 0x0B0A0908; 0x0F0E0D0C; 0x13121110; 0x17161514; 0x1B1A1918; 0x1F1E1D1C]
      1 [0x09000000; 0x4A000000; 0x00000000] =
      [0xE4E7F110; 0x15593BD1; 0x1FDD0F50; 0xC47120A3; 0xC7F4D1C7; 0x0368C033; 0x9AAA2204; 0x4E6CD4C3;
       0x466482D2; 0x09AA9F07; 0x05D7C214; 0xA2028BD9; 0xD19C12B5; 0xB94E16DE; 0xE883D0CB; 0x4E3C50A2]) &&
  let blake2b := init 64 [] in
  bool_decide (state blake2b =
      [0x6A09E667F2BDC948; 0xBB67AE8584CAA73B; 0x3C6EF372FE94F82B; 0xA54FF53A5F1D36F1;
       0x510E527FADE682D1; 0x9B05688C2B3E6C1F; 0x1F83D9ABFB41BD6B; 0x5BE0CD19137E2179]) &&
  let value := Z.lor (Z.lor 97 (Z.shiftl 98 8)) (Z.shiftl 99 16) in
  bool_decide (fst (generate_digest (add_data [value] blake2b)) =
      [0x47B2769FCFAA99D4; 0x33481B4207A384E3; 0x6BE603A9F6CE35A; 0xDE3C4E7AB372B53;
       0xD4BB9E1DC95F4186; 0xB68EBAE3F1A083D3; 0x55332A18E58BAE4F; 0x471BB9CDD6AC785A]).

(** ** The entropy pool *)

Record Pool := mkPool { pool_state : Blake2bState; entropy_bits : Z }.

Definition new_pool : Pool := mkPool (init 32 []) 0.

Definition add_entropy (words : list Z) (credible_bits : Z) (p : Pool) : Pool :=
  let bits := u32 (entropy_bits p + credible_bits) in
  mkPool (add_data words (pool_state p)) (if bits >=? 256 then 256 else bits).

(** The bytes of an array of [n]-byte words. *)
Definition words_bytes (n : nat) (ws : list Z) : list Z := concat (map (le_bytes n) ws).

(** The output loop: a digest of 32 bytes per round. *)
Fixpoint entropy_loop (fuel : nat) (seed arch_seeds : list Z) (counter : Z) (size : Z)
    : option (list Z) :=
  if size =? 0 then Some []
  else
    match fuel with
    | O => None
    | S fuel =>
        let to_copy := Z.min size 32 in
        let counter := u64 (counter + 1) in
        let new_state := add_data [counter] (add_data arch_seeds (init 32 seed)) in
        let digest := fst (generate_digest new_state) in
        rest ← entropy_loop fuel seed arch_seeds counter (size - to_copy);
        Some (take (Z.to_nat to_copy) (words_bytes 8 digest) ++ rest)
    end.

Definition get_entropy (arch_seeds : list Z) (size : Z) (p : Pool) : option (list Z * Pool) :=
  let seed := fst (generate_digest (pool_state p)) in
  let bits := if entropy_bits p >=? 128 then entropy_bits p - 128 else 0 in
  let next_key := fst (generate_digest (add_data arch_seeds (init 32 seed))) in
  out ← entropy_loop (Z.to_nat size) seed arch_seeds 0 size;
  Some (out, mkPool (init 32 next_key) bits).

(** ** The generator *)

Definition nonce_use (n : list Z) : list Z :=
  match n with
  | [a; b; c] =>
      let a := u32 (a + 1) in
      if a =? 0 then
        let b := u32 (b + 1) in
        if b =? 0 then [a; b; u32 (c + 1)] else [a; b; c]
      else [a; b; c]
  | _ => n
  end.

Record generator := mkGen { POOL : Pool; NONCE : list Z; EVENT : Z }.

Definition initial : generator := mkGen new_pool [0; 0; 0] 0.

Definition random_add_entropy (words : list Z) (credible_bits : Z) (g : generator) : generator :=
  mkGen (add_entropy words credible_bits (POOL g)) (NONCE g) (u64 (EVENT g + 1)).

(** [wait_for_entropy] returns when this is false. *)
Definition must_wait (entropy : Z) (g : generator) : bool := entropy_bits (POOL g) <? entropy.

(** The 32-bit words of a byte array. *)
Fixpoint bytes_words (n : nat) (bs : list Z) : list Z :=
  match n with
  | O => []
  | S n => le_val (take 4 bs) :: bytes_words n (drop 4 bs)
  end.

(** [for (usize i = 0; i < size; i += 64)] *)
Fixpoint generate_loop (fuel : nat) (key nonce : list Z) (counter i size : Z) : option (list Z) :=
  if i <? size then
    match fuel with
    | O => None
    | S fuel =>
        let to_copy := Z.min (size ⊟ i) 64 in
        let st := cha_cha20_block key counter nonce in
        rest ← generate_loop fuel key nonce (u32 (counter + 1)) (i ⊞ 64) size;
        Some (take (Z.to_nat to_copy) (words_bytes 4 st) ++ rest)
    end
  else Some [].

(** After [wait_for_entropy]. *)
Definition random_generate (arch_seeds : list Z) (size : Z) (g : generator)
    : option (list Z * generator) :=
  '(key_bytes, p) ← get_entropy arch_seeds 32 (POOL g);
  let key := bytes_words 8 key_bytes in
  out ← generate_loop (Z.to_nat size) key (NONCE g) 0 0 size;
  Some (out, mkGen p (nonce_use (NONCE g)) (EVENT g)).

End Random.
