(* ===== verification/Blake2b.v ===== *)
(** * BLAKE2b, after RFC 7693

    The hash function as the standard defines it, over bytes, with constants and tables of
    its own: the reference that the implementation of src/src/dev/random.cpp is compared
    with.  The second half shows that the compression function of the code is that of the
    standard, on words of 64 bits. *)

From S2P Require Import Prelude Random.

Module Blake2b.

(** ** The standard *)

(** Section 2.1: w is 64, there are 12 rounds of blocks of 128 bytes, and the rotations are
    by 32, 24, 16 and 63. *)
Definition R1 : Z := 32.
Definition R2 : Z := 24.
Definition R3 : Z := 16.
Definition R4 : Z := 63.

(** Rotation of a word to the right by [n] bits. *)
Definition rotr (x n : Z) : Z := x / 2 ^ n + x mod 2 ^ n * 2 ^ (64 - n).

(** Section 2.6: the first 64 bits of the fractions of the square roots of the first eight
    primes. *)
Definition root_fraction (p : Z) : Z := Z.sqrt (p * 2 ^ 128) mod 2 ^ 64.
Definition IV : list Z := root_fraction <$> [2; 3; 5; 7; 11; 13; 17; 19].

(** Section 2.7: the schedule of the words of a block, one row a round, starting over
    after ten. *)
Definition sigma : list (list nat) := [
  [0; 1; 2; 3; 4; 5; 6; 7; 8; 9; 10; 11; 12; 13; 14; 15];
  [14; 10; 4; 8; 9; 15; 13; 6; 1; 12; 0; 2; 11; 7; 5; 3];
  [11; 8; 12; 0; 5; 2; 15; 13; 10; 14; 3; 6; 7; 1; 9; 4];
  [7; 9; 3; 1; 13; 12; 11; 14; 2; 6; 5; 10; 4; 0; 15; 8];
  [9; 0; 5; 7; 2; 4; 10; 15; 14; 1; 11; 12; 6; 8; 3; 13];
  [2; 12; 6; 10; 0; 11; 8; 3; 4; 13; 7; 5; 15; 14; 1; 9];
  [12; 5; 1; 15; 14; 13; 4; 10; 0; 7; 6; 3; 9; 2; 8; 11];
  [13; 11; 7; 14; 12; 1; 3; 9; 5; 0; 15; 4; 8; 6; 2; 10];
  [6; 15; 14; 9; 11; 3; 0; 8; 12; 2; 13; 7; 1; 4; 10; 5];
  [10; 2; 8; 4; 7; 6; 1; 5; 15; 11; 9; 14; 3; 12; 13; 0]]%nat.

#[local] Notation "v .[ i ]" := (nth i v 0) (at level 2, left associativity, format "v .[ i ]").

(** Section 3.1, the mixing function. *)
Definition G (v : list Z) (a b c d : nat) (x y : Z) : list Z :=
  let v := <[a := (v.[a] + v.[b] + x) mod 2 ^ 64]> v in
  let v := <[d := rotr (Z.lxor v.[d] v.[a]) R1]> v in
  let v := <[c := (v.[c] + v.[d]) mod 2 ^ 64]> v in
  let v := <[b := rotr (Z.lxor v.[b] v.[c]) R2]> v in
  let v := <[a := (v.[a] + v.[b] + y) mod 2 ^ 64]> v in
  let v := <[d := rotr (Z.lxor v.[d] v.[a]) R3]> v in
  let v := <[c := (v.[c] + v.[d]) mod 2 ^ 64]> v in
  <[b := rotr (Z.lxor v.[b] v.[c]) R4]> v.

Definition F_round (m : list Z) (v : list Z) (i : nat) : list Z :=
  let s := nth (i mod 10) sigma [] in
  let w j := m.[nth j s 0%nat] in
  let v := G v 0 4 8 12 (w 0%nat) (w 1%nat) in
  let v := G v 1 5 9 13 (w 2%nat) (w 3%nat) in
  let v := G v 2 6 10 14 (w 4%nat) (w 5%nat) in
  let v := G v 3 7 11 15 (w 6%nat) (w 7%nat) in
  let v := G v 0 5 10 15 (w 8%nat) (w 9%nat) in
  let v := G v 1 6 11 12 (w 10%nat) (w 11%nat) in
  let v := G v 2 7 8 13 (w 12%nat) (w 13%nat) in
  G v 3 4 9 14 (w 14%nat) (w 15%nat).

(** Section 3.2, the compression function, with an offset [t] of 128 bits. *)
Definition F (h m : list Z) (t : Z) (f : bool) : list Z :=
  let v := h ++ IV in
  let v := <[12%nat := Z.lxor v.[12] (t mod 2 ^ 64)]> v in
  let v := <[13%nat := Z.lxor v.[13] (t / 2 ^ 64 mod 2 ^ 64)]> v in
  let v := if f then <[14%nat := Z.lxor v.[14] 0xFFFFFFFFFFFFFFFF]> v else v in
  let v := foldl (F_round m) v (seq 0 12) in
  (fun i => Z.lxor (Z.lxor h.[i] v.[i]) v.[(i + 8)%nat]) <$> seq 0 8.

(** Section 3.3: a block of 128 bytes as 16 words, and the digest of [nn] bytes.  A key is
    padded to a block before the message; an empty message without a key is a block of
    zeros. *)
Definition padded (bs : list Z) : list Z := bs ++ replicate (128 - length bs) 0.
Definition block (data : list Z) (i : nat) : list Z := padded (take 128 (drop (128 * i) data)).
Definition block_words (bs : list Z) : list Z := (fun i => le_val (take 8 (drop (8 * i) bs))) <$> seq 0 16.

Definition start (nn kk : Z) : list Z := <[0%nat := Z.lxor IV.[0] (Z.lxor (Z.lxor 0x01010000 (Z.shiftl kk 8)) nn)]> IV.

Definition blake2b (nn : nat) (key msg : list Z) : list Z :=
  let kk := Z.of_nat (length key) in
  let ll := Z.of_nat (length msg) in
  let data := (if decide (key = []) then [] else padded key) ++ msg in
  let dd := Nat.max 1 ((length data + 127) / 128) in
  let h := foldl (fun h i => F h (block_words (block data i)) (Z.of_nat (i + 1) * 128) false) (start (Z.of_nat nn) kk) (seq 0 (dd - 1)) in
  let h := F h (block_words (block data (dd - 1))) (if decide (key = []) then ll else ll + 128) true in
  take nn (concat (le_bytes 8 <$> h)).

(** Appendix A: the digest of "abc". *)
Example rfc_abc : blake2b 64 [] [97; 98; 99] = [
  0xBA; 0x80; 0xA5; 0x3F; 0x98; 0x1C; 0x4D; 0x0D; 0x6A; 0x27; 0x97; 0xB6; 0x9F; 0x12; 0xF6; 0xE9;
  0x4C; 0x21; 0x2F; 0x14; 0x68; 0x5A; 0xC4; 0xB7; 0x4B; 0x12; 0xBB; 0x6F; 0xDB; 0xFF; 0xA2; 0xD1;
  0x7D; 0x87; 0xC5; 0x39; 0x2A; 0xAB; 0x79; 0x2D; 0xC2; 0x52; 0xD5; 0xDE; 0x45; 0x33; 0xCC; 0x95;
  0x18; 0xD3; 0x8A; 0xA8; 0xDB; 0xF1; 0x92; 0x5A; 0xB9; 0x23; 0x86; 0xED; 0xD4; 0x00; 0x99; 0x23].
Proof. vm_compute. reflexivity. Qed.

(** ** The compression function of the code *)

Import Random.

Definition words (l : list Z) : Prop := Forall (fits 64) l.

Lemma fits_xor a b : fits 64 a -> fits 64 b -> fits 64 (Z.lxor a b).
Proof.
  intros Ha Hb. apply fits_bits; [lia|apply Z.lxor_nonneg; unfold fits in *; lia|].
  intros i Hi. by rewrite Z.lxor_spec, (testbit_fits 64 a), (testbit_fits 64 b).
Qed.

Lemma words_get v i : words v -> fits 64 v.[i].
Proof.
  intros Hv. rewrite nth_lookup. destruct (v !! i) as [x|] eqn:E; cbn; [|unfold fits; lia].
  exact (Forall_lookup_1 _ _ _ _ Hv E).
Qed.

Lemma words_set v i x : words v -> fits 64 x -> words (<[i := x]> v).
Proof. intros Hv Hx. by apply Forall_insert. Qed.

Lemma fits_mod x : fits 64 (x mod 2 ^ 64).
Proof. unfold fits. apply Z.mod_pos_bound. lia. Qed.

Lemma rotr_fits x n : fits 64 x -> 0 < n < 64 -> fits 64 (rotr x n).
Proof.
  unfold fits, rotr. intros Hx Hn. pose proof (Z.mod_pos_bound x (2 ^ n) ltac:(lia)) as Hm.
  assert (Hp : 2 ^ 64 = 2 ^ n * 2 ^ (64 - n)) by (rewrite <- Z.pow_add_r by lia; f_equal; lia).
  assert (Hd : 0 <= x / 2 ^ n < 2 ^ (64 - n)) by (split; [apply Z.div_pos; lia|apply Z.div_lt_upper_bound; lia]).
  nia.
Qed.

(** The rotation of the code. *)
Lemma rotate_rotr x n : fits 64 x -> 0 < n < 64 -> rotate_right x n = rotr x n.
Proof.
  unfold fits, rotate_right, rotr, u64, wrap. intros Hx Hn.
  assert (Hp : 2 ^ 64 = 2 ^ n * 2 ^ (64 - n)) by (rewrite <- Z.pow_add_r by lia; f_equal; lia).
  assert (Hd : 0 <= x / 2 ^ n < 2 ^ (64 - n)) by (split; [apply Z.div_pos; lia|apply Z.div_lt_upper_bound; lia]).
  rewrite Z.shiftr_div_pow2, Z.shiftl_mul_pow2 by lia. rewrite Hp at 1. rewrite Z.mul_mod_distr_r by lia.
  rewrite <- Z.lxor_lor, <- Z.add_nocarry_lxor; [done|..].
  all: rewrite <- (Z.shiftl_mul_pow2 (x mod 2 ^ n)) by lia; apply Z.bits_inj'; intros i Hi; rewrite Z.land_spec, Z.bits_0, Z.shiftl_spec by lia;
    (destruct (Z.lt_ge_cases i (64 - n)); [rewrite (Z.testbit_neg_r _ (i - (64 - n))) by lia; apply andb_false_r|by rewrite (testbit_fits (64 - n) (x / 2 ^ n)) by (unfold fits; lia)]).
Qed.

(** A step of the mixing function that rotates. *)
Lemma rotate_step v a b n : words v -> 0 < n < 64 ->
  rotate_right (Z.lxor (v.[a]) (v.[b])) n = rotr (Z.lxor v.[a] v.[b]) n /\ fits 64 (rotr (Z.lxor v.[a] v.[b]) n).
Proof.
  intros Hv Hn. assert (Hx : fits 64 (Z.lxor v.[a] v.[b])) by (apply fits_xor; by apply words_get).
  split; [by apply rotate_rotr|by apply rotr_fits].
Qed.

Lemma mix_ok (a b c d x y : Z) v : words v ->
  let g := G v (Z.to_nat a) (Z.to_nat b) (Z.to_nat c) (Z.to_nat d) x y in mix_g a b c d x y v = g /\ words g.
Proof.
  intros Hv. unfold mix_g, G, get, set, u64, wrap, R1, R2, R3, R4. rewrite !Z.add_assoc.
  generalize (Z.to_nat a) as ia, (Z.to_nat b) as ib, (Z.to_nat c) as ic, (Z.to_nat d) as id. clear a b c d. intros a b c d.
  assert (Hadd : forall v i z, words v -> words (<[i := z mod 2 ^ 64]> v)) by (intros; apply words_set; [done|apply fits_mod]).
  assert (Hrot : forall v i a b n, words v -> 0 < n < 64 -> <[i := rotate_right (Z.lxor v.[a] v.[b]) n]> v = <[i := rotr (Z.lxor v.[a] v.[b]) n]> v /\
    words (<[i := rotr (Z.lxor v.[a] v.[b]) n]> v)).
  { intros v0 i a0 b0 n Hv0 Hn. destruct (rotate_step v0 a0 b0 n Hv0 Hn) as [-> Hf]. split; [done|by apply words_set]. }
  cbv zeta. set (v1 := <[a := _]> v). assert (H1 : words v1) by (by apply Hadd). clearbody v1.
  destruct (Hrot v1 d d a 32 H1 ltac:(lia)) as [-> H2]. set (v2 := <[d := _]> v1) in *. clearbody v2.
  set (v3 := <[c := _]> v2). assert (H3 : words v3) by (by apply Hadd). clearbody v3.
  destruct (Hrot v3 b b c 24 H3 ltac:(lia)) as [-> H4]. set (v4 := <[b := _]> v3) in *. clearbody v4.
  set (v5 := <[a := _]> v4). assert (H5 : words v5) by (by apply Hadd). clearbody v5.
  destruct (Hrot v5 d d a 16 H5 ltac:(lia)) as [-> H6]. set (v6 := <[d := _]> v5) in *. clearbody v6.
  set (v7 := <[c := _]> v6). assert (H7 : words v7) by (by apply Hadd). clearbody v7.
  exact (Hrot v7 b b c 63 H7 ltac:(lia)).
Qed.

Lemma mix_G a b c d x y v : words v -> mix_g a b c d x y v = G v (Z.to_nat a) (Z.to_nat b) (Z.to_nat c) (Z.to_nat d) x y.
Proof. intros Hv. apply (mix_ok a b c d x y v Hv). Qed.
Lemma G_words a b c d x y v : words v -> words (G v a b c d x y).
Proof.
  intros Hv. pose proof (mix_ok (Z.of_nat a) (Z.of_nat b) (Z.of_nat c) (Z.of_nat d) x y v Hv) as [_ H]. by rewrite !Nat2Z.id in H.
Qed.
Lemma mix_words a b c d x y v : words v -> words (mix_g a b c d x y v).
Proof. intros Hv. rewrite mix_G by done. by apply G_words. Qed.

Create HintDb blake.
#[local] Hint Resolve G_words mix_words : blake.

Lemma SIGMA_rows : SIGMA = (fun i => Z.of_nat <$> nth (i mod 10) sigma []) <$> seq 0 12.
Proof. reflexivity. Qed.

Lemma scheduled (m : list Z) (s : list nat) (j : Z) : get m (get (Z.of_nat <$> s) j) = m.[nth (Z.to_nat j) s 0%nat].
Proof.
  unfold get. rewrite (nth_lookup (Z.of_nat <$> s)), (nth_lookup s), list_lookup_fmap. destruct (s !! Z.to_nat j); cbn; [by rewrite Nat2Z.id|done].
Qed.

Lemma round_F m v i : words v -> sigma_round m v (Z.of_nat <$> nth (i mod 10) sigma []) = F_round m v i.
Proof.
  intros Hv. unfold sigma_round, F_round. rewrite !scheduled. cbv zeta. rewrite !mix_G by eauto 10 with blake. reflexivity.
Qed.

Lemma round_words m v i : words v -> words (F_round m v i).
Proof. intros Hv. unfold F_round. cbv zeta. eauto 10 with blake. Qed.

Lemma rounds_F m is_ : forall v, words v ->
  foldl (sigma_round m) v ((fun i => Z.of_nat <$> nth (i mod 10) sigma []) <$> is_) = foldl (F_round m) v is_ /\ words (foldl (F_round m) v is_).
Proof.
  induction is_ as [|i is_ IH]; intros v Hv; [done|]. cbn [fmap list_fmap foldl]. rewrite round_F by done. by apply IH, round_words.
Qed.

(** Complementing a word. *)
Lemma lnot_xor x : fits 64 x -> u64 (Z.lnot x) = Z.lxor x 0xFFFFFFFFFFFFFFFF.
Proof.
  intros Hx. change 0xFFFFFFFFFFFFFFFF with (Z.ones 64). apply Z.bits_inj'. intros i Hi. unfold u64. rewrite testbit_wrap by lia.
  rewrite Z.lnot_spec, Z.lxor_spec, Z.testbit_ones_nonneg by lia. destruct (Z.ltb_spec i 64); cbn; [by rewrite xorb_true_r|].
  by rewrite xorb_false_r, (testbit_fits 64 x) by done.
Qed.

Lemma IV_code : BLAKE2B_IV = IV.
Proof. vm_compute. reflexivity. Qed.
Lemma IV_words : words IV.
Proof. apply (bool_decide_unpack _). vm_compute. reflexivity. Qed.

(** [compress] is the function F of the standard. *)
Lemma compress_F m h t f : length h = 8%nat -> words h ->
  compress_words m h (u64 t) (u64 (t / 2 ^ 64)) f = F h m t f /\ length (F h m t f) = 8%nat /\ words (F h m t f).
Proof.
  intros Hl Hh. unfold compress_words, F. rewrite IV_code, SIGMA_rows. cbv zeta. set (v0 := h ++ IV).
  assert (H0 : words v0) by (apply Forall_app; split; [done|exact IV_words]). clearbody v0.
  unfold get, set. change (u64 t) with (t mod 2 ^ 64). change (u64 (t / 2 ^ 64)) with (t / 2 ^ 64 mod 2 ^ 64).
  change (Z.to_nat 12) with 12%nat. change (Z.to_nat 13) with 13%nat. change (Z.to_nat 14) with 14%nat.
  set (v1 := <[12%nat := _]> v0). assert (H1 : words v1) by (apply words_set; [done|apply fits_xor; [by apply words_get|apply fits_mod]]). clearbody v1.
  set (v2 := <[13%nat := _]> v1). assert (H2 : words v2) by (apply words_set; [done|apply fits_xor; [by apply words_get|apply fits_mod]]). clearbody v2.
  assert (E3 : (if f then <[14%nat := u64 (Z.lnot v2.[14])]> v2 else v2) = (if f then <[14%nat := Z.lxor v2.[14] 0xFFFFFFFFFFFFFFFF]> v2 else v2)).
  { destruct f; [|done]. by rewrite lnot_xor by (by apply words_get). }
  rewrite E3. set (v3 := if f then _ else v2). assert (H3 : words v3).
  { unfold v3. destruct f; [|done]. apply words_set; [done|]. apply fits_xor; [by apply words_get|]. unfold fits. lia. }
  clearbody v3. destruct (rounds_F m (seq 0 12) v3 H3) as [-> H4]. set (v4 := foldl _ v3 _) in *. clearbody v4. split_and!; [|done|].
  - do 8 (destruct h as [|? h]; [done|]). destruct h; [|done]. cbn -[nth Z.lxor]. by rewrite !Z.lxor_assoc.
  - apply Forall_fmap, Forall_forall. intros i _. cbn. apply fits_xor; [apply fits_xor|]; by apply words_get.
Qed.

End Blake2b.
