(* ===== verification/RandomCorrect.v ===== *)
(** * Correctness of the random number generator

    The incremental BLAKE2b gives the digest of the whole message as the standard
    (Blake2b.v) defines it, the ChaCha20
    rounds are a permutation, the nonce is a 96-bit counter, and the generator
    returns the requested number of key-stream bytes. *)

From S2P Require Import Prelude Random Blake2b.

Module RandomCorrect.
Import Random.

(** the model computes the test vectors that the source checks at compile
    time, those of RFC 8439 and RFC 7693. *)
Theorem verify_ok : verify = true.
Proof. vm_compute. reflexivity. Qed.

#[local] Opaque compress_words.

(** ** BLAKE2b over a whole message

    First in words, with the compression function of the code; then this is the hash of
    the standard. *)

Definition pad_block (ws : list Z) : list Z := ws ++ replicate (16 - length ws) 0.

(** The hash of a message from a chaining value: every block of 16 words but the
    last is compressed with the number of bytes so far, the last one padded with
    zeros and flagged.  The message shrinks each round, so its length bounds the
    fuel. *)
Fixpoint hash_words (fuel : nat) (h : list Z) (t : Z) (ws : list Z) : list Z :=
  match fuel with
  | O => h
  | S fuel =>
      if decide (length ws <= 16)%nat then
        let t := t + 8 * Z.of_nat (length ws) in
        compress_words (pad_block ws) h (u64 t) (u64 (t / 2 ^ 64)) true
      else
        let t := t + 128 in
        hash_words fuel (compress_words (take 16 ws) h (u64 t) (u64 (t / 2 ^ 64)) false) t (drop 16 ws)
  end.

Definition hash_from (h : list Z) (t : Z) (ws : list Z) : list Z :=
  hash_words (S (length ws)) h t ws.

(** The state of a fresh hash. *)
Definition param_state (ds kk : Z) : list Z :=
  set BLAKE2B_IV 0 (Z.lxor (get BLAKE2B_IV 0) (Z.lxor (Z.lxor 0x01010000 (u64 (Z.shiftl (kk * 8) 8))) ds)).

Lemma hash_words_fuel fuel fuel' h t ws : (length ws < fuel)%nat -> (length ws < fuel')%nat ->
  hash_words fuel h t ws = hash_words fuel' h t ws.
Proof.
  revert fuel' h t ws. induction fuel as [|fuel IH]; intros fuel' h t ws Hf Hf'; [lia|].
  destruct fuel' as [|fuel']; [lia|]. cbn [hash_words]. case_decide; [done|].
  apply IH; rewrite length_drop; lia.
Qed.

Lemma hash_from_long h t ws : (16 < length ws)%nat ->
  hash_from h t ws = hash_from
    (compress_words (take 16 ws) h (u64 (t + 128)) (u64 ((t + 128) / 2 ^ 64)) false) (t + 128) (drop 16 ws).
Proof.
  intros Hl. unfold hash_from at 1. cbn [hash_words]. rewrite decide_False by lia.
  apply hash_words_fuel; rewrite length_drop; lia.
Qed.

(** ** Streaming *)

Definition pending (b : Blake2bState) : list Z := take (Z.to_nat (input_ptr b)) (input b).

Record stream (b : Blake2bState) (t : Z) : Prop := {
  st_input : length (input b) = 16%nat;
  st_ptr : 0 <= input_ptr b <= 16;
  st_t : 0 <= t;
  st_o0 : offset0 b = u64 t;
  st_o1 : offset1 b = u64 (t / 2 ^ 64)
}.

Lemma advance_spec n b t : stream b t -> 0 <= n < 2 ^ 64 -> stream (advance n b) (t + n).
Proof.
  intros [? ? Ht H0 H1] Hn. unfold advance. split; simpl; try (done || lia).
  - rewrite H0. unfold u64, wrap. by rewrite Zplus_mod_idemp_l.
  - rewrite H0, H1. unfold u64, wrap. set (M := 2 ^ 64) in *.
    assert (HM : 0 < M) by done. pose proof (Z.mod_pos_bound t M HM). pose proof (Z.div_mod t M ltac:(lia)) as Hdm.
    set (r := t mod M) in *. set (q := t / M) in *. rewrite Zplus_mod_idemp_l.
    assert (Hc : (r + n < M /\ (t + n) / M = q /\ (r + n) mod M = r + n) \/
                 (M <= r + n /\ (t + n) / M = q + 1 /\ (r + n) mod M = r + n - M)).
    { destruct (Z.lt_ge_cases (r + n) M); [left|right]; split_and!; try lia.
      - symmetry. apply (Z.div_unique _ _ _ (r + n)); lia.
      - apply Z.mod_small. lia.
      - symmetry. apply (Z.div_unique _ _ _ (r + n - M)); lia.
      - symmetry. apply (Z.mod_unique _ _ 1); lia. }
    destruct Hc as [(? & -> & ->)|(? & -> & ->)]; case_bool; bool_to_prop;
      (lia || by rewrite ?Zplus_mod_idemp_l).
Qed.

Lemma pending_put b w : length (input b) = 16%nat -> 0 <= input_ptr b < 16 ->
  take (Z.to_nat (input_ptr b + 1)) (set (input b) (input_ptr b) w) = pending b ++ [w].
Proof.
  intros Hl Hp. unfold pending, set. replace (Z.to_nat (input_ptr b + 1)) with (S (Z.to_nat (input_ptr b))) by lia.
  rewrite (take_S_r _ _ w) by (apply list_lookup_insert_eq; lia).
  by rewrite take_insert_ge.
Qed.

(** Adding a word is hashing a longer message. *)
Lemma put_word_spec b t w rest : stream b t -> exists t', stream (put_word b w) t' /\
  digest_size (put_word b w) = digest_size b /\ 0 < input_ptr (put_word b w) /\
  hash_from (state b) t (pending b ++ w :: rest) =
  hash_from (state (put_word b w)) t' (pending (put_word b w) ++ rest).
Proof.
  intros Hst. unfold put_word. destruct (Z.eqb_spec (input_ptr b) 16) as [He|Hne].
  - destruct (advance_spec 128 b t Hst ltac:(lia)) as [Hi Hp Ht H0 H1]. exists (t + 128).
    assert (Hpend : pending b = input b).
    { unfold pending. rewrite He. destruct Hst. apply take_ge. lia. }
    split; [split; simpl; try (done || lia)|].
    { unfold set. rewrite length_insert. done. }
    split; [done|]. split; [done|]. rewrite Hpend. destruct Hst as [Hin _ _ _ _].
    rewrite hash_from_long by (rewrite length_app; simpl; lia).
    rewrite take_app_le, take_ge by lia. rewrite drop_app_ge by lia. rewrite Hin. simpl (drop _ _).
    rewrite <- H0, <- H1. unfold pending. simpl.
    destruct (input b) as [|x l]; [simpl in Hin; lia|]. done.
  - pose proof Hst as [Hi Hp Ht H0 H1]. exists t. split; [split; simpl; try (done || lia)|].
    { unfold set. by rewrite length_insert. }
    split; [done|]. split; [simpl; lia|]. unfold pending at 2. simpl. rewrite pending_put by (done || lia).
    by rewrite <- (assoc_L app).
Qed.

Lemma add_data_spec b t data rest : stream b t -> exists t', stream (add_data data b) t' /\
  digest_size (add_data data b) = digest_size b /\
  hash_from (state b) t (pending b ++ data ++ rest) =
  hash_from (state (add_data data b)) t' (pending (add_data data b) ++ rest).
Proof.
  revert b t. induction data as [|w data IH]; intros b t Hst; simpl; [eauto|].
  destruct (put_word_spec b t w (data ++ rest) Hst) as (t1 & Hst1 & Hd1 & _ & ->).
  destruct (IH (put_word b w) t1 Hst1) as (t2 & Hst2 & Hd2 & ->). exists t2. split_and!; (done || congruence).
Qed.

Lemma zero_fill_spec n p inp : Z.of_nat (length inp) = p + Z.of_nat n -> 0 <= p ->
  zero_fill n p inp = take (Z.to_nat p) inp ++ replicate n 0.
Proof.
  revert p inp. induction n as [|n IH]; intros p inp Hl Hp; simpl.
  - rewrite app_nil_r, take_ge; [done|lia].
  - rewrite IH by (unfold set; rewrite ?length_insert; lia). unfold set.
    replace (Z.to_nat (p + 1)) with (S (Z.to_nat p)) by lia.
    rewrite (take_S_r _ _ 0) by (apply list_lookup_insert_eq; lia).
    rewrite take_insert_ge by done. by rewrite <- (assoc_L app).
Qed.

Lemma generate_digest_spec b t : stream b t ->
  fst (generate_digest b) = take (Z.to_nat (digest_size b / 8)) (hash_from (state b) t (pending b)).
Proof.
  intros Hst. destruct (advance_spec (input_ptr b * 8) b t Hst) as [_ _ _ H0 H1].
  { destruct Hst. lia. }
  destruct Hst as [Hi Hp Ht _ _]. unfold generate_digest, compress. simpl. f_equal.
  assert (Hl : length (pending b) = Z.to_nat (input_ptr b)) by (unfold pending; rewrite length_take; lia).
  unfold hash_from. cbn [hash_words]. rewrite decide_True by lia. rewrite Hl. rewrite Z2Nat.id by lia.
  replace (8 * input_ptr b) with (input_ptr b * 8) by lia. simpl in H0, H1. rewrite <- H0, <- H1.
  rewrite zero_fill_spec by lia. unfold pad_block. rewrite Hl.
  by replace (16 - Z.to_nat (input_ptr b))%nat with (Z.to_nat (16 - input_ptr b)) by lia.
Qed.

Lemma add_data_small data b : length (input b) = 16%nat -> 0 <= input_ptr b ->
  input_ptr b + Z.of_nat (length data) <= 16 ->
  add_data data b = mkBlake (splice (Z.to_nat (input_ptr b)) data (input b)) (state b)
    (offset0 b) (offset1 b) (input_ptr b + Z.of_nat (length data)) (digest_size b).
Proof.
  revert b. induction data as [|w data IH]; intros b Hl Hp Hle; simpl in Hle |- *.
  - rewrite splice_nil, Z.add_0_r. by destruct b.
  - assert (Hput : put_word b w = mkBlake (set (input b) (input_ptr b) w) (state b) (offset0 b)
      (offset1 b) (input_ptr b + 1) (digest_size b)).
    { unfold put_word. destruct (Z.eqb_spec (input_ptr b) 16); [lia|done]. }
    rewrite Hput. fold (add_data data). rewrite IH; simpl;
      [|unfold set; by rewrite length_insert|lia|lia].
    f_equal; [|lia]. unfold splice, set. simpl.
    replace (Z.to_nat (input_ptr b + 1)) with (S (Z.to_nat (input_ptr b))) by lia.
    rewrite (take_S_r _ _ w) by (apply list_lookup_insert_eq; lia).
    rewrite take_insert_ge by done. rewrite drop_insert_lt by lia. rewrite <- (assoc_L app). simpl.
    do 3 f_equal. f_equal. lia.
Qed.

Lemma init_stream ds key : (length key <= 16)%nat -> exists t, stream (init ds key) t /\
  digest_size (init ds key) = ds /\ forall data,
    hash_from (param_state ds (Z.of_nat (length key))) 0
       ((if decide (key = []) then [] else pad_block key) ++ data) =
    hash_from (state (init ds key)) t (pending (init ds key) ++ data).
Proof.
  intros Hk. exists 0. unfold init. destruct key as [|w key].
  { split; [by split|]. split; [done|]. intros data. by rewrite decide_True. }
  set (k := w :: key) in *.
  replace (Z.of_nat (length k) =? 0) with false by (simpl; lia). cbn [negb].
  set (zeros := replicate 16 0). assert (Hz : length zeros = 16%nat) by done.
  rewrite add_data_small; cbn [input input_ptr state offset0 offset1 digest_size]; [|done|lia|lia].
  assert (Hsp : length (splice (Z.to_nat 0) k zeros) = 16%nat)
    by (rewrite length_splice; simpl in *; lia).
  assert (Hpad : splice (Z.to_nat 0) k zeros = pad_block k).
  { unfold splice, pad_block. change (take (Z.to_nat 0) zeros) with (@nil Z).
    change (Z.to_nat 0) with 0%nat. rewrite Nat.add_0_l. unfold zeros. by rewrite drop_replicate. }
  split; [by split|]. split; [done|]. intros data. rewrite decide_False by done. unfold pending.
  cbn [input input_ptr state]. rewrite take_ge by (rewrite Hsp; done). by rewrite Hpad.
Qed.

Lemma add_chunks_spec cs : forall b t, stream b t -> exists t',
  stream (foldl (fun b c => add_data c b) b cs) t' /\
  digest_size (foldl (fun b c => add_data c b) b cs) = digest_size b /\
  hash_from (state b) t (pending b ++ concat cs) =
  hash_from (state (foldl (fun b c => add_data c b) b cs)) t' (pending (foldl (fun b c => add_data c b) b cs)).
Proof.
  induction cs as [|c cs IH]; intros b t Hst; simpl; [rewrite app_nil_r; eauto|].
  destruct (add_data_spec b t c (concat cs) Hst) as (t1 & Hst1 & Hd1 & ->).
  destruct (IH (add_data c b) t1 Hst1) as (t2 & ? & ? & ->). exists t2. split_and!; (done || congruence).
Qed.

(** *** The hash of the standard *)

#[local] Notation wb := (words_bytes 8).

Lemma wb_app l1 l2 : wb (l1 ++ l2) = wb l1 ++ wb l2.
Proof. unfold words_bytes. by rewrite map_app, concat_app. Qed.
Lemma wb_cons w ws : wb (w :: ws) = le_bytes 8 w ++ wb ws.
Proof. done. Qed.
Lemma wb_take n : forall ws, take (8 * n) (wb ws) = wb (take n ws).
Proof.
  induction n as [|n IH]; intros ws; [done|]. destruct ws as [|w ws]; [by rewrite take_nil|]. rewrite firstn_cons, !wb_cons, take_app_ge by (rewrite length_le_bytes; lia).
  rewrite length_le_bytes, <- IH. do 2 f_equal. lia.
Qed.
Lemma wb_drop n : forall ws, drop (8 * n) (wb ws) = wb (drop n ws).
Proof.
  induction n as [|n IH]; intros ws; [done|]. destruct ws as [|w ws]; [by rewrite drop_nil|]. rewrite skipn_cons, wb_cons, drop_app_ge by (rewrite length_le_bytes; lia).
  rewrite length_le_bytes, <- IH. f_equal. lia.
Qed.
Lemma wb_zero n : wb (replicate n 0) = replicate (8 * n) 0.
Proof.
  induction n as [|n IH]; [done|]. rewrite replicate_S, wb_cons, IH. replace (8 * S n)%nat with (8 + 8 * n)%nat by lia. by rewrite replicate_add.
Qed.
Lemma length_le_bytes_sum n ws : length (words_bytes n ws) = (n * length ws)%nat.
Proof.
  unfold words_bytes. induction ws as [|w ws IH]; simpl; [lia|].
  rewrite length_app, length_le_bytes, IH. lia.
Qed.

Lemma wb_padded ws : (length ws <= 16)%nat -> Blake2b.padded (wb ws) = wb (pad_block ws).
Proof.
  intros Hl. unfold Blake2b.padded, pad_block. rewrite wb_app, wb_zero, length_le_bytes_sum. do 2 f_equal. lia.
Qed.

Lemma wb_words ws : length ws = 16%nat -> Blake2b.words ws -> Blake2b.block_words (wb ws) = ws.
Proof.
  intros Hl Hw. apply list_eq. intros i. unfold Blake2b.block_words. rewrite list_lookup_fmap. destruct (decide (i < 16)%nat) as [Hi|Hi].
  - rewrite lookup_seq_lt by done. cbn [fmap option_fmap option_map Nat.add]. rewrite wb_drop. destruct (lookup_lt_is_Some_2 ws i ltac:(lia)) as [x Hx].
    rewrite (drop_S ws x i Hx), wb_cons, Hx. rewrite take_app_le, take_ge by (rewrite length_le_bytes; lia).
    rewrite le_val_bytes. f_equal. apply Z.mod_small. exact (Forall_lookup_1 _ _ _ _ Hw Hx).
  - rewrite lookup_seq_ge, lookup_ge_None_2 by lia. done.
Qed.

Lemma block_eq D i ws : drop (128 * i) D = wb ws -> Blake2b.words ws -> Blake2b.block_words (Blake2b.block D i) = pad_block (take 16 ws).
Proof.
  intros Hd Hw. unfold Blake2b.block. rewrite Hd. change 128%nat with (8 * 16)%nat at 1. rewrite wb_take, wb_padded by (rewrite length_take; lia).
  apply wb_words; unfold pad_block; [rewrite length_app, length_replicate, length_take; lia|].
  apply Forall_app. split; [by apply Forall_take|]. apply Forall_replicate. unfold fits. lia.
Qed.

(** The blocks from the [i]th on: [n] of them and a last one. *)
Lemma hash_blocks D n : forall h i ws, length h = 8%nat -> Blake2b.words h -> Blake2b.words ws -> drop (128 * i) D = wb ws ->
  length D = (128 * i + 8 * length ws)%nat -> (length ws <= 16 * (n + 1))%nat -> n = 0%nat \/ (16 * n < length ws)%nat ->
  hash_from h (Z.of_nat (128 * i)) ws =
  Blake2b.F (foldl (fun h i => Blake2b.F h (Blake2b.block_words (Blake2b.block D i)) (Z.of_nat (i + 1) * 128) false) h (seq i n))
    (Blake2b.block_words (Blake2b.block D (i + n))) (Z.of_nat (length D)) true.
Proof.
  induction n as [|n IH]; intros h i ws Hh Hwh Hws Hd HD Hle Hgt.
  - rewrite Nat.add_0_r, (block_eq D i ws Hd Hws), take_ge by lia. unfold hash_from. cbn [hash_words seq foldl]. rewrite decide_True by lia.
    replace (Z.of_nat (128 * i) + 8 * Z.of_nat (length ws)) with (Z.of_nat (length D)) by lia. by apply Blake2b.compress_F.
  - rewrite hash_from_long by lia. cbn [seq foldl]. rewrite (block_eq D i ws Hd Hws).
    assert (pad_block (take 16 ws) = take 16 ws) as -> by (unfold pad_block; rewrite length_take; replace (16 - _)%nat with 0%nat by lia; apply app_nil_r).
    replace (Z.of_nat (128 * i) + 128) with (Z.of_nat (i + 1) * 128) by lia.
    destruct (Blake2b.compress_F (take 16 ws) h (Z.of_nat (i + 1) * 128) false Hh Hwh) as (-> & Hl & Hw).
    replace (Z.of_nat (i + 1) * 128) with (Z.of_nat (128 * S i)) at 2 by lia. rewrite (IH _ (S i) (drop 16 ws)).
    + by replace (i + S n)%nat with (S i + n)%nat by lia.
    + done.
    + done.
    + by apply Forall_drop.
    + rewrite <- wb_drop, <- Hd, drop_drop. f_equal. lia.
    + rewrite length_drop. lia.
    + rewrite length_drop. lia.
    + rewrite length_drop. lia.
Qed.

Lemma param_start n kw : (n <= 64)%nat -> (kw <= 16)%nat ->
  let h := Blake2b.start (Z.of_nat n) (Z.of_nat (8 * kw)) in param_state (Z.of_nat n) (Z.of_nat kw) = h /\ length h = 8%nat /\ Blake2b.words h.
Proof.
  intros Hn Hk. unfold param_state, Blake2b.start, set, get. rewrite Blake2b.IV_code. change (Z.to_nat 0) with 0%nat.
  assert (Hs : fits 64 (Z.shiftl (Z.of_nat (8 * kw)) 8)) by (unfold fits; rewrite Z.shiftl_mul_pow2 by lia; lia).
  replace (Z.of_nat kw * 8) with (Z.of_nat (8 * kw)) by lia. rewrite (u64_small (Z.shiftl _ _)) by exact Hs. split; [done|]. split; [by rewrite length_insert|].
  apply Blake2b.words_set; [exact Blake2b.IV_words|]. repeat apply Blake2b.fits_xor; [apply Blake2b.words_get, Blake2b.IV_words|unfold fits; lia|exact Hs|unfold fits; lia].
Qed.

(** The digest in words, of the key block and the message. *)
Lemma hash_standard n key data : (n <= 8)%nat -> (length key <= 16)%nat -> Blake2b.words key -> Blake2b.words data ->
  wb (take n (hash_from (param_state (Z.of_nat (8 * n)) (Z.of_nat (length key))) 0 ((if decide (key = []) then [] else pad_block key) ++ data))) =
  Blake2b.blake2b (8 * n) (wb key) (wb data).
Proof.
  intros Hn Hk Hwk Hwd. destruct (param_start (8 * n) (length key) ltac:(lia) Hk) as (-> & Hl & Hw). unfold Blake2b.blake2b. rewrite !length_le_bytes_sum.
  set (ws := (if decide (key = []) then [] else pad_block key) ++ data).
  assert (ED : (if decide (wb key = []) then [] else Blake2b.padded (wb key)) ++ wb data = wb ws).
  { unfold ws. rewrite wb_app. f_equal. destruct key as [|w key]; [done|]. rewrite !decide_False by done. by apply wb_padded. }
  rewrite ED. rewrite length_le_bytes_sum. set (dd := Nat.max 1 _).
  assert (Et : (if decide (wb key = []) then Z.of_nat (8 * length data) else Z.of_nat (8 * length data) + 128) = Z.of_nat (length (wb ws))).
  { rewrite length_le_bytes_sum. unfold ws. rewrite length_app. destruct key as [|w key]; [done|]. rewrite !decide_False by done. unfold pad_block.
    rewrite length_app, length_replicate. lia. }
  rewrite Et. pose proof (Nat.div_mod_eq (8 * length ws + 127) 128) as Hdm. pose proof (Nat.mod_upper_bound (8 * length ws + 127) 128 ltac:(lia)) as Hm.
  change 0 with (Z.of_nat (128 * 0)) at 1. rewrite (hash_blocks (wb ws) (dd - 1) _ 0 ws); [|done|done| |done|rewrite length_le_bytes_sum; lia|lia|lia].
  - cbn [Nat.add]. rewrite <- wb_take. done.
  - unfold ws. apply Forall_app. split; [|done]. destruct (decide (key = [])); [by constructor|]. unfold pad_block. apply Forall_app. split; [done|].
    apply Forall_replicate. unfold fits. lia.
Qed.

(** C40: [init] with a key of up to 16 words and a digest of up to 8 words, any number of
    [add_data] calls and [generate_digest] give the digest that RFC 7693 defines for the
    bytes of the concatenated data, whatever the split.  The words are those of a machine,
    of 64 bits; the RFC allows keys of up to 8 words.  The hash of the RFC is written down in
    Blake2b.v with its own constants and compression function. *)
Theorem blake2b_incremental n key (chunks : list (list Z)) : (n <= 8)%nat -> (length key <= 16)%nat ->
  Forall (fits 64) key -> Forall (fits 64) (concat chunks) ->
  words_bytes 8 (fst (generate_digest (foldl (fun b c => add_data c b) (init (Z.of_nat (8 * n)) key) chunks))) =
  Blake2b.blake2b (8 * n) (words_bytes 8 key) (words_bytes 8 (concat chunks)).
Proof.
  intros Hn Hk Hwk Hwd. destruct (init_stream (Z.of_nat (8 * n)) key Hk) as (t & Hst & Hds & Hinit).
  destruct (add_chunks_spec chunks _ _ Hst) as (t' & Hst' & Hd & Hh).
  rewrite (generate_digest_spec _ _ Hst'), Hd, Hds, <- Hh, <- Hinit.
  replace (Z.to_nat (Z.of_nat (8 * n) / 8)) with n by (replace (Z.of_nat (8 * n)) with (Z.of_nat n * 8) by lia; rewrite Z.div_mul by lia; lia).
  by apply hash_standard.
Qed.

(** A keyed hash of 32 bytes, fed in two pieces. *)
Lemma blake2b_incremental_witness :
  words_bytes 8 (fst (generate_digest (add_data [3] (add_data [1; 2] (init 32 [7]))))) =
  Blake2b.blake2b 32 (words_bytes 8 [7]) (words_bytes 8 [1; 2; 3]).
Proof.
  apply (blake2b_incremental 4 [7] [[1; 2]; [3]]); [lia|simpl; lia|..]; repeat constructor; unfold fits; lia.
Defined.

(** ** The ChaCha20 rounds *)

Definition rotate_back (value num : Z) : Z := rotate_left value (32 - num).

Lemma rotate_bits value num i : fits 32 value -> 0 < num < 32 -> 0 <= i < 32 ->
  Z.testbit (rotate_left value num) i =
    if i <? num then Z.testbit value (i + 32 - num) else Z.testbit value (i - num).
Proof.
  intros Hv Hn Hi. unfold rotate_left. rewrite Z.lor_spec. unfold u32. rewrite testbit_wrap by lia.
  replace (i <? 32) with true by lia. rewrite Z.shiftl_spec, Z.shiftr_spec by lia.
  destruct (Z.ltb_spec i num).
  - rewrite (Z.testbit_neg_r value (i - num)) by lia. simpl. f_equal. lia.
  - assert (Z.testbit value (i + (32 - num)) = false) as -> by (apply (testbit_fits 32); [done|lia]).
    by rewrite orb_false_r, andb_true_l || by rewrite orb_false_r.
Qed.

Lemma rotate_fits value num : fits 32 value -> 0 < num < 32 -> fits 32 (rotate_left value num).
Proof.
  intros Hv Hn. unfold rotate_left. apply fits_lor; [lia|by apply wrap_bound|].
  unfold fits in *. rewrite Z.shiftr_div_pow2 by lia. split; [apply Z.div_pos; lia|].
  apply Z.div_lt_upper_bound; [lia|]. pose proof (Z.pow_pos_nonneg 2 (32 - num)). nia.
Qed.

Lemma bits_ext_32 a b : fits 32 a -> fits 32 b ->
  (forall i, 0 <= i < 32 -> Z.testbit a i = Z.testbit b i) -> a = b.
Proof.
  intros Ha Hb Heq. apply Z.bits_inj'. intros i Hi. destruct (Z.lt_ge_cases i 32); [by apply Heq|].
  rewrite (testbit_fits 32 a), (testbit_fits 32 b) by (done || lia). done.
Qed.

Lemma rotate_inverse value num : fits 32 value -> 0 < num < 32 ->
  rotate_back (rotate_left value num) num = value.
Proof.
  intros Hv Hn. unfold rotate_back. pose proof (rotate_fits value num Hv Hn) as Hr.
  apply bits_ext_32; [apply rotate_fits; (done || lia)|done|]. intros i Hi.
  rewrite rotate_bits by (done || lia). destruct (Z.ltb_spec i (32 - num)).
  - rewrite rotate_bits by (done || lia). destruct (Z.ltb_spec (i + 32 - (32 - num)) num); [lia|].
    f_equal. lia.
  - rewrite rotate_bits by (done || lia). destruct (Z.ltb_spec (i - (32 - num)) num); [|lia].
    f_equal. lia.
Qed.

Lemma fits_lxor w a b : 0 <= w -> fits w a -> fits w b -> fits w (Z.lxor a b).
Proof.
  intros Hw Ha Hb. apply fits_bits; [done| |].
  - apply Z.lxor_nonneg. unfold fits in *. lia.
  - intros i Hi. rewrite Z.lxor_spec, (testbit_fits w a), (testbit_fits w b) by (done || lia). done.
Qed.

(** Undoing a quarter round: the same steps from the last to the first. *)
Definition quarter_round_undo (a b c d : Z) : Z * Z * Z * Z :=
  let b := Z.lxor (rotate_back b 7) c in
  let c := u32 (c - d) in
  let d := Z.lxor (rotate_back d 8) a in
  let a := u32 (a - b) in
  let b := Z.lxor (rotate_back b 12) c in
  let c := u32 (c - d) in
  let d := Z.lxor (rotate_back d 16) a in
  let a := u32 (a - b) in
  (a, b, c, d).

Lemma lxor_cancel a b : Z.lxor (Z.lxor a b) b = a.
Proof. by rewrite Z.lxor_assoc, Z.lxor_nilpotent, Z.lxor_0_r. Qed.

Lemma u32_sub_add a b : fits 32 a -> u32 (u32 (a + b) - b) = a.
Proof.
  intros Ha. unfold u32, wrap. rewrite Zminus_mod_idemp_l. replace (a + b - b) with a by lia.
  by apply Z.mod_small.
Qed.

Lemma quarter_round_undo_spec a b c d : fits 32 a -> fits 32 b -> fits 32 c -> fits 32 d ->
  let '(a', b', c', d') := chacha20_quarter_round a b c d in
  quarter_round_undo a' b' c' d' = (a, b, c, d) /\
  fits 32 a' /\ fits 32 b' /\ fits 32 c' /\ fits 32 d'.
Proof.
  intros Ha Hb Hc Hd. unfold chacha20_quarter_round, quarter_round_undo.
  set (a1 := u32 (a + b)). set (d1 := Z.lxor d a1). set (d2 := rotate_left d1 16).
  set (c1 := u32 (c + d2)). set (b1 := Z.lxor b c1). set (b2 := rotate_left b1 12).
  set (a2 := u32 (a1 + b2)). set (d3 := Z.lxor d2 a2). set (d4 := rotate_left d3 8).
  set (c2 := u32 (c1 + d4)). set (b3 := Z.lxor b2 c2). set (b4 := rotate_left b3 7).
  assert (F : forall z, fits 32 (u32 z)) by (intros; by apply wrap_bound).
  assert (fits 32 d1) by (apply fits_lxor; (done || apply F)).
  assert (fits 32 d2) by (by apply rotate_fits).
  assert (fits 32 b1) by (apply fits_lxor; (done || apply F)).
  assert (fits 32 b2) by (by apply rotate_fits).
  assert (fits 32 d3) by (apply fits_lxor; (done || apply F)).
  assert (fits 32 d4) by (by apply rotate_fits).
  assert (fits 32 b3) by (apply fits_lxor; (done || apply F)).
  assert (fits 32 b4) by (by apply rotate_fits).
  split; [|split_and!; (done || apply F)].
  unfold b4. rewrite rotate_inverse by done. unfold b3. rewrite lxor_cancel.
  unfold c2. rewrite (u32_sub_add c1 d4) by apply F. fold c2.
  unfold d4. rewrite rotate_inverse by done. unfold d3. rewrite lxor_cancel.
  unfold a2. rewrite (u32_sub_add a1 b2) by apply F. fold a2.
  unfold b2. rewrite rotate_inverse by done. unfold b1. rewrite lxor_cancel.
  unfold c1. rewrite (u32_sub_add c d2) by done. fold c1.
  unfold d2. rewrite rotate_inverse by done. unfold d1. rewrite lxor_cancel.
  unfold a1. by rewrite (u32_sub_add a b).
Qed.

Lemma length_set v i x : length (set v i x) = length v.
Proof. apply length_insert. Qed.

Lemma get_set v i x j : 0 <= i < Z.of_nat (length v) -> 0 <= j ->
  get (set v i x) j = if i =? j then x else get v j.
Proof.
  intros Hi Hj. unfold get, set. rewrite !nth_lookup. destruct (Z.eqb_spec i j) as [->|].
  - rewrite list_lookup_insert_eq by lia. done.
  - rewrite list_lookup_insert_ne by lia. done.
Qed.

Lemma list_get_ext v v' : length v = length v' ->
  (forall j, 0 <= j < Z.of_nat (length v) -> get v j = get v' j) -> v = v'.
Proof.
  intros Hl Hg. apply (nth_ext _ _ 0 0); [done|]. intros n Hn. specialize (Hg (Z.of_nat n) ltac:(lia)).
  unfold get in Hg. by rewrite Nat2Z.id in Hg.
Qed.

Definition words32 (s : list Z) : Prop :=
  length s = 16%nat /\ forall i, 0 <= i < 16 -> fits 32 (get s i).

(** Four different positions of the state. *)
Definition distinct4 (x y z w : Z) : Prop :=
  0 <= x < 16 /\ 0 <= y < 16 /\ 0 <= z < 16 /\ 0 <= w < 16 /\
  x <> y /\ x <> z /\ x <> w /\ y <> z /\ y <> w /\ z <> w.

Definition undo_at (x y z w : Z) (s : list Z) : list Z :=
  let '(a, b, c, d) := quarter_round_undo (get s x) (get s y) (get s z) (get s w) in
  set (set (set (set s x a) y b) z c) w d.

Lemma get_set4 s x y z w a b c d j : length s = 16%nat -> distinct4 x y z w -> 0 <= j ->
  get (set (set (set (set s x a) y b) z c) w d) j =
    if w =? j then d else if z =? j then c else if y =? j then b else if x =? j then a else get s j.
Proof.
  intros Hl (? & ? & ? & ? & _) Hj. rewrite !get_set; rewrite ?length_set; (done || lia).
Qed.

Lemma quarter_round_undo_at x y z w s : words32 s -> distinct4 x y z w ->
  words32 (quarter_round x y z w s) /\ undo_at x y z w (quarter_round x y z w s) = s.
Proof.
  intros [Hl Hf] Hd. pose proof Hd as (Hx & Hy & Hz & Hw & ? & ? & ? & ? & ? & ?).
  pose proof (quarter_round_undo_spec (get s x) (get s y) (get s z) (get s w)
    (Hf x Hx) (Hf y Hy) (Hf z Hz) (Hf w Hw)) as Hu.
  unfold quarter_round. destruct (chacha20_quarter_round _ _ _ _) as [[[a b] c] d].
  destruct Hu as (Hu & Ha & Hb & Hc & Hd').
  set (s' := set (set (set (set s x a) y b) z c) w d).
  assert (Hl' : length s' = 16%nat) by (unfold s'; by rewrite !length_set).
  assert (Hg : forall j, 0 <= j -> get s' j =
    if w =? j then d else if z =? j then c else if y =? j then b else if x =? j then a else get s j)
    by (intros; by apply get_set4).
  split.
  - split; [done|]. intros i Hi. rewrite Hg by lia. repeat case_bool; try done. apply Hf. lia.
  - unfold undo_at. rewrite !Hg by lia. rewrite !Z.eqb_refl.
    replace (w =? x) with false by lia. replace (z =? x) with false by lia.
    replace (y =? x) with false by lia. replace (w =? y) with false by lia.
    replace (z =? y) with false by lia. replace (w =? z) with false by lia. rewrite Hu.
    apply list_get_ext; [rewrite !length_set; congruence|]. intros j Hj.
    rewrite get_set4 by (done || lia). rewrite Hg by lia.
    repeat case_bool; bool_to_prop; congruence.
Qed.

Definition inner_block_undo (s : list Z) : list Z :=
  undo_at 0 4 8 12 (undo_at 1 5 9 13 (undo_at 2 6 10 14 (undo_at 3 7 11 15
    (undo_at 0 5 10 15 (undo_at 1 6 11 12 (undo_at 2 7 8 13 (undo_at 3 4 9 14 s))))))).

Lemma inner_block_undo_spec s : words32 s ->
  words32 (inner_block s) /\ inner_block_undo (inner_block s) = s.
Proof.
  intros Hs. unfold inner_block, inner_block_undo. cbv zeta.
  assert (Hq : forall x y z w s, words32 s -> distinct4 x y z w ->
    words32 (quarter_round x y z w s)) by (intros; by apply quarter_round_undo_at).
  assert (Hu : forall x y z w s, words32 s -> distinct4 x y z w ->
    undo_at x y z w (quarter_round x y z w s) = s) by (intros; by apply quarter_round_undo_at).
  split.
  - repeat (apply Hq; [|unfold distinct4; lia]). done.
  - rewrite !Hu; [done|..]; first [unfold distinct4; lia | repeat (apply Hq; [|unfold distinct4; lia]); done].
Qed.

(** the ten double rounds of ChaCha20 are a permutation of the states of
    sixteen 32-bit words: two different initial states never lead to the same
    state before the final addition. *)
Theorem chacha_rounds_injective s1 s2 : words32 s1 -> words32 s2 ->
  Nat.iter 10 inner_block s1 = Nat.iter 10 inner_block s2 -> s1 = s2.
Proof.
  assert (Hall : forall n s, words32 s -> words32 (Nat.iter n inner_block s) /\
    Nat.iter n inner_block_undo (Nat.iter n inner_block s) = s).
  { induction n as [|n IH]; intros s Hs; [done|]. destruct (IH s Hs) as [Hw Hu].
    destruct (inner_block_undo_spec _ Hw) as [Hw' Hu']. split; [done|].
    change (Nat.iter (S n) inner_block s) with (inner_block (Nat.iter n inner_block s)).
    rewrite Nat.iter_succ_r, Hu'. done. }
  intros H1 H2 Heq. destruct (Hall 10%nat s1 H1) as [_ <-]. rewrite Heq. by apply Hall.
Qed.

(** ** The nonce *)

Definition nonce_val (n : list Z) : Z := get n 0 + 2 ^ 32 * get n 1 + 2 ^ 64 * get n 2.
Definition nonce_ok (n : list Z) : Prop := length n = 3%nat /\ Forall (fits 32) n.

Lemma nonce_use_spec n : nonce_ok n ->
  nonce_ok (nonce_use n) /\ nonce_val (nonce_use n) = (nonce_val n + 1) mod 2 ^ 96.
Proof.
  intros [Hl Hf]. destruct n as [|a [|b [|c [|]]]]; simpl in Hl; try lia.
  apply Forall_cons in Hf as [Ha Hf]. apply Forall_cons in Hf as [Hb Hf].
  apply Forall_cons in Hf as [Hc _]. unfold fits in *.
  assert (Hu : forall x, 0 <= x < 2 ^ 32 -> (u32 (x + 1) = x + 1 /\ x + 1 < 2 ^ 32) \/
                         (u32 (x + 1) = 0 /\ x = 2 ^ 32 - 1)).
  { intros x Hx. destruct (decide (x = 2 ^ 32 - 1)) as [->|]; [by right|left].
    split; [|lia]. apply wrap_small. unfold fits. lia. }
  unfold nonce_use, nonce_ok, nonce_val, get, fits. simpl.
  destruct (Hu a Ha) as [[-> ?]|[-> Ha1]]; [replace (a + 1 =? 0) with false by lia|cbn [Z.eqb]];
    [|destruct (Hu b Hb) as [[-> ?]|[-> Hb1]]; [replace (b + 1 =? 0) with false by lia|cbn [Z.eqb];
      destruct (Hu c Hc) as [[-> ?]|[-> Hc1]]]]; simpl;
    (split; [split; [done|repeat constructor; lia]|]); rewrite ?Z.mod_small by lia; try lia.
  subst. reflexivity.
Qed.

(** consecutive requests use different nonces: the nonce is a 96-bit counter
    that [use] increments, so it repeats only after 2^96 requests. *)
Theorem nonce_never_repeats n i j : nonce_ok n -> 0 <= i < j -> j - i < 2 ^ 96 ->
  Nat.iter (Z.to_nat i) nonce_use n <> Nat.iter (Z.to_nat j) nonce_use n.
Proof.
  intros Hn Hij Hlt Heq.
  assert (Hit : forall k, nonce_ok (Nat.iter k nonce_use n) /\
    nonce_val (Nat.iter k nonce_use n) mod 2 ^ 96 = (nonce_val n + Z.of_nat k) mod 2 ^ 96).
  { induction k as [|k [IH1 IH2]]; [by rewrite Z.add_0_r|].
    change (Nat.iter (S k) nonce_use n) with (nonce_use (Nat.iter k nonce_use n)).
    destruct (nonce_use_spec _ IH1) as [Hok ->]. split; [done|].
    rewrite Zmod_mod, <- Zplus_mod_idemp_l, IH2, Zplus_mod_idemp_l. f_equal. lia. }
  destruct (Hit (Z.to_nat i)) as [_ Hi]. destruct (Hit (Z.to_nat j)) as [_ Hj].
  rewrite Heq, Hj, !Z2Nat.id in Hi by lia.
  assert (Hm : ((nonce_val n + j) - (nonce_val n + i)) mod 2 ^ 96 = 0)
    by (rewrite Zminus_mod, Hi, Z.sub_diag; done).
  replace (nonce_val n + j - (nonce_val n + i)) with (j - i) in Hm by lia.
  rewrite Z.mod_small in Hm; lia.
Qed.

(** ** The generator *)

Lemma length_compress_words inp st o0 o1 final : length (compress_words inp st o0 o1 final) = length st.
Proof. with_strategy transparent [compress_words] unfold compress_words. by rewrite length_imap. Qed.

Lemma length_put_word b w : length (state (put_word b w)) = length (state b).
Proof. unfold put_word. case_bool; simpl; [apply length_compress_words|done]. Qed.

Lemma length_add_data data b : length (state (add_data data b)) = length (state b).
Proof.
  revert b. induction data as [|w data IH]; intros b; simpl; [done|]. fold (add_data data).
  by rewrite IH, length_put_word.
Qed.

Lemma digest_size_add_data data b : digest_size (add_data data b) = digest_size b.
Proof.
  revert b. induction data as [|w data IH]; intros b; simpl; [done|]. fold (add_data data).
  rewrite IH. unfold put_word. by case_bool.
Qed.

Lemma init_shape ds key : length (state (init ds key)) = 8%nat /\ digest_size (init ds key) = ds.
Proof.
  unfold init. case_bool; [|done]. cbn [state digest_size]. by rewrite length_add_data, digest_size_add_data.
Qed.

Lemma length_digest b : length (state b) = 8%nat -> digest_size b = 32 ->
  length (fst (generate_digest b)) = 4%nat.
Proof.
  intros Hl Hd. unfold generate_digest. cbn [fst compress state digest_size advance].
  rewrite length_take, length_compress_words, Hl, Hd. done.
Qed.

Lemma entropy_loop_length fuel seed arch counter size : 0 <= size <= Z.of_nat fuel ->
  exists out, entropy_loop fuel seed arch counter size = Some out /\ Z.of_nat (length out) = size.
Proof.
  revert counter size. induction fuel as [|fuel IH]; intros counter size Hs; cbn [entropy_loop].
  { replace (size =? 0) with true by lia. exists []. simpl. split; [done|lia]. }
  destruct (Z.eqb_spec size 0) as [->|]; [by exists []|].
  destruct (IH (u64 (counter + 1)) (size - Z.min size 32)) as (rest & -> & Hr); [lia|].
  cbn [mbind option_bind]. eexists. split; [done|].
  rewrite length_app, length_take, length_le_bytes_sum, length_digest; [lia|..].
  - rewrite !length_add_data. apply init_shape.
  - rewrite !digest_size_add_data. apply init_shape.
Qed.

Lemma get_entropy_spec arch size p : 0 <= size -> exists out p',
  get_entropy arch size p = Some (out, p') /\ Z.of_nat (length out) = size /\
  entropy_bits p' = (if entropy_bits p >=? 128 then entropy_bits p - 128 else 0).
Proof.
  intros Hs. unfold get_entropy.
  destruct (entropy_loop_length (Z.to_nat size) (fst (generate_digest (pool_state p))) arch 0 size)
    as (out & -> & Hl); [lia|]. cbn [mbind option_bind]. eexists _, _. by split_and!.
Qed.

(** The key stream: block after block, the counter at 32 bits. *)
Definition keystream (key nonce : list Z) (counter : Z) (blocks : nat) : list Z :=
  concat (map (fun k => words_bytes 4 (cha_cha20_block key (u32 (counter + Z.of_nat k)) nonce))
    (seq 0 blocks)).

Lemma length_quarter_round x y z w s : length (quarter_round x y z w s) = length s.
Proof.
  unfold quarter_round. destruct (chacha20_quarter_round _ _ _ _) as [[[? ?] ?] ?].
  by rewrite !length_set.
Qed.

Lemma length_block key c nonce : length (words_bytes 4 (cha_cha20_block key c nonce)) = 64%nat.
Proof.
  rewrite length_le_bytes_sum. unfold cha_cha20_block. rewrite length_zip_with.
  assert (Hl : forall s, length (inner_block s) = length s).
  { intros s. unfold inner_block. cbv zeta. by rewrite !length_quarter_round. }
  assert (Hi : forall n s, length (Nat.iter n inner_block s) = length s).
  { induction n as [|n IH]; intros s; [done|].
    change (Nat.iter (S n) inner_block s) with (inner_block (Nat.iter n inner_block s)).
    by rewrite Hl, IH. }
  rewrite Hi. done.
Qed.

#[local] Opaque cha_cha20_block words_bytes.

Lemma keystream_S key nonce c n : keystream key nonce c (S n) =
  words_bytes 4 (cha_cha20_block key (u32 c) nonce) ++ keystream key nonce (u32 (c + 1)) n.
Proof.
  unfold keystream. cbn [seq map concat]. rewrite Z.add_0_r. apply (f_equal (app _)), (f_equal (@concat Z)).
  rewrite <- seq_shift, map_map. apply map_ext. intros k.
  assert (u32 (c + Z.of_nat (S k)) = u32 (u32 (c + 1) + Z.of_nat k)) as ->; [|done].
  unfold u32, wrap. rewrite Zplus_mod_idemp_l. f_equal. lia.
Qed.

Lemma generate_loop_spec fuel key nonce c i size : 0 <= i -> size < 2 ^ 63 ->
  size - i <= 64 * Z.of_nat fuel -> c = u32 c ->
  generate_loop fuel key nonce c i size =
    Some (take (Z.to_nat (size - i)) (keystream key nonce c fuel)).
Proof.
  intros Hi Hs. revert c i Hi. induction fuel as [|fuel IH]; intros c i Hi Hf Hc; cbn [generate_loop].
  { replace (i <? size) with false by lia. by replace (Z.to_nat (size - i)) with 0%nat by lia. }
  destruct (Z.ltb_spec i size); [|by replace (Z.to_nat (size - i)) with 0%nat by lia].
  unfold sub64, add64. rewrite !u64_small by lia. rewrite IH; [|lia|lia|symmetry; apply wrap_wrap].
  cbn [mbind option_bind]. rewrite keystream_S, <- Hc. rewrite take_app, length_block.
  set (blk := words_bytes 4 _). assert (Hblk : length blk = 64%nat) by apply length_block.
  replace (Z.to_nat (size - i) - 64)%nat with (Z.to_nat (size - (i + 64))) by lia.
  assert (take (Z.to_nat (Z.min (size - i) 64)) blk = take (Z.to_nat (size - i)) blk) as ->; [|done].
  destruct (Z.le_ge_cases (size - i) 64); [by rewrite Z.min_l|]. rewrite !take_ge by lia. done.
Qed.

(** [random_generate] of any size below 2^63 terminates and returns exactly
    that many bytes of ChaCha20 key stream, under a fresh 256-bit key from the
    pool and the current nonce; it consumes 128 bits of the pool's entropy and
    moves to the next nonce. *)
Theorem random_generate_correct arch size g : 0 <= size < 2 ^ 63 ->
  exists key_bytes p out g',
    get_entropy arch 32 (POOL g) = Some (key_bytes, p) /\ Z.of_nat (length key_bytes) = 32 /\
    random_generate arch size g = Some (out, g') /\ Z.of_nat (length out) = size /\
    out = take (Z.to_nat size) (keystream (bytes_words 8 key_bytes) (NONCE g) 0 (Z.to_nat size)) /\
    NONCE g' = nonce_use (NONCE g) /\
    entropy_bits (POOL g') = (if entropy_bits (POOL g) >=? 128 then entropy_bits (POOL g) - 128 else 0).
Proof.
  intros Hs. destruct (get_entropy_spec arch 32 (POOL g) ltac:(lia)) as (kb & p & Hg & Hl & Hb).
  exists kb, p. unfold random_generate. rewrite Hg. cbn [mbind option_bind].
  rewrite generate_loop_spec by (done || lia). rewrite Z.sub_0_r. cbn [mbind option_bind].
  eexists _, _. split_and!; try done. rewrite length_take.
  assert (Hk : length (keystream (bytes_words 8 kb) (NONCE g) 0 (Z.to_nat size)) = (64 * Z.to_nat size)%nat).
  { generalize (Z.to_nat size) as n, 0 as c. induction n as [|n IH]; intros c; [done|].
    rewrite keystream_S, length_app, length_block, IH. lia. }
  rewrite Hk. lia.
Qed.

Lemma random_generate_correct_witness : exists out g',
  random_generate [1; 2; 3; 4] 70 initial = Some (out, g') /\ Z.of_nat (length out) = 70.
Proof.
  destruct (random_generate_correct [1; 2; 3; 4] 70 initial ltac:(lia))
    as (kb & p & out & g' & _ & _ & H & Hl & _).
  exists out, g'. split; [exact H|exact Hl].
Defined.

(** the pool's entropy estimate never exceeds 256 bits, and once it is
    [bits] every [random_generate] lowers it by 128 or to 0. *)
Theorem entropy_estimate_bounded (ops : list (list Z * Z + list Z * Z)) g :
  0 <= entropy_bits (POOL g) <= 256 ->
  Forall (fun o => match o with inl (_, c) => 0 <= c < 2 ^ 31 | inr (_, n) => 0 <= n < 2 ^ 63 end) ops ->
  exists g', foldl (fun og o => g ← og; match o with
      | inl (ws, c) => Some (random_add_entropy ws c g)
      | inr (arch, n) => snd <$> random_generate arch n g
      end) (Some g) ops = Some g' /\ 0 <= entropy_bits (POOL g') <= 256.
Proof.
  intros Hb Hops. revert g Hb. induction Hops as [|o ops Ho _ IH]; intros g Hb; [by exists g|].
  simpl. destruct o as [[ws c]|[arch n]].
  - apply IH. simpl. unfold u32. rewrite wrap_small by (unfold fits; lia).
    case_bool; bool_to_prop; lia.
  - destruct (get_entropy_spec arch 32 (POOL g) ltac:(lia)) as (kb & p & Hg & Hl & Hbits).
    unfold random_generate at 2. rewrite Hg. cbn [mbind option_bind].
    rewrite generate_loop_spec by (done || lia). simpl. apply IH. simpl. rewrite Hbits.
    case_bool; bool_to_prop; lia.
Qed.

Lemma entropy_estimate_bounded_witness : exists g',
  (snd <$> random_generate [1; 2; 3; 4] 5 (random_add_entropy [9; 9] 64 initial)) = Some g' /\
  0 <= entropy_bits (POOL g') <= 256.
Proof.
  exact (entropy_estimate_bounded [inl ([9; 9], 64); inr ([1; 2; 3; 4], 5)] initial
    ltac:(simpl; lia) ltac:(repeat constructor; lia)).
Defined.

Lemma chacha_rounds_injective_witness :
  Nat.iter 10 inner_block (replicate 16 1) <> Nat.iter 10 inner_block (replicate 16 2).
Proof.
  intros H. apply (chacha_rounds_injective (replicate 16 1) (replicate 16 2)) in H; [discriminate|..].
  - split; [done|]. intros i Hi. unfold get. rewrite nth_lookup, lookup_replicate_2 by lia. simpl. unfold fits. lia.
  - split; [done|]. intros i Hi. unfold get. rewrite nth_lookup, lookup_replicate_2 by lia. simpl. unfold fits. lia.
Defined.

Lemma nonce_never_repeats_witness :
  Nat.iter (Z.to_nat 1) nonce_use [2 ^ 32 - 1; 0; 0] <> Nat.iter (Z.to_nat 2) nonce_use [2 ^ 32 - 1; 0; 0].
Proof.
  apply (nonce_never_repeats [2 ^ 32 - 1; 0; 0] 1 2); [|lia|lia].
  split; [done|]. repeat constructor; unfold fits; lia.
Defined.

End RandomCorrect.
