(* ===== verification/Chipset.v ===== *)
(** * The virtual machine monitor's chipset (src/apps/evm/src/chipset.cpp)

    The CMOS, the programmable interval timer and the keyboard controller that
    the virtual machine's guest sees behind its I/O ports.  [None] is a failed
    assertion or an access outside an array. *)

From S2P Require Import Prelude.

Module Chipset.

(** ** CMOS *)

Record cmos := mkCmos { CMOS_SELECT : Z; NMI_DISABLE : bool }.

Definition cmos_init : cmos := mkCmos 0xD false.

(** The register select after an access to the data port. *)
Definition cmos_reselect (c : cmos) : cmos :=
  mkCmos (Z.lor 0xD (Z.land (CMOS_SELECT c) (Z.shiftl 1 7))) (NMI_DISABLE c).

Definition cmos_read (MEMORY_SIZE offset size : Z) (c : cmos) : option (Z * cmos) :=
  if offset =? 0 then _ ← assert (size =? 1); Some (CMOS_SELECT c, c)
  else
    _ ← assert (offset =? 1);
    let reg := Z.land (CMOS_SELECT c) 0x7F in
    let value := if reg =? 0x34 then u8 (Z.shiftr MEMORY_SIZE 16)
                 else if reg =? 0x35 then u8 (Z.shiftr MEMORY_SIZE 24) else 0 in
    Some (value, cmos_reselect c).

Definition cmos_write (offset value size : Z) (c : cmos) : option cmos :=
  if offset =? 0 then
    _ ← assert (size =? 1);
    Some (mkCmos (u8 value) (negb (Z.land value (Z.shiftl 1 7) =? 0)))
  else _ ← assert (offset =? 1); Some (cmos_reselect c).

(** ** The timer *)

Definition NMI_STATUS_TIM_CNT2_EN : Z := Z.shiftl 1 0.
Definition NMI_STATUS_TMR2_OUT_STS : Z := Z.shiftl 1 5.

Record Channel := mkChannel {
  count : Z;
  reload_value : Z;
  access_mode : Z;
  operating_mode : Z;
  toggle : bool;
  counting : bool
}.

(** [PIT] and [NMI_STATUS], whose bit 5 is the output of channel 2. *)
Record Pit := mkPit { channels : list Channel; NMI_STATUS : Z }.

Definition pit_init : Pit := mkPit (replicate 3 (mkChannel 0 0 0 0 false false)) 0.

Definition set_channel (i : Z) (ch : Channel) (p : Pit) : Pit :=
  mkPit (<[Z.to_nat i := ch]> (channels p)) (NMI_STATUS p).

Definition set_channel_output (index : Z) (signal : bool) (p : Pit) : Pit :=
  if index =? 2 then
    mkPit (channels p)
      (if signal then Z.lor (NMI_STATUS p) NMI_STATUS_TMR2_OUT_STS
       else Z.land (NMI_STATUS p) (u8 (Z.lnot NMI_STATUS_TMR2_OUT_STS)))
  else p.

Definition reload_written (ch : Channel) : Channel :=
  mkChannel (reload_value ch) (reload_value ch) (access_mode ch) (operating_mode ch) (toggle ch) true.
Definition with_toggle (b : bool) (ch : Channel) : Channel :=
  mkChannel (count ch) (reload_value ch) (access_mode ch) (operating_mode ch) b (counting ch).
Definition with_reload (v : Z) (ch : Channel) : Channel :=
  mkChannel (count ch) v (access_mode ch) (operating_mode ch) (toggle ch) (counting ch).

Definition pit_read (offset size : Z) (p : Pit) : option (Z * Pit) :=
  _ ← assert (negb (offset =? 3));
  _ ← assert (size =? 1);
  if offset <=? 2 then
    ch ← channels p !! Z.to_nat offset;
    if access_mode ch =? 1 then Some (Z.land (count ch) 0xFF, p)
    else if access_mode ch =? 2 then Some (Z.shiftr (count ch) 8, p)
    else if access_mode ch =? 3 then
      if toggle ch then Some (Z.shiftr (count ch) 8, set_channel offset (with_toggle false ch) p)
      else Some (Z.land (count ch) 0xFF, set_channel offset (with_toggle true ch) p)
    else Some (0, p)
  else Some (0, p).

(** [switch (operating_mode) { case 0: set_channel_output(offset, false); }] *)
Definition lower_in_mode0 (index : Z) (ch : Channel) (p : Pit) : Pit :=
  if operating_mode ch =? 0 then set_channel_output index false p else p.

Definition pit_write (offset value size : Z) (p : Pit) : option Pit :=
  _ ← assert (size =? 1);
  _ ← assert (value <=? 0xFF);
  if offset <=? 2 then
    ch ← channels p !! Z.to_nat offset;
    let low := Z.lor (Z.land (reload_value ch) 0xFF00) value in
    let high := Z.lor (Z.land (reload_value ch) 0xFF) (Z.shiftl value 8) in
    if access_mode ch =? 1 then
      Some (lower_in_mode0 offset ch (set_channel offset (reload_written (with_reload low ch)) p))
    else if access_mode ch =? 2 then
      Some (lower_in_mode0 offset ch (set_channel offset (reload_written (with_reload high ch)) p))
    else if access_mode ch =? 3 then
      if toggle ch then
        Some (set_channel offset (reload_written (with_toggle false (with_reload high ch))) p)
      else
        Some (lower_in_mode0 offset ch (set_channel offset (with_toggle true (with_reload low ch)) p))
    else Some p
  else if offset =? 3 then
    let channel_index := Z.shiftr value 6 in
    let acc := Z.land (Z.shiftr value 4) 3 in
    let mode := Z.land (Z.shiftr value 1) 7 in
    let bcd := negb (Z.land value 1 =? 0) in
    _ ← assert (negb (channel_index =? 3));
    _ ← assert (negb bcd);
    ch ← channels p !! Z.to_nat channel_index;
    let upd cnt := mkChannel (count ch) (reload_value ch) acc mode false cnt in
    if mode =? 0 then
      Some (set_channel_output channel_index false (set_channel channel_index (upd false) p))
    else if mode =? 2 then
      Some (set_channel_output channel_index true (set_channel channel_index (upd false) p))
    else Some (set_channel channel_index (upd (counting ch)) p)
  else Some p.

Definition update_channel (index : Z) (p : Pit) : option Pit :=
  ch ← channels p !! Z.to_nat index;
  if negb (counting ch) ||
     ((index =? 2) && (Z.land (NMI_STATUS p) NMI_STATUS_TIM_CNT2_EN =? 0)) then Some p
  else
    let c := u16 (count ch - 1) in
    let ch := mkChannel c (reload_value ch) (access_mode ch) (operating_mode ch) (toggle ch) true in
    let p := set_channel index ch p in
    if operating_mode ch =? 0 then
      Some (if c =? 0 then set_channel_output index true p else p)
    else if operating_mode ch =? 2 then
      if c =? 1 then
        let p := set_channel_output index false p in
        let p := set_channel index (mkChannel (reload_value ch) (reload_value ch) (access_mode ch)
                                      (operating_mode ch) (toggle ch) true) p in
        Some (set_channel_output index true p)
      else Some p
    else Some p.

Definition update (p : Pit) : option Pit :=
  p ← update_channel 0 p; p ← update_channel 1 p; update_channel 2 p.

(** [for (i = 0; i < pit_ticks; ++i) PIT.update();] *)
Fixpoint update_n (n : nat) (p : Pit) : option Pit :=
  match n with
  | O => Some p
  | S n => p ← update p; update_n n p
  end.

(** The static [remainder] and the timer; a frequency below 1193182 Hz divides by
    zero. *)
Definition chipset_update_timers (elapsed_tsc tsc_frequency : Z) (remainder : Z) (p : Pit)
    : option (Z * Pit) :=
  let tsc_per_pit := tsc_frequency / 1193182 in
  _ ← assert (negb (tsc_per_pit =? 0));
  let t := elapsed_tsc ⊞ remainder in
  p ← update_n (Z.to_nat (t / tsc_per_pit)) p;
  Some (t mod tsc_per_pit, p).

(** ** The keyboard controller *)

Record I8042 := mkKbc {
  output_buffer : list Z;
  input_buffer : list Z;
  output_write_ptr : Z;
  output_read_ptr : Z;
  output_size : Z;
  input_size : Z;
  current_cmd : Z;
  current_dev_cmd : Z;
  cmd_args : Z;
  port1_enabled : bool;
  port2_enabled : bool;
  config : Z;
  kb_scanning : bool;
  scancode_set : Z
}.

Definition kbc_init : I8042 :=
  mkKbc (replicate 16 0) [0; 0] 0 0 0 0 0 0 0 false false 0 false 0.

(** [output_buffer[output_write_ptr++] = b; output_write_ptr %= 16; ++output_size;] *)
Definition push_output (b : Z) (k : I8042) : I8042 :=
  mkKbc (<[Z.to_nat (output_write_ptr k) := b]> (output_buffer k)) (input_buffer k)
    ((output_write_ptr k + 1) mod 16) (output_read_ptr k) (u8 (output_size k + 1)) (input_size k)
    (current_cmd k) (current_dev_cmd k) (cmd_args k) (port1_enabled k) (port2_enabled k) (config k)
    (kb_scanning k) (scancode_set k).
Definition push_if_room (b : Z) (k : I8042) : I8042 :=
  if negb (output_size k =? 16) then push_output b k else k.

(** [input_buffer[0] = input_buffer[1]; --input_size;] *)
Definition pop_input (k : I8042) : I8042 :=
  mkKbc (output_buffer k) (<[0%nat := nth 1 (input_buffer k) 0]> (input_buffer k))
    (output_write_ptr k) (output_read_ptr k) (output_size k) (u8 (input_size k - 1))
    (current_cmd k) (current_dev_cmd k) (cmd_args k) (port1_enabled k) (port2_enabled k) (config k)
    (kb_scanning k) (scancode_set k).

Definition set_cmds (cmd dev args : Z) (k : I8042) : I8042 :=
  mkKbc (output_buffer k) (input_buffer k) (output_write_ptr k) (output_read_ptr k) (output_size k)
    (input_size k) cmd dev args (port1_enabled k) (port2_enabled k) (config k) (kb_scanning k)
    (scancode_set k).
Definition set_ports (p1 p2 : bool) (k : I8042) : I8042 :=
  mkKbc (output_buffer k) (input_buffer k) (output_write_ptr k) (output_read_ptr k) (output_size k)
    (input_size k) (current_cmd k) (current_dev_cmd k) (cmd_args k) p1 p2 (config k) (kb_scanning k)
    (scancode_set k).
Definition set_config (c : Z) (k : I8042) : I8042 :=
  mkKbc (output_buffer k) (input_buffer k) (output_write_ptr k) (output_read_ptr k) (output_size k)
    (input_size k) (current_cmd k) (current_dev_cmd k) (cmd_args k) (port1_enabled k)
    (port2_enabled k) c (kb_scanning k) (scancode_set k).
Definition set_kbd (scan : bool) (set : Z) (k : I8042) : I8042 :=
  mkKbc (output_buffer k) (input_buffer k) (output_write_ptr k) (output_read_ptr k) (output_size k)
    (input_size k) (current_cmd k) (current_dev_cmd k) (cmd_args k) (port1_enabled k)
    (port2_enabled k) (config k) scan set.

Definition handle_cmd (k : I8042) : I8042 :=
  let c := current_cmd k in
  if c =? 0x60 then pop_input (set_config (nth 0 (input_buffer k) 0) k)
  else if c =? 0xA7 then set_ports (port1_enabled k) false k
  else if c =? 0xA8 then set_ports (port1_enabled k) true k
  else if c =? 0xA9 then push_output 0 k
  else if c =? 0xAA then push_output 0x55 k
  else if c =? 0xAB then push_output 0 k
  else if c =? 0xAD then set_ports false (port2_enabled k) k
  else if c =? 0xAE then set_ports true (port2_enabled k) k
  else k.

Definition kbd_handle_cmd (k : I8042) : I8042 :=
  let c := current_dev_cmd k in
  if c =? 0xF0 then
    let value := nth 0 (input_buffer k) 0 in
    let k := pop_input k in
    let k := if value =? 0 then push_if_room (scancode_set k) k
             else set_kbd (kb_scanning k) value k in
    push_if_room 0xFA k
  else if c =? 0xF4 then push_if_room 0xFA (set_kbd true (scancode_set k) k)
  else if c =? 0xF5 then push_if_room 0xFA (set_kbd false (scancode_set k) k)
  else if c =? 0xFF then
    if output_size k >=? 15 then k else push_output 0xAA (push_output 0xFA k)
  else k.

Definition kbc_read (offset : Z) (k : I8042) : Z * I8042 :=
  if offset =? 0 then
    if output_size k =? 0 then (0, k)
    else
      (nth (Z.to_nat (output_read_ptr k)) (output_buffer k) 0,
       mkKbc (output_buffer k) (input_buffer k) (output_write_ptr k)
         ((output_read_ptr k + 1) mod 16) (output_size k - 1) (input_size k) (current_cmd k)
         (current_dev_cmd k) (cmd_args k) (port1_enabled k) (port2_enabled k) (config k)
         (kb_scanning k) (scancode_set k))
  else if offset =? 4 then
    (Z.lor (Z.lor (if output_size k =? 0 then 0 else 1) (if input_size k =? 2 then 2 else 0)) 4, k)
  else (0, k).

Definition kbc_write (offset value : Z) (k : I8042) : option I8042 :=
  if offset =? 0 then
    let k := if input_size k <? 2 then
               mkKbc (output_buffer k) (<[Z.to_nat (input_size k) := value]> (input_buffer k))
                 (output_write_ptr k) (output_read_ptr k) (output_size k) (input_size k + 1)
                 (current_cmd k) (current_dev_cmd k) (cmd_args k) (port1_enabled k)
                 (port2_enabled k) (config k) (kb_scanning k) (scancode_set k)
             else k in
    if negb (current_cmd k =? 0) && (input_size k >=? cmd_args k) then
      let k := handle_cmd k in Some (set_cmds 0 (current_dev_cmd k) (cmd_args k) k)
    else if negb (current_dev_cmd k =? 0) && (input_size k >=? cmd_args k) then
      let k := kbd_handle_cmd k in Some (set_cmds (current_cmd k) 0 (cmd_args k) k)
    else
      let k := pop_input k in
      _ ← assert (current_cmd k =? 0);
      if (value =? 0xED) || (value =? 0xF0) || (value =? 0xF3) then
        Some (push_if_room 0xFA (set_cmds (current_cmd k) value 1 k))
      else
        let k := kbd_handle_cmd (set_cmds (current_cmd k) value (cmd_args k) k) in
        Some (set_cmds (current_cmd k) 0 (cmd_args k) k)
  else if offset =? 4 then
    if value =? 0x60 then Some (set_cmds value (current_dev_cmd k) 1 k)
    else Some (handle_cmd (set_cmds value (current_dev_cmd k) 0 k))
  else Some k.

(** ** Correctness of the timer *)

Lemma testbit_out signal p : fits 8 (NMI_STATUS p) ->
  let p' := set_channel_output 2 signal p in
  Z.testbit (NMI_STATUS p') 5 = signal /\
  (forall i, i <> 5 -> 0 <= i < 8 -> Z.testbit (NMI_STATUS p') i = Z.testbit (NMI_STATUS p) i) /\
  fits 8 (NMI_STATUS p') /\ channels p' = channels p.
Proof.
  intros Hf p'. subst p'. unfold set_channel_output. cbn [Z.eqb Pos.eqb NMI_STATUS channels].
  destruct signal; (split; [|split; [intros i Hi Hr|split; [|done]]]).
  - rewrite Z.lor_spec. apply orb_true_r.
  - rewrite Z.lor_spec. unfold NMI_STATUS_TMR2_OUT_STS. rewrite Z.shiftl_1_l, Z.pow2_bits_false by lia.
    apply orb_false_r.
  - apply fits_lor; [lia|done|]. by vm_compute.
  - rewrite Z.land_spec. apply andb_false_r.
  - rewrite Z.land_spec. unfold u8. rewrite testbit_wrap, Z.lnot_spec by lia.
    unfold NMI_STATUS_TMR2_OUT_STS. rewrite Z.shiftl_1_l, Z.pow2_bits_false by lia.
    replace (i <? 8) with true by lia. apply andb_true_r.
  - apply fits_land; [lia|done|]. by vm_compute.
Qed.

(** Channels 0 and 1 do not touch channel 2 or its output. *)
Lemma update_channel_other i p : (i = 0 \/ i = 1) -> length (channels p) = 3%nat ->
  exists p', update_channel i p = Some p' /\ NMI_STATUS p' = NMI_STATUS p /\
    channels p' !! 2%nat = channels p !! 2%nat /\ length (channels p') = 3%nat.
Proof.
  intros Hi Hl. unfold update_channel.
  destruct (lookup_lt_is_Some_2 (channels p) (Z.to_nat i)) as [ch Hch]; [lia|]. rewrite Hch.
  cbn [mbind option_bind]. unfold set_channel_output, set_channel.
  replace (i =? 2) with false by lia. simpl.
  repeat case_bool; eexists; (split; [done|]); simpl; rewrite ?length_insert;
    rewrite ?list_lookup_insert_ne by lia; done.
Qed.

(** The state of channel 2 after it was programmed with [v] in mode 0 and [k]
    ticks have passed. *)
Record counting_down (v k : Z) (p : Pit) : Prop := {
  cd_len : length (channels p) = 3%nat;
  cd_fits : fits 8 (NMI_STATUS p);
  cd_gate : Z.testbit (NMI_STATUS p) 0 = true;
  cd_out : Z.testbit (NMI_STATUS p) 5 = (v <=? k);
  cd_ch : channels p !! 2%nat = Some (mkChannel (u16 (v - k)) v 3 0 false true)
}.

Lemma gate_open z : Z.testbit z 0 = true -> (Z.land z NMI_STATUS_TIM_CNT2_EN =? 0) = false.
Proof.
  intros Hb. apply Z.eqb_neq. intros Hz. apply (f_equal (fun x => Z.testbit x 0)) in Hz.
  rewrite Z.land_spec, Hb in Hz. done.
Qed.

Lemma update_counting v k p : 1 <= v < 2 ^ 16 -> 0 <= k -> counting_down v k p ->
  exists p', update p = Some p' /\ counting_down v (k + 1) p'.
Proof.
  intros Hv Hk [Hl Hf Hg Ho Hc]. unfold update.
  destruct (update_channel_other 0 p) as (p1 & -> & Hn1 & Hc1 & Hl1); [auto|done|].
  cbn [mbind option_bind].
  destruct (update_channel_other 1 p1) as (p2 & -> & Hn2 & Hc2 & Hl2); [auto|done|].
  cbn [mbind option_bind]. unfold update_channel. change (Z.to_nat 2) with 2%nat.
  rewrite Hc2, Hc1, Hc. cbn [mbind option_bind counting count operating_mode negb orb andb].
  rewrite Z.eqb_refl, Hn2, Hn1, gate_open by done. cbn [orb andb Z.eqb].
  assert (Hd : u16 (u16 (v - k) - 1) = u16 (v - (k + 1))).
  { unfold u16, wrap. rewrite Zminus_mod_idemp_l. f_equal. lia. }
  rewrite Hd. set (ch := mkChannel _ _ _ _ _ _). eexists. split; [done|].
  assert (Hset : channels (set_channel 2 ch p2) !! 2%nat = Some ch).
  { simpl. apply list_lookup_insert_eq. lia. }
  assert (Hlen : length (channels (set_channel 2 ch p2)) = 3%nat) by (simpl; by rewrite length_insert).
  assert (Hst : NMI_STATUS (set_channel 2 ch p2) = NMI_STATUS p) by (simpl; congruence).
  destruct (Z.eqb_spec (u16 (v - (k + 1))) 0) as [Hz|Hz].
  - destruct (testbit_out true (set_channel 2 ch p2)) as (H5 & Hi & Hfit & Hch); [by rewrite Hst|].
    split.
    + by rewrite Hch.
    + done.
    + rewrite Hi by lia. by rewrite Hst.
    + rewrite H5. unfold u16, wrap in Hz. symmetry. apply Z.leb_le.
      destruct (Z.le_gt_cases v (k + 1)); [done|]. rewrite Z.mod_small in Hz; lia.
    + rewrite Hch. done.
  - split; rewrite ?Hst; try done. rewrite Ho. destruct (decide (v = k + 1)) as [->|].
    + exfalso. apply Hz. by rewrite Z.sub_diag.
    + destruct (Z.leb_spec v k), (Z.leb_spec v (k + 1)); lia.
Qed.

Lemma update_n_counting n v k p : 1 <= v < 2 ^ 16 -> 0 <= k -> counting_down v k p ->
  exists p', update_n n p = Some p' /\ counting_down v (k + Z.of_nat n) p'.
Proof.
  revert k p. induction n as [|n IH]; intros k p Hv Hk Hc; cbn [update_n].
  - exists p. by rewrite Z.add_0_r.
  - destruct (update_counting v k p Hv Hk Hc) as (p1 & -> & Hc1). simpl.
    destruct (IH (k + 1) p1 Hv ltac:(lia) Hc1) as (p' & -> & Hc'). exists p'. split; [done|].
    by replace (k + Z.of_nat (S n)) with (k + 1 + Z.of_nat n) by lia.
Qed.

(** The three writes that program channel 2 in mode 0, low byte then high byte. *)
Lemma pit_write_control p ch : channels p !! 2%nat = Some ch ->
  pit_write 3 0xB0 1 p = Some (set_channel_output 2 false
    (set_channel 2 (mkChannel (count ch) (reload_value ch) 3 0 false false) p)).
Proof.
  intros Hch. unfold pit_write. change (Z.to_nat (Z.shiftr 0xB0 6)) with 2%nat. rewrite Hch. reflexivity.
Qed.

Lemma pit_write_low p c r cnt b : channels p !! 2%nat = Some (mkChannel c r 3 0 false cnt) -> b <= 255 ->
  pit_write 2 b 1 p = Some (set_channel_output 2 false
    (set_channel 2 (mkChannel c (Z.lor (Z.land r 0xFF00) b) 3 0 true cnt) p)).
Proof.
  intros Hch Hb. unfold pit_write. replace (b <=? 0xFF) with true by lia.
  change (Z.to_nat 2) with 2%nat. rewrite Hch. reflexivity.
Qed.

Lemma pit_write_high p c r cnt b : channels p !! 2%nat = Some (mkChannel c r 3 0 true cnt) -> b <= 255 ->
  let v := Z.lor (Z.land r 0xFF) (Z.shiftl b 8) in
  pit_write 2 b 1 p = Some (set_channel 2 (mkChannel v v 3 0 false true) p).
Proof.
  intros Hch Hb v. unfold pit_write. replace (b <=? 0xFF) with true by lia.
  change (Z.to_nat 2) with 2%nat. rewrite Hch. reflexivity.
Qed.

Lemma low_high r v : 0 <= v < 2 ^ 16 ->
  Z.lor (Z.land (Z.lor (Z.land r 0xFF00) (v mod 256)) 0xFF) (Z.shiftl (v / 256) 8) = v.
Proof.
  intros Hv. apply Z.bits_inj'. intros i Hi. rewrite Z.lor_spec, Z.land_spec, Z.lor_spec, Z.land_spec.
  change 0xFF with (Z.ones 8). change 0xFF00 with (Z.shiftl (Z.ones 8) 8).
  rewrite !Z.shiftl_spec by lia. change 256 with (2 ^ 8). rewrite <- Z.shiftr_div_pow2 by lia.
  destruct (Z.lt_ge_cases i 8).
  - rewrite (Z.testbit_neg_r _ (i - 8)) by lia. rewrite (Z.testbit_neg_r (Z.shiftr v 8) (i - 8)) by lia.
    rewrite Z.mod_pow2_bits_low, Z.ones_spec_low by lia.
    by rewrite andb_false_r, andb_true_r, orb_false_r.
  - rewrite (Z.ones_spec_high 8 i) by lia. rewrite andb_false_r. simpl.
    rewrite Z.shiftr_spec by lia. f_equal. lia.
Qed.

Lemma program_counting v p : 1 <= v < 2 ^ 16 -> length (channels p) = 3%nat ->
  fits 8 (NMI_STATUS p) -> Z.testbit (NMI_STATUS p) 0 = true ->
  exists p', (p ← pit_write 3 0xB0 1 p; p ← pit_write 2 (v mod 256) 1 p;
              pit_write 2 (v / 256) 1 p) = Some p' /\ counting_down v 0 p'.
Proof.
  intros Hv Hl Hf Hg. destruct (lookup_lt_is_Some_2 (channels p) 2) as [ch Hch]; [lia|].
  assert (Hlo : 0 <= v mod 256 < 256) by (apply Z.mod_pos_bound; lia).
  assert (Hhi : 0 <= v / 256 < 256) by (split; [apply Z.div_pos|apply Z.div_lt_upper_bound]; lia).
  rewrite (pit_write_control p ch Hch). cbn [mbind option_bind]. set (q := set_channel 2 _ p).
  destruct (testbit_out false q Hf) as (H5 & Hi & Hfit & Hc1). set (p1 := set_channel_output 2 false q) in *.
  assert (Hch1 : channels p1 !! 2%nat = Some (mkChannel (count ch) (reload_value ch) 3 0 false false)).
  { rewrite Hc1. apply list_lookup_insert_eq. simpl. lia. }
  assert (Hl1 : length (channels p1) = 3%nat).
  { rewrite Hc1. unfold q, set_channel. cbn [channels]. by rewrite length_insert. }
  rewrite (pit_write_low p1 _ _ _ _ Hch1) by lia. cbn [mbind option_bind]. set (q1 := set_channel 2 _ p1).
  destruct (testbit_out false q1 Hfit) as (H5' & Hi' & Hfit' & Hc2).
  set (p2 := set_channel_output 2 false q1) in *.
  assert (Hl2 : length (channels p2) = 3%nat).
  { rewrite Hc2. unfold q1, set_channel. cbn [channels]. by rewrite length_insert. }
  assert (Hch2 : channels p2 !! 2%nat =
    Some (mkChannel (count ch) (Z.lor (Z.land (reload_value ch) 0xFF00) (v mod 256)) 3 0 true false)).
  { rewrite Hc2. apply list_lookup_insert_eq. change (Z.to_nat 2) with 2%nat. lia. }
  rewrite (pit_write_high p2 _ _ _ _ Hch2) by lia. rewrite low_high by lia.
  eexists. split; [done|]. split.
  - simpl. by rewrite length_insert.
  - done.
  - cbn [NMI_STATUS set_channel]. rewrite Hi', Hi by lia. done.
  - cbn [NMI_STATUS set_channel]. rewrite H5'. symmetry. apply Z.leb_gt. lia.
  - rewrite Z.sub_0_r. unfold u16. rewrite wrap_small by (unfold fits; lia).
    apply list_lookup_insert_eq. lia.
Qed.

(** a one-shot count on timer channel 2 (mode 0, low byte then high byte)
    with the gate open raises the output bit of port 0x61 exactly after as many
    ticks as were programmed: it reads 0 before and 1 from then on. *)
Theorem pit_one_shot v n p : 1 <= v < 2 ^ 16 -> length (channels p) = 3%nat ->
  fits 8 (NMI_STATUS p) -> Z.testbit (NMI_STATUS p) 0 = true ->
  exists p', (p ← pit_write 3 0xB0 1 p; p ← pit_write 2 (v mod 256) 1 p;
              p ← pit_write 2 (v / 256) 1 p; update_n n p) = Some p' /\
    Z.testbit (NMI_STATUS p') 5 = (v <=? Z.of_nat n).
Proof.
  intros Hv Hl Hf Hg. destruct (program_counting v p Hv Hl Hf Hg) as (p1 & Hp1 & Hc).
  destruct (update_n_counting n v 0 p1 Hv ltac:(lia) Hc) as (p2 & Hp2 & [_ _ _ Ho _]).
  exists p2. split; [|by rewrite Ho].
  destruct (pit_write 3 0xB0 1 p) as [q|]; [|done]. simpl in *.
  destruct (pit_write 2 (v mod 256) 1 q) as [q1|]; [|done]. simpl in *.
  by rewrite Hp1.
Qed.

Lemma pit_one_shot_witness : exists p',
  (p ← pit_write 3 0xB0 1 (mkPit (channels pit_init) 1); p ← pit_write 2 (300 mod 256) 1 p;
   p ← pit_write 2 (300 / 256) 1 p; update_n 299 p) = Some p' /\
  Z.testbit (NMI_STATUS p') 5 = false.
Proof.
  exact (pit_one_shot 300 299 (mkPit (channels pit_init) 1) ltac:(lia) eq_refl
    ltac:(unfold fits; simpl; lia) eq_refl).
Defined.

(** ** Keeping time *)

Lemma update_n_add a b p : update_n (a + b) p = p ← update_n a p; update_n b p.
Proof.
  revert p. induction a as [|a IH]; intros p; simpl; [done|].
  destruct (update p) as [q|]; [|done]. simpl. apply IH.
Qed.

(** however the elapsed time is cut into calls of [chipset_update_timers],
    the timer receives exactly the ticks of the total: the remainder carries
    over and no time is lost or gained. *)
Theorem timers_no_drift freq (elapsed : list Z) rem p : 0 < freq / 1193182 ->
  Forall (fun e => 0 <= e) elapsed -> 0 <= rem < freq / 1193182 ->
  rem + foldr Z.add 0 elapsed < 2 ^ 64 ->
  let per := freq / 1193182 in let total := rem + foldr Z.add 0 elapsed in
  foldl (fun o e => '(r, p) ← o; chipset_update_timers e freq r p) (Some (rem, p)) elapsed =
    p' ← update_n (Z.to_nat (total / per)) p; Some (total mod per, p').
Proof.
  intros Hper Hel. revert rem p. induction Hel as [|e es He Hes IH]; intros rem p Hrem Hsum; simpl in Hsum |- *.
  { rewrite Z.add_0_r. rewrite (Z.div_small rem), (Z.mod_small rem) by lia. done. }
  set (per := freq / 1193182) in *. unfold chipset_update_timers at 2. fold per.
  assert (0 <= foldr Z.add 0 es).
  { clear -Hes. induction Hes; simpl; lia. }
  replace (per =? 0) with false by lia. cbn [negb assert mbind option_bind].
  assert (e ⊞ rem = e + rem) as -> by (unfold add64; apply u64_small; lia).
  set (q := (e + rem) / per). set (r := (e + rem) mod per).
  assert (Hr : 0 <= r < per) by (apply Z.mod_pos_bound; lia).
  assert (Hqr : e + rem = per * q + r) by (apply Z.div_mod; lia).
  assert (Hq : 0 <= q) by (apply Z.div_pos; lia).
  set (S := foldr Z.add 0 es) in *.
  assert (Htot : rem + (e + S) = q * per + (r + S)) by lia.
  assert (Hdiv : (rem + (e + S)) / per = q + (r + S) / per) by (rewrite Htot, Z.div_add_l; lia).
  assert (Hmod : (rem + (e + S)) mod per = (r + S) mod per)
    by (rewrite Htot, Z.add_comm, Z_mod_plus_full; done).
  assert (0 <= (r + S) / per) by (apply Z.div_pos; lia).
  rewrite Hdiv, Hmod, Z2Nat.inj_add, update_n_add by lia.
  destruct (update_n (Z.to_nat q) p) as [p1|].
  - cbn [mbind option_bind]. apply IH; lia.
  - cbn [mbind option_bind]. clear. induction es as [|e es IH]; simpl; [done|]. apply IH.
Qed.

Lemma timers_no_drift_witness :
  foldl (fun o e => '(r, p) ← o; chipset_update_timers e 3000000 r p) (Some (1, pit_init)) [3; 5] =
    p' ← update_n (Z.to_nat ((1 + 8) / 2)) pit_init; Some ((1 + 8) mod 2, p').
Proof.
  exact (timers_no_drift 3000000 [3; 5] 1 pit_init ltac:(by vm_compute) ltac:(repeat constructor; lia)
    ltac:(split; [lia|by vm_compute]) ltac:(simpl; lia)).
Defined.

(** ** The keyboard controller's queue *)

Record kbc_ok (k : I8042) : Prop := {
  ko_out : length (output_buffer k) = 16%nat;
  ko_in : length (input_buffer k) = 2%nat;
  ko_rp : 0 <= output_read_ptr k < 16;
  ko_size : 0 <= output_size k <= 16;
  ko_wp : output_write_ptr k = (output_read_ptr k + output_size k) mod 16;
  ko_insize : 0 <= input_size k <= 2
}.

(** The bytes the guest will read, oldest first. *)
Definition out_queue (k : I8042) : list Z :=
  map (fun i => nth (Z.to_nat ((output_read_ptr k + Z.of_nat i) mod 16)) (output_buffer k) 0)
    (seq 0 (Z.to_nat (output_size k))).

Definition same_queue (k k' : I8042) : Prop :=
  output_buffer k' = output_buffer k /\ output_read_ptr k' = output_read_ptr k /\
  output_write_ptr k' = output_write_ptr k /\ output_size k' = output_size k.

Lemma same_queue_eq k k' : same_queue k k' -> out_queue k' = out_queue k.
Proof. intros (H1 & H2 & H3 & H4). unfold out_queue. by rewrite H1, H2, H4. Qed.

Lemma push_output_ok b k : kbc_ok k -> output_size k < 16 ->
  kbc_ok (push_output b k) /\ out_queue (push_output b k) = out_queue k ++ [b].
Proof.
  intros [Ho Hi Hr Hs Hw Hn] Hlt. unfold push_output.
  assert (Hu : u8 (output_size k + 1) = output_size k + 1) by (apply wrap_small; unfold fits; lia).
  split.
  - split; simpl; rewrite ?length_insert, ?Hu; try (done || lia).
    rewrite Hw. rewrite Zplus_mod_idemp_l. f_equal. lia.
  - unfold out_queue. simpl. rewrite Hu.
    replace (Z.to_nat (output_size k + 1)) with (S (Z.to_nat (output_size k))) by lia.
    rewrite seq_S, map_app. simpl. f_equal.
    + apply map_ext_in. intros i Hin. apply in_seq in Hin. rewrite !nth_lookup.
      rewrite list_lookup_insert_ne; [done|]. rewrite Hw. intros He.
      pose proof (Z.mod_pos_bound (output_read_ptr k + output_size k) 16).
      pose proof (Z.mod_pos_bound (output_read_ptr k + Z.of_nat i) 16).
      pose proof (Z.div_mod (output_read_ptr k + output_size k) 16).
      pose proof (Z.div_mod (output_read_ptr k + Z.of_nat i) 16). lia.
    + f_equal. rewrite Z2Nat.id by lia. rewrite <- Hw. rewrite nth_lookup, list_lookup_insert_eq; [done|].
      rewrite Hw. pose proof (Z.mod_pos_bound (output_read_ptr k + output_size k) 16). lia.
Qed.

Lemma push_if_room_ok b k : kbc_ok k ->
  kbc_ok (push_if_room b k) /\
  out_queue (push_if_room b k) = out_queue k ++ (if output_size k =? 16 then [] else [b]).
Proof.
  intros Hk. unfold push_if_room. destruct (Z.eqb_spec (output_size k) 16); simpl.
  - by rewrite app_nil_r.
  - apply push_output_ok; [done|]. destruct Hk. lia.
Qed.

Lemma pop_input_ok k : kbc_ok k -> 1 <= input_size k -> kbc_ok (pop_input k) /\ same_queue k (pop_input k).
Proof.
  intros [] Hn. split; [|done]. split; simpl; rewrite ?length_insert; try done.
  unfold u8. rewrite wrap_small by (unfold fits; lia). lia.
Qed.

(** What the keyboard's commands keep: the queue only grows. *)
Definition grows (k k' : I8042) : Prop :=
  kbc_ok k' /\ (exists l, out_queue k' = out_queue k ++ l) /\ current_cmd k' = current_cmd k.

Lemma grows_refl k : kbc_ok k -> grows k k.
Proof. intros. split_and!; [done|exists []; by rewrite app_nil_r|done]. Qed.

Lemma grows_push_if_room b k k' : grows k k' -> grows k (push_if_room b k').
Proof.
  intros (Hk & [l Hl] & Hc). destruct (push_if_room_ok b k' Hk) as [Hk' Hq]. split_and!; [done| |].
  - rewrite Hq, Hl, <- (assoc_L app). eauto.
  - unfold push_if_room. by case_bool.
Qed.

Lemma grows_same k k' k'' : grows k k' -> same_queue k' k'' ->
  length (input_buffer k'') = 2%nat -> 0 <= input_size k'' <= 2 -> current_cmd k'' = current_cmd k' ->
  grows k k''.
Proof.
  intros (Hk & [l Hl] & Hc) Hs Hi Hn Hc'. split_and!; [|by exists l; rewrite (same_queue_eq _ _ Hs)|congruence].
  destruct Hs as (H1 & H2 & H3 & H4), Hk. split; rewrite ?H1, ?H2, ?H3, ?H4; done.
Qed.

Lemma kbd_handle_cmd_ok k : kbc_ok k -> (current_dev_cmd k = 0xF0 -> 1 <= input_size k) ->
  grows k (kbd_handle_cmd k).
Proof.
  intros Hk Hin. unfold kbd_handle_cmd.
  destruct (Z.eqb_spec (current_dev_cmd k) 0xF0) as [He|_].
  - destruct (pop_input_ok k Hk (Hin He)) as [Hp Hq]. apply grows_push_if_room.
    assert (Hg : grows k (pop_input k)).
    { split_and!; [done|exists []; by rewrite app_nil_r, (same_queue_eq _ _ Hq)|done]. }
    case_bool; [by apply grows_push_if_room|]. by apply (grows_same k (pop_input k)); destruct Hp.
  - destruct (Z.eqb_spec (current_dev_cmd k) 0xF4).
    { apply grows_push_if_room, (grows_same k k); [by apply grows_refl|done|by destruct Hk..]. }
    destruct (Z.eqb_spec (current_dev_cmd k) 0xF5).
    { apply grows_push_if_room, (grows_same k k); [by apply grows_refl|done|by destruct Hk..]. }
    destruct (Z.eqb_spec (current_dev_cmd k) 0xFF); [|by apply grows_refl].
    case_bool; [by apply grows_refl|]. bool_to_prop.
    destruct (push_output_ok 0xFA k Hk) as [Hk1 Hq1]; [lia|].
    destruct (push_output_ok 0xAA (push_output 0xFA k) Hk1) as [Hk2 Hq2].
    { simpl. unfold u8. rewrite wrap_small by (unfold fits; destruct Hk; lia). lia. }
    split_and!; [done|exists [0xFA; 0xAA]|done]. by rewrite Hq2, Hq1, <- (assoc_L app).
Qed.

Lemma kbc_write_data_ok v k : kbc_ok k -> current_cmd k = 0 ->
  exists k', kbc_write 0 v k = Some k' /\ grows k k'.
Proof.
  intros Hk Hc. unfold kbc_write. cbn [Z.eqb].
  set (k1 := if input_size k <? 2 then _ else k).
  assert (H1 : grows k k1 /\ 1 <= input_size k1).
  { subst k1. destruct (Z.ltb_spec (input_size k) 2).
    - split; [|destruct Hk; simpl; lia]. apply (grows_same k k); [by apply grows_refl|done|..]; simpl;
        rewrite ?length_insert; destruct Hk; (done || lia).
    - split; [by apply grows_refl|lia]. }
  clearbody k1. destruct H1 as [Hg Hn]. pose proof Hg as (Hk1 & [l Hl] & Hc1). rewrite Hc1, Hc. cbn [Z.eqb negb andb].
  assert (Htrans : forall k2, grows k1 k2 -> grows k k2).
  { intros k2 (Hk2 & [l2 Hl2] & Hc2). split_and!; [done| |congruence].
    rewrite Hl2, Hl, <- (assoc_L app). eauto. }
  case_bool.
  - eexists. split; [done|]. apply Htrans.
    apply (grows_same k1 (kbd_handle_cmd k1)); [by apply kbd_handle_cmd_ok|done|..];
      destruct (kbd_handle_cmd_ok k1 Hk1 (fun _ => Hn)) as ([] & _ & _); done.
  - destruct (pop_input_ok k1 Hk1 Hn) as [Hp Hq]. simpl (current_cmd (pop_input k1)). rewrite Hc1, Hc.
    cbn [Z.eqb assert mbind option_bind].
    assert (Hgp : grows k1 (pop_input k1)).
    { split_and!; [done|exists []; by rewrite app_nil_r, (same_queue_eq _ _ Hq)|done]. }
    destruct ((v =? 0xED) || (v =? 0xF0) || (v =? 0xF3)) eqn:Ev.
    + eexists. split; [done|]. apply Htrans, grows_push_if_room.
      apply (grows_same k1 (pop_input k1)); [done|done|by destruct Hp|by destruct Hp|simpl; congruence].
    + apply orb_false_iff in Ev as [Ev _]. apply orb_false_iff in Ev as [_ Ev]. bool_to_prop.
      set (k2 := set_cmds 0 v (cmd_args (pop_input k1)) (pop_input k1)).
      assert (Hg2 : grows k1 k2)
        by (apply (grows_same k1 (pop_input k1)); [done|done|by destruct Hp|by destruct Hp|simpl; congruence]).
      assert (Hg3 : grows k2 (kbd_handle_cmd k2)) by (apply kbd_handle_cmd_ok; [apply Hg2|by simpl; intros ->]).
      eexists. split; [done|]. apply Htrans.
      assert (Hg4 : grows k1 (kbd_handle_cmd k2)).
      { destruct Hg3 as (? & [l3 Hl3] & ?), Hg2 as (? & [l2 Hl2] & ?).
        split_and!; [done| |congruence]. rewrite Hl3, Hl2, <- (assoc_L app). eauto. }
      apply (grows_same k1 (kbd_handle_cmd k2)); [done|done|..]; destruct Hg4 as ([] & _ & _); done.
Qed.

Lemma kbc_read_ok k : kbc_ok k ->
  let '(b, k') := kbc_read 0 k in
  kbc_ok k' /\ current_cmd k' = current_cmd k /\
  match out_queue k with
  | [] => b = 0 /\ k' = k
  | x :: q => b = x /\ out_queue k' = q
  end.
Proof.
  intros Hk. unfold kbc_read. cbn [Z.eqb]. pose proof Hk as [Ho Hi Hr Hs Hw Hn].
  destruct (Z.eqb_spec (output_size k) 0) as [Hz|Hz].
  - unfold out_queue. rewrite Hz. done.
  - split; [|split; [done|]].
    + split; simpl; try done; try lia.
      * apply Z.mod_pos_bound. lia.
      * rewrite Hw, Zplus_mod_idemp_l. f_equal. lia.
    + unfold out_queue. simpl.
      replace (Z.to_nat (output_size k)) with (S (Z.to_nat (output_size k - 1))) by lia.
      cbn [seq map]. rewrite Z.add_0_r, (Z.mod_small (output_read_ptr k)) by lia. split; [done|].
      rewrite <- seq_shift, map_map. apply map_ext. intros j. do 2 f_equal.
      rewrite Zplus_mod_idemp_l. f_equal. lia.
Qed.

(** What the guest does at the data port and the status port. *)
Inductive guest_op := ReadData | ReadStatus | WriteData (v : Z).

(** A run: the bytes read from the data port, and the controller after it. *)
Fixpoint guest_run (ops : list guest_op) (k : I8042) : option (list Z * I8042) :=
  match ops with
  | [] => Some ([], k)
  | ReadData :: ops => let '(b, k) := kbc_read 0 k in '(bs, k) ← guest_run ops k; Some (b :: bs, k)
  | ReadStatus :: ops => let '(_, k) := kbc_read 4 k in guest_run ops k
  | WriteData v :: ops => k ← kbc_write 0 v k; guest_run ops k
  end.

(** while no controller command is pending, any sequence of data reads,
    status reads and data writes by the guest runs without a failed assertion
    and keeps the controller's queues inside their arrays. *)
Theorem kbc_data_port_safe ops k : kbc_ok k -> current_cmd k = 0 ->
  exists bs k', guest_run ops k = Some (bs, k') /\ kbc_ok k' /\ current_cmd k' = 0.
Proof.
  revert k. induction ops as [|[| |v] ops IH]; intros k Hk Hc; cbn [guest_run].
  - eauto.
  - pose proof (kbc_read_ok k Hk) as Hr. destruct (kbc_read 0 k) as [b k1]. destruct Hr as (Hk1 & Hc1 & _).
    destruct (IH k1 Hk1 ltac:(congruence)) as (bs & k' & -> & ? & ?). simpl. eauto.
  - unfold kbc_read. cbn [Z.eqb]. by apply IH.
  - destruct (kbc_write_data_ok v k Hk Hc) as (k1 & -> & Hk1 & _ & Hc1). simpl.
    apply IH; [done|congruence].
Qed.

Lemma kbc_init_ok : kbc_ok kbc_init.
Proof. by split; simpl; try lia. Qed.

Lemma kbc_data_port_safe_witness : exists k',
  guest_run [WriteData 0xFF; ReadStatus; ReadData; ReadData] kbc_init = Some ([0xFA; 0xAA], k') /\ kbc_ok k'.
Proof.
  destruct (kbc_data_port_safe [WriteData 0xFF; ReadStatus; ReadData; ReadData] kbc_init kbc_init_ok eq_refl)
    as (bs & k' & H & Hk & _).
  exists k'. split; [|exact Hk]. rewrite H. vm_compute in H. injection H as <- _. reflexivity.
Defined.

(** a controller command other than "write config" stays pending after it ran,
    and the next byte the guest sends to the keyboard runs it again instead of
    reaching the keyboard: after command [c], "enable scanning" leaves scanning
    as it was and the keyboard does not acknowledge it. *)
Theorem kbc_command_swallows_data c k : kbc_ok k -> 0 < c < 256 -> c <> 0x60 ->
  exists k1 k2, kbc_write 4 c k = Some k1 /\ kbc_write 0 0xF4 k1 = Some k2 /\
    kb_scanning k2 = kb_scanning k /\
    current_cmd k2 = 0 /\ input_size k2 = Z.min 2 (input_size k + 1).
Proof.
  intros Hk Hc Hne. unfold kbc_write at 1. cbn [Z.eqb Pos.eqb].
  destruct (Z.eqb_spec c 0x60); [done|]. set (k0 := set_cmds c (current_dev_cmd k) 0 k).
  assert (Hh : forall k, current_cmd k = c -> kb_scanning (handle_cmd k) = kb_scanning k /\
    current_cmd (handle_cmd k) = c /\ cmd_args (handle_cmd k) = cmd_args k /\
    input_size (handle_cmd k) = input_size k).
  { intros k3 H3. unfold handle_cmd. rewrite H3. destruct (Z.eqb_spec c 0x60); [done|].
    repeat case_bool; done. }
  destruct (Hh k0 eq_refl) as (Hs & Hcur & Ha & Hi). exists (handle_cmd k0).
  set (k1 := handle_cmd k0) in *. clearbody k1. unfold kbc_write. cbn [Z.eqb Pos.eqb].
  set (k1' := if input_size k1 <? 2 then _ else k1).
  assert (H1 : current_cmd k1' = c /\ cmd_args k1' = 0 /\ kb_scanning k1' = kb_scanning k /\
    input_size k1' = Z.min 2 (input_size k + 1)).
  { subst k1'. simpl in Hi. destruct Hk. destruct (Z.ltb_spec (input_size k1) 2); simpl;
      split_and!; (done || lia). }
  clearbody k1'. destruct H1 as (H1 & H2 & H3 & H4). rewrite H1, H2, H4.
  replace (c =? 0) with false by lia. destruct Hk.
  replace (Z.min 2 (input_size k + 1) >=? 0) with true by lia. cbn [negb andb].
  destruct (Hh k1' H1) as (Hs' & _ & _ & Hi'). eexists. split; [done|]. split; [done|]. simpl.
  split_and!; congruence.
Qed.

Lemma kbc_command_swallows_data_witness : exists k1 k2,
  kbc_write 4 0xAE kbc_init = Some k1 /\ kbc_write 0 0xF4 k1 = Some k2 /\ kb_scanning k2 = false.
Proof.
  destruct (kbc_command_swallows_data 0xAE kbc_init kbc_init_ok ltac:(lia) ltac:(lia))
    as (k1 & k2 & H1 & H2 & H3 & _).
  exists k1, k2. split; [exact H1|split; [exact H2|exact H3]].
Defined.

(** the controller's self-test commands do not check for room: seventeen of
    them without a read leave an output count of 17 for an array of 16, and the
    invariant of the queue is lost. *)
Theorem kbc_selftest_overflow :
  exists k, Nat.iter 17 (fun o => k ← o; kbc_write 4 0xAA k) (Some kbc_init) = Some k /\
    output_size k = 17 /\ ~ kbc_ok k.
Proof.
  eexists. split; [vm_compute; reflexivity|]. split; [reflexivity|]. intros []. simpl in *. lia.
Qed.

(** the guest learns the memory size from the CMOS: selecting registers 0x34
    and 0x35 in turn and reading the data port gives the low and the high byte of
    the size in units of 64 KiB. *)
Theorem cmos_memory_size mem c : 0 <= mem < 2 ^ 32 ->
  exists lo hi c', (c ← cmos_write 0 0x34 1 c; '(lo, c) ← cmos_read mem 1 1 c;
     c ← cmos_write 0 0x35 1 c; '(hi, c) ← cmos_read mem 1 1 c; Some (lo, hi, c)) = Some (lo, hi, c') /\
    lo + 256 * hi = Z.shiftr mem 16 /\ CMOS_SELECT c' = 0xD.
Proof.
  intros Hm. exists (u8 (Z.shiftr mem 16)), (u8 (Z.shiftr mem 24)), (mkCmos 0xD false).
  split; [reflexivity|]. split; [|reflexivity].
  unfold u8, wrap. rewrite !Z.shiftr_div_pow2 by lia. change (2 ^ 8) with 256.
  assert (He : mem / 2 ^ 24 = mem / 2 ^ 16 / 256) by (rewrite Z.div_div by lia; done).
  rewrite He. assert (0 <= mem / 2 ^ 16 / 256 < 256).
  { rewrite Z.div_div by lia. split; [apply Z.div_pos; lia|apply Z.div_lt_upper_bound; lia]. }
  rewrite (Z.mod_small (mem / 2 ^ 16 / 256)) by lia. pose proof (Z.div_mod (mem / 2 ^ 16) 256 ltac:(lia)). lia.
Qed.

Lemma cmos_memory_size_witness : exists lo hi c',
  (c ← cmos_write 0 0x34 1 cmos_init; '(lo, c) ← cmos_read 0x4000000 1 1 c;
     c ← cmos_write 0 0x35 1 c; '(hi, c) ← cmos_read 0x4000000 1 1 c; Some (lo, hi, c)) = Some (lo, hi, c') /\
  lo + 256 * hi = 1024.
Proof.
  destruct (cmos_memory_size 0x4000000 cmos_init ltac:(lia)) as (lo & hi & c' & H & Hv & _).
  exists lo, hi, c'. split; [exact H|exact Hv].
Defined.

End Chipset.
