(* ===== verification/EvmPci.v ===== *)
(** * The virtual machine monitor's PCI bus (src/apps/evm/src/pci.cpp, pci.hpp)

    A device's configuration space is its bytes; the memory behind a base
    address register (BAR) is an identifier, 0 for none.  [VM->map_mem] and
    [VM->unmap_mem] act on the list of guest mappings.  An access outside the
    configuration space is [None]. *)

From S2P Require Import Prelude.

Module EvmPci.

Record PciAddress := mkAddr { bus : Z; dev : Z; func : Z }.

#[global] Instance PciAddress_dec : EqDecision PciAddress.
Proof. solve_decision. Defined.

(** [struct PciConfigSpace]; the arrays have seven entries, the last one for the
    expansion ROM. *)
Record PciConfigSpace := mkConfig {
  ptr : list Z;
  bars : list Z;
  bar_sizes : list Z;
  bar_allocated : list Z
}.

Definition write_bytes (offset : Z) (bs : list Z) (c : PciConfigSpace) : option PciConfigSpace :=
  if offset + Z.of_nat (length bs) <=? Z.of_nat (length (ptr c)) then
    Some (mkConfig (splice (Z.to_nat offset) bs (ptr c)) (bars c) (bar_sizes c) (bar_allocated c))
  else None.

Definition write8 (offset value : Z) := write_bytes offset (le_bytes 1 value).
Definition write16 (offset value : Z) := write_bytes offset (le_bytes 2 value).
Definition write32 (offset value : Z) := write_bytes offset (le_bytes 4 value).

Definition read_bytes (offset size : Z) (c : PciConfigSpace) : option Z :=
  if offset + size <=? Z.of_nat (length (ptr c)) then
    Some (le_val (take (Z.to_nat size) (drop (Z.to_nat offset) (ptr c))))
  else None.

Definition read32 (offset : Z) := read_bytes offset 4.

Definition set_device (vendor device : Z) (c : PciConfigSpace) :=
  c ← write16 0 vendor c; write16 2 device c.
Definition set_class (clazz subclass prog_if rev : Z) (c : PciConfigSpace) :=
  c ← write8 8 rev c; c ← write8 9 prog_if c; c ← write8 10 subclass c; write8 11 clazz c.
Definition set_type (type : Z) (c : PciConfigSpace) := write8 0xE 0 c.
Definition set_subsystem (vendor id : Z) (c : PciConfigSpace) :=
  c ← write16 0x2C vendor c; write16 0x2E id c.
Definition set_bar (bar value : Z) (c : PciConfigSpace) := write32 (0x10 + bar * 4) value c.
Definition get_bar (bar : Z) (c : PciConfigSpace) := read32 (0x10 + bar * 4) c.
Definition set_expansion_rom (value : Z) (c : PciConfigSpace) := write32 0x30 value c.
Definition get_expansion_rom (c : PciConfigSpace) := read32 0x30 c.

(** The constructor. *)
Definition new_config (pcie : bool) : option PciConfigSpace :=
  let n := if pcie then 0x1000 else 0x100 in
  let c := mkConfig (replicate (Z.to_nat n) 0xFF) (replicate 7 0) (replicate 7 0) (replicate 7 0) in
  c ← set_bar 0 0 c; c ← set_bar 1 0 c; c ← set_bar 2 0 c; c ← set_bar 3 0 c; c ← set_bar 4 0 c;
  set_bar 5 0 c.

Record PciDevice := mkDevice { addr : PciAddress; config : PciConfigSpace }.

(** [PCI_DEVICES] and the guest mappings: guest address, memory, size. *)
Record machine := mkMachine { PCI_DEVICES : list PciDevice; mappings : list (Z * Z * Z) }.

Definition pci_add_device (d : PciDevice) (m : machine) : machine :=
  mkMachine (PCI_DEVICES m ++ [d]) (mappings m).

Definition map_mem (guest mem size : Z) (ms : list (Z * Z * Z)) : list (Z * Z * Z) :=
  (guest, mem, size) :: ms.
Definition unmap_mem (guest size : Z) (ms : list (Z * Z * Z)) : list (Z * Z * Z) :=
  filter (fun e => ~ (fst (fst e) = guest /\ snd e = size)) ms.

Fixpoint find_device (a : PciAddress) (ds : list PciDevice) (i : nat) : option (nat * PciDevice) :=
  match ds with
  | [] => None
  | d :: ds => if decide (addr d = a) then Some (i, d) else find_device a ds (S i)
  end.

(** 32-bit values are truncated to [size] bytes by the copy. *)
Definition pci_config_read (a : PciAddress) (offset size : Z) (m : machine) : option Z :=
  match find_device a (PCI_DEVICES m) 0 with
  | Some (_, d) => read_bytes offset size (config d)
  | None => Some 0xFFFFFFFF
  end.

(** Moving the memory behind a BAR to a guest address. *)
Definition remap (bar base : Z) (c : PciConfigSpace) (ms : list (Z * Z * Z))
    : PciConfigSpace * list (Z * Z * Z) :=
  let mem := nth (Z.to_nat bar) (bars c) 0 in
  let size := nth (Z.to_nat bar) (bar_sizes c) 0 in
  let old := nth (Z.to_nat bar) (bar_allocated c) 0 in
  if negb (mem =? 0) && negb (old =? base) then
    let ms := if negb (old =? 0) then unmap_mem old size ms else ms in
    (mkConfig (ptr c) (bars c) (bar_sizes c) (<[Z.to_nat bar := base]> (bar_allocated c)),
     map_mem base mem size ms)
  else (c, ms).

(** The device part of [pci_config_write]. *)
Definition device_write (offset value size : Z) (c : PciConfigSpace) (ms : list (Z * Z * Z))
    : option (PciConfigSpace * list (Z * Z * Z)) :=
  let store '(c, ms) :=
    c ← write_bytes offset (le_bytes (Z.to_nat size) value) c; Some (c, ms) in
  if (0x10 <=? offset) && (offset <=? 0x24) then
    let bar := (offset - 0x10) / 4 in
    if value =? 0xFFFFFFFF then
      c ← set_bar bar (u32 (- nth (Z.to_nat bar) (bar_sizes c) 0)) c; Some (c, ms)
    else store (remap bar (Z.land value (u32 (Z.lnot 7))) c ms)
  else if offset =? 0x30 then
    if (value =? u32 (Z.lnot 0x7FF)) || (value =? u32 (Z.lnot 0)) || (value =? u32 (Z.lnot 1)) then
      c ← set_expansion_rom (u32 (- nth 6 (bar_sizes c) 0)) c; Some (c, ms)
    else store (remap 6 (Z.land value (u32 (Z.lnot 1))) c ms)
  else store (c, ms).

Definition pci_config_write (a : PciAddress) (offset value size : Z) (m : machine) : option machine :=
  match find_device a (PCI_DEVICES m) 0 with
  | Some (i, d) =>
      '(c, ms) ← device_write offset value size (config d) (mappings m);
      Some (mkMachine (<[i := mkDevice (addr d) c]> (PCI_DEVICES m)) ms)
  | None => Some m
  end.

(** ** Configuration accesses *)

Lemma write_read_same offset bs c c' : 0 <= offset -> Forall (fun b => 0 <= b < 256) bs ->
  write_bytes offset bs c = Some c' ->
  read_bytes offset (Z.of_nat (length bs)) c' = Some (le_val bs).
Proof.
  intros Ho Hb Hw. unfold write_bytes in Hw. case_match eqn:E; [|done]. simplify_eq. bool_to_prop.
  unfold read_bytes. simpl. rewrite length_splice by lia.
  replace (_ <=? _) with true by lia. f_equal. f_equal. rewrite Nat2Z.id. unfold splice.
  rewrite drop_app_ge by (rewrite length_take; lia). rewrite length_take.
  replace (_ - _)%nat with 0%nat by lia. rewrite drop_0. apply take_app_length.
Qed.

Lemma find_device_Some a ds i j d : find_device a ds i = Some (j, d) ->
  exists k, j = (i + k)%nat /\ ds !! k = Some d /\ addr d = a /\
    forall c, find_device a (<[k := mkDevice (addr d) c]> ds) i = Some (j, mkDevice (addr d) c).
Proof.
  revert i. induction ds as [|d0 ds IH]; intros i H; [done|]. simpl in H. case_decide as Hd.
  - simplify_eq. exists 0%nat. split_and!; [lia|done|done|]. intros c. simpl. by rewrite decide_True.
  - destruct (IH _ H) as (k & -> & Hk & Ha & Hf). exists (S k). split_and!; [lia|done|done|].
    intros c. simpl. by rewrite decide_False.
Qed.

(** a guest that sizes a BAR reads back its negated size: after writing all
    ones to BAR [bar], reading it returns the two's complement of the size of the
    memory behind it, and nothing is remapped. *)
Theorem bar_sizing a m i d bar : find_device a (PCI_DEVICES m) 0 = Some (i, d) ->
  0 <= bar <= 5 -> (0x40 <= length (ptr (config d)))%nat ->
  exists m', pci_config_write a (0x10 + bar * 4) 0xFFFFFFFF 4 m = Some m' /\
    mappings m' = mappings m /\
    pci_config_read a (0x10 + bar * 4) 4 m' =
      Some (u32 (- nth (Z.to_nat bar) (bar_sizes (config d)) 0)).
Proof.
  intros Hf Hb Hl. unfold pci_config_write. rewrite Hf. unfold device_write.
  replace (0x10 <=? 0x10 + bar * 4) with true by lia. replace (0x10 + bar * 4 <=? 0x24) with true by lia.
  cbn [andb]. rewrite Z.eqb_refl.
  replace ((0x10 + bar * 4 - 0x10) / 4) with bar by (replace (0x10 + bar * 4 - 0x10) with (bar * 4) by lia; by rewrite Z.div_mul).
  set (v := u32 _). assert (Hv : 0 <= v < 2 ^ 32) by (apply wrap_bound; lia).
  destruct (set_bar bar v (config d)) as [c'|] eqn:E.
  - simpl. eexists. split; [done|]. split; [done|]. unfold pci_config_read. simpl.
    destruct (find_device_Some _ _ _ _ _ Hf) as (k & -> & _ & _ & Hf'). rewrite Hf'. simpl.
    unfold set_bar, write32 in E. apply write_read_same in E; [|lia|apply le_bytes_range].
    rewrite length_le_bytes in E. change (Z.of_nat 4) with 4 in E. rewrite E, le_val_bytes. f_equal. apply Z.mod_small. lia.
  - exfalso. unfold set_bar, write32, write_bytes in E. rewrite length_le_bytes in E.
    case_match eqn:E2; [done|]. bool_to_prop. lia.
Qed.

(** a configuration write outside the BARs and the ROM register changes the
    bytes it names and no guest mapping, and reading them back returns the
    value. *)
Theorem config_write_read a m i d offset value size : find_device a (PCI_DEVICES m) 0 = Some (i, d) ->
  0 <= offset -> (offset < 0x10 \/ 0x24 < offset) -> offset <> 0x30 -> 0 <= size <= 4 ->
  offset + size <= Z.of_nat (length (ptr (config d))) -> 0 <= value < 2 ^ (8 * size) ->
  exists m', pci_config_write a offset value size m = Some m' /\ mappings m' = mappings m /\
    pci_config_read a offset size m' = Some value.
Proof.
  intros Hf Ho Hbar Hrom Hs Hlen Hv. unfold pci_config_write. rewrite Hf. unfold device_write.
  replace ((0x10 <=? offset) && (offset <=? 0x24)) with false
    by (symmetry; apply andb_false_iff; destruct Hbar; [left|right]; lia).
  destruct (Z.eqb_spec offset 0x30); [done|].
  destruct (write_bytes offset (le_bytes (Z.to_nat size) value) (config d)) as [c'|] eqn:E.
  - simpl. eexists. split; [done|]. split; [done|]. unfold pci_config_read. simpl.
    destruct (find_device_Some _ _ _ _ _ Hf) as (k & -> & _ & _ & Hf'). rewrite Hf'. simpl.
    apply write_read_same in E; [|lia|apply le_bytes_range].
    rewrite length_le_bytes, Z2Nat.id in E by lia. rewrite E, le_val_bytes, Z2Nat.id by lia. f_equal. by apply Z.mod_small.
  - exfalso. unfold write_bytes in E. rewrite length_le_bytes in E. case_match eqn:E2; [done|].
    bool_to_prop. lia.
Qed.

(** ** Mappings *)

(** moving a BAR from one non-zero guest address to another unmaps the memory
    there and maps it at the new one, leaving every other mapping alone. *)
Theorem bar_move bar base c ms c' ms' mem size old : 0 <= bar ->
  (Z.to_nat bar < length (bar_allocated c))%nat ->
  nth (Z.to_nat bar) (bars c) 0 = mem -> nth (Z.to_nat bar) (bar_sizes c) 0 = size ->
  nth (Z.to_nat bar) (bar_allocated c) 0 = old -> mem <> 0 -> old <> 0 -> old <> base ->
  remap bar base c ms = (c', ms') ->
  (base, mem, size) ∈ ms' /\ nth (Z.to_nat bar) (bar_allocated c') 0 = base /\
  (forall e, e ∈ ms' <-> e = (base, mem, size) \/ (e ∈ ms /\ ~ (fst (fst e) = old /\ snd e = size))).
Proof.
  intros Hb Hl Hm Hs Ho Hmz Hoz Hne Hr. unfold remap in Hr. rewrite Hm, Hs, Ho in Hr.
  replace (mem =? 0) with false in Hr by lia. replace (old =? base) with false in Hr by lia.
  replace (old =? 0) with false in Hr by lia. cbn [negb andb] in Hr. injection Hr as <- <-.
  split_and!.
  - left.
  - simpl. by rewrite nth_lookup, list_lookup_insert_eq.
  - intros e. unfold map_mem, unmap_mem. rewrite elem_of_cons, list_elem_of_filter. tauto.
Qed.

(** A device with 4 KiB of memory 9 behind BAR 0, mapped at 0xE0000000. *)
Definition demo_config : PciConfigSpace :=
  mkConfig (replicate 64 0) [9; 0; 0; 0; 0; 0; 0] [4096; 0; 0; 0; 0; 0; 0]
    [0xE0000000; 0; 0; 0; 0; 0; 0].
Definition demo_machine : machine :=
  mkMachine [mkDevice (mkAddr 0 1 0) demo_config] [(0xE0000000, 9, 4096)].

Lemma bar_move_witness : exists c' ms', remap 0 0xD0000000 demo_config [(0xE0000000, 9, 4096)] = (c', ms') /\
  (0xD0000000, 9, 4096) ∈ ms'.
Proof.
  destruct (remap 0 0xD0000000 demo_config [(0xE0000000, 9, 4096)]) as [c' ms'] eqn:E.
  exists c', ms'. split; [reflexivity|].
  exact (proj1 (bar_move 0 0xD0000000 demo_config _ c' ms' 9 4096 0xE0000000 ltac:(lia) ltac:(simpl; lia)
    eq_refl eq_refl eq_refl ltac:(lia) ltac:(lia) ltac:(lia) E)).
Defined.

Lemma bar_sizing_witness : exists m',
  pci_config_write (mkAddr 0 1 0) 0x10 0xFFFFFFFF 4 demo_machine = Some m' /\
  pci_config_read (mkAddr 0 1 0) 0x10 4 m' = Some 0xFFFFF000.
Proof.
  destruct (bar_sizing (mkAddr 0 1 0) demo_machine 0 (mkDevice (mkAddr 0 1 0) demo_config) 0
    eq_refl ltac:(lia) ltac:(simpl; lia)) as (m' & H1 & _ & H2).
  exists m'. split; [exact H1|exact H2].
Defined.

Lemma config_write_read_witness : exists m',
  pci_config_write (mkAddr 0 1 0) 4 7 2 demo_machine = Some m' /\
  pci_config_read (mkAddr 0 1 0) 4 2 m' = Some 7.
Proof.
  destruct (config_write_read (mkAddr 0 1 0) demo_machine 0 (mkDevice (mkAddr 0 1 0) demo_config) 4 7 2
    eq_refl ltac:(lia) ltac:(lia) ltac:(lia) ltac:(lia) ltac:(simpl; lia) ltac:(lia)) as (m' & H1 & _ & H2).
  exists m'. split; [exact H1|exact H2].
Defined.

(** address 0 doubles as "not mapped": a BAR that is moved to guest address 0
    is mapped there, and the next move does not unmap it, so the device's memory
    stays visible at address 0. *)
Theorem bar_zero_leaks : exists m1 m2,
  pci_config_write (mkAddr 0 1 0) 0x10 0 4 demo_machine = Some m1 /\
  pci_config_write (mkAddr 0 1 0) 0x10 0xD0000000 4 m1 = Some m2 /\
  (0, 9, 4096) ∈ mappings m2 /\ (0xD0000000, 9, 4096) ∈ mappings m2.
Proof.
  do 2 eexists. split; [vm_compute; reflexivity|]. split; [vm_compute; reflexivity|].
  simpl. split; [right; left|left].
Qed.

End EvmPci.
