(* ===== verification/Locks.v ===== *)
(** * Spinlocks (src/src/utils/spinlock.hpp, src/src/utils/rw_spinlock.hpp)

    The locks at the granularity of their atomic instructions (x86-64 code path).
    A state is the lock word and how far every CPU is; an execution is any
    interleaving of [step]s.  [None] is an instruction that the CPU cannot be at:
    only the holder of a guard releases it. *)

From S2P Require Import Prelude.

Module Spinlock.

(** [Exchange]: before the exchange in [lock]; [Spin]: in the loop that waits for
    the lock to look free; [Held]: a guard exists. *)
Inductive pc := Idle | Exchange | Spin | Held.
#[global] Instance pc_eq_dec : EqDecision pc.
Proof. solve_decision. Defined.

Record state := mkState { lock_word : bool; pcs : gmap Z pc }.
Definition pc_of (t : Z) (s : state) : pc := default Idle (pcs s !! t).
Definition goto (t : Z) (p : pc) (s : state) : state := mkState (lock_word s) (<[t := p]> (pcs s)).
Definition unlocked : state := mkState false ∅.

(** [__atomic_exchange_n(&data.lock, true)] *)
Definition exchange (s : state) : bool * state := (lock_word s, mkState true (pcs s)).

Definition lock (t : Z) (s : state) : option state :=
  match pc_of t s with Idle => Some (goto t Exchange s) | _ => None end.

(** One instruction of the loop of [lock]. *)
Definition lock_loop (t : Z) (s : state) : option state :=
  match pc_of t s with
  | Exchange => let '(old, s) := exchange s in Some (goto t (if negb old then Held else Spin) s)
  | Spin => Some (if lock_word s then s else goto t Exchange s)
  | _ => None
  end.

Definition try_lock (t : Z) (s : state) : option state :=
  match pc_of t s with
  | Idle => let '(old, s) := exchange s in Some (if negb old then goto t Held s else s)
  | _ => None
  end.

Definition is_locked (s : state) : bool := lock_word s.

Definition unlock (t : Z) (s : state) : option state :=
  match pc_of t s with
  | Held => Some (goto t Idle (mkState false (pcs s)))
  | _ => None
  end.

Inductive event := Lock | Loop | TryLock | Unlock.
Definition step (e : Z * event) (s : state) : option state :=
  match e.2 with Lock => lock e.1 s | Loop => lock_loop e.1 s | TryLock => try_lock e.1 s | Unlock => unlock e.1 s end.
Fixpoint run (es : list (Z * event)) (s : state) : option state :=
  match es with [] => Some s | e :: es => s ← step e s; run es s end.

Lemma pc_goto t p s t' : pc_of t' (goto t p s) = if decide (t' = t) then p else pc_of t' s.
Proof. unfold pc_of, goto. simpl. case_decide as E; [subst; by rewrite lookup_insert_eq|by rewrite lookup_insert_ne]. Qed.

(** The lock word is set exactly when some CPU has the guard, and only one has. *)
Definition Inv (s : state) : Prop :=
  (forall t1 t2, pc_of t1 s = Held -> pc_of t2 s = Held -> t1 = t2) /\
  (lock_word s = true <-> exists t, pc_of t s = Held).

Lemma inv_goto t p s : Inv s -> pc_of t s <> Held -> p <> Held -> Inv (goto t p s).
Proof.
  intros [H1 H2] Ht Hp. split.
  - intros t1 t2. rewrite !pc_goto. repeat case_decide; try done. apply H1.
  - simpl. rewrite H2. split; intros [t' Ht']; exists t'; rewrite pc_goto in *; case_decide; try done; congruence.
Qed.

(** A CPU that finds the lock free gets it. *)
Lemma inv_acquire t s : Inv s -> lock_word s = false -> Inv (goto t Held (mkState true (pcs s))).
Proof.
  intros [H1 H2] Hl. assert (Hn : forall t', pc_of t' s <> Held).
  { intros t' Ht'. assert (lock_word s = true) by (apply H2; eauto). congruence. }
  split.
  - intros t1 t2. rewrite !pc_goto. repeat case_decide; try congruence; intros; exfalso; by eapply Hn.
  - split; [intros _|done]. exists t. rewrite pc_goto. by rewrite decide_True.
Qed.

Lemma step_inv e s s' : Inv s -> step e s = Some s' -> Inv s'.
Proof.
  destruct e as [t e]. intros HI. unfold step, lock, lock_loop, try_lock, unlock. simpl.
  destruct e, (pc_of t s) eqn:Hp; simpl; try done.
  - intros [= <-]. apply inv_goto; congruence.
  - destruct (lock_word s) eqn:Hl; intros [= <-]; [|by apply inv_acquire].
    replace (mkState true (pcs s)) with s by (destruct s; simpl in *; congruence). apply inv_goto; congruence.
  - destruct (lock_word s) eqn:Hl; intros [= <-]; [done|]. apply inv_goto; congruence.
  - destruct (lock_word s) eqn:Hl; intros [= <-]; [|by apply inv_acquire].
    replace (mkState true (pcs s)) with s by (destruct s; simpl in *; congruence). done.
  - intros [= <-]. destruct HI as [H1 H2]. split.
    + intros t1 t2. rewrite !pc_goto. repeat case_decide; try done. apply H1.
    + simpl. split; [done|]. intros [t' Ht']. rewrite pc_goto in Ht'. case_decide as E; [done|].
      exfalso. apply E. by apply H1.
Qed.

Lemma run_inv es s s' : Inv s -> run es s = Some s' -> Inv s'.
Proof.
  revert s. induction es as [|e es IH]; intros s HI; simpl; [by intros [= <-]|].
  destruct (step e s) as [s1|] eqn:E; simpl; [|done]. apply IH. by eapply step_inv.
Qed.

Lemma unlocked_inv : Inv unlocked.
Proof. split; [done|]. split; [done|]. intros [t Ht]. done. Qed.

(** C29: In every interleaving at most one CPU holds the guard, the lock word says
    whether one does, and whoever tries a free lock gets it. *)
Theorem spinlock_mutual_exclusion (es : list (Z * event)) (s : state) : run es unlocked = Some s ->
  (forall t1 t2, pc_of t1 s = Held -> pc_of t2 s = Held -> t1 = t2) /\
  (is_locked s = true <-> exists t, pc_of t s = Held) /\
  (forall t, is_locked s = false -> pc_of t s = Idle ->
     (exists s', try_lock t s = Some s' /\ pc_of t s' = Held) /\
     (exists s', run [(t, Lock); (t, Loop)] s = Some s' /\ pc_of t s' = Held)).
Proof.
  intros Hr. apply run_inv in Hr as [H1 H2]; [|apply unlocked_inv]. split_and!; [done|done|].
  intros t Hl Hp. unfold is_locked in Hl. split.
  - unfold try_lock. rewrite Hp. simpl. rewrite Hl. simpl. eexists. split; [done|]. by rewrite pc_goto, decide_True.
  - unfold run, step, lock. simpl. rewrite Hp. simpl. unfold lock_loop. rewrite pc_goto, decide_True by done. simpl.
    rewrite Hl. simpl. eexists. split; [done|]. by rewrite pc_goto, decide_True.
Qed.

Definition demo_events : list (Z * event) := [(1, Lock); (2, Lock); (1, Loop); (2, Loop); (2, Loop); (1, Unlock); (2, Loop)].

Lemma spinlock_mutual_exclusion_witness : exists s, run demo_events unlocked = Some s /\ is_locked s = false /\
  exists s', try_lock 3 s = Some s' /\ pc_of 3 s' = Held.
Proof.
  eexists. split; [vm_compute; reflexivity|]. split; [reflexivity|].
  apply (spinlock_mutual_exclusion demo_events _ eq_refl); reflexivity.
Defined.

(** ** Interrupt-safe spinlocks

    [IrqSpinlock] turns interrupts off before it takes the inner lock and restores
    the saved flag after releasing it.  [irqs] is the interrupt flag of each CPU. *)
Record irq_state := mkIrq { inner : state; irqs : gmap Z bool; old : gmap Z bool }.
Definition irq_of (t : Z) (s : irq_state) : bool := default true (irqs s !! t).

(** [arch_enable_irqs]: sets the flag and returns the old one. *)
Definition arch_enable_irqs (t : Z) (enable : bool) (s : irq_state) : bool * irq_state :=
  (irq_of t s, mkIrq (inner s) (<[t := enable]> (irqs s)) (old s)).

Definition irq_lock (t : Z) (s : irq_state) : option irq_state :=
  let '(o, s) := arch_enable_irqs t false s in
  i ← lock t (inner s); Some (mkIrq i (irqs s) (<[t := o]> (old s))).
Definition irq_loop (t : Z) (s : irq_state) : option irq_state :=
  i ← lock_loop t (inner s); Some (mkIrq i (irqs s) (old s)).
Definition irq_unlock (t : Z) (s : irq_state) : option irq_state :=
  o ← old s !! t;
  i ← unlock t (inner s);
  Some (snd (arch_enable_irqs t o (mkIrq i (irqs s) (old s)))).

Definition irq_step (e : Z * event) (s : irq_state) : option irq_state :=
  match e.2 with Lock => irq_lock e.1 s | Loop => irq_loop e.1 s | Unlock => irq_unlock e.1 s | TryLock => None end.
Fixpoint irq_run (es : list (Z * event)) (s : irq_state) : option irq_state :=
  match es with [] => Some s | e :: es => s ← irq_step e s; irq_run es s end.

Lemma lock_loop_pc t s s' t' : lock_loop t s = Some s' -> (pc_of t' s = Idle <-> pc_of t' s' = Idle).
Proof.
  unfold lock_loop. destruct (pc_of t s) eqn:Hp; try done; simpl.
  - intros [= <-]. rewrite pc_goto. case_decide; subst; [|done]. rewrite Hp. by destruct (lock_word s).
  - destruct (lock_word s); intros [= <-]; [done|]. rewrite pc_goto. case_decide; subst; [|done]. by rewrite Hp.
Qed.

(** While a CPU waits for the lock or holds it, its interrupts are off. *)
Definition irq_inv (s : irq_state) : Prop := forall t, pc_of t (inner s) <> Idle -> irq_of t s = false.

Lemma irq_step_inv e s s' : irq_inv s -> irq_step e s = Some s' -> irq_inv s'.
Proof.
  destruct e as [t []]; unfold irq_step, irq_lock, irq_loop, irq_unlock; simpl; intros HI; [| |done|].
  - unfold lock. destruct (pc_of t (inner s)) eqn:Hp; try done. simpl. intros [= <-] t'. simpl. rewrite pc_goto.
    unfold irq_of. simpl. case_decide as E; [subst; by rewrite lookup_insert_eq|]. rewrite lookup_insert_ne by done. apply HI.
  - destruct (lock_loop t (inner s)) as [i|] eqn:E; simpl; [|done]. intros [= <-] t'. simpl. intros Hn. apply HI.
    by rewrite (lock_loop_pc _ _ _ t' E).
  - destruct (old s !! t) as [o|]; [|done]. simpl. unfold unlock. destruct (pc_of t (inner s)) eqn:Hp; try done. simpl.
    intros [= <-] t'. simpl. rewrite pc_goto. case_decide as E; [done|]. unfold irq_of. simpl.
    rewrite lookup_insert_ne by done. apply HI.
Qed.

(** Events of other CPUs, and the waiting of this one, leave the saved flag. *)
Lemma irq_run_old t es s s' : (forall e, e ∈ es -> e.1 <> t \/ e.2 = Loop) -> irq_run es s = Some s' -> old s' !! t = old s !! t.
Proof.
  revert s. induction es as [|[t1 e] es IH]; intros s He; simpl; [by intros [= <-]|].
  destruct (irq_step (t1, e) s) as [s1|] eqn:E; simpl; [|done]. intros Hr.
  rewrite (IH s1); [|intros e' He'; apply He; by right|done].
  specialize (He (t1, e) ltac:(left)). simpl in He. unfold irq_step, irq_lock, irq_loop, irq_unlock in E. simpl in E.
  destruct e; simpl in E; [| |done|].
  - destruct (lock t1 (inner s)); [|done]. injection E as <-. simpl. destruct He as [He|He]; [|done]. by rewrite lookup_insert_ne.
  - destruct (lock_loop t1 (inner s)); [|done]. by injection E as <-.
  - destruct (old s !! t1); [|done]. simpl in E. destruct (unlock t1 (inner s)); [|done]. by injection E as <-.
Qed.

Lemma irq_run_inv es s s' : irq_inv s -> irq_run es s = Some s' -> irq_inv s'.
Proof.
  revert s. induction es as [|e es IH]; intros s HI; simpl; [by intros [= <-]|].
  destruct (irq_step e s) as [s1|] eqn:E; simpl; [|done]. apply IH. by eapply irq_step_inv.
Qed.

Lemma irq_run_app es1 es2 s : irq_run (es1 ++ es2) s = s1 ← irq_run es1 s; irq_run es2 s1.
Proof. revert s. induction es1 as [|e es1 IH]; intros s; simpl; [done|]. by destruct (irq_step e s); simpl. Qed.

(** With [IrqSpinlock] a CPU that waits for the lock or holds it has interrupts
    off, and leaving the critical section restores the flag the CPU came with. *)
Theorem irq_spinlock_correct (es es' : list (Z * event)) (t : Z) (flags : gmap Z bool) (s s' : irq_state) :
  irq_run es (mkIrq unlocked flags ∅) = Some s ->
  (forall e, e ∈ es' -> e.1 <> t \/ e.2 = Loop) -> irq_run ((t, Lock) :: es' ++ [(t, Unlock)]) s = Some s' ->
  (forall t', pc_of t' (inner s) <> Idle -> irq_of t' s = false) /\ irq_of t s' = irq_of t s.
Proof.
  intros H1 He H2. split; [eapply irq_run_inv; [|exact H1]; by intros ? []|].
  cbn [irq_run] in H2. destruct (irq_step (t, Lock) s) as [s1|] eqn:E1; simpl in H2; [|done].
  rewrite irq_run_app in H2. destruct (irq_run es' s1) as [s2|] eqn:E2; simpl in H2; [|done].
  apply (irq_run_old t) in E2; [|done]. unfold irq_step, irq_lock in E1. simpl in E1.
  destruct (lock t (inner s)); [|done]. injection E1 as <-. simpl in E2. rewrite lookup_insert_eq in E2.
  unfold irq_step, irq_unlock in H2. simpl in H2. rewrite E2 in H2. simpl in H2. destruct (unlock t (inner s2)); [|done].
  injection H2 as <-. unfold irq_of at 1. simpl. by rewrite lookup_insert_eq.
Qed.

Lemma irq_spinlock_correct_witness : forall s s', irq_run [(1, Lock); (1, Loop)] (mkIrq unlocked ∅ ∅) = Some s ->
  irq_run ((2, Lock) :: [(2, Loop); (1, Unlock); (2, Loop); (2, Loop)] ++ [(2, Unlock)]) s = Some s' ->
  irq_of 1 s = false /\ irq_of 2 s' = true.
Proof.
  intros s s' H1 H2.
  destruct (irq_spinlock_correct _ [(2, Loop); (1, Unlock); (2, Loop); (2, Loop)] 2 _ s s' H1) as [A B].
  - intros e. rewrite !elem_of_cons, elem_of_nil. naive_solver.
  - exact H2.
  - rewrite B. split; [apply A|]; injection H1 as <-; [discriminate|reflexivity].
Defined.

End Spinlock.

Module RwSpinlock.

(** The range of [int]. *)
Definition s32 (z : Z) : Z := wrap 32 (z + 2 ^ 31) - 2 ^ 31.

Inductive pc := Idle | ReadLoad | ReadCas (users : Z) | Reading | WriteLoad | WriteCas | Writing.
#[global] Instance rw_pc_eq_dec : EqDecision pc.
Proof. solve_decision. Defined.

Record state := mkState { word : Z; pcs : gmap Z pc }.
Definition pc_of (t : Z) (s : state) : pc := default Idle (pcs s !! t).
Definition goto (t : Z) (p : pc) (s : state) : state := mkState (word s) (<[t := p]> (pcs s)).
Definition unlocked : state := mkState 0 ∅.

(** [compare_exchange_strong]: on success the word is [desired]. *)
Definition compare_exchange (expected desired : Z) (s : state) : bool * state :=
  if word s =? expected then (true, mkState desired (pcs s)) else (false, s).

(** [lock_read] and one instruction of its loop. *)
Definition lock_read (t : Z) (s : state) : option state :=
  match pc_of t s with
  | Idle => Some (goto t ReadLoad s)
  | ReadLoad => Some (if word s =? -1 then s else goto t (ReadCas (word s)) s)
  | ReadCas users =>
      let '(ok, s) := compare_exchange users (s32 (users + 1)) s in
      Some (goto t (if ok : bool then Reading else ReadLoad) s)
  | _ => None
  end.

Definition unlock_read (t : Z) (s : state) : option state :=
  match pc_of t s with
  | Reading => Some (goto t Idle (mkState (s32 (word s - -1)) (pcs s)))
  | _ => None
  end.

Definition lock_write (t : Z) (s : state) : option state :=
  match pc_of t s with
  | Idle => Some (goto t WriteLoad s)
  | WriteLoad => Some (if word s >? 0 then s else goto t WriteCas s)
  | WriteCas =>
      let '(ok, s) := compare_exchange 0 (-1) s in
      Some (goto t (if ok : bool then Writing else WriteLoad) s)
  | _ => None
  end.

Definition unlock_write (t : Z) (s : state) : option state :=
  match pc_of t s with
  | Writing => Some (goto t Idle (mkState 0 (pcs s)))
  | _ => None
  end.

Inductive event := LockRead | UnlockRead | LockWrite | UnlockWrite.
Definition step (e : Z * event) (s : state) : option state :=
  match e.2 with
  | LockRead => lock_read e.1 s | UnlockRead => unlock_read e.1 s
  | LockWrite => lock_write e.1 s | UnlockWrite => unlock_write e.1 s
  end.
Fixpoint run (es : list (Z * event)) (s : state) : option state :=
  match es with [] => Some s | e :: es => s ← step e s; run es s end.

Lemma rw_pc_goto t p s t' : pc_of t' (goto t p s) = if decide (t' = t) then p else pc_of t' s.
Proof. unfold pc_of, goto. simpl. case_decide as E; [subst; by rewrite lookup_insert_eq|by rewrite lookup_insert_ne]. Qed.

Lemma s32_small z : - 2 ^ 31 <= z < 2 ^ 31 -> s32 z = z.
Proof. intros H. unfold s32. rewrite wrap_small; [lia|]. unfold fits. lia. Qed.

(** After [n] steps: a single writer, or no writer and a word between 0 and [n]
    that is positive when someone reads. *)
Definition Excl (n : Z) (s : state) : Prop :=
  (word s = -1 /\ (exists t, pc_of t s = Writing) /\
     (forall t1 t2, pc_of t1 s = Writing -> pc_of t2 s = Writing -> t1 = t2) /\ forall t, pc_of t s <> Reading) \/
  (0 <= word s <= n /\ (forall t, pc_of t s <> Writing) /\ (forall t, pc_of t s = Reading -> 0 < word s)).

(** The value loaded before a reader's compare-exchange was not -1. *)
Definition Inv (n : Z) (s : state) : Prop := Excl n s /\ forall t u, pc_of t s = ReadCas u -> u <> -1.

(** The word as readers left it: no writer gets in any more. *)
Definition Stuck (n : Z) (s : state) : Prop := 1 <= word s <= n /\ forall t, pc_of t s <> Writing.

Ltac rw_cases := repeat match goal with
  | |- context [pc_of _ (goto _ _ _)] => rewrite rw_pc_goto
  | H : context [pc_of _ (goto _ _ _)] |- _ => rewrite rw_pc_goto in H
  | |- context [decide (?a = ?b)] => destruct (decide (a = b)); subst
  | H : context [decide (?a = ?b)] |- _ => destruct (decide (a = b)); subst
  end.

Lemma excl_local n t p s : Excl n s -> pc_of t s <> Writing -> pc_of t s <> Reading -> p <> Writing -> p <> Reading ->
  Excl (n + 1) (goto t p s).
Proof.
  intros [(Hw & [tw Htw] & Hu & Hr)|(Hw & Hn & Hr)] H1 H2 H3 H4.
  - left. split_and!; [done|exists tw| |]; intros; rw_cases; try done; try congruence; eauto.
  - right. simpl. split_and!; [lia|lia| |]; intros t'; rw_cases; try done; try congruence; eauto.
Qed.

Lemma excl_mono n s : Excl n s -> Excl (n + 1) s.
Proof. intros [?|(? & ? & ?)]; [by left|right; split_and!; try done; lia]. Qed.

(** A reader that arrives or leaves adds one. *)
Lemma excl_read n t p s : 0 <= n < 2 ^ 31 - 1 -> Excl n s -> word s <> -1 -> p <> Writing ->
  Excl (n + 1) (goto t p (mkState (s32 (word s + 1)) (pcs s))).
Proof.
  intros Hn [(Hw & _)|(Hw & Hnw & Hr)] Hne Hp; [done|]. right. simpl. rewrite s32_small by lia.
  split_and!; [lia|lia| |intros; lia]. intros t'. rw_cases; [done|]. apply Hnw.
Qed.

Lemma step_excl n e s s' : 0 <= n < 2 ^ 31 - 1 -> Inv n s -> step e s = Some s' -> Excl (n + 1) s'.
Proof.
  intros Hn [HI HC]. destruct e as [t []]; unfold step; simpl.
  - unfold lock_read. destruct (pc_of t s) eqn:Hp; try done.
    + intros [= <-]. apply excl_local; congruence.
    + destruct (word s =? -1); intros [= <-]; [by apply excl_mono|apply excl_local; congruence].
    + unfold compare_exchange. destruct (word s =? users) eqn:Ec; intros [= <-]; [|apply excl_local; congruence].
      apply Z.eqb_eq in Ec. subst users. apply excl_read; [done|done|by eapply HC|done].
  - unfold unlock_read. destruct (pc_of t s) eqn:Hp; try done. intros [= <-]. apply excl_read; [done|done| |done].
    destruct HI as [(_ & _ & _ & Hr)|(Hw & _)]; [by destruct (Hr t)|lia].
  - unfold lock_write. destruct (pc_of t s) eqn:Hp; try done.
    + intros [= <-]. apply excl_local; congruence.
    + destruct (word s >? 0); intros [= <-]; [by apply excl_mono|apply excl_local; congruence].
    + unfold compare_exchange. destruct (word s =? 0) eqn:Ec; intros [= <-]; [|apply excl_local; congruence].
      apply Z.eqb_eq in Ec. destruct HI as [(Hw & _)|(_ & Hnw & Hr)]; [lia|].
      left. split_and!; [done|exists t|intros t1 t2|intros t']; rw_cases; try done.
      * intros _ H. by destruct (Hnw t2).
      * intros H. by destruct (Hnw t1).
      * intros H. by destruct (Hnw t1).
      * intros H. specialize (Hr _ H). lia.
  - unfold unlock_write. destruct (pc_of t s) eqn:Hp; try done. intros [= <-].
    destruct HI as [(Hw & _ & Hu & Hr)|(Hw & Hnw & Hr)]; [|by destruct (Hnw t)].
    right. simpl. split_and!; [lia|lia| |]; intros t'; rw_cases; try done.
    + intros H. by destruct (n0 (Hu _ _ H Hp)).
    + intros H. by destruct (Hr t').
Qed.

Lemma step_cas e s s' : (forall t u, pc_of t s = ReadCas u -> u <> -1) -> step e s = Some s' ->
  forall t u, pc_of t s' = ReadCas u -> u <> -1.
Proof.
  intros HC. destruct e as [t []]; unfold step; simpl.
  - unfold lock_read. destruct (pc_of t s) eqn:Hp; try done.
    + intros [= <-] t' u. rw_cases; [done|apply HC].
    + destruct (word s =? -1) eqn:E; intros [= <-] t' u; [apply HC|]. rw_cases; [|apply HC]. intros [= <-]. by apply Z.eqb_neq.
    + unfold compare_exchange. destruct (word s =? users); intros [= <-] t' u; rw_cases; try done; apply HC.
  - unfold unlock_read. destruct (pc_of t s); try done. intros [= <-] t' u. rw_cases; [done|apply HC].
  - unfold lock_write. destruct (pc_of t s) eqn:Hp; try done.
    + intros [= <-] t' u. rw_cases; [done|apply HC].
    + destruct (word s >? 0); intros [= <-] t' u; [apply HC|]. rw_cases; [done|apply HC].
    + unfold compare_exchange. destruct (word s =? 0); intros [= <-] t' u; rw_cases; try done; apply HC.
  - unfold unlock_write. destruct (pc_of t s); try done. intros [= <-] t' u. rw_cases; [done|apply HC].
Qed.

Lemma run_rw_inv es : forall n s s', 0 <= n -> n + Z.of_nat (length es) < 2 ^ 31 -> Inv n s -> run es s = Some s' ->
  Inv (n + Z.of_nat (length es)) s'.
Proof.
  induction es as [|e es IH]; intros n s s' Hn Hl HI; cbn [run length] in *; [intros [= <-]; by rewrite Z.add_0_r|].
  destruct (step e s) as [s1|] eqn:E; simpl; [|done]. intros Hr.
  replace (n + Z.of_nat (S (length es))) with (n + 1 + Z.of_nat (length es)) by lia. apply (IH (n + 1) s1); [lia|lia| |done].
  destruct HI as [HI HC]. split; [by eapply step_excl; [|split|]; try lia|by eapply step_cas].
Qed.

Lemma run_app es1 es2 s : run (es1 ++ es2) s = s1 ← run es1 s; run es2 s1.
Proof. revert s. induction es1 as [|e es1 IH]; intros s; simpl; [done|]. by destruct (step e s); simpl. Qed.

Lemma unlocked_rw_inv : Inv 0 unlocked.
Proof. split; [|done]. right. split_and!; [done|done|by intros ?|by intros ?]. Qed.

Lemma step_stuck n e s s' : 1 <= n < 2 ^ 31 - 1 -> Stuck n s -> step e s = Some s' -> Stuck (n + 1) s'.
Proof.
  intros Hn [Hw Hnw]. assert (Hloc : forall t p, p <> Writing -> Stuck (n + 1) (goto t p s)).
  { intros t p Hp. split; simpl; [lia|]. intros t'. rw_cases; [done|apply Hnw]. }
  assert (Hinc : forall t p z, p <> Writing -> z = word s + 1 -> Stuck (n + 1) (goto t p (mkState (s32 z) (pcs s)))).
  { intros t p z Hp ->. split; simpl; [rewrite s32_small; lia|]. intros t'. rw_cases; [done|apply Hnw]. }
  assert (Hid : Stuck (n + 1) s) by (split; [lia|done]).
  destruct e as [t []]; unfold step; simpl.
  - unfold lock_read. destruct (pc_of t s) eqn:Hp; try done; [intros [= <-]; auto|destruct (word s =? -1); intros [= <-]; auto|].
    unfold compare_exchange. destruct (word s =? users) eqn:Ec; intros [= <-]; [apply Hinc; [done|lia]|auto].
  - unfold unlock_read. destruct (pc_of t s); try done. intros [= <-]. apply Hinc; [done|lia].
  - unfold lock_write. destruct (pc_of t s) eqn:Hp; try done; [intros [= <-]; auto|destruct (word s >? 0); intros [= <-]; auto|].
    unfold compare_exchange. destruct (word s =? 0) eqn:Ec; intros [= <-]; [lia|auto].
  - unfold unlock_write. destruct (pc_of t s) eqn:Hp; try done. by destruct (Hnw t).
Qed.

Lemma run_stuck es : forall n s s', 1 <= n -> n + Z.of_nat (length es) < 2 ^ 31 -> Stuck n s -> run es s = Some s' ->
  Stuck (n + Z.of_nat (length es)) s'.
Proof.
  induction es as [|e es IH]; intros n s s' Hn Hl HI; cbn [run length] in *; [intros [= <-]; by rewrite Z.add_0_r|].
  destruct (step e s) as [s1|] eqn:E; simpl; [|done]. intros Hr.
  replace (n + Z.of_nat (S (length es))) with (n + 1 + Z.of_nat (length es)) by lia. apply (IH (n + 1) s1); [lia|lia| |done].
  eapply step_stuck; [lia|done|done].
Qed.

(** In every interleaving of fewer than 2^31 steps a writer is alone: there is no
    second writer and no reader beside it. *)
Theorem rw_spinlock_exclusion (es : list (Z * event)) (s : state) (t1 t2 : Z) :
  Z.of_nat (length es) < 2 ^ 31 -> run es unlocked = Some s -> pc_of t1 s = Writing ->
  pc_of t2 s <> Reading /\ (pc_of t2 s = Writing -> t1 = t2).
Proof.
  intros Hl Hr H1. apply (run_rw_inv es 0) in Hr as [[(_ & _ & Hu & Hn)|(_ & Hn & _)] _]; [| |lia|lia|apply unlocked_rw_inv].
  - split; [apply Hn|]. by apply Hu.
  - by destruct (Hn t1).
Qed.

(** Releasing a read guard adds one to the word instead of taking one off: once
    any CPU has read, no CPU ever becomes a writer, also when no reader is left. *)
Theorem rw_spinlock_read_locks_out_writers (es1 es2 : list (Z * event)) (s s' : state) (t : Z) :
  Z.of_nat (length es1 + length es2) < 2 ^ 31 - 1 -> run es1 unlocked = Some s -> pc_of t s = Reading ->
  run es2 s = Some s' -> 1 <= word s' /\ forall t', pc_of t' s' <> Writing.
Proof.
  intros Hl H1 Ht H2. apply (run_rw_inv es1 0) in H1 as [HE _]; [|lia|lia|apply unlocked_rw_inv].
  destruct HE as [(_ & _ & _ & Hn)|(Hw & Hn & Hr)]; [by destruct (Hn t)|]. specialize (Hr t Ht).
  assert (HS : Stuck (0 + Z.of_nat (length es1)) s) by (split; [lia|done]).
  assert (1 <= 0 + Z.of_nat (length es1)) by lia.
  destruct (run_stuck es2 _ s s' ltac:(done) ltac:(lia) HS H2) as [? ?]. split; [lia|done].
Qed.

Definition demo_read : list (Z * event) := [(1, LockRead); (1, LockRead); (1, LockRead)].

Lemma rw_spinlock_exclusion_witness : exists s, run [(1, LockWrite); (2, LockRead); (1, LockWrite); (1, LockWrite); (2, LockRead)] unlocked = Some s /\
  pc_of 2 s <> Reading.
Proof.
  eexists. split; [vm_compute; reflexivity|].
  apply (rw_spinlock_exclusion [(1, LockWrite); (2, LockRead); (1, LockWrite); (1, LockWrite); (2, LockRead)] _ 1 2); reflexivity.
Defined.

(** One reader has come and gone; a writer waits. *)
Definition demo_write : list (Z * event) := [(1, UnlockRead); (2, LockWrite); (2, LockWrite); (2, LockWrite)].
Definition demo_reading : state := default unlocked (run demo_read unlocked).
Definition demo_waiting : state := default unlocked (run demo_write demo_reading).

Lemma rw_spinlock_read_locks_out_writers_witness : pc_of 1 demo_waiting = Idle /\ pc_of 2 demo_waiting <> Writing.
Proof.
  split; [reflexivity|]. apply (rw_spinlock_read_locks_out_writers demo_read demo_write demo_reading demo_waiting 1); reflexivity.
Defined.

End RwSpinlock.
