(* ===== verification/Sched.v ===== *)
(** * The scheduler (src/src/sched/sched.cpp, src/src/sched/thread.hpp)

    Threads, CPUs and processes are addresses.  A CPU has its scheduler (the ready
    lists of the levels, the sleepers, [prev] and [current]), its thread register
    and its tick source.  The intrusive lists are the sequences that DoubleList.v
    shows them to be; a range-for that removes the element it is at visits the
    sequence as it was.  Every operation runs with interrupts off and is one step;
    what it would wait for for ever is an error: [None] is a failed assertion or a
    spinlock that the CPU itself holds.  The clock is an argument. *)

From S2P Require Import Prelude.

Module Sched.

Inductive Status := Running | Waiting | Blocked | Sleeping.
#[global] Instance Status_eq_dec : EqDecision Status.
Proof. solve_decision. Defined.

Record Thread := mkThread {
  cpu : Z; process : Z; sleep_end : Z; level_index : Z; status : Status;
  exited : bool; pin_level : bool; pin_cpu : bool; move_lock : bool;
  sleep_interrupted : bool; dont_block : bool }.

Record Cpu := mkCpu {
  levels : list (list Z); prev : Z; current : Z; current_irq_period : Z; us_to_next_schedule : Z;
  sleeping_threads : list Z; idle_thread : Z; thread_count : Z;
  sched_destroy_list : list Z; signaled_count : Z; waiters : list Z;
  tick : option Z; gs : Z }.

(** [level_lock]: the ready list that [update_schedule] has locked. *)
Record world := mkWorld {
  threads : gmap Z Thread; cpus : gmap Z Cpu; killed : gset Z; level_lock : option (Z * Z) }.

Definition MAX_US : Z := 50 * 1000.
Definition SCHED_LEVELS : Z := 12.

(** [levels[i].slice_us], set by the constructor. *)
Definition slice_us (i : Z) : Z := MAX_US / SCHED_LEVELS * (i + 1).

(** ** Fields *)

Definition set_status (x : Status) (t : Thread) : Thread :=
  mkThread (cpu t) (process t) (sleep_end t) (level_index t) x (exited t) (pin_level t) (pin_cpu t)
    (move_lock t) (sleep_interrupted t) (dont_block t).
Definition set_level (x : Z) (t : Thread) : Thread :=
  mkThread (cpu t) (process t) (sleep_end t) x (status t) (exited t) (pin_level t) (pin_cpu t)
    (move_lock t) (sleep_interrupted t) (dont_block t).
Definition set_sleep_end (x : Z) (t : Thread) : Thread :=
  mkThread (cpu t) (process t) x (level_index t) (status t) (exited t) (pin_level t) (pin_cpu t)
    (move_lock t) (sleep_interrupted t) (dont_block t).
Definition set_cpu (x : Z) (t : Thread) : Thread :=
  mkThread x (process t) (sleep_end t) (level_index t) (status t) (exited t) (pin_level t) (pin_cpu t)
    (move_lock t) (sleep_interrupted t) (dont_block t).
Definition set_exited (x : bool) (t : Thread) : Thread :=
  mkThread (cpu t) (process t) (sleep_end t) (level_index t) (status t) x (pin_level t) (pin_cpu t)
    (move_lock t) (sleep_interrupted t) (dont_block t).
Definition set_move_lock (x : bool) (t : Thread) : Thread :=
  mkThread (cpu t) (process t) (sleep_end t) (level_index t) (status t) (exited t) (pin_level t) (pin_cpu t)
    x (sleep_interrupted t) (dont_block t).
Definition set_sleep_interrupted (x : bool) (t : Thread) : Thread :=
  mkThread (cpu t) (process t) (sleep_end t) (level_index t) (status t) (exited t) (pin_level t) (pin_cpu t)
    (move_lock t) x (dont_block t).
Definition set_dont_block (x : bool) (t : Thread) : Thread :=
  mkThread (cpu t) (process t) (sleep_end t) (level_index t) (status t) (exited t) (pin_level t) (pin_cpu t)
    (move_lock t) (sleep_interrupted t) x.

Definition set_levels (x : list (list Z)) (c : Cpu) : Cpu :=
  mkCpu x (prev c) (current c) (current_irq_period c) (us_to_next_schedule c) (sleeping_threads c) (idle_thread c)
    (thread_count c) (sched_destroy_list c) (signaled_count c) (waiters c) (tick c) (gs c).
Definition set_prev (x : Z) (c : Cpu) : Cpu :=
  mkCpu (levels c) x (current c) (current_irq_period c) (us_to_next_schedule c) (sleeping_threads c) (idle_thread c)
    (thread_count c) (sched_destroy_list c) (signaled_count c) (waiters c) (tick c) (gs c).
Definition set_current (x : Z) (c : Cpu) : Cpu :=
  mkCpu (levels c) (prev c) x (current_irq_period c) (us_to_next_schedule c) (sleeping_threads c) (idle_thread c)
    (thread_count c) (sched_destroy_list c) (signaled_count c) (waiters c) (tick c) (gs c).
Definition set_us_to_next (x : Z) (c : Cpu) : Cpu :=
  mkCpu (levels c) (prev c) (current c) (current_irq_period c) x (sleeping_threads c) (idle_thread c)
    (thread_count c) (sched_destroy_list c) (signaled_count c) (waiters c) (tick c) (gs c).
Definition set_sleeping (x : list Z) (c : Cpu) : Cpu :=
  mkCpu (levels c) (prev c) (current c) (current_irq_period c) (us_to_next_schedule c) x (idle_thread c)
    (thread_count c) (sched_destroy_list c) (signaled_count c) (waiters c) (tick c) (gs c).
Definition set_thread_count (x : Z) (c : Cpu) : Cpu :=
  mkCpu (levels c) (prev c) (current c) (current_irq_period c) (us_to_next_schedule c) (sleeping_threads c) (idle_thread c)
    x (sched_destroy_list c) (signaled_count c) (waiters c) (tick c) (gs c).
Definition set_destroy_list (x : list Z) (c : Cpu) : Cpu :=
  mkCpu (levels c) (prev c) (current c) (current_irq_period c) (us_to_next_schedule c) (sleeping_threads c) (idle_thread c)
    (thread_count c) x (signaled_count c) (waiters c) (tick c) (gs c).
Definition set_event (n : Z) (x : list Z) (c : Cpu) : Cpu :=
  mkCpu (levels c) (prev c) (current c) (current_irq_period c) (us_to_next_schedule c) (sleeping_threads c) (idle_thread c)
    (thread_count c) (sched_destroy_list c) n x (tick c) (gs c).
(** [cpu_tick_source->reset()] *)
Definition reset_tick (c : Cpu) : Cpu :=
  mkCpu (levels c) (prev c) (current c) (current_irq_period c) (us_to_next_schedule c) (sleeping_threads c) (idle_thread c)
    (thread_count c) (sched_destroy_list c) (signaled_count c) (waiters c) None (gs c).
Definition set_irq_period (x : Z) (c : Cpu) : Cpu :=
  mkCpu (levels c) (prev c) (current c) x (us_to_next_schedule c) (sleeping_threads c) (idle_thread c)
    (thread_count c) (sched_destroy_list c) (signaled_count c) (waiters c) (tick c) (gs c).
(** [cpu_tick_source->oneshot(us)] *)
Definition oneshot (us : Z) (c : Cpu) : Cpu :=
  mkCpu (levels c) (prev c) (current c) (current_irq_period c) (us_to_next_schedule c) (sleeping_threads c) (idle_thread c)
    (thread_count c) (sched_destroy_list c) (signaled_count c) (waiters c) (Some us) (gs c).
Definition set_gs (x : Z) (c : Cpu) : Cpu :=
  mkCpu (levels c) (prev c) (current c) (current_irq_period c) (us_to_next_schedule c) (sleeping_threads c) (idle_thread c)
    (thread_count c) (sched_destroy_list c) (signaled_count c) (waiters c) (tick c) x.

(** ** Access *)

Definition thr (t : Z) (w : world) : option Thread := threads w !! t.
Definition cpu_at (c : Z) (w : world) : option Cpu := cpus w !! c.
Definition upd_thr (t : Z) (f : Thread -> Thread) (w : world) : option world :=
  th ← thr t w; Some (mkWorld (<[t := f th]> (threads w)) (cpus w) (killed w) (level_lock w)).
Definition upd_cpu (c : Z) (f : Cpu -> Cpu) (w : world) : option world :=
  cu ← cpu_at c w; Some (mkWorld (threads w) (<[c := f cu]> (cpus w)) (killed w) (level_lock w)).
Definition set_level_lock (x : option (Z * Z)) (w : world) : world := mkWorld (threads w) (cpus w) (killed w) x.
Definition is_killed (t : Thread) (w : world) : bool := bool_decide (process t ∈ killed w).

(** The ready list of a level; the array has [SCHED_LEVELS] of them. *)
Definition level_list (i : Z) (cu : Cpu) : option (list Z) := if i <? 0 then None else levels cu !! Z.to_nat i.
Definition upd_level (c i : Z) (f : list Z -> list Z) (w : world) : option world :=
  cu ← cpu_at c w;
  l ← level_list i cu;
  upd_cpu c (set_levels (<[Z.to_nat i := f l]> (levels cu))) w.

(** ** Operations *)

Definition queue (c t : Z) (w : world) : option world :=
  th ← thr t w; upd_level c (level_index th) (fun l => l ++ [t]) w.

(** Locks a ready list from [unblock]: the CPU must not hold it. *)
Definition level_free (c i : Z) (w : world) : bool := negb (bool_decide (level_lock w = Some (c, i))).

Definition unblock (c t : Z) (remove_sleeping assert_not_sleeping : bool) (w : world) : option world :=
  cu ← cpu_at c w;
  _ ← assert (negb (t =? current cu));
  th ← thr t w;
  if negb (bool_decide (status th = Blocked)) && negb (bool_decide (status th = Sleeping)) then
    if bool_decide (status th = Running) then upd_thr t (set_dont_block true) w else Some w
  else
    w ← (if remove_sleeping && bool_decide (status th = Sleeping) then
           w ← upd_cpu (cpu th) (fun cu => set_sleeping (filter (fun x => x <> t) (sleeping_threads cu)) cu) w;
           w ← upd_thr t (set_status Blocked) w;
           upd_thr t (set_sleep_interrupted true) w
         else Some w);
    th ← thr t w;
    _ ← assert (negb assert_not_sleeping || bool_decide (status th = Blocked));
    _ ← assert (level_free (cpu th) (level_index th) w);
    tcu ← cpu_at (cpu th) w;
    _ ← assert (negb (t =? current tcu));
    w ← upd_thr t (set_status Waiting) w;
    upd_level (cpu th) (level_index th) (fun l => l ++ [t]) w.

(** [Event::signal_one] on the event of the thread destroyer of CPU [c]. *)
Definition signal_destroyer (c : Z) (w : world) : option world :=
  cu ← cpu_at c w;
  w ← upd_cpu c (set_event (u64 (signaled_count cu + 1)) (waiters cu)) w;
  match waiters cu with
  | [] => Some w
  | t :: ts =>
      w ← upd_cpu c (set_event (u64 (signaled_count cu + 1)) ts) w;
      th ← thr t w;
      _ ← assert (negb (move_lock th));
      unblock (cpu th) t true false w
  end.

(** A thread of a killed process, or one that has exited, goes to the destroyer. *)
Definition destroy_later (t : Z) (w : world) : option world :=
  th ← thr t w;
  w ← upd_cpu (cpu th) (fun cu => set_thread_count (u32 (thread_count cu - 1)) cu) w;
  w ← upd_cpu (cpu th) (fun cu => set_destroy_list (sched_destroy_list cu ++ [t]) cu) w;
  signal_destroyer (cpu th) w.

Definition pop_level (c i : Z) (w : world) : option (Z * world) :=
  cu ← cpu_at c w;
  l ← level_list i cu;
  match l with
  | [] => Some (0, w)
  | t :: ts => w ← upd_level c i (fun _ => ts) w; Some (t, w)
  end.

(** The inner loop of [update_schedule]; [true] is [goto found]. *)
Fixpoint scan_level (fuel : nat) (c i start next : Z) (w : world) : option (bool * Z * world) :=
  match fuel with
  | O => None
  | S fuel =>
      th ← thr next w;
      if is_killed th w then
        w ← destroy_later next w;
        '(next, w) ← pop_level c i w;
        if next =? 0 then Some (false, next, w) else scan_level fuel c i start next w
      else if bool_decide (status th = Waiting) then Some (true, next, w)
      else
        w ← upd_level c i (fun l => l ++ [next]) w;
        '(next, w) ← pop_level c i w;
        if next =? start then Some (false, next, w) else scan_level fuel c i start next w
  end.

Definition try_level (c i : Z) (w : world) : option (bool * Z * world) :=
  cu ← cpu_at c w;
  l ← level_list i cu;
  let w := set_level_lock (Some (c, i)) w in
  '(start, w) ← pop_level c i w;
  if start =? 0 then Some (false, 0, set_level_lock None w)
  else
    '(found, next, w) ← scan_level (S (2 * length l)) c i start start w;
    Some (found, next, set_level_lock None w).

(** The loop over the levels; [next] is what the last round left. *)
Fixpoint try_levels (is_ : list Z) (c next : Z) (w : world) : option (Z * world) :=
  match is_ with
  | [] => Some (next, w)
  | i :: is_ =>
      '(found, next, w) ← try_level c i w;
      if found : bool then Some (next, w) else try_levels is_ c next w
  end.
Definition level_numbers : list Z := [0; 1; 2; 3; 4; 5; 6; 7; 8; 9; 10; 11].

Definition update_schedule (c : Z) (w : world) : option world :=
  cu ← cpu_at c w;
  th ← thr (current cu) w;
  ccu ← cpu_at (cpu th) w;
  let running := bool_decide (status th = Running) && negb (current cu =? idle_thread ccu) in
  if running && (us_to_next_schedule cu >? current_irq_period cu) then
    upd_cpu c (fun cu => set_prev (current cu) (set_us_to_next (us_to_next_schedule cu - current_irq_period cu) cu)) w
  else
    w ← (if running && negb (pin_level th) && (level_index th <? SCHED_LEVELS - 1) then
           upd_thr (current cu) (set_level (level_index th + 1)) w
         else Some w);
    '(next, w) ← try_levels level_numbers c 0 w;
    cu ← cpu_at c w;
    th ← thr (gs cu) w;
    if (next =? 0) && negb (is_killed th w) && bool_decide (status th = Running) then upd_cpu c (set_prev (gs cu)) w
    else
      tcu ← cpu_at (cpu th) w;
      let next := if next =? 0 then idle_thread tcu else next in
      nth ← thr next w;
      upd_cpu c (fun cu => set_us_to_next (slice_us (level_index nth)) (set_current next (set_prev (current cu) cu))) w.

Definition do_schedule (c : Z) (w : world) : option world :=
  cu ← cpu_at c w;
  if prev cu =? current cu then Some w
  else
    w ← upd_thr (prev cu) (set_move_lock true) w;
    pth ← thr (prev cu) w;
    pcu ← cpu_at (cpu pth) w;
    w ← (if is_killed pth w || exited pth then destroy_later (prev cu) w
         else if negb (prev cu =? idle_thread pcu) && bool_decide (status pth = Running) then
           w ← upd_thr (prev cu) (set_status Waiting) w;
           queue (cpu pth) (prev cu) w
         else Some w);
    w ← upd_thr (current cu) (set_status Running) w;
    w ← upd_cpu c (set_gs (current cu)) w;
    upd_thr (prev cu) (set_move_lock false) w.

(** The loop of [enable_preemption] over the sleepers: when the first that is not
    due ends, and the state after waking those before it. *)
Fixpoint wake_loop (ts : list Z) (c cpu_ now : Z) (w : world) : option (Z * world) :=
  match ts with
  | [] => Some (2 ^ 64 - 1, w)
  | t :: ts =>
      th ← thr t w;
      if sleep_end th >? now then Some (sleep_end th, w)
      else
        w ← upd_cpu c (fun cu => set_sleeping (filter (fun x => x <> t) (sleeping_threads cu)) cu) w;
        w ← upd_thr t (set_status Waiting) w;
        _ ← assert (cpu th =? cpu_);
        w ← queue c t w;
        wake_loop ts c cpu_ now w
  end.

(** [cpu_] is the argument, [c] the CPU whose scheduler it is called on. *)
Definition enable_preemption (c cpu_ now : Z) (w : world) : option world :=
  cu ← cpu_at c w;
  '(first_sleep_end, w) ← wake_loop (sleeping_threads cu) c cpu_ now w;
  let time_before_sleep_end := first_sleep_end ⊟ now in
  cu ← cpu_at c w;
  th ← thr (current cu) w;
  let amount := Z.min time_before_sleep_end (slice_us (level_index th)) in
  w ← upd_cpu c (set_irq_period amount) w;
  upd_cpu cpu_ (oneshot amount) w.

(** The scheduling tail of [block], [yield], [sleep] and the exits. *)
Definition reschedule (c now : Z) (w : world) : option world :=
  w ← update_schedule c w;
  cu ← cpu_at c w;
  th ← thr (current cu) w;
  w ← enable_preemption c (cpu th) now w;
  do_schedule c w.

(** [if (!current->pin_level && current->level_index > 0) --current->level_index] *)
Definition raise_level (t : Z) (w : world) : option world :=
  th ← thr t w;
  if negb (pin_level th) && (level_index th >? 0) then upd_thr t (set_level (level_index th - 1)) w else Some w.

(** Takes the [move_lock] of the thread. *)
Definition lock_move (t : Z) (w : world) : option world :=
  th ← thr t w; _ ← assert (negb (move_lock th)); upd_thr t (set_move_lock true) w.

Definition block (c now : Z) (w : world) : option world :=
  cu ← cpu_at c w;
  let t := current cu in
  w ← lock_move t w;
  th ← thr t w;
  if dont_block th then
    w ← upd_thr t (set_dont_block false) w; upd_thr t (set_move_lock false) w
  else
    w ← upd_thr t (set_status Blocked) w;
    w ← upd_cpu (cpu th) reset_tick w;
    w ← raise_level t w;
    w ← upd_cpu c (set_us_to_next 0) w;
    reschedule c now w.

Definition yield_ (c now : Z) (w : world) : option world :=
  cu ← cpu_at c w;
  th ← thr (current cu) w;
  w ← upd_cpu (cpu th) reset_tick w;
  w ← raise_level (current cu) w;
  w ← upd_cpu c (set_us_to_next 0) w;
  reschedule c now w.

Definition exit_process (c now : Z) (w : world) : option world :=
  cu ← cpu_at c w;
  th ← thr (current cu) w;
  let w := mkWorld (threads w) (cpus w) ({[process th]} ∪ killed w) (level_lock w) in
  w ← upd_thr (current cu) (set_status Blocked) w;
  w ← upd_cpu (cpu th) reset_tick w;
  reschedule c now w.

Definition exit_thread (c now : Z) (w : world) : option world :=
  cu ← cpu_at c w;
  th ← thr (current cu) w;
  w ← upd_thr (current cu) (set_exited true) w;
  w ← upd_thr (current cu) (set_status Blocked) w;
  w ← upd_cpu (cpu th) reset_tick w;
  reschedule c now w.

(** The timer interrupt: [on_timer], and [do_schedule] as deferred work. *)
Definition on_timer (c now : Z) (w : world) : option world :=
  cu ← cpu_at c w;
  th ← thr (current cu) w;
  _ ← assert (bool_decide (status th = Running));
  w ← update_schedule c w;
  w ← enable_preemption c c now w;
  do_schedule c w.

(** A round of the idle thread that finds a ready thread. *)
Definition idle_poll (c : Z) (w : world) : option world :=
  cu ← cpu_at c w;
  if forallb (fun l => bool_decide (l = [])) (levels cu) then Some w
  else w ← update_schedule c w; do_schedule c w.

(** What the constructors of [Thread] set. *)
Definition new_thread (c p : Z) : Thread := mkThread c p 0 0 Waiting false false false false false false.

(** A new thread is queued and counted. *)
Definition start_thread (c t p : Z) (w : world) : option world :=
  let w := mkWorld (<[t := new_thread c p]> (threads w)) (cpus w) (killed w) (level_lock w) in
  w ← queue c t w;
  upd_cpu c (fun cu => set_thread_count (u32 (thread_count cu + 1)) cu) w.

(** The place among the sleepers: before the first that ends later. *)
Fixpoint insert_sleeper (ths : gmap Z Thread) (t e : Z) (l : list Z) : list Z :=
  match l with
  | [] => [t]
  | x :: l =>
      match ths !! x with
      | Some th => if sleep_end th >? e then t :: x :: l else x :: insert_sleeper ths t e l
      | None => x :: insert_sleeper ths t e l
      end
  end.

(** [now] is the clock when the sleep begins and [now'] when the tick is set. *)
Definition sleep (c ns now now' : Z) (w : world) : option world :=
  cu ← cpu_at c w;
  if ns =? 0 then Some w
  else
    let t := current cu in
    w ← lock_move t w;
    th ← thr t w;
    if dont_block th then
      w ← upd_thr t (set_dont_block false) w; upd_thr t (set_move_lock false) w
    else
      w ← upd_cpu (cpu th) reset_tick w;
      let e := now ⊞ ns in
      w ← upd_cpu c (fun cu => set_sleeping (insert_sleeper (threads w) t e (sleeping_threads cu)) cu) w;
      w ← upd_thr t (set_sleep_end e) w;
      w ← upd_thr t (set_status Sleeping) w;
      w ← raise_level t w;
      reschedule c now' w.

(** ** The load balancer *)

(** The first CPU with the fewest threads and the first with the most. *)
Fixpoint extremes (ids : list Z) (min_count max_count min_index max_index : Z) (w : world) : option (Z * Z * Z * Z) :=
  match ids with
  | [] => Some (min_count, max_count, min_index, max_index)
  | i :: ids =>
      cu ← cpu_at i w;
      let n := thread_count cu in
      let '(min_count, min_index) := if n <? min_count then (n, i) else (min_count, min_index) in
      let '(max_count, max_index) := if n >? max_count then (n, i) else (max_count, max_index) in
      extremes ids min_count max_count min_index max_index w
  end.

(** A thread changes its CPU; the counts follow. *)
Definition count_move (max_cpu min_cpu : Z) (w : world) : option world :=
  w ← upd_cpu max_cpu (fun cu => set_thread_count (u32 (thread_count cu - 1)) cu) w;
  upd_cpu min_cpu (fun cu => set_thread_count (u32 (thread_count cu + 1)) cu) w.

(** The loop over a ready list of the busiest CPU. *)
Fixpoint move_ready (ts : list Z) (i max_cpu min_cpu diff : Z) (w : world) : option (Z * world) :=
  match ts with
  | [] => Some (diff, w)
  | t :: ts =>
      th ← thr t w;
      _ ← assert (negb (move_lock th));
      if negb (pin_cpu th) && bool_decide (status th = Waiting) then
        w ← upd_level max_cpu i (filter (fun x => x <> t)) w;
        w ← upd_thr t (set_cpu min_cpu) w;
        w ← queue min_cpu t w;
        w ← count_move max_cpu min_cpu w;
        let diff := diff - 1 in
        if diff =? 0 then Some (diff, w) else move_ready ts i max_cpu min_cpu diff w
      else move_ready ts i max_cpu min_cpu diff w
  end.

Fixpoint move_levels (is_ : list Z) (max_cpu min_cpu diff : Z) (w : world) : option (Z * world) :=
  match is_ with
  | [] => Some (diff, w)
  | i :: is_ =>
      if diff =? 0 then Some (diff, w)
      else
        cu ← cpu_at max_cpu w;
        l ← level_list i cu;
        '(diff, w) ← move_ready l i max_cpu min_cpu diff w;
        move_levels is_ max_cpu min_cpu diff w
  end.

(** The loop over the sleepers of the busiest CPU. *)
Fixpoint move_sleeping (ts : list Z) (max_cpu min_cpu diff : Z) (w : world) : option (Z * world) :=
  match ts with
  | [] => Some (diff, w)
  | t :: ts =>
      th ← thr t w;
      if negb (pin_cpu th) then
        w ← upd_cpu max_cpu (fun cu => set_sleeping (filter (fun x => x <> t) (sleeping_threads cu)) cu) w;
        w ← upd_thr t (set_cpu min_cpu) w;
        w ← upd_cpu min_cpu (fun cu => set_sleeping (insert_sleeper (threads w) t (sleep_end th) (sleeping_threads cu)) cu) w;
        w ← count_move max_cpu min_cpu w;
        let diff := diff - 1 in
        if diff =? 0 then Some (diff, w) else move_sleeping ts max_cpu min_cpu diff w
      else move_sleeping ts max_cpu min_cpu diff w
  end.

(** One round of [sched_load_balancer_fn] over the CPUs [ids]. *)
Definition balance (ids : list Z) (w : world) : option world :=
  '(min_count, max_count, min_index, max_index) ← extremes ids (2 ^ 32 - 1) 0 0 0 w;
  let diff := u32 (max_count - min_count) in
  if negb (min_index =? max_index) && (diff >=? 2) then
    '(diff, w) ← move_levels (rev level_numbers) max_index min_index diff w;
    if diff =? 0 then Some w
    else
      cu ← cpu_at max_index w;
      '(_, w) ← move_sleeping (sleeping_threads cu) max_index min_index diff w;
      Some w
  else Some w.

End Sched.
