(* ===== verification/SchedInv.v ===== *)
(** * Where threads are

    Every thread has one place, given by its status: the ready list of its CPU and
    level when it is waiting, the sleepers of its CPU when it sleeps, nowhere when
    it runs or is blocked.  [Lists] says that the lists of the schedulers contain
    exactly the threads whose place they are; while an operation moves a thread, it
    is exempt.  The steps of the scheduler are lemmas on [Lists]. *)

From stdpp Require Import sorting.
From S2P Require Import Prelude Sched.

Module SchedInv.
Import Sched.

Inductive key := Ready (c i : Z) | Asleep (c : Z).
#[global] Instance key_eq_dec : EqDecision key.
Proof. solve_decision. Defined.

Definition list_at (k : key) (w : world) : option (list Z) :=
  match k with
  | Ready c i => cu ← cpu_at c w; level_list i cu
  | Asleep c => cu ← cpu_at c w; Some (sleeping_threads cu)
  end.

(** The idle thread of a CPU is in no list. *)
Definition is_idle (t : Z) (th : Thread) (w : world) : bool :=
  match cpu_at (cpu th) w with Some cu => t =? idle_thread cu | None => false end.

Definition where_ (t : Z) (th : Thread) (w : world) : option key :=
  if is_idle t th w then None
  else match status th with
       | Waiting => Some (Ready (cpu th) (level_index th))
       | Sleeping => Some (Asleep (cpu th))
       | _ => None
       end.

Definition place (X : gset Z) (w : world) (t : Z) : option key :=
  if decide (t ∈ X) then None else th ← thr t w; where_ t th w.

Definition Lists (X : gset Z) (w : world) : Prop :=
  forall k l, list_at k w = Some l -> NoDup l /\ forall t, t ∈ l <-> place X w t = Some k.

(** ** Well-formed worlds *)

Definition Wf_thread (t : Z) (th : Thread) (w : world) : Prop :=
  t <> 0 /\ exited th = false /\ 0 <= level_index th < SCHED_LEVELS /\ is_Some (cpu_at (cpu th) w).
Definition Wf_cpu (c : Z) (cu : Cpu) (w : world) : Prop :=
  length (levels cu) = 12%nat /\ exists th, thr (idle_thread cu) w = Some th /\ cpu th = c.

Definition Wf (w : world) : Prop :=
  level_lock w = None /\ killed w = ∅ /\ (forall t th, thr t w = Some th -> Wf_thread t th w) /\
  (forall c cu, cpu_at c w = Some cu -> Wf_cpu c cu w).

(** ** Primitive steps *)

Lemma upd_thr_ok t f w th : thr t w = Some th ->
  upd_thr t f w = Some (mkWorld (<[t := f th]> (threads w)) (cpus w) (killed w) (level_lock w)).
Proof. intros H. unfold upd_thr. by rewrite H. Qed.

Lemma upd_cpu_ok c f w cu : cpu_at c w = Some cu ->
  upd_cpu c f w = Some (mkWorld (threads w) (<[c := f cu]> (cpus w)) (killed w) (level_lock w)).
Proof. intros H. unfold upd_cpu. by rewrite H. Qed.

Lemma thr_upd_thr t f w w' th t' : upd_thr t f w = Some w' -> thr t w = Some th ->
  thr t' w' = if decide (t' = t) then Some (f th) else thr t' w.
Proof.
  intros E H. rewrite (upd_thr_ok _ _ _ _ H) in E. injection E as <-. unfold thr. simpl.
  case_decide; [subst; by rewrite lookup_insert_eq|by rewrite lookup_insert_ne].
Qed.

Lemma cpu_upd_thr t f w w' c : upd_thr t f w = Some w' -> cpu_at c w' = cpu_at c w.
Proof. unfold upd_thr. destruct (thr t w); simpl; [|done]. by intros [= <-]. Qed.

Lemma cpu_upd_cpu c f w w' cu c' : upd_cpu c f w = Some w' -> cpu_at c w = Some cu ->
  cpu_at c' w' = if decide (c' = c) then Some (f cu) else cpu_at c' w.
Proof.
  intros E H. rewrite (upd_cpu_ok _ _ _ _ H) in E. injection E as <-. unfold cpu_at. simpl.
  case_decide; [subst; by rewrite lookup_insert_eq|by rewrite lookup_insert_ne].
Qed.

Lemma thr_upd_cpu c f w w' t : upd_cpu c f w = Some w' -> thr t w' = thr t w.
Proof. unfold upd_cpu. destruct (cpu_at c w); simpl; [|done]. by intros [= <-]. Qed.

Lemma upd_thr_ex t f w th : thr t w = Some th -> exists w', upd_thr t f w = Some w' /\ thr t w' = Some (f th) /\
  (forall u, u <> t -> thr u w' = thr u w) /\ (forall c, cpu_at c w' = cpu_at c w).
Proof.
  intros H. exists (mkWorld (<[t := f th]> (threads w)) (cpus w) (killed w) (level_lock w)). split_and!.
  - by apply upd_thr_ok.
  - by apply lookup_insert_eq.
  - intros u Hu. by apply lookup_insert_ne.
  - done.
Qed.

Lemma upd_cpu_ex c f w cu : cpu_at c w = Some cu -> exists w', upd_cpu c f w = Some w' /\ cpu_at c w' = Some (f cu) /\
  (forall t, thr t w' = thr t w).
Proof.
  intros H. exists (mkWorld (threads w) (<[c := f cu]> (cpus w)) (killed w) (level_lock w)). split_and!.
  - by apply upd_cpu_ok.
  - by apply lookup_insert_eq.
  - done.
Qed.

(** ** Changing a thread *)

Lemma list_upd_thr t f w w' k : upd_thr t f w = Some w' -> list_at k w' = list_at k w.
Proof. intros E. destruct k; simpl; by rewrite (cpu_upd_thr _ _ _ _ _ E). Qed.

Lemma idle_upd_thr t f w w' t' th : upd_thr t f w = Some w' -> is_idle t' th w' = is_idle t' th w.
Proof. intros E. unfold is_idle. by rewrite (cpu_upd_thr _ _ _ _ _ E). Qed.

Lemma where_upd_thr t f w w' t' th : upd_thr t f w = Some w' -> where_ t' th w' = where_ t' th w.
Proof. intros E. unfold where_. by rewrite (idle_upd_thr _ _ _ _ _ _ E). Qed.

(** A change that leaves the thread where it is, or of an exempt thread. *)
Lemma lists_upd_thr X t f w w' th : upd_thr t f w = Some w' -> thr t w = Some th ->
  (t ∈ X \/ where_ t (f th) w = where_ t th w) -> Lists X w -> Lists X w'.
Proof.
  intros E Ht Hc HL k l Hk. rewrite (list_upd_thr _ _ _ _ _ E) in Hk. destruct (HL k l Hk) as [ND Hl]. split; [done|].
  intros t'. rewrite Hl. unfold place. destruct (decide (t' ∈ X)) as [|Hx]; [done|].
  rewrite (thr_upd_thr _ _ _ _ _ t' E Ht). destruct (decide (t' = t)) as [->|]; simpl.
  - destruct Hc as [?|Hc]; [done|]. rewrite Ht. simpl. by rewrite (where_upd_thr _ _ _ _ _ _ E), Hc.
  - destruct (thr t' w); simpl; [|done]. by rewrite (where_upd_thr _ _ _ _ _ _ E).
Qed.

Lemma wf_upd_thr t f w w' th : upd_thr t f w = Some w' -> thr t w = Some th -> cpu (f th) = cpu th ->
  exited (f th) = exited th -> 0 <= level_index (f th) < SCHED_LEVELS -> Wf w -> Wf w'.
Proof.
  intros E Ht Hc He Hl (W1 & W2 & W3 & W4). pose proof (fun t' => thr_upd_thr _ _ _ _ _ t' E Ht) as Hthr.
  pose proof (fun c => cpu_upd_thr _ _ _ _ c E) as Hcpu. rewrite (upd_thr_ok _ _ _ _ Ht) in E. injection E as E.
  split_and!; [by subst|by subst| |].
  - intros t' th'. rewrite Hthr. unfold Wf_thread. rewrite Hcpu. case_decide as D; [intros [= <-]; subst t'|apply W3].
    rewrite Hc, He. destruct (W3 t th Ht) as (? & ? & _ & ?). done.
  - intros c cu. rewrite Hcpu. intros H. destruct (W4 c cu H) as [? (ti & Hti & Hci)]. split; [done|].
    rewrite Hthr. case_decide as D; [|eauto]. rewrite D in Hti. exists (f th). split; [done|]. congruence.
Qed.

(** ** Changing a CPU *)

(** The update keeps which thread is idle. *)
Definition keeps_idle (f : Cpu -> Cpu) : Prop := forall cu, idle_thread (f cu) = idle_thread cu.

Lemma idle_upd_cpu c f w w' t th : upd_cpu c f w = Some w' -> keeps_idle f -> is_idle t th w' = is_idle t th w.
Proof.
  intros E Hf. unfold is_idle, upd_cpu in *. destruct (cpu_at c w) as [cu|] eqn:Hc; simpl in E; [|done].
  injection E as <-. unfold cpu_at. simpl. destruct (decide (cpu th = c)) as [->|].
  - rewrite lookup_insert_eq. unfold cpu_at in Hc. by rewrite Hc, Hf.
  - by rewrite lookup_insert_ne.
Qed.

Lemma wf_upd_cpu c f w w' : upd_cpu c f w = Some w' -> keeps_idle f ->
  (forall cu, cpu_at c w = Some cu -> length (levels (f cu)) = length (levels cu)) -> Wf w -> Wf w'.
Proof.
  intros E Hi Hl (W1 & W2 & W3 & W4). pose proof (fun t => thr_upd_cpu _ _ _ _ t E) as Hthr.
  assert (Hc : exists cu, cpu_at c w = Some cu) by (unfold upd_cpu in E; destruct (cpu_at c w); [eauto|done]).
  destruct Hc as [cu Hc]. pose proof (fun c' => cpu_upd_cpu _ _ _ _ _ c' E Hc) as Hcpu.
  rewrite (upd_cpu_ok _ _ _ _ Hc) in E. injection E as E. split_and!; [by subst|by subst| |].
  - intros t th. rewrite Hthr. intros H. destruct (W3 t th H) as (? & ? & ? & ?). split_and!; try done; try lia.
    rewrite Hcpu. case_decide; [eauto|done].
  - intros c' cu'. rewrite Hcpu. unfold Wf_cpu. rewrite Hthr. case_decide as D; [|apply W4]. intros [= <-]. subst c'.
    rewrite Hl, Hi by done. by apply W4.
Qed.

(** One list changes, and with it the exemptions. *)
Lemma lists_change X X' k0 l0 w w' : threads w' = threads w -> (forall t th, is_idle t th w' = is_idle t th w) ->
  (forall k, k <> k0 -> list_at k w' = list_at k w) -> list_at k0 w' = Some l0 -> NoDup l0 ->
  (forall t, t ∈ l0 <-> place X' w t = Some k0) ->
  (forall t k, k <> k0 -> place X' w t = Some k <-> place X w t = Some k) -> Lists X w -> Lists X' w'.
Proof.
  intros Ht Hi Hk Hk0 ND Hl0 Hl HL.
  assert (HP : forall t, place X' w' t = place X' w t).
  { intros t. unfold place, thr. rewrite Ht. case_decide; [done|]. destruct (threads w !! t); simpl; [|done].
    unfold where_. by rewrite Hi. }
  intros k l Hkl. setoid_rewrite HP. destruct (decide (k = k0)) as [->|N].
  - rewrite Hk0 in Hkl. injection Hkl as <-. done.
  - rewrite Hk in Hkl by done. destruct (HL k l Hkl) as [? HLl]. split; [done|]. intros t. by rewrite HLl, Hl.
Qed.

Lemma place_other X X' w t : (t ∈ X <-> t ∈ X') -> place X w t = place X' w t.
Proof. intros E. unfold place. repeat case_decide; tauto. Qed.

Lemma place_in X w t : t ∈ X -> place X w t = None.
Proof. intros H. unfold place. by rewrite decide_True. Qed.

Lemma place_out X w t th : t ∉ X -> thr t w = Some th -> place X w t = where_ t th w.
Proof. intros H E. unfold place. rewrite decide_False by done. by rewrite E. Qed.

(** A thread at no place may be exempt or not. *)
Lemma lists_exempt X t w th : thr t w = Some th -> where_ t th w = None -> Lists X w <-> Lists ({[t]} ∪ X) w.
Proof.
  intros Ht Hw. assert (HP : forall u, place X w u = place ({[t]} ∪ X) w u).
  { intros u. destruct (decide (u = t)) as [->|N]; [|apply place_other; set_solver].
    rewrite (place_in ({[t]} ∪ X)) by set_solver. destruct (decide (t ∈ X)); [by rewrite place_in|].
    by rewrite (place_out _ _ _ th). }
  unfold Lists. by setoid_rewrite HP.
Qed.

(** A thread is put into the list of its place. *)
Lemma lists_put X w w' t th k l l' : Lists X w -> t ∈ X -> thr t w = Some th -> where_ t th w = Some k ->
  list_at k w = Some l -> threads w' = threads w -> (forall t th, is_idle t th w' = is_idle t th w) ->
  (forall k', k' <> k -> list_at k' w' = list_at k' w) -> list_at k w' = Some l' -> l' ≡ₚ t :: l -> Lists (X ∖ {[t]}) w'.
Proof.
  intros HL HX Ht Hw Hk E1 E2 E3 E4 EP. destruct (HL k l Hk) as [ND Hl].
  assert (Htl : t ∉ l) by (rewrite Hl, place_in by done; done).
  apply (lists_change X _ k l' w); try done.
  - rewrite EP. by apply NoDup_cons.
  - intros u. rewrite EP, elem_of_cons, Hl. destruct (decide (u = t)) as [->|N].
    + rewrite (place_out (X ∖ {[t]}) _ _ th) by set_solver. rewrite Hw. naive_solver.
    + rewrite (place_other X (X ∖ {[t]})) by set_solver. naive_solver.
  - intros u k' Hne. destruct (decide (u = t)) as [->|N].
    + rewrite (place_out (X ∖ {[t]}) _ _ th), Hw, (place_in X) by set_solver. naive_solver.
    + by rewrite (place_other X (X ∖ {[t]})) by set_solver.
Qed.

(** A thread is taken out of its list. *)
Lemma lists_take X w w' t k l l' : Lists X w -> list_at k w = Some l -> t ∈ l -> threads w' = threads w ->
  (forall t th, is_idle t th w' = is_idle t th w) -> (forall k', k' <> k -> list_at k' w' = list_at k' w) ->
  list_at k w' = Some l' -> NoDup l' -> (forall u, u ∈ l' <-> u ∈ l /\ u <> t) -> Lists ({[t]} ∪ X) w'.
Proof.
  intros HL Hk Ht E1 E2 E3 E4 ND' Hl'. destruct (HL k l Hk) as [ND Hl].
  apply (lists_change X _ k l' w); try done.
  - intros u. rewrite Hl', Hl. destruct (decide (u = t)) as [->|N].
    + rewrite (place_in ({[t]} ∪ X)) by set_solver. naive_solver.
    + rewrite (place_other X ({[t]} ∪ X)) by set_solver. naive_solver.
  - intros u k' Hne. destruct (decide (u = t)) as [->|N].
    + rewrite (place_in ({[t]} ∪ X)) by set_solver. apply Hl in Ht. naive_solver.
    + by rewrite (place_other X ({[t]} ∪ X)) by set_solver.
Qed.

(** ** The lists of a level and of the sleepers *)

Lemma level_list_set i i' l cu : 0 <= i < Z.of_nat (length (levels cu)) ->
  level_list i' (set_levels (<[Z.to_nat i := l]> (levels cu)) cu) = if decide (i' = i) then Some l else level_list i' cu.
Proof.
  intros Hi. unfold level_list. simpl. case_decide as E.
  - subst i'. rewrite (proj2 (Z.ltb_ge _ _)) by lia. apply list_lookup_insert_eq. lia.
  - destruct (i' <? 0) eqn:E'; [done|]. apply list_lookup_insert_ne. lia.
Qed.

Lemma level_list_bound i cu l : level_list i cu = Some l -> 0 <= i < Z.of_nat (length (levels cu)).
Proof.
  unfold level_list. destruct (i <? 0) eqn:E; [done|]. intros H. apply lookup_lt_Some in H. lia.
Qed.

Lemma wf_level w c cu i : Wf w -> cpu_at c w = Some cu -> 0 <= i < SCHED_LEVELS -> exists l, level_list i cu = Some l.
Proof.
  intros (_ & _ & _ & W) Hc Hi. destruct (W c cu Hc) as [Hl _]. unfold level_list. rewrite (proj2 (Z.ltb_ge _ _)) by lia.
  apply lookup_lt_is_Some. unfold SCHED_LEVELS in Hi. lia.
Qed.

Lemma upd_level_ok c i f w cu l : cpu_at c w = Some cu -> level_list i cu = Some l ->
  exists w', upd_level c i f w = Some w' /\ upd_cpu c (set_levels (<[Z.to_nat i := f l]> (levels cu))) w = Some w' /\
    list_at (Ready c i) w' = Some (f l) /\ (forall k, k <> Ready c i -> list_at k w' = list_at k w).
Proof.
  intros Hc Hl. pose proof (level_list_bound _ _ _ Hl) as Hb. unfold upd_level. rewrite Hc. simpl. rewrite Hl. simpl.
  eexists. rewrite (upd_cpu_ok _ _ _ _ Hc). split_and!; [done|done| |].
  - simpl. unfold cpu_at. simpl. rewrite lookup_insert_eq. simpl. by rewrite level_list_set, decide_True.
  - intros [c' i'|c'] Hk; simpl; unfold cpu_at in *; simpl; (destruct (decide (c' = c)) as [->|]; [rewrite lookup_insert_eq|by rewrite lookup_insert_ne]); rewrite Hc; simpl.
    + rewrite level_list_set, decide_False by (done || congruence). done.
    + done.
Qed.

Lemma upd_sleeping_ok c g w cu : cpu_at c w = Some cu ->
  exists w', upd_cpu c (fun cu => set_sleeping (g (sleeping_threads cu)) cu) w = Some w' /\
    list_at (Asleep c) w' = Some (g (sleeping_threads cu)) /\ (forall k, k <> Asleep c -> list_at k w' = list_at k w).
Proof.
  intros Hc. rewrite (upd_cpu_ok _ _ _ _ Hc). eexists. split_and!; [done| |].
  - simpl. unfold cpu_at. simpl. by rewrite lookup_insert_eq.
  - intros [c' i'|c'] Hk; simpl; unfold cpu_at in *; simpl; (destruct (decide (c' = c)) as [->|]; [rewrite lookup_insert_eq|by rewrite lookup_insert_ne]); rewrite Hc; simpl; [done|by destruct Hk].
Qed.

Lemma ssorted_impl (P Q : Z -> Z -> Prop) l : (forall a b, P a b -> Q a b) -> StronglySorted P l -> StronglySorted Q l.
Proof. intros H HS. induction HS as [|a l HS IH Ha]; constructor; [done|]. eapply Forall_impl; [exact Ha|]. auto. Qed.

(** ** The invariant between the steps of an operation *)

Definition sleep_key (w : world) (t : Z) : Z := match thr t w with Some th => sleep_end th | None => 0 end.

(** [rho.1 c] is the thread that runs on [c], and [rho.2 c] the one whose
    [move_lock] may be taken. *)
Notation owners := ((Z -> Z) * (Z -> Z))%type.
Definition RunAs (rho : owners) (w : world) : Prop := forall t th, thr t w = Some th ->
  (status th = Running -> t = rho.1 (cpu th) \/ is_idle t th w = true) /\ (move_lock th = true -> t = rho.2 (cpu th)).

Definition SleepSorted (w : world) : Prop := forall c cu, cpu_at c w = Some cu ->
  StronglySorted (fun a b => sleep_key w a <= sleep_key w b) (sleeping_threads cu).

Record Good (X : gset Z) (rho : owners) (w : world) : Prop := mkGood {
  good_wf : Wf w; good_lists : Lists X w; good_run : RunAs rho w; good_sorted : SleepSorted w }.

(** Only CPU [c] and threads of it change; no thread changes its CPU. *)
Definition local_to (c : Z) (w w' : world) : Prop :=
  (forall c', c' <> c -> cpu_at c' w' = cpu_at c' w) /\ (forall t, cpu <$> thr t w' = cpu <$> thr t w) /\
  (forall t th, thr t w = Some th -> cpu th <> c -> thr t w' = Some th).

Lemma local_refl c w : local_to c w w.
Proof. by split_and!. Qed.

Lemma local_trans c w1 w2 w3 : local_to c w1 w2 -> local_to c w2 w3 -> local_to c w1 w3.
Proof. intros (A1 & A2 & A3) (B1 & B2 & B3). split_and!; intros; [rewrite B1, A1 by done; done|by rewrite B2, A2|auto]. Qed.

Lemma local_upd_cpu c f w w' : upd_cpu c f w = Some w' -> local_to c w w'.
Proof.
  unfold upd_cpu. destruct (cpu_at c w) as [cu|] eqn:Hc; simpl; [|done]. intros [= <-]. split_and!; [|done|done].
  intros c' Hn. unfold cpu_at. simpl. by rewrite lookup_insert_ne.
Qed.

Lemma local_upd_thr c t f w w' th : upd_thr t f w = Some w' -> thr t w = Some th -> cpu th = c -> cpu (f th) = c ->
  local_to c w w'.
Proof.
  intros E Ht Hc Hf. pose proof (fun t' => thr_upd_thr _ _ _ _ _ t' E Ht) as Hthr. split_and!.
  - intros c' _. by apply (cpu_upd_thr _ _ _ _ _ E).
  - intros t'. rewrite Hthr. case_decide; [subst; rewrite Ht; simpl; congruence|done].
  - intros t' th' Ht' Hn. rewrite Hthr. case_decide; [subst; congruence|done].
Qed.

(** A thread changes but not its place. *)
Lemma good_upd_thr X rho t f w w' th : Good X rho w -> upd_thr t f w = Some w' -> thr t w = Some th ->
  cpu (f th) = cpu th -> exited (f th) = exited th -> 0 <= level_index (f th) < SCHED_LEVELS ->
  (t ∈ X \/ where_ t (f th) w = where_ t th w) ->
  (status (f th) = Running -> t = rho.1 (cpu th) \/ is_idle t th w = true) ->
  (move_lock (f th) = true -> t = rho.2 (cpu th)) -> sleep_end (f th) = sleep_end th -> Good X rho w'.
Proof.
  intros [HW HL HR HS] E Ht Hc He Hl HX Hst Hmv Hse. pose proof (fun t' => thr_upd_thr _ _ _ _ _ t' E Ht) as Hthr. split.
  - by eapply wf_upd_thr.
  - by eapply lists_upd_thr.
  - intros t' th'. rewrite Hthr. case_decide as D; rewrite (idle_upd_thr _ _ _ _ _ _ E); [|apply HR].
    intros [= <-]. subst t'. rewrite Hc. replace (is_idle t (f th) w) with (is_idle t th w) by (unfold is_idle; by rewrite Hc). done.
  - intros c cu. rewrite (cpu_upd_thr _ _ _ _ _ E). intros H. specialize (HS c cu H).
    assert (Hk : forall a, sleep_key w' a = sleep_key w a).
    { intros a. unfold sleep_key. rewrite Hthr. case_decide; [subst; by rewrite Ht|done]. }
    eapply ssorted_impl; [|exact HS]. intros a b. simpl. by rewrite !Hk.
Qed.

(** A CPU changes but not its lists. *)
Lemma good_upd_cpu X rho c f w w' : Good X rho w -> upd_cpu c f w = Some w' ->
  (forall cu, levels (f cu) = levels cu) -> (forall cu, sleeping_threads (f cu) = sleeping_threads cu) -> keeps_idle f ->
  Good X rho w'.
Proof.
  intros [HW HL HR HS] E H1 H2 H3. pose proof (fun t => thr_upd_cpu _ _ _ _ t E) as Hthr.
  pose proof (fun t th => idle_upd_cpu _ _ _ _ t th E H3) as Hidle.
  assert (Hc : exists cu, cpu_at c w = Some cu) by (unfold upd_cpu in E; destruct (cpu_at c w); [eauto|done]).
  destruct Hc as [cu Hc]. pose proof (fun c' => cpu_upd_cpu _ _ _ _ _ c' E Hc) as Hcpu. split.
  - eapply wf_upd_cpu; [exact E|done| |done]. intros. by rewrite H1.
  - intros k l Hk.
    assert (HP : forall t, place X w' t = place X w t).
    { intros t. unfold place. rewrite Hthr. case_decide; [done|]. destruct (thr t w); simpl; [|done]. unfold where_. by rewrite Hidle. }
    setoid_rewrite HP. apply HL. rewrite <- Hk. destruct k as [c' i|c']; simpl; rewrite Hcpu; case_decide; subst; try done; rewrite Hc; simpl.
    + unfold level_list. by rewrite H1.
    + by rewrite H2.
  - intros t th. rewrite Hthr, Hidle. apply HR.
  - intros c' cu'. rewrite Hcpu. case_decide as D.
    + intros [= <-]. subst c'. rewrite H2. eapply ssorted_impl; [|by apply (HS c cu)].
      intros a b. unfold sleep_key. by rewrite !Hthr.
    + intros H. eapply ssorted_impl; [|by apply (HS c' cu')]. intros a b. unfold sleep_key. by rewrite !Hthr.
Qed.

(** ** Queueing and taking *)

Definition hdr (cu : Cpu) : Z * Z * Z * Z := (prev cu, current cu, gs cu, idle_thread cu).

(** What moving threads between lists leaves: the threads, and which one runs. *)
Definition moved (c : Z) (w w' : world) : Prop :=
  threads w' = threads w /\ hdr <$> cpu_at c w' = hdr <$> cpu_at c w /\ local_to c w w'.

Lemma moved_upd_cpu c f w w' : upd_cpu c f w = Some w' -> (forall cu, hdr (f cu) = hdr cu) -> moved c w w'.
Proof.
  intros E Hf. split_and!; [| |by eapply local_upd_cpu]; unfold upd_cpu in E; destruct (cpu_at c w) as [cu|] eqn:Hc; simpl in E; try done;
    injection E as <-; [done|]. unfold cpu_at. simpl. rewrite lookup_insert_eq. simpl. by rewrite Hf.
Qed.

Lemma keeps_run rho w w' : threads w' = threads w -> (forall t th, is_idle t th w' = is_idle t th w) -> RunAs rho w -> RunAs rho w'.
Proof. intros E Hi HR t th. unfold thr. rewrite E, Hi. apply HR. Qed.

Lemma keeps_sorted c f w w' : upd_cpu c f w = Some w' -> SleepSorted w ->
  (forall cu, cpu_at c w = Some cu -> StronglySorted (fun a b => sleep_key w a <= sleep_key w b) (sleeping_threads (f cu))) ->
  SleepSorted w'.
Proof.
  intros E HS Hf c' cu'. pose proof (fun t => thr_upd_cpu _ _ _ _ t E) as Hthr.
  assert (Hc : exists cu, cpu_at c w = Some cu) by (unfold upd_cpu in E; destruct (cpu_at c w); [eauto|done]).
  destruct Hc as [cu Hc]. rewrite (cpu_upd_cpu _ _ _ _ _ c' E Hc). intros H.
  assert (HI : StronglySorted (fun a b => sleep_key w a <= sleep_key w b) (sleeping_threads cu')).
  { case_decide; [injection H as <-; by apply Hf|by apply (HS c')]. }
  eapply ssorted_impl; [|exact HI]. intros a b. unfold sleep_key. by rewrite !Hthr.
Qed.

Lemma good_queue X rho c t th w : Good X rho w -> t ∈ X -> thr t w = Some th ->
  where_ t th w = Some (Ready c (level_index th)) ->
  exists w', queue c t w = Some w' /\ Good (X ∖ {[t]}) rho w' /\ moved c w w' /\
    list_at (Asleep c) w' = list_at (Asleep c) w.
Proof.
  intros [HW HL HR HS] HX Ht Hw. assert (Hc : cpu th = c) by (unfold where_ in Hw; destruct (is_idle t th w); [done|]; by destruct (status th); simplify_eq).
  destruct (proj1 (proj2 (proj2 HW)) t th Ht) as (_ & _ & Hl & [cu Hcu]). rewrite Hc in Hcu.
  destruct (wf_level w c cu _ HW Hcu Hl) as [l Hlist].
  destruct (upd_level_ok c (level_index th) (fun l => l ++ [t]) w cu l Hcu Hlist) as (w' & E & E' & Hk & Hother).
  pose proof (fun t th => idle_upd_cpu _ _ _ _ t th E' ltac:(done)) as Hidle.
  assert (HM : moved c w w') by (by eapply moved_upd_cpu). exists w'. unfold queue. rewrite Ht. simpl. split_and!; [done| |done|by apply (Hother (Asleep c))]. split.
  - eapply wf_upd_cpu; [exact E'|done| |done]. intros cu' Hcu'. simpl. rewrite length_insert. congruence.
  - eapply (lists_put X w w' t th); try done; [simpl; by rewrite Hcu|apply HM|]. by rewrite Permutation_app_comm.
  - eapply keeps_run; [|done|done]. apply HM.
  - eapply keeps_sorted; [exact E'|done|]. intros cu' Hcu'. simpl. by apply (HS c).
Qed.

(** The first thread of a ready list. *)
Lemma ready_head X rho w c cu i t ts : Good X rho w -> cpu_at c w = Some cu -> level_list i cu = Some (t :: ts) ->
  exists th, thr t w = Some th /\ status th = Waiting /\ cpu th = c /\ level_index th = i /\ is_idle t th w = false /\ t ∉ X.
Proof.
  intros [_ HL _ _] Hc Hl. destruct (HL (Ready c i) (t :: ts)) as [_ H]; [simpl; by rewrite Hc|].
  specialize (proj1 (H t) ltac:(left)) as HP. unfold place in HP. case_decide as D; [done|].
  destruct (thr t w) as [th|]; [|done]. simpl in HP. exists th. unfold where_ in HP. destruct (is_idle t th w); [done|].
  destruct (status th); simplify_eq. done.
Qed.

Lemma wf_not_killed w th : Wf w -> is_killed th w = false.
Proof. intros (_ & HK & _). unfold is_killed. rewrite HK. by apply bool_decide_eq_false_2. Qed.

Lemma try_level_empty c i w cu : Wf w -> cpu_at c w = Some cu -> level_list i cu = Some [] -> try_level c i w = Some (false, 0, w).
Proof.
  intros (HK & _) Hc Hl. unfold try_level. rewrite Hc. simpl. rewrite Hl. simpl. unfold pop_level.
  change (cpu_at c (set_level_lock (Some (c, i)) w)) with (cpu_at c w). rewrite Hc. simpl. rewrite Hl. simpl.
  do 2 f_equal. destruct w. simpl in *. by rewrite HK.
Qed.

Lemma try_level_take rho c i w cu t ts : Good ∅ rho w -> cpu_at c w = Some cu -> level_list i cu = Some (t :: ts) ->
  exists w', try_level c i w = Some (true, t, w') /\ Good {[t]} rho w' /\ moved c w w'.
Proof.
  intros HG Hc Hl. destruct (ready_head _ _ _ _ _ _ _ _ HG Hc Hl) as (th & Ht & Hst & Hcpu & Hlev & Hid & _).
  pose proof HG as [HW HL HR HS]. destruct (upd_level_ok c i (fun _ => ts) w cu (t :: ts) Hc Hl) as (w' & E & E' & Hk & Hother).
  assert (HM : moved c w w') by (by eapply moved_upd_cpu). exists w'. split_and!; [| |done].
  - unfold try_level. rewrite Hc. simpl. rewrite Hl. simpl. unfold pop_level.
    change (cpu_at c (set_level_lock (Some (c, i)) w)) with (cpu_at c w). rewrite Hc. simpl. rewrite Hl. simpl.
    unfold upd_level. change (cpu_at c (set_level_lock (Some (c, i)) w)) with (cpu_at c w). rewrite Hc. simpl. rewrite Hl. simpl.
    rewrite (upd_cpu_ok c _ (set_level_lock (Some (c, i)) w) cu Hc). simpl.
    destruct (proj1 (proj2 (proj2 HW)) t th Ht) as (H0 & _). rewrite (proj2 (Z.eqb_neq t 0) H0).
    set (w2 := mkWorld _ _ _ _). assert (Ht2 : thr t w2 = Some th) by exact Ht. rewrite Ht2. simpl.
    assert (Hk2 : is_killed th w2 = false) by (unfold is_killed; simpl; apply (wf_not_killed w th HW)). rewrite Hk2.
    rewrite Hst, bool_decide_eq_true_2 by done. simpl. do 2 f_equal.
    rewrite (upd_cpu_ok _ _ _ _ Hc) in E'. injection E' as <-. destruct HW as (HK & _). unfold set_level_lock. simpl. by rewrite HK.
  - split.
    + eapply wf_upd_cpu; [exact E'|done| |done]. intros cu' Hcu'. simpl. rewrite length_insert. congruence.
    + replace {[t]} with ({[t]} ∪ (∅ : gset Z)) by set_solver.
      destruct (HL (Ready c i) (t :: ts)) as [ND _]; [simpl; by rewrite Hc|]. apply NoDup_cons in ND as [Hn ND].
      eapply (lists_take ∅ w w' t (Ready c i) (t :: ts) ts); try done; [simpl; by rewrite Hc|left|apply HM| |].
      * intros. eapply idle_upd_cpu; [exact E'|done].
      * intros u. rewrite elem_of_cons. split; [intros Hu; split; [auto|by intros ->]|tauto].
    + eapply keeps_run; [| |done]; [apply HM|]. intros. by eapply idle_upd_cpu.
    + eapply keeps_sorted; [exact E'|done|]. intros cu' Hcu'. simpl. by apply (HS c).
Qed.

(** The first non-empty level of [is_], or none. *)
Lemma try_levels_ok rho c w cu is_ : Good ∅ rho w -> cpu_at c w = Some cu -> (forall i, i ∈ is_ -> 0 <= i < SCHED_LEVELS) ->
  (try_levels is_ c 0 w = Some (0, w) /\ forall i, i ∈ is_ -> level_list i cu = Some []) \/
  (exists t ts i w' is1 is2, try_levels is_ c 0 w = Some (t, w') /\ is_ = is1 ++ i :: is2 /\
     (forall j, j ∈ is1 -> level_list j cu = Some []) /\ level_list i cu = Some (t :: ts) /\ Good {[t]} rho w' /\ moved c w w').
Proof.
  intros HG Hc. induction is_ as [|i is_ IH]; intros Hi; [left; split; [done|]; by intros ? []%elem_of_nil|].
  destruct (wf_level w c cu i (good_wf _ _ _ HG) Hc (Hi i ltac:(left))) as [l Hl]. cbn [try_levels]. destruct l as [|t ts].
  - rewrite (try_level_empty c i w cu (good_wf _ _ _ HG) Hc Hl). cbn [mbind option_bind].
    destruct IH as [[E HE]|(t & ts & j & w' & is1 & is2 & E & -> & HE & Hj & HG' & HM)]; [intros; apply Hi; by right| |].
    + left. split; [done|]. intros j [->|Hj]%elem_of_cons; auto.
    + right. exists t, ts, j, w', (i :: is1), is2. split_and!; try done. intros j' [->|Hj']%elem_of_cons; auto.
  - right. destruct (try_level_take rho c i w cu t ts HG Hc Hl) as (w' & E & HG' & HM). rewrite E. cbn [mbind option_bind].
    exists t, ts, i, w', [], is_. split_and!; try done. by intros ? []%elem_of_nil.
Qed.

End SchedInv.
