(* ===== verification/SchedFrame.v ===== *)
(** * What a scheduler operation does to the other threads

    Which statuses an operation may change: rescheduling wakes sleepers, makes the
    thread it chose run and makes the one that ran before wait, and leaves every
    other thread as it is.  The lemmas follow the definitions of Sched.v; they need
    that no process is killed and no thread has exited. *)

From S2P Require Import Prelude Sched SchedInv.

Module SchedFrame.
Import Sched SchedInv.

(** Takes the next step of a definition apart. *)
Ltac unstep H :=
  match type of H with
  | (mbind _ ?e) = Some _ => let E := fresh "E" in destruct e eqn:E; [cbn [mbind option_bind] in H|discriminate H]
  end.

(** Threads may only change their status, as [P] says. *)
Definition chg (P : Z -> Status -> Status -> Prop) (w w' : world) : Prop :=
  killed w' = killed w /\ (forall c, idle_thread <$> cpu_at c w' = idle_thread <$> cpu_at c w) /\
  forall t th, thr t w = Some th -> exists th', thr t w' = Some th' /\ cpu th' = cpu th /\ exited th' = exited th /\
    (status th' = status th \/ P t (status th) (status th')).

Definition never : Z -> Status -> Status -> Prop := fun _ _ _ => False.

Lemma chg_refl P w : chg P w w.
Proof. split_and!; [done|done|]. intros t th Ht. exists th. auto. Qed.

Lemma chg_weaken P Q w w' : (forall t a b, P t a b -> Q t a b) -> chg P w w' -> chg Q w w'.
Proof.
  intros H (A & B & C). split_and!; [done|done|]. intros t th Ht. destruct (C t th Ht) as (th' & ? & ? & ? & [?|?]); exists th'; split_and!; auto.
Qed.

(** One after the other. *)
Definition after (P Q : Z -> Status -> Status -> Prop) : Z -> Status -> Status -> Prop :=
  fun t a b => P t a b \/ Q t a b \/ exists m, P t a m /\ Q t m b.

Lemma chg_trans P Q w1 w2 w3 : chg P w1 w2 -> chg Q w2 w3 -> chg (after P Q) w1 w3.
Proof.
  intros (A1 & B1 & C1) (A2 & B2 & C2). split_and!; [congruence|intros c; by rewrite B2|]. intros t th Ht.
  destruct (C1 t th Ht) as (th1 & Ht1 & Hc1 & He1 & H1). destruct (C2 t th1 Ht1) as (th2 & Ht2 & Hc2 & He2 & H2).
  exists th2. split_and!; [done|congruence|congruence|]. destruct H1 as [H1|H1], H2 as [H2|H2]; unfold after.
  - left. congruence.
  - right. rewrite <- H1. auto.
  - right. rewrite H2. auto.
  - right. right. right. eauto.
Qed.

Lemma chg_same w1 w2 w3 P : chg never w1 w2 -> chg P w2 w3 -> chg P w1 w3.
Proof. intros H1 H2. eapply chg_weaken; [|by eapply chg_trans]. intros t a b [[]|[?|(m & [] & _)]]. done. Qed.

Lemma chg_then w1 w2 w3 P : chg P w1 w2 -> chg never w2 w3 -> chg P w1 w3.
Proof. intros H1 H2. eapply chg_weaken; [|by eapply chg_trans]. intros t a b [?|[[]|(m & _ & [])]]. done. Qed.

(** ** Primitive steps *)

Lemma chg_upd_thr t f w w' : upd_thr t f w = Some w' -> (forall th, cpu (f th) = cpu th) -> (forall th, exited (f th) = exited th) ->
  chg (fun u a b => u = t /\ exists th, thr t w = Some th /\ a = status th /\ b = status (f th)) w w'.
Proof.
  intros E Hc He. split_and!.
  - unfold upd_thr in E. unstep E. by injection E as <-.
  - intros c. by rewrite (cpu_upd_thr _ _ _ _ _ E).
  - intros u th Hu. destruct (thr t w) as [tth|] eqn:Ht; [|by unfold upd_thr in E; rewrite Ht in E].
    rewrite (thr_upd_thr _ _ _ _ _ u E Ht). case_decide as D; [|exists th; auto]. subst u. rewrite Hu in Ht. injection Ht as <-.
    exists (f th). split_and!; [done|done|done|]. right. split; [done|]. exists th. done.
Qed.

Lemma chg_upd_thr_same t f w w' : upd_thr t f w = Some w' -> (forall th, cpu (f th) = cpu th) -> (forall th, exited (f th) = exited th) ->
  (forall th, status (f th) = status th) -> chg never w w'.
Proof.
  intros E Hc He Hs. destruct (chg_upd_thr _ _ _ _ E Hc He) as (A & B & C). split_and!; [done|done|].
  intros u th Hu. destruct (C u th Hu) as (th' & Hu' & ? & ? & [?|(-> & th0 & Ht & Ha & Hb)]); exists th'; split_and!; auto.
  left. rewrite Hb, Hs. done.
Qed.

Lemma chg_upd_cpu c f w w' : upd_cpu c f w = Some w' -> keeps_idle f -> chg never w w'.
Proof.
  intros E Hf. split_and!.
  - unfold upd_cpu in E. unstep E. by injection E as <-.
  - intros c'. unfold upd_cpu in E. unstep E. injection E as <-. unfold cpu_at in *. simpl. destruct (decide (c' = c)) as [->|N].
    + rewrite lookup_insert_eq, E0. simpl. by rewrite Hf.
    + by rewrite lookup_insert_ne.
  - intros t th Ht. exists th. rewrite (thr_upd_cpu _ _ _ _ _ E). auto.
Qed.

Lemma chg_upd_level c i f w w' : upd_level c i f w = Some w' -> chg never w w'.
Proof. intros E. unfold upd_level in E. do 2 unstep E. by eapply chg_upd_cpu. Qed.

Lemma chg_queue c t w w' : queue c t w = Some w' -> chg never w w'.
Proof. intros E. unfold queue in E. unstep E. by eapply chg_upd_level. Qed.

Lemma chg_pop c i w t w' : pop_level c i w = Some (t, w') -> chg never w w'.
Proof.
  intros E. unfold pop_level in E. do 2 unstep E. destruct l as [|x l]; [injection E as <- <-; apply chg_refl|].
  unstep E. injection E as <- <-. by eapply chg_upd_level.
Qed.

Lemma chg_killed P w w' : chg P w w' -> killed w = ∅ -> killed w' = ∅.
Proof. intros (-> & _) H. exact H. Qed.

Lemma not_killed th w : killed w = ∅ -> is_killed th w = false.
Proof. intros H. unfold is_killed. rewrite H. apply bool_decide_eq_false_2. set_solver. Qed.

(** ** Rescheduling *)

Lemma chg_scan fuel c i start : forall next w r, killed w = ∅ -> scan_level fuel c i start next w = Some r -> chg never w (snd r).
Proof.
  induction fuel as [|fuel IH]; intros next w r Hk E; [done|]. cbn [scan_level] in E. unstep E. rewrite not_killed in E by done.
  destruct (bool_decide (status t = Waiting)); [injection E as <-; apply chg_refl|]. unstep E. unstep E. destruct p as [n w2].
  pose proof (chg_upd_level _ _ _ _ _ E1) as H1. pose proof (chg_pop _ _ _ _ _ E2) as H2.
  assert (H12 : chg never w w2) by (by eapply chg_same). destruct (n =? start).
  - injection E as <-. done.
  - eapply chg_same; [exact H12|]. eapply IH; [|exact E]. by eapply chg_killed.
Qed.

Lemma chg_try_level c i w r : killed w = ∅ -> try_level c i w = Some r -> chg never w (snd r).
Proof.
  intros Hk E. unfold try_level in E. do 2 unstep E. unstep E. destruct p as [start w1].
  pose proof (chg_pop _ _ _ _ _ E2) as H1. change (chg never w w1) in H1. destruct (start =? 0); [injection E as <-; exact H1|].
  unstep E. destruct p as [[found next] w2]. injection E as <-. pose proof (chg_scan _ _ _ _ _ _ _ (chg_killed _ _ _ H1 Hk) E3) as H2.
  change (chg never w w2). eapply chg_same; [exact H1|exact H2].
Qed.

Lemma chg_try_levels is_ c : forall next w r, killed w = ∅ -> try_levels is_ c next w = Some r -> chg never w (snd r).
Proof.
  induction is_ as [|i is_ IH]; intros next w r Hk E; cbn [try_levels] in E; [injection E as <-; apply chg_refl|].
  unstep E. destruct p as [[found n] w1]. pose proof (chg_try_level _ _ _ _ Hk E0) as H1. cbn [snd] in H1.
  destruct found; [injection E as <-; done|]. eapply chg_same; [exact H1|]. eapply IH; [|exact E]. by eapply chg_killed.
Qed.

(** [update_schedule] changes no status; then [prev] is the thread that ran. *)
Lemma chg_update_schedule c w w' cu : killed w = ∅ -> cpu_at c w = Some cu -> gs cu = current cu -> update_schedule c w = Some w' ->
  chg never w w'.
Proof.
  intros Hk Hc Hg E. unfold update_schedule in E. rewrite Hc in E. cbn [mbind option_bind] in E. do 2 unstep E.
  destruct (_ && (us_to_next_schedule cu >? _)); [by eapply chg_upd_cpu|].
  unstep E. unstep E. destruct p as [next w2].
  assert (H1 : chg never w w0) by (destruct (_ && (level_index t <? _)) in E2; [by eapply chg_upd_thr_same|injection E2 as <-; apply chg_refl]).
  pose proof (chg_try_levels _ _ _ _ _ (chg_killed _ _ _ H1 Hk) E3) as H2. cbn [snd] in H2.
  assert (H12 : chg never w w2) by (by eapply chg_same). do 2 unstep E.
  destruct (_ && bool_decide (status t0 = Running)); [|do 2 unstep E]; (eapply chg_same; [exact H12|by eapply chg_upd_cpu]).
Qed.

Definition to_waiting (ts : list Z) : Z -> Status -> Status -> Prop := fun t _ b => t ∈ ts /\ b = Waiting.

Lemma chg_wake_loop ts c cpu_ now : forall w r, wake_loop ts c cpu_ now w = Some r -> chg (to_waiting ts) w (snd r).
Proof.
  induction ts as [|t ts IH]; intros w r E; cbn [wake_loop] in E; [injection E as <-; apply chg_refl|].
  unstep E. destruct (sleep_end t0 >? now); [injection E as <-; apply chg_refl|]. do 4 unstep E.
  pose proof (chg_upd_cpu _ _ _ _ E1 ltac:(done)) as H1. pose proof (chg_upd_thr _ _ _ _ E2 ltac:(done) ltac:(done)) as H2.
  pose proof (chg_queue _ _ _ _ E4) as H3. pose proof (IH _ _ E) as H4.
  assert (H := chg_trans _ _ _ _ _ (chg_then _ _ _ _ (chg_same _ _ _ _ H1 H2) H3) H4).
  eapply chg_weaken; [|exact H]. intros x a b [(-> & th & _ & _ & ->)|[[Hx ->]|(m & _ & [Hx ->])]]; unfold to_waiting; (split; [|done]); [by left|by right|by right].
Qed.

Lemma chg_enable_preemption c cpu_ now w w' cu : cpu_at c w = Some cu -> enable_preemption c cpu_ now w = Some w' ->
  chg (to_waiting (sleeping_threads cu)) w w'.
Proof.
  intros Hc E. unfold enable_preemption in E. rewrite Hc in E. cbn [mbind option_bind] in E. unstep E. destruct p as [e w1].
  do 3 unstep E. pose proof (chg_wake_loop _ _ _ _ _ _ E0) as H1. cbn [snd] in H1.
  eapply chg_then; [exact H1|]. eapply chg_same; [by eapply chg_upd_cpu|by eapply chg_upd_cpu].
Qed.

(** The thread that ran waits, the chosen one runs. *)
Definition switched (p n : Z) : Z -> Status -> Status -> Prop := fun t a b => t = n \/ (t = p /\ a = Running /\ b = Waiting).

Lemma chg_do_schedule c w w' cu : killed w = ∅ -> (forall t th, thr t w = Some th -> exited th = false) -> cpu_at c w = Some cu ->
  do_schedule c w = Some w' -> chg (switched (prev cu) (current cu)) w w'.
Proof.
  intros Hk Hx Hc E. unfold do_schedule in E. rewrite Hc in E. cbn [mbind option_bind] in E.
  destruct (prev cu =? current cu); [injection E as <-; apply chg_refl|]. do 3 unstep E.
  pose proof (chg_upd_thr_same _ _ _ _ E0 ltac:(done) ltac:(done) ltac:(done)) as H1.
  rewrite not_killed in E by (by eapply chg_killed). assert (Hex : exited t = false).
  { destruct (thr (prev cu) w) as [pth|] eqn:Hp; [|unfold upd_thr in E0; by rewrite Hp in E0].
    rewrite (thr_upd_thr _ _ _ _ _ (prev cu) E0 Hp), decide_True in E1 by done. injection E1 as <-. exact (Hx _ _ Hp). }
  rewrite Hex in E. cbn [orb] in E. do 3 unstep E.
  assert (H2 : chg (fun u a b => u = prev cu /\ a = Running /\ b = Waiting) w0 w1).
  { destruct (negb _ && bool_decide (status t = Running)) eqn:Eb in E3; [|injection E3 as <-; apply chg_refl].
    apply andb_true_iff in Eb as [_ Eb%bool_decide_eq_true]. unstep E3.
    eapply chg_then; [|by eapply chg_queue]. eapply chg_weaken; [|by eapply chg_upd_thr].
    intros u a b (-> & th & Hth & -> & ->). rewrite E1 in Hth. injection Hth as <-. done. }
  pose proof (chg_upd_thr _ _ _ _ E4 ltac:(done) ltac:(done)) as H3.
  pose proof (chg_upd_cpu _ _ _ _ E5 ltac:(done)) as H4. pose proof (chg_upd_thr_same _ _ _ _ E ltac:(done) ltac:(done) ltac:(done)) as H5.
  assert (H := chg_same _ _ _ _ H1 (chg_trans _ _ _ _ _ H2 (chg_then _ _ _ _ (chg_then _ _ _ _ H3 H4) H5))).
  eapply chg_weaken; [|exact H]. intros u a b [(-> & -> & ->)|[(-> & _)|(m & _ & (-> & _))]]; unfold switched; auto.
Qed.

(** ** The other threads *)

(** What the rest of the system may do to a thread that takes no part: a sleeping
    thread can be woken, a ready one can be run; one that runs or is blocked stays. *)
Definition calm (a b : Status) : Prop :=
  b = a \/ (a = Sleeping /\ b <> Blocked) \/ (a = Waiting /\ b = Running).

Definition calm_but (P : Z -> Prop) (w w' : world) : Prop :=
  (forall c, idle_thread <$> cpu_at c w' = idle_thread <$> cpu_at c w) /\
  forall t th, thr t w = Some th -> is_idle t th w = false -> exists th', thr t w' = Some th' /\ cpu th' = cpu th /\
    (P t \/ calm (status th) (status th')).

Lemma idle_same t th th' w w' : (forall c, idle_thread <$> cpu_at c w' = idle_thread <$> cpu_at c w) -> cpu th' = cpu th ->
  is_idle t th' w' = is_idle t th w.
Proof.
  intros H E. unfold is_idle. rewrite E. specialize (H (cpu th)). destruct (cpu_at (cpu th) w), (cpu_at (cpu th) w'); simpl in H; try done.
  injection H as ->. done.
Qed.

Lemma calm_refl P w : calm_but P w w.
Proof. split; [done|]. intros t th Ht _. exists th. unfold calm. auto. Qed.

Lemma calm_trans P w1 w2 w3 : calm_but P w1 w2 -> calm_but P w2 w3 -> calm_but P w1 w3.
Proof.
  intros [A1 B1] [A2 B2]. split; [intros c; by rewrite A2|]. intros t th Ht Hi. destruct (B1 t th Ht Hi) as (th1 & Ht1 & Hc1 & H1).
  destruct (B2 t th1 Ht1) as (th2 & Ht2 & Hc2 & H2); [by rewrite (idle_same t th th1 w1 w2)|].
  exists th2. split_and!; [done|congruence|]. destruct H1 as [?|H1]; [by left|]. destruct H2 as [?|H2]; [by left|]. right.
  unfold calm in *. destruct H1 as [E|[[E H1]|[E H1]]].
  - rewrite E in H2. done.
  - right. left. split; [done|]. destruct H2 as [E2|[[_ ?]|[_ E2]]]; congruence.
  - destruct H2 as [E2|[[E2 _]|[E2 _]]]; [right; right; split; congruence|congruence|congruence].
Qed.

Lemma calm_weaken (P Q : Z -> Prop) w w' : (forall t, P t -> Q t) -> calm_but P w w' -> calm_but Q w w'.
Proof. intros H [A B]. split; [done|]. intros t th Ht Hi. destruct (B t th Ht Hi) as (th' & ? & ? & [?|?]); exists th'; split_and!; auto. Qed.

Lemma calm_chg P w w' : chg never w w' -> calm_but P w w'.
Proof. intros (_ & A & B). split; [done|]. intros t th Ht _. destruct (B t th Ht) as (th' & ? & ? & _ & [?|[]]). exists th'. unfold calm. auto. Qed.

(** Waking sleepers leaves the others. *)
Lemma calm_woken P c w w' cu cu' : local_to c w w' -> cpu_at c w = Some cu -> cpu_at c w' = Some cu' -> hdr cu' = hdr cu ->
  (forall t th, thr t w = Some th -> exists th', thr t w' = Some th' /\ cpu th' = cpu th /\
     (th' = th \/ (status th = Sleeping /\ status th' = Waiting))) -> calm_but P w w'.
Proof.
  intros HL Hc Hc' Hh H. unfold hdr in Hh. injection Hh as _ _ _ Hi. split.
  - intros c'. destruct (decide (c' = c)) as [->|N]; [rewrite Hc, Hc'; simpl; congruence|by rewrite (proj1 HL)].
  - intros t th Ht _. destruct (H t th Ht) as (th' & Ht' & Hcp & Hs). exists th'. split_and!; [done|done|]. right. unfold calm.
    destruct Hs as [->|[Hs Hs']]; [by left|]. right. left. split; [done|congruence].
Qed.

(** Switching from [prev] to a thread that was ready or is idle. *)
Lemma calm_switch c w w' cu nth : Wf w -> cpu_at c w = Some cu -> thr (current cu) w = Some nth ->
  status nth = Waiting \/ is_idle (current cu) nth w = true -> (forall th', thr (current cu) w' = Some th' -> status th' = Running) ->
  do_schedule c w = Some w' -> calm_but (fun t => t = prev cu /\ exists th, thr t w = Some th /\ status th = Running) w w'.
Proof.
  intros HW Hc Hn Hns Hn' E. destruct (chg_do_schedule c w w' cu (proj1 (proj2 HW))) as (_ & A & B); [|done|done|].
  { intros t th Ht. apply (proj1 (proj2 (proj2 HW)) t th Ht). }
  split; [done|]. intros t th Ht Hi. destruct (B t th Ht) as (th' & Ht' & Hcp & _ & Hs). exists th'. split_and!; [done|done|].
  destruct Hs as [Hs|[->|(-> & Hs & _)]]; [right; by left| |].
  - right. rewrite Hn in Ht. injection Ht as <-. destruct Hns as [Hs|Hs]; [|congruence]. right. right. split; [done|by apply Hn'].
  - left. eauto.
Qed.

(** Only [r] was changed, and no CPU changed who runs. *)
Lemma calm_others r w w' : (forall t, t <> r -> thr t w' = thr t w) -> (exists th th', thr r w = Some th /\ thr r w' = Some th' /\ cpu th' = cpu th) ->
  (forall c, hdr <$> cpu_at c w' = hdr <$> cpu_at c w) -> calm_but (fun t => t = r) w w'.
Proof.
  intros H (rth & rth' & Hr & Hr' & Hc) Hh. split.
  - intros c. specialize (Hh c). destruct (cpu_at c w), (cpu_at c w'); simpl in *; try done. unfold hdr in Hh. by injection Hh as _ _ _ ->.
  - intros t th Ht _. destruct (decide (t = r)) as [->|N]; [|exists th; rewrite H by done; unfold calm; auto].
    exists rth'. rewrite Hr in Ht. injection Ht as <-. auto.
Qed.

End SchedFrame.
