(* ===== verification/SchedRun.v ===== *)
(** * The scheduler's operations

    The invariant [Inv] of the scheduler between operations, and that every
    operation of the scheduler runs through and keeps it. *)

From stdpp Require Import sorting.
From S2P Require Import Prelude Sched SchedInv SchedFrame.

Module SchedRun.
Import Sched SchedInv SchedFrame.

(** The ready thread that has to run next: the first of the lowest level that has
    one, and the idle thread when there is none. *)
Definition chosen (cu : Cpu) (n : Z) : Prop :=
  (exists i ts, 0 <= i < SCHED_LEVELS /\ level_list i cu = Some (n :: ts) /\ forall j, 0 <= j < i -> level_list j cu = Some []) \/
  (n = idle_thread cu /\ forall j, 0 <= j < SCHED_LEVELS -> level_list j cu = Some []).

(** The position of a running thread [r] of CPU [c], with record [th]. *)
Definition At (c r : Z) (th : Thread) (cu : Cpu) (w : world) : Prop :=
  cpu_at c w = Some cu /\ current cu = r /\ gs cu = r /\ thr r w = Some th /\ cpu th = c.

Lemma numbers_range i : i ∈ level_numbers <-> 0 <= i < SCHED_LEVELS.
Proof. unfold level_numbers, SCHED_LEVELS. rewrite !elem_of_cons, elem_of_nil. lia. Qed.

Lemma numbers_before i is1 is2 j : level_numbers = is1 ++ i :: is2 -> 0 <= j < i -> j ∈ is1.
Proof.
  intros E Hj. unfold level_numbers in E.
  assert (H : exists n, length is1 = n /\ (n < 12)%nat).
  { exists (length is1). split; [done|]. apply (f_equal length) in E. rewrite length_app in E. simpl in E. lia. }
  destruct H as (n & Hn & Hb).
  do 12 (destruct n as [|n]; [repeat (destruct is1 as [|? is1]; simpl in Hn; try lia); simpl in E; injection E; intros; subst; rewrite ?elem_of_cons, ?elem_of_nil; lia|]).
  lia.
Qed.

Lemma try_levels_chosen rho c w cu : Good ∅ rho w -> cpu_at c w = Some cu ->
  (try_levels level_numbers c 0 w = Some (0, w) /\ forall j, 0 <= j < SCHED_LEVELS -> level_list j cu = Some []) \/
  (exists t w', try_levels level_numbers c 0 w = Some (t, w') /\ chosen cu t /\ t ≠ 0 /\
     (exists th, thr t w = Some th /\ status th = Waiting /\ cpu th = c) /\ Good {[t]} rho w' /\ moved c w w').
Proof.
  intros HG Hc. destruct (try_levels_ok rho c w cu level_numbers HG Hc) as [[E HE]|(t & ts & i & w' & is1 & is2 & E & Hs & HE & Hi & HG' & HM)].
  - intros i. apply numbers_range.
  - left. split; [done|]. intros j Hj. by apply HE, numbers_range.
  - right. destruct (ready_head _ _ _ _ _ _ _ _ HG Hc Hi) as (th & Ht & Hst & Hcpu & _ & _ & _).
    exists t, w'. split_and!; try done; [| |eauto].
    + left. exists i, ts. assert (Hi' : i ∈ level_numbers) by (rewrite Hs; apply elem_of_app; right; left).
      split_and!; [by apply numbers_range..|done|]. intros j Hj. apply HE. by eapply numbers_before.
    + by destruct (proj1 (proj2 (proj2 (good_wf _ _ _ HG))) t th Ht) as (? & _).
Qed.

(** Lowering the level of the running thread. *)
Lemma lower_level_ok rho c r th cu w (b : bool) : Good ∅ rho w -> At c r th cu w -> status th = Running -> rho.1 c = r ->
  0 <= level_index th + 1 < SCHED_LEVELS \/ b = false ->
  exists w' th', (if b then upd_thr r (set_level (level_index th + 1)) w else Some w) = Some w' /\ Good ∅ rho w' /\
    At c r th' cu w' /\ status th' = status th /\ move_lock th' = move_lock th /\ pin_level th' = pin_level th /\ local_to c w w' /\
    (forall t, t <> r -> thr t w' = thr t w) /\ cpus w' = cpus w.
Proof.
  intros HG (Hc & Hcur & Hgs & Hr & Hcpu) Hst Hrho Hb. destruct b.
  - destruct Hb as [Hb|]; [|done]. rewrite (upd_thr_ok _ _ _ _ Hr). eexists _, (set_level (level_index th + 1) th).
    assert (E := upd_thr_ok r (set_level (level_index th + 1)) w th Hr).
    split_and!; [done| | | | | |by eapply local_upd_thr| |]; try done.
    + eapply good_upd_thr; try exact E; try done.
      * right. unfold where_, is_idle. simpl. by rewrite Hst.
      * simpl. rewrite Hcpu. auto.
      * simpl. apply (good_run _ _ _ HG r th Hr).
    + split_and!; try done. unfold thr. simpl. by rewrite lookup_insert_eq.
    + intros t Ht. unfold thr. simpl. by rewrite lookup_insert_ne.
  - exists w, th. split_and!; try done.
Qed.

(** After [update_schedule]: either the running thread keeps the CPU, or [n] has
    been taken from its list and is about to run. *)
Definition Switching (rho : owners) (c r : Z) (th : Thread) (cu : Cpu) (w : world) : Prop :=
  exists th' cu', thr r w = Some th' /\ cpu th' = c /\ status th' = status th /\ move_lock th' = move_lock th /\ cpu_at c w = Some cu' /\
    gs cu' = r /\ prev cu' = r /\ idle_thread cu' = idle_thread cu /\
    ((status th = Running /\ current cu' = r /\ Good ∅ rho w) \/
     (exists n nth, current cu' = n /\ n <> r /\ chosen cu n /\ thr n w = Some nth /\ cpu nth = c /\ Good {[n]} rho w /\
        (status nth = Waiting \/ is_idle n nth w = true))).

Lemma moved_hdr c w w' cu : moved c w w' -> cpu_at c w = Some cu -> exists cu', cpu_at c w' = Some cu' /\ hdr cu' = hdr cu.
Proof. intros (_ & H & _) Hc. rewrite Hc in H. destruct (cpu_at c w') as [cu'|]; [|done]. exists cu'. split; [done|]. by apply (inj Some) in H. Qed.

Lemma idle_of w c cu th t : cpu_at c w = Some cu -> cpu th = c -> is_idle t th w = (t =? idle_thread cu).
Proof. intros Hc E. unfold is_idle. by rewrite E, Hc. Qed.

Lemma update_schedule_ok rho c r th cu w : Good ∅ rho w -> At c r th cu w -> rho.1 c = r ->
  (r = idle_thread cu -> status th = Running) -> status th <> Waiting ->
  exists w', update_schedule c w = Some w' /\ local_to c w w' /\ Switching rho c r th cu w'.
Proof.
  intros HG HA Hrho Hid Hnw. pose proof HA as (Hc & Hcur & Hgs & Hr & Hcpu). unfold update_schedule. rewrite Hc. cbn [mbind option_bind].
  rewrite Hcur, Hr. cbn [mbind option_bind]. rewrite Hcpu, Hc. cbn [mbind option_bind].
  set (running := bool_decide (status th = Running) && negb (r =? idle_thread cu)).
  assert (Hrun : running = true -> status th = Running).
  { unfold running. intros [H _]%andb_true_iff. by apply bool_decide_eq_true in H. }
  destruct (running && (us_to_next_schedule cu >? current_irq_period cu)) eqn:Eearly.
  - apply andb_true_iff in Eearly as [Hr1 _]. eexists. rewrite (upd_cpu_ok _ _ _ _ Hc). split; [done|].
    match goal with |- local_to _ _ ?W /\ _ => set (w' := W) end.
    assert (EU : upd_cpu c (fun cu => set_prev (current cu) (set_us_to_next (us_to_next_schedule cu - current_irq_period cu) cu)) w = Some w')
      by (by rewrite (upd_cpu_ok _ _ _ _ Hc)).
    split; [by eapply local_upd_cpu|]. eexists th, _. split_and!; [exact Hr|done|done|done|by apply lookup_insert_eq|done|done|done|].
    left. split_and!; [auto|done|]. eapply good_upd_cpu; try exact EU; done.
  - set (b := running && negb (pin_level th) && (level_index th <? SCHED_LEVELS - 1)).
    assert (HL : exists w1 th1, (if b then upd_thr r (set_level (level_index th + 1)) w else Some w) = Some w1 /\ Good ∅ rho w1 /\
      At c r th1 cu w1 /\ status th1 = status th /\ move_lock th1 = move_lock th /\ local_to c w w1 /\ (forall t, t <> r -> thr t w1 = thr t w)).
    { destruct b eqn:Eb.
      - apply andb_true_iff in Eb as [[Hrn _]%andb_true_iff Hlt%Z.ltb_lt].
        destruct (proj1 (proj2 (proj2 (good_wf _ _ _ HG))) r th Hr) as (_ & _ & Hlev & _).
        destruct (lower_level_ok rho c r th cu w true HG HA (Hrun Hrn) Hrho) as (w1 & th1 & E1 & ? & ? & ? & ? & _ & ? & ? & _); [left; lia|].
        exists w1, th1. done.
      - exists w, th. by split_and!. }
    destruct HL as (w1 & th1 & -> & HG1 & HA1 & Hst1 & Hmv1 & HL1 & Hoth). cbn [mbind option_bind].
    pose proof HA1 as (Hc1 & _ & _ & Hr1 & Hcpu1).
    destruct (try_levels_chosen rho c w1 cu HG1 Hc1) as [[-> HE]|(n & w2 & -> & Hch & Hn0 & (nth & Hn & Hnst & Hncpu) & HG2 & HM)]; cbn [mbind option_bind].
    + rewrite Hc1. cbn [mbind option_bind]. rewrite Hgs, Hr1. cbn [mbind option_bind].
      rewrite (wf_not_killed _ th1 (good_wf _ _ _ HG1)), Hst1. cbn [negb]. change (0 =? 0) with true. cbn [andb].
      destruct (bool_decide (status th = Running)) eqn:Er.
      * apply bool_decide_eq_true in Er. rewrite (upd_cpu_ok _ _ _ _ Hc1). eexists. split; [done|].
        match goal with |- local_to _ _ ?W /\ _ => set (w' := W) end.
        assert (EU : upd_cpu c (set_prev r) w1 = Some w') by (by rewrite (upd_cpu_ok _ _ _ _ Hc1)).
        split; [eapply local_trans; [done|by eapply local_upd_cpu]|]. eexists th1, _. split_and!; [exact Hr1|done|done|done|by apply lookup_insert_eq|done|done|done|].
        left. split_and!; [done|done|]. eapply good_upd_cpu; try exact EU; done.
      * apply bool_decide_eq_false in Er. rewrite Hcpu1, Hc1. cbn [mbind option_bind].
        destruct (proj2 (proj2 (proj2 (good_wf _ _ _ HG1))) c cu Hc1) as [_ (ith & Hith & Hicpu)]. rewrite Hith. cbn [mbind option_bind].
        rewrite (upd_cpu_ok _ _ _ _ Hc1). eexists. split; [done|].
        match goal with |- local_to _ _ ?W /\ _ => set (w' := W) end.
        assert (EU : upd_cpu c (fun cu0 => set_us_to_next (slice_us (level_index ith)) (set_current (idle_thread cu) (set_prev (current cu0) cu0))) w1 = Some w')
          by (by rewrite (upd_cpu_ok _ _ _ _ Hc1)).
        split; [eapply local_trans; [done|by eapply local_upd_cpu]|]. eexists th1, _. split_and!; [exact Hr1|done|done|done|by apply lookup_insert_eq|done|done|done|].
        right. assert (Hidl : is_idle (idle_thread cu) ith w1 = true) by (rewrite (idle_of _ _ _ _ _ Hc1 Hicpu); apply Z.eqb_refl).
        exists (idle_thread cu), ith. split_and!; [done|intros E; by apply Er, Hid|by right|exact Hith|done| |].
        -- replace {[idle_thread cu]} with ({[idle_thread cu]} ∪ (∅ : gset Z)) by set_solver.
           assert (HG' : Good ∅ rho w') by (eapply good_upd_cpu; try exact EU; done). destruct HG' as [A B C D]. split; try done.
           refine (proj1 (lists_exempt ∅ (idle_thread cu) w' ith Hith _) B). unfold where_. by rewrite (idle_upd_cpu _ _ _ _ _ _ EU), Hidl by done.
        -- right. by rewrite (idle_upd_cpu _ _ _ _ _ _ EU) by done.
    + destruct (moved_hdr _ _ _ _ HM Hc1) as (cu2 & Hc2 & Hh). unfold hdr in Hh. injection Hh as Hp2 Hcur2 Hgs2 Hid2.
      rewrite Hc2. cbn [mbind option_bind]. destruct HM as (Hthr & _ & HL2). assert (Hr2 : thr r w2 = Some th1) by (unfold thr; by rewrite Hthr).
      rewrite Hgs2, Hgs, Hr2. cbn [mbind option_bind]. rewrite (proj2 (Z.eqb_neq n 0) Hn0). cbn [andb].
      rewrite Hcpu1, Hc2. cbn [mbind option_bind]. assert (Hn2 : thr n w2 = Some nth) by (unfold thr; by rewrite Hthr).
      rewrite Hn2. cbn [mbind option_bind]. rewrite (upd_cpu_ok _ _ _ _ Hc2). eexists. split; [done|].
      match goal with |- local_to _ _ ?W /\ _ => set (w' := W) end.
      assert (EU : upd_cpu c (fun cu0 => set_us_to_next (slice_us (level_index nth)) (set_current n (set_prev (current cu0) cu0))) w2 = Some w')
        by (by rewrite (upd_cpu_ok _ _ _ _ Hc2)).
      split; [eapply local_trans; [done|]; eapply local_trans; [done|by eapply local_upd_cpu]|].
      eexists th1, _. split_and!; [exact Hr2|done|done|done|by apply lookup_insert_eq|simpl; congruence|simpl; congruence|simpl; congruence|].
      right. exists n, nth. split_and!; [done| |done|exact Hn2|done|eapply good_upd_cpu; try exact EU; done|by left].
      intros ->. rewrite Hr1 in Hn. injection Hn as <-. congruence.
Qed.

(** ** Waking sleepers *)

Lemma asleep_in X rho w c cu t : Good X rho w -> cpu_at c w = Some cu -> t ∈ sleeping_threads cu ->
  exists th, thr t w = Some th /\ status th = Sleeping /\ cpu th = c /\ is_idle t th w = false /\ t ∉ X.
Proof.
  intros [_ HL _ _] Hc Ht. destruct (HL (Asleep c) (sleeping_threads cu)) as [_ H]; [simpl; by rewrite Hc|].
  apply H in Ht as HP. unfold place in HP. case_decide as D; [done|].
  destruct (thr t w) as [th|]; [|done]. simpl in HP. exists th. unfold where_ in HP. destruct (is_idle t th w); [done|].
  destruct (status th); simplify_eq. done.
Qed.

Lemma filter_head (t : Z) ts : NoDup (t :: ts) -> filter (fun x => x <> t) (t :: ts) = ts.
Proof.
  intros [Hn _]%NoDup_cons. rewrite filter_cons_False by (intros H; by apply H). clear -Hn.
  induction ts as [|a ts IH]; [done|]. rewrite not_elem_of_cons in Hn. destruct Hn as [H1 H2]. rewrite filter_cons_True by done. by rewrite IH.
Qed.

Lemma sorted_filter (P : Z -> Z -> Prop) (t : Z) l : StronglySorted P l -> StronglySorted P (filter (fun x => x <> t) l).
Proof.
  intros HS. induction HS as [|a l HS IH Ha]; [constructor|]. rewrite filter_cons. case_decide; [|done]. constructor; [done|].
  rewrite Forall_forall in Ha |- *. intros x Hx. apply list_elem_of_filter in Hx as [_ Hx]. by apply Ha.
Qed.

(** A sleeper is taken out of the list. *)
Lemma good_unsleep X rho c w cu t : Good X rho w -> cpu_at c w = Some cu -> t ∈ sleeping_threads cu ->
  exists w1, upd_cpu c (fun cu => set_sleeping (filter (fun x => x <> t) (sleeping_threads cu)) cu) w = Some w1 /\
    Good ({[t]} ∪ X) rho w1 /\ moved c w w1 /\ list_at (Asleep c) w1 = Some (filter (fun x => x <> t) (sleeping_threads cu)).
Proof.
  intros [HW HL HR HS] Hc Hin. destruct (upd_sleeping_ok c (filter (fun x => x <> t)) w cu Hc) as (w1 & E1 & Hk1 & Ho1).
  assert (HM1 : moved c w w1) by (by eapply moved_upd_cpu).
  destruct (HL (Asleep c) (sleeping_threads cu)) as [ND _]; [simpl; by rewrite Hc|]. exists w1. split_and!; try done. split.
  - eapply wf_upd_cpu; [exact E1|done|done|done].
  - eapply (lists_take X w w1 t (Asleep c) (sleeping_threads cu)); try done; [simpl; by rewrite Hc|apply HM1| | |].
    + intros. by eapply idle_upd_cpu.
    + by apply NoDup_filter.
    + intros u. rewrite list_elem_of_filter. tauto.
  - eapply keeps_run; [apply HM1| |done]. intros. by eapply idle_upd_cpu.
  - eapply keeps_sorted; [exact E1|done|]. intros cu' Hcu'. simpl. by apply sorted_filter, (HS c).
Qed.

(** Waking the first sleeper. *)
Lemma wake_first X rho c w cu t ts th : Good X rho w -> cpu_at c w = Some cu -> sleeping_threads cu = t :: ts -> thr t w = Some th ->
  exists w1 w2 w3 cu3, upd_cpu c (fun cu => set_sleeping (filter (fun x => x <> t) (sleeping_threads cu)) cu) w = Some w1 /\
    upd_thr t (set_status Waiting) w1 = Some w2 /\ queue c t w2 = Some w3 /\ Good X rho w3 /\ local_to c w w3 /\
    cpu_at c w3 = Some cu3 /\ hdr cu3 = hdr cu /\ sleeping_threads cu3 = ts /\
    thr t w3 = Some (set_status Waiting th) /\ (forall u, u <> t -> thr u w3 = thr u w).
Proof.
  intros HG Hc Hts Ht. destruct (asleep_in _ _ _ _ _ t HG Hc ltac:(rewrite Hts; left)) as (th' & Ht' & Hst & Hcpu & Hid & HX).
  rewrite Ht in Ht'. injection Ht' as <-. pose proof HG as [HW HL HR HS].
  destruct (HL (Asleep c) (t :: ts)) as [ND _]; [simpl; rewrite Hc; simpl; by rewrite Hts|].
  destruct (good_unsleep X rho c w cu t HG Hc ltac:(rewrite Hts; left)) as (w1 & E1 & HG1 & HM1 & Hk1). rewrite Hts, filter_head in Hk1 by done.
  assert (Hidle1 : forall u uth, is_idle u uth w1 = is_idle u uth w) by (intros; by eapply idle_upd_cpu).
  assert (Ht1 : thr t w1 = Some th) by (unfold thr; rewrite (proj1 HM1); exact Ht).
  pose proof (upd_thr_ok t (set_status Waiting) w1 th Ht1) as E2. set (w2 := mkWorld _ _ _ _) in E2.
  destruct (proj1 (proj2 (proj2 HW)) t th Ht) as (_ & Hex & Hlev & _).
  assert (HG2 : Good ({[t]} ∪ X) rho w2).
  { eapply good_upd_thr; try exact E2; try done; [set_solver|]. simpl. apply (good_run _ _ _ HG1 t th Ht1). }
  assert (Ht2 : thr t w2 = Some (set_status Waiting th)) by (unfold thr; simpl; apply lookup_insert_eq).
  destruct (good_queue _ rho c t _ w2 HG2 ltac:(set_solver) Ht2) as (w3 & E3 & HG3 & HM3 & HA3).
  { unfold where_. rewrite (idle_upd_thr _ _ _ _ _ _ E2), Hidle1. change (is_idle t (set_status Waiting th) w) with (is_idle t th w). rewrite Hid. simpl. by rewrite Hcpu. }
  replace (({[t]} ∪ X) ∖ {[t]}) with X in HG3 by set_solver.
  destruct (moved_hdr _ _ _ _ HM1 Hc) as (cu1 & Hc1 & Hh1). assert (Hc2 : cpu_at c w2 = Some cu1) by exact Hc1.
  destruct (moved_hdr _ _ _ _ HM3 Hc2) as (cu3 & Hc3 & Hh3). exists w1, w2, w3, cu3. split_and!; try done.
  - eapply local_trans; [apply HM1|]. eapply local_trans; [by eapply local_upd_thr|apply HM3].
  - congruence.
  - simpl in HA3, Hk1. rewrite Hc3, Hc2 in HA3. rewrite Hc1 in Hk1. simpl in *. congruence.
  - unfold thr. by rewrite (proj1 HM3).
  - intros u Hu. unfold thr. rewrite (proj1 HM3). simpl. rewrite lookup_insert_ne by done. by rewrite (proj1 HM1).
Qed.

(** The threads of [ts] that are due are ready, the others are as before. *)
Definition woken (ts : list Z) (now : Z) (w w' : world) : Prop := forall t, thr t w' =
  if decide (t ∈ ts) then th ← thr t w; Some (if sleep_end th >? now then th else set_status Waiting th) else thr t w.

Lemma wake_loop_ok X rho c now ts : forall w cu, Good X rho w -> cpu_at c w = Some cu -> sleeping_threads cu = ts ->
  exists e w' cu', wake_loop ts c c now w = Some (e, w') /\ Good X rho w' /\ local_to c w w' /\ cpu_at c w' = Some cu' /\ hdr cu' = hdr cu /\
    woken ts now w w' /\ sleeping_threads cu' = filter (fun t => now < sleep_key w t) ts /\
    e = match sleeping_threads cu' with [] => 2 ^ 64 - 1 | t :: _ => sleep_key w t end.
Proof.
  induction ts as [|t ts IH]; intros w cu HG Hc Hts.
  - exists (2 ^ 64 - 1), w, cu. split_and!; try done; try (by rewrite Hts).
  - destruct (asleep_in _ _ _ _ _ t HG Hc ltac:(rewrite Hts; left)) as (th & Ht & _ & Hcpu & _). cbn [wake_loop]. rewrite Ht. cbn [mbind option_bind].
    assert (Hkey : sleep_key w t = sleep_end th) by (unfold sleep_key; by rewrite Ht).
    pose proof (good_sorted _ _ _ HG c cu Hc) as HS. rewrite Hts in HS. apply StronglySorted_inv in HS as [HS Hall]. rewrite Forall_forall in Hall.
    destruct (sleep_end th >? now) eqn:E.
    + apply Z.gtb_lt in E. exists (sleep_end th), w, cu. assert (Hlate : forall u, u ∈ t :: ts -> now < sleep_key w u).
      { intros u [->|Hu]%elem_of_cons; [lia|]. specialize (Hall u Hu). simpl in Hall. lia. }
      split_and!; try done.
      * intros u. case_decide as D; [|done]. destruct (thr u w) as [uth|] eqn:Hu; simpl; [|done].
        specialize (Hlate u D). unfold sleep_key in Hlate. rewrite Hu in Hlate. by rewrite (proj2 (Z.gtb_lt _ _) Hlate).
      * rewrite Hts. symmetry. clear -Hlate. induction (t :: ts) as [|a l IHl]; [done|].
        rewrite filter_cons_True by (apply Hlate; left). f_equal. apply IHl. intros. apply Hlate. by right.
      * by rewrite Hts.
    + rewrite Z.gtb_ltb in E. apply Z.ltb_ge in E.
      destruct (wake_first X rho c w cu t ts th HG Hc Hts Ht) as (w1 & w2 & w3 & cu3 & -> & E2 & E3 & HG3 & HL3 & Hc3 & Hh3 & Hs3 & Ht3 & Ho3).
      cbn [mbind option_bind]. rewrite E2. cbn [mbind option_bind]. rewrite Hcpu, Z.eqb_refl. cbn [assert mbind option_bind].
      rewrite E3. cbn [mbind option_bind]. destruct (IH w3 cu3 HG3 Hc3 Hs3) as (e & w' & cu' & -> & HG' & HL' & Hc' & Hh' & Hw' & Hs' & He').
      assert (Htn : t ∉ ts).
      { destruct (good_lists _ _ _ HG (Asleep c) (t :: ts)) as [ND _]; [simpl; rewrite Hc; simpl; by rewrite Hts|]. by apply NoDup_cons in ND as [? _]. }
      assert (Hkey3 : forall u, u <> t -> sleep_key w3 u = sleep_key w u) by (intros u Hu; unfold sleep_key; by rewrite Ho3).
      assert (Hf : filter (fun u => now < sleep_key w3 u) ts = filter (fun u => now < sleep_key w u) (t :: ts)).
      { rewrite filter_cons_False by (rewrite Hkey; lia). clear -Hkey3 Htn. induction ts as [|a l IHl]; [done|].
        rewrite not_elem_of_cons in Htn. destruct Htn as [H1 H2]. rewrite !filter_cons, Hkey3, IHl by done. done. }
      exists e, w', cu'. split_and!; try done; [by eapply local_trans|congruence| |by rewrite Hs'|].
      * intros u. rewrite Hw'. destruct (decide (u = t)) as [->|Hu].
        -- rewrite decide_False, decide_True by (done || left). rewrite Ht3, Ht. simpl. by rewrite Z.gtb_ltb, (proj2 (Z.ltb_ge _ _) E).
        -- rewrite Ho3 by done. destruct (decide (u ∈ ts)); [rewrite decide_True by (by right)|rewrite decide_False by (rewrite elem_of_cons; tauto)]; done.
      * rewrite He', Hs', Hf. destruct (filter _ (t :: ts)) as [|u us] eqn:Eu; [done|]. apply Hkey3.
        intros ->. rewrite filter_cons_False in Eu by (rewrite Hkey; lia). apply Htn.
        assert (Hin : t ∈ filter (fun u => now < sleep_key w u) ts) by (rewrite Eu; left). by apply list_elem_of_filter in Hin as [_ ?].
Qed.

Lemma enable_preemption_ok X rho c now w cu nth : Good X rho w -> cpu_at c w = Some cu -> thr (current cu) w = Some nth ->
  exists w' cu', enable_preemption c c now w = Some w' /\ Good X rho w' /\ local_to c w w' /\ cpu_at c w' = Some cu' /\ hdr cu' = hdr cu /\
    woken (sleeping_threads cu) now w w' /\
    sleeping_threads cu' = filter (fun t => now < sleep_key w t) (sleeping_threads cu) /\
    tick cu' = Some (Z.min (match sleeping_threads cu' with [] => 2 ^ 64 - 1 | t :: _ => sleep_key w t end ⊟ now) (slice_us (level_index nth))).
Proof.
  intros HG Hc Hn. unfold enable_preemption. rewrite Hc. cbn [mbind option_bind].
  destruct (wake_loop_ok X rho c now _ w cu HG Hc eq_refl) as (e & w1 & cu1 & -> & HG1 & HL1 & Hc1 & Hh1 & Hw1 & Hs1 & He1).
  cbn [mbind option_bind]. rewrite Hc1. cbn [mbind option_bind]. pose proof Hh1 as Hh. unfold hdr in Hh. injection Hh as _ Hcur _ _. rewrite Hcur.
  assert (Hn1 : exists nth1, thr (current cu) w1 = Some nth1 /\ level_index nth1 = level_index nth).
  { rewrite Hw1. case_decide; rewrite Hn; simpl; eexists; (split; [done|]); [by destruct (sleep_end nth >? now)|done]. }
  destruct Hn1 as (nth1 & -> & Hlev). cbn [mbind option_bind]. rewrite Hlev. set (a := Z.min _ _).
  destruct (upd_cpu_ex c (set_irq_period a) w1 cu1 Hc1) as (w2 & E2 & Hc2 & Ht2). rewrite E2. cbn [mbind option_bind].
  destruct (upd_cpu_ex c (oneshot a) w2 _ Hc2) as (w3 & E3 & Hc3 & Ht3). rewrite E3.
  exists w3. eexists. split_and!; [done| | |exact Hc3|done| |done|].
  - eapply good_upd_cpu; [|exact E3|done|done|done]. by eapply good_upd_cpu; [|exact E2|..].
  - eapply local_trans; [done|]. eapply local_trans; by eapply local_upd_cpu.
  - intros t. rewrite Ht3, Ht2. apply Hw1.
  - simpl. unfold a. rewrite He1. done.
Qed.

(** ** The invariant between operations *)

Definition cur_of (w : world) (c : Z) : Z := match cpu_at c w with Some cu => current cu | None => 0 end.

(** The thread register, [current] and the status of the running thread agree. *)
Definition Current (c : Z) (w : world) : Prop := forall cu, cpu_at c w = Some cu -> gs cu = current cu /\
  exists th, thr (current cu) w = Some th /\ cpu th = c /\ status th = Running /\ move_lock th = false.

Definition Inv (w : world) : Prop := Good ∅ (cur_of w, cur_of w) w /\ forall c, Current c w.

Lemma current_local c w w' c' : local_to c w w' -> c' <> c -> Current c' w -> Current c' w'.
Proof.
  intros (H1 & _ & H3) Hn HC cu. rewrite H1 by done. intros Hcu. destruct (HC cu Hcu) as [Hg (th & Ht & Hc & Hr)]. split; [done|].
  exists th. split_and!; try apply Hr; try done. apply H3; [done|congruence].
Qed.

Lemma cur_local c w w' c' : local_to c w w' -> c' <> c -> cur_of w' c' = cur_of w c'.
Proof. intros (H1 & _) Hn. unfold cur_of. by rewrite H1. Qed.

(** Threads change who runs: [n] instead of [r] on CPU [c]. *)
Lemma good_rename X rho rho' w : Good X rho w -> RunAs rho' w -> Good X rho' w.
Proof. intros [? ? _ ?] ?. by split. Qed.

(** The old thread goes back to its ready list if it can run on. *)
Lemma requeue_ok c r n w1 rth cu rho : Good {[n]} rho w1 -> cpu_at c w1 = Some cu -> n <> r -> thr r w1 = Some rth -> cpu rth = c ->
  rho.2 c = r ->
  exists w2 cu2 rth2, (if negb (r =? idle_thread cu) && bool_decide (status rth = Running) then
      w ← upd_thr r (set_status Waiting) w1; queue c r w else Some w1) = Some w2 /\ Good {[n]} rho w2 /\ local_to c w1 w2 /\
    cpu_at c w2 = Some cu2 /\ hdr cu2 = hdr cu /\ thr r w2 = Some rth2 /\ cpu rth2 = c /\ (forall u, u <> r -> thr u w2 = thr u w1) /\
    (status rth2 = Running -> r = idle_thread cu).
Proof.
  intros HG Hc Hnr Hr Hrc Hrho. destruct (negb (r =? idle_thread cu) && bool_decide (status rth = Running)) eqn:EQ.
  - apply andb_true_iff in EQ as [Hni%negb_true_iff Hrun%bool_decide_eq_true].
    destruct (upd_thr_ex r (set_status Waiting) w1 rth Hr) as (w2 & E2 & Hr2 & Ho2 & Hcs2). rewrite E2. cbn [mbind option_bind].
    destruct (proj1 (proj2 (proj2 (good_wf _ _ _ HG))) r rth Hr) as (_ & _ & Hlev & _).
    assert (HX : Good ({[r]} ∪ {[n]}) rho w1).
    { destruct HG as [A B C D]. split; try done. refine (proj1 (lists_exempt _ r w1 _ Hr _) B). unfold where_. rewrite Hrun. by destruct (is_idle _ _ _). }
    assert (HG2 : Good ({[r]} ∪ {[n]}) rho w2).
    { eapply good_upd_thr; try exact E2; try done; [set_solver|simpl; intros _; by rewrite Hrc]. }
    assert (Hc2 : cpu_at c w2 = Some cu) by (by rewrite Hcs2).
    destruct (good_queue _ rho c r _ w2 HG2 ltac:(set_solver) Hr2) as (w3 & E3 & HG3 & HM3 & _).
    { unfold where_. rewrite (idle_of w2 c cu) by done. rewrite Hni. simpl. by rewrite Hrc. }
    replace (({[r]} ∪ {[n]}) ∖ {[r]}) with ({[n]} : gset Z) in HG3 by set_solver.
    destruct (moved_hdr _ _ _ _ HM3 Hc2) as (cu3 & Hc3 & Hh3). assert (Ht3 : forall u, thr u w3 = thr u w2) by (intros u; unfold thr; by rewrite (proj1 HM3)).
    exists w3, cu3. eexists. split_and!; [done|done| |done|done|rewrite Ht3; exact Hr2|done| |done].
    + eapply local_trans; [by eapply local_upd_thr|apply HM3].
    + intros u Hu. by rewrite Ht3, Ho2.
  - exists w1, cu, rth. split_and!; try done. intros Hrun.
    rewrite Hrun, bool_decide_eq_true_2, andb_true_r in EQ by done. apply negb_false_iff, Z.eqb_eq in EQ. done.
Qed.

(** [do_schedule] after [update_schedule]. *)
Lemma do_schedule_ok c r n w rth nth cu rho :
  Good {[n]} rho w -> cpu_at c w = Some cu -> prev cu = r -> current cu = n -> gs cu = r -> n <> r ->
  thr r w = Some rth -> cpu rth = c -> thr n w = Some nth -> cpu nth = c -> (status nth = Waiting \/ is_idle n nth w = true) ->
  rho.1 c = r -> rho.2 c = r ->
  exists w' cu', do_schedule c w = Some w' /\ local_to c w w' /\ cpu_at c w' = Some cu' /\ current cu' = n /\ Current c w' /\
    forall rho', rho'.1 c = n -> rho'.2 c = n -> (forall c', c' <> c -> rho'.1 c' = rho.1 c' /\ rho'.2 c' = rho.2 c') -> Good ∅ rho' w'.
Proof.
  intros HG Hc Hprev Hcur Hgs Hnr Hr Hrc Hn Hnc Hnst Hrho1 Hrho2. unfold do_schedule. rewrite Hc. cbn [mbind option_bind].
  rewrite Hprev, Hcur, (proj2 (Z.eqb_neq r n)) by done.
  destruct (upd_thr_ex r (set_move_lock true) w rth Hr) as (w1 & E1 & Hr1 & Ho1 & Hcs1). rewrite E1. cbn [mbind option_bind].
  destruct (proj1 (proj2 (proj2 (good_wf _ _ _ HG))) r rth Hr) as (_ & Hrex & Hrlev & _).
  assert (HG1 : Good {[n]} rho w1).
  { eapply good_upd_thr; try exact E1; try done; [by right|simpl; apply (good_run _ _ _ HG r rth Hr)|simpl; by rewrite Hrc]. }
  assert (Hn1 : thr n w1 = Some nth) by (by rewrite Ho1). assert (Hc1 : cpu_at c w1 = Some cu) by (by rewrite Hcs1).
  rewrite Hr1. cbn [mbind option_bind]. change (cpu (set_move_lock true rth)) with (cpu rth). rewrite Hrc, Hc1. cbn [mbind option_bind].
  rewrite (wf_not_killed _ _ (good_wf _ _ _ HG1)). change (exited (set_move_lock true rth)) with (exited rth). rewrite Hrex. cbn [orb].
  change (status (set_move_lock true rth)) with (status rth).
  destruct (requeue_ok c r n w1 (set_move_lock true rth) cu rho HG1 Hc1 Hnr Hr1 Hrc Hrho2)
    as (w2 & cu2 & rth2 & E2 & HG2 & HL2 & Hc2 & Hh2 & Hr2 & Hrc2 & Hoth2 & Hri2). change (status (set_move_lock true rth)) with (status rth) in E2.
  rewrite E2. cbn [mbind option_bind]. assert (Hn2 : thr n w2 = Some nth) by (by rewrite Hoth2).
  destruct (upd_thr_ex n (set_status Running) w2 nth Hn2) as (w3 & E3 & Hn3 & Ho3 & Hcs3). rewrite E3. cbn [mbind option_bind].
  assert (Hc3 : cpu_at c w3 = Some cu2) by (by rewrite Hcs3).
  destruct (upd_cpu_ex c (set_gs n) w3 cu2 Hc3) as (w4 & E4 & Hc4 & Ht4). rewrite E4. cbn [mbind option_bind].
  assert (Hr4 : thr r w4 = Some rth2) by (rewrite Ht4, Ho3; done).
  destruct (upd_thr_ex r (set_move_lock false) w4 rth2 Hr4) as (w5 & E5 & Hr5 & Ho5 & Hcs5). rewrite E5.
  assert (Hc5 : cpu_at c w5 = Some (set_gs n cu2)) by (by rewrite Hcs5).
  unfold hdr in Hh2. injection Hh2 as Hp2 Hcu2 Hg2 Hi2.
  assert (Hn5 : thr n w5 = Some (set_status Running nth)) by (by rewrite Ho5, Ht4).
  assert (Hmn : move_lock nth = false).
  { destruct (move_lock nth) eqn:Em; [|done]. destruct (good_run _ _ _ HG n nth Hn) as [_ H]. specialize (H Em). congruence. }
  exists w5, (set_gs n cu2). split_and!; [done| |done|simpl; congruence| |].
  - eapply local_trans; [by eapply local_upd_thr|]. eapply local_trans; [done|].
    eapply local_trans; [by eapply (local_upd_thr c n)|]. eapply local_trans; [by eapply local_upd_cpu|]. by eapply (local_upd_thr c r).
  - intros cu' Hcu'. rewrite Hc5 in Hcu'. injection Hcu' as <-. simpl. split; [congruence|]. exists (set_status Running nth).
    rewrite Hcu2, Hcur. done.
  - intros rho' H1 H2 Ho. destruct (proj1 (proj2 (proj2 (good_wf _ _ _ HG2))) n nth Hn2) as (_ & _ & Hnlev & _).
    destruct (proj1 (proj2 (proj2 (good_wf _ _ _ HG2))) r rth2 Hr2) as (_ & _ & Hrlev2 & _).
    assert (HR2 : RunAs (rho'.1, rho.2) w2).
    { intros t th Ht. destruct (good_run _ _ _ HG2 t th Ht) as [A B]. simpl. split; [|done]. intros Hrun. specialize (A Hrun).
      destruct (decide (cpu th = c)) as [E|E]; [|rewrite (proj1 (Ho _ E)); done]. right. destruct A as [A|A]; [|done].
      rewrite E, Hrho1 in A. subst t. rewrite Hr2 in Ht. injection Ht as <-. rewrite (idle_of w2 c cu2) by done. apply Z.eqb_eq. rewrite Hi2. auto. }
    assert (HG3 : Good {[n]} (rho'.1, rho.2) w3).
    { eapply good_upd_thr; [eapply good_rename; [exact HG2|exact HR2]|exact E3|done|done|done|done|left; set_solver| |simpl; congruence|done]. simpl. rewrite Hnc. auto. }
    assert (HG3' : Good ∅ (rho'.1, rho.2) w3).
    { destruct HG3 as [A B C D]. split; try done. refine (proj2 (lists_exempt ∅ n w3 _ Hn3 _) _).
      - unfold where_. by destruct (is_idle n (set_status Running nth) w3).
      - by replace ({[n]} ∪ ∅) with ({[n]} : gset Z) by set_solver. }
    assert (HG4 : Good ∅ (rho'.1, rho.2) w4) by (eapply good_upd_cpu; [exact HG3'|exact E4|done|done|done]).
    assert (HG5 : Good ∅ (rho'.1, rho.2) w5).
    { eapply good_upd_thr; [exact HG4|exact E5|done|done|done|done|by right| |done|done]. simpl. intros Hrun. right.
      rewrite (idle_of w4 c (set_gs n cu2)) by done. apply Z.eqb_eq. simpl. rewrite Hi2. auto. }
    eapply good_rename; [exact HG5|]. intros t th Ht. destruct (good_run _ _ _ HG5 t th Ht) as [A B]. simpl in *. split; [done|].
    intros Hm. destruct (decide (cpu th = c)) as [E|E]; [|rewrite (proj2 (Ho _ E)); auto]. specialize (B Hm). rewrite E, Hrho2 in B.
    subst t. rewrite Hr5 in Ht. injection Ht as <-. done.
Qed.

(** ** The tail of an operation *)

Lemma inv_finish w0 w c : Inv w0 -> local_to c w0 w -> Current c w ->
  Good ∅ (cur_of w, cur_of w) w -> Inv w.
Proof.
  intros [_ HC] HL Hc HG. split; [done|]. intros c'. destruct (decide (c' = c)) as [->|N]; [done|]. by eapply current_local.
Qed.

Lemma cur_of_at w c cu : cpu_at c w = Some cu -> cur_of w c = current cu.
Proof. intros H. unfold cur_of. by rewrite H. Qed.

Lemma good_ext X rho rho' w : (forall c, rho'.1 c = rho.1 c) -> (forall c, rho'.2 c = rho.2 c) -> Good X rho w -> Good X rho' w.
Proof. intros H1 H2 HG. eapply good_rename; [exact HG|]. intros t th Ht. rewrite H1, H2. by apply (good_run _ _ _ HG). Qed.

(** From the running thread's change to the switch.  [en] is [enable_preemption],
    which the idle thread leaves out. *)
Lemma switch_ok w0 w c r th cu now (en : bool) : Inv w0 -> local_to c w0 w -> cur_of w0 c = r ->
  Good ∅ (cur_of w0, cur_of w0) w -> At c r th cu w ->
  (r = idle_thread cu -> status th = Running) -> status th <> Waiting -> (status th = Running -> move_lock th = false) ->
  exists w1 w2 w' cu1 th1 cu', update_schedule c w = Some w1 /\ cpu_at c w1 = Some cu1 /\ thr (current cu1) w1 = Some th1 /\ cpu th1 = c /\
    (if en then enable_preemption c c now w1 else Some w1) = Some w2 /\ do_schedule c w2 = Some w' /\ Inv w' /\ local_to c w0 w' /\
    cpu_at c w' = Some cu' /\ ((status th = Running /\ current cu' = r) \/ (current cu' <> r /\ chosen cu (current cu'))) /\
    calm_but (fun t => t = r /\ status th = Running) w w'.
Proof.
  intros HI HL Hr0 HG HA Hid Hnw Hmv.
  destruct (update_schedule_ok _ c r th cu w HG HA Hr0 Hid Hnw) as (w1 & E1 & HL1 & (th' & cu1 & Hr1 & Hc1 & Hst1 & Hmv1 & Hcu1 & Hgs1 & Hp1 & Hi1 & Hcase)).
  assert (Hcur : exists cth, thr (current cu1) w1 = Some cth /\ cpu cth = c).
  { destruct Hcase as [(_ & -> & _)|(n & nth & -> & _ & _ & Hn & Hnc & _)]; eauto. }
  destruct Hcur as (cth & Hcth & Hcthc). pose proof HA as (HcA & HcurA & HgsA & _).
  pose proof (calm_chg (fun t => t = r /\ status th = Running) _ _ (chg_update_schedule c w w1 cu (proj1 (proj2 (good_wf _ _ _ HG))) HcA ltac:(congruence) E1)) as HK1.
  assert (HE : forall X rho, Good X rho w1 -> exists w2 cu2, (if en then enable_preemption c c now w1 else Some w1) = Some w2 /\ Good X rho w2 /\
    local_to c w1 w2 /\ cpu_at c w2 = Some cu2 /\ hdr cu2 = hdr cu1 /\
    (forall t tth, thr t w1 = Some tth -> exists tth', thr t w2 = Some tth' /\ cpu tth' = cpu tth /\
       (tth' = tth \/ (status tth = Sleeping /\ status tth' = Waiting)))).
  { intros X rho HGX. destruct en.
    - destruct (enable_preemption_ok X rho c now w1 cu1 cth HGX Hcu1 Hcth) as (w2 & cu2 & E2 & HG2 & HL2 & Hc2 & Hh2 & Hw2 & _).
      exists w2, cu2. split_and!; try done. intros t tth Ht. rewrite Hw2. case_decide as D; rewrite Ht; simpl; [|eauto].
      destruct (asleep_in _ _ _ _ _ t HGX Hcu1 D) as (sth & Hsth & Hss & _). rewrite Ht in Hsth. injection Hsth as <-.
      eexists. split; [done|]. destruct (sleep_end tth >? now); simpl; auto.
    - exists w1, cu1. split_and!; try done. eauto. }
  destruct Hcase as [(Hrun & Hcur & HG1)|(n & nth & Hcur & Hnr & Hch & Hn & Hnc & HG1 & Hnst)].
  - destruct (HE _ _ HG1) as (w2 & cu2 & E2 & HG2 & HL2 & Hc2 & Hh2 & Hth2).
    pose proof (calm_woken (fun t => t = r /\ status th = Running) c w1 w2 cu1 cu2 HL2 Hcu1 Hc2 Hh2 Hth2) as HK2.
    unfold hdr in Hh2. injection Hh2 as Hp2 Hcur2 Hgs2 _.
    destruct (Hth2 r th' Hr1) as (th2 & Hr2 & Hrc2 & [->|[Hs _]]); [|congruence].
    assert (HLall : local_to c w0 w2) by (eapply local_trans; [exact HL|]; eapply local_trans; [exact HL1|exact HL2]).
    exists w1, w2, w2, cu1, cth, cu2. split_and!; try done.
    + unfold do_schedule. rewrite Hc2. cbn [mbind option_bind]. by rewrite Hp2, Hcur2, Hp1, Hcur, Z.eqb_refl.
    + eapply (inv_finish w0 w2 c); [done|done| |].
      * intros cu' Hcu'. rewrite Hc2 in Hcu'. injection Hcu' as <-. split; [congruence|]. exists th'. rewrite Hcur2, Hcur. split_and!; [done|done|congruence|]. rewrite Hmv1. auto.
      * eapply good_ext; [| |exact HG2]; intros c'; simpl; (destruct (decide (c' = c)) as [->|N]; [rewrite (cur_of_at _ _ _ Hc2); congruence|]);
          by apply (cur_local c).
    + left. split; [done|congruence].
    + by eapply calm_trans.
  - destruct (HE _ _ HG1) as (w2 & cu2 & E2 & HG2 & HL2 & Hc2 & Hh2 & Hth2).
    pose proof (calm_woken (fun t => t = r /\ status th = Running) c w1 w2 cu1 cu2 HL2 Hcu1 Hc2 Hh2 Hth2) as HK2.
    unfold hdr in Hh2. injection Hh2 as Hp2 Hcur2 Hgs2 Hi2.
    destruct (Hth2 r th' Hr1) as (rth2 & Hr2 & Hrc2 & _). destruct (Hth2 n nth Hn) as (nth2 & Hn2 & Hnc2 & Hnth2).
    assert (Hns : status nth2 = Waiting \/ is_idle n nth2 w2 = true).
    { destruct Hnth2 as [->|[_ ?]]; [|by left]. destruct Hnst as [?|Hi]; [by left|]. right.
      rewrite (idle_of w1 c cu1) in Hi by done. rewrite (idle_of w2 c cu2) by done. by rewrite Hi2. }
    destruct (do_schedule_ok c r n w2 rth2 nth2 cu2 _ HG2 Hc2) as (w' & cu' & E' & HL' & Hc' & Hcur' & HCur & HG');
      [congruence|congruence|congruence|done|done|congruence|done|congruence|done|done|done|].
    assert (HLall : local_to c w0 w').
    { eapply local_trans; [exact HL|]. eapply local_trans; [exact HL1|]. by eapply local_trans. }
    exists w1, w2, w', cu1, cth, cu'. split_and!; try done.
    + eapply (inv_finish w0 w' c); [done|done|done|]. apply HG'; simpl; [rewrite (cur_of_at _ _ _ Hc'); done..|].
      intros c' N. by rewrite (cur_local c w0 w' c').
    + right. rewrite Hcur'. done.
    + eapply calm_trans; [exact HK1|]. eapply calm_trans; [exact HK2|].
      eapply calm_weaken; [|eapply (calm_switch c w2 w' cu2 nth2 (good_wf _ _ _ HG2) Hc2)]; [|congruence|by rewrite Hcur2, Hcur| |done].
      * intros t (-> & tth & Htth & Hrun). split; [congruence|]. rewrite Hp2, Hp1, Hr2 in Htth. injection Htth as <-.
        destruct (Hth2 r th' Hr1) as (x & Hx & _ & Hxs). rewrite Hr2 in Hx. injection Hx as <-. destruct Hxs as [->|[_ Hxs]]; congruence.
      * intros tth Htth. rewrite Hcur2, Hcur, <- Hcur' in Htth. destruct (HCur cu' Hc') as [_ (tth' & Htth' & _ & Hrun & _)]. congruence.
Qed.

(** ** Operations *)

(** An operation in progress: the running thread [r] of [c] has record [th]. *)
Definition local_by (c r : Z) (w0 w : world) : Prop :=
  local_to c w0 w /\ (forall t, t <> r -> thr t w = thr t w0) /\ (forall c, hdr <$> cpu_at c w = hdr <$> cpu_at c w0).

Lemma local_by_thr c r f w0 w w' th : local_by c r w0 w -> upd_thr r f w = Some w' -> thr r w = Some th -> cpu th = c -> cpu (f th) = c ->
  local_by c r w0 w'.
Proof.
  intros (A & B & C) E Ht Hc Hf. split_and!.
  - eapply local_trans; [done|]. by eapply local_upd_thr.
  - intros t Hn. rewrite (thr_upd_thr _ _ _ _ _ t E Ht), decide_False by done. auto.
  - intros c'. by rewrite (cpu_upd_thr _ _ _ _ _ E).
Qed.

Lemma local_by_cpu c r f w0 w w' : local_by c r w0 w -> upd_cpu c f w = Some w' -> (forall cu, hdr (f cu) = hdr cu) -> local_by c r w0 w'.
Proof.
  intros (A & B & C) E Hf. split_and!.
  - eapply local_trans; [done|]. by eapply local_upd_cpu.
  - intros t Hn. rewrite (thr_upd_cpu _ _ _ _ _ E). auto.
  - intros c'. destruct (cpu_at c w) as [cu|] eqn:Hc; [|by unfold upd_cpu in E; rewrite Hc in E].
    rewrite (cpu_upd_cpu _ _ _ _ _ c' E Hc). case_decide as D; [|auto]. subst c'. rewrite <- C, Hc. simpl. by rewrite Hf.
Qed.

Definition Op (w0 : world) (c r : Z) (th : Thread) (cu : Cpu) (w : world) : Prop :=
  Inv w0 /\ cur_of w0 c = r /\ local_by c r w0 w /\ Good ∅ (cur_of w0, cur_of w0) w /\ At c r th cu w.

Lemma op_start w c cu : Inv w -> cpu_at c w = Some cu ->
  exists th, Op w c (current cu) th cu w /\ status th = Running /\ move_lock th = false.
Proof.
  intros HI Hc. pose proof HI as [HG HC]. destruct (HC c cu Hc) as [Hg (th & Ht & Hcpu & Hst & Hm)].
  exists th. split; [|done]. split_and!; try done. by apply cur_of_at.
Qed.

Lemma op_thr w0 c r th cu w f : Op w0 c r th cu w -> cpu (f th) = cpu th -> exited (f th) = exited th ->
  0 <= level_index (f th) < SCHED_LEVELS -> where_ r (f th) w = where_ r th w -> sleep_end (f th) = sleep_end th ->
  exists w', upd_thr r f w = Some w' /\ Op w0 c r (f th) cu w'.
Proof.
  intros (HI & Hr0 & HL & HG & (Hc & Hcur & Hgs & Hr & Hcpu)) H1 H2 H3 H4 H5.
  destruct (upd_thr_ex r f w th Hr) as (w' & E & Hr' & _ & Hcs). exists w'. split; [done|]. split_and!; [done|done| | |].
  - eapply local_by_thr; [done|exact E|done|done|congruence].
  - eapply good_upd_thr; [exact HG|exact E|done|done|done|done|by right| | |done]; simpl; intros _; rewrite Hcpu; auto.
  - split_and!; try done; [by rewrite Hcs|congruence].
Qed.

Lemma op_cpu w0 c r th cu w f : Op w0 c r th cu w -> levels (f cu) = levels cu -> (forall cu, levels (f cu) = levels cu) ->
  (forall cu, sleeping_threads (f cu) = sleeping_threads cu) -> (forall cu, hdr (f cu) = hdr cu) ->
  exists w', upd_cpu c f w = Some w' /\ Op w0 c r th (f cu) w'.
Proof.
  intros (HI & Hr0 & HL & HG & (Hc & Hcur & Hgs & Hr & Hcpu)) _ H1 H2 H3.
  destruct (upd_cpu_ex c f w cu Hc) as (w' & E & Hc' & Ht). exists w'. split; [done|].
  pose proof (H3 cu) as Hh. unfold hdr in Hh. injection Hh as Hp Hcu Hg Hi. split_and!; [done|done| | |].
  - by eapply local_by_cpu.
  - eapply good_upd_cpu; [exact HG|exact E|done|done|]. intros cu'. pose proof (H3 cu') as Hh'. unfold hdr in Hh'. by injection Hh'.
  - split_and!; try done; [congruence|congruence|by rewrite Ht].
Qed.

Lemma op_lev w0 c r th cu w : Op w0 c r th cu w -> 0 <= level_index th < SCHED_LEVELS.
Proof. intros (_ & _ & _ & HG & (_ & _ & _ & Hr & _)). by destruct (proj1 (proj2 (proj2 (good_wf _ _ _ HG))) r th Hr) as (_ & _ & ? & _). Qed.

Lemma op_raise w0 c r th cu w : Op w0 c r th cu w -> status th <> Waiting ->
  exists w' th', raise_level r w = Some w' /\ Op w0 c r th' cu w' /\ status th' = status th /\ move_lock th' = move_lock th.
Proof.
  intros HO Hst. pose proof HO as (_ & _ & _ & _ & (_ & _ & _ & Hr & _)). unfold raise_level. rewrite Hr. cbn [mbind option_bind].
  pose proof (op_lev _ _ _ _ _ _ HO) as Hl. destruct (negb (pin_level th) && (level_index th >? 0)) eqn:E; [|exists w, th; done].
  apply andb_true_iff in E as [_ E%Z.gtb_lt].
  destruct (op_thr w0 c r th cu w (set_level (level_index th - 1)) HO) as (w' & E' & HO'); try done; [simpl; lia| |].
  - unfold where_, is_idle. simpl. by destruct (status th).
  - exists w'. eexists. split_and!; [exact E'|exact HO'|done|done].
Qed.

Lemma calm_op w0 w w' c r th cu : local_by c r w0 w -> At c r th cu w -> calm_but (fun t => t = r) w w' -> calm_but (fun t => t = r) w0 w'.
Proof.
  intros (A & B & C) (_ & _ & _ & Hr & _) HK. eapply calm_trans; [|exact HK]. apply calm_others; [done| |done].
  pose proof (proj1 (proj2 A) r) as H. rewrite Hr in H. destruct (thr r w0) as [th0|]; [|done]. simpl in H. injection H as H. eauto 6.
Qed.

Lemma reschedule_ok w0 c r th cu w now : Op w0 c r th cu w ->
  (r = idle_thread cu -> status th = Running) -> status th <> Waiting -> (status th = Running -> move_lock th = false) ->
  exists w' cu', reschedule c now w = Some w' /\ Inv w' /\ cpu_at c w' = Some cu' /\
    ((status th = Running /\ current cu' = r) \/ (current cu' <> r /\ chosen cu (current cu'))) /\
    calm_but (fun t => t = r) w0 w' /\ (status th = Blocked -> exists th', thr r w' = Some th' /\ status th' = Blocked).
Proof.
  intros (HI & Hr0 & HL & HG & HA) Hid Hnw Hmv.
  destruct (switch_ok w0 w c r th cu now true HI (proj1 HL) Hr0 HG HA Hid Hnw Hmv) as (w1 & w2 & w' & cu1 & th1 & cu' & E1 & Hc1 & Ht1 & Hcpu1 & E2 & E3 & HI' & _ & Hc' & Hcase & HK).
  exists w', cu'. split_and!; try done; [|eapply calm_op; [exact HL|exact HA|]; eapply calm_weaken; [|exact HK]; by intros t [? _]|].
  2: { intros Hb. destruct HA as (HcA & _ & _ & Hr & Hcpu). destruct (proj2 HK r th Hr) as (th' & Ht' & _ & Hs).
    { rewrite (idle_of w c cu) by done. apply Z.eqb_neq. intros E. specialize (Hid E). congruence. }
    exists th'. split; [done|]. unfold calm in Hs. destruct Hs as [[_ Hs]|[Hs|[[Hs _]|[Hs _]]]]; congruence. }
  unfold reschedule. rewrite E1. cbn [mbind option_bind]. rewrite Hc1. cbn [mbind option_bind].
  rewrite Ht1. cbn [mbind option_bind]. rewrite Hcpu1, E2. cbn [mbind option_bind]. done.
Qed.

Lemma on_timer_ok w c cu now : Inv w -> cpu_at c w = Some cu ->
  exists w' cu', on_timer c now w = Some w' /\ Inv w' /\ cpu_at c w' = Some cu' /\
    (current cu' = current cu \/ chosen cu (current cu')) /\ calm_but (fun t => t = current cu) w w'.
Proof.
  intros HI Hc. destruct (op_start w c cu HI Hc) as (th & (_ & Hr0 & HL & HG & HA) & Hst & Hm). pose proof HA as (_ & _ & _ & Hr & _).
  destruct (switch_ok w w c _ th cu now true HI (proj1 HL) Hr0 HG HA ltac:(done) ltac:(congruence) ltac:(done))
    as (w1 & w2 & w' & cu1 & th1 & cu' & E1 & _ & _ & _ & E2 & E3 & HI' & _ & Hc' & Hcase & HK).
  exists w', cu'. split_and!; try done; [|tauto|eapply calm_weaken; [|exact HK]; by intros t [? _]]. unfold on_timer. rewrite Hc. cbn [mbind option_bind]. rewrite Hr. cbn [mbind option_bind].
  rewrite Hst. change (assert (bool_decide (Running = Running))) with (Some tt). cbn [mbind option_bind]. rewrite E1. cbn [mbind option_bind].
  rewrite E2. cbn [mbind option_bind]. done.
Qed.

Lemma yield_ok w c cu now : Inv w -> cpu_at c w = Some cu ->
  exists w' cu', yield_ c now w = Some w' /\ Inv w' /\ cpu_at c w' = Some cu' /\ (current cu' = current cu \/ chosen cu (current cu')) /\
    calm_but (fun t => t = current cu) w w'.
Proof.
  intros HI Hc. destruct (op_start w c cu HI Hc) as (th & HO & Hst & Hm). pose proof HO as (_ & _ & _ & _ & (_ & _ & _ & Hr & Hcpu)).
  unfold yield_. rewrite Hc. cbn [mbind option_bind]. rewrite Hr. cbn [mbind option_bind]. rewrite Hcpu.
  destruct (op_cpu _ _ _ _ _ _ reset_tick HO) as (w1 & -> & HO1); try done. cbn [mbind option_bind].
  destruct (op_raise _ _ _ _ _ _ HO1 ltac:(congruence)) as (w2 & th2 & -> & HO2 & Hst2 & Hm2). cbn [mbind option_bind].
  destruct (op_cpu _ _ _ _ _ _ (set_us_to_next 0) HO2) as (w3 & -> & HO3); try done. cbn [mbind option_bind].
  destruct (reschedule_ok _ _ _ _ _ _ now HO3) as (w' & cu' & -> & HI' & Hc' & Hcase & HK & _); [congruence|congruence|congruence|].
  exists w', cu'. split_and!; try done. destruct Hcase as [[_ ?]|[_ Hch]]; [by left|right; exact Hch].
Qed.

Lemma block_ok w c cu th now : Inv w -> cpu_at c w = Some cu -> thr (current cu) w = Some th -> current cu <> idle_thread cu ->
  exists w' cu', block c now w = Some w' /\ Inv w' /\ cpu_at c w' = Some cu' /\
    (if dont_block th then current cu' = current cu else current cu' <> current cu /\ chosen cu (current cu')) /\
    calm_but (fun t => t = current cu) w w' /\
    exists th', thr (current cu) w' = Some th' /\ status th' = if dont_block th then Running else Blocked.
Proof.
  intros HI Hc Ht Hni. destruct (op_start w c cu HI Hc) as (th' & HO & Hst & Hm).
  pose proof HO as (_ & Hr0 & _ & _ & (_ & _ & _ & Hr & Hcpu)). rewrite Ht in Hr. injection Hr as <-. set (r := current cu) in *.
  unfold block. rewrite Hc. cbn [mbind option_bind]. fold r. unfold lock_move. rewrite Ht. cbn [mbind option_bind]. rewrite Hm.
  cbn [negb assert mbind option_bind]. destruct (op_thr _ _ _ _ _ _ (set_move_lock true) HO) as (w1 & -> & HO1); try done; [apply (op_lev _ _ _ _ _ _ HO)|].
  cbn [mbind option_bind]. pose proof HO1 as (_ & _ & _ & _ & (Hc1 & _ & _ & Hr1 & _)). rewrite Hr1. cbn [mbind option_bind].
  change (dont_block (set_move_lock true th)) with (dont_block th). destruct (dont_block th).
  - destruct (op_thr _ _ _ _ _ _ (set_dont_block false) HO1) as (w2 & -> & HO2); try done; [apply (op_lev _ _ _ _ _ _ HO)|]. cbn [mbind option_bind].
    destruct (op_thr _ _ _ _ _ _ (set_move_lock false) HO2) as (w3 & -> & HO3); try done; [apply (op_lev _ _ _ _ _ _ HO)|].
    pose proof HO3 as (_ & _ & HL3 & _ & HA3). pose proof (calm_op _ _ w3 _ _ _ _ HL3 HA3 (calm_refl _ _)) as HK.
    destruct HO3 as (_ & _ & [HL3' _] & HG3 & (Hc3 & Hcur3 & Hgs3 & Hr3 & Hcpu3)). exists w3, cu. split_and!; try done; [|eexists; split; [exact Hr3|done]].
    eapply (inv_finish w w3 c); [done|done| |].
    + intros cu' Hcu'. rewrite Hc3 in Hcu'. injection Hcu' as <-. split; [congruence|]. eexists. rewrite Hcur3. split_and!; [exact Hr3|done|done|done].
    + eapply good_ext; [| |exact HG3]; intros c'; simpl; (destruct (decide (c' = c)) as [->|N]; [rewrite (cur_of_at _ _ _ Hc3); by rewrite Hr0|by apply (cur_local c)]).
  - destruct (op_thr _ _ _ _ _ _ (set_status Blocked) HO1) as (w2 & -> & HO2); try done; [apply (op_lev _ _ _ _ _ _ HO)| |].
    { unfold where_, is_idle. simpl. by rewrite Hst. }
    cbn [mbind option_bind]. change (cpu (set_move_lock true th)) with (cpu th). rewrite Hcpu.
    destruct (op_cpu _ _ _ _ _ _ reset_tick HO2) as (w3 & -> & HO3); try done. cbn [mbind option_bind].
    destruct (op_raise _ _ _ _ _ _ HO3 ltac:(done)) as (w4 & th4 & -> & HO4 & Hst4 & _). cbn [mbind option_bind].
    destruct (op_cpu _ _ _ _ _ _ (set_us_to_next 0) HO4) as (w5 & -> & HO5); try done. cbn [mbind option_bind].
    simpl in Hst4. destruct (reschedule_ok _ _ _ _ _ _ now HO5) as (w' & cu' & -> & HI' & Hc' & Hcase & HK & HB); [done|congruence|congruence|].
    exists w', cu'. destruct Hcase as [[? _]|[? Hch]]; [congruence|]. split_and!; try done. by apply HB.
Qed.

(** ** Sleeping *)

Lemma insert_sleeper_perm ths t e l : insert_sleeper ths t e l ≡ₚ t :: l.
Proof.
  induction l as [|x l IH]; simpl; [done|]. destruct (ths !! x) as [th|]; [destruct (sleep_end th >? e); [done|]|];
    rewrite IH; apply Permutation_swap.
Qed.

Lemma insert_sleeper_sorted (key : Z -> Z) ths t e l : key t = e -> (forall x, x ∈ l -> exists th, ths !! x = Some th /\ sleep_end th = key x) ->
  StronglySorted (fun a b => key a <= key b) l -> StronglySorted (fun a b => key a <= key b) (insert_sleeper ths t e l).
Proof.
  intros Ht Hl HS. induction HS as [|x l HS IH Hx]; simpl; [repeat constructor|].
  destruct (Hl x ltac:(left)) as (th & -> & Hk). rewrite Forall_forall in Hx. destruct (sleep_end th >? e) eqn:E.
  - apply Z.gtb_lt in E. constructor; [by constructor; [|apply Forall_forall]|]. apply Forall_forall.
    intros y [->|Hy]%elem_of_cons; [lia|]. specialize (Hx y Hy). simpl in Hx. lia.
  - rewrite Z.gtb_ltb in E. apply Z.ltb_ge in E. constructor; [apply IH; intros; apply Hl; by right|].
    apply Forall_forall. intros y. rewrite insert_sleeper_perm. intros [->|Hy]%elem_of_cons; [lia|by apply Hx].
Qed.

Lemma sorted_rekey (k k' : Z -> Z) l : (forall x, x ∈ l -> k' x = k x) ->
  StronglySorted (fun a b => k a <= k b) l -> StronglySorted (fun a b => k' a <= k' b) l.
Proof.
  intros Hk HS. induction HS as [|a l HS IH Ha]; constructor.
  - apply IH. intros. apply Hk. by right.
  - rewrite Forall_forall in Ha |- *. intros x Hx. rewrite !Hk by (left || by right). by apply Ha.
Qed.

(** The running thread is put among the sleepers and made to sleep. *)
Lemma op_sleep w0 c r th cu w e : Op w0 c r th cu w -> status th = Running -> r <> idle_thread cu ->
  exists w1 w2 w3 cu', upd_cpu c (fun cu => set_sleeping (insert_sleeper (threads w) r e (sleeping_threads cu)) cu) w = Some w1 /\
    upd_thr r (set_sleep_end e) w1 = Some w2 /\ upd_thr r (set_status Sleeping) w2 = Some w3 /\
    Op w0 c r (set_status Sleeping (set_sleep_end e th)) cu' w3 /\ idle_thread cu' = idle_thread cu /\ levels cu' = levels cu.
Proof.
  intros (HI & Hr0 & HL & HG & (Hc & Hcur & Hgs & Hr & Hcpu)) Hst Hni. pose proof HG as [HW HLs HR HS].
  destruct (proj1 (proj2 (proj2 HW)) r th Hr) as (H0 & Hex & Hlev & _).
  assert (Hnone : where_ r th w = None) by (unfold where_; rewrite Hst; by destruct (is_idle r th w)).
  set (f := fun th => set_status Sleeping (set_sleep_end e th)).
  destruct (upd_thr_ex r f w th Hr) as (wa & Ea & Hra & Hoa & Hca). assert (Hcca : cpu_at c wa = Some cu) by (by rewrite Hca).
  assert (Hnotin : forall c' cu', cpu_at c' w = Some cu' -> r ∉ sleeping_threads cu').
  { intros c' cu' Hc' Hin. destruct (asleep_in _ _ _ _ _ r HG Hc' Hin) as (th' & Hth' & Hs' & _). congruence. }
  assert (HLa : Lists {[r]} wa).
  { eapply lists_upd_thr; [exact Ea|done|left; set_solver|]. replace {[r]} with ({[r]} ∪ (∅ : gset Z)) by set_solver.
    by apply (proj1 (lists_exempt ∅ r w th Hr Hnone)). }
  assert (Hwa : where_ r (f th) wa = Some (Asleep c)).
  { unfold where_. rewrite (idle_of wa c cu) by done. rewrite (proj2 (Z.eqb_neq _ _) Hni). simpl. by rewrite Hcpu. }
  destruct (upd_sleeping_ok c (insert_sleeper (threads w) r e) wa cu Hcca) as (wb & Eb & Hkb & Hob).
  assert (HMb : moved c wa wb) by (by eapply moved_upd_cpu).
  assert (HLb : Lists ∅ wb).
  { replace (∅ : gset Z) with (({[r]} : gset Z) ∖ {[r]}) by set_solver.
    eapply (lists_put {[r]} wa wb r (f th) (Asleep c)); try done; [set_solver|simpl; by rewrite Hcca|apply HMb| |apply insert_sleeper_perm].
    intros. by eapply idle_upd_cpu. }
  destruct (upd_cpu_ex c (fun cu => set_sleeping (insert_sleeper (threads w) r e (sleeping_threads cu)) cu) w cu Hc) as (w1 & E1 & Hc1 & Ht1).
  assert (Hr1 : thr r w1 = Some th) by (by rewrite Ht1). destruct (upd_thr_ex r (set_sleep_end e) w1 th Hr1) as (w2 & E2 & Hr2 & Ho2 & Hc2).
  destruct (upd_thr_ex r (set_status Sleeping) w2 _ Hr2) as (w3 & E3 & Hr3 & Ho3 & Hc3).
  assert (Eq : w3 = wb).
  { rewrite (upd_cpu_ok _ _ _ _ Hc) in E1. injection E1 as <-. rewrite (upd_thr_ok _ _ _ _ Hr1) in E2. injection E2 as <-.
    rewrite (upd_thr_ok _ _ _ _ Hr2) in E3. injection E3 as <-. rewrite (upd_thr_ok _ _ _ _ Hr) in Ea. injection Ea as <-.
    rewrite (upd_cpu_ok _ _ _ _ Hcca) in Eb. injection Eb as <-. simpl. by rewrite insert_insert_eq. }
  assert (Hthr : forall t, thr t wb = if decide (t = r) then Some (f th) else thr t w).
  { intros t. rewrite <- Eq. case_decide as D; [subst t; exact Hr3|]. by rewrite Ho3, Ho2, Ht1. }
  assert (Hcb : cpu_at c wb = Some (set_sleeping (insert_sleeper (threads w) r e (sleeping_threads cu)) cu)) by (by rewrite <- Eq, Hc3, Hc2).
  exists w1, w2, w3, (set_sleeping (insert_sleeper (threads w) r e (sleeping_threads cu)) cu). split_and!; [done|done|done| |done|done]. rewrite Eq. split_and!; [done|done| | |].
  - eapply local_by_cpu; [eapply (local_by_thr c r f); [exact HL|exact Ea|exact Hr|done|done]|exact Eb|done].
  - split; [|done| |].
    + eapply wf_upd_cpu; [exact Eb|done|done|]. by eapply wf_upd_thr.
    + intros t tth. rewrite Hthr. assert (Hib : forall t th, is_idle t th wb = is_idle t th w).
      { intros. rewrite (idle_upd_cpu _ _ _ _ _ _ Eb) by done. by eapply idle_upd_thr. }
      rewrite Hib. case_decide as D; [|apply HR]. intros [= <-]. subst t. split; [done|]. simpl. intros Hm. by apply (HR r th Hr).
    + intros c' cu'. assert (Hkey : forall t, t <> r -> sleep_key wb t = sleep_key w t).
      { intros t Hn. unfold sleep_key. rewrite Hthr, decide_False by done. done. }
      destruct (decide (c' = c)) as [->|N].
      * rewrite Hcb. intros [= <-]. simpl. apply insert_sleeper_sorted.
        -- unfold sleep_key. by rewrite Hthr, decide_True.
        -- intros x Hx. destruct (asleep_in _ _ _ _ _ x HG Hc Hx) as (xth & Hxth & _). exists xth. split; [exact Hxth|].
           rewrite Hkey; [unfold sleep_key; by rewrite Hxth|]. intros ->. by apply (Hnotin c cu).
        -- specialize (HS c cu Hc). assert (Hin : forall x, x ∈ sleeping_threads cu -> x <> r) by (intros x Hx ->; by apply (Hnotin c cu)).
           eapply sorted_rekey; [|exact HS]. auto.
      * intros Hc'. rewrite <- Eq, Hc3, Hc2 in Hc'. assert (Hcw : cpu_at c' w = Some cu').
        { rewrite <- Hc'. symmetry. rewrite (cpu_upd_cpu _ _ _ _ _ c' E1 Hc). by rewrite decide_False. }
        specialize (HS c' cu' Hcw). assert (Hin : forall x, x ∈ sleeping_threads cu' -> x <> r) by (intros x Hx ->; by apply (Hnotin c' cu')).
        eapply sorted_rekey; [|exact HS]. auto.
  - split_and!; [exact Hcb|done|done|by rewrite Hthr, decide_True|done].
Qed.

Lemma inv_at w0 c r th cu w : Inv w0 -> cur_of w0 c = r -> local_to c w0 w -> Good ∅ (cur_of w0, cur_of w0) w -> At c r th cu w ->
  status th = Running -> move_lock th = false -> Inv w.
Proof.
  intros HI Hr0 HL HG (Hc & Hcur & Hgs & Hr & Hcpu) Hst Hm. eapply (inv_finish w0 w c); [done|done| |].
  - intros cu' Hcu'. rewrite Hc in Hcu'. injection Hcu' as <-. split; [congruence|]. exists th. by rewrite Hcur.
  - eapply good_ext; [| |exact HG]; intros c'; simpl; (destruct (decide (c' = c)) as [->|N]; [rewrite (cur_of_at _ _ _ Hc); congruence|by apply (cur_local c)]).
Qed.

Lemma inv_op w0 c r th cu w : Op w0 c r th cu w -> status th = Running -> move_lock th = false -> Inv w.
Proof. intros (HI & Hr0 & [HL _] & HG & HA) Hst Hm. by eapply inv_at. Qed.

Lemma sleep_ok w c cu th ns now now' : Inv w -> cpu_at c w = Some cu -> thr (current cu) w = Some th -> current cu <> idle_thread cu ->
  exists w' cu', sleep c ns now now' w = Some w' /\ Inv w' /\ cpu_at c w' = Some cu' /\
    (if (ns =? 0) || dont_block th then current cu' = current cu else current cu' <> current cu /\ chosen cu (current cu')) /\
    calm_but (fun t => t = current cu) w w'.
Proof.
  intros HI Hc Ht Hni. destruct (op_start w c cu HI Hc) as (th' & HO & Hst & Hm).
  pose proof HO as (_ & Hr0 & _ & _ & (_ & _ & _ & Hr & Hcpu)). rewrite Ht in Hr. injection Hr as <-. set (r := current cu) in *.
  unfold sleep. rewrite Hc. cbn [mbind option_bind]. fold r. destruct (ns =? 0); [exists w, cu; split_and!; try done; apply calm_refl|]. cbn [orb].
  unfold lock_move. rewrite Ht. cbn [mbind option_bind]. rewrite Hm. cbn [negb assert mbind option_bind].
  destruct (op_thr _ _ _ _ _ _ (set_move_lock true) HO) as (w1 & -> & HO1); try done; [apply (op_lev _ _ _ _ _ _ HO)|].
  cbn [mbind option_bind]. pose proof HO1 as (_ & _ & _ & _ & (Hc1 & _ & _ & Hr1 & _)). rewrite Hr1. cbn [mbind option_bind].
  change (dont_block (set_move_lock true th)) with (dont_block th). destruct (dont_block th).
  - destruct (op_thr _ _ _ _ _ _ (set_dont_block false) HO1) as (w2 & -> & HO2); try done; [apply (op_lev _ _ _ _ _ _ HO)|]. cbn [mbind option_bind].
    destruct (op_thr _ _ _ _ _ _ (set_move_lock false) HO2) as (w3 & -> & HO3); try done; [apply (op_lev _ _ _ _ _ _ HO)|].
    exists w3, cu. split_and!; [done|by eapply inv_op|apply HO3|done|].
    destruct HO3 as (_ & _ & HL3 & _ & HA3). exact (calm_op _ _ w3 _ _ _ _ HL3 HA3 (calm_refl _ _)).
  - change (cpu (set_move_lock true th)) with (cpu th). rewrite Hcpu.
    destruct (op_cpu _ _ _ _ _ _ reset_tick HO1) as (w2 & -> & HO2); try done. cbn [mbind option_bind].
    destruct (op_sleep _ _ _ _ _ _ (now ⊞ ns) HO2 Hst Hni) as (w3 & w4 & w5 & cu5 & -> & E4 & E5 & HO5 & Hi5 & Hl5).
    cbn [mbind option_bind]. rewrite E4. cbn [mbind option_bind]. rewrite E5. cbn [mbind option_bind].
    destruct (op_raise _ _ _ _ _ _ HO5 ltac:(done)) as (w6 & th6 & -> & HO6 & Hst6 & _). cbn [mbind option_bind]. simpl in Hst6.
    destruct (reschedule_ok _ _ _ _ _ _ now' HO6) as (w' & cu' & -> & HI' & Hc' & Hcase & HK & _); [rewrite Hi5; done|congruence|congruence|].
    exists w', cu'. destruct Hcase as [[? _]|[? Hch]]; [congruence|]. split_and!; [done|done|done|done| |done].
    unfold chosen, level_list in Hch |- *. simpl in *. by rewrite Hi5, Hl5 in Hch.
Qed.

(** ** Waking *)

Lemma inv_thread w c cu t th : Inv w -> cpu_at c w = Some cu -> thr t w = Some th -> status th <> Running -> t <> current cu.
Proof. intros [_ HC] Hc Ht Hs ->. destruct (HC c cu Hc) as [_ (th' & Ht' & _ & Hr & _)]. congruence. Qed.

(** [t] has been moved; the running threads are as they were. *)
Lemma inv_other w w' c t : Inv w -> local_to c w w' -> (forall u, u <> t -> thr u w' = thr u w) ->
  (forall cu, cpu_at c w = Some cu -> t <> current cu) -> hdr <$> cpu_at c w' = hdr <$> cpu_at c w ->
  Good ∅ (cur_of w, cur_of w) w' -> Inv w'.
Proof.
  intros HI HL Ho Ht Hh HG. eapply (inv_finish w w' c); [done|done| |].
  - intros cu' Hcu'. rewrite Hcu' in Hh. destruct (cpu_at c w) as [cu|] eqn:Hc; [|done]. simpl in Hh. unfold hdr in Hh.
    injection Hh as Hp Hcur Hg Hi. destruct HI as [_ HC]. destruct (HC c cu Hc) as [Hgs (th & Hth & Hrest)]. split; [congruence|].
    exists th. rewrite Hcur. split; [|done]. rewrite Ho; [done|]. symmetry. by apply Ht.
  - eapply good_ext; [| |exact HG]; intros c'; simpl; (destruct (decide (c' = c)) as [->|N]; [|by apply (cur_local c)]);
      unfold cur_of; destruct (cpu_at c w) as [cu|], (cpu_at c w') as [cu'|]; simpl in Hh; try done; unfold hdr in Hh; by injection Hh.
Qed.

Lemma wake_ok w c cu t th : Inv w -> thr t w = Some th -> cpu th = c -> cpu_at c w = Some cu -> t <> idle_thread cu ->
  (status th = Blocked \/ status th = Sleeping) ->
  exists w', unblock c t true false w = Some w' /\ Inv w' /\ (exists th', thr t w' = Some th' /\ status th' = Waiting /\ cpu th' = c) /\
    (forall u, u <> t -> thr u w' = thr u w) /\ (forall c, idle_thread <$> cpu_at c w' = idle_thread <$> cpu_at c w).
Proof.
  intros HI Ht Hcpu Hc Hni Hs. assert (Hnr : status th <> Running) by (destruct Hs as [-> | ->]; done).
  pose proof (inv_thread w c cu t th HI Hc Ht Hnr) as Hncur. pose proof HI as [HG HC]. pose proof (good_wf _ _ _ HG) as HW.
  destruct (proj1 (proj2 (proj2 HW)) t th Ht) as (_ & Hex & Hlev & _).
  assert (Hmv : move_lock th = false).
  { destruct (move_lock th) eqn:Em; [|done]. apply (good_run _ _ _ HG t th Ht) in Em. simpl in Em. rewrite Hcpu, (cur_of_at _ _ _ Hc) in Em. done. }
  unfold unblock. rewrite Hc. cbn [mbind option_bind]. rewrite (proj2 (Z.eqb_neq _ _) Hncur). cbn [negb assert mbind option_bind].
  rewrite Ht. cbn [mbind option_bind]. replace (negb (bool_decide (status th = Blocked)) && negb (bool_decide (status th = Sleeping))) with false
    by (destruct Hs as [-> | ->]; done).
  assert (HM : exists w1 th1 cu1, (if true && bool_decide (status th = Sleeping) then
      w ← upd_cpu (cpu th) (fun cu => set_sleeping (filter (fun x => x <> t) (sleeping_threads cu)) cu) w;
      w ← upd_thr t (set_status Blocked) w; upd_thr t (set_sleep_interrupted true) w else Some w) = Some w1 /\
    Good {[t]} (cur_of w, cur_of w) w1 /\ local_to c w w1 /\ (forall u, u <> t -> thr u w1 = thr u w) /\
    thr t w1 = Some th1 /\ cpu th1 = c /\ level_index th1 = level_index th /\ exited th1 = false /\ move_lock th1 = false /\
    cpu_at c w1 = Some cu1 /\ hdr cu1 = hdr cu).
  { destruct Hs as [Hs|Hs]; rewrite Hs.
    - change (true && bool_decide (Blocked = Sleeping)) with false. cbn iota. exists w, th, cu. split_and!; try done.
      pose proof HG as [A B C D]. split; try done. replace {[t]} with ({[t]} ∪ (∅ : gset Z)) by set_solver.
      refine (proj1 (lists_exempt ∅ t w th Ht _) B). unfold where_. rewrite Hs. by destruct (is_idle t th w).
    - change (true && bool_decide (Sleeping = Sleeping)) with true. cbn iota. rewrite Hcpu.
      assert (Hin : t ∈ sleeping_threads cu).
      { destruct (good_lists _ _ _ HG (Asleep c) (sleeping_threads cu)) as [_ H]; [simpl; by rewrite Hc|]. apply H.
        rewrite (place_out ∅ w t th) by set_solver. unfold where_. rewrite (idle_of w c cu) by done.
        rewrite (proj2 (Z.eqb_neq _ _) Hni), Hs. by rewrite Hcpu. }
      destruct (good_unsleep ∅ _ c w cu t HG Hc Hin) as (w1 & -> & HG1 & HM1 & _). cbn [mbind option_bind].
      replace ({[t]} ∪ ∅) with ({[t]} : gset Z) in HG1 by set_solver.
      assert (Ht1 : thr t w1 = Some th) by (unfold thr; rewrite (proj1 HM1); exact Ht).
      destruct (upd_thr_ex t (set_status Blocked) w1 th Ht1) as (w2 & E2 & Ht2 & Ho2 & Hc2). rewrite E2. cbn [mbind option_bind].
      destruct (upd_thr_ex t (set_sleep_interrupted true) w2 _ Ht2) as (w3 & E3 & Ht3 & Ho3 & Hc3). rewrite E3.
      assert (HG2 : Good {[t]} (cur_of w, cur_of w) w2).
      { eapply good_upd_thr; [exact HG1|exact E2|done|done|done|exact Hlev|left; set_solver|done|simpl; congruence|done]. }
      destruct (moved_hdr _ _ _ _ HM1 Hc) as (cu1 & Hcu1 & Hh1).
      exists w3. eexists _, cu1. split_and!; [done| | | |exact Ht3|done|done|done|done|by rewrite Hc3, Hc2|done].
      + eapply good_upd_thr; [exact HG2|exact E3|done|done|done|exact Hlev|left; set_solver|done|simpl; congruence|done].
      + eapply local_trans; [apply HM1|]. eapply local_trans; eapply local_upd_thr; [exact E2|done|done|done|exact E3|done|done|done].
      + intros u Hu. rewrite Ho3, Ho2 by done. unfold thr. by rewrite (proj1 HM1). }
  destruct HM as (w1 & th1 & cu1 & -> & HG1 & HL1 & Ho1 & Ht1 & Hc1 & Hl1 & Hex1 & Hm1 & Hcu1 & Hh1). cbn [mbind option_bind].
  rewrite Ht1. cbn [mbind option_bind]. cbn [negb orb assert mbind option_bind]. unfold level_free.
  rewrite (proj1 (good_wf _ _ _ HG1)). rewrite bool_decide_eq_false_2 by done. cbn [negb assert mbind option_bind]. rewrite Hc1, Hcu1. cbn [mbind option_bind].
  unfold hdr in Hh1. injection Hh1 as Hp1 Hcur1 Hg1 Hi1. rewrite Hcur1, (proj2 (Z.eqb_neq _ _) Hncur). cbn [negb assert mbind option_bind].
  destruct (upd_thr_ex t (set_status Waiting) w1 th1 Ht1) as (w2 & E2 & Ht2 & Ho2 & Hc2). rewrite E2. cbn [mbind option_bind].
  assert (HG2 : Good {[t]} (cur_of w, cur_of w) w2).
  { eapply good_upd_thr; [exact HG1|exact E2|done|done|done|rewrite <- Hl1 in Hlev; exact Hlev|left; set_solver|done|simpl; congruence|done]. }
  assert (Hcu2 : cpu_at c w2 = Some cu1) by (by rewrite Hc2).
  destruct (good_queue {[t]} (cur_of w, cur_of w) c t _ w2 HG2 ltac:(set_solver) Ht2) as (w3 & E3 & HG3 & HM3 & _).
  { unfold where_. rewrite (idle_of w2 c cu1) by done. rewrite Hi1, (proj2 (Z.eqb_neq _ _) Hni). simpl. by rewrite Hc1. }
  unfold queue in E3. rewrite Ht2 in E3. cbn [mbind option_bind] in E3. exists w3. split; [exact E3|].
  assert (Ht3 : forall u, thr u w3 = thr u w2) by (intros u; unfold thr; by rewrite (proj1 HM3)).
  replace ({[t]} ∖ {[t]}) with (∅ : gset Z) in HG3 by set_solver. 
  assert (HLall : local_to c w w3) by (eapply local_trans; [done|]; eapply local_trans; [by eapply local_upd_thr|apply HM3]).
  assert (Hoall : forall u, u <> t -> thr u w3 = thr u w) by (intros u Hu; by rewrite Ht3, Ho2, Ho1).
  assert (Hhall : hdr <$> cpu_at c w3 = hdr <$> cpu_at c w) by (rewrite (proj1 (proj2 HM3)), Hcu2, Hc; simpl; f_equal; unfold hdr; congruence).
  split_and!; [|exists (set_status Waiting th1); by rewrite Ht3|done|].
  2: { intros c'. destruct (decide (c' = c)) as [->|N]; [|by rewrite (proj1 HLall)]. destruct (cpu_at c w), (cpu_at c w3); simpl in *; try done.
    unfold hdr in Hhall. by injection Hhall as _ _ _ ->. }
  eapply (inv_other w w3 c t); [done|done|done| |done|done]. intros cu' Hcu'. rewrite Hc in Hcu'. by injection Hcu' as <-.
Qed.

Lemma add_thread_good rho w t c p cu : Good ∅ rho w -> thr t w = None -> t <> 0 -> cpu_at c w = Some cu ->
  Good {[t]} rho (mkWorld (<[t := new_thread c p]> (threads w)) (cpus w) (killed w) (level_lock w)).
Proof.
  intros [(W1 & W2 & W3 & W4) HL HR HS] Ht H0 Hc. set (w1 := mkWorld _ _ _ _).
  assert (Hthr : forall u, thr u w1 = if decide (u = t) then Some (new_thread c p) else thr u w).
  { intros u. unfold thr. simpl. case_decide; [subst; by rewrite lookup_insert_eq|by rewrite lookup_insert_ne]. }
  split.
  - split_and!; [done|done| |].
    + intros u th. rewrite Hthr. case_decide as D; [|apply W3]. intros [= <-]. subst u. split_and!; (done || (eexists; exact Hc)).
    + intros c' cu' Hc'. destruct (W4 c' cu' Hc') as [? (ith & Hi & Hic)]. split; [done|]. exists ith. rewrite Hthr.
      case_decide as D; [|done]. rewrite D in Hi. congruence.
  - intros k l Hk. destruct (HL k l Hk) as [ND Hl]. split; [done|]. intros u. rewrite Hl. unfold place. rewrite Hthr.
    destruct (decide (u = t)) as [->|N].
    + rewrite (decide_True (P := t ∈ {[t]})) by set_solver. rewrite decide_False by set_solver. rewrite Ht. done.
    + rewrite (decide_False (P := u ∈ ∅)), (decide_False (P := u ∈ {[t]})) by set_solver. done.
  - intros u th. rewrite Hthr. case_decide as D; [|apply HR]. by intros [= <-].
  - intros c' cu' Hc'. eapply sorted_rekey; [|by apply (HS c' cu')]. intros u _. unfold sleep_key. rewrite Hthr. case_decide; [subst; by rewrite Ht|done].
Qed.

Lemma start_thread_ok w c t p cu : Inv w -> thr t w = None -> t <> 0 -> cpu_at c w = Some cu ->
  exists w', start_thread c t p w = Some w' /\ Inv w' /\ thr t w' = Some (new_thread c p) /\ calm_but (fun _ => False) w w'.
Proof.
  intros HI Ht H0 Hc. pose proof HI as [HG _]. unfold start_thread. set (w1 := mkWorld _ _ _ _).
  assert (HG1 : Good {[t]} (cur_of w, cur_of w) w1) by (by eapply add_thread_good).
  assert (Ht1 : thr t w1 = Some (new_thread c p)) by (by apply lookup_insert_eq). assert (Hc1 : cpu_at c w1 = Some cu) by exact Hc.
  destruct (proj2 (proj2 (proj2 (good_wf _ _ _ HG))) c cu Hc) as [_ (ith & Hith & _)].
  destruct (good_queue {[t]} _ c t _ w1 HG1 ltac:(set_solver) Ht1) as (w2 & -> & HG2 & HM2 & _).
  { unfold where_. rewrite (idle_of w1 c cu) by done. rewrite (proj2 (Z.eqb_neq _ _)); [done|]. intros ->. congruence. }
  cbn [mbind option_bind]. replace ({[t]} ∖ {[t]}) with (∅ : gset Z) in HG2 by set_solver.
  destruct (moved_hdr _ _ _ _ HM2 Hc1) as (cu2 & Hc2 & Hh2).
  destruct (upd_cpu_ex c (fun cu => set_thread_count (u32 (thread_count cu + 1)) cu) w2 cu2 Hc2) as (w3 & E3 & Hc3 & Ht3).
  assert (Hall : forall u, thr u w3 = thr u w1) by (intros u; rewrite Ht3; unfold thr; by rewrite (proj1 HM2)).
  assert (HG3 : Good ∅ (cur_of w, cur_of w) w3) by (eapply good_upd_cpu; [exact HG2|exact E3|done|done|done]).
  exists w3. assert (HK : calm_but (fun _ => False) w w3).
  { split.
    - intros c'. rewrite (proj1 (proj2 (chg_upd_cpu _ _ _ _ E3 ltac:(done)))). destruct (decide (c' = c)) as [->|N]; [|by rewrite (proj1 (proj2 (proj2 HM2)))].
      rewrite Hc2, Hc. unfold hdr in Hh2. injection Hh2 as _ _ _ Hi. simpl. congruence.
    - intros u uth Hu _. exists uth. rewrite Hall. unfold thr. simpl. rewrite lookup_insert_ne by congruence. unfold calm. auto. }
  split_and!; [done| |by rewrite Hall|done]. pose proof (local_upd_cpu _ _ _ _ E3) as (L3 & _ & _). destruct HM2 as (Hthr2 & _ & (L2 & _ & _)).
  assert (Hcs : forall c', c' <> c -> cpu_at c' w3 = cpu_at c' w) by (intros c' N; rewrite L3, L2 by done; done).
  assert (Hcur3 : forall c', cur_of w3 c' = cur_of w c').
  { intros c'. destruct (decide (c' = c)) as [->|N]; [|unfold cur_of; by rewrite Hcs].
    rewrite (cur_of_at _ _ _ Hc3), (cur_of_at _ _ _ Hc). unfold hdr in Hh2. simpl. by injection Hh2. }
  split; [by eapply good_ext; [..|exact HG3]|]. intros c' cu' Hcu'.
  assert (Hold : exists cu0, cpu_at c' w = Some cu0 /\ gs cu' = gs cu0 /\ current cu' = current cu0).
  { destruct (decide (c' = c)) as [->|N]; [|rewrite Hcs in Hcu' by done; eauto]. rewrite Hc3 in Hcu'. injection Hcu' as <-.
    unfold hdr in Hh2. injection Hh2 as ? ? ? ?. exists cu. simpl. split_and!; [done|congruence|congruence]. }
  destruct Hold as (cu0 & Hcu0 & Hg & Hcu). destruct (proj2 HI c' cu0 Hcu0) as [Hgs (th & Hth & Hrest)]. split; [congruence|].
  exists th. rewrite Hcu, Hall. split; [|done]. unfold thr. simpl. rewrite lookup_insert_ne; [exact Hth|]. intros ->. congruence.
Qed.

Lemma idle_poll_ok w c cu : Inv w -> cpu_at c w = Some cu ->
  exists w', idle_poll c w = Some w' /\ Inv w' /\ calm_but (fun t => t = current cu) w w'.
Proof.
  intros HI Hc. destruct (op_start w c cu HI Hc) as (th & (_ & Hr0 & HL & HG & HA) & Hst & Hm). unfold idle_poll. rewrite Hc. cbn [mbind option_bind].
  destruct (forallb _ _); [exists w; split_and!; try done; apply calm_refl|].
  destruct (switch_ok w w c _ th cu 0 false HI (proj1 HL) Hr0 HG HA ltac:(done) ltac:(congruence) ltac:(done))
    as (w1 & w2 & w' & cu1 & th1 & cu' & E1 & _ & _ & _ & E2 & E3 & HI' & _ & _ & _ & HK). cbn iota in E2. injection E2 as <-.
  rewrite E1. cbn [mbind option_bind]. exists w'. split_and!; [done|done|]. eapply calm_weaken; [|exact HK]. by intros t [? _].
Qed.

(** ** Sequences of operations *)

Inductive op :=
| OnTimer (c now : Z) | Yield (c now : Z) | Block (c now : Z) | SleepFor (c ns now now' : Z)
| Unblock (t : Z) | Start (c t p : Z) | IdlePoll (c : Z).

Definition step (o : op) (w : world) : option world :=
  match o with
  | OnTimer c now => on_timer c now w
  | Yield c now => yield_ c now w
  | Block c now => block c now w
  | SleepFor c ns now now' => sleep c ns now now' w
  | Unblock t => th ← thr t w; unblock (cpu th) t true false w
  | Start c t p => start_thread c t p w
  | IdlePoll c => idle_poll c w
  end.

(** What callers guarantee: the CPU exists; the idle thread does not block; a
    thread that is woken is not running; a new thread is new. *)
Definition permitted (o : op) (w : world) : Prop :=
  match o with
  | OnTimer c _ | Yield c _ | IdlePoll c => is_Some (cpu_at c w)
  | Block c _ | SleepFor c _ _ _ => exists cu, cpu_at c w = Some cu /\ current cu <> idle_thread cu
  | Unblock t => exists th, thr t w = Some th /\ status th <> Running /\ is_idle t th w = false
  | Start c t _ => is_Some (cpu_at c w) /\ thr t w = None /\ t <> 0
  end.

Fixpoint run (os : list op) (w : world) : option world :=
  match os with [] => Some w | o :: os => w ← step o w; run os w end.
Fixpoint all_permitted (os : list op) (w : world) : Prop :=
  match os with [] => True | o :: os => permitted o w /\ forall w', step o w = Some w' -> all_permitted os w' end.

Lemma step_ok o w : Inv w -> permitted o w -> exists w', step o w = Some w' /\ Inv w'.
Proof.
  intros HI. destruct o as [c now|c now|c now|c ns now now'|t|c t p|c]; simpl.
  - intros [cu Hc]. destruct (on_timer_ok w c cu now HI Hc) as (w' & _ & E & HI' & _). eauto.
  - intros [cu Hc]. destruct (yield_ok w c cu now HI Hc) as (w' & _ & E & HI' & _). eauto.
  - intros (cu & Hc & Hn). destruct (proj2 HI c cu Hc) as [_ (th & Ht & _)].
    destruct (block_ok w c cu th now HI Hc Ht Hn) as (w' & _ & E & HI' & _). eauto.
  - intros (cu & Hc & Hn). destruct (proj2 HI c cu Hc) as [_ (th & Ht & _)].
    destruct (sleep_ok w c cu th ns now now' HI Hc Ht Hn) as (w' & _ & E & HI' & _). eauto.
  - intros (th & Ht & Hs & Hi). rewrite Ht. cbn [mbind option_bind].
    destruct (proj1 (proj2 (proj2 (good_wf _ _ _ (proj1 HI)))) t th Ht) as (_ & _ & _ & [cu Hc]).
    rewrite (idle_of w (cpu th) cu th t Hc eq_refl) in Hi. apply Z.eqb_neq in Hi. destruct (status th) eqn:Est; [done| | |].
    + exists w. split; [|done]. unfold unblock. rewrite Hc. cbn [mbind option_bind].
      rewrite (proj2 (Z.eqb_neq t (current cu))) by (eapply (inv_thread w); [done|exact Hc|exact Ht|congruence]). cbn [negb assert mbind option_bind].
      rewrite Ht. cbn [mbind option_bind]. rewrite Est. done.
    + destruct (wake_ok w (cpu th) cu t th HI Ht eq_refl Hc Hi) as (w' & E & HI' & _); eauto.
    + destruct (wake_ok w (cpu th) cu t th HI Ht eq_refl Hc Hi) as (w' & E & HI' & _); eauto.
  - intros ([cu Hc] & Ht & H0). destruct (start_thread_ok w c t p cu HI Ht H0 Hc) as (w' & E & HI' & _). eauto.
  - intros [cu Hc]. destruct (idle_poll_ok w c cu HI Hc) as (w' & E & HI' & _). eauto.
Qed.

Lemma run_ok os : forall w, Inv w -> all_permitted os w -> exists w', run os w = Some w' /\ Inv w'.
Proof.
  induction os as [|o os IH]; intros w HI; simpl; [eauto|]. intros [Hp Ha]. destruct (step_ok o w HI Hp) as (w1 & E & HI1).
  rewrite E. cbn [mbind option_bind]. apply IH; [done|]. by apply Ha.
Qed.

End SchedRun.
