(* ===== verification/SchedBalance.v ===== *)
(** * The load balancer

    A round of the load balancer moves threads from the busiest CPU to the one with
    the fewest threads.  It keeps the invariant of the scheduler, and moves as many
    threads as the counts differ by. *)

From stdpp Require Import sorting.
From S2P Require Import Prelude Sched SchedInv SchedRun.

Module SchedBalance.
Import Sched SchedInv SchedRun.

(** Who runs where stays. *)
Definition keeps_running (w w' : world) : Prop :=
  (forall c, hdr <$> cpu_at c w' = hdr <$> cpu_at c w) /\
  (forall u th, thr u w = Some th -> status th = Running -> thr u w' = Some th).

Lemma keeps_running_trans w1 w2 w3 : keeps_running w1 w2 -> keeps_running w2 w3 -> keeps_running w1 w3.
Proof. intros [A B] [C D]. split; [intros c; by rewrite C, A|eauto]. Qed.

Lemma keeps_running_cpu c f w w' : upd_cpu c f w = Some w' -> (forall cu, hdr (f cu) = hdr cu) -> keeps_running w w'.
Proof.
  intros E Hf. pose proof (fun t => thr_upd_cpu _ _ _ _ t E) as Ht. split; [|intros; by rewrite Ht].
  unfold upd_cpu in E. destruct (cpu_at c w) as [cu|] eqn:Hc; simpl in E; [|done]. injection E as <-. intros c'. unfold cpu_at in *. simpl.
  destruct (decide (c' = c)) as [->|]; [rewrite lookup_insert_eq, Hc; simpl; by rewrite Hf|by rewrite lookup_insert_ne].
Qed.

Lemma inv_keeps w w' : Inv w -> Good ∅ (cur_of w, cur_of w) w' -> keeps_running w w' -> Inv w'.
Proof.
  intros [_ HC] HG [Hh Hr]. assert (Hcur : forall c, cur_of w' c = cur_of w c).
  { intros c. specialize (Hh c). unfold cur_of. destruct (cpu_at c w), (cpu_at c w'); simpl in Hh; try done. unfold hdr in Hh. by injection Hh. }
  split; [by eapply good_ext; [..|exact HG]|]. intros c cu' Hc'. specialize (Hh c). rewrite Hc' in Hh.
  destruct (cpu_at c w) as [cu|] eqn:Hc; [|done]. simpl in Hh. unfold hdr in Hh. injection Hh as Hp Hcu Hg Hi.
  destruct (HC c cu Hc) as [Hgs (th & Ht & Hcpu & Hst & Hm)]. split; [congruence|]. exists th. rewrite Hcu. split_and!; auto.
Qed.

(** A thread is taken out of its ready list. *)
Lemma good_unqueue X rho c w cu i l t : Good X rho w -> cpu_at c w = Some cu -> level_list i cu = Some l -> t ∈ l ->
  exists w', upd_level c i (filter (fun x => x <> t)) w = Some w' /\ Good ({[t]} ∪ X) rho w' /\ threads w' = threads w /\ keeps_running w w' /\
    cpu_at c w' = Some (set_levels (<[Z.to_nat i := filter (fun x => x <> t) l]> (levels cu)) cu) /\ (forall c', c' <> c -> cpu_at c' w' = cpu_at c' w).
Proof.
  intros [HW HL HR HS] Hc Hl Ht. destruct (upd_level_ok c i (filter (fun x => x <> t)) w cu l Hc Hl) as (w' & E & E' & Hk & Ho).
  assert (HM : moved c w w') by (by eapply moved_upd_cpu). exists w'. split_and!; [done| |apply HM|by eapply keeps_running_cpu| |].
  - split.
    + eapply wf_upd_cpu; [exact E'|done| |done]. intros cu' Hcu'. simpl. rewrite length_insert. congruence.
    + destruct (HL (Ready c i) l) as [ND _]; [simpl; by rewrite Hc|].
      eapply (lists_take X w w' t (Ready c i) l); try done; [simpl; by rewrite Hc|apply HM| | |].
      * intros. by eapply idle_upd_cpu.
      * by apply NoDup_filter.
      * intros u. rewrite list_elem_of_filter. tauto.
    + eapply keeps_run; [apply HM| |done]. intros. by eapply idle_upd_cpu.
    + eapply keeps_sorted; [exact E'|done|]. intros cu' Hcu'. simpl. by apply (HS c).
  - rewrite (cpu_upd_cpu _ _ _ _ _ c E' Hc). by rewrite decide_True.
  - intros c' N. rewrite (cpu_upd_cpu _ _ _ _ _ c' E' Hc). by rewrite decide_False.
Qed.

(** An exempt thread that does not run gets another CPU. *)
Lemma good_set_cpu X rho w t th c cu : Good X rho w -> t ∈ X -> thr t w = Some th -> status th <> Running -> move_lock th = false ->
  is_idle t th w = false -> cpu_at c w = Some cu ->
  exists w', upd_thr t (set_cpu c) w = Some w' /\ Good X rho w' /\ thr t w' = Some (set_cpu c th) /\
    (forall u, u <> t -> thr u w' = thr u w) /\ (forall c', cpu_at c' w' = cpu_at c' w).
Proof.
  intros [(W1 & W2 & W3 & W4) HL HR HS] HX Ht Hst Hm Hi Hc. destruct (upd_thr_ex t (set_cpu c) w th Ht) as (w' & E & Ht' & Ho & Hcs).
  destruct (W3 t th Ht) as (H0 & Hex & Hlev & [tcu Htcu]).
  assert (Hni : t <> idle_thread tcu) by (rewrite (idle_of w (cpu th) tcu) in Hi by done; by apply Z.eqb_neq).
  exists w'. split_and!; try done. split.
  - pose proof (upd_thr_ok t (set_cpu c) w th Ht) as E'. rewrite E in E'. injection E' as E'. split_and!; [by subst|by subst| |].
    + intros u uth. unfold Wf_thread. rewrite Hcs. destruct (decide (u = t)) as [->|N]; [rewrite Ht'; intros [= <-]|rewrite Ho by done; apply W3].
      split_and!; (done || by eexists || simpl; lia).
    + intros c' cu'. rewrite Hcs. intros Hc'. destruct (W4 c' cu' Hc') as [? (ith & Hith & Hic)]. split; [done|]. exists ith. split; [|done].
      rewrite Ho; [done|]. intros E2. rewrite E2 in Hith. rewrite Ht in Hith. injection Hith as <-. rewrite Hic, Hc' in Htcu. injection Htcu as <-. done.
  - by eapply lists_upd_thr; [| |left|].
  - intros u uth. unfold is_idle. rewrite Hcs. destruct (decide (u = t)) as [->|N]; [rewrite Ht'; intros [= <-]; simpl; split; intros; congruence|].
    rewrite Ho by done. apply HR.
  - intros c' cu'. rewrite Hcs. intros Hc'. eapply sorted_rekey; [|by apply (HS c' cu')]. intros u _. unfold sleep_key.
    destruct (decide (u = t)) as [->|N]; [by rewrite Ht', Ht|by rewrite Ho].
Qed.

(** ** Moving one thread *)

(** Who runs on a CPU and how many threads it counts. *)
Definition face (cu : Cpu) : Z * Z * Z * Z * Z := (hdr cu, thread_count cu).
Definition quiet (w w' : world) : Prop := threads w' = threads w /\ forall c, face <$> cpu_at c w' = face <$> cpu_at c w.

Lemma quiet_trans w1 w2 w3 : quiet w1 w2 -> quiet w2 w3 -> quiet w1 w3.
Proof. intros [A B] [C D]. split; [congruence|intros c; by rewrite D, B]. Qed.

Lemma quiet_cpu c f w w' : upd_cpu c f w = Some w' -> (forall cu, face (f cu) = face cu) -> quiet w w'.
Proof.
  intros E Hf. split; unfold upd_cpu in E; (destruct (cpu_at c w) as [cu|] eqn:Hc; simpl in E; [|done]); injection E as <-; [done|].
  intros c'. unfold cpu_at in *. simpl. destruct (decide (c' = c)) as [->|]; [rewrite lookup_insert_eq, Hc; simpl; by rewrite Hf|by rewrite lookup_insert_ne].
Qed.

Lemma quiet_queue c t w w' : queue c t w = Some w' -> quiet w w'.
Proof.
  unfold queue. destruct (thr t w) as [th|]; [|done]. simpl. unfold upd_level. destruct (cpu_at c w) as [cu|] eqn:Hc; [|done]. simpl.
  destruct (level_list _ _); [|done]. simpl. intros E. split; unfold upd_cpu in E; rewrite Hc in E; simpl in E; injection E as <-; [done|].
  intros c'. unfold cpu_at in *. simpl. destruct (decide (c' = c)) as [->|]; [by rewrite lookup_insert_eq, Hc|by rewrite lookup_insert_ne].
Qed.

(** Threads that [mx] had and [mn] now has; no other thread changes. *)
Definition moves (mx mn : Z) (w w' : world) : Prop := forall u, thr u w' = thr u w \/
  exists th, thr u w = Some th /\ pin_cpu th = false /\ cpu th = mx /\ status th <> Running /\ thr u w' = Some (set_cpu mn th).

Definition moved_to (mn t : Z) (th : Thread) (w w' : world) : Prop :=
  thr t w' = Some (set_cpu mn th) /\ forall u, u <> t -> thr u w' = thr u w.

Definition count_at (c : Z) (w : world) : option Z := thread_count <$> cpu_at c w.

(** [n] threads have moved. *)
Record Step (mx mn n : Z) (w w' : world) : Prop := mkStep {
  step_hdr : forall c, hdr <$> cpu_at c w' = hdr <$> cpu_at c w; step_moves : moves mx mn w w';
  step_max : count_at mx w' = (fun x => x - n) <$> count_at mx w;
  step_min : count_at mn w' = (fun x => x + n) <$> count_at mn w }.

Lemma step_refl mx mn w : Step mx mn 0 w w.
Proof. split; [done|by left| |]; destruct (count_at _ w); simpl; try done; f_equal; lia. Qed.

Lemma step_trans mx mn n m w1 w2 w3 : mx <> mn -> Step mx mn n w1 w2 -> Step mx mn m w2 w3 -> Step mx mn (n + m) w1 w3.
Proof.
  intros N [A1 A2 A3 A4] [B1 B2 B3 B4]. split; [intros c; by rewrite B1, A1| | |].
  - intros u. destruct (B2 u) as [->|(th & H1 & H2 & H3 & H4 & H5)]; [apply A2|]. destruct (A2 u) as [E|(th' & G1 & G2 & G3 & G4 & G5)].
    + right. exists th. by rewrite <- E.
    + rewrite G5 in H1. injection H1 as <-. by destruct N.
  - rewrite B3, A3. destruct (count_at mx w1); simpl; [f_equal; lia|done].
  - rewrite B4, A4. destruct (count_at mn w1); simpl; [f_equal; lia|done].
Qed.

Lemma count_move_ok X rho mx mn w a b : mx <> mn -> Good X rho w -> count_at mx w = Some a -> count_at mn w = Some b ->
  1 <= a < 2 ^ 32 -> 0 <= b < 2 ^ 32 - 1 ->
  exists w', count_move mx mn w = Some w' /\ Good X rho w' /\ threads w' = threads w /\
    (forall c, hdr <$> cpu_at c w' = hdr <$> cpu_at c w) /\ count_at mx w' = Some (a - 1) /\ count_at mn w' = Some (b + 1).
Proof.
  intros N HG Ha Hb La Lb. unfold count_at in *. destruct (cpu_at mx w) as [cx|] eqn:Hx; [|done]. destruct (cpu_at mn w) as [cn|] eqn:Hn; [|done].
  injection Ha as <-. injection Hb as <-. set (f := fun cu => set_thread_count (u32 (thread_count cu - 1)) cu). set (g := fun cu => set_thread_count (u32 (thread_count cu + 1)) cu).
  destruct (upd_cpu_ex mx f w cx Hx) as (w1 & E1 & Hx1 & _). pose proof (cpu_upd_cpu _ _ _ _ _ mn E1 Hx) as Hn1. rewrite decide_False in Hn1 by done. rewrite Hn in Hn1.
  destruct (upd_cpu_ex mn g w1 cn Hn1) as (w2 & E2 & Hn2 & _). pose proof (cpu_upd_cpu _ _ _ _ _ mx E2 Hn1) as Hx2. rewrite decide_False in Hx2 by done. rewrite Hx1 in Hx2.
  destruct (keeps_running_cpu _ _ _ _ E1) as [A1 _]; [done|]. destruct (keeps_running_cpu _ _ _ _ E2) as [A2 _]; [done|].
  exists w2. split_and!.
  - unfold count_move. fold f. rewrite E1. cbn [mbind option_bind]. exact E2.
  - eapply good_upd_cpu; [|exact E2|done..]. by eapply good_upd_cpu; [|exact E1|..].
  - destruct (moved_upd_cpu _ _ _ _ E1) as [B1 _]; [done|]. destruct (moved_upd_cpu _ _ _ _ E2) as [B2 _]; [done|]. congruence.
  - intros c. by rewrite A2, A1.
  - rewrite Hx2. simpl. f_equal. apply u32_small. lia.
  - rewrite Hn2. simpl. f_equal. apply u32_small. lia.
Qed.

(** The bounds on the counts that moving [d] threads needs. *)
Definition room (mx mn d : Z) (w : world) : Prop := exists a b, count_at mx w = Some a /\ count_at mn w = Some b /\
  d <= a < 2 ^ 32 /\ 0 <= b /\ b + d < 2 ^ 32.

Lemma room_step mx mn n d w w' : Step mx mn n w w' -> 0 <= n -> room mx mn (n + d) w -> room mx mn d w'.
Proof.
  intros [_ _ Hx Hn] Hn0 (a & b & Ha & Hb & L1 & L2 & L3). exists (a - n), (b + n). rewrite Hx, Hn, Ha, Hb. simpl.
  split_and!; done || lia.
Qed.

Lemma quiet_count w w' c : quiet w w' -> count_at c w' = count_at c w.
Proof. intros [_ H]. specialize (H c). unfold count_at. destruct (cpu_at c w), (cpu_at c w'); simpl in *; unfold face in H; congruence. Qed.

Lemma quiet_hdr w w' c : quiet w w' -> hdr <$> cpu_at c w' = hdr <$> cpu_at c w.
Proof. intros [_ H]. specialize (H c). destruct (cpu_at c w), (cpu_at c w'); simpl in *; unfold face in H; congruence. Qed.

Lemma finish_move rho mx mn w w1 w2 w3 t th d : mx <> mn -> 1 <= d -> room mx mn d w -> quiet w w1 -> thr t w = Some th ->
  pin_cpu th = false -> cpu th = mx -> status th <> Running -> upd_thr t (set_cpu mn) w1 = Some w2 -> quiet w2 w3 -> Good ∅ rho w3 ->
  exists w4, count_move mx mn w3 = Some w4 /\ Good ∅ rho w4 /\ Step mx mn 1 w w4 /\ moved_to mn t th w w4.
Proof.
  intros N Hd (a & b & Ha & Hb & L1 & L2 & L3) Q1 Ht Hp Hc Hst E Q3 HG.
  assert (Ht1 : thr t w1 = Some th) by (unfold thr; by rewrite (proj1 Q1)).
  destruct (upd_thr_ex t (set_cpu mn) w1 th Ht1) as (w2' & E' & Ht2 & Ho2 & Hc2). rewrite E in E'. injection E' as <-.
  assert (Hcnt : forall c, count_at c w3 = count_at c w).
  { intros c. rewrite (quiet_count _ _ _ Q3), <- (quiet_count _ _ _ Q1). unfold count_at. by rewrite Hc2. }
  destruct (count_move_ok ∅ rho mx mn w3 a b N HG) as (w4 & E4 & HG4 & Hth4 & Hh4 & Hx4 & Hn4); [by rewrite Hcnt..|lia|lia|].
  assert (Hu4 : forall u, thr u w4 = thr u w2) by (intros u; unfold thr; by rewrite Hth4, (proj1 Q3)).
  assert (Hu : forall u, u <> t -> thr u w4 = thr u w) by (intros u Nu; rewrite Hu4, Ho2 by done; unfold thr; by rewrite (proj1 Q1)).
  exists w4. split_and!; [done|done| |split; [by rewrite Hu4|done]]. split.
  - intros c. by rewrite Hh4, (quiet_hdr _ _ _ Q3), Hc2, (quiet_hdr _ _ _ Q1).
  - intros u. destruct (decide (u = t)) as [->|Nu]; [right; exists th; rewrite Hu4; by split_and!|left; by apply Hu].
  - by rewrite Hx4, Ha.
  - by rewrite Hn4, Hb.
Qed.

(** A thread that is not in any list is put among the sleepers of its CPU. *)
Lemma good_asleep X rho c t th cu w : Good X rho w -> t ∈ X -> thr t w = Some th -> cpu_at c w = Some cu ->
  where_ t th w = Some (Asleep c) ->
  exists w', upd_cpu c (fun cu => set_sleeping (insert_sleeper (threads w) t (sleep_end th) (sleeping_threads cu)) cu) w = Some w' /\
    Good (X ∖ {[t]}) rho w'.
Proof.
  intros HG HX Ht Hc Hw. pose proof HG as [HW HL HR HS].
  destruct (upd_sleeping_ok c (insert_sleeper (threads w) t (sleep_end th)) w cu Hc) as (w' & E & Hk & Ho).
  assert (HM : moved c w w') by (by eapply moved_upd_cpu). exists w'. split; [done|]. split.
  - by eapply wf_upd_cpu; [exact E|..].
  - eapply (lists_put X w w' t th (Asleep c)); try done; [simpl; by rewrite Hc|apply HM| |apply insert_sleeper_perm].
    intros. by eapply idle_upd_cpu.
  - eapply keeps_run; [apply HM| |done]. intros. by eapply idle_upd_cpu.
  - eapply keeps_sorted; [exact E|done|]. intros cu' Hcu'. simpl. apply insert_sleeper_sorted; [unfold sleep_key; by rewrite Ht| |by apply (HS c)].
    intros x Hx. rewrite Hc in Hcu'. injection Hcu' as <-. destruct (asleep_in _ _ _ _ _ x HG Hc Hx) as (xth & Hxth & _). exists xth.
    split; [exact Hxth|]. unfold sleep_key. by rewrite Hxth.
Qed.

Lemma not_idle_else rho w t th mx mn cn : Good ∅ rho w -> mx <> mn -> thr t w = Some th -> cpu th = mx -> cpu_at mn w = Some cn -> t <> idle_thread cn.
Proof.
  intros HG N Ht Hc Hn ->. destruct (proj2 (proj2 (proj2 (good_wf _ _ _ HG))) mn cn Hn) as [_ (ith & Hi & Hic)]. congruence.
Qed.

(** The threads of a list. *)
Lemma listed rho w k l t : Good ∅ rho w -> list_at k w = Some l -> t ∈ l -> exists th, thr t w = Some th /\ where_ t th w = Some k.
Proof.
  intros HG Hk Ht. apply (proj2 (good_lists _ _ _ HG k l Hk)) in Ht. unfold place in Ht. rewrite decide_False in Ht by set_solver.
  destruct (thr t w) as [th|]; [|done]. by exists th.
Qed.

Lemma where_key t th w k : where_ t th w = Some k -> is_idle t th w = false /\ status th <> Running /\
  ((status th = Waiting /\ k = Ready (cpu th) (level_index th)) \/ (status th = Sleeping /\ k = Asleep (cpu th))).
Proof. unfold where_. destruct (is_idle t th w); [done|]. destruct (status th); intros [= <-]; split_and!; try done; [by left|by right]. Qed.

Section Move.
Context (rho : owners) (mx mn : Z) (N : mx <> mn).

Definition one_ready (i t : Z) (w : world) : option world :=
  w ← upd_level mx i (filter (fun x => x <> t)) w;
  w ← upd_thr t (set_cpu mn) w;
  w ← queue mn t w;
  count_move mx mn w.

Definition one_sleeper (t e : Z) (w : world) : option world :=
  w ← upd_cpu mx (fun cu => set_sleeping (filter (fun x => x <> t) (sleeping_threads cu)) cu) w;
  w ← upd_thr t (set_cpu mn) w;
  w ← upd_cpu mn (fun cu => set_sleeping (insert_sleeper (threads w) t e (sleeping_threads cu)) cu) w;
  count_move mx mn w.

Lemma one_ready_ok w i l t th d cn : Good ∅ rho w -> room mx mn d w -> 1 <= d -> cpu_at mn w = Some cn ->
  list_at (Ready mx i) w = Some l -> t ∈ l -> thr t w = Some th -> pin_cpu th = false -> move_lock th = false ->
  exists w', one_ready i t w = Some w' /\ Good ∅ rho w' /\ Step mx mn 1 w w' /\ moved_to mn t th w w'.
Proof.
  intros HG Hroom Hd Hn Hl Ht Hth Hp Hm. destruct (listed _ _ _ _ _ HG Hl Ht) as (th' & E & Hw). rewrite Hth in E. injection E as <-.
  apply where_key in Hw as (Hi & Hnr & [[Hst Hk]|[_ Hk]]); [|done]. injection Hk as Hc Hlev. symmetry in Hc.
  simpl in Hl. destruct (cpu_at mx w) as [cx|] eqn:Hx; [|done]. simpl in Hl.
  destruct (good_unqueue ∅ rho mx w cx i l t HG Hx Hl Ht) as (w1 & E1 & HG1 & Ht1 & _ & Hx1 & Ho1).
  assert (Q1 : quiet w w1) by (split; [done|]; intros c; destruct (decide (c = mx)) as [->|]; [by rewrite Hx1, Hx|by rewrite Ho1]).
  assert (Hth1 : thr t w1 = Some th) by (unfold thr; by rewrite Ht1). assert (Hn1 : cpu_at mn w1 = Some cn) by (by rewrite Ho1).
  assert (Hi1 : is_idle t th w1 = false) by (unfold is_idle in *; rewrite Hc, Hx1; by rewrite Hc, Hx in Hi).
  destruct (good_set_cpu _ rho w1 t th mn cn HG1 ltac:(set_solver) Hth1 Hnr Hm Hi1 Hn1) as (w2 & E2 & HG2 & Hth2 & Ho2 & Hc2).
  assert (Hw2 : where_ t (set_cpu mn th) w2 = Some (Ready mn (level_index th))).
  { unfold where_. rewrite (idle_of w2 mn cn) by (by rewrite ?Hc2). rewrite (proj2 (Z.eqb_neq _ _)) by (by eapply not_idle_else). simpl. by rewrite Hst. }
  destruct (good_queue _ rho mn t _ w2 HG2 ltac:(set_solver) Hth2 Hw2) as (w3 & E3 & HG3 & _).
  replace (({[t]} ∪ ∅) ∖ {[t]}) with (∅ : gset Z) in HG3 by set_solver.
  destruct (finish_move rho mx mn w w1 w2 w3 t th d N Hd Hroom Q1 Hth Hp Hc Hnr E2 (quiet_queue _ _ _ _ E3) HG3) as (w4 & E4 & H4).
  exists w4. unfold one_ready. rewrite E1. cbn [mbind option_bind]. rewrite E2. cbn [mbind option_bind]. rewrite E3. cbn [mbind option_bind]. done.
Qed.

Lemma one_sleeper_ok w l t th d cn : Good ∅ rho w -> room mx mn d w -> 1 <= d -> cpu_at mn w = Some cn ->
  list_at (Asleep mx) w = Some l -> t ∈ l -> thr t w = Some th -> pin_cpu th = false -> move_lock th = false ->
  exists w', one_sleeper t (sleep_end th) w = Some w' /\ Good ∅ rho w' /\ Step mx mn 1 w w' /\ moved_to mn t th w w'.
Proof.
  intros HG Hroom Hd Hn Hl Ht Hth Hp Hm. destruct (listed _ _ _ _ _ HG Hl Ht) as (th' & E & Hw). rewrite Hth in E. injection E as <-.
  apply where_key in Hw as (Hi & Hnr & [[_ Hk]|[Hst Hk]]); [done|]. injection Hk as Hc. symmetry in Hc.
  simpl in Hl. destruct (cpu_at mx w) as [cx|] eqn:Hx; [|done]. injection Hl as <-.
  destruct (good_unsleep ∅ rho mx w cx t HG Hx Ht) as (w1 & E1 & HG1 & HM1 & _).
  assert (Q1 : quiet w w1) by (by eapply quiet_cpu). pose proof (cpu_upd_cpu _ _ _ _ _ mx E1 Hx) as Hx1. rewrite decide_True in Hx1 by done.
  assert (Hth1 : thr t w1 = Some th) by (unfold thr; by rewrite (proj1 Q1)).
  assert (Hn1 : cpu_at mn w1 = Some cn) by (rewrite (cpu_upd_cpu _ _ _ _ _ mn E1 Hx); by rewrite decide_False).
  assert (Hi1 : is_idle t th w1 = false) by (unfold is_idle in *; rewrite Hc, Hx1; by rewrite Hc, Hx in Hi).
  destruct (good_set_cpu _ rho w1 t th mn cn HG1 ltac:(set_solver) Hth1 Hnr Hm Hi1 Hn1) as (w2 & E2 & HG2 & Hth2 & Ho2 & Hc2).
  assert (Hn2 : cpu_at mn w2 = Some cn) by (by rewrite Hc2).
  assert (Hw2 : where_ t (set_cpu mn th) w2 = Some (Asleep mn)).
  { unfold where_. rewrite (idle_of w2 mn cn) by done. rewrite (proj2 (Z.eqb_neq _ _)) by (by eapply not_idle_else). simpl. by rewrite Hst. }
  destruct (good_asleep _ rho mn t _ cn w2 HG2 ltac:(set_solver) Hth2 Hn2 Hw2) as (w3 & E3 & HG3).
  replace (({[t]} ∪ ∅) ∖ {[t]}) with (∅ : gset Z) in HG3 by set_solver.
  assert (Q3 : quiet w2 w3) by (by eapply quiet_cpu).
  destruct (finish_move rho mx mn w w1 w2 w3 t th d N Hd Hroom Q1 Hth Hp Hc Hnr E2 Q3 HG3) as (w4 & E4 & H4).
  exists w4. unfold one_sleeper. rewrite E1. cbn [mbind option_bind]. rewrite E2. cbn [mbind option_bind]. simpl in E3. rewrite E3. cbn [mbind option_bind]. done.
Qed.

(** ** The loops *)

Definition unlocked (w : world) : Prop := forall t th, thr t w = Some th -> move_lock th = false.

Lemma step_unlocked n w w' : Step mx mn n w w' -> unlocked w -> unlocked w'.
Proof.
  intros [_ HM _ _] HU t th Ht. destruct (HM t) as [E|(th' & H1 & _ & _ & _ & H5)]; [rewrite E in Ht; by eapply HU|].
  rewrite H5 in Ht. injection Ht as <-. simpl. by eapply HU.
Qed.

Lemma step_where n w w' t th : Step mx mn n w w' -> where_ t th w' = where_ t th w.
Proof.
  intros [Hh _ _ _]. specialize (Hh (cpu th)). unfold where_, is_idle. destruct (cpu_at (cpu th) w), (cpu_at (cpu th) w'); simpl in Hh; unfold hdr in Hh; try done.
  by injection Hh as _ _ _ ->.
Qed.

Lemma step_cpu n w w' c : Step mx mn n w w' -> is_Some (cpu_at c w) -> is_Some (cpu_at c w').
Proof. intros [Hh _ _ _] [cu Hc]. specialize (Hh c). rewrite Hc in Hh. destruct (cpu_at c w'); [by eexists|done]. Qed.

(** What a loop over the threads [ts] of list [K] gives. *)
Definition Moved (ts : list Z) (d : Z) (w : world) (r : option (Z * world)) : Prop :=
  exists d' w', r = Some (d', w') /\ Good ∅ rho w' /\ 0 <= d' <= d /\ Step mx mn (d - d') w w' /\
    (d' = 0 \/ forall u th, u ∈ ts -> thr u w' = Some th -> cpu th = mx -> pin_cpu th = true).

Definition All_at (K : key) (ts : list Z) (w : world) : Prop := forall u, u ∈ ts -> exists th, thr u w = Some th /\ where_ u th w = Some K.

Lemma move_loop (F : list Z -> Z -> world -> option (Z * world)) K :
  (forall d w, F [] d w = Some (d, w)) ->
  (forall t ts d w th, thr t w = Some th -> move_lock th = false -> where_ t th w = Some K -> pin_cpu th = true -> F (t :: ts) d w = F ts d w) ->
  (forall t ts d w th, Good ∅ rho w -> room mx mn d w -> 1 <= d -> is_Some (cpu_at mn w) -> thr t w = Some th -> move_lock th = false ->
     where_ t th w = Some K -> pin_cpu th = false ->
     exists w', F (t :: ts) d w = (if d - 1 =? 0 then Some (d - 1, w') else F ts (d - 1) w') /\
       Good ∅ rho w' /\ Step mx mn 1 w w' /\ moved_to mn t th w w') ->
  forall ts d w, Good ∅ rho w -> room mx mn d w -> 1 <= d -> is_Some (cpu_at mn w) -> unlocked w -> NoDup ts -> All_at K ts w ->
  Moved ts d w (F ts d w).
Proof.
  intros F0 Fskip Fmove. induction ts as [|t ts IH]; intros d w HG Hroom Hd Hn HU ND HA.
  { exists d, w. rewrite F0, Z.sub_diag. split_and!; try (done || lia); [apply step_refl|]. right. intros u th []%elem_of_nil. }
  apply NoDup_cons in ND as [Ht ND]. destruct (HA t ltac:(left)) as (th & Hth & Hw). pose proof (HU t th Hth) as Hm.
  assert (HA' : All_at K ts w) by (intros u Hu; apply HA; by right). destruct (pin_cpu th) eqn:Hp.
  - rewrite (Fskip t ts d w th) by done. destruct (IH d w HG Hroom Hd Hn HU ND HA') as (d' & w' & E & HG' & Hd' & HS & Hall).
    exists d', w'. split_and!; try (done || lia). destruct Hall as [->|Hall]; [by left|right]. intros u uth [->|Hu]%elem_of_cons Hut Huc; [|by eapply Hall].
    destruct (step_moves _ _ _ _ _ HS t) as [E'|(th' & H1 & H2 & _)]; congruence.
  - destruct (Fmove t ts d w th) as (w1 & E & HG1 & HS1 & Ht1 & Ho1); try done.
    assert (Hne : forall u, u ∈ ts -> u <> t) by (intros u Hu ->; done). rewrite E. destruct (d - 1 =? 0) eqn:Ed.
    + apply Z.eqb_eq in Ed. exists (d - 1), w1. replace (d - (d - 1)) with 1 by lia. split_and!; try (done || lia); by left.
    + apply Z.eqb_neq in Ed. destruct (IH (d - 1) w1) as (d' & w' & E' & HG' & Hd' & HS & Hall); [done| |lia|by eapply step_cpu|by eapply step_unlocked|done| |].
      { eapply room_step; [exact HS1|lia|]. by replace (1 + (d - 1)) with d by lia. }
      { intros u Hu. destruct (HA' u Hu) as (uth & Hut & Huw). exists uth. rewrite Ho1 by auto. by rewrite (step_where _ _ _ _ _ HS1). }
      exists d', w'. replace (d - d') with (1 + (d - 1 - d')) by lia.
      pose proof (step_trans _ _ _ _ _ _ _ N HS1 HS) as HS'. split_and!; try (done || lia).
      destruct Hall as [->|Hall]; [by left|right]. intros u uth [->|Hu]%elem_of_cons Hut Huc; [|by eapply Hall].
      destruct (step_moves _ _ _ _ _ HS t) as [E2|(th2 & _ & _ & _ & _ & G5)].
      * rewrite E2, Ht1 in Hut. injection Hut as <-. simpl in Huc. by destruct N.
      * rewrite G5 in Hut. injection Hut as <-. simpl in Huc. by destruct N.
Qed.

Lemma at_list K w u th : Good ∅ rho w -> thr u w = Some th -> where_ u th w = Some K -> forall l, list_at K w = Some l -> u ∈ l.
Proof. intros HG Ht Hw l Hl. apply (proj2 (good_lists _ _ _ HG K l Hl)). by rewrite (place_out ∅ _ _ th) by (set_solver || done). Qed.

Lemma list_ex w u th K : Good ∅ rho w -> thr u w = Some th -> where_ u th w = Some K -> exists l, list_at K w = Some l.
Proof.
  intros HG Ht Hw. destruct (proj1 (proj2 (proj2 (good_wf _ _ _ HG))) u th Ht) as (_ & _ & Hlev & [cu Hc]).
  apply where_key in Hw as (_ & _ & [[_ ->]|[_ ->]]); simpl; rewrite Hc; simpl; [|by eexists]. eapply wf_level; [apply HG|done|done].
Qed.

Lemma move_ready_ok i ts d w : Good ∅ rho w -> room mx mn d w -> 1 <= d -> is_Some (cpu_at mn w) -> unlocked w -> NoDup ts ->
  All_at (Ready mx i) ts w -> Moved ts d w (move_ready ts i mx mn d w).
Proof.
  apply (move_loop (fun ts d w => move_ready ts i mx mn d w) (Ready mx i)); [done| |].
  - intros t ts' d' w' th Ht Hm _ Hp. cbn [move_ready]. rewrite Ht. cbn [mbind option_bind]. by rewrite Hm, Hp.
  - intros t ts' d' w' th HG Hr Hd [cn Hn] Ht Hm Hw Hp. destruct (list_ex _ _ _ _ HG Ht Hw) as [l Hl].
    destruct (one_ready_ok w' i l t th d' cn HG Hr Hd Hn Hl) as (w1 & E & H1); try done; [by eapply at_list|].
    exists w1. split; [|exact H1]. apply where_key in Hw as (_ & _ & [[Hst _]|[_ ?]]); [|done].
    cbn [move_ready]. rewrite Ht. cbn [mbind option_bind]. rewrite Hm, Hp, Hst. unfold one_ready in E. simpl.
    destruct (upd_level mx i _ w') as [wa|]; [|done]. cbn [mbind option_bind] in E |- *.
    destruct (upd_thr t _ wa) as [wb|]; [|done]. cbn [mbind option_bind] in E |- *.
    destruct (queue mn t wb) as [wc|]; [|done]. cbn [mbind option_bind] in E |- *. by rewrite E.
Qed.

Lemma move_sleeping_ok ts d w : Good ∅ rho w -> room mx mn d w -> 1 <= d -> is_Some (cpu_at mn w) -> unlocked w -> NoDup ts ->
  All_at (Asleep mx) ts w -> Moved ts d w (move_sleeping ts mx mn d w).
Proof.
  apply (move_loop (fun ts d w => move_sleeping ts mx mn d w) (Asleep mx)); [done| |].
  - intros t ts' d' w' th Ht Hm _ Hp. cbn [move_sleeping]. rewrite Ht. cbn [mbind option_bind]. by rewrite Hp.
  - intros t ts' d' w' th HG Hr Hd [cn Hn] Ht Hm Hw Hp. destruct (list_ex _ _ _ _ HG Ht Hw) as [l Hl].
    destruct (one_sleeper_ok w' l t th d' cn HG Hr Hd Hn Hl) as (w1 & E & H1); try done; [by eapply at_list|].
    exists w1. split; [|exact H1]. cbn [move_sleeping]. rewrite Ht. cbn [mbind option_bind]. rewrite Hp. unfold one_sleeper in E. simpl.
    destruct (upd_cpu mx _ w') as [wa|]; [|done]. cbn [mbind option_bind] in E |- *.
    destruct (upd_thr t _ wa) as [wb|]; [|done]. cbn [mbind option_bind] in E |- *.
    destruct (upd_cpu mn _ wb) as [wc|]; [|done]. cbn [mbind option_bind] in E |- *. by rewrite E.
Qed.

Lemma all_at_list K l w : Good ∅ rho w -> list_at K w = Some l -> NoDup l /\ All_at K l w.
Proof. intros HG Hl. split; [by apply (good_lists _ _ _ HG K)|]. intros u Hu. by eapply listed. Qed.

(** What is left on the busiest CPU when not all of [d] were moved. *)
Definition Pinned (P : Thread -> Prop) (w : world) : Prop :=
  forall u th, thr u w = Some th -> cpu th = mx -> is_idle u th w = false -> P th -> pin_cpu th = true.

Lemma pinned_step n P w w' : Step mx mn n w w' -> Pinned P w -> Pinned P w'.
Proof.
  intros HS HP u th Ht Hc Hi HPt. destruct (step_moves _ _ _ _ _ HS u) as [E|(th' & H1 & _ & _ & _ & H5)].
  - apply (HP u th); try done; [congruence|]. destruct HS as [Hh _ _ _]. specialize (Hh (cpu th)). unfold is_idle in *.
    destruct (cpu_at (cpu th) w), (cpu_at (cpu th) w'); simpl in Hh; unfold hdr in Hh; try done. by injection Hh as _ _ _ <-.
  - rewrite H5 in Ht. injection Ht as <-. by destruct N.
Qed.

(** A loop over a whole list leaves only pinned threads of it. *)
Lemma moved_pinned K l d w r (P : Thread -> Prop) : list_at K w = Some l -> Moved l d w r ->
  (forall u th, cpu th = mx -> P th -> is_idle u th w = false -> where_ u th w = Some K) -> Good ∅ rho w ->
  exists d' w', r = Some (d', w') /\ Good ∅ rho w' /\ 0 <= d' <= d /\ Step mx mn (d - d') w w' /\ (d' = 0 \/ Pinned P w').
Proof.
  intros Hl (d' & w' & E & HG' & Hd & HS & Hall) HPK HG. exists d', w'. split_and!; try (done || lia).
  destruct Hall as [->|Hall]; [by left|right]. intros u th Ht Hc Hi HPt. eapply Hall; [|exact Ht|exact Hc].
  destruct (step_moves _ _ _ _ _ HS u) as [E'|(th' & _ & _ & _ & _ & H5)]; [|rewrite H5 in Ht; injection Ht as <-; by destruct N].
  eapply at_list; [exact HG| |apply (HPK u th)|exact Hl]; try done; [congruence|]. destruct HS as [Hh _ _ _]. specialize (Hh (cpu th)). unfold is_idle in *.
  destruct (cpu_at (cpu th) w), (cpu_at (cpu th) w'); simpl in Hh; unfold hdr in Hh; try done. by injection Hh as _ _ _ <-.
Qed.

Lemma move_levels_ok is_ : forall d w, Good ∅ rho w -> room mx mn d w -> 0 <= d -> is_Some (cpu_at mn w) -> is_Some (cpu_at mx w) -> unlocked w ->
  (forall i, i ∈ is_ -> 0 <= i < SCHED_LEVELS) ->
  exists d' w', move_levels is_ mx mn d w = Some (d', w') /\ Good ∅ rho w' /\ 0 <= d' <= d /\ Step mx mn (d - d') w w' /\
    (d' = 0 \/ Pinned (fun th => status th = Waiting /\ level_index th ∈ is_) w').
Proof.
  induction is_ as [|i is_ IH]; intros d w HG Hr Hd Hn Hx HU Hin; cbn [move_levels].
  { exists d, w. rewrite Z.sub_diag. split_and!; try (done || lia); [apply step_refl|]. right. intros u th _ _ _ [_ []%elem_of_nil]. }
  destruct (d =? 0) eqn:Ed.
  { apply Z.eqb_eq in Ed. exists d, w. rewrite Z.sub_diag. split_and!; try (done || lia). apply step_refl. }
  apply Z.eqb_neq in Ed. destruct Hx as [cx Hx]. destruct (wf_level w mx cx i (good_wf _ _ _ HG) Hx) as [l Hl]; [apply Hin; left|].
  rewrite Hx. cbn [mbind option_bind]. rewrite Hl. cbn [mbind option_bind].
  assert (Hla : list_at (Ready mx i) w = Some l) by (simpl; by rewrite Hx). destruct (all_at_list _ _ _ HG Hla) as [ND HA].
  destruct (moved_pinned _ _ _ _ _ (fun th => status th = Waiting /\ level_index th = i) Hla (move_ready_ok i l d w HG Hr ltac:(lia) Hn HU ND HA))
    as (d1 & w1 & E1 & HG1 & Hd1 & HS1 & HP1); [|done|].
  { intros u th Hc [Hst Hlev] Hi. unfold where_. by rewrite Hi, Hst, Hc, Hlev. }
  rewrite E1. cbn [mbind option_bind]. destruct (IH d1 w1) as (d2 & w2 & E2 & HG2 & Hd2 & HS2 & HP2); try done.
  { eapply room_step; [exact HS1|lia|]. by replace (d - d1 + d1) with d by lia. }
  { lia. } { by eapply step_cpu. } { eapply step_cpu; [exact HS1|by eexists]. } { by eapply step_unlocked. } { intros. apply Hin. by right. }
  exists d2, w2. replace (d - d2) with (d - d1 + (d1 - d2)) by lia. pose proof (step_trans _ _ _ _ _ _ _ N HS1 HS2). split_and!; try (done || lia).
  destruct HP2 as [->|HP2]; [by left|]. destruct HP1 as [->|HP1]; [left; lia|]. right. pose proof (pinned_step _ _ _ _ HS2 HP1) as HP1'.
  intros u th Ht Hc Hi [Hst [Hlev|Hlev]%elem_of_cons]; [by apply (HP1' u th)|by apply (HP2 u th)].
Qed.
End Move.

(** ** A round *)

Lemma extremes_ok w ids : forall mc xc mi xi, (forall i, i ∈ ids -> exists n, count_at i w = Some n /\ 0 <= n < 2 ^ 32) ->
  exists mc' xc' mi' xi', extremes ids mc xc mi xi w = Some (mc', xc', mi', xi') /\ mc' <= mc /\ xc <= xc' /\
    (forall i n, i ∈ ids -> count_at i w = Some n -> mc' <= n <= xc') /\
    (mc' < mc -> mi' ∈ ids /\ count_at mi' w = Some mc') /\ (mc' = mc -> mi' = mi) /\
    (xc < xc' -> xi' ∈ ids /\ count_at xi' w = Some xc') /\ (xc' = xc -> xi' = xi).
Proof.
  induction ids as [|i ids IH]; intros mc xc mi xi Hin; cbn [extremes].
  { exists mc, xc, mi, xi. split_and!; try (done || lia). intros i n []%elem_of_nil. }
  destruct (Hin i ltac:(left)) as (n & Hn & Hb). pose proof Hn as Hn'. unfold count_at in Hn'. destruct (cpu_at i w) as [cu|] eqn:Hc; [|done].
  injection Hn' as Hn'. cbn [mbind option_bind]. rewrite Hn'.
  assert (Hin' : forall j, j ∈ ids -> exists n, count_at j w = Some n /\ 0 <= n < 2 ^ 32) by (intros j Hj; apply Hin; by right).
  destruct (n <? mc) eqn:E1; destruct (n >? xc) eqn:E2; rewrite ?Z.gtb_ltb in E2;
    (apply Z.ltb_lt in E1 || apply Z.ltb_ge in E1); (apply Z.ltb_lt in E2 || apply Z.ltb_ge in E2);
    [destruct (IH n n i i Hin') as (mc' & xc' & mi' & xi' & -> & H)|destruct (IH n xc i xi Hin') as (mc' & xc' & mi' & xi' & -> & H)
    |destruct (IH mc n mi i Hin') as (mc' & xc' & mi' & xi' & -> & H)|destruct (IH mc xc mi xi Hin') as (mc' & xc' & mi' & xi' & -> & H)];
    exists mc', xc', mi', xi'; destruct H as (L1 & L2 & HA & H1 & H2 & H3 & H4); (split_and!; [done|lia|lia|..]);
    try (intros j m [->|Hj]%elem_of_cons Hm; [assert (m = n) by congruence; lia|by apply (HA j)]).
  all: intros; try lia; rewrite ?elem_of_cons.
  all: try (by apply H2; lia); try (by apply H4; lia).
  all: try (destruct H3; [lia|]; by split; [right|]); try (destruct H1; [lia|]; by split; [right|]).
  all: try (destruct (decide (xc' = n)) as [->|]; [rewrite H4 by done; by split; [left|]|destruct H3; [lia|]; by split; [right|]]).
  all: try (destruct (decide (mc' = n)) as [->|]; [rewrite H2 by done; by split; [left|]|destruct H1; [lia|]; by split; [right|]]).
Qed.

Lemma inv_unlocked w : Inv w -> unlocked w.
Proof.
  intros [HG HC] t th Ht. destruct (move_lock th) eqn:Hm; [|done]. destruct (good_run _ _ _ HG t th Ht) as [_ H]. specialize (H Hm). simpl in H.
  destruct (proj1 (proj2 (proj2 (good_wf _ _ _ HG))) t th Ht) as (_ & _ & _ & [cu Hc]). rewrite (cur_of_at _ _ _ Hc) in H.
  destruct (HC _ cu Hc) as [_ (th' & Ht' & _ & _ & Hm')]. congruence.
Qed.

Lemma balanced_inv mx mn n w w' : Inv w -> Good ∅ (cur_of w, cur_of w) w' -> Step mx mn n w w' -> Inv w'.
Proof.
  intros HI HG HS. eapply inv_keeps; [exact HI|exact HG|]. split; [apply HS|]. intros u th Ht Hst.
  destruct (step_moves _ _ _ _ _ HS u) as [->|(th' & H1 & _ & _ & H4 & _)]; [done|congruence].
Qed.

Lemma count_cpu c w n : count_at c w = Some n -> is_Some (cpu_at c w).
Proof. unfold count_at. destruct (cpu_at c w); [by eexists|done]. Qed.

Lemma rev_numbers i : i ∈ rev level_numbers <-> 0 <= i < SCHED_LEVELS.
Proof. rewrite <- numbers_range, !list_elem_of_In. symmetry. apply in_rev. Qed.

(** The moving part of a round. *)
Lemma move_ok w mx mn a b : Inv w -> mx <> mn -> count_at mx w = Some a -> count_at mn w = Some b -> 0 <= b -> b < a < 2 ^ 32 ->
  exists w' n, ('(d, w) ← move_levels (rev level_numbers) mx mn (a - b) w;
     if d =? 0 then Some w else cu ← cpu_at mx w; '(_, w) ← move_sleeping (sleeping_threads cu) mx mn d w; Some w) = Some w' /\
    Inv w' /\ 0 <= n <= a - b /\ Step mx mn n w w' /\
    (n = a - b \/ Pinned mx (fun th => status th = Waiting \/ status th = Sleeping) w').
Proof.
  intros HI N Ha Hb Hb0 Hab. pose proof (proj1 HI) as HG. pose proof (inv_unlocked w HI) as HU.
  assert (Hroom : room mx mn (a - b) w) by (exists a, b; split_and!; done || lia).
  destruct (move_levels_ok _ mx mn N (rev level_numbers) (a - b) w HG Hroom) as (d & w1 & E1 & HG1 & Hd & HS1 & HP1);
    [lia|by eapply count_cpu|by eapply count_cpu|done|by intros i ?%rev_numbers|].
  rewrite E1. cbn [mbind option_bind]. destruct (d =? 0) eqn:Ed.
  { apply Z.eqb_eq in Ed. subst d. exists w1, (a - b). rewrite Z.sub_0_r in HS1. split_and!; try (done || lia). by eapply balanced_inv. }
  apply Z.eqb_neq in Ed. destruct HP1 as [?|HP1]; [done|]. destruct (step_cpu mx mn _ _ _ mx HS1 (count_cpu _ _ _ Ha)) as [cx Hx].
  rewrite Hx. cbn [mbind option_bind]. assert (Hl : list_at (Asleep mx) w1 = Some (sleeping_threads cx)) by (simpl; by rewrite Hx).
  destruct (all_at_list _ _ _ _ HG1 Hl) as [ND HA].
  destruct (moved_pinned _ mx mn N _ _ _ _ _ (fun th => status th = Sleeping) Hl (move_sleeping_ok _ mx mn N (sleeping_threads cx) d w1 HG1
    ltac:(eapply room_step; [exact HS1|lia|]; by replace (a - b - d + d) with (a - b) by lia) ltac:(lia)
    (step_cpu mx mn _ _ _ mn HS1 (count_cpu _ _ _ Hb)) (step_unlocked mx mn _ _ _ HS1 HU) ND HA)) as (d' & w2 & E2 & HG2 & Hd2 & HS2 & HP2); [|done|].
  { intros u th Hc Hst Hi. unfold where_. by rewrite Hi, Hst, Hc. }
  rewrite E2. cbn [mbind option_bind]. exists w2, (a - b - d'). replace (a - b - d') with (a - b - d + (d - d')) by lia.
  pose proof (step_trans _ _ _ _ _ _ _ N HS1 HS2) as HS. split_and!; try (done || lia); [by eapply balanced_inv|].
  destruct HP2 as [->|HP2]; [left; lia|]. right. pose proof (pinned_step mx mn N _ _ _ _ HS2 HP1) as HP1'. intros u th Ht Hc Hi [Hst|Hst]; [|by apply (HP2 u th)].
  apply (HP1' u th); try done. split; [done|]. apply rev_numbers. by destruct (proj1 (proj2 (proj2 (good_wf _ _ _ HG2))) u th Ht) as (_ & _ & ? & _).
Qed.

Lemma balance_ok (ids : list Z) (w : world) : Inv w ->
  (forall i, i ∈ ids -> exists n, count_at i w = Some n /\ 0 <= n < 2 ^ 32) ->
  exists w', balance ids w = Some w' /\ Inv w' /\
    ((w' = w /\ forall i j a b, i ∈ ids -> j ∈ ids -> count_at i w = Some a -> count_at j w = Some b -> a - b < 2) \/
     exists mx mn a b n, mx ∈ ids /\ mn ∈ ids /\ mx <> mn /\ count_at mx w = Some a /\ count_at mn w = Some b /\ 2 <= a - b /\
       (forall i x, i ∈ ids -> count_at i w = Some x -> b <= x <= a) /\
       0 <= n <= a - b /\ count_at mx w' = Some (a - n) /\ count_at mn w' = Some (b + n) /\ moves mx mn w w' /\
       (n = a - b \/ Pinned mx (fun th => status th = Waiting \/ status th = Sleeping) w')).
Proof.
  intros HI Hids. destruct (extremes_ok w ids (2 ^ 32 - 1) 0 0 0 Hids) as (b & a & mn & mx & E & Lb & La & HA & Hb1 & Hb2 & Ha1 & Ha2).
  unfold balance. rewrite E. cbn [mbind option_bind].
  assert (Hsame : (forall i j a b, i ∈ ids -> j ∈ ids -> count_at i w = Some a -> count_at j w = Some b -> a - b < 2) \/
    (2 <= a - b /\ mn <> mx /\ b < 2 ^ 32 - 1 /\ 0 < a /\ 0 <= b /\ a < 2 ^ 32)).
  { destruct (decide (2 <= a - b)) as [D|D]; [|left; intros i j x y Hi Hj Hx Hy; pose proof (HA i x Hi Hx); pose proof (HA j y Hj Hy); lia].
    destruct (decide (0 < a)) as [Da|Da]; [|left; intros i j x y Hi Hj Hx Hy; pose proof (HA i x Hi Hx); destruct (Hids j Hj) as (y' & Hy' & ?); assert (y' = y) by congruence; lia].
    destruct Ha1 as [Hmx Hcx]; [lia|]. destruct (Hids mx Hmx) as (a' & Ha' & Hba). assert (a' = a) by congruence. subst a'.
    destruct (decide (b < 2 ^ 32 - 1)) as [Db|Db]; [|lia]. destruct Hb1 as [Hmn Hcn]; [lia|]. destruct (Hids mn Hmn) as (b' & Hb' & Hbb).
    assert (b' = b) by congruence. subst b'. right. split_and!; try lia. intros ->. assert (a = b) by congruence. lia. }
  destruct Hsame as [Hs|(D & Nm & Db & Da & Hb0 & Ha0)].
  - exists w. split_and!; [|done|by left]. destruct (negb (mn =? mx) && (u32 (a - b) >=? 2)) eqn:Ec; [|done]. exfalso.
    apply andb_true_iff in Ec as [E1 E2]. rewrite negb_true_iff, Z.eqb_neq in E1. rewrite Z.geb_leb, Z.leb_le in E2.
    destruct ids as [|i ids]; [injection E as <- <- <- <-; done|]. destruct (Hids i ltac:(left)) as (x & Hx & Hxb). pose proof (HA i x ltac:(left) Hx) as Hx'.
    assert (0 <= b) by (destruct (decide (b < 2 ^ 32 - 1)); [destruct Hb1 as [Hmn Hcn]; [done|]; destruct (Hids mn Hmn) as (b' & Hb' & ?); assert (b' = b) by congruence|]; lia).
    destruct (decide (0 < a)) as [Da|Da]; [|rewrite u32_small in E2; lia]. destruct Ha1 as [Hmx Hcx]; [lia|].
    destruct (decide (b < 2 ^ 32 - 1)) as [Db|Db].
    + destruct Hb1 as [Hmn Hcn]; [lia|]. specialize (Hs mx mn a b Hmx Hmn Hcx Hcn). rewrite u32_small in E2; lia.
    + destruct (Hids mx Hmx) as (a' & Ha' & Hba). assert (a' = a) by congruence. subst a'. rewrite u32_small in E2; lia.
  - destruct Ha1 as [Hmx Hcx]; [lia|]. destruct Hb1 as [Hmn Hcn]; [lia|].
    rewrite (proj2 (Z.eqb_neq _ _) Nm), u32_small, Z.geb_leb, (proj2 (Z.leb_le _ _)) by lia. cbn [negb andb].
    destruct (move_ok w mx mn a b HI (not_eq_sym Nm) Hcx Hcn Hb0 ltac:(lia)) as (w' & n & E' & HI' & Hn & HS & HP).
    exists w'. split_and!; [exact E'|done|]. right. exists mx, mn, a, b, n. pose proof (step_max _ _ _ _ _ HS) as H1. pose proof (step_min _ _ _ _ _ HS) as H2.
    rewrite Hcx in H1. rewrite Hcn in H2. split_and!; try (done || lia). apply HS.
Qed.

(** A round of the load balancer keeps the invariant and who runs where.  When no
    two CPUs differ by two threads it does nothing.  Else it takes the busiest CPU,
    with [a] threads, and the least busy, with [b]: it moves [a - b] threads, which
    is all of the difference and not half of it, so that the counts of the two are
    then swapped, unless it runs out of threads that are not pinned. *)
Theorem balance_swaps_counts (ids : list Z) (w : world) : Inv w ->
  (forall i, i ∈ ids -> exists n, count_at i w = Some n /\ 0 <= n < 2 ^ 32) ->
  exists w', balance ids w = Some w' /\ Inv w' /\
    ((w' = w /\ forall i j a b, i ∈ ids -> j ∈ ids -> count_at i w = Some a -> count_at j w = Some b -> a - b < 2) \/
     exists mx mn a b n, mx ∈ ids /\ mn ∈ ids /\ mx <> mn /\ count_at mx w = Some a /\ count_at mn w = Some b /\ 2 <= a - b /\
       (forall i x, i ∈ ids -> count_at i w = Some x -> b <= x <= a) /\
       0 <= n <= a - b /\ count_at mx w' = Some (a - n) /\ count_at mn w' = Some (b + n) /\ moves mx mn w w' /\
       (n = a - b \/ Pinned mx (fun th => status th = Waiting \/ status th = Sleeping) w')).
Proof. exact (balance_ok ids w). Qed.

(** Two CPUs: threads 3 and 4 are ready on CPU 0, and CPU 1 is idle. *)
Definition duo_thread (c : Z) (st : Status) (lev : Z) : Thread := mkThread c 9 0 lev st false false false false false false.
Definition duo_threads : gmap Z Thread := list_to_map
  [(1, duo_thread 0 Running 0); (3, duo_thread 0 Waiting 0); (4, duo_thread 0 Waiting 2); (10, duo_thread 1 Running 0)].
Definition duo_cpu0 : Cpu := mkCpu [[3]; []; [4]; []; []; []; []; []; []; []; []; []] 1 1 4166 4166 [] 1 2 [] 0 [] (Some 4166) 1.
Definition duo_cpu1 : Cpu := mkCpu [[]; []; []; []; []; []; []; []; []; []; []; []] 10 10 4166 4166 [] 10 0 [] 0 [] (Some 4166) 10.
Definition duo : world := mkWorld duo_threads {[0 := duo_cpu0; 1 := duo_cpu1]} ∅ None.

Lemma duo_thr t th : thr t duo = Some th -> t ∈ [1; 3; 4; 10].
Proof.
  intros H. change (duo_threads !! t = Some th) in H. unfold duo_threads in H. apply elem_of_list_to_map_2 in H. by apply (list_elem_of_fmap_2 fst) in H.
Qed.

Lemma duo_cpu_at c cu : cpu_at c duo = Some cu -> (c = 0 /\ cu = duo_cpu0) \/ (c = 1 /\ cu = duo_cpu1).
Proof. unfold cpu_at. simpl. intros [[<- <-]|[_ [-> ->]%lookup_singleton_Some]]%lookup_insert_Some; auto. Qed.

Ltac each_thread Ht :=
  let Hin := fresh in pose proof (duo_thr _ _ Ht) as Hin; rewrite !elem_of_cons, elem_of_nil in Hin;
  repeat destruct Hin as [->|Hin]; try done; vm_compute in Ht; injection Ht as <-.

Lemma duo_list k l t : list_at k duo = Some l -> NoDup l /\ (t ∈ l -> place ∅ duo t = Some k).
Proof.
  destruct k as [c i|c]; simpl; destruct (cpu_at c duo) as [cu|] eqn:E; try done; apply duo_cpu_at in E as [[-> ->]|[-> ->]]; simpl.
  3, 4: intros [= <-]; split; [constructor|by intros []%elem_of_nil].
  all: unfold level_list; destruct (i <? 0) eqn:Ei; [done|]; apply Z.ltb_ge in Ei;
    replace i with (Z.of_nat (Z.to_nat i)) at 2 by lia; generalize (Z.to_nat i); clear; intros n H;
    do 12 (destruct n as [|n]; [simpl in H; injection H as <-; split; [apply (bool_decide_unpack _); reflexivity|];
      rewrite ?elem_of_cons, ?elem_of_nil; intros Ht; repeat destruct Ht as [->|Ht]; (reflexivity || done)|]); done.
Qed.

Lemma duo_inv : Inv duo.
Proof.
  split; [split|].
  - split_and!; [done|done| |].
    + intros t th Ht. each_thread Ht; (split_and!; [done|done|done|done|by eexists]).
    + intros c cu [[-> ->]|[-> ->]]%duo_cpu_at; (split; [done|]; eexists; split; reflexivity).
  - intros k l Hk. split; [by apply (duo_list k l 0)|]. intros t. split; [by apply duo_list|]. unfold place. rewrite decide_False by set_solver.
    destruct (thr t duo) as [th|] eqn:Ht; [|done]. intros HP. simpl in HP.
    each_thread Ht; vm_compute in HP; try done; injection HP as <-; vm_compute in Hk; injection Hk as <-; apply (bool_decide_unpack _); reflexivity.
  - intros t th Ht. each_thread Ht; split; try done; intros _; by left.
  - intros c cu [[-> ->]|[-> ->]]%duo_cpu_at; constructor.
  - intros c cu [[-> ->]|[-> ->]]%duo_cpu_at; (split; [done|]; eexists; split_and!; reflexivity).
Qed.

Lemma balance_swaps_counts_witness : exists w', balance [0; 1] duo = Some w' /\ Inv w' /\ count_at 0 w' = Some 0 /\ count_at 1 w' = Some 2.
Proof.
  destruct (balance_swaps_counts [0; 1] duo duo_inv) as (w' & E & HI & _).
  - intros i Hi. rewrite !elem_of_cons, elem_of_nil in Hi. destruct Hi as [->|[->|[]]]; [exists 2|exists 0]; (split; [reflexivity|lia]).
  - exists w'. split; [exact E|]. split; [exact HI|]. vm_compute in E. injection E as <-. split; reflexivity.
Defined.

End SchedBalance.
