(* ===== verification/SchedCorrect.v ===== *)
(** * What the scheduler guarantees

    The claims on the scheduler, from the lemmas of SchedRun.v, and what goes wrong
    where the code does not do what it means to. *)

From stdpp Require Import sorting.
From S2P Require Import Prelude Sched SchedInv SchedRun SchedBalance.

Module SchedCorrect.
Import Sched SchedInv SchedRun SchedBalance.

(** ** A machine with one CPU

    Thread 1 is idle, 2 runs, 3 is ready at level 0, 4 at level 2, 5 is blocked and
    6 and 7 sleep. *)
Definition demo_thread (st : Status) (lev se : Z) : Thread := mkThread 0 9 se lev st false false false false false false.
Definition demo_threads : gmap Z Thread := list_to_map
  [(1, demo_thread Waiting 0 0); (2, demo_thread Running 0 0); (3, demo_thread Waiting 0 0); (4, demo_thread Waiting 2 0);
   (5, demo_thread Blocked 1 0); (6, demo_thread Sleeping 0 5000); (7, demo_thread Sleeping 0 90000)].
Definition demo_cpu : Cpu :=
  mkCpu [[3]; []; [4]; []; []; []; []; []; []; []; []; []] 2 2 4166 4166 [6; 7] 1 6 [] 0 [] (Some 4166) 2.
Definition demo : world := mkWorld demo_threads {[0 := demo_cpu]} ∅ None.

Lemma demo_thr t th : thr t demo = Some th -> t ∈ [1; 2; 3; 4; 5; 6; 7].
Proof.
  intros H. change (demo_threads !! t = Some th) in H. unfold demo_threads in H. apply elem_of_list_to_map_2 in H. apply (list_elem_of_fmap_2 fst) in H.
  exact H.
Qed.

Lemma demo_cpu_at c cu : cpu_at c demo = Some cu -> c = 0 /\ cu = demo_cpu.
Proof. unfold cpu_at. simpl. intros [-> ->]%lookup_singleton_Some. done. Qed.

Lemma demo_world_wf : Wf demo.
Proof.
  split_and!; [done|done| |].
  - intros t th Ht. pose proof (demo_thr t th Ht) as Hin. rewrite !elem_of_cons, elem_of_nil in Hin.
    repeat destruct Hin as [->|Hin]; try done; vm_compute in Ht; injection Ht as <-; (split_and!; [done|done|done|done|by eexists]).
  - intros c cu [-> ->]%demo_cpu_at. split; [done|]. eexists. split; reflexivity.
Qed.

Lemma demo_lists : Lists ∅ demo.
Proof.
  assert (Hfwd : forall k l t, list_at k demo = Some l -> t ∈ l -> place ∅ demo t = Some k).
  { intros [c i|c] l t; simpl; destruct (cpu_at c demo) as [cu|] eqn:E; try done; apply demo_cpu_at in E as [-> ->]; simpl.
    - unfold level_list. destruct (i <? 0) eqn:Ei; [done|]. apply Z.ltb_ge in Ei. intros H.
      assert (Hi : i = Z.of_nat (Z.to_nat i)) by lia. rewrite Hi. clear Hi. revert H. generalize (Z.to_nat i). intros n H.
      do 12 (destruct n as [|n]; [simpl in H; injection H as <-; rewrite ?elem_of_cons, ?elem_of_nil; intros Ht;
        repeat destruct Ht as [->|Ht]; (reflexivity || done)|]). done.
    - intros [= <-]. rewrite !elem_of_cons, elem_of_nil. intros [->|[->|[]]]; reflexivity. }
  intros k l Hk. split.
  - destruct k as [c i|c]; simpl in Hk; destruct (cpu_at c demo) as [cu|] eqn:E; try done; apply demo_cpu_at in E as [-> ->]; simpl in Hk.
    + unfold level_list in Hk. destruct (i <? 0); [done|]. apply list_elem_of_lookup_2 in Hk. unfold demo_cpu in Hk. simpl in Hk.
      rewrite !elem_of_cons, elem_of_nil in Hk. repeat destruct Hk as [->|Hk]; try done; apply (bool_decide_unpack _); reflexivity.
    + injection Hk as <-. apply (bool_decide_unpack _); reflexivity.
  - intros t. split; [by apply Hfwd|]. intros HP. unfold place in HP. rewrite decide_False in HP by set_solver.
    destruct (thr t demo) as [th|] eqn:Ht; [|done]. simpl in HP. pose proof (demo_thr t th Ht) as Hin.
    rewrite !elem_of_cons, elem_of_nil in Hin.
    repeat destruct Hin as [->|Hin]; try done; vm_compute in Ht; injection Ht as <-; vm_compute in HP; try done; injection HP as <-;
      vm_compute in Hk; injection Hk as <-; apply (bool_decide_unpack _); reflexivity.
Qed.

Lemma demo_inv : Inv demo.
Proof.
  split.
  - split; [apply demo_world_wf|apply demo_lists| |].
    + intros t th Ht. pose proof (demo_thr t th Ht) as Hin. rewrite !elem_of_cons, elem_of_nil in Hin.
      repeat destruct Hin as [->|Hin]; try done; vm_compute in Ht; injection Ht as <-; split; try done. intros _. by left.
    + intros c cu [-> ->]%demo_cpu_at. repeat constructor. vm_compute. discriminate.
  - intros c cu [-> ->]%demo_cpu_at. split; [done|]. eexists. split_and!; reflexivity.
Qed.

(** ** Safety *)

(** The operations of SchedRun.v, and a round of the load balancer over CPUs whose counters
    are numbers of 32 bits. *)
Inductive act := Do (o : op) | Balance (ids : list Z).
Definition act_step (a : act) (w : world) : option world := match a with Do o => step o w | Balance ids => balance ids w end.
Definition act_permitted (a : act) (w : world) : Prop :=
  match a with Do o => permitted o w | Balance ids => forall i, i ∈ ids -> exists n, count_at i w = Some n /\ 0 <= n < 2 ^ 32 end.
Fixpoint acts (l : list act) (w : world) : option world := match l with [] => Some w | a :: l => w ← act_step a w; acts l w end.
Fixpoint acts_permitted (l : list act) (w : world) : Prop :=
  match l with [] => True | a :: l => act_permitted a w /\ forall w', act_step a w = Some w' -> acts_permitted l w' end.

Lemma acts_ok l : forall w, Inv w -> acts_permitted l w -> exists w', acts l w = Some w' /\ Inv w'.
Proof.
  induction l as [|a l IH]; intros w HI; cbn [acts acts_permitted]; [eauto|]. intros [Hp Ha].
  assert (H1 : exists w1, act_step a w = Some w1 /\ Inv w1).
  { destruct a as [o|ids]; cbn [act_step act_permitted] in *; [by apply step_ok|]. destruct (balance_ok ids w HI Hp) as (w1 & E & HI1 & _). eauto. }
  destruct H1 as (w1 & E & HI1). rewrite E. cbn [mbind option_bind]. apply IH; [done|]. by apply Ha.
Qed.

(** C16: Any sequence of timer interrupts, yields, blocks, sleeps, wake-ups of threads that
    are not running, new threads, rounds of the idle threads and rounds of the load balancer
    runs through, on any number of CPUs, and leaves every thread where its status says: a
    waiting thread is in the ready list of its CPU and level, a sleeping one among the
    sleepers of its CPU, a running one is the current thread of its CPU; no list has a
    thread twice or one that belongs elsewhere, and sleepers are in the order of their
    wake-up times.  Each operation is one step.  Exits of threads and processes are not
    among the operations, and idle threads neither block nor sleep: waking a running thread
    fails an assertion ([unblock_running_fails]), and the end of a process may lock up its CPU
    ([killed_ready_thread_deadlocks]). *)
Theorem sched_reachable_safe (os : list act) (w : world) : Inv w -> acts_permitted os w ->
  exists w', acts os w = Some w' /\ Inv w' /\
    (forall t th, thr t w' = Some th -> is_idle t th w' = false ->
       match status th with
       | Running => cur_of w' (cpu th) = t
       | Waiting => exists l, list_at (Ready (cpu th) (level_index th)) w' = Some l /\ t ∈ l
       | Sleeping => exists l, list_at (Asleep (cpu th)) w' = Some l /\ t ∈ l
       | Blocked => True
       end) /\
    (forall k l, list_at k w' = Some l -> NoDup l /\ forall t, t ∈ l -> exists th, thr t w' = Some th /\ where_ t th w' = Some k) /\
    (forall c cu, cpu_at c w' = Some cu -> StronglySorted (fun a b => sleep_key w' a <= sleep_key w' b) (sleeping_threads cu)).
Proof.
  intros HI Hp. destruct (acts_ok os w HI Hp) as (w' & E & HI'). exists w'. split; [done|]. split; [done|].
  destruct HI' as [[HW HL HR HS] _]. split; [|split; [|exact HS]].
  - intros t th Ht Hi. destruct (proj1 (proj2 (proj2 HW)) t th Ht) as (_ & _ & Hlev & [cu Hc]).
    assert (HP : place ∅ w' t = where_ t th w') by (apply place_out; [set_solver|done]). unfold where_ in HP. rewrite Hi in HP.
    destruct (status th) eqn:Hst; [|..|done|].
    + destruct (HR t th Ht) as [H _]. destruct (H Hst) as [H'|H']; [by rewrite H'|congruence].
    + destruct (wf_level w' _ cu _ HW Hc Hlev) as [l Hl]. assert (Hk : list_at (Ready (cpu th) (level_index th)) w' = Some l) by (simpl; by rewrite Hc).
      exists l. split; [done|]. by apply (HL _ _ Hk).
    + assert (Hk : list_at (Asleep (cpu th)) w' = Some (sleeping_threads cu)) by (simpl; by rewrite Hc).
      eexists. split; [exact Hk|]. by apply (HL _ _ Hk).
  - intros k l Hk. destruct (HL k l Hk) as [ND Hl]. split; [done|]. intros t Ht. apply Hl in Ht. unfold place in Ht.
    case_decide; [done|]. destruct (thr t w') as [th|]; [|done]. exists th. done.
Qed.

Definition demo_ops : list act := [Do (OnTimer 0 6000); Do (Block 0 6100); Do (Unblock 5); Do (SleepFor 0 2000 7000 7001); Do (Start 0 8 9); Balance [0]].

Lemma sched_reachable_safe_witness : (exists w', acts demo_ops demo = Some w' /\ Inv w' /\ cur_of w' 0 = 2) /\ exists w', acts [Balance [0; 1]; Do (IdlePoll 1)] duo = Some w' /\ Inv w' /\ cur_of w' 1 = 3.
Proof.
  split.
  - destruct (sched_reachable_safe demo_ops demo demo_inv) as (w' & E & HI & _).
    + split; [by eexists|]. intros w1 E1. vm_compute in E1. injection E1 as <-.
      split; [eexists; split; [reflexivity|done]|]. intros w2 E2. vm_compute in E2. injection E2 as <-.
      split; [eexists; split_and!; [reflexivity|done|reflexivity]|]. intros w3 E3. vm_compute in E3. injection E3 as <-.
      split; [eexists; split; [reflexivity|done]|]. intros w4 E4. vm_compute in E4. injection E4 as <-.
      split; [split_and!; [by eexists|reflexivity|done]|]. intros w5 E5. vm_compute in E5. injection E5 as <-.
      split; [|done]. intros i Hi. apply list_elem_of_singleton in Hi as ->. eexists. split; [reflexivity|split; [discriminate|reflexivity]].
    + exists w'. split; [exact E|]. split; [exact HI|]. vm_compute in E. injection E as <-. reflexivity.
  - destruct (sched_reachable_safe [Balance [0; 1]; Do (IdlePoll 1)] duo duo_inv) as (w' & E & HI & _).
    + split; [|intros w1 E1; vm_compute in E1; injection E1 as <-; split; [by eexists|done]]. intros i Hi. rewrite !elem_of_cons, elem_of_nil in Hi. destruct Hi as [->|[->|[]]]; (eexists; split; [reflexivity|split; [discriminate|reflexivity]]).
    + exists w'. split; [exact E|]. split; [exact HI|]. vm_compute in E. injection E as <-. reflexivity.
Defined.

(** ** Choosing *)

(** A thread that blocks gives its CPU to the first ready thread of the lowest
    level that has one, and to the idle thread only if no level has one; but when
    it was told not to block it goes on. *)
Theorem block_hands_over (w : world) (c now : Z) (cu : Cpu) (th : Thread) :
  Inv w -> cpu_at c w = Some cu -> thr (current cu) w = Some th -> current cu <> idle_thread cu ->
  exists w' cu', block c now w = Some w' /\ Inv w' /\ cpu_at c w' = Some cu' /\
    if dont_block th then current cu' = current cu else current cu' <> current cu /\ chosen cu (current cu').
Proof. intros HI Hc Ht Hn. destruct (block_ok w c cu th now HI Hc Ht Hn) as (w' & cu' & E & HI' & Hc' & H & _). exists w', cu'. exact (conj E (conj HI' (conj Hc' H))). Qed.

Lemma block_hands_over_witness : exists w' cu', block 0 100 demo = Some w' /\ cpu_at 0 w' = Some cu' /\ current cu' = 3.
Proof.
  destruct (block_hands_over demo 0 100 demo_cpu (demo_thread Running 0 0) demo_inv eq_refl eq_refl) as (w' & cu' & E & _ & Hc & H); [done|].
  exists w', cu'. split; [exact E|]. split; [exact Hc|]. destruct H as [_ [(i & ts & Hi & Hl & Hb)|[_ He]]].
  - destruct (decide (i = 0)) as [->|N]; [by injection Hl|]. specialize (Hb 0 ltac:(lia)). discriminate Hb.
  - specialize (He 0 ltac:(done)). discriminate He.
Defined.

(** ** Sleepers and the tick *)

(** Setting the tick wakes exactly the sleepers that are due: they become ready,
    the others stay, in order. *)
Theorem sleepers_due_are_woken (w : world) (c now : Z) (cu : Cpu) : Inv w -> cpu_at c w = Some cu ->
  exists w' cu', enable_preemption c c now w = Some w' /\ Inv w' /\ cpu_at c w' = Some cu' /\
    sleeping_threads cu' = filter (fun t => now < sleep_key w t) (sleeping_threads cu) /\
    forall t th, t ∈ sleeping_threads cu -> thr t w = Some th ->
      thr t w' = Some (if sleep_end th >? now then th else set_status Waiting th).
Proof.
  intros HI Hc. destruct (proj2 HI c cu Hc) as [Hgs0 (th & Ht & Hcpu & Hst & Hm)].
  destruct (enable_preemption_ok ∅ _ c now w cu th (proj1 HI) Hc Ht) as (w' & cu' & E & HG & HL & Hc' & Hh & Hw & Hs & _).
  exists w', cu'. split; [done|]. unfold hdr in Hh. injection Hh as Hp Hcur Hg Hi.
  assert (Hth : thr (current cu) w' = Some th).
  { rewrite Hw. case_decide as D; [|done]. destruct (asleep_in _ _ _ _ _ _ (proj1 HI) Hc D) as (th' & Ht' & Hs' & _). congruence. }
  split_and!; [|done|done|].
  - eapply (inv_at w c (current cu) th cu'); [done|by apply cur_of_at|done|done| |done|done]. by split_and!; try congruence.
  - intros t tth Hin Htt. rewrite Hw, decide_True by done. by rewrite Htt.
Qed.

Lemma sleepers_due_are_woken_witness : exists w' cu', enable_preemption 0 0 6000 demo = Some w' /\ cpu_at 0 w' = Some cu' /\
  sleeping_threads cu' = [7] /\ thr 6 w' = Some (demo_thread Waiting 0 5000).
Proof.
  destruct (sleepers_due_are_woken demo 0 6000 demo_cpu demo_inv eq_refl) as (w' & cu' & E & _ & Hc & Hs & Hw).
  exists w', cu'. split; [exact E|]. split; [exact Hc|]. split; [rewrite Hs; reflexivity|].
  rewrite (Hw 6 (demo_thread Sleeping 0 5000)); [reflexivity|left|reflexivity].
Defined.

(** The time to the first sleeper is in nanoseconds, and the tick is set to it in
    microseconds: whenever that sleeper is due within the time slice, the tick
    comes after it is due. *)
Theorem tick_is_late (w : world) (c now : Z) (cu : Cpu) (th sth : Thread) (s : Z) (ss : list Z) :
  Inv w -> cpu_at c w = Some cu -> thr (current cu) w = Some th ->
  sleeping_threads cu = s :: ss -> thr s w = Some sth -> 0 <= now < sleep_end sth -> sleep_end sth < 2 ^ 64 ->
  sleep_end sth - now < 1000 * slice_us (level_index th) ->
  exists w' cu' us, enable_preemption c c now w = Some w' /\ cpu_at c w' = Some cu' /\ tick cu' = Some us /\
    now + 1000 * us > sleep_end sth.
Proof.
  intros HI Hc Ht Hs Hth Hnow Hmax Hslice.
  destruct (enable_preemption_ok ∅ _ c now w cu th (proj1 HI) Hc Ht) as (w' & cu' & E & _ & _ & Hc' & _ & _ & Hs' & Htick).
  assert (Hkey : sleep_key w s = sleep_end sth) by (unfold sleep_key; by rewrite Hth).
  rewrite Hs in Hs'. rewrite filter_cons_True in Hs' by (rewrite Hkey; lia). rewrite Hs', Hkey in Htick.
  exists w', cu'. eexists. split_and!; [done|done|exact Htick|]. unfold sub64. rewrite u64_small by (unfold fits; lia).
  assert (0 < slice_us (level_index th)) by lia. lia.
Qed.

Lemma tick_is_late_witness : exists w' cu' us, enable_preemption 0 0 4000 demo = Some w' /\ cpu_at 0 w' = Some cu' /\
  tick cu' = Some us /\ 4000 + 1000 * us > 5000.
Proof.
  apply (tick_is_late demo 0 4000 demo_cpu (demo_thread Running 0 0) (demo_thread Sleeping 0 5000) 6 [7] demo_inv);
    (reflexivity || (split; [discriminate|reflexivity])).
Defined.

(** ** Waking a running thread *)

(** The flag that keeps a thread from blocking after it was woken early is never
    set: waking a thread that is running fails the assertion that it is not the
    current thread of its CPU. *)
Theorem unblock_running_fails (w : world) (t : Z) (th : Thread) (rs ans : bool) : Inv w -> thr t w = Some th -> status th = Running ->
  is_idle t th w = false -> unblock (cpu th) t rs ans w = None.
Proof.
  intros [HG _] Ht Hst Hi. destruct (proj1 (proj2 (proj2 (good_wf _ _ _ HG))) t th Ht) as (_ & _ & _ & [cu Hc]).
  destruct (good_run _ _ _ HG t th Ht) as [H _]. destruct (H Hst) as [H'|H']; [|congruence]. simpl in H'.
  rewrite (cur_of_at _ _ _ Hc) in H'. unfold unblock. rewrite Hc. cbn [mbind option_bind]. by rewrite H', Z.eqb_refl.
Qed.

Lemma unblock_running_fails_witness : unblock 0 2 true false demo = None.
Proof. apply (unblock_running_fails demo 2 (demo_thread Running 0 0) true false demo_inv); reflexivity. Defined.

(** ** Threads of a killed process *)

(** The choice of the next thread signals the thread destroyer while it holds the
    lock of the ready list it looks at, and waking the destroyer takes the lock of
    the ready list of the destroyer's level.  So when the first ready thread of that
    level belongs to a killed process and the destroyer waits, the CPU waits for a
    lock that it holds itself: the scheduling never ends. *)
Theorem killed_ready_thread_deadlocks (w : world) (c i : Z) (cu : Cpu) (t : Z) (th : Thread) (ts : list Z) (d : Z) (dth : Thread) (ds : list Z) :
  cpu_at c w = Some cu -> level_list i cu = Some (t :: ts) -> t <> 0 -> thr t w = Some th -> cpu th = c -> is_killed th w = true ->
  waiters cu = d :: ds -> thr d w = Some dth -> cpu dth = c -> status dth = Blocked -> level_index dth = i ->
  try_level c i w = None.
Proof.
  intros Hc Hl H0 Ht Htc Hk Hwt Hd Hdc Hst Hlev. unfold try_level. rewrite Hc. cbn [mbind option_bind]. rewrite Hl. cbn [mbind option_bind].
  set (w0 := set_level_lock (Some (c, i)) w). assert (Hc0 : cpu_at c w0 = Some cu) by done.
  destruct (upd_level_ok c i (fun _ => ts) w0 cu _ Hc0 Hl) as (w1 & E1 & E1' & _). unfold pop_level. rewrite Hc0. cbn [mbind option_bind]. rewrite Hl. cbn [mbind option_bind].
  rewrite E1. cbn [mbind option_bind]. rewrite (proj2 (Z.eqb_neq _ _) H0).
  rewrite (upd_cpu_ok _ _ _ _ Hc0) in E1'. injection E1' as <-. cbn [scan_level]. unfold thr. simpl. fold (thr t w). rewrite Ht. cbn [mbind option_bind].
  unfold is_killed in *. simpl. rewrite Hk. unfold destroy_later, thr. simpl. fold (thr t w). rewrite Ht. cbn [mbind option_bind]. rewrite Htc.
  unfold upd_cpu, cpu_at. simpl. rewrite lookup_insert_eq. simpl. rewrite lookup_insert_eq. simpl.
  unfold signal_destroyer, upd_cpu, cpu_at. simpl. rewrite lookup_insert_eq. simpl. rewrite lookup_insert_eq. simpl. rewrite Hwt. simpl.
  unfold thr. simpl. fold (thr d w). rewrite Hd. cbn [mbind option_bind]. destruct (move_lock dth); [done|]. simpl. rewrite Hdc.
  unfold unblock, cpu_at, thr. simpl. rewrite lookup_insert_eq. simpl. destruct (d =? current cu); [done|]. simpl. fold (thr d w). rewrite Hd. simpl. rewrite Hst. simpl.
  fold (thr d w). rewrite Hd. simpl. unfold level_free. simpl. rewrite Hdc, Hlev. by rewrite bool_decide_true.
Qed.

(** Thread 2 of process 9 ends the process while thread 3 of it is ready; thread 5
    is the destroyer, pinned to level 0 as [sched_init] does. *)
Definition kill_threads : gmap Z Thread := list_to_map
  [(1, mkThread 0 8 0 0 Waiting false false false false false false); (2, mkThread 0 9 0 0 Running false false false false false false);
   (3, mkThread 0 9 0 0 Waiting false false false false false false); (5, mkThread 0 8 0 0 Blocked false true true false false false)].
Definition kill_cpu : Cpu := mkCpu [[3]; []; []; []; []; []; []; []; []; []; []; []] 2 2 4166 4166 [] 1 3 [] 0 [5] (Some 4166) 2.
Definition kill_demo : world := mkWorld kill_threads {[0 := kill_cpu]} ∅ None.

Lemma killed_ready_thread_deadlocks_witness :
  try_level 0 0 (mkWorld kill_threads {[0 := kill_cpu]} {[9]} None) = None /\ exit_process 0 100 kill_demo = None.
Proof.
  split; [|reflexivity].
  apply (killed_ready_thread_deadlocks (mkWorld kill_threads {[0 := kill_cpu]} {[9]} None) 0 0 kill_cpu 3
    (mkThread 0 9 0 0 Waiting false false false false false false) [] 5 (mkThread 0 8 0 0 Blocked false true true false false false) []);
    (reflexivity || discriminate).
Defined.

End SchedCorrect.
