(* ===== verification/Threads.v ===== *)
(** * What the scheduler promises to those that wait

    Events and mutexes use three services of the scheduler: [block], [sleep] and
    [unblock].  [Threads] names them together with what a client can observe of a
    thread, and [ThreadLaws] says what they do; SchedThreads.v shows that the
    scheduler of Sched.v keeps these laws. *)

From S2P Require Import Prelude.

Module Threads.

(** A thread runs on a CPU, is ready to run, is blocked, or sleeps. *)
Inductive Mode := Runs (c : Z) | Waits | Blocks | Sleeps.

(** [wake t] is [unblock(t, true, false)] under the [move_lock] of [t]; [park c]
    is [block()] and [nap c ns] is [sleep(ns)] on CPU [c], with the clock as
    further arguments; [forget t] clears [t->dont_block]; [elsewhere P] is any other operation, by or on threads in
    [P] and the idle threads only. *)
Class Threads (W : Type) := {
  ok : W -> Prop;
  mode : W -> Z -> option Mode;
  wake : Z -> W -> option W;
  park : Z -> Z -> W -> option W;
  nap : Z -> Z -> Z -> Z -> W -> option W;
  forget : Z -> W -> option W;
  elsewhere : (Z -> Prop) -> W -> W -> Prop }.

(** What may happen to a thread that takes no part in an operation. *)
Definition later (m m' : option Mode) : Prop :=
  match m with
  | Some Blocks => m' = Some Blocks
  | Some (Runs c) => m' = Some (Runs c)
  | Some Waits => m' = Some Waits \/ exists c, m' = Some (Runs c)
  | Some Sleeps => is_Some m' /\ m' <> Some Blocks
  | None => True
  end.

Class ThreadLaws (W : Type) `{T : Threads W} := {
  runs_unique : forall w t u c, ok w -> mode w t = Some (Runs c) -> mode w u = Some (Runs c) -> t = u;
  wake_runs : forall w t c, ok w -> mode w t = Some (Runs c) -> wake t w = None;
  wake_ready : forall w t, ok w -> mode w t = Some Waits -> wake t w = Some w;
  wake_blocks : forall w t, ok w -> mode w t = Some Blocks \/ mode w t = Some Sleeps -> exists w', wake t w = Some w' /\ ok w' /\
    mode w' t = Some Waits /\ forall u, u <> t -> mode w' u = mode w u;
  park_runs : forall w t c now, ok w -> mode w t = Some (Runs c) -> exists w', park c now w = Some w' /\ ok w' /\
    (mode w' t = Some Blocks \/ mode w' t = Some (Runs c)) /\ forall u, u <> t -> later (mode w u) (mode w' u);
  nap_runs : forall w t c ns now now', ok w -> mode w t = Some (Runs c) -> exists w', nap c ns now now' w = Some w' /\ ok w' /\
    is_Some (mode w' t) /\ forall u, u <> t -> later (mode w u) (mode w' u);
  forget_runs : forall w t c, ok w -> mode w t = Some (Runs c) -> exists w', forget t w = Some w' /\ ok w' /\ forall u, mode w' u = mode w u;
  elsewhere_later : forall (P : Z -> Prop) w w', ok w -> elsewhere P w w' -> ok w' /\ forall t, ~ P t -> later (mode w t) (mode w' t) }.

Lemma later_refl m : later m m.
Proof. destruct m as [[c| | |]|]; simpl; auto. Qed.

End Threads.
