(* ===== verification/SchedThreads.v ===== *)
(** * The scheduler as the services of Threads.v *)

From S2P Require Import Prelude Threads Sched SchedInv SchedFrame SchedRun.

Module SchedThreads.
Import Threads Sched SchedInv SchedFrame SchedRun.

Definition mode_of (th : Thread) : Mode :=
  match status th with Running => Runs (cpu th) | Waiting => Waits | Blocked => Blocks | Sleeping => Sleeps end.

(** The idle threads are not threads of a client. *)
Definition thread_mode (w : world) (t : Z) : option Mode :=
  th ← thr t w; if is_idle t th w then None else Some (mode_of th).

(** [thread->move_lock.lock()] and [thread->cpu->scheduler.unblock(thread, true, false)]. *)
Definition thread_wake (t : Z) (w : world) : option world :=
  th ← thr t w; _ ← assert (negb (move_lock th)); unblock (cpu th) t true false w.

(** The thread that acts, or is acted on, is in [P] or idle. *)
Definition actor (P : Z -> Prop) (o : op) (w : world) : Prop :=
  match o with
  | OnTimer c _ | Yield c _ | Block c _ | SleepFor c _ _ _ | IdlePoll c =>
      exists cu, cpu_at c w = Some cu /\ (current cu = idle_thread cu \/ P (current cu))
  | Unblock t => P t
  | Start _ _ _ => True
  end.
Definition sched_elsewhere (P : Z -> Prop) (w w' : world) : Prop := exists o, permitted o w /\ actor P o w /\ step o w = Some w'.

#[global] Instance sched_threads : Threads world := {|
  ok := Inv; mode := thread_mode; wake := thread_wake; park := block; nap := sleep; forget := fun t => upd_thr t (set_dont_block false); elsewhere := sched_elsewhere |}.

Lemma mode_thread w t m : thread_mode w t = Some m -> exists th, thr t w = Some th /\ is_idle t th w = false /\ m = mode_of th.
Proof. unfold thread_mode. destruct (thr t w) as [th|]; [|done]. simpl. destruct (is_idle t th w) eqn:E; [done|]. intros [= <-]. eauto. Qed.

Lemma thread_mode_of w t th : thr t w = Some th -> is_idle t th w = false -> thread_mode w t = Some (mode_of th).
Proof. intros Ht Hi. unfold thread_mode. rewrite Ht. simpl. by rewrite Hi. Qed.

(** The running thread of a CPU. *)
Lemma mode_runs w t c : Inv w -> thread_mode w t = Some (Runs c) ->
  exists th cu, thr t w = Some th /\ status th = Running /\ cpu th = c /\ cpu_at c w = Some cu /\ current cu = t /\ t <> idle_thread cu.
Proof.
  intros [HG HC] (th & Ht & Hi & Em)%mode_thread. unfold mode_of in Em. destruct (status th) eqn:Hs; try done. injection Em as ->.
  destruct (proj1 (proj2 (proj2 (good_wf _ _ _ HG))) t th Ht) as (_ & _ & _ & [cu Hc]).
  destruct (good_run _ _ _ HG t th Ht) as [H _]. destruct (H Hs) as [H'|H']; [|congruence]. simpl in H'. rewrite (cur_of_at _ _ _ Hc) in H'.
  exists th, cu. split_and!; try done. rewrite (idle_of w (cpu th) cu) in Hi by done. by apply Z.eqb_neq in Hi.
Qed.

(** What a calm change of the threads is to a client. *)
Lemma calm_later P w w' t : calm_but P w w' -> ~ P t -> later (thread_mode w t) (thread_mode w' t).
Proof.
  intros [A B] Hp. destruct (thread_mode w t) as [m|] eqn:E; [|done]. apply mode_thread in E as (th & Ht & Hi & ->).
  destruct (B t th Ht Hi) as (th' & Ht' & Hc & [?|Hs]); [done|]. rewrite (thread_mode_of w' t th' Ht') by (by rewrite (idle_same t th th' w w')).
  unfold mode_of, calm in *. destruct (status th); simpl.
  - destruct Hs as [->|[[? _]|[? _]]]; [by rewrite Hc|done|done].
  - destruct Hs as [->|[[? _]|[_ ->]]]; [by left|done|right; eauto].
  - destruct Hs as [->|[[? _]|[? _]]]; done.
  - destruct Hs as [->|[[_ Hs]|[? _]]]; [done| |done]. by destruct (status th').
Qed.

Lemma unlocked w t th c cu : Inv w -> thr t w = Some th -> cpu th = c -> cpu_at c w = Some cu -> status th <> Running -> move_lock th = false.
Proof.
  intros HI Ht Hcpu Hc Hs. destruct (move_lock th) eqn:Em; [|done]. apply (good_run _ _ _ (proj1 HI) t th Ht) in Em. simpl in Em.
  rewrite Hcpu, (cur_of_at _ _ _ Hc) in Em. exfalso. by apply (inv_thread w c cu t th HI Hc Ht Hs).
Qed.

(** Any operation leaves the threads that do not act. *)
Lemma op_later P w o w' : Inv w -> permitted o w -> actor P o w -> step o w = Some w' -> forall t, ~ P t ->
  later (thread_mode w t) (thread_mode w' t).
Proof.
  intros HI Hp Ha E t Hn.
  assert (Hcur : forall c cu, cpu_at c w = Some cu -> (current cu = idle_thread cu \/ P (current cu)) -> calm_but (fun t => t = current cu) w w' ->
    later (thread_mode w t) (thread_mode w' t)).
  { intros c cu Hc [Hi|Hi] HK.
    - destruct (decide (t = current cu)) as [->|N]; [|by eapply calm_later]. replace (thread_mode w (current cu)) with (@None Mode); [done|].
      symmetry. destruct (proj2 HI c cu Hc) as [_ (th & Ht & Hcpu & _)]. unfold thread_mode. rewrite Ht. simpl.
      by rewrite (idle_of w c cu) by done; rewrite Hi, Z.eqb_refl.
    - eapply calm_later; [exact HK|]. by intros ->. }
  destruct o as [c now|c now|c now|c ns now now'|u|c u p|c]; simpl in Hp, Ha, E.
  - destruct Ha as (cu & Hc & Ha). destruct (on_timer_ok w c cu now HI Hc) as (w1 & _ & E1 & _ & _ & _ & HK). rewrite E in E1. injection E1 as <-. eauto.
  - destruct Ha as (cu & Hc & Ha). destruct (yield_ok w c cu now HI Hc) as (w1 & _ & E1 & _ & _ & _ & HK). rewrite E in E1. injection E1 as <-. eauto.
  - destruct Ha as (cu & Hc & Ha). destruct Hp as (cu' & Hc' & Hni). rewrite Hc in Hc'. injection Hc' as <-. destruct (proj2 HI c cu Hc) as [_ (th & Ht & _)].
    destruct (block_ok w c cu th now HI Hc Ht Hni) as (w1 & _ & E1 & _ & _ & _ & HK & _). rewrite E in E1. injection E1 as <-. eauto.
  - destruct Ha as (cu & Hc & Ha). destruct Hp as (cu' & Hc' & Hni). rewrite Hc in Hc'. injection Hc' as <-. destruct (proj2 HI c cu Hc) as [_ (th & Ht & _)].
    destruct (sleep_ok w c cu th ns now now' HI Hc Ht Hni) as (w1 & _ & E1 & _ & _ & _ & HK). rewrite E in E1. injection E1 as <-. eauto.
  - destruct Hp as (th & Ht & Hs & Hi). rewrite Ht in E. cbn [mbind option_bind] in E. assert (t <> u) by congruence.
    destruct (proj1 (proj2 (proj2 (good_wf _ _ _ (proj1 HI)))) u th Ht) as (_ & _ & _ & [cu Hc]).
    rewrite (idle_of w (cpu th) cu) in Hi by done. apply Z.eqb_neq in Hi.
    assert (Hcases : w' = w \/ (status th = Blocked \/ status th = Sleeping)).
    { destruct (status th) eqn:Est; auto; [done|]. left. unfold unblock in E. rewrite Hc in E. cbn [mbind option_bind] in E.
      destruct (negb (u =? current cu)); [|done]. cbn [assert mbind option_bind] in E. rewrite Ht in E. cbn [mbind option_bind] in E. rewrite Est in E. by injection E as <-. }
    destruct Hcases as [->|Hst]; [apply later_refl|].
    destruct (wake_ok w (cpu th) cu u th HI Ht eq_refl Hc Hi Hst) as (w1 & E1 & _ & _ & Ho & Hid). rewrite E in E1. injection E1 as <-.
    unfold thread_mode. rewrite Ho by done. destruct (thr t w) as [tth|]; [|done]. simpl. rewrite (idle_same t tth tth w w') by done. apply later_refl.
  - destruct Hp as ([cu Hc] & Hu & H0). destruct (start_thread_ok w c u p cu HI Hu H0 Hc) as (w1 & E1 & _ & _ & HK). rewrite E in E1. injection E1 as <-.
    eapply calm_later; [exact HK|tauto].
  - destruct Ha as (cu & Hc & Ha). destruct (idle_poll_ok w c cu HI Hc) as (w1 & E1 & _ & HK). rewrite E in E1. injection E1 as <-. eauto.
Qed.

(** The scheduler keeps the laws. *)
#[global] Instance sched_laws : ThreadLaws world.
Proof.
  split; simpl.
  - intros w t u c HI Ht Hu. destruct (mode_runs w t c HI Ht) as (_ & cu & _ & _ & _ & Hc & <- & _).
    destruct (mode_runs w u c HI Hu) as (_ & cu' & _ & _ & _ & Hc' & <- & _). rewrite Hc in Hc'. by injection Hc' as <-.
  - intros w t c HI Ht. destruct (mode_runs w t c HI Ht) as (th & cu & Hth & _ & Hcpu & Hc & Hcur & _). unfold thread_wake. rewrite Hth.
    cbn [mbind option_bind]. destruct (move_lock th); [done|]. cbn [negb assert mbind option_bind]. unfold unblock. rewrite Hcpu, Hc.
    cbn [mbind option_bind]. by rewrite Hcur, Z.eqb_refl.
  - intros w t HI (th & Hth & _ & Em)%mode_thread. unfold mode_of in Em. destruct (status th) eqn:Hs; try done.
    destruct (proj1 (proj2 (proj2 (good_wf _ _ _ (proj1 HI)))) t th Hth) as (_ & _ & _ & [cu Hc]).
    unfold thread_wake. rewrite Hth. cbn [mbind option_bind]. rewrite (unlocked w t th _ cu HI Hth eq_refl Hc) by congruence. cbn [negb assert mbind option_bind].
    unfold unblock. rewrite Hc. cbn [mbind option_bind]. rewrite (proj2 (Z.eqb_neq _ _)) by (eapply (inv_thread w); [done|done|exact Hth|congruence]).
    cbn [negb assert mbind option_bind]. rewrite Hth. cbn [mbind option_bind]. by rewrite Hs.
  - intros w t HI Hm. assert (Hm' : exists th, thr t w = Some th /\ is_idle t th w = false /\ (status th = Blocked \/ status th = Sleeping)).
    { destruct Hm as [Hm|Hm]; apply mode_thread in Hm as (th & Hth & Hi & Em); unfold mode_of in Em; destruct (status th) eqn:Hs; try done; eauto. }
    destruct Hm' as (th & Hth & Hi & Hs). destruct (proj1 (proj2 (proj2 (good_wf _ _ _ (proj1 HI)))) t th Hth) as (_ & _ & _ & [cu Hc]).
    pose proof Hi as Hi'. rewrite (idle_of w (cpu th) cu) in Hi' by done. apply Z.eqb_neq in Hi'.
    destruct (wake_ok w (cpu th) cu t th HI Hth eq_refl Hc Hi' Hs) as (w' & E & HI' & (th' & Hth' & Hs' & Hcpu') & Ho & Hid).
    exists w'. split_and!; [|done| |].
    + unfold thread_wake. rewrite Hth. cbn [mbind option_bind]. rewrite (unlocked w t th _ cu HI Hth eq_refl Hc) by (destruct Hs; congruence). done.
    + rewrite (thread_mode_of w' t th' Hth') by (by rewrite (idle_same t th th' w w')). unfold mode_of. by rewrite Hs'.
    + intros u Hu. unfold thread_mode. rewrite Ho by done. destruct (thr u w) as [uth|]; [|done]. simpl. by rewrite (idle_same u uth uth w w').
  - intros w t c now HI Ht. destruct (mode_runs w t c HI Ht) as (th & cu & Hth & Hs & Hcpu & Hc & Hcur & Hni). subst t.
    destruct (block_ok w c cu th now HI Hc Hth Hni) as (w' & cu' & E & HI' & _ & _ & HK & (th' & Hth' & Hs')). exists w'. split_and!; [done|done| |].
    + destruct (proj2 HK _ th Hth) as (th2 & Hth2 & Hcpu2 & _); [rewrite (idle_of w c cu) by done; by apply Z.eqb_neq|]. rewrite Hth' in Hth2. injection Hth2 as <-.
      rewrite (thread_mode_of w' _ th' Hth') by (rewrite (idle_same _ th th' w w') by (done || apply HK); rewrite (idle_of w c cu) by done; by apply Z.eqb_neq).
      unfold mode_of. rewrite Hs'. destruct (dont_block th); [right; by rewrite Hcpu2, Hcpu|by left].
    + intros u Hu. by eapply calm_later.
  - intros w t c ns now now' HI Ht. destruct (mode_runs w t c HI Ht) as (th & cu & Hth & Hs & Hcpu & Hc & Hcur & Hni). subst t.
    destruct (sleep_ok w c cu th ns now now' HI Hc Hth Hni) as (w' & cu' & E & HI' & _ & _ & HK). exists w'. split_and!; [done|done| |].
    + destruct (proj2 HK _ th Hth) as (th2 & Hth2 & Hcpu2 & _); [rewrite (idle_of w c cu) by done; by apply Z.eqb_neq|].
      rewrite (thread_mode_of w' _ th2 Hth2) by (rewrite (idle_same _ th th2 w w') by (done || apply HK); rewrite (idle_of w c cu) by done; by apply Z.eqb_neq). eauto.
    + intros u Hu. by eapply calm_later.
  - intros w t c HI Ht. destruct (mode_runs w t c HI Ht) as (th & cu & Hth & Hs & Hcpu & Hc & Hcur & Hni). subst t.
    destruct (op_start w c cu HI Hc) as (th' & HO & _ & Hm). pose proof HO as (_ & _ & _ & _ & (_ & _ & _ & Hr & _)). rewrite Hth in Hr. injection Hr as <-.
    destruct (op_thr _ _ _ _ _ _ (set_dont_block false) HO) as (w' & E & HO'); try done; [apply (op_lev _ _ _ _ _ _ HO)|].
    exists w'. split_and!; [done|by eapply inv_op|]. intros u. unfold thread_mode. rewrite (thr_upd_thr _ _ _ _ _ u E Hth). case_decide as D.
    + subst u. rewrite Hth. simpl. by rewrite (idle_upd_thr _ _ _ _ _ _ E).
    + destruct (thr u w); [|done]. simpl. by rewrite (idle_upd_thr _ _ _ _ _ _ E).
  - intros P w w' HI (o & Hp & Ha & E). destruct (step_ok o w HI Hp) as (w1 & E1 & HI1). rewrite E in E1. injection E1 as <-.
    split; [done|]. by eapply op_later.
Qed.

End SchedThreads.
