(* ===== verification/Event.v ===== *)
(** * Events (src/src/dev/event.cpp)

    An event is a counter of signals and a list of waiters; a waiter is a [Waitable]
    that lives on the stack of the thread that waits, or in a vector, and is gone
    when the wait returns.  The services of the scheduler are those of Threads.v.
    A function that blocks is split at the call: what is done under the lock of the
    event before it and after it are steps of their own.  [None] is a failed
    assertion of the scheduler, the use of a [Waitable] that is gone, or a lock that
    the CPU holds itself. *)

From S2P Require Import Prelude Threads.

Module Event.
Import Threads.

Record Waitable := mkWaitable { thread : Z; in_list : bool }.
Record Event := mkEvent { waiters : list Z; signaled_count : Z }.

Section Events.
Context {W : Type} `{T : Threads W}.

Record kernel := mkKernel { sched : W; events : gmap Z Event; waitables : gmap Z Waitable }.

Definition set_sched (w : W) (k : kernel) : kernel := mkKernel w (events k) (waitables k).
Definition set_event (e : Z) (x : Event) (k : kernel) : kernel := mkKernel (sched k) (<[e := x]> (events k)) (waitables k).
Definition set_waitable (i : Z) (x : Waitable) (k : kernel) : kernel := mkKernel (sched k) (events k) (<[i := x]> (waitables k)).
Definition free_waitable (i : Z) (k : kernel) : kernel := mkKernel (sched k) (events k) (delete i (waitables k)).

(** [waiters.remove] *)
Definition remove (i : Z) (x : Event) : Event := mkEvent (filter (fun j => j <> i) (waiters x)) (signaled_count x).
Definition push (i : Z) (x : Event) : Event := mkEvent (waiters x ++ [i]) (signaled_count x).
Definition consume_one (x : Event) : Event := mkEvent (waiters x) (u64 (signaled_count x - 1)).

Definition wake_thread (t : Z) (k : kernel) : option kernel := w ← wake t (sched k); Some (set_sched w k).

Definition reset (e : Z) (k : kernel) : option kernel := x ← events k !! e; Some (set_event e (mkEvent (waiters x) 0) k).

(** ** wait *)

(** The [Waitable] of [wait], by thread [t]. *)
Definition wait_enter (i t : Z) (k : kernel) : kernel := set_waitable i (mkWaitable t false) k.

(** A round of the loop under the lock; [true] when [wait] returns. *)
Definition wait_check (consume : bool) (e i : Z) (k : kernel) : option (bool * kernel) :=
  x ← events k !! e;
  y ← waitables k !! i;
  if negb (signaled_count x =? 0) then
    let x := if in_list y then remove i x else x in
    let x := if consume then consume_one x else x in
    Some (true, free_waitable i (set_event e x k))
  else
    Some (false, if in_list y then k else set_waitable i (mkWaitable (thread y) true) (set_event e (push i x) k)).

(** ** wait_any *)

(** Takes the waitables out of the events that are flagged as listed, with the lock
    of event [e] held. *)
Fixpoint drop_all (e : Z) (js : list (Z * Z)) (k : kernel) : option kernel :=
  match js with
  | [] => Some k
  | (f, j) :: js =>
      _ ← assert (negb (f =? e));
      x ← events k !! f;
      y ← waitables k !! j;
      drop_all e js (if in_list y then set_event f (remove j x) k else k)
  end.

Definition new_waitables (t : Z) (js : list (Z * Z)) (k : kernel) : kernel :=
  foldl (fun k '(_, j) => set_waitable j (mkWaitable t false) k) k js.
Definition free_waitables (js : list (Z * Z)) (k : kernel) : kernel := foldl (fun k '(_, j) => free_waitable j k) k js.

(** Up to [sleep] or [block]; the number of an event that was signalled. *)
Fixpoint wait_any_enter (t : Z) (done todo : list (Z * Z)) (k : kernel) : option (Z * kernel) :=
  match todo with
  | [] => Some (0, k)
  | (e, i) :: todo =>
      x ← events k !! e;
      if negb (signaled_count x =? 0) then
        k ← drop_all e done k;
        let k := set_event e (consume_one x) k in
        w ← forget t (sched k);
        Some (Z.of_nat (length done) + 1, set_sched w k)
      else wait_any_enter t (done ++ [(e, i)]) todo (set_event e (push i x) k)
  end.

(** After it. *)
Fixpoint wait_any_leave (t : Z) (n : Z) (todo : list (Z * Z)) (k : kernel) : option (Z * kernel) :=
  match todo with
  | [] => w ← forget t (sched k); Some (0, set_sched w k)
  | (e, i) :: todo =>
      x ← events k !! e;
      y ← waitables k !! i;
      let x := if in_list y then remove i x else x in
      if negb (signaled_count x =? 0) then
        k ← drop_all e todo (set_event e (consume_one x) k);
        w ← forget t (sched k);
        Some (n + 1, set_sched w k)
      else wait_any_leave t (n + 1) todo (set_event e x k)
  end.

(** The blocking call in the middle. *)
Definition wait_any_block (c max_ns now now' : Z) (k : kernel) : option kernel :=
  w ← (if negb (max_ns =? 2 ^ 64 - 1) then nap c max_ns now now' (sched k) else park c now (sched k)); Some (set_sched w k).

(** [wait_any] when no one else does anything before it wakes; [js] are the events
    and the elements of the vector. *)
Definition wait_any (t c : Z) (js : list (Z * Z)) (max_ns now now' : Z) (k : kernel) : option (Z * kernel) :=
  let k := new_waitables t js k in
  '(r, k) ← wait_any_enter t [] js k;
  if negb (r =? 0) then Some (r, free_waitables js k)
  else
    k ← wait_any_block c max_ns now now' k;
    Some (0, k).
Definition wait_any_return (t : Z) (js : list (Z * Z)) (k : kernel) : option (Z * kernel) :=
  '(r, k) ← wait_any_leave t 0 js k; Some (r, free_waitables js k).

(** ** wait_with_timeout *)

Definition timeout_enter (t e i c max_ns now now' : Z) (k : kernel) : option (bool * kernel) :=
  x ← events k !! e;
  let k := set_waitable i (mkWaitable t true) k in
  if negb (signaled_count x =? 0) then Some (true, free_waitable i (set_event e (consume_one x) k))
  else
    let k := set_event e (push i x) k in
    w ← nap c max_ns now now' (sched k);
    Some (false, set_sched w k).

Definition timeout_leave (t e i : Z) (k : kernel) : option (bool * kernel) :=
  x ← events k !! e;
  y ← waitables k !! i;
  let x := if in_list y then remove i x else x in
  w ← forget t (sched k);
  let k := free_waitable i (set_sched w k) in
  if negb (signaled_count x =? 0) then Some (true, set_event e (consume_one x) k) else Some (false, set_event e x k).

(** ** Signals *)

(** Wakes the thread of the first waiter. *)
Definition wake_front (e : Z) (k : kernel) : option kernel :=
  x ← events k !! e;
  match waiters x with
  | [] => Some k
  | i :: is_ =>
      let k := set_event e (mkEvent is_ (signaled_count x)) k in
      y ← waitables k !! i;
      wake_thread (thread y) (set_waitable i (mkWaitable (thread y) false) k)
  end.

Definition add_signals (e n : Z) (k : kernel) : option kernel :=
  x ← events k !! e; Some (set_event e (mkEvent (waiters x) (u64 (signaled_count x + n))) k).

Definition signal_one (e : Z) (k : kernel) : option kernel := k ← add_signals e 1 k; wake_front e k.

Definition signal_one_if_not_pending (e : Z) (k : kernel) : option kernel :=
  x ← events k !! e; if negb (signaled_count x =? 0) then Some k else signal_one e k.

Fixpoint wake_all (is_ : list Z) (k : kernel) : option kernel :=
  match is_ with
  | [] => Some k
  | i :: is_ =>
      y ← waitables k !! i;
      k ← wake_thread (thread y) k;
      wake_all is_ (set_waitable i (mkWaitable (thread y) false) k)
  end.

Definition signal_all (e : Z) (k : kernel) : option kernel :=
  k ← add_signals e 1 k;
  x ← events k !! e;
  k ← wake_all (waiters x) k;
  x ← events k !! e;
  Some (set_event e (mkEvent [] (signaled_count x)) k).

(** The loop of [signal_count]; the last thread that is woken stays in the list. *)
Fixpoint wake_count (e count : Z) (is_ : list Z) (k : kernel) : option kernel :=
  match is_ with
  | [] => Some k
  | i :: is_ =>
      y ← waitables k !! i;
      k ← wake_thread (thread y) k;
      let count := u64 (count - 1) in
      if count =? 0 then Some k
      else
        x ← events k !! e;
        wake_count e count is_ (set_waitable i (mkWaitable (thread y) false) (set_event e (remove i x) k))
  end.

Definition signal_count (e count : Z) (k : kernel) : option kernel :=
  k ← add_signals e count k;
  x ← events k !! e;
  wake_count e count (waiters x) k.

Definition is_being_waited (e : Z) (k : kernel) : option bool := x ← events k !! e; Some (negb (bool_decide (waiters x = []))).
Definition is_pending (e : Z) (k : kernel) : option bool := x ← events k !! e; Some (signaled_count x >? 0).

End Events.
#[global] Arguments kernel W : clear implicits.

(** ** Callbacks *)

Section Callbacks.
Context {F : Type}.

Definition add_callback (f : F) (fs : list F) : nat * list F := (length fs, fs ++ [f]).
Definition remove_callback (i : nat) (fs : list F) : option (list F) := _ ← assert (i <? length fs)%nat; Some (delete i fs).
(** The callbacks that are called. *)
Definition callback_signal_one (fs : list F) : list F := take 1 fs.
Definition callback_signal_all (fs : list F) : list F := fs.

End Callbacks.

End Event.
