(* ===== verification/Mutex.v ===== *)
(** * Mutexes (src/src/sched/mutex.hpp)

    A mutex is a flag and an event.  Threads take it and give it back in any
    interleaving; what runs with interrupts off keeps its CPU.  A thread is at one
    of the points of [lock] and of the destructor of [Guard]; every access to the
    flag and every use of the event is a step. *)

From S2P Require Import Prelude Threads Event.

Module Mutex.
Import Threads Event.

(** [Trying]: before the exchange; [Checking]: in [wait], before its loop;
    [Pushed]: before [block]; [Parked]: in [block] or behind it; [Holding]: [lock]
    has returned; [Releasing]: after the store. *)
Inductive pc := Outside | Trying | Checking | Pushed | Parked | Holding | Releasing.
#[global] Instance pc_eq_dec : EqDecision pc.
Proof. solve_decision. Defined.

Section Mutex.
Context {W : Type} `{T : Threads W}.

Record mutex := mkMutex { kern : kernel W; inner : bool; pcs : gmap Z pc }.

Definition unlock_event : Z := 0.
Definition pc_of (s : mutex) (t : Z) : pc := default Outside (pcs s !! t).
Definition set_pc (t : Z) (p : pc) (s : mutex) : mutex := mkMutex (kern s) (inner s) (<[t := p]> (pcs s)).
Definition set_kern (k : kernel W) (s : mutex) : mutex := mkMutex k (inner s) (pcs s).
Definition set_inner (b : bool) (s : mutex) : mutex := mkMutex (kern s) b (pcs s).
Definition world_of (s : mutex) : W := sched (kern s).

(** [inner.exchange(true)] and what follows. *)
Definition exchange (t : Z) (s : mutex) : mutex :=
  if inner s then set_pc t Checking (set_kern (wait_enter t t (kern s)) s) else set_pc t Holding (set_inner true s).
(** A round of [unlock_event.wait()]. *)
Definition check (t : Z) (s : mutex) : option mutex :=
  '(b, k) ← wait_check true unlock_event t (kern s); Some (set_pc t (if b : bool then Trying else Pushed) (set_kern k s)).
(** [current->cpu->scheduler.block()] *)
Definition block (t c now : Z) (s : mutex) : option mutex :=
  w ← park c now (world_of s); Some (set_pc t Parked (set_kern (set_sched w (kern s)) s)).
(** The destructor of [Guard]. *)
Definition store (t : Z) (s : mutex) : mutex := set_pc t Releasing (set_inner false s).
Definition signal (t : Z) (s : mutex) : option mutex := k ← signal_one unlock_event (kern s); Some (set_pc t Outside (set_kern k s)).

(** In [lock], interrupts are off. *)
Definition irqs_on (p : pc) : Prop := p = Outside \/ p = Holding \/ p = Releasing.

Definition on (s : mutex) (t c : Z) : Prop := mode (world_of s) t = Some (Runs c).

(** Whoever runs takes the next step; and the scheduler and the rest of the kernel
    do whatever does not concern threads that are in [lock]. *)
Inductive step : mutex -> mutex -> Prop :=
| step_call s t c : on s t c -> pc_of s t = Outside -> step s (set_pc t Trying s)
| step_exchange s t c : on s t c -> pc_of s t = Trying -> step s (exchange t s)
| step_check s t c s' : on s t c -> pc_of s t = Checking \/ pc_of s t = Parked -> check t s = Some s' -> step s s'
| step_block s t c now s' : on s t c -> pc_of s t = Pushed -> block t c now s = Some s' -> step s s'
| step_store s t c : on s t c -> pc_of s t = Holding -> step s (store t s)
| step_signal s t c s' : on s t c -> pc_of s t = Releasing -> signal t s = Some s' -> step s s'
| step_other s w : elsewhere (fun t => irqs_on (pc_of s t)) (world_of s) w -> step s (set_kern (set_sched w (kern s)) s).

Definition start (w : W) : mutex := mkMutex (mkKernel w {[unlock_event := mkEvent [] 0]} ∅) false ∅.

Inductive reaches (w : W) : nat -> mutex -> Prop :=
| reaches_start : reaches w 0 (start w)
| reaches_step n s s' : reaches w n s -> step s s' -> reaches w (S n) s'.

(** ** The invariant *)

Definition can_run (s : mutex) (t : Z) : Prop := mode (world_of s) t = Some Waits \/ exists c, on s t c.

(** The [Waitable] and the mode of a thread at each point. *)
Definition wf_thread (s : mutex) (t : Z) : Prop :=
  let y := waitables (kern s) !! t in
  match pc_of s t with
  | Outside | Holding | Releasing => y = None
  | Trying => y = None /\ exists c, on s t c
  | Checking => y = Some (mkWaitable t false) /\ exists c, on s t c
  | Pushed => y = Some (mkWaitable t true) /\ exists c, on s t c
  | Parked => (y = Some (mkWaitable t true) /\ (mode (world_of s) t = Some Blocks \/ exists c, on s t c)) \/
              (y = Some (mkWaitable t false) /\ can_run s t)
  end.

(** A thread that will take the mutex or see to it that another one does. *)
Definition active (s : mutex) (count : Z) (t : Z) : Prop :=
  match pc_of s t with
  | Holding | Releasing | Trying => True
  | Checking => 0 < count
  | Parked => 0 < count /\ can_run s t
  | _ => False
  end.
Definition waiting (p : pc) : Prop := p = Checking \/ p = Pushed \/ p = Parked.

Record MInv (n : nat) (s : mutex) : Prop := mkMInv {
  m_ok : ok (world_of s);
  m_thread : forall t, wf_thread s t;
  m_inner : forall t, pc_of s t = Holding -> inner s = true;
  m_unique : forall t u, pc_of s t = Holding -> pc_of s u = Holding -> t = u;
  m_held : inner s = true -> exists t, pc_of s t = Holding;
  m_event : exists x, events (kern s) !! unlock_event = Some x /\ 0 <= signaled_count x <= Z.of_nat n /\ NoDup (waiters x) /\
    (forall t, t ∈ waiters x <-> waitables (kern s) !! t = Some (mkWaitable t true)) /\
    (forall t, waiting (pc_of s t) -> exists u, active s (signaled_count x) u) }.

Lemma pc_set t p s u : pc_of (set_pc t p s) u = if decide (u = t) then p else pc_of s u.
Proof. unfold pc_of, set_pc. simpl. case_decide; [subst; by rewrite lookup_insert_eq|by rewrite lookup_insert_ne]. Qed.

Lemma pc_set_ne t p s u : u <> t -> pc_of (set_pc t p s) u = pc_of s u.
Proof. intros H. by rewrite pc_set, decide_False. Qed.
Lemma pc_set_eq t p s : pc_of (set_pc t p s) t = p.
Proof. by rewrite pc_set, decide_True. Qed.

(** ** Threads that take no part *)

Definition same (s s' : mutex) (u : Z) : Prop :=
  pc_of s' u = pc_of s u /\ waitables (kern s') !! u = waitables (kern s) !! u /\
  (irqs_on (pc_of s u) \/ later (mode (world_of s) u) (mode (world_of s') u)).

Lemma can_run_later s s' u : later (mode (world_of s) u) (mode (world_of s') u) -> can_run s u -> can_run s' u.
Proof. intros Hl [H|[c H]]; unfold can_run, on in *; rewrite H in Hl; simpl in Hl; [destruct Hl as [?|[c ?]]|]; eauto. Qed.

Lemma on_later s s' u c : later (mode (world_of s) u) (mode (world_of s') u) -> on s u c -> on s' u c.
Proof. unfold on. intros Hl H. by rewrite H in Hl. Qed.

Lemma wf_same s s' u : same s s' u -> wf_thread s u -> wf_thread s' u.
Proof.
  intros (Hp & Hy & Hm). unfold wf_thread. rewrite Hp, Hy. destruct (pc_of s u) eqn:Ep; auto;
    (destruct Hm as [[?|[?|?]]|Hl]; [done..|]).
  - intros [? [c Hc]]. split; [done|]. exists c. by eapply on_later.
  - intros [? [c Hc]]. split; [done|]. exists c. by eapply on_later.
  - intros [? [c Hc]]. split; [done|]. exists c. by eapply on_later.
  - intros [[? H]|[? H]]; [left|right]; (split; [done|]); [|by eapply can_run_later].
    destruct H as [H|[c H]]; [left; by rewrite H in Hl|right; exists c; by eapply on_later].
Qed.

Lemma active_same s s' n u : same s s' u -> active s n u -> active s' n u.
Proof.
  intros (Hp & _ & Hm). unfold active. rewrite Hp. destruct (pc_of s u) eqn:Ep; auto. destruct Hm as [[?|[?|?]]|Hl]; [done..|].
  intros [? H]. split; [done|]. by eapply can_run_later.
Qed.

(** A step of [t] that concerns thread [i] too, whose point stays. *)
Lemma minv_intro2 n s s' t i x x' : MInv n s -> ok (world_of s') -> (forall u, u <> t -> pc_of s' u = pc_of s u) ->
  (forall u, u <> t -> u <> i -> same s s' u) -> wf_thread s' t -> wf_thread s' i ->
  (pc_of s' t = Holding -> inner s' = true /\ inner s = false) ->
  (inner s' = inner s \/ pc_of s t = Holding \/ pc_of s' t = Holding) -> (pc_of s t = Holding -> inner s' = false) ->
  events (kern s) !! unlock_event = Some x -> events (kern s') !! unlock_event = Some x' -> 0 <= signaled_count x' <= Z.of_nat (S n) ->
  NoDup (waiters x') -> (forall u, u <> t -> u <> i -> u ∈ waiters x' <-> u ∈ waiters x) ->
  (t ∈ waiters x' <-> waitables (kern s') !! t = Some (mkWaitable t true)) -> (i ∈ waiters x' <-> waitables (kern s') !! i = Some (mkWaitable i true)) ->
  (waiting (pc_of s' t) \/ (exists u, u <> t /\ waiting (pc_of s u)) -> exists u, active s' (signaled_count x') u) -> MInv (S n) s'.
Proof.
  intros [M1 M2 M3 M4 M5 (x0 & Ex & _ & _ & Hw & _)] Hok Hpc Hsame Ht Hi Hh Hin Hrel Ex0 Ex' Hc ND Hwx Hwt Hwi Hprog.
  rewrite Ex in Ex0. injection Ex0 as ->. split.
  - done.
  - intros u. destruct (decide (u = t)) as [->|N]; [done|]. destruct (decide (u = i)) as [->|N']; [done|]. eapply wf_same; [by apply Hsame|auto].
  - intros u Hu. destruct (decide (u = t)) as [->|N]; [by apply Hh|]. rewrite Hpc in Hu by done. pose proof (M3 u Hu) as Hin'.
    destruct Hin as [H|[H|H]]; [congruence| |by apply Hh]. destruct N. by apply M4.
  - intros u v Hu Hv. destruct (decide (u = t)) as [->|Nu], (decide (v = t)) as [->|Nv]; [done| | |].
    + rewrite Hpc in Hv by done. pose proof (M3 v Hv). destruct (Hh Hu). congruence.
    + rewrite Hpc in Hu by done. pose proof (M3 u Hu). destruct (Hh Hv). congruence.
    + rewrite Hpc in Hu, Hv by done. by apply M4.
  - intros Hin'. destruct Hin as [H|[H|H]]; [|rewrite (Hrel H) in Hin'; done|eauto]. rewrite H in Hin'. destruct (M5 Hin') as [u Hu].
    destruct (decide (u = t)) as [->|N]; [rewrite (Hrel Hu) in H; congruence|]. exists u. by rewrite Hpc.
  - exists x'. split_and!; [done|lia|lia|done| |].
    + intros u. destruct (decide (u = t)) as [->|N]; [done|]. destruct (decide (u = i)) as [->|N']; [done|].
      rewrite Hwx by done. rewrite Hw. by rewrite (proj1 (proj2 (Hsame u N N'))).
    + intros u Hu. apply Hprog. destruct (decide (u = t)) as [->|N]; [by left|]. right. exists u. rewrite Hpc in Hu by done. done.
Qed.

(** A step of [t] after which all but [t] are as before. *)
Lemma minv_intro n s s' t x x' : MInv n s -> ok (world_of s') -> (forall u, u <> t -> same s s' u) -> wf_thread s' t ->
  (pc_of s' t = Holding -> inner s' = true /\ inner s = false) ->
  (inner s' = inner s \/ pc_of s t = Holding \/ pc_of s' t = Holding) -> (pc_of s t = Holding -> inner s' = false) ->
  events (kern s) !! unlock_event = Some x -> events (kern s') !! unlock_event = Some x' -> 0 <= signaled_count x' <= Z.of_nat (S n) ->
  NoDup (waiters x') -> (forall u, u <> t -> u ∈ waiters x' <-> u ∈ waiters x) ->
  (t ∈ waiters x' <-> waitables (kern s') !! t = Some (mkWaitable t true)) ->
  (waiting (pc_of s' t) \/ (exists u, u <> t /\ waiting (pc_of s u)) -> exists u, active s' (signaled_count x') u) -> MInv (S n) s'.
Proof. intros HI Hok Hsame **. eapply (minv_intro2 n s s' t t x x'); eauto. intros u N. apply (Hsame u N). Qed.

Lemma active_now s' n t : pc_of s' t = Holding \/ pc_of s' t = Releasing \/ pc_of s' t = Trying -> active s' n t.
Proof. unfold active. by intros [->|[->| ->]]. Qed.

Context `{L : !ThreadLaws W}.

(** Only [t] changes its point and its [Waitable]; the threads are as before. *)
Lemma same_here s s' t u : u <> t -> pc_of s' u = pc_of s u -> waitables (kern s') !! u = waitables (kern s) !! u ->
  world_of s' = world_of s -> same s s' u.
Proof. intros N Hp Hy Hw. split_and!; [done|done|]. right. rewrite Hw. apply later_refl. Qed.

Lemma call_inv n s t c : MInv n s -> on s t c -> pc_of s t = Outside -> MInv (S n) (set_pc t Trying s).
Proof.
  intros HI Hon Hp. pose proof HI as [M1 M2 _ _ _ (x & Ex & Hc & ND & Hw & _)]. pose proof (M2 t) as Ht. unfold wf_thread in Ht. rewrite Hp in Ht.
  eapply (minv_intro n s _ t x x HI); try done; rewrite ?pc_set_eq, ?Hp; try done; try lia.
  - intros u N. apply (same_here _ _ t); [done|by apply pc_set_ne|done|done].
  - unfold wf_thread. rewrite pc_set_eq. split; [done|]. by exists c.
  - by left.
  - intros _. exists t. apply active_now. rewrite pc_set_eq. auto.
Qed.

Lemma exchange_inv n s t c : MInv n s -> on s t c -> pc_of s t = Trying -> MInv (S n) (exchange t s).
Proof.
  intros HI Hon Hp. pose proof HI as [M1 M2 M3 M4 M5 (x & Ex & Hc & ND & Hw & _)]. pose proof (M2 t) as Ht. unfold wf_thread in Ht. rewrite Hp in Ht.
  destruct Ht as [Hy _]. unfold exchange. destruct (inner s) eqn:Ei.
  - eapply (minv_intro n s _ t x x HI); try done; rewrite ?pc_set_eq, ?Hp; try done; try lia.
    + intros u N. apply (same_here _ _ t); [done|by rewrite pc_set_ne|simpl; by rewrite lookup_insert_ne|done].
    + unfold wf_thread. rewrite pc_set_eq. simpl. split; [by rewrite lookup_insert_eq|]. by exists c.
    + by left.
    + rewrite Hw, Hy. simpl. rewrite lookup_insert_eq. split; [done|]. intros [= ?].
    + intros _. destruct (M5 eq_refl) as [u Hu]. exists u. apply active_now. rewrite pc_set_ne by congruence. auto.
  - eapply (minv_intro n s _ t x x HI); try done; rewrite ?pc_set_eq, ?Hp; try done; try lia.
    + intros u N. apply (same_here _ _ t); [done|by rewrite pc_set_ne|done|done].
    + unfold wf_thread. by rewrite pc_set_eq.
    + right. by right.
    + intros _. exists t. apply active_now. rewrite pc_set_eq. auto.
Qed.

Lemma store_inv n s t c : MInv n s -> on s t c -> pc_of s t = Holding -> MInv (S n) (store t s).
Proof.
  intros HI Hon Hp. pose proof HI as [M1 M2 M3 M4 M5 (x & Ex & Hc & ND & Hw & _)]. pose proof (M2 t) as Ht. unfold wf_thread in Ht. rewrite Hp in Ht.
  unfold store. eapply (minv_intro n s _ t x x HI); try done; rewrite ?pc_set_eq, ?Hp; try done; try lia.
  - intros u N. apply (same_here _ _ t); [done|by rewrite pc_set_ne|done|done].
  - unfold wf_thread. by rewrite pc_set_eq.
  - right. by left.
  - intros _. exists t. apply active_now. rewrite pc_set_eq. auto.
Qed.

(** A thread in [wait] has its [Waitable]. *)
Lemma wait_waitable s t : wf_thread s t -> pc_of s t = Checking \/ pc_of s t = Parked -> exists b, waitables (kern s) !! t = Some (mkWaitable t b).
Proof. unfold wf_thread. intros H [E|E]; rewrite E in H; [destruct H as [-> _]|destruct H as [[-> _]|[-> _]]]; eauto. Qed.

Lemma check_inv n s t c : MInv n s -> Z.of_nat n < 2 ^ 64 -> on s t c -> pc_of s t = Checking \/ pc_of s t = Parked ->
  exists s', check t s = Some s' /\ MInv (S n) s'.
Proof.
  intros HI Hn Hon Hp. pose proof HI as [M1 M2 M3 M4 M5 (x & Ex & Hc & ND & Hw & Hprog)].
  destruct (wait_waitable s t (M2 t) Hp) as [b Hy]. unfold check, wait_check. rewrite Ex. cbn [mbind option_bind]. rewrite Hy. cbn [mbind option_bind in_list thread].
  assert (Hnh : pc_of s t <> Holding) by (destruct Hp; congruence).
  destruct (signaled_count x =? 0) eqn:E0; bool_to_prop; cbn [negb mbind option_bind]; (eexists; split; [reflexivity|]).
  - assert (Hb : t ∈ waiters x <-> b = true) by (rewrite Hw, Hy; split; [by intros [= ->]|by intros ->]).
    set (x' := if b then x else push t x). assert (Hact : exists u, u <> t /\ active s (signaled_count x) u).
    { destruct (Hprog t) as [u Hu]; [destruct Hp as [-> | ->]; unfold waiting; auto|]. exists u. split; [|done]. intros ->.
      unfold active in Hu. destruct Hp as [E|E]; rewrite E in Hu; lia. }
    assert (Hx' : forall u, u ∈ waiters x' <-> u = t \/ u ∈ waiters x).
    { intros u. unfold x'. destruct b; [|simpl; rewrite elem_of_app, list_elem_of_singleton; tauto]. split; [auto|]. intros [->|?]; [by apply Hb|done]. }
    eapply (minv_intro n s _ t x x' HI); try done; rewrite ?pc_set_eq; try done.
    + destruct b; done.
    + intros u N. apply (same_here _ _ t); [done|by rewrite pc_set_ne| |by destruct b]. destruct b; [done|]. simpl. by rewrite lookup_insert_ne.
    + unfold wf_thread. rewrite pc_set_eq. split; [destruct b; [done|]; simpl; by rewrite lookup_insert_eq|]. exists c. unfold on, world_of. by destruct b.
    + left. by destruct b.
    + unfold x'. destruct b; [done|]. simpl. by rewrite lookup_insert_eq.
    + unfold x'. destruct b; simpl; lia.
    + unfold x'. destruct b; [done|]. simpl. apply NoDup_app. split_and!; [done| |apply NoDup_singleton].
      intros u Hu ->%list_elem_of_singleton. apply Hb in Hu. done.
    + intros u N. rewrite Hx'. tauto.
    + rewrite Hx'. split; [|auto]. intros _. destruct b; [done|]. simpl. by rewrite lookup_insert_eq.
    + intros _. destruct Hact as (u & N & Hu). exists u. replace (signaled_count x') with (signaled_count x) by (unfold x'; by destruct b).
      eapply active_same; [|exact Hu]. apply (same_here _ _ t); [done|by rewrite pc_set_ne| |by destruct b]. destruct b; [done|]. simpl. by rewrite lookup_insert_ne.
  - set (x' := consume_one (if b then remove t x else x)).
    assert (Hx' : forall u, u ∈ waiters x' <-> u <> t /\ u ∈ waiters x).
    { intros u. unfold x'. destruct b; simpl; [by rewrite list_elem_of_filter|]. rewrite !Hw. split; [|tauto]. intros Hu. split; [|done]. intros ->. congruence. }
    eapply (minv_intro n s _ t x x' HI); try done; rewrite ?pc_set_eq; try done.
    + intros u N. apply (same_here _ _ t); [done|by rewrite pc_set_ne|simpl; by rewrite lookup_delete_ne|done].
    + unfold wf_thread. rewrite pc_set_eq. split; [simpl; by rewrite lookup_delete_eq|]. by exists c.
    + by left.
    + simpl. by rewrite lookup_insert_eq.
    + assert (Hs : signaled_count x' = signaled_count x - 1) by (unfold x'; destruct b; simpl; apply u64_small; lia). lia.
    + unfold x'. destruct b; simpl; [by apply NoDup_filter|done].
    + intros u N. rewrite Hx'. tauto.
    + rewrite Hx'. simpl. rewrite lookup_delete_eq. split; [tauto|done].
    + intros _. exists t. apply active_now. rewrite pc_set_eq. auto.
Qed.

Lemma block_inv n s t c now : MInv n s -> on s t c -> pc_of s t = Pushed -> exists s', block t c now s = Some s' /\ MInv (S n) s'.
Proof.
  intros HI Hon Hp. pose proof HI as [M1 M2 M3 M4 M5 (x & Ex & Hc & ND & Hw & Hprog)]. pose proof (M2 t) as Ht. unfold wf_thread in Ht. rewrite Hp in Ht.
  destruct Ht as [Hy _]. destruct (park_runs (world_of s) t c now M1 Hon) as (w' & E & Hok & Hm & Hl).
  unfold block. rewrite E. cbn [mbind option_bind]. eexists. split; [reflexivity|].
  assert (Hsame : forall u, u <> t -> same s (set_pc t Parked (set_kern (set_sched w' (kern s)) s)) u).
  { intros u N. split_and!; [by rewrite pc_set_ne|done|]. right. by apply Hl. }
  eapply (minv_intro n s _ t x x HI); try done; rewrite ?pc_set_eq, ?Hp; try done; try lia.
  - unfold wf_thread. rewrite pc_set_eq. left. split; [done|]. destruct Hm as [?|?]; [by left|right; by exists c].
  - by left.
  - intros _. destruct (Hprog t) as [u Hu]; [rewrite Hp; unfold waiting; auto|]. exists u. destruct (decide (u = t)) as [->|N].
    + unfold active in Hu. by rewrite Hp in Hu.
    + eapply active_same; [by apply Hsame|done].
Qed.

Lemma other_inv n s w : MInv n s -> elsewhere (fun t => irqs_on (pc_of s t)) (world_of s) w -> MInv (S n) (set_kern (set_sched w (kern s)) s).
Proof.
  intros [M1 M2 M3 M4 M5 (x & Ex & Hc & ND & Hw & Hprog)] Hel. destruct (elsewhere_later _ _ _ M1 Hel) as [Hok Hl].
  assert (Hsame : forall u, same s (set_kern (set_sched w (kern s)) s) u).
  { intros u. split_and!; [done|done|]. destruct (decide (pc_of s u = Outside \/ pc_of s u = Holding \/ pc_of s u = Releasing)) as [D|D]; [by left|].
    right. by apply Hl. }
  split; try done.
  - intros u. eapply wf_same; [apply Hsame|done].
  - exists x. split_and!; [done|lia|lia|done|done|]. intros u Hu. destruct (Hprog u Hu) as [v Hv]. exists v. by eapply active_same.
Qed.

(** ** Unlocking *)

(** The first thread in the event is one that waits. *)
Lemma listed_waits s t : wf_thread s t -> waitables (kern s) !! t = Some (mkWaitable t true) ->
  (exists c, on s t c) \/ (pc_of s t = Parked /\ mode (world_of s) t = Some Blocks).
Proof.
  unfold wf_thread. intros H E. rewrite E in H. destruct (pc_of s t); try done; try (destruct H as [? [c ?]]; eauto; done).
  destruct H as [[_ [?|?]]|[? _]]; auto. congruence.
Qed.

(** Unlocking fails exactly when the first waiter still runs. *)
Lemma signal_inv n s t c : MInv n s -> Z.of_nat (S n) < 2 ^ 64 -> on s t c -> pc_of s t = Releasing ->
  (exists s', signal t s = Some s' /\ MInv (S n) s') \/
  (signal t s = None /\ exists u x c', events (kern s) !! unlock_event = Some x /\ head (waiters x) = Some u /\ on s u c').
Proof.
  intros HI Hn Hon Hp. pose proof HI as [M1 M2 M3 M4 M5 (x & Ex & Hc & ND & Hw & Hprog)]. pose proof (M2 t) as Ht. unfold wf_thread in Ht. rewrite Hp in Ht.
  unfold signal, signal_one, add_signals. rewrite Ex. cbn [mbind option_bind]. rewrite u64_small by lia.
  unfold wake_front. simpl. rewrite lookup_insert_eq. cbn [mbind option_bind waiters signaled_count].
  destruct (waiters x) as [|i is_] eqn:El; cbn [mbind option_bind].
  - left. eexists. split; [reflexivity|]. set (s' := set_pc t Outside _).
    assert (Hsame : forall u, u <> t -> same s s' u) by (intros u N; unfold s'; apply (same_here _ _ t); [done|by rewrite pc_set_ne|done|done]).
    eapply (minv_intro n s s' t x (mkEvent [] (signaled_count x + 1)) HI); try done; unfold s'; rewrite ?pc_set_eq, ?Hp; try done; cbn [signaled_count waiters]; try lia.
    + unfold wf_thread. by rewrite pc_set_eq.
    + by left.
    + simpl. by rewrite lookup_insert_eq.
    + intros u N. by rewrite El.
    + intros [[?|[?|?]]|(u & N & Hu)]; [done..|]. exists u. eapply active_same; [by apply Hsame|]. pose proof (M2 u) as HTu. unfold wf_thread in HTu. unfold active.
      destruct Hu as [E|[E|E]]; rewrite E in HTu |- *; [lia| |].
      * destruct HTu as [HTu _]. apply Hw in HTu. by apply elem_of_nil in HTu.
      * destruct HTu as [[HTu _]|[_ HTu]]; [apply Hw in HTu; by apply elem_of_nil in HTu|split; [lia|done]].
  - assert (Hy : waitables (kern s) !! i = Some (mkWaitable i true)) by (apply Hw; left). rewrite Hy. cbn [mbind option_bind thread].
    unfold wake_thread. simpl. destruct (listed_waits s i (M2 i) Hy) as [[c' Hr]|[Hpi Hb]].
    + right. pose proof (wake_runs _ _ _ M1 Hr) as EW. unfold world_of in EW. rewrite EW. cbn [mbind option_bind]. split; [done|]. exists i, x, c'. by rewrite El.
    + left. destruct (wake_blocks _ _ M1 (or_introl Hb)) as (w' & E & Hok & Hm & Ho). unfold world_of in E. rewrite E. cbn [mbind option_bind].
      eexists. split; [reflexivity|]. set (s' := set_pc t Outside _).
      assert (Nit : i <> t) by congruence. assert (Hii : i ∉ is_ /\ NoDup is_) by (by apply NoDup_cons).
      assert (Hpc : forall u, u <> t -> pc_of s' u = pc_of s u) by (intros u N; unfold s'; by rewrite pc_set_ne).
      assert (Hci : can_run s' i) by (left; exact Hm).
      eapply (minv_intro2 n s s' t i x (mkEvent is_ (signaled_count x + 1)) HI); try done; cbn [signaled_count waiters]; try lia.
      * intros u N N'. split_and!; [by apply Hpc|unfold s'; simpl; by rewrite lookup_insert_ne|]. right. unfold s', world_of. simpl. unfold world_of in Ho. rewrite Ho by done. apply later_refl.
      * unfold wf_thread, s'. rewrite pc_set_eq. simpl. by rewrite lookup_insert_ne.
      * unfold wf_thread. rewrite (Hpc i Nit), Hpi. right. split; [|done]. unfold s'. simpl. by rewrite lookup_insert_eq.
      * unfold s'. by rewrite pc_set_eq.
      * by left.
      * unfold s'. rewrite Hp. done.
      * unfold s'. simpl. by rewrite !lookup_insert_eq.
      * apply Hii.
      * intros u N N'. rewrite El, elem_of_cons. tauto.
      * unfold s'. simpl. rewrite lookup_insert_ne, Ht by done. split; [|done]. intros Hin. assert (t ∈ i :: is_) as Hin' by (by right). apply Hw in Hin'. congruence.
      * unfold s'. simpl. rewrite lookup_insert_eq. split; [by intros ?%Hii|done].
      * intros _. exists i. unfold active. rewrite (Hpc i Nit), Hpi. split; [lia|done].
Qed.

(** ** Reachable states *)

Lemma start_inv w : ok w -> MInv 0 (start w).
Proof.
  intros Hok. split; try done.
  exists (mkEvent [] 0). split_and!; [done|done|done|apply NoDup_nil_2| |]; [intros t; simpl; rewrite elem_of_nil; by rewrite lookup_empty|].
  intros t [H|[H|H]]; discriminate H.
Qed.

Lemma reaches_inv w n s : ok w -> reaches w n s -> Z.of_nat n < 2 ^ 64 -> MInv n s.
Proof.
  intros Hok HR. induction HR as [|n s s' HR IH HS]; intros Hn; [by apply start_inv|]. specialize (IH ltac:(lia)).
  destruct HS as [s t c Ho Hp|s t c Ho Hp|s t c s' Ho Hp E|s t c now s' Ho Hp E|s t c Ho Hp|s t c s' Ho Hp E|s w' He].
  - by eapply call_inv.
  - by eapply exchange_inv.
  - destruct (check_inv n s t c IH ltac:(lia) Ho Hp) as (s2 & E2 & HI). rewrite E in E2. by injection E2 as <-.
  - destruct (block_inv n s t c now IH Ho Hp) as (s2 & E2 & HI). rewrite E in E2. by injection E2 as <-.
  - by eapply store_inv.
  - destruct (signal_inv n s t c IH ltac:(lia) Ho Hp) as [(s2 & E2 & HI)|[E2 _]]; rewrite E in E2; [by injection E2 as <-|done].
  - by apply other_inv.
Qed.

End Mutex.

End Mutex.
