(* ===== verification/WaitCorrect.v ===== *)
(** * Claims on events and mutexes

    The claims hold for every scheduler that keeps the laws of Threads.v; their
    witnesses use the scheduler of Sched.v with two CPUs. *)

From S2P Require Import Prelude Threads Event Mutex Sched SchedInv SchedRun SchedThreads SchedBalance.

Module WaitCorrect.
Import Threads Event Mutex.

(** ** Two CPUs

    Thread 3 runs on CPU 0 and thread 20 on CPU 1. *)
Definition duo_ops : list SchedRun.op := [SchedRun.Start 1 20 9; SchedRun.IdlePoll 0; SchedRun.IdlePoll 1].
Definition busy : Sched.world := match SchedRun.run duo_ops SchedBalance.duo with Some w => w | None => SchedBalance.duo end.

Lemma busy_ok : ok busy.
Proof.
  assert (HP : SchedRun.all_permitted duo_ops SchedBalance.duo).
  { split; [split_and!; [by eexists|reflexivity|done]|]. intros w1 E1. vm_compute in E1. injection E1 as <-.
    split; [by eexists|]. intros w2 E2. vm_compute in E2. injection E2 as <-. split; [by eexists|]. done. }
  destruct (SchedRun.run_ok duo_ops SchedBalance.duo SchedBalance.duo_inv HP) as (w & E & HI). unfold busy. rewrite E. exact HI.
Qed.

(** ** Mutexes *)

Section Claims.
Context {W : Type} `{T : Threads W} `{L : !ThreadLaws W}.

(** C22: However threads, interrupts and CPUs interleave: at most one thread holds the
    mutex, and no wake-up is lost: while a thread waits, another one holds the
    mutex or is about to signal that it is free, or a thread that runs or is ready
    to run is about to take it or will find a signal. *)
Theorem mutex_exclusive_and_live (w : W) (n : nat) (s : mutex) : ok w -> reaches w n s -> Z.of_nat n < 2 ^ 64 ->
  (forall t u, pc_of s t = Holding -> pc_of s u = Holding -> t = u) /\
  forall t, waiting (pc_of s t) -> exists u x, events (kern s) !! unlock_event = Some x /\
    (pc_of s u = Holding \/ pc_of s u = Releasing \/
     (can_run s u /\ (pc_of s u = Trying \/ (0 < signaled_count x /\ (pc_of s u = Checking \/ pc_of s u = Parked))))).
Proof.
  intros Hok HR Hn. destruct (reaches_inv w n s Hok HR Hn) as [_ M2 _ M4 _ (x & Ex & _ & _ & _ & Hp)]. split; [done|].
  intros t Ht. destruct (Hp t Ht) as [u Hu]. exists u, x. split; [done|]. pose proof (M2 u) as Hw. unfold active in Hu. unfold wf_thread in Hw.
  destruct (pc_of s u) eqn:Ep; try done; auto.
  - destruct Hw as [_ [c Hc]]. right. right. split; [right; by exists c|auto].
  - destruct Hw as [_ [c Hc]]. right. right. split; [right; by exists c|auto].
  - destruct Hu as [? ?]. auto 7.
Qed.

(** Unlocking wakes a waiter, unless the first waiter is still on its CPU, between
    the point where it entered the list and [block]: then the assertion of the
    scheduler that a thread that is woken does not run fails. *)
Theorem unlock_fails_iff (w : W) (n : nat) (s : mutex) (t c : Z) : ok w -> reaches w n s -> Z.of_nat (S n) < 2 ^ 64 ->
  on s t c -> pc_of s t = Releasing ->
  signal t s = None <-> exists u x c', events (kern s) !! unlock_event = Some x /\ head (waiters x) = Some u /\ on s u c'.
Proof.
  intros Hok HR Hn Ho Hp. pose proof (reaches_inv w n s Hok HR ltac:(lia)) as HI.
  split; [destruct (signal_inv n s t c HI Hn Ho Hp) as [(s' & E & _)|[_ H]]; [congruence|done]|].
  intros (u & x & c' & Ex & Hh & Hr). destruct HI as [M1 M2 _ _ _ (x' & Ex' & _ & _ & Hw & _)]. rewrite Ex in Ex'. injection Ex' as <-.
  unfold signal, signal_one, add_signals. rewrite Ex. cbn [mbind option_bind]. unfold wake_front. simpl. rewrite lookup_insert_eq.
  cbn [mbind option_bind Event.waiters Event.signaled_count].
  destruct (Event.waiters x) as [|i is_]; [done|]. injection Hh as ->.
  rewrite (proj1 (Hw u) ltac:(left)). cbn [mbind option_bind thread]. unfold wake_thread. simpl. pose proof (wake_runs _ _ _ M1 Hr) as E. unfold world_of in E.
  by rewrite E.
Qed.

(** ** Events *)

(** A thread that waits for several events with [wait_any] until the time is up
    leaves its entry in the list of the event, because the entries are never flagged
    as listed, and frees it: the next signal of the event uses it. *)
Theorem wait_any_use_after_free (k : kernel W) (t c c' e i max_ns now now' : Z) (x : Event) :
  ok (sched k) -> mode (sched k) t = Some (Runs c) -> events k !! e = Some x -> Event.signaled_count x = 0 -> Event.waiters x = [] ->
  exists k1, wait_any t c [(e, i)] max_ns now now' k = Some (0, k1) /\
    forall w, ok w -> mode w t = Some (Runs c') ->
      exists k2, wait_any_return t [(e, i)] (set_sched w k1) = Some (0, k2) /\ is_being_waited e k2 = Some true /\ signal_one e k2 = None.
Proof.
  intros Hok Hm Ex E0 El. destruct x as [l n]. cbn [Event.signaled_count Event.waiters] in *. subst l n.
  assert (HB : exists w1, (if negb (max_ns =? 2 ^ 64 - 1) then nap c max_ns now now' (sched k) else park c now (sched k)) = Some w1).
  { destruct (negb (max_ns =? 2 ^ 64 - 1)); [destruct (nap_runs _ t c max_ns now now' Hok Hm) as (w1 & E & _)|destruct (park_runs _ t c now Hok Hm) as (w1 & E & _)]; eauto. }
  destruct HB as [w1 HB].
  exists (set_sched w1 (set_event e (mkEvent [i] 0) (set_waitable i (mkWaitable t false) k))). split.
  - unfold wait_any. cbn [new_waitables foldl wait_any_enter]. simpl. rewrite Ex. cbn [mbind option_bind Event.signaled_count negb]. simpl.
    unfold wait_any_block. simpl. by rewrite HB.
  - intros w Hw Hr. destruct (forget_runs w t c' Hw Hr) as (w2 & Ef & _).
    exists (free_waitable i (set_sched w2 (set_event e (mkEvent [i] 0) (set_sched w (set_sched w1 (set_event e (mkEvent [i] 0) (set_waitable i (mkWaitable t false) k))))))).
    split_and!.
    + unfold wait_any_return. simpl. rewrite lookup_insert_eq. cbn [mbind option_bind]. rewrite lookup_insert_eq. cbn [mbind option_bind in_list Event.signaled_count negb].
      simpl. rewrite Ef. reflexivity.
    + unfold is_being_waited. simpl. by rewrite lookup_insert_eq.
    + unfold signal_one, add_signals. simpl. rewrite lookup_insert_eq. cbn [mbind option_bind]. unfold wake_front. simpl. rewrite lookup_insert_eq.
      cbn [mbind option_bind Event.waiters]. simpl. by rewrite lookup_delete_eq.
Qed.

(** The waiters of an event are blocked threads with entries of their own. *)
Definition blocked_waiters (k : kernel W) (th : Z -> Z) (is_ : list Z) : Prop :=
  NoDup is_ /\ (forall i j, i ∈ is_ -> j ∈ is_ -> th i = th j -> i = j) /\
  forall i, i ∈ is_ -> waitables k !! i = Some (mkWaitable (th i) true) /\ mode (sched k) (th i) = Some Blocks.

Lemma wake_all_ok (th : Z -> Z) is_ : forall k, ok (sched k) -> blocked_waiters k th is_ -> exists k', wake_all is_ k = Some k' /\ ok (sched k') /\
  events k' = events k /\ (forall i, i ∈ is_ -> waitables k' !! i = Some (mkWaitable (th i) false) /\ mode (sched k') (th i) = Some Waits) /\
  (forall i, i ∉ is_ -> waitables k' !! i = waitables k !! i) /\ (forall t, (forall i, i ∈ is_ -> t <> th i) -> mode (sched k') t = mode (sched k) t).
Proof.
  induction is_ as [|i is_ IH]; intros k Hok (ND & Hinj & HB); [exists k; split_and!; try done; by intros i ?%elem_of_nil|].
  apply NoDup_cons in ND as [Hni ND]. destruct (HB i ltac:(left)) as [Hy Hm]. cbn [wake_all]. rewrite Hy. cbn [mbind option_bind thread]. unfold wake_thread.
  destruct (wake_blocks _ _ Hok (or_introl Hm)) as (w' & E & Hok' & Hm' & Ho). rewrite E. cbn [mbind option_bind].
  assert (Hne : forall j, j ∈ is_ -> th j <> th i) by (intros j Hj Eq; assert (j = i) as -> by (apply Hinj; [by right|left|done]); done).
  destruct (IH (set_waitable i (mkWaitable (th i) false) (set_sched w' k)) Hok') as (k' & E' & Hok2 & Hev & H1 & H2 & H3).
  { split_and!; [done|intros a b Ha Hb; apply Hinj; by right|]. intros j Hj. destruct (HB j ltac:(by right)) as [Hyj Hmj]. simpl.
    rewrite lookup_insert_ne by (intros ->; done). split; [done|]. by rewrite Ho by (by apply Hne). }
  exists k'. split_and!; [done|done|done| | |].
  - intros j [->|Hj]%elem_of_cons; [|auto]. rewrite H2 by done. simpl. rewrite lookup_insert_eq. split; [done|]. rewrite H3; [done|].
    intros b Hb. by apply not_eq_sym, Hne.
  - intros j [N Hj]%not_elem_of_cons. rewrite H2 by done. simpl. by rewrite lookup_insert_ne.
  - intros t Ht. rewrite H3 by (intros; apply Ht; by right). simpl. apply Ho. apply Ht. left.
Qed.

(** [signal_all] wakes every waiter but leaves a single signal for all of them: when
    one of them has returned from [wait], every other one goes back to the list. *)
Theorem signal_all_releases_one (k : kernel W) (e : Z) (th : Z -> Z) (is_ : list Z) : ok (sched k) -> blocked_waiters k th is_ ->
  events k !! e = Some (mkEvent is_ 0) ->
  exists k1, signal_all e k = Some k1 /\ (forall i, i ∈ is_ -> mode (sched k1) (th i) = Some Waits) /\
    forall i j, i ∈ is_ -> j ∈ is_ -> i <> j ->
      exists k2 k3, wait_check true e i k1 = Some (true, k2) /\ wait_check true e j k2 = Some (false, k3) /\ is_being_waited e k3 = Some true.
Proof.
  intros Hok HB Ex. unfold signal_all, add_signals. rewrite Ex. cbn [mbind option_bind Event.waiters Event.signaled_count]. simpl. rewrite lookup_insert_eq.
  cbn [mbind option_bind Event.waiters]. change (u64 (0 + 1)) with 1.
  destruct (wake_all_ok th is_ (set_event e (mkEvent is_ 1) k) Hok HB) as (k' & E & Hok' & Hev & H1 & _). rewrite E. cbn [mbind option_bind].
  rewrite Hev. simpl. rewrite lookup_insert_eq. cbn [mbind option_bind Event.signaled_count]. eexists. split_and!; [reflexivity|intros i Hi; by apply H1|].
  intros i j Hi Hj N. destruct (H1 i Hi) as [Hyi _]. destruct (H1 j Hj) as [Hyj _]. eexists _, _. split_and!.
  - unfold wait_check. simpl. rewrite lookup_insert_eq. cbn [mbind option_bind]. rewrite Hyi. cbn [mbind option_bind Event.signaled_count in_list]. simpl. reflexivity.
  - unfold wait_check. simpl. rewrite lookup_insert_eq. cbn [mbind option_bind]. rewrite lookup_delete_ne, Hyj by done. cbn [mbind option_bind]. change (u64 0) with 0. simpl. reflexivity.
  - unfold is_being_waited. simpl. rewrite lookup_insert_eq. reflexivity.
Qed.

End Claims.

(** Thread 3 takes the mutex, thread 20 finds it taken and enters the list, and
    thread 3 clears the flag. *)
Definition m0 : mutex := start busy.
Definition m2 : mutex := exchange 3 (set_pc 3 Trying m0).
Definition m4 : mutex := exchange 20 (set_pc 20 Trying m2).
Definition m5 : mutex := match check 20 m4 with Some s => s | None => m4 end.
Definition m6 : mutex := store 3 m5.

Lemma m5_reached : reaches busy 5 m5.
Proof.
  eapply (reaches_step _ 4 m4); [|eapply (step_check _ 20 1); [reflexivity|by left|reflexivity]].
  eapply (reaches_step _ 3 (set_pc 20 Trying m2)); [|eapply (step_exchange _ 20 1); reflexivity].
  eapply (reaches_step _ 2 m2); [|eapply (step_call _ 20 1); reflexivity].
  eapply (reaches_step _ 1 (set_pc 3 Trying m0)); [|eapply (step_exchange _ 3 0); reflexivity].
  eapply (reaches_step _ 0 m0); [apply reaches_start|eapply (step_call _ 3 0); reflexivity].
Qed.

Lemma mutex_exclusive_and_live_witness : waiting (pc_of m5 20) /\ exists u x, events (kern m5) !! unlock_event = Some x /\
    (pc_of m5 u = Holding \/ pc_of m5 u = Releasing \/
     (can_run m5 u /\ (pc_of m5 u = Trying \/ (0 < Event.signaled_count x /\ (pc_of m5 u = Checking \/ pc_of m5 u = Parked))))).
Proof.
  assert (H : waiting (pc_of m5 20)) by (right; left; reflexivity). split; [exact H|].
  exact (proj2 (mutex_exclusive_and_live busy 5 m5 busy_ok m5_reached eq_refl) 20 H).
Defined.

Lemma unlock_fails_iff_witness : signal 3 m6 = None.
Proof.
  apply (unlock_fails_iff busy 6 m6 3 0 busy_ok).
  - eapply (reaches_step _ 5 m5); [exact m5_reached|eapply (step_store _ 3 0); reflexivity].
  - reflexivity.
  - reflexivity.
  - reflexivity.
  - exists 20, (mkEvent [20] 0), 1. split; [reflexivity|]. split; reflexivity.
Defined.

Definition k0 : kernel Sched.world := mkKernel busy {[5 := mkEvent [] 0]} ∅.

Lemma wait_any_use_after_free_witness : exists k1, wait_any 3 0 [(5, 77)] 1000 0 1 k0 = Some (0, k1) /\
  exists k2, wait_any_return 3 [(5, 77)] (set_sched busy k1) = Some (0, k2) /\ signal_one 5 k2 = None.
Proof.
  destruct (wait_any_use_after_free k0 3 0 0 5 77 1000 0 1 (mkEvent [] 0) busy_ok eq_refl eq_refl eq_refl eq_refl) as (k1 & E & H).
  exists k1. split; [exact E|]. destruct (H busy busy_ok eq_refl) as (k2 & E2 & _ & E3). exists k2. split; [exact E2|exact E3].
Defined.

(** Threads 3 and 20 block on event 5. *)
Definition parked_world : Sched.world :=
  match (w ← park 0 10 busy; park 1 11 w) with Some w => w | None => busy end.
Definition k_all : kernel Sched.world := mkKernel parked_world {[5 := mkEvent [3; 20] 0]} {[3 := mkWaitable 3 true; 20 := mkWaitable 20 true]}.

Lemma parked_ok : ok parked_world.
Proof.
  destruct (park_runs busy 3 0 10 busy_ok eq_refl) as (w1 & E1 & Hok1 & _).
  assert (Hr : mode w1 20 = Some (Runs 1)) by (vm_compute in E1; injection E1 as <-; reflexivity).
  destruct (park_runs w1 20 1 11 Hok1 Hr) as (w2 & E2 & Hok2 & _). unfold parked_world. rewrite E1. cbn [mbind option_bind]. by rewrite E2.
Qed.

Lemma signal_all_releases_one_witness : exists k1 k2 k3, signal_all 5 k_all = Some k1 /\ wait_check true 5 3 k1 = Some (true, k2) /\
  wait_check true 5 20 k2 = Some (false, k3).
Proof.
  destruct (signal_all_releases_one k_all 5 (fun i => i) [3; 20] parked_ok) as (k1 & E & _ & H).
  - split; [apply (bool_decide_unpack _); reflexivity|]. split; [done|]. intros i Hi. rewrite !elem_of_cons, elem_of_nil in Hi.
    destruct Hi as [->|[->|[]]]; split; reflexivity.
  - reflexivity.
  - destruct (H 3 20) as (k2 & k3 & E2 & E3 & _); [left|right; left|done|]. exists k1, k2, k3. split; [exact E|]. split; [exact E2|exact E3].
Defined.

(** ** Callbacks *)

(** The number that [add_callback] gives is not good for [remove_callback] once an
    earlier callback was removed: the second of two added last fails the assertion. *)
Theorem callback_index_goes_stale (F : Type) (f g : F) (fs : list F) :
  let '(i, fs1) := add_callback f fs in let '(j, fs2) := add_callback g fs1 in
  exists fs3, remove_callback i fs2 = Some fs3 /\ callback_signal_all fs3 = fs ++ [g] /\ remove_callback j fs3 = None.
Proof.
  unfold add_callback, remove_callback. rewrite !length_app. cbn [length]. exists (fs ++ [g]). split_and!; [|done|].
  - rewrite (proj2 (Nat.ltb_lt _ _)) by lia. cbn [assert mbind option_bind]. f_equal. rewrite <- (assoc_L app).
    exact (delete_middle fs [g] f).
  - rewrite length_app. cbn [length]. by rewrite (proj2 (Nat.ltb_ge _ _)) by lia.
Qed.

End WaitCorrect.
