(* ===== verification/UnorderedMap.v ===== *)
(** * The hash map (src/src/std/unordered_map.hpp)

    A table with linear probing.  A bucket is an option; a key is hashed through
    its bytes in memory.  [used] is a member that the constructor does not set: it
    is an argument of [new_map]. *)

From S2P Require Import Prelude.

Module UnorderedMap.

Definition fnv_hash (bytes : list Z) : Z :=
  fold_left (fun hash b => u64 (Z.lxor hash b * 0x100000001B3)) bytes 0xCBF29CE484222000.

Section Map.
Context {K T : Type} `{EqDecision K} (key_bytes : K -> list Z).

Notation bucket := (option (K * T)).
Record map := mkMap { table : list bucket; used : Z }.

Definition new_map (junk : Z) : map := mkMap [] junk.

Definition hash (k : K) : Z := fnv_hash (key_bytes k).

(** The loops over the buckets from index [i] on: the first that satisfies [P].
    After [fuel] buckets, once around, [get] and [remove] stop; [insert] would go
    on for ever. *)
Fixpoint search (fuel : nat) (P : bucket -> bool) (t : list bucket) (i : nat) : option nat :=
  match fuel with
  | O => None
  | S fuel => b ← t !! i; if P b then Some i else search fuel P t ((i + 1) mod length t)%nat
  end.

Definition start (k : K) (n : nat) : nat := Z.to_nat (hash k mod Z.of_nat n).
Definition is_key (k : K) (b : bucket) : bool := match b with Some (k', _) => bool_decide (k' = k) | None => false end.
Definition is_free (b : bucket) : bool := match b with Some _ => false | None => true end.

(** The last loop of [insert], and the loop that moves an element to a new table. *)
Definition place (P : bucket -> bool) (k : K) (v : T) (t : list bucket) : option (list bucket) :=
  i ← search (length t) P t (start k (length t)); Some (<[i := Some (k, v)]> t).

Fixpoint rehash (old new : list bucket) : option (list bucket) :=
  match old with
  | [] => Some new
  | None :: old => rehash old new
  | Some (k, v) :: old => new ← place is_free k v new; rehash old new
  end.

Definition insert (k : K) (v : T) (m : map) : option map :=
  match table m with
  | [] => Some (mkMap (<[Z.to_nat (hash k mod 8) := Some (k, v)]> (replicate 8 None)) (u64 (used m + 1)))
  | _ :: _ =>
      let size := Z.of_nat (length (table m)) in
      let load_factor := u64 (used m * 100) / size in
      t ← (if load_factor >=? 70 then rehash (table m) (replicate (Z.to_nat (u64 (size * 2))) None) else Some (table m));
      t ← place (fun b => is_free b || is_key k b) k v t;
      Some (mkMap t (u64 (used m + 1)))
  end.

Definition get (k : K) (m : map) : option T :=
  match table m with
  | [] => None
  | _ :: _ =>
      i ← search (length (table m)) (is_key k) (table m) (start k (length (table m)));
      b ← table m !! i; snd <$> b
  end.

Definition remove (k : K) (m : map) : map :=
  match table m with
  | [] => m
  | _ :: _ =>
      match search (length (table m)) (is_key k) (table m) (start k (length (table m))) with
      | Some i => mkMap (<[i := None]> (table m)) (used m)
      | None => m
      end
  end.

(** ** Searching *)

Definition at_ (t : list bucket) (s d : nat) : option bucket := t !! ((s + d) mod length t)%nat.

Lemma search_spec fuel P t s : (s < length t)%nat ->
  match search fuel P t s with
  | Some i => exists d b, (d < fuel)%nat /\ i = ((s + d) mod length t)%nat /\ t !! i = Some b /\ P b = true /\
      forall d', (d' < d)%nat -> exists b', at_ t s d' = Some b' /\ P b' = false
  | None => forall d, (d < fuel)%nat -> exists b, at_ t s d = Some b /\ P b = false
  end.
Proof.
  revert s. induction fuel as [|fuel IH]; intros s Hs; [simpl; lia|]. cbn [search].
  destruct (lookup_lt_is_Some_2 t s Hs) as [b Hb]. rewrite Hb. cbn [mbind option_bind].
  assert (H0 : at_ t s 0 = Some b) by (unfold at_; by rewrite Nat.add_0_r, Nat.mod_small).
  assert (Hn : forall d, at_ t ((s + 1) mod length t) d = at_ t s (S d)).
  { intros d. unfold at_. rewrite Nat.Div0.add_mod_idemp_l. f_equal. f_equal. lia. }
  destruct (P b) eqn:HP.
  - exists 0%nat, b. rewrite Nat.add_0_r, Nat.mod_small by done. split_and!; try done; lia.
  - specialize (IH ((s + 1) mod length t)%nat ltac:(apply Nat.mod_upper_bound; lia)). destruct (search fuel P t _) as [i|].
    + destruct IH as (d & b' & Hd & -> & Hb' & HP' & Hbefore). exists (S d), b'. split_and!; [lia| |done|done|].
      * rewrite Nat.Div0.add_mod_idemp_l. f_equal. lia.
      * intros [|d'] Hd'; [by exists b|]. rewrite <- Hn. apply Hbefore. lia.
    + intros [|d] Hd; [by exists b|]. rewrite <- Hn. apply IH. lia.
Qed.

(** Every bucket is met once around. *)
Lemma around (n s j : nat) : (s < n)%nat -> (j < n)%nat -> exists d, (d < n)%nat /\ j = ((s + d) mod n)%nat.
Proof.
  intros Hs Hj. destruct (decide (s <= j)%nat).
  - exists (j - s)%nat. split; [lia|]. rewrite Nat.mod_small; lia.
  - exists (n - s + j)%nat. split; [lia|]. replace (s + (n - s + j))%nat with (j + 1 * n)%nat by lia.
    by rewrite Nat.Div0.mod_add, Nat.mod_small.
Qed.

Lemma search_some fuel P t s j b : (s < length t)%nat -> t !! j = Some b -> P b = true -> (length t <= fuel)%nat ->
  exists i, search fuel P t s = Some i.
Proof.
  intros Hs Hj HP Hf. pose proof (search_spec fuel P t s Hs) as H. destruct (search fuel P t s) as [i|]; [by exists i|].
  apply lookup_lt_Some in Hj as Hl. destruct (around (length t) s j Hs Hl) as (d & Hd & E). destruct (H d) as (b' & Hb' & HP'); [lia|].
  unfold at_ in Hb'. rewrite <- E in Hb'. congruence.
Qed.

Lemma start_lt k n : (0 < n)%nat -> (start k n < n)%nat.
Proof. intros H. unfold start. pose proof (Z.mod_pos_bound (hash k) (Z.of_nat n)). lia. Qed.

(** ** The invariant of a table that nothing was removed from *)

(** From the bucket of its hash to its own, a key meets only other keys. *)
Definition ok (t : list bucket) : Prop := forall j k v, t !! j = Some (Some (k, v)) ->
  exists d, j = ((start k (length t) + d) mod length t)%nat /\
    forall d', (d' < d)%nat -> exists k' v', at_ t (start k (length t)) d' = Some (Some (k', v')) /\ k' <> k.

Definition has (t : list bucket) (k : K) (v : T) : Prop := exists j, t !! j = Some (Some (k, v)).

Lemma ok_unique t i j k v v' : ok t -> t !! i = Some (Some (k, v)) -> t !! j = Some (Some (k, v')) -> i = j.
Proof.
  intros Hok Hi Hj. destruct (Hok i k v Hi) as (d & Ed & Hd). destruct (Hok j k v' Hj) as (e & Ee & He).
  destruct (Nat.lt_trichotomy d e) as [L|[->|L]]; [|congruence|].
  - destruct (He d L) as (k' & w & H & N). unfold at_ in H. rewrite <- Ed, Hi in H. congruence.
  - destruct (Hd e L) as (k' & w & H & N). unfold at_ in H. rewrite <- Ee, Hj in H. congruence.
Qed.

Lemma has_unique t k v v' : ok t -> has t k v -> has t k v' -> v = v'.
Proof. intros Hok [i Hi] [j Hj]. pose proof (ok_unique _ _ _ _ _ _ Hok Hi Hj). congruence. Qed.

Definition occupied (t : list bucket) : nat := length (filter is_Some t).

Lemma occupied_free t : (occupied t < length t)%nat -> exists j, t !! j = Some None.
Proof.
  unfold occupied. induction t as [|b t IH]; simpl; [lia|]. destruct b as [x|].
  - rewrite filter_cons_True by (by eexists). simpl. intros H. destruct IH as [j Hj]; [lia|]. by exists (S j).
  - intros _. by exists 0%nat.
Qed.

Lemma occupied_app t t' : occupied (t ++ t') = (occupied t + occupied t')%nat.
Proof. unfold occupied. by rewrite filter_app, length_app. Qed.

Lemma occupied_length t : (occupied t <= length t)%nat.
Proof. apply length_filter. Qed.

Lemma occupied_insert t i b : (occupied (<[i := b]> t) <= S (occupied t))%nat.
Proof.
  unfold occupied. revert i. induction t as [|c t IH]; intros i; [simpl; lia|]. destruct i as [|i]; simpl; [|specialize (IH i)];
    rewrite !filter_cons; repeat case_decide; simpl; lia.
Qed.

Lemma insert_cell t i d s (b : bucket) : (i < length t)%nat -> (0 < length t)%nat ->
  at_ (<[i := b]> t) s d = if decide (((s + d) mod length t)%nat = i) then Some b else at_ t s d.
Proof.
  intros Hi Hn. unfold at_. rewrite length_insert. case_decide as D; [rewrite D; by apply list_lookup_insert_eq|by rewrite list_lookup_insert_ne].
Qed.

(** Placing an element. *)
Lemma place_bucket_ok (P : bucket -> bool) k v t : ok t -> (occupied t < length t)%nat -> P None = true -> (forall k' v', P (Some (k', v')) = true -> k' = k) ->
  (forall v', has t k v' -> P (Some (k, v')) = true) ->
  exists t', place P k v t = Some t' /\ ok t' /\ length t' = length t /\ (occupied t' <= S (occupied t))%nat /\
    forall k' v', has t' k' v' <-> (if decide (k' = k) then v' = v else has t k' v').
Proof.
  intros Hok Hocc HN HP Hhas. assert (Hn : (0 < length t)%nat) by lia. destruct (occupied_free t Hocc) as [f Hf].
  destruct (search_some (length t) P t (start k (length t)) f None (start_lt k _ Hn) Hf HN ltac:(lia)) as [i Hi].
  pose proof (search_spec (length t) P t (start k (length t)) (start_lt k _ Hn)) as HS. rewrite Hi in HS.
  destruct HS as (d & b & Hd & Ei & Hb & HPb & Hbefore). apply lookup_lt_Some in Hb as Hil.
  unfold place. rewrite Hi. cbn [mbind option_bind]. eexists. split; [reflexivity|].
  assert (Hpath : forall d', (d' < d)%nat -> exists k' v', at_ t (start k (length t)) d' = Some (Some (k', v')) /\ k' <> k).
  { intros d' Hd'. destruct (Hbefore d' Hd') as (b' & Hb' & HP'). destruct b' as [[k' v']|]; [|congruence]. exists k', v'. split; [done|].
    intros ->. rewrite Hhas in HP'; [done|]. by eexists. }
  assert (Hcell : forall k' v', t !! i = Some (Some (k', v')) -> k' = k) by (intros k' v' H; apply (HP k' v'); congruence).
  split_and!; [|by rewrite length_insert|by apply occupied_insert|].
  - intros j k' v' Hj. rewrite length_insert. setoid_rewrite (insert_cell t i); [|done..].
    destruct (decide (j = i)) as [->|N].
    + rewrite list_lookup_insert_eq in Hj by done. injection Hj as <- <-. exists d. split; [done|]. intros d' Hd'. destruct (Hpath d' Hd') as (k' & v' & H & Hk).
      exists k', v'. split; [|done]. case_decide as D; [|done]. unfold at_ in H. rewrite D in H. by apply Hcell in H.
    + rewrite list_lookup_insert_ne in Hj by done. destruct (Hok j k' v' Hj) as (e & Ee & He). exists e. split; [done|]. intros d' Hd'.
      destruct (He d' Hd') as (k'' & v'' & H & Hk). case_decide as D; [|by exists k'', v'']. exists k, v. split; [done|].
      unfold at_ in H. rewrite D in H. apply Hcell in H. by subst.
  - intros k' v'. unfold has. case_decide as D.
    + subst k'. split; [|intros ->; exists i; by apply list_lookup_insert_eq]. intros [j Hj]. destruct (decide (j = i)) as [->|N].
      * rewrite list_lookup_insert_eq in Hj by done. congruence.
      * rewrite list_lookup_insert_ne in Hj by done. exfalso. destruct (Hok j k v' Hj) as (e & Ee & He).
        destruct (Nat.lt_trichotomy d e) as [L|[->|L]].
        -- destruct (He d L) as (k'' & v'' & H & Hk). unfold at_ in H. rewrite <- Ei in H. by apply Hcell in H.
        -- congruence.
        -- destruct (Hpath e L) as (k'' & v'' & H & Hk). unfold at_ in H. rewrite <- Ee, Hj in H. congruence.
    + split; intros [j Hj]; exists j.
      * destruct (decide (j = i)) as [->|N]; [rewrite list_lookup_insert_eq in Hj by done; congruence|by rewrite list_lookup_insert_ne in Hj].
      * rewrite list_lookup_insert_ne; [done|]. intros ->. by apply Hcell in Hj.
Qed.

Lemma replicate_ok n : ok (replicate n None) /\ occupied (replicate n (None : bucket)) = 0%nat /\ forall k v, ~ has (replicate n None) k v.
Proof.
  assert (H : forall j (b : bucket), replicate n None !! j = Some b -> b = None) by (intros j b Hj; by apply lookup_replicate in Hj as [? _]).
  split_and!.
  - intros j k v Hj. by apply H in Hj.
  - unfold occupied. induction n as [|n IH]; [done|]. simpl. rewrite filter_cons_False by (by intros [? ?]). apply IH.
    intros j b Hj. by apply lookup_replicate in Hj as [? _].
  - intros k v [j Hj]. by apply H in Hj.
Qed.

(** Moving the rest [old] of table [t] to [new], which has what was before it. *)
Lemma rehash_ok t old : forall pre new, ok t -> t = pre ++ old -> ok new -> (length t < length new)%nat -> (occupied new <= occupied pre)%nat ->
  (forall k v, has new k v <-> has pre k v) ->
  exists new', rehash old new = Some new' /\ ok new' /\ length new' = length new /\ (occupied new' <= occupied t)%nat /\
    forall k v, has new' k v <-> has t k v.
Proof.
  induction old as [|b old IH]; intros pre new Hok Et Hnew Hlen Hocc Hhas.
  { exists new. rewrite app_nil_r in Et. subst. done. }
  assert (Et' : t = (pre ++ [b]) ++ old) by (by rewrite <- app_assoc).
  assert (Hb : t !! length pre = Some b) by (rewrite Et; by apply list_lookup_middle).
  assert (Hpre : forall k v, has (pre ++ [b]) k v <-> has pre k v \/ b = Some (k, v)).
  { intros k v. unfold has. split.
    - intros [j Hj]. apply lookup_app_Some in Hj as [Hj|[_ Hj]]; [left; by exists j|]. apply list_lookup_singleton_Some in Hj as [_ ->]. by right.
    - intros [[j Hj]| ->]; [exists j; by apply lookup_app_l_Some|exists (length pre); by apply list_lookup_middle]. }
  destruct b as [[k v]|]; cbn [rehash].
  - assert (Hno : forall v', ~ has new k v').
    { intros v' [j Hj]%Hhas. assert (Hj' : t !! j = Some (Some (k, v'))) by (rewrite Et; by apply lookup_app_l_Some).
      pose proof (ok_unique _ _ _ _ _ _ Hok Hb Hj') as E. apply lookup_lt_Some in Hj. lia. }
    pose proof (occupied_length pre) as Hpl. assert (Hl : (length pre < length t)%nat) by (by eapply lookup_lt_Some).
    destruct (place_bucket_ok is_free k v new Hnew) as (new1 & E1 & Hok1 & Hlen1 & Hocc1 & Hhas1); [lia|done|done|by intros v' ?%Hno|].
    rewrite E1. cbn [mbind option_bind].
    destruct (IH (pre ++ [Some (k, v)]) new1 Hok Et' Hok1) as (new' & E & H1 & H2 & H3 & H4); [lia|rewrite occupied_app; unfold occupied at 3; simpl; lia| |].
    + intros k' v'. rewrite Hhas1, Hpre. case_decide as D; [subst|rewrite Hhas; split; [by left|intros [?|?]; [done|congruence]]].
      split; [intros ->; by right|]. intros [H|H]; [by apply Hhas, Hno in H|congruence].
    + exists new'. split_and!; [done|done|congruence|done|done].
  - apply (IH (pre ++ [None]) new Hok Et' Hnew Hlen); [rewrite occupied_app; lia|]. intros k v. rewrite Hpre, Hhas.
    split; [by left|by intros [?|?]].
Qed.

(** ** Maps *)

(** What [m] holds after insertions only; [n] counts them. *)
Record Rep `{Countable K} (n : nat) (m : map) (M : gmap K T) : Prop := mkRep {
  rep_ok : ok (table m); rep_used : used m = Z.of_nat n; rep_occ : (occupied (table m) <= n)%nat;
  rep_size : Z.of_nat (length (table m)) <= 8 + 4 * Z.of_nat n; rep_has : forall k v, has (table m) k v <-> M !! k = Some v }.

Lemma get_ok `{Countable K} n m M k : Rep n m M -> get k m = M !! k.
Proof.
  intros [Hok _ _ _ Hhas]. unfold get. destruct (table m) as [|b0 t0] eqn:Et.
  { destruct (M !! k) as [v|] eqn:E; [|done]. apply Hhas in E as [j Hj]. done. }
  rewrite <- Et in *. assert (Hn : (0 < length (table m))%nat) by (rewrite Et; simpl; lia). clear Et.
  pose proof (search_spec (length (table m)) (is_key k) (table m) (start k (length (table m))) (start_lt k _ Hn)) as HS.
  destruct (search _ _ _ _) as [i|]; cbn [mbind option_bind].
  - destruct HS as (d & b & _ & _ & Hb & HP & _). rewrite Hb. cbn [mbind option_bind]. destruct b as [[k' v]|]; [|done].
    apply bool_decide_eq_true in HP. subst k'. simpl. symmetry. apply Hhas. by exists i.
  - destruct (M !! k) as [v|] eqn:E; [|done]. apply Hhas in E as [j Hj]. apply lookup_lt_Some in Hj as Hl.
    destruct (around (length (table m)) _ j (start_lt k _ Hn) Hl) as (d & Hd & Ej). destruct (HS d Hd) as (b & Hb & HP).
    unfold at_ in Hb. rewrite <- Ej, Hj in Hb. injection Hb as <-. simpl in HP. by rewrite bool_decide_true in HP.
Qed.

Lemma insert_rep `{Countable K} n m M k v : Rep n m M -> 200 * Z.of_nat n + 200 < 2 ^ 64 ->
  exists m', insert k v m = Some m' /\ Rep (S n) m' (<[k := v]> M).
Proof.
  intros [Hok Hu Hocc Hsz Hhas] Hn. unfold insert. destruct (table m) as [|b0 t0] eqn:Et.
  - destruct (replicate_ok 8) as (Hok8 & Hocc8 & Hno8).
    destruct (place_bucket_ok is_free k v (replicate 8 None) Hok8) as (t' & Et' & Hok' & Hlen' & Hocc' & Hhas'); [rewrite Hocc8, length_replicate; lia|done|done|by intros v' ?%Hno8|].
    eexists. split; [reflexivity|].
    assert (t' = <[Z.to_nat (hash k mod 8) := Some (k, v)]> (replicate 8 None)) as <-.
    { unfold place in Et'. rewrite length_replicate in Et'. cbn [search] in Et'.
      assert (Hl : (start k 8 < length (replicate 8 (None : bucket)))%nat) by (rewrite length_replicate; apply start_lt; lia).
      destruct (lookup_lt_is_Some_2 _ _ Hl) as [b Hb]. rewrite Hb in Et'. apply lookup_replicate in Hb as [-> _]. by injection Et' as <-. }
    split; cbn [table used]; [done| |lia|rewrite Hlen', length_replicate; lia|].
    + rewrite Hu, u64_small by lia. lia.
    + intros k' v'. rewrite Hhas'. case_decide as D; [subst; rewrite lookup_insert_eq; naive_solver|].
      rewrite lookup_insert_ne by done. rewrite <- Hhas. split; [by intros ?%Hno8|by intros [j Hj]].
  - rewrite <- Et in *. assert (Hn0 : (0 < length (table m))%nat) by (rewrite Et; simpl; lia). clear Et. cbn zeta.
    rewrite Hu. rewrite (u64_small (Z.of_nat n * 100)) by lia.
    assert (Hgrow : exists t, (if Z.of_nat n * 100 / Z.of_nat (length (table m)) >=? 70
        then rehash (table m) (replicate (Z.to_nat (u64 (Z.of_nat (length (table m)) * 2))) None) else Some (table m)) = Some t /\
      ok t /\ (occupied t < length t)%nat /\ (occupied t <= n)%nat /\ Z.of_nat (length t) <= 8 + 4 * Z.of_nat (S n) /\ forall k v, has t k v <-> has (table m) k v).
    { destruct (Z.of_nat n * 100 / Z.of_nat (length (table m)) >=? 70) eqn:El; bool_to_prop.
      - rewrite u64_small by lia. destruct (replicate_ok (Z.to_nat (Z.of_nat (length (table m)) * 2))) as (Hok8 & Hocc8 & Hno8).
        destruct (rehash_ok (table m) (table m) [] (replicate (Z.to_nat (Z.of_nat (length (table m)) * 2)) None) Hok) as (t & E & H1 & H2 & H3 & H4);
          [done|done|rewrite length_replicate; lia|simpl; lia| |].
        { intros k' v'. split; [by intros ?%Hno8|by intros [j Hj]]. }
        rewrite length_replicate in H2. exists t. pose proof (occupied_length (table m)).
        assert (70 * Z.of_nat (length (table m)) <= Z.of_nat n * 100).
        { pose proof (Z.mul_div_le (Z.of_nat n * 100) (Z.of_nat (length (table m))) ltac:(lia)). nia. }
        split_and!; try done; lia.
      - assert (Z.of_nat n * 100 < Z.of_nat (length (table m)) * 70) by (pose proof (Z.mul_succ_div_gt (Z.of_nat n * 100) (Z.of_nat (length (table m))) ltac:(lia)); nia).
        exists (table m). split_and!; try done; lia. }
    destruct Hgrow as (t & -> & Hokt & Hfree & Hocct & Hszt & Hhast). cbn [mbind option_bind].
    destruct (place_bucket_ok (fun b => is_free b || is_key k b) k v t Hokt Hfree) as (t' & -> & Hok' & Hlen' & Hocc' & Hhas'); [done| | |].
    { intros k' v' HP. simpl in HP. by apply bool_decide_eq_true in HP. }
    { intros v' _. simpl. by apply bool_decide_eq_true. }
    cbn [mbind option_bind]. eexists. split; [reflexivity|]. split; cbn [table used]; [done|rewrite u64_small; lia|lia|lia|].
    intros k' v'. rewrite Hhas'. case_decide as D; [subst; rewrite lookup_insert_eq; naive_solver|].
    rewrite lookup_insert_ne by done. by rewrite Hhast, Hhas.
Qed.

Fixpoint inserts (kvs : list (K * T)) (m : map) : option map :=
  match kvs with [] => Some m | (k, v) :: kvs => m ← insert k v m; inserts kvs m end.

Fixpoint updates `{Countable K} (kvs : list (K * T)) (M : gmap K T) : gmap K T :=
  match kvs with [] => M | (k, v) :: kvs => updates kvs (<[k := v]> M) end.

Lemma inserts_ok `{Countable K} kvs : forall n m M, Rep n m M -> 200 * (Z.of_nat n + Z.of_nat (length kvs)) < 2 ^ 64 ->
  exists m', inserts kvs m = Some m' /\ Rep (n + length kvs) m' (updates kvs M).
Proof.
  induction kvs as [|[k v] kvs IH]; intros n m M HR Hn; [exists m; by rewrite Nat.add_0_r|]. cbn [inserts updates length] in *.
  destruct (insert_rep n m M k v HR) as (m1 & -> & HR1); [lia|]. cbn [mbind option_bind].
  destruct (IH (S n) m1 _ HR1) as (m' & E & HR'); [lia|]. exists m'. split; [done|]. by rewrite <- plus_n_Sm.
Qed.

Lemma new_rep `{Countable K} : Rep 0 (new_map 0) ∅.
Proof. split; try done. intros k v. rewrite lookup_empty. split; [|done]. by intros [j Hj]. Qed.

End Map.

(** ** Claims *)

(** C28: The hash map refines a finite map as long as nothing is removed: from an empty
    one any sequence of insertions ends, growing the table as it goes, and [get]
    gives for each key the value that was inserted last, and null if none was.  The
    empty map is one whose [used] is 0, which the constructor leaves unset. *)
Theorem inserts_refine_map {K T} `{Countable K} (key_bytes : K -> list Z) (kvs : list (K * T)) : 200 * Z.of_nat (length kvs) < 2 ^ 64 ->
  exists m, inserts key_bytes kvs (new_map 0) = Some m /\ forall k, get key_bytes k m = updates kvs ∅ !! k.
Proof.
  intros Hn. destruct (inserts_ok key_bytes kvs 0 (new_map 0) ∅ (new_rep key_bytes)) as (m & E & HR); [lia|].
  exists m. split; [done|]. intros k. by eapply get_ok.
Qed.

Definition u32_bytes : Z -> list Z := le_bytes 4.

Lemma inserts_refine_map_witness : exists m, inserts u32_bytes [(1, 10); (9, 11); (1, 12); (2, 13); (3, 14); (4, 15); (5, 16); (6, 17)] (new_map 0) = Some m /\
  get u32_bytes 1 m = Some 12 /\ get u32_bytes 7 m = None.
Proof.
  destruct (inserts_refine_map u32_bytes [(1, 10); (9, 11); (1, 12); (2, 13); (3, 14); (4, 15); (5, 16); (6, 17)]) as (m & E & H); [reflexivity|].
  exists m. split; [exact E|]. split; rewrite H; reflexivity.
Defined.

Lemma insert_first {K T} `{EqDecision K} (key_bytes : K -> list Z) k (v : T) :
  insert key_bytes k v (new_map 0) = Some (mkMap (<[start key_bytes k 8 := Some (k, v)]> (replicate 8 None)) 1).
Proof. reflexivity. Qed.

Lemma insert_eight {K T} `{EqDecision K} (key_bytes : K -> list Z) k (v : T) b t n : length (b :: t) = 8%nat -> 0 <= n < 5 ->
  insert key_bytes k v (mkMap (b :: t) n) = t ← place key_bytes (fun b => is_free b || is_key k b) k v (b :: t); Some (mkMap t (n + 1)).
Proof.
  intros Hl Hn. unfold insert. cbn [table used]. rewrite Hl, (u64_small (n * 100)), (u64_small (n + 1)) by lia. change (Z.of_nat 8) with 8.
  assert (E : n * 100 / 8 < 70) by (apply Z.div_lt_upper_bound; lia). destruct (n * 100 / 8 >=? 70) eqn:E'; bool_to_prop; [lia|].
  done.
Qed.

(** Removing leaves a hole that a later insertion of another key fills although
    the key is in the table behind it: the key is then there twice, and removing
    it brings the old value back. *)
Theorem removed_key_comes_back {K T} `{EqDecision K} (key_bytes : K -> list Z) (a b : K) (va vb vb' : T) :
  a <> b -> hash key_bytes a mod 8 = hash key_bytes b mod 8 ->
  exists m, inserts key_bytes [(a, va); (b, vb)] (new_map 0) = Some m /\
    exists m', insert key_bytes b vb' (remove key_bytes a m) = Some m' /\ get key_bytes b (remove key_bytes b m') = Some vb.
Proof.
  intros N Eh. assert (Ea : start key_bytes a 8 = start key_bytes b 8) by (unfold start; change (Z.of_nat 8) with 8; by rewrite Eh).
  assert (Hab : bool_decide (a = b) = false) by (by apply bool_decide_eq_false). assert (Haa : bool_decide (a = a) = true) by (by apply bool_decide_eq_true).
  assert (Hbb : bool_decide (b = b) = true) by (by apply bool_decide_eq_true). pose proof (start_lt key_bytes b 8 ltac:(lia)) as Hs.
  cbn [inserts]. rewrite insert_first. cbn [mbind option_bind]. rewrite Ea.
  assert (Hcase : start key_bytes b 8 ∈ seq 0 8) by (apply elem_of_seq; lia). cbn [seq] in Hcase. rewrite !elem_of_cons, elem_of_nil in Hcase.
  repeat (destruct Hcase as [Eb|Hcase]; [rewrite Eb; simpl (<[_ := _]> _); rewrite Eb in Ea|]).
  9: by destruct Hcase.
  all: rewrite insert_eight by done; unfold place; cbn -[start insert get remove]; rewrite Eb; cbn -[start insert get remove];
    rewrite ?Hab; cbn -[start insert get remove]; eexists; (split; [reflexivity|]).
  all: unfold remove at 1; cbn -[start insert get remove]; rewrite Ea; cbn -[start insert get remove]; rewrite ?Haa; cbn -[start insert get remove];
    rewrite insert_eight by done; unfold place; cbn -[start insert get remove]; rewrite Eb; cbn -[start insert get remove]; eexists; (split; [reflexivity|]).
  all: unfold get, remove; cbn -[start]; rewrite ?Eb; cbn -[start]; rewrite ?Hbb; cbn -[start]; rewrite ?Eb; cbn; by rewrite ?Hbb.
Qed.

Lemma removed_key_comes_back_witness : exists m, inserts u32_bytes [(1, 10); (9, 11)] (new_map 0) = Some m /\
  exists m', insert u32_bytes 9 12 (remove u32_bytes 1 m) = Some m' /\ get u32_bytes 9 (remove u32_bytes 9 m') = Some 11.
Proof. apply (removed_key_comes_back u32_bytes 1 9 10 11 12); [discriminate|reflexivity]. Defined.

End UnorderedMap.
