(* ===== verification/NetPacket.v ===== *)
(** * Packets (src/src/dev/net: checksum.hpp, packet.cpp, ethernet.cpp, ipv4.cpp, and the headers)

    A frame is the list of its bytes.  A header is a record; in memory it is the
    list of its fields, each little-endian at its width, so that [serialize] is
    what makes it big-endian on the wire.  A [Mac] is its six bytes, read as one
    number.  [None] is an access past the end of a buffer. *)

From S2P Require Import Prelude Bits.

Module NetPacket.

(** ** The internet checksum *)

(** [static_cast<const u16*>(data)[i]] for all [i]. *)
Fixpoint words (bs : list Z) : list Z :=
  match bs with
  | b0 :: b1 :: bs => b0 + 256 * b1 :: words bs
  | _ => []
  end.

Definition add_word (sum value : Z) : Z := u32 (sum + value).

(** [Checksum::add(data, size)] *)
Definition checksum_add (data : list Z) (sum : Z) : Z :=
  let size := length data in
  if Nat.odd size then
    fold_left add_word (words (take (size - 1) data)) (add_word sum (default 0 (data !! (size - 1)%nat)))
  else fold_left add_word (words data) sum.

Definition checksum_get (sum : Z) : Z :=
  let res := Z.land sum 0xFFFF + Z.shiftr sum 16 in
  let res := Z.land res 0xFFFF + Z.shiftr res 16 in
  u16 (Z.lnot res).

(** ** Structs in memory *)

(** The bytes of a struct with fields of the given sizes and values. *)
Fixpoint pack (fields : list (nat * Z)) : list Z :=
  match fields with [] => [] | (n, v) :: fields => le_bytes n v ++ pack fields end.

(** Reading the fields back; [None] past the end. *)
Fixpoint unpack (sizes : list nat) (bs : list Z) : option (list Z) :=
  match sizes with
  | [] => Some []
  | n :: sizes =>
      _ ← assert (n <=? length bs)%nat;
      vs ← unpack sizes (drop n bs); Some (le_val (take n bs) :: vs)
  end.

(** ** Headers *)

Notation Mac := Z (only parsing).
Definition BROADCAST_MAC : Mac := 2 ^ 48 - 1.
Definition ETHER_IPV4 : Z := 0x800.
Definition ETHER_ARP : Z := 0x806.
Definition IP_TCP : Z := 6.
Definition IP_UDP : Z := 17.

Record EthernetHeader := mkEth { eth_dest : Mac; eth_src : Mac; ether_type : Z }.
Definition eth_serialize (h : EthernetHeader) : EthernetHeader := mkEth (eth_dest h) (eth_src h) (to_be 2 (ether_type h)).
Definition eth_deserialize (h : EthernetHeader) : EthernetHeader := mkEth (eth_dest h) (eth_src h) (to_ne_from_be 2 (ether_type h)).
Definition eth_bytes (h : EthernetHeader) : list Z := pack [(6%nat, eth_dest h); (6%nat, eth_src h); (2%nat, ether_type h)].
Definition eth_read (bs : list Z) : option EthernetHeader :=
  vs ← unpack [6; 6; 2]%nat bs;
  match vs with [d; s; t] => Some (mkEth d s t) | _ => None end.

Record Ipv4Header := mkIpv4 {
  ihl_version : Z; ecn_dscp : Z; total_len : Z; ident : Z; frag_flags : Z; ttl : Z; protocol : Z; hdr_checksum : Z;
  src_addr : Z; dest_addr : Z }.
Definition ipv4_serialize (h : Ipv4Header) : Ipv4Header :=
  mkIpv4 (ihl_version h) (ecn_dscp h) (to_be 2 (total_len h)) (to_be 2 (ident h)) (to_be 2 (frag_flags h)) (ttl h) (protocol h)
    (hdr_checksum h) (src_addr h) (dest_addr h).
Definition ipv4_deserialize (h : Ipv4Header) : Ipv4Header :=
  mkIpv4 (ihl_version h) (ecn_dscp h) (to_ne_from_be 2 (total_len h)) (to_ne_from_be 2 (ident h)) (to_ne_from_be 2 (frag_flags h))
    (ttl h) (protocol h) (hdr_checksum h) (src_addr h) (dest_addr h).
Definition set_checksum (c : Z) (h : Ipv4Header) : Ipv4Header :=
  mkIpv4 (ihl_version h) (ecn_dscp h) (total_len h) (ident h) (frag_flags h) (ttl h) (protocol h) c (src_addr h) (dest_addr h).
Definition ipv4_bytes (h : Ipv4Header) : list Z :=
  pack [(1%nat, ihl_version h); (1%nat, ecn_dscp h); (2%nat, total_len h); (2%nat, ident h); (2%nat, frag_flags h); (1%nat, ttl h);
        (1%nat, protocol h); (2%nat, hdr_checksum h); (4%nat, src_addr h); (4%nat, dest_addr h)].
Definition ipv4_read (bs : list Z) : option Ipv4Header :=
  vs ← unpack [1; 1; 2; 2; 2; 1; 1; 2; 4; 4]%nat bs;
  match vs with [a; b; c; d; e; f; g; h; i; j] => Some (mkIpv4 a b c d e f g h i j) | _ => None end.

Definition update_checksum (h : Ipv4Header) : Ipv4Header :=
  let h := set_checksum 0 h in
  set_checksum (checksum_get (checksum_add (ipv4_bytes h) 0)) h.

Record UdpHeader := mkUdp { udp_src_port : Z; udp_dest_port : Z; udp_length : Z; udp_checksum : Z }.
Definition udp_serialize (h : UdpHeader) : UdpHeader :=
  mkUdp (to_be 2 (udp_src_port h)) (to_be 2 (udp_dest_port h)) (to_be 2 (udp_length h)) (udp_checksum h).
Definition udp_deserialize (h : UdpHeader) : UdpHeader :=
  mkUdp (to_ne_from_be 2 (udp_src_port h)) (to_ne_from_be 2 (udp_dest_port h)) (to_ne_from_be 2 (udp_length h)) (udp_checksum h).
Definition udp_bytes (h : UdpHeader) : list Z :=
  pack [(2%nat, udp_src_port h); (2%nat, udp_dest_port h); (2%nat, udp_length h); (2%nat, udp_checksum h)].
Definition udp_read (bs : list Z) : option UdpHeader :=
  vs ← unpack [2; 2; 2; 2]%nat bs;
  match vs with [s; d; l; c] => Some (mkUdp s d l c) | _ => None end.

(** ** Building a packet *)

Record Packet := mkPacket { data : list Z; offset : Z }.

(** [Packet packet {size}]: a buffer with what the allocator left in it. *)
Definition new_packet (buffer : list Z) : Packet := mkPacket buffer 0.

(** [add_header] and the write of the header at the pointer it returns. *)
Definition add_header (bytes : list Z) (p : Packet) : option Packet :=
  let n := Z.of_nat (length bytes) in
  _ ← assert (offset p + n <=? Z.of_nat (length (data p)));
  Some (mkPacket (splice (Z.to_nat (offset p)) bytes (data p)) (u32 (offset p + n))).

Definition add_ethernet (src dest : Mac) (type : Z) (p : Packet) : option Packet :=
  add_header (eth_bytes (eth_serialize (mkEth dest src type))) p.

Definition make_ipv4 (protocol payload_size src_addr dest_addr : Z) : Ipv4Header :=
  mkIpv4 (Z.lor 5 (Z.shiftl 4 4)) 0 (u16 (20 + payload_size)) 0 0 64 protocol 0 src_addr dest_addr.
Definition add_ipv4 (protocol payload_size src_addr dest_addr : Z) (p : Packet) : option Packet :=
  add_header (ipv4_bytes (update_checksum (ipv4_serialize (make_ipv4 protocol payload_size src_addr dest_addr)))) p.

Definition add_udp (src_port dest_port length : Z) (p : Packet) : option Packet :=
  add_header (udp_bytes (udp_serialize (mkUdp src_port dest_port (u16 (8 + length)) 0))) p.

(** ** Receiving *)

(** [raw1] and [raw2] are the bytes from [layer1.raw] and [layer2.raw] on. *)
Record ReceivedPacket := mkRecv { ethernet : EthernetHeader; raw1 : list Z; ipv4 : Ipv4Header; raw2 : list Z; layer2_len : Z }.

(** Where a packet goes. *)
Inductive dispatch := Dropped | ToArp (eth : EthernetHeader) (raw : list Z) | ToTcp (p : ReceivedPacket) | ToUdp (p : ReceivedPacket) | ToDhcp (p : ReceivedPacket).

Definition ipv4_process_packet (eth : EthernetHeader) (raw : list Z) : option dispatch :=
  hdr ← ipv4_read raw;
  let hdr := ipv4_deserialize hdr in
  if negb (Z.land (frag_flags hdr) 0x1FF =? 0) || negb (Z.land (Z.shiftr (frag_flags hdr) 13) (Z.shiftl 1 2) =? 0) then Some Dropped
  else
    let hdr_len := Z.land (ihl_version hdr) 0xF * 4 in
    let p := mkRecv eth raw hdr (drop (Z.to_nat hdr_len) raw) (u16 (total_len hdr - hdr_len)) in
    if protocol hdr =? IP_TCP then Some (ToTcp p)
    else if protocol hdr =? IP_UDP then
      udp_hdr ← udp_read (raw2 p);
      Some (if udp_dest_port (udp_deserialize udp_hdr) =? 68 then ToDhcp p else ToUdp p)
    else Some Dropped.

Definition ethernet_process_packet (frame : list Z) : option dispatch :=
  hdr ← eth_read frame;
  let hdr := eth_deserialize hdr in
  let raw := drop 14 frame in
  if ether_type hdr =? ETHER_IPV4 then ipv4_process_packet hdr raw
  else if ether_type hdr =? ETHER_ARP then Some (ToArp hdr raw)
  else Some Dropped.

(** ** The sum of a buffer *)

(** An odd last byte counts as a word with a zero high byte. *)
Fixpoint wsum (bs : list Z) : Z :=
  match bs with
  | b0 :: b1 :: bs => b0 + 256 * b1 + wsum bs
  | [b] => b
  | [] => 0
  end.

Lemma pairs_ind (P : list Z -> Prop) : P [] -> (forall b, P [b]) -> (forall a b bs, P bs -> P (a :: b :: bs)) -> forall bs, P bs.
Proof.
  intros H0 H1 H2 bs. assert (H : P bs /\ forall b, P (b :: bs)); [|apply H]. induction bs as [|a bs [IH1 IH2]]; auto.
Qed.

Lemma u32_add_l a b : u32 (u32 a + b) = u32 (a + b).
Proof. unfold u32, wrap. by rewrite Zplus_mod_idemp_l. Qed.

Lemma fold_words ws : forall s, fold_left add_word ws s = (match ws with [] => s | _ => u32 (s + foldr Z.add 0 ws) end).
Proof.
  induction ws as [|x ws IH]; intros s; [done|]. cbn [fold_left foldr]. rewrite IH. unfold add_word.
  destruct ws as [|y ws]; [simpl; by rewrite Z.add_0_r|]. rewrite u32_add_l. f_equal. lia.
Qed.

Lemma words_sum bs : Nat.odd (length bs) = false -> foldr Z.add 0 (words bs) = wsum bs.
Proof. induction bs as [|b|a b bs IH] using pairs_ind; intros H; [done|discriminate H|]. cbn [words foldr wsum]. by rewrite IH. Qed.

Lemma wsum_snoc bs b : Nat.odd (length bs) = false -> wsum (bs ++ [b]) = wsum bs + b.
Proof.
  induction bs as [|x|x y bs IH] using pairs_ind; intros H; [simpl; lia|discriminate H|]. cbn [app wsum]. rewrite IH by done. lia.
Qed.

Lemma checksum_add_wsum bs s : fits 32 s -> checksum_add bs s = u32 (s + wsum bs).
Proof.
  intros Hs. assert (He : forall bs s, fits 32 s -> Nat.odd (length bs) = false -> fold_left add_word (words bs) s = u32 (s + wsum bs)).
  { intros bs' s' Hs' Hb. rewrite fold_words, <- words_sum by done. destruct (words bs'); [|done]. simpl. by rewrite Z.add_0_r, u32_small. }
  unfold checksum_add. destruct (Nat.odd (length bs)) eqn:Ho; [|by apply He].
  destruct bs as [|b bs _] using rev_ind; [done|]. rewrite length_app, Nat.add_1_r in *. cbn [length] in *. rewrite Nat.odd_succ in Ho.
  replace (S (length bs) - 1)%nat with (length bs) by lia. rewrite take_app_length, lookup_app_r, Nat.sub_diag by done. simpl.
  assert (Hev : Nat.odd (length bs) = false) by (rewrite <- Nat.negb_even, Ho; done).
  rewrite He; [|apply u32_bound|done]. rewrite wsum_snoc by done. unfold add_word. rewrite u32_add_l. f_equal. lia.
Qed.

Lemma wsum_app bs bs' : Nat.odd (length bs) = false -> wsum (bs ++ bs') = wsum bs + wsum bs'.
Proof.
  induction bs as [|x|x y bs IH] using pairs_ind; intros H; [done|discriminate H|]. cbn [app wsum]. rewrite IH by done. lia.
Qed.

Definition byte_list (bs : list Z) : Prop := Forall (fun b => 0 <= b < 256) bs.

Lemma wsum_bound bs : byte_list bs -> 0 <= wsum bs <= 65535 * ((Z.of_nat (length bs) + 1) / 2).
Proof.
  unfold byte_list. induction bs as [|b|a b bs IH] using pairs_ind; intros H.
  - done.
  - apply Forall_cons in H as [H _]. cbn [wsum length]. change ((Z.of_nat 1 + 1) / 2) with 1. lia.
  - apply Forall_cons in H as [Ha [Hb H]%Forall_cons]. specialize (IH H). cbn [wsum length].
    replace (Z.of_nat (S (S (length bs))) + 1) with ((Z.of_nat (length bs) + 1) + 1 * 2) by lia. rewrite Z.div_add by lia. lia.
Qed.

(** ** The folded sum *)

(** The representative of [z] modulo 65535 that is not 0 unless [z] is. *)
Definition fold16 (z : Z) : Z := if z =? 0 then 0 else (z - 1) mod 65535 + 1.

Lemma fold_step z : 0 <= z -> Z.land z 0xFFFF + Z.shiftr z 16 = z - 65535 * (z / 65536).
Proof.
  intros H. change (Z.land z 0xFFFF) with (Z.land z (Z.ones 16)). rewrite Z.land_ones, Z.shiftr_div_pow2 by lia. change (2 ^ 16) with 65536.
  rewrite Z.mod_eq by lia. lia.
Qed.

Lemma fold16_unique z q r : z = 65535 * q + r -> 0 <= q -> (0 < r <= 65535 \/ z = 0 /\ r = 0) -> fold16 z = r.
Proof.
  intros -> Hq [Hr|[Hz ->]]; unfold fold16; [|by rewrite Hz].
  rewrite (proj2 (Z.eqb_neq _ _)) by lia. replace (65535 * q + r - 1) with (r - 1 + q * 65535) by lia.
  rewrite Z.mod_add, Z.mod_small by lia. lia.
Qed.

Lemma checksum_get_fold z : fits 32 z -> checksum_get z = 65535 - fold16 z.
Proof.
  unfold fits. intros Hz. unfold checksum_get. rewrite (fold_step z) by lia. set (y := z - 65535 * (z / 65536)).
  assert (Hy : 0 <= y <= 131070 /\ (y = 0 -> z = 0)) by (unfold y; pose proof (Z.div_mod z 65536); pose proof (Z.mod_pos_bound z 65536); lia).
  rewrite (fold_step y) by lia. set (x := y - 65535 * (y / 65536)).
  assert (Hx : 0 <= x <= 65535 /\ (x = 0 -> y = 0)) by (unfold x; pose proof (Z.div_mod y 65536); pose proof (Z.mod_pos_bound y 65536); lia).
  assert (E : fold16 z = x).
  { apply (fold16_unique z (z / 65536 + y / 65536) x); [unfold x, y; lia|apply Z.add_nonneg_nonneg; apply Z.div_pos; lia|]. lia. }
  rewrite E. unfold u16, wrap, Z.lnot. symmetry. apply Z.mod_unique with (-1); lia.
Qed.

(** The complement of the sum completes the sum to a multiple of 65535. *)
Lemma fold16_complete z : 0 <= z -> fold16 (z + (65535 - fold16 z)) = 65535.
Proof.
  intros Hz. unfold fold16 at 2. destruct (z =? 0) eqn:E; [apply Z.eqb_eq in E; subst; done|]. apply Z.eqb_neq in E.
  apply (fold16_unique _ ((z - 1) / 65535)); [|apply Z.div_pos; lia|left; lia]. pose proof (Z.div_mod (z - 1) 65535). lia.
Qed.

Lemma fold16_bound z : 0 <= fold16 z <= 65535.
Proof. unfold fold16. destruct (z =? 0); [lia|]. pose proof (Z.mod_pos_bound (z - 1) 65535). lia. Qed.

(** A checksum that is put where the sum had a zero word makes the whole sum to 0. *)
Lemma checksum_verifies z : 0 <= z -> z + 65535 < 2 ^ 32 -> checksum_get (u32 (z + checksum_get z)) = 0.
Proof.
  intros Hz Hb. rewrite (checksum_get_fold z) by (unfold fits; lia). pose proof (fold16_bound z).
  rewrite u32_small by lia. rewrite checksum_get_fold by (unfold fits; lia). rewrite fold16_complete by done. lia.
Qed.

(** ** Structs and their bytes *)

Definition fields_fit (fields : list (nat * Z)) : Prop := Forall (fun '(n, v) => fits (8 * Z.of_nat n) v) fields.

Lemma unpack_pack fields rest : fields_fit fields -> unpack (fields.*1) (pack fields ++ rest) = Some (fields.*2).
Proof.
  induction fields as [|[n v] fields IH]; intros H; [done|]. apply Forall_cons in H as [Hv H]. cbn [fmap list_fmap unpack pack fst snd].
  rewrite <- (app_assoc (le_bytes n v)). rewrite length_app, length_le_bytes. rewrite (proj2 (Nat.leb_le _ _)) by lia. cbn [assert mbind option_bind].
  rewrite drop_app_length', take_app_length' by (by rewrite length_le_bytes). rewrite IH by done. cbn [mbind option_bind].
  rewrite le_val_bytes, Z.mod_small by done. done.
Qed.

Lemma length_pack fields : length (pack fields) = foldr (fun f n => (fst f + n)%nat) 0%nat fields.
Proof. induction fields as [|[n v] fields IH]; [done|]. simpl. by rewrite length_app, length_le_bytes, IH. Qed.

Lemma pack_bytes fields : byte_list (pack fields).
Proof. induction fields as [|[n v] fields IH]; [constructor|]. apply Forall_app. split; [apply le_bytes_range|done]. Qed.

Lemma pack_app f g : pack (f ++ g) = pack f ++ pack g.
Proof. induction f as [|[n v] f IH]; [done|]. simpl. by rewrite IH, app_assoc. Qed.

Ltac fit_fields := repeat (apply Forall_cons; split; [try done|]); try apply Forall_nil; try done.

Definition eth_fit (h : EthernetHeader) : Prop := fits 48 (eth_dest h) /\ fits 48 (eth_src h) /\ fits 16 (ether_type h).
Definition ipv4_fit (h : Ipv4Header) : Prop :=
  fits 8 (ihl_version h) /\ fits 8 (ecn_dscp h) /\ fits 16 (total_len h) /\ fits 16 (ident h) /\ fits 16 (frag_flags h) /\ fits 8 (ttl h) /\
  fits 8 (protocol h) /\ fits 16 (hdr_checksum h) /\ fits 32 (src_addr h) /\ fits 32 (dest_addr h).
Definition udp_fit (h : UdpHeader) : Prop :=
  fits 16 (udp_src_port h) /\ fits 16 (udp_dest_port h) /\ fits 16 (udp_length h) /\ fits 16 (udp_checksum h).

Lemma eth_read_bytes h rest : eth_fit h -> eth_read (eth_bytes h ++ rest) = Some h.
Proof.
  intros (H1 & H2 & H3). unfold eth_read, eth_bytes. pose proof (unpack_pack [(6%nat, eth_dest h); (6%nat, eth_src h); (2%nat, ether_type h)] rest) as E.
  cbn [fmap list_fmap fst snd] in E. rewrite E by fit_fields. by destruct h.
Qed.

Lemma ipv4_read_bytes h rest : ipv4_fit h -> ipv4_read (ipv4_bytes h ++ rest) = Some h.
Proof.
  intros (H1 & H2 & H3 & H4 & H5 & H6 & H7 & H8 & H9 & H10). unfold ipv4_read, ipv4_bytes.
  match goal with |- context [pack ?fs] => pose proof (unpack_pack fs rest) as E end.
  cbn [fmap list_fmap fst snd] in E. rewrite E by fit_fields. by destruct h.
Qed.

Lemma udp_read_bytes h rest : udp_fit h -> udp_read (udp_bytes h ++ rest) = Some h.
Proof.
  intros (H1 & H2 & H3 & H4). unfold udp_read, udp_bytes.
  match goal with |- context [pack ?fs] => pose proof (unpack_pack fs rest) as E end.
  cbn [fmap list_fmap fst snd] in E. rewrite E by fit_fields. by destruct h.
Qed.

Lemma to_be2_fits v : fits 16 v -> fits 16 (to_be 2 v).
Proof. apply (to_be_fits 2). Qed.
Lemma to_be4_fits v : fits 32 v -> fits 32 (to_be 4 v).
Proof. apply (to_be_fits 4). Qed.
Lemma to_ne2_to_be v : fits 16 v -> to_ne_from_be 2 (to_be 2 v) = v.
Proof. apply (to_ne_to_be 2). Qed.
Lemma to_ne4_to_be v : fits 32 v -> to_ne_from_be 4 (to_be 4 v) = v.
Proof. apply (to_ne_to_be 4). Qed.
#[local] Hint Resolve to_be2_fits to_be4_fits : core.

Lemma eth_ser_fit h : eth_fit h -> eth_fit (eth_serialize h).
Proof. intros (H1 & H2 & H3). unfold eth_fit. cbn [eth_dest eth_src ether_type eth_serialize]. auto. Qed.
Lemma eth_deser_ser h : eth_fit h -> eth_deserialize (eth_serialize h) = h.
Proof. intros (H1 & H2 & H3). destruct h. unfold eth_deserialize, eth_serialize. cbn [eth_dest eth_src ether_type] in *. by rewrite to_ne2_to_be. Qed.
Lemma ipv4_ser_fit h : ipv4_fit h -> ipv4_fit (ipv4_serialize h).
Proof.
  intros (H1 & H2 & H3 & H4 & H5 & H6 & H7 & H8 & H9 & H10). unfold ipv4_fit.
  cbn [ipv4_serialize ihl_version ecn_dscp total_len ident frag_flags ttl protocol hdr_checksum src_addr dest_addr]. split_and!; auto.
Qed.
Lemma udp_ser_fit h : udp_fit h -> udp_fit (udp_serialize h).
Proof. intros (H1 & H2 & H3 & H4). unfold udp_fit. cbn [udp_serialize udp_src_port udp_dest_port udp_length udp_checksum]. auto. Qed.
Lemma udp_deser_ser h : udp_fit h -> udp_deserialize (udp_serialize h) = h.
Proof. intros (H1 & H2 & H3 & H4). destruct h. unfold udp_deserialize, udp_serialize. cbn [udp_src_port udp_dest_port udp_length udp_checksum] in *. by rewrite !to_ne2_to_be. Qed.

(** ** The header checksum *)

Lemma wsum_le2 c : fits 16 c -> wsum (le_bytes 2 c) = c.
Proof.
  intros H. pose proof (le_val_bytes 2 c) as E. rewrite Z.mod_small in E by done. cbn [le_bytes wsum le_val] in *. lia.
Qed.

Definition ipv4_pre (h : Ipv4Header) : list Z :=
  pack [(1%nat, ihl_version h); (1%nat, ecn_dscp h); (2%nat, total_len h); (2%nat, ident h); (2%nat, frag_flags h); (1%nat, ttl h); (1%nat, protocol h)].
Definition ipv4_post (h : Ipv4Header) : list Z := pack [(4%nat, src_addr h); (4%nat, dest_addr h)].

Lemma length_ipv4_pre h : length (ipv4_pre h) = 10%nat.
Proof. unfold ipv4_pre. by rewrite length_pack. Qed.
Lemma length_ipv4_post h : length (ipv4_post h) = 8%nat.
Proof. unfold ipv4_post. by rewrite length_pack. Qed.

Lemma ipv4_bytes_split h : ipv4_bytes h = ipv4_pre h ++ le_bytes 2 (hdr_checksum h) ++ ipv4_post h.
Proof. unfold ipv4_bytes, ipv4_pre, ipv4_post. cbn [pack]. rewrite !app_nil_r, <- !app_assoc. done. Qed.

Lemma ipv4_wsum c h : fits 16 c -> wsum (ipv4_bytes (set_checksum c h)) = wsum (ipv4_pre h ++ ipv4_post h) + c.
Proof.
  intros Hc. rewrite ipv4_bytes_split. change (ipv4_pre (set_checksum c h)) with (ipv4_pre h). change (ipv4_post (set_checksum c h)) with (ipv4_post h).
  assert (E : Nat.odd (length (ipv4_pre h)) = false) by (by rewrite length_ipv4_pre).
  rewrite !(wsum_app (ipv4_pre h)) by done. rewrite (wsum_app (le_bytes 2 _)) by (by rewrite length_le_bytes). simpl hdr_checksum. rewrite wsum_le2 by done. lia.
Qed.

Lemma checksum_get_fits z : fits 16 (checksum_get z).
Proof. apply u16_bound. Qed.

Lemma update_checksum_verifies h : checksum_get (checksum_add (ipv4_bytes (update_checksum h)) 0) = 0.
Proof.
  unfold update_checksum. cbn zeta. set (c := checksum_get (checksum_add (ipv4_bytes (set_checksum 0 h)) 0)). assert (Hc : fits 16 c) by apply checksum_get_fits.
  change (set_checksum c (set_checksum 0 h)) with (set_checksum c h). rewrite checksum_add_wsum by done. rewrite ipv4_wsum by done.
  assert (Hb : 0 <= wsum (ipv4_pre h ++ ipv4_post h) <= 65535 * 9).
  { pose proof (wsum_bound (ipv4_pre h ++ ipv4_post h)) as H. rewrite length_app, length_ipv4_pre, length_ipv4_post in H.
    apply H. apply Forall_app. split; apply pack_bytes. }
  assert (E : c = checksum_get (wsum (ipv4_pre h ++ ipv4_post h))).
  { unfold c. rewrite checksum_add_wsum, ipv4_wsum by done. rewrite !Z.add_0_l, Z.add_0_r, u32_small by lia. done. }
  rewrite E, Z.add_0_l. apply checksum_verifies; lia.
Qed.

(** ** Building and receiving *)

(** The headers so far are [bs], and the buffer has room for [n] bytes more. *)
Definition Built (bs : list Z) (n : nat) (p : Packet) : Prop :=
  exists tail, data p = bs ++ tail /\ offset p = Z.of_nat (length bs) /\ length tail = n /\ Z.of_nat (length bs + n) < 2 ^ 32.

Lemma built_new buffer : Z.of_nat (length buffer) < 2 ^ 32 -> Built [] (length buffer) (new_packet buffer).
Proof. intros H. by exists buffer. Qed.

Lemma add_header_built bs n p bytes : Built bs (length bytes + n) p ->
  exists p', add_header bytes p = Some p' /\ Built (bs ++ bytes) n p'.
Proof.
  intros (tail & Hd & Ho & Hn & Hb). unfold add_header. rewrite Hd, length_app, Hn, Ho. rewrite (proj2 (Z.leb_le _ _)) by lia.
  cbn [assert mbind option_bind]. eexists. split; [reflexivity|]. exists (drop (length bytes) tail). cbn [data offset].
  rewrite Nat2Z.id, length_app, length_drop, Hn. split_and!; [|rewrite u32_small; lia|lia|lia].
  unfold splice. rewrite take_app_length, <- app_assoc. do 2 f_equal. by rewrite drop_app_add.
Qed.

Lemma built_full bs p : Built bs 0 p -> data p = bs.
Proof. intros (tail & Hd & _ & Hn & _). destruct tail; [|done]. by rewrite Hd, app_nil_r. Qed.

Definition eth_wire (src dest type : Z) : list Z := eth_bytes (eth_serialize (mkEth dest src type)).
Definition ipv4_wire (proto size src dest : Z) : list Z := ipv4_bytes (update_checksum (ipv4_serialize (make_ipv4 proto size src dest))).
Definition udp_wire (src dest len : Z) : list Z := udp_bytes (udp_serialize (mkUdp src dest (u16 (8 + len)) 0)).

Lemma length_eth_wire s d t : length (eth_wire s d t) = 14%nat.
Proof. unfold eth_wire, eth_bytes. by rewrite length_pack. Qed.
Lemma length_ipv4_wire p n s d : length (ipv4_wire p n s d) = 20%nat.
Proof. unfold ipv4_wire, ipv4_bytes. by rewrite length_pack. Qed.
Lemma length_udp_wire s d n : length (udp_wire s d n) = 8%nat.
Proof. unfold udp_wire, udp_bytes. by rewrite length_pack. Qed.

Lemma add_ethernet_built bs n p src dest type : Built bs (14 + n) p ->
  exists p', add_ethernet src dest type p = Some p' /\ Built (bs ++ eth_wire src dest type) n p'.
Proof. intros H. apply (add_header_built bs n p (eth_wire src dest type)). by rewrite length_eth_wire. Qed.
Lemma add_ipv4_built bs n p proto size src dest : Built bs (20 + n) p ->
  exists p', add_ipv4 proto size src dest p = Some p' /\ Built (bs ++ ipv4_wire proto size src dest) n p'.
Proof. intros H. apply (add_header_built bs n p (ipv4_wire proto size src dest)). by rewrite length_ipv4_wire. Qed.
Lemma add_udp_built bs n p src dest size : Built bs (8 + n) p ->
  exists p', add_udp src dest size p = Some p' /\ Built (bs ++ udp_wire src dest size) n p'.
Proof. intros H. apply (add_header_built bs n p (udp_wire src dest size)). by rewrite length_udp_wire. Qed.

(** The header as the receiver sees it. *)
Definition seen_ipv4 (proto size src dest : Z) : Ipv4Header :=
  set_checksum (hdr_checksum (update_checksum (ipv4_serialize (make_ipv4 proto size src dest)))) (make_ipv4 proto size src dest).

Lemma make_ipv4_fit proto size src dest : fits 8 proto -> fits 32 src -> fits 32 dest -> ipv4_fit (make_ipv4 proto size src dest).
Proof. intros. unfold ipv4_fit. cbn [make_ipv4 ihl_version ecn_dscp total_len ident frag_flags ttl protocol hdr_checksum src_addr dest_addr].
  split_and!; try done; apply u16_bound. Qed.

Lemma set_checksum_fit c h : ipv4_fit h -> fits 16 c -> ipv4_fit (set_checksum c h).
Proof. intros (H1 & H2 & H3 & H4 & H5 & H6 & H7 & _ & H9 & H10) Hc. by split_and!. Qed.

Lemma set_checksum_deser c h : ipv4_fit h -> ipv4_deserialize (set_checksum c (ipv4_serialize h)) = set_checksum c h.
Proof.
  intros (_ & _ & H1 & H2 & H3 & _). unfold ipv4_deserialize, ipv4_serialize, set_checksum.
  cbn [ihl_version ecn_dscp total_len ident frag_flags ttl protocol hdr_checksum src_addr dest_addr]. by rewrite !to_ne2_to_be.
Qed.

Lemma update_checksum_is h : exists c, fits 16 c /\ update_checksum h = set_checksum c h.
Proof. exists (checksum_get (checksum_add (ipv4_bytes (set_checksum 0 h)) 0)). split; [apply checksum_get_fits|reflexivity]. Qed.

Lemma ipv4_wire_read proto size src dest rest : fits 8 proto -> fits 32 src -> fits 32 dest ->
  exists h, ipv4_read (ipv4_wire proto size src dest ++ rest) = Some h /\ ipv4_deserialize h = seen_ipv4 proto size src dest.
Proof.
  intros Hp Hs Hd. pose proof (make_ipv4_fit proto size src dest Hp Hs Hd) as HF. unfold ipv4_wire, seen_ipv4.
  destruct (update_checksum_is (ipv4_serialize (make_ipv4 proto size src dest))) as (c & Hc & ->).
  exists (set_checksum c (ipv4_serialize (make_ipv4 proto size src dest))).
  split; [apply ipv4_read_bytes; by apply set_checksum_fit; [apply ipv4_ser_fit|]|]. rewrite set_checksum_deser by done. reflexivity.
Qed.

Lemma seen_fields proto size src dest : frag_flags (seen_ipv4 proto size src dest) = 0 /\ protocol (seen_ipv4 proto size src dest) = proto /\
  ihl_version (seen_ipv4 proto size src dest) = Z.lor 5 (Z.shiftl 4 4) /\ total_len (seen_ipv4 proto size src dest) = u16 (20 + size).
Proof. unfold seen_ipv4. generalize (hdr_checksum (update_checksum (ipv4_serialize (make_ipv4 proto size src dest)))). done. Qed.

(** A frame of an IPv4 packet, as received. *)
Definition seen (src_mac dest_mac proto size src dest : Z) (body : list Z) : ReceivedPacket :=
  mkRecv (mkEth dest_mac src_mac ETHER_IPV4) (ipv4_wire proto size src dest ++ body) (seen_ipv4 proto size src dest) body size.

Lemma frame_received src_mac dest_mac proto size src dest body :
  fits 48 src_mac -> fits 48 dest_mac -> fits 8 proto -> fits 32 src -> fits 32 dest -> 0 <= size < 2 ^ 16 - 20 ->
  ethernet_process_packet (eth_wire src_mac dest_mac ETHER_IPV4 ++ ipv4_wire proto size src dest ++ body) =
  let p := seen src_mac dest_mac proto size src dest body in
  if proto =? IP_TCP then Some (ToTcp p)
  else if proto =? IP_UDP then
    udp_hdr ← udp_read body; Some (if udp_dest_port (udp_deserialize udp_hdr) =? 68 then ToDhcp p else ToUdp p)
  else Some Dropped.
Proof.
  intros Hsm Hdm Hp Hs Hd Hsz. unfold ethernet_process_packet, eth_wire.
  assert (HE : eth_fit (mkEth dest_mac src_mac ETHER_IPV4)) by done. rewrite eth_read_bytes by (by apply eth_ser_fit). cbn [mbind option_bind].
  rewrite eth_deser_ser by done. change (ether_type _ =? ETHER_IPV4) with true. cbn match.
  fold (eth_wire src_mac dest_mac ETHER_IPV4). rewrite drop_app_length' by (by rewrite length_eth_wire).
  unfold ipv4_process_packet. destruct (ipv4_wire_read proto size src dest body Hp Hs Hd) as (h & -> & E).
  cbn [mbind option_bind]. rewrite E.
  destruct (seen_fields proto size src dest) as (E1 & E2 & E3 & E4). rewrite E1, E2, E3, E4. cbn zeta.
  change (negb (Z.land 0 0x1FF =? 0) || negb (Z.land (Z.shiftr 0 13) (Z.shiftl 1 2) =? 0)) with false. cbn match.
  change (Z.land (Z.lor 5 (Z.shiftl 4 4)) 0xF * 4) with 20. rewrite (u16_small (20 + size)) by lia.
  replace (20 + size - 20) with size by lia. rewrite u16_small by lia. change (Z.to_nat 20) with 20%nat.
  rewrite drop_app_length' by (by rewrite length_ipv4_wire). cbn [raw2]. unfold seen. reflexivity.
Qed.

(** ** Claims *)

(** The checksum that [update_checksum] writes into an IPv4 header is the internet
    checksum: summing the header with it gives 0. *)
Theorem ipv4_checksum_verifies (h : Ipv4Header) : checksum_get (checksum_add (ipv4_bytes (update_checksum h)) 0) = 0.
Proof. apply update_checksum_verifies. Qed.

(** The flags of an IPv4 header have "more fragments" at bit 13 and the fragment
    offset in bits 0 to 12; the check looks at bit 15 and at bits 0 to 8.  So the
    first fragment of a packet, and any other whose offset is a multiple of 512,
    is handed on as if it were a whole packet. *)
Theorem fragments_are_accepted (eth : EthernetHeader) (raw : list Z) (h : Ipv4Header) :
  ipv4_read raw = Some h -> Z.testbit (frag_flags (ipv4_deserialize h)) 13 = true ->
  Z.land (frag_flags (ipv4_deserialize h)) 0x1FF = 0 -> Z.testbit (frag_flags (ipv4_deserialize h)) 15 = false ->
  protocol h = IP_TCP ->
  exists p, ipv4_process_packet eth raw = Some (ToTcp p) /\ ipv4 p = ipv4_deserialize h.
Proof.
  intros Hr _ Hl H15 Hp. unfold ipv4_process_packet. rewrite Hr. cbn [mbind option_bind]. rewrite Hl.
  assert (E : Z.land (Z.shiftr (frag_flags (ipv4_deserialize h)) 13) (Z.shiftl 1 2) = 0).
  { apply Z.bits_inj'. intros i Hi. rewrite Z.land_spec, Z.bits_0. change (Z.shiftl 1 2) with (2 ^ 2). destruct (decide (i = 2)) as [->|N].
    - rewrite Z.shiftr_spec by lia. change (2 + 13) with 15. by rewrite H15.
    - rewrite Z.pow2_bits_false by done. apply andb_false_r. }
  rewrite E. change (protocol (ipv4_deserialize h)) with (protocol h). rewrite Hp. eexists. split; reflexivity.
Qed.

Lemma fragments_are_accepted_witness : exists p,
  ipv4_process_packet (mkEth 1 2 ETHER_IPV4) (ipv4_bytes (mkIpv4 69 0 0x1C00 0 0x20 64 IP_TCP 0 1 2) ++ replicate 8 0) = Some (ToTcp p) /\ total_len (ipv4 p) = 28.
Proof.
  destruct (fragments_are_accepted (mkEth 1 2 ETHER_IPV4) (ipv4_bytes (mkIpv4 69 0 0x1C00 0 0x20 64 IP_TCP 0 1 2) ++ replicate 8 0)
    (mkIpv4 69 0 0x1C00 0 0x20 64 IP_TCP 0 1 2)) as (p & E & H); [reflexivity..|].
  exists p. split; [exact E|]. rewrite H. reflexivity.
Defined.

End NetPacket.
