(* ===== verification/Arp.v ===== *)
(** * Address resolution (src/src/dev/net/arp.cpp, arp.hpp, nic/nic.hpp)

    The table of link addresses is the hash map of UnorderedMap.v; an event is the
    number of its signals.  Sending is giving a frame to the interface: the
    operations return the frames they send.  [arp_get_mac] waits for answers: what
    each wait ends with is an argument. *)

From S2P Require Import Prelude Bits NetPacket UnorderedMap.

Module Arp.
Import NetPacket.

Record Nic := mkNic { mac : Z; ip : Z; subnet_mask : Z; gateway_ip : Z }.

Record ArpHeader := mkArp {
  htype : Z; ptype : Z; hlen : Z; plen : Z; oper : Z; sender_hw_addr : Z; sender_protocol_addr : Z; target_hw_addr : Z; target_protocol_addr : Z }.
Definition arp_serialize (h : ArpHeader) : ArpHeader :=
  mkArp (to_be 2 (htype h)) (to_be 2 (ptype h)) (hlen h) (plen h) (to_be 2 (oper h)) (sender_hw_addr h) (sender_protocol_addr h) (target_hw_addr h)
    (target_protocol_addr h).
Definition arp_deserialize (h : ArpHeader) : ArpHeader :=
  mkArp (to_ne_from_be 2 (htype h)) (to_ne_from_be 2 (ptype h)) (hlen h) (plen h) (to_ne_from_be 2 (oper h)) (sender_hw_addr h) (sender_protocol_addr h)
    (target_hw_addr h) (target_protocol_addr h).
Definition arp_bytes (h : ArpHeader) : list Z :=
  pack [(2%nat, htype h); (2%nat, ptype h); (1%nat, hlen h); (1%nat, plen h); (2%nat, oper h); (6%nat, sender_hw_addr h); (4%nat, sender_protocol_addr h);
        (6%nat, target_hw_addr h); (4%nat, target_protocol_addr h)].
Definition arp_read (bs : list Z) : option ArpHeader :=
  vs ← unpack [2; 2; 1; 1; 2; 6; 4; 6; 4]%nat bs;
  match vs with [a; b; c; d; e; f; g; h; i] => Some (mkArp a b c d e f g h i) | _ => None end.

Notation table := (@UnorderedMap.map Z Z).
Notation t_insert := (UnorderedMap.insert UnorderedMap.u32_bytes).
Notation t_get := (UnorderedMap.get UnorderedMap.u32_bytes).

Record arp := mkState { IP_TABLE : table; new_ip_event : Z }.

(** A frame with one ARP header; [buffer] is what the allocator returns. *)
Definition arp_frame (buffer : list Z) (src dest : Z) (hdr : ArpHeader) : option (list Z) :=
  p ← add_ethernet src dest ETHER_ARP (new_packet buffer);
  p ← add_header (arp_bytes (arp_serialize hdr)) p;
  Some (data p).

Definition arp_send_query (buffer : list Z) (nic : Nic) (target : Z) : option (list Z) :=
  arp_frame buffer (mac nic) BROADCAST_MAC (mkArp 1 0x800 6 4 1 (mac nic) (ip nic) 0 target).

(** The new state and the frame that is sent, if any. *)
Definition arp_process_packet (buffer : list Z) (nic : Nic) (eth : EthernetHeader) (raw : list Z) (st : arp) : option (arp * option (list Z)) :=
  hdr ← arp_read raw;
  let hdr := arp_deserialize hdr in
  st ← (if (oper hdr =? 1) || (oper hdr =? 2) then
          t ← t_insert (sender_protocol_addr hdr) (eth_src eth) (IP_TABLE st);
          Some (mkState t (u64 (new_ip_event st + 1)))
        else Some st);
  if negb (oper hdr =? 1) then Some (st, None)
  else if negb (htype hdr =? 1) || negb (ptype hdr =? 0x800) || negb (hlen hdr =? 6) || negb (plen hdr =? 4) then Some (st, None)
  else if target_protocol_addr hdr =? ip nic then
    frame ← arp_frame buffer (mac nic) BROADCAST_MAC (mkArp 1 0x800 6 4 2 (mac nic) (ip nic) (sender_hw_addr hdr) (sender_protocol_addr hdr));
    Some (st, Some frame)
  else Some (st, None).

(** ** Looking an address up *)

(** Which address to ask for: [None] is that there is no route. *)
Definition arp_route (nics : list Nic) (target : Z) : option Z :=
  if existsb (fun nic => negb (ip nic =? 0) && (Z.land (ip nic) (subnet_mask nic) =? Z.land target (subnet_mask nic))) nics then Some target
  else
    let first := Z.land target 0xFF in
    let second := Z.land (Z.shiftr target 8) 0xFF in
    if (first =? 10) || ((first =? 172) && (second >=? 16) && (second <=? 31)) || ((first =? 192) && (second =? 168)) then None
    else match nics with [] => None | nic :: _ => Some (gateway_ip nic) end.

(** What a call ends with; [Asking] is that it still waits. *)
Inductive answer := Found (m : Z) | NoMac | Asking.

(** The loop: each element of [waits] is a wait, which ends by the time-out or with
    the state that the packets received meanwhile left. *)
Fixpoint arp_ask (buffer : list Z) (nics : list Nic) (target : Z) (waits : list (option arp)) (st : arp) : option (answer * list (list Z)) :=
  match t_get target (IP_TABLE st) with
  | Some m => Some (Found m, [])
  | None =>
      nic ← head nics;
      frame ← arp_send_query buffer nic target;
      match waits with
      | [] => Some (Asking, [frame])
      | None :: _ => Some (NoMac, [frame])
      | Some st :: waits => '(a, fs) ← arp_ask buffer nics target waits st; Some (a, frame :: fs)
      end
  end.

Definition arp_get_mac (buffer : list Z) (nics : list Nic) (target : Z) (waits : list (option arp)) (st : arp) : option (answer * list (list Z)) :=
  match arp_route nics target with
  | None => Some (NoMac, [])
  | Some target => arp_ask buffer nics target waits st
  end.

(** ** Headers and frames *)

Definition arp_fit (h : ArpHeader) : Prop :=
  fits 16 (htype h) /\ fits 16 (ptype h) /\ fits 8 (hlen h) /\ fits 8 (plen h) /\ fits 16 (oper h) /\ fits 48 (sender_hw_addr h) /\
  fits 32 (sender_protocol_addr h) /\ fits 48 (target_hw_addr h) /\ fits 32 (target_protocol_addr h).

Lemma arp_read_bytes h rest : arp_fit h -> arp_read (arp_bytes h ++ rest) = Some h.
Proof.
  intros (H1 & H2 & H3 & H4 & H5 & H6 & H7 & H8 & H9). unfold arp_read, arp_bytes.
  match goal with |- context [pack ?fs] => pose proof (unpack_pack fs rest) as E end.
  cbn [fmap list_fmap fst snd] in E. rewrite E by fit_fields. by destruct h.
Qed.

Lemma arp_ser_fit h : arp_fit h -> arp_fit (arp_serialize h).
Proof.
  intros (H1 & H2 & H3 & H4 & H5 & H6 & H7 & H8 & H9). unfold arp_fit.
  cbn [arp_serialize htype ptype hlen plen oper sender_hw_addr sender_protocol_addr target_hw_addr target_protocol_addr].
  split_and!; auto using to_be2_fits.
Qed.

Lemma arp_deser_ser h : arp_fit h -> arp_deserialize (arp_serialize h) = h.
Proof.
  intros (H1 & H2 & _ & _ & H5 & _). destruct h. unfold arp_deserialize, arp_serialize.
  cbn [htype ptype hlen plen oper sender_hw_addr sender_protocol_addr target_hw_addr target_protocol_addr] in *. by rewrite !to_ne2_to_be.
Qed.

Definition arp_wire (src dest : Z) (hdr : ArpHeader) : list Z := eth_wire src dest ETHER_ARP ++ arp_bytes (arp_serialize hdr).

Lemma arp_frame_ok buffer src dest hdr : length buffer = 42%nat -> arp_frame buffer src dest hdr = Some (arp_wire src dest hdr).
Proof.
  intros Hl. assert (Hb : Built [] 42 (new_packet buffer)) by (rewrite <- Hl; apply built_new; rewrite Hl; lia). unfold arp_frame.
  destruct (add_ethernet_built [] 28 _ src dest ETHER_ARP Hb) as (p1 & -> & Hb1). cbn [mbind option_bind].
  assert (El : length (arp_bytes (arp_serialize hdr)) = 28%nat) by (unfold arp_bytes; by rewrite length_pack).
  destruct (add_header_built (eth_wire src dest ETHER_ARP) 0 p1 (arp_bytes (arp_serialize hdr))) as (p2 & -> & Hb2); [by rewrite El|].
  cbn [mbind option_bind]. by rewrite (built_full _ _ Hb2).
Qed.

Lemma arp_received src dest hdr : fits 48 src -> fits 48 dest ->
  ethernet_process_packet (arp_wire src dest hdr) = Some (ToArp (mkEth dest src ETHER_ARP) (arp_bytes (arp_serialize hdr))).
Proof.
  intros Hs Hd. unfold ethernet_process_packet, arp_wire. assert (HE : eth_fit (mkEth dest src ETHER_ARP)) by done.
  unfold eth_wire. rewrite eth_read_bytes by (by apply eth_ser_fit). cbn [mbind option_bind]. rewrite eth_deser_ser by done.
  fold (eth_wire src dest ETHER_ARP). rewrite drop_app_length' by (by rewrite length_eth_wire). reflexivity.
Qed.

(** ** Asking and answering *)

(** The interface of a host. *)
Definition nic_fit (nic : Nic) : Prop := fits 48 (mac nic) /\ fits 32 (ip nic).

Definition query (nic : Nic) (target : Z) : ArpHeader := mkArp 1 0x800 6 4 1 (mac nic) (ip nic) 0 target.
Definition reply (nic : Nic) (to_mac to_ip : Z) : ArpHeader := mkArp 1 0x800 6 4 2 (mac nic) (ip nic) to_mac to_ip.

Lemma query_fit nic target : nic_fit nic -> fits 32 target -> arp_fit (query nic target).
Proof. intros [H1 H2] H3. by split_and!. Qed.
Lemma reply_fit nic m i : nic_fit nic -> fits 48 m -> fits 32 i -> arp_fit (reply nic m i).
Proof. intros [H1 H2] H3 H4. by split_and!. Qed.

(** What a host does with a query or a reply. *)
Lemma process_ok buffer nic eth h st n M : arp_fit h -> (oper h = 1 \/ oper h = 2) -> htype h = 1 -> ptype h = 0x800 -> hlen h = 6 -> plen h = 4 ->
  length buffer = 42%nat -> UnorderedMap.Rep UnorderedMap.u32_bytes n (IP_TABLE st) M -> 200 * Z.of_nat n + 200 < 2 ^ 64 ->
  exists st', arp_process_packet buffer nic eth (arp_bytes (arp_serialize h)) st =
      Some (st', if (oper h =? 1) && (target_protocol_addr h =? ip nic)
                 then Some (arp_wire (mac nic) BROADCAST_MAC (reply nic (sender_hw_addr h) (sender_protocol_addr h))) else None) /\
    UnorderedMap.Rep UnorderedMap.u32_bytes (S n) (IP_TABLE st') (<[sender_protocol_addr h := eth_src eth]> M).
Proof.
  intros HF Ho H1 H2 H3 H4 Hl HR Hn. unfold arp_process_packet.
  pose proof (arp_read_bytes (arp_serialize h) [] (arp_ser_fit _ HF)) as E. rewrite app_nil_r in E. rewrite E. cbn [mbind option_bind]. cbn zeta.
  rewrite arp_deser_ser by done. assert (Hb : (oper h =? 1) || (oper h =? 2) = true) by (destruct Ho as [-> | ->]; done). rewrite Hb.
  destruct (UnorderedMap.insert_rep UnorderedMap.u32_bytes n (IP_TABLE st) M (sender_protocol_addr h) (eth_src eth) HR Hn) as (t & -> & HR').
  cbn [mbind option_bind]. exists (mkState t (u64 (new_ip_event st + 1))). split; [|done]. rewrite H1, H2, H3, H4.
  destruct (oper h =? 1); [|done]. cbn [negb andb orb Z.eqb Pos.eqb]. destruct (target_protocol_addr h =? ip nic); [|done].
  rewrite arp_frame_ok by done. done.
Qed.

(** ** Claims *)

(** A host that asks for the address of another on its link gets to know it: the
    query makes the other learn who asks and answer with one frame, and that frame
    makes the first learn the link address, after which the look-up finds it. *)
Theorem arp_exchange (a b : Nic) (sta stb : arp) (n m : nat) (A B : gmap Z Z) (ba bb : list Z) :
  nic_fit a -> nic_fit b -> length ba = 42%nat -> length bb = 42%nat ->
  UnorderedMap.Rep UnorderedMap.u32_bytes n (IP_TABLE sta) A -> UnorderedMap.Rep UnorderedMap.u32_bytes m (IP_TABLE stb) B ->
  200 * Z.of_nat n + 200 < 2 ^ 64 -> 200 * Z.of_nat m + 200 < 2 ^ 64 ->
  exists q r eth1 raw1 eth2 raw2 sta' stb',
    arp_send_query ba a (ip b) = Some q /\
    ethernet_process_packet q = Some (ToArp eth1 raw1) /\ arp_process_packet bb b eth1 raw1 stb = Some (stb', Some r) /\
    t_get (ip a) (IP_TABLE stb') = Some (mac a) /\
    ethernet_process_packet r = Some (ToArp eth2 raw2) /\ arp_process_packet ba a eth2 raw2 sta = Some (sta', None) /\
    t_get (ip b) (IP_TABLE sta') = Some (mac b) /\
    forall w, arp_ask ba [a] (ip b) w sta' = Some (Found (mac b), []).
Proof.
  intros Ha Hb Hla Hlb HRa HRb Hn Hm. pose proof (query_fit a (ip b) Ha (proj2 Hb)) as HQ. pose proof (reply_fit b (mac a) (ip a) Hb (proj1 Ha) (proj2 Ha)) as HP.
  destruct (process_ok bb b (mkEth BROADCAST_MAC (mac a) ETHER_ARP) (query a (ip b)) stb m B HQ ltac:(by left) eq_refl eq_refl eq_refl eq_refl Hlb HRb Hm) as (stb' & Eb & HRb').
  destruct (process_ok ba a (mkEth BROADCAST_MAC (mac b) ETHER_ARP) (reply b (mac a) (ip a)) sta n A HP ltac:(by right) eq_refl eq_refl eq_refl eq_refl Hla HRa Hn) as (sta' & Ea & HRa').
  cbn [oper query reply target_protocol_addr sender_protocol_addr sender_hw_addr eth_src] in Eb, Ea, HRb', HRa'. rewrite !Z.eqb_refl in Eb. cbn [andb Z.eqb Pos.eqb] in Eb, Ea.
  assert (G : t_get (ip b) (IP_TABLE sta') = Some (mac b)) by (erewrite UnorderedMap.get_ok by exact HRa'; by rewrite lookup_insert_eq).
  exists (arp_wire (mac a) BROADCAST_MAC (query a (ip b))), (arp_wire (mac b) BROADCAST_MAC (reply b (mac a) (ip a))). do 4 eexists. exists sta', stb'.
  split_and!.
  - by apply arp_frame_ok.
  - apply arp_received; [apply Ha|done].
  - exact Eb.
  - erewrite UnorderedMap.get_ok by exact HRb'. by rewrite lookup_insert_eq.
  - apply arp_received; [apply Hb|done].
  - exact Ea.
  - exact G.
  - intros w. destruct w; cbn [arp_ask]; by rewrite G.
Qed.

Definition nic_a : Nic := mkNic 0x111111111111 0x0100000A 0xFFFFFF 0.
Definition nic_b : Nic := mkNic 0x222222222222 0x0200000A 0xFFFFFF 0.
Definition st0 : arp := mkState (UnorderedMap.new_map 0) 0.

Lemma arp_exchange_witness : exists q eth1 raw1 stb' r, arp_send_query (replicate 42 0) nic_a (ip nic_b) = Some q /\
  ethernet_process_packet q = Some (ToArp eth1 raw1) /\ arp_process_packet (replicate 42 0) nic_b eth1 raw1 st0 = Some (stb', Some r).
Proof.
  destruct (arp_exchange nic_a nic_b st0 st0 0 0 ∅ ∅ (replicate 42 0) (replicate 42 0)) as (q & r & eth1 & raw1 & eth2 & raw2 & sta' & stb' & H1 & H2 & H3 & _);
    [done|done|done|done|apply UnorderedMap.new_rep|apply UnorderedMap.new_rep|done|done|].
  exists q, eth1, raw1, stb', r. split; [exact H1|]. split; [exact H2|exact H3].
Defined.

End Arp.
