(* ===== verification/Udp.v ===== *)
(** * UDP sockets (src/src/dev/net/udp.cpp)

    Sockets are addresses; [SOCKETS] is the vector of those that are open, in the
    order of their creation.  The result of [arp_get_mac] is an argument.  A read
    past the end of the received frame, and an allocation of almost the whole
    address space, are [None]. *)

From S2P Require Import Prelude Bits NetPacket Arp.

Module Udp.
Import NetPacket Arp.

Record Udp4BufferPacket := mkBuffered { b_ip : Z; b_port : Z; b_data : list Z; data_ptr : Z }.

Record Udp4Socket := mkSocket { own_port : Z; nonblock : bool; packet_list : list Udp4BufferPacket; packet_count : Z; event : Z }.

Record udp := mkUdpState { sockets : gmap Z Udp4Socket; SOCKETS : list Z }.

(** ** Opening and closing *)

(** The loop over the ports, from [port] down; the ports of the open sockets are
    [taken]. *)
Fixpoint free_port (taken : list Z) (port : nat) : option Z :=
  if bool_decide (Z.of_nat port ∈ taken) then
    match port with O => None | S port => free_port taken port end
  else Some (Z.of_nat port).

Definition ports (u : udp) : list Z := omap (fun s => own_port <$> sockets u !! s) (SOCKETS u).

(** The new socket is at address [s]; the result is its port. *)
Definition udp_socket_create (s : Z) (flags : bool) (u : udp) : option (Z * udp) :=
  port ← free_port (ports u) (Z.to_nat 65535);
  Some (port, mkUdpState (<[s := mkSocket port flags [] 0 0]> (sockets u)) (SOCKETS u ++ [s])).

(** The destructor: [remove_socket], and the socket is gone. *)
Definition close (s : Z) (u : udp) : udp :=
  mkUdpState (delete s (sockets u)) (default (SOCKETS u) (list_remove s (SOCKETS u))).

(** ** Receiving *)

Fixpoint find_socket (u : udp) (port : Z) (ss : list Z) : option (Z * Udp4Socket) :=
  match ss with
  | [] => None
  | s :: ss =>
      match sockets u !! s with
      | Some sock => if own_port sock =? port then Some (s, sock) else find_socket u port ss
      | None => find_socket u port ss
      end
  end.

Definition udp_process_packet (p : ReceivedPacket) (u : udp) : option udp :=
  hdr ← udp_read (raw2 p);
  let hdr := udp_deserialize hdr in
  match find_socket u (udp_dest_port hdr) (SOCKETS u) with
  | None => Some u
  | Some (s, sock) =>
      if packet_count sock >=? 64 then Some u
      else
        let size := u64 (udp_length hdr - 8) in
        _ ← assert (8 + size <=? Z.of_nat (length (raw2 p)));
        let b := mkBuffered (src_addr (ipv4 p)) (udp_src_port hdr) (take (Z.to_nat size) (drop 8 (raw2 p))) 0 in
        let sock := mkSocket (own_port sock) (nonblock sock) (packet_list sock ++ [b]) (u64 (packet_count sock + 1)) (u64 (event sock + 1)) in
        Some (mkUdpState (<[s := sock]> (sockets u)) (SOCKETS u))
  end.

(** What [receive_from] ends with; [Blocked] is that it waits. *)
Inductive received := Got (bytes : list Z) (src_ip src_port : Z) | TryAgain | Blocked.

Fixpoint receive_from (fuel : nat) (size : Z) (sock : Udp4Socket) : option (received * Udp4Socket) :=
  match packet_list sock with
  | p :: ps =>
      let to_copy := Z.min (u64 (Z.of_nat (length (b_data p)) - data_ptr p)) size in
      let bytes := take (Z.to_nat to_copy) (drop (Z.to_nat (data_ptr p)) (b_data p)) in
      let ptr := u32 (data_ptr p + to_copy) in
      let r := Got bytes (b_ip p) (b_port p) in
      Some (if ptr =? Z.of_nat (length (b_data p))
            then (r, mkSocket (own_port sock) (nonblock sock) ps (u64 (packet_count sock - 1)) (event sock))
            else (r, mkSocket (own_port sock) (nonblock sock) (mkBuffered (b_ip p) (b_port p) (b_data p) ptr :: ps) (packet_count sock) (event sock)))
  | [] =>
      if nonblock sock then Some (TryAgain, sock)
      else if event sock =? 0 then Some (Blocked, sock)
      else
        match fuel with
        | O => None
        | S fuel => receive_from fuel size (mkSocket (own_port sock) (nonblock sock) [] (packet_count sock) (event sock - 1))
        end
  end.

(** ** Sending *)

Definition ERR_INVALID_ARGUMENT : Z := -0x1000 + 1.
Definition ERR_NO_ROUTE_TO_HOST : Z := -0x1000 + 10.

(** The code and the frame that is sent.  [buffer] is what the allocator returns for
    a packet of that size. *)
Definition send_to (buffer : list Z) (nic : Nic) (sock : Udp4Socket) (payload : list Z) (is_ipv4 : bool) (dest_ip dest_port : Z) (arp : option Z) :
    option (Z * option (list Z)) :=
  if negb is_ipv4 then Some (ERR_INVALID_ARGUMENT, None)
  else
    match arp with
    | None => Some (ERR_NO_ROUTE_TO_HOST, None)
    | Some m =>
        let size := Z.of_nat (length payload) in
        p ← add_ethernet (mac nic) m ETHER_IPV4 (new_packet buffer);
        p ← add_ipv4 IP_UDP (u16 (8 + size)) (ip nic) dest_ip p;
        p ← add_udp (own_port sock) dest_port (u16 size) p;
        p ← add_header payload p;
        Some (0, Some (data p))
    end.

(** ** The invariant *)

Definition wf_packet (p : Udp4BufferPacket) : Prop := 0 <= data_ptr p <= Z.of_nat (length (b_data p)) /\ Z.of_nat (length (b_data p)) < 2 ^ 16.

Definition wf_socket (sock : Udp4Socket) : Prop :=
  0 <= own_port sock < 2 ^ 16 /\ packet_count sock = Z.of_nat (length (packet_list sock)) /\ packet_count sock <= 64 /\ Forall wf_packet (packet_list sock) /\
  0 <= event sock.

(** Open sockets have ports of their own. *)
Record Inv (u : udp) : Prop := mkInv {
  inv_list : NoDup (SOCKETS u); inv_ex : forall s, s ∈ SOCKETS u <-> is_Some (sockets u !! s);
  inv_wf : forall s sock, sockets u !! s = Some sock -> wf_socket sock;
  inv_port : forall s s' sock sock', sockets u !! s = Some sock -> sockets u !! s' = Some sock' -> own_port sock = own_port sock' -> s = s' }.

Lemma ports_elem u p : p ∈ ports u <-> exists s sock, s ∈ SOCKETS u /\ sockets u !! s = Some sock /\ own_port sock = p.
Proof.
  unfold ports. rewrite list_elem_of_omap. split.
  - intros (s & Hs & H). destruct (sockets u !! s) as [sock|] eqn:E; [|done]. injection H as <-. by exists s, sock.
  - intros (s & sock & Hs & E & <-). exists s. split; [done|]. by rewrite E.
Qed.

Lemma free_port_spec taken n : match free_port taken n with
  | Some p => 0 <= p <= Z.of_nat n /\ p ∉ taken /\ forall q, p < q <= Z.of_nat n -> q ∈ taken
  | None => forall q, 0 <= q <= Z.of_nat n -> q ∈ taken
  end.
Proof.
  induction n as [|n IH]; cbn [free_port]; case_bool_decide as D.
  - intros q Hq. by replace q with (Z.of_nat 0) by lia.
  - split_and!; try done; lia.
  - destruct (free_port taken n) as [p|].
    + destruct IH as (H1 & H2 & H3). split_and!; [lia|lia|done|]. intros q Hq. destruct (decide (q = Z.of_nat (S n))) as [->|]; [done|]. apply H3. lia.
    + intros q Hq. destruct (decide (q = Z.of_nat (S n))) as [->|]; [done|]. apply IH. lia.
  - split_and!; try done; lia.
Qed.

Lemma find_socket_spec u port ss : match find_socket u port ss with
  | Some (s, sock) => s ∈ ss /\ sockets u !! s = Some sock /\ own_port sock = port
  | None => forall s sock, s ∈ ss -> sockets u !! s = Some sock -> own_port sock <> port
  end.
Proof.
  induction ss as [|s ss IH]; cbn [find_socket]; [by intros s sock ?%elem_of_nil|].
  destruct (sockets u !! s) as [sock|] eqn:E; [destruct (own_port sock =? port) eqn:Ep; bool_to_prop|].
  - split_and!; [left|done|done].
  - destruct (find_socket u port ss) as [[s' sock']|]; [destruct IH as (? & ? & ?); split_and!; [by right|done|done]|].
    intros s' sock' [->|H]%elem_of_cons H'; [congruence|by eapply IH].
  - destruct (find_socket u port ss) as [[s' sock']|]; [destruct IH as (? & ? & ?); split_and!; [by right|done|done]|].
    intros s' sock' [->|H]%elem_of_cons H'; [congruence|by eapply IH].
Qed.

(** Changing an open socket but not its port. *)
Lemma inv_update u s sock sock' : Inv u -> sockets u !! s = Some sock -> wf_socket sock' -> own_port sock' = own_port sock ->
  Inv (mkUdpState (<[s := sock']> (sockets u)) (SOCKETS u)).
Proof.
  intros [H1 H2 H3 H4] Hs Hw Hp. assert (Hl : forall x y, (<[s := sock']> (sockets u)) !! x = Some y -> exists y', sockets u !! x = Some y' /\ own_port y' = own_port y).
  { intros x y. destruct (decide (x = s)) as [->|]; [rewrite lookup_insert_eq; intros [= <-]; by exists sock|rewrite lookup_insert_ne by done; by exists y]. }
  split; cbn [sockets SOCKETS]; [done| | |].
  - intros x. rewrite H2. destruct (decide (x = s)) as [->|]; [rewrite lookup_insert_eq, Hs; split; by eexists|by rewrite lookup_insert_ne].
  - intros x y. destruct (decide (x = s)) as [->|]; [rewrite lookup_insert_eq; by intros [= <-]|rewrite lookup_insert_ne by done; apply H3].
  - intros x x' y y' Hx Hx' E. destruct (Hl x y Hx) as (z & Hz & Ez). destruct (Hl x' y' Hx') as (z' & Hz' & Ez'). apply (H4 x x' z z'); congruence.
Qed.

Lemma create_ok s f u : Inv u -> sockets u !! s = None ->
  match udp_socket_create s f u with
  | Some (port, u') => Inv u' /\ sockets u' !! s = Some (mkSocket port f [] 0 0) /\ 0 <= port < 2 ^ 16 /\ port ∉ ports u
  | None => forall q, 0 <= q < 2 ^ 16 -> q ∈ ports u
  end.
Proof.
  intros [H1 H2 H3 H4] Hs. unfold udp_socket_create. pose proof (free_port_spec (ports u) (Z.to_nat 65535)) as HF.
  destruct (free_port (ports u) (Z.to_nat 65535)) as [port|]; cbn [mbind option_bind]; [|intros q Hq; apply HF; lia].
  destruct HF as (Hr & Hn & _). cbn [sockets]. split_and!; [|by rewrite lookup_insert_eq|lia|lia|done].
  assert (Hns : s ∉ SOCKETS u) by (rewrite H2, Hs; by intros [? ?]). split; cbn [sockets SOCKETS].
  - apply NoDup_app. split_and!; [done| |apply NoDup_singleton]. intros x Hx ->%list_elem_of_singleton. done.
  - intros x. rewrite elem_of_app, list_elem_of_singleton, H2. destruct (decide (x = s)) as [->|N].
    + rewrite lookup_insert_eq. split; [by eexists|by right].
    + rewrite lookup_insert_ne by done. naive_solver.
  - intros x y. destruct (decide (x = s)) as [->|N]; [rewrite lookup_insert_eq; intros [= <-]; split_and!; simpl; try done; lia|].
    rewrite lookup_insert_ne by done. apply H3.
  - assert (Hne : forall x y, x <> s -> sockets u !! x = Some y -> own_port y <> port).
    { intros x y N Hx <-. apply Hn, ports_elem. exists x, y. split_and!; [|done|done]. rewrite H2. by eexists. }
    intros x x' y y' Hx Hx' E. destruct (decide (x = s)) as [->|N], (decide (x' = s)) as [->|N']; [done| | |].
    + rewrite lookup_insert_eq in Hx. injection Hx as <-. rewrite lookup_insert_ne in Hx' by done. by destruct (Hne x' y').
    + rewrite lookup_insert_eq in Hx'. injection Hx' as <-. rewrite lookup_insert_ne in Hx by done. by destruct (Hne x y).
    + rewrite lookup_insert_ne in Hx, Hx' by done. by apply (H4 x x' y y').
Qed.

Lemma close_ok s u : Inv u -> s ∈ SOCKETS u -> Inv (close s u).
Proof.
  intros [H1 H2 H3 H4] Hs. destruct (list_remove_elem s (SOCKETS u) Hs H1) as (l & E & ND & Hl). unfold close. rewrite E.
  split; cbn [sockets SOCKETS default]; [done| | |].
  - intros x. rewrite Hl, H2. destruct (decide (x = s)) as [->|N]; [rewrite lookup_delete_eq; split; [by intros [_ ?]|by intros [? ?]]|].
    rewrite lookup_delete_ne by done. naive_solver.
  - intros x y [_ Hx]%lookup_delete_Some. by eapply H3.
  - intros x x' y y' [_ Hx]%lookup_delete_Some [_ Hx']%lookup_delete_Some. by apply (H4 x x' y y').
Qed.

Lemma process_inv p u u' : Inv u -> Z.of_nat (length (raw2 p)) < 2 ^ 32 -> udp_process_packet p u = Some u' -> Inv u'.
Proof.
  intros HI Hlen. unfold udp_process_packet. destruct (udp_read (raw2 p)) as [hdr|]; [|done]. cbn [mbind option_bind]. cbn zeta.
  pose proof (find_socket_spec u (udp_dest_port (udp_deserialize hdr)) (SOCKETS u)) as HF.
  destruct (find_socket u _ (SOCKETS u)) as [[s sock]|]; [|by intros [= <-]]. destruct HF as (_ & Hs & _).
  destruct (packet_count sock >=? 64) eqn:Ec; [by intros [= <-]|]. bool_to_prop.
  assert (Hu : fits 16 (udp_length (udp_deserialize hdr))) by (apply (builtin_bswap_fits 2)). set (n := u64 (udp_length (udp_deserialize hdr) - 8)).
  destruct (8 + n <=? Z.of_nat (length (raw2 p))) eqn:El; [|done]. bool_to_prop. cbn [assert mbind option_bind]. intros [= <-].
  destruct (inv_wf u HI s sock Hs) as (W1 & W2 & W3 & W4 & W5). apply (inv_update u s sock); [done|done| |done].
  assert (Hn : 0 <= n < 2 ^ 16 - 8).
  { unfold n in *. destruct (decide (8 <= udp_length (udp_deserialize hdr))); [rewrite u64_small; unfold fits in Hu; lia|].
    exfalso. revert El. unfold u64, wrap. rewrite <- (Z.mod_unique (udp_length (udp_deserialize hdr) - 8) (2 ^ 64) (-1) (2 ^ 64 + udp_length (udp_deserialize hdr) - 8)); unfold fits in Hu; lia. }
  split_and!; cbn [own_port packet_count packet_list event]; try (done || lia).
  - rewrite length_app, u64_small by lia. simpl. lia.
  - rewrite u64_small by lia. lia.
  - apply Forall_app. split; [done|]. apply Forall_singleton. unfold wf_packet. cbn [data_ptr b_data]. rewrite length_take. lia.
  - apply u64_bound.
Qed.

(** A datagram that is there is read from where the last read ended. *)
Lemma receive_ok fuel size sock p ps : wf_socket sock -> packet_list sock = p :: ps -> 0 <= size ->
  let rest := drop (Z.to_nat (data_ptr p)) (b_data p) in
  exists sock', receive_from fuel size sock = Some (Got (take (Z.to_nat size) rest) (b_ip p) (b_port p), sock') /\ wf_socket sock' /\
    own_port sock' = own_port sock /\
    packet_list sock' = if decide (Z.of_nat (length rest) <= size) then ps
                        else mkBuffered (b_ip p) (b_port p) (b_data p) (data_ptr p + size) :: ps.
Proof.
  intros (W1 & W2 & W3 & W4 & W5) Hp Hsz rest. rewrite Hp in *. apply Forall_cons in W4 as [[Hd Hl] W4].
  assert (Hr : Z.of_nat (length rest) = Z.of_nat (length (b_data p)) - data_ptr p) by (unfold rest; rewrite length_drop; lia).
  assert (E : forall f, receive_from f size sock = Some (Got (take (Z.to_nat size) rest) (b_ip p) (b_port p),
    if decide (Z.of_nat (length rest) <= size) then mkSocket (own_port sock) (nonblock sock) ps (packet_count sock - 1) (event sock)
    else mkSocket (own_port sock) (nonblock sock) (mkBuffered (b_ip p) (b_port p) (b_data p) (data_ptr p + size) :: ps) (packet_count sock) (event sock))).
  { intros f. simpl in W2. assert (Eb : forall m, take (Z.to_nat (Z.min (Z.of_nat (length rest)) m)) rest = take (Z.to_nat m) rest).
    { intros m. destruct (decide (m <= Z.of_nat (length rest))); [by rewrite Z.min_r by lia|]. rewrite Z.min_l by lia. rewrite !take_ge by lia. done. }
    destruct f; cbn [receive_from]; rewrite Hp; cbn zeta; rewrite <- Hr, (u64_small (Z.of_nat (length rest))) by lia; fold rest; rewrite Eb.
    all: case_decide as D; [rewrite Z.min_l by lia|rewrite Z.min_r by lia]; rewrite u32_small by lia.
    all: (rewrite (proj2 (Z.eqb_eq _ _)) by lia) || (rewrite (proj2 (Z.eqb_neq _ _)) by lia).
    all: try rewrite u64_small by lia; done. }
  rewrite E. eexists. split; [reflexivity|]. simpl in W2. case_decide as D; (split_and!; [|done|done]); split_and!; cbn [own_port packet_count packet_list event length]; try (done || lia).
  apply Forall_cons. split; [|done]. split; cbn [data_ptr b_data]; lia.
Qed.

(** ** Claims *)

Inductive op := Create (s : Z) (flags : bool) | Close (s : Z) | Process (p : ReceivedPacket) | Receive (s size : Z).

(** A port that runs out, and a receive that waits, leave the state. *)
Definition step (o : op) (u : udp) : option udp :=
  match o with
  | Create s f => Some (match udp_socket_create s f u with Some (_, u') => u' | None => u end)
  | Close s => Some (close s u)
  | Process p => udp_process_packet p u
  | Receive s size =>
      sock ← sockets u !! s;
      '(_, sock) ← receive_from (Z.to_nat (event sock)) size sock;
      Some (mkUdpState (<[s := sock]> (sockets u)) (SOCKETS u))
  end.
(** The length of the header is that of a header and of bytes that are there. *)
Definition good_length (p : ReceivedPacket) : Prop :=
  exists hdr, udp_read (raw2 p) = Some hdr /\ 8 <= udp_length (udp_deserialize hdr) <= Z.of_nat (length (raw2 p)).

Definition permitted (o : op) (u : udp) : Prop :=
  match o with
  | Create s _ => sockets u !! s = None
  | Close s => s ∈ SOCKETS u
  | Process p => Z.of_nat (length (raw2 p)) < 2 ^ 32 /\ good_length p
  | Receive s size => is_Some (sockets u !! s) /\ 0 <= size
  end.

Lemma receive_wait fuel size sock : wf_socket sock -> packet_list sock = [] -> event sock <= Z.of_nat fuel ->
  exists r sock', receive_from fuel size sock = Some (r, sock') /\ wf_socket sock' /\ own_port sock' = own_port sock /\
    r = if nonblock sock then TryAgain else Blocked.
Proof.
  revert sock. induction fuel as [|fuel IH]; intros sock HW Hp He; pose proof HW as (W1 & W2 & W3 & W4 & W5); cbn [receive_from]; rewrite Hp.
  - destruct (nonblock sock); [by exists TryAgain, sock|]. replace (event sock) with 0 by lia. by exists Blocked, sock.
  - destruct (nonblock sock) eqn:Hb; [by exists TryAgain, sock|]. destruct (event sock =? 0) eqn:E0; [by exists Blocked, sock|]. bool_to_prop.
    destruct (IH (mkSocket (own_port sock) false [] (packet_count sock) (event sock - 1))) as (r & sock' & E & H1 & H2 & H3); [|done|simpl; lia|].
    + rewrite Hp in *. split_and!; simpl; try (done || lia).
    + exists r, sock'. split_and!; try done.
Qed.

Lemma process_total p u : Z.of_nat (length (raw2 p)) < 2 ^ 32 -> good_length p -> exists u', udp_process_packet p u = Some u'.
Proof.
  intros Hl (hdr & E & H). unfold udp_process_packet. rewrite E. cbn [mbind option_bind]. cbn zeta.
  destruct (find_socket u _ (SOCKETS u)) as [[s sock]|]; [|by eexists]. destruct (packet_count sock >=? 64); [by eexists|].
  rewrite u64_small by lia. rewrite (proj2 (Z.leb_le _ _)) by lia. by eexists.
Qed.

Lemma udp_step_ok u o : Inv u -> permitted o u -> exists u', step o u = Some u' /\ Inv u'.
Proof.
  intros HI Hp. destruct o as [s f|s|p|s size]; cbn [step permitted] in *.
  - eexists. split; [reflexivity|]. pose proof (create_ok s f u HI Hp) as H. destruct (udp_socket_create s f u) as [[port u']|]; [apply H|done].
  - eexists. split; [reflexivity|]. by apply close_ok.
  - destruct (process_total p u (proj1 Hp) (proj2 Hp)) as [u' E]. exists u'. split; [done|]. eapply process_inv; [exact HI|apply Hp|exact E].
  - destruct Hp as [[sock Hs] Hsz]. rewrite Hs. cbn [mbind option_bind]. pose proof (inv_wf u HI s sock Hs) as HW.
    destruct (packet_list sock) as [|p ps] eqn:Hp.
    + destruct (receive_wait (Z.to_nat (event sock)) size sock HW Hp) as (r & sock' & -> & HW' & Ho & _); [lia|]. cbn [mbind option_bind].
      eexists. split; [reflexivity|]. by apply (inv_update u s sock).
    + destruct (receive_ok (Z.to_nat (event sock)) size sock p ps HW Hp Hsz) as (sock' & -> & HW' & Ho & _). cbn [mbind option_bind].
      eexists. split; [reflexivity|]. by apply (inv_update u s sock).
Qed.

Fixpoint run (os : list op) (u : udp) : option udp := match os with [] => Some u | o :: os => u ← step o u; run os u end.
Fixpoint all_permitted (os : list op) (u : udp) : Prop :=
  match os with [] => True | o :: os => permitted o u /\ forall u', step o u = Some u' -> all_permitted os u' end.

Lemma udp_run_ok os : forall u, Inv u -> all_permitted os u -> exists u', run os u = Some u' /\ Inv u'.
Proof.
  induction os as [|o os IH]; intros u HI Hp; [by exists u|]. destruct Hp as [Hp Hall]. destruct (udp_step_ok u o HI Hp) as (u1 & E & HI1).
  cbn [run]. rewrite E. apply IH; [done|by apply Hall].
Qed.

Definition no_sockets : udp := mkUdpState ∅ [].
Lemma no_sockets_inv : Inv no_sockets.
Proof. split; simpl; try done; [constructor|]. intros s. split; [by intros ?%elem_of_nil|intros [? H]; by rewrite lookup_empty in H]. Qed.

(** Any sequence of opening and closing sockets, receiving and packets whose length
    is right runs through; no two open sockets ever have the same port, and each
    keeps at most 64 datagrams, as many as it counts. *)
Theorem udp_ports_unique (os : list op) : all_permitted os no_sockets ->
  exists u, run os no_sockets = Some u /\
    (forall s s' sock sock', sockets u !! s = Some sock -> sockets u !! s' = Some sock' -> own_port sock = own_port sock' -> s = s') /\
    (forall s sock, sockets u !! s = Some sock -> packet_count sock = Z.of_nat (length (packet_list sock)) /\ packet_count sock <= 64).
Proof.
  intros Hp. destruct (udp_run_ok os no_sockets no_sockets_inv Hp) as (u & E & HI). exists u. split_and!; [done|apply HI|].
  intros s sock Hs. destruct (inv_wf u HI s sock Hs) as (_ & ? & ? & _). done.
Qed.

Lemma udp_ports_unique_witness : exists u, run [Create 1 true; Create 2 false; Receive 1 10; Close 1; Create 3 true] no_sockets = Some u /\
  own_port <$> sockets u !! 3 = Some 65535.
Proof.
  destruct (udp_ports_unique [Create 1 true; Create 2 false; Receive 1 10; Close 1; Create 3 true]) as (u & E & _).
  - split; [reflexivity|]. intros u1 E1. vm_compute in E1. injection E1 as <-. split; [reflexivity|]. intros u2 E2. vm_compute in E2. injection E2 as <-.
    split; [split; [by eexists|done]|]. intros u3 E3. vm_compute in E3. injection E3 as <-.
    split; [left|]. intros u4 E4. vm_compute in E4. injection E4 as <-. split; [reflexivity|done].
  - exists u. split; [exact E|]. vm_compute in E. injection E as <-. reflexivity.
Defined.

(** A datagram that is sent to the port of an open socket that has room is appended
    to what the socket has, with the address and port of the sender; a receive on a
    socket that had nothing then gives its bytes. *)
Theorem udp_delivery (u : udp) (s : Z) (dst src : Udp4Socket) (nic : Nic) (m dest_ip : Z) (payload buffer : list Z) :
  Inv u -> sockets u !! s = Some dst -> packet_list dst = [] -> own_port dst <> 68 ->
  nic_fit nic -> fits 48 m -> fits 32 dest_ip -> fits 16 (own_port src) ->
  Z.of_nat (length payload) <= 65507 -> length buffer = (42 + length payload)%nat ->
  exists frame p u' dst', send_to buffer nic src payload true dest_ip (own_port dst) (Some m) = Some (0, Some frame) /\
    ethernet_process_packet frame = Some (ToUdp p) /\ udp_process_packet p u = Some u' /\
    sockets u' !! s = Some dst' /\ packet_list dst' = [mkBuffered (ip nic) (own_port src) payload 0] /\
    exists dst'', receive_from 0 65536 dst' = Some (Got payload (ip nic) (own_port src), dst'') /\ packet_list dst'' = [].
Proof.
  intros HI Hs Hl Hp68 [Hm1 Hi1] Hm Hd Hsp Hlen Hbuf. destruct (inv_wf u HI s dst Hs) as (W1 & W2 & W3 & W4 & W5). rewrite Hl in W2. simpl in W2.
  assert (Hb : Built [] (42 + length payload) (new_packet buffer)) by (rewrite <- Hbuf; apply built_new; lia).
  unfold send_to. cbn [negb]. cbn zeta. set (sz := Z.of_nat (length payload)) in *. rewrite !u16_small by lia.
  destruct (add_ethernet_built [] (28 + length payload) _ (mac nic) m ETHER_IPV4 Hb) as (p1 & -> & Hb1). cbn [mbind option_bind].
  destruct (add_ipv4_built _ (8 + length payload) p1 IP_UDP (8 + sz) (ip nic) dest_ip Hb1) as (p2 & -> & Hb2). cbn [mbind option_bind].
  destruct (add_udp_built _ (length payload) p2 (own_port src) (own_port dst) sz Hb2) as (p3 & -> & Hb3). cbn [mbind option_bind].
  rewrite <- (Nat.add_0_r (length payload)) in Hb3. destruct (add_header_built _ 0 p3 payload Hb3) as (p4 & -> & Hb4). cbn [mbind option_bind].
  set (body := udp_wire (own_port src) (own_port dst) sz ++ payload).
  assert (Ef : data p4 = eth_wire (mac nic) m ETHER_IPV4 ++ ipv4_wire IP_UDP (8 + sz) (ip nic) dest_ip ++ body).
  { rewrite (built_full _ _ Hb4). unfold body. by rewrite <- !app_assoc. }
  assert (Hfit : udp_fit (mkUdp (own_port src) (own_port dst) (8 + sz) 0)) by (split_and!; simpl; unfold fits in *; lia).
  assert (Er : udp_read body = Some (udp_serialize (mkUdp (own_port src) (own_port dst) (8 + sz) 0))).
  { unfold body, udp_wire. rewrite u16_small by lia. apply udp_read_bytes. by apply udp_ser_fit. }
  set (p := seen (mac nic) m IP_UDP (8 + sz) (ip nic) dest_ip body).
  assert (Ep : ethernet_process_packet (data p4) = Some (ToUdp p)).
  { rewrite Ef, frame_received by (done || lia). change (IP_UDP =? IP_TCP) with false. change (IP_UDP =? IP_UDP) with true. cbn match zeta.
    rewrite Er. cbn [mbind option_bind]. rewrite udp_deser_ser by done. cbn [udp_dest_port]. by rewrite (proj2 (Z.eqb_neq _ _) Hp68). }
  assert (Efind : find_socket u (own_port dst) (SOCKETS u) = Some (s, dst)).
  { pose proof (find_socket_spec u (own_port dst) (SOCKETS u)) as HF. destruct (find_socket u (own_port dst) (SOCKETS u)) as [[s' dst']|].
    - destruct HF as (_ & Hs' & Ep'). assert (s' = s) by (by apply (inv_port u HI s' s dst' dst)). congruence.
    - destruct (HF s dst); [|done|done]. apply (inv_ex u HI). by eexists. }
  set (dst' := mkSocket (own_port dst) (nonblock dst) [mkBuffered (ip nic) (own_port src) payload 0] (packet_count dst + 1) (u64 (event dst + 1))).
  assert (Eu : udp_process_packet p u = Some (mkUdpState (<[s := dst']> (sockets u)) (SOCKETS u))).
  { unfold udp_process_packet. change (raw2 p) with body. rewrite Er. cbn [mbind option_bind]. cbn zeta. rewrite udp_deser_ser by done.
    cbn [udp_dest_port udp_length udp_src_port]. rewrite Efind. rewrite W2. change (0 >=? 64) with false. cbn match.
    replace (8 + sz - 8) with sz by lia. rewrite !u64_small by lia.
    assert (Hbl : Z.of_nat (length body) = 8 + sz) by (unfold body; rewrite length_app, length_udp_wire; lia). rewrite Hbl, Z.leb_refl.
    cbn [assert mbind option_bind]. unfold body. rewrite drop_app_length' by (by rewrite length_udp_wire). unfold sz. rewrite Nat2Z.id, firstn_all.
    unfold dst'. rewrite Hl, W2. reflexivity. }
  exists (data p4), p, (mkUdpState (<[s := dst']> (sockets u)) (SOCKETS u)), dst'. split_and!; [done|done|done|by cbn [sockets]; rewrite lookup_insert_eq|done|].
  assert (HW' : wf_socket dst').
  { unfold dst', wf_socket. cbn [own_port packet_count packet_list event length].
    assert (0 <= u64 (event dst + 1)) by apply u64_bound. split_and!; try (done || lia). apply Forall_singleton. split; cbn [data_ptr b_data]; lia. }
  destruct (receive_ok 0 65536 dst' (mkBuffered (ip nic) (own_port src) payload 0) [] HW' eq_refl ltac:(lia)) as (dst'' & E & _ & _ & Hl''). cbn [data_ptr b_data b_ip b_port] in E, Hl''.
  change (Z.to_nat 0) with 0%nat in *. rewrite drop_0 in *. rewrite take_ge in E by lia. rewrite decide_True in Hl'' by lia. by exists dst''.
Qed.

Definition one_socket : udp := mkUdpState {[1 := mkSocket 5000 true [] 0 0]} [1].
Lemma one_socket_inv : Inv one_socket.
Proof.
  split; simpl.
  - apply NoDup_singleton.
  - intros s. rewrite list_elem_of_singleton. split; [intros ->; rewrite lookup_singleton_eq; by eexists|by intros [x [? _]%lookup_singleton_Some]].
  - intros s sock [_ <-]%lookup_singleton_Some. split_and!; simpl; (done || lia || constructor).
  - intros s s' sock sock' [<- _]%lookup_singleton_Some [<- _]%lookup_singleton_Some. done.
Qed.

Lemma udp_delivery_witness : exists frame p, send_to (replicate 45 0) nic_a (mkSocket 6000 true [] 0 0) [7; 8; 9] true 0x0200000A 5000 (Some 0x222222222222) = Some (0, Some frame) /\
  ethernet_process_packet frame = Some (ToUdp p) /\ exists u', udp_process_packet p one_socket = Some u'.
Proof.
  destruct (udp_delivery one_socket 1 (mkSocket 5000 true [] 0 0) (mkSocket 6000 true [] 0 0) nic_a 0x222222222222 0x0200000A [7; 8; 9] (replicate 45 0) one_socket_inv)
    as (frame & p & u' & dst' & H1 & H2 & H3 & _); try (reflexivity || done || discriminate).
  exists frame, p. split; [exact H1|]. split; [exact H2|]. exists u'. exact H3.
Defined.

(** The length of the header is trusted: when an open socket with room is addressed
    and the length is less than that of the header, or more than what was received,
    the copy leaves the received frame. *)
Theorem udp_length_unchecked (p : ReceivedPacket) (u : udp) (hdr : UdpHeader) (s : Z) (sock : Udp4Socket) :
  Inv u -> Z.of_nat (length (raw2 p)) < 2 ^ 32 -> udp_read (raw2 p) = Some hdr -> sockets u !! s = Some sock -> own_port sock = udp_dest_port (udp_deserialize hdr) ->
  packet_count sock < 64 ->
  udp_length (udp_deserialize hdr) < 8 \/ Z.of_nat (length (raw2 p)) < udp_length (udp_deserialize hdr) ->
  udp_process_packet p u = None.
Proof.
  intros HI Hlen Hr Hs Hport Hc Hbad. unfold udp_process_packet. rewrite Hr. cbn [mbind option_bind]. cbn zeta.
  pose proof (find_socket_spec u (udp_dest_port (udp_deserialize hdr)) (SOCKETS u)) as HF. destruct (find_socket u _ (SOCKETS u)) as [[s' sock']|].
  2: { destruct (HF s sock); [|done|done]. apply (inv_ex u HI). by eexists. }
  destruct HF as (_ & Hs' & Hp'). assert (s' = s) as -> by (apply (inv_port u HI s' s sock' sock); congruence). rewrite Hs in Hs'. injection Hs' as <-.
  destruct (packet_count sock >=? 64) eqn:Ec; bool_to_prop; [lia|]. assert (Hu : fits 16 (udp_length (udp_deserialize hdr))) by (apply (builtin_bswap_fits 2)).
  unfold fits in Hu. assert (E : 8 + u64 (udp_length (udp_deserialize hdr) - 8) > Z.of_nat (length (raw2 p))).
  { destruct (decide (8 <= udp_length (udp_deserialize hdr))); [rewrite u64_small; lia|].
    unfold u64, wrap. rewrite <- (Z.mod_unique (udp_length (udp_deserialize hdr) - 8) (2 ^ 64) (-1) (2 ^ 64 + udp_length (udp_deserialize hdr) - 8)); lia. }
  destruct (8 + u64 (udp_length (udp_deserialize hdr) - 8) <=? Z.of_nat (length (raw2 p))) eqn:El; bool_to_prop; [lia|]. done.
Qed.

Definition bad_packet : ReceivedPacket :=
  mkRecv (mkEth 1 2 ETHER_IPV4) [] (make_ipv4 IP_UDP 8 1 2) (udp_bytes (udp_serialize (mkUdp 6000 5000 4 0))) 8.

Lemma udp_length_unchecked_witness : udp_process_packet bad_packet one_socket = None.
Proof.
  apply (udp_length_unchecked bad_packet one_socket (udp_serialize (mkUdp 6000 5000 4 0)) 1 (mkSocket 5000 true [] 0 0) one_socket_inv);
    try reflexivity. left. reflexivity.
Defined.

End Udp.
