(* ===== verification/Tcp.v ===== *)
(** * TCP sockets (src/src/dev/net/tcp.cpp)

    Sockets are records; the ring buffers of a socket are the sequences of bytes
    that RingBuffer.v shows them to be, with the capacity of the code, and an event
    is the number of its signals.  The random numbers, the memory that the allocator
    returns and what [mac.value()] reads are arguments.  One round of the handler
    thread is a step; it takes place when [send_event] has been signalled.  [None]
    is an access past the end of a buffer. *)

From S2P Require Import Prelude Bits NetPacket Arp.

Module Tcp.
Import NetPacket Arp.

(** ** Headers *)

Definition FIN : Z := 0.
Definition SYN : Z := 1.
Definition RST : Z := 2.
Definition ACK : Z := 4.

(** [flags::F(true)], [hdr.flags & flags::F] and [flags::DATA_OFFSET]. *)
Definition flag (f : Z) : Z := Z.shiftl 1 f.
Definition has_flag (flags f : Z) : bool := negb (Z.shiftr (Z.land flags (Z.shiftl 1 f)) f =? 0).
Definition make_data_offset (n : Z) : Z := u16 (Z.shiftl n 12).
Definition data_offset (flags : Z) : Z := Z.shiftr (Z.land flags 0xF000) 12.

Record TcpHeader := mkTcp {
  src_port : Z; dest_port : Z; hdr_sequence : Z; ack_number : Z; flags : Z; window_size : Z; checksum : Z; urgent_ptr : Z }.
Definition tcp_serialize (h : TcpHeader) : TcpHeader :=
  mkTcp (to_be 2 (src_port h)) (to_be 2 (dest_port h)) (to_be 4 (hdr_sequence h)) (to_be 4 (ack_number h)) (to_be 2 (flags h)) (to_be 2 (window_size h))
    (checksum h) (to_be 2 (urgent_ptr h)).
Definition tcp_deserialize (h : TcpHeader) : TcpHeader :=
  mkTcp (to_ne_from_be 2 (src_port h)) (to_ne_from_be 2 (dest_port h)) (to_ne_from_be 4 (hdr_sequence h)) (to_ne_from_be 4 (ack_number h))
    (to_ne_from_be 2 (flags h)) (to_ne_from_be 2 (window_size h)) (checksum h) (to_ne_from_be 2 (urgent_ptr h)).
Definition set_tcp_checksum (c : Z) (h : TcpHeader) : TcpHeader :=
  mkTcp (src_port h) (dest_port h) (hdr_sequence h) (ack_number h) (flags h) (window_size h) c (urgent_ptr h).
Definition tcp_bytes (h : TcpHeader) : list Z :=
  pack [(2%nat, src_port h); (2%nat, dest_port h); (4%nat, hdr_sequence h); (4%nat, ack_number h); (2%nat, flags h); (2%nat, window_size h);
        (2%nat, checksum h); (2%nat, urgent_ptr h)].
Definition tcp_read (bs : list Z) : option TcpHeader :=
  vs ← unpack [2; 2; 4; 4; 2; 2; 2; 2]%nat bs;
  match vs with [a; b; c; d; e; f; g; h] => Some (mkTcp a b c d e f g h) | _ => None end.

Definition pseudo_bytes (src_ip dest_ip size : Z) : list Z :=
  pack [(4%nat, src_ip); (4%nat, dest_ip); (1%nat, 0); (1%nat, IP_TCP); (2%nat, to_be 2 (u16 size))].

Definition calculate_checksum (src_ip dest_ip header_size : Z) (payload : list Z) (h : TcpHeader) : TcpHeader :=
  let h := set_tcp_checksum 0 h in
  let sum := checksum_add (tcp_bytes h) 0 in
  let sum := checksum_add payload sum in
  let sum := checksum_add (pseudo_bytes src_ip dest_ip (header_size + Z.of_nat (length payload))) sum in
  set_tcp_checksum (checksum_get sum) h.

(** ** Sockets *)

Inductive State := None_ | SynAck | ReceivedFin | ReceivedSynAck | SentFin | SentSyn | Connected | Listening | Destroyed.
#[global] Instance State_eq_dec : EqDecision State.
Proof. solve_decision. Defined.

Record Connection := mkConnection { c_sequence : Z; c_target_ip : Z; c_own_ip : Z; c_target_port : Z; c_own_port : Z }.

Record Tcp4Socket := mkSock {
  state : State; sequence : Z; received_sequence : Z; own_ip : Z; own_port : Z; target_ip : Z; target_port : Z;
  send_buffer : list Z; receive_buffer : list Z; pending_connection : Connection; pending_connection_valid : bool;
  do_disconnect : bool; expect_fin_ack : bool; fin_sent : bool; listen_event : Z; send_event : Z; state_change_event : Z }.

Definition BUFFER_SIZE : Z := 1024 * 64.
Definition WINDOW : Z := 1024 * 64 - 1.

Definition new_socket : Tcp4Socket := mkSock None_ 0 0 0 0 0 0 [] [] (mkConnection 0 0 0 0 0) false false false false 0 0 0.

(** Updates of the members that the operations write. *)
Definition set_state (x : State) (s : Tcp4Socket) : Tcp4Socket :=
  mkSock x (sequence s) (received_sequence s) (own_ip s) (own_port s) (target_ip s) (target_port s) (send_buffer s) (receive_buffer s) (pending_connection s)
    (pending_connection_valid s) (do_disconnect s) (expect_fin_ack s) (fin_sent s) (listen_event s) (send_event s) (state_change_event s).
Definition set_sequence (x : Z) (s : Tcp4Socket) : Tcp4Socket :=
  mkSock (state s) x (received_sequence s) (own_ip s) (own_port s) (target_ip s) (target_port s) (send_buffer s) (receive_buffer s) (pending_connection s)
    (pending_connection_valid s) (do_disconnect s) (expect_fin_ack s) (fin_sent s) (listen_event s) (send_event s) (state_change_event s).
Definition set_received_sequence (x : Z) (s : Tcp4Socket) : Tcp4Socket :=
  mkSock (state s) (sequence s) x (own_ip s) (own_port s) (target_ip s) (target_port s) (send_buffer s) (receive_buffer s) (pending_connection s)
    (pending_connection_valid s) (do_disconnect s) (expect_fin_ack s) (fin_sent s) (listen_event s) (send_event s) (state_change_event s).
Definition set_own (i p : Z) (s : Tcp4Socket) : Tcp4Socket :=
  mkSock (state s) (sequence s) (received_sequence s) i p (target_ip s) (target_port s) (send_buffer s) (receive_buffer s) (pending_connection s)
    (pending_connection_valid s) (do_disconnect s) (expect_fin_ack s) (fin_sent s) (listen_event s) (send_event s) (state_change_event s).
Definition set_target (i p : Z) (s : Tcp4Socket) : Tcp4Socket :=
  mkSock (state s) (sequence s) (received_sequence s) (own_ip s) (own_port s) i p (send_buffer s) (receive_buffer s) (pending_connection s)
    (pending_connection_valid s) (do_disconnect s) (expect_fin_ack s) (fin_sent s) (listen_event s) (send_event s) (state_change_event s).
Definition set_send_buffer (x : list Z) (s : Tcp4Socket) : Tcp4Socket :=
  mkSock (state s) (sequence s) (received_sequence s) (own_ip s) (own_port s) (target_ip s) (target_port s) x (receive_buffer s) (pending_connection s)
    (pending_connection_valid s) (do_disconnect s) (expect_fin_ack s) (fin_sent s) (listen_event s) (send_event s) (state_change_event s).
Definition set_receive_buffer (x : list Z) (s : Tcp4Socket) : Tcp4Socket :=
  mkSock (state s) (sequence s) (received_sequence s) (own_ip s) (own_port s) (target_ip s) (target_port s) (send_buffer s) x (pending_connection s)
    (pending_connection_valid s) (do_disconnect s) (expect_fin_ack s) (fin_sent s) (listen_event s) (send_event s) (state_change_event s).
Definition set_pending (c : Connection) (v : bool) (s : Tcp4Socket) : Tcp4Socket :=
  mkSock (state s) (sequence s) (received_sequence s) (own_ip s) (own_port s) (target_ip s) (target_port s) (send_buffer s) (receive_buffer s) c
    v (do_disconnect s) (expect_fin_ack s) (fin_sent s) (listen_event s) (send_event s) (state_change_event s).
Definition set_closing (d e f : bool) (s : Tcp4Socket) : Tcp4Socket :=
  mkSock (state s) (sequence s) (received_sequence s) (own_ip s) (own_port s) (target_ip s) (target_port s) (send_buffer s) (receive_buffer s) (pending_connection s)
    (pending_connection_valid s) d e f (listen_event s) (send_event s) (state_change_event s).
Definition set_listen_event (x : Z) (s : Tcp4Socket) : Tcp4Socket :=
  mkSock (state s) (sequence s) (received_sequence s) (own_ip s) (own_port s) (target_ip s) (target_port s) (send_buffer s) (receive_buffer s) (pending_connection s)
    (pending_connection_valid s) (do_disconnect s) (expect_fin_ack s) (fin_sent s) x (send_event s) (state_change_event s).
Definition set_send_event (x : Z) (s : Tcp4Socket) : Tcp4Socket :=
  mkSock (state s) (sequence s) (received_sequence s) (own_ip s) (own_port s) (target_ip s) (target_port s) (send_buffer s) (receive_buffer s) (pending_connection s)
    (pending_connection_valid s) (do_disconnect s) (expect_fin_ack s) (fin_sent s) (listen_event s) x (state_change_event s).
Definition set_state_change_event (x : Z) (s : Tcp4Socket) : Tcp4Socket :=
  mkSock (state s) (sequence s) (received_sequence s) (own_ip s) (own_port s) (target_ip s) (target_port s) (send_buffer s) (receive_buffer s) (pending_connection s)
    (pending_connection_valid s) (do_disconnect s) (expect_fin_ack s) (fin_sent s) (listen_event s) (send_event s) x.

(** [event.signal_one()] *)
Definition signal_send (s : Tcp4Socket) : Tcp4Socket := set_send_event (u64 (send_event s + 1)) s.
Definition signal_state_change (s : Tcp4Socket) : Tcp4Socket := set_state_change_event (u64 (state_change_event s + 1)) s.

(** ** Receiving a packet *)

(** The checks on an acknowledgement: the flag and both numbers. *)
Definition good_ack (hdr : TcpHeader) (s : Tcp4Socket) : bool :=
  has_flag (flags hdr) ACK && (hdr_sequence hdr =? u32 (received_sequence s + 1)) && (ack_number hdr =? sequence s).

Definition process_packet (p : ReceivedPacket) (hdr : TcpHeader) (s : Tcp4Socket) : option Tcp4Socket :=
  if has_flag (flags hdr) RST then Some (signal_state_change (set_state None_ s))
  else if expect_fin_ack s then
    if good_ack hdr s then Some (set_closing (do_disconnect s) false true s) else Some s
  else
    match state s with
    | Listening =>
        if has_flag (flags hdr) SYN then
          if pending_connection_valid s then Some s
          else
            let s := set_pending (mkConnection (hdr_sequence hdr) (src_addr (ipv4 p)) (dest_addr (ipv4 p)) (src_port hdr) (dest_port hdr)) true s in
            Some (set_listen_event (u64 (listen_event s + 1)) s)
        else Some s
    | SynAck => if good_ack hdr s then Some (signal_state_change (set_state Connected s)) else Some s
    | SentSyn =>
        if negb (has_flag (flags hdr) SYN) || negb (has_flag (flags hdr) ACK) then Some s
        else if negb (ack_number hdr =? sequence s) then Some s
        else Some (signal_send (set_state ReceivedSynAck (set_received_sequence (hdr_sequence hdr) s)))
    | Connected =>
        if good_ack hdr s then
          let hdr_len := u16 (data_offset (flags hdr) * 4) in
          let data_len := u16 (layer2_len p - hdr_len) in
          let s := if has_flag (flags hdr) FIN
                   then set_received_sequence (u32 (received_sequence s + 1)) (signal_send (set_state ReceivedFin s)) else s in
          let s := set_received_sequence (u32 (received_sequence s + data_len)) s in
          if Z.of_nat (length (receive_buffer s)) + data_len >? BUFFER_SIZE then Some s
          else
            _ ← assert (hdr_len + data_len <=? Z.of_nat (length (raw2 p)));
            let bytes := take (Z.to_nat data_len) (drop (Z.to_nat hdr_len) (raw2 p)) in
            Some (signal_send (set_receive_buffer (receive_buffer s ++ bytes) s))
        else Some s
    | SentFin => if good_ack hdr s then Some (signal_state_change (set_state None_ s)) else Some s
    | _ => Some s
    end.

(** [tcp_process_packet]: the first socket of the connection, else the first that
    listens on the port. *)
Definition is_target (p : ReceivedPacket) (hdr : TcpHeader) (s : Tcp4Socket) : bool :=
  negb (bool_decide (state s = Listening)) && (own_ip s =? dest_addr (ipv4 p)) && (own_port s =? dest_port hdr) &&
  (target_ip s =? src_addr (ipv4 p)) && (target_port s =? src_port hdr).
Definition is_listener (hdr : TcpHeader) (s : Tcp4Socket) : bool := bool_decide (state s = Listening) && (own_port s =? dest_port hdr).

Fixpoint process_first (P : Tcp4Socket -> bool) (f : Tcp4Socket -> option Tcp4Socket) (ss : list Tcp4Socket) : option (bool * list Tcp4Socket) :=
  match ss with
  | [] => Some (false, [])
  | s :: ss =>
      if P s then s ← f s; Some (true, s :: ss)
      else '(b, ss) ← process_first P f ss; Some (b, s :: ss)
  end.

Definition tcp_process_packet (p : ReceivedPacket) (SOCKETS : list Tcp4Socket) : option (list Tcp4Socket) :=
  hdr ← tcp_read (raw2 p);
  let hdr := tcp_deserialize hdr in
  '(processed, ss) ← process_first (is_target p hdr) (process_packet p hdr) SOCKETS;
  if processed : bool then Some ss
  else '(_, ss) ← process_first (is_listener hdr) (process_packet p hdr) ss; Some ss.

(** ** Sending *)

(** A frame with a TCP header and a payload. *)
Definition tcp_frame (buffer : list Z) (nic_mac m own target : Z) (hdr : TcpHeader) (payload : list Z) : option (list Z) :=
  p ← add_ethernet nic_mac m ETHER_IPV4 (new_packet buffer);
  p ← add_ipv4 IP_TCP (u16 (20 + Z.of_nat (length payload))) own target p;
  p ← add_header (tcp_bytes (calculate_checksum own target 20 payload (tcp_serialize hdr))) p;
  p ← add_header payload p;
  Some (data p).

Definition make_header (s : Tcp4Socket) (seq ack fl : Z) : TcpHeader :=
  mkTcp (own_port s) (target_port s) seq ack (Z.lor fl (make_data_offset 5)) WINDOW 0 0.

Definition send_frame (buffer : list Z) (nic_mac m : Z) (s : Tcp4Socket) (seq ack fl : Z) (payload : list Z) : option (list Z) :=
  tcp_frame buffer nic_mac m (own_ip s) (target_ip s) (make_header s seq ack fl) payload.

(** The rounds of [handler_fn]: the socket and the frame it sends, by state. *)
Definition handle_syn_ack (buffer : list Z) (nic_mac m new_sequence : Z) (s : Tcp4Socket) : option (Tcp4Socket * option (list Z)) :=
  let s := set_sequence (u32 (new_sequence + 1)) s in
  f ← send_frame buffer nic_mac m s new_sequence (u32 (received_sequence s + 1)) (Z.lor (flag SYN) (flag ACK)) [];
  Some (s, Some f).

Definition handle_data (buffer : list Z) (nic_mac m : Z) (s : Tcp4Socket) : option (Tcp4Socket * option (list Z)) :=
  let to_send := Z.min (Z.of_nat (length (send_buffer s))) (1024 * 64 - 20 - 20) in
  let payload := take (Z.to_nat to_send) (send_buffer s) in
  let s' := set_sequence (u32 (sequence s + to_send)) (set_send_buffer (drop (Z.to_nat to_send) (send_buffer s)) s) in
  f ← send_frame buffer nic_mac m s (sequence s) (u32 (received_sequence s + 1)) (flag ACK) payload;
  Some (s', Some f).

Definition handle_disconnect (buffer : list Z) (nic_mac m : Z) (s : Tcp4Socket) : option (Tcp4Socket * option (list Z)) :=
  f ← send_frame buffer nic_mac m s (sequence s) (u32 (received_sequence s + 1)) (Z.lor (flag ACK) (flag FIN)) [];
  Some (set_closing false true (fin_sent s) (set_sequence (u32 (sequence s + 1)) s), Some f).

Definition handle_ack (buffer : list Z) (nic_mac m : Z) (s : Tcp4Socket) : option (Tcp4Socket * option (list Z)) :=
  f ← send_frame buffer nic_mac m s (sequence s) (u32 (received_sequence s + 1)) (flag ACK) [];
  Some (s, Some f).

Definition handle_received_fin (buffer : list Z) (nic_mac m : Z) (s : Tcp4Socket) : option (Tcp4Socket * option (list Z)) :=
  let fl := if fin_sent s then flag ACK else Z.lor (flag ACK) (flag FIN) in
  f ← send_frame buffer nic_mac m s (sequence s) (u32 (received_sequence s + 1)) fl [];
  let s' := set_sequence (u32 (sequence s + 1)) s in
  Some (if fin_sent s then signal_state_change (set_state None_ s') else set_state SentFin s', Some f).

Definition handle_received_syn_ack (buffer : list Z) (nic_mac m : Z) (s : Tcp4Socket) : option (Tcp4Socket * option (list Z)) :=
  f ← send_frame buffer nic_mac m s (sequence s) (u32 (received_sequence s + 1)) (flag ACK) [];
  Some (signal_state_change (set_state Connected s), Some f).

(** One round of [handler_fn]; [new_sequence] is the random number. *)
Definition handler (buffer : list Z) (nic_mac m new_sequence : Z) (s : Tcp4Socket) : option (Tcp4Socket * option (list Z)) :=
  let s := set_send_event (send_event s - 1) s in
  match state s with
  | SynAck => handle_syn_ack buffer nic_mac m new_sequence s
  | Connected =>
      if bool_decide (send_buffer s <> []) then handle_data buffer nic_mac m s
      else if do_disconnect s then handle_disconnect buffer nic_mac m s
      else handle_ack buffer nic_mac m s
  | ReceivedFin => handle_received_fin buffer nic_mac m s
  | ReceivedSynAck => handle_received_syn_ack buffer nic_mac m s
  | Destroyed => Some (signal_state_change s, None)
  | _ => Some (s, None)
  end.

(** ** The calls of a program *)

Definition ERR_UNSUPPORTED : Z := -0x1000 + 2.
Definition ERR_TRY_AGAIN : Z := -0x1000 + 6.
Definition ERR_NO_ROUTE_TO_HOST : Z := -0x1000 + 10.
Definition ERR_CONNECTION_CLOSED : Z := -0x1000 + 11.

(** [connect] up to its wait: an error, or the frame that is sent. *)
Definition connect (buffer : list Z) (nics : list Nic) (is_ipv4 : bool) (addr port : Z) (random_port new_sequence : Z) (arp : option Z) (s : Tcp4Socket) :
    option (Z + Tcp4Socket * list Z) :=
  if negb is_ipv4 then Some (inl ERR_UNSUPPORTED)
  else
    match nics with
    | [] => Some (inl ERR_NO_ROUTE_TO_HOST)
    | nic :: _ =>
        let s := set_sequence (u32 (new_sequence + 1)) s in
        match arp with
        | None => Some (inl ERR_NO_ROUTE_TO_HOST)
        | Some m =>
            let s := set_target addr port (set_own (ip nic) random_port s) in
            f ← send_frame buffer (mac nic) m s new_sequence 0 (flag SYN) [];
            Some (inr (set_state SentSyn s, f))
        end
    end.

(** The loop at the end of [connect]: [None] is to wait on. *)
Definition connect_result (s : Tcp4Socket) : option Z :=
  match state s with None_ => Some ERR_TRY_AGAIN | Connected => Some 0 | _ => None end.

Definition listen (port : Z) (s : Tcp4Socket) : Tcp4Socket := set_state Listening (set_own (own_ip s) (u16 port) (set_listen_event 0 s)).
(** After its wait. *)
Definition listen_done (s : Tcp4Socket) : Tcp4Socket := set_state None_ (set_listen_event (listen_event s - 1) s).

(** [accept] up to its wait: the listening socket and the new one. *)
Definition accept (s : Tcp4Socket) : Z + Tcp4Socket * Tcp4Socket :=
  if negb (pending_connection_valid s) then inl ERR_TRY_AGAIN
  else
    let c := pending_connection s in
    let n := set_received_sequence (c_sequence c) (set_target (c_target_ip c) (c_target_port c) (set_own (c_own_ip c) (c_own_port c) (set_state SynAck new_socket))) in
    inr (set_pending c false s, signal_send n).

(** [send] on a socket that does not block: the code and how much was taken. *)
Definition send (bytes : list Z) (s : Tcp4Socket) : Z * Z * Tcp4Socket :=
  match state s with
  | Connected =>
      let n := Z.min (Z.of_nat (length bytes)) (BUFFER_SIZE - Z.of_nat (length (send_buffer s))) in
      (0, n, signal_send (set_send_buffer (send_buffer s ++ take (Z.to_nat n) bytes) s))
  | _ => (ERR_CONNECTION_CLOSED, Z.of_nat (length bytes), s)
  end.

(** [receive] on a socket that does not block. *)
Definition receive (size : Z) (s : Tcp4Socket) : Z * list Z * Tcp4Socket :=
  let n := Z.to_nat (Z.min size (Z.of_nat (length (receive_buffer s)))) in
  let bytes := take n (receive_buffer s) in
  let s' := set_receive_buffer (drop n (receive_buffer s)) s in
  if bool_decide (bytes = []) then
    (if bool_decide (state s = Connected) then ERR_TRY_AGAIN else ERR_CONNECTION_CLOSED, bytes, s')
  else (0, bytes, s').

(** [disconnect] up to its wait for [state == None]. *)
Definition disconnect (s : Tcp4Socket) : Tcp4Socket :=
  match state s with Connected => signal_send (set_closing true (expect_fin_ack s) (fin_sent s) s) | _ => s end.

Definition get_peer_name (s : Tcp4Socket) : Z + Z * Z :=
  match state s with Connected => inr (target_ip s, target_port s) | _ => inl ERR_CONNECTION_CLOSED end.

End Tcp.
