(* ===== verification/TcpRun.v ===== *)
(** * TCP between two hosts

    Frames that one socket sends and the other receives: what the receiver does is
    a function of the flags, the numbers and the payload of the segment.  On this
    rest the claims on connections. *)

From S2P Require Import Prelude Bits NetPacket Arp Tcp.

Module TcpRun.
Import NetPacket Arp Tcp.

(** ** Headers *)

Definition tcp_fit (h : TcpHeader) : Prop :=
  fits 16 (src_port h) /\ fits 16 (dest_port h) /\ fits 32 (hdr_sequence h) /\ fits 32 (ack_number h) /\ fits 16 (flags h) /\ fits 16 (window_size h) /\
  fits 16 (checksum h) /\ fits 16 (urgent_ptr h).

Lemma tcp_read_bytes h rest : tcp_fit h -> tcp_read (tcp_bytes h ++ rest) = Some h.
Proof.
  intros (H1 & H2 & H3 & H4 & H5 & H6 & H7 & H8). unfold tcp_read, tcp_bytes.
  match goal with |- context [pack ?fs] => pose proof (unpack_pack fs rest) as E end.
  cbn [fmap list_fmap fst snd] in E. rewrite E by fit_fields. by destruct h.
Qed.

Lemma tcp_ser_fit h : tcp_fit h -> tcp_fit (tcp_serialize h).
Proof.
  intros (H1 & H2 & H3 & H4 & H5 & H6 & H7 & H8). unfold tcp_fit.
  cbn [tcp_serialize src_port dest_port hdr_sequence ack_number flags window_size checksum urgent_ptr]. split_and!; auto using to_be2_fits, to_be4_fits.
Qed.

Lemma set_tcp_checksum_fit c h : tcp_fit h -> fits 16 c -> tcp_fit (set_tcp_checksum c h).
Proof. intros (H1 & H2 & H3 & H4 & H5 & H6 & _ & H8) Hc. by split_and!. Qed.

Lemma set_tcp_checksum_deser c h : tcp_fit h -> tcp_deserialize (set_tcp_checksum c (tcp_serialize h)) = set_tcp_checksum c h.
Proof.
  intros (H1 & H2 & H3 & H4 & H5 & H6 & _ & H8). unfold tcp_deserialize, tcp_serialize, set_tcp_checksum.
  cbn [src_port dest_port hdr_sequence ack_number flags window_size checksum urgent_ptr]. by rewrite !to_ne2_to_be, !to_ne4_to_be.
Qed.

Lemma calculate_checksum_is a b n payload h : exists c, fits 16 c /\ calculate_checksum a b n payload h = set_tcp_checksum c h.
Proof. eexists. split; [|unfold calculate_checksum; cbn zeta; reflexivity]. apply checksum_get_fits. Qed.

Lemma length_tcp_bytes h : length (tcp_bytes h) = 20%nat.
Proof. unfold tcp_bytes. by rewrite length_pack. Qed.

(** ** The checksum *)

Definition tcp_pre (h : TcpHeader) : list Z :=
  pack [(2%nat, src_port h); (2%nat, dest_port h); (4%nat, hdr_sequence h); (4%nat, ack_number h); (2%nat, flags h); (2%nat, window_size h)].

Lemma tcp_wsum c h : fits 16 c -> wsum (tcp_bytes (set_tcp_checksum c h)) = wsum (tcp_pre h ++ le_bytes 2 (urgent_ptr h)) + c.
Proof.
  intros Hc. assert (E : tcp_bytes (set_tcp_checksum c h) = tcp_pre h ++ le_bytes 2 c ++ le_bytes 2 (urgent_ptr h)).
  { unfold tcp_bytes, tcp_pre. cbn [pack src_port dest_port hdr_sequence ack_number flags window_size checksum urgent_ptr set_tcp_checksum].
    rewrite !app_nil_r, <- !app_assoc. done. }
  assert (Hl : Nat.odd (length (tcp_pre h)) = false) by (unfold tcp_pre; by rewrite length_pack).
  rewrite E, !(wsum_app (tcp_pre h)) by done. rewrite (wsum_app (le_bytes 2 c)) by (by rewrite length_le_bytes). rewrite wsum_le2 by done. lia.
Qed.

(** The sum a receiver forms. *)
Definition segment_sum (src_ip dest_ip : Z) (h : TcpHeader) (payload : list Z) : Z :=
  checksum_add (pseudo_bytes src_ip dest_ip (20 + Z.of_nat (length payload))) (checksum_add payload (checksum_add (tcp_bytes h) 0)).

Lemma segment_sum_is a b c h payload : fits 16 c ->
  segment_sum a b (set_tcp_checksum c h) payload =
  u32 (wsum (tcp_pre h ++ le_bytes 2 (urgent_ptr h)) + wsum payload + wsum (pseudo_bytes a b (20 + Z.of_nat (length payload))) + c).
Proof.
  intros Hc. unfold segment_sum. rewrite (checksum_add_wsum (tcp_bytes _)), tcp_wsum by done.
  rewrite (checksum_add_wsum payload) by apply u32_bound. rewrite checksum_add_wsum by apply u32_bound.
  rewrite Z.add_0_l. rewrite u32_add_l, <- Z.add_assoc, u32_add_l. f_equal. lia.
Qed.

(** What [calculate_checksum] writes into the header makes the sum over the
    pseudo header, the header and the payload 0, for payloads of any parity. *)
Theorem tcp_checksum_verifies (src_ip dest_ip : Z) (payload : list Z) (h : TcpHeader) : byte_list payload -> Z.of_nat (length payload) < 2 ^ 16 ->
  checksum_get (segment_sum src_ip dest_ip (calculate_checksum src_ip dest_ip 20 payload h) payload) = 0.
Proof.
  intros HB Hl. unfold calculate_checksum. cbn zeta. fold (segment_sum src_ip dest_ip (set_tcp_checksum 0 h) payload).
  set (c := checksum_get (segment_sum src_ip dest_ip (set_tcp_checksum 0 h) payload)). assert (Hc : fits 16 c) by apply checksum_get_fits.
  change (set_tcp_checksum c (set_tcp_checksum 0 h)) with (set_tcp_checksum c h). rewrite segment_sum_is by done.
  set (z := wsum (tcp_pre h ++ le_bytes 2 (urgent_ptr h)) + wsum payload + wsum (pseudo_bytes src_ip dest_ip (20 + Z.of_nat (length payload)))).
  assert (Hz : 0 <= z <= 65535 * (9 + 32769 + 6)).
  { pose proof (wsum_bound (tcp_pre h ++ le_bytes 2 (urgent_ptr h)) ltac:(apply Forall_app; split; [apply pack_bytes|apply le_bytes_range])) as B1.
    pose proof (wsum_bound payload HB) as B2. pose proof (wsum_bound (pseudo_bytes src_ip dest_ip (20 + Z.of_nat (length payload))) ltac:(apply pack_bytes)) as B3.
    assert (L1 : length (tcp_pre h ++ le_bytes 2 (urgent_ptr h)) = 18%nat) by (rewrite length_app; unfold tcp_pre; by rewrite length_pack).
    assert (L3 : length (pseudo_bytes src_ip dest_ip (20 + Z.of_nat (length payload))) = 12%nat) by (unfold pseudo_bytes; by rewrite length_pack).
    rewrite L1 in B1. rewrite L3 in B3. change ((Z.of_nat 18 + 1) / 2) with 9 in B1. change ((Z.of_nat 12 + 1) / 2) with 6 in B3.
    assert ((Z.of_nat (length payload) + 1) / 2 <= 32769) by (apply Z.div_le_upper_bound; lia). unfold z. lia. }
  assert (Ec : c = checksum_get z).
  { unfold c. rewrite segment_sum_is by done. fold z. by rewrite Z.add_0_r, u32_small by lia. }
  rewrite Ec. apply checksum_verifies; lia.
Qed.

Lemma tcp_checksum_verifies_witness :
  checksum_get (segment_sum 0x0100000A 0x0200000A (calculate_checksum 0x0100000A 0x0200000A 20 [1; 2; 3] (mkTcp 80 1000 5 6 0x5010 7 0 0)) [1; 2; 3]) = 0.
Proof. apply (tcp_checksum_verifies 0x0100000A 0x0200000A [1; 2; 3] (mkTcp 80 1000 5 6 0x5010 7 0 0)); [repeat constructor; lia|reflexivity]. Defined.

(** ** Segments *)

(** The flags that are sent. *)
Definition seg_flags : list Z := [flag SYN; flag ACK; Z.lor (flag SYN) (flag ACK); Z.lor (flag ACK) (flag FIN)].

Lemma seg_flags_ok fl : fl ∈ seg_flags -> data_offset (Z.lor fl (make_data_offset 5)) = 5 /\ fits 16 (Z.lor fl (make_data_offset 5)) /\
  forall f, f ∈ [FIN; SYN; RST; ACK] -> has_flag (Z.lor fl (make_data_offset 5)) f = has_flag fl f.
Proof.
  unfold seg_flags. rewrite !elem_of_cons, elem_of_nil. intros Hfl.
  assert (Hf : forall P : Z -> Prop, P FIN -> P SYN -> P RST -> P ACK -> forall f, f ∈ [FIN; SYN; RST; ACK] -> P f).
  { intros P P1 P2 P3 P4 f. rewrite !elem_of_cons, elem_of_nil. naive_solver. }
  repeat destruct Hfl as [->|Hfl]; try done; (split_and!; [reflexivity|done|]; by apply Hf).
Qed.

(** The connection a segment belongs to, as its sender sees it. *)
Record path := mkPath { from_ip : Z; to_ip : Z; from_port : Z; to_port : Z }.
Definition path_of (s : Tcp4Socket) : path := mkPath (own_ip s) (target_ip s) (own_port s) (target_port s).
Definition path_fit (c : path) : Prop := fits 32 (from_ip c) /\ fits 32 (to_ip c) /\ fits 16 (from_port c) /\ fits 16 (to_port c).

Definition carries (f : list Z) (c : path) (fl seq ack : Z) (payload : list Z) : Prop :=
  exists p h, ethernet_process_packet f = Some (ToTcp p) /\ tcp_read (raw2 p) = Some h /\
    src_port (tcp_deserialize h) = from_port c /\ dest_port (tcp_deserialize h) = to_port c /\
    hdr_sequence (tcp_deserialize h) = seq /\ ack_number (tcp_deserialize h) = ack /\ flags (tcp_deserialize h) = Z.lor fl (make_data_offset 5) /\
    layer2_len p = 20 + Z.of_nat (length payload) /\ drop 20 (raw2 p) = payload /\ length (raw2 p) = (20 + length payload)%nat /\
    src_addr (ipv4 p) = from_ip c /\ dest_addr (ipv4 p) = to_ip c.

Lemma send_frame_ok buffer nic_mac m s seq ack fl payload :
  path_fit (path_of s) -> fits 48 nic_mac -> fits 48 m -> fits 32 seq -> fits 32 ack -> fl ∈ seg_flags ->
  Z.of_nat (length payload) < 65496 -> length buffer = (54 + length payload)%nat ->
  exists f, send_frame buffer nic_mac m s seq ack fl payload = Some f /\ carries f (path_of s) fl seq ack payload.
Proof.
  intros (F1 & F2 & F3 & F4) Hnm Hm Hs Ha Hfl Hlen Hbuf. destruct (seg_flags_ok fl Hfl) as (_ & Hff & _). cbn [path_of from_ip to_ip from_port to_port] in *.
  assert (Hb : Built [] (54 + length payload) (new_packet buffer)) by (rewrite <- Hbuf; apply built_new; lia).
  set (hdr := make_header s seq ack fl). assert (HF : tcp_fit hdr) by (by split_and!).
  unfold send_frame, tcp_frame. fold hdr. set (sz := 20 + Z.of_nat (length payload)). rewrite u16_small by (unfold sz; lia).
  destruct (calculate_checksum_is (own_ip s) (target_ip s) 20 payload (tcp_serialize hdr)) as (c & Hc & ->).
  set (h := set_tcp_checksum c (tcp_serialize hdr)). assert (Hh : tcp_fit h) by (apply set_tcp_checksum_fit; [by apply tcp_ser_fit|done]).
  destruct (add_ethernet_built [] (40 + length payload) _ nic_mac m ETHER_IPV4 Hb) as (p1 & -> & Hb1). cbn [mbind option_bind].
  destruct (add_ipv4_built _ (20 + length payload) p1 IP_TCP sz (own_ip s) (target_ip s) Hb1) as (p2 & -> & Hb2). cbn [mbind option_bind].
  rewrite <- (length_tcp_bytes h) in Hb2. destruct (add_header_built _ (length payload) p2 (tcp_bytes h) Hb2) as (p3 & -> & Hb3). cbn [mbind option_bind].
  rewrite <- (Nat.add_0_r (length payload)) in Hb3. destruct (add_header_built _ 0 p3 payload Hb3) as (p4 & -> & Hb4). cbn [mbind option_bind].
  exists (data p4). split; [done|]. set (body := tcp_bytes h ++ payload).
  assert (Ef : data p4 = eth_wire nic_mac m ETHER_IPV4 ++ ipv4_wire IP_TCP sz (own_ip s) (target_ip s) ++ body).
  { rewrite (built_full _ _ Hb4). unfold body. by rewrite <- !app_assoc. }
  exists (seen nic_mac m IP_TCP sz (own_ip s) (target_ip s) body), h. rewrite Ef, frame_received by (done || unfold sz; lia).
  change (IP_TCP =? IP_TCP) with true. cbn match zeta. unfold seen. cbn [raw2 layer2_len ipv4].
  assert (El : length body = (20 + length payload)%nat) by (unfold body; by rewrite length_app, length_tcp_bytes).
  unfold h at 2 3 4 5 6. rewrite set_tcp_checksum_deser by done. split_and!; try done.
  unfold body. by apply tcp_read_bytes.
Qed.

(** ** Receiving a segment *)

Definition deliver (f : list Z) (ss : list Tcp4Socket) : option (list Tcp4Socket) :=
  d ← ethernet_process_packet f;
  match d with ToTcp p => tcp_process_packet p ss | _ => Some ss end.

Definition acks (fl seq ack : Z) (t : Tcp4Socket) : bool :=
  has_flag fl ACK && (seq =? u32 (received_sequence t + 1)) && (ack =? sequence t).

(** What a socket that does not listen does with a segment. *)
Definition on_segment (fl seq ack : Z) (payload : list Z) (t : Tcp4Socket) : Tcp4Socket :=
  if expect_fin_ack t then if acks fl seq ack t then set_closing (do_disconnect t) false true t else t
  else
    match state t with
    | SynAck => if acks fl seq ack t then signal_state_change (set_state Connected t) else t
    | SentSyn =>
        if has_flag fl SYN && has_flag fl ACK && (ack =? sequence t)
        then signal_send (set_state ReceivedSynAck (set_received_sequence seq t)) else t
    | Connected =>
        if acks fl seq ack t then
          let t := if has_flag fl FIN then set_received_sequence (u32 (received_sequence t + 1)) (signal_send (set_state ReceivedFin t)) else t in
          let t := set_received_sequence (u32 (received_sequence t + Z.of_nat (length payload))) t in
          if Z.of_nat (length (receive_buffer t) + length payload) >? BUFFER_SIZE then t
          else signal_send (set_receive_buffer (receive_buffer t ++ payload) t)
        else t
    | SentFin => if acks fl seq ack t then signal_state_change (set_state None_ t) else t
    | _ => t
    end.

(** [t] is the other end of [c]. *)
Definition ends (c : path) (t : Tcp4Socket) : Prop :=
  own_ip t = to_ip c /\ target_ip t = from_ip c /\ own_port t = to_port c /\ target_port t = from_port c.

Lemma deliver_ok f c fl seq ack payload t : carries f c fl seq ack payload -> fl ∈ seg_flags -> ends c t -> state t <> Listening ->
  Z.of_nat (length payload) < 65496 -> deliver f [t] = Some [on_segment fl seq ack payload t].
Proof.
  intros (p & h & Ep & Er & E1 & E2 & E3 & E4 & E5 & E6 & E7 & E8 & E9 & E10) Hfl (T1 & T2 & T3 & T4) Hst Hlen.
  destruct (seg_flags_ok fl Hfl) as (Hoff & _ & Hflag). unfold deliver. rewrite Ep. cbn [mbind option_bind]. unfold tcp_process_packet. rewrite Er.
  cbn [mbind option_bind]. cbn zeta. set (hdr := tcp_deserialize h) in *. cbn [process_first].
  assert (Et : is_target p hdr t = true).
  { unfold is_target. rewrite bool_decide_false by done. rewrite T1, T2, T3, T4, E1, E2, E9, E10, !Z.eqb_refl. done. }
  rewrite Et. assert (EP : process_packet p hdr t = Some (on_segment fl seq ack payload t)); [|by rewrite EP].
  assert (Hg : good_ack hdr t = acks fl seq ack t) by (unfold good_ack, acks; rewrite E5, E3, E4, Hflag by set_solver; done).
  unfold process_packet. rewrite E5, !Hflag by set_solver. assert (Hr : has_flag fl RST = false).
  { revert Hfl. unfold seg_flags. rewrite !elem_of_cons, elem_of_nil. intros Hfl. repeat destruct Hfl as [->|Hfl]; done. }
  rewrite Hr, Hg, E3, E4, E6. unfold on_segment. destruct (expect_fin_ack t); [by destruct (acks fl seq ack t)|].
  destruct (state t); try done; [by destruct (acks _ _ _ _)|by destruct (acks _ _ _ _)| |].
  - destruct (has_flag fl SYN), (has_flag fl ACK); cbn [negb orb andb]; try done. by destruct (ack =? sequence t).
  - destruct (acks fl seq ack t); [|done]. rewrite Hoff. change (u16 (5 * 4)) with 20. replace (20 + Z.of_nat (length payload) - 20) with (Z.of_nat (length payload)) by lia.
    rewrite (u16_small (Z.of_nat (length payload))) by lia. cbn zeta. rewrite E8.
    rewrite (proj2 (Z.leb_le (20 + Z.of_nat (length payload)) _)) by lia. rewrite Nat2Z.id. change (Z.to_nat 20) with 20%nat. rewrite E7, firstn_all.
    rewrite Nat2Z.inj_add. by destruct (_ >? BUFFER_SIZE).
Qed.

(** A listening socket before the one of the connection is passed over. *)
Lemma deliver_behind f c fl seq ack payload l t : carries f c fl seq ack payload -> state l = Listening -> ends c t -> state t <> Listening ->
  deliver f [l; t] = '(ss) ← deliver f [t]; Some (l :: ss).
Proof.
  intros (p & h & Ep & Er & E1 & E2 & E3 & E4 & E5 & E6 & E7 & E8 & E9 & E10) Hl (T1 & T2 & T3 & T4) Hst. unfold deliver. rewrite Ep. cbn [mbind option_bind].
  unfold tcp_process_packet. rewrite Er. cbn [mbind option_bind]. cbn zeta. cbn [process_first]. set (hdr := tcp_deserialize h) in *.
  assert (El : is_target p hdr l = false) by (unfold is_target; by rewrite bool_decide_true).
  assert (Et : is_target p hdr t = true).
  { unfold is_target. rewrite bool_decide_false by done. rewrite T1, T2, T3, T4, E1, E2, E9, E10, !Z.eqb_refl. done. }
  rewrite El, Et. by destruct (process_packet p hdr t).
Qed.

Lemma deliver_listener f c seq ack l : carries f c (flag SYN) seq ack [] -> state l = Listening -> own_port l = to_port c ->
  expect_fin_ack l = false -> pending_connection_valid l = false ->
  deliver f [l] = Some [set_listen_event (u64 (listen_event l + 1)) (set_pending (mkConnection seq (from_ip c) (to_ip c) (from_port c) (to_port c)) true l)].
Proof.
  intros (p & h & Ep & Er & E1 & E2 & E3 & E4 & E5 & E6 & E7 & E8 & E9 & E10) Hl Hp He Hv. unfold deliver. rewrite Ep. cbn [mbind option_bind].
  unfold tcp_process_packet. rewrite Er. cbn [mbind option_bind]. cbn zeta. cbn [process_first]. set (hdr := tcp_deserialize h) in *.
  assert (Et : is_target p hdr l = false) by (unfold is_target; by rewrite bool_decide_true).
  assert (El : is_listener hdr l = true) by (unfold is_listener; rewrite bool_decide_true by done; by rewrite Hp, E2, Z.eqb_refl).
  rewrite Et. cbn [mbind option_bind process_first]. rewrite El. unfold process_packet. rewrite E5, He, Hl, Hv.
  change (has_flag (Z.lor (flag SYN) (make_data_offset 5)) RST) with false. change (has_flag (Z.lor (flag SYN) (make_data_offset 5)) SYN) with true. cbn match zeta.
  by rewrite E1, E2, E3, E9, E10.
Qed.

End TcpRun.
