(* ===== verification/TcpCorrect.v ===== *)
(** * What TCP connections do

    The claims on connections between two sockets of this kernel: how they come
    about, how data gets across, and where the protocol goes wrong. *)

From S2P Require Import Prelude Bits NetPacket Arp Tcp TcpRun.

Module TcpCorrect.
Import NetPacket Arp Tcp TcpRun.

(** ** Two ends *)

Definition seq_fit (s : Tcp4Socket) : Prop := fits 32 (sequence s) /\ fits 32 (received_sequence s).

(** Both ends are connected, to each other, and agree on the numbers. *)
Record Synced (a b : Tcp4Socket) : Prop := mkSynced {
  sy_a : state a = Connected; sy_b : state b = Connected; sy_ends : ends (path_of a) b; sy_path : path_fit (path_of a);
  sy_fit_a : seq_fit a; sy_fit_b : seq_fit b;
  sy_ab : sequence a = u32 (received_sequence b + 1); sy_ba : sequence b = u32 (received_sequence a + 1);
  sy_ea : expect_fin_ack a = false; sy_eb : expect_fin_ack b = false }.

Lemma synced_sym a b : Synced a b -> Synced b a.
Proof.
  intros [H1 H2 (E1 & E2 & E3 & E4) (F1 & F2 & F3 & F4) H5 H6 H7 H8 H9 H10]. cbn [path_of from_ip to_ip from_port to_port] in *.
  split; try done; split_and!; cbn [path_of from_ip to_ip from_port to_port]; congruence.
Qed.

Lemma acks_synced a b fl : Synced a b -> has_flag fl ACK = true -> acks fl (sequence a) (u32 (received_sequence a + 1)) b = true.
Proof. intros [_ _ _ _ _ _ H7 H8 _ _] Hf. unfold acks. by rewrite Hf, <- H7, <- H8, !Z.eqb_refl. Qed.

Lemma u32_fits z : fits 32 (u32 z).
Proof. apply u32_bound. Qed.
#[local] Hint Resolve u32_fits : core.

(** Reads the members of an updated socket. *)
Ltac sock := cbn [state sequence received_sequence own_ip own_port target_ip target_port send_buffer receive_buffer pending_connection pending_connection_valid
  do_disconnect expect_fin_ack fin_sent listen_event send_event state_change_event
  set_state set_sequence set_received_sequence set_own set_target set_send_buffer set_receive_buffer set_pending set_closing set_listen_event set_send_event
  set_state_change_event signal_send signal_state_change].

(** ** Segments at a connected socket *)

(** The segment is in order and there is room for it. *)
Lemma deliver_data f a b fl payload : Synced a b -> carries f (path_of a) fl (sequence a) (u32 (received_sequence a + 1)) payload ->
  fl = flag ACK -> Z.of_nat (length payload) < 65496 -> Z.of_nat (length (receive_buffer b) + length payload) <= BUFFER_SIZE ->
  deliver f [b] = Some [signal_send (set_receive_buffer (receive_buffer b ++ payload)
    (set_received_sequence (u32 (received_sequence b + Z.of_nat (length payload))) b))].
Proof.
  intros HS HC -> Hl Hroom. rewrite (deliver_ok f _ _ _ _ _ b HC) by (set_solver || apply HS || rewrite (sy_b _ _ HS); done || done).
  unfold on_segment. rewrite (sy_eb _ _ HS), (sy_b _ _ HS), (acks_synced a b (flag ACK)) by done. change (has_flag (flag ACK) FIN) with false. cbn match zeta. sock.
  destruct (_ >? BUFFER_SIZE) eqn:E; bool_to_prop; [lia|]. done.
Qed.

(** The state of both ends after a segment with [n] bytes. *)
Lemma synced_after a b n a' b' : Synced a b -> sequence a' = u32 (sequence a + n) -> received_sequence b' = u32 (received_sequence b + n) ->
  state a' = state a -> state b' = state b -> path_of a' = path_of a -> path_of b' = path_of b -> received_sequence a' = received_sequence a ->
  sequence b' = sequence b -> expect_fin_ack a' = false -> expect_fin_ack b' = false -> Synced a' b'.
Proof.
  intros [H1 H2 H3 H4 [H5 H5'] [H6 H6'] H7 H8 H9 H10] E1 E2 E3 E4 E5 E6 E7 E8 E9 E10. split; try congruence.
  - unfold ends in *. rewrite E5. unfold path_of in E6. injection E6 as -> -> -> ->. done.
  - split; [rewrite E1; apply u32_fits|by rewrite E7].
  - split; [by rewrite E8|rewrite E2; apply u32_fits].
  - rewrite E1, E2, H7, u32_add_l, u32_add_l. f_equal. lia.
Qed.

(** The interfaces and the memory. *)
Section Link.
Context (alloc : nat -> list Z) (Halloc : forall n, length (alloc n) = n).

(** The size of the packet that a round of the handler builds. *)
Definition frame_size (s : Tcp4Socket) : nat :=
  (54 + match state s with Connected => Nat.min (length (send_buffer s)) (Z.to_nat (1024 * 64 - 20 - 20)) | _ => 0 end)%nat.

Definition round (m1 m2 rnd : Z) (s : Tcp4Socket) : option (Tcp4Socket * option (list Z)) := handler (alloc (frame_size s)) m1 m2 rnd s.

(** *** The rounds of a connected socket *)

Lemma round_data m1 m2 rnd a : fits 48 m1 -> fits 48 m2 -> state a = Connected -> path_fit (path_of a) -> seq_fit a ->
  send_buffer a <> [] -> Z.of_nat (length (send_buffer a)) < 65496 ->
  exists f, round m1 m2 rnd a = Some (set_sequence (u32 (sequence a + Z.of_nat (length (send_buffer a)))) (set_send_buffer [] (set_send_event (send_event a - 1) a)), Some f) /\
    carries f (path_of a) (flag ACK) (sequence a) (u32 (received_sequence a + 1)) (send_buffer a).
Proof.
  intros H1 H2 Hst Hp [Hs Hr] Hne Hlen. unfold round, handler, handle_syn_ack, handle_data, handle_disconnect, handle_ack, handle_received_fin, handle_received_syn_ack, frame_size. rewrite Hst. sock. rewrite Hst. rewrite bool_decide_true by done. cbn zeta. rewrite Z.min_l by lia. rewrite Nat2Z.id, firstn_all, drop_all.
  destruct (send_frame_ok (alloc (54 + Nat.min (length (send_buffer a)) (Z.to_nat (1024 * 64 - 20 - 20)))) m1 m2 (set_send_event (send_event a - 1) a) (sequence a)
    (u32 (received_sequence a + 1)) (flag ACK) (send_buffer a)) as (f & E & HC); [done|done|done|done|done|set_solver|done|rewrite Halloc; lia|].
  rewrite E. cbn [mbind option_bind]. by exists f.
Qed.

Lemma round_ack m1 m2 rnd a : fits 48 m1 -> fits 48 m2 -> state a = Connected -> path_fit (path_of a) -> seq_fit a ->
  send_buffer a = [] -> do_disconnect a = false ->
  exists f, round m1 m2 rnd a = Some (set_send_event (send_event a - 1) a, Some f) /\
    carries f (path_of a) (flag ACK) (sequence a) (u32 (received_sequence a + 1)) [].
Proof.
  intros H1 H2 Hst Hp [Hs Hr] He Hd. unfold round, handler, handle_syn_ack, handle_data, handle_disconnect, handle_ack, handle_received_fin, handle_received_syn_ack, frame_size. rewrite Hst. sock. rewrite Hst, He. rewrite bool_decide_false by (by intros []). rewrite Hd.
  destruct (send_frame_ok (alloc (54 + Nat.min 0 (Z.to_nat (1024 * 64 - 20 - 20)))) m1 m2 (set_send_event (send_event a - 1) a) (sequence a)
    (u32 (received_sequence a + 1)) (flag ACK) []) as (f & E & HC); [done|done|done|done|done|set_solver|done|rewrite Halloc; simpl; lia|].
  cbn [length]. rewrite E. cbn [mbind option_bind]. by exists f.
Qed.

Lemma round_fin m1 m2 rnd a : fits 48 m1 -> fits 48 m2 -> state a = Connected -> path_fit (path_of a) -> seq_fit a ->
  send_buffer a = [] -> do_disconnect a = true ->
  exists f, round m1 m2 rnd a = Some (set_closing false true (fin_sent a) (set_sequence (u32 (sequence a + 1)) (set_send_event (send_event a - 1) a)), Some f) /\
    carries f (path_of a) (Z.lor (flag ACK) (flag FIN)) (sequence a) (u32 (received_sequence a + 1)) [].
Proof.
  intros H1 H2 Hst Hp [Hs Hr] He Hd. unfold round, handler, handle_syn_ack, handle_data, handle_disconnect, handle_ack, handle_received_fin, handle_received_syn_ack, frame_size. rewrite Hst. sock. rewrite Hst, He. rewrite bool_decide_false by (by intros []). rewrite Hd.
  destruct (send_frame_ok (alloc (54 + Nat.min 0 (Z.to_nat (1024 * 64 - 20 - 20)))) m1 m2 (set_send_event (send_event a - 1) a) (sequence a)
    (u32 (received_sequence a + 1)) (Z.lor (flag ACK) (flag FIN)) []) as (f & E & HC); [done|done|done|done|done|set_solver|done|rewrite Halloc; simpl; lia|].
  cbn [length]. rewrite E. cbn [mbind option_bind]. by exists f.
Qed.

(** A round in a state that is not [Connected] and sends a header only. *)
Lemma round_other m1 m2 s seq ack fl : fits 48 m1 -> fits 48 m2 -> path_fit (path_of s) -> fits 32 seq -> fits 32 ack -> fl ∈ seg_flags ->
  exists f, send_frame (alloc 54) m1 m2 s seq ack fl [] = Some f /\ carries f (path_of s) fl seq ack [].
Proof. intros. apply send_frame_ok; done || by rewrite Halloc. Qed.

(** One message: it is put into the send buffer, the handler sends it, and it is
    received. *)
Definition transmit (m1 m2 : Z) (msg : list Z) (a b : Tcp4Socket) : option (Tcp4Socket * Tcp4Socket) :=
  let '(_, _, a) := send msg a in
  '(a, f) ← round m1 m2 0 a;
  f ← f;
  ss ← deliver f [b];
  b ← head ss;
  Some (a, b).

Lemma transmit_ok m1 m2 msg a b : fits 48 m1 -> fits 48 m2 -> Synced a b -> send_buffer a = [] -> msg <> [] -> Z.of_nat (length msg) < 65496 ->
  Z.of_nat (length (receive_buffer b) + length msg) <= BUFFER_SIZE ->
  exists a' b', transmit m1 m2 msg a b = Some (a', b') /\ Synced a' b' /\ send_buffer a' = [] /\ receive_buffer b' = receive_buffer b ++ msg.
Proof.
  intros H1 H2 HS He Hne Hl Hroom. pose proof (sy_a _ _ HS) as Hst. unfold transmit, send. rewrite Hst, He. cbn [length app].
  rewrite Z.sub_0_r, Z.min_l by (unfold BUFFER_SIZE in *; lia). rewrite Nat2Z.id, firstn_all.
  set (a1 := signal_send (set_send_buffer msg a)).
  destruct (round_data m1 m2 0 a1 H1 H2 Hst (sy_path _ _ HS) (sy_fit_a _ _ HS) Hne Hl) as (f & -> & HC). cbn [mbind option_bind].
  rewrite (deliver_data f a b (flag ACK) msg HS HC eq_refl Hl Hroom). cbn [mbind option_bind head].
  eexists _, _. split; [reflexivity|]. split; [|done].
  eapply (synced_after a b (Z.of_nat (length msg))); (exact HS || reflexivity || apply HS).
Qed.

Fixpoint transmit_all (m1 m2 : Z) (msgs : list (list Z)) (a b : Tcp4Socket) : option (Tcp4Socket * Tcp4Socket) :=
  match msgs with [] => Some (a, b) | msg :: msgs => '(a, b) ← transmit m1 m2 msg a b; transmit_all m1 m2 msgs a b end.

Lemma transmit_all_ok m1 m2 msgs : forall a b, fits 48 m1 -> fits 48 m2 -> Synced a b -> send_buffer a = [] ->
  Forall (fun msg => msg <> [] /\ Z.of_nat (length msg) < 65496) msgs -> Z.of_nat (length (receive_buffer b) + length (concat msgs)) <= BUFFER_SIZE ->
  exists a' b', transmit_all m1 m2 msgs a b = Some (a', b') /\ Synced a' b' /\ send_buffer a' = [] /\ receive_buffer b' = receive_buffer b ++ concat msgs.
Proof.
  induction msgs as [|msg msgs IH]; intros a b H1 H2 HS He Hall Hroom; [exists a, b; by rewrite app_nil_r|].
  apply Forall_cons in Hall as [[Hne Hl] Hall]. cbn [concat] in *. rewrite length_app in Hroom.
  destruct (transmit_ok m1 m2 msg a b H1 H2 HS He Hne Hl) as (a1 & b1 & E & HS1 & He1 & Hr1); [lia|]. cbn [transmit_all]. rewrite E. cbn [mbind option_bind].
  destruct (IH a1 b1 H1 H2 HS1 He1 Hall) as (a' & b' & E' & HS' & He' & Hr'); [rewrite Hr1, length_app; lia|].
  exists a', b'. split_and!; try done. by rewrite Hr', Hr1, app_assoc.
Qed.

End Link.

(** ** Connecting *)

(** C36: A client that connects to a listening server: the three segments go across,
    the call of the client succeeds, the accepted socket is connected, and the two
    agree on the numbers. *)
Theorem tcp_handshake (alloc : nat -> list Z) (nc ns : Nic) (mc ms cport sport rc rs : Z) :
  (forall n, length (alloc n) = n) -> nic_fit nc -> nic_fit ns -> fits 48 mc -> fits 48 ms -> fits 16 cport -> fits 16 sport -> fits 32 rc -> fits 32 rs ->
  exists c1 f1 l1 l2 n0 n1 f2 c2 c3 f3 n2,
    connect (alloc 54%nat) [nc] true (ip ns) sport cport rc (Some ms) new_socket = Some (inr (c1, f1)) /\
    deliver f1 [listen sport new_socket] = Some [l1] /\ accept l1 = inr (l2, n0) /\
    round alloc (mac ns) mc rs n0 = Some (n1, Some f2) /\ deliver f2 [c1] = Some [c2] /\
    round alloc (mac nc) ms 0 c2 = Some (c3, Some f3) /\ connect_result c3 = Some 0 /\
    deliver f3 [l2; n1] = Some [l2; n2] /\ Synced c3 n2.
Proof.
  intros Ha [Hmc Hic] [Hms His] Hmc' Hms' Hcp Hsp Hrc Hrs.
  set (c0 := set_target (ip ns) sport (set_own (ip nc) cport (set_sequence (u32 (rc + 1)) new_socket))).
  assert (Hpc : path_fit (path_of c0)) by done.
  destruct (round_other alloc Ha (mac nc) ms c0 rc 0 (flag SYN) Hmc Hms' Hpc Hrc ltac:(done) ltac:(set_solver)) as (f1 & E1 & C1).
  set (l := listen sport new_socket). assert (Hl : own_port l = sport) by (unfold l, listen; sock; by apply u16_small).
  set (l1 := set_listen_event (u64 (listen_event l + 1)) (set_pending (mkConnection rc (ip nc) (ip ns) cport sport) true l)).
  assert (D1 : deliver f1 [l] = Some [l1]) by (by apply (deliver_listener f1 (path_of c0) rc 0 l C1)).
  set (l2 := set_pending (pending_connection l1) false l1).
  set (n0 := signal_send (set_received_sequence rc (set_target (ip nc) cport (set_own (ip ns) sport (set_state SynAck new_socket))))).
  assert (A1 : accept l1 = inr (l2, n0)) by reflexivity.
  set (n1 := set_sequence (u32 (rs + 1)) (set_send_event (send_event n0 - 1) n0)). assert (Hpn : path_fit (path_of n1)) by done.
  destruct (round_other alloc Ha (mac ns) mc n1 rs (u32 (rc + 1)) (Z.lor (flag SYN) (flag ACK)) Hms Hmc' Hpn Hrs ltac:(done) ltac:(set_solver)) as (f2 & E2 & C2).
  assert (R2 : round alloc (mac ns) mc rs n0 = Some (n1, Some f2)).
  { unfold round, handler, handle_syn_ack, handle_data, handle_disconnect, handle_ack, handle_received_fin, handle_received_syn_ack, frame_size. change (state n0) with SynAck. sock. change (state n0) with SynAck. cbn match zeta.
    change (set_sequence (u32 (rs + 1)) (set_send_event (send_event n0 - 1) n0)) with n1. change (received_sequence n0) with rc. change (54 + 0)%nat with 54%nat. by rewrite E2. }
  set (c1 := set_state SentSyn c0).
  assert (D2 : deliver f2 [c1] = Some [signal_send (set_state ReceivedSynAck (set_received_sequence rs c1))]).
  { rewrite (deliver_ok f2 _ _ _ _ _ c1 C2) by (set_solver || done). unfold on_segment. change (expect_fin_ack c1) with false. change (state c1) with SentSyn. cbn match.
    change (has_flag (Z.lor (flag SYN) (flag ACK)) SYN) with true. change (has_flag (Z.lor (flag SYN) (flag ACK)) ACK) with true.
    change (sequence c1) with (u32 (rc + 1)). by rewrite Z.eqb_refl. }
  set (c2 := signal_send (set_state ReceivedSynAck (set_received_sequence rs c1))) in *.
  set (c2' := set_send_event (send_event c2 - 1) c2). assert (Hpc2 : path_fit (path_of c2')) by done.
  destruct (round_other alloc Ha (mac nc) ms c2' (u32 (rc + 1)) (u32 (rs + 1)) (flag ACK) Hmc Hms' Hpc2 ltac:(done) ltac:(done) ltac:(set_solver)) as (f3 & E3 & C3).
  set (c3 := signal_state_change (set_state Connected c2')).
  assert (R3 : round alloc (mac nc) ms 0 c2 = Some (c3, Some f3)).
  { unfold round, handler, handle_syn_ack, handle_data, handle_disconnect, handle_ack, handle_received_fin, handle_received_syn_ack, frame_size. change (state c2) with ReceivedSynAck. fold c2'. change (state c2') with ReceivedSynAck. cbn match zeta.
    change (sequence c2') with (u32 (rc + 1)). change (received_sequence c2') with rs. change (54 + 0)%nat with 54%nat. by rewrite E3. }
  assert (Hn1 : acks (flag ACK) (u32 (rc + 1)) (u32 (rs + 1)) n1 = true).
  { unfold acks. change (received_sequence n1) with rc. change (sequence n1) with (u32 (rs + 1)). by rewrite !Z.eqb_refl. }
  exists c1, f1, l1, l2, n0, n1, f2, c2, c3, f3, (signal_state_change (set_state Connected n1)). split_and!; try done.
  - unfold connect. cbn [negb]. cbn zeta. fold c0. by rewrite E1.
  - rewrite (deliver_behind f3 _ _ _ _ _ l2 n1 C3) by done. rewrite (deliver_ok f3 _ _ _ _ _ n1 C3) by (set_solver || done). cbn [mbind option_bind].
    unfold on_segment. change (expect_fin_ack n1) with false. change (state n1) with SynAck. cbn match. by rewrite Hn1.
  - split; try done; (split; [apply u32_fits|done]).
Qed.

Definition zeros (n : nat) : list Z := replicate n 0.
Lemma zeros_length n : length (zeros n) = n.
Proof. apply length_replicate. Qed.

Lemma tcp_handshake_witness : exists c1 f1 l1, connect (zeros 54) [nic_a] true (ip nic_b) 80 5000 7 (Some 0x222222222222) new_socket = Some (inr (c1, f1)) /\
  deliver f1 [listen 80 new_socket] = Some [l1] /\ exists c3 n2, Synced c3 n2.
Proof.
  destruct (tcp_handshake zeros nic_a nic_b 0x111111111111 0x222222222222 5000 80 7 9) as (c1 & f1 & l1 & l2 & n0 & n1 & f2 & c2 & c3 & f3 & n2 & H);
    [apply zeros_length|done..|].
  exists c1, f1, l1. destruct H as (H1 & H2 & _ & _ & _ & _ & _ & _ & H3). split; [exact H1|]. split; [exact H2|]. exists c3, n2. exact H3.
Defined.

(** ** Data *)

(** C37: Messages that are sent one after the other on a connection, with room at the
    other end, arrive complete and in order, and the ends still agree. *)
Theorem tcp_stream_in_order (alloc : nat -> list Z) (m1 m2 : Z) (msgs : list (list Z)) (a b : Tcp4Socket) :
  (forall n, length (alloc n) = n) -> fits 48 m1 -> fits 48 m2 -> Synced a b -> send_buffer a = [] ->
  Forall (fun msg => msg <> [] /\ Z.of_nat (length msg) < 65496) msgs -> Z.of_nat (length (receive_buffer b) + length (concat msgs)) <= BUFFER_SIZE ->
  exists a' b', transmit_all alloc m1 m2 msgs a b = Some (a', b') /\ Synced a' b' /\ send_buffer a' = [] /\ receive_buffer b' = receive_buffer b ++ concat msgs.
Proof. intros Ha H1 H2. intros. by apply transmit_all_ok. Qed.

Definition end_a : Tcp4Socket := mkSock Connected 100 199 0x0100000A 5000 0x0200000A 80 [] [] (mkConnection 0 0 0 0 0) false false false false 0 0 0.
Definition end_b : Tcp4Socket := mkSock Connected 200 99 0x0200000A 80 0x0100000A 5000 [] [] (mkConnection 0 0 0 0 0) false false false false 0 0 0.
Lemma ends_synced : Synced end_a end_b.
Proof. split; try done; by split_and!. Qed.

Lemma tcp_stream_in_order_witness : exists a' b', transmit_all zeros 0x111111111111 0x222222222222 [[1; 2]; [3]] end_a end_b = Some (a', b') /\ receive_buffer b' = [1; 2; 3].
Proof.
  destruct (tcp_stream_in_order zeros 0x111111111111 0x222222222222 [[1; 2]; [3]] end_a end_b zeros_length ltac:(done) ltac:(done) ends_synced eq_refl)
    as (a' & b' & E & _ & _ & H); [repeat constructor; done|discriminate|].
  exists a', b'. split; [exact E|exact H].
Defined.

(** A segment that does not fit into the receive buffer is dropped, but counted as
    received: the ends agree on the numbers, and the bytes are gone. *)
Theorem full_buffer_is_acknowledged (alloc : nat -> list Z) (m1 m2 rnd : Z) (a b : Tcp4Socket) :
  (forall n, length (alloc n) = n) -> fits 48 m1 -> fits 48 m2 -> Synced a b -> send_buffer a <> [] -> Z.of_nat (length (send_buffer a)) < 65496 ->
  Z.of_nat (length (receive_buffer b) + length (send_buffer a)) > BUFFER_SIZE ->
  exists a' f b', round alloc m1 m2 rnd a = Some (a', Some f) /\ deliver f [b] = Some [b'] /\ Synced a' b' /\ send_buffer a' = [] /\ receive_buffer b' = receive_buffer b.
Proof.
  intros Ha H1 H2 HS Hne Hl Hfull.
  destruct (round_data alloc Ha m1 m2 rnd a H1 H2 (sy_a _ _ HS) (sy_path _ _ HS) (sy_fit_a _ _ HS) Hne Hl) as (f & E & HC).
  exists (set_sequence (u32 (sequence a + Z.of_nat (length (send_buffer a)))) (set_send_buffer [] (set_send_event (send_event a - 1) a))), f.
  exists (set_received_sequence (u32 (received_sequence b + Z.of_nat (length (send_buffer a)))) b). split; [done|].
  rewrite (deliver_ok f _ _ _ _ _ b HC) by (set_solver || apply HS || rewrite (sy_b _ _ HS); done || done).
  unfold on_segment. rewrite (sy_eb _ _ HS), (sy_b _ _ HS), (acks_synced a b (flag ACK)) by done. change (has_flag (flag ACK) FIN) with false. cbn match zeta. sock.
  destruct (_ >? BUFFER_SIZE) eqn:Eg; bool_to_prop; [|lia]. split_and!; [done| |done|done].
  eapply (synced_after a b (Z.of_nat (length (send_buffer a)))); (exact HS || reflexivity || apply HS).
Qed.

Definition full_b : Tcp4Socket := set_receive_buffer (zeros (Z.to_nat 65536)) end_b.
Definition sending_a : Tcp4Socket := signal_send (set_send_buffer [1] end_a).

Lemma full_buffer_is_acknowledged_witness : exists a' f b', round zeros 0x111111111111 0x222222222222 0 sending_a = Some (a', Some f) /\
  deliver f [full_b] = Some [b'] /\ Synced a' b' /\ receive_buffer b' = receive_buffer full_b.
Proof.
  destruct (full_buffer_is_acknowledged zeros 0x111111111111 0x222222222222 0 sending_a full_b zeros_length ltac:(done) ltac:(done)) as (a' & f & b' & H1 & H2 & H3 & _ & H4).
  - split; try done; by split_and!.
  - discriminate.
  - reflexivity.
  - unfold full_b. sock. rewrite zeros_length. unfold BUFFER_SIZE. simpl length. lia.
  - exists a', f, b'. split; [exact H1|]. split; [exact H2|]. split; [exact H3|exact H4].
Defined.

(** ** Acknowledgements *)

(** A segment in flight from [a] is received by [b], and the handler of [b] answers;
    then the other way round, [n] times. *)
Fixpoint volley (alloc : nat -> list Z) (n : nat) (m1 m2 : Z) (a b : Tcp4Socket) (f : list Z) : option (Tcp4Socket * Tcp4Socket * list Z) :=
  match n with
  | O => Some (a, b, f)
  | S n =>
      ss ← deliver f [b];
      b ← head ss;
      '(b, g) ← round alloc m2 m1 0 b;
      g ← g;
      volley alloc n m2 m1 b a g
  end.

Definition quiet_end (s : Tcp4Socket) : Prop := send_buffer s = [] /\ do_disconnect s = false /\ Z.of_nat (length (receive_buffer s)) <= BUFFER_SIZE.

(** An acknowledgement is itself acknowledged: on a connection on which nobody has
    anything to send, one segment is followed by an endless exchange of empty
    segments; after any number of them there is still one in flight. *)
Theorem acks_never_stop (alloc : nat -> list Z) (n : nat) (m1 m2 : Z) (a b : Tcp4Socket) (f : list Z) :
  (forall k, length (alloc k) = k) -> fits 48 m1 -> fits 48 m2 -> Synced a b -> quiet_end a -> quiet_end b ->
  carries f (path_of a) (flag ACK) (sequence a) (u32 (received_sequence a + 1)) [] ->
  exists a' b' f', volley alloc n m1 m2 a b f = Some (a', b', f') /\
    carries f' (path_of a') (flag ACK) (sequence a') (u32 (received_sequence a' + 1)) [] /\ Synced a' b' /\ quiet_end a' /\ quiet_end b'.
Proof.
  intros Ha. revert m1 m2 a b f. induction n as [|n IH]; intros m1 m2 a b f H1 H2 HS Qa (B1 & B2 & B3) HC; [by exists a, b, f|]. cbn [volley].
  rewrite (deliver_data f a b (flag ACK) [] HS HC) by (done || cbn [length]; rewrite Nat.add_0_r; done). cbn [mbind option_bind head length].
  set (b1 := signal_send _). assert (Hr1 : received_sequence b1 = received_sequence b) by (unfold b1; sock; rewrite Z.add_0_r; apply u32_small, HS).
  assert (HS1 : Synced a b1).
  { eapply (synced_after a b 0); (exact HS || reflexivity || apply HS || rewrite Z.add_0_r; symmetry; apply u32_small, HS). }
  pose proof (synced_sym _ _ HS1) as HS2.
  destruct (round_ack alloc Ha m2 m1 0 b1 H2 H1 (sy_a _ _ HS2) (sy_path _ _ HS2) (sy_fit_a _ _ HS2) B1 B2) as (g & -> & HCg). cbn [mbind option_bind].
  set (b2 := set_send_event (send_event b1 - 1) b1) in *. apply (IH m2 m1 b2 a g H2 H1); [|split_and!|done|exact HCg].
  - destruct HS2 as [S1 S2 S3 S4 S5 S6 S7 S8 S9 S10]. by split.
  - done.
  - done.
  - unfold b2, b1. sock. by rewrite app_nil_r.
Qed.

Lemma acks_never_stop_witness : exists f, send_frame (zeros 54) 0x111111111111 0x222222222222 end_a 100 200 (flag ACK) [] = Some f /\
  exists a' b' f', volley zeros 1000 0x111111111111 0x222222222222 end_a end_b f = Some (a', b', f').
Proof.
  destruct (send_frame_ok (zeros 54) 0x111111111111 0x222222222222 end_a 100 200 (flag ACK) []) as (f & E & HC); try done; [set_solver|].
  exists f. split; [exact E|]. destruct (acks_never_stop zeros 1000 0x111111111111 0x222222222222 end_a end_b f zeros_length) as (a' & b' & f' & H & _);
    [done|done|apply ends_synced|done|done|exact HC|]. exists a', b', f'. exact H.
Defined.

(** ** Crossing segments *)

Lemma u32_add_ne x n : fits 32 x -> 0 < n < 2 ^ 32 -> u32 (x + n) <> x.
Proof.
  unfold fits, u32, wrap. intros Hx Hn E. assert (Hd := Z.div_mod (x + n) (2 ^ 32) ltac:(lia)). rewrite E in Hd.
  assert (n = 2 ^ 32 * ((x + n) / 2 ^ 32)) by lia. assert (0 < (x + n) / 2 ^ 32) by nia. nia.
Qed.

(** A connected socket ignores a segment that does not acknowledge all it has sent,
    or that is not the next. *)
Lemma deliver_ignored f c fl seq ack payload b : carries f c fl seq ack payload -> fl ∈ seg_flags -> ends c b -> state b = Connected -> expect_fin_ack b = false ->
  acks fl seq ack b = false -> Z.of_nat (length payload) < 65496 -> deliver f [b] = Some [b].
Proof.
  intros HC Hfl He Hst Hx Hack Hl. rewrite (deliver_ok f _ _ _ _ _ b HC) by (done || rewrite Hst; done). unfold on_segment. by rewrite Hx, Hst, Hack.
Qed.

(** When both ends send before either receives, both segments are dropped, as each
    carries an old acknowledgement.  The bytes are in no buffer any more, and all
    that is sent later is dropped too: the connection is dead, in state
    [Connected]. *)
Theorem crossing_segments_are_lost (alloc : nat -> list Z) (m1 m2 : Z) (a b : Tcp4Socket) :
  (forall n, length (alloc n) = n) -> fits 48 m1 -> fits 48 m2 -> Synced a b ->
  send_buffer a <> [] -> send_buffer b <> [] -> Z.of_nat (length (send_buffer a)) < 65496 -> Z.of_nat (length (send_buffer b)) < 65496 ->
  exists a' b' fa fb, round alloc m1 m2 0 a = Some (a', Some fa) /\ round alloc m2 m1 0 b = Some (b', Some fb) /\
    deliver fa [b'] = Some [b'] /\ deliver fb [a'] = Some [a'] /\
    send_buffer a' = [] /\ send_buffer b' = [] /\ receive_buffer a' = receive_buffer a /\ receive_buffer b' = receive_buffer b /\
    state a' = Connected /\ state b' = Connected /\
    forall f payload, Z.of_nat (length payload) < 65496 ->
      (carries f (path_of a') (flag ACK) (sequence a') (u32 (received_sequence a' + 1)) payload -> deliver f [b'] = Some [b']) /\
      (carries f (path_of b') (flag ACK) (sequence b') (u32 (received_sequence b' + 1)) payload -> deliver f [a'] = Some [a']).
Proof.
  intros Ha H1 H2 HS Na Nb La Lb. pose proof (synced_sym _ _ HS) as HS'.
  destruct (round_data alloc Ha m1 m2 0 a H1 H2 (sy_a _ _ HS) (sy_path _ _ HS) (sy_fit_a _ _ HS) Na La) as (fa & Ea & Ca).
  destruct (round_data alloc Ha m2 m1 0 b H2 H1 (sy_a _ _ HS') (sy_path _ _ HS') (sy_fit_a _ _ HS') Nb Lb) as (fb & Eb & Cb).
  set (a' := set_sequence _ _) in Ea. set (b' := set_sequence _ _) in Eb.
  assert (Hla : 0 < Z.of_nat (length (send_buffer a))) by (destruct (send_buffer a); [done|simpl; lia]).
  assert (Hlb : 0 < Z.of_nat (length (send_buffer b))) by (destruct (send_buffer b); [done|simpl; lia]).
  assert (Nsa : sequence a' <> sequence a) by (apply u32_add_ne; [apply HS|lia]). assert (Nsb : sequence b' <> sequence b) by (apply u32_add_ne; [apply HS'|lia]).
  assert (Hack : forall seq ack, ack <> sequence b' -> acks (flag ACK) seq ack b' = false).
  { intros seq ack N. unfold acks. rewrite (proj2 (Z.eqb_neq _ _) N). apply andb_false_r. }
  assert (Hack' : forall seq ack, ack <> sequence a' -> acks (flag ACK) seq ack a' = false).
  { intros seq ack N. unfold acks. rewrite (proj2 (Z.eqb_neq _ _) N). apply andb_false_r. }
  assert (Na1 : u32 (received_sequence a + 1) <> sequence b') by (rewrite <- (sy_ba _ _ HS); done).
  assert (Nb1 : u32 (received_sequence b + 1) <> sequence a') by (rewrite <- (sy_ab _ _ HS); done).
  assert (Db : forall f seq payload, Z.of_nat (length payload) < 65496 -> carries f (path_of a) (flag ACK) seq (u32 (received_sequence a + 1)) payload -> deliver f [b'] = Some [b']).
  { intros f seq payload Hl HC. eapply deliver_ignored; [exact HC|set_solver|apply (sy_ends _ _ HS)|apply (sy_b _ _ HS)|apply (sy_eb _ _ HS)|by apply Hack|done]. }
  assert (Da : forall f seq payload, Z.of_nat (length payload) < 65496 -> carries f (path_of b) (flag ACK) seq (u32 (received_sequence b + 1)) payload -> deliver f [a'] = Some [a']).
  { intros f seq payload Hl HC. eapply deliver_ignored; [exact HC|set_solver|apply (sy_ends _ _ HS')|apply (sy_b _ _ HS')|apply (sy_eb _ _ HS')|by apply Hack'|done]. }
  exists a', b', fa, fb. split_and!; try done; [exact (Db _ _ _ La Ca)|exact (Da _ _ _ Lb Cb)|apply HS|apply HS|].
  intros f payload Hl. split; intros HC; [exact (Db _ _ _ Hl HC)|exact (Da _ _ _ Hl HC)].
Qed.

Lemma crossing_segments_are_lost_witness : exists a' b' fa fb,
  round zeros 0x111111111111 0x222222222222 0 (signal_send (set_send_buffer [1] end_a)) = Some (a', Some fa) /\
  round zeros 0x222222222222 0x111111111111 0 (signal_send (set_send_buffer [2] end_b)) = Some (b', Some fb) /\ deliver fa [b'] = Some [b'] /\ deliver fb [a'] = Some [a'].
Proof.
  destruct (crossing_segments_are_lost zeros 0x111111111111 0x222222222222 (signal_send (set_send_buffer [1] end_a)) (signal_send (set_send_buffer [2] end_b)) zeros_length)
    as (a' & b' & fa & fb & H1 & H2 & H3 & H4 & _); [done|done|split; try done; by split_and!|discriminate|discriminate|reflexivity|reflexivity|].
  exists a', b', fa, fb. split; [exact H1|]. split; [exact H2|]. split; [exact H3|exact H4].
Defined.

(** ** Disconnecting *)

(** The answer to a FIN is a segment with both ACK and FIN, and the end that waits
    for the ACK does not look at the FIN in it.  So after a [disconnect] on a quiet
    connection three steps lead to where nothing is in flight, the closing end
    waits for a FIN in state [Connected] and the other for its acknowledgement in
    [SentFin]; the handler of the first has nothing to do and that of the other
    sends nothing: the call never returns. *)
Theorem disconnect_never_completes (alloc : nat -> list Z) (m1 m2 : Z) (a b : Tcp4Socket) :
  (forall n, length (alloc n) = n) -> fits 48 m1 -> fits 48 m2 -> Synced a b -> quiet_end a -> quiet_end b ->
  send_event a = 0 -> send_event b = 0 -> fin_sent b = false ->
  exists a1 f1 b1 b2 f2 a2, round alloc m1 m2 0 (disconnect a) = Some (a1, Some f1) /\ deliver f1 [b] = Some [b1] /\
    round alloc m2 m1 0 b1 = Some (b2, Some f2) /\ deliver f2 [a1] = Some [a2] /\
    state a2 = Connected /\ send_event a2 = 0 /\ state b2 = SentFin /\
    forall rnd, round alloc m2 m1 rnd b2 = Some (set_send_event (send_event b2 - 1) b2, None).
Proof.
  intros Ha H1 H2 HS (A1 & A2 & A3) (B1 & B2 & B3) Ea Eb Hfin. pose proof (synced_sym _ _ HS) as HS'.
  assert (Ed : disconnect a = signal_send (set_closing true (expect_fin_ack a) (fin_sent a) a)) by (unfold disconnect; by rewrite (sy_a _ _ HS)).
  set (a0 := signal_send (set_closing true (expect_fin_ack a) (fin_sent a) a)) in *. rewrite Ed.
  destruct (round_fin alloc Ha m1 m2 0 a0 H1 H2 (sy_a _ _ HS) (sy_path _ _ HS) (sy_fit_a _ _ HS) A1 eq_refl) as (f1 & E1 & C1).
  set (a1 := set_closing _ _ _ _) in E1. set (fl := Z.lor (flag ACK) (flag FIN)) in *.
  set (b1 := signal_send (set_receive_buffer (receive_buffer b ++ []) (set_received_sequence (u32 (u32 (received_sequence b + 1) + 0))
    (set_received_sequence (u32 (received_sequence b + 1)) (signal_send (set_state ReceivedFin b)))))).
  assert (D1 : deliver f1 [b] = Some [b1]).
  { rewrite (deliver_ok f1 _ _ _ _ _ b C1) by (set_solver || apply (sy_ends _ _ HS) || rewrite (sy_b _ _ HS); done || done).
    unfold on_segment. rewrite (sy_eb _ _ HS), (sy_b _ _ HS). change (sequence a0) with (sequence a). change (received_sequence a0) with (received_sequence a).
    rewrite (acks_synced a b fl) by done. change (has_flag fl FIN) with true. cbn match zeta. sock. cbn [length]. rewrite Nat.add_0_r.
    destruct (_ >? BUFFER_SIZE) eqn:Eg; bool_to_prop; [lia|]. done. }
  set (b1' := set_send_event (send_event b1 - 1) b1). assert (Hr : received_sequence b1' = u32 (received_sequence b + 1)) by (unfold b1', b1; sock; by rewrite Z.add_0_r, u32_small by apply u32_fits).
  destruct (round_other alloc Ha m2 m1 b1' (sequence b) (u32 (received_sequence b1' + 1)) fl H2 H1 (sy_path _ _ HS')) as (f2 & E2 & C2); [apply HS|apply u32_fits|set_solver|].
  set (b2 := set_state SentFin (set_sequence (u32 (sequence b1' + 1)) b1')).
  assert (R2 : round alloc m2 m1 0 b1 = Some (b2, Some f2)).
  { unfold round, handler, handle_syn_ack, handle_data, handle_disconnect, handle_ack, handle_received_fin, handle_received_syn_ack, frame_size. change (state b1) with ReceivedFin. fold b1'. change (state b1') with ReceivedFin. cbn match zeta.
    change (fin_sent b1') with (fin_sent b). rewrite Hfin. change (54 + 0)%nat with 54%nat. change (sequence b1') with (sequence b). fold fl. by rewrite E2. }
  assert (D2 : deliver f2 [a1] = Some [set_closing (do_disconnect a1) false true a1]).
  { rewrite (deliver_ok f2 _ _ _ _ _ a1 C2) by (set_solver || apply (sy_ends _ _ HS') || (change (state a1) with (state a); rewrite (sy_a _ _ HS)); done || done).
    unfold on_segment. change (expect_fin_ack a1) with true. cbn match. assert (Hk : acks fl (sequence b) (u32 (received_sequence b1' + 1)) a1 = true); [|by rewrite Hk].
    unfold acks. change (received_sequence a1) with (received_sequence a). rewrite <- (sy_ba _ _ HS), Z.eqb_refl, Hr.
    change (sequence a1) with (u32 (sequence a + 1)). rewrite (sy_ab _ _ HS), Z.eqb_refl. done. }
  exists a1, f1, b1, b2, f2, (set_closing (do_disconnect a1) false true a1). split_and!; try done; [apply HS|].
  unfold a1, a0. sock. by rewrite Ea.
Qed.

Lemma disconnect_never_completes_witness : exists a1 f1 b1, round zeros 0x111111111111 0x222222222222 0 (disconnect end_a) = Some (a1, Some f1) /\
  deliver f1 [end_b] = Some [b1] /\ state b1 = ReceivedFin.
Proof.
  destruct (disconnect_never_completes zeros 0x111111111111 0x222222222222 end_a end_b zeros_length ltac:(done) ltac:(done) ends_synced ltac:(done) ltac:(done) eq_refl eq_refl eq_refl)
    as (a1 & f1 & b1 & b2 & f2 & a2 & H1 & H2 & _). exists a1, f1, b1. split; [exact H1|]. split; [exact H2|]. vm_compute in H1. injection H1 as <- <-. vm_compute in H2. injection H2 as <-. reflexivity.
Defined.

End TcpCorrect.
