(* ===== verification/Dns.v ===== *)
(** * The DNS resolver (src/libs/libnet/src/dns.cpp)

    [resolve4] splits a domain into labels, sends a query over a UDP socket and
    looks for the address in the reply.  Strings and buffers are lists of bytes;
    the reply is parsed in a buffer of 256 bytes whose end, behind what was
    received, holds what was there before.  [None] is a failed assertion or a read
    outside the buffer.  The results of the system calls are arguments. *)

From S2P Require Import Prelude Bits.

Module Dns.

Definition RD : Z := Z.shiftl 1 0.
Definition QTYPE_A : Z := 1.
Definition QTYPE_CNAME : Z := 5.
Definition ERR_INVALID_ARGUMENT : Z := -0x1000 + 1.
Definition ERR_BUFFER_TOO_SMALL : Z := -0x1000 + 5.

(** A 16 bit field as it lies in memory. *)
Definition field16 (v : Z) : list Z := le_bytes 2 v.

(** ** The query *)

(** The constructor of [Query]: the six fields of the header. *)
Definition query_header : list Z :=
  field16 (to_be 2 1234) ++ field16 RD ++ field16 (to_be 2 1) ++ field16 0 ++ field16 0 ++ field16 0.

Definition add_segment (segment req : list Z) : option (list Z) :=
  _ ← assert (Z.of_nat (length segment) <=? 0xFF);
  Some (req ++ [u8 (Z.of_nat (length segment))] ++ segment).

(** [domain.find('.', offset)]; [None] is [npos]. *)
Definition find_dot (domain : list Z) (offset : nat) : option nat :=
  '(i, _) ← list_find (fun c => c = 46) (drop offset domain); Some (offset + i)%nat.

(** The loop of [resolve4]: each round ends behind a dot, so it runs at most once
    per byte and once more. *)
Fixpoint add_segments (fuel : nat) (domain : list Z) (offset : nat) (req : list Z) : option (list Z) :=
  match fuel with
  | O => None
  | S fuel =>
      let next_offset := find_dot domain offset in
      let chunk := match next_offset with
                   | Some n => take (n - offset) (drop offset domain)
                   | None => drop offset domain
                   end in
      req ← add_segment chunk req;
      match next_offset with
      | None => Some req
      | Some n => add_segments fuel domain (n + 1) req
      end
  end.

(** The end of the request. *)
Definition finish (type : Z) (req : list Z) : list Z :=
  req ++ [0; u8 (Z.shiftr type 8); u8 (Z.land type 0xFF); 0; 1].

(** What the system calls return: the results of [sys_socket_create], of
    [sys_socket_send_to] and of [sys_socket_receive_from], and what was received,
    at most 256 bytes. *)
Record Net := mkNet { create_res : Z; send_res : Z; receive_res : Z; received : list Z }.

(** [Query::send] with a buffer: the error, or the bytes of the reply. *)
Definition send (net : Net) (response_size : Z) : option (Z + list Z) :=
  _ ← assert (create_res net =? 0);
  if negb (send_res net =? 0) then Some (inl (send_res net))
  else if negb (receive_res net =? 0) then Some (inl (receive_res net))
  else if Z.of_nat (length (received net)) <? 12 then Some (inl ERR_INVALID_ARGUMENT)
  else if negb (bool_decide (take 2 (received net) = take 2 query_header)) then Some (inl ERR_INVALID_ARGUMENT)
  else if response_size <? Z.of_nat (length (received net)) then Some (inl ERR_BUFFER_TOO_SMALL)
  else Some (inr (received net)).

(** ** The reply *)

(** [*ptr] as a [char], which is signed, and as a byte. *)
Definition byte_at (buf : list Z) (i : nat) : option Z := buf !! i.
Definition schar (b : Z) : Z := if b <? 128 then b else b - 256.

(** [std::string_view {ptr, len}]. *)
Definition view (buf : list Z) (ptr len : nat) : option (list Z) :=
  if (ptr + len <=? length buf)%nat then Some (take len (drop ptr buf)) else None.

(** One label and the dot behind it. *)
Definition read_label (buf : list Z) (len ptr : nat) (name : list Z) : option (nat * list Z) :=
  label ← view buf ptr len;
  let ptr := (ptr + len)%nat in
  next ← byte_at buf ptr;
  Some (ptr, name ++ label ++ if next =? 0 then [] else [46]).

(** The inner loop, at the target of a compression pointer. *)
Fixpoint follow (fuel : nat) (buf : list Z) (ptr2 : nat) (name : list Z) : option (list Z) :=
  match fuel with
  | O => None
  | S fuel =>
      len2 ← byte_at buf ptr2;
      let ptr2 := S ptr2 in
      _ ← assert (negb (Z.land len2 0xC0 =? 0xC0));
      if len2 =? 0 then Some name
      else '(ptr2, name) ← read_label buf (Z.to_nat len2) ptr2 name; follow fuel buf ptr2 name
  end.

(** [Ptr::parse_dns_name]: the name and the position behind it. *)
Fixpoint parse_dns_name (fuel : nat) (buf : list Z) (ptr : nat) (name : list Z) : option (list Z * nat) :=
  match fuel with
  | O => None
  | S fuel =>
      len ← byte_at buf ptr;
      let ptr := S ptr in
      if Z.land len 0xC0 =? 0xC0 then
        b ← byte_at buf ptr;
        let str_offset := u8 (Z.lor (Z.shiftl (Z.land len 0x3F) 8) (schar b)) in
        name ← follow 257 buf (Z.to_nat str_offset) name;
        Some (name, S ptr)
      else if len =? 0 then Some (name, ptr)
      else '(ptr, name) ← read_label buf (Z.to_nat len) ptr name; parse_dns_name fuel buf ptr name
  end.

(** Skipping the name of a question. *)
Fixpoint skip_name (fuel : nat) (buf : list Z) (ptr : nat) : option nat :=
  match fuel with
  | O => None
  | S fuel =>
      len ← byte_at buf ptr;
      let ptr := S ptr in
      if len =? 0 then Some ptr else skip_name fuel buf (ptr + Z.to_nat len)
  end.

Fixpoint skip_questions (n : nat) (buf : list Z) (ptr : nat) : option nat :=
  match n with
  | O => Some ptr
  | S n => ptr ← skip_name 257 buf ptr; skip_questions n buf (ptr + 4)
  end.

(** Two [char]s as a big-endian number. *)
Definition read16 (buf : list Z) (ptr : nat) : option Z :=
  hi ← byte_at buf ptr;
  lo ← byte_at buf (S ptr);
  Some (u16 (Z.lor (Z.shiftl (schar hi) 8) (schar lo))).

(** The loop over the answers; [on_answer] returns a status and ends the loop when
    it is not 0. *)
Fixpoint answers {X : Type} (n : nat) (buf : list Z) (on_answer : Z -> nat -> X -> option (Z * X)) (ptr : nat) (st : X)
    : option (Z * X) :=
  match n with
  | O => Some (0, st)
  | S n =>
      '(_, ptr) ← parse_dns_name 257 buf ptr [];
      ans_type ← read16 buf ptr;
      rd_len ← read16 buf (ptr + 8);
      let ptr := (ptr + 10)%nat in
      '(status, st) ← on_answer ans_type ptr st;
      if negb (status =? 0) then Some (status, st)
      else answers n buf on_answer (ptr + Z.to_nat rd_len) st
  end.

(** A 16 bit field of the header, from network order. *)
Definition header_field (buf : list Z) (off : nat) : option Z :=
  f ← view buf off 2; Some (to_ne_from_be 2 (le_val f)).

(** [Query::send] with a callback; [rest] is the buffer before the reply is copied
    into it. *)
Definition send_answers {X : Type} (net : Net) (rest : list Z) (on_answer : list Z -> Z -> nat -> X -> option (Z * X)) (st : X)
    : option (Z * X) :=
  r ← send net 256;
  match r with
  | inl err => Some (err, st)
  | inr reply =>
      let res := reply ++ drop (length reply) rest in
      num_questions ← header_field res 4;
      num_answers ← header_field res 6;
      ptr ← skip_questions (Z.to_nat num_questions) res 12;
      answers (Z.to_nat num_answers) res (on_answer res) ptr st
  end.

(** [Ptr::parse_ipv4]: the four bytes as they lie in memory. *)
Definition parse_ipv4 (buf : list Z) (ptr : nat) : option Z := b ← view buf ptr 4; Some (le_val b).

Definition on_a (buf : list Z) (type : Z) (ptr : nat) (_ : Z) : option (Z * Z) :=
  _ ← assert (type =? QTYPE_A);
  ip ← parse_ipv4 buf ptr;
  Some (1, ip).

(** [dns::resolve4]: the request that is sent, and the result. *)
Definition request (domain : list Z) : option (list Z) :=
  req ← add_segments (S (length domain)) domain 0 query_header;
  Some (finish QTYPE_A req).

Definition resolve4 (domain : list Z) (net : list Z -> Net) (rest : list Z) : option (option Z) :=
  req ← request domain;
  '(err, res_ip) ← send_answers (net req) rest on_a 0;
  Some (if err =? 1 then Some res_ip else None).

(** ** Names *)

(** The name as a string, and on the wire without the final 0. *)
Fixpoint join (labels : list (list Z)) : list Z :=
  match labels with
  | [] => []
  | [l] => l
  | l :: ls => l ++ [46] ++ join ls
  end.

Definition encode (labels : list (list Z)) : list Z := mjoin (map (fun l => Z.of_nat (length l) :: l) labels).

Definition label_ok (l : list Z) : Prop := (1 <= length l <= 63)%nat /\ 46 ∉ l.

Lemma land_c0 len : 0 <= len < 64 -> Z.land len 0xC0 = 0.
Proof.
  intros H. apply Z.bits_inj'. intros n Hn. rewrite Z.land_spec, Z.bits_0. destruct (decide (n < 6)) as [H6|H6].
  - replace (Z.testbit 0xC0 n) with false; [apply andb_false_r|].
    assert (n = 0 \/ n = 1 \/ n = 2 \/ n = 3 \/ n = 4 \/ n = 5) as [->|[->|[->|[->|[-> | ->]]]]] by lia; reflexivity.
  - by rewrite (testbit_fits 6 len n) by (unfold fits; lia).
Qed.

Lemma encode_cons l ls : encode (l :: ls) = Z.of_nat (length l) :: l ++ encode ls.
Proof. reflexivity. Qed.

Lemma join_cons l l' ls : join (l :: l' :: ls) = l ++ [46] ++ join (l' :: ls).
Proof. reflexivity. Qed.

Lemma byte_at_app pre b post : byte_at (pre ++ b :: post) (length pre) = Some b.
Proof. unfold byte_at. by apply list_lookup_middle. Qed.

Lemma view_app pre l post : view (pre ++ l ++ post) (length pre) (length l) = Some l.
Proof.
  unfold view. rewrite !length_app. replace (_ <=? _)%nat with true by (symmetry; apply Nat.leb_le; lia).
  rewrite drop_app_length. by rewrite take_app_length.
Qed.

(** The first byte behind a label: the length of the next one or 0. *)
Lemma encode_head ls post : exists b tl, encode ls ++ 0 :: post = b :: tl /\
  (Forall label_ok ls -> (b =? 0) = bool_decide (ls = [])).
Proof.
  destruct ls as [|l ls]; [exists 0, post; done|]. rewrite encode_cons. eexists _, _. split; [done|].
  intros H%Forall_cons. destruct H as [[Hl _] _]. rewrite bool_decide_false by done. lia.
Qed.

Lemma read_label_ok pre l ls post name : label_ok l -> Forall label_ok ls ->
  read_label (pre ++ l ++ encode ls ++ 0 :: post) (length l) (length pre) name =
    Some ((length pre + length l)%nat, name ++ l ++ if bool_decide (ls = []) then [] else [46]).
Proof.
  intros Hl Hls. unfold read_label. rewrite view_app. cbn [mbind option_bind].
  destruct (encode_head ls post) as (b & tl & -> & Hb). rewrite (assoc_L app).
  replace (length pre + length l)%nat with (length (pre ++ l)) by apply length_app.
  rewrite byte_at_app. cbn [mbind option_bind]. by rewrite Hb.
Qed.

Lemma join_step l ls : l ++ (if bool_decide (ls = []) then [] else [46]) ++ join ls = join (l :: ls).
Proof. destruct ls as [|l' ls]; [by rewrite bool_decide_true, app_nil_r|]. by rewrite bool_decide_false. Qed.

Lemma parse_name_ok ls : forall fuel pre post name, Forall label_ok ls -> (length ls < fuel)%nat ->
  parse_dns_name fuel (pre ++ encode ls ++ 0 :: post) (length pre) name =
    Some (name ++ join ls, (length pre + length (encode ls) + 1)%nat).
Proof.
  induction ls as [|l ls IH]; intros fuel pre post name Hok Hf; (destruct fuel as [|fuel]; [simpl in Hf; lia|]); cbn [parse_dns_name].
  - cbn [encode map mjoin list_join app]. rewrite byte_at_app. cbn [mbind option_bind].
    change (Z.land 0 0xC0 =? 0xC0) with false. change (0 =? 0) with true. cbn [length join]. rewrite app_nil_r. do 2 f_equal. simpl. lia.
  - apply Forall_cons in Hok as [Hl Hok]. destruct Hl as [Hlen Hdot]. rewrite encode_cons. cbn [app].
    rewrite byte_at_app. cbn [mbind option_bind]. rewrite land_c0 by lia. change (0 =? 0xC0) with false.
    replace (Z.of_nat (length l) =? 0) with false by lia. rewrite Nat2Z.id, <- (assoc_L app).
    change (pre ++ ?x :: ?t) with (pre ++ [x] ++ t). rewrite (assoc_L app).
    replace (S (length pre)) with (length (pre ++ [Z.of_nat (length l)])) by (rewrite length_app; simpl; lia).
    rewrite read_label_ok by done. cbn [mbind option_bind].
    rewrite (assoc_L app _ l). rewrite <- length_app. rewrite IH by (done || (simpl in Hf; lia)). f_equal. f_equal.
    + rewrite <- !(assoc_L app). f_equal. apply join_step.
    + rewrite !length_app. simpl. rewrite length_app. simpl. lia.
Qed.

Lemma follow_ok ls : forall fuel pre post name, Forall label_ok ls -> (length ls < fuel)%nat ->
  follow fuel (pre ++ encode ls ++ 0 :: post) (length pre) name = Some (name ++ join ls).
Proof.
  induction ls as [|l ls IH]; intros fuel pre post name Hok Hf; (destruct fuel as [|fuel]; [simpl in Hf; lia|]); cbn [follow].
  - cbn [encode map mjoin list_join app]. rewrite byte_at_app. cbn [mbind option_bind].
    change (Z.land 0 0xC0 =? 0xC0) with false. change (0 =? 0) with true. cbn [join negb assert mbind option_bind]. by rewrite app_nil_r.
  - apply Forall_cons in Hok as [Hl Hok]. destruct Hl as [Hlen Hdot]. rewrite encode_cons. cbn [app].
    rewrite byte_at_app. cbn [mbind option_bind]. rewrite land_c0 by lia. change (0 =? 0xC0) with false.
    cbn [negb assert mbind option_bind].
    replace (Z.of_nat (length l) =? 0) with false by lia. rewrite Nat2Z.id, <- (assoc_L app).
    change (pre ++ ?x :: ?t) with (pre ++ [x] ++ t). rewrite (assoc_L app).
    replace (S (length pre)) with (length (pre ++ [Z.of_nat (length l)])) by (rewrite length_app; simpl; lia).
    rewrite read_label_ok by done. cbn [mbind option_bind].
    rewrite (assoc_L app _ l). rewrite <- length_app. rewrite IH by (done || (simpl in Hf; lia)). f_equal.
    rewrite <- !(assoc_L app). f_equal. apply join_step.
Qed.

Lemma skip_name_ok ls : forall fuel pre post, Forall label_ok ls -> (length ls < fuel)%nat ->
  skip_name fuel (pre ++ encode ls ++ 0 :: post) (length pre) = Some (length pre + length (encode ls) + 1)%nat.
Proof.
  induction ls as [|l ls IH]; intros fuel pre post Hok Hf; (destruct fuel as [|fuel]; [simpl in Hf; lia|]); cbn [skip_name].
  - cbn [encode map mjoin list_join app]. rewrite byte_at_app. cbn [mbind option_bind length].
    change (0 =? 0) with true. f_equal. simpl. lia.
  - apply Forall_cons in Hok as [[Hlen _] Hok]. rewrite encode_cons. cbn [app]. rewrite byte_at_app. cbn [mbind option_bind].
    replace (Z.of_nat (length l) =? 0) with false by lia. rewrite Nat2Z.id, <- (assoc_L app).
    change (pre ++ ?x :: ?t) with (pre ++ [x] ++ t). rewrite (assoc_L app), (assoc_L app _ l).
    replace (S (length pre) + length l)%nat with (length ((pre ++ [Z.of_nat (length l)]) ++ l)) by (rewrite !length_app; simpl; lia).
    rewrite IH by (done || (simpl in Hf; lia)). f_equal. rewrite !length_app. simpl. rewrite length_app. lia.
Qed.

(** ** Splitting a domain *)

Lemma find_dot_join pre l ls : label_ok l -> ls <> [] ->
  find_dot (pre ++ join (l :: ls)) (length pre) = Some (length pre + length l)%nat.
Proof.
  intros [_ Hdot] Hls. unfold find_dot. rewrite drop_app_length. destruct ls as [|l' ls]; [done|].
  rewrite join_cons. assert (Hf : list_find (fun c => c = 46) (l ++ [46] ++ join (l' :: ls)) = Some (length l, 46)).
  { apply list_find_Some. split_and!; [by apply list_lookup_middle|done|]. intros j y Hj Hlt ->.
    rewrite lookup_app_l in Hj by done. apply Hdot. by eapply list_elem_of_lookup_2. }
  by rewrite Hf.
Qed.

Lemma find_dot_last pre l : 46 ∉ l -> find_dot (pre ++ l) (length pre) = None.
Proof.
  intros Hdot. unfold find_dot. rewrite drop_app_length.
  assert (Hf : list_find (fun c => c = 46) l = None) by (apply list_find_None, Forall_forall; intros x Hx ->; done).
  by rewrite Hf.
Qed.

Lemma add_segment_ok l req : (length l <= 63)%nat -> add_segment l req = Some (req ++ Z.of_nat (length l) :: l).
Proof.
  intros Hl. unfold add_segment. replace (_ <=? 0xFF) with true by (symmetry; apply Z.leb_le; lia).
  cbn [assert mbind option_bind]. by rewrite u8_small by lia.
Qed.

Lemma add_segments_ok ls : forall fuel pre req, Forall label_ok ls -> ls <> [] -> (length ls <= fuel)%nat ->
  add_segments fuel (pre ++ join ls) (length pre) req = Some (req ++ encode ls).
Proof.
  induction ls as [|l ls IH]; intros fuel pre req Hok Hne Hf; [done|]. destruct fuel as [|fuel]; [simpl in Hf; lia|].
  apply Forall_cons in Hok as [Hl Hok]. pose proof Hl as [Hlen Hdot]. cbn [add_segments]. cbv zeta.
  destruct ls as [|l' ls].
  - cbn [join]. rewrite find_dot_last, drop_app_length by done. rewrite add_segment_ok by lia. cbn [mbind option_bind].
    rewrite encode_cons. change (encode []) with (@nil Z). by rewrite app_nil_r.
  - rewrite find_dot_join, drop_app_length by done.
    replace (length pre + length l - length pre)%nat with (length l) by lia.
    rewrite join_cons, take_app_length, add_segment_ok by lia. cbn [mbind option_bind]. rewrite !(assoc_L app).
    replace (length pre + length l + 1)%nat with (length ((pre ++ l) ++ [46])) by (rewrite !length_app; simpl; lia).
    rewrite IH by (done || (simpl in Hf |- *; lia)). f_equal. rewrite (encode_cons l (l' :: ls)), <- (assoc_L app). done.
Qed.

Lemma join_length ls : Forall label_ok ls -> (length ls <= S (length (join ls)))%nat.
Proof.
  induction ls as [|l ls IH]; intros Hok; [simpl; lia|]. apply Forall_cons in Hok as [[Hl _] Hok]. specialize (IH Hok).
  destruct ls as [|l' ls]; [simpl; lia|]. rewrite join_cons, !length_app. simpl length at 1 in IH. simpl length at 1. simpl. simpl in IH. lia.
Qed.

Lemma request_ok ls : Forall label_ok ls -> ls <> [] ->
  request (join ls) = Some (query_header ++ encode ls ++ [0; 0; 1; 0; 1]).
Proof.
  intros Hok Hne. unfold request. rewrite (add_segments_ok ls _ []) by (try apply join_length; done).
  cbn [mbind option_bind]. unfold finish. by rewrite <- (assoc_L app).
Qed.

(** ** A reply *)

(** The reply of a server to the query for [ls]: the header with [flags], the number
    [n] of answers and four more bytes, the question, and a first answer of type [t]
    whose name is a pointer to the question. *)
Definition reply (ls : list (list Z)) (flags : list Z) (n : Z) (counts : list Z) (t : Z) (ttl : list Z) (len : Z)
    (rdata more : list Z) : list Z :=
  (take 2 query_header ++ flags ++ [0; 1] ++ field16 (to_be 2 n) ++ counts) ++ encode ls ++ 0 ::
    [0; 1; 0; 1] ++ [0xC0; 0x0C; 0; t; 0; 1] ++ ttl ++ [0; len] ++ rdata ++ more.

Lemma byte_at_off pre tl j : byte_at (pre ++ tl) (length pre + j) = tl !! j.
Proof. unfold byte_at. rewrite lookup_app_r by lia. f_equal. lia. Qed.

Lemma view_off pre tl j n : (j + n <= length tl)%nat -> view (pre ++ tl) (length pre + j) n = Some (take n (drop j tl)).
Proof.
  intros H. unfold view. rewrite length_app. replace (_ <=? _)%nat with true by (symmetry; apply Nat.leb_le; lia).
  rewrite drop_app_ge by lia. by replace (length pre + j - length pre)%nat with j by lia.
Qed.

Lemma read16_off pre tl j hi lo : tl !! j = Some hi -> tl !! S j = Some lo -> 0 <= hi < 128 -> 0 <= lo < 128 ->
  hi = 0 -> read16 (pre ++ tl) (length pre + j) = Some lo.
Proof.
  intros H1 H2 Hh Hl ->. unfold read16. rewrite byte_at_off, H1. cbn [mbind option_bind].
  replace (S (length pre + j)) with (length pre + S j)%nat by lia. rewrite byte_at_off, H2. cbn [mbind option_bind].
  unfold schar. replace (lo <? 128) with true by lia. change (Z.shiftl (if 0 <? 128 then 0 else 0 - 256) 8) with 0.
  rewrite Z.lor_0_l. by rewrite u16_small by lia.
Qed.

Lemma header_count pre tl n : 0 <= n < 2 ^ 16 -> header_field (pre ++ field16 (to_be 2 n) ++ tl) (length pre) = Some n.
Proof.
  intros Hn. unfold header_field. pose proof (view_app pre (field16 (to_be 2 n)) tl) as Hv.
  unfold field16 in *. rewrite length_le_bytes in Hv. rewrite Hv. cbn [mbind option_bind].
  rewrite le_val_bytes. change (8 * Z.of_nat 2) with 16.
  pose proof (to_be_fits 2 n ltac:(done)) as Hf. unfold fits in Hf. change (8 * Z.of_nat 2) with 16 in Hf.
  rewrite Z.mod_small by done. f_equal. by apply to_ne_to_be.
Qed.

(** A name that is only a compression pointer to an offset below 128. *)
Lemma parse_pointer fuel buf ptr b name : byte_at buf ptr = Some 0xC0 -> byte_at buf (S ptr) = Some b -> 0 <= b < 128 ->
  follow 257 buf (Z.to_nat b) [] = Some name -> parse_dns_name (S fuel) buf ptr [] = Some (name, (ptr + 2)%nat).
Proof.
  intros H1 H2 Hb Hf. cbn [parse_dns_name]. rewrite H1. cbn [mbind option_bind]. change (Z.land 0xC0 0xC0 =? 0xC0) with true. cbv iota.
  rewrite H2. cbn [mbind option_bind]. change (Z.shiftl (Z.land 0xC0 0x3F) 8) with 0. unfold schar.
  replace (b <? 128) with true by lia. rewrite Z.lor_0_l, u8_small by lia. rewrite Hf. cbn [mbind option_bind]. do 2 f_equal. lia.
Qed.

(** The position of the data of the first answer. *)
Definition rdata_at (ls : list (list Z)) : nat := (12 + length (encode ls) + 5 + 12)%nat.

Lemma encode_length ls : (length ls <= length (encode ls))%nat.
Proof. induction ls as [|l ls IH]; [done|]. rewrite encode_cons. simpl. rewrite length_app. lia. Qed.

(** The first answer is handed to the callback, with its type and the place of its data. *)
Lemma first_answer {X} ls flags n counts t ttl len rdata more rest (f : list Z -> Z -> nat -> X -> option (Z * X)) st :
  Forall label_ok ls -> length flags = 2%nat -> length counts = 4%nat -> length ttl = 4%nat -> 1 <= n < 2 ^ 16 ->
  0 <= t < 128 -> 0 <= len < 128 -> let r := reply ls flags n counts t ttl len rdata more in
  Z.of_nat (length r) <= 256 ->
  send_answers (mkNet 0 0 0 r) rest f st =
    ('(status, st) ← f (r ++ drop (length r) rest) t (rdata_at ls) st;
     if negb (status =? 0) then Some (status, st)
     else answers (Z.to_nat (n - 1)) (r ++ drop (length r) rest) (f (r ++ drop (length r) rest)) (rdata_at ls + Z.to_nat len) st).
Proof.
  intros Hok Hfl Hco Httl Hn Ht Hlen r Hr. unfold send_answers, send. cbn [create_res send_res receive_res received].
  change (0 =? 0) with true. cbn [negb assert mbind option_bind].
  destruct flags as [|f0 [|f1 [|]]]; try done. destruct counts as [|c0 [|c1 [|c2 [|c3 [|]]]]]; try done.
  destruct ttl as [|x0 [|x1 [|x2 [|x3 [|]]]]]; try done.
  assert (E2 : take 2 r = take 2 query_header) by reflexivity.
  rewrite bool_decide_true by done. cbn [negb].
  assert (E12 : (12 <= length r)%nat) by (unfold r, reply; rewrite length_app; simpl; lia).
  replace (Z.of_nat (length r) <? 12) with false by lia. replace (256 <? Z.of_nat (length r)) with false by lia.
  cbn [mbind option_bind]. set (res := r ++ drop (length r) rest).
  set (post := drop (length r) rest) in *.
  set (tail := [0xC0; 0x0C; 0; t; 0; 1; x0; x1; x2; x3; 0; len] ++ rdata ++ more ++ post).
  set (hdr := take 2 query_header ++ [f0; f1] ++ [0; 1] ++ field16 (to_be 2 n) ++ [c0; c1; c2; c3]).
  assert (Ehdr : length hdr = 12%nat) by reflexivity.
  assert (E1 : res = hdr ++ encode ls ++ 0 :: [0; 1; 0; 1] ++ tail).
  { unfold res, r, reply, hdr, tail. rewrite <- !(assoc_L app). cbn [app]. by rewrite <- !(assoc_L app). }
  set (P := hdr ++ encode ls ++ [0; 0; 1; 0; 1]).
  assert (EP : res = P ++ tail) by (rewrite E1; unfold P; rewrite <- !(assoc_L app); reflexivity).
  assert (LP : length P = (12 + length (encode ls) + 5)%nat) by (unfold P; rewrite !length_app; simpl; lia).
  assert (Hq : header_field res 4 = Some 1).
  { rewrite E1. exact (header_count (take 2 query_header ++ [f0; f1]) _ 1 ltac:(lia)). }
  assert (Ha : header_field res 6 = Some n).
  { rewrite E1. unfold hdr. rewrite <- !(assoc_L app).
    exact (header_count (take 2 query_header ++ [f0; f1] ++ [0; 1]) ([c0; c1; c2; c3] ++ encode ls ++ 0 :: [0; 1; 0; 1] ++ tail) n ltac:(lia)). }
  rewrite Hq, Ha. cbn [mbind option_bind]. change (Z.to_nat 1) with 1%nat. cbn [skip_questions].
  assert (Hlab : (length ls < 257)%nat).
  { pose proof (encode_length ls). unfold r, reply in Hr. rewrite !length_app in Hr. lia. }
  replace 12%nat with (length hdr) at 1 by done. rewrite E1 at 1. rewrite skip_name_ok by done. cbn [mbind option_bind].
  replace (length hdr + length (encode ls) + 1 + 4)%nat with (length P) by (rewrite LP, Ehdr; lia).
  replace (Z.to_nat n) with (S (Z.to_nat (n - 1))) by lia. cbn [answers].
  assert (Hname : parse_dns_name 257 res (length P) [] = Some (join ls, (length P + 2)%nat)).
  { apply (parse_pointer 256 res (length P) 12); try lia.
    - rewrite EP. rewrite <- (Nat.add_0_r (length P)). by rewrite byte_at_off.
    - rewrite EP. replace (S (length P)) with (length P + 1)%nat by lia. by rewrite byte_at_off.
    - rewrite E1. exact (follow_ok ls 257 hdr _ [] Hok Hlab). }
  rewrite Hname. cbn [mbind option_bind]. rewrite EP at 1.
  rewrite (read16_off P tail 2 0 t) by (done || lia). cbn [mbind option_bind].
  replace (length P + 2 + 8)%nat with (length P + 10)%nat by lia. rewrite EP at 1.
  rewrite (read16_off P tail 10 0 len) by (done || lia). cbn [mbind option_bind].
  replace (length P + 2 + 10)%nat with (rdata_at ls) by (unfold rdata_at; lia). done.
Qed.

(** ** The theorems *)

(** The name in the request is the domain: for every domain of labels of 1 to 63 bytes, [resolve4] builds a request in which [parse_dns_name] finds the same domain again, and the type and class behind it. *)
Theorem request_round_trip ls : Forall label_ok ls -> ls <> [] -> (length (encode ls) <= 239)%nat ->
  exists req, request (join ls) = Some req /\
    parse_dns_name 257 req 12 [] = Some (join ls, (12 + length (encode ls) + 1)%nat) /\
    drop (12 + length (encode ls) + 1) req = [0; 1; 0; 1].
Proof.
  intros Hok Hne Hlen. pose proof (encode_length ls). exists (query_header ++ encode ls ++ [0; 0; 1; 0; 1]).
  split; [by apply request_ok|]. split.
  - exact (parse_name_ok ls 257 query_header [0; 1; 0; 1] [] Hok ltac:(lia)).
  - change (encode ls ++ [0; 0; 1; 0; 1]) with (encode ls ++ [0] ++ [0; 1; 0; 1]). rewrite !(assoc_L app).
    replace (12 + length (encode ls) + 1)%nat with (length ((query_header ++ encode ls) ++ [0])) by (rewrite !length_app; simpl; lia).
    apply drop_app_length.
Qed.

(** [resolve4] returns the address of the first answer: for a reply of at most 256 bytes that echoes the question and has an A record first, whatever follows it and whatever the buffer held before. *)
Theorem resolve4_correct ls flags n counts ttl ip more rest : Forall label_ok ls -> ls <> [] ->
  length flags = 2%nat -> length counts = 4%nat -> length ttl = 4%nat -> length ip = 4%nat -> 1 <= n < 2 ^ 16 ->
  Z.of_nat (length (reply ls flags n counts QTYPE_A ttl 4 ip more)) <= 256 ->
  resolve4 (join ls) (fun _ => mkNet 0 0 0 (reply ls flags n counts QTYPE_A ttl 4 ip more)) rest = Some (Some (le_val ip)).
Proof.
  intros Hok Hne Hf Hc Ht Hip Hn Hlen. unfold resolve4. rewrite request_ok by done. cbn [mbind option_bind].
  rewrite first_answer by (done || (unfold QTYPE_A; lia)).
  assert (Hv : view (reply ls flags n counts QTYPE_A ttl 4 ip more ++ drop (length (reply ls flags n counts QTYPE_A ttl 4 ip more)) rest)
    (rdata_at ls) 4 = Some ip).
  { set (post := drop _ rest).
    set (P := (take 2 query_header ++ flags ++ [0; 1] ++ field16 (to_be 2 n) ++ counts) ++ encode ls ++
      0 :: [0; 1; 0; 1] ++ [0xC0; 0x0C; 0; QTYPE_A; 0; 1] ++ ttl ++ [0; 4]).
    assert (EP : reply ls flags n counts QTYPE_A ttl 4 ip more ++ post = P ++ ip ++ more ++ post).
    { unfold reply, P. rewrite <- !(assoc_L app). cbn [app]. rewrite <- !(assoc_L app). cbn [app]. by rewrite <- !(assoc_L app). }
    assert (LP : length P = rdata_at ls).
    { unfold P, rdata_at. repeat (rewrite !length_app || cbn [length app]).
      rewrite Hf, Hc, Ht. unfold field16. rewrite length_le_bytes. change (length (take 2 query_header)) with 2%nat. lia. }
    rewrite EP, <- LP, <- Hip. apply view_app. }
  assert (Ho : forall buf p st, view buf p 4 = Some ip -> on_a buf QTYPE_A p st = Some (1, le_val ip)).
  { intros buf p st E. unfold on_a, parse_ipv4. by rewrite E. }
  rewrite (Ho _ _ _ Hv). reflexivity.
Qed.

(** A reply whose first answer is a CNAME record, which is how servers answer for an alias, fails the assertion in the callback: the program is stopped instead of the answer being skipped. *)
Theorem cname_answer_aborts ls flags n counts ttl len rdata more rest : Forall label_ok ls -> ls <> [] ->
  length flags = 2%nat -> length counts = 4%nat -> length ttl = 4%nat -> 1 <= n < 2 ^ 16 -> 0 <= len < 128 ->
  Z.of_nat (length (reply ls flags n counts QTYPE_CNAME ttl len rdata more)) <= 256 ->
  resolve4 (join ls) (fun _ => mkNet 0 0 0 (reply ls flags n counts QTYPE_CNAME ttl len rdata more)) rest = None.
Proof.
  intros Hok Hne Hf Hc Ht Hn Hl Hlen. unfold resolve4. rewrite request_ok by done. cbn [mbind option_bind].
  rewrite first_answer by (done || (unfold QTYPE_CNAME; lia)). reflexivity.
Qed.

(** The domain "a.bc". *)
Definition demo_labels : list (list Z) := [[97]; [98; 99]].

Lemma demo_labels_ok : Forall label_ok demo_labels.
Proof. repeat constructor; simpl; try lia; set_solver. Qed.

Lemma request_round_trip_witness : exists req, request [97; 46; 98; 99] = Some req /\
  parse_dns_name 257 req 12 [] = Some ([97; 46; 98; 99], 18%nat).
Proof.
  destruct (request_round_trip demo_labels demo_labels_ok ltac:(done) ltac:(simpl; lia)) as (req & H1 & H2 & _).
  exists req. split; [exact H1|exact H2].
Defined.

Lemma resolve4_correct_witness :
  resolve4 [97; 46; 98; 99] (fun _ => mkNet 0 0 0 (reply demo_labels [0x81; 0x80] 1 [0; 0; 0; 0] QTYPE_A [0; 0; 0; 60] 4 [10; 0; 2; 15] []))
    (replicate 256 0) = Some (Some 0x0F02000A).
Proof.
  exact (resolve4_correct demo_labels [0x81; 0x80] 1 [0; 0; 0; 0] [0; 0; 0; 60] [10; 0; 2; 15] [] (replicate 256 0)
    demo_labels_ok ltac:(done) eq_refl eq_refl eq_refl eq_refl ltac:(lia) ltac:(simpl; lia)).
Defined.

Lemma cname_answer_aborts_witness :
  resolve4 [97; 46; 98; 99] (fun _ => mkNet 0 0 0 (reply demo_labels [0x81; 0x80] 2 [0; 0; 0; 0] QTYPE_CNAME [0; 0; 0; 60] 4 [1; 100; 0xC0; 0x0E] []))
    (replicate 256 0) = None.
Proof.
  exact (cname_answer_aborts demo_labels [0x81; 0x80] 2 [0; 0; 0; 0] [0; 0; 0; 60] 4 [1; 100; 0xC0; 0x0E] [] (replicate 256 0)
    demo_labels_ok ltac:(done) eq_refl eq_refl eq_refl ltac:(lia) ltac:(lia) ltac:(simpl; lia)).
Defined.

End Dns.
