(* ===== verification/Dhcp.v ===== *)
(** * The DHCP client (src/src/dev/net/dhcp.cpp)

    [dhcp_discover] broadcasts a request for an address; [dhcp_process_packet]
    answers an offer with a request and takes the address of an acknowledgement.
    A message is the bytes of a UDP datagram; the header has 240 bytes, the
    options follow.  [None] is an access outside the received bytes or the use of
    a variable that was not set.  The event that wakes the threads which wait for
    an address is not part of the state. *)

From S2P Require Import Prelude Bits NetPacket Arp.

Module Dhcp.
Import NetPacket Arp.

Definition OPT_PAD : Z := 0.
Definition OPT_SUBNET_MASK : Z := 1.
Definition OPT_DNS_SERVER : Z := 6.
Definition OPT_REQUESTED_IP : Z := 50.
Definition OPT_LEASE_TIME : Z := 51.
Definition OPT_MESSAGE_TYPE : Z := 53.
Definition OPT_DHCP_SERVER : Z := 54.
Definition OPT_PARAMETER_REQUEST_LIST : Z := 55.
Definition OPT_END : Z := 0xFF.

Definition DISCOVER : Z := 1.
Definition OFFER : Z := 2.
Definition REQUEST : Z := 3.
Definition ACK : Z := 5.

(** ** Messages *)

Record DhcpHeader := mkDhcp {
  op : Z; d_htype : Z; d_hlen : Z; hops : Z; xid : Z; secs : Z; flags : Z; ciaddr : Z; yiaddr : Z; siaddr : Z; giaddr : Z;
  chaddr : Z; zero : Z; magic_cookie : Z }.

Definition dhcp_serialize (h : DhcpHeader) : DhcpHeader :=
  mkDhcp (op h) (d_htype h) (d_hlen h) (hops h) (to_be 4 (xid h)) (to_be 2 (secs h)) (to_be 2 (flags h)) (ciaddr h) (yiaddr h) (siaddr h)
    (giaddr h) (chaddr h) (zero h) (magic_cookie h).

Definition dhcp_bytes (h : DhcpHeader) : list Z :=
  pack [(1%nat, op h); (1%nat, d_htype h); (1%nat, d_hlen h); (1%nat, hops h); (4%nat, xid h); (2%nat, secs h); (2%nat, flags h);
        (4%nat, ciaddr h); (4%nat, yiaddr h); (4%nat, siaddr h); (4%nat, giaddr h); (16%nat, chaddr h); (192%nat, zero h);
        (4%nat, magic_cookie h)].

(** The header of the messages that are sent. *)
Definition client_header (nic : Nic) (siaddr : Z) : DhcpHeader :=
  dhcp_serialize (mkDhcp 1 1 6 0 0x3903F326 0 0 0 0 siaddr 0 (mac nic) 0 (to_be 4 0x63825363)).

Definition discover_options : list Z :=
  [OPT_MESSAGE_TYPE; 1; DISCOVER; OPT_PARAMETER_REQUEST_LIST; 1; 6; 4; 1; OPT_END].

Definition request_options (ip siaddr : Z) : list Z :=
  [OPT_MESSAGE_TYPE; 1; REQUEST; OPT_REQUESTED_IP; 4] ++ le_bytes 4 ip ++ [OPT_DHCP_SERVER; 4] ++ le_bytes 4 siaddr ++ [OPT_END].

(** A broadcast of the message; [buffer] is the new packet's memory. *)
Definition dhcp_frame (nic : Nic) (message buffer : list Z) : option (list Z) :=
  let payload_size := 8 + Z.of_nat (length message) in
  p ← add_ethernet (mac nic) BROADCAST_MAC ETHER_IPV4 (new_packet buffer);
  p ← add_ipv4 IP_UDP payload_size 0 0xFFFFFFFF p;
  p ← add_udp 68 67 (payload_size - 8) p;
  p ← add_header message p;
  Some (data p).

Definition dhcp_discover (nic : Nic) (buffer : list Z) : option (list Z) :=
  dhcp_frame nic (dhcp_bytes (client_header nic 0) ++ discover_options) buffer.

(** ** Receiving *)

(** [n] bytes at [off] of the message, as a number. *)
Definition field (tmp : list Z) (off n : nat) : option Z :=
  _ ← assert (off + n <=? length tmp)%nat; Some (le_val (take n (drop off tmp))).

(** The variables of the loop; [type] is not initialised. *)
Record found := mkFound { lease_seconds : Z; dns_server : Z; subnet_mask_opt : Z; type : option Z }.

Definition nothing : found := mkFound 0 0 0 None.

(** One option at [i] behind the header. *)
Definition option_at (tmp : list Z) (i : nat) (o : Z) (f : found) : option found :=
  if o =? OPT_SUBNET_MASK then
    v ← field tmp (240 + i + 2) 4; Some (mkFound (lease_seconds f) (dns_server f) v (type f))
  else if o =? OPT_DNS_SERVER then
    v ← field tmp (240 + i + 2) 4; Some (mkFound (lease_seconds f) v (subnet_mask_opt f) (type f))
  else if o =? OPT_LEASE_TIME then
    v ← field tmp (240 + i + 2) 4; Some (mkFound (to_ne_from_be 4 v) (dns_server f) (subnet_mask_opt f) (type f))
  else if o =? OPT_MESSAGE_TYPE then
    v ← field tmp (240 + i + 2) 1; Some (mkFound (lease_seconds f) (dns_server f) (subnet_mask_opt f) (Some v))
  else Some f.

(** The loop over the options; [i] grows by at least one, so a round per byte is
    enough. *)
Fixpoint options_loop (fuel : nat) (tmp : list Z) (options_len i : nat) (f : found) : option found :=
  if (i <? options_len)%nat then
    match fuel with
    | O => None
    | S fuel =>
        o ← field tmp (240 + i) 1;
        if o =? OPT_PAD then options_loop fuel tmp options_len (i + 1) f
        else
          f ← option_at tmp i o f;
          len ← field tmp (240 + i + 1) 1;
          options_loop fuel tmp options_len (i + 2 + Z.to_nat len) f
    end
  else Some f.

(** [dhcp_process_packet]: the state of the interface and the frame that is sent. *)
Definition dhcp_process_packet (nic : Nic) (raw buffer : list Z) : option (Nic * list (list Z)) :=
  hdr ← udp_read raw;
  let size := u64 (udp_length (udp_deserialize hdr) - 8) in
  _ ← assert (8 + size <=? Z.of_nat (length raw));
  let tmp := take (Z.to_nat size) (drop 8 raw) in
  _ ← field tmp 4 8;
  chaddr ← field tmp 28 6;
  if negb (chaddr =? mac nic) then Some (nic, [])
  else
    ip ← field tmp 16 4;
    f ← options_loop (length tmp) tmp (Z.to_nat (u16 (Z.of_nat (length tmp) - 240))) 0 nothing;
    t ← type f;
    siaddr ← field tmp 20 4;
    if t =? OFFER then
      frame ← dhcp_frame nic (dhcp_bytes (client_header nic siaddr) ++ request_options ip siaddr) buffer;
      Some (nic, [frame])
    else if t =? ACK then
      giaddr ← field tmp 24 4;
      Some (mkNic (mac nic) ip (subnet_mask_opt f) (if giaddr =? 0 then siaddr else giaddr), [])
    else Some (nic, []).

(** ** Options *)

(** A list of options on the wire. *)
Definition tlv (o : Z * list Z) : list Z := fst o :: Z.of_nat (length (snd o)) :: snd o.
Definition wire (os : list (Z * list Z)) : list Z := mjoin (map tlv os).

(** Neither padding nor the end, a length that fits into a byte, and 4 bytes for
    the numbers and at least one for the message type. *)
Definition option_ok (o : Z * list Z) : Prop :=
  0 < fst o < 255 /\ (length (snd o) < 256)%nat /\ byte_list (snd o) /\
  (fst o = OPT_SUBNET_MASK \/ fst o = OPT_DNS_SERVER \/ fst o = OPT_LEASE_TIME -> length (snd o) = 4%nat) /\
  (fst o = OPT_MESSAGE_TYPE -> length (snd o) = 1%nat).

(** What an option means. *)
Definition note (f : found) (o : Z * list Z) : found :=
  let v := le_val (snd o) in
  if fst o =? OPT_SUBNET_MASK then mkFound (lease_seconds f) (dns_server f) v (type f)
  else if fst o =? OPT_DNS_SERVER then mkFound (lease_seconds f) v (subnet_mask_opt f) (type f)
  else if fst o =? OPT_LEASE_TIME then mkFound (to_ne_from_be 4 v) (dns_server f) (subnet_mask_opt f) (type f)
  else if fst o =? OPT_MESSAGE_TYPE then mkFound (lease_seconds f) (dns_server f) (subnet_mask_opt f) (Some v)
  else f.

(** The options of RFC 2132: padding is skipped, the end option ends them; [None]
    when there is no end option. *)
Fixpoint decode (fuel : nat) (bs : list Z) : option (list (Z * list Z)) :=
  match fuel with
  | O => None
  | S fuel =>
      match bs with
      | [] => None
      | o :: bs =>
          if o =? OPT_PAD then decode fuel bs
          else if o =? OPT_END then Some []
          else
            match bs with
            | [] => None
            | len :: bs =>
                _ ← assert (Z.to_nat len <=? length bs)%nat;
                os ← decode fuel (drop (Z.to_nat len) bs);
                Some ((o, take (Z.to_nat len) bs) :: os)
            end
      end
  end.

Lemma field_app pre l post : field (pre ++ l ++ post) (length pre) (length l) = Some (le_val l).
Proof.
  unfold field. rewrite !length_app. rewrite (proj2 (Nat.leb_le _ _)) by lia. cbn [assert mbind option_bind].
  by rewrite drop_app_length, take_app_length.
Qed.

Lemma field_byte pre b post : field (pre ++ b :: post) (length pre) 1 = Some b.
Proof. pose proof (field_app pre [b] post) as H. cbn [length app le_val] in H. rewrite H. f_equal. lia. Qed.

Lemma option_at_ok pre o post i f : option_ok o -> (length pre = 240 + i)%nat ->
  option_at (pre ++ tlv o ++ post) i (fst o) f = Some (note f o).
Proof.
  intros (_ & _ & _ & H4 & H1) Hp. unfold option_at, note, tlv.
  assert (Hf : forall n, length (snd o) = n -> field (pre ++ (fst o :: Z.of_nat (length (snd o)) :: snd o) ++ post) (240 + i + 2) n = Some (le_val (snd o))).
  { intros n <-. pose proof (field_app (pre ++ [fst o; Z.of_nat (length (snd o))]) (snd o) post) as H.
    rewrite <- (assoc_L app) in H. cbn [app] in H. rewrite length_app in H. cbn [length] in H. rewrite Hp in H. exact H. }
  destruct (fst o =? OPT_SUBNET_MASK) eqn:E1; bool_to_prop; [rewrite Hf by auto; done|].
  destruct (fst o =? OPT_DNS_SERVER) eqn:E2; bool_to_prop; [rewrite Hf by auto; done|].
  destruct (fst o =? OPT_LEASE_TIME) eqn:E3; bool_to_prop; [rewrite Hf by auto; done|].
  destruct (fst o =? OPT_MESSAGE_TYPE) eqn:E4; bool_to_prop; [rewrite Hf by auto; done|done].
Qed.

Lemma wire_cons o os : wire (o :: os) = tlv o ++ wire os.
Proof. reflexivity. Qed.

(** The loop notes every option in turn. *)
Lemma options_loop_ok os : forall fuel pre post i n f, Forall option_ok os -> (length pre = 240 + i)%nat ->
  (length os <= fuel)%nat -> (i + length (wire os) <= n)%nat ->
  options_loop fuel (pre ++ wire os ++ post) n i f =
    options_loop (fuel - length os) (pre ++ wire os ++ post) n (i + length (wire os)) (foldl note f os).
Proof.
  induction os as [|o os IH]; intros fuel pre post i n f Hok Hp Hf Hn.
  { cbn [wire map mjoin list_join length app foldl]. rewrite Nat.sub_0_r, Nat.add_0_r. done. }
  apply Forall_cons in Hok as [Ho Hok]. destruct fuel as [|fuel]; [simpl in Hf; lia|].
  rewrite wire_cons in *. rewrite length_app in Hn. pose proof Ho as (Hr & Hl & _). rewrite <- (assoc_L app).
  assert (Ht : (length (tlv o) = 2 + length (snd o))%nat) by reflexivity.
  assert (Hop : field (pre ++ tlv o ++ wire os ++ post) (240 + i) 1 = Some (fst o)).
  { rewrite <- Hp. unfold tlv. apply field_byte. }
  cbn [options_loop]. rewrite (proj2 (Nat.ltb_lt _ _)) by lia. rewrite Hop. cbn [mbind option_bind].
  replace (fst o =? OPT_PAD) with false by (unfold OPT_PAD; lia).
  rewrite option_at_ok by done. cbn [mbind option_bind].
  assert (Hlen : field (pre ++ tlv o ++ wire os ++ post) (240 + i + 1) 1 = Some (Z.of_nat (length (snd o)))).
  { unfold tlv. change ((fst o :: ?x :: ?y) ++ ?z) with ([fst o] ++ (x :: y ++ z)). rewrite (assoc_L app).
    replace (240 + i + 1)%nat with (length (pre ++ [fst o])) by (rewrite length_app; simpl; lia). apply field_byte. }
  rewrite Hlen. cbn [mbind option_bind]. rewrite Nat2Z.id.
  rewrite (assoc_L app pre (tlv o)).
  replace (i + 2 + length (snd o))%nat with (i + length (tlv o))%nat by (rewrite Ht; lia).
  rewrite IH by (try done; rewrite ?length_app; simpl in Hf; lia). cbn [foldl length]. rewrite Nat.sub_succ. f_equal.
  rewrite length_app. lia.
Qed.

(** Padding is skipped to the end. *)
Lemma options_loop_pads k : forall fuel pre i n f, (length pre = 240 + i)%nat -> (n = i + k)%nat -> (k <= fuel)%nat ->
  options_loop fuel (pre ++ replicate k 0) n i f = Some f.
Proof.
  induction k as [|k IH]; intros fuel pre i n f Hp -> Hf.
  { destruct fuel; cbn [options_loop]; by rewrite (proj2 (Nat.ltb_ge _ _)) by lia. }
  destruct fuel as [|fuel]; [lia|]. cbn [replicate options_loop]. rewrite (proj2 (Nat.ltb_lt _ _)) by lia.
  rewrite <- Hp at 1. rewrite field_byte. cbn [mbind option_bind]. change (0 =? OPT_PAD) with true. cbn match.
  change (0 :: replicate k 0) with ([0] ++ replicate k 0). rewrite (assoc_L app).
  apply IH; rewrite ?length_app; simpl; lia.
Qed.

(** The end option, when a byte follows it. *)
Lemma options_loop_end k fuel pre i n f : (length pre = 240 + i)%nat -> (n = i + 2 + k)%nat -> (1 + k <= fuel)%nat ->
  options_loop fuel (pre ++ 255 :: 0 :: replicate k 0) n i f = Some f.
Proof.
  intros Hp -> Hf. destruct fuel as [|fuel]; [lia|]. cbn [options_loop]. rewrite (proj2 (Nat.ltb_lt _ _)) by lia.
  rewrite <- Hp at 1. rewrite field_byte. cbn [mbind option_bind]. change (255 =? OPT_PAD) with false. cbn match.
  change (option_at _ i 255 f) with (Some f). cbn [mbind option_bind].
  change (255 :: 0 :: replicate k 0) with ([255] ++ 0 :: replicate k 0). rewrite (assoc_L app).
  replace (240 + i + 1)%nat with (length (pre ++ [255])) at 1 by (rewrite length_app; simpl; lia). rewrite field_byte.
  cbn [mbind option_bind]. change (0 :: replicate k 0) with ([0] ++ replicate k 0). rewrite (assoc_L app).
  change (Z.to_nat 0) with 0%nat. apply options_loop_pads; rewrite ?length_app; simpl; lia.
Qed.

(** Without one, the length is read behind the message. *)
Lemma options_loop_last fuel pre i n f : (length pre = 240 + i)%nat -> (i < n)%nat ->
  options_loop fuel (pre ++ [255]) n i f = None.
Proof.
  intros Hp Hi. destruct fuel as [|fuel]; cbn [options_loop]; rewrite (proj2 (Nat.ltb_lt _ _)) by lia; [done|].
  rewrite <- Hp at 1. rewrite field_byte. cbn [mbind option_bind]. change (255 =? OPT_PAD) with false. cbn match.
  change (option_at _ i 255 f) with (Some f). cbn [mbind option_bind]. unfold field.
  rewrite length_app. cbn [length]. by rewrite (proj2 (Nat.leb_gt _ _)) by lia.
Qed.

(** ** Replies of a server *)

Definition dhcp_fit (h : DhcpHeader) : Prop :=
  fits 32 (yiaddr h) /\ fits 32 (siaddr h) /\ fits 32 (giaddr h) /\ fits 48 (chaddr h).

Lemma length_dhcp_bytes h : length (dhcp_bytes h) = 240%nat.
Proof. unfold dhcp_bytes. by rewrite length_pack. Qed.

Lemma field_at pre n v post : 0 <= v < 2 ^ (8 * Z.of_nat n) -> field (pre ++ le_bytes n v ++ post) (length pre) n = Some v.
Proof.
  intros H. pose proof (field_app pre (le_bytes n v) post) as E. rewrite length_le_bytes, le_val_bytes, Z.mod_small in E by done. exact E.
Qed.

(** The four fields of the header that are read. *)
Lemma dhcp_fields h rest : dhcp_fit h -> let tmp := dhcp_bytes h ++ rest in
  field tmp 16 4 = Some (yiaddr h) /\ field tmp 20 4 = Some (siaddr h) /\ field tmp 24 4 = Some (giaddr h) /\
  field tmp 28 6 = Some (chaddr h) /\ is_Some (field tmp 4 8).
Proof.
  intros (H1 & H2 & H3 & H4) tmp.
  set (a := pack [(1%nat, op h); (1%nat, d_htype h); (1%nat, d_hlen h); (1%nat, hops h); (4%nat, xid h); (2%nat, secs h); (2%nat, flags h); (4%nat, ciaddr h)]).
  set (b := pack [(192%nat, zero h); (4%nat, magic_cookie h)] ++ rest).
  assert (E : tmp = a ++ le_bytes 4 (yiaddr h) ++ le_bytes 4 (siaddr h) ++ le_bytes 4 (giaddr h) ++ le_bytes 16 (chaddr h) ++ b).
  { unfold tmp, a, b, dhcp_bytes. cbn [pack]. rewrite ?app_nil_r. by rewrite <- !(assoc_L app). }
  assert (Ha : length a = 16%nat) by (unfold a; by rewrite length_pack).
  assert (Hl : forall n v, length (le_bytes n v) = n) by (intros; apply length_le_bytes).
  clearbody tmp a b. subst tmp. split_and!.
  - rewrite <- Ha at 2. by apply field_at.
  - rewrite (assoc_L app a). replace 20%nat with (length (a ++ le_bytes 4 (yiaddr h))) at 1 by (by rewrite length_app, Ha, Hl). by apply field_at.
  - do 2 rewrite (assoc_L app _ (le_bytes 4 _)). replace 24%nat with (length ((a ++ le_bytes 4 (yiaddr h)) ++ le_bytes 4 (siaddr h))) at 1 by (by rewrite !length_app, Ha, !Hl).
    by apply field_at.
  - replace (le_bytes 16 (chaddr h)) with (le_bytes 6 (chaddr h) ++ drop 6 (le_bytes 16 (chaddr h))) by reflexivity.
    rewrite <- (assoc_L app (le_bytes 6 _)). do 3 rewrite (assoc_L app _ (le_bytes 4 _)).
    replace 28%nat with (length (((a ++ le_bytes 4 (yiaddr h)) ++ le_bytes 4 (siaddr h)) ++ le_bytes 4 (giaddr h))) at 1 by (by rewrite !length_app, Ha, !Hl).
    by apply field_at.
  - unfold field. rewrite !length_app, Ha, !Hl. rewrite (proj2 (Nat.leb_le _ _)) by lia. by eexists.
Qed.

(** A reply of a server with options [os], the end option and [pads] bytes behind it. *)
Definition reply (h : DhcpHeader) (os : list (Z * list Z)) (pads : nat) : list Z :=
  let message := dhcp_bytes h ++ wire os ++ 255 :: replicate pads 0 in
  udp_wire 67 68 (Z.of_nat (length message)) ++ message.

(** The datagram is unpacked, and what happens depends on the options. *)
Lemma process_reply nic h message buffer tail : dhcp_fit h -> message = dhcp_bytes h ++ tail -> Z.of_nat (length message) < 2 ^ 16 - 8 -> chaddr h = mac nic ->
  dhcp_process_packet nic (udp_wire 67 68 (Z.of_nat (length message)) ++ message) buffer =
    (f ← options_loop (length message) message (length tail) 0 nothing;
     t ← type f;
     if t =? OFFER then
       frame ← dhcp_frame nic (dhcp_bytes (client_header nic (siaddr h)) ++ request_options (yiaddr h) (siaddr h)) buffer;
       Some (nic, [frame])
     else if t =? ACK then
       Some (mkNic (mac nic) (yiaddr h) (subnet_mask_opt f) (if giaddr h =? 0 then siaddr h else giaddr h), [])
     else Some (nic, [])).
Proof.
  intros Hh Em Hlen Hmac. destruct (dhcp_fields h tail Hh) as (E1 & E2 & E3 & E4 & [v E5]). rewrite <- Em in *.
  assert (Hlt : (length message = 240 + length tail)%nat) by (by rewrite Em, length_app, length_dhcp_bytes).
  assert (Hfit : udp_fit (mkUdp 67 68 (8 + Z.of_nat (length message)) 0)) by (split_and!; simpl; unfold fits in *; lia).
  assert (Er : udp_read (udp_wire 67 68 (Z.of_nat (length message)) ++ message) = Some (udp_serialize (mkUdp 67 68 (8 + Z.of_nat (length message)) 0))).
  { unfold udp_wire. rewrite u16_small by lia. apply udp_read_bytes. by apply udp_ser_fit. }
  unfold dhcp_process_packet. rewrite Er.
  cbn [mbind option_bind]. rewrite udp_deser_ser by done. cbn [udp_length]. cbn zeta.
  replace (8 + Z.of_nat (length message) - 8) with (Z.of_nat (length message)) by lia. rewrite u64_small by lia.
  rewrite length_app, length_udp_wire. rewrite (proj2 (Z.leb_le _ _)) by lia. cbn [assert mbind option_bind].
  rewrite drop_app_length' by (by rewrite length_udp_wire). rewrite Nat2Z.id, firstn_all.
  rewrite E5, E4, E1, E2, E3. cbn [mbind option_bind]. rewrite Hmac, Z.eqb_refl. cbn [negb].
  replace (Z.to_nat (u16 (Z.of_nat (length message) - 240))) with (length tail) by (rewrite u16_small; lia). reflexivity.
Qed.

(** The frame that is sent. *)
Definition sent_frame (nic : Nic) (message : list Z) : list Z :=
  let n := Z.of_nat (length message) in
  eth_wire (mac nic) BROADCAST_MAC ETHER_IPV4 ++ ipv4_wire IP_UDP (8 + n) 0 0xFFFFFFFF ++ udp_wire 68 67 n ++ message.

Lemma dhcp_frame_ok nic message buffer : length buffer = (42 + length message)%nat -> Z.of_nat (length message) < 2 ^ 16 ->
  dhcp_frame nic message buffer = Some (sent_frame nic message).
Proof.
  intros Hb Hm. assert (HB : Built [] (42 + length message) (new_packet buffer)) by (rewrite <- Hb; apply built_new; lia).
  unfold dhcp_frame. cbn zeta. set (n := Z.of_nat (length message)).
  destruct (add_ethernet_built [] (28 + length message) _ (mac nic) BROADCAST_MAC ETHER_IPV4 HB) as (p1 & -> & H1). cbn [mbind option_bind].
  destruct (add_ipv4_built _ (8 + length message) p1 IP_UDP (8 + n) 0 0xFFFFFFFF H1) as (p2 & -> & H2). cbn [mbind option_bind].
  replace (8 + n - 8) with n by lia.
  destruct (add_udp_built _ (length message) p2 68 67 n H2) as (p3 & -> & H3). cbn [mbind option_bind].
  rewrite <- (Nat.add_0_r (length message)) in H3. destruct (add_header_built _ 0 p3 message H3) as (p4 & -> & H4). cbn [mbind option_bind].
  rewrite (built_full _ _ H4). unfold sent_frame. by rewrite <- !app_assoc.
Qed.

Lemma length_wire_fuel os : (length os <= length (wire os))%nat.
Proof. induction os as [|o os IH]; [simpl; lia|]. rewrite wire_cons, length_app. simpl. lia. Qed.

(** All options of a reply with a byte behind the end option are noted. *)
Lemma reply_options h os k : Forall option_ok os -> (1 <= k)%nat ->
  let tail := wire os ++ 255 :: replicate k 0 in
  options_loop (length (dhcp_bytes h ++ tail)) (dhcp_bytes h ++ tail) (length tail) 0 nothing = Some (foldl note nothing os).
Proof.
  intros Hok Hk tail. destruct k as [|k]; [lia|]. cbn [replicate] in tail. pose proof (length_wire_fuel os).
  assert (Hl : length tail = (length (wire os) + 2 + k)%nat) by (unfold tail; rewrite length_app; cbn [length]; rewrite length_replicate; lia).
  rewrite length_app, length_dhcp_bytes, Hl. unfold tail.
  rewrite options_loop_ok by (try done; rewrite ?length_app, ?length_dhcp_bytes; cbn [length]; rewrite ?length_replicate; lia). rewrite (assoc_L app).
  apply options_loop_end; rewrite ?length_app, ?length_dhcp_bytes; cbn [length]; rewrite ?length_replicate; lia.
Qed.

(** ** Claims *)

(** An offer to this interface is answered with one broadcast that asks for the
    address of the offer and names the server, as an RFC 2132 decoder reads it; an
    acknowledgement then sets the address, the mask from its options, and as the
    gateway the relay agent or the server. *)
Theorem dhcp_lease (nic : Nic) (ho ha : DhcpHeader) (oso osa : list (Z * list Z)) (po pa : nat) (buffer buffer' : list Z) :
  dhcp_fit ho -> dhcp_fit ha -> chaddr ho = mac nic -> chaddr ha = mac nic -> Forall option_ok oso -> Forall option_ok osa ->
  type (foldl note nothing oso) = Some OFFER -> type (foldl note nothing osa) = Some ACK -> (1 <= po)%nat -> (1 <= pa)%nat ->
  Z.of_nat (length (wire oso) + po) < 65000 -> Z.of_nat (length (wire osa) + pa) < 65000 -> length buffer = 298%nat ->
  let request := request_options (yiaddr ho) (siaddr ho) in
  dhcp_process_packet nic (reply ho oso po) buffer =
    Some (nic, [sent_frame nic (dhcp_bytes (client_header nic (siaddr ho)) ++ request)]) /\
  decode 4 request = Some [(OPT_MESSAGE_TYPE, [REQUEST]); (OPT_REQUESTED_IP, le_bytes 4 (yiaddr ho)); (OPT_DHCP_SERVER, le_bytes 4 (siaddr ho))] /\
  dhcp_process_packet nic (reply ha osa pa) buffer' =
    Some (mkNic (mac nic) (yiaddr ha) (subnet_mask_opt (foldl note nothing osa)) (if giaddr ha =? 0 then siaddr ha else giaddr ha), []).
Proof.
  intros Hfo Hfa Hco Hca Hoo Hoa Hto Hta Hpo Hpa Hlo Hla Hb request.
  assert (Hlen : forall h os k, Z.of_nat (length (wire os) + k) < 65000 -> Z.of_nat (length (dhcp_bytes h ++ wire os ++ 255 :: replicate k 0)) < 2 ^ 16 - 8).
  { intros h os k H. rewrite !length_app, length_dhcp_bytes. cbn [length]. rewrite length_replicate. lia. }
  split_and!.
  - unfold reply. cbn zeta. rewrite (process_reply nic ho _ buffer _ Hfo eq_refl) by auto. rewrite reply_options by done.
    cbn [mbind option_bind]. rewrite Hto. cbn [mbind option_bind]. change (OFFER =? OFFER) with true. cbn match.
    rewrite dhcp_frame_ok; [done| |]; rewrite length_app, length_dhcp_bytes; [exact Hb|reflexivity].
  - reflexivity.
  - unfold reply. cbn zeta. rewrite (process_reply nic ha _ buffer' _ Hfa eq_refl) by auto. rewrite reply_options by done.
    cbn [mbind option_bind]. rewrite Hta. reflexivity.
Qed.

Definition demo_nic : Nic := mkNic 0x665544332211 0 0 0.
Definition demo_reply : DhcpHeader := mkDhcp 2 1 6 0 0 0 0 0 0x0F02000A 0x0202000A 0 0x665544332211 0 (to_be 4 0x63825363).
Definition demo_options (t : Z) : list (Z * list Z) := [(OPT_MESSAGE_TYPE, [t]); (OPT_SUBNET_MASK, [255; 255; 255; 0]); (3, [10; 0; 2; 2])].
Lemma demo_options_ok t : 0 <= t < 256 -> Forall option_ok (demo_options t).
Proof. intros H. repeat constructor; simpl; try lia; intros; unfold OPT_SUBNET_MASK, OPT_DNS_SERVER, OPT_LEASE_TIME, OPT_MESSAGE_TYPE in *; lia. Qed.

Lemma dhcp_lease_witness : dhcp_process_packet demo_nic (reply demo_reply (demo_options ACK) 1) [] =
  Some (mkNic 0x665544332211 0x0F02000A 0x00FFFFFF 0x0202000A, []).
Proof.
  refine (proj2 (proj2 (dhcp_lease demo_nic demo_reply demo_reply (demo_options OFFER) (demo_options ACK) 1 1 (replicate 298 0) [] _ _ eq_refl eq_refl _ _ eq_refl eq_refl _ _ _ _ eq_refl))).
  - unfold dhcp_fit, fits. simpl. lia.
  - unfold dhcp_fit, fits. simpl. lia.
  - apply demo_options_ok. unfold OFFER. lia.
  - apply demo_options_ok. unfold ACK. lia.
  - lia.
  - lia.
  - simpl. lia.
  - simpl. lia.
Defined.

(** A reply whose last byte is the end option makes the client read the length of
    that option behind the message. *)
Theorem end_option_read_past (nic : Nic) (h : DhcpHeader) (os : list (Z * list Z)) (buffer : list Z) :
  dhcp_fit h -> chaddr h = mac nic -> Forall option_ok os -> Z.of_nat (length (wire os)) < 65000 ->
  dhcp_process_packet nic (reply h os 0) buffer = None.
Proof.
  intros Hf Hc Hok Hl. pose proof (length_wire_fuel os). unfold reply. cbn zeta.
  rewrite (process_reply nic h _ buffer _ Hf eq_refl); [|rewrite !length_app, length_dhcp_bytes; simpl; lia|done].
  cbn [replicate]. rewrite !length_app, length_dhcp_bytes. rewrite options_loop_ok by (try done; rewrite ?length_dhcp_bytes; simpl; lia).
  rewrite (assoc_L app), options_loop_last; [done|rewrite length_app, length_dhcp_bytes; lia|simpl; lia].
Qed.

Lemma end_option_read_past_witness : dhcp_process_packet demo_nic (reply demo_reply (demo_options OFFER) 0) [] = None.
Proof.
  apply end_option_read_past.
  - unfold dhcp_fit, fits. simpl. lia.
  - reflexivity.
  - apply demo_options_ok. unfold OFFER. lia.
  - simpl. lia.
Defined.

(** The discover message that is broadcast has no end option for an RFC 2132
    decoder: the parameter request list is given the length 1, so its second
    parameter is read as an option whose value is the end option. *)
Theorem discover_has_no_end (nic : Nic) (buffer : list Z) (fuel : nat) : length buffer = 291%nat ->
  dhcp_discover nic buffer = Some (sent_frame nic (dhcp_bytes (client_header nic 0) ++ discover_options)) /\
  decode fuel discover_options = None.
Proof.
  intros Hb. split.
  - unfold dhcp_discover. apply dhcp_frame_ok; rewrite length_app, length_dhcp_bytes; [exact Hb|reflexivity].
  - do 5 (destruct fuel as [|fuel]; [reflexivity|]). reflexivity.
Qed.

Lemma discover_has_no_end_witness : dhcp_discover demo_nic (replicate 291 0) = Some (sent_frame demo_nic (dhcp_bytes (client_header demo_nic 0) ++ discover_options)) /\
  decode 20 discover_options = None.
Proof. by apply discover_has_no_end. Defined.

End Dhcp.
