(* ===== verification/InputQueue.v ===== *)
(** * The queue of input events (src/src/sys/event_queue.cpp, event_queue.hpp)

    A ring of 256 places between the drivers of input devices and the desktop.  A
    ring has one place less than it has entries, and an event that finds it full is
    lost.  [signals] counts how often [produce_event] was signalled. *)

From S2P Require Import Prelude.

Module InputQueue.

Record MouseEvent := mkMouse {
  x_movement : Z; y_movement : Z; z_movement : Z; left_pressed : bool; right_pressed : bool; middle_pressed : bool }.
Inductive InputEvent := Key (code : Z) (pressed : bool) | Mouse (m : MouseEvent).

Definition MAX_EVENTS : Z := 256.

Record EventQueue := mkQueue { events : list InputEvent; producer_ptr : Z; consumer_ptr : Z; signals : Z }.

Definition push (event : InputEvent) (q : EventQueue) : option EventQueue :=
  let next := (producer_ptr q + 1) mod MAX_EVENTS in
  if next =? consumer_ptr q then Some q
  else
    _ ← assert (Z.to_nat (producer_ptr q) <? length (events q))%nat;
    Some (mkQueue (<[Z.to_nat (producer_ptr q) := event]> (events q)) next (consumer_ptr q) (u64 (signals q + 1))).

(** [None] in the pair is [false]. *)
Definition consume (q : EventQueue) : option (option InputEvent * EventQueue) :=
  if consumer_ptr q =? producer_ptr q then Some (None, q)
  else
    res ← events q !! Z.to_nat (consumer_ptr q);
    Some (Some res, mkQueue (events q) (producer_ptr q) ((consumer_ptr q + 1) mod MAX_EVENTS) (signals q)).

Definition is_empty (q : EventQueue) : bool := consumer_ptr q =? producer_ptr q.

(** ** The sequence of events that the ring holds *)

Definition place (q : EventQueue) (k : nat) : nat := Z.to_nat ((consumer_ptr q + Z.of_nat k) mod MAX_EVENTS).

Record Rep (q : EventQueue) (l : list InputEvent) : Prop := mkRep {
  rep_size : length (events q) = 256%nat;
  rep_from : 0 <= consumer_ptr q < 256;
  rep_to : producer_ptr q = (consumer_ptr q + Z.of_nat (length l)) mod MAX_EVENTS;
  rep_room : (length l <= 255)%nat;
  rep_held : forall k x, l !! k = Some x -> events q !! place q k = Some x }.

(** A bounded queue. *)
Definition put (e : InputEvent) (l : list InputEvent) : list InputEvent := if (length l <? 255)%nat then l ++ [e] else l.

Inductive op := Push (e : InputEvent) | Consume.

(** What the operations give: the events that are consumed, in turn. *)
Fixpoint run (os : list op) (q : EventQueue) : option (list (option InputEvent) * EventQueue) :=
  match os with
  | [] => Some ([], q)
  | Push e :: os => q ← push e q; run os q
  | Consume :: os => '(r, q) ← consume q; '(rs, q) ← run os q; Some (r :: rs, q)
  end.
Fixpoint run_spec (os : list op) (l : list InputEvent) : list (option InputEvent) * list InputEvent :=
  match os with
  | [] => ([], l)
  | Push e :: os => run_spec os (put e l)
  | Consume :: os => let '(rs, l') := run_spec os (tail l) in (head l :: rs, l')
  end.

Lemma place_inj q j k : 0 <= consumer_ptr q < 256 -> (j < 256)%nat -> (k < 256)%nat -> place q j = place q k -> j = k.
Proof.
  unfold place, MAX_EVENTS. intros Hc Hj Hk E. apply Z2Nat.inj in E; try (apply Z.mod_pos_bound; lia).
  pose proof (Z.div_mod (consumer_ptr q + Z.of_nat j) 256 ltac:(lia)). pose proof (Z.div_mod (consumer_ptr q + Z.of_nat k) 256 ltac:(lia)). lia.
Qed.

Lemma place_bound q k : (place q k < 256)%nat.
Proof. unfold place, MAX_EVENTS. pose proof (Z.mod_pos_bound (consumer_ptr q + Z.of_nat k) 256 ltac:(lia)). lia. Qed.

Lemma push_ok e q l : Rep q l -> exists q', push e q = Some q' /\ Rep q' (put e l).
Proof.
  intros [R1 R2 R3 R4 R5]. unfold push, put. unfold MAX_EVENTS in *. rewrite R3. rewrite Zplus_mod_idemp_l.
  destruct (decide (length l = 255%nat)) as [E|N].
  - exists q. rewrite E. replace (consumer_ptr q + Z.of_nat 255 + 1) with (consumer_ptr q + 1 * 256) by lia. rewrite Z_mod_plus_full, Z.mod_small by lia.
    rewrite Z.eqb_refl. split; [done|]. by split.
  - assert (Hne : (consumer_ptr q + Z.of_nat (length l) + 1) mod 256 <> consumer_ptr q).
    { pose proof (Z.div_mod (consumer_ptr q + Z.of_nat (length l) + 1) 256 ltac:(lia)). pose proof (Z.mod_pos_bound (consumer_ptr q + Z.of_nat (length l) + 1) 256 ltac:(lia)). lia. }
    rewrite (proj2 (Z.eqb_neq _ _) Hne). fold (place q (length l)). change ((consumer_ptr q + Z.of_nat (length l)) mod 256) with ((consumer_ptr q + Z.of_nat (length l)) mod MAX_EVENTS).
    fold (place q (length l)). pose proof (place_bound q (length l)) as Hb. rewrite R1, (proj2 (Nat.ltb_lt _ _)) by done. cbn [assert mbind option_bind].
    eexists. split; [reflexivity|]. rewrite (proj2 (Nat.ltb_lt _ _)) by lia. split; cbn [events producer_ptr consumer_ptr].
    + by rewrite length_insert.
    + done.
    + rewrite length_app. cbn [length]. unfold MAX_EVENTS. f_equal. lia.
    + rewrite length_app. cbn [length]. lia.
    + intros k x Hk. change (place _ k) with (place q k). apply lookup_app_Some in Hk as [Hk|[Hge Hk]].
      * assert (k < length l)%nat by (by eapply lookup_lt_Some). rewrite list_lookup_insert_ne; [by apply R5|].
        intros E. apply place_inj in E; lia.
      * apply list_lookup_singleton_Some in Hk as [Hk <-]. replace k with (length l) by lia. rewrite list_lookup_insert_eq; [done|lia].
Qed.

Lemma consume_ok q l : Rep q l -> exists q', consume q = Some (head l, q') /\ Rep q' (tail l) /\ is_empty q = bool_decide (l = []).
Proof.
  intros [R1 R2 R3 R4 R5]. unfold consume, is_empty. rewrite R3. unfold MAX_EVENTS in *. destruct l as [|x l].
  - cbn [length]. rewrite Z.add_0_r, Z.mod_small, Z.eqb_refl by lia. exists q. split_and!; [done|by split|done].
  - cbn [length] in *. assert (Hne : consumer_ptr q <> (consumer_ptr q + Z.of_nat (S (length l))) mod 256).
    { pose proof (Z.div_mod (consumer_ptr q + Z.of_nat (S (length l))) 256 ltac:(lia)). pose proof (Z.mod_pos_bound (consumer_ptr q + Z.of_nat (S (length l))) 256 ltac:(lia)). lia. }
    rewrite (proj2 (Z.eqb_neq _ _) Hne). pose proof (R5 0%nat x eq_refl) as H0. unfold place, MAX_EVENTS in H0. rewrite Z.add_0_r, Z.mod_small in H0 by lia.
    rewrite H0. cbn [mbind option_bind head tail]. eexists. split_and!; [reflexivity| |done]. split; cbn [events producer_ptr consumer_ptr].
    + done.
    + apply Z.mod_pos_bound. lia.
    + unfold MAX_EVENTS. rewrite Zplus_mod_idemp_l. f_equal. lia.
    + lia.
    + intros k y Hk. rewrite <- (R5 (S k) y Hk). unfold place, MAX_EVENTS. cbn [consumer_ptr]. rewrite Zplus_mod_idemp_l. do 3 f_equal. lia.
Qed.

Lemma queue_run_ok os : forall q l, Rep q l -> exists q', run os q = Some ((run_spec os l).1, q') /\ Rep q' (run_spec os l).2.
Proof.
  induction os as [|[e|] os IH]; intros q l HR; cbn [run run_spec]; [eauto| |].
  - destruct (push_ok e q l HR) as (q1 & -> & HR1). cbn [mbind option_bind]. by apply IH.
  - destruct (consume_ok q l HR) as (q1 & -> & HR1 & _). cbn [mbind option_bind]. destruct (IH q1 (tail l) HR1) as (q2 & -> & HR2).
    cbn [mbind option_bind]. destruct (run_spec os (tail l)) as [rs l']. eauto.
Qed.

Definition empty_queue : EventQueue := mkQueue (replicate 256 (Key 0 false)) 0 0 0.
Lemma empty_rep : Rep empty_queue [].
Proof. split; [done|done|done|simpl; lia|intros k x; by rewrite lookup_nil]. Qed.

(** The ring buffer of input events behaves as a queue that holds 255 events: what
    is consumed is what was pushed, in order, except for events that were pushed
    when it was full. *)
Theorem input_queue_refines_queue (os : list op) :
  exists q', run os empty_queue = Some ((run_spec os []).1, q') /\ Rep q' (run_spec os []).2.
Proof. apply queue_run_ok, empty_rep. Qed.

End InputQueue.
