(* ===== verification/Hid.v ===== *)
(** * The USB input driver (src/src/dev/usb/dev/hid.cpp)

    A device describes its reports in a descriptor of items; the driver parses it
    into fields, and then reads the fields of each report that arrives and turns
    them into input events.  Memory is the list of its bytes.  [None] is an access
    outside of it or of an array, a failed assertion, or a shift by a negative
    amount.  The transfers of the USB stack are arguments. *)

From S2P Require Import Prelude InputQueue.

Module Hid.
Import InputQueue.

Definition ITEM_SIZES (n : Z) : Z := match n with 0 => 0 | 1 => 1 | 2 => 2 | _ => 4 end.
Definition MAIN : Z := 0.
Definition GLOBAL : Z := 1.
Definition LOCAL : Z := 2.
Definition RESERVED : Z := 3.

Definition i32 (z : Z) : Z := let u := u32 z in if u <? 2 ^ 31 then u else u - 2 ^ 32.

Definition sign_extent (value bits : Z) : option Z :=
  _ ← assert ((1 <=? bits) && (bits <=? 32));
  let mask := u32 (Z.shiftl 1 (bits - 1)) in
  Some (i32 (Z.lxor value mask - mask)).

Record Field := mkField {
  usage : Z; bit_size : Z; min : Z; max : Z; is_signed : bool; is_index : bool; is_relative : bool; pad : bool }.
Record Report := mkReport { id : option Z; fields : list Field }.

(** ** The descriptor *)

Record Global := mkGlobal {
  usage_page : Z; logical_min : Z; logical_min_signed : Z; logical_max : Z; logical_max_signed : Z;
  unit_exponent : Z; unit_ : Z; report_size : Z; report_count : Z }.
Record Local := mkLocal { usages : list Z; usage_min : option Z; usage_max : option Z }.
Record parser := mkParser { global_stack : list Global; global : Global; local : Local; reports : list Report; result : Report }.

Definition no_local : Local := mkLocal [] None None.
Definition no_report : Report := mkReport None [].
Definition init_parser : parser := mkParser [] (mkGlobal 0 0 0 0 0 0 0 0 0) no_local [] no_report.

Definition set_global (g : Global) (p : parser) : parser := mkParser (global_stack p) g (local p) (reports p) (result p).
Definition set_local (l : Local) (p : parser) : parser := mkParser (global_stack p) (global p) l (reports p) (result p).
Definition add_field (f : Field) (p : parser) : parser :=
  mkParser (global_stack p) (global p) (local p) (reports p) (mkReport (id (result p)) (fields (result p) ++ [f])).

(** [n] bytes at [i], as a number. *)
Definition load (mem : list Z) (i n : nat) : option Z := _ ← assert (i + n <=? length mem)%nat; Some (le_val (take n (drop i mem))).

(** The usage of the [j]-th field of an item, and whether it has none. *)
Definition next_usage (j : Z) (l : Local) : option (Z * bool * Local) :=
  match usages l with
  | u :: us => Some (u, false, mkLocal (if (1 <? length (usages l))%nat then us else usages l) (usage_min l) (usage_max l))
  | [] =>
      match usage_min l, usage_max l with
      | None, None => Some (0, true, l)
      | Some mn, Some mx => Some (if j <? u32 (mx - mn) then u32 (mn + j) else mx, false, l)
      | _, _ => None
      end
  end.

(** The loop of an input item; [n] fields are left. *)
Fixpoint input_loop (n : nat) (j data : Z) (p : parser) : option parser :=
  match n with
  | O => Some p
  | S n =>
      '(u, no_usage, l) ← next_usage j (local p);
      let g := global p in
      let f := mkField u (report_size g) (logical_min g) (logical_max g)
                 ((logical_min_signed g <? 0) || (logical_max_signed g <? 0))
                 (negb (Z.testbit data 1)) (Z.testbit data 2) no_usage in
      input_loop n (j + 1) data (add_field f (set_local l p))
  end.

Definition main_item (tag data : Z) (p : parser) : option parser :=
  p ← (if tag =? 8 then input_loop (Z.to_nat (report_count (global p))) 0 data p else Some p);
  Some (set_local no_local p).

Definition global_item (tag size data : Z) (p : parser) : option parser :=
  let 'mkGlobal up mn mns mx mxs ue un rs rc := global p in
  if tag =? 0 then Some (set_global (mkGlobal data mn mns mx mxs ue un rs rc) p)
  else if tag =? 1 then s ← sign_extent data (size * 8); Some (set_global (mkGlobal up data s mx mxs ue un rs rc) p)
  else if tag =? 2 then s ← sign_extent data (size * 8); Some (set_global (mkGlobal up mn mns data s ue un rs rc) p)
  else if tag =? 5 then Some (set_global (mkGlobal up mn mns mx mxs data un rs rc) p)
  else if tag =? 6 then Some (set_global (mkGlobal up mn mns mx mxs ue data rs rc) p)
  else if tag =? 7 then Some (set_global (mkGlobal up mn mns mx mxs ue un data rc) p)
  else if tag =? 8 then
    let r := mkReport (Some data) (fields (result p)) in
    Some (match fields r with
          | [] => mkParser (global_stack p) (global p) (local p) (reports p) r
          | _ => mkParser (global_stack p) (global p) (local p) (reports p ++ [r]) no_report
          end)
  else if tag =? 9 then Some (set_global (mkGlobal up mn mns mx mxs ue un rs data) p)
  else if tag =? 10 then Some (mkParser (global p :: global_stack p) (global p) (local p) (reports p) (result p))
  else if tag =? 11 then
    match global_stack p with
    | [] => None
    | g :: gs => Some (mkParser gs g (local p) (reports p) (result p))
    end
  else Some p.

Definition local_item (tag size data : Z) (p : parser) : parser :=
  let l := local p in
  let u := if size =? 4 then data else Z.lor data (u32 (Z.shiftl (usage_page (global p)) 16)) in
  if tag =? 0 then set_local (mkLocal (usages l ++ [u]) (usage_min l) (usage_max l)) p
  else if tag =? 1 then set_local (mkLocal (usages l) (Some u) (usage_max l)) p
  else if tag =? 2 then set_local (mkLocal (usages l) (usage_min l) (Some u)) p
  else p.

Definition item (type tag size data : Z) (p : parser) : option parser :=
  if type =? MAIN then main_item tag data p
  else if type =? GLOBAL then global_item tag size data p
  else if type =? LOCAL then Some (local_item tag size data p)
  else Some p.

(** The loop over the items; every round takes at least a byte. *)
Fixpoint parse_items (fuel : nat) (mem : list Z) (report_length i : nat) (p : parser) : option parser :=
  if (i <? report_length)%nat then
    match fuel with
    | O => None
    | S fuel =>
        first ← mem !! i;
        let i := (i + 1)%nat in
        let size := ITEM_SIZES (Z.land first 3) in
        let type := Z.land (Z.shiftr first 2) 3 in
        let tag := Z.shiftr first 4 in
        if (size =? 2) && (type =? RESERVED) && (tag =? 15) then
          actual_size ← load mem i 2;
          _ ← load mem (i + 2) 2;
          parse_items fuel mem report_length (i + 4 + Z.to_nat actual_size) p
        else
          data ← load mem i (Z.to_nat size);
          p ← item type tag size data p;
          parse_items fuel mem report_length (i + Z.to_nat size) p
    end
  else Some p.

Definition parse_hid_report (mem : list Z) (report_length : nat) : option (list Report) :=
  p ← parse_items report_length mem report_length 0 init_parser;
  Some (reports p ++ [result p]).

(** ** Setting up *)

Fixpoint total_bits (has_prefix : bool) (rs : list Report) (total : Z) : option Z :=
  match rs with
  | [] => Some total
  | r :: rs =>
      _ ← assert (negb has_prefix || bool_decide (is_Some (id r)));
      _ ← assert (forallb (fun f => bit_size f <=? 32) (fields r));
      total_bits has_prefix rs (foldl (fun t f => t ⊞ bit_size f) total (fields r))
  end.

(** The bytes of a report, and how many fit into the page. *)
Definition layout (rs : list Report) : option (bool * Z * Z) :=
  let has_prefix := (1 <? length rs)%nat in
  bits ← total_bits has_prefix rs 0;
  let bits := if has_prefix then bits ⊞ 8 else bits in
  let total_byte_size := (bits ⊞ 7) / 8 in
  _ ← assert (negb (total_byte_size =? 0));
  _ ← assert (1 <=? 4096 / total_byte_size);
  Some (has_prefix, total_byte_size, 4096 / total_byte_size).

(** ** Reports *)

(** The loop of [get_value]. *)
Fixpoint get_bits (fuel : nat) (mem : list Z) (report_bit_offset size j byte_offset value : Z) : option Z :=
  if j <? size then
    match fuel with
    | O => None
    | S fuel =>
        let bit_offset := u32 (report_bit_offset + j) mod 8 in
        let bits := Z.min (size - j) (8 - bit_offset) in
        byte ← mem !! Z.to_nat byte_offset;
        let byte := Z.shiftr byte bit_offset in
        let byte := Z.land byte (u8 (Z.shiftl 1 bits - 1)) in
        get_bits fuel mem report_bit_offset size (j + bits) (u32 (byte_offset + 1)) (Z.lor value (u32 (Z.shiftl byte j)))
    end
  else Some value.

Definition get_value (mem : list Z) (report_bit_offset : Z) (f : Field) : option Z :=
  get_bits (Z.to_nat (bit_size f)) mem report_bit_offset (bit_size f) 0 (report_bit_offset / 8) 0.

(** [key] has the entries below [key_count]; the array has eight. *)
Record EventState := mkState {
  mouse : MouseEvent; key : list (Z * bool); mouse_modified : bool; modifiers : list bool; prev : list Z; new_prev : list Z }.

Definition init_state : EventState := mkState (mkMouse 0 0 0 false false false) [] false (replicate 8 false) [] [].

Definition push_key (code : Z) (pressed : bool) (s : EventState) : option EventState :=
  _ ← assert (length (key s) <? 8)%nat;
  Some (mkState (mouse s) (key s ++ [(code, pressed)]) (mouse_modified s) (modifiers s) (prev s) (new_prev s)).
Definition set_modifier (i : nat) (b : bool) (s : EventState) : EventState :=
  mkState (mouse s) (key s) (mouse_modified s) (<[i := b]> (modifiers s)) (prev s) (new_prev s).
Definition set_mouse (m : MouseEvent) (s : EventState) : EventState :=
  mkState m (key s) true (modifiers s) (prev s) (new_prev s).

(** The loop that releases the modifiers. *)
Fixpoint release_loop (is_ : list Z) (s : EventState) : option EventState :=
  match is_ with
  | [] => Some s
  | i :: is_ =>
      b ← modifiers s !! Z.to_nat (i - 224);
      s ← (if b : bool then push_key i false (set_modifier (Z.to_nat (i - 224)) false s) else Some s);
      release_loop is_ s
  end.
Definition releasable : list Z := [224; 225; 226; 227; 228; 229; 230].

Definition set_relative (f : Field) (value : Z) : option Z :=
  _ ← assert (is_relative f);
  _ ← assert (is_signed f);
  sign_extent value (u8 (bit_size f)).

Definition add_event (s : EventState) (f : Field) (value : Z) : option EventState :=
  let page := Z.shiftr (usage f) 16 in
  let usage := Z.land (usage f) 0xFFFF in
  let m := mouse s in
  if page =? 1 then
    if usage =? 0x30 then
      v ← set_relative f value; Some (set_mouse (mkMouse v (y_movement m) (z_movement m) (left_pressed m) (right_pressed m) (middle_pressed m)) s)
    else if usage =? 0x31 then
      v ← set_relative f value;
      _ ← assert (negb (v =? - 2 ^ 31));
      Some (set_mouse (mkMouse (x_movement m) (- v) (z_movement m) (left_pressed m) (right_pressed m) (middle_pressed m)) s)
    else if usage =? 0x38 then
      v ← set_relative f value; Some (set_mouse (mkMouse (x_movement m) (y_movement m) v (left_pressed m) (right_pressed m) (middle_pressed m)) s)
    else Some s
  else if page =? 7 then
    if (224 <=? usage) && (usage <=? 231) then
      if negb (value =? 0) then
        b ← modifiers s !! Z.to_nat (usage - 224);
        if b : bool then Some s else push_key usage true (set_modifier (Z.to_nat (usage - 224)) true s)
      else release_loop releasable s
    else
      _ ← assert (is_index f);
      Some (if 4 <=? value then mkState m (key s) (mouse_modified s) (modifiers s) (prev s) (new_prev s ++ [value]) else s)
  else if page =? 9 then
    let v := negb (value =? 0) in
    if usage =? 1 then Some (set_mouse (mkMouse (x_movement m) (y_movement m) (z_movement m) v (right_pressed m) (middle_pressed m)) s)
    else if usage =? 2 then Some (set_mouse (mkMouse (x_movement m) (y_movement m) (z_movement m) (left_pressed m) v (middle_pressed m)) s)
    else if usage =? 3 then Some (set_mouse (mkMouse (x_movement m) (y_movement m) (z_movement m) (left_pressed m) (right_pressed m) v) s)
    else Some s
  else Some s.

(** The events of a report, in the order they are queued. *)
Definition report_events (s : EventState) : list InputEvent :=
  (if mouse_modified s then [Mouse (mouse s)] else []) ++ map (fun '(c, b) => Key c b) (key s) ++
  map (fun c => Key c true) (new_prev s) ++
  map (fun c => Key c false) (filter (fun c => c ∉ new_prev s) (prev s)).

Fixpoint push_all (es : list InputEvent) (q : EventQueue) : option EventQueue :=
  match es with [] => Some q | e :: es => q ← push e q; push_all es q end.

Definition finalize_event (s : EventState) (q : EventQueue) : option (EventState * EventQueue) :=
  q ← push_all (report_events s) q;
  Some (mkState (mouse s) (key s) (mouse_modified s) (modifiers s) (new_prev s) [], q).

(** The loop over the fields of a report. *)
Fixpoint field_loop (mem : list Z) (fs : list Field) (report_bit_offset : Z) (s : EventState) : option EventState :=
  match fs with
  | [] => Some s
  | f :: fs =>
      if pad f then field_loop mem fs (u32 (report_bit_offset + bit_size f)) s
      else
        value ← get_value mem report_bit_offset f;
        s ← (if is_index f then if (min f <=? value) && (value <=? max f) then add_event s f value else Some s
             else add_event s f value);
        field_loop mem fs (u32 (report_bit_offset + bit_size f)) s
  end.

Fixpoint find_report (i : Z) (rs : list Report) : option Report :=
  match rs with
  | [] => None
  | r :: rs => j ← id r; if j =? i then Some r else find_report i rs
  end.

(** The body of the loop over the packets, for a packet whose bytes are [mem]. *)
Definition handle_packet (rs : list Report) (has_prefix : bool) (mem : list Z) (s : EventState) (q : EventQueue) : option (EventState * EventQueue) :=
  '(r, mem) ← (if has_prefix then i ← mem !! O; r ← find_report i rs; Some (r, drop 1 mem) else r ← rs !! O; Some (r, mem));
  let s := mkState (mouse s) [] false (modifiers s) (prev s) (new_prev s) in
  s ← field_loop mem (fields r) 0 s;
  finalize_event s q.

End Hid.
