(* ===== verification/HidCorrect.v ===== *)
(** * What the USB input driver does *)

From S2P Require Import Prelude InputQueue Hid.

Module HidCorrect.
Import InputQueue Hid.

(** ** Reading a field *)

Definition byte_list (bs : list Z) : Prop := Forall (fun b => 0 <= b < 256) bs.

Lemma le_val_testbit bs : byte_list bs -> forall k b i, bs !! k = Some b -> 0 <= i < 8 ->
  Z.testbit (le_val bs) (8 * Z.of_nat k + i) = Z.testbit b i.
Proof.
  intros H. induction H as [|c bs Hc Hbs IH]; intros k b i Hk Hi; [by rewrite lookup_nil in Hk|].
  cbn [le_val]. assert (Hsplit : forall n, 0 <= n -> Z.testbit (c + 256 * le_val bs) n = if n <? 8 then Z.testbit c n else Z.testbit (le_val bs) (n - 8)).
  { intros n Hn. destruct (n <? 8) eqn:E; bool_to_prop.
    - rewrite <- (Z.mod_pow2_bits_low _ 8 n) by lia. replace ((c + 256 * le_val bs) mod 2 ^ 8) with c; [done|].
      rewrite (Z.mul_comm 256), Z_mod_plus_full, Z.mod_small; change (2 ^ 8) with 256; lia.
    - replace n with (n - 8 + 8) at 1 by lia. rewrite <- Z.shiftr_spec by lia. f_equal. rewrite Z.shiftr_div_pow2 by lia.
      rewrite (Z.mul_comm 256), Z_div_plus_full by lia. rewrite Z.div_small; change (2 ^ 8) with 256; lia. }
  rewrite Hsplit by lia. destruct k as [|k].
  - injection Hk as ->. replace (8 * Z.of_nat 0 + i) with i by lia. by rewrite (proj2 (Z.ltb_lt _ _)) by lia.
  - rewrite (proj2 (Z.ltb_ge _ _)) by lia. replace (8 * Z.of_nat (S k) + i - 8) with (8 * Z.of_nat k + i) by lia. by apply IH.
Qed.

(** The bits that one round takes from a byte. *)
Lemma chunk_testbit byte o bits i : 0 <= byte < 256 -> 0 <= o -> 0 < bits -> o + bits <= 8 -> 0 <= i ->
  Z.testbit (Z.land (Z.shiftr byte o) (u8 (Z.shiftl 1 bits - 1))) i = (i <? bits) && Z.testbit byte (o + i).
Proof.
  intros Hb Ho Hs Hbits Hi. replace (u8 (Z.shiftl 1 bits - 1)) with (Z.ones bits).
  - rewrite Z.land_spec, Z.shiftr_spec, Z.testbit_ones_nonneg by lia. rewrite andb_comm. do 2 f_equal. lia.
  - rewrite Z.ones_equiv, Z.shiftl_1_l. rewrite u8_small; [done|]. assert (2 ^ bits <= 2 ^ 8) by (apply Z.pow_le_mono_r; lia).
    assert (0 < 2 ^ bits) by (apply Z.pow_pos_nonneg; lia). lia.
Qed.

Lemma get_bits_ok mem off size : byte_list mem -> 0 <= off -> size <= 32 -> off + size <= 8 * Z.of_nat (length mem) -> off + size < 2 ^ 32 ->
  forall fuel j value, 0 <= j <= size -> size - j <= Z.of_nat fuel -> (j < size -> j = 0 \/ (off + j) mod 8 = 0) ->
    (forall i, 0 <= i -> Z.testbit value i = (i <? j) && Z.testbit (le_val mem) (off + i)) ->
    exists v, get_bits fuel mem off size j ((off + j) / 8) value = Some v /\
      forall i, 0 <= i -> Z.testbit v i = (i <? size) && Z.testbit (le_val mem) (off + i).
Proof.
  intros Hm Ho Hs Hl H32. induction fuel as [|fuel IH]; intros j value Hj Hf Hal Hv.
  { assert (j = size) as -> by lia. cbn [get_bits]. rewrite Z.ltb_irrefl. eauto. }
  cbn [get_bits]. destruct (j <? size) eqn:E; bool_to_prop; [|assert (j = size) as -> by lia; eauto].
  rewrite u32_small by lia. set (o := (off + j) mod 8). set (k := (off + j) / 8).
  assert (Hok : off + j = 8 * k + o /\ 0 <= o < 8 /\ 0 <= k).
  { unfold o, k. pose proof (Z.div_mod (off + j) 8 ltac:(lia)). pose proof (Z.mod_pos_bound (off + j) 8 ltac:(lia)).
    split_and!; [lia|lia|lia|]. apply Z.div_pos; lia. }
  set (bits := Z.min (size - j) (8 - o)). assert (Hbits : 0 < bits /\ j + bits <= size /\ o + bits <= 8) by lia.
  destruct (lookup_lt_is_Some_2 mem (Z.to_nat k)) as [byte Hbyte]; [lia|]. rewrite Hbyte. cbn [mbind option_bind].
  assert (Hb : 0 <= byte < 256) by exact (Forall_lookup_1 _ _ _ _ Hm Hbyte).
  assert (Hnext : j + bits < size -> (off + (j + bits)) mod 8 = 0 /\ (off + (j + bits)) / 8 = k + 1).
  { intros Hlt. replace (off + (j + bits)) with ((k + 1) * 8) by lia. by rewrite Z_mod_mult, Z_div_mult by lia. }
  assert (Hk32 : u32 (k + 1) = k + 1) by (apply u32_small; lia). rewrite Hk32.
  set (value' := Z.lor value _).
  assert (Hv' : forall i, 0 <= i -> Z.testbit value' i = (i <? j + bits) && Z.testbit (le_val mem) (off + i)).
  { intros i Hi. unfold value'. rewrite Z.lor_spec, Hv by lia. unfold u32. rewrite testbit_wrap by lia.
    rewrite Z.shiftl_spec by lia. destruct (i <? j) eqn:Eij; bool_to_prop.
    - rewrite (Z.testbit_neg_r _ (i - j)) by lia. rewrite andb_false_r, orb_false_r. rewrite (proj2 (Z.ltb_lt i (j + bits))) by lia. done.
    - cbn [andb orb]. rewrite chunk_testbit by lia. destruct (i - j <? bits) eqn:Eb; bool_to_prop.
      + rewrite (proj2 (Z.ltb_lt i 32)), (proj2 (Z.ltb_lt i (j + bits))) by lia. cbn [andb].
        rewrite <- (le_val_testbit mem Hm (Z.to_nat k) byte (o + (i - j)) Hbyte) by lia. f_equal. lia.
      + rewrite (proj2 (Z.ltb_ge i (j + bits))) by lia. by rewrite !andb_false_r. }
  destruct (decide (j + bits < size)) as [Hlt|Hge].
  - destruct (Hnext Hlt) as [Hz Hd]. rewrite <- Hd. apply IH; [lia|lia|auto|done].
  - assert (Hend : j + bits = size) by lia. exists value'. split; [|by rewrite Hend in Hv'].
    destruct fuel; cbn [get_bits]; by rewrite Hend, Z.ltb_irrefl.
Qed.

Lemma get_value_bits mem off f : byte_list mem -> 0 <= off -> 0 <= bit_size f <= 32 -> off + bit_size f <= 8 * Z.of_nat (length mem) -> off + bit_size f < 2 ^ 32 ->
  get_value mem off f = Some ((le_val mem / 2 ^ off) mod 2 ^ bit_size f).
Proof.
  intros Hm Ho Hs Hl H32. unfold get_value.
  destruct (get_bits_ok mem off (bit_size f) Hm Ho ltac:(lia) Hl H32 (Z.to_nat (bit_size f)) 0 0) as (v & E & Hv).
  - lia.
  - lia.
  - auto.
  - intros i Hi. rewrite Z.testbit_0_l. by rewrite (proj2 (Z.ltb_ge _ _)) by lia.
  - rewrite Z.add_0_r in E. rewrite E. f_equal. apply Z.bits_inj'. intros i Hi. rewrite Hv by done. rewrite <- Z.shiftr_div_pow2 by lia.
    destruct (i <? bit_size f) eqn:Ei; bool_to_prop; cbn [andb].
    + rewrite Z.mod_pow2_bits_low, Z.shiftr_spec by lia. f_equal. lia.
    + by rewrite Z.mod_pow2_bits_high by lia.
Qed.

(** ** Descriptors

    The items of a descriptor with four bytes of data each. *)
Record Item := mkItem { i_type : Z; i_tag : Z; i_data : Z }.

Definition enc (x : Item) : list Z := (i_tag x * 16 + i_type x * 4 + 3) :: le_bytes 4 (i_data x).
Definition encs (xs : list Item) : list Z := mjoin (map enc xs).
Definition item_ok (x : Item) : Prop := 0 <= i_type x < 4 /\ 0 <= i_tag x < 16 /\ fits 32 (i_data x).

Fixpoint exec (xs : list Item) (p : parser) : option parser :=
  match xs with [] => Some p | x :: xs => p ← item (i_type x) (i_tag x) 4 (i_data x) p; exec xs p end.

Lemma exec_app xs ys p : exec (xs ++ ys) p = (p ← exec xs p; exec ys p).
Proof. revert p. induction xs as [|x xs IH]; intros p; [done|]. cbn [exec app]. destruct (item _ _ _ _ p); [apply IH|done]. Qed.

Lemma first_byte t g : 0 <= t < 4 -> 0 <= g < 16 -> let b := g * 16 + t * 4 + 3 in
  Z.land b 3 = 3 /\ Z.land (Z.shiftr b 2) 3 = t /\ Z.shiftr b 4 = g.
Proof.
  intros Ht Hg b. change 3 with (Z.ones 2). rewrite !Z.land_ones, !Z.shiftr_div_pow2 by lia. change (2 ^ 2) with 4. change (2 ^ 4) with 16. unfold b. change (Z.ones 2) with 3.
  split_and!.
  - replace (g * 16 + t * 4 + 3) with (3 + (g * 4 + t) * 4) by lia. by rewrite Z_mod_plus_full.
  - replace (g * 16 + t * 4 + 3) with (3 + (g * 4 + t) * 4) by lia. rewrite Z_div_plus_full by lia. change (3 / 4) with 0.
    replace (0 + (g * 4 + t)) with (t + g * 4) by lia. rewrite Z_mod_plus_full. by apply Z.mod_small.
  - replace (g * 16 + t * 4 + 3) with (t * 4 + 3 + g * 16) by lia. rewrite Z_div_plus_full by lia. rewrite Z.div_small; lia.
Qed.

Lemma load_at pre n v post : 0 <= v < 2 ^ (8 * Z.of_nat n) -> load (pre ++ le_bytes n v ++ post) (length pre) n = Some v.
Proof.
  intros H. unfold load. rewrite !length_app, length_le_bytes. rewrite (proj2 (Nat.leb_le _ _)) by lia. cbn [assert mbind option_bind].
  rewrite drop_app_length, take_app_length' by (by rewrite length_le_bytes). by rewrite le_val_bytes, Z.mod_small.
Qed.

(** The parser executes the items one after the other. *)
Lemma parse_items_exec xs : forall fuel pre post p, Forall item_ok xs -> (length xs <= fuel)%nat ->
  parse_items fuel (pre ++ encs xs ++ post) (length pre + length (encs xs)) (length pre) p = exec xs p.
Proof.
  induction xs as [|x xs IH]; intros fuel pre post p Hok Hf.
  { destruct fuel; cbn [parse_items encs map mjoin list_join length]; by rewrite (proj2 (Nat.ltb_ge _ _)) by lia. }
  apply Forall_cons in Hok as [(Ht & Hg & Hd) Hok]. destruct fuel as [|fuel]; [simpl in Hf; lia|].
  change (encs (x :: xs)) with (enc x ++ encs xs). assert (Hlen : length (enc x) = 5%nat) by (unfold enc; cbn [length]; by rewrite length_le_bytes).
  rewrite length_app, Hlen. cbn [parse_items]. rewrite (proj2 (Nat.ltb_lt _ _)) by lia.
  destruct (first_byte _ _ Ht Hg) as (B1 & B2 & B3).
  assert (E0 : (pre ++ (enc x ++ encs xs) ++ post) !! length pre = Some (i_tag x * 16 + i_type x * 4 + 3)).
  { rewrite lookup_app_r by lia. rewrite Nat.sub_diag. done. }
  rewrite E0. cbn [mbind option_bind]. rewrite B1, B2, B3. change (ITEM_SIZES 3) with 4. change (4 =? 2) with false. cbn [andb].
  assert (E1 : load (pre ++ (enc x ++ encs xs) ++ post) (length pre + 1) (Z.to_nat 4) = Some (i_data x)).
  { change (Z.to_nat 4) with 4%nat. unfold enc. cbn [app]. change (?a :: ?b ++ ?c) with ([a] ++ b ++ c).
    pose proof (load_at (pre ++ [i_tag x * 16 + i_type x * 4 + 3]) 4 (i_data x) (encs xs ++ post) Hd) as H.
    rewrite length_app in H. cbn [length] in H. rewrite <- H. f_equal. rewrite <- !(assoc_L app). done. }
  rewrite E1. cbn [mbind option_bind exec]. destruct (item (i_type x) (i_tag x) 4 (i_data x) p) as [p'|]; [|done]. cbn [mbind option_bind].
  pose proof (IH fuel (pre ++ enc x) post p' Hok ltac:(simpl in Hf; lia)) as H. rewrite length_app, Hlen in H. rewrite <- (assoc_L app) in H.
  rewrite <- H. rewrite <- !(assoc_L app). f_equal; [lia|]. change (Z.to_nat 4) with 4%nat. lia.
Qed.

Lemma parse_encoded xs post : Forall item_ok xs ->
  parse_hid_report (encs xs ++ post) (length (encs xs)) = (p ← exec xs init_parser; Some (reports p ++ [result p])).
Proof.
  intros Hok. unfold parse_hid_report. pose proof (parse_items_exec xs (length (encs xs)) [] post init_parser Hok) as H. cbn [length app] in H.
  rewrite Nat.add_0_l in H. rewrite H; [done|]. clear. induction xs as [|x xs IH]; [done|]. change (encs (x :: xs)) with (enc x ++ encs xs).
  rewrite length_app. simpl. lia.
Qed.

(** ** Input items

    A group of fields as a device describes it: page, range, size, count, usages
    and the input item. *)
Record group := mkGroup { g_page : Z; g_min : Z; g_max : Z; g_size : Z; g_usages : list Z; g_count : nat; g_flags : Z }.

Definition group_items (g : group) : list Item :=
  [mkItem 1 0 (g_page g); mkItem 1 1 (g_min g); mkItem 1 2 (g_max g); mkItem 1 7 (g_size g); mkItem 1 9 (Z.of_nat (g_count g))] ++
  map (mkItem 2 0) (g_usages g) ++ [mkItem 0 8 (g_flags g)].

Definition group_ok (g : group) : Prop :=
  fits 32 (g_page g) /\ fits 32 (g_min g) /\ fits 32 (g_max g) /\ fits 32 (g_size g) /\ Forall (fits 32) (g_usages g) /\
  fits 32 (Z.of_nat (g_count g)) /\ fits 32 (g_flags g).

(** What it means: the fields take the usages in turn, and the last one for all that
    are left; without usages they are padding. *)
Definition group_usage (us : list Z) (j : nat) : Z := default 0 (us !! Nat.min j (length us - 1)).
Definition group_field (g : group) (j : nat) : Field :=
  mkField (group_usage (g_usages g) j) (g_size g) (g_min g) (g_max g) ((i32 (g_min g) <? 0) || (i32 (g_max g) <? 0))
    (negb (Z.testbit (g_flags g) 1)) (Z.testbit (g_flags g) 2) (bool_decide (g_usages g = [])).
Definition group_fields (g : group) : list Field := map (group_field g) (seq 0 (g_count g)).

Lemma sign_extent_32 v : fits 32 v -> sign_extent v 32 = Some (i32 v).
Proof.
  intros Hv. unfold sign_extent. cbn [assert mbind option_bind]. change (assert ((1 <=? 32) && (32 <=? 32))) with (Some tt). cbn [mbind option_bind]. f_equal.
  change (u32 (Z.shiftl 1 (32 - 1))) with (2 ^ 31). unfold i32.
  assert (E : u32 (Z.lxor v (2 ^ 31) - 2 ^ 31) = u32 v); [|by rewrite E].
  assert (Hlow : forall u, 0 <= u < 2 ^ 31 -> Z.lxor u (2 ^ 31) = u + 2 ^ 31).
  { intros u Hu. rewrite Z.add_nocarry_lxor; [done|]. apply Z.bits_inj'. intros i Hi. rewrite Z.land_spec, Z.pow2_bits_eqb, Z.bits_0 by lia.
    destruct (Z.eqb_spec 31 i) as [<-|N]; [|by rewrite andb_false_r]. by rewrite (testbit_fits 31 u 31) by (done || lia). }
  assert (Hx : exists d, Z.lxor v (2 ^ 31) = v + 2 ^ 31 + d * 2 ^ 32).
  { unfold fits in Hv. destruct (decide (v < 2 ^ 31)) as [Hl|Hg]; [exists 0; rewrite Hlow by lia; lia|].
    exists (-1). replace v with (Z.lxor (v - 2 ^ 31) (2 ^ 31)) at 1 by (rewrite Hlow; lia). rewrite Z.lxor_assoc, Z.lxor_nilpotent, Z.lxor_0_r. lia. }
  destruct Hx as [d ->]. unfold u32, wrap. replace (v + 2 ^ 31 + d * 2 ^ 32 - 2 ^ 31) with (v + d * 2 ^ 32) by lia. by rewrite Z_mod_plus_full.
Qed.

Lemma exec_globals g p : group_ok g ->
  exec [mkItem 1 0 (g_page g); mkItem 1 1 (g_min g); mkItem 1 2 (g_max g); mkItem 1 7 (g_size g); mkItem 1 9 (Z.of_nat (g_count g))] p =
  Some (set_global (mkGlobal (g_page g) (g_min g) (i32 (g_min g)) (g_max g) (i32 (g_max g)) (unit_exponent (global p)) (unit_ (global p)) (g_size g)
    (Z.of_nat (g_count g))) p).
Proof.
  intros (_ & Hmn & Hmx & _). destruct p as [st [up mn mns mx mxs ue un rs rc] l rps r].
  cbn [exec i_type i_tag i_data]. unfold item. change (1 =? MAIN) with false. change (1 =? GLOBAL) with true. cbn iota.
  unfold global_item. cbn [global Z.eqb Pos.eqb set_global global_stack local reports result mbind option_bind]. change (4 * 8) with 32.
  rewrite sign_extent_32 by done. cbn [mbind option_bind global set_global global_stack local reports result]. rewrite sign_extent_32 by done.
  cbn [mbind option_bind global set_global global_stack local reports result unit_exponent unit_]. reflexivity.
Qed.

Lemma exec_usages us : forall p, exec (map (mkItem 2 0) us) p =
  Some (set_local (mkLocal (usages (local p) ++ us) (usage_min (local p)) (usage_max (local p))) p).
Proof.
  induction us as [|u us IH]; intros [st gl [l1 l2 l3] rps r]; cbn [map exec].
  - cbn [local usages usage_min usage_max]. by rewrite app_nil_r.
  - unfold item. cbn [i_type i_tag i_data]. change (2 =? MAIN) with false. change (2 =? GLOBAL) with false. change (2 =? LOCAL) with true. cbn iota.
    unfold local_item. change (4 =? 4) with true. change (0 =? 0) with true. cbn [mbind option_bind local set_local usages usage_min usage_max global_stack global reports result].
    rewrite IH. cbn [local set_local usages usage_min usage_max global_stack global reports result]. by rewrite <- (assoc_L app).
Qed.

(** The field that an input item makes of a usage. *)
Definition make_field (gl : Global) (data u : Z) (no_usage : bool) : Field :=
  mkField u (report_size gl) (logical_min gl) (logical_max gl) ((logical_min_signed gl <? 0) || (logical_max_signed gl <? 0))
    (negb (Z.testbit data 1)) (Z.testbit data 2) no_usage.

Lemma group_usage_step u us k : group_usage (if (1 <? length (u :: us))%nat then us else u :: us) k = group_usage (u :: us) (S k).
Proof.
  unfold group_usage. destruct us as [|v us]; cbn [length].
  - change (1 <? 1)%nat with false. cbn iota. by rewrite !Nat.min_0_r.
  - rewrite (proj2 (Nat.ltb_lt 1 _)) by lia. cbn iota. cbn [length]. replace (S (S (length us)) - 1)%nat with (S (length us)) by lia.
    replace (S (length us) - 1)%nat with (length us) by lia. cbn [Nat.min]. done.
Qed.

Lemma seq_shift_map {A} (f : nat -> A) n : map f (seq 0 (S n)) = f 0%nat :: map (fun k => f (S k)) (seq 0 n).
Proof. cbn [seq map]. f_equal. rewrite <- seq_shift, map_map. done. Qed.

Lemma input_loop_fields data n : forall j us p, local p = mkLocal us None None -> exists l,
  input_loop n j data p = Some (mkParser (global_stack p) (global p) l (reports p)
    (mkReport (id (result p)) (fields (result p) ++ map (fun k => make_field (global p) data (group_usage us k) (bool_decide (us = []))) (seq 0 n)))).
Proof.
  induction n as [|n IH]; intros j us p Hl.
  { exists (local p). destruct p as [st gl l rps [i fs]]. cbn [input_loop seq map result id fields global_stack global reports local]. by rewrite app_nil_r. }
  cbn [input_loop]. unfold next_usage. rewrite Hl. cbn [usages usage_min usage_max]. rewrite seq_shift_map. destruct us as [|u us].
  - cbn [mbind option_bind]. destruct (IH (j + 1) [] (add_field (make_field (global p) data 0 true) (set_local (mkLocal [] None None) p)) eq_refl) as [l E].
    exists l. etrans; [exact E|]. cbn [add_field set_local global_stack global reports result id fields]. by rewrite <- (assoc_L app).
  - cbn [mbind option_bind].
    set (us' := if (1 <? length (u :: us))%nat then us else u :: us).
    destruct (IH (j + 1) us' (add_field (make_field (global p) data u false) (set_local (mkLocal us' None None) p)) eq_refl) as [l E].
    exists l. etrans; [exact E|]. cbn [add_field set_local global_stack global reports result id fields]. rewrite <- (assoc_L app). do 4 f_equal.
    assert (Hne : us' <> []) by (unfold us'; destruct us; done). rewrite !bool_decide_eq_false_2 by done. cbn [app]. f_equal.
    apply map_ext. intros k. unfold us'. by rewrite group_usage_step.
Qed.

Lemma exec_group g p : group_ok g -> local p = no_local -> exists gl, exec (group_items g) p =
  Some (mkParser (global_stack p) gl no_local (reports p) (mkReport (id (result p)) (fields (result p) ++ group_fields g))).
Proof.
  intros Hg Hl. unfold group_items. rewrite exec_app, exec_globals by done. cbn [mbind option_bind]. rewrite exec_app, exec_usages. cbn [mbind option_bind].
  cbn [set_global local usages usage_min usage_max]. rewrite Hl. cbn [no_local usages usage_min usage_max app].
  set (gl := mkGlobal _ _ _ _ _ _ _ _ _). exists gl. cbn [exec i_type i_tag i_data]. unfold item. change (0 =? MAIN) with true. cbn iota.
  unfold main_item. change (8 =? 8) with true. cbn iota. cbn [set_local global_stack global local reports result].
  change (report_count (global (set_global gl p))) with (Z.of_nat (g_count g)). rewrite Nat2Z.id.
  change (set_local _ (set_global gl p)) with (mkParser (global_stack p) gl (mkLocal (g_usages g) None None) (reports p) (result p)).
  destruct (input_loop_fields (g_flags g) (g_count g) 0 (g_usages g) (mkParser (global_stack p) gl (mkLocal (g_usages g) None None) (reports p) (result p)) eq_refl) as [l E].
  cbn [global_stack global reports result] in E. rewrite E. cbn [mbind option_bind set_local global_stack global reports result]. reflexivity.
Qed.

Lemma exec_groups gs : forall p, Forall group_ok gs -> local p = no_local -> exists gl, exec (mjoin (map group_items gs)) p =
  Some (mkParser (global_stack p) gl no_local (reports p) (mkReport (id (result p)) (fields (result p) ++ mjoin (map group_fields gs)))).
Proof.
  induction gs as [|g gs IH]; intros p Hok Hl.
  { exists (global p). destruct p as [st gl l rps [i fs]]. cbn [local] in Hl. subst l. cbn [map mjoin list_join exec result id fields global_stack global reports]. by rewrite app_nil_r. }
  apply Forall_cons in Hok as [Hg Hok]. cbn [map]. change (mjoin (group_items g :: map group_items gs)) with (group_items g ++ mjoin (map group_items gs)).
  rewrite exec_app. destruct (exec_group g p Hg Hl) as [gl ->]. cbn [mbind option_bind].
  destruct (IH (mkParser (global_stack p) gl no_local (reports p) (mkReport (id (result p)) (fields (result p) ++ group_fields g))) Hok eq_refl) as [gl' ->].
  exists gl'. cbn [global_stack reports result id fields]. by rewrite <- (assoc_L app).
Qed.

Lemma group_items_ok g : group_ok g -> Forall item_ok (group_items g).
Proof.
  intros (H1 & H2 & H3 & H4 & H5 & H6 & H7). unfold group_items, item_ok. apply Forall_app. split; [repeat (apply Forall_cons; split; [split; [cbn; lia|split; [cbn; lia|done]]|]); by apply Forall_nil|].
  apply Forall_app. split; [|repeat (apply Forall_cons; split; [split; [cbn; lia|split; [cbn; lia|done]]|]); by apply Forall_nil]. apply Forall_map. eapply Forall_impl; [exact H5|]. intros u Hu. by cbn.
Qed.

Lemma groups_items_ok gs : Forall group_ok gs -> Forall item_ok (mjoin (map group_items gs)).
Proof. induction 1 as [|g gs Hg _ IH]; [constructor|]. apply (proj2 (Forall_app _ (group_items g) (mjoin (map group_items gs)))). split; [by apply group_items_ok|exact IH]. Qed.

(** ** Modifiers *)

(** The eight one-bit fields of the modifier keys of a keyboard. *)
Definition modifier_field (i : Z) : Field := mkField (7 * 2 ^ 16 + i) 1 0 1 false false false false.
Definition keyboard : list Report := [mkReport None (map modifier_field [224; 225; 226; 227; 228; 229; 230; 231])].

Lemma push_all_ok es : forall q l, Rep q l -> exists q', push_all es q = Some q' /\ Rep q' (foldl (fun l e => put e l) l es).
Proof.
  induction es as [|e es IH]; intros q l HR; cbn [push_all foldl]; [eauto|].
  destruct (push_ok e q l HR) as (q1 & -> & HR1). cbn [mbind option_bind]. by apply IH.
Qed.

Lemma finalize_ok s q l : Rep q l -> exists q', finalize_event s q = Some (mkState (mouse s) (key s) (mouse_modified s) (modifiers s) (new_prev s) [], q') /\
  Rep q' (foldl (fun l e => put e l) l (report_events s)).
Proof.
  intros HR. unfold finalize_event. destruct (push_all_ok (report_events s) q l HR) as (q' & -> & HR'). cbn [mbind option_bind]. eauto.
Qed.

(** ** Claims *)

(** The value of a field of up to 32 bits is the number that these bits of the report
    stand for, wherever in the bytes they are. *)
Theorem get_value_correct (mem : list Z) (off : Z) (f : Field) : byte_list mem -> 0 <= off -> 0 <= bit_size f <= 32 ->
  off + bit_size f <= 8 * Z.of_nat (length mem) -> off + bit_size f < 2 ^ 32 ->
  get_value mem off f = Some ((le_val mem / 2 ^ off) mod 2 ^ bit_size f).
Proof. apply get_value_bits. Qed.

Definition axis : Field := mkField 0x10030 12 0 4095 true false true false.
Lemma get_value_correct_witness : get_value [0x12; 0x34; 0x56] 4 axis = Some 0x341.
Proof.
  rewrite (get_value_correct [0x12; 0x34; 0x56] 4 axis); [reflexivity| |done|cbn; lia|cbn; lia|cbn; lia].
  repeat (apply Forall_cons; split; [lia|]). by apply Forall_nil.
Defined.

(** The descriptor of a device that has one report parses to its fields: those of
    each group in turn, with the usages in the order they are given. *)
Theorem descriptor_round_trip (gs : list group) (post : list Z) : Forall group_ok gs ->
  let bytes := encs (mjoin (map group_items gs)) in
  parse_hid_report (bytes ++ post) (length bytes) = Some [mkReport None (mjoin (map group_fields gs))].
Proof.
  intros Hok bytes. unfold bytes. rewrite parse_encoded by (by apply groups_items_ok).
  destruct (exec_groups gs init_parser Hok eq_refl) as [gl ->]. reflexivity.
Qed.

(** Buttons, padding and movement of a mouse. *)
Definition buttons : group := mkGroup 9 0 1 1 [0x90001; 0x90002; 0x90003] 3 2.
Definition filler : group := mkGroup 9 0 1 5 [] 1 3.
Definition axes : group := mkGroup 1 0xFFFFFF81 127 8 [0x10030; 0x10031] 2 6.

Lemma groups_ok gs : gs ∈ [[buttons; filler; axes]; [buttons]; [axes]] -> Forall group_ok gs.
Proof.
  rewrite !elem_of_cons, elem_of_nil. intros [->|[->|[->|[]]]]; repeat (apply Forall_cons; split); try apply Forall_nil; try done;
    (split_and!; try done; repeat (apply Forall_cons; split; [done|]); by apply Forall_nil).
Qed.

Lemma descriptor_round_trip_witness :
  parse_hid_report (encs (mjoin (map group_items [buttons; filler; axes])) ++ [7; 7]) (length (encs (mjoin (map group_items [buttons; filler; axes])))) =
  Some [mkReport None [mkField 0x90001 1 0 1 false false false false; mkField 0x90002 1 0 1 false false false false;
    mkField 0x90003 1 0 1 false false false false; mkField 0 5 0 1 false false false true;
    mkField 0x10030 8 0xFFFFFF81 127 true false true false; mkField 0x10031 8 0xFFFFFF81 127 true false true false]].
Proof. apply (descriptor_round_trip [buttons; filler; axes] [7; 7]). apply groups_ok. left. Defined.

(** When a descriptor has two reports, the first one gets the number of the second
    and the second one none, which the driver does not accept. *)
Theorem report_ids_shift (gs1 gs2 : list group) (id1 id2 : Z) (post : list Z) : Forall group_ok gs1 -> Forall group_ok gs2 -> fits 32 id1 -> fits 32 id2 ->
  mjoin (map group_fields gs1) <> [] ->
  let items := [mkItem 1 8 id1] ++ mjoin (map group_items gs1) ++ [mkItem 1 8 id2] ++ mjoin (map group_items gs2) in
  let rs := [mkReport (Some id2) (mjoin (map group_fields gs1)); mkReport None (mjoin (map group_fields gs2))] in
  parse_hid_report (encs items ++ post) (length (encs items)) = Some rs /\ layout rs = None.
Proof.
  intros H1 H2 Hi1 Hi2 Hne items rs. split.
  - unfold items. rewrite parse_encoded.
    + rewrite exec_app. change (exec [mkItem 1 8 id1] init_parser) with (Some (mkParser [] (global init_parser) no_local [] (mkReport (Some id1) []))).
      cbn [mbind option_bind]. rewrite exec_app. destruct (exec_groups gs1 (mkParser [] (global init_parser) no_local [] (mkReport (Some id1) [])) H1 eq_refl) as [gl1 ->].
      cbn [mbind option_bind global_stack reports result id fields app]. cbn [exec i_type i_tag i_data]. unfold item. change (1 =? MAIN) with false. change (1 =? GLOBAL) with true.
      cbn iota. unfold global_item. destruct gl1 as [a b c d e f g h i]. cbn [global Z.eqb Pos.eqb result fields global_stack local reports].
      destruct (mjoin (map group_fields gs1)) as [|f0 fs] eqn:Efs; [done|]. cbn [mbind option_bind].
      destruct (exec_groups gs2 (mkParser [] (mkGlobal a b c d e f g h i) no_local ([] ++ [mkReport (Some id2) (f0 :: fs)]) no_report) H2 eq_refl) as [gl2 ->].
      cbn [mbind option_bind global_stack reports result id fields app no_report]. reflexivity.
    + apply Forall_app. split; [by apply Forall_singleton|]. apply Forall_app. split; [by apply groups_items_ok|]. apply Forall_app.
      split; [by apply Forall_singleton|by apply groups_items_ok].
  - unfold layout, rs. cbn [length]. change (1 <? 2)%nat with true. cbn [total_bits id].
    change (assert (negb true || bool_decide (is_Some (Some id2)))) with (Some tt).
    change (assert (negb true || bool_decide (is_Some (@None Z)))) with (@None unit). cbn [mbind option_bind]. by destruct (assert _).
Qed.

Lemma report_ids_shift_witness :
  let items := [mkItem 1 8 1] ++ mjoin (map group_items [buttons]) ++ [mkItem 1 8 2] ++ mjoin (map group_items [axes]) in
  exists rs, parse_hid_report (encs items ++ []) (length (encs items)) = Some rs /\ layout rs = None.
Proof.
  eexists. apply (report_ids_shift [buttons] [axes] 1 2 []).
  - apply groups_ok. right. left.
  - apply groups_ok. do 2 right. left.
  - done.
  - done.
  - discriminate.
Defined.

(** A modifier key other than the last that is held while no other one is, is
    reported as pressed and at once as released, because a modifier that is not
    pressed releases all; so no report leaves it pressed. *)
Theorem held_modifier_is_released (i : nat) (s : EventState) (q : EventQueue) (l : list InputEvent) : (i < 7)%nat -> Rep q l ->
  modifiers s = replicate 8 false -> prev s = [] -> new_prev s = [] ->
  exists s' q', handle_packet keyboard false [2 ^ Z.of_nat i] s q = Some (s', q') /\ modifiers s' = replicate 8 false /\
    Rep q' (put (Key (224 + Z.of_nat i) false) (put (Key (224 + Z.of_nat i) true) l)).
Proof.
  intros Hi HR Hm Hp Hn. destruct s as [m k mm mods pr np]. cbn [modifiers prev new_prev] in Hm, Hp, Hn. subst mods pr np.
  assert (Hs : field_loop [2 ^ Z.of_nat i] (map modifier_field [224; 225; 226; 227; 228; 229; 230; 231]) 0 (mkState m [] false (replicate 8 false) [] []) =
    Some (mkState m [(224 + Z.of_nat i, true); (224 + Z.of_nat i, false)] false (replicate 8 false) [] [])).
  { do 7 (destruct i as [|i]; [reflexivity|]). lia. }
  set (s1 := mkState m [(224 + Z.of_nat i, true); (224 + Z.of_nat i, false)] false (replicate 8 false) [] []) in *.
  destruct (finalize_ok s1 q l HR) as (q' & E & HR'). exists (mkState m (key s1) false (replicate 8 false) [] []), q'. split_and!; [|reflexivity|exact HR'].
  unfold handle_packet, keyboard. cbn [lookup list_lookup mbind option_bind fields mouse modifiers prev new_prev]. rewrite Hs. cbn [mbind option_bind]. exact E.
Qed.

Lemma held_modifier_is_released_witness : exists s' q', handle_packet keyboard false [2] init_state empty_queue = Some (s', q') /\
  Rep q' [Key 225 true; Key 225 false].
Proof.
  destruct (held_modifier_is_released 1 init_state empty_queue []) as (s' & q' & E & _ & H); [lia|exact empty_rep|reflexivity|reflexivity|reflexivity|].
  exists s', q'. split; [exact E|exact H].
Defined.

(** Eight modifiers held at once and then only one of them give more key events than
    the array for them has places. *)
Theorem modifiers_overflow_keys (q : EventQueue) (l : list InputEvent) : Rep q l ->
  exists s q', handle_packet keyboard false [255] init_state q = Some (s, q') /\ handle_packet keyboard false [2] s q' = None.
Proof.
  intros HR. set (ks := map (fun i => (i, true)) [224; 225; 226; 227; 228; 229; 230; 231]).
  set (s1 := mkState (mouse init_state) ks false (replicate 8 true) [] []).
  destruct (finalize_ok s1 q l HR) as (q' & E & _). eexists _, q'. split.
  - unfold handle_packet, keyboard. cbn [lookup list_lookup mbind option_bind fields].
    change (field_loop [255] _ 0 _) with (Some s1). cbn [mbind option_bind]. exact E.
  - reflexivity.
Qed.

Lemma modifiers_overflow_keys_witness : exists s q', handle_packet keyboard false [255] init_state empty_queue = Some (s, q') /\ handle_packet keyboard false [2] s q' = None.
Proof. apply (modifiers_overflow_keys empty_queue []). exact empty_rep. Defined.

End HidCorrect.
