(* ===== verification/Ps2Dev.v ===== *)
(** * Scan codes (src/include/crescent/event.h, src/src/arch/x86/dev/ps2_keyboard.cpp)

    The codes of input events, as far as a PS/2 keyboard has them, and the two tables
    from the bytes of scan code set 2 to them. *)

From S2P Require Import Prelude InputQueue.


Module Ps2Codes.

Definition SCANCODE_A : Z := 4.
Definition SCANCODE_B : Z := 5.
Definition SCANCODE_C : Z := 6.
Definition SCANCODE_D : Z := 7.
Definition SCANCODE_E : Z := 8.
Definition SCANCODE_F : Z := 9.
Definition SCANCODE_G : Z := 10.
Definition SCANCODE_H : Z := 11.
Definition SCANCODE_I : Z := 12.
Definition SCANCODE_J : Z := 13.
Definition SCANCODE_K : Z := 14.
Definition SCANCODE_L : Z := 15.
Definition SCANCODE_M : Z := 16.
Definition SCANCODE_N : Z := 17.
Definition SCANCODE_O : Z := 18.
Definition SCANCODE_P : Z := 19.
Definition SCANCODE_Q : Z := 20.
Definition SCANCODE_R : Z := 21.
Definition SCANCODE_S : Z := 22.
Definition SCANCODE_T : Z := 23.
Definition SCANCODE_U : Z := 24.
Definition SCANCODE_V : Z := 25.
Definition SCANCODE_W : Z := 26.
Definition SCANCODE_X : Z := 27.
Definition SCANCODE_Y : Z := 28.
Definition SCANCODE_Z : Z := 29.
Definition SCANCODE_1 : Z := 30.
Definition SCANCODE_2 : Z := 31.
Definition SCANCODE_3 : Z := 32.
Definition SCANCODE_4 : Z := 33.
Definition SCANCODE_5 : Z := 34.
Definition SCANCODE_6 : Z := 35.
Definition SCANCODE_7 : Z := 36.
Definition SCANCODE_8 : Z := 37.
Definition SCANCODE_9 : Z := 38.
Definition SCANCODE_0 : Z := 39.
Definition SCANCODE_RETURN : Z := 40.
Definition SCANCODE_ESCAPE : Z := 41.
Definition SCANCODE_BACKSPACE : Z := 42.
Definition SCANCODE_TAB : Z := 43.
Definition SCANCODE_SPACE : Z := 44.
Definition SCANCODE_MINUS : Z := 45.
Definition SCANCODE_EQUALS : Z := 46.
Definition SCANCODE_LEFT_BRACKET : Z := 47.
Definition SCANCODE_RIGHT_BRACKET : Z := 48.
Definition SCANCODE_BACKSLASH : Z := 49.
Definition SCANCODE_SEMICOLON : Z := 51.
Definition SCANCODE_APOSTROPHE : Z := 52.
Definition SCANCODE_GRAVE : Z := 53.
Definition SCANCODE_COMMA : Z := 54.
Definition SCANCODE_PERIOD : Z := 55.
Definition SCANCODE_SLASH : Z := 56.
Definition SCANCODE_CAPSLOCK : Z := 57.
Definition SCANCODE_F1 : Z := 58.
Definition SCANCODE_F2 : Z := 59.
Definition SCANCODE_F3 : Z := 60.
Definition SCANCODE_F4 : Z := 61.
Definition SCANCODE_F5 : Z := 62.
Definition SCANCODE_F6 : Z := 63.
Definition SCANCODE_F7 : Z := 64.
Definition SCANCODE_F8 : Z := 65.
Definition SCANCODE_F9 : Z := 66.
Definition SCANCODE_F10 : Z := 67.
Definition SCANCODE_F11 : Z := 68.
Definition SCANCODE_F12 : Z := 69.
Definition SCANCODE_SCROLL_LOCK : Z := 71.
Definition SCANCODE_PAUSE : Z := 72.
Definition SCANCODE_INSERT : Z := 73.
Definition SCANCODE_HOME : Z := 74.
Definition SCANCODE_PAGE_UP : Z := 75.
Definition SCANCODE_DELETE : Z := 76.
Definition SCANCODE_END : Z := 77.
Definition SCANCODE_PAGE_DOWN : Z := 78.
Definition SCANCODE_RIGHT : Z := 79.
Definition SCANCODE_LEFT : Z := 80.
Definition SCANCODE_DOWN : Z := 81.
Definition SCANCODE_UP : Z := 82.
Definition SCANCODE_NUM_LOCK : Z := 83.
Definition SCANCODE_KP_DIVIDE : Z := 84.
Definition SCANCODE_KP_MULTIPLY : Z := 85.
Definition SCANCODE_KP_MINUS : Z := 86.
Definition SCANCODE_KP_PLUS : Z := 87.
Definition SCANCODE_KP_ENTER : Z := 88.
Definition SCANCODE_KP_1 : Z := 89.
Definition SCANCODE_KP_2 : Z := 90.
Definition SCANCODE_KP_3 : Z := 91.
Definition SCANCODE_KP_4 : Z := 92.
Definition SCANCODE_KP_5 : Z := 93.
Definition SCANCODE_KP_6 : Z := 94.
Definition SCANCODE_KP_7 : Z := 95.
Definition SCANCODE_KP_8 : Z := 96.
Definition SCANCODE_KP_9 : Z := 97.
Definition SCANCODE_KP_0 : Z := 98.
Definition SCANCODE_KP_PERIOD : Z := 99.
Definition SCANCODE_APPLICATION : Z := 101.
Definition SCANCODE_VOLUME_UP : Z := 128.
Definition SCANCODE_VOLUME_DOWN : Z := 129.
Definition SCANCODE_LCTRL : Z := 224.
Definition SCANCODE_LSHIFT : Z := 225.
Definition SCANCODE_LALT : Z := 226.
Definition SCANCODE_LGUI : Z := 227.
Definition SCANCODE_RCTRL : Z := 228.
Definition SCANCODE_RSHIFT : Z := 229.
Definition SCANCODE_RALT : Z := 230.
Definition SCANCODE_RGUI : Z := 231.
Definition SCANCODE_AC_SEARCH : Z := 232.
Definition SCANCODE_AC_HOME : Z := 233.
Definition SCANCODE_AC_BACK : Z := 234.
Definition SCANCODE_AC_FORWARD : Z := 235.
Definition SCANCODE_AC_STOP : Z := 236.
Definition SCANCODE_AC_REFRESH : Z := 237.
Definition SCANCODE_AC_BOOKMARKS : Z := 238.
Definition SCANCODE_AUDIO_PLAY : Z := 239.
Definition SCANCODE_AUDIO_STOP : Z := 240.
Definition SCANCODE_AUDIO_MUTE : Z := 241.
Definition SCANCODE_AUDIO_PREV : Z := 242.
Definition SCANCODE_AUDIO_NEXT : Z := 243.
Definition SCANCODE_COMPUTER : Z := 244.
Definition SCANCODE_MAIL : Z := 245.
Definition SCANCODE_MEDIA_SELECT : Z := 246.
Definition SCANCODE_CALCULATOR : Z := 247.
Definition SCANCODE_UNKNOWN : Z := 248.

Definition ps2_one_byte (byte : Z) : Z :=
  match byte with
  | 0x1 => SCANCODE_F9
  | 0x3 => SCANCODE_F5
  | 0x4 => SCANCODE_F3
  | 0x5 => SCANCODE_F1
  | 0x6 => SCANCODE_F2
  | 0x7 => SCANCODE_F12
  | 0x9 => SCANCODE_F10
  | 0xA => SCANCODE_F8
  | 0xB => SCANCODE_F6
  | 0xC => SCANCODE_F4
  | 0xD => SCANCODE_TAB
  | 0xE => SCANCODE_GRAVE
  | 0x11 => SCANCODE_LALT
  | 0x12 => SCANCODE_LSHIFT
  | 0x14 => SCANCODE_LCTRL
  | 0x15 => SCANCODE_Q
  | 0x16 => SCANCODE_1
  | 0x1A => SCANCODE_Z
  | 0x1B => SCANCODE_S
  | 0x1C => SCANCODE_A
  | 0x1D => SCANCODE_W
  | 0x1E => SCANCODE_2
  | 0x21 => SCANCODE_C
  | 0x22 => SCANCODE_X
  | 0x23 => SCANCODE_D
  | 0x24 => SCANCODE_E
  | 0x25 => SCANCODE_4
  | 0x26 => SCANCODE_3
  | 0x29 => SCANCODE_SPACE
  | 0x2A => SCANCODE_V
  | 0x2B => SCANCODE_F
  | 0x2C => SCANCODE_T
  | 0x2D => SCANCODE_R
  | 0x2E => SCANCODE_5
  | 0x31 => SCANCODE_N
  | 0x32 => SCANCODE_B
  | 0x33 => SCANCODE_H
  | 0x34 => SCANCODE_G
  | 0x35 => SCANCODE_Y
  | 0x36 => SCANCODE_6
  | 0x3A => SCANCODE_M
  | 0x3B => SCANCODE_J
  | 0x3C => SCANCODE_U
  | 0x3D => SCANCODE_7
  | 0x3E => SCANCODE_8
  | 0x41 => SCANCODE_COMMA
  | 0x42 => SCANCODE_K
  | 0x43 => SCANCODE_I
  | 0x44 => SCANCODE_O
  | 0x45 => SCANCODE_0
  | 0x46 => SCANCODE_9
  | 0x49 => SCANCODE_PERIOD
  | 0x4A => SCANCODE_SLASH
  | 0x4B => SCANCODE_L
  | 0x4C => SCANCODE_SEMICOLON
  | 0x4D => SCANCODE_P
  | 0x4E => SCANCODE_MINUS
  | 0x52 => SCANCODE_APOSTROPHE
  | 0x54 => SCANCODE_LEFT_BRACKET
  | 0x55 => SCANCODE_EQUALS
  | 0x58 => SCANCODE_CAPSLOCK
  | 0x59 => SCANCODE_RSHIFT
  | 0x5A => SCANCODE_RETURN
  | 0x5B => SCANCODE_RIGHT_BRACKET
  | 0x5D => SCANCODE_BACKSLASH
  | 0x66 => SCANCODE_BACKSPACE
  | 0x69 => SCANCODE_KP_1
  | 0x6C => SCANCODE_KP_7
  | 0x70 => SCANCODE_KP_0
  | 0x71 => SCANCODE_KP_PERIOD
  | 0x72 => SCANCODE_KP_2
  | 0x73 => SCANCODE_KP_5
  | 0x74 => SCANCODE_KP_6
  | 0x75 => SCANCODE_KP_8
  | 0x76 => SCANCODE_ESCAPE
  | 0x77 => SCANCODE_NUM_LOCK
  | 0x78 => SCANCODE_F11
  | 0x79 => SCANCODE_KP_PLUS
  | 0x7A => SCANCODE_KP_3
  | 0x7B => SCANCODE_KP_MINUS
  | 0x7C => SCANCODE_KP_MULTIPLY
  | 0x7D => SCANCODE_KP_9
  | 0x7E => SCANCODE_SCROLL_LOCK
  | 0x83 => SCANCODE_F7
  | _ => SCANCODE_UNKNOWN
  end.

Definition ps2_e0 (byte : Z) : Z :=
  match byte with
  | 0x10 => SCANCODE_AC_SEARCH
  | 0x11 => SCANCODE_RALT
  | 0x14 => SCANCODE_RCTRL
  | 0x15 => SCANCODE_AUDIO_PREV
  | 0x18 => SCANCODE_AC_BOOKMARKS
  | 0x1F => SCANCODE_LGUI
  | 0x20 => SCANCODE_AC_REFRESH
  | 0x21 => SCANCODE_VOLUME_DOWN
  | 0x23 => SCANCODE_AUDIO_MUTE
  | 0x27 => SCANCODE_RGUI
  | 0x28 => SCANCODE_AC_STOP
  | 0x2B => SCANCODE_CALCULATOR
  | 0x2F => SCANCODE_APPLICATION
  | 0x30 => SCANCODE_AC_FORWARD
  | 0x32 => SCANCODE_VOLUME_UP
  | 0x34 => SCANCODE_AUDIO_PLAY
  | 0x38 => SCANCODE_AC_BACK
  | 0x3A => SCANCODE_AC_HOME
  | 0x3B => SCANCODE_AUDIO_STOP
  | 0x40 => SCANCODE_COMPUTER
  | 0x48 => SCANCODE_MAIL
  | 0x4A => SCANCODE_KP_DIVIDE
  | 0x4D => SCANCODE_AUDIO_NEXT
  | 0x50 => SCANCODE_MEDIA_SELECT
  | 0x5A => SCANCODE_KP_ENTER
  | 0x69 => SCANCODE_END
  | 0x6B => SCANCODE_LEFT
  | 0x6C => SCANCODE_HOME
  | 0x70 => SCANCODE_INSERT
  | 0x71 => SCANCODE_DELETE
  | 0x72 => SCANCODE_DOWN
  | 0x74 => SCANCODE_RIGHT
  | 0x75 => SCANCODE_UP
  | 0x7A => SCANCODE_PAGE_DOWN
  | 0x7D => SCANCODE_PAGE_UP
  | _ => SCANCODE_UNKNOWN
  end.

End Ps2Codes.

(** * PS/2 keyboard and mouse (src/src/arch/x86/dev/ps2_keyboard.cpp, ps2_mouse.cpp)

    The two devices as machines that take one byte at a time and push input events.
    The reference is what the devices send: the table of scan code set 2, written down
    apart from those of the code, and packets of three or four bytes.  Whatever is typed
    and moved arrives as it was; the keyboard finds its way back after noise, the mouse
    does not. *)

Module Ps2Dev.
Import InputQueue Ps2Codes.

(** ** The keyboard *)

Inductive KbState := KbNone | KbE0 | KbE1 | KbE1_14.
Record Ps2Keyboard := mkKb { kb_state : KbState; pressed : bool; kb_scanning : bool }.
#[global] Instance KbState_dec : EqDecision KbState.
Proof. solve_decision. Defined.

Definition new_keyboard : Ps2Keyboard := mkKb KbNone true false.

(** [on_receive]; the event is for the queue. *)
Definition kb_receive (byte : Z) (kb : Ps2Keyboard) : option InputEvent * Ps2Keyboard :=
  if negb (kb_scanning kb) then (None, kb)
  else if byte =? 0xE0 then (None, mkKb KbE0 (pressed kb) true)
  else if byte =? 0xE1 then (None, mkKb KbE1 (pressed kb) true)
  else if byte =? 0xF0 then (None, mkKb (kb_state kb) false true)
  else
    let push code := (Some (Key code (pressed kb)), mkKb KbNone true true) in
    match kb_state kb with
    | KbNone => push (ps2_one_byte byte)
    | KbE0 => push (ps2_e0 byte)
    | KbE1 => if byte =? 0x14 then (None, mkKb KbE1_14 (pressed kb) true) else (None, mkKb KbNone true true)
    | KbE1_14 => if byte =? 0x77 then push SCANCODE_PAUSE else (None, mkKb KbNone true true)
    end.

Definition ps2_is_kb_id (id : Z) : bool :=
  (id =? 0x2B) || (id =? 0x47) || (id =? 0x5D) || (id =? 0x60) || (id =? 0xAB) || (id =? 0xAC).

(** ** The mouse *)

Inductive PacketType := Generic | ZAxis.
Inductive MouseState := MFlags | MX | MY | MZ.
Record Ps2Mouse := mkPs2Mouse {
  packet_type : PacketType; m_state : MouseState; m_flags : Z; m_x : Z; m_y : Z; m_z : Z; m_scanning : bool }.

Definition new_mouse : Ps2Mouse := mkPs2Mouse Generic MFlags 0 0 0 0 false.

Definition i8 (n : Z) : Z := if n mod 2 ^ 8 <? 2 ^ 7 then n mod 2 ^ 8 else n mod 2 ^ 8 - 2 ^ 8.
Definition i16 (n : Z) : Z := if n mod 2 ^ 16 <? 2 ^ 15 then n mod 2 ^ 16 else n mod 2 ^ 16 - 2 ^ 16.

Definition add_event (m : Ps2Mouse) : InputEvent :=
  let left := Z.testbit (m_flags m) 0 in
  let right := Z.testbit (Z.shiftr (m_flags m) 1) 0 in
  let middle := Z.testbit (Z.shiftr (m_flags m) 2) 0 in
  let negative_x := Z.testbit (Z.shiftr (m_flags m) 4) 0 in
  let negative_y := Z.testbit (Z.shiftr (m_flags m) 5) 0 in
  let x_movement := i16 (if negative_x then m_x m - 0x100 else m_x m) in
  let y_movement := i16 (if negative_y then m_y m - 0x100 else m_y m) in
  let z_movement := match packet_type m with Generic => 0 | ZAxis => i8 (m_z m) end in
  Mouse (mkMouse x_movement y_movement z_movement left right middle).

Definition mouse_receive (byte : Z) (m : Ps2Mouse) : option InputEvent * Ps2Mouse :=
  if negb (m_scanning m) then (None, m)
  else
    match m_state m with
    | MFlags => (None, mkPs2Mouse (packet_type m) MX byte (m_x m) (m_y m) (m_z m) true)
    | MX => (None, mkPs2Mouse (packet_type m) MY (m_flags m) byte (m_y m) (m_z m) true)
    | MY =>
        match packet_type m with
        | Generic => let m := mkPs2Mouse Generic MFlags (m_flags m) (m_x m) byte (m_z m) true in (Some (add_event m), m)
        | ZAxis => (None, mkPs2Mouse ZAxis MZ (m_flags m) (m_x m) byte (m_z m) true)
        end
    | MZ => let m := mkPs2Mouse (packet_type m) MFlags (m_flags m) (m_x m) (m_y m) byte true in (Some (add_event m), m)
    end.

(** ** Devices on a port *)

Inductive Ps2Device := Keyboard (k : Ps2Keyboard) | PointingDevice (m : Ps2Mouse).

Definition on_receive (byte : Z) (d : Ps2Device) : option InputEvent * Ps2Device :=
  match d with
  | Keyboard k => let '(e, k) := kb_receive byte k in (e, Keyboard k)
  | PointingDevice m => let '(e, m) := mouse_receive byte m in (e, PointingDevice m)
  end.

(** With [GLOBAL_EVENT_QUEUE]. *)
Definition receive (byte : Z) (d : Ps2Device) (q : EventQueue) : option (Ps2Device * EventQueue) :=
  let '(e, d) := on_receive byte d in
  q ← match e with Some e => push e q | None => Some q end;
  Some (d, q).

(** The events of a stream of bytes. *)
Fixpoint feed (bytes : list Z) (d : Ps2Device) : list InputEvent * Ps2Device :=
  match bytes with
  | [] => ([], d)
  | b :: bytes => let '(e, d) := on_receive b d in let '(es, d) := feed bytes d in (option_list e ++ es, d)
  end.

Lemma feed_app l1 l2 d : feed (l1 ++ l2) d = let '(e1, d1) := feed l1 d in let '(e2, d2) := feed l2 d1 in (e1 ++ e2, d2).
Proof.
  revert d. induction l1 as [|b l1 IH]; intros d; cbn [feed app]; [by destruct (feed l2 d)|].
  destruct (on_receive b d) as [e d1]. rewrite IH. destruct (feed l1 d1) as [e1 d2]. destruct (feed l2 d2) as [e2 d3]. by rewrite app_assoc.
Qed.

(** The bytes go to the queue event by event. *)
Fixpoint receive_all (bytes : list Z) (d : Ps2Device) (q : EventQueue) : option (Ps2Device * EventQueue) :=
  match bytes with
  | [] => Some (d, q)
  | b :: bytes => '(d, q) ← receive b d q; receive_all bytes d q
  end.

Lemma receive_all_ok bytes : forall d q l, Rep q l ->
  exists q', receive_all bytes d q = Some (snd (feed bytes d), q') /\ Rep q' (foldl (fun l e => put e l) l (fst (feed bytes d))).
Proof.
  induction bytes as [|b bytes IH]; intros d q l Hq; [by exists q|]. cbn [receive_all feed]. unfold receive. destruct (on_receive b d) as [e d1].
  assert (Hp : exists q1, match e with Some e => push e q | None => Some q end = Some q1 /\ Rep q1 (foldl (fun l e => put e l) l (option_list e))).
  { destruct e as [e|]; [|by exists q]. by apply push_ok. }
  destruct Hp as (q1 & -> & Hq1). cbn [mbind option_bind]. destruct (IH d1 q1 _ Hq1) as (q2 & -> & Hq2). destruct (feed bytes d1) as [es d2]. cbn in *.
  exists q2. by rewrite foldl_app.
Qed.

Lemma put_all es : forall l, (length l + length es <= 255)%nat -> foldl (fun l e => put e l) l es = l ++ es.
Proof.
  induction es as [|e es IH]; intros l Hl; cbn in *; [by rewrite app_nil_r|]. unfold put at 2. rewrite (proj2 (Nat.ltb_lt _ _)) by lia.
  rewrite IH by (rewrite length_app; cbn; lia). by rewrite <- app_assoc.
Qed.

(** ** Scan code set 2 *)

(** The form of what a key sends: a byte, a byte after 0xE0, or the sequence of the pause
    key. *)
Inductive key := Plain (b : Z) | Extended (b : Z) | Pause.
#[global] Instance key_dec : EqDecision key.
Proof. solve_decision. Defined.

Definition prefix (b : Z) : bool := (b =? 0xE0) || (b =? 0xE1) || (b =? 0xF0).
Definition valid_key (k : key) : bool := match k with Plain b | Extended b => negb (prefix b) | Pause => true end.

(** *** The keys of the standard

    The scan codes of set 2 by the usage of the key on the keyboard page of the USB HID
    usage tables, as the translation table from HID usages to PS/2 scan codes has them;
    the codes of event.h up to SCANCODE_RGUI are these usages.  The keys of the multimedia
    keyboards have no usage on that page but the volume keys, and go by the names of event.h. *)
Definition row (usage : Z) (ks : list key) : list (Z * key) := imap (fun i k => (usage + Z.of_nat i, k)) ks.

Definition letters : list (Z * key) := row 0x04 (Plain <$>
  [0x1C; 0x32; 0x21; 0x23; 0x24; 0x2B; 0x34; 0x33; 0x43; 0x3B; 0x42; 0x4B; 0x3A;
   0x31; 0x44; 0x4D; 0x15; 0x2D; 0x1B; 0x2C; 0x3C; 0x2A; 0x1D; 0x22; 0x35; 0x1A]).
(** 1 to 9, and 0 *)
Definition digits : list (Z * key) := row 0x1E (Plain <$> [0x16; 0x1E; 0x26; 0x25; 0x2E; 0x36; 0x3D; 0x3E; 0x46; 0x45]).
(** Return, escape, backspace, tabulator, space, minus, equals, the brackets and backslash *)
Definition controls : list (Z * key) := row 0x28 (Plain <$> [0x5A; 0x76; 0x66; 0x0D; 0x29; 0x4E; 0x55; 0x54; 0x5B; 0x5D]).
(** Semicolon, apostrophe, grave, comma, period, slash and caps lock *)
Definition punctuation : list (Z * key) := row 0x33 (Plain <$> [0x4C; 0x52; 0x0E; 0x41; 0x49; 0x4A; 0x58]).
(** F1 to F12 *)
Definition functions : list (Z * key) := row 0x3A (Plain <$> [0x05; 0x06; 0x04; 0x0C; 0x03; 0x0B; 0x83; 0x0A; 0x01; 0x09; 0x78; 0x07]).
(** Scroll lock and pause, then insert, home, page up, delete, end, page down, and the
    arrows right, left, down and up *)
Definition navigation : list (Z * key) :=
  row 0x47 [Plain 0x7E; Pause] ++ row 0x49 (Extended <$> [0x70; 0x6C; 0x7D; 0x71; 0x69; 0x7A; 0x74; 0x6B; 0x72; 0x75]).
(** Num lock, divide, multiply, minus, plus, enter, 1 to 3; 5 to 9, 0 and period *)
Definition keypad : list (Z * key) :=
  row 0x53 [Plain 0x77; Extended 0x4A; Plain 0x7C; Plain 0x7B; Plain 0x79; Extended 0x5A; Plain 0x69; Plain 0x72; Plain 0x7A] ++
  row 0x5D (Plain <$> [0x73; 0x74; 0x6C; 0x75; 0x7D; 0x70; 0x71]).
(** The menu key, and the modifiers: control, shift, alt and gui, left and right *)
Definition modifiers : list (Z * key) :=
  row 0x65 [Extended 0x2F] ++
  row 0xE0 [Plain 0x14; Plain 0x12; Plain 0x11; Extended 0x1F; Extended 0x14; Plain 0x59; Extended 0x11; Extended 0x27].
Definition multimedia : list (Z * key) :=
  row 0x80 (Extended <$> [0x32; 0x21]) ++
  [(SCANCODE_AUDIO_NEXT, Extended 0x4D); (SCANCODE_AUDIO_PREV, Extended 0x15); (SCANCODE_AUDIO_STOP, Extended 0x3B);
   (SCANCODE_AUDIO_PLAY, Extended 0x34); (SCANCODE_AUDIO_MUTE, Extended 0x23); (SCANCODE_MEDIA_SELECT, Extended 0x50);
   (SCANCODE_MAIL, Extended 0x48); (SCANCODE_CALCULATOR, Extended 0x2B); (SCANCODE_COMPUTER, Extended 0x40);
   (SCANCODE_AC_SEARCH, Extended 0x10); (SCANCODE_AC_HOME, Extended 0x3A); (SCANCODE_AC_BACK, Extended 0x38);
   (SCANCODE_AC_FORWARD, Extended 0x30); (SCANCODE_AC_STOP, Extended 0x28); (SCANCODE_AC_REFRESH, Extended 0x20);
   (SCANCODE_AC_BOOKMARKS, Extended 0x18)].

Definition standard_keys : list (Z * key) :=
  letters ++ digits ++ controls ++ punctuation ++ functions ++ navigation ++ keypad ++ modifiers ++ multimedia.

(** Keys that a keyboard may have and that the driver does not know: the 4 of the keypad,
    and the key of European keyboards next to the left shift. *)
Definition missing_keys : list (Z * key) := [(0x5C, Plain 0x6B); (0x64, Plain 0x61)].

(** What the code takes a key for. *)
Definition key_code (k : key) : Z := match k with Plain b => ps2_one_byte b | Extended b => ps2_e0 b | Pause => SCANCODE_PAUSE end.

(** What the keyboard sends when the key goes down or up. *)
Definition key_bytes (k : key) (down : bool) : list Z :=
  let up := if down then [] else [0xF0] in
  match k with
  | Plain b => up ++ [b]
  | Extended b => 0xE0 :: up ++ [b]
  | Pause => 0xE1 :: up ++ 0x14 :: up ++ [0x77]
  end.

Definition idle : Ps2Device := Keyboard (mkKb KbNone true true).

Lemma prefix_false b : prefix b = false -> (b =? 0xE0) = false /\ (b =? 0xE1) = false /\ (b =? 0xF0) = false.
Proof. unfold prefix. intros [[? ?]%orb_false_elim ?]%orb_false_elim. done. Qed.

Lemma key_decoded k down : valid_key k = true -> feed (key_bytes k down) idle = ([Key (key_code k) down], idle).
Proof.
  destruct k as [b|b|]; cbn [valid_key]; intros Hv; [| |by destruct down];
    apply negb_true_iff, prefix_false in Hv as (H1 & H2 & H3);
    destruct down; cbn; unfold kb_receive; cbn; by rewrite ?H1, ?H2, ?H3.
Qed.

Lemma key_progress k down s pr : valid_key k = true ->
  let d := snd (feed (key_bytes k down) (Keyboard (mkKb s pr true))) in
  d = idle \/ s = KbE1 /\ exists pr', d = Keyboard (mkKb KbE1_14 pr' true).
Proof.
  destruct k as [b|b|]; cbn [valid_key]; intros Hv; [| |destruct down; by left];
    apply negb_true_iff, prefix_false in Hv as (H1 & H2 & H3); destruct down, s; cbn; unfold kb_receive; cbn; rewrite ?H1, ?H2, ?H3; cbn;
    try (by left); try (destruct (b =? 0x14)); try (destruct (b =? 0x77)); cbn; eauto.
Qed.

(** The tables of the code are those of the standard, for every byte. *)
Definition bytes : list Z := Z.of_nat <$> seq 0 256.

Lemma standard_code u k : (u, k) ∈ standard_keys -> valid_key k = true /\ key_code k = u.
Proof.
  intros H. assert (Hall : Forall (fun uk => valid_key uk.2 = true /\ key_code uk.2 = uk.1) standard_keys) by (apply (bool_decide_unpack _); vm_compute; reflexivity).
  rewrite Forall_forall in Hall. exact (Hall _ H).
Qed.

Lemma code_standard b : b ∈ bytes ->
  (ps2_one_byte b = SCANCODE_UNKNOWN \/ (ps2_one_byte b, Plain b) ∈ standard_keys) /\
  (ps2_e0 b = SCANCODE_UNKNOWN \/ (ps2_e0 b, Extended b) ∈ standard_keys).
Proof. revert b. apply Forall_forall. apply (bool_decide_unpack _). vm_compute. reflexivity. Qed.

(** ** Mouse packets *)

Record move := mkMove { dx : Z; dy : Z; dz : Z; b_left : bool; b_right : bool; b_middle : bool }.
Definition valid_move (m : move) : Prop := -256 <= dx m < 256 /\ -256 <= dy m < 256 /\ -128 <= dz m < 128.

Definition move_flags (m : move) : Z :=
  Z.b2z (b_left m) + 2 * Z.b2z (b_right m) + 4 * Z.b2z (b_middle m) + 8 + 16 * Z.b2z (dx m <? 0) + 32 * Z.b2z (dy m <? 0).
Definition packet (t : PacketType) (m : move) : list Z :=
  [move_flags m; dx m mod 256; dy m mod 256] ++ match t with Generic => [] | ZAxis => [dz m mod 256] end.
Definition move_event (t : PacketType) (m : move) : InputEvent :=
  Mouse (mkMouse (dx m) (dy m) (match t with Generic => 0 | ZAxis => dz m end) (b_left m) (b_right m) (b_middle m)).

Definition waiting (t : PacketType) (d : Ps2Device) : Prop := exists f x y z, d = PointingDevice (mkPs2Mouse t MFlags f x y z true).

Lemma move_flags_bits m : let f := move_flags m in
  Z.testbit f 0 = b_left m /\ Z.testbit (Z.shiftr f 1) 0 = b_right m /\ Z.testbit (Z.shiftr f 2) 0 = b_middle m /\
  Z.testbit (Z.shiftr f 4) 0 = (dx m <? 0) /\ Z.testbit (Z.shiftr f 5) 0 = (dy m <? 0).
Proof. unfold move_flags. destruct (b_left m), (b_right m), (b_middle m), (dx m <? 0), (dy m <? 0); cbn; done. Qed.

Lemma i16_move d : -256 <= d < 256 -> i16 (if d <? 0 then d mod 256 - 0x100 else d mod 256) = d.
Proof.
  intros Hd. assert ((if d <? 0 then d mod 256 - 0x100 else d mod 256) = d) as ->.
  { destruct (Z.ltb_spec d 0); [|apply Z.mod_small; lia]. replace d with (d + 256 + (-1) * 256) at 1 by lia. rewrite Z.mod_add, Z.mod_small by lia. lia. }
  unfold i16. destruct (Z.ltb_spec d 0).
  - replace (d mod 2 ^ 16) with (d + 2 ^ 16); [destruct (Z.ltb_spec (d + 2 ^ 16) (2 ^ 15)); lia|].
    replace d with (d + 2 ^ 16 + (-1) * 2 ^ 16) at 2 by lia. rewrite Z.mod_add, Z.mod_small by lia. lia.
  - rewrite Z.mod_small by lia. destruct (Z.ltb_spec d (2 ^ 15)); lia.
Qed.

Lemma i8_move d : -128 <= d < 128 -> i8 (d mod 256) = d.
Proof.
  intros Hd. unfold i8. change 256 with (2 ^ 8). rewrite Z.mod_mod by lia. destruct (Z.ltb_spec d 0).
  - replace (d mod 2 ^ 8) with (d + 2 ^ 8); [destruct (Z.ltb_spec (d + 2 ^ 8) (2 ^ 7)); lia|].
    replace d with (d + 2 ^ 8 + (-1) * 2 ^ 8) at 2 by lia. rewrite Z.mod_add, Z.mod_small by lia. lia.
  - rewrite Z.mod_small by lia. destruct (Z.ltb_spec d (2 ^ 7)); lia.
Qed.

Lemma packet_decoded t m d : valid_move m -> waiting t d -> exists d', feed (packet t m) d = ([move_event t m], d') /\ waiting t d'.
Proof.
  intros (Hx & Hy & Hz) (f & x & y & z & ->). destruct (move_flags_bits m) as (B0 & B1 & B2 & B4 & B5). unfold packet, move_event.
  destruct t; cbn [app feed on_receive mouse_receive negb m_scanning m_state packet_type m_flags m_x m_y m_z option_list];
    unfold add_event; cbn [m_flags m_x m_y m_z packet_type]; rewrite B0, B1, B2, B4, B5, !i16_move by done; rewrite ?i8_move by done;
    (eexists; split; [done|]); do 4 eexists; done.
Qed.

(** ** The theorems *)

(** Keys of the standard that go down and up: what the keyboard sends, and the events of
    their codes. *)
Definition strokes := list (Z * key * bool).
Definition stroke_bytes (ks : strokes) : list Z := ks ≫= fun '(_, k, down) => key_bytes k down.
Definition stroke_events (ks : strokes) : list InputEvent := (fun '(u, _, down) => Key u down) <$> ks.

Lemma strokes_decoded (ks : strokes) : Forall (fun s => s.1 ∈ standard_keys) ks -> feed (stroke_bytes ks) idle = (stroke_events ks, idle).
Proof.
  induction 1 as [|[[u k] down] ks Hk Hks IH]; [done|]. unfold stroke_bytes, stroke_events in *. cbn [mbind list_bind fmap list_fmap].
  destruct (standard_code u k Hk) as [Hv <-]. rewrite feed_app, (key_decoded k down Hv), IH. done.
Qed.

(** Whatever came before, the decoder is in step again after two keys. *)
Lemma noise_over noise k1 k2 d1 d2 : valid_key k1 = true -> valid_key k2 = true ->
  snd (feed (noise ++ key_bytes k1 d1 ++ key_bytes k2 d2) idle) = idle.
Proof.
  intros H1 H2. rewrite feed_app. assert (Hn : exists s pr, snd (feed noise idle) = Keyboard (mkKb s pr true)).
  { assert (Hg : forall bs s pr, exists s' pr', snd (feed bs (Keyboard (mkKb s pr true))) = Keyboard (mkKb s' pr' true)); [|apply Hg].
    induction bs as [|b bs IH]; intros s pr; [by exists s, pr|]. cbn [feed on_receive].
    destruct (kb_receive b (mkKb s pr true)) as [e k] eqn:E. assert (Hsc : kb_scanning k = true) by (unfold kb_receive in E; repeat case_match; by simplify_eq/=).
    destruct k as [s1 pr1 sc]. cbn in Hsc. subst sc. destruct (IH s1 pr1) as (s' & pr' & H). destruct (feed bs _) as [es d]. cbn in *. subst d. by exists s', pr'. }
  destruct (feed noise idle) as [en d]. destruct Hn as (s & pr & Hd). cbn in Hd. subst d. rewrite feed_app.
  pose proof (key_progress k1 d1 s pr H1) as Hp1. destruct (feed (key_bytes k1 d1) _) as [e1 d']. cbn in Hp1.
  assert (Hp2 : snd (feed (key_bytes k2 d2) d') = idle).
  { destruct Hp1 as [->|(_ & pr' & ->)]; [by rewrite key_decoded|]. by destruct (key_progress k2 d2 KbE1_14 pr' H2) as [?|[? _]]. }
  destruct (feed (key_bytes k2 d2) d') as [e2 d'']. exact Hp2.
Qed.

(** C33: Whatever is typed on the keys of scan code set 2, as the standard has them, arrives
    in the queue of events with the codes of those keys, pressed and released in the same
    order, as long as there is room; and after any noise the decoder is in step again after
    two keys, whichever they are.  The table of the standard is written down apart from those
    of the code; the 4 of the keypad and the second backslash are not in it, for which see
    [missing_keys_unknown], nor is print screen. *)
Theorem keyboard_round_trip (ks : strokes) noise k1 k2 d1 d2 q l : Forall (fun s => s.1 ∈ standard_keys) ks -> valid_key k1 = true -> valid_key k2 = true ->
  Rep q l -> (length l + length ks <= 255)%nat ->
  (exists q', receive_all (stroke_bytes ks) idle q = Some (idle, q') /\ Rep q' (l ++ stroke_events ks)) /\
  exists es, feed (noise ++ key_bytes k1 d1 ++ key_bytes k2 d2 ++ stroke_bytes ks) idle = (es ++ stroke_events ks, idle).
Proof.
  intros Hks H1 H2 Hq Hl. split.
  - destruct (receive_all_ok (stroke_bytes ks) idle q l Hq) as (q' & E & Hq'). rewrite strokes_decoded in E, Hq' by done. cbn in E, Hq'.
    rewrite put_all in Hq' by (unfold stroke_events; by rewrite length_fmap). by exists q'.
  - pose proof (noise_over noise k1 k2 d1 d2 H1 H2) as Hn. rewrite !app_assoc, <- (app_assoc noise), feed_app. destruct (feed (noise ++ _ ++ _) idle) as [es d]. cbn in Hn. subst d.
    rewrite strokes_decoded by done. by exists es.
Qed.

(** An arrow released, a letter, and the pause key in between. *)
Lemma keyboard_round_trip_witness : exists q', receive_all [0xE0; 0xF0; 0x75; 0x1C; 0xE1; 0x14; 0x77; 0xE1; 0xF0; 0x14; 0xF0; 0x77; 0xF0; 0x1C] idle empty_queue = Some (idle, q') /\
  Rep q' [Key SCANCODE_UP false; Key SCANCODE_A true; Key SCANCODE_PAUSE true; Key SCANCODE_PAUSE false; Key SCANCODE_A false].
Proof.
  destruct (keyboard_round_trip [(0x52, Extended 0x75, false); (0x04, Plain 0x1C, true); (0x48, Pause, true); (0x48, Pause, false); (0x04, Plain 0x1C, false)]
    [] Pause Pause true true empty_queue []) as [H _]; [apply (bool_decide_unpack _); vm_compute; reflexivity|done|done|exact empty_rep|cbn; lia|]. exact H.
Defined.

(** Different keys of the standard have different codes and send different bytes; the
    tables of the code have no other keys, but two of the standard are missing, which
    arrive as unknown. *)
Theorem missing_keys_unknown : NoDup standard_keys.*1 /\ NoDup standard_keys.*2 /\
  (forall b, b ∈ bytes -> (ps2_one_byte b = SCANCODE_UNKNOWN \/ (ps2_one_byte b, Plain b) ∈ standard_keys) /\
    (ps2_e0 b = SCANCODE_UNKNOWN \/ (ps2_e0 b, Extended b) ∈ standard_keys)) /\
  forall u k down, (u, k) ∈ missing_keys -> feed (key_bytes k down) idle = ([Key SCANCODE_UNKNOWN down], idle).
Proof.
  split; [apply (bool_decide_unpack _); vm_compute; reflexivity|]. split; [apply (bool_decide_unpack _); vm_compute; reflexivity|].
  split; [exact code_standard|]. intros u k down H. unfold missing_keys in H. rewrite !elem_of_cons, elem_of_nil in H.
  destruct H as [[= -> ->]|[[= -> ->]|[]]]; by destruct down.
Qed.

(** Movements and buttons arrive as the mouse has sent them, for both kinds of packets. *)
Theorem mouse_round_trip t ms d : Forall valid_move ms -> waiting t d ->
  exists d', feed (ms ≫= packet t) d = (move_event t <$> ms, d') /\ waiting t d'.
Proof.
  intros Hms. revert d. induction Hms as [|m ms Hm Hms IH]; intros d Hd; [by exists d|]. rewrite bind_cons, fmap_cons, feed_app.
  destruct (packet_decoded t m d Hm Hd) as (d1 & -> & Hd1). destruct (IH d1 Hd1) as (d2 & -> & Hd2). by exists d2.
Qed.

Lemma mouse_round_trip_witness : exists d', feed [0x1A; 0xFF; 0x05; 0xFE] (PointingDevice (mkPs2Mouse ZAxis MFlags 0 0 0 0 true)) =
  ([Mouse (mkMouse (-1) 5 (-2) false true false)], d').
Proof.
  destruct (mouse_round_trip ZAxis [mkMove (-1) 5 (-2) false true false] (PointingDevice (mkPs2Mouse ZAxis MFlags 0 0 0 0 true))) as (d' & H & _).
  - repeat constructor; cbn; lia.
  - do 4 eexists. reflexivity.
  - exists d'. exact H.
Defined.

(** A mouse that has lost one byte of a packet never finds its way back: of a mouse that
    goes right by one, over and over, every event says eight right and one up. *)
Theorem mouse_never_resyncs n f y z : exists d es,
  feed (replicate n [8; 1; 0] ≫= id) (PointingDevice (mkPs2Mouse Generic MX f 0 y z true)) = (es, d) /\ length es = n /\
  forall i e, (0 < i)%nat -> es !! i = Some e -> e = Mouse (mkMouse 8 1 0 false false false).
Proof.
  assert (Hg : forall n f x y, exists d e, feed (replicate (S n) [8; 1; 0] ≫= id) (PointingDevice (mkPs2Mouse Generic MX f x y z true)) =
    (e :: replicate n (Mouse (mkMouse 8 1 0 false false false)), d)).
  { intros n0. induction n0 as [|n0 IH]; intros f0 x0 y0; [by do 2 eexists|]. rewrite replicate_S, bind_cons, feed_app.
    destruct (IH 0 8 1) as (d & e & E). cbn [id feed on_receive mouse_receive negb m_scanning m_state packet_type m_flags m_x m_y m_z option_list app] in *.
    rewrite E. exists d, (add_event (mkPs2Mouse Generic MFlags f0 8 1 z true)). cbn. do 2 f_equal.
    rewrite replicate_S, bind_cons, feed_app in E. cbn in E. destruct (feed _ _) in E. by injection E as <- _ _. }
  destruct n as [|n]; [by eexists _, []|]. destruct (Hg n f 0 y) as (d & e & E). rewrite E. eexists _, _. split; [done|].
  cbn. rewrite length_replicate. split; [done|]. intros [|i] e' Hi; [lia|]. cbn. by intros [-> _]%lookup_replicate.
Qed.

End Ps2Dev.
