(* ===== verification/Ps2Port.v ===== *)
(** * Commands to PS/2 devices (src/src/arch/x86/dev/ps2.cpp, ps2.hpp)

    A port between the driver and a device: [send_cmd] sends bytes and waits, and the
    interrupt handler takes what the device answers.  The call is a machine that gives
    up the lock of the port between its steps, where interrupts come in; [signals] is
    the counter of the event of the port.  A signal counts, and
    the thread that it wakes takes it; the interrupts are taken to come to the CPU of the
    driver, which keeps them off from its entry in the list of the event to the switch to
    another thread, so that no signal meets it in between (IpcWait.v has what happens to
    one that does). *)

From S2P Require Import Prelude InputQueue Ps2Dev.

Module Ps2Port.
Import InputQueue Ps2Dev.

Record Ps2Cmd := mkCmd { cmd : Z; params : nat; ret : nat }.

Definition SET_LEDS_EX : Ps2Cmd := mkCmd 0xEB 2 0.
Definition SET_LEDS : Ps2Cmd := mkCmd 0xED 1 0.
Definition GET_ID : Ps2Cmd := mkCmd 0xF2 0 2.
Definition ENABLE_SCANNING : Ps2Cmd := mkCmd 0xF4 0 0.
Definition DISABLE_SCANNING : Ps2Cmd := mkCmd 0xF5 0 0.
Definition SET_DEFAULTS : Ps2Cmd := mkCmd 0xF6 0 0.
Definition SET_REP : Ps2Cmd := mkCmd 0xF3 1 0.
Definition RESET : Ps2Cmd := mkCmd 0xFF 0 2.
Definition SAMPLE_RATE : Ps2Cmd := mkCmd 0xF3 1 0.

(** [Ps2PortFlags] *)
Definition WaitForAck : Z := 1.
Definition WaitForCmd : Z := 2.
Definition WaitForCmdResp : Z := 4.
Definition PassNonAck : Z := 8.
Definition CmdIsGetId : Z := 16.
Definition LastWasNack : Z := 32.
Definition has (fl b : Z) : bool := negb (Z.land fl b =? 0).
Definition clear (b fl : Z) : Z := Z.land fl (Z.lnot b).

Inductive Ps2Ack := Ack | Nack | AckError.
#[global] Instance Ps2Ack_dec : EqDecision Ps2Ack.
Proof. solve_decision. Defined.

Record Ps2Port := mkPort {
  device : option Ps2Device; signals : Z; flags : Z; cmd_resp : list Z; cmd_resp_count : nat; ack : Ps2Ack }.
Definition with_device (d : option Ps2Device) (p : Ps2Port) := mkPort d (signals p) (flags p) (cmd_resp p) (cmd_resp_count p) (ack p).
Definition with_signals (n : Z) (p : Ps2Port) := mkPort (device p) n (flags p) (cmd_resp p) (cmd_resp_count p) (ack p).
Definition with_flags (f : Z) (p : Ps2Port) := mkPort (device p) (signals p) f (cmd_resp p) (cmd_resp_count p) (ack p).
Definition with_resp (r : list Z) (n : nat) (p : Ps2Port) := mkPort (device p) (signals p) (flags p) r n (ack p).
Definition with_ack (a : Ps2Ack) (p : Ps2Port) := mkPort (device p) (signals p) (flags p) (cmd_resp p) (cmd_resp_count p) a.

Definition signal_one (p : Ps2Port) : Ps2Port := with_signals (u64 (signals p + 1)) p.
Definition drop_flags (b : Z) (p : Ps2Port) : Ps2Port := with_flags (clear b (flags p)) p.
Definition add_flags (b : Z) (p : Ps2Port) : Ps2Port := with_flags (Z.lor (flags p) b) p.

(** ** Interrupts *)

Definition ps2_process_cmd_response (data : Z) (p : Ps2Port) : option Ps2Port :=
  p ← match cmd_resp_count p with
      | O => Some p
      | S n => _ ← assert (n <? length (cmd_resp p))%nat; Some (with_resp (<[n := data]> (cmd_resp p)) n p)
      end;
  let p := if has (flags p) WaitForCmdResp
           then let p := drop_flags WaitForCmdResp p in if (cmd_resp_count p =? 0)%nat then p else signal_one p
           else p in
  Some (if (cmd_resp_count p =? 0)%nat then signal_one (drop_flags WaitForCmd p) else p).

Definition to_device (data : Z) (p : Ps2Port) (q : EventQueue) : option (Ps2Port * EventQueue) :=
  match device p with
  | None => Some (p, q)
  | Some d => '(d, q) ← receive data d q; Some (with_device (Some d) p, q)
  end.

(** The end of [ps2_process_ack], for those bytes that set [ack]. *)
Definition acked (data : Z) (p : Ps2Port) : option Ps2Port :=
  let p := if bool_decide (ack p = Ack) then drop_flags LastWasNack p else p in
  let p := drop_flags WaitForAck p in
  if bool_decide (ack p = Ack) && negb (data =? 0xFA) then ps2_process_cmd_response data p else Some (signal_one p).

Definition ps2_process_ack (data : Z) (p : Ps2Port) (q : EventQueue) : option (Ps2Port * EventQueue) :=
  let other :=
    '(p, q) ← (if has (flags p) PassNonAck then to_device data p q else Some (p, q));
    Some (drop_flags PassNonAck (drop_flags CmdIsGetId p), q) in
  let id := if has (flags p) CmdIsGetId then p ← acked data (with_ack Ack p); Some (p, q) else other in
  if data =? 0xFA then p ← acked data (with_ack Ack p); Some (p, q)
  else if data =? 0xFE then p ← acked data (with_ack Nack p); Some (p, q)
  else if data =? 0xFC then
    if has (flags p) LastWasNack then p ← acked data (with_ack AckError (drop_flags LastWasNack p)); Some (p, q) else id
  else if (data =? 0) || (data =? 3) || (data =? 4) then id
  else other.

(** [ps2_irq], for a byte of this port. *)
Definition ps2_irq (data : Z) (p : Ps2Port) (q : EventQueue) : option (Ps2Port * EventQueue) :=
  if has (flags p) WaitForAck then ps2_process_ack data p q
  else if has (flags p) WaitForCmd then p ← ps2_process_cmd_response data p; Some (p, q)
  else to_device data p q.

(** ** Commands *)

(** Where a call is when it does not have the lock: before [send], in the wait after it,
    in the two waits for the response with [adjust_timeout] between them, and before
    the response is read. *)
Inductive phase :=
  | Sending (todo : list Z) (tries : nat) | Waiting (todo : list Z) (tries : nat)
  | Response | Adjust | Response2 (no_time : bool) | Finishing | Done (status : bool).

Record sys := mkSys { port : Ps2Port; queue : EventQueue; call : Ps2Cmd; param : list Z; ph : phase; sent : list Z }.
Definition at_ (h : phase) (p : Ps2Port) (s : sys) : sys := mkSys p (queue s) (call s) (param s) h (sent s).

(** [send_byte] up to [send]. *)
Definition send_byte (todo : list Z) (tries : nat) (s : sys) : sys :=
  at_ (Sending todo tries) (add_flags WaitForAck (with_ack Nack (port s))) s.

(** The next byte, or on to the response. *)
Definition next_byte (todo : list Z) (s : sys) : sys :=
  match todo with
  | [] => at_ (if (ret (call s) =? 0)%nat then Finishing else Response) (port s) s
  | _ => send_byte todo 2 s
  end.

(** [send_byte] from the lock on. *)
Definition byte_sent (success : bool) (todo : list Z) (tries : nat) (s : sys) : sys :=
  if bool_decide (ack (port s) = Nack) && negb (pred tries =? 0)%nat then send_byte todo (pred tries) s
  else
    let p := drop_flags WaitForAck (port s) in
    if success && bool_decide (ack p = Ack) then next_byte (tail todo) (at_ (ph s) p s)
    else at_ (Done false) (with_flags 0 p) s.

Definition base_flags (c : Ps2Cmd) (fl : Z) : Z :=
  if cmd c =? cmd GET_ID then Z.lor fl CmdIsGetId
  else if (cmd c =? cmd SET_LEDS) || (cmd c =? cmd SET_LEDS_EX) || (cmd c =? cmd SET_REP) then Z.lor fl PassNonAck
  else 0.

Fixpoint fill_resp (n i : nat) (param resp : list Z) : option (list Z) :=
  match n with
  | O => Some resp
  | S n => x ← param !! i; _ ← assert (n <? length resp)%nat; fill_resp n (S i) param (<[n := x]> resp)
  end.

(** [send_cmd_unlocked] up to the first [send]. *)
Definition send_cmd (c : Ps2Cmd) (param : list Z) (p : Ps2Port) (q : EventQueue) : option sys :=
  let p := with_flags (base_flags c (flags p)) (with_resp (cmd_resp p) (ret c) p) in
  p ← (if (ret c =? 0)%nat then Some p
       else r ← fill_resp (ret c) 0 param (cmd_resp p); Some (with_resp r (ret c) (add_flags (Z.lor WaitForCmd WaitForCmdResp) p)));
  _ ← assert (params c <=? length param)%nat;
  Some (next_byte (cmd c :: take (params c) param) (mkSys p q c param Finishing [])).

Definition adjust_timeout (s : sys) : option sys :=
  if cmd (call s) =? cmd GET_ID then
    id ← cmd_resp (port s) !! 1%nat;
    let p := if id =? 0xAA then with_flags 0 (port s) else port s in
    let other := negb (ps2_is_kb_id id) in
    let p := if other then with_flags 0 (with_resp (cmd_resp p) 0 p) else p in
    Some (at_ (Response2 ((id =? 0xAA) || other)) p s)
  else Some (at_ (Response2 false) (port s) s).

Fixpoint read_resp (n i : nat) (resp param : list Z) : option (list Z) :=
  match n with
  | O => Some param
  | S n => x ← resp !! n; _ ← assert (i <? length param)%nat; read_resp n (S i) resp (<[i := x]> param)
  end.

Definition finish (s : sys) : option sys :=
  r ← read_resp (ret (call s)) 0 (cmd_resp (port s)) (param s);
  let n := cmd_resp_count (port s) in
  let bad := negb (n =? 0)%nat && (negb (cmd (call s) =? cmd RESET) || negb (n =? 1)%nat) in
  Some (mkSys (with_flags 0 (port s)) (queue s) (call s) r (Done (negb bad)) (sent s)).

(** ** Steps *)

Inductive label := Irq (data : Z) | Sent (success : bool) | Wake | TimeOut | Go.
Inductive outcome := Disabled | Fault | Next (s : sys).
Definition lift (o : option sys) : outcome := match o with Some s => Next s | None => Fault end.

(** The code after a wait. *)
Definition woken (s : sys) : outcome :=
  match ph s with
  | Waiting todo tries => Next (byte_sent true todo tries s)
  | Response =>
      Next (at_ (if negb (cmd_resp_count (port s) =? 0)%nat && negb (has (flags (port s)) WaitForCmdResp) then Adjust else Finishing) (port s) s)
  | Response2 _ => Next (at_ Finishing (port s) s)
  | _ => Disabled
  end.

Definition step (l : label) (s : sys) : outcome :=
  match l with
  | Irq data => match ps2_irq data (port s) (queue s) with Some (p, q) => Next (mkSys p q (call s) (param s) (ph s) (sent s)) | None => Fault end
  | Sent ok =>
      match ph s with
      | Sending todo tries =>
          if ok then Next (mkSys (port s) (queue s) (call s) (param s) (Waiting todo tries) (sent s ++ option_list (head todo)))
          else Next (byte_sent false todo tries s)
      | _ => Disabled
      end
  | Wake => if 0 <? signals (port s) then woken (at_ (ph s) (with_signals (signals (port s) - 1) (port s)) s) else Disabled
  | TimeOut => if 0 <? signals (port s) then Disabled else woken s
  | Go => match ph s with Adjust => lift (adjust_timeout s) | Finishing => lift (finish s) | _ => Disabled end
  end.

End Ps2Port.
