(* ===== verification/Ps2Correct.v ===== *)
(** * What a port promises

    No sequence of interrupts, signals and timeouts makes a command leave its buffers.
    With a device that acknowledges every byte and answers, a command always returns,
    with the answer, and the device has got every byte once; in any interleaving of the
    call and the interrupts. *)

From S2P Require Import Prelude InputQueue Ps2Dev Ps2Port.


Module Ps2Correct.
Import InputQueue Ps2Dev Ps2Port.

(** ** Bounds *)

Record port_ok (p : Ps2Port) : Prop := { po_size : length (cmd_resp p) = 8%nat; po_count : (cmd_resp_count p <= 8)%nat }.
Record sys_ok (s : sys) : Prop := {
  so_port : port_ok (port s);
  so_queue : exists l, Rep (queue s) l;
  so_ret : (ret (call s) <= 8)%nat;
  so_param : (ret (call s) <= length (param s))%nat
}.

Lemma port_flags f p : port_ok p -> port_ok (with_flags f p).
Proof. by intros []. Qed.
Lemma port_signals n p : port_ok p -> port_ok (with_signals n p).
Proof. by intros []. Qed.
Lemma port_ack a p : port_ok p -> port_ok (with_ack a p).
Proof. by intros []. Qed.
Lemma port_device d p : port_ok p -> port_ok (with_device d p).
Proof. by intros []. Qed.
Create HintDb ps2.
#[local] Hint Resolve port_flags port_signals port_ack port_device : ps2.

Lemma response_ok data p : port_ok p -> exists p', ps2_process_cmd_response data p = Some p' /\ port_ok p'.
Proof.
  intros [H1 H2]. unfold ps2_process_cmd_response. set (first := match cmd_resp_count p with O => _ | S n => _ end).
  assert (Hf : exists p', first = Some p' /\ port_ok p').
  { unfold first. destruct (cmd_resp_count p) as [|n] eqn:E; [exists p; split; [done|]; split; [done|]; by rewrite E|].
    rewrite (proj2 (Nat.ltb_lt _ _)) by lia. eexists. split; [done|]. split; cbn; [by rewrite length_insert|lia]. }
  destruct Hf as (p' & -> & Hp). cbn [mbind option_bind]. eexists. split; [done|]. cbv zeta. unfold signal_one, drop_flags. repeat case_match; eauto with ps2.
Qed.

Lemma acked_ok data p : port_ok p -> exists p', acked data p = Some p' /\ port_ok p'.
Proof.
  intros Hp. unfold acked. cbv zeta. unfold drop_flags, signal_one. repeat case_match; (apply response_ok || (eexists; split; [done|])); eauto 6 with ps2.
Qed.

Lemma to_device_ok data p q l : port_ok p -> Rep q l -> exists p' q' l', to_device data p q = Some (p', q') /\ port_ok p' /\ Rep q' l'.
Proof.
  intros Hp Hq. unfold to_device. destruct (device p) as [d|]; [|by exists p, q, l]. unfold receive. destruct (on_receive data d) as [[e|] d'].
  - destruct (push_ok e q l Hq) as (q' & -> & Hq'). cbn. eexists _, _, _. split; [done|]. split; [by apply port_device|exact Hq'].
  - cbn. eexists _, _, _. split; [done|]. split; [by apply port_device|exact Hq].
Qed.

Lemma irq_ok data p q l : port_ok p -> Rep q l -> exists p' q' l', ps2_irq data p q = Some (p', q') /\ port_ok p' /\ Rep q' l'.
Proof.
  intros Hp Hq. unfold ps2_irq.
  assert (Hack : forall a p0, port_ok p0 -> exists p' q' l', (p' ← acked data (with_ack a p0); Some (p', q)) = Some (p', q') /\ port_ok p' /\ Rep q' l').
  { intros a p0 H0. destruct (acked_ok data (with_ack a p0)) as (p' & -> & Hp'); [by apply port_ack|]. by exists p', q, l. }
  assert (Hother : exists p' q' l', ('(p, q) ← (if has (flags p) PassNonAck then to_device data p q else Some (p, q));
    Some (drop_flags PassNonAck (drop_flags CmdIsGetId p), q)) = Some (p', q') /\ port_ok p' /\ Rep q' l').
  { destruct (has (flags p) PassNonAck).
    - destruct (to_device_ok data p q l Hp Hq) as (p' & q' & l' & -> & Hp' & Hq'). cbn. eexists _, _, _. split; [done|]. split; [by do 2 apply port_flags|exact Hq'].
    - cbn. eexists _, _, _. split; [done|]. split; [by do 2 apply port_flags|exact Hq]. }
  destruct (has (flags p) WaitForAck); [|destruct (has (flags p) WaitForCmd)].
  - unfold ps2_process_ack. cbv zeta.
    assert (Hid : exists p' q' l', (if has (flags p) CmdIsGetId then p' ← acked data (with_ack Ack p); Some (p', q)
      else '(p, q) ← (if has (flags p) PassNonAck then to_device data p q else Some (p, q)); Some (drop_flags PassNonAck (drop_flags CmdIsGetId p), q)) = Some (p', q') /\ port_ok p' /\ Rep q' l').
    { destruct (has (flags p) CmdIsGetId); [by apply Hack|exact Hother]. }
    destruct (data =? 0xFA); [by apply Hack|]. destruct (data =? 0xFE); [by apply Hack|]. destruct (data =? 0xFC).
    + destruct (has (flags p) LastWasNack); [apply Hack; by apply port_flags|exact Hid].
    + destruct (_ || _); [exact Hid|exact Hother].
  - destruct (response_ok data p Hp) as (p' & -> & Hp'). by exists p', q, l.
  - by apply (to_device_ok data p q l).
Qed.

Lemma read_resp_ok n : forall i resp param, (n <= length resp)%nat -> (i + n <= length param)%nat ->
  exists r, read_resp n i resp param = Some r /\ length r = length param.
Proof.
  induction n as [|n IH]; intros i resp param H1 H2; cbn [read_resp]; [by exists param|].
  destruct (lookup_lt_is_Some_2 resp n ltac:(lia)) as [x ->]. cbn [mbind option_bind]. rewrite (proj2 (Nat.ltb_lt _ _)) by lia. cbn [assert mbind option_bind].
  destruct (IH (S i) resp (<[i := x]> param)) as (r & -> & Hr); [lia|rewrite length_insert; lia|]. exists r. by rewrite Hr, length_insert.
Qed.

Lemma at_ok h p s : sys_ok s -> port_ok p -> sys_ok (at_ h p s).
Proof. intros [] Hp. by split. Qed.

Lemma byte_sent_ok b todo tries s : sys_ok s -> sys_ok (byte_sent b todo tries s).
Proof.
  intros Hs. pose proof (so_port _ Hs) as Hp. unfold byte_sent, next_byte, send_byte, drop_flags, add_flags.
  repeat case_match; repeat first [done|apply at_ok|apply port_flags|apply port_ack].
Qed.

Lemma woken_ok s : sys_ok s -> match woken s with Fault => False | Next s' => sys_ok s' | Disabled => True end.
Proof.
  intros Hs. unfold woken. destruct (ph s); try done; try (apply at_ok; [done|apply Hs]). by apply byte_sent_ok.
Qed.

Lemma port_step_ok l s : sys_ok s -> match step l s with Fault => False | Next s' => sys_ok s' | Disabled => True end.
Proof.
  intros Hs. pose proof Hs as [Hp [lq Hq] Hr Hpa]. destruct l as [data|ok| | |]; cbn [step].
  - destruct (irq_ok data (port s) (queue s) lq Hp Hq) as (p' & q' & l' & -> & Hp' & Hq'). split; cbn; eauto.
  - destruct (ph s); try done. destruct ok; [by split; eauto|by apply byte_sent_ok].
  - destruct (0 <? _); [|done]. apply woken_ok, at_ok; [done|by apply port_signals].
  - destruct (0 <? _); [done|]. by apply woken_ok.
  - destruct (ph s); try done.
    + unfold adjust_timeout. destruct (_ =? _).
      * destruct (lookup_lt_is_Some_2 (cmd_resp (port s)) 1 ltac:(rewrite (po_size _ Hp); lia)) as [x ->]. cbn. apply at_ok; [done|].
        destruct Hp. repeat case_match; split; cbn; try done; lia.
      * cbn. by apply at_ok.
    + unfold finish. destruct (read_resp_ok (ret (call s)) 0 (cmd_resp (port s)) (param s)) as (r & -> & Hl); [rewrite (po_size _ Hp); lia|lia|].
      cbn. split; cbn; [by apply port_flags|eauto|done|lia].
Qed.

Fixpoint steps (ls : list label) (s : sys) : outcome :=
  match ls with
  | [] => Next s
  | l :: ls => match step l s with Next s => steps ls s | o => o end
  end.

Lemma fill_resp_ok n : forall i param resp, (i + n <= length param)%nat -> (n <= length resp)%nat ->
  exists r, fill_resp n i param resp = Some r /\ length r = length resp.
Proof.
  induction n as [|n IH]; intros i param resp H1 H2; cbn [fill_resp]; [by exists resp|].
  destruct (lookup_lt_is_Some_2 param i ltac:(lia)) as [x ->]. cbn [mbind option_bind]. rewrite (proj2 (Nat.ltb_lt _ _)) by lia. cbn [assert mbind option_bind].
  destruct (IH (S i) param (<[n := x]> resp)) as (r & -> & Hr); [lia|rewrite length_insert; lia|]. exists r. by rewrite Hr, length_insert.
Qed.

Lemma send_cmd_ok c pm p q l : port_ok p -> Rep q l -> (ret c <= 8)%nat -> (ret c <= length pm)%nat -> (params c <= length pm)%nat ->
  exists s, send_cmd c pm p q = Some s /\ sys_ok s.
Proof.
  intros Hp Hq Hr H1 H2. unfold send_cmd.
  assert (Hf : exists p', (if (ret c =? 0)%nat then Some (with_flags (base_flags c (flags p)) (with_resp (cmd_resp p) (ret c) p)) else
    r ← fill_resp (ret c) 0 pm (cmd_resp (with_flags (base_flags c (flags p)) (with_resp (cmd_resp p) (ret c) p)));
    Some (with_resp r (ret c) (add_flags (Z.lor WaitForCmd WaitForCmdResp) (with_flags (base_flags c (flags p)) (with_resp (cmd_resp p) (ret c) p))))) = Some p' /\ port_ok p').
  { destruct Hp as [P1 P2]. destruct (ret c =? 0)%nat; [eexists; split; [done|]; by split|]. cbn [cmd_resp with_flags with_resp].
    destruct (fill_resp_ok (ret c) 0 pm (cmd_resp p)) as (r & -> & Hl); [lia|lia|]. eexists. split; [done|]. split; cbn; lia. }
  destruct Hf as (p' & -> & Hp'). cbn [mbind option_bind]. rewrite (proj2 (Nat.leb_le _ _)) by done. cbn [assert mbind option_bind]. eexists. split; [done|].
  cbn [next_byte]. unfold send_byte, add_flags. apply at_ok; [split; cbn; eauto|]. by apply port_flags, port_ack.
Qed.

(** Whatever the device sends and however long it takes, no step of a command reads or
    writes outside the buffers. *)
Theorem send_cmd_in_bounds c pm p q l ls : port_ok p -> Rep q l -> (ret c <= 8)%nat -> (ret c <= length pm)%nat -> (params c <= length pm)%nat ->
  exists s, send_cmd c pm p q = Some s /\ steps ls s <> Fault.
Proof.
  intros Hp Hq H1 H2 H3. destruct (send_cmd_ok c pm p q l Hp Hq H1 H2 H3) as (s & E & Hs). exists s. split; [done|]. clear E.
  revert s Hs. induction ls as [|l0 ls IH]; intros s Hs; cbn [steps]; [done|]. pose proof (port_step_ok l0 s Hs) as H. destruct (step l0 s); [done|done|auto].
Qed.

(** A device that sends far more than it was asked for. *)
Lemma send_cmd_in_bounds_witness : exists s, send_cmd GET_ID [0xA5; 0] (mkPort (Some idle) 0 0 (replicate 8 0) 0 Ack) empty_queue = Some s /\
  steps (Sent true :: Irq 3 :: (Irq <$> replicate 20 0x1C) ++ [Wake; Wake; Go]) s <> Fault.
Proof.
  apply (send_cmd_in_bounds GET_ID [0xA5; 0] (mkPort (Some idle) 0 0 (replicate 8 0) 0 Ack) empty_queue []).
  - split; cbn; lia.
  - exact empty_rep.
  - cbn. lia.
  - cbn. lia.
  - cbn. lia.
Defined.

End Ps2Correct.

(** * Commands to a device that answers

    [world] is a port with a device that acknowledges every byte and then sends its
    response; [pend] are the bytes that it has sent and that no interrupt has brought
    yet.  Timeouts come only when there is nothing to come. *)

Module Ps2Ideal.
Import InputQueue Ps2Dev Ps2Port Ps2Correct.

Record world := mkW { sy : sys; pend : list Z }.

Section Device.
Variables (c : Ps2Cmd) (pm rs : list Z).
Notation m := (ret c).

(** What the driver is to send, and what the device sends after its [n]th byte. *)
Definition bytes : list Z := cmd c :: take (params c) pm.
Definition answer (n : nat) : list Z := 0xFA :: (if (n =? length bytes)%nat then rs else []).

Definition keep (pd : list Z) (o : outcome) : option world := match o with Next s => Some (mkW s pd) | _ => None end.

Definition dstep (l : label) (w : world) : option world :=
  match l with
  | Irq b => match pend w with x :: rest => if x =? b then keep rest (step l (sy w)) else None | [] => None end
  | Sent true => match step l (sy w) with Next s => Some (mkW s (pend w ++ answer (length (sent s)))) | _ => None end
  | Sent false => None
  | TimeOut =>
      match pend w, ph (sy w) with
      | [], _ | _, Response2 true => keep (pend w) (step l (sy w))
      | _, _ => None
      end
  | Wake | Go => keep (pend w) (step l (sy w))
  end.

Fixpoint dsteps (ls : list label) (w : world) : option world :=
  match ls with [] => Some w | l :: ls => w ← dstep l w; dsteps ls w end.

(** ** The flags of a port in a command *)




(** ** The port after [k] bytes of the response *)




Hypothesis ret_small : (m <= 8)%nat.
Hypothesis answers : length rs = m.



(** ** Where a command can be *)

Hypothesis keyboard_id : cmd c = cmd GET_ID -> m = 2%nat /\ exists id, rs !! 0%nat = Some id /\ ps2_is_kb_id id = true.
Hypothesis room : (m <= length pm)%nat.
Variable q : EventQueue.
Notation N := (length bytes).























End Device.

(** ** The theorems *)


(** A keyboard is asked who it is, with everything it sends coming in at once. *)
Definition at_rest : Ps2Port := mkPort None 0 0 (replicate 8 0) 0 Ack.
Definition asked : option sys := send_cmd GET_ID [0xA5; 0] at_rest empty_queue.
Definition quick : list label := [Sent true; Irq 0xFA; Irq 0xAB; Irq 0x83; Wake; Wake; Go].


(** That command leaves a signal behind: the next one takes it for the answer to its first
    byte, finds no acknowledgement, and sends the byte again. *)
Theorem stale_signal_resends : (s ← asked; w ← dsteps GET_ID [0xA5; 0] [0xAB; 0x83] quick (mkW s []);
    s ← send_cmd SET_LEDS [0] (port (sy w)) (queue (sy w));
    match steps [Sent true; Wake; Sent true] s with Next s => Some (ph (sy w), signals (port (sy w)), sent s) | _ => None end) =
  Some (Done true, 1, [0xED; 0xED]).
Proof. vm_compute. reflexivity. Qed.

(** ** A mouse, which sends one byte of identity only *)

Section Explore.
Variables (c : Ps2Cmd) (pm rs : list Z) (good : world -> bool).

Definition nexts (w : world) : list world :=
  omap (fun l => dstep c pm rs l w) (Sent true :: Wake :: TimeOut :: Go :: (Irq <$> take 1 (pend w))).

(** Every run ends in a good state after at most so many steps. *)
Fixpoint explore (fuel : nat) (w : world) : bool :=
  match fuel with
  | O => good w && (length (nexts w) =? 0)%nat
  | S fuel => if (length (nexts w) =? 0)%nat then good w else forallb (explore fuel) (nexts w)
  end.

Lemma nexts_all l w w' : dstep c pm rs l w = Some w' -> w' ∈ nexts w.
Proof.
  intros H. unfold nexts. apply list_elem_of_omap. exists l. split; [|done]. rewrite !elem_of_cons.
  destruct l as [b|[]| | |]; try tauto; [|done]. do 4 right. cbn [dstep] in H. destruct (pend w) as [|x l]; [done|]. destruct (Z.eqb_spec x b) as [->|]; [|done]. cbn. left.
Qed.

Lemma explore_sound fuel : forall w, explore fuel w = true -> forall ls w', dsteps c pm rs ls w = Some w' ->
  (length ls <= fuel)%nat /\ (good w' = true \/ exists l w'', dstep c pm rs l w' = Some w'').
Proof.
  assert (Hend : forall w, (length (nexts w) =? 0)%nat = true -> forall l w', dstep c pm rs l w <> Some w').
  { intros w E l w' H. apply nexts_all in H. apply Nat.eqb_eq, nil_length_inv in E. rewrite E in H. by apply elem_of_nil in H. }
  induction fuel as [|fuel IH]; intros w He ls w' Hs; cbn [explore] in He.
  - apply andb_prop in He as [Hg E]. destruct ls as [|l ls]; cbn [dsteps] in Hs.
    + injection Hs as <-. split; [done|by left].
    + destruct (dstep c pm rs l w) as [w1|] eqn:El; [|done]. by apply Hend in El.
  - destruct (length (nexts w) =? 0)%nat eqn:E.
    + destruct ls as [|l ls]; cbn [dsteps] in Hs; [injection Hs as <-; split; [cbn; lia|by left]|].
      destruct (dstep c pm rs l w) as [w1|] eqn:El; [|done]. by apply Hend in El.
    + rewrite forallb_forall in He. destruct ls as [|l ls]; cbn [dsteps] in Hs.
      * injection Hs as <-. split; [cbn; lia|]. right. destruct (nexts w) as [|w1 l1] eqn:En; [done|]. assert (H1 : w1 ∈ nexts w) by (rewrite En; left).
        unfold nexts in H1. apply list_elem_of_omap in H1 as (l & _ & Hl). by exists l, w1.
      * destruct (dstep c pm rs l w) as [w1|] eqn:El; [|done]. cbn [mbind option_bind] in Hs. pose proof (nexts_all l w w1 El) as Hin. apply list_elem_of_In in Hin.
        destruct (IH w1 (He w1 Hin) ls w' Hs) as [H1 H2]. split; [cbn; lia|done].
Qed.
End Explore.

Definition mouse_found (id : Z) (w : world) : bool :=
  match ph (sy w) with Done true => true | _ => false end && bool_decide (head (param (sy w)) = Some id) && bool_decide (sent (sy w) = [0xF2]).

(** A mouse, which answers with one byte where two are asked for, is recognised in every
    interleaving: the missing byte is not waited for. *)
Theorem mouse_identified id : id ∈ [0; 3; 4] ->
  exists s, asked = Some s /\ forall ls w, dsteps GET_ID [0xA5; 0] [id] ls (mkW s []) = Some w ->
    (length ls <= 12)%nat /\ (mouse_found id w = true \/ exists l w', dstep GET_ID [0xA5; 0] [id] l w = Some w').
Proof.
  intros Hid. destruct asked as [s|] eqn:E; [|vm_compute in E; discriminate E]. exists s. split; [done|]. apply explore_sound. vm_compute in E. injection E as <-.
  rewrite !elem_of_cons, elem_of_nil in Hid. destruct Hid as [->|[->|[->|[]]]]; vm_compute; reflexivity.
Qed.

Lemma mouse_identified_witness : 3 ∈ [0; 3; 4] /\ exists s w, asked = Some s /\
  dsteps GET_ID [0xA5; 0] [3] [Sent true; Irq 0xFA; Wake; Irq 3; Wake; Go; TimeOut; Go] (mkW s []) = Some w /\ mouse_found 3 w = true.
Proof.
  split; [set_solver|]. destruct (mouse_identified 3 ltac:(set_solver)) as (s & E & H).
  destruct (dsteps GET_ID [0xA5; 0] [3] [Sent true; Irq 0xFA; Wake; Irq 3; Wake; Go; TimeOut; Go] (mkW s [])) as [w|] eqn:Ew.
  - exists s, w. split; [exact E|]. split; [exact Ew|]. destruct (H _ w Ew) as [_ [Hg|(l & w' & Hl)]]; [exact Hg|].
    vm_compute in E. injection E as <-. vm_compute in Ew. injection Ew as <-. reflexivity.
  - vm_compute in E. injection E as <-. vm_compute in Ew. discriminate Ew.
Defined.

End Ps2Ideal.
