(* ===== verification/Ps2Ctl.v ===== *)
(** * The PS/2 controller (src/src/arch/x86/dev/ps2.cpp)

    Commands to the controller through its data and status ports, and the part of its
    configuration that the driver keeps.  The controller is a parameter, what [load]
    and [store] do to it; [polls] is how often its status is read before the clock says
    that time is over.  As an instance there is the keyboard controller of the virtual
    machine monitor (Chipset.v), under which the kernel can run. *)

From S2P Require Import Prelude Bits Chipset.

Module Ps2Ctl.

Record Cmd := mkCmd { cmd : Z; params : nat; ret : nat }.
Definition READ_CONFIG : Cmd := mkCmd 0x20 0 1.
Definition WRITE_CONFIG : Cmd := mkCmd 0x60 1 0.
Definition DISABLE_PORT2 : Cmd := mkCmd 0xA7 0 0.
Definition ENABLE_PORT2 : Cmd := mkCmd 0xA8 0 0.
Definition WRITE_TO_PORT2 : Cmd := mkCmd 0xD4 1 0.

Definition PORT1_IRQ : Z := 1.
Definition PORT2_IRQ : Z := 2.
Definition PORT1_CLOCK_DISABLE : Z := 16.
Definition PORT2_CLOCK_DISABLE : Z := 32.
Definition PORT1_TRANSLATION : Z := 64.

Definition OUTPUT_FULL : Z := 1.
Definition INPUT_FULL : Z := 2.
Definition DATA : Z := 0.
Definition STATUS : Z := 4.
Definition CMD : Z := 4.

Section Controller.
Context {H : Type}.
Variables (load : Z -> H -> Z * H) (store : Z -> Z -> H -> option H) (polls : nat).

(** [with_timeout] *)
Fixpoint poll (n : nat) (test : Z -> bool) (h : H) : bool * H :=
  match n with
  | O => (false, h)
  | S n => let '(s, h) := load STATUS h in if test s then (true, h) else poll n test h
  end.
Definition ps2_wait_for_space (h : H) : bool * H := poll (S polls) (fun s => Z.land s INPUT_FULL =? 0) h.
Definition ps2_wait_for_data (h : H) : bool * H := poll (S polls) (fun s => negb (Z.land s OUTPUT_FULL =? 0)) h.

Fixpoint write_params (ps : list Z) (h : H) : option (bool * H) :=
  match ps with
  | [] => Some (true, h)
  | b :: ps =>
      let '(ok, h) := ps2_wait_for_space h in
      if negb ok then Some (false, h) else h ← store DATA b h; write_params ps h
  end.

Fixpoint read_params (n i : nat) (ps : list Z) (h : H) : option (bool * list Z * H) :=
  match n with
  | O => Some (true, ps, h)
  | S n =>
      let '(ok, h) := ps2_wait_for_data h in
      if negb ok then Some (false, ps, h)
      else
        let '(x, h) := load DATA h in
        _ ← assert (i <? length ps)%nat;
        read_params n (S i) (<[i := x]> ps) h
  end.

Definition ps2_send_cmd (c : Cmd) (ps : list Z) (h : H) : option (bool * list Z * H) :=
  let '(ok, h) := ps2_wait_for_space h in
  if negb ok then Some (false, ps, h)
  else
    h ← store CMD (cmd c) h;
    _ ← assert (params c <=? length ps)%nat;
    '(ok, h) ← write_params (take (params c) ps) h;
    if negb ok then Some (false, ps, h) else read_params (ret c) 0 ps h.

Fixpoint flush_loop (n : nat) (h : H) : bool * H :=
  let '(s, h) := load STATUS h in
  if Z.land s OUTPUT_FULL =? 0 then (true, h)
  else match n with O => (false, h) | S n => let '(_, h) := load DATA h in flush_loop n h end.
Definition ps2_flush_data (h : H) : bool * H := flush_loop 16 h.

Fixpoint aux_loop (n : nat) (enable : bool) (h : H) : option (bool * H) :=
  match n with
  | O => Some (false, h)
  | S n =>
      '(ok, ps, h) ← ps2_send_cmd READ_CONFIG [0] h;
      if negb ok then Some (false, h)
      else
        config ← ps !! 0%nat;
        if bool_decide ((Z.land config PORT2_CLOCK_DISABLE =? 0) = enable) then Some (true, h) else aux_loop n enable h
  end.
Definition ps2_enable_aux (enable : bool) (h : H) : option (bool * H) :=
  '(ok, _, h) ← ps2_send_cmd (if enable then ENABLE_PORT2 else DISABLE_PORT2) [] h;
  if negb ok then Some (false, h) else aux_loop 100 enable h.

(** ** The configuration *)

Record ctl := mkCtl { hw : H; initial : Z; current : Z }.
Definition set_bits (b c : Z) : Z := Z.lor c b.
Definition clear_bits (b c : Z) : Z := Z.land c (u8 (Z.lnot b)).

Definition write_config (s : ctl) : option (bool * ctl) :=
  '(ok, _, h) ← ps2_send_cmd WRITE_CONFIG [current s] (hw s); Some (ok, mkCtl h (initial s) (current s)).

Definition ps2_enable_aux_in_config (s : ctl) : option (bool * ctl) :=
  '(ok, s) ← write_config (mkCtl (hw s) (initial s) (set_bits PORT2_IRQ (clear_bits PORT2_CLOCK_DISABLE (current s))));
  if negb ok then Some (false, mkCtl (hw s) (initial s) (clear_bits PORT2_IRQ (set_bits PORT2_CLOCK_DISABLE (current s)))) else Some (true, s).

Definition ps2_enable_kb_in_config (s : ctl) : option (bool * ctl) :=
  '(ok, s) ← write_config (mkCtl (hw s) (initial s) (set_bits PORT1_IRQ (clear_bits PORT1_CLOCK_DISABLE (current s))));
  if negb ok then Some (false, mkCtl (hw s) (initial s) (clear_bits PORT2_IRQ (set_bits PORT2_CLOCK_DISABLE (current s)))) else Some (true, s).

(** The loop of [init_controller]: two readings in a row must agree. *)
Fixpoint stable_config (n i : nat) (config : list Z) (h : H) : option (bool * list Z * H) :=
  match n with
  | O => Some (false, config, h)
  | S n =>
      x ← config !! (i mod 2)%nat;
      '(ok, ps, h) ← ps2_send_cmd READ_CONFIG [x] h;
      y ← ps !! 0%nat;
      let config := <[(i mod 2)%nat := y]> config in
      if negb ok then Some (false, config, h)
      else
        a ← config !! 0%nat; b ← config !! 1%nat;
        if (2 <=? i)%nat && (a =? b) then Some (true, config, h) else stable_config n (S i) config h
  end.

Definition init_controller (s : ctl) : option (bool * ctl) :=
  '(ok, config, h) ← stable_config 10 0 [0; 0] (hw s);
  if negb ok then Some (false, mkCtl h (initial s) (current s))
  else
    x ← config !! 0%nat;
    '(ok, s) ← write_config (mkCtl h x (clear_bits PORT1_TRANSLATION (clear_bits PORT1_IRQ (set_bits PORT1_CLOCK_DISABLE x))));
    if negb ok then Some (false, s)
    else let '(_, h) := ps2_flush_data (hw s) in Some (true, mkCtl h (initial s) (current s)).

Definition suspend (s : ctl) : option ctl :=
  let '(_, h) := ps2_flush_data (hw s) in
  '(_, _, h) ← ps2_send_cmd WRITE_CONFIG [initial s] h; Some (mkCtl h (initial s) (current s)).

(** [resume] up to the interrupts; the value is whether it goes on. *)
Definition resume_config (s : ctl) : option (bool * ctl) :=
  let '(ok, h) := ps2_flush_data (hw s) in
  if negb ok then Some (false, mkCtl h (initial s) (current s))
  else
    let c := clear_bits PORT2_IRQ (clear_bits PORT1_IRQ (set_bits PORT2_CLOCK_DISABLE (set_bits PORT1_CLOCK_DISABLE (clear_bits PORT1_TRANSLATION (initial s))))) in
    '(ok, s) ← write_config (mkCtl h (initial s) c);
    if negb ok then write_config s else Some (true, s).

(** [send] of the two ports. *)
Definition send1 (byte : Z) (h : H) : option (bool * H) :=
  let '(ok, h) := ps2_wait_for_space h in
  if negb ok then Some (false, h) else h ← store DATA byte h; Some (true, h).
Definition send2 (byte : Z) (h : H) : option (bool * H) :=
  '(ok, _, h) ← ps2_send_cmd WRITE_TO_PORT2 [byte] h; Some (ok, h).

(** ** What a controller is expected to do *)

Hypothesis store_ok : forall p v h, is_Some (store p v h).

Lemma write_params_ok ps : forall h, exists ok h', write_params ps h = Some (ok, h').
Proof.
  induction ps as [|b ps IH]; intros h; cbn [write_params]; [by exists true, h|]. destruct (ps2_wait_for_space h) as [[] h1]; cbn [negb]; [|by exists false, h1].
  destruct (store_ok DATA b h1) as [h2 ->]. cbn [mbind option_bind]. apply IH.
Qed.

Lemma read_params_ok n : forall i ps h, (i + n <= length ps)%nat -> exists ok ps' h', read_params n i ps h = Some (ok, ps', h') /\ length ps' = length ps.
Proof.
  induction n as [|n IH]; intros i ps h Hn; cbn [read_params]; [by exists true, ps, h|]. destruct (ps2_wait_for_data h) as [[] h1]; cbn [negb]; [|by exists false, ps, h1].
  destruct (load DATA h1) as [x h2]. rewrite (proj2 (Nat.ltb_lt _ _)) by lia. cbn [assert mbind option_bind].
  destruct (IH (S i) (<[i := x]> ps) h2) as (ok & ps' & h' & -> & Hl); [rewrite length_insert; lia|]. exists ok, ps', h'. by rewrite Hl, length_insert.
Qed.

Lemma send_ok c ps h : (params c <= length ps)%nat -> (ret c <= length ps)%nat ->
  exists ok ps' h', ps2_send_cmd c ps h = Some (ok, ps', h') /\ length ps' = length ps.
Proof.
  intros H1 H2. unfold ps2_send_cmd. destruct (ps2_wait_for_space h) as [[] h1]; cbn [negb]; [|by exists false, ps, h1].
  destruct (store_ok CMD (cmd c) h1) as [h2 ->]. cbn [mbind option_bind]. rewrite (proj2 (Nat.leb_le _ _)) by done. cbn [assert mbind option_bind].
  destruct (write_params_ok (take (params c) ps) h2) as (ok & h3 & ->). cbn [mbind option_bind]. destruct ok; cbn [negb]; [|by exists false, ps, h3].
  by apply read_params_ok.
Qed.

Lemma write_config_ok s : exists ok h, write_config s = Some (ok, mkCtl h (initial s) (current s)).
Proof.
  unfold write_config. destruct (send_ok WRITE_CONFIG [current s] (hw s)) as (ok & ps & h & -> & _); [cbn; lia|cbn; lia|]. by exists ok, h.
Qed.

Lemma stable_config_ok n : forall i config h, length config = 2%nat ->
  exists ok config' h', stable_config n i config h = Some (ok, config', h') /\ length config' = 2%nat /\
    (ok = true -> config' !! 0%nat = config' !! 1%nat).
Proof.
  induction n as [|n IH]; intros i config h Hl; cbn [stable_config]; [by exists false, config, h|].
  pose proof (Nat.mod_upper_bound i 2 ltac:(lia)) as Hm. destruct (lookup_lt_is_Some_2 config (i mod 2) ltac:(lia)) as [x ->]. cbn [mbind option_bind].
  destruct (send_ok READ_CONFIG [x] h) as (ok & ps & h' & -> & Hps); [cbn; lia|cbn; lia|]. cbn [mbind option_bind].
  destruct (lookup_lt_is_Some_2 ps 0 ltac:(rewrite Hps; cbn; lia)) as [y ->]. cbn [mbind option_bind]. set (config' := <[(i mod 2)%nat := y]> config).
  assert (Hl' : length config' = 2%nat) by (unfold config'; by rewrite length_insert). destruct ok; cbn [negb]; [|by exists false, config', h'].
  destruct (lookup_lt_is_Some_2 config' 0 ltac:(lia)) as [a Ea]. destruct (lookup_lt_is_Some_2 config' 1 ltac:(lia)) as [b Eb]. rewrite Ea, Eb. cbn [mbind option_bind].
  destruct ((2 <=? i)%nat && (a =? b)) eqn:E; [|by apply IH]. apply andb_prop in E as [_ E%Z.eqb_eq]. exists true, config', h'. split_and!; [done|done|]. intros _. congruence.
Qed.

Lemma set_bit b c i : 0 <= b -> 0 <= i -> Z.testbit (set_bits (2 ^ b) c) i = (i =? b) || Z.testbit c i.
Proof. intros Hb Hi. unfold set_bits. rewrite Z.lor_spec, Z.pow2_bits_eqb by lia. rewrite (Z.eqb_sym b i). apply orb_comm. Qed.
Lemma clear_bit b c i : 0 <= b -> 0 <= i < 8 -> Z.testbit (clear_bits (2 ^ b) c) i = negb (i =? b) && Z.testbit c i.
Proof.
  intros Hb Hi. unfold clear_bits, u8. rewrite Z.land_spec, testbit_wrap, Z.lnot_spec, Z.pow2_bits_eqb by lia. rewrite (Z.eqb_sym b i).
  replace (i <? 8) with true by lia. cbn [andb]. apply andb_comm.
Qed.

(** Whatever the controller does, its set-up returns; when it succeeds the driver has the
    configuration that it read, but with the first port stopped and silent and without
    translation. *)
Theorem init_controller_config s : exists ok s', init_controller s = Some (ok, s') /\
  (ok = true -> forall i, 0 <= i < 8 -> Z.testbit (current s') i = ((i =? 4) || Z.testbit (initial s') i) && negb (i =? 0) && negb (i =? 6)).
Proof.
  unfold init_controller. destruct (stable_config_ok 10 0 [0; 0] (hw s) eq_refl) as (ok & config & h & -> & Hl & _). cbn [mbind option_bind].
  destruct ok; cbn [negb]; [|by eexists _, _]. destruct (lookup_lt_is_Some_2 config 0 ltac:(lia)) as [x ->]. cbn [mbind option_bind].
  destruct (write_config_ok (mkCtl h x (clear_bits PORT1_TRANSLATION (clear_bits PORT1_IRQ (set_bits PORT1_CLOCK_DISABLE x))))) as (ok & h' & ->). cbn [mbind option_bind].
  destruct ok; cbn [negb]; [|by eexists _, _]. destruct (ps2_flush_data _) as [_ h'']. eexists _, _. split; [done|]. intros _ i Hi. cbn [current initial].
  change PORT1_TRANSLATION with (2 ^ 6). change PORT1_IRQ with (2 ^ 0). change PORT1_CLOCK_DISABLE with (2 ^ 4). rewrite !clear_bit, set_bit by lia.
  destruct (i =? 6), (i =? 0), (i =? 4), (Z.testbit x i); done.
Qed.

(** When the first port cannot be enabled, the driver takes back the second one instead:
    its configuration says that the first port is on and the second one off. *)
Theorem enable_kb_blames_port2 s s' : ps2_enable_kb_in_config s = Some (false, s') ->
  Z.testbit (current s') 0 = true /\ Z.testbit (current s') 4 = false /\ Z.testbit (current s') 1 = false /\ Z.testbit (current s') 5 = true.
Proof.
  unfold ps2_enable_kb_in_config. destruct (write_config_ok (mkCtl (hw s) (initial s) (set_bits PORT1_IRQ (clear_bits PORT1_CLOCK_DISABLE (current s))))) as (ok & h & ->).
  cbn [mbind option_bind]. destruct ok; cbn [negb]; [done|]. intros H1. injection H1 as <-. cbn [current].
  change PORT2_IRQ with (2 ^ 1). change PORT1_IRQ with (2 ^ 0). change PORT1_CLOCK_DISABLE with (2 ^ 4). change PORT2_CLOCK_DISABLE with (2 ^ 5).
  rewrite !clear_bit, !set_bit, !clear_bit by lia. done.
Qed.

End Controller.

(** ** In the virtual machine *)

(** The keyboard controller of the virtual machine monitor does not know how to read the
    configuration, so that this driver gives up on it, however long it waits. *)
Theorem init_fails_in_vm polls s : hw s = Chipset.kbc_init ->
  exists s', init_controller Chipset.kbc_read Chipset.kbc_write polls s = Some (false, s').
Proof.
  intros Hh. assert (Hp : forall n test h x, Chipset.kbc_read STATUS h = (x, h) -> test x = false -> poll Chipset.kbc_read n test h = (false, h)).
  { intros n test h x E1 E2. induction n as [|n IH]; cbn [poll]; [done|]. by rewrite E1, E2. }
  assert (Hs : exists h, ps2_send_cmd Chipset.kbc_read Chipset.kbc_write polls READ_CONFIG [0] Chipset.kbc_init = Some (false, [0], h)).
  { unfold ps2_send_cmd. assert (ps2_wait_for_space Chipset.kbc_read polls Chipset.kbc_init = (true, Chipset.kbc_init)) as -> by done. cbn [negb]. destruct (Chipset.kbc_write CMD (cmd READ_CONFIG) Chipset.kbc_init) as [h|] eqn:E; [|vm_compute in E; discriminate E].
    cbn [mbind option_bind assert params READ_CONFIG Nat.leb length take write_params negb read_params ret]. unfold ps2_wait_for_data.
    rewrite (Hp (S polls) _ h 4); [by exists h| |done]. vm_compute in E. injection E as <-. reflexivity. }
  destruct Hs as (h & E). unfold init_controller. rewrite Hh.
  assert (Hst : forall n, stable_config Chipset.kbc_read Chipset.kbc_write polls (S n) 0 [0; 0] Chipset.kbc_init = Some (false, [0; 0], h)).
  { intros n. cbn [stable_config]. change ([0; 0] !! (0 mod 2)%nat) with (Some 0). cbn [mbind option_bind]. rewrite E. done. }
  rewrite Hst. by eexists.
Qed.

Lemma init_fails_in_vm_witness : exists s', init_controller Chipset.kbc_read Chipset.kbc_write 500 (mkCtl Chipset.kbc_init 0 0) = Some (false, s').
Proof. exact (init_fails_in_vm 500 (mkCtl Chipset.kbc_init 0 0) eq_refl). Defined.

(** A controller whose input buffer never empties. *)
Definition dead_load (p : Z) (h : unit) : Z * unit := (2, tt).
Definition dead_store (p v : Z) (h : unit) : option unit := Some tt.
Lemma dead_store_ok p v h : is_Some (dead_store p v h).
Proof. by exists tt. Qed.

Lemma enable_kb_blames_port2_witness : exists s', ps2_enable_kb_in_config dead_load dead_store 3 (mkCtl tt 0x47 0x56) = Some (false, s') /\ Z.testbit (current s') 5 = true.
Proof.
  destruct (ps2_enable_kb_in_config dead_load dead_store 3 (mkCtl tt 0x47 0x56)) as [[ok s']|] eqn:E; [|vm_compute in E; discriminate E].
  destruct ok; [vm_compute in E; discriminate E|]. exists s'. split; [reflexivity|].
  apply (enable_kb_blames_port2 dead_load dead_store 3 dead_store_ok (mkCtl tt 0x47 0x56) s' E).
Defined.

Lemma init_controller_config_witness : exists ok s', init_controller dead_load dead_store 3 (mkCtl tt 0 0) = Some (ok, s').
Proof.
  destruct (init_controller_config dead_load dead_store 3 dead_store_ok (mkCtl tt 0 0)) as (ok & s' & H & _). exists ok, s'. exact H.
Defined.

End Ps2Ctl.
