(* ===== verification/XhciRing.v ===== *)
(** * Transfer rings of the USB host controller (src/src/dev/usb/hcd/xhci/transfer_ring.cpp)

    A ring is a page of 256 transfer request blocks (TRBs).  The last one links back to
    the first.  Who owns a block is said by its cycle bit, which changes its meaning
    every time round.  [fetch] is what the controller does, by the documentation of
    the hardware: it takes the block at its place if the cycle bit is its own, and
    follows the link when it comes to it.  [complete] is what the event handler of
    xhci.cpp does to a ring. *)

From S2P Require Import Prelude.

Module XhciRing.

(** A [TransferTrb] as its words; the first two are one for pointers. *)
Record TransferTrb := mkTrb { word0 : Z; flags2 : Z; flags3 : Z }.
#[global] Instance TransferTrb_dec : EqDecision TransferTrb.
Proof. solve_decision. Defined.

Definition bit (n : Z) (b : bool) : Z := Z.shiftl (Z.b2z b) n.
Definition C (b : bool) : Z := bit 0 b.
Definition IOC (b : bool) : Z := bit 5 b.
Definition IDT (b : bool) : Z := bit 6 b.
Definition TRB_TYPE (t : Z) : Z := Z.shiftl t 10.
Definition ENT (b : bool) : Z := bit 1 b.
Definition CH (b : bool) : Z := bit 4 b.
Definition TC (b : bool) : Z := bit 1 b.
Definition DIR (d : Z) : Z := Z.shiftl d 16.
Definition TRT (t : Z) : Z := Z.shiftl t 16.
Definition TRANSFER_LEN (n : Z) : Z := n.
Definition TD_SIZE (n : Z) : Z := Z.shiftl n 17.

(** [transfer_trb_type] *)
Definition NORMAL : Z := 1.
Definition SETUP : Z := 2.
Definition DATA : Z := 3.
Definition STATUS : Z := 4.
Definition LINK : Z := 6.
Definition EVENT_DATA : Z := 7.
Definition TRT_OUT_DATA : Z := 2.
Definition TRT_IN_DATA : Z := 3.

Record TransferRing := mkRing { trbs : list TransferTrb; ring_ptr : Z; used_count : Z; ring_c : bool; phys : Z }.

Definition empty_trb : TransferTrb := mkTrb 0 0 0.
Definition COUNT : Z := 256.
Definition LAST : Z := COUNT - 1.

(** The constructor, with a page at [phys]. *)
Definition new_ring (phys : Z) : TransferRing :=
  mkRing (replicate 255 empty_trb ++ [mkTrb phys 0 (Z.lor (TRB_TYPE LINK) (TC true))]) 0 0 true phys.

Definition reset (r : TransferRing) : TransferRing := mkRing (replicate 256 empty_trb) 0 0 true (phys r).

Definition set_c (b : bool) (t : TransferTrb) : TransferTrb :=
  mkTrb (word0 t) (flags2 t) (if b then Z.lor (flags3 t) (C true) else Z.land (flags3 t) (Z.lnot 1)).

Definition add_trb (t : TransferTrb) (r : TransferRing) : option (bool * TransferRing) :=
  if used_count r =? LAST then Some (false, r)
  else
    let t := mkTrb (word0 t) (flags2 t) (Z.lor (flags3 t) (C (ring_c r))) in
    _ ← assert (Z.to_nat (ring_ptr r) <? length (trbs r))%nat;
    let l := <[Z.to_nat (ring_ptr r) := t]> (trbs r) in
    let ptr := u32 (ring_ptr r + 1) in
    let used := u32 (used_count r + 1) in
    if ptr =? LAST then
      link ← l !! Z.to_nat ptr;
      Some (true, mkRing (<[Z.to_nat ptr := set_c (ring_c r) link]> l) 0 used (negb (ring_c r)) (phys r))
    else Some (true, mkRing l ptr used (ring_c r) (phys r)).

(** Several blocks, whatever becomes of them. *)
Fixpoint add_trbs (ts : list TransferTrb) (r : TransferRing) : option TransferRing :=
  match ts with
  | [] => Some r
  | t :: ts => '(_, r) ← add_trb t r; add_trbs ts r
  end.

(** ** Requests *)

Record setup_packet := mkSetup { request_type : Z; request : Z; value : Z; index : Z; length_ : Z; buffer : Z }.

Definition control_trbs (s : setup_packet) : list TransferTrb :=
  let from_device := negb (Z.land (request_type s) 0x80 =? 0) in
  let trt := if from_device then TRT_IN_DATA else TRT_OUT_DATA in
  let data_dir := if from_device then 1 else 0 in
  let status_dir := if from_device then 0 else 1 in
  [mkTrb (Z.lor (Z.lor (Z.lor (request_type s) (Z.shiftl (request s) 8)) (Z.shiftl (value s) 16)) (Z.lor (Z.shiftl (index s) 32) (Z.shiftl (length_ s) 48)))
     (TRANSFER_LEN 8) (Z.lor (Z.lor (TRB_TYPE SETUP) (IDT true)) (TRT trt));
   mkTrb (buffer s) (TRANSFER_LEN (length_ s)) (Z.lor (Z.lor (Z.lor (TRB_TYPE DATA) (DIR data_dir)) (CH true)) (ENT true));
   mkTrb (buffer s) 0 (Z.lor (TRB_TYPE EVENT_DATA) (IOC true));
   mkTrb 0 0 (Z.lor (Z.lor (TRB_TYPE STATUS) (DIR status_dir)) (CH true));
   mkTrb (Z.shiftl 1 63) 0 (Z.lor (TRB_TYPE EVENT_DATA) (IOC true))].

Definition control (s : setup_packet) (r : TransferRing) : option TransferRing := add_trbs (control_trbs s) r.

Definition normal_trbs (buf len : Z) : list TransferTrb :=
  [mkTrb buf (TRANSFER_LEN len) (Z.lor (Z.lor (TRB_TYPE NORMAL) (CH true)) (ENT true)); mkTrb buf 0 (Z.lor (TRB_TYPE EVENT_DATA) (IOC true))].

Definition normal (buf len : Z) (r : TransferRing) : option (bool * TransferRing) :=
  if u32 (used_count r + 2) >=? COUNT then Some (false, r)
  else
    match normal_trbs buf len with
    | [t1; t2] =>
        '(ok, r) ← add_trb t1 r; _ ← assert ok;
        '(ok, r) ← add_trb t2 r; _ ← assert ok;
        Some (true, r)
    | _ => None
    end.

(** The loop of [normal_large]; the value is how many it has queued. *)
Fixpoint large_loop (transfers : list (Z * Z)) (i count : Z) (r : TransferRing) : option (Z * TransferRing) :=
  match transfers with
  | [] => Some (0, r)
  | (buf, size) :: transfers =>
      if u32 (used_count r + 2) >=? COUNT then Some (0, r)
      else
        let fl3 := Z.lor (TRB_TYPE NORMAL) (CH true) in
        let last := (u32 (used_count r + 3) >=? COUNT) || (i + 1 =? count) in
        let t := if last then mkTrb buf (TRANSFER_LEN size) (Z.lor fl3 (ENT true))
                 else mkTrb buf (Z.lor (TRANSFER_LEN size) (TD_SIZE (Z.min (count - i - 1) 31))) fl3 in
        '(_, r) ← add_trb t r;
        '(n, r) ← large_loop transfers (i + 1) count r;
        Some (n + 1, r)
  end.

Definition normal_large (transfers : list (Z * Z)) (r : TransferRing) : option (Z * TransferRing) :=
  '(n, r) ← large_loop transfers 0 (Z.of_nat (length transfers)) r;
  first ← head transfers;
  '(_, r) ← add_trb (mkTrb first.1 0 (Z.lor (TRB_TYPE EVENT_DATA) (IOC true))) r;
  Some (n, r).

(** An event for a request of [trb_count] blocks. *)
Definition complete (trb_count : Z) (r : TransferRing) : TransferRing :=
  mkRing (trbs r) (ring_ptr r) (u32 (used_count r - trb_count)) (ring_c r) (phys r).

(** ** The controller

    The hardware at the other end of a ring, after the xHCI specification (4.9.2 and
    4.11.5.1): it takes the blocks whose cycle bit is its own, and follows a link. *)

Record consumer := mkCons { deq : Z; ccs : bool }.
Definition is_link (t : TransferTrb) : bool := (Z.land (Z.shiftr (flags3 t) 10) 0x3F =? LINK).
Definition cycle (t : TransferTrb) : bool := Z.testbit (flags3 t) 0.

(** From a place, over a link with the own cycle bit. *)
Definition settle (r : TransferRing) (c : consumer) : consumer :=
  match trbs r !! Z.to_nat (deq c) with
  | Some t => if is_link t && Bool.eqb (cycle t) (ccs c) then mkCons 0 (xorb (ccs c) (Z.testbit (flags3 t) 1)) else c
  | None => c
  end.

Definition fetch (r : TransferRing) (c : consumer) : option (TransferTrb * consumer) :=
  t ← trbs r !! Z.to_nat (deq c);
  if Bool.eqb (cycle t) (ccs c) && negb (is_link t) then Some (t, settle r (mkCons (deq c + 1) (ccs c))) else None.

(** ** What the two have agreed on *)

(** The place of the [i]th block and its cycle bit. *)
Definition slot (i : nat) : nat := (i mod 255)%nat.
Definition lap (i : nat) : bool := Nat.even (i / 255).

Definition clean (t : TransferTrb) : Prop := cycle t = false /\ is_link t = false.
Definition stored (t : TransferTrb) (b : bool) : TransferTrb := mkTrb (word0 t) (flags2 t) (Z.lor (flags3 t) (C b)).

(** [l] has been queued, of which [h] blocks are fetched and [a] are accounted for. *)
Record Ring (r : TransferRing) (c : consumer) (l : list TransferTrb) (h a : nat) : Prop := {
  rg_size : length (trbs r) = 256%nat;
  rg_ptr : ring_ptr r = Z.of_nat (slot (length l));
  rg_c : ring_c r = lap (length l);
  rg_used : used_count r = Z.of_nat (length l - a);
  rg_order : (a <= h <= length l)%nat /\ (length l - a <= 255)%nat;
  rg_cons : c = mkCons (Z.of_nat (slot h)) (lap h);
  rg_clean : Forall clean l;
  rg_held : forall i t, l !! i = Some t -> (length l <= i + 255)%nat -> trbs r !! slot i = Some (stored t (lap i));
  rg_plain : forall i t, (i < 255)%nat -> trbs r !! i = Some t -> is_link t = false;
  rg_zero : forall i, (length l <= i < 255)%nat -> trbs r !! i = Some empty_trb;
  rg_link : exists t, trbs r !! 255%nat = Some t /\ is_link t = true /\ Z.testbit (flags3 t) 1 = true /\
    (255 <= length l -> cycle t = negb (lap (length l)))%nat
}.

Lemma slot_lt i : (slot i < 255)%nat.
Proof. apply Nat.mod_upper_bound. lia. Qed.

Lemma slot_next i : (slot i = 254%nat /\ slot (S i) = 0%nat /\ lap (S i) = negb (lap i)) \/
  (slot i <> 254%nat /\ slot (S i) = S (slot i) /\ lap (S i) = lap i).
Proof.
  unfold slot, lap. pose proof (Nat.div_mod_eq i 255) as E. pose proof (Nat.mod_upper_bound i 255 ltac:(lia)) as Hb.
  set (q := (i / 255)%nat) in *. set (k := (i mod 255)%nat) in *. destruct (decide (k = 254%nat)) as [->|Hne]; [left|right].
  - assert (S i / 255 = S q)%nat as -> by (symmetry; apply (Nat.div_unique _ _ _ 0); lia).
    assert (S i mod 255 = 0)%nat as -> by (symmetry; apply (Nat.mod_unique _ _ (S q)); lia). rewrite Nat.even_succ, <- Nat.negb_even. done.
  - assert (S i / 255 = q)%nat as -> by (symmetry; apply (Nat.div_unique _ _ _ (S k)); lia).
    assert (S i mod 255 = S k)%nat as -> by (symmetry; apply (Nat.mod_unique _ _ q); lia). done.
Qed.

Lemma slot_apart i j : (i < j < i + 255)%nat -> slot i <> slot j.
Proof.
  intros Hij E. unfold slot in E. pose proof (Nat.div_mod_eq i 255). pose proof (Nat.div_mod_eq j 255). nia.
Qed.

Lemma lap_back i : slot (i + 255) = slot i /\ lap (i + 255) = negb (lap i).
Proof.
  unfold slot, lap. replace (i + 255)%nat with (i + 1 * 255)%nat by lia. rewrite Nat.Div0.mod_add, Nat.div_add by lia.
  rewrite Nat.add_1_r, Nat.even_succ, <- Nat.negb_even. done.
Qed.

Lemma lap_small i : (i < 255)%nat -> slot i = i /\ lap i = true.
Proof. intros Hi. unfold slot, lap. by rewrite Nat.mod_small, Nat.div_small. Qed.

Lemma lap_full h n : slot h = 254%nat -> (h < n <= h + 255)%nat -> lap n = negb (lap h).
Proof.
  intros Hs Hn. unfold slot, lap in *. pose proof (Nat.div_mod_eq h 255) as E. rewrite Hs in E.
  assert (n / 255 = S (h / 255))%nat as ->; [|by rewrite Nat.even_succ, <- Nat.negb_even].
  symmetry. apply (Nat.div_unique _ _ _ (n - 255 * S (h / 255))); lia.
Qed.

Lemma stored_facts t b : clean t -> cycle (stored t b) = b /\ is_link (stored t b) = false.
Proof.
  intros [Hc Hl]. unfold stored, cycle, is_link in *. cbn [flags3]. split.
  - rewrite Z.lor_spec, Hc. by destruct b.
  - rewrite Z.shiftr_lor. assert (Z.shiftr (C b) 10 = 0) as -> by (by destruct b). by rewrite Z.lor_0_r.
Qed.

Lemma set_c_facts b t : cycle (set_c b t) = b /\ is_link (set_c b t) = is_link t /\ Z.testbit (flags3 (set_c b t)) 1 = Z.testbit (flags3 t) 1.
Proof.
  unfold set_c, cycle, is_link. cbn [flags3]. destruct b.
  - rewrite !Z.lor_spec, Z.shiftr_lor. change (Z.shiftr (C true) 10) with 0. rewrite Z.lor_0_r. change (Z.testbit (C true) 0) with true. change (Z.testbit (C true) 1) with false.
    by rewrite orb_true_r, orb_false_r.
  - rewrite !Z.land_spec, Z.shiftr_land. change (Z.shiftr (Z.lnot 1) 10) with (-1). rewrite Z.land_m1_r. change (Z.testbit (Z.lnot 1) 0) with false.
    change (Z.testbit (Z.lnot 1) 1) with true. by rewrite andb_false_r, andb_true_r.
Qed.

Lemma new_transfer_ring_ok phys : Ring (new_ring phys) (mkCons 0 true) [] 0 0.
Proof.
  split; [done|done|done|done|cbn; lia|done|constructor|intros i t; by rewrite lookup_nil| | |].
  - intros i t Hi. unfold new_ring. cbn [trbs]. rewrite lookup_app_l by (rewrite length_replicate; lia). by intros [-> _]%lookup_replicate.
  - intros i Hi. unfold new_ring. cbn [trbs]. rewrite lookup_app_l by (rewrite length_replicate; lia). apply lookup_replicate_2. cbn in Hi. lia.
  - exists (mkTrb phys 0 (Z.lor (TRB_TYPE LINK) (TC true))). unfold new_ring. cbn [trbs]. split_and!; [done|done|done|cbn; lia].
Qed.

Lemma add_full t r c l h a : Ring r c l h a -> (length l - a = 255)%nat -> add_trb t r = Some (false, r).
Proof. intros HR E. unfold add_trb. rewrite (rg_used _ _ _ _ _ HR), E. done. Qed.

Lemma fetch_none r c l h a : Ring r c l h a -> h = length l -> fetch r c = None.
Proof.
  intros [R1 R2 R3 R4 [R5 R5'] -> R7 R8 R9 R10 R11] ->. unfold fetch. cbn [deq ccs]. rewrite Nat2Z.id.
  destruct (decide (length l < 255)%nat) as [Hlt|Hge].
  - destruct (lap_small _ Hlt) as [-> ->]. rewrite R10 by lia. done.
  - destruct (lookup_lt_is_Some_2 l (length l - 255) ltac:(lia)) as [t Ht]. destruct (lap_back (length l - 255)) as [E1 E2].
    replace (length l - 255 + 255)%nat with (length l) in E1, E2 by lia. rewrite E1, (R8 _ _ Ht) by lia. cbn [mbind option_bind].
    rewrite Forall_forall in R7. destruct (stored_facts t (lap (length l - 255)) (R7 t (list_elem_of_lookup_2 _ _ _ Ht))) as [-> _]. rewrite E2.
    by destruct (lap (length l - 255)).
Qed.

Lemma fetch_next r c l h a t : Ring r c l h a -> l !! h = Some t -> exists c', fetch r c = Some (stored t (lap h), c') /\ Ring r c' l (S h) a.
Proof.
  intros HR Ht. pose proof HR as [R1 R2 R3 R4 [R5 R5'] -> R7 R8 R9 R10 R11]. pose proof (lookup_lt_Some _ _ _ Ht) as Hlt. unfold fetch. cbn [deq ccs]. rewrite Nat2Z.id.
  rewrite (R8 _ _ Ht) by lia. cbn [mbind option_bind]. rewrite Forall_forall in R7.
  destruct (stored_facts t (lap h) (R7 t (list_elem_of_lookup_2 _ _ _ Ht))) as [-> ->]. rewrite eqb_reflx. cbn [andb negb]. eexists. split; [done|].
  assert (Hs : settle r (mkCons (Z.of_nat (slot h) + 1) (lap h)) = mkCons (Z.of_nat (slot (S h))) (lap (S h))).
  { unfold settle. cbn [deq ccs]. replace (Z.to_nat (Z.of_nat (slot h) + 1)) with (S (slot h)) by lia. destruct (slot_next h) as [(E1 & E2 & E3)|(E1 & E2 & E3)].
    - rewrite E1, E2, E3. destruct R11 as (lk & -> & -> & -> & Hc). assert (Hh : (255 <= length l)%nat).
      { unfold slot in E1. pose proof (Nat.div_mod_eq h 255). lia. }
      rewrite (Hc Hh), (lap_full h (length l) E1 ltac:(lia)), negb_involutive, eqb_reflx. by destruct (lap h).
    - rewrite E2, E3. pose proof (slot_lt h) as Hb. destruct (trbs r !! S (slot h)) as [t'|] eqn:Et; [rewrite (R9 (S (slot h)) t') by (done || lia)|]; cbn [andb]; f_equal; lia. }
  rewrite Hs. split; [done|done|done|done|split; lia|done|by apply Forall_forall|done|done|done|done].
Qed.

Lemma complete_ok n r c l h a : Ring r c l h a -> (a + n <= h)%nat -> Ring (complete (Z.of_nat n) r) c l h (a + n).
Proof.
  intros [R1 R2 R3 R4 [R5 R5'] R6 R7 R8 R9 R10 R11] Hn. split; cbn [complete used_count trbs ring_ptr ring_c]; [done|done|done| |split; lia|done|done|done|done|done|done].
  rewrite R4, u32_small; lia.
Qed.

Lemma add_next t r c l h a : Ring r c l h a -> clean t -> (length l - a < 255)%nat -> exists r', add_trb t r = Some (true, r') /\ Ring r' c (l ++ [t]) h a.
Proof.
  intros [R1 R2 R3 R4 [R5 R5'] R6 R7 R8 R9 R10 R11] Hcl Hroom. unfold add_trb. rewrite R4, R2, Nat2Z.id. unfold LAST, COUNT.
  assert (Z.of_nat (length l - a) =? 256 - 1 = false) as -> by (clear - Hroom; apply Z.eqb_neq; lia). pose proof (slot_lt (length l)) as Hb. rewrite R1, (proj2 (Nat.ltb_lt _ _)) by lia. cbn [assert mbind option_bind].
  rewrite (u32_small (Z.of_nat (slot (length l)) + 1)), (u32_small (Z.of_nat (length l - a) + 1)) by lia. rewrite R3. fold (stored t (lap (length l))).
  set (L := <[slot (length l) := stored t (lap (length l))]> (trbs r)). assert (Hlen : length L = 256%nat) by (unfold L; by rewrite length_insert).
  assert (Hfin : Forall clean (l ++ [t])) by (apply Forall_app; split; [done|by apply Forall_singleton]). assert (Hl1 : length (l ++ [t]) = S (length l)) by (rewrite length_app; cbn; lia).
  assert (Hheld : forall i t', (l ++ [t]) !! i = Some t' -> (S (length l) <= i + 255)%nat -> L !! slot i = Some (stored t' (lap i))).
  { intros i t' Hi Hw. unfold L. apply lookup_app_Some in Hi as [Hi|[Hge Hi]].
    - pose proof (lookup_lt_Some _ _ _ Hi). rewrite list_lookup_insert_ne by (apply not_eq_sym, slot_apart; lia). apply R8; [done|lia].
    - apply list_lookup_singleton_Some in Hi as [Hi <-]. replace i with (length l) by lia. apply list_lookup_insert_eq. lia. }
  assert (Hplain : forall i t', (i < 255)%nat -> L !! i = Some t' -> is_link t' = false).
  { intros i t' Hi. unfold L. intros [[<- [<- _]]|[_ ?]]%list_lookup_insert_Some; [by apply stored_facts|by apply (R9 i)]. }
  assert (Hzero : forall i, (S (length l) <= i < 255)%nat -> L !! i = Some empty_trb).
  { intros i Hi. unfold L. destruct (lap_small (length l) ltac:(lia)) as [-> _]. rewrite list_lookup_insert_ne by lia. apply R10. lia. }
  assert (Hlk : L !! 255%nat = trbs r !! 255%nat) by (unfold L; apply list_lookup_insert_ne; lia). destruct R11 as (lk & Elk & Hlk1 & Hlk2 & Hlk3).
  destruct (slot_next (length l)) as [(E1 & E2 & E3)|(E1 & E2 & E3)].
  - rewrite E1. change (Z.of_nat 254 + 1 =? 256 - 1) with true. cbv iota. change (Z.to_nat (Z.of_nat 254 + 1)) with 255%nat. rewrite Hlk, Elk. cbn [mbind option_bind].
    destruct (set_c_facts (lap (length l)) lk) as (F1 & F2 & F3). eexists. split; [done|].
    assert (Hne : forall i, (i < 255)%nat -> (<[255%nat := set_c (lap (length l)) lk]> L) !! i = L !! i) by (intros i Hi; apply list_lookup_insert_ne; lia).
    split; cbn [trbs ring_ptr ring_c used_count]; rewrite ?Hl1.
    + by rewrite length_insert.
    + by rewrite E2.
    + by rewrite E3.
    + lia.
    + lia.
    + done.
    + done.
    + intros i t' Hi Hw. rewrite Hne by apply slot_lt. by apply Hheld.
    + intros i t' Hi. rewrite Hne by done. by apply Hplain.
    + intros i Hi. rewrite Hne by lia. by apply Hzero.
    + exists (set_c (lap (length l)) lk). split; [apply list_lookup_insert_eq; lia|]. rewrite F1, F2, F3, E3, negb_involutive. done.
  - replace (Z.of_nat (slot (length l)) + 1 =? 256 - 1) with false by lia. eexists. split; [done|]. split; cbn [trbs ring_ptr ring_c used_count]; rewrite ?Hl1.
    + done.
    + rewrite E2. lia.
    + by rewrite E3.
    + lia.
    + lia.
    + done.
    + done.
    + exact Hheld.
    + exact Hplain.
    + exact Hzero.
    + exists lk. rewrite Hlk, E3. split_and!; [done|done|done|]. intros Hge. apply Hlk3. destruct (decide (length l = 254%nat)) as [E|]; [|lia].
      destruct E1. by rewrite E.
Qed.

(** ** Any use of a ring *)

Inductive op := Add (t : TransferTrb) | Fetch | Complete (n : nat).

(** What the controller has fetched, without the cycle bits. *)
Definition strip (t : TransferTrb) : TransferTrb := mkTrb (word0 t) (flags2 t) (Z.land (flags3 t) (Z.lnot 1)).

(** A completion is for blocks that have been fetched. *)
Record trace := mkTrace { queued : list TransferTrb; fetched : list TransferTrb; done : nat }.

Fixpoint run (os : list op) (r : TransferRing) (c : consumer) (tr : trace) : option (TransferRing * consumer * trace) :=
  match os with
  | [] => Some (r, c, tr)
  | Add t :: os =>
      '(ok, r) ← add_trb t r;
      run os r c (if ok : bool then mkTrace (queued tr ++ [t]) (fetched tr) (done tr) else tr)
  | Fetch :: os =>
      match fetch r c with
      | Some (t, c) => run os r c (mkTrace (queued tr) (fetched tr ++ [strip t]) (done tr))
      | None => run os r c tr
      end
  | Complete n :: os =>
      if (done tr + n <=? length (fetched tr))%nat then run os (complete (Z.of_nat n) r) c (mkTrace (queued tr) (fetched tr) (done tr + n)) else run os r c tr
  end.

Lemma strip_stored t b : clean t -> strip (stored t b) = t.
Proof.
  intros [Hc _]. unfold strip, stored, cycle in *. cbn [word0 flags2 flags3]. destruct t as [w f2 f3]. cbn [flags3 word0 flags2] in *. f_equal.
  apply Z.bits_inj'. intros i Hi. rewrite Z.land_spec, Z.lor_spec, Z.lnot_spec by lia. destruct (decide (i = 0)) as [->|Hne].
  - rewrite Hc. change (Z.testbit 1 0) with true. by rewrite andb_false_r.
  - assert (Z.testbit (C b) i = false) as -> by (unfold C, bit; rewrite Z.shiftl_0_r; destruct b; cbn [Z.b2z]; [|apply Z.bits_0]; change 1 with (2 ^ 0); rewrite Z.pow2_bits_false by lia; done).
    assert (Z.testbit 1 i = false) as -> by (change 1 with (2 ^ 0); apply Z.pow2_bits_false; lia). by rewrite orb_false_r, andb_true_r.
Qed.

Lemma run_fifo os : forall r c tr, Forall (fun o => match o with Add t => clean t | _ => True end) os ->
  Ring r c (queued tr) (length (fetched tr)) (done tr) -> fetched tr = take (length (fetched tr)) (queued tr) ->
  exists r' c' tr', run os r c tr = Some (r', c', tr') /\ Ring r' c' (queued tr') (length (fetched tr')) (done tr') /\
    fetched tr' = take (length (fetched tr')) (queued tr').
Proof.
  induction os as [|o os IH]; intros r c tr Hos HR Hf; cbn [run]; [by exists r, c, tr|]. apply Forall_cons in Hos as [Ho Hos]. destruct o as [t| |n].
  - pose proof (rg_order _ _ _ _ _ HR) as [Ha Hb]. destruct (decide (length (queued tr) - done tr = 255)%nat) as [E|Ne].
    + rewrite (add_full t r c _ _ _ HR E). cbn [mbind option_bind]. by apply IH.
    + destruct (add_next t r c _ _ _ HR Ho ltac:(lia)) as (r' & -> & HR'). cbn [mbind option_bind]. apply IH; [done|done|]. cbn [queued fetched]. rewrite take_app_le by lia. done.
  - pose proof (rg_order _ _ _ _ _ HR) as [Ha Hb]. destruct (queued tr !! length (fetched tr)) as [t|] eqn:Et.
    + destruct (fetch_next r c _ _ _ t HR Et) as (c' & -> & HR'). pose proof (rg_clean _ _ _ _ _ HR) as Hcl. rewrite Forall_forall in Hcl.
      rewrite strip_stored by (eapply Hcl, list_elem_of_lookup_2, Et). apply IH; [done| |]; cbn [queued fetched done]; rewrite length_app; cbn [length]; rewrite Nat.add_1_r; [done|].
      rewrite (take_S_r _ _ t) by done. by rewrite <- Hf.
    + apply lookup_ge_None in Et. rewrite (fetch_none r c _ _ _ HR ltac:(lia)). by apply IH.
  - destruct (Nat.leb_spec (done tr + n) (length (fetched tr))); [|by apply IH]. apply IH; [done| |done]. by apply complete_ok.
Qed.

(** C34: Whatever is queued, fetched and completed, in any order and any number of times
    round the ring: the controller gets the blocks that were accepted, in their order, each
    once; the count of the blocks in use is that of the accepted ones that are not
    completed, and a block is refused exactly when there are 255. *)
Theorem transfer_ring_fifo os phys : Forall (fun o => match o with Add t => clean t | _ => True end) os ->
  exists r c tr, run os (new_ring phys) (mkCons 0 true) (mkTrace [] [] 0) = Some (r, c, tr) /\
    fetched tr = take (length (fetched tr)) (queued tr) /\ used_count r = Z.of_nat (length (queued tr) - done tr) /\
    (fetch r c = None <-> fetched tr = queued tr) /\ forall t, clean t -> (add_trb t r = Some (false, r) <-> used_count r = 255).
Proof.
  intros Hos. destruct (run_fifo os (new_ring phys) (mkCons 0 true) (mkTrace [] [] 0) Hos (new_transfer_ring_ok phys) eq_refl) as (r & c & tr & E & HR & Hf).
  exists r, c, tr. split; [done|]. split; [done|]. split; [apply (rg_used _ _ _ _ _ HR)|]. pose proof (rg_order _ _ _ _ _ HR) as [Ha Hb]. split.
  - split; intros H.
    + destruct (queued tr !! length (fetched tr)) as [t|] eqn:Et; [destruct (fetch_next r c _ _ _ t HR Et) as (c' & E' & _); congruence|].
      apply lookup_ge_None in Et. rewrite Hf, firstn_all2 by lia. done.
    + apply (fetch_none r c _ _ _ HR). by rewrite H.
  - intros t Ht. rewrite (rg_used _ _ _ _ _ HR). split; intros H.
    + destruct (decide (length (queued tr) - done tr = 255)%nat) as [?|Ne]; [lia|]. destruct (add_next t r c _ _ _ HR Ht ltac:(lia)) as (r' & E' & _). congruence.
    + apply (add_full t r c _ _ _ HR). lia.
Qed.

Lemma transfer_ring_fifo_witness : exists r c tr,
  run [Add (mkTrb 0x1000 64 0x400); Fetch; Fetch; Complete 1; Add (mkTrb 0x2000 8 0x400)] (new_ring 0x5000) (mkCons 0 true) (mkTrace [] [] 0) = Some (r, c, tr) /\
  fetched tr = [mkTrb 0x1000 64 0x400] /\ used_count r = 1.
Proof.
  destruct (transfer_ring_fifo [Add (mkTrb 0x1000 64 0x400); Fetch; Fetch; Complete 1; Add (mkTrb 0x2000 8 0x400)] 0x5000) as (r & c & tr & H & _).
  - repeat constructor.
  - exists r, c, tr. split; [exact H|]. vm_compute in H. injection H as <- <- <-. split; reflexivity.
Defined.

(** ** Requests *)

Lemma add_trbs_ok ts : forall r c l h a, Ring r c l h a -> Forall clean ts -> (length l - a + length ts <= 255)%nat ->
  exists r', add_trbs ts r = Some r' /\ Ring r' c (l ++ ts) h a.
Proof.
  induction ts as [|t ts IH]; intros r c l h a HR Hts Hl; cbn [add_trbs length] in *; [exists r; by rewrite app_nil_r|]. apply Forall_cons in Hts as [Ht Hts].
  destruct (add_next t r c l h a HR Ht ltac:(lia)) as (r1 & -> & HR1). cbn [mbind option_bind]. pose proof (rg_order _ _ _ _ _ HR) as [? _].
  destruct (IH r1 c (l ++ [t]) h a HR1 Hts) as (r2 & -> & HR2); [rewrite length_app; cbn; lia|]. exists r2. by rewrite <- app_assoc in HR2.
Qed.

Lemma control_clean s : Forall clean (control_trbs s).
Proof. unfold control_trbs. destruct (Z.land (request_type s) 0x80 =? 0); repeat constructor. Qed.
Lemma normal_clean buf len : Forall clean (normal_trbs buf len).
Proof. repeat constructor. Qed.

Lemma large_loop_ok ts : forall i count r c l h a, Ring r c l h a -> (length l - a + length ts + 1 <= 255)%nat ->
  exists r' bs, large_loop ts i count r = Some (Z.of_nat (length ts), r') /\ Ring r' c (l ++ bs) h a /\ word0 <$> bs = ts.*1 /\ length bs = length ts.
Proof.
  induction ts as [|[buf sz] ts IH]; intros i count r c l h a HR Hl; cbn [large_loop length] in *; [exists r, []; by rewrite app_nil_r|].
  pose proof (rg_used _ _ _ _ _ HR) as Hu. pose proof (rg_order _ _ _ _ _ HR) as [Ho _]. unfold COUNT.
  assert (u32 (used_count r + 2) >=? 256 = false) as -> by (clear - Hu Hl; rewrite Hu, u32_small by lia; rewrite Z.geb_leb; apply Z.leb_gt; lia).
  match goal with |- context [add_trb ?x r] => set (t := x) end.
  assert (Ht : clean t /\ word0 t = buf) by (unfold t; destruct (_ || _); repeat constructor). destruct Ht as [Ht Hw].
  destruct (add_next t r c l h a HR Ht ltac:(lia)) as (r1 & -> & HR1). cbn [mbind option_bind].
  destruct (IH (i + 1) count r1 c (l ++ [t]) h a HR1) as (r2 & bs & -> & HR2 & Hbs & Hlb); [rewrite length_app; cbn; lia|]. cbn [mbind option_bind].
  exists r2, (t :: bs). rewrite <- app_assoc in HR2. split_and!; [do 2 f_equal; lia|exact HR2|cbn; by rewrite Hw, Hbs|cbn; lia].
Qed.

(** Where there is room for it, a request is queued as a whole, in the order of the
    specification; a single packet that does not fit is refused and nothing is queued. *)
Theorem requests_queued_whole r c l h a : Ring r c l h a ->
  (forall s, used_count r + 5 <= 255 -> exists r', control s r = Some r' /\ Ring r' c (l ++ control_trbs s) h a) /\
  (forall buf len, if used_count r + 2 <=? 255 then exists r', normal buf len r = Some (true, r') /\ Ring r' c (l ++ normal_trbs buf len) h a
                   else normal buf len r = Some (false, r)) /\
  (forall t ts, used_count r + Z.of_nat (length (t :: ts)) + 1 <= 255 ->
     exists r' bs, normal_large (t :: ts) r = Some (Z.of_nat (length (t :: ts)), r') /\ Ring r' c (l ++ bs) h a /\ word0 <$> bs = (t :: ts).*1 ++ [t.1]).
Proof.
  intros HR. pose proof (rg_used _ _ _ _ _ HR) as Hu. pose proof (rg_order _ _ _ _ _ HR) as [Ho Ho']. split; [|split].
  - intros s Hs. apply add_trbs_ok; [done|apply control_clean|cbn; lia].
  - intros buf len. unfold normal, COUNT. rewrite Hu, u32_small by lia. destruct (Z.leb_spec (Z.of_nat (length l - a) + 2) 255).
    + assert (Z.of_nat (length l - a) + 2 >=? 256 = false) as -> by (clear - H; rewrite Z.geb_leb; apply Z.leb_gt; lia). pose proof (normal_clean buf len) as Hcl. unfold normal_trbs in *.
      apply Forall_cons in Hcl as [H1 [H2 _]%Forall_cons]. destruct (add_next _ r c l h a HR H1 ltac:(lia)) as (r1 & -> & HR1). cbn [mbind option_bind assert].
      destruct (add_next _ r1 c _ h a HR1 H2) as (r2 & -> & HR2); [rewrite length_app; cbn; lia|]. cbn [mbind option_bind assert]. exists r2. by rewrite <- app_assoc in HR2.
    + assert (Z.of_nat (length l - a) + 2 >=? 256 = true) as -> by (clear - H; rewrite Z.geb_leb; apply Z.leb_le; lia). done.
  - intros t ts Hs. cbn [length] in Hs. unfold normal_large. destruct (large_loop_ok (t :: ts) 0 (Z.of_nat (length (t :: ts))) r c l h a HR) as (r1 & bs & -> & HR1 & Hbs & Hlb); [cbn; lia|].
    cbn [mbind option_bind head]. set (ev := mkTrb t.1 0 (Z.lor (TRB_TYPE EVENT_DATA) (IOC true))). assert (Hev : clean ev) by done.
    destruct (add_next ev r1 c _ h a HR1 Hev) as (r2 & -> & HR2); [rewrite length_app, Hlb; cbn; lia|]. cbn [mbind option_bind]. exists r2, (bs ++ [ev]).
    rewrite <- app_assoc in HR2. split_and!; [done|exact HR2|]. by rewrite fmap_app, Hbs.
Qed.

Lemma requests_queued_whole_witness : exists r', control (mkSetup 0x80 6 0x100 0 18 0x7000) (new_ring 0x5000) = Some r' /\ used_count r' = 5.
Proof.
  destruct (requests_queued_whole (new_ring 0x5000) (mkCons 0 true) [] 0 0 (new_transfer_ring_ok 0x5000)) as [H _].
  destruct (H (mkSetup 0x80 6 0x100 0 18 0x7000)) as (r' & E & HR); [cbn; lia|]. exists r'. split; [exact E|]. exact (rg_used _ _ _ _ _ HR).
Defined.

(** ** Where it goes wrong *)

Definition some_trb : TransferTrb := mkTrb 0x1000 64 0x400.
Definition round (n : nat) : list op := replicate n [Add some_trb; Fetch; Complete 1] ≫= id.

(** [reset] clears the link as well: at the end of the ring the controller takes up a block
    that nobody has queued. *)
Theorem reset_loses_link :
  (exists r c tr, run (round 255 ++ [Fetch]) (reset (new_ring 0x5000)) (mkCons 0 true) (mkTrace [] [] 0) = Some (r, c, tr) /\
     length (queued tr) = 255%nat /\ fetched tr = queued tr ++ [empty_trb]) /\
  exists r c tr, run (round 255 ++ [Fetch]) (new_ring 0x5000) (mkCons 0 true) (mkTrace [] [] 0) = Some (r, c, tr) /\ fetched tr = queued tr.
Proof.
  split.
  - destruct (run (round 255 ++ [Fetch]) (reset (new_ring 0x5000)) (mkCons 0 true) (mkTrace [] [] 0)) as [[[r c] tr]|] eqn:E; [|vm_compute in E; discriminate E].
    exists r, c, tr. split; [done|]. vm_compute in E. injection E as _ _ <-. split; vm_compute; reflexivity.
  - destruct (run (round 255 ++ [Fetch]) (new_ring 0x5000) (mkCons 0 true) (mkTrace [] [] 0)) as [[[r c] tr]|] eqn:E; [|vm_compute in E; discriminate E].
    exists r, c, tr. split; [done|]. vm_compute in E. injection E as _ _ <-. vm_compute. reflexivity.
Qed.

(** A large request that fits only in part is accounted for as a whole when it completes:
    the count goes below zero, and every later packet is refused. *)
Theorem partial_request_blocks_ring :
  exists r, normal_large (replicate 300 (0x1000, 64)) (new_ring 0x5000) = Some (254, r) /\
    forall buf len, normal buf len (complete 301 r) = Some (false, complete 301 r).
Proof.
  destruct (normal_large (replicate 300 (0x1000, 64)) (new_ring 0x5000)) as [[n r]|] eqn:E; [|vm_compute in E; discriminate E].
  assert (H : (fun '(n, r) => (n, used_count r)) <$> normal_large (replicate 300 (0x1000, 64)) (new_ring 0x5000) = Some (254, 255)) by (vm_compute; reflexivity).
  rewrite E in H. cbn [fmap option_fmap option_map] in H. injection H as -> Hu. exists r. split; [reflexivity|].
  intros buf len. unfold normal, complete. cbn [used_count]. rewrite Hu. reflexivity.
Qed.

(** A control request for which there is no room is queued in part. *)
Theorem control_truncated :
  (r ← add_trbs (replicate 253 some_trb) (new_ring 0x5000); r ← control (mkSetup 0x80 6 0x100 0 18 0x7000) r; Some (used_count r)) = Some 255.
Proof. vm_compute. reflexivity. Qed.

End XhciRing.
