(* ===== verification/UiDraw.v ===== *)
(** * Rectangles of the window system (src/libs/libui/include/ui/primitive.hpp)

    Coordinates are 32-bit unsigned integers and every sum wraps.  [subtract] cuts a
    rectangle out of another one; [subtract_rects] is the loop, written out four times in
    the sources, that cuts it out of a list of rectangles in place. *)

From S2P Require Import Prelude.


Module UiRect.

Record Point := mkPoint { px : Z; py : Z }.
Record Rect := mkRect { rx : Z; ry : Z; width : Z; height : Z }.
#[global] Instance Rect_dec : EqDecision Rect.
Proof. solve_decision. Defined.

Record Border := mkBorder { left : Z; right : Z; top : Z; bottom : Z }.

Definition right_x (r : Rect) : Z := u32 (rx r + width r).
Definition bottom_y (r : Rect) : Z := u32 (ry r + height r).

Definition contains (r : Rect) (p : Point) : bool :=
  (rx r <=? px p) && (px p <? right_x r) && (ry r <=? py p) && (py p <? bottom_y r).

Definition intersects (r other : Rect) : bool :=
  (rx r <? right_x other) && (rx other <? right_x r) && (ry r <? bottom_y other) && (ry other <? bottom_y r).

Definition intersect (r other : Rect) : Rect :=
  let start_x := Z.max (rx r) (rx other) in
  let res_width := Z.min (u32 (rx r + width r - start_x)) (u32 (rx other + width other - start_x)) in
  let start_y := Z.max (ry r) (ry other) in
  let res_height := Z.min (u32 (ry r + height r - start_y)) (u32 (ry other + height other - start_y)) in
  mkRect start_x start_y res_width res_height.

(** The array of the result as the list of the entries that count. *)
Definition subtract (r other : Rect) : list Rect :=
  let left_side := if rx other >? rx r then rx other - rx r else 0 in
  let right_side := if right_x other <? right_x r then right_x r - right_x other else 0 in
  (if rx other >? rx r then [mkRect (rx r) (ry r) (rx other - rx r) (height r)] else []) ++
  (if right_x other <? right_x r then [mkRect (right_x other) (ry r) (right_x r - right_x other) (height r)] else []) ++
  (if ry other >? ry r then [mkRect (u32 (rx r + left_side)) (ry r) (u32 (width r - left_side - right_side)) (ry other - ry r)] else []) ++
  (if bottom_y other <? bottom_y r
   then [mkRect (u32 (rx r + left_side)) (bottom_y other) (u32 (width r - left_side - right_side)) (bottom_y r - bottom_y other)] else []).

(** The loop: what is cut goes to the end of the list, and the place is looked at again. *)
Fixpoint subtract_loop (fuel : nat) (s : Rect) (i : nat) (l : list Rect) : option (list Rect) :=
  match fuel with
  | O => None
  | S fuel =>
      match l !! i with
      | None => Some l
      | Some r => if intersects r s then subtract_loop fuel s i (delete i l ++ subtract r s) else subtract_loop fuel s (S i) l
      end
  end.

Definition subtract_rects (s : Rect) (l : list Rect) : option (list Rect) := subtract_loop (S (5 * length l)) s 0 l.

(** Several of them, one after the other. *)
Fixpoint subtract_each (ss l : list Rect) : option (list Rect) :=
  match ss with
  | [] => Some l
  | s :: ss => l ← subtract_rects s l; subtract_each ss l
  end.

(** ** Regions *)

(** A rectangle of the machine, and one whose edges do not wrap. *)
Definition rep (r : Rect) : Prop := fits 32 (rx r) /\ fits 32 (ry r) /\ fits 32 (width r) /\ fits 32 (height r).
Definition ok (r : Rect) : Prop := 0 <= rx r /\ 0 <= ry r /\ 0 <= width r /\ 0 <= height r /\ rx r + width r < 2 ^ 32 /\ ry r + height r < 2 ^ 32.

Definition In_rect (r : Rect) (X Y : Z) : Prop := rx r <= X < rx r + width r /\ ry r <= Y < ry r + height r.
Definition covers (l : list Rect) (X Y : Z) : Prop := Exists (fun r => In_rect r X Y) l.

(** The edges of [a] are not outside of those of [b]. *)
Definition within (a b : Rect) : Prop :=
  rx b <= rx a /\ rx a + width a <= rx b + width b /\ ry b <= ry a /\ ry a + height a <= ry b + height b.

Fixpoint Apart (l : list Rect) : Prop :=
  match l with
  | [] => True
  | a :: l => Forall (fun b => intersects a b = false) l /\ Apart l
  end.

#[global] Instance In_rect_dec r X Y : Decision (In_rect r X Y).
Proof. unfold In_rect. apply _. Defined.

#[global] Instance covers_dec l X Y : Decision (covers l X Y).
Proof. unfold covers. apply _. Defined.

Lemma right_x_ok r : ok r -> right_x r = rx r + width r.
Proof. unfold ok, right_x. intros. apply u32_small. lia. Qed.
Lemma bottom_y_ok r : ok r -> bottom_y r = ry r + height r.
Proof. unfold ok, bottom_y. intros. apply u32_small. lia. Qed.
Lemma ok_rep r : ok r -> rep r.
Proof. unfold ok, rep, fits. lia. Qed.

Lemma contains_spec r p : ok r -> contains r p = true <-> In_rect r (px p) (py p).
Proof. intros Hr. unfold contains, In_rect. rewrite right_x_ok, bottom_y_ok by done. rewrite !andb_true_iff, !Z.leb_le, !Z.ltb_lt. lia. Qed.

Definition crosses (r s : Rect) : Prop :=
  rx r < rx s + width s /\ rx s < rx r + width r /\ ry r < ry s + height s /\ ry s < ry r + height r.
#[global] Instance crosses_dec r s : Decision (crosses r s).
Proof. unfold crosses. apply _. Defined.

Lemma intersects_spec r s : ok r -> ok s -> intersects r s = bool_decide (crosses r s).
Proof.
  intros Hr Hs. unfold intersects, crosses. rewrite !right_x_ok, !bottom_y_ok by done. apply eq_bool_prop_intro. rewrite bool_decide_spec, Is_true_true, !andb_true_iff, !Z.ltb_lt. lia.
Qed.

Lemma intersects_sym r s : intersects r s = intersects s r.
Proof. unfold intersects. rewrite (andb_comm (rx r <? _)). rewrite <- !andb_assoc. do 2 f_equal. apply andb_comm. Qed.

Lemma intersect_spec r s : ok r -> ok s -> intersects r s = true ->
  ok (intersect r s) /\ within (intersect r s) r /\ within (intersect r s) s /\ forall X Y, In_rect (intersect r s) X Y <-> In_rect r X Y /\ In_rect s X Y.
Proof.
  intros Hr Hs Hi. rewrite intersects_spec in Hi by done. apply bool_decide_eq_true in Hi. unfold intersect, ok, crosses, within, In_rect in *.
  cbn [rx ry width height]. rewrite !u32_small by lia. split_and!; lia.
Qed.

(** ** Cutting *)

Lemma subtract_length r s : (length (subtract r s) <= 4)%nat.
Proof. unfold subtract. rewrite !length_app. do 4 case_match; cbn; lia. Qed.

Lemma subtract_rep r s : rep r -> rep s -> Forall rep (subtract r s).
Proof.
  intros Hr Hs. unfold rep, fits in Hr, Hs. assert (Hu : forall z, 0 <= u32 z < 2 ^ 32) by (intros z; apply (wrap_bound 32); lia).
  pose proof (Hu (rx r + width r)). pose proof (Hu (rx s + width s)). pose proof (Hu (ry r + height r)). pose proof (Hu (ry s + height s)). unfold subtract, right_x, bottom_y.
  apply Forall_app; split; [|apply Forall_app; split; [|apply Forall_app; split]]; (case_match; [|constructor]); bool_to_prop; repeat constructor; cbn [rx ry width height]; try apply Hu; lia.
Qed.

(** No piece crosses what is cut out, even where sums wrap. *)
Lemma subtract_clear r s : rep r -> rep s -> Forall (fun t => intersects t s = false) (subtract r s).
Proof.
  intros Hr Hs. unfold rep, fits in Hr, Hs. assert (Hu : forall z, 0 <= u32 z < 2 ^ 32) by (intros z; apply (wrap_bound 32); lia).
  pose proof (Hu (rx r + width r)). pose proof (Hu (ry r + height r)). pose proof (Hu (rx s + width s)). pose proof (Hu (ry s + height s)).
  unfold subtract. apply Forall_app; split; [|apply Forall_app; split; [|apply Forall_app; split]]; (case_match; [|constructor]); bool_to_prop; repeat constructor; unfold intersects.
  - unfold right_x at 2. cbn [rx ry width height]. rewrite (u32_small (rx r + (rx s - rx r))) by lia. replace (rx s <? _) with false by lia. by rewrite andb_false_r.
  - cbn [rx]. rewrite Z.ltb_irrefl. done.
  - unfold bottom_y at 2. cbn [rx ry width height]. rewrite (u32_small (ry r + (ry s - ry r))) by lia. replace (ry s <? _) with false by lia. by rewrite andb_false_r.
  - cbn [ry]. rewrite Z.ltb_irrefl, andb_false_r. done.
Qed.

Lemma subtract_ok r s : ok r -> ok s -> intersects r s = true ->
  Forall ok (subtract r s) /\ Forall (fun t => within t r) (subtract r s) /\ Apart (subtract r s) /\
  forall X Y, covers (subtract r s) X Y <-> In_rect r X Y /\ ~ In_rect s X Y.
Proof.
  intros Hr Hs Hi. rewrite intersects_spec in Hi by done. apply bool_decide_eq_true in Hi. unfold subtract. rewrite !right_x_ok, !bottom_y_ok by done.
  unfold ok, crosses in *. destruct r as [x y w h], s as [sx sy sw sh]. cbn [rx ry width height] in *.
  set (L := if sx >? x then sx - x else 0). set (R := if sx + sw <? x + w then x + w - (sx + sw) else 0).
  assert (HL : L = Z.max 0 (sx - x)) by (unfold L; case_match; bool_to_prop; lia). assert (HR : R = Z.max 0 (x + w - (sx + sw))) by (unfold R; case_match; bool_to_prop; lia).
  rewrite (u32_small (x + L)), (u32_small (w - L - R)) by lia.
  assert (Hall : Forall (fun t => ok t /\ within t (mkRect x y w h)) ((if sx >? x then [mkRect x y (sx - x) h] else []) ++ (if sx + sw <? x + w then [mkRect (sx + sw) y (x + w - (sx + sw)) h] else []) ++
    (if sy >? y then [mkRect (x + L) y (w - L - R) (sy - y)] else []) ++ (if sy + sh <? y + h then [mkRect (x + L) (sy + sh) (w - L - R) (y + h - (sy + sh))] else []))).
  { apply Forall_app; split; [|apply Forall_app; split; [|apply Forall_app; split]]; (case_match; [|constructor]); bool_to_prop; repeat constructor; unfold ok, within; cbn [rx ry width height]; lia. }
  apply Forall_and in Hall as [Hok Hin]. split; [exact Hok|]. split; [exact Hin|]. clear Hin. split.
  - revert Hok. do 4 case_match; bool_to_prop; intros Hok; cbn [app Apart] in *; rewrite ?Forall_cons in *; rewrite ?Forall_nil in *; split_and?; try done;
      rewrite intersects_spec by tauto; apply bool_decide_eq_false; unfold crosses; cbn [rx ry width height]; lia.
  - intros X Y. unfold covers. do 4 case_match; bool_to_prop; cbn [app]; rewrite ?Exists_cons, ?Exists_nil; unfold In_rect; cbn [rx ry width height]; lia.
Qed.

(** ** Lists of rectangles *)

#[global] Instance Apart_perm : Proper ((≡ₚ) ==> iff) Apart.
Proof.
  assert (H : forall l l', l ≡ₚ l' -> Apart l -> Apart l').
  { intros l l' Hp. induction Hp as [|a l l' Hp IH|a b l|l l' l'' _ IH1 _ IH2]; cbn [Apart]; intros Ha; [done| | |auto].
    - destruct Ha as [Ha Hl]. split; [by rewrite <- Hp|by apply IH].
    - rewrite !Forall_cons in *. rewrite (intersects_sym a b). tauto. }
  intros l l' Hp. split; apply H; [done|by symmetry].
Qed.

#[global] Instance covers_perm : Proper ((≡ₚ) ==> eq ==> eq ==> iff) covers.
Proof. intros l l' Hp X ? <- Y ? <-. unfold covers. rewrite !Exists_exists. by setoid_rewrite Hp. Qed.

Lemma covers_app l l' X Y : covers (l ++ l') X Y <-> covers l X Y \/ covers l' X Y.
Proof. apply Exists_app. Qed.
Lemma covers_cons r l X Y : covers (r :: l) X Y <-> In_rect r X Y \/ covers l X Y.
Proof. apply Exists_cons. Qed.
Lemma covers_nil X Y : covers [] X Y <-> False.
Proof. apply Exists_nil. Qed.

Lemma Apart_app l l' : Apart (l ++ l') <-> Apart l /\ Apart l' /\ Forall (fun a => Forall (fun b => intersects a b = false) l') l.
Proof.
  induction l as [|a l IH]; cbn [app Apart]; [rewrite Forall_nil; tauto|]. rewrite IH, Forall_app, Forall_cons. tauto.
Qed.

Lemma within_apart a b t : ok a -> ok b -> ok t -> within a b -> intersects b t = false -> intersects a t = false.
Proof.
  intros Ha Hb Ht Hw. rewrite !intersects_spec by done. rewrite !bool_decide_eq_false. unfold crosses, within in *. lia.
Qed.

(** Two rectangles that do not intersect have no pixel in common. *)
Lemma apart_disjoint a b X Y : ok a -> ok b -> intersects a b = false -> In_rect a X Y -> ~ In_rect b X Y.
Proof. intros Ha Hb. rewrite intersects_spec by done. rewrite bool_decide_eq_false. unfold crosses, In_rect. lia. Qed.

(** What a step of the loop leaves. *)
Lemma cut_step l i r s : Forall ok l -> ok s -> Apart l -> l !! i = Some r -> intersects r s = true ->
  Forall ok (delete i l ++ subtract r s) /\ Apart (delete i l ++ subtract r s) /\
  forall X Y, covers (delete i l ++ subtract r s) X Y /\ ~ In_rect s X Y <-> covers l X Y /\ ~ In_rect s X Y.
Proof.
  intros Hl Hs Ha Hr Hi. pose proof (delete_Permutation l i r Hr) as Hp. rewrite Hp in Hl, Ha. apply Forall_cons in Hl as [Hrok Hl]. destruct Ha as [Har Ha].
  destruct (subtract_ok r s Hrok Hs Hi) as (S1 & S2 & S3 & S4). split; [by apply Forall_app|]. split.
  - apply Apart_app. split; [done|]. split; [done|]. rewrite Forall_forall in *. intros a Hin. apply Forall_forall. intros b Hb. rewrite intersects_sym.
    apply (within_apart b r); [by apply S1|done|by apply Hl|by apply S2|by apply Har].
  - intros X Y. rewrite (covers_perm _ _ Hp X X eq_refl Y Y eq_refl), covers_app, S4, covers_cons. tauto.
Qed.

Lemma subtract_loop_ok fuel s : ok s -> forall i l l', Forall ok l -> Apart l -> Forall (fun r => intersects r s = false) (take i l) -> subtract_loop fuel s i l = Some l' ->
  Forall ok l' /\ Apart l' /\ Forall (fun r => intersects r s = false) l' /\ forall X Y, covers l' X Y <-> covers l X Y /\ ~ In_rect s X Y.
Proof.
  intros Hs. induction fuel as [|fuel IH]; intros i l l' Hl Ha Ht H; cbn [subtract_loop] in H; [done|]. destruct (l !! i) as [r|] eqn:Hr.
  - destruct (intersects r s) eqn:Hi.
    + destruct (cut_step l i r s Hl Hs Ha Hr Hi) as (C1 & C2 & C3). pose proof (lookup_lt_Some _ _ _ Hr) as Hlt.
      destruct (IH i _ l' C1 C2) as (D1 & D2 & D3 & D4); [|exact H|split_and!; [done|done|done|intros X Y; by rewrite D4, C3]].
      rewrite take_app_le by (rewrite length_delete by done; lia). rewrite delete_take_drop, take_app_le by (rewrite length_take; lia). by rewrite take_take, Nat.min_id.
    + apply (IH (S i)); [done|done| |done]. rewrite (take_S_r _ _ r) by done. by rewrite Forall_app, Forall_singleton.
  - injection H as <-. apply lookup_ge_None in Hr. rewrite take_ge in Ht by done. split_and!; [done|done|done|]. intros X Y. split; [|tauto]. intros Hc. split; [done|]. intros HX.
    unfold covers in Hc. apply Exists_exists in Hc as (r & Hin & Hrx). rewrite Forall_forall in Ht, Hl. by apply (apart_disjoint r s X Y (Hl r Hin) Hs (Ht r Hin)).
Qed.

(** Every rectangle of [l'] is a part of one of [l]. *)
Definition parts (l' l : list Rect) : Prop := Forall (fun a => Exists (within a) l) l'.

Lemma within_refl a : within a a.
Proof. unfold within. lia. Qed.
Lemma within_trans a b c : within a b -> within b c -> within a c.
Proof. unfold within. lia. Qed.
Lemma parts_refl l : parts l l.
Proof. apply Forall_forall. intros a Ha. apply Exists_exists. exists a. split; [done|apply within_refl]. Qed.
Lemma parts_trans l1 l2 l3 : parts l1 l2 -> parts l2 l3 -> parts l1 l3.
Proof.
  unfold parts. rewrite !Forall_forall. setoid_rewrite Exists_exists. intros H1 H2 a Ha. destruct (H1 a Ha) as (b & Hb & Hab). destruct (H2 b Hb) as (d & Hd & Hbd).
  exists d. split; [done|by eapply within_trans].
Qed.
Lemma parts_within l' l s : parts l' l -> Forall (fun r => within r s) l -> Forall (fun r => within r s) l'.
Proof.
  unfold parts. rewrite !Forall_forall. setoid_rewrite Exists_exists. intros H1 H2 a Ha. destruct (H1 a Ha) as (b & Hb & Hab). by eapply within_trans, H2.
Qed.

Lemma subtract_loop_parts fuel s : ok s -> forall i l l', Forall ok l -> subtract_loop fuel s i l = Some l' -> parts l' l.
Proof.
  intros Hs. induction fuel as [|fuel IH]; intros i l l' Hl H; cbn [subtract_loop] in H; [done|]. destruct (l !! i) as [r|] eqn:Hr; [|injection H as <-; apply parts_refl].
  destruct (intersects r s) eqn:Hi; [|by apply (IH (S i))]. pose proof (Forall_lookup_1 _ _ _ _ Hl Hr) as Hrok. destruct (subtract_ok r s Hrok Hs Hi) as (S1 & S2 & _).
  eapply parts_trans; [eapply IH, H; apply Forall_app; split; [by apply Forall_delete|done]|]. apply Forall_app. split.
  - apply Forall_delete, parts_refl.
  - eapply Forall_impl; [exact S2|]. intros a Ha. apply Exists_exists. exists r. split; [by eapply list_elem_of_lookup_2|done].
Qed.

(** The loop ends for any rectangles of the machine. *)
Definition cost (s : Rect) (l : list Rect) : nat := sum_list_with (fun r => if intersects r s then 5%nat else 1%nat) l.

Lemma cost_app s l l' : cost s (l ++ l') = (cost s l + cost s l')%nat.
Proof. apply sum_list_with_app. Qed.
Lemma cost_clear s l : Forall (fun r => intersects r s = false) l -> cost s l = length l.
Proof. induction 1 as [|r l Hr _ IH]; [done|]. unfold cost in *. cbn. rewrite Hr, IH. done. Qed.
Lemma cost_bound s l : (cost s l <= 5 * length l)%nat.
Proof. induction l as [|r l IH]; [done|]. unfold cost in *. cbn [sum_list_with length]. case_match; lia. Qed.

Lemma subtract_loop_total s : rep s -> forall fuel i l, Forall rep l -> (cost s (drop i l) < fuel)%nat -> exists l', subtract_loop fuel s i l = Some l' /\ Forall rep l'.
Proof.
  intros Hs. induction fuel as [|fuel IH]; intros i l Hl Hc; cbn [subtract_loop]; [lia|]. destruct (l !! i) as [r|] eqn:Hr; [|by exists l].
  pose proof (lookup_lt_Some _ _ _ Hr) as Hlt. pose proof (Forall_lookup_1 _ _ _ _ Hl Hr) as Hrr. rewrite (drop_S _ r) in Hc by done.
  assert (Hcost : cost s (r :: drop (S i) l) = ((if intersects r s then 5 else 1) + cost s (drop (S i) l))%nat) by done. rewrite Hcost in Hc. destruct (intersects r s).
  - apply IH; [apply Forall_app; split; [by apply Forall_delete|by apply subtract_rep]|]. rewrite drop_app_le by (rewrite length_delete by done; lia).
    rewrite delete_take_drop, drop_app_ge by (rewrite length_take; lia). rewrite length_take. replace (i - i `min` length l)%nat with 0%nat by lia. rewrite drop_0, cost_app.
    rewrite (cost_clear s (subtract r s)) by (by apply subtract_clear). pose proof (subtract_length r s). lia.
  - apply IH; [done|lia].
Qed.

Lemma subtract_rects_total s l : rep s -> Forall rep l -> exists l', subtract_rects s l = Some l' /\ Forall rep l'.
Proof. intros Hs Hl. apply subtract_loop_total; [done|done|]. rewrite drop_0. pose proof (cost_bound s l). lia. Qed.

Lemma subtract_rects_ok s l : ok s -> Forall ok l -> Apart l ->
  exists l', subtract_rects s l = Some l' /\ Forall ok l' /\ Apart l' /\ Forall (fun r => intersects r s = false) l' /\
    parts l' l /\ forall X Y, covers l' X Y <-> covers l X Y /\ ~ In_rect s X Y.
Proof.
  intros Hs Hl Ha. destruct (subtract_rects_total s l (ok_rep _ Hs)) as (l' & H & _); [eapply Forall_impl; [exact Hl|apply ok_rep]|].
  exists l'. split; [done|]. destruct (subtract_loop_ok _ _ Hs 0 l l' Hl Ha (Forall_nil_2 _) H) as (A & B & C & D). split_and!; [done|done|done| |done].
  exact (subtract_loop_parts _ _ Hs 0 l l' Hl H).
Qed.

Lemma subtract_each_ok ss : Forall ok ss -> forall l, Forall ok l -> Apart l ->
  exists l', subtract_each ss l = Some l' /\ Forall ok l' /\ Apart l' /\ parts l' l /\ forall X Y, covers l' X Y <-> covers l X Y /\ ~ covers ss X Y.
Proof.
  induction 1 as [|s ss Hs _ IH]; intros l Hl Ha; cbn [subtract_each].
  - exists l. split_and!; [done|done|done|apply parts_refl|]. intros X Y. rewrite covers_nil. tauto.
  - destruct (subtract_rects_ok s l Hs Hl Ha) as (l1 & -> & A1 & A2 & _ & A4 & A3). destruct (IH l1 A1 A2) as (l2 & E & B1 & B2 & B4 & B3). exists l2.
    split_and!; [exact E|done|done|by eapply parts_trans|]. intros X Y. rewrite B3, A3, covers_cons. tauto.
Qed.

End UiRect.

(** * Drawing with clipping (src/libs/libui/src/context.cpp)

    The frame buffer is an array of pixels; a write outside of it is [None].  A draw
    operation paints the part of a shape that lies in the clip rectangles, which must not
    intersect; the code asserts that they do not, and so does the model. *)

Module UiContext.
Import UiRect.

Record Context := mkCtx { fb : list Z; pitch_32 : Z; cwidth : Z; cheight : Z; x_off : Z; y_off : Z;
  dirty_rects : list Rect; clip_rects : list Rect; sub_rects : list Rect }.

Definition set_fb (f : list Z) (c : Context) : Context :=
  mkCtx f (pitch_32 c) (cwidth c) (cheight c) (x_off c) (y_off c) (dirty_rects c) (clip_rects c) (sub_rects c).
Definition set_off (x y : Z) (c : Context) : Context :=
  mkCtx (fb c) (pitch_32 c) (cwidth c) (cheight c) x y (dirty_rects c) (clip_rects c) (sub_rects c).
Definition set_dirty (l : list Rect) (c : Context) : Context :=
  mkCtx (fb c) (pitch_32 c) (cwidth c) (cheight c) (x_off c) (y_off c) l (clip_rects c) (sub_rects c).
Definition set_clip (l : list Rect) (c : Context) : Context :=
  mkCtx (fb c) (pitch_32 c) (cwidth c) (cheight c) (x_off c) (y_off c) (dirty_rects c) l (sub_rects c).
Definition set_sub (l : list Rect) (c : Context) : Context :=
  mkCtx (fb c) (pitch_32 c) (cwidth c) (cheight c) (x_off c) (y_off c) (dirty_rects c) (clip_rects c) l.
Definition add_dirty (r : Rect) (c : Context) : Context := set_dirty (dirty_rects c ++ [r]) c.

(** A loop of [n] rounds from [start]. *)
Fixpoint for_range {A} (n : nat) (start : Z) (body : Z -> A -> option A) (a : A) : option A :=
  match n with
  | O => Some a
  | S n => a ← body start a; for_range n (start + 1) body a
  end.

Fixpoint for_each {A B} (l : list B) (body : B -> A -> option A) (a : A) : option A :=
  match l with
  | [] => Some a
  | b :: l => a ← body b a; for_each l body a
  end.

Definition put (i c : Z) (f : list Z) : option (list Z) :=
  if (0 <=? i) && (i <? Z.of_nat (length f)) then Some (<[Z.to_nat i := c]> f) else None.

(** [memcpy] of [n] pixels. *)
Definition copy (pixels : list Z) (src n dest : Z) (f : list Z) : option (list Z) :=
  if (src + n <=? Z.of_nat (length pixels)) && (dest + n <=? Z.of_nat (length f))
  then Some (splice (Z.to_nat dest) (take (Z.to_nat n) (drop (Z.to_nat src) pixels)) f) else None.

(** The assertion over all pairs of different rectangles. *)
Definition apart_check (l : list Rect) : bool :=
  let il := zip (seq 0 (length l)) l in
  forallb (fun a => forallb (fun b => (a.1 =? b.1)%nat || negb (intersects a.2 b.2)) il) il.

Definition fill_clipped (r : Rect) (color : Z) (pitch : Z) (clip_rect : Rect) (f : list Z) : option (list Z) :=
  if (u32 (rx r + width r) <=? rx clip_rect) || (u32 (ry clip_rect + height clip_rect) <=? ry r) then Some f
  else
    let start_x := Z.max (rx r) (rx clip_rect) in
    let res_width := u32 (Z.min (u32 (rx r + width r)) (u32 (rx clip_rect + width clip_rect)) - start_x) in
    let start_y := Z.max (ry r) (ry clip_rect) in
    let res_height := u32 (Z.min (u32 (ry r + height r)) (u32 (ry clip_rect + height clip_rect)) - start_y) in
    for_range (Z.to_nat (u32 (start_y + res_height) - start_y)) start_y (fun y f =>
      for_range (Z.to_nat (u32 (start_x + res_width) - start_x)) start_x (fun x f => put (u64 (y * pitch + x)) color f) f) f.

Definition draw_filled_rect (r : Rect) (color : Z) (c : Context) : option Context :=
  let r := mkRect (u32 (rx r + x_off c)) (u32 (ry r + y_off c)) (width r) (height r) in
  _ ← assert (apart_check (clip_rects c));
  f ← for_each (clip_rects c) (fill_clipped r color (pitch_32 c)) (fb c);
  Some (set_fb f c).

Definition blit_clipped (pixels : list Z) (content_rect : Rect) (stride pitch : Z) (clip_rect : Rect) (f : list Z) : option (list Z) :=
  if negb (intersects clip_rect content_rect) then Some f
  else
    let clipped := intersect content_rect clip_rect in
    let rel_x := u32 (rx clipped - rx content_rect) in
    for_range (Z.to_nat (u32 (ry clipped + height clipped) - ry clipped)) (ry clipped) (fun actual_y f =>
      let rel_y := u32 (actual_y - ry content_rect) in
      let to_copy := u32 (width clipped * 4) in
      copy pixels (u32 (rel_y * stride + rel_x)) (to_copy / 4) (u64 (actual_y * pitch + rx clipped)) f) f.

Definition draw_bitmap (pixels : list Z) (x y bitmap_width bitmap_height : Z) (c : Context) : option Context :=
  let content_rect := mkRect (u32 (x_off c + x)) (u32 (y_off c + y)) bitmap_width bitmap_height in
  f ← for_each (clip_rects c) (blit_clipped pixels content_rect bitmap_width (pitch_32 c)) (fb c);
  Some (set_fb f c).

Definition draw_rect_outline (r : Rect) (color thickness : Z) (c : Context) : option Context :=
  c ← draw_filled_rect (mkRect (rx r) (ry r) (width r) thickness) color c;
  c ← draw_filled_rect (mkRect (rx r) (u32 (ry r + height r - thickness)) (width r) thickness) color c;
  c ← draw_filled_rect (mkRect (rx r) (ry r) thickness (height r)) color c;
  draw_filled_rect (mkRect (u32 (rx r + width r - thickness)) (ry r) thickness (height r)) color c.

Definition add_clip_rect (r : Rect) (c : Context) : option Context :=
  res ← subtract_each (sub_rects c) [r];
  Some (set_clip (clip_rects c ++ res) c).

Definition clear_clip_rects (c : Context) : Context := set_clip [] c.

(** ** Pixels *)

Definition pixel (pitch : Z) (f : list Z) (X Y : Z) : option Z := f !! Z.to_nat (Y * pitch + X).

Definition over (g f : Z -> Z -> option Z) (X Y : Z) : option Z := match g X Y with Some c => Some c | None => f X Y end.

(** [f'] is [f] with the pixels of [p] painted. *)
Definition paints (pitch : Z) (p : Z -> Z -> option Z) (f f' : list Z) : Prop :=
  length f' = length f /\ forall X Y, 0 <= X < pitch -> 0 <= Y -> pixel pitch f' X Y = over p (pixel pitch f) X Y.

Section Pixels.
Context (pitch : Z) (Hpitch : 0 < pitch).

Lemma paints_none p f : (forall X Y, p X Y = None) -> paints pitch p f f.
Proof. intros H. split; [done|]. intros X Y _ _. unfold over. by rewrite H. Qed.

Lemma paints_trans p q f g h : paints pitch p f g -> paints pitch q g h -> paints pitch (over q p) f h.
Proof.
  intros [L1 H1] [L2 H2]. split; [congruence|]. intros X Y HX HY. rewrite H2 by done. unfold over at 1 2 3. destruct (q X Y); [done|]. apply H1; done.
Qed.

Lemma paints_ext p q f g : (forall X Y, 0 <= X < pitch -> 0 <= Y -> p X Y = q X Y) -> paints pitch p f g -> paints pitch q f g.
Proof. intros E [L H]. split; [done|]. intros X Y HX HY. rewrite H by done. unfold over. by rewrite E. Qed.

Lemma cell_inj X Y X' Y' : 0 <= X < pitch -> 0 <= X' < pitch -> Y * pitch + X = Y' * pitch + X' -> X = X' /\ Y = Y'.
Proof. intros HX HX' E. destruct (Z.div_mod_unique pitch Y Y' X X'); lia. Qed.

Lemma for_range_spec {A} (I : nat -> A -> Prop) n start body a : I 0%nat a ->
  (forall k a, (k < n)%nat -> I k a -> exists a', body (start + Z.of_nat k) a = Some a' /\ I (S k) a') ->
  exists a', for_range n start body a = Some a' /\ I n a'.
Proof.
  revert start I a. induction n as [|n IH]; intros start I a H0 HS; cbn [for_range]; [by exists a|].
  destruct (HS 0%nat a ltac:(lia) H0) as (a1 & E1 & H1). replace (start + Z.of_nat 0) with start in E1 by lia. rewrite E1. cbn [mbind option_bind].
  apply (IH (start + 1) (fun k => I (S k)) a1 H1). intros k a2 Hk HI. destruct (HS (S k) a2 ltac:(lia) HI) as (a3 & E3 & H3). exists a3. split; [|done].
  rewrite <- E3. f_equal. lia.
Qed.

Lemma for_each_spec {A B} (I : list B -> A -> Prop) (l : list B) body a : I [] a ->
  (forall l1 b a, b ∈ l -> I l1 a -> exists a', body b a = Some a' /\ I (l1 ++ [b]) a') -> exists a', for_each l body a = Some a' /\ I l a'.
Proof.
  intros H0 HS. enough (H : forall l1 l2 a, (forall b, b ∈ l2 -> b ∈ l) -> I l1 a -> exists a', for_each l2 body a = Some a' /\ I (l1 ++ l2) a') by (apply (H [] l a); done).
  intros l1 l2. revert l1. induction l2 as [|b l2 IH]; intros l1 a1 Hsub H1; cbn [for_each]; [exists a1; by rewrite app_nil_r|].
  destruct (HS l1 b a1 (Hsub b (list_elem_of_here _ _)) H1) as (a2 & -> & H2). cbn [mbind option_bind]. destruct (IH (l1 ++ [b]) a2) as (a3 & E3 & H3); [|done|].
  - intros b' Hb'. apply Hsub. by apply list_elem_of_further.
  - exists a3. by rewrite <- app_assoc in H3.
Qed.

(** What one cell and what a row of cells paints. *)
Lemma put_paints f X Y c : 0 <= X < pitch -> 0 <= Y -> Y * pitch + X < Z.of_nat (length f) ->
  exists f', put (Y * pitch + X) c f = Some f' /\ paints pitch (fun x y => if (x =? X) && (y =? Y) then Some c else None) f f'.
Proof.
  intros HX HY Hl. unfold put. rewrite (proj2 (Z.leb_le _ _)), (proj2 (Z.ltb_lt _ _)) by nia. cbn [andb]. eexists. split; [done|]. split; [by rewrite length_insert|].
  intros x y Hx Hy. unfold over, pixel. destruct (Z.eqb_spec x X) as [->|Hne]; [destruct (Z.eqb_spec y Y) as [->|Hne]|]; cbn [andb].
  - apply list_lookup_insert_eq. nia.
  - apply list_lookup_insert_ne. intros E. apply Z2Nat.inj in E; [|nia|nia]. destruct (cell_inj X Y X y); lia.
  - apply list_lookup_insert_ne. intros E. apply Z2Nat.inj in E; [|nia|nia]. destruct (cell_inj X Y x y); lia.
Qed.

Lemma copy_paints f pixels src n X Y : 0 <= n -> 0 <= X -> X + n <= pitch -> 0 <= Y -> 0 <= src -> src + n <= Z.of_nat (length pixels) -> Y * pitch + X + n <= Z.of_nat (length f) ->
  exists f', copy pixels src n (Y * pitch + X) f = Some f' /\
    paints pitch (fun x y => if (y =? Y) && (X <=? x) && (x <? X + n) then pixels !! Z.to_nat (src + (x - X)) else None) f f'.
Proof.
  intros Hn HX HXn HY Hs Hsn Hl. unfold copy. rewrite !(proj2 (Z.leb_le _ _)) by lia. cbn [andb]. eexists. split; [done|].
  assert (Hlen : length (take (Z.to_nat n) (drop (Z.to_nat src) pixels)) = Z.to_nat n) by (rewrite length_take, length_drop; lia).
  split; [unfold splice; rewrite !length_app, Hlen, length_take, length_drop; nia|]. intros x y Hx Hy. unfold over, pixel, splice.
  destruct (decide (y = Y /\ X <= x < X + n)) as [[-> Hr]|Hr].
  - rewrite Z.eqb_refl, (proj2 (Z.leb_le _ _)), (proj2 (Z.ltb_lt _ _)) by lia. cbn [andb]. destruct (lookup_lt_is_Some_2 pixels (Z.to_nat (src + (x - X)))) as [p Hp]; [lia|]. rewrite Hp.
    rewrite lookup_app_r by (rewrite length_take; nia). rewrite lookup_app_l by (rewrite Hlen, length_take; nia). rewrite length_take. rewrite lookup_take_lt by nia. rewrite lookup_drop.
    rewrite <- Hp. f_equal. nia.
  - replace ((y =? Y) && (X <=? x) && (x <? X + n)) with false by (destruct (Z.eqb_spec y Y), (Z.leb_spec X x), (Z.ltb_spec x (X + n)); cbn; lia).
    destruct (decide (y * pitch + x < Y * pitch + X)) as [Hlt|Hge].
    + rewrite lookup_app_l by (rewrite length_take; nia). apply lookup_take_lt. nia.
    + assert (Hge2 : Y * pitch + X + n <= y * pitch + x).
      { destruct (decide (y = Y)) as [->|Hne]; [lia|]. assert (Y + 1 <= y) by (destruct (decide (Y + 1 <= y)); [done|nia]). nia. }
      rewrite lookup_app_r by (rewrite length_take; nia). rewrite lookup_app_r by (rewrite Hlen, length_take; nia). rewrite Hlen, length_take, lookup_drop. f_equal. nia.
Qed.

End Pixels.

(** ** Shapes *)

(** A context whose frame buffer holds its screen. *)
Record Screen (c : Context) : Prop := {
  sc_width : 0 < cwidth c <= pitch_32 c;
  sc_height : 0 <= cheight c;
  sc_bound : cwidth c < 2 ^ 30 /\ cheight c < 2 ^ 31;
  sc_size : pitch_32 c * cheight c <= Z.of_nat (length (fb c)) < 2 ^ 63
}.
Definition screen_rect (c : Context) : Rect := mkRect 0 0 (cwidth c) (cheight c).
Definition Clipped (c : Context) : Prop := Forall ok (clip_rects c) /\ Apart (clip_rects c) /\ Forall (fun r => within r (screen_rect c)) (clip_rects c).

Ltac paint_cases := intros; unfold over; repeat case_decide; try done; exfalso; unfold In_rect, within, ok in *; cbn [rx ry width height] in *; lia.

Lemma u32_add_sub a b : fits 32 b -> u32 (a + u32 (b - a)) = b.
Proof. intros Hb. unfold u32, wrap. rewrite Zplus_mod_idemp_r. replace (a + (b - a)) with b by lia. by apply Z.mod_small. Qed.

(** Painting row by row. *)
Lemma rows_paint pitch f n sy (row : Z -> list Z -> option (list Z)) (p : Z -> Z -> option Z) : 0 < pitch ->
  (forall k g, (k < n)%nat -> length g = length f -> exists g', row (sy + Z.of_nat k) g = Some g' /\ paints pitch (fun X Y => if decide (Y = sy + Z.of_nat k) then p X Y else None) g g') ->
  exists f', for_range n sy row f = Some f' /\ paints pitch (fun X Y => if decide (sy <= Y < sy + Z.of_nat n) then p X Y else None) f f'.
Proof.
  intros Hp Hrow. set (I := fun (k : nat) (g : list Z) => paints pitch (fun X Y => if decide (sy <= Y < sy + Z.of_nat k) then p X Y else None) f g). apply (for_range_spec I).
  - apply paints_none. intros. by rewrite decide_False by lia.
  - intros k g Hk Hg. destruct (Hrow k g Hk (proj1 Hg)) as (g' & -> & Hg'). exists g'. split; [done|]. eapply paints_ext; [|exact (paints_trans _ _ _ _ _ _ Hg Hg')].
    intros X Y _ _. unfold over. repeat case_decide; try done; try lia; by destruct (p X Y).
Qed.

Lemma fill_row pitch f n sx Y color : 0 < pitch -> 0 <= sx -> sx + Z.of_nat n <= pitch -> 0 <= Y -> Y * pitch + sx + Z.of_nat n <= Z.of_nat (length f) < 2 ^ 63 ->
  exists f', for_range n sx (fun x f => put (u64 (Y * pitch + x)) color f) f = Some f' /\
    paints pitch (fun X y => if decide (y = Y) then if decide (sx <= X < sx + Z.of_nat n) then Some color else None else None) f f'.
Proof.
  intros Hp Hsx Hn HY Hl. set (I := fun (k : nat) (g : list Z) => paints pitch (fun X y => if decide (y = Y) then if decide (sx <= X < sx + Z.of_nat k) then Some color else None else None) f g).
  apply (for_range_spec I).
  - apply paints_none. intros. case_decide; [|done]. by rewrite decide_False by lia.
  - intros k g Hk Hg. destruct (put_paints pitch Hp g (sx + Z.of_nat k) Y color) as (g' & E & Hg'); [lia|lia|rewrite (proj1 Hg); lia|]. exists g'.
    rewrite u64_small by nia. split; [exact E|]. eapply paints_ext; [|exact (paints_trans _ _ _ _ _ _ Hg Hg')].
    intros X y _ _. unfold over. destruct (Z.eqb_spec X (sx + Z.of_nat k)), (Z.eqb_spec y Y); cbn [andb]; repeat case_decide; done || lia.
Qed.

Section Shapes.
Context (c : Context) (Hc : Screen c).
Notation pitch := (pitch_32 c).

Lemma fill_clipped_paints r color clip f : ok r -> ok clip -> within clip (screen_rect c) -> length f = length (fb c) ->
  exists f', fill_clipped r color pitch clip f = Some f' /\ paints pitch (fun X Y => if decide (In_rect clip X Y) then if decide (In_rect r X Y) then Some color else None else None) f f'.
Proof.
  destruct Hc as [S1 S2 S3 S4]. intros Hr Hk Hw Hl. unfold fill_clipped. fold (right_x r) (right_x clip) (bottom_y r) (bottom_y clip). rewrite !right_x_ok, !bottom_y_ok by done.
  destruct ((_ <=? _) || (_ <=? _)) eqn:E.
  - exists f. split; [done|]. apply paints_none. intros X Y. unfold In_rect. apply orb_true_iff in E as [E|E]; apply Z.leb_le in E; repeat case_decide; done || lia.
  - apply orb_false_iff in E as [E1 E2]. apply Z.leb_gt in E1, E2. unfold ok, within, screen_rect in *. cbn [rx ry width height] in *. rewrite !u32_add_sub by (unfold fits; lia).
    set (sx := Z.max (rx r) (rx clip)). set (ex := Z.min _ (rx clip + width clip)). set (sy := Z.max (ry r) (ry clip)). set (ey := Z.min _ (ry clip + height clip)).
    destruct (rows_paint pitch f (Z.to_nat (ey - sy)) sy (fun y f => for_range (Z.to_nat (ex - sx)) sx (fun x f => put (u64 (y * pitch + x)) color f) f)
      (fun X _ => if decide (sx <= X < sx + Z.of_nat (Z.to_nat (ex - sx))) then Some color else None)) as (f' & Ef & Hf); [lia| |].
    + intros k g Hkn Hg. destruct (decide (ex <= sx)) as [Hle|Hgt].
      * replace (Z.to_nat (ex - sx)) with 0%nat by lia. cbn [for_range]. exists g. split; [done|]. apply paints_none. intros X Y. repeat case_decide; done || lia.
      * apply fill_row; [lia|lia|lia|lia|]. rewrite Hg, Hl. assert ((sy + Z.of_nat k + 1) * pitch <= cheight c * pitch) by (apply Z.mul_le_mono_nonneg_r; lia). lia.
    + exists f'. split; [done|]. eapply paints_ext; [|exact Hf]. intros X Y _ _. unfold In_rect. repeat case_decide; done || lia.
Qed.

(** All clip rectangles in turn, for a shape [p]. *)
Lemma clips_paint (body : Rect -> list Z -> option (list Z)) p : Clipped c ->
  (forall clip f, ok clip -> within clip (screen_rect c) -> length f = length (fb c) ->
    exists f', body clip f = Some f' /\ paints pitch (fun X Y => if decide (In_rect clip X Y) then p X Y else None) f f') ->
  exists f', for_each (clip_rects c) body (fb c) = Some f' /\ paints pitch (fun X Y => if decide (covers (clip_rects c) X Y) then p X Y else None) (fb c) f'.
Proof.
  intros (Hok & _ & Hin) Hbody. set (I := fun (l : list Rect) (g : list Z) => paints pitch (fun X Y => if decide (covers l X Y) then p X Y else None) (fb c) g). apply (for_each_spec I).
  - apply paints_none. intros X Y. rewrite decide_False; [done|]. intros Hn. by apply covers_nil in Hn.
  - intros l1 clip g Hm Hg. rewrite Forall_forall in Hok, Hin. destruct (Hbody clip g (Hok _ Hm) (Hin _ Hm) (proj1 Hg)) as (g' & -> & Hg'). exists g'. split; [done|].
    eapply paints_ext; [|exact (paints_trans _ _ _ _ _ _ Hg Hg')]. intros X Y _ _. unfold over. assert (Hcov : covers (l1 ++ [clip]) X Y <-> covers l1 X Y \/ In_rect clip X Y) by (rewrite covers_app, covers_cons, covers_nil; tauto).
    repeat case_decide; try done; try tauto. all: by destruct (p X Y).
Qed.

Lemma apart_check_ok l : Apart l -> apart_check l = true.
Proof.
  intros Ha. unfold apart_check. apply forallb_forall. intros [i a] H1. apply forallb_forall. intros [j b] H2. cbn [fst snd].
  destruct (Nat.eqb_spec i j) as [->|Hne]; [done|]. cbn [orb]. apply negb_true_iff.
  assert (Hz : forall i a, In (i, a) (zip (seq 0 (length l)) l) -> l !! i = Some a).
  { clear. intros i a Hin. apply list_elem_of_In, list_elem_of_lookup in Hin as (k & Hk). apply lookup_zip_Some in Hk as [H1 H2]. apply lookup_seq in H1 as [-> _]. done. }
  apply Hz in H1, H2. clear Hz. revert i j a b Hne H1 H2. induction l as [|r l IH]; intros i j a b Hne H1 H2; [done|]. destruct Ha as [Hr Ha]. rewrite Forall_forall in Hr.
  destruct i as [|i], j as [|j]; cbn in H1, H2; [done| | |].
  - injection H1 as <-. apply Hr. by eapply list_elem_of_lookup_2.
  - injection H2 as <-. rewrite intersects_sym. apply Hr. by eapply list_elem_of_lookup_2.
  - apply (IH Ha i j); [congruence|done|done].
Qed.

Definition shift (c : Context) (r : Rect) : Rect := mkRect (rx r + x_off c) (ry r + y_off c) (width r) (height r).

Lemma draw_filled_rect_paints r color : Clipped c -> ok (shift c r) ->
  exists f', draw_filled_rect r color c = Some (set_fb f' c) /\
    paints pitch (fun X Y => if decide (covers (clip_rects c) X Y) then if decide (In_rect (shift c r) X Y) then Some color else None else None) (fb c) f'.
Proof.
  intros Hcl Hr. unfold draw_filled_rect. rewrite !u32_small by (unfold ok, shift in Hr; cbn [rx ry width height] in Hr; lia). fold (shift c r).
  rewrite apart_check_ok by apply Hcl. cbn [assert mbind option_bind]. destruct (clips_paint (fill_clipped (shift c r) color pitch) (fun X Y => if decide (In_rect (shift c r) X Y) then Some color else None) Hcl) as (f' & -> & Hf).
  - intros clip f Hk Hw Hl. by apply fill_clipped_paints.
  - by exists f'.
Qed.

(** A bitmap of [w] by [h] pixels. *)
Definition bitmap_ok (pixels : list Z) (w h : Z) : Prop := Z.of_nat (length pixels) = w * h /\ w * h < 2 ^ 32.
Definition sample (pixels : list Z) (r : Rect) (X Y : Z) : option Z :=
  if decide (In_rect r X Y) then pixels !! Z.to_nat ((Y - ry r) * width r + (X - rx r)) else None.

Lemma blit_clipped_paints pixels r clip f : ok r -> bitmap_ok pixels (width r) (height r) -> ok clip -> within clip (screen_rect c) -> length f = length (fb c) ->
  exists f', blit_clipped pixels r (width r) pitch clip f = Some f' /\ paints pitch (fun X Y => if decide (In_rect clip X Y) then sample pixels r X Y else None) f f'.
Proof.
  destruct Hc as [S1 S2 S3 S4]. intros Hr [Hb1 Hb2] Hk Hw Hl. unfold blit_clipped. rewrite intersects_sym. destruct (intersects r clip) eqn:E; cbn [negb].
  - destruct (intersect_spec r clip Hr Hk E) as (I1 & I2 & I3 & I4). set (q := intersect r clip) in *. unfold bottom_y in *. rewrite (u32_small (ry q + height q)) by (unfold ok in I1; lia).
    rewrite intersects_spec in E by done. apply bool_decide_eq_true in E. unfold ok, within, screen_rect, crosses in *. cbn [rx ry width height] in *. rewrite (u32_small (width q * 4)), Z.div_mul by lia.
    destruct (rows_paint pitch f (Z.to_nat (ry q + height q - ry q)) (ry q) (fun actual_y f => copy pixels (u32 (u32 (actual_y - ry r) * width r + u32 (rx q - rx r))) (width q) (u64 (actual_y * pitch + rx q)) f)
      (fun X Y => if decide (rx q <= X < rx q + width q) then pixels !! Z.to_nat ((Y - ry r) * width r + (X - rx r)) else None)) as (f' & -> & Hf); [lia| |].
    + intros k g Hkn Hg. set (Y := ry q + Z.of_nat k). assert (HY : ry q <= Y < ry q + height q) by lia. rewrite (u32_small (Y - ry r)), (u32_small (rx q - rx r)) by lia.
      assert (Hidx : (Y - ry r) * width r + width r <= height r * width r) by (replace ((Y - ry r) * width r + width r) with ((Y - ry r + 1) * width r) by lia; apply Z.mul_le_mono_nonneg_r; lia).
      assert (Hcell : (Y + 1) * pitch <= cheight c * pitch) by (apply Z.mul_le_mono_nonneg_r; lia). assert (0 <= (Y - ry r) * width r) by (apply Z.mul_nonneg_nonneg; lia).
      assert (0 <= Y * pitch) by (apply Z.mul_nonneg_nonneg; lia). rewrite u32_small, u64_small by lia.
      destruct (copy_paints pitch ltac:(lia) g pixels ((Y - ry r) * width r + (rx q - rx r)) (width q) (rx q) Y) as (g' & E' & Hg'); [lia|lia|lia|lia|lia|lia|rewrite Hg, Hl; lia|].
      exists g'. split; [exact E'|]. eapply paints_ext; [|exact Hg']. intros X y _ _. cbv beta. destruct (Z.eqb_spec y Y) as [->|]; [|by rewrite decide_False].
      rewrite (decide_True (P := Y = Y)) by done. destruct (Z.leb_spec (rx q) X), (Z.ltb_spec X (rx q + width q)); cbn [andb]; case_decide; try done; try lia. f_equal. lia.
    + exists f'. split; [done|]. eapply paints_ext; [|exact Hf]. intros X Y _ _. cbv beta. unfold sample. specialize (I4 X Y). unfold In_rect in *. repeat case_decide; done || lia.
  - exists f. split; [done|]. apply paints_none. intros X Y. unfold sample. pose proof (apart_disjoint r clip X Y Hr Hk E). repeat case_decide; done || tauto.
Qed.

End Shapes.

End UiContext.

(** * Text (src/libs/libtext/src/main.cpp, src/libs/libui/src/text.cpp)

    A font is a PSF2 file: a header, the bits of the glyphs and a table that gives for every
    glyph the characters, in UTF-8, it stands for. *)

Module UiText.
Import UiRect UiContext.

(** ** Fonts *)

Record Font := mkFont { font : list Z; glyph_mappings : list Z }.

Definition header_size (data : list Z) : Z := le_val (take 4 (drop 8 data)).
Definition hdr_flags (data : list Z) : Z := le_val (take 4 (drop 12 data)).
Definition num_glyph (data : list Z) : Z := le_val (take 4 (drop 16 data)).
Definition bytes_per_glyph (data : list Z) : Z := le_val (take 4 (drop 20 data)).
Definition hdr_height (data : list Z) : Z := le_val (take 4 (drop 24 data)).
Definition hdr_width (data : list Z) : Z := le_val (take 4 (drop 28 data)).

Definition UINT16_MAX : Z := 0xFFFF.

Definition continuation (b : Z) : bool := Z.land b 0xC0 =? 0x80.

(** One character of the table at [i], and how far it goes. *)
Definition decode (data : list Z) (i : nat) (byte : Z) : option (Z * nat) :=
  if negb (Z.land byte 0x80 =? 0) then
    if Z.land byte 0xE0 =? 0xC0 then
      _ ← assert (i + 1 <? length data)%nat;
      second ← data !! (i + 1)%nat;
      _ ← assert (continuation second);
      Some (Z.lor (Z.land second 0x3F) (Z.shiftl (Z.land byte 0x1F) 6), (i + 1)%nat)
    else if Z.land byte 0xF0 =? 0xE0 then
      _ ← assert (i + 2 <? length data)%nat;
      second ← data !! (i + 1)%nat;
      third ← data !! (i + 2)%nat;
      _ ← assert (continuation second);
      _ ← assert (continuation third);
      Some (Z.lor (Z.lor (Z.land third 0x3F) (Z.shiftl (Z.land second 0x3F) 6)) (Z.shiftl (Z.land byte 0xF) 12), (i + 2)%nat)
    else
      _ ← assert (Z.land byte 0xF8 =? 0xF0);
      _ ← assert (i + 3 <? length data)%nat;
      second ← data !! (i + 1)%nat;
      third ← data !! (i + 2)%nat;
      fourth ← data !! (i + 2)%nat;
      _ ← assert (continuation second);
      _ ← assert (continuation third);
      _ ← assert (continuation fourth);
      Some (Z.lor (Z.lor (Z.lor (Z.land fourth 0x3F) (Z.shiftl (Z.land third 0x3F) 6)) (Z.shiftl (Z.land second 0x3F) 12)) (Z.shiftl (Z.land byte 7) 18), (i + 3)%nat)
  else Some (byte, i).

Fixpoint read_table (fuel : nat) (data : list Z) (i : nat) (glyph : Z) (m : list Z) : option (list Z) :=
  match fuel with
  | O => None
  | S fuel =>
      match data !! i with
      | None => Some m
      | Some byte =>
          if byte =? 0xFF then read_table fuel data (S i) (u16 (glyph + 1)) m
          else
            '(cp, i) ← decode data i byte;
            _ ← assert (cp <? UINT16_MAX);
            read_table fuel data (S i) glyph (<[Z.to_nat cp := glyph]> m)
      end
  end.

(** [Context::create] on the contents of the file. *)
Definition create (data : list Z) : option Font :=
  _ ← assert (32 <=? length data)%nat;
  if hdr_flags data =? 0 then Some (mkFont data [])
  else
    m ← read_table (S (length data)) data (Z.to_nat (u32 (header_size data + u32 (num_glyph data * bytes_per_glyph data)))) 0 (replicate (Z.to_nat UINT16_MAX) 0);
    Some (mkFont data m).

Definition rasterize_glyph (ft : Font) (codepoint w h fg bg : Z) : option (list Z) :=
  let data := font ft in
  _ ← assert (32 <=? length data)%nat;
  glyph ← (match glyph_mappings ft with
           | [] => if codepoint <? UINT16_MAX then Some (u16 codepoint) else None
           | m => m !! Z.to_nat codepoint
           end);
  let bytes_per_line := u32 (hdr_width data + 7) / 8 in
  _ ← assert (glyph <? num_glyph data);
  let glyph_data := header_size data + u32 (glyph * bytes_per_glyph data) in
  for_range (Z.to_nat (hdr_height data)) 0 (fun y pixels =>
    for_range (Z.to_nat (hdr_width data)) 0 (fun x pixels =>
      let shift := hdr_width data - 1 - x in
      byte ← data !! Z.to_nat (glyph_data + y * bytes_per_line + shift / 8);
      put (u32 (y * w + x)) (if Z.land byte (Z.shiftl 1 (shift mod 8)) =? 0 then bg else fg) pixels) pixels) (replicate (Z.to_nat (u32 (w * h))) 0).

(** ** Text windows *)

(** A call of a draw operation. *)
Inductive Paint := Fill (r : Rect) (color : Z) | Bitmap (pixels : list Z) (x y w h : Z).

Definition paint (p : Paint) (c : Context) : option Context :=
  match p with
  | Fill r color => draw_filled_rect r color c
  | Bitmap pixels x y w h => draw_bitmap pixels x y w h c
  end.

Record TextWindow := mkText { text : list Z; text_color : Z; text_ctx : Font }.

(** The calls of [draw] for a text in [rect]; [c] is a character as the conversion to 32 bits
    has it. *)
Fixpoint glyph_calls (tw : TextWindow) (bg : Z) (rect : Rect) (cs : list Z) (x_offset y_offset : Z) : option (list Paint) :=
  match cs with
  | [] => Some []
  | c :: cs =>
      bitmap ← rasterize_glyph (text_ctx tw) c 8 16 (text_color tw) bg;
      if u32 (x_offset + 8) >? width rect then
        let y_offset := u32 (y_offset + 16) in
        if y_offset >=? height rect then Some []
        else rest ← glyph_calls tw bg rect cs 8 y_offset; Some (Bitmap bitmap (rx rect) (u32 (ry rect + y_offset)) 8 16 :: rest)
      else
        rest ← glyph_calls tw bg rect cs (u32 (x_offset + 8)) y_offset;
        Some (Bitmap bitmap (u32 (rx rect + x_offset)) (u32 (ry rect + y_offset)) 8 16 :: rest)
  end.

Definition text_calls (tw : TextWindow) (bg : Z) (rect : Rect) : option (list Paint) :=
  rest ← glyph_calls tw bg rect (text tw) 0 0;
  Some (Fill rect bg :: rest).

(** ** With the cache of glyphs *)

(** As the code has it: a glyph is made once and then kept. *)
Definition lookup_glyph (tw : TextWindow) (bg c : Z) (cache : gmap Z (list Z)) : option (list Z * gmap Z (list Z)) :=
  match cache !! c with
  | Some bitmap => Some (bitmap, cache)
  | None => bitmap ← rasterize_glyph (text_ctx tw) c 8 16 (text_color tw) bg; Some (bitmap, <[c := bitmap]> cache)
  end.

Fixpoint draw_text (tw : TextWindow) (bg : Z) (rect : Rect) (cs : list Z) (x_offset y_offset : Z) (cache : gmap Z (list Z)) (ctx : Context) : option (gmap Z (list Z) * Context) :=
  match cs with
  | [] => Some (cache, ctx)
  | c :: cs =>
      '(bitmap, cache) ← lookup_glyph tw bg c cache;
      let wrap := u32 (x_offset + 8) >? width rect in
      let x_offset := if wrap then 0 else x_offset in
      let y_offset := if wrap then u32 (y_offset + 16) else y_offset in
      if wrap && (y_offset >=? height rect) then Some (cache, ctx)
      else
        ctx ← draw_bitmap bitmap (u32 (rx rect + x_offset)) (u32 (ry rect + y_offset)) 8 16 ctx;
        draw_text tw bg rect cs (u32 (x_offset + 8)) y_offset cache ctx
  end.

Definition draw (tw : TextWindow) (bg : Z) (rect : Rect) (cache : gmap Z (list Z)) (ctx : Context) : option (gmap Z (list Z) * Context) :=
  ctx ← draw_filled_rect rect bg ctx;
  draw_text tw bg rect (text tw) 0 0 cache ctx.

(** A cache of glyphs in the colours of the window. *)
Definition cache_ok (tw : TextWindow) (bg : Z) (cache : gmap Z (list Z)) : Prop :=
  forall c bitmap, cache !! c = Some bitmap -> rasterize_glyph (text_ctx tw) c 8 16 (text_color tw) bg = Some bitmap.

Lemma lookup_glyph_ok tw bg c cache bitmap : cache_ok tw bg cache -> rasterize_glyph (text_ctx tw) c 8 16 (text_color tw) bg = Some bitmap ->
  exists cache', lookup_glyph tw bg c cache = Some (bitmap, cache') /\ cache_ok tw bg cache'.
Proof.
  intros Hc Hr. unfold lookup_glyph. destruct (cache !! c) as [b|] eqn:E.
  - exists cache. split; [|done]. rewrite (Hc _ _ E) in Hr. by injection Hr as ->.
  - rewrite Hr. cbn [mbind option_bind]. eexists. split; [done|]. intros c' b' H. destruct (decide (c' = c)) as [->|Hne]; [rewrite lookup_insert_eq in H; congruence|].
    rewrite lookup_insert_ne in H by done. by apply Hc.
Qed.

Lemma draw_text_calls tw bg rect cs : rep rect -> forall xo yo cache ctx calls, cache_ok tw bg cache -> glyph_calls tw bg rect cs xo yo = Some calls ->
  match for_each calls paint ctx with
  | Some ctx' => exists cache', draw_text tw bg rect cs xo yo cache ctx = Some (cache', ctx') /\ cache_ok tw bg cache'
  | None => draw_text tw bg rect cs xo yo cache ctx = None
  end.
Proof.
  intros Hrep. induction cs as [|c cs IH]; intros xo yo cache ctx calls Hc H; cbn [glyph_calls draw_text] in *; [injection H as <-; by exists cache|].
  destruct (rasterize_glyph (text_ctx tw) c 8 16 (text_color tw) bg) as [bitmap|] eqn:Er; [|done]. cbn [mbind option_bind] in H.
  destruct (lookup_glyph_ok tw bg c cache bitmap Hc Er) as (cache1 & -> & Hc1). cbn [mbind option_bind]. destruct (u32 (xo + 8) >? width rect).
  - destruct (u32 (yo + 16) >=? height rect); cbn [andb]; [injection H as <-; cbn [for_each]; by exists cache1|].
    destruct (glyph_calls tw bg rect cs 8 _) as [rest|] eqn:Eg; [|done]. injection H as <-. cbn [for_each paint]. rewrite Z.add_0_r, (u32_small (rx rect)) by apply Hrep.
    destruct (draw_bitmap bitmap _ _ 8 16 ctx) as [ctx1|]; [|done]. by apply IH.
  - cbn [andb]. destruct (glyph_calls tw bg rect cs _ _) as [rest|] eqn:Eg; [|done]. injection H as <-. cbn [for_each paint].
    destruct (draw_bitmap bitmap _ _ 8 16 ctx) as [ctx1|]; [|done]. by apply IH.
Qed.

End UiText.
