(* ===== verification/UiWindow.v ===== *)
(** * Windows and how a tree of them is drawn (src/libs/libui/src/window.cpp)

    A window holds its children, the last one in front.  It is drawn into the clip
    rectangles it gets from its parent less the windows in front of it and less its own
    children.  A window has decorations exactly when it has a title bar, which is what its
    constructors see to.  The pointers to the parents are the list of the ancestors. *)

From S2P Require Import Prelude UiDraw.


Module UiWindow.
Import UiRect UiContext UiText.

(** The classes: of the library, and of the desktop. *)
Inductive Class := BaseWindow | ButtonWindow (prev_mouse_state : bool) (active_color inactive_color : Z) | TextWin (tw : TextWindow)
  | DesktopWindow | TitlebarWindow | TaskbarWindow.

(** [addr] is the address of the window; [wfb] its pixels, if it has some. *)
Inductive Window := mkWindow { addr : Z; cls : Class; rect : Rect; border : Border; bg_color : Z; border_color : Z; internal : bool; is_titlebar : bool;
  active_child : option Z; wfb : option (list Z); titlebar : option Window; children : list Window }.

Definition no_decorations (w : Window) : bool := match titlebar w with Some _ => false | None => true end.
Definition titlebar_height (w : Window) : Z := match titlebar w with Some t => height (rect t) | None => 0 end.

(** ** Where a window is *)

Fixpoint pos_sum (parents : list Window) : Point :=
  match parents with
  | [] => mkPoint 0 0
  | p :: parents =>
      let pos := pos_sum parents in
      mkPoint (u32 (px pos + rx (rect p) + (if no_decorations p then 0 else left (border p))))
              (u32 (py pos + ry (rect p) + (if no_decorations p then 0 else titlebar_height p)))
  end.

Definition get_abs_pos_offset (parents : list Window) : Point :=
  let pos := pos_sum parents in
  match parents with
  | t :: p :: _ => if is_titlebar t then mkPoint (u32 (px pos - left (border p))) (u32 (py pos - height (rect t))) else pos
  | _ => pos
  end.

Definition get_abs_rect (parents : list Window) (w : Window) : Rect :=
  let offset := get_abs_pos_offset parents in
  mkRect (u32 (rx (rect w) + px offset)) (u32 (ry (rect w) + py offset)) (width (rect w)) (height (rect w)).

(** With the decorations. *)
Definition outer_rect (parents : list Window) (w : Window) : Rect :=
  let r := get_abs_rect parents w in
  if no_decorations w then r
  else mkRect (rx r) (ry r) (u32 (width r + left (border w) + right (border w))) (u32 (height r + titlebar_height w + bottom (border w))).

(** ** Drawing *)

(** The virtual [draw]. *)
Definition draw_calls (w : Window) : option (list Paint) :=
  match cls w with
  | TextWin tw => text_calls tw (bg_color w) (rect w)
  | _ => Some [Fill (rect w) (bg_color w)]
  end.

Definition draw (w : Window) (c : Context) : option Context := calls ← draw_calls w; for_each calls paint c.

Fixpoint draw_decorations_generic (w : Window) (c : Context) : option Context :=
  c ← draw w c;
  (fix draw_children (l : list Window) (c : Context) : option Context :=
     match l with
     | [] => Some c
     | ch :: l => c ← draw_decorations_generic ch c; draw_children l c
     end) (children w) c.

Definition border_calls (w : Window) : list Paint :=
  let th := titlebar_height w in
  [Fill (mkRect 0 th (left (border w)) (height (rect w))) (border_color w);
   Fill (mkRect 0 (u32 (th + height (rect w))) (u32 (left (border w) + width (rect w) + right (border w))) (bottom (border w))) (border_color w);
   Fill (mkRect (u32 (left (border w) + width (rect w))) th (right (border w)) (height (rect w))) (border_color w)].

Definition draw_decorations (w t : Window) (c : Context) : option Context :=
  c ← draw_decorations_generic t c;
  for_each (border_calls w) paint c.

(** The clip rectangles of a root window: the dirty ones, each cut out of the earlier ones. *)
Fixpoint dirty_clip (dirty clip : list Rect) : option (list Rect) :=
  match dirty with
  | [] => Some clip
  | d :: dirty => clip ← subtract_rects d clip; dirty_clip dirty (clip ++ [d])
  end.

(** What a window paints itself, at its place. *)
Definition draw_self (w : Window) (parents : list Window) (c : Context) : option Context :=
  let pos := get_abs_pos_offset parents in
  c ← (match titlebar w with
       | Some t =>
           c ← draw_decorations w t (set_off (u32 (px pos + rx (rect w))) (u32 (py pos + ry (rect w))) c);
           Some (set_off (u32 (px pos + left (border w))) (u32 (py pos + height (rect t))) c)
       | None => Some (set_off (px pos) (py pos) c)
       end);
  match wfb w with
  | Some pixels => draw_bitmap pixels (rx (rect w)) (ry (rect w)) (width (rect w)) (height (rect w)) c
  | None => draw w c
  end.

(** A loop over the children; each is told which ones come after it. *)
Definition walk (f : Window -> list Window -> Context -> option Context) : list Window -> Context -> option Context :=
  fix go l c := match l with
                | [] => Some c
                | ch :: l => c ← f ch l c; go l c
                end.

(** [above] are the children of the parent that come after this one. *)
Definition start_clip (parents above : list Window) (parent_clip_rects dirty : list Rect) : option (list Rect) :=
  match parents with
  | [] => dirty_clip dirty parent_clip_rects
  | _ => subtract_each (map (outer_rect parents) above) parent_clip_rects
  end.

Fixpoint draw_generic (w : Window) (parents above : list Window) (parent_clip_rects : list Rect) (c : Context) : option Context :=
  let c := clear_clip_rects c in
  new_parent_rects ← start_clip parents above parent_clip_rects (dirty_rects c);
  clip ← subtract_each (map (outer_rect (w :: parents)) (children w)) new_parent_rects;
  c ← for_each clip add_clip_rect c;
  c ← draw_self w parents c;
  walk (fun ch l c => draw_generic ch (w :: parents) l new_parent_rects c) (children w) c.

Definition add_child (child w : Window) : Window :=
  mkWindow (addr w) (cls w) (rect w) (border w) (bg_color w) (border_color w) (internal w) (is_titlebar w) (active_child w) (wfb w) (titlebar w) (children w ++ [child]).

(** ** What is to be seen *)

(** The colour of a pixel after some calls, the last one that has it. *)
Definition shade1 (ox oy : Z) (p : Paint) (X Y : Z) : option Z :=
  match p with
  | Fill r color => if decide (In_rect (mkRect (rx r + ox) (ry r + oy) (width r) (height r)) X Y) then Some color else None
  | Bitmap pixels x y w h => sample pixels (mkRect (ox + x) (oy + y) w h) X Y
  end.
Fixpoint shade (ox oy : Z) (ps : list Paint) (X Y : Z) : option Z :=
  match ps with
  | [] => None
  | p :: ps => over (shade ox oy ps) (shade1 ox oy p) X Y
  end.

Definition paint_ok (ox oy : Z) (p : Paint) : Prop :=
  match p with
  | Fill r _ => ok (mkRect (rx r + ox) (ry r + oy) (width r) (height r))
  | Bitmap pixels x y w h => ok (mkRect (ox + x) (oy + y) w h) /\ bitmap_ok pixels w h
  end.

(** The calls of a title bar, and of the contents of a window. *)
Fixpoint tree_calls (w : Window) : option (list Paint) :=
  own ← draw_calls w;
  rest ← (fix go (l : list Window) : option (list Paint) :=
            match l with
            | [] => Some []
            | ch :: l => a ← tree_calls ch; b ← go l; Some (a ++ b)
            end) (children w);
  Some (own ++ rest).

Definition content_calls (w : Window) : option (list Paint) :=
  match wfb w with
  | Some pixels => Some [Bitmap pixels (rx (rect w)) (ry (rect w)) (width (rect w)) (height (rect w))]
  | None => draw_calls w
  end.

(** The pixels of the window itself. *)
Definition self_colour (w : Window) (parents : list Window) (X Y : Z) : option Z :=
  let pos := get_abs_pos_offset parents in
  match titlebar w with
  | Some t =>
      over (shade (u32 (px pos + left (border w))) (u32 (py pos + height (rect t))) (default [] (content_calls w)))
        (shade (u32 (px pos + rx (rect w))) (u32 (py pos + ry (rect w))) (default [] (tree_calls t) ++ border_calls w)) X Y
  | None => shade (px pos) (py pos) (default [] (content_calls w)) X Y
  end.

(** From the front to the back: the first child that shows something at the pixel, or is
    there without showing anything; behind the children the window itself. *)
Definition front (f : Window -> option Z) (outer : Window -> Rect) (X Y : Z) : list Window -> option (option Z) :=
  fix go l := match l with
              | [] => None
              | ch :: l =>
                  match go l with
                  | Some r => Some r
                  | None =>
                      match f ch with
                      | Some c => Some (Some c)
                      | None => if decide (In_rect (outer ch) X Y) then Some None else None
                      end
                  end
              end.

Fixpoint colour (w : Window) (parents : list Window) (X Y : Z) : option Z :=
  match front (fun ch => colour ch (w :: parents) X Y) (outer_rect (w :: parents)) X Y (children w) with
  | Some r => r
  | None => self_colour w parents X Y
  end.

End UiWindow.

(** * A drawn tree of windows shows what is in front

    The drawing of window.cpp goes from the back to the front and cuts clip rectangles;
    [UiWindow.colour] looks at one pixel from the front to the back.  Both agree. *)

Module UiPaint.
Import UiRect UiContext UiText UiWindow.

Lemma window_tree_ind (P : Window -> Prop) : (forall w, Forall P (children w) -> P w) -> forall w, P w.
Proof.
  intros H. fix IH 1. intros w. apply H. destruct w as [? ? ? ? ? ? ? ? ? ? ? l]. cbn [children].
  induction l as [|ch l IHl]; constructor; [apply IH|apply IHl].
Qed.

Lemma for_each_app {A B} (l1 l2 : list B) (body : B -> A -> option A) a : for_each (l1 ++ l2) body a = (a ← for_each l1 body a; for_each l2 body a).
Proof. revert a. induction l1 as [|b l1 IH]; intros a; cbn [app for_each]; [done|]. destruct (body b a); cbn [mbind option_bind]; [apply IH|done]. Qed.

(** Everything but the frame buffer, the offsets and the clip rectangles. *)
Definition same_ctx (c c' : Context) : Prop :=
  pitch_32 c' = pitch_32 c /\ cwidth c' = cwidth c /\ cheight c' = cheight c /\ dirty_rects c' = dirty_rects c /\ sub_rects c' = sub_rects c.
Lemma same_ctx_refl c : same_ctx c c.
Proof. done. Qed.
Lemma same_ctx_trans c1 c2 c3 : same_ctx c1 c2 -> same_ctx c2 c3 -> same_ctx c1 c3.
Proof. unfold same_ctx. intuition congruence. Qed.

Lemma Screen_same c c' : Screen c -> same_ctx c c' -> length (fb c') = length (fb c) -> Screen c'.
Proof. intros [S1 S2 S3 S4] (E1 & E2 & E3 & _) El. split; rewrite ?E1, ?E2, ?E3, ?El; done. Qed.

(** A frame buffer painted by [p]. *)
Definition shows (c c' : Context) (p : Z -> Z -> option Z) : Prop := same_ctx c c' /\ paints (pitch_32 c) p (fb c) (fb c').

Lemma shows_trans c1 c2 c3 p q : shows c1 c2 p -> shows c2 c3 q -> shows c1 c3 (over q p).
Proof. intros [S1 P1] [S2 P2]. split; [by eapply same_ctx_trans|]. rewrite (proj1 S1) in P2. by eapply paints_trans. Qed.
Lemma shows_ext c c' p q : (forall X Y, p X Y = q X Y) -> shows c c' p -> shows c c' q.
Proof. intros E [S P]. split; [done|]. eapply paints_ext; [|exact P]. intros. apply E. Qed.
Lemma shows_screen c c' p : Screen c -> shows c c' p -> Screen c'.
Proof. intros Hs [S [L _]]. by eapply Screen_same. Qed.

Definition masked (P : Z -> Z -> Prop) `{forall X Y, Decision (P X Y)} (p : Z -> Z -> option Z) (X Y : Z) : option Z := if decide (P X Y) then p X Y else None.

(** ** Calls *)

Lemma draw_bitmap_paints c pixels x y w h : Screen c -> Clipped c -> ok (mkRect (x_off c + x) (y_off c + y) w h) -> bitmap_ok pixels w h ->
  exists f', draw_bitmap pixels x y w h c = Some (set_fb f' c) /\
    paints (pitch_32 c) (masked (covers (clip_rects c)) (sample pixels (mkRect (x_off c + x) (y_off c + y) w h))) (fb c) f'.
Proof.
  intros Hs Hcl Hr Hb. unfold draw_bitmap. rewrite !u32_small by (unfold ok in Hr; cbn [rx ry width height] in Hr; lia).
  set (r := mkRect (x_off c + x) (y_off c + y) w h) in *. destruct (clips_paint c (blit_clipped pixels r w (pitch_32 c)) (sample pixels r) Hcl) as (f' & -> & Hf).
  - intros clip f Hk Hw Hl. by apply (blit_clipped_paints c Hs pixels r).
  - by exists f'.
Qed.

Lemma calls_paint calls : forall c, Screen c -> Clipped c -> Forall (paint_ok (x_off c) (y_off c)) calls ->
  exists f', for_each calls paint c = Some (set_fb f' c) /\ paints (pitch_32 c) (masked (covers (clip_rects c)) (shade (x_off c) (y_off c) calls)) (fb c) f'.
Proof.
  induction calls as [|p calls IH]; intros c Hs Hcl Hok; cbn [for_each].
  - exists (fb c). split; [by destruct c|]. apply paints_none. intros X Y. unfold masked. by case_decide.
  - apply Forall_cons in Hok as [Hp Hok]. assert (H1 : exists f1, paint p c = Some (set_fb f1 c) /\ paints (pitch_32 c) (masked (covers (clip_rects c)) (shade1 (x_off c) (y_off c) p)) (fb c) f1).
    { destruct p as [r color|pixels x y w h]; cbn [paint paint_ok shade1] in *; [exact (draw_filled_rect_paints c Hs r color Hcl Hp)|destruct Hp as [Hp1 Hp2]; exact (draw_bitmap_paints c pixels x y w h Hs Hcl Hp1 Hp2)]. }
    destruct H1 as (f1 & -> & Hf1). cbn [mbind option_bind]. destruct (IH (set_fb f1 c)) as (f2 & E & Hf2); [|exact Hcl|exact Hok|].
    + eapply Screen_same; [exact Hs|done|]. apply Hf1.
    + exists f2. split; [exact E|]. eapply paints_ext; [|exact (paints_trans _ _ _ _ _ _ Hf1 Hf2)]. intros X Y _ _. unfold over, masked. cbn [set_fb clip_rects x_off y_off shade]. unfold over. by case_decide.
Qed.

Lemma shade_app ox oy l1 l2 X Y : shade ox oy (l1 ++ l2) X Y = over (shade ox oy l2) (shade ox oy l1) X Y.
Proof. induction l1 as [|p l1 IH]; cbn [app shade]; unfold over in *; [by destruct (shade ox oy l2 X Y)|]. rewrite IH. by destruct (shade ox oy l2 X Y). Qed.

Lemma titlebar_calls w : forall c calls, tree_calls w = Some calls -> draw_decorations_generic w c = for_each calls paint c.
Proof.
  induction w as [w IH] using window_tree_ind. intros c calls H. destruct w as [ad cl re bo bg bc int ti ac wf tb chs]. cbn [tree_calls draw_decorations_generic children] in *.
  set (w := mkWindow _ _ _ _ _ _ _ _ _ _ _ _) in *. unfold draw. apply bind_Some in H as (own & -> & H). apply bind_Some in H as (rest & Er & H). injection H as <-. cbn [mbind option_bind]. rewrite for_each_app.
  destruct (for_each own paint c) as [c1|]; [|done]. cbn [mbind option_bind]. clear w. revert rest c1 Er IH. induction chs as [|ch chs IHl]; intros rest c1 Er IH; [by injection Er as <-|].
  apply Forall_cons in IH as [Hch Hchs]. apply bind_Some in Er as (a & Ea & Er). apply bind_Some in Er as (b & Eb & Er). injection Er as <-. rewrite for_each_app, (Hch c1 a Ea). destruct (for_each a paint c1) as [c2|]; [|done].
  cbn [mbind option_bind]. by apply IHl.
Qed.

(** ** One window *)

(** The offsets of the decorations and of the contents. *)
Definition frame_off (w : Window) (parents : list Window) : Point :=
  let pos := get_abs_pos_offset parents in mkPoint (u32 (px pos + rx (rect w))) (u32 (py pos + ry (rect w))).
Definition content_off (w : Window) (parents : list Window) : Point :=
  let pos := get_abs_pos_offset parents in
  match titlebar w with
  | Some t => mkPoint (u32 (px pos + left (border w))) (u32 (py pos + height (rect t)))
  | None => pos
  end.

(** Nothing that a window paints wraps around. *)
Definition self_ok (w : Window) (parents : list Window) : Prop :=
  (exists calls, content_calls w = Some calls /\ Forall (paint_ok (px (content_off w parents)) (py (content_off w parents))) calls) /\
  match titlebar w with
  | Some t => exists calls, tree_calls t = Some calls /\ Forall (paint_ok (px (frame_off w parents)) (py (frame_off w parents))) (calls ++ border_calls w)
  | None => True
  end.

Lemma content_run w calls c : content_calls w = Some calls ->
  match wfb w with Some pixels => draw_bitmap pixels (rx (rect w)) (ry (rect w)) (width (rect w)) (height (rect w)) c | None => draw w c end = for_each calls paint c.
Proof.
  unfold content_calls, draw. destruct (wfb w); [|by intros ->]. intros H. injection H as <-. cbn [for_each paint]. by destruct (draw_bitmap _ _ _ _ _ c).
Qed.

Lemma draw_self_shows w parents c : Screen c -> Clipped c -> self_ok w parents ->
  exists c', draw_self w parents c = Some c' /\ shows c c' (masked (covers (clip_rects c)) (self_colour w parents)).
Proof.
  intros Hs Hcl [(calls & Ec & Hok) Ht]. unfold draw_self, self_colour. unfold content_off, frame_off in *. destruct (titlebar w) as [t|].
  - destruct Ht as (tcalls & Et & Htok). set (c0 := set_off _ _ c). unfold draw_decorations. rewrite (titlebar_calls t c0 tcalls Et).
    assert (Hs0 : Screen c0) by (by eapply Screen_same). destruct (calls_paint (tcalls ++ border_calls w) c0 Hs0 Hcl Htok) as (f1 & E1 & P1). rewrite for_each_app in E1.
    destruct (for_each tcalls paint c0) as [ct|]; [|done]. cbn [mbind option_bind] in *. rewrite E1. cbn [mbind option_bind]. rewrite (content_run w calls _ Ec).
    set (c1 := set_off _ _ (set_fb f1 c0)). assert (Hs1 : Screen c1) by (eapply Screen_same; [exact Hs|done|apply P1]).
    destruct (calls_paint calls c1 Hs1 Hcl Hok) as (f2 & E2 & P2). exists (set_fb f2 c1). split; [exact E2|]. split; [done|]. rewrite Ec, Et.
    eapply paints_ext; [|exact (paints_trans _ _ _ _ _ _ P1 P2)]. intros X Y _ _. unfold over, masked. cbn [clip_rects set_off set_fb default c1 c0]. unfold over. by case_decide.
  - cbn [mbind option_bind]. rewrite (content_run w calls _ Ec). set (c1 := set_off _ _ c). assert (Hs1 : Screen c1) by (by eapply Screen_same).
    destruct (calls_paint calls c1 Hs1 Hcl Hok) as (f2 & E2 & P2). exists (set_fb f2 c1). split; [exact E2|]. split; [done|]. rewrite Ec. exact P2.
Qed.

(** ** Clip rectangles *)

Lemma parts_apart l1 l2 k1 k2 : Forall ok l1 -> Forall ok l2 -> Forall ok k1 -> Forall ok k2 -> parts l1 k1 -> parts l2 k2 ->
  Forall (fun a => Forall (fun b => intersects a b = false) k2) k1 -> Forall (fun a => Forall (fun b => intersects a b = false) l2) l1.
Proof.
  intros O1 O2 Q1 Q2 P1 P2 H. unfold parts in *. rewrite !Forall_forall in *. setoid_rewrite Exists_exists in P1. setoid_rewrite Exists_exists in P2.
  intros a Ha. apply Forall_forall. intros b Hb. destruct (P1 a Ha) as (r & Hr & Hwr). destruct (P2 b Hb) as (t & Ht & Hwt). specialize (H r Hr). rewrite Forall_forall in H.
  apply (within_apart a r); [by apply O1|by apply Q1|by apply O2|done|]. rewrite intersects_sym. apply (within_apart b t); [by apply O2|by apply Q2|by apply Q1|done|]. rewrite intersects_sym. by apply H.
Qed.

Lemma add_clips l : forall c, Forall ok l -> Apart l -> Forall ok (sub_rects c) ->
  exists l', for_each l add_clip_rect c = Some (set_clip (clip_rects c ++ l') c) /\ Forall ok l' /\ Apart l' /\ parts l' l /\
    forall X Y, covers l' X Y <-> covers l X Y /\ ~ covers (sub_rects c) X Y.
Proof.
  induction l as [|r l IH]; intros c Hl Ha Hs; cbn [for_each].
  - exists []. split_and!; [destruct c; cbn; by rewrite app_nil_r|done|done|constructor|]. intros X Y. rewrite !covers_nil. tauto.
  - apply Forall_cons in Hl as [Hr Hl]. destruct Ha as [Har Ha].
    destruct (subtract_each_ok (sub_rects c) Hs [r] (Forall_cons_2 _ _ _ Hr (Forall_nil_2 _))) as (l1 & E1 & A1 & A2 & A3 & A4); [done|].
    assert (Ea : add_clip_rect r c = Some (set_clip (clip_rects c ++ l1) c)) by (unfold add_clip_rect; by rewrite E1). rewrite Ea. cbn [mbind option_bind].
    destruct (IH (set_clip (clip_rects c ++ l1) c) Hl Ha Hs) as (l2 & -> & B1 & B2 & B3 & B4). exists (l1 ++ l2). cbn [set_clip clip_rects sub_rects] in *. rewrite <- app_assoc. split; [done|].
    split; [by apply Forall_app|]. split; [apply Apart_app; split_and!; [done|done|]|split].
    + apply (parts_apart l1 l2 [r] l); try done; [by constructor|]. by constructor.
    + unfold parts. apply Forall_app. split; [eapply Forall_impl; [exact A3|]; intros a [Hw|Hn]%Exists_cons; [by left|by apply Exists_nil in Hn]|].
      eapply Forall_impl; [exact B3|]. intros a Hx. by right.
    + intros X Y. rewrite covers_app, A4, B4, !covers_cons, covers_nil. tauto.
Qed.

Lemma dirty_clip_ok dirty : Forall ok dirty -> forall clip, Forall ok clip -> Apart clip ->
  exists l, dirty_clip dirty clip = Some l /\ Forall ok l /\ Apart l /\ parts l (clip ++ dirty) /\ forall X Y, covers l X Y <-> covers clip X Y \/ covers dirty X Y.
Proof.
  induction 1 as [|d dirty Hd _ IH]; intros clip Hl Ha; cbn [dirty_clip].
  - exists clip. rewrite app_nil_r. split_and!; [done|done|done|apply parts_refl|]. intros X Y. rewrite covers_nil. tauto.
  - destruct (subtract_rects_ok d clip Hd Hl Ha) as (l1 & -> & A1 & A2 & A3 & A4 & A5). cbn [mbind option_bind]. destruct (IH (l1 ++ [d])) as (l2 & E & B1 & B2 & B3 & B4).
    + apply Forall_app. split; [done|by constructor].
    + apply Apart_app. split_and!; [done|by repeat constructor|]. eapply Forall_impl; [exact A3|]. intros a H. by constructor.
    + exists l2. split_and!; [exact E|done|done| |].
      * eapply parts_trans; [exact B3|]. rewrite <- app_assoc. unfold parts. apply Forall_app. split; [|apply Forall_forall; intros a Hin; apply Exists_exists; exists a; split; [set_solver|apply within_refl]].
        eapply Forall_impl; [exact A4|]. intros a Hx. apply Exists_app. by left.
      * intros X Y. rewrite B4, covers_app, A5, !covers_cons, covers_nil. destruct (decide (In_rect d X Y)); tauto.
Qed.

(** ** Trees *)

Definition all_children (P : Window -> Prop) : list Window -> Prop := fix go l := match l with [] => True | ch :: l => P ch /\ go l end.
Fixpoint Good (w : Window) (parents : list Window) : Prop :=
  self_ok w parents /\ all_children (fun ch => ok (outer_rect (w :: parents) ch) /\ Good ch (w :: parents)) (children w).

Lemma all_children_Forall P l : all_children P l <-> Forall P l.
Proof. induction l as [|ch l IH]; cbn; [by rewrite Forall_nil|]. by rewrite Forall_cons, IH. Qed.

Lemma Good_unfold w parents : Good w parents <-> self_ok w parents /\ Forall (fun ch => ok (outer_rect (w :: parents) ch) /\ Good ch (w :: parents)) (children w).
Proof. destruct w. cbn [Good]. by rewrite all_children_Forall. Qed.
Lemma colour_unfold w parents X Y : colour w parents X Y =
  match front (fun ch => colour ch (w :: parents) X Y) (outer_rect (w :: parents)) X Y (children w) with Some r => r | None => self_colour w parents X Y end.
Proof. by destruct w. Qed.
Lemma draw_generic_unfold w parents above pclip c : draw_generic w parents above pclip c =
  (let c := clear_clip_rects c in
   new_parent_rects ← start_clip parents above pclip (dirty_rects c);
   clip ← subtract_each (map (outer_rect (w :: parents)) (children w)) new_parent_rects;
   c ← for_each clip add_clip_rect c;
   c ← draw_self w parents c;
   walk (fun ch l c => draw_generic ch (w :: parents) l new_parent_rects c) (children w) c).
Proof. by destruct w. Qed.

Lemma front_none f outer X Y l : front f outer X Y l = None -> ~ covers (map outer l) X Y.
Proof.
  induction l as [|ch l IH]; cbn [front map]; [intros _ H; by apply covers_nil in H|]. rewrite covers_cons. destruct (front f outer X Y l); [done|]. destruct (f ch); [done|]. case_decide; [done|]. intros _. specialize (IH eq_refl). tauto.
Qed.
Lemma front_hidden f outer X Y l : front f outer X Y l = Some None -> covers (map outer l) X Y.
Proof.
  induction l as [|ch l IH]; cbn [front map]; [done|]. rewrite covers_cons. destruct (front f outer X Y l) as [r|]; [intros H; injection H as ->; right; by apply IH|]. destruct (f ch); [done|]. case_decide; [by left|done].
Qed.

Definition clip_good (c : Context) (l : list Rect) : Prop := Forall ok l /\ Apart l /\ Forall (fun r => within r (screen_rect c)) l.

Lemma clip_good_same c c' l : same_ctx c c' -> clip_good c l -> clip_good c' l.
Proof. intros (_ & E1 & E2 & _) H. unfold clip_good, screen_rect in *. by rewrite E1, E2. Qed.

Lemma subtract_each_good c ss l : Forall ok ss -> clip_good c l ->
  exists l', subtract_each ss l = Some l' /\ clip_good c l' /\ forall X Y, covers l' X Y <-> covers l X Y /\ ~ covers ss X Y.
Proof.
  intros Hss (H1 & H2 & H3). destruct (subtract_each_ok ss Hss l H1 H2) as (l' & E & A1 & A2 & A3 & A4). exists l'. split_and!; [done| |done]. split_and!; [done|done|by eapply parts_within].
Qed.

Definition in_view (l sub : list Rect) (X Y : Z) : Prop := covers l X Y /\ ~ covers sub X Y.
#[local] Instance in_view_dec l sub X Y : Decision (in_view l sub X Y).
Proof. unfold in_view. apply _. Defined.

(** What the children [l] show, in front of the rest. *)
Definition shown (o : option (option Z)) : option Z := match o with Some (Some c) => Some c | _ => None end.

Definition tree_shows (w : Window) : Prop := forall parents above pclip npr c, Screen c -> Good w parents -> Forall ok (sub_rects c) ->
  start_clip parents above pclip (dirty_rects c) = Some npr -> clip_good c npr ->
  exists c', draw_generic w parents above pclip c = Some c' /\ shows c c' (masked (in_view npr (sub_rects c)) (colour w parents)).

Lemma children_show w parents npr l : Forall tree_shows l -> Forall (fun ch => ok (outer_rect (w :: parents) ch) /\ Good ch (w :: parents)) l -> forall c, Screen c -> Forall ok (sub_rects c) -> clip_good c npr ->
  exists c', walk (fun ch l c => draw_generic ch (w :: parents) l npr c) l c = Some c' /\
    shows c c' (masked (in_view npr (sub_rects c)) (fun X Y => shown (front (fun ch => colour ch (w :: parents) X Y) (outer_rect (w :: parents)) X Y l))).
Proof.
  intros Ht Hg. induction l as [|ch l IH]; intros c Hs Hsub Hn; cbn [walk].
  - exists c. split; [done|]. split; [done|]. apply paints_none. intros X Y. unfold masked. by case_decide.
  - apply Forall_cons in Ht as [Htc Ht]. apply Forall_cons in Hg as [[_ Hgc] Hg]. assert (Hol : Forall ok (map (outer_rect (w :: parents)) l)) by (apply Forall_map; eapply Forall_impl; [exact Hg|]; by intros ch' []).
    destruct (subtract_each_good c _ npr Hol Hn) as (npr' & En & Hn' & Hcov). destruct (Htc (w :: parents) l npr npr' c Hs Hgc Hsub En Hn') as (c1 & -> & H1). cbn [mbind option_bind].
    destruct (IH Ht Hg c1) as (c2 & E2 & H2); [by eapply shows_screen|by destruct H1 as [(_ & _ & _ & _ & ->) _]|by eapply clip_good_same, Hn; apply H1|].
    exists c2. split; [exact E2|]. eapply shows_ext; [|exact (shows_trans _ _ _ _ _ H1 H2)]. intros X Y. unfold over, masked. destruct H1 as [(_ & _ & _ & _ & ->) _]. cbn [front].
    assert (Hv : in_view npr' (sub_rects c) X Y <-> in_view npr (sub_rects c) X Y /\ ~ covers (map (outer_rect (w :: parents)) l) X Y) by (unfold in_view; rewrite Hcov; tauto).
    pose proof (front_none (fun ch => colour ch (w :: parents) X Y) (outer_rect (w :: parents)) X Y l) as F1.
    pose proof (front_hidden (fun ch => colour ch (w :: parents) X Y) (outer_rect (w :: parents)) X Y l) as F2.
    destruct (front _ _ X Y l) as [[col|]|]; cbn [shown].
    + repeat case_decide; done || tauto.
    + specialize (F2 eq_refl). repeat case_decide; done || tauto.
    + specialize (F1 eq_refl). destruct (colour ch (w :: parents) X Y); repeat case_decide; cbn [shown]; done || tauto.
Qed.

Lemma draw_generic_shows w : tree_shows w.
Proof.
  induction w as [w IH] using window_tree_ind. intros parents above pclip npr c Hs Hg Hsub Estart Hn. apply Good_unfold in Hg as [Hself Hg]. rewrite draw_generic_unfold. cbv zeta.
  change (dirty_rects (clear_clip_rects c)) with (dirty_rects c). rewrite Estart. cbn [mbind option_bind].
  assert (Hol : Forall ok (map (outer_rect (w :: parents)) (children w))) by (apply Forall_map; eapply Forall_impl; [exact Hg|]; by intros ch' []).
  destruct (subtract_each_good c _ npr Hol Hn) as (clip & -> & (K1 & K2 & K3) & Hcov). cbn [mbind option_bind].
  destruct (add_clips clip (clear_clip_rects c) K1 K2 Hsub) as (l' & -> & A1 & A2 & A3 & A4). cbn [mbind option_bind clear_clip_rects set_clip clip_rects app sub_rects] in *.
  set (c1 := set_clip l' (set_clip [] c)). assert (Hcl : Clipped c1) by (split_and!; [done|done|by eapply parts_within]).
  assert (Hs1 : Screen c1) by (by eapply Screen_same). destruct (draw_self_shows w parents c1 Hs1 Hcl Hself) as (c2 & E2 & H2). unfold c1 in E2 at 1. change (clear_clip_rects c) with (set_clip [] c). rewrite E2. cbn [mbind option_bind].
  assert (H2' : shows c c2 (masked (covers l') (self_colour w parents))) by exact H2. pose proof (proj1 H2') as (_ & _ & _ & _ & Esub).
  destruct (children_show w parents npr (children w) IH Hg c2) as (c3 & E3 & H3); [by eapply shows_screen|by rewrite Esub|by eapply clip_good_same, Hn; apply H2'|].
  exists c3. split; [exact E3|]. eapply shows_ext; [|exact (shows_trans _ _ _ _ _ H2' H3)]. intros X Y. unfold over, masked. rewrite Esub, colour_unfold.
  assert (Hv : covers l' X Y <-> in_view npr (sub_rects c) X Y /\ ~ covers (map (outer_rect (w :: parents)) (children w)) X Y) by (unfold in_view; rewrite A4, Hcov; tauto).
  pose proof (front_none (fun ch => colour ch (w :: parents) X Y) (outer_rect (w :: parents)) X Y (children w)) as F1.
  pose proof (front_hidden (fun ch => colour ch (w :: parents) X Y) (outer_rect (w :: parents)) X Y (children w)) as F2.
  destruct (front _ _ X Y (children w)) as [[col|]|]; cbn [shown]; [| specialize (F2 eq_refl)|specialize (F1 eq_refl)]; repeat case_decide; done || tauto.
Qed.

End UiPaint.

(** * Windows that stay inside their frame

    A tidy window paints only inside its own rectangle, and so do its children, wherever
    it is put on the screen. *)

Module UiTidy.
Import UiRect UiContext UiText UiWindow UiPaint.

Definition call_rect (p : Paint) : Rect := match p with Fill r _ => r | Bitmap _ x y w h => mkRect x y w h end.
Definition call_in (R : Rect) (p : Paint) : Prop :=
  0 <= width (call_rect p) /\ 0 <= height (call_rect p) /\ within (call_rect p) R /\ match p with Bitmap pixels _ _ w h => bitmap_ok pixels w h | _ => True end.

(** The width and height with decorations, and the place in the parent. *)
Definition outer_w (w : Window) : Z := width (rect w) + if no_decorations w then 0 else left (border w) + right (border w).
Definition outer_h (w : Window) : Z := height (rect w) + if no_decorations w then 0 else titlebar_height w + bottom (border w).
Definition outer0 (w : Window) : Rect := mkRect (rx (rect w)) (ry (rect w)) (outer_w w) (outer_h w).

Definition tidy_self (w : Window) : Prop :=
  is_titlebar w = false /\ 0 <= rx (rect w) /\ 0 <= ry (rect w) /\ 0 <= width (rect w) /\ 0 <= height (rect w) /\
  0 <= left (border w) /\ 0 <= right (border w) /\ 0 <= bottom (border w) /\ 0 <= titlebar_height w /\
  (exists calls, content_calls w = Some calls /\ Forall (call_in (rect w)) calls) /\
  match titlebar w with
  | Some t => exists calls, tree_calls t = Some calls /\ Forall (call_in (mkRect 0 0 (outer_w w) (outer_h w))) calls
  | None => True
  end.

Fixpoint Tidy (w : Window) : Prop :=
  tidy_self w /\ all_children (fun ch => within (outer0 ch) (mkRect 0 0 (width (rect w)) (height (rect w))) /\ Tidy ch) (children w).

Lemma Tidy_unfold w : Tidy w <-> tidy_self w /\ Forall (fun ch => within (outer0 ch) (mkRect 0 0 (width (rect w)) (height (rect w))) /\ Tidy ch) (children w).
Proof. destruct w. cbn [Tidy]. by rewrite all_children_Forall. Qed.

(** Ancestors that are not title bars. *)
Definition plain (parents : list Window) : Prop := Forall (fun p => is_titlebar p = false) parents.

Lemma plain_offset parents : plain parents -> get_abs_pos_offset parents = pos_sum parents.
Proof. intros H. unfold get_abs_pos_offset. destruct parents as [|t [|p ps]]; [done|done|]. apply Forall_cons in H as [-> _]. done. Qed.

Lemma pos_sum_fits parents : 0 <= px (pos_sum parents) < 2 ^ 32 /\ 0 <= py (pos_sum parents) < 2 ^ 32.
Proof. destruct parents as [|p ps]; cbn [pos_sum px py]; [lia|]. split; apply (wrap_bound 32); lia. Qed.

Lemma shade_in ox oy calls X Y col : shade ox oy calls X Y = Some col -> exists p, p ∈ calls /\ In_rect (mkRect (rx (call_rect p) + ox) (ry (call_rect p) + oy) (width (call_rect p)) (height (call_rect p))) X Y.
Proof.
  revert col. induction calls as [|p calls IH]; intros col; cbn [shade]; [done|]. unfold over. destruct (shade ox oy calls X Y) as [c|] eqn:E.
  - intros _. destruct (IH c eq_refl) as (q & Hq & Hin). exists q. split; [by apply list_elem_of_further|done].
  - intros H. exists p. split; [apply list_elem_of_here|]. destruct p as [r color|pixels x y w h]; cbn [shade1 call_rect rx ry width height] in *; [by case_decide|].
    unfold sample in H. case_decide as Hin; [|done]. unfold In_rect in *. cbn [rx ry width height] in *. lia.
Qed.

Lemma border_calls_in w : tidy_self w -> no_decorations w = false -> outer_w w < 2 ^ 32 -> outer_h w < 2 ^ 32 -> Forall (call_in (mkRect 0 0 (outer_w w) (outer_h w))) (border_calls w).
Proof.
  intros (_ & H1 & H2 & H3 & H4 & H5 & H6 & H7 & H8 & _) Hd Hw Hh. unfold border_calls, outer_w, outer_h in *. rewrite Hd in *. rewrite !u32_small by lia.
  repeat constructor; unfold within; cbn [call_rect rx ry width height]; lia.
Qed.

Lemma calls_ok ox oy R calls : Forall (call_in R) calls -> 0 <= rx R + ox -> 0 <= ry R + oy -> rx R + width R + ox < 2 ^ 32 -> ry R + height R + oy < 2 ^ 32 -> Forall (paint_ok ox oy) calls.
Proof.
  intros H H1 H2 H3 H4. eapply Forall_impl; [exact H|]. intros p (P1 & P2 & P3 & P4). unfold within in P3. destruct p as [r c|px x y w h]; cbn [paint_ok call_rect] in *; unfold ok; cbn [rx ry width height] in *; [lia|].
  split; [lia|done].
Qed.

Lemma calls_inside ox oy R calls X Y col : Forall (call_in R) calls -> shade ox oy calls X Y = Some col -> In_rect (mkRect (rx R + ox) (ry R + oy) (width R) (height R)) X Y.
Proof.
  intros H (p & Hp & Hin)%shade_in. rewrite Forall_forall in H. destruct (H p Hp) as (_ & _ & Hw & _). unfold In_rect, within in *. cbn [rx ry width height] in *. lia.
Qed.

(** Room for a window at an offset. *)
Definition room (o : Point) (w : Window) : Prop := px o + rx (rect w) + outer_w w < 2 ^ 32 /\ py o + ry (rect w) + outer_h w < 2 ^ 32.

Lemma outer_rect_at w parents : tidy_self w -> plain parents -> room (pos_sum parents) w ->
  outer_rect parents w = mkRect (px (pos_sum parents) + rx (rect w)) (py (pos_sum parents) + ry (rect w)) (outer_w w) (outer_h w).
Proof.
  intros (_ & H1 & H2 & H3 & H4 & H5 & H6 & H7 & H8 & _) Hp [R1 R2]. pose proof (pos_sum_fits parents) as [P1 P2]. unfold outer_rect, get_abs_rect. rewrite plain_offset by done. unfold outer_w, outer_h in *.
  destruct (no_decorations w); cbn [rx ry width height]; rewrite !u32_small by lia; f_equal; lia.
Qed.

Lemma outer_ok w parents : tidy_self w -> plain parents -> room (pos_sum parents) w -> ok (outer_rect parents w).
Proof.
  intros Ht Hp Hr. rewrite outer_rect_at by done. pose proof (pos_sum_fits parents). destruct Ht as (_ & H1 & H2 & H3 & H4 & H5 & H6 & H7 & H8 & _). destruct Hr. unfold ok, outer_w, outer_h in *. cbn [rx ry width height].
  destruct (no_decorations w); lia.
Qed.

Lemma self_tidy w parents : tidy_self w -> plain parents -> room (pos_sum parents) w ->
  self_ok w parents /\ forall X Y col, self_colour w parents X Y = Some col -> In_rect (outer_rect parents w) X Y.
Proof.
  intros Ht Hp Hr. rewrite outer_rect_at by done. pose proof (pos_sum_fits parents) as [P1 P2]. pose proof (border_calls_in w Ht) as Hb. destruct Ht as (_ & H1 & H2 & H3 & H4 & H5 & H6 & H7 & H8 & (calls & Ec & Hc) & Htb). destruct Hr as [R1 R2].
  unfold self_ok, self_colour, content_off, frame_off. rewrite plain_offset by done. rewrite Ec. cbn [default id]. unfold outer_w, outer_h, no_decorations, titlebar_height in *. destruct (titlebar w) as [t|].
  - destruct Htb as (tc & Et & Htc). cbn [px py]. rewrite !u32_small by lia. specialize (Hb eq_refl ltac:(lia) ltac:(lia)). rewrite Et. cbn [default id]. split.
    + split; [exists calls; split; [done|]; eapply calls_ok; [exact Hc|lia..]|]. exists tc. split; [done|]. apply Forall_app. split; eapply calls_ok; [exact Htc| | | | |exact Hb| | | |]; cbn [rx ry width height]; lia.
    + intros X Y col. unfold over. destruct (shade (px (pos_sum parents) + left (border w)) (py (pos_sum parents) + height (rect t)) calls X Y) as [c|] eqn:E.
      * intros _. pose proof (calls_inside _ _ _ _ _ _ _ Hc E) as Hin. unfold In_rect in *. cbn [rx ry width height] in *. lia.
      * intros Hs. assert (Hin : Forall (call_in (mkRect 0 0 (width (rect w) + (left (border w) + right (border w))) (height (rect w) + (height (rect t) + bottom (border w))))) (tc ++ border_calls w)) by (by apply Forall_app).
        pose proof (calls_inside _ _ _ _ _ _ _ Hin Hs) as Hx. unfold In_rect in *. cbn [rx ry width height] in *. lia.
  - split; [split; [|done]; exists calls; split; [done|]; eapply calls_ok; [exact Hc|lia..]|]. intros X Y col E. pose proof (calls_inside _ _ _ _ _ _ _ Hc E) as Hin. unfold In_rect in *. cbn [rx ry width height] in *. lia.
Qed.

Lemma tidy_child w parents ch : tidy_self w -> plain parents -> room (pos_sum parents) w -> within (outer0 ch) (mkRect 0 0 (width (rect w)) (height (rect w))) ->
  plain (w :: parents) /\ room (pos_sum (w :: parents)) ch /\
  pos_sum (w :: parents) = mkPoint (px (pos_sum parents) + rx (rect w) + if no_decorations w then 0 else left (border w)) (py (pos_sum parents) + ry (rect w) + if no_decorations w then 0 else titlebar_height w).
Proof.
  intros Ht Hp Hr Hw. pose proof (pos_sum_fits parents) as [P1 P2]. destruct Ht as (H0 & H1 & H2 & H3 & H4 & H5 & H6 & H7 & H8 & _). destruct Hr as [R1 R2].
  assert (E : pos_sum (w :: parents) = mkPoint (px (pos_sum parents) + rx (rect w) + if no_decorations w then 0 else left (border w)) (py (pos_sum parents) + ry (rect w) + if no_decorations w then 0 else titlebar_height w)).
  { cbn [pos_sum]. unfold outer_w, outer_h in *. destruct (no_decorations w); rewrite !u32_small by lia; done. }
  split; [by constructor|]. split; [|done]. rewrite E. unfold room, within, outer0 in *. cbn [px py rx ry width height] in *. unfold outer_w, outer_h in *. destruct (no_decorations w), (no_decorations ch); lia.
Qed.

Lemma tidy_place w : Tidy w -> forall parents, plain parents -> room (pos_sum parents) w ->
  Good w parents /\ forall X Y col, colour w parents X Y = Some col -> In_rect (outer_rect parents w) X Y.
Proof.
  induction w as [w IH] using window_tree_ind. intros Ht parents Hp Hr. apply Tidy_unfold in Ht as [Hs Hch]. destruct (self_tidy w parents Hs Hp Hr) as [Hg Hin].
  assert (Hc : Forall (fun ch => ok (outer_rect (w :: parents) ch) /\ Good ch (w :: parents) /\
    (forall X Y, In_rect (outer_rect (w :: parents) ch) X Y -> In_rect (outer_rect parents w) X Y) /\
    forall X Y col, colour ch (w :: parents) X Y = Some col -> In_rect (outer_rect (w :: parents) ch) X Y) (children w)).
  { rewrite Forall_forall in *. intros ch Hm. destruct (Hch ch Hm) as [Hw Htc]. destruct (tidy_child w parents ch Hs Hp Hr Hw) as (Hp' & Hr' & Eo). pose proof (proj1 (proj1 (Tidy_unfold ch) Htc)) as Hsc.
    destruct (IH ch Hm Htc (w :: parents) Hp' Hr') as [Hgc Hcc]. split; [by apply outer_ok|]. split; [done|]. split; [|done]. intros X Y. rewrite !outer_rect_at by done. rewrite Eo.
    destruct Hs as (H0 & H1 & H2 & H3 & H4 & H5 & H6 & H7 & H8 & _). unfold In_rect, within, outer0 in *. cbn [px py rx ry width height] in *. unfold outer_w, outer_h in *. destruct (no_decorations w), (no_decorations ch); lia. }
  split.
  - apply Good_unfold. split; [done|]. eapply Forall_impl; [exact Hc|]. intros ch (? & ? & _). done.
  - intros X Y col. rewrite colour_unfold. destruct (front _ _ X Y (children w)) as [r|] eqn:Ef; [|apply Hin]. intros ->. clear - Hc Ef.
    induction Hc as [|ch l (_ & _ & Ho & Hcol) _ IHl]; cbn [front] in Ef; [done|]. destruct (front _ _ X Y l) as [r|]; [injection Ef as ->; by apply IHl|].
    destruct (colour ch (w :: parents) X Y) as [c|] eqn:Ec; [by eapply Ho, Hcol|]. by case_decide.
Qed.

End UiTidy.
