(* ===== verification/UiGui.v ===== *)
(** * The window system (src/libs/libui/src/gui.cpp)

    The roots with their trees of windows, the mouse and the keyboard.  A pointer to a
    window is its address, and following one that points to no window is [None].  What a
    window tells its program, and the callbacks of buttons, is output. *)

From S2P Require Import Prelude UiDraw UiWindow.


Module UiGui.
Import UiRect UiContext UiText UiWindow.

Record MouseState := mkMouse { pos : Point; left_pressed : bool; right_pressed : bool; middle_pressed : bool }.
Record KeyState := mkKey { code : nat; pressed : bool }.

Inductive Event := Clicked (w : Z) | Mouse (w x y : Z) (buttons : bool * bool * bool) | MouseLeave (w x y : Z) (buttons : bool * bool * bool) | Key (w : Z) (code : nat) (prev now : bool).

Record Gui := mkGui { root_windows : list Window; ctx : Context; mouse_state : MouseState; drag_x_off : Z; drag_y_off : Z; dragging : option Z;
  last_mouse_over : option Z; key_states : list bool; draw_cursor : bool; events : list Event }.

Definition set_roots (l : list Window) (g : Gui) : Gui :=
  mkGui l (ctx g) (mouse_state g) (drag_x_off g) (drag_y_off g) (dragging g) (last_mouse_over g) (key_states g) (draw_cursor g) (events g).
Definition set_ctx (c : Context) (g : Gui) : Gui :=
  mkGui (root_windows g) c (mouse_state g) (drag_x_off g) (drag_y_off g) (dragging g) (last_mouse_over g) (key_states g) (draw_cursor g) (events g).
Definition set_mouse (m : MouseState) (g : Gui) : Gui :=
  mkGui (root_windows g) (ctx g) m (drag_x_off g) (drag_y_off g) (dragging g) (last_mouse_over g) (key_states g) (draw_cursor g) (events g).
Definition set_drag (x y : Z) (d : option Z) (g : Gui) : Gui :=
  mkGui (root_windows g) (ctx g) (mouse_state g) x y d (last_mouse_over g) (key_states g) (draw_cursor g) (events g).
Definition set_dragging (d : option Z) (g : Gui) : Gui := set_drag (drag_x_off g) (drag_y_off g) d g.
Definition set_last (l : option Z) (g : Gui) : Gui :=
  mkGui (root_windows g) (ctx g) (mouse_state g) (drag_x_off g) (drag_y_off g) (dragging g) l (key_states g) (draw_cursor g) (events g).
Definition emit (e : Event) (g : Gui) : Gui :=
  mkGui (root_windows g) (ctx g) (mouse_state g) (drag_x_off g) (drag_y_off g) (dragging g) (last_mouse_over g) (key_states g) (draw_cursor g) (events g ++ [e]).
Definition mark (r : Rect) (g : Gui) : Gui := set_ctx (add_dirty r (ctx g)) g.
Definition mark_all (l : list Rect) (g : Gui) : Gui := set_ctx (set_dirty (dirty_rects (ctx g) ++ l) (ctx g)) g.

(** ** Windows by address *)

Definition set_cls (cl : Class) (bg : Z) (w : Window) : Window :=
  mkWindow (addr w) cl (rect w) (border w) bg (border_color w) (internal w) (is_titlebar w) (active_child w) (wfb w) (titlebar w) (children w).
Definition set_rect (r : Rect) (w : Window) : Window :=
  mkWindow (addr w) (cls w) r (border w) (bg_color w) (border_color w) (internal w) (is_titlebar w) (active_child w) (wfb w) (titlebar w) (children w).
Definition set_titlebar (t : option Window) (w : Window) : Window :=
  mkWindow (addr w) (cls w) (rect w) (border w) (bg_color w) (border_color w) (internal w) (is_titlebar w) (active_child w) (wfb w) t (children w).
Definition set_children (l : list Window) (a : option Z) (w : Window) : Window :=
  mkWindow (addr w) (cls w) (rect w) (border w) (bg_color w) (border_color w) (internal w) (is_titlebar w) a (wfb w) (titlebar w) l.
Definition set_pos (x y : Z) (w : Window) : Window := set_rect (mkRect x y (width (rect w)) (height (rect w))) w.

Definition first_of {A} (f : Window -> option A) : list Window -> option A := fix go l := match l with [] => None | w :: l => match f w with Some a => Some a | None => go l end end.

(** A window with its ancestors. *)
Fixpoint find_in (a : Z) (parents : list Window) (w : Window) : option (Window * list Window) :=
  if addr w =? a then Some (w, parents)
  else
    match titlebar w with
    | Some t => match find_in a (w :: parents) t with
                | Some r => Some r
                | None => first_of (find_in a (w :: parents)) (children w)
                end
    | None => first_of (find_in a (w :: parents)) (children w)
    end.
Definition find (a : Z) (roots : list Window) : option (Window * list Window) := first_of (find_in a []) roots.

Fixpoint update (a : Z) (f : Window -> Window) (w : Window) : Window :=
  if addr w =? a then f w
  else set_titlebar (match titlebar w with Some t => Some (update a f t) | None => None end) (set_children (map (update a f) (children w)) (active_child w) w).

(** ** Drawing *)

Definition CURSOR_COLOR : Z := 0xFF0000.
Definition mouse_rect (p : Point) : Rect := mkRect (px p) (py p) 10 10.

Definition gui_draw (g : Gui) : option Gui :=
  match dirty_rects (ctx g) with
  | [] => Some g
  | _ =>
      let m := mouse_rect (pos (mouse_state g)) in
      let c := if draw_cursor g then set_sub (sub_rects (ctx g) ++ [m]) (ctx g) else ctx g in
      c ← for_each (root_windows g) (fun w c => draw_generic w [] [] [] c) c;
      let c := set_off 0 0 c in
      c ← (if draw_cursor g then draw_filled_rect m CURSOR_COLOR (set_clip [mkRect 0 0 (cwidth c) (cheight c)] (clear_clip_rects (set_sub [] c))) else Some c);
      Some (set_ctx (set_dirty [] c) g)
  end.

(** ** The mouse *)

(** [ButtonWindow::handle_mouse]; the callback is output. *)
Definition button_handle_mouse (prev : bool) (act inact : Z) (w : Window) (parents : list Window) (ns : MouseState) (g : Gui) : Window * Gui :=
  if negb prev && left_pressed ns then (set_cls (ButtonWindow true act inact) act w, mark (get_abs_rect parents w) g)
  else if prev && negb (left_pressed ns) then (set_cls (ButtonWindow false act inact) inact w, mark (get_abs_rect parents w) (emit (Clicked (addr w)) g))
  else (w, g).

(** The position of the mouse as a program is told. *)
Definition told_pos (parents : list Window) (ns : MouseState) : Z * Z :=
  let offset := get_abs_pos_offset parents in (u32 (px (pos ns) - px offset), u32 (py (pos ns) - py offset)).

(** [DesktopWindow::handle_mouse] *)
Definition desktop_handle_mouse (w : Window) (parents : list Window) (ns : MouseState) (g : Gui) : Gui :=
  if internal w then g else emit (Mouse (addr w) (told_pos parents ns).1 (told_pos parents ns).2 (left_pressed ns, right_pressed ns, middle_pressed ns)) g.

(** The virtual [handle_mouse]. *)
Definition handle_mouse_class (w : Window) (parents : list Window) (ns : MouseState) (g : Gui) : bool * Window * Gui :=
  match cls w with
  | ButtonWindow prev act inact => let '(w, g) := button_handle_mouse prev act inact w parents ns g in (true, w, g)
  | DesktopWindow => (true, w, desktop_handle_mouse w parents ns g)
  | _ => (false, w, g)
  end.

Definition button_on_mouse_leave (prev : bool) (act inact : Z) (w : Window) (parents : list Window) (g : Gui) : Window * Gui :=
  if prev then (set_cls (ButtonWindow false act inact) inact w, mark (get_abs_rect parents w) g) else (w, g).
Definition desktop_on_mouse_leave (w : Window) (parents : list Window) (ns : MouseState) (g : Gui) : Gui :=
  if internal w then g else emit (MouseLeave (addr w) (told_pos parents ns).1 (told_pos parents ns).2 (left_pressed ns, right_pressed ns, middle_pressed ns)) g.

Definition on_mouse_leave (w : Window) (parents : list Window) (ns : MouseState) (g : Gui) : Window * Gui :=
  match cls w with
  | ButtonWindow prev act inact => button_on_mouse_leave prev act inact w parents g
  | DesktopWindow => (w, desktop_on_mouse_leave w parents ns g)
  | _ => (w, g)
  end.

(** Without the borders, and the title bar where the code looks for it. *)
Definition content_rect (w : Window) (parents : list Window) : Rect :=
  let abs_offset := get_abs_pos_offset parents in
  mkRect (u32 (rx (rect w) + px abs_offset + (if no_decorations w then 0 else left (border w))))
         (u32 (ry (rect w) + py abs_offset + (if no_decorations w then 0 else titlebar_height w))) (width (rect w)) (height (rect w)).
Definition bar_rect (w t : Window) (parents : list Window) : Rect :=
  let abs_offset := get_abs_pos_offset parents in
  mkRect (u32 (rx (rect w) + px abs_offset)) (u32 (ry (rect w) + py abs_offset)) (width (rect t)) (height (rect t)).

(** [Raised]: handled, and the window is to come to the front of its siblings. *)
Inductive outcome := Ignored | Handled | Raised.

(** The children from the last to the first, until one handles it: which one, if any. *)
Definition scan (f : Window -> Gui -> option (outcome * Window * Gui)) : list Window -> Gui -> option (list Window * Gui * option (nat * outcome)) :=
  fix go l g := match l with
                | [] => Some ([], g, None)
                | ch :: l =>
                    '(l, g, hit) ← go l g;
                    match hit with
                    | Some (i, r) => Some (ch :: l, g, Some (S i, r))
                    | None => '(r, ch, g) ← f ch g; Some (ch :: l, g, match r with Ignored => None | _ => Some (0%nat, r) end)
                    end
                end.

(** What becomes of a window whose child at [i] has handled it; the focus goes to the window
    that is at [i] afterwards. *)
Definition child_handled (w : Window) (chs : list Window) (i : nat) (r : outcome) (ns : MouseState) : option Window :=
  ch ← chs !! i;
  let '(chs, act) := match r with Raised => (delete i chs ++ [ch], Some (addr ch)) | _ => (chs, active_child w) end in
  if left_pressed ns then ch ← chs !! i; Some (set_children chs (Some (addr ch)) w) else Some (set_children chs act w).

Fixpoint handle_mouse_recursive (w : Window) (parents : list Window) (ns : MouseState) (g : Gui) {struct w} : option (outcome * Window * Gui) :=
  let rest (w0 : Window) (g : Gui) :=
    '(chs, g, hit) ← scan (fun ch g => handle_mouse_recursive ch (w :: parents) ns g) (children w) g;
    match hit with
    | Some (i, r) => w ← child_handled w0 chs i r ns; Some (Handled, w, g)
    | None =>
        let w1 := set_children chs (active_child w0) w0 in
        match parents with
        | [] => Some (Ignored, w1, g)
        | _ =>
            if bool_decide (dragging g = Some (addr w)) then Some (Handled, w1, g)
            else if negb (contains (content_rect w parents) (pos ns)) then
              match titlebar w with
              | Some t =>
                  if contains (bar_rect w t parents) (pos ns) then
                    '(r, t, g) ← handle_mouse_recursive t (w :: parents) ns (set_last (Some (addr t)) g);
                    Some (match r with Ignored => Ignored | _ => Handled end, set_titlebar (Some t) w1, g)
                  else Some (Ignored, w1, g)
              | None => Some (Ignored, w1, g)
              end
            else
              let '(b, w2, g) := handle_mouse_class w1 parents ns (set_last (Some (addr w)) g) in
              Some (if b : bool then Handled else Ignored, w2, g)
        end
    end in
  match titlebar w with
  | Some t =>
      if negb (left_pressed (mouse_state g)) && left_pressed ns && contains (bar_rect w t parents) (pos ns) then
        '(r, t', g) ← handle_mouse_recursive t (w :: parents) ns (set_last (Some (addr t)) g);
        let w1 := set_titlebar (Some t') w in
        match r with
        | Ignored =>
            let b := bar_rect w t parents in
            match parents with
            | [] => None
            | _ => Some (Raised, w1, set_drag (u32 (px (pos ns) - rx b)) (u32 (py (pos ns) - ry b)) (Some (addr w)) g)
            end
        | _ => Some (Handled, w1, set_dragging None g)
        end
      else rest w g
  | None => rest w g
  end.

(** The position of a dragged window along one axis, in its parent. *)
Definition drag_pos (new_pos drag_off abs_off parent_size outer_size : Z) : Z :=
  if new_pos >=? drag_off then
    if (new_pos <=? abs_off) || (u32 (new_pos - abs_off) <? drag_off) then 0
    else if u32 (new_pos - drag_off) >=? u32 (abs_off + parent_size - outer_size) then u32 (parent_size - outer_size)
    else u32 (new_pos - abs_off - drag_off)
  else 0.

(** The pixels of [old] and of [new], in rectangles that cover them. *)
Definition moved (old new : Rect) : list Rect := (if intersects old new then subtract old new else [old]) ++ [new].

Definition drag (w : Window) (parents : list Window) (ns : MouseState) (g : Gui) : option Gui :=
  p ← head parents;
  let abs_offset := get_abs_pos_offset parents in
  let new_x := drag_pos (px (pos ns)) (drag_x_off g) (px abs_offset) (width (rect p)) (u32 (width (rect w) + left (border w) + right (border w))) in
  let new_y := drag_pos (py (pos ns)) (drag_y_off g) (py abs_offset) (height (rect p)) (u32 (height (rect w) + titlebar_height w + bottom (border w))) in
  let w' := set_pos new_x new_y w in
  Some (mark_all (moved (outer_rect parents w) (outer_rect parents w')) (set_roots (map (update (addr w) (set_pos new_x new_y)) (root_windows g)) g)).

Definition cursor_rect (c : Context) (p : Point) : Rect := mkRect (px p) (py p) (Z.min 10 (u32 (cwidth c - px p))) (Z.min 10 (u32 (cheight c - py p))).

Definition handle_mouse (ns : MouseState) (g : Gui) : option Gui :=
  g ← (match last_mouse_over g with
       | Some a =>
           '(w, parents) ← find a (root_windows g);
           let r := content_rect w parents in
           let '(w', g) := if negb (contains r (pos ns)) && contains r (pos (mouse_state g)) then on_mouse_leave w parents ns g else (w, g) in
           Some (set_last None (set_roots (map (update a (fun _ => w')) (root_windows g)) g))
       | None => Some g
       end);
  let g := if negb (left_pressed ns) then set_dragging None g else g in
  g ← (match dragging g with
       | Some a => '(w, parents) ← find a (root_windows g); drag w parents ns g
       | None =>
           '(l, g, hit) ← scan (fun w g => handle_mouse_recursive w [] ns g) (root_windows g) g;
           Some (set_roots l g)
       end);
  let g := if draw_cursor g then mark_all (moved (cursor_rect (ctx g) (pos (mouse_state g))) (cursor_rect (ctx g) (pos ns))) g else g in
  Some (set_mouse ns g).

(** ** The keyboard *)

Definition handle_keyboard_class (w : Window) (old new : KeyState) (g : Gui) : bool * Gui :=
  match cls w with
  | DesktopWindow => (true, if internal w then g else emit (Key (addr w) (code new) (pressed old) (pressed new)) g)
  | _ => (false, g)
  end.

Fixpoint handle_keyboard_recursive (w : Window) (old new : KeyState) (g : Gui) : option (bool * Gui) :=
  '(b, g) ← (match active_child w with
             | Some a =>
                 (fix go l := match l with
                              | [] => None
                              | ch :: l => if addr ch =? a then handle_keyboard_recursive ch old new g else go l
                              end) (children w)
             | None => Some (false, g)
             end);
  if b : bool then Some (true, g) else Some (handle_keyboard_class w old new g).

Definition handle_keyboard (ns : KeyState) (g : Gui) : option Gui :=
  prev ← key_states g !! code ns;
  let old := mkKey (code ns) prev in
  '(_, g) ← (fix go l g := match l with
                           | [] => Some (false, g)
                           | w :: l => '(b, g) ← go l g; if b : bool then Some (true, g) else handle_keyboard_recursive w old ns g
                           end) (root_windows g) g;
  Some (mkGui (root_windows g) (ctx g) (mouse_state g) (drag_x_off g) (drag_y_off g) (dragging g) (last_mouse_over g) (<[code ns := pressed ns]> (key_states g)) (draw_cursor g) (events g)).

(** ** Removing a window *)

Fixpoint subtree (w : Window) : list Z := addr w :: (fix go l := match l with [] => [] | ch :: l => subtree ch ++ go l end) (children w).

Definition destroy_window (a : Z) (g : Gui) : option Gui :=
  '(w, parents) ← find a (root_windows g);
  p ← head parents;
  let act := if bool_decide (active_child p = Some a) then None else active_child p in
  let gone := subtree w ++ match titlebar w with Some t => subtree t | None => [] end in
  let g := set_dragging None g in
  let g := match last_mouse_over g with Some m => if bool_decide (m ∈ gone) then set_last None g else g | None => g end in
  let g := if existsb (fun ch => addr ch =? a) (children p) then mark (outer_rect parents w) g else g in
  Some (set_roots (map (update (addr p) (fun p => set_children (List.filter (fun ch => negb (addr ch =? a)) (children p)) act p)) (root_windows g)) g).

End UiGui.

(** * The screen shows the windows

    [gui_draw] paints the dirty part of the screen; every pixel of it then has the colour
    of what is in front, and the other pixels are as before.  Together with what the
    operations mark as dirty this keeps the whole screen up to date. *)

Module UiGuiCorrect.
Import UiRect UiContext UiText UiWindow UiPaint UiGui.

(** The later roots are in front. *)
Fixpoint roots_colour (roots : list Window) (X Y : Z) : option Z :=
  match roots with
  | [] => None
  | w :: roots => over (roots_colour roots) (colour w []) X Y
  end.

Definition on_screen (c : Context) (X Y : Z) : Prop := In_rect (screen_rect c) X Y.

(** A window system that can be drawn: nothing wraps around, and what is dirty is on the
    screen. *)
Record Drawable (g : Gui) : Prop := {
  dr_screen : Screen (ctx g);
  dr_roots : Forall (fun w => Good w []) (root_windows g);
  dr_dirty : Forall (fun r => ok r /\ within r (screen_rect (ctx g))) (dirty_rects (ctx g));
  dr_sub : sub_rects (ctx g) = [];
  dr_mouse : ok (mouse_rect (pos (mouse_state g)))
}.

Definition at_cursor (g : Gui) (X Y : Z) : Prop := draw_cursor g = true /\ In_rect (mouse_rect (pos (mouse_state g))) X Y.
#[global] Instance at_cursor_dec g X Y : Decision (at_cursor g X Y).
Proof. unfold at_cursor. apply _. Defined.

Lemma dirty_start c : Screen c -> Forall (fun r => ok r /\ within r (screen_rect c)) (dirty_rects c) ->
  exists npr, start_clip [] [] [] (dirty_rects c) = Some npr /\ clip_good c npr /\ forall X Y, covers npr X Y <-> covers (dirty_rects c) X Y.
Proof.
  intros Hs Hd. apply Forall_and in Hd as [Hd1 Hd2]. destruct (dirty_clip_ok _ Hd1 [] (Forall_nil_2 _) I) as (l & E & A1 & A2 & A3 & A4). exists l.
  split; [exact E|]. split; [split_and!; [done|done|by eapply parts_within]|]. intros X Y. rewrite A4, covers_nil. tauto.
Qed.

Lemma roots_show roots : Forall (fun w => Good w []) roots -> forall c, Screen c -> Forall ok (sub_rects c) -> Forall (fun r => ok r /\ within r (screen_rect c)) (dirty_rects c) ->
  exists c', for_each roots (fun w c => draw_generic w [] [] [] c) c = Some c' /\ shows c c' (fun X Y => if decide (covers (dirty_rects c) X Y /\ ~ covers (sub_rects c) X Y) then roots_colour roots X Y else None).
Proof.
  induction 1 as [|w roots Hw _ IH]; intros c Hs Hsub Hd; cbn [for_each].
  - exists c. split; [done|]. split; [done|]. apply paints_none. intros X Y. by case_decide.
  - destruct (dirty_start c Hs Hd) as (npr & En & Hn & Hcov). destruct (draw_generic_shows w [] [] [] npr c Hs Hw Hsub En Hn) as (c1 & -> & H1). cbn [mbind option_bind].
    pose proof (proj1 H1) as Hsame. pose proof Hsame as (_ & E2 & E3 & E4 & E5). destruct (IH c1) as (c2 & Ec2 & H2); [by eapply shows_screen|by rewrite E5|unfold screen_rect; by rewrite E2, E3, E4|].
    exists c2. split; [exact Ec2|]. eapply shows_ext; [|exact (shows_trans _ _ _ _ _ H1 H2)]. intros X Y. unfold over at 1. rewrite E4, E5. unfold masked. cbn [roots_colour]. unfold over. unfold in_view.
    specialize (Hcov X Y). repeat case_decide; done || tauto.
Qed.

Lemma Screen_eq c c' : Screen c -> pitch_32 c' = pitch_32 c -> cwidth c' = cwidth c -> cheight c' = cheight c -> length (fb c') = length (fb c) -> Screen c'.
Proof. intros [S1 S2 S3 S4] E1 E2 E3 E4. split; rewrite ?E1, ?E2, ?E3, ?E4; done. Qed.

(** Every pixel after [gui_draw]. *)
Lemma gui_draw_pixels g : Drawable g -> dirty_rects (ctx g) <> [] ->
  exists c', gui_draw g = Some (set_ctx c' g) /\ same_ctx (set_dirty [] (ctx g)) c' /\ length (fb c') = length (fb (ctx g)) /\
    forall X Y, on_screen (ctx g) X Y -> pixel (pitch_32 (ctx g)) (fb c') X Y =
      if decide (at_cursor g X Y) then Some CURSOR_COLOR
      else if decide (covers (dirty_rects (ctx g)) X Y) then over (roots_colour (root_windows g)) (pixel (pitch_32 (ctx g)) (fb (ctx g))) X Y
      else pixel (pitch_32 (ctx g)) (fb (ctx g)) X Y.
Proof.
  intros [D1 D2 D3 D4 D5] Hne. unfold gui_draw. destruct (dirty_rects (ctx g)) as [|d0 ds] eqn:Ed; [done|]. rewrite <- Ed in *. clear Ed Hne.
  set (c0 := if draw_cursor g then _ else _). assert (Hs0 : Screen c0) by (unfold c0; destruct (draw_cursor g); [by eapply Screen_eq|done]).
  assert (Hsub0 : sub_rects c0 = if draw_cursor g then [mouse_rect (pos (mouse_state g))] else []) by (unfold c0; destruct (draw_cursor g); cbn [set_sub sub_rects]; by rewrite D4).
  assert (H0 : pitch_32 c0 = pitch_32 (ctx g) /\ cwidth c0 = cwidth (ctx g) /\ cheight c0 = cheight (ctx g) /\ dirty_rects c0 = dirty_rects (ctx g) /\ fb c0 = fb (ctx g)) by (unfold c0; by destruct (draw_cursor g)).
  destruct H0 as (Ep & Ew & Eh & Ed & Ef). destruct (roots_show (root_windows g) D2 c0 Hs0) as (c1 & -> & Hsame & Hlen & Hpx); [rewrite Hsub0; clear - D5; destruct (draw_cursor g); [by apply Forall_singleton|apply Forall_nil_2]|unfold screen_rect; by rewrite Ew, Eh, Ed|].
  cbn [mbind option_bind]. pose proof Hsame as (Ep1 & Ew1 & Eh1 & Ed1 & Es1). pose proof (Screen_same _ _ Hs0 Hsame Hlen) as Hs1. destruct (draw_cursor g) eqn:Edc.
  - set (c2 := set_clip _ _). assert (Hs2 : Screen c2) by (by eapply Screen_eq). destruct Hs2 as [W1 W2 W3 W4] eqn:Ehs2. clear Ehs2.
    assert (Hcl : Clipped c2). { split_and!; [constructor; [|constructor]; unfold ok; cbn; cbn in *; lia|by repeat constructor|constructor; [apply within_refl|constructor]]. }
    destruct (draw_filled_rect_paints c2 Hs2 (mouse_rect (pos (mouse_state g))) CURSOR_COLOR Hcl) as (f' & -> & Hl' & Hpx').
    { unfold shift. cbn [x_off y_off c2 set_clip clear_clip_rects set_sub set_off]. rewrite !Z.add_0_r. exact D5. }
    cbn [mbind option_bind]. exists (set_dirty [] (set_fb f' c2)). split; [done|]. split; [unfold same_ctx; cbn; rewrite ?D4; intuition congruence|]. split; [cbn; cbn in Hl'; congruence|].
    intros X Y Hxy. assert (Hb : 0 <= X < pitch_32 (ctx g) /\ 0 <= Y) by (unfold on_screen, In_rect, screen_rect in Hxy; cbn in Hxy; destruct D1; lia). destruct Hb as [Hb1 Hb2].
    assert (EP : pitch_32 c2 = pitch_32 (ctx g)) by (cbn; congruence). rewrite EP in Hpx'. rewrite Ep in Hpx. cbn [fb set_dirty set_fb]. rewrite (Hpx' X Y Hb1 Hb2). unfold over at 1.
    assert (Hcov : covers (clip_rects c2) X Y) by (apply covers_cons; left; unfold on_screen, screen_rect, In_rect in *; cbn [rx ry width height cwidth cheight set_off] in *; rewrite Ew1, Eh1, Ew, Eh; lia).
    assert (Eshift : shift c2 (mouse_rect (pos (mouse_state g))) = mouse_rect (pos (mouse_state g))) by (unfold shift; cbn; by rewrite !Z.add_0_r). rewrite Eshift.
    change (fb c2) with (fb c1). rewrite (Hpx X Y Hb1 Hb2). rewrite Ed, Hsub0, Ef. unfold over.
    assert (Hac : at_cursor g X Y <-> In_rect (mouse_rect (pos (mouse_state g))) X Y) by (unfold at_cursor; rewrite Edc; tauto).
    assert (Hcu : covers [mouse_rect (pos (mouse_state g))] X Y <-> In_rect (mouse_rect (pos (mouse_state g))) X Y) by (rewrite covers_cons, covers_nil; tauto). repeat case_decide; done || tauto.
  - cbn [mbind option_bind]. eexists. split; [done|]. split; [unfold same_ctx; cbn; rewrite ?Hsub0 in Es1; intuition congruence|]. split; [cbn; congruence|].
    intros X Y Hxy. assert (Hb : 0 <= X < pitch_32 (ctx g) /\ 0 <= Y) by (unfold on_screen, In_rect, screen_rect in Hxy; cbn in Hxy; destruct D1; lia). destruct Hb as [Hb1 Hb2].
    cbn [fb set_dirty set_off]. rewrite Ep in Hpx. rewrite (Hpx X Y Hb1 Hb2), Ed, Hsub0, Ef. unfold over.
    assert (Hac : ~ at_cursor g X Y) by (unfold at_cursor; rewrite Edc; by intros [? _]). pose proof (covers_nil X Y). repeat case_decide; done || tauto.
Qed.

End UiGuiCorrect.

(** * A screen that is up to date but for its dirty part

    [Fresh]: every pixel that is not dirty has the colour of what is in front.  Drawing
    leaves nothing dirty, and an operation keeps it if it marks what it changes. *)

Module UiFresh.
Import UiRect UiContext UiText UiWindow UiPaint UiTidy UiGui UiGuiCorrect.

(** ** Addresses *)

Definition flat_of (f : Window -> list Z) : list Window -> list Z := fix go l := match l with [] => [] | w :: l => f w ++ go l end.
Fixpoint addrs (w : Window) : list Z := addr w :: (match titlebar w with Some t => addrs t | None => [] end) ++ flat_of addrs (children w).
Definition all_addrs (l : list Window) : list Z := flat_of addrs l.

Lemma window_full_ind (P : Window -> Prop) : (forall w, (forall t, titlebar w = Some t -> P t) -> Forall P (children w) -> P w) -> forall w, P w.
Proof.
  intros H. fix IH 1. intros w. apply H; destruct w as [? ? ? ? ? ? ? ? ? ? tb l]; cbn [titlebar children].
  - intros t E. destruct tb as [t'|]; [|discriminate E]. injection E as <-. apply IH.
  - induction l as [|ch l IHl]; constructor; [apply IH|apply IHl].
Qed.

Lemma addrs_unfold w : addrs w = addr w :: (match titlebar w with Some t => addrs t | None => [] end) ++ all_addrs (children w).
Proof. by destruct w. Qed.
Lemma all_addrs_app l l' : all_addrs (l ++ l') = all_addrs l ++ all_addrs l'.
Proof. induction l as [|w l IH]; [done|]. cbn [app all_addrs flat_of]. fold (all_addrs (l ++ l')) (all_addrs l). by rewrite IH, app_assoc. Qed.
Lemma all_addrs_cons w l : all_addrs (w :: l) = addrs w ++ all_addrs l.
Proof. done. Qed.

Lemma update_unfold a f w : update a f w = if addr w =? a then f w
  else set_titlebar (match titlebar w with Some t => Some (update a f t) | None => None end) (set_children (map (update a f) (children w)) (active_child w) w).
Proof. by destruct w. Qed.
Lemma find_in_unfold a parents w : find_in a parents w = if addr w =? a then Some (w, parents)
  else match titlebar w with
       | Some t => match find_in a (w :: parents) t with Some r => Some r | None => first_of (find_in a (w :: parents)) (children w) end
       | None => first_of (find_in a (w :: parents)) (children w)
       end.
Proof. by destruct w. Qed.

Lemma all_addrs_forall a l : a ∉ all_addrs l <-> Forall (fun w => a ∉ addrs w) l.
Proof. induction l as [|w l IH]; [cbn; split; [constructor|set_solver]|]. rewrite all_addrs_cons, not_elem_of_app, Forall_cons, IH. done. Qed.

Lemma map_same {A} (f : A -> A) l : Forall (fun x => f x = x) l -> map f l = l.
Proof. induction 1 as [|x l Hx _ IH]; [done|]. cbn. by rewrite Hx, IH. Qed.

Lemma update_notin a f w : a ∉ addrs w -> update a f w = w.
Proof.
  induction w as [w IHt IHc] using window_full_ind. rewrite addrs_unfold, not_elem_of_cons, not_elem_of_app. intros (Hne & Ht & Hc). rewrite update_unfold.
  destruct (Z.eqb_spec (addr w) a) as [|_]; [congruence|]. rewrite map_same; [|apply all_addrs_forall in Hc; rewrite Forall_forall in *; eauto].
  destruct w as [? ? ? ? ? ? ? ? ? ? tb l]. cbn [titlebar] in *. destruct tb as [t|]; [|done]. rewrite (IHt t eq_refl Ht). done.
Qed.

Lemma first_of_none {A} (f : Window -> option A) l : Forall (fun w => f w = None) l -> first_of f l = None.
Proof. induction 1 as [|w l Hw _ IH]; [done|]. cbn [first_of]. by rewrite Hw. Qed.

Lemma find_in_notin a w : forall parents, a ∉ addrs w -> find_in a parents w = None.
Proof.
  induction w as [w IHt IHc] using window_full_ind. intros parents. rewrite addrs_unfold, not_elem_of_cons, not_elem_of_app. intros (Hne & Ht & Hc). rewrite find_in_unfold.
  destruct (Z.eqb_spec (addr w) a) as [|_]; [congruence|]. assert (Hl : first_of (find_in a (w :: parents)) (children w) = None).
  { apply first_of_none. apply all_addrs_forall in Hc. rewrite Forall_forall in *. eauto. }
  destruct (titlebar w) as [t|]; [|done]. by rewrite (IHt t eq_refl _ Ht).
Qed.

Lemma first_of_middle {A} (f : Window -> option A) l1 w l2 : Forall (fun w => f w = None) l1 -> first_of f (l1 ++ w :: l2) = match f w with Some a => Some a | None => first_of f l2 end.
Proof. induction 1 as [|v l Hv _ IH]; [done|]. cbn [app first_of]. by rewrite Hv. Qed.

(** A child of a root, and what [find] and [update] make of it. *)
Record TopLevel (roots : list Window) (r1 : list Window) (root : Window) (r2 l1 : list Window) (w : Window) (l2 : list Window) : Prop := {
  tl_roots : roots = r1 ++ root :: r2;
  tl_children : children root = l1 ++ w :: l2;
  tl_nodup : NoDup (all_addrs roots);
  tl_plain : titlebar root = None
}.

Lemma toplevel_apart roots r1 root r2 l1 w l2 : TopLevel roots r1 root r2 l1 w l2 ->
  Forall (fun v => addr w ∉ addrs v) r1 /\ Forall (fun v => addr w ∉ addrs v) r2 /\ addr root <> addr w /\ Forall (fun v => addr w ∉ addrs v) l1 /\ Forall (fun v => addr w ∉ addrs v) l2.
Proof.
  intros [-> Ec Hnd Ht]. rewrite all_addrs_app, all_addrs_cons, addrs_unfold, Ht, Ec, all_addrs_app, all_addrs_cons in Hnd. cbn [app] in Hnd.
  assert (Hw : addr w ∈ addrs w) by (rewrite addrs_unfold; set_solver). rewrite <- !all_addrs_forall. apply NoDup_app in Hnd as (_ & H1 & Hnd). apply NoDup_cons in Hnd as [H2 Hnd].
  apply NoDup_app in Hnd as (Hnd & H3 & _). apply NoDup_app in Hnd as (_ & H4 & Hnd). apply NoDup_app in Hnd as (_ & H5 & _). split_and!.
  - intros H. apply (H1 _ H). set_solver.
  - apply H3. set_solver.
  - intros E. apply H2. rewrite E. set_solver.
  - intros H. apply (H4 _ H). set_solver.
  - by apply H5.
Qed.

Lemma toplevel_find roots r1 root r2 l1 w l2 : TopLevel roots r1 root r2 l1 w l2 -> find (addr w) roots = Some (w, [root]).
Proof.
  intros HT. destruct (toplevel_apart _ _ _ _ _ _ _ HT) as (A1 & A2 & A3 & A4 & A5). destruct HT as [-> Ec _ Ht]. unfold find. rewrite first_of_middle.
  - rewrite find_in_unfold. destruct (Z.eqb_spec (addr root) (addr w)) as [|_]; [done|]. rewrite Ht, Ec, first_of_middle.
    + rewrite find_in_unfold, Z.eqb_refl. done.
    + eapply Forall_impl; [exact A4|]. intros v Hv. by apply find_in_notin.
  - eapply Forall_impl; [exact A1|]. intros v Hv. by apply find_in_notin.
Qed.

Lemma toplevel_update f roots r1 root r2 l1 w l2 : TopLevel roots r1 root r2 l1 w l2 ->
  map (update (addr w) f) roots = r1 ++ set_children (l1 ++ f w :: l2) (active_child root) root :: r2.
Proof.
  intros HT. destruct (toplevel_apart _ _ _ _ _ _ _ HT) as (A1 & A2 & A3 & A4 & A5). destruct HT as [-> Ec _ Ht].
  assert (Hid : forall l, Forall (fun v => addr w ∉ addrs v) l -> map (update (addr w) f) l = l) by (intros l Hl; apply map_same; eapply Forall_impl; [exact Hl|]; intros v Hv; by apply update_notin).
  rewrite map_app. cbn [map]. rewrite !Hid by done. rewrite update_unfold. destruct (Z.eqb_spec (addr root) (addr w)) as [|_]; [done|]. rewrite Ht, Ec, map_app. cbn [map]. rewrite !Hid by done.
  rewrite update_unfold, Z.eqb_refl. destruct root. cbn in Ht. by rewrite Ht.
Qed.

(** ** Colours *)

(** Ancestors at the same place. *)
Definition same_geom (p p' : Window) : Prop := rect p' = rect p /\ border p' = border p /\ titlebar p' = titlebar p /\ is_titlebar p' = is_titlebar p.

Lemma same_geom_refl p : same_geom p p.
Proof. done. Qed.
Lemma same_geom_refls ps : Forall2 same_geom ps ps.
Proof. induction ps; by constructor. Qed.

Lemma pos_sum_geom ps ps' : Forall2 same_geom ps ps' -> pos_sum ps' = pos_sum ps.
Proof. induction 1 as [|p p' ps ps' (E1 & E2 & E3 & E4) _ IH]; [done|]. cbn [pos_sum]. unfold no_decorations, titlebar_height. by rewrite IH, E1, E2, E3. Qed.

Lemma offset_geom ps ps' : Forall2 same_geom ps ps' -> get_abs_pos_offset ps' = get_abs_pos_offset ps.
Proof.
  intros H. unfold get_abs_pos_offset. rewrite (pos_sum_geom _ _ H). destruct H as [|t t' ps ps' (E1 & E2 & E3 & E4) [|p p' qs qs' (F1 & F2 & F3 & F4) _]]; [done|done|]. by rewrite E4, E1, F2.
Qed.

Lemma colour_geom w : forall ps ps' X Y, Forall2 same_geom ps ps' -> colour w ps' X Y = colour w ps X Y.
Proof.
  induction w as [w IH] using window_tree_ind. intros ps ps' X Y H. rewrite !colour_unfold. assert (H' : Forall2 same_geom (w :: ps) (w :: ps')) by (by constructor).
  assert (Ef : forall l, Forall (fun w => forall ps ps' X Y, Forall2 same_geom ps ps' -> colour w ps' X Y = colour w ps X Y) l ->
    front (fun ch => colour ch (w :: ps') X Y) (outer_rect (w :: ps')) X Y l = front (fun ch => colour ch (w :: ps) X Y) (outer_rect (w :: ps)) X Y l).
  { intros l Hl. induction Hl as [|ch l Hch _ IHl]; [done|]. cbn [front]. rewrite IHl, (Hch _ _ X Y H'). unfold outer_rect, get_abs_rect. by rewrite (offset_geom _ _ H'). }
  rewrite Ef by done. unfold self_colour. by rewrite (offset_geom _ _ H).
Qed.

Lemma front_skip f outer X Y l1 ch l2 : f ch = None -> ~ In_rect (outer ch) X Y -> front f outer X Y (l1 ++ ch :: l2) = front f outer X Y (l1 ++ l2).
Proof.
  intros Hf Ho. induction l1 as [|v l1 IH]; cbn [app front]; [|by rewrite IH]. rewrite Hf. destruct (front f outer X Y l2); [done|]. by rewrite decide_False.
Qed.

Lemma front_ext f f' outer outer' X Y l : (forall ch, f ch = f' ch) -> (forall ch, outer ch = outer' ch) -> front f outer X Y l = front f' outer' X Y l.
Proof. intros Hf Ho. induction l as [|ch l IH]; [done|]. cbn [front]. by rewrite IH, Hf, Ho. Qed.

Lemma roots_colour_middle r1 root root' r2 X Y : colour root' [] X Y = colour root [] X Y -> roots_colour (r1 ++ root' :: r2) X Y = roots_colour (r1 ++ root :: r2) X Y.
Proof. intros E. induction r1 as [|v r1 IH]; cbn [app roots_colour]; unfold over; [by rewrite E|by rewrite IH]. Qed.

(** A pixel that none of the children in [d] and [d'] has does not change when they are
    exchanged. *)
Lemma colour_exchange root l1 d d' l2 act X Y :
  children root = l1 ++ d ++ l2 ->
  (forall ch, ch ∈ d ++ d' -> colour ch [root] X Y = None /\ ~ In_rect (outer_rect [root] ch) X Y) ->
  colour (set_children (l1 ++ d' ++ l2) act root) [] X Y = colour root [] X Y.
Proof.
  intros Ec Hd. set (root' := set_children _ _ _). assert (Hg : Forall2 same_geom [root] [root']) by (constructor; [done|constructor]). rewrite !colour_unfold.
  assert (Eself : self_colour root' [] X Y = self_colour root [] X Y) by done. rewrite Eself. change (children root') with (l1 ++ d' ++ l2). rewrite Ec.
  rewrite (front_ext (fun ch => colour ch [root'] X Y) (fun ch => colour ch [root] X Y) (outer_rect [root']) (outer_rect [root])); [| |].
  - assert (Hskip : forall e, (forall ch, ch ∈ e -> colour ch [root] X Y = None /\ ~ In_rect (outer_rect [root] ch) X Y) ->
      front (fun ch => colour ch [root] X Y) (outer_rect [root]) X Y (l1 ++ e ++ l2) = front (fun ch => colour ch [root] X Y) (outer_rect [root]) X Y (l1 ++ l2)).
    { intros e He. induction e as [|ch e IH]; [done|]. destruct (He ch (list_elem_of_here _ _)) as [H1 H2]. cbn [app]. rewrite front_skip by done. apply IH. intros v Hv. apply He. by apply list_elem_of_further. }
    rewrite !Hskip; [done| |]; intros ch Hch; apply Hd; set_solver.
  - intros ch. by apply colour_geom.
  - intros ch. unfold outer_rect, get_abs_rect. by rewrite (offset_geom _ _ Hg).
Qed.

(** ** Fresh *)

Definition right_pixel (g : Gui) (X Y : Z) : Prop :=
  if decide (at_cursor g X Y) then pixel (pitch_32 (ctx g)) (fb (ctx g)) X Y = Some CURSOR_COLOR
  else forall col, roots_colour (root_windows g) X Y = Some col -> pixel (pitch_32 (ctx g)) (fb (ctx g)) X Y = Some col.

(** [S] are the pixels that nothing is said of. *)
Definition Fresh (S : Z -> Z -> Prop) (g : Gui) : Prop := forall X Y, on_screen (ctx g) X Y -> ~ S X Y -> ~ covers (dirty_rects (ctx g)) X Y -> right_pixel g X Y.

(** An operation that does not touch the screen keeps [Fresh] if what it changes is dirty. *)
Lemma fresh_change (S S' : Z -> Z -> Prop) g g' : Fresh S g -> fb (ctx g') = fb (ctx g) -> pitch_32 (ctx g') = pitch_32 (ctx g) -> cwidth (ctx g') = cwidth (ctx g) -> cheight (ctx g') = cheight (ctx g) ->
  (forall X Y, on_screen (ctx g) X Y -> ~ S' X Y -> ~ covers (dirty_rects (ctx g')) X Y ->
    ~ S X Y /\ ~ covers (dirty_rects (ctx g)) X Y /\ (at_cursor g' X Y <-> at_cursor g X Y) /\ roots_colour (root_windows g') X Y = roots_colour (root_windows g) X Y) ->
  Fresh S' g'.
Proof.
  intros Hf E1 E2 E3 E4 H X Y Hs Hn Hd. unfold on_screen, screen_rect in *. rewrite E3, E4 in Hs. destruct (H X Y Hs Hn Hd) as (H0 & H1 & H2 & H3). pose proof (Hf X Y Hs H0 H1) as Hp. unfold right_pixel in *. rewrite E1, E2, H3.
  repeat case_decide; done || tauto.
Qed.

Lemma draw_fresh S g : Drawable g -> Fresh S g ->
  exists g', gui_draw g = Some g' /\ Fresh (fun X Y => S X Y /\ ~ covers (dirty_rects (ctx g)) X Y) g' /\ dirty_rects (ctx g') = [] /\ (exists c', g' = set_ctx c' g) /\ same_ctx (set_dirty [] (ctx g)) (ctx g') /\ length (fb (ctx g')) = length (fb (ctx g)).
Proof.
  intros Hd Hf. destruct (decide (dirty_rects (ctx g) = [])) as [E|Hne].
  - exists g. unfold gui_draw. rewrite E. split_and!; [done| |done|exists (ctx g); by destruct g| |done]; [|unfold same_ctx; cbn; by rewrite E].
    intros X Y Hs Hn Hc. apply Hf; [done| |done]. intros HS. apply Hn. split; [done|]. by intros ?%covers_nil.
  - destruct (gui_draw_pixels g Hd Hne) as (c' & E & Hsame & Hl & Hpx). exists (set_ctx c' g). split; [done|]. pose proof Hsame as (S1 & S2 & S3 & S4 & S5). split_and!; [|exact S4|by exists c'|exact Hsame|exact Hl].
    intros X Y Hs Hn _. unfold on_screen, screen_rect in Hs. cbn [ctx set_ctx] in Hs. rewrite S2, S3 in Hs. pose proof (Hpx X Y Hs) as Hp. cbn [set_dirty pitch_32] in S1.
    unfold right_pixel. cbn [ctx set_ctx root_windows]. rewrite S1. change (at_cursor (set_ctx c' g) X Y) with (at_cursor g X Y). unfold over in Hp. pose proof (Hf X Y Hs) as Hold. unfold right_pixel in Hold.
    rewrite Hp. destruct (decide (at_cursor g X Y)) as [Hc|Hc]; [done|]. intros col Ecol. destruct (decide (covers (dirty_rects (ctx g)) X Y)) as [Hcv|Hcv]; [by rewrite Ecol|]. apply (Hold ltac:(tauto) Hcv col Ecol).
Qed.

End UiFresh.
