(* ===== verification/UiMouse.v ===== *)
(** * What the mouse does to the windows (src/libs/libui/src/gui.cpp, button.cpp)

    A mouse event walks down the trees of windows.  Of what is to be seen it changes the
    colours of buttons, and it marks them: off the marks every pixel keeps its colour.  A
    press on a title bar starts to drag its window. *)

From S2P Require Import Prelude UiDraw UiWindow UiGui.


Module UiMouse.
Import UiRect UiContext UiText UiWindow UiPaint UiTidy UiGui UiGuiCorrect UiFresh.

(** ** Trees without title bars *)

Fixpoint Plain (w : Window) : Prop := titlebar w = None /\ all_children Plain (children w).
Lemma Plain_unfold w : Plain w <-> titlebar w = None /\ Forall Plain (children w).
Proof. destruct w. cbn [Plain]. by rewrite all_children_Forall. Qed.

(** A window and the same one with another colour, if it is a button. *)
Definition touch_self (ps : list Window) (w w' : Window) (own : list Rect) : Prop :=
  (w' = w /\ own = []) \/
  exists prev prev' act inact bg, cls w = ButtonWindow prev act inact /\ w' = set_cls (ButtonWindow prev' act inact) bg w /\ own = [get_abs_rect ps w].

(** [touch ps w w' ms]: the tree [w] under [ps] has become [w'], and [ms] are the marks. *)
Inductive touch : list Window -> Window -> Window -> list Rect -> Prop :=
| touch_node ps w w1 chs act ms own : titlebar w = None -> touches (w :: ps) (children w) chs ms -> touch_self ps w w1 own ->
    touch ps w (set_children chs act w1) (ms ++ own)
with touches : list Window -> list Window -> list Window -> list Rect -> Prop :=
| touches_nil ps : touches ps [] [] []
| touches_cons ps w w' l l' m1 m2 : touch ps w w' m1 -> touches ps l l' m2 -> touches ps (w :: l) (w' :: l') (m2 ++ m1).

Scheme touch_mut := Minimality for touch Sort Prop with touches_mut := Minimality for touches Sort Prop.
Combined Scheme touch_both from touch_mut, touches_mut.

Lemma touch_refl w : Plain w -> forall ps, touch ps w w [].
Proof.
  induction w as [w IH] using window_tree_ind. intros [Ht Hc]%Plain_unfold ps. assert (Hl : touches (w :: ps) (children w) (children w) []).
  { revert IH Hc. generalize (children w). intros l IH Hc. induction l as [|ch l IHl]; [constructor|]. apply Forall_cons in IH as [I1 I2], Hc as [C1 C2].
    change (@nil Rect) with (@nil Rect ++ []). constructor; [by apply I1|by apply IHl]. }
  assert (E : set_children (children w) (active_child w) w = w) by (by destruct w). rewrite <- E at 2. change (@nil Rect) with (@nil Rect ++ []). apply touch_node; [done|done|by left].
Qed.
Lemma touches_refl ps l : Forall Plain l -> touches ps l l [].
Proof. induction 1 as [|w l Hw _ IH]; [constructor|]. change (@nil Rect) with (@nil Rect ++ []). constructor; [by apply touch_refl|done]. Qed.

Lemma touch_self_geom ps w w' own : touch_self ps w w' own -> same_geom w w' /\ addr w' = addr w /\ titlebar w' = titlebar w /\ children w' = children w /\ wfb w' = wfb w.
Proof. intros [[-> ->]|(? & ? & ? & ? & ? & _ & -> & _)]; done. Qed.
Lemma touch_geom ps w w' ms : touch ps w w' ms -> same_geom w w' /\ addr w' = addr w.
Proof. intros H. destruct H as [ps w w1 chs act ms own Ht _ Hs]. destruct (touch_self_geom _ _ _ _ Hs) as ((A & B & C & D) & E & _). done. Qed.

Lemma touch_plain_both : (forall ps w w' ms, touch ps w w' ms -> Plain w /\ Plain w' /\ addrs w' = addrs w) /\
  (forall ps l l' ms, touches ps l l' ms -> Forall Plain l /\ Forall Plain l' /\ all_addrs l' = all_addrs l).
Proof.
  apply touch_both.
  - intros ps w w1 chs act ms own Ht _ (P1 & P2 & P3) Hs. destruct (touch_self_geom _ _ _ _ Hs) as (_ & Ea & Et & _). rewrite !Plain_unfold, !addrs_unfold. cbn [set_children titlebar children addr]. by rewrite Et, Ht, P3, Ea.
  - done.
  - intros ps w w' l l' m1 m2 _ (P1 & P2 & P3) _ (Q1 & Q2 & Q3). rewrite !all_addrs_cons, P3, Q3. split_and!; [by constructor|by constructor|done].
Qed.
Lemma touch_plain ps w w' ms : touch ps w w' ms -> Plain w' /\ addrs w' = addrs w.
Proof. intros H. by destruct (proj1 touch_plain_both _ _ _ _ H) as (_ & ? & ?). Qed.
Lemma touches_plain ps l l' ms : touches ps l l' ms -> Forall Plain l' /\ all_addrs l' = all_addrs l.
Proof. intros H. by destruct (proj2 touch_plain_both _ _ _ _ H) as (_ & ? & ?). Qed.

Lemma touch_outer0 ps w w' ms : touch ps w w' ms -> outer0 w' = outer0 w.
Proof. intros H. destruct (touch_geom _ _ _ _ H) as [(A & B & C & D) _]. unfold outer0, outer_w, outer_h, no_decorations, titlebar_height. by rewrite A, B, C. Qed.

Lemma touch_self_tidy ps w w' own : touch_self ps w w' own -> tidy_self w -> tidy_self w'.
Proof.
  intros [[-> _]|(prev & prev' & act & inact & bg & Ec & -> & _)]; [done|]. intros (H0 & H1 & H2 & H3 & H4 & H5 & H6 & H7 & H8 & (calls & E & Hc) & H9). unfold tidy_self. split_and!; try done.
  unfold content_calls, draw_calls in *. cbn [set_cls wfb cls rect bg_color]. destruct (wfb w); [by exists calls|]. rewrite Ec in E. injection E as <-. eexists. split; [done|]. apply Forall_singleton. by apply Forall_singleton in Hc as (A & B & C & D).
Qed.

Lemma touch_tidy_both : (forall ps w w' ms, touch ps w w' ms -> Tidy w -> Tidy w') /\
  (forall ps l l' ms, touches ps l l' ms -> forall R, Forall (fun ch => within (outer0 ch) R /\ Tidy ch) l -> Forall (fun ch => within (outer0 ch) R /\ Tidy ch) l').
Proof.
  apply touch_both.
  - intros ps w w1 chs act ms own Ht _ IH Hs [T1 T2]%Tidy_unfold. destruct (touch_self_geom _ _ _ _ Hs) as ((E1 & _) & _). apply Tidy_unfold. split; [|cbn [set_children rect children]; rewrite E1; by apply IH].
    pose proof (touch_self_tidy _ _ _ _ Hs T1) as T. exact T.
  - done.
  - intros ps w w' l l' m1 m2 Hw IH1 _ IH2 R [[R1 R2] R3]%Forall_cons. constructor; [|by apply IH2]. rewrite (touch_outer0 _ _ _ _ Hw). auto.
Qed.

(** ** Where the marks are, and that they are enough *)

(** A tidy window with room for it. *)
Definition placed (ps : list Window) (w : Window) : Prop := Tidy w /\ plain ps /\ room (pos_sum ps) w.

Lemma placed_child ps w ch : placed ps w -> ch ∈ children w -> placed (w :: ps) ch /\ within (outer_rect (w :: ps) ch) (outer_rect ps w).
Proof.
  intros (Ht & Hp & Hr) Hin. apply Tidy_unfold in Ht as [Hs Hch]. rewrite Forall_forall in Hch. destruct (Hch ch Hin) as [Hw Htc]. destruct (tidy_child w ps ch Hs Hp Hr Hw) as (Hp' & Hr' & Eo). split; [done|].
  pose proof (proj1 (proj1 (Tidy_unfold ch) Htc)) as Hsc. rewrite !outer_rect_at by done. rewrite Eo. destruct Hs as (H0 & H1 & H2 & H3 & H4 & H5 & H6 & H7 & H8 & _).
  unfold within, outer0 in *. cbn [px py rx ry width height] in *. unfold outer_w, outer_h in *. destruct (no_decorations w), (no_decorations ch); lia.
Qed.
Lemma placed_outer ps w : placed ps w -> ok (outer_rect ps w) /\ forall X Y col, colour w ps X Y = Some col -> In_rect (outer_rect ps w) X Y.
Proof. intros (Ht & Hp & Hr). split; [apply outer_ok; [by apply Tidy_unfold in Ht as []|done|done]|]. apply (tidy_place w Ht ps Hp Hr). Qed.

Lemma touch_self_colour ps w w' own X Y : touch_self ps w w' own -> titlebar w = None -> placed ps w -> ~ covers own X Y -> self_colour w' ps X Y = self_colour w ps X Y.
Proof.
  intros [[-> _]|(prev & prev' & act & inact & bg & Ec & -> & ->)] Ht (Hw & Hp & Hr); [done|]. rewrite covers_cons, covers_nil. intros Hn. unfold self_colour. cbn [set_cls titlebar]. rewrite Ht.
  unfold content_calls, draw_calls. cbn [set_cls wfb cls rect bg_color]. destruct (wfb w); [done|]. rewrite Ec. cbn [default id shade shade1 over]. unfold over.
  pose proof (outer_rect_at w ps (proj1 (proj1 (Tidy_unfold _) Hw)) Hp Hr) as Eo. unfold outer_rect, no_decorations in Eo. rewrite Ht in Eo. rewrite Eo in Hn. rewrite (plain_offset _ Hp).
  unfold In_rect, outer_w, outer_h, no_decorations in Hn. rewrite Ht in Hn. cbn [rx ry width height] in Hn. cbn [shade]. rewrite !decide_False; [done| |]; unfold In_rect; cbn [rx ry width height]; lia.
Qed.

Lemma touch_marks_both : (forall ps w w' ms, touch ps w w' ms -> placed ps w -> Forall (fun r => ok r /\ within r (outer_rect ps w)) ms /\
    forall X Y, ~ covers ms X Y -> colour w' ps X Y = colour w ps X Y) /\
  (forall ps l l' ms, touches ps l l' ms -> Forall (placed ps) l -> Forall (fun r => ok r /\ Exists (fun ch => within r (outer_rect ps ch)) l) ms /\
    forall X Y, ~ covers ms X Y -> front (fun ch => colour ch ps X Y) (outer_rect ps) X Y l' = front (fun ch => colour ch ps X Y) (outer_rect ps) X Y l).
Proof.
  apply touch_both.
  - intros ps w w1 chs act ms own Ht _ IH Hs Hp. destruct (touch_self_geom _ _ _ _ Hs) as (Hg & Ea & Et & _). assert (Hc : Forall (placed (w :: ps)) (children w)).
    { apply Forall_forall. intros ch Hin. by apply placed_child. }
    destruct (IH Hc) as [I1 I2]. split.
    + apply Forall_app. split.
      * eapply Forall_impl; [exact I1|]. intros r [Hr He]. split; [done|]. apply Exists_exists in He as (ch & Hin & Hw). eapply within_trans; [exact Hw|]. by apply placed_child.
      * destruct Hs as [[_ ->]|(? & ? & ? & ? & ? & _ & _ & ->)]; [constructor|]. apply Forall_singleton. pose proof (proj1 (placed_outer _ _ Hp)) as Ho.
        assert (E : outer_rect ps w = get_abs_rect ps w) by (unfold outer_rect, no_decorations; by rewrite Ht). rewrite E in *. split; [done|apply within_refl].
    + intros X Y. rewrite covers_app. intros Hn. rewrite !colour_unfold. cbn [set_children children]. set (w2 := set_children chs act w1). assert (Hg2 : Forall2 same_geom (w :: ps) (w2 :: ps)) by (constructor; [exact Hg|apply same_geom_refls]).
      rewrite (front_ext (fun ch => colour ch (w2 :: ps) X Y) (fun ch => colour ch (w :: ps) X Y) (outer_rect (w2 :: ps)) (outer_rect (w :: ps))).
      * rewrite I2 by tauto. change (self_colour w2 ps X Y) with (self_colour w1 ps X Y). rewrite (touch_self_colour ps w w1 own X Y Hs Ht Hp) by tauto. done.
      * intros ch. by apply colour_geom.
      * intros ch. unfold outer_rect, get_abs_rect. by rewrite (offset_geom _ _ Hg2).
  - intros ps _. split; [constructor|done].
  - intros ps w w' l l' m1 m2 Hw IH1 _ IH2 [P1 P2]%Forall_cons. destruct (IH1 P1) as [A1 A2]. destruct (IH2 P2) as [B1 B2]. split.
    + apply Forall_app. split; [eapply Forall_impl; [exact B1|]; intros r [? ?]; split; [done|by right]|eapply Forall_impl; [exact A1|]; intros r [? ?]; split; [done|by left]].
    + intros X Y. rewrite covers_app. intros Hn. cbn [front]. rewrite B2, A2 by tauto. destruct (touch_geom _ _ _ _ Hw) as [(G1 & G2 & G3 & G4) _].
      assert (Eo : outer_rect ps w' = outer_rect ps w) by (unfold outer_rect, get_abs_rect, no_decorations, titlebar_height; by rewrite G1, G2, G3). by rewrite Eo.
Qed.

(** ** The walk down a tree without title bars *)

(** What an event changes besides the windows: the marks [ms], the window below the mouse,
    which is one of [A], what the programs are told, and that nothing is dragged. *)
Record told (A : list Z) (ms : list Rect) (g g' : Gui) : Prop := {
  td_roots : root_windows g' = root_windows g;
  td_ctx : ctx g' = set_dirty (dirty_rects (ctx g) ++ ms) (ctx g);
  td_mouse : mouse_state g' = mouse_state g;
  td_cursor : draw_cursor g' = draw_cursor g;
  td_last : last_mouse_over g' = last_mouse_over g \/ exists a, a ∈ A /\ last_mouse_over g' = Some a;
  td_drag : dragging g' = None \/ dragging g' = dragging g /\ drag_x_off g' = drag_x_off g /\ drag_y_off g' = drag_y_off g
}.

Lemma told_refl A g : told A [] g g.
Proof. split; auto. rewrite app_nil_r. by destruct g as [? [] ? ? ? ? ? ? ? ?]. Qed.
Lemma told_trans A1 A2 m1 m2 g1 g2 g3 : told A1 m1 g1 g2 -> told A2 m2 g2 g3 -> told (A1 ++ A2) (m1 ++ m2) g1 g3.
Proof.
  intros [A B C D E F] [A' B' C' D' E' F']. split; [congruence| |congruence|congruence| |].
  - rewrite B', B. cbn. by rewrite app_assoc.
  - destruct E' as [->|(a & Ha & ->)]; [|right; exists a; set_solver]. destruct E as [->|(a & Ha & ->)]; [by left|right; exists a; set_solver].
  - destruct F' as [?|(-> & -> & ->)]; [by left|done].
Qed.
Lemma told_sub A A' ms g g' : (forall a, a ∈ A -> a ∈ A') -> told A ms g g' -> told A' ms g g'.
Proof. intros H [? ? ? ? E ?]. split; try done. destruct E as [?|(a & ? & ?)]; [by left|right; exists a; auto]. Qed.
Lemma told_last a g : told [a] [] g (set_last (Some a) g).
Proof. split; auto. - rewrite app_nil_r. by destruct g as [? [] ? ? ? ? ? ? ? ?]. - right. exists a. set_solver. Qed.
Lemma told_emit A e g : told A [] g (emit e g).
Proof. split; auto. rewrite app_nil_r. by destruct g as [? [] ? ? ? ? ? ? ? ?]. Qed.
Lemma told_mark A r g : told A [r] g (mark r g).
Proof. split; auto. Qed.
Lemma told_drop A g : told A [] g (set_dragging None g).
Proof. split; auto. rewrite app_nil_r. by destruct g as [? [] ? ? ? ? ? ? ? ?]. Qed.

Lemma hmr_unfold w parents ns g : handle_mouse_recursive w parents ns g =
  let rest (w0 : Window) (g : Gui) :=
    '(chs, g, hit) ← scan (fun ch g => handle_mouse_recursive ch (w :: parents) ns g) (children w) g;
    match hit with
    | Some (i, r) => w ← child_handled w0 chs i r ns; Some (Handled, w, g)
    | None =>
        let w1 := set_children chs (active_child w0) w0 in
        match parents with
        | [] => Some (Ignored, w1, g)
        | _ =>
            if bool_decide (dragging g = Some (addr w)) then Some (Handled, w1, g)
            else if negb (contains (content_rect w parents) (pos ns)) then
              match titlebar w with
              | Some t =>
                  if contains (bar_rect w t parents) (pos ns) then
                    '(r, t, g) ← handle_mouse_recursive t (w :: parents) ns (set_last (Some (addr t)) g);
                    Some (match r with Ignored => Ignored | _ => Handled end, set_titlebar (Some t) w1, g)
                  else Some (Ignored, w1, g)
              | None => Some (Ignored, w1, g)
              end
            else
              let '(b, w2, g) := handle_mouse_class w1 parents ns (set_last (Some (addr w)) g) in
              Some (if b : bool then Handled else Ignored, w2, g)
        end
    end in
  match titlebar w with
  | Some t =>
      if negb (left_pressed (mouse_state g)) && left_pressed ns && contains (bar_rect w t parents) (pos ns) then
        '(r, t', g) ← handle_mouse_recursive t (w :: parents) ns (set_last (Some (addr t)) g);
        let w1 := set_titlebar (Some t') w in
        match r with
        | Ignored =>
            let b := bar_rect w t parents in
            match parents with
            | [] => None
            | _ => Some (Raised, w1, set_drag (u32 (px (pos ns) - rx b)) (u32 (py (pos ns) - ry b)) (Some (addr w)) g)
            end
        | _ => Some (Handled, w1, set_dragging None g)
        end
      else rest w g
  | None => rest w g
  end.
Proof. by destruct w. Qed.

Lemma class_touch w ps ns g : exists b w' g' own, handle_mouse_class w ps ns g = (b, w', g') /\ touch_self ps w w' own /\ told [] own g g'.
Proof.
  unfold handle_mouse_class. destruct (cls w) as [|prev act inact|tw| | |] eqn:Ec; try (eexists _, w, g, []; split_and!; [done|by left|apply told_refl]).
  - unfold button_handle_mouse. destruct (negb prev && left_pressed ns); [|destruct (prev && negb (left_pressed ns))].
    + eexists _, _, _, [get_abs_rect ps w]. split_and!; [done|right; by eexists _, _, _, _, _|apply told_mark].
    + eexists _, _, _, [get_abs_rect ps w]. split_and!; [done|right; by eexists _, _, _, _, _|].
      exact (told_trans [] [] [] _ _ _ _ (told_emit [] (Clicked (addr w)) g) (told_mark [] _ _)).
    + eexists _, w, g, []. split_and!; [done|by left|apply told_refl].
  - eexists _, w, _, []. split_and!; [done|by left|]. unfold desktop_handle_mouse. destruct (internal w); [apply told_refl|apply told_emit].
Qed.

Lemma touch_self_children ps w w' own l act : touch_self ps (set_children l act w) w' own -> exists w1, touch_self ps w w1 own /\ w' = set_children l act w1.
Proof.
  intros [[-> ->]|(prev & prev' & a & i & bg & Ec & -> & ->)].
  - exists w. split; [by left|done].
  - exists (set_cls (ButtonWindow prev' a i) bg w). split; [right; by eexists _, _, _, _, _|done].
Qed.

Lemma hmr_plain w : Plain w -> forall ps ns g, exists r w' g' ms, handle_mouse_recursive w ps ns g = Some (r, w', g') /\ r <> Raised /\ touch ps w w' ms /\ told (addrs w) ms g g'.
Proof.
  induction w as [w IH] using window_tree_ind. intros [Ht Hc]%Plain_unfold ps ns g.
  assert (Hscan : exists l' g' hit ms, scan (fun ch g => handle_mouse_recursive ch (w :: ps) ns g) (children w) g = Some (l', g', hit) /\ touches (w :: ps) (children w) l' ms /\ told (all_addrs (children w)) ms g g' /\
    match hit with Some (i, r) => r = Handled /\ (i < length l')%nat | None => True end).
  { revert IH Hc. generalize (children w) as l. induction l as [|ch l IHl]; intros IH Hc; [exists [], g, None, []; split_and!; [done|constructor|apply told_refl|done]|].
    apply Forall_cons in IH as [I1 I2], Hc as [C1 C2]. destruct (IHl I2 C2) as (l' & g1 & hit & m2 & E & Htl & Hto & Hh). cbn [scan]. fold (scan (fun ch g => handle_mouse_recursive ch (w :: ps) ns g)). rewrite E. cbn [mbind option_bind]. rewrite all_addrs_cons.
    destruct hit as [[i r]|].
    - destruct Hh as [-> Hi]. exists (ch :: l'), g1, (Some (S i, Handled)), (m2 ++ []). split_and!; [done|constructor; [by apply touch_refl|done]|rewrite app_nil_r; eapply told_sub; [|exact Hto]; set_solver|done|cbn; lia].
    - destruct (I1 C1 (w :: ps) ns g1) as (r & ch' & g2 & m1 & E1 & Hr & Ht1 & Hto1). rewrite E1. cbn [mbind option_bind]. exists (ch' :: l'), g2, (match r with Ignored => None | _ => Some (0%nat, r) end), (m2 ++ m1).
      split_and!; [done|by constructor|eapply told_sub; [|exact (told_trans _ _ _ _ _ _ _ Hto Hto1)]; set_solver|]. destruct r; [done|split; [done|cbn; lia]|done]. }
  destruct Hscan as (l' & g1 & hit & ms & E & Htl & Hto & Hh). rewrite hmr_unfold. cbv zeta. rewrite Ht. rewrite E. cbn [mbind option_bind].
  assert (Hto' : told (addrs w) ms g g1) by (eapply told_sub; [|exact Hto]; rewrite addrs_unfold; set_solver).
  assert (Hsame : forall act, touch ps w (set_children l' act w) ms) by (intros act; rewrite <- (app_nil_r ms); apply touch_node; [done|done|by left]).
  destruct hit as [[i r]|].
  - destruct Hh as [-> Hi]. unfold child_handled. destruct (lookup_lt_is_Some_2 l' i Hi) as [ch Ech]. rewrite Ech. cbn [mbind option_bind].
    destruct (left_pressed ns); cbn [mbind option_bind]; eexists _, _, _, ms; (split; [done|]; split; [done|]; split; [apply Hsame|done]).
  - destruct ps as [|p ps]; [eexists _, _, _, ms; (split; [done|]; split; [done|]; split; [apply Hsame|done])|].
    destruct (bool_decide _); [eexists _, _, _, ms; (split; [done|]; split; [done|]; split; [apply Hsame|done])|].
    destruct (negb _); [eexists _, _, _, ms; (split; [done|]; split; [done|]; split; [apply Hsame|done])|].
    destruct (class_touch (set_children l' (active_child w) w) (p :: ps) ns (set_last (Some (addr w)) g1)) as (b & w2 & g2 & own & E2 & Hs2 & Ht2). rewrite E2.
    destruct (touch_self_children _ _ _ _ _ _ Hs2) as (w1 & Hs1 & ->). eexists _, _, _, (ms ++ own). split; [done|]. split; [by destruct b|]. split; [by apply touch_node|].
    eapply told_sub; [|exact (told_trans _ _ _ _ _ _ _ Hto (told_trans _ _ _ _ _ _ _ (told_last (addr w) g1) Ht2))]. rewrite addrs_unfold. set_solver.
Qed.

(** ** Windows with a title bar *)

Definition leaf (w : Window) : Prop := titlebar w = None /\ children w = [].
Record bar (t : Window) : Prop := {
  br_class : cls t = TitlebarWindow;
  br_is : is_titlebar t = true;
  br_plain : titlebar t = None;
  br_at : rx (rect t) = 0 /\ ry (rect t) = 0;
  br_leaves : Forall leaf (children t)
}.

(** The windows of programs. *)
Record Win (w : Window) : Prop := {
  wn_class : cls w = DesktopWindow;
  wn_children : children w = [];
  wn_bar : exists t, titlebar w = Some t /\ bar t
}.

Lemma bar_Plain t : bar t -> Plain t.
Proof. intros [_ _ H _ Hl]. apply Plain_unfold. split; [done|]. eapply Forall_impl; [exact Hl|]. intros w [H1 H2]. apply Plain_unfold. by rewrite H2. Qed.

Lemma touches_leaf ps l l' ms : touches ps l l' ms -> Forall leaf l -> Forall leaf l'.
Proof.
  intros H. induction H as [|ps w w' l l' m1 m2 Hw _ IH]; [done|]. intros [[L1 L2] L]%Forall_cons. constructor; [|by apply IH]. destruct Hw as [ps w w1 chs act ms own Ht Hc Hs]. destruct (touch_self_geom _ _ _ _ Hs) as (_ & _ & Et & _).
  split; cbn [set_children titlebar children]; [congruence|]. rewrite L2 in Hc. by inversion Hc.
Qed.
Lemma touch_bar ps t t' ms : touch ps t t' ms -> bar t -> exists chs act, t' = set_children chs act t /\ touches (t :: ps) (children t) chs ms /\ bar t'.
Proof.
  intros H [B1 B2 B3 B4 B5]. destruct H as [ps t t1 chs act ms own Ht Hc Hs]. destruct Hs as [[-> ->]|(? & ? & ? & ? & ? & E & _)]; [|congruence]. rewrite app_nil_r. exists chs, act. split_and!; [done|done|].
  split; try done. by eapply touches_leaf.
Qed.

Definition list_calls : list Window -> option (list Paint) := fix go l := match l with [] => Some [] | ch :: l => a ← tree_calls ch; b ← go l; Some (a ++ b) end.
Lemma tree_calls_unfold w : tree_calls w = (own ← draw_calls w; rest ← list_calls (children w); Some (own ++ rest)).
Proof. by destruct w. Qed.
Lemma leaf_calls w : leaf w -> tree_calls w = draw_calls w.
Proof. intros [_ H]. rewrite tree_calls_unfold, H. destruct (draw_calls w); [|done]. cbn. by rewrite app_nil_r. Qed.

(** The buttons of a title bar, in the frame at [ox], [oy]. *)
Lemma touches_calls ps l l' ms ox oy W H : touches ps l l' ms -> Forall leaf l -> get_abs_pos_offset ps = mkPoint ox oy -> 0 <= ox -> 0 <= oy -> ox + W < 2 ^ 32 -> oy + H < 2 ^ 32 ->
  forall calls, list_calls l = Some calls -> Forall (call_in (mkRect 0 0 W H)) calls ->
  exists calls', list_calls l' = Some calls' /\ Forall (call_in (mkRect 0 0 W H)) calls' /\ Forall (fun r => ok r /\ within r (mkRect ox oy W H)) ms /\
    forall X Y, ~ covers ms X Y -> shade ox oy calls' X Y = shade ox oy calls X Y.
Proof.
  intros Htl Hlf Eo Hx Hy Hw Hh. induction Htl as [|ps w w' l l' m1 m2 Ht Hl IH]; intros calls Ec Hin; [exists []; split_and!; [done|done|done|]; injection Ec as <-; done|].
  apply Forall_cons in Hlf as [L1 L2]. pose proof (Forall_inv (touches_leaf _ _ _ _ (touches_cons _ _ _ _ _ _ _ Ht Hl) (Forall_cons_2 _ _ _ L1 L2))) as L1'.
  cbn [list_calls] in *. fold list_calls in *. rewrite !leaf_calls in * by done. apply bind_Some in Ec as (a & Ea & Ec). apply bind_Some in Ec as (b & Eb & Ec). injection Ec as <-. apply Forall_app in Hin as [Ha Hb].
  destruct (IH L2 Eo b Eb Hb) as (b' & -> & Hb' & Hm2 & Hsh). destruct Ht as [ps w w1 chs act ms own Htb Hch Hs]. rewrite (proj2 L1) in Hch. inversion Hch; subst chs ms. cbn [app].
  destruct Hs as [[-> ->]|(prev & prev' & ac & ia & bg & Ecl & -> & ->)].
  - change (draw_calls (set_children [] act w)) with (draw_calls w). rewrite Ea. exists (a ++ b'). rewrite app_nil_r. split_and!; [done|by apply Forall_app|done|]. intros X Y Hn. rewrite !shade_app. unfold over. by rewrite Hsh.
  - unfold draw_calls in *. rewrite Ecl in Ea. cbn [set_children set_cls cls rect bg_color]. injection Ea as <-. exists ([Fill (rect w) bg] ++ b'). apply Forall_singleton in Ha as (D1 & D2 & D3 & _). unfold within in D3. cbn [call_rect rx ry width height] in D1, D2, D3.
    assert (Er : get_abs_rect ps w = mkRect (rx (rect w) + ox) (ry (rect w) + oy) (width (rect w)) (height (rect w))) by (unfold get_abs_rect; rewrite Eo; cbn [px py]; by rewrite !u32_small by lia).
    rewrite Er. split_and!; [done|apply Forall_app; split; [apply Forall_singleton; split_and!; cbn [call_rect]; [lia|lia|unfold within; cbn; lia|done]|done]|apply Forall_app; split; [done|apply Forall_singleton; unfold ok, within; cbn; lia]|].
    intros X Y. rewrite covers_app, covers_cons, covers_nil. intros Hn. cbn [app shade]. unfold over. rewrite Hsh by tauto. cbn [shade1]. by rewrite !decide_False by tauto.
Qed.

(** [touch_win ps w w' ms]: in the window [w] the title bar has changed. *)
Definition touch_win (ps : list Window) (w w' : Window) (ms : list Rect) : Prop :=
  exists t t' act, titlebar w = Some t /\ touch (w :: ps) t t' ms /\ w' = set_children [] act (set_titlebar (Some t') w).

Lemma touch_win_refl ps w : Win w -> touch_win ps w w [].
Proof.
  intros [Hc Hch (t & Et & Hb)]. exists t, t, (active_child w). split_and!; [done|by apply touch_refl, bar_Plain|]. destruct w. cbn in *. by subst.
Qed.

Lemma touch_win_ok ps w w' ms : touch_win ps w w' ms -> Win w -> Win w' /\ addrs w' = addrs w /\ addr w' = addr w /\ rect w' = rect w /\ outer0 w' = outer0 w /\ outer_rect ps w' = outer_rect ps w.
Proof.
  intros (t & t' & act & Et & Ht & ->) [Hc Hch (t0 & Et0 & Hb)]. assert (t0 = t) as -> by congruence. destruct (touch_bar _ _ _ _ Ht Hb) as (chs & act' & E' & _ & Hb'). destruct (touch_plain _ _ _ _ Ht) as [_ Ea]. destruct (touch_geom _ _ _ _ Ht) as [(Er & _) _].
  split_and!; [split; [done|done|by exists t']| |done|done| |].
  - rewrite !addrs_unfold. cbn [set_children set_titlebar addr titlebar children]. by rewrite Ea, Et, Hch.
  - unfold outer0, outer_w, outer_h, no_decorations, titlebar_height. cbn [set_children set_titlebar rect border titlebar]. by rewrite Et, Er.
  - unfold outer_rect, get_abs_rect, no_decorations, titlebar_height. cbn [set_children set_titlebar rect border titlebar]. by rewrite Et, Er.
Qed.

Lemma touch_win_marks ps w w' ms : touch_win ps w w' ms -> Win w -> placed ps w -> Tidy w' /\ Forall (fun r => ok r /\ within r (outer_rect ps w)) ms /\ forall X Y, ~ covers ms X Y -> colour w' ps X Y = colour w ps X Y.
Proof.
  intros (t & t' & act & Et & Ht & ->) [Hc Hch (t0 & Et0 & Hb)] (Htd & Hp & Hr). assert (t0 = t) as -> by congruence. destruct (touch_bar _ _ _ _ Ht Hb) as (chs & act' & -> & Htl & Hb'). destruct Hb as [B1 B2 B3 [B4 B5] B6].
  pose proof (proj1 (Tidy_unfold _) Htd) as [Hs _]. rewrite (outer_rect_at w ps Hs Hp Hr). pose proof (pos_sum_fits ps) as [P1 P2]. destruct Hr as [R1 R2]. pose proof Hs as (H0 & H1 & H2 & H3 & H4 & H5 & H6 & H7 & H8 & Hcc & Htb). rewrite Et in Htb. destruct Htb as (calls & Ecalls & Hin).
  assert (En : no_decorations w = false) by (unfold no_decorations; by rewrite Et). assert (Eh : titlebar_height w = height (rect t)) by (unfold titlebar_height; by rewrite Et). assert (Et' : no_decorations t = true) by (unfold no_decorations; by rewrite B3).
  set (ox := px (pos_sum ps) + rx (rect w)). set (oy := py (pos_sum ps) + ry (rect w)). unfold outer_w, outer_h in R1, R2. rewrite En in R1, R2.
  assert (Eo : get_abs_pos_offset (t :: w :: ps) = mkPoint ox oy).
  { unfold get_abs_pos_offset. rewrite B2. cbn [pos_sum]. rewrite En, Et', B4, B5, Eh. cbn [px py]. rewrite !(u32_small (_ + rx (rect w) + _)), !(u32_small (_ + ry (rect w) + _)) by lia. rewrite !(u32_small (_ + 0 + 0)) by lia. rewrite !u32_small by lia. f_equal; unfold ox, oy; lia. }
  rewrite tree_calls_unfold in Ecalls. apply bind_Some in Ecalls as (own & Eown & Ecalls). apply bind_Some in Ecalls as (rest & Erest & Ecalls). injection Ecalls as <-. apply Forall_app in Hin as [Hown Hrest].
  destruct (touches_calls _ _ _ _ ox oy (outer_w w) (outer_h w) Htl B6 Eo ltac:(lia) ltac:(lia)) with (calls := rest) as (rest' & Er' & Hr' & Hm & Hsh); [unfold outer_w, ox; rewrite En; lia|unfold outer_h, oy; rewrite En; lia|done|done|].
  assert (Etc : tree_calls (set_children chs act' t) = Some (own ++ rest')).
  { rewrite tree_calls_unfold. change (draw_calls (set_children chs act' t)) with (draw_calls t). cbn [set_children children]. by rewrite Eown, Er'. }
  split; [|split; [exact Hm|]].
  - apply Tidy_unfold. split; [|constructor]. unfold tidy_self. assert (Eo' : outer_w (set_children [] act (set_titlebar (Some (set_children chs act' t)) w)) = outer_w w /\ outer_h (set_children [] act (set_titlebar (Some (set_children chs act' t)) w)) = outer_h w).
    { unfold outer_w, outer_h, no_decorations, titlebar_height. cbn [set_children set_titlebar rect border titlebar]. by rewrite Et. }
    destruct Eo' as [-> ->]. assert (Eth : titlebar_height (set_children [] act (set_titlebar (Some (set_children chs act' t)) w)) = titlebar_height w) by (rewrite Eh; done). rewrite Eth.
    split_and!; try done. cbn [set_children set_titlebar titlebar]. eexists. split; [exact Etc|]. by apply Forall_app.
  - intros X Y Hn. rewrite !colour_unfold, Hch. cbn [set_children children front]. unfold self_colour. cbn [set_children set_titlebar titlebar border rect]. rewrite Et, Etc.
    rewrite tree_calls_unfold, Eown. cbn [mbind option_bind]. rewrite Erest. cbn [mbind option_bind default id].
    change (content_calls (set_children [] act (set_titlebar (Some (set_children chs act' t)) w))) with (content_calls w). change (border_calls (set_children [] act (set_titlebar (Some (set_children chs act' t)) w))) with (border_calls (set_titlebar (Some (set_children chs act' t)) w)).
    assert (Eb : border_calls (set_titlebar (Some (set_children chs act' t)) w) = border_calls w) by (unfold border_calls, titlebar_height; cbn [set_titlebar titlebar set_children rect border border_color]; by rewrite Et).
    rewrite Eb. unfold over. rewrite (plain_offset _ Hp). assert (Ex : u32 (px (pos_sum ps) + rx (rect w)) = ox) by (apply u32_small; lia). assert (Ey : u32 (py (pos_sum ps) + ry (rect w)) = oy) by (apply u32_small; lia). rewrite Ex, Ey.
    rewrite !shade_app. unfold over. rewrite !shade_app. unfold over. by rewrite Hsh.
Qed.

(** ** The walk down to the windows of programs *)

(** A window that is raised is dragged from now on. *)
Definition outcome_told (r : outcome) (a : Z) (A : list Z) (ms : list Rect) (g g' : Gui) : Prop :=
  match r with
  | Raised => exists g1 x y, told A ms g g1 /\ g' = set_drag x y (Some a) g1 /\ 0 <= x /\ 0 <= y
  | _ => told A ms g g'
  end.

Lemma hmr_win w p ps ns g : Win w -> exists r w' g' ms, handle_mouse_recursive w (p :: ps) ns g = Some (r, w', g') /\ touch_win (p :: ps) w w' ms /\ outcome_told r (addr w') (addrs w) ms g g'.
Proof.
  intros HW. pose proof HW as [Hc Hch (t & Et & Hb)]. pose proof (bar_Plain _ Hb) as Hpl. rewrite hmr_unfold. cbv zeta. rewrite Et, Hch. cbn [scan mbind option_bind].
  assert (Hbar : exists r t' g' ms, handle_mouse_recursive t (w :: p :: ps) ns (set_last (Some (addr t)) g) = Some (r, t', g') /\ r <> Raised /\ touch (w :: p :: ps) t t' ms /\ told (addrs w) ms g g').
  { destruct (hmr_plain t Hpl (w :: p :: ps) ns (set_last (Some (addr t)) g)) as (r & t' & g' & ms & E & Hr & Ht & Hto). exists r, t', g', ms. split_and!; [done|done|done|].
    eapply told_sub; [|exact (told_trans _ _ _ _ _ _ _ (told_last (addr t) g) Hto)]. rewrite (addrs_unfold w), Et, (addrs_unfold t). set_solver. }
  destruct Hbar as (r & t' & g1 & ms & E & Hr & Ht & Hto).
  assert (Hwin : forall act, touch_win (p :: ps) w (set_children [] act (set_titlebar (Some t') w)) ms) by (intros act; by exists t, t', act).
  assert (Hwin0 : set_titlebar (Some t') w = set_children [] (active_child w) (set_titlebar (Some t') w)) by (destruct w; cbn in *; by subst).
  assert (Hsame : set_children [] (active_child w) w = w) by (destruct w; cbn in *; by subst). rewrite Hsame.
  destruct (negb _ && _ && _).
  - rewrite E. cbn [mbind option_bind]. destruct r; [| |done].
    + eexists Raised, _, _, ms. split; [done|]. split; [rewrite Hwin0; apply Hwin|]. eexists g1, _, _. split_and!; [done|done|apply (wrap_bound 32); lia|apply (wrap_bound 32); lia].
    + eexists Handled, _, _, ms. split; [done|]. split; [rewrite Hwin0; apply Hwin|]. rewrite <- (app_nil_r ms). eapply told_sub; [|exact (told_trans _ _ _ _ _ _ _ Hto (told_drop [] g1))]. set_solver.
  - destruct (bool_decide _); [eexists Handled, w, g, []; split; [done|]; split; [by apply touch_win_refl|apply told_refl]|].
    destruct (negb _).
    + destruct (contains (bar_rect w t (p :: ps)) (pos ns)); [|eexists Ignored, w, g, []; split; [done|]; split; [by apply touch_win_refl|apply told_refl]].
      rewrite E. cbn [mbind option_bind]. eexists _, _, _, ms. split; [done|]. split; [rewrite Hwin0; apply Hwin|]. by destruct r.
    + destruct (class_touch w (p :: ps) ns (set_last (Some (addr w)) g)) as (b & w2 & g2 & own & E2 & Hs2 & Ht2). rewrite E2. destruct Hs2 as [[-> ->]|(? & ? & ? & ? & ? & E' & _)]; [|congruence].
      eexists _, w, g2, []. split; [done|]. split; [by apply touch_win_refl|]. assert (Hto2 : told (addrs w) [] g g2) by (eapply told_sub; [|exact (told_trans _ _ _ _ _ _ _ (told_last (addr w) g) Ht2)]; rewrite addrs_unfold; set_solver). by destruct b.
Qed.

Inductive wins (ps : list Window) : list Window -> list Window -> list Rect -> Prop :=
| wins_nil : wins ps [] [] []
| wins_cons w w' l l' m1 m2 : touch_win ps w w' m1 -> wins ps l l' m2 -> wins ps (w :: l) (w' :: l') (m2 ++ m1).

Lemma wins_refl ps l : Forall Win l -> wins ps l l [].
Proof. induction 1 as [|w l Hw _ IH]; [constructor|]. change (@nil Rect) with (@nil Rect ++ []). constructor; [by apply touch_win_refl|done]. Qed.

Lemma wins_ok ps l l' ms : wins ps l l' ms -> Forall Win l -> Forall Win l' /\ all_addrs l' = all_addrs l /\ map addr l' = map addr l /\ map outer0 l' = map outer0 l /\ map (outer_rect ps) l' = map (outer_rect ps) l.
Proof.
  induction 1 as [|w w' l l' m1 m2 Hw _ IH]; [done|]. intros [W1 W2]%Forall_cons. destruct (IH W2) as (I1 & I2 & I3 & I4 & I5). destruct (touch_win_ok _ _ _ _ Hw W1) as (T1 & T2 & T3 & T4 & T5 & T6).
  cbn [map]. rewrite !all_addrs_cons, I2, I3, I4, I5, T2, T3, T5, T6. split; [by constructor|done].
Qed.

Lemma wins_marks ps l l' ms : wins ps l l' ms -> Forall Win l -> Forall (placed ps) l ->
  Forall Tidy l' /\ Forall (fun r => ok r /\ Exists (fun ch => within r (outer_rect ps ch)) l) ms /\
  forall X Y, ~ covers ms X Y -> front (fun ch => colour ch ps X Y) (outer_rect ps) X Y l' = front (fun ch => colour ch ps X Y) (outer_rect ps) X Y l.
Proof.
  induction 1 as [|w w' l l' m1 m2 Hw _ IH]; [done|]. intros [W1 W2]%Forall_cons [P1 P2]%Forall_cons. destruct (IH W2 P2) as (I1 & I2 & I3). destruct (touch_win_marks _ _ _ _ Hw W1 P1) as (T1 & T2 & T3). destruct (touch_win_ok _ _ _ _ Hw W1) as (_ & _ & _ & _ & _ & T6).
  split; [by constructor|]. split.
  - apply Forall_app. split; [eapply Forall_impl; [exact I2|]; intros r [? ?]; split; [done|by right]|eapply Forall_impl; [exact T2|]; intros r [? ?]; split; [done|by left]].
  - intros X Y. rewrite covers_app. intros Hn. cbn [front]. by rewrite I3, T3, T6 by tauto.
Qed.

(** What the hit says of the window that was hit, and of the rest. *)
Definition hit_told (hit : option (nat * outcome)) (l' : list Window) (A : list Z) (ms : list Rect) (g g' : Gui) : Prop :=
  match hit with
  | Some (i, r) => exists w, l' !! i = Some w /\ r <> Ignored /\ outcome_told r (addr w) A ms g g'
  | None => told A ms g g'
  end.

Lemma outcome_told_sub r a A A' ms g g' : (forall x, x ∈ A -> x ∈ A') -> outcome_told r a A ms g g' -> outcome_told r a A' ms g g'.
Proof. intros H. destruct r; cbn; [by apply told_sub..|]. intros (g1 & x & y & Ht & ?). exists g1, x, y. split; [by eapply told_sub|done]. Qed.
Lemma outcome_told_trans A1 A2 m1 m2 r a g1 g2 g3 : told A1 m1 g1 g2 -> outcome_told r a A2 m2 g2 g3 -> outcome_told r a (A1 ++ A2) (m1 ++ m2) g1 g3.
Proof. intros H1. destruct r; cbn; [by apply told_trans..|]. intros (g & x & y & Ht & ?). exists g, x, y. split; [by eapply told_trans|done]. Qed.

Lemma scan_wins p ps ns l : Forall Win l -> forall g, exists l' g' hit ms, scan (fun ch g => handle_mouse_recursive ch (p :: ps) ns g) l g = Some (l', g', hit) /\ wins (p :: ps) l l' ms /\ hit_told hit l' (all_addrs l) ms g g'.
Proof.
  induction 1 as [|w l Hw Hl IH]; intros g; [exists [], g, None, []; split_and!; [done|constructor|apply told_refl]|].
  destruct (IH g) as (l' & g1 & hit & m2 & E & Hws & Hto). cbn [scan]. fold (scan (fun ch g => handle_mouse_recursive ch (p :: ps) ns g)). rewrite E. cbn [mbind option_bind]. rewrite all_addrs_cons. destruct hit as [[i r]|].
  - destruct Hto as (v & Hv & Hr & Hto). eexists (w :: l'), g1, _, (m2 ++ []). split_and!; [done|constructor; [by apply touch_win_refl|done]|]. rewrite app_nil_r. exists v. split_and!; [done|done|]. eapply outcome_told_sub; [|exact Hto]. set_solver.
  - cbn [hit_told] in Hto. destruct (hmr_win w p ps ns g1 Hw) as (r & w' & g2 & m1 & E1 & Ht1 & Hto1). rewrite E1. cbn [mbind option_bind]. eexists (w' :: l'), g2, _, (m2 ++ m1). split_and!; [done|by constructor|].
    assert (H12 : outcome_told r (addr w') (addrs w ++ all_addrs l) (m2 ++ m1) g g2) by (eapply outcome_told_sub; [|exact (outcome_told_trans _ _ _ _ _ _ _ _ _ Hto Hto1)]; set_solver).
    destruct r; [exact H12|exists w'; by split_and!..].
Qed.

(** The desktop: its windows, of which one may have come to the front. *)
Inductive desk_hit (root root' : Window) (ms : list Rect) (g g' : Gui) : Prop :=
| hit_same l' act : wins [root] (children root) l' ms -> root' = set_children l' act root -> told (all_addrs (children root)) ms g g' -> desk_hit root root' ms g g'
| hit_raised l' act i w : wins [root] (children root) l' ms -> l' !! i = Some w -> root' = set_children (delete i l' ++ [w]) act root ->
    outcome_told Raised (addr w) (all_addrs (children root)) ms g g' -> desk_hit root root' ms g g'.

Lemma hmr_desk root ns g : titlebar root = None -> Forall Win (children root) -> exists r root' g' ms, handle_mouse_recursive root [] ns g = Some (r, root', g') /\ r <> Raised /\ desk_hit root root' ms g g'.
Proof.
  intros Ht Hw. rewrite hmr_unfold. cbv zeta. rewrite Ht. destruct (scan_wins root [] ns (children root) Hw g) as (l' & g1 & hit & ms & E & Hws & Hto). rewrite E. cbn [mbind option_bind]. destruct hit as [[i r]|].
  - destruct Hto as (w & Hi & Hr & Hto). unfold child_handled. rewrite Hi. cbn [mbind option_bind]. destruct r; [done| |].
    + destruct (left_pressed ns); cbn [mbind option_bind]; rewrite ?Hi; cbn [mbind option_bind]; eexists _, _, _, ms; (split; [done|]; split; [done|]; by eapply hit_same).
    + pose proof (lookup_lt_Some _ _ _ Hi) as Hlt. destruct (left_pressed ns); cbn [mbind option_bind].
      * destruct (lookup_lt_is_Some_2 (delete i l' ++ [w]) i) as [v Ev]; [rewrite length_app, length_delete by (by exists w); cbn; lia|]. rewrite Ev. cbn [mbind option_bind]. eexists _, _, _, ms. split; [done|]. split; [done|]. by eapply hit_raised.
      * eexists _, _, _, ms. split; [done|]. split; [done|]. by eapply hit_raised.
  - eexists _, _, _, ms. split; [done|]. split; [done|]. by eapply hit_same.
Qed.

Lemma scan_plain ns l : Forall Plain l -> forall g, exists l' g' hit ms, scan (fun w g => handle_mouse_recursive w [] ns g) l g = Some (l', g', hit) /\ touches [] l l' ms /\ told (all_addrs l) ms g g'.
Proof.
  induction 1 as [|w l Hw Hl IH]; intros g; [exists [], g, None, []; split_and!; [done|constructor|apply told_refl]|].
  destruct (IH g) as (l' & g1 & hit & m2 & E & Hws & Hto). cbn [scan]. fold (scan (fun w g => handle_mouse_recursive w [] ns g)). rewrite E. cbn [mbind option_bind]. rewrite all_addrs_cons. destruct hit as [[i r]|].
  - eexists (w :: l'), g1, _, (m2 ++ []). split_and!; [done|constructor; [by apply touch_refl|done]|]. rewrite app_nil_r. eapply told_sub; [|exact Hto]. set_solver.
  - destruct (hmr_plain w Hw [] ns g1) as (r & w' & g2 & m1 & E1 & _ & Ht1 & Hto1). rewrite E1. cbn [mbind option_bind]. eexists (w' :: l'), g2, _, (m2 ++ m1). split_and!; [done|by constructor|]. eapply told_sub; [|exact (told_trans _ _ _ _ _ _ _ Hto Hto1)]. set_solver.
Qed.

(** All the roots: the others first, then the desktop. *)
Lemma scan_roots root others ns g : titlebar root = None -> Forall Win (children root) -> Forall Plain others ->
  exists root' others' g1 g2 hit m1 m2, scan (fun w g => handle_mouse_recursive w [] ns g) (root :: others) g = Some (root' :: others', g2, hit) /\
    touches [] others others' m1 /\ told (all_addrs others) m1 g g1 /\ desk_hit root root' m2 g1 g2.
Proof.
  intros Ht Hw Ho. destruct (scan_plain ns others Ho g) as (others' & g1 & hit & m1 & E & Htl & Hto). cbn [scan]. fold (scan (fun w g => handle_mouse_recursive w [] ns g)). rewrite E. cbn [mbind option_bind]. destruct hit as [[i r]|].
  - exists root, others', g1, g1, (Some (S i, r)), m1, []. split_and!; [done|done|done|]. eapply (hit_same _ _ _ _ _ (children root) (active_child root)); [by apply wins_refl|by destruct root|apply told_refl].
  - destruct (hmr_desk root ns g1 Ht Hw) as (r & root' & g2 & m2 & E2 & _ & Hd). rewrite E2. cbn [mbind option_bind]. by eexists root', others', g1, g2, _, m1, m2.
Qed.

(** ** The window that the mouse leaves *)

Lemma leave_touch w ps ns g : exists w' g' own, on_mouse_leave w ps ns g = (w', g') /\ touch_self ps w w' own /\ told [] own g g'.
Proof.
  unfold on_mouse_leave. destruct (cls w) as [|prev act inact|tw| | |] eqn:Ec; try (eexists w, g, []; split_and!; [done|by left|apply told_refl]).
  - unfold button_on_mouse_leave. destruct prev; [|eexists w, g, []; split_and!; [done|by left|apply told_refl]]. eexists _, _, [get_abs_rect ps w]. split_and!; [done|right; by eexists _, _, _, _, _|apply told_mark].
  - eexists w, _, []. split_and!; [done|by left|]. unfold desktop_on_mouse_leave. destruct (internal w); [apply told_refl|apply told_emit].
Qed.

Lemma addr_in_addrs w : addr w ∈ addrs w.
Proof. rewrite addrs_unfold. apply list_elem_of_here. Qed.

(** The search finds a window, and what becomes of it, the tree becomes. *)
Definition found (a : Z) (ps : list Window) (o : option (Window * list Window)) (R : (Window -> Window) -> list Rect -> Prop) : Prop :=
  exists b qs, o = Some (b, qs) /\ forall b' own, touch_self qs b b' own -> R (update a (fun _ => b')) own.

Lemma found_list (T : list Window -> Window -> Window -> list Rect -> Prop) (L : list Window -> list Window -> list Window -> list Rect -> Prop) (P : Window -> Prop) a ps l :
  (forall w, P w -> T ps w w []) -> L ps [] [] [] -> (forall w w' l l' m1 m2, T ps w w' m1 -> L ps l l' m2 -> L ps (w :: l) (w' :: l') (m2 ++ m1)) ->
  Forall P l -> Forall (fun w => a ∈ addrs w -> NoDup (addrs w) -> found a ps (find_in a ps w) (fun f own => T ps w (f w) own)) l ->
  a ∈ all_addrs l -> NoDup (all_addrs l) -> found a ps (first_of (find_in a ps) l) (fun f own => L ps l (map f l) own).
Proof.
  intros Hrefl Hnil Hcons HP. assert (Hl : forall k, Forall P k -> L ps k k []) by (induction 1 as [|w k Hw _ IH]; [done|]; apply (Hcons w w k k [] []); auto).
  induction HP as [|w l Hw HP IH]; intros Hf Hin Hnd; [set_solver|]. apply Forall_cons in Hf as [F1 F2]. rewrite all_addrs_cons in Hin, Hnd. apply NoDup_app in Hnd as (N1 & N2 & N3). cbn [first_of map]. destruct (decide (a ∈ addrs w)) as [Ha|Ha].
  - destruct (F1 Ha N1) as (b & qs & E & Hb). rewrite E. exists b, qs. split; [done|]. intros b' own Hs. rewrite <- (app_nil_l own). apply Hcons; [by apply Hb|]. rewrite map_same; [by apply Hl|].
    apply N2, all_addrs_forall in Ha. eapply Forall_impl; [exact Ha|]. intros v Hv. by apply update_notin.
  - rewrite (find_in_notin a w) by done. destruct (IH F2) as (b & qs & E & Hb); [set_solver|done|]. exists b, qs. split; [done|]. intros b' own Hs. rewrite <- (app_nil_r own), (update_notin a _ w) by done. apply Hcons; [by apply Hrefl|by apply Hb].
Qed.

Lemma found_plain w : Plain w -> forall a ps, a ∈ addrs w -> NoDup (addrs w) -> found a ps (find_in a ps w) (fun f own => touch ps w (f w) own).
Proof.
  induction w as [w IH] using window_tree_ind. intros [Ht Hc]%Plain_unfold a ps. rewrite addrs_unfold, Ht. cbn [app]. intros Hin [N1 N2]%NoDup_cons. rewrite find_in_unfold, Ht. unfold found. setoid_rewrite update_unfold. destruct (Z.eqb_spec (addr w) a) as [<-|Hne].
  - exists w, ps. split; [done|]. intros b' own Hs. destruct (touch_self_geom _ _ _ _ Hs) as (_ & _ & _ & Ech & _). assert (E : b' = set_children (children w) (active_child b') b') by (rewrite <- Ech; by destruct b'). rewrite E.
    rewrite <- (app_nil_l own). apply touch_node; [done|by apply touches_refl|done].
  - destruct (found_list touch touches Plain a (w :: ps) (children w)) as (b & qs & E & Hb); [intros v Hv; by apply touch_refl|constructor|by constructor|done| |set_solver|done|].
    + rewrite Forall_forall in *. intros v Hv. apply IH; [done|by apply Hc].
    + exists b, qs. split; [exact E|]. intros b' own Hs. rewrite Ht. assert (E' : set_titlebar None (set_children (map (update a (fun _ => b')) (children w)) (active_child w) w) = set_children (map (update a (fun _ => b')) (children w)) (active_child w) w).
      { destruct w. cbn in *. by subst. }
      rewrite E'. rewrite <- (app_nil_r own). apply touch_node; [done|by apply Hb|by left].
Qed.

Lemma found_win w : Win w -> forall a ps, a ∈ addrs w -> NoDup (addrs w) -> found a ps (find_in a ps w) (fun f own => touch_win ps w (f w) own).
Proof.
  intros HW a ps. pose proof HW as [Hc Hch (t & Et & Hb)]. rewrite addrs_unfold, Et, Hch. cbn [all_addrs flat_of]. rewrite app_nil_r. intros Hin [N1 N2]%NoDup_cons. rewrite find_in_unfold, Et. unfold found. setoid_rewrite update_unfold. destruct (Z.eqb_spec (addr w) a) as [<-|Hne].
  - exists w, ps. split; [done|]. intros b' own [[-> ->]|(? & ? & ? & ? & ? & E & _)]; [by apply touch_win_refl|congruence].
  - destruct (found_plain t (bar_Plain _ Hb) a (w :: ps)) as (b & qs & E & Hb'); [set_solver|done|]. rewrite E. exists b, qs. split; [done|]. intros b' own Hs. exists t, (update a (fun _ => b') t), (active_child w). split_and!; [done|by apply Hb'|]. rewrite Et, Hch. by destruct w.
Qed.

Lemma found_roots root others a : titlebar root = None -> Forall Win (children root) -> Forall Plain others -> NoDup (all_addrs (root :: others)) -> a ∈ all_addrs (children root) ++ all_addrs others ->
  exists b qs, find a (root :: others) = Some (b, qs) /\ forall b' own, touch_self qs b b' own ->
    exists l' others' m1 m2, map (update a (fun _ => b')) (root :: others) = set_children l' (active_child root) root :: others' /\ touches [] others others' m1 /\ wins [root] (children root) l' m2 /\ own = m1 ++ m2.
Proof.
  intros Ht Hw Ho Hnd Hin. rewrite all_addrs_cons, addrs_unfold, Ht in Hnd. cbn [app] in Hnd. apply NoDup_cons in Hnd as [N1 Hnd]. pose proof Hnd as (N2 & N3 & N4)%NoDup_app. unfold find. cbn [first_of map]. rewrite find_in_unfold, Ht. setoid_rewrite update_unfold.
  destruct (Z.eqb_spec (addr root) a) as [<-|Hne]; [done|]. rewrite Ht. assert (Eroot : forall l, set_titlebar None (set_children l (active_child root) root) = set_children l (active_child root) root) by (intros l; destruct root; cbn in *; by subst).
  destruct (decide (a ∈ all_addrs (children root))) as [Ha|Ha].
  - destruct (found_list touch_win wins Win a [root] (children root)) as (b & qs & E & Hb); [intros v Hv; by apply touch_win_refl|constructor|by constructor|done| |done|done|].
    + eapply Forall_impl; [exact Hw|]. intros v Hv. by apply found_win.
    + rewrite E. exists b, qs. split; [done|]. intros b' own Hs. eexists _, others, [], own. split_and!; [|by apply touches_refl|by apply Hb|done]. rewrite Eroot. f_equal. apply map_same. apply N3, all_addrs_forall in Ha. eapply Forall_impl; [exact Ha|]. intros v Hv. by apply update_notin.
  - assert (En : first_of (find_in a [root]) (children root) = None).
    { apply first_of_none. apply all_addrs_forall in Ha. eapply Forall_impl; [exact Ha|]. intros v Hv. by apply find_in_notin. }
    rewrite En. destruct (found_list touch touches Plain a [] others) as (b & qs & E & Hb); [intros v Hv; by apply touch_refl|constructor|by constructor|done| |set_solver|done|].
    + eapply Forall_impl; [exact Ho|]. intros v Hv. by apply found_plain.
    + rewrite E. exists b, qs. split; [done|]. intros b' own Hs. eexists (children root), _, own, []. split_and!; [|by apply Hb|by apply wins_refl|by rewrite app_nil_r]. rewrite Eroot. f_equal. f_equal. apply map_same. apply all_addrs_forall in Ha. eapply Forall_impl; [exact Ha|]. intros v Hv. by apply update_notin.
Qed.

(** ** The event, step by step *)

Definition leave (ns : MouseState) (g : Gui) : option Gui :=
  match last_mouse_over g with
  | Some a =>
      '(w, parents) ← find a (root_windows g);
      let r := content_rect w parents in
      let '(w', g) := if negb (contains r (pos ns)) && contains r (pos (mouse_state g)) then on_mouse_leave w parents ns g else (w, g) in
      Some (set_last None (set_roots (map (update a (fun _ => w')) (root_windows g)) g))
  | None => Some g
  end.
Definition release (ns : MouseState) (g : Gui) : Gui := if negb (left_pressed ns) then set_dragging None g else g.
Definition route (ns : MouseState) (g : Gui) : option Gui :=
  match dragging g with
  | Some a => '(w, parents) ← find a (root_windows g); drag w parents ns g
  | None => '(l, g, hit) ← scan (fun w g => handle_mouse_recursive w [] ns g) (root_windows g) g; Some (set_roots l g)
  end.
Definition point (ns : MouseState) (g : Gui) : Gui :=
  set_mouse ns (if draw_cursor g then mark_all (moved (cursor_rect (ctx g) (pos (mouse_state g))) (cursor_rect (ctx g) (pos ns))) g else g).

Lemma handle_mouse_steps ns g : handle_mouse ns g = (g1 ← leave ns g; g2 ← route ns (release ns g1); Some (point ns g2)).
Proof. done. Qed.

End UiMouse.
