(* ===== verification/UiDesk.v ===== *)
(** * The desktop (src/apps/desktop/src)

    Windows of programs are children of the first root.  They are opened, moved and closed;
    the screen stays up to date. *)

From S2P Require Import Prelude UiDraw UiWindow UiGui UiMouse.


Module UiDesk.
Import UiRect UiContext UiText UiWindow UiPaint UiTidy UiGui UiGuiCorrect UiFresh UiMouse.

Definition TITLEBAR_HEIGHT : Z := 20.
Definition BORDER_WIDTH : Z := 4.
Definition BORDER_COLOR : Z := 0xFFFFFF.
Definition TITLEBAR_ACTIVE_COLOR : Z := 0xFFFFFF.
Definition TASKBAR_HEIGHT : Z := 30.
Definition no_border : Border := mkBorder 0 0 0 0.

(** The addresses of the parts of a new window. *)
Record Ids := mkIds { id_window : Z; id_titlebar : Z; id_close : Z; id_title : Z }.

(** [TitlebarWindow::TitlebarWindow], then [update_titlebar]. *)
Definition close_button (i : Ids) (w : Z) : Window :=
  mkWindow (id_close i) (ButtonWindow false 0xFF0000 0x00FFFF) (mkRect (u32 (w - TITLEBAR_HEIGHT - BORDER_WIDTH)) (BORDER_WIDTH / 4) (TITLEBAR_HEIGHT - BORDER_WIDTH / 2) (TITLEBAR_HEIGHT - BORDER_WIDTH / 2))
    no_border 0x00FFFF 0 true false None None None [].
Definition title (i : Ids) (ft : Font) (w : Z) : Window :=
  mkWindow (id_title i) (TextWin (mkText [] 0 ft)) (mkRect 0 0 (w / 2) (TITLEBAR_HEIGHT - BORDER_WIDTH / 2)) no_border TITLEBAR_ACTIVE_COLOR 0 false false None None None [].
Definition new_titlebar (i : Ids) (ft : Font) (w : Z) : Window :=
  let tw := u32 (w + BORDER_WIDTH * 2) in
  mkWindow (id_titlebar i) TitlebarWindow (mkRect 0 0 tw TITLEBAR_HEIGHT) no_border TITLEBAR_ACTIVE_COLOR 0 false true None None None [close_button i tw; title i ft tw].

(** [DesktopWindow::DesktopWindow] with a position, a size and pixels. *)
Definition new_window (i : Ids) (ft : Font) (x y w h : Z) (pixels : list Z) : Window :=
  mkWindow (id_window i) DesktopWindow (mkRect x y w h) (mkBorder BORDER_WIDTH BORDER_WIDTH 0 BORDER_WIDTH) 0 BORDER_COLOR false false None (Some pixels) (Some (new_titlebar i ft w)) [].

Definition add_window (w : Window) (g : Gui) : Gui :=
  match root_windows g with
  | root :: others => set_roots (add_child w root :: others) g
  | [] => g
  end.

(** The request of a program for a window. *)
Definition create_window (i : Ids) (ft : Font) (x y w h : Z) (g : Gui) : Gui :=
  mark (mkRect x y (u32 (w + BORDER_WIDTH * 2)) (u32 (h + TITLEBAR_HEIGHT + BORDER_WIDTH)))
    (add_window (new_window i ft x y w h (replicate (Z.to_nat (u32 (w * h * 4) / 4)) 0)) g).

(** [Gui::Gui] and [Desktop::Desktop], with the task bar as it is made. *)
Definition new_desktop (root_id : Z) (c : Context) (taskbar : Window) (keys : nat) : option Gui :=
  let h := u32 (cheight c - TASKBAR_HEIGHT) in
  let root := mkWindow root_id BaseWindow (mkRect 0 0 (cwidth c) h) no_border 0 0 true false None None None [] in
  _ ← assert (TASKBAR_HEIGHT <? cheight c);
  let c := add_dirty (mkRect 0 h (cwidth c) TASKBAR_HEIGHT) (add_dirty (mkRect 0 0 (cwidth c) h) c) in
  Some (mkGui [root; set_pos 0 h taskbar] c (mkMouse (mkPoint 0 0) false false false) 0 0 None None (replicate keys false) true []).

(** A movement of the mouse along one axis, kept on the screen. *)
Definition move_mouse (p movement size : Z) : Z :=
  if p + movement <? 0 then 0 else if p + movement >? size then size else p + movement.

(** ** The invariant *)

Record Desk (root : Window) (others : list Window) (g : Gui) : Prop := {
  dk_screen : Screen (ctx g);
  dk_roots : root_windows g = root :: others;
  dk_tidy : Tidy root;
  dk_place : titlebar root = None /\ within (rect root) (screen_rect (ctx g));
  dk_origin : rx (rect root) = 0 /\ ry (rect root) = 0;
  dk_wins : Forall Win (children root);
  dk_others : Forall (fun o => Plain o /\ Tidy o /\ within (outer0 o) (screen_rect (ctx g))) others;
  dk_dirty : Forall (fun r => ok r /\ within r (screen_rect (ctx g))) (dirty_rects (ctx g));
  dk_sub : sub_rects (ctx g) = [];
  dk_mouse : 0 <= px (pos (mouse_state g)) <= cwidth (ctx g) /\ 0 <= py (pos (mouse_state g)) <= cheight (ctx g);
  dk_addrs : NoDup (all_addrs (root_windows g));
  dk_last : forall a, last_mouse_over g = Some a -> a ∈ all_addrs (children root) ++ all_addrs others;
  dk_drag : forall a, dragging g = Some a -> 0 <= drag_x_off g /\ 0 <= drag_y_off g /\ a ∈ map addr (children root)
}.

Lemma desk_room root others g : Desk root others g -> room (pos_sum []) root /\ pos_sum [root] = mkPoint (rx (rect root)) (ry (rect root)) /\ plain [root] /\ outer_rect [] root = rect root.
Proof.
  intros [S _ Ht [Hn Hw] _ _ _ _ _ _ _ _ _]. apply Tidy_unfold in Ht as [Hs _]. pose proof Hs as (H0 & H1 & H2 & H3 & H4 & _). destruct S as [S1 S2 S3 S4].
  assert (En : no_decorations root = true) by (unfold no_decorations; by rewrite Hn). unfold within, screen_rect in Hw. cbn [rx ry width height] in Hw.
  assert (Hr : room (pos_sum []) root) by (unfold room, outer_w, outer_h; rewrite En; cbn [pos_sum px py]; lia). split; [done|]. split; [|split; [by constructor|]].
  - cbn [pos_sum]. rewrite En. cbn [px py]. rewrite !u32_small by lia. f_equal; lia.
  - rewrite outer_rect_at by (done || constructor). unfold outer_w, outer_h. rewrite En. cbn [pos_sum px py]. rewrite !Z.add_0_r. by destruct (rect root).
Qed.

Lemma desk_root root others g : Desk root others g -> placed [] root.
Proof. intros HD. pose proof (desk_room _ _ _ HD) as (Hr & _). split; [apply HD|]. split; [constructor|done]. Qed.

Lemma desk_other root others g o : Desk root others g -> o ∈ others -> placed [] o /\ within (outer_rect [] o) (screen_rect (ctx g)).
Proof.
  intros HD Hin. pose proof (dk_others _ _ _ HD) as Ho. rewrite Forall_forall in Ho. destruct (Ho o Hin) as (Hp & Ht & Hw). pose proof (proj1 (proj1 (Tidy_unfold _) Ht)) as Hs. destruct (dk_screen _ _ _ HD) as [S1 S2 S3 S4]. pose proof Hw as Hw0. unfold within, outer0, screen_rect in Hw. cbn [rx ry width height] in Hw.
  assert (Hr : room (pos_sum []) o) by (unfold room; cbn [pos_sum px py]; lia). split; [split_and!; [done|constructor|done]|]. rewrite outer_rect_at by (done || constructor). cbn [pos_sum px py]. exact Hw0.
Qed.

Lemma desk_drawable root others g : Desk root others g -> Drawable g.
Proof.
  intros HD. pose proof (desk_room _ _ _ HD) as (Hr & _). pose proof (desk_other root others g) as Hoth. pose proof HD as [S Er Ht [Hn Hw] Hz Hwn Ho Hd Hs Hm _ _ _]. split; [done| |done|done|].
  - rewrite Er. constructor; [apply (tidy_place root Ht [] ltac:(constructor) Hr)|]. apply Forall_forall. intros o Hin. destruct (Hoth o HD Hin) as [(P1 & P2 & P3) _]. apply (tidy_place o P1 [] P2 P3).
  - destruct S. unfold ok. cbn [mouse_rect rx ry width height]. lia.
Qed.

(** A child of the root. *)
Lemma desk_child root others g ch : Desk root others g -> within (outer0 ch) (mkRect 0 0 (width (rect root)) (height (rect root))) -> Tidy ch ->
  ok (outer_rect [root] ch) /\ within (outer_rect [root] ch) (screen_rect (ctx g)) /\
  outer_rect [root] ch = mkRect (rx (rect root) + rx (rect ch)) (ry (rect root) + ry (rect ch)) (outer_w ch) (outer_h ch) /\
  forall X Y col, colour ch [root] X Y = Some col -> In_rect (outer_rect [root] ch) X Y.
Proof.
  intros HD Hw Htc. pose proof (desk_room _ _ _ HD) as (Hr & Ep & Hpl & Eo). pose proof HD as [S Er Ht [Hn Hws] Hz _ Ho Hd Hs Hm _ _ _]. pose proof (proj1 (proj1 (Tidy_unfold _) Ht)) as Hsr. pose proof (proj1 (proj1 (Tidy_unfold _) Htc)) as Hsc.
  destruct (tidy_child root [] ch Hsr ltac:(constructor) Hr Hw) as (_ & Hrc & _). split; [by apply outer_ok|]. split; [|split].
  - rewrite outer_rect_at by done. rewrite Ep. cbn [px py]. unfold within, outer0 in *. cbn [rx ry width height] in *. lia.
  - rewrite outer_rect_at by done. by rewrite Ep.
  - apply (tidy_place ch Htc [root] Hpl Hrc).
Qed.

(** ** Drawing *)

Lemma desk_draw S root others g : Desk root others g -> Fresh S g ->
  exists g', gui_draw g = Some g' /\ Desk root others g' /\ Fresh (fun X Y => S X Y /\ ~ covers (dirty_rects (ctx g)) X Y) g' /\ dirty_rects (ctx g') = [].
Proof.
  intros HD Hf. destruct (draw_fresh S g (desk_drawable _ _ _ HD) Hf) as (g' & E & Hf' & Hd' & (c' & ->) & Hsame & Hl). exists (set_ctx c' g). split_and!; [done| |done|done].
  destruct HD as [Sc Er Ht [Hn Hw] Hz Hwn Ho Hd Hs Hm Ha Hl1 Hdr]. destruct Hsame as (S1 & S2 & S3 & S4 & S5). cbn [ctx set_ctx set_dirty pitch_32 cwidth cheight dirty_rects sub_rects] in *.
  assert (Es : screen_rect c' = screen_rect (ctx g)) by (unfold screen_rect; by rewrite S2, S3).
  split; cbn [ctx set_ctx root_windows mouse_state last_mouse_over dragging drag_x_off drag_y_off]; rewrite ?Es, ?S2, ?S3, ?S4, ?S5; try done. by eapply Screen_eq.
Qed.

(** ** What an operation has to keep *)

(** Off the pixels [S'] and off its marks the colours are as before. *)
Lemma desk_change (S S' : Z -> Z -> Prop) root others g root' others' marks g' : Desk root others g -> Fresh S g ->
  root_windows g' = root' :: others' -> Tidy root' -> titlebar root' = None -> rect root' = rect root -> Forall Win (children root') ->
  Forall (fun o => Plain o /\ Tidy o /\ within (outer0 o) (screen_rect (ctx g))) others' -> NoDup (all_addrs (root_windows g')) ->
  Forall (fun r => ok r /\ within r (screen_rect (ctx g))) marks -> ctx g' = set_dirty (dirty_rects (ctx g) ++ marks) (ctx g) -> mouse_state g' = mouse_state g -> draw_cursor g' = draw_cursor g ->
  (forall a, last_mouse_over g' = Some a -> a ∈ all_addrs (children root') ++ all_addrs others') ->
  (forall a, dragging g' = Some a -> 0 <= drag_x_off g' /\ 0 <= drag_y_off g' /\ a ∈ map addr (children root')) ->
  (forall X Y, on_screen (ctx g) X Y -> ~ S' X Y -> ~ covers marks X Y -> ~ S X Y /\ colour root' [] X Y = colour root [] X Y /\ roots_colour others' X Y = roots_colour others X Y) ->
  Desk root' others' g' /\ Fresh S' g'.
Proof.
  intros HD Hf Er' Ht' Hn' Erc Hw' Ho' Hnd' Hmk Ectx Em Ec Hl' Hd' Hcol. pose proof HD as [Sc Er Ht [Hn Hw] Hz Hwn Ho Hd Hs Hm Ha Hl Hdr]. split.
  - split; rewrite ?Ectx, ?Em, ?Erc; cbn [set_dirty cwidth cheight dirty_rects sub_rects fb pitch_32]; try done; [by eapply Screen_eq|]. apply Forall_app. done.
  - apply (fresh_change S S' g); rewrite ?Ectx; try done. cbn [set_dirty dirty_rects]. intros X Y Hon HS. rewrite covers_app. intros Hn0. destruct (Hcol X Y Hon HS) as (C1 & C2 & C3); [tauto|]. split; [done|]. split; [tauto|]. split; [unfold at_cursor; by rewrite Em, Ec|].
    rewrite Er', Er. cbn [roots_colour]. unfold over. by rewrite C2, C3.
Qed.

(** Exchanging children of the root where the pixels are marked. *)
Lemma desk_exchange S root others g l1 d d' l2 act marks g' : Desk root others g -> Fresh S g -> children root = l1 ++ d ++ l2 ->
  Forall (fun ch => within (outer0 ch) (mkRect 0 0 (width (rect root)) (height (rect root))) /\ Tidy ch) d' -> Forall Win d' ->
  (forall ch X Y, ch ∈ d ++ d' -> In_rect (outer_rect [root] ch) X Y -> covers marks X Y) ->
  Forall (fun r => ok r /\ within r (screen_rect (ctx g))) marks ->
  root_windows g' = set_children (l1 ++ d' ++ l2) act root :: others -> NoDup (all_addrs (root_windows g')) ->
  ctx g' = set_dirty (dirty_rects (ctx g) ++ marks) (ctx g) -> draw_cursor g' = draw_cursor g -> mouse_state g' = mouse_state g ->
  (forall a, last_mouse_over g' = Some a -> a ∈ all_addrs (l1 ++ d' ++ l2) ++ all_addrs others) ->
  (forall a, dragging g' = Some a -> 0 <= drag_x_off g' /\ 0 <= drag_y_off g' /\ a ∈ map addr (l1 ++ d' ++ l2)) ->
  Desk (set_children (l1 ++ d' ++ l2) act root) others g' /\ Fresh S g'.
Proof.
  intros HD Hf Ec Hd' Hwd Hcov Hmarks Er' Hnd' Ectx Edc Em Hl' Hdr'. pose proof HD as [Sc Er Ht Hp Hz Hwn Ho Hdirty Hsub Hm Ha _ _]. pose proof (proj1 (Tidy_unfold _) Ht) as [Hs Hch]. rewrite Ec, !Forall_app in Hch. destruct Hch as (C1 & C2 & C3). rewrite Ec, !Forall_app in Hwn. destruct Hwn as (W1 & W2 & W3).
  apply (desk_change S S root others g _ others marks); try done.
  - apply Tidy_unfold. split; [exact Hs|]. cbn [set_children children]. by rewrite !Forall_app.
  - apply Hp.
  - cbn [set_children children]. by rewrite !Forall_app.
  - intros X Y Hon HS Hn. split_and!; [done| |done]. apply (colour_exchange root l1 d d' l2); [done|]. intros ch Hin. assert (Htc : within (outer0 ch) (mkRect 0 0 (width (rect root)) (height (rect root))) /\ Tidy ch).
    { rewrite Forall_forall in C2, Hd'. apply elem_of_app in Hin as [H|H]; [by apply C2|by apply Hd']. }
    destruct Htc as [Hw Htc]. destruct (desk_child root others g ch HD Hw Htc) as (_ & _ & _ & Hcol). assert (Hnin : ~ In_rect (outer_rect [root] ch) X Y) by (intros H; apply Hn; by eapply Hcov).
    split; [|done]. destruct (colour ch [root] X Y) as [col|] eqn:E; [|done]. by apply Hcol in E.
Qed.

(** ** Marks *)

Lemma moved_covers old new X Y : ok old -> ok new -> covers (moved old new) X Y <-> In_rect old X Y \/ In_rect new X Y.
Proof.
  intros Ho Hn. unfold moved. rewrite covers_app, covers_cons, covers_nil. destruct (intersects old new) eqn:E.
  - destruct (subtract_ok old new Ho Hn E) as (_ & _ & _ & Hc). rewrite Hc. destruct (decide (In_rect new X Y)); tauto.
  - rewrite covers_cons, covers_nil. tauto.
Qed.

Lemma moved_within old new s : ok old -> ok new -> within old s -> within new s -> Forall (fun r => ok r /\ within r s) (moved old new).
Proof.
  intros Ho Hn Hos Hns. unfold moved. apply Forall_app. split; [|by constructor]. destruct (intersects old new) eqn:E; [|by constructor].
  destruct (subtract_ok old new Ho Hn E) as (A & B & _). apply Forall_and. split; [done|]. eapply Forall_impl; [exact B|]. intros r Hr. exact (within_trans _ _ _ Hr Hos).
Qed.

Lemma cursor_ok c p : Screen c -> 0 <= px p <= cwidth c -> 0 <= py p <= cheight c ->
  ok (cursor_rect c p) /\ within (cursor_rect c p) (screen_rect c) /\ forall X Y, on_screen c X Y -> In_rect (cursor_rect c p) X Y <-> In_rect (mouse_rect p) X Y.
Proof.
  intros [S1 S2 S3 S4] Hx Hy. unfold cursor_rect. rewrite !u32_small by lia. unfold ok, within, on_screen, screen_rect, In_rect, mouse_rect. cbn [rx ry width height]. split_and!; [lia..|]. intros X Y H. lia.
Qed.

(** ** Moving a window *)

Lemma drag_pos_inside np off ab ps os : 0 <= np < 2 ^ 32 -> 0 <= off -> 0 <= ab -> 0 <= os <= ps -> ab + ps < 2 ^ 32 ->
  0 <= drag_pos np off ab ps os /\ drag_pos np off ab ps os + os <= ps.
Proof.
  intros H1 H2 H3 H4 H5. unfold drag_pos. destruct (np >=? off) eqn:E1; [|lia]. bool_to_prop. destruct ((np <=? ab) || _) eqn:E2; [lia|]. apply orb_false_iff in E2 as [E2 E3]. apply Z.leb_gt in E2.
  rewrite (u32_small (np - ab)) in E3 by lia. apply Z.ltb_ge in E3. rewrite (u32_small (np - off)), (u32_small (ab + ps - os)), (u32_small (ps - os)), (u32_small (np - ab - off)) by lia.
  destruct (np - off >=? ab + ps - os) eqn:E4; bool_to_prop; lia.
Qed.

Lemma set_pos_tidy w x y : cls w = DesktopWindow -> 0 <= x -> 0 <= y -> Tidy w -> Tidy (set_pos x y w).
Proof.
  intros Hcls Hx Hy Ht. apply Tidy_unfold in Ht as [(H0 & H1 & H2 & H3 & H4 & H5 & H6 & H7 & H8 & (calls & Ec & Hc) & Htb) Hch]. apply Tidy_unfold. split; [|exact Hch].
  split_and!; try done. unfold content_calls, draw_calls in *. cbn [set_pos set_rect cls wfb rect bg_color rx ry width height]. rewrite Hcls in *.
  destruct (wfb w) as [pixels|]; (injection Ec as <-; eexists; split; [done|]; apply Forall_singleton; apply Forall_singleton in Hc as (A & B & _ & D)).
  - split_and!; [done|done|apply within_refl|exact D].
  - split_and!; [done|done|apply within_refl|done].
Qed.

Lemma desk_top root others g l1 w l2 : Desk root others g -> children root = l1 ++ w :: l2 -> TopLevel (root_windows g) [] root others l1 w l2.
Proof. intros HD Ec. split; [apply HD|done|apply HD|apply HD]. Qed.

(** The window that is dragged. *)
Lemma desk_drag S root others g a ns : Desk root others g -> Fresh S g -> dragging g = Some a -> 0 <= px (pos ns) <= cwidth (ctx g) -> 0 <= py (pos ns) <= cheight (ctx g) ->
  exists w parents g' root', find a (root_windows g) = Some (w, parents) /\ drag w parents ns g = Some g' /\ Desk root' others g' /\ Fresh S g' /\ map addr (children root') = map addr (children root).
Proof.
  intros HD Hf Hdrag Hnx Hny. destruct (dk_drag _ _ _ HD a Hdrag) as (Hdx & Hdy & Hin). apply list_elem_of_In, in_map_iff in Hin as (w & <- & Hin). apply in_split in Hin as (l1 & l2 & Ec).
  pose proof (desk_top _ _ _ _ _ _ HD Ec) as HT. pose proof (desk_room _ _ _ HD) as (Hr & Ep & Hpl & Eo).
  pose proof HD as [Sc Er Ht [Hn Hws] Hz Hwn Ho Hdirty Hsub Hm Ha Hl Hd]. pose proof (proj1 (Tidy_unfold _) Ht) as [Hs Hch]. rewrite Ec in Hch, Hwn. pose proof (proj1 (Forall_app _ _ _) Hch) as [C1 [[Hwi Htw] C2]%Forall_cons]. pose proof (proj1 (Forall_app _ _ _) Hwn) as [_ [Hww _]%Forall_cons].
  pose proof Hww as [Hcls _ (t & Etb & _)]. exists w, [root]. unfold drag. rewrite (toplevel_find _ _ _ _ _ _ _ HT). cbn [head mbind option_bind].
  rewrite (plain_offset [root] Hpl), Ep. cbn [px py]. pose proof (proj1 (proj1 (Tidy_unfold _) Htw)) as Hsw. pose proof Hsw as (_ & W1 & W2 & W3 & W4 & W5 & W6 & W7 & W8 & _). pose proof Hs as (_ & R1 & R2 & R3 & R4 & _).
  assert (Eow : outer_w w = width (rect w) + left (border w) + right (border w) /\ outer_h w = height (rect w) + titlebar_height w + bottom (border w)) by (unfold outer_w, outer_h, no_decorations; rewrite Etb; lia).
  destruct Eow as [Ew Eh]. unfold within, outer0, screen_rect in Hwi, Hws. cbn [rx ry width height] in Hwi, Hws. destruct Sc as [S1 S2 S3 S4].
  rewrite (u32_small (width (rect w) + _ + _)), (u32_small (height (rect w) + _ + _)) by lia. rewrite <- Ew, <- Eh.
  destruct (drag_pos_inside (px (pos ns)) (drag_x_off g) (rx (rect root)) (width (rect root)) (outer_w w)) as [Dx1 Dx2]; [lia..|].
  destruct (drag_pos_inside (py (pos ns)) (drag_y_off g) (ry (rect root)) (height (rect root)) (outer_h w)) as [Dy1 Dy2]; [lia..|].
  set (x := drag_pos (px (pos ns)) _ _ _ _) in *. set (y := drag_pos (py (pos ns)) _ _ _ _) in *. rewrite (toplevel_update _ _ _ _ _ _ _ _ HT). cbn [app].
  assert (Htw' : Tidy (set_pos x y w)) by (by apply set_pos_tidy). assert (Hwi' : within (outer0 (set_pos x y w)) (mkRect 0 0 (width (rect root)) (height (rect root)))).
  { unfold within, outer0. cbn [rx ry width height set_pos set_rect rect]. change (outer_w (set_pos x y w)) with (outer_w w). change (outer_h (set_pos x y w)) with (outer_h w). lia. }
  assert (Hwin : within (outer0 w) (mkRect 0 0 (width (rect root)) (height (rect root)))) by (unfold within, outer0; cbn [rx ry width height]; lia).
  destruct (desk_child root others g w HD Hwin Htw) as (O1 & O2 & _). destruct (desk_child root others g _ HD Hwi' Htw') as (N1 & N2 & _).
  set (om := moved (outer_rect [root] w) (outer_rect [root] (set_pos x y w))). assert (Ema : map addr (l1 ++ [set_pos x y w] ++ l2) = map addr (children root)) by (rewrite Ec, !map_app; done).
  assert (Eaa : all_addrs (l1 ++ [set_pos x y w] ++ l2) = all_addrs (children root)) by (rewrite Ec; cbn [app]; rewrite !all_addrs_app, !all_addrs_cons; do 2 f_equal; rewrite !addrs_unfold; done).
  eexists _, (set_children (l1 ++ [set_pos x y w] ++ l2) (active_child root) root). split; [reflexivity|]. split; [reflexivity|].
  match goal with |- Desk ?r _ ?gg /\ _ => enough (HH : Desk r others gg /\ Fresh S gg) by (destruct HH; split_and!; done) end.
  apply (desk_exchange S root others g l1 [w] [set_pos x y w] l2 (active_child root) om); try done.
  - by constructor.
  - constructor; [|constructor]. destruct Hww as [? ? (t0 & ? & ?)]. split; [done|done|by exists t0].
  - intros ch X Y Hin Hr'. apply moved_covers; [done|done|]. cbn in Hin. apply list_elem_of_In in Hin. destruct Hin as [<-|[<-|[]]]; [by left|by right].
  - by apply moved_within.
  - cbn [mark_all set_ctx set_roots root_windows]. rewrite Er, all_addrs_cons, addrs_unfold in Ha. rewrite all_addrs_cons, addrs_unfold. cbn [set_children addr titlebar children]. change (l1 ++ set_pos x y w :: l2) with (l1 ++ [set_pos x y w] ++ l2). by rewrite Eaa.
  - rewrite Eaa. exact Hl.
  - rewrite Ema. exact Hd.
Qed.

(** ** Buttons, and windows that come to the front *)

Lemma desk_touch S root others g l' others' act m1 m2 g' : Desk root others g -> Fresh S g -> touches [] others others' m1 -> wins [root] (children root) l' m2 ->
  root_windows g' = set_children l' act root :: others' -> ctx g' = set_dirty (dirty_rects (ctx g) ++ m1 ++ m2) (ctx g) -> mouse_state g' = mouse_state g -> draw_cursor g' = draw_cursor g ->
  (forall a, last_mouse_over g' = Some a -> a ∈ all_addrs (children root) ++ all_addrs others) ->
  (forall a, dragging g' = Some a -> 0 <= drag_x_off g' /\ 0 <= drag_y_off g' /\ a ∈ map addr (children root)) ->
  Desk (set_children l' act root) others' g' /\ Fresh S g'.
Proof.
  intros HD Hf Hto Hwi Er' Ectx Em Ecu Hl' Hd'. pose proof (desk_room _ _ _ HD) as (_ & _ & _ & Eo). pose proof HD as [Sc Er Ht [Hn Hws] Hz Hwn Ho Hdirty Hsub Hm Ha Hl Hd].
  destruct (wins_ok _ _ _ _ Hwi Hwn) as (W1 & W2 & W3 & W4 & W5). destruct (touches_plain _ _ _ _ Hto) as [T1 T2].
  assert (Hpc : Forall (placed [root]) (children root)) by (apply Forall_forall; intros ch Hin; by apply placed_child; [by eapply desk_root|]).
  destruct (wins_marks _ _ _ _ Hwi Hwn Hpc) as (M1 & M2 & M3). assert (Hpo : Forall (placed []) others) by (apply Forall_forall; intros o Hin; by eapply desk_other).
  destruct (proj2 touch_marks_both _ _ _ _ Hto Hpo) as [N1 N2]. apply (desk_change S S root others g _ others' (m1 ++ m2)); try done.
  - apply Tidy_unfold in Ht as [Hs Hch]. apply Tidy_unfold. split; [exact Hs|]. cbn [set_children children rect]. apply Forall_and. split; [|done].
    assert (HF : Forall (fun r => within r (mkRect 0 0 (width (rect root)) (height (rect root)))) (map outer0 l')) by (rewrite W4; apply Forall_map; eapply Forall_impl; [exact Hch|]; by intros ch []).
    by apply Forall_map in HF.
  - apply Forall_and in Ho as [_ Ho]. apply Forall_and. split; [done|]. eapply Forall_impl; [apply (proj2 touch_tidy_both _ _ _ _ Hto (screen_rect (ctx g)))|by intros o []]. eapply Forall_impl; [exact Ho|]. by intros o [].
  - rewrite Er'. rewrite Er, all_addrs_cons, addrs_unfold in Ha. rewrite all_addrs_cons, addrs_unfold. cbn [set_children addr titlebar children]. by rewrite W2, T2.
  - apply Forall_app. split.
    + eapply Forall_impl; [exact N1|]. intros r [Hr He]. split; [done|]. apply Exists_exists in He as (o & Hin & Hw). eapply within_trans; [exact Hw|]. by eapply desk_other.
    + eapply Forall_impl; [exact M2|]. intros r [Hr He]. split; [done|]. apply Exists_exists in He as (ch & Hin & Hw). eapply within_trans; [exact Hw|]. eapply within_trans; [apply (placed_child [] root ch (desk_root _ _ _ HD) Hin)|]. by rewrite Eo.
  - cbn [set_children children]. by rewrite W2, T2.
  - cbn [set_children children]. by rewrite W3.
  - intros X Y Hon HS. rewrite covers_app. intros Hnc. split; [done|]. split.
    + rewrite !colour_unfold. set (root' := set_children l' act root). assert (Hg : Forall2 same_geom [root] [root']) by (constructor; [done|constructor]). cbn [set_children children].
      rewrite (front_ext (fun ch => colour ch [root'] X Y) (fun ch => colour ch [root] X Y) (outer_rect [root']) (outer_rect [root])); [|intros ch; by apply colour_geom|intros ch; unfold outer_rect, get_abs_rect; by rewrite (offset_geom _ _ Hg)].
      change (children root') with l'. rewrite M3 by tauto. done.
    + assert (Hc : forall ps l l' ms, touches ps l l' ms -> ps = [] -> Forall (placed []) l -> ~ covers ms X Y -> roots_colour l' X Y = roots_colour l X Y).
      { clear. intros ps l l' ms H. induction H as [|ps w w' l l' m1 m2 Hw _ IH]; [done|]. intros -> [P1 P2]%Forall_cons. rewrite covers_app. intros Hn. cbn [roots_colour]. unfold over. rewrite IH by (done || tauto).
        destruct (proj1 touch_marks_both _ _ _ _ Hw P1) as [_ Hc]. by rewrite Hc by tauto. }
      eapply Hc; [exact Hto|done|done|tauto].
Qed.

(** A window comes to the front: it may show where it was hidden. *)
Lemma desk_raise (S S' : Z -> Z -> Prop) root others g l1 w l2 act g' : Desk root others g -> Fresh S g -> children root = l1 ++ w :: l2 -> (forall X Y, S X Y -> S' X Y) -> (l2 <> [] -> forall X Y, In_rect (outer_rect [root] w) X Y -> S' X Y) ->
  root_windows g' = set_children (l1 ++ l2 ++ [w]) act root :: others -> ctx g' = ctx g -> mouse_state g' = mouse_state g -> draw_cursor g' = draw_cursor g -> last_mouse_over g' = last_mouse_over g ->
  (forall a, dragging g' = Some a -> 0 <= drag_x_off g' /\ 0 <= drag_y_off g' /\ a ∈ map addr (children root)) ->
  Desk (set_children (l1 ++ l2 ++ [w]) act root) others g' /\ Fresh S' g'.
Proof.
  intros HD Hf Ec HSS HSw Er' Ectx Em Ecu El Hd'. pose proof HD as [Sc Er Ht [Hn Hws] Hz Hwn Ho Hdirty Hsub Hm Ha Hl Hd]. pose proof (proj1 (Tidy_unfold _) Ht) as [Hs Hch].
  assert (Hp : children root ≡ₚ l1 ++ l2 ++ [w]) by (rewrite Ec; solve_Permutation). assert (Hpa : all_addrs (l1 ++ l2 ++ [w]) ≡ₚ all_addrs (children root)).
  { rewrite Ec, !all_addrs_app, !all_addrs_cons. change (all_addrs []) with (@nil Z). rewrite app_nil_r. solve_Permutation. }
  assert (Hwc : within (outer0 w) (mkRect 0 0 (width (rect root)) (height (rect root))) /\ Tidy w) by (rewrite Ec in Hch; rewrite Forall_forall in Hch; apply Hch; set_solver).
  destruct Hwc as [Hwi Htw]. destruct (desk_child root others g w HD Hwi Htw) as (_ & _ & _ & Hcol).
  apply (desk_change S S' root others g _ others []); try done.
  - apply Tidy_unfold. split; [exact Hs|]. cbn [set_children children rect]. by rewrite <- Hp.
  - cbn [set_children children]. by rewrite <- Hp.
  - rewrite Er'. rewrite Er, all_addrs_cons, addrs_unfold in Ha. rewrite all_addrs_cons, addrs_unfold. cbn [set_children addr titlebar children]. by rewrite Hpa.
  - rewrite Ectx, app_nil_r. by destruct (ctx g).
  - cbn [set_children children]. rewrite El. intros a H. rewrite Hpa. by apply Hl.
  - cbn [set_children children]. intros a H. destruct (Hd' a H) as (? & ? & Hin). split_and!; [done|done|]. by rewrite <- Hp.
  - intros X Y Hon HS _. split; [by intros H; apply HS, HSS|]. split; [|done]. destruct (decide (l2 = [])) as [->|Hne].
    { cbn [app]. rewrite <- Ec, !colour_unfold. set (root' := set_children (children root) act root). assert (Hg : Forall2 same_geom [root] [root']) by (constructor; [done|constructor]).
      rewrite (front_ext (fun ch => colour ch [root'] X Y) (fun ch => colour ch [root] X Y) (outer_rect [root']) (outer_rect [root])); [done|intros ch; by apply colour_geom|intros ch; unfold outer_rect, get_abs_rect; by rewrite (offset_geom _ _ Hg)]. }
    assert (Hnin : ~ In_rect (outer_rect [root] w) X Y) by (intros H; by apply HS, HSw). assert (Hnc : colour w [root] X Y = None) by (destruct (colour w [root] X Y) as [col|] eqn:E; [by apply Hcol in E|done]).
    set (root1 := set_children (l1 ++ [] ++ l2) act root). transitivity (colour root1 [] X Y).
    + assert (Hg : Forall2 same_geom [root] [root1]) by (constructor; [done|constructor]). change (set_children (l1 ++ l2 ++ [w]) act root) with (set_children (l1 ++ l2 ++ [w]) act root1).
      assert (El2 : l1 ++ l2 ++ [w] = (l1 ++ l2) ++ [w] ++ []) by (by rewrite <- app_assoc). rewrite El2. apply (colour_exchange root1 (l1 ++ l2) [] [w] []).
      * cbn [root1 set_children children app]. by rewrite app_nil_r.
      * intros ch Hin. cbn [app] in Hin. apply list_elem_of_singleton in Hin as ->. rewrite (colour_geom w _ _ X Y Hg). split; [done|]. unfold outer_rect, get_abs_rect in *. by rewrite (offset_geom _ _ Hg).
    + apply (colour_exchange root l1 [w] [] l2); [done|]. intros ch Hin. cbn [app] in Hin. apply list_elem_of_singleton in Hin as ->. done.
Qed.

(** ** The mouse *)

Lemma fresh_mono (S S' : Z -> Z -> Prop) g : (forall X Y, S X Y -> S' X Y) -> Fresh S g -> Fresh S' g.
Proof. intros H Hf X Y Hs Hn. apply Hf; [done|]. intros HS. by apply Hn, H. Qed.

Lemma told_inv root others A ms g g' : Desk root others g -> (forall a, a ∈ A -> a ∈ all_addrs (children root) ++ all_addrs others) -> told A ms g g' ->
  (forall a, last_mouse_over g' = Some a -> a ∈ all_addrs (children root) ++ all_addrs others) /\
  (forall a, dragging g' = Some a -> 0 <= drag_x_off g' /\ 0 <= drag_y_off g' /\ a ∈ map addr (children root)).
Proof.
  intros HD HA [_ _ _ _ Hl Hd]. split.
  - intros a E. destruct Hl as [El|(b & Hb & Eb)]; [apply (dk_last _ _ _ HD); congruence|]. rewrite Eb in E. injection E as ->. by apply HA.
  - intros a E. destruct Hd as [En|(Ed & -> & ->)]; [congruence|]. apply (dk_drag _ _ _ HD). congruence.
Qed.

Lemma desk_leave S root others g ns : Desk root others g -> Fresh S g ->
  exists root' others' g', leave ns g = Some g' /\ Desk root' others' g' /\ Fresh S g' /\ map addr (children root') = map addr (children root) /\ same_ctx (set_dirty (dirty_rects (ctx g')) (ctx g)) (ctx g').
Proof.
  intros HD Hf. unfold leave. destruct (last_mouse_over g) as [a|] eqn:El; [|exists root, others, g; split_and!; try done; by destruct g as [? [] ? ? ? ? ? ? ? ?]].
  pose proof HD as [Sc Er Ht [Hn Hws] Hz Hwn Ho Hdirty Hsub Hm Ha Hl Hd]. rewrite Er. assert (Hop : Forall Plain others) by (eapply Forall_impl; [exact Ho|]; by intros o []). rewrite Er in Ha.
  destruct (found_roots root others a Hn Hwn Hop Ha (Hl a El)) as (b & qs & Ef & Hb). rewrite Ef. cbn [mbind option_bind].
  assert (Hs : exists b' g1 own, (if negb (contains (content_rect b qs) (pos ns)) && contains (content_rect b qs) (pos (mouse_state g)) then on_mouse_leave b qs ns g else (b, g)) = (b', g1) /\ touch_self qs b b' own /\ told [] own g g1).
  { destruct (negb _ && _); [apply leave_touch|]. exists b, g, []. split_and!; [done|by left|apply told_refl]. }
  destruct Hs as (b' & g1 & own & -> & Hs & Hto). destruct (Hb b' own Hs) as (l' & others' & m1 & m2 & Em & Htl & Hwi & ->). destruct (told_inv root others [] _ g g1 HD ltac:(set_solver) Hto) as [_ Hdr].
  destruct Hto as [T1 T2 T3 T4 _ _]. rewrite T1, Er, Em. eexists (set_children l' (active_child root) root), others', _. split; [reflexivity|].
  destruct (wins_ok _ _ _ _ Hwi Hwn) as (_ & _ & W3 & _).
  match goal with |- Desk ?r ?o ?gg /\ _ => enough (HH : Desk r o gg /\ Fresh S gg) end.
  - destruct HH. split_and!; [done|done|exact W3|]. cbn [set_last set_roots ctx]. rewrite T2. by destruct (ctx g).
  - apply (desk_touch S root others g l' others' _ m1 m2); done.
Qed.

(** The window that has come to the front in [root']. *)
Definition raised_in (root root' : Window) (X Y : Z) : Prop :=
  exists w, last (children root') = Some w /\ last (map addr (children root)) <> Some (addr w) /\ In_rect (outer_rect [root'] w) X Y.

Lemma desk_hit_ok S root others g others' m1 g1 root' m2 g2 : Desk root others g -> Fresh S g -> touches [] others others' m1 -> told (all_addrs others) m1 g g1 -> desk_hit root root' m2 g1 g2 ->
  Desk root' others' (set_roots (root' :: others') g2) /\ Fresh (fun X Y => S X Y \/ raised_in root root' X Y) (set_roots (root' :: others') g2) /\ same_ctx (set_dirty (dirty_rects (ctx g2)) (ctx g)) (ctx g2).
Proof.
  intros HD Hf Htl Hto1 Hhit. pose proof HD as [Sc Er Ht [Hn Hws] Hz Hwn Ho Hdirty Hsub Hm Ha Hl Hd]. destruct Hhit as [l' act Hwi -> Hto2|l' act i w Hwi Hi -> (g3 & x & y & Hto2 & -> & Hx & Hy)].
  - pose proof (told_trans _ _ _ _ _ _ _ Hto1 Hto2) as Hto. assert (HA : forall a, a ∈ all_addrs others ++ all_addrs (children root) -> a ∈ all_addrs (children root) ++ all_addrs others) by set_solver. destruct (told_inv root others _ _ g g2 HD HA Hto) as [Hlast Hdrag]. destruct Hto as [T1 T2 T3 T4 _ _].
    destruct (desk_touch S root others g l' others' act m1 m2 (set_roots (set_children l' act root :: others') g2)) as [HD' Hf']; try done. split_and!; [done| |rewrite T2; by destruct (ctx g)]. eapply fresh_mono; [|exact Hf']. tauto.
  - pose proof (told_trans _ _ _ _ _ _ _ Hto1 Hto2) as Hto. assert (HA : forall a, a ∈ all_addrs others ++ all_addrs (children root) -> a ∈ all_addrs (children root) ++ all_addrs others) by set_solver. destruct (told_inv root others _ _ g g3 HD HA Hto) as [Hlast Hdrag]. destruct Hto as [T1 T2 T3 T4 _ _].
    destruct (desk_touch S root others g l' others' (active_child root) m1 m2 (set_roots (set_children l' (active_child root) root :: others') g3)) as [HD' Hf']; try done.
    assert (El : l' = take i l' ++ w :: drop (Datatypes.S i) l') by (symmetry; by apply take_drop_middle). set (l1 := take i l') in *. set (l2 := drop _ l') in *. rewrite delete_take_drop. fold l1 l2. rewrite <- app_assoc.
    destruct (wins_ok _ _ _ _ Hwi Hwn) as (Hw' & _ & W3 & _).
    set (S' := fun X Y => S X Y \/ raised_in root (set_children (l1 ++ l2 ++ [w]) act root) X Y). set (gm := set_roots (set_children l' (active_child root) root :: others') g3) in *.
    match goal with |- _ /\ Fresh _ ?gg /\ _ => destruct (desk_raise S S' _ _ gm l1 w l2 act gg HD' Hf') as [HD2 Hf2] end; try done.
    + intros X Y HS. by left.
    + intros Hne X Y Hin. right. exists w. cbn [set_children children]. rewrite app_assoc, last_snoc. split; [done|]. split; [|exact Hin].
      rewrite <- W3, El, map_app. cbn [map]. destruct l2 as [|v l2'] using rev_ind; [done|]. rewrite map_app. cbn [map]. rewrite app_comm_cons, app_assoc, last_snoc. intros E. injection E as E.
      pose proof (dk_addrs _ _ _ HD') as Hnd. cbn [gm set_roots root_windows] in Hnd. rewrite all_addrs_cons, addrs_unfold in Hnd. cbn [set_children addr titlebar children] in Hnd. rewrite Hn, El in Hnd. cbn [app] in Hnd.
      rewrite !all_addrs_app, !all_addrs_cons, !all_addrs_app, !all_addrs_cons in Hnd. apply NoDup_cons in Hnd as [_ Hnd]. apply NoDup_app in Hnd as (Hnd & _ & _). apply NoDup_app in Hnd as (_ & _ & Hnd). apply NoDup_app in Hnd as (_ & Hnd & _).
      apply (Hnd (addr w) (addr_in_addrs w)). rewrite <- E. pose proof (addr_in_addrs v). set_solver.
    + intros a E. cbn [set_roots set_drag dragging] in E. injection E as <-. cbn [set_roots set_drag drag_x_off drag_y_off]. split_and!; [done|done|]. cbn [set_children children]. rewrite El, map_app. cbn [map]. set_solver.
    + split_and!; [done|done|]. cbn [set_drag ctx]. rewrite T2. by destruct (ctx g).
Qed.

Lemma desk_release S root others g ns : Desk root others g -> Fresh S g -> Desk root others (release ns g) /\ Fresh S (release ns g) /\ ctx (release ns g) = ctx g.
Proof. intros HD Hf. unfold release. destruct (negb _); [|done]. split; [|done]. destruct HD. split; try done. Qed.

Lemma desk_route S root others g ns : Desk root others g -> Fresh S g -> 0 <= px (pos ns) <= cwidth (ctx g) -> 0 <= py (pos ns) <= cheight (ctx g) ->
  exists root' others' g', route ns g = Some g' /\ Desk root' others' g' /\ Fresh (fun X Y => S X Y \/ raised_in root root' X Y) g' /\ cwidth (ctx g') = cwidth (ctx g) /\ cheight (ctx g') = cheight (ctx g).
Proof.
  intros HD Hf Hnx Hny. unfold route. destruct (dragging g) as [a|] eqn:Ed.
  - destruct (desk_drag S root others g a ns HD Hf Ed Hnx Hny) as (w & ps & g' & root' & -> & E2 & HD' & Hf' & _). cbn [mbind option_bind]. exists root', others, g'. split_and!; [done|done|eapply fresh_mono; [|exact Hf']; tauto| |]; unfold drag in E2; apply bind_Some in E2 as (p & _ & E2); by injection E2 as <-.
  - pose proof HD as [Sc Er Ht [Hn Hws] Hz Hwn Ho Hdirty Hsub Hm Ha Hl Hd]. assert (Hop : Forall Plain others) by (eapply Forall_impl; [exact Ho|]; by intros o []).
    destruct (scan_roots root others ns g Hn Hwn Hop) as (root' & others' & g1 & g2 & hit & m1 & m2 & E & Htl & Hto & Hhit). rewrite Er, E. cbn [mbind option_bind]. destruct (desk_hit_ok S root others g others' m1 g1 root' m2 g2 HD Hf Htl Hto Hhit) as (HD' & Hf' & (_ & C1 & C2 & _)).
    eexists root', others', _. split; [reflexivity|]. split_and!; [done|done|exact C1|exact C2].
Qed.

Lemma desk_point S root others g ns : Desk root others g -> Fresh S g -> 0 <= px (pos ns) <= cwidth (ctx g) -> 0 <= py (pos ns) <= cheight (ctx g) -> Desk root others (point ns g) /\ Fresh S (point ns g).
Proof.
  intros HD Hf Hnx Hny. pose proof HD as [Sc Er Ht [Hn Hws] Hz Hwn Ho Hdirty Hsub [Hm1 Hm2] Ha Hl Hd]. destruct (cursor_ok (ctx g) (pos (mouse_state g)) Sc Hm1 Hm2) as (A1 & A2 & A3). destruct (cursor_ok (ctx g) (pos ns) Sc Hnx Hny) as (B1 & B2 & B3).
  unfold point. destruct (draw_cursor g) eqn:Edc.
  - split.
    + split; cbn [set_mouse mark_all set_ctx ctx root_windows set_dirty cwidth cheight sub_rects dirty_rects mouse_state last_mouse_over dragging drag_x_off drag_y_off]; try done; [by eapply Screen_eq|]. apply Forall_app. split; [exact Hdirty|by apply moved_within].
    + apply (fresh_change S S g); try done. cbn [set_mouse mark_all set_ctx ctx set_dirty dirty_rects root_windows]. intros X Y Hon HS. rewrite covers_app, moved_covers, A3, B3 by done. intros Hnc. split_and!; [done|tauto| |done].
      unfold at_cursor. cbn [set_mouse mark_all set_ctx draw_cursor mouse_state]. tauto.
  - split; [by split|]. apply (fresh_change S S g); try done. cbn [set_mouse ctx root_windows]. intros X Y Hon HS Hnc. split_and!; [done|done| |done]. unfold at_cursor. cbn [set_mouse draw_cursor mouse_state]. rewrite Edc. split; intros [? _]; done.
Qed.

(** Any event of the mouse. *)
Lemma desk_mouse S root others g ns : Desk root others g -> Fresh S g -> 0 <= px (pos ns) <= cwidth (ctx g) -> 0 <= py (pos ns) <= cheight (ctx g) ->
  exists root' others' g', handle_mouse ns g = Some g' /\ Desk root' others' g' /\ Fresh (fun X Y => S X Y \/ raised_in root root' X Y) g'.
Proof.
  intros HD Hf Hnx Hny. rewrite handle_mouse_steps. destruct (desk_leave S root others g ns HD Hf) as (root1 & others1 & g1 & -> & HD1 & Hf1 & Em & (_ & C1 & C2 & _)). cbn [mbind option_bind set_dirty cwidth cheight] in *.
  destruct (desk_release S root1 others1 g1 ns HD1 Hf1) as (HD2 & Hf2 & C3). destruct (desk_route S root1 others1 (release ns g1) ns HD2 Hf2) as (root3 & others3 & g3 & -> & HD3 & Hf3 & C4 & C5); [by rewrite C3, C1|by rewrite C3, C2|].
  cbn [mbind option_bind]. exists root3, others3, (point ns g3). split; [done|]. assert (Hf3' : Fresh (fun X Y => S X Y \/ raised_in root root3 X Y) g3) by (eapply fresh_mono; [|exact Hf3]; unfold raised_in; rewrite Em; tauto).
  apply desk_point; [done|done|by rewrite C4, C3, C1|by rewrite C5, C3, C2].
Qed.

(** ** Opening and closing *)

(** A request that the desktop can meet: the title bar has room for its button, and the window
    is on the desktop. *)
Record request_ok (root : Window) (x y w h : Z) : Prop := {
  rq_x : 0 <= x /\ x + w + 8 <= width (rect root);
  rq_y : 0 <= y /\ y + h + 24 <= height (rect root);
  rq_size : 16 <= w /\ 0 <= h /\ w * h * 4 < 2 ^ 32
}.

Lemma new_window_tidy root i ft x y w h : request_ok root x y w h -> width (rect root) < 2 ^ 30 -> height (rect root) < 2 ^ 31 ->
  let nw := new_window i ft x y w h (replicate (Z.to_nat (u32 (w * h * 4) / 4)) 0) in Tidy nw /\ outer0 nw = mkRect x y (w + 8) (h + 24).
Proof.
  intros [[X1 X2] [Y1 Y2] (Q1 & Q2 & Q3)] Hw Hh. cbv zeta. assert (0 <= w * h) by (apply Z.mul_nonneg_nonneg; lia). rewrite (u32_small (w * h * 4)) by lia. rewrite Z.div_mul by lia.
  assert (Eu : u32 (w + 8) = w + 8) by (apply u32_small; lia). assert (Eu2 : u32 (w + 8 - 20 - 4) = w - 16) by (rewrite u32_small; lia). split; [|unfold outer0, outer_w, outer_h; cbn; f_equal; lia]. apply Tidy_unfold. split; [|constructor].
  unfold tidy_self, new_window, titlebar_height, new_titlebar, BORDER_WIDTH, TITLEBAR_HEIGHT. cbn [is_titlebar rect border titlebar titlebar_height rx ry width height left right bottom]. split_and!; [done|lia|lia|lia|lia|cbn; lia|cbn; lia|cbn; lia|cbn; lia| |].
  - eexists. split; [done|]. apply Forall_singleton. split_and!; [cbn; lia|cbn; lia|apply within_refl|]. unfold bitmap_ok. cbn [rect width height]. rewrite length_replicate. lia.
  - exists [Fill (mkRect 0 0 (u32 (w + 8)) 20) 0xFFFFFF; Fill (mkRect (u32 (u32 (w + 8) - 20 - 4)) 1 18 18) 0x00FFFF; Fill (mkRect 0 0 (u32 (w + 8) / 2) 18) 0xFFFFFF]. split; [done|].
    unfold outer_w, outer_h. cbn [rect border width height no_decorations titlebar titlebar_height left right bottom]. rewrite Eu, Eu2. pose proof (Z.div_pos (w + 8) 2). pose proof (Z.div_le_upper_bound (w + 8) 2 (w + 8)).
    repeat constructor; unfold within; cbn [call_rect rx ry width height]; lia.
Qed.

Lemma desk_create S root others g i ft x y w h : Desk root others g -> Fresh S g -> request_ok root x y w h ->
  NoDup [id_window i; id_titlebar i; id_close i; id_title i] -> Forall (fun a => a ∉ all_addrs (root_windows g)) [id_window i; id_titlebar i; id_close i; id_title i] ->
  exists root', Desk root' others (create_window i ft x y w h g) /\ Fresh S (create_window i ft x y w h g) /\
    children root' = children root ++ [new_window i ft x y w h (replicate (Z.to_nat (u32 (w * h * 4) / 4)) 0)].
Proof.
  intros HD Hf Hrq Hnd Hfresh. pose proof HD as [Sc Er Ht [Hn Hws] [Z1 Z2] Hwn Ho Hdirty Hsub Hm Ha Hl Hd]. unfold within, screen_rect in Hws. cbn [rx ry width height] in Hws. destruct Sc as [S1 S2 S3 S4].
  destruct (new_window_tidy root i ft x y w h Hrq) as [Htn Eo]; [lia|lia|]. set (nw := new_window _ _ _ _ _ _ _) in *. pose proof Hrq as [[X1 X2] [Y1 Y2] (Q1 & Q2 & Q3)].
  assert (Hwi : within (outer0 nw) (mkRect 0 0 (width (rect root)) (height (rect root)))) by (rewrite Eo; unfold within; cbn; lia). destruct (desk_child root others g nw HD Hwi Htn) as (O1 & O2 & O3 & _).
  assert (Eow : outer_rect [root] nw = mkRect x y (w + 8) (h + 24)).
  { rewrite O3, Z1, Z2, !Z.add_0_l. exact Eo. }
  exists (set_children (children root ++ [nw] ++ []) (active_child root) root). assert (Ecw : create_window i ft x y w h g = mark (mkRect x y (w + 8) (h + 24)) (set_roots (set_children (children root ++ [nw] ++ []) (active_child root) root :: others) g)).
  { unfold create_window, add_window. rewrite Er. unfold BORDER_WIDTH, TITLEBAR_HEIGHT. rewrite (u32_small (w + 4 * 2)), (u32_small (h + 20 + 4)) by lia. fold nw. do 2 f_equal; lia. }
  rewrite Ecw. enough (HH : Desk (set_children (children root ++ [nw] ++ []) (active_child root) root) others (mark (mkRect x y (w + 8) (h + 24)) (set_roots (set_children (children root ++ [nw] ++ []) (active_child root) root :: others) g)) /\
    Fresh S (mark (mkRect x y (w + 8) (h + 24)) (set_roots (set_children (children root ++ [nw] ++ []) (active_child root) root :: others) g))) by (destruct HH; split_and!; done).
  apply (desk_exchange S root others g (children root) [] [nw] [] (active_child root) [outer_rect [root] nw]); try done.
  - by rewrite app_nil_r.
  - by constructor.
  - constructor; [|constructor]. split; [done|done|]. eexists. split; [done|]. split; try done. by repeat constructor.
  - intros ch X Y Hin Hx. cbn in Hin. apply list_elem_of_singleton in Hin as ->. apply covers_cons. by left.
  - by constructor.
  - cbn [mark set_ctx set_roots root_windows]. rewrite Er in Ha, Hfresh. rewrite all_addrs_cons, addrs_unfold in *. cbn [set_children addr titlebar children] in *. rewrite Hn in *. cbn [app] in *. rewrite !all_addrs_app.
    assert (Ean : all_addrs [nw] = [id_window i; id_titlebar i; id_close i; id_title i]) by done. rewrite Ean. rewrite Forall_forall in Hfresh.
    assert (Hp : addr root :: (all_addrs (children root) ++ [id_window i; id_titlebar i; id_close i; id_title i] ++ all_addrs []) ++ all_addrs others ≡ₚ
      [id_window i; id_titlebar i; id_close i; id_title i] ++ addr root :: all_addrs (children root) ++ all_addrs others) by (change (all_addrs []) with (@nil Z); rewrite app_nil_r; solve_Permutation).
    rewrite Hp. apply NoDup_app. split_and!; [done|exact Hfresh|done].
  - by rewrite Eow.
  - intros a E. cbn [mark set_ctx set_roots last_mouse_over] in E. rewrite app_nil_r, all_addrs_app. specialize (Hl a E). set_solver.
  - intros a E. cbn [mark set_ctx set_roots dragging drag_x_off drag_y_off] in *. destruct (Hd a E) as (? & ? & ?). rewrite app_nil_r, map_app. split_and!; [done|done|set_solver].
Qed.

Lemma subtree_plain w : Plain w -> subtree w = addrs w.
Proof.
  induction w as [w IH] using window_tree_ind. intros [Ht Hc]%Plain_unfold. rewrite addrs_unfold, Ht. cbn [app]. destruct w as [? ? ? ? ? ? ? ? ? ? ? l]. cbn [subtree addr children] in *. f_equal. clear Ht.
  induction l as [|ch l IHl]; [done|]. apply Forall_cons in IH as [I1 I2], Hc as [C1 C2]. rewrite all_addrs_cons, (I1 C1). f_equal. by apply IHl.
Qed.

Lemma desk_destroy S root others g l1 w l2 : Desk root others g -> Fresh S g -> children root = l1 ++ w :: l2 ->
  exists g' root', destroy_window (addr w) g = Some g' /\ Desk root' others g' /\ Fresh S g' /\ children root' = l1 ++ l2.
Proof.
  intros HD Hf Ec. pose proof (desk_top _ _ _ _ _ _ HD Ec) as HT. pose proof (toplevel_apart _ _ _ _ _ _ _ HT) as (_ & A2 & A3 & A4 & A5).
  pose proof HD as [Sc Er Ht [Hn Hws] Hz Hwn Ho Hdirty Hsub Hm Ha Hl Hd]. pose proof (proj1 (Tidy_unfold _) Ht) as [Hs Hch]. rewrite Ec in Hch. pose proof (proj1 (Forall_app _ _ _) Hch) as [C1 [[Hwi Htw] C2]%Forall_cons].
  destruct (desk_child root others g w HD Hwi Htw) as (O1 & O2 & _). unfold destroy_window. rewrite (toplevel_find _ _ _ _ _ _ _ HT). cbn [mbind option_bind head].
  set (act := if bool_decide (active_child root = Some (addr w)) then None else active_child root). set (gone := subtree w ++ _). set (g1 := set_dragging None g).
  assert (Hg2 : exists lm, (match last_mouse_over g1 with Some m => if bool_decide (m ∈ gone) then set_last None g1 else g1 | None => g1 end) = set_last lm g1 /\ forall a, lm = Some a -> last_mouse_over g = Some a /\ a ∉ gone).
  { destruct (last_mouse_over g1) as [m|] eqn:E; [case_bool_decide; [by exists None|]|]; [exists (Some m)|exists None]; (split; [rewrite <- E; by destruct g|]); [|done]. intros a Ea. injection Ea as <-. done. }
  destruct Hg2 as (lm & -> & Hlm). assert (Eex : existsb (fun ch => addr ch =? addr w) (children root) = true) by (apply existsb_exists; exists w; rewrite Ec; split; [apply in_elt|apply Z.eqb_refl]). rewrite Eex.
  assert (Hne : forall l, Forall (fun v => addr w ∉ addrs v) l -> List.filter (fun ch => negb (addr ch =? addr w)) l = l).
  { intros l Hl0. induction Hl0 as [|v l Hv _ IH]; [done|]. cbn [List.filter]. destruct (Z.eqb_spec (addr v) (addr w)) as [E|_]; [|cbn [negb]; by rewrite IH]. destruct Hv. rewrite <- E, addrs_unfold. apply list_elem_of_here. }
  assert (Eroot : update (addr root) (fun p => set_children (List.filter (fun ch => negb (addr ch =? addr w)) (children p)) act p) root = set_children (l1 ++ [] ++ l2) act root).
  { rewrite update_unfold, Z.eqb_refl, Ec, List.filter_app. cbn [List.filter]. rewrite Z.eqb_refl. cbn [negb]. by rewrite !Hne. }
  assert (Eoth : map (update (addr root) (fun p => set_children (List.filter (fun ch => negb (addr ch =? addr w)) (children p)) act p)) others = others).
  { apply map_same. rewrite Er, all_addrs_cons, addrs_unfold in Ha. cbn [app] in Ha. apply NoDup_cons in Ha as [Hr _]. rewrite !not_elem_of_app in Hr. destruct Hr as [_ Hr]. apply all_addrs_forall in Hr.
    eapply Forall_impl; [exact Hr|]. intros v Hv. by apply update_notin. }
  exists (set_roots (set_children (l1 ++ [] ++ l2) act root :: others) (mark (outer_rect [root] w) (set_last lm g1))), (set_children (l1 ++ [] ++ l2) act root). split.
  { do 2 f_equal. cbn [mark set_ctx set_last g1 set_dragging set_drag root_windows]. rewrite Er. cbn [map]. by rewrite Eroot, Eoth. }
  enough (HH : Desk (set_children (l1 ++ [] ++ l2) act root) others (set_roots (set_children (l1 ++ [] ++ l2) act root :: others) (mark (outer_rect [root] w) (set_last lm g1))) /\
    Fresh S (set_roots (set_children (l1 ++ [] ++ l2) act root :: others) (mark (outer_rect [root] w) (set_last lm g1)))) by (destruct HH; split_and!; done).
  apply (desk_exchange S root others g l1 [w] [] l2 act [outer_rect [root] w]); try done.
  - intros ch X Y Hin Hx. cbn in Hin. apply list_elem_of_singleton in Hin as ->. apply covers_cons. by left.
  - by constructor.
  - cbn [set_roots root_windows]. rewrite Er, all_addrs_cons, addrs_unfold, Ec, Hn in Ha. rewrite all_addrs_cons, addrs_unfold. cbn [set_children addr titlebar children app] in *. rewrite Hn. cbn [app]. rewrite !all_addrs_app, all_addrs_cons in *.
    eapply sublist_NoDup; [exact Ha|]. apply sublist_skip, sublist_app; [|done]. apply sublist_app; [done|]. by apply sublist_inserts_l.
  - intros a E. cbn [set_roots set_last mark set_ctx last_mouse_over] in E. destruct (Hlm a E) as [El Hng]. specialize (Hl a El). rewrite Ec, all_addrs_app, all_addrs_cons in Hl. cbn [app]. rewrite all_addrs_app.
    assert (Hna : a ∉ addrs w); [|set_solver]. rewrite Ec in Hwn. pose proof (proj1 (Forall_app _ _ _) Hwn) as [_ [[_ Ewc (t & Et & Hb)] _]%Forall_cons]. intros Hina. apply Hng. unfold gone. rewrite Et. rewrite addrs_unfold, Et, Ewc in Hina. cbn [all_addrs flat_of] in Hina. rewrite app_nil_r in Hina.
    rewrite <- (subtree_plain t (bar_Plain _ Hb)) in Hina. apply elem_of_app. apply list_elem_of_In in Hina. destruct Hina as [<-|Hina]; [left; destruct w; apply list_elem_of_here|right; by apply list_elem_of_In].
Qed.

End UiDesk.

(** * What the window system guarantees *)

Module UiDeskCorrect.
Import UiRect UiContext UiText UiWindow UiPaint UiTidy UiGui UiGuiCorrect UiFresh UiMouse UiDesk.

(** ** Rectangles *)

(** C35: Cutting a list of rectangles out of one that do not overlap ends, and leaves
    rectangles that do not overlap and cover exactly what was covered and is not cut out. *)
Theorem cut_exact ss l : Forall ok ss -> Forall ok l -> Apart l ->
  exists l', subtract_each ss l = Some l' /\ Forall ok l' /\ Apart l' /\ forall X Y, covers l' X Y <-> covers l X Y /\ ~ covers ss X Y.
Proof. intros H1 H2 H3. destruct (subtract_each_ok ss H1 l H2 H3) as (l' & E & A & B & _ & D). by exists l'. Qed.

Lemma cut_exact_witness : exists l', subtract_each [mkRect 2 2 4 4; mkRect 4 0 9 3] [mkRect 0 0 10 10] = Some l' /\ ~ covers l' 3 3 /\ covers l' 0 5.
Proof.
  destruct (cut_exact [mkRect 2 2 4 4; mkRect 4 0 9 3] [mkRect 0 0 10 10]) as (l' & E & _ & _ & H).
  - repeat constructor; cbn; lia.
  - repeat constructor; cbn; lia.
  - repeat constructor.
  - exists l'. split; [exact E|]. split; [|apply H; split; [apply covers_cons; left; unfold In_rect; cbn; lia|rewrite !covers_cons, covers_nil; unfold In_rect; cbn; lia]].
    intros Hc. apply H in Hc as [_ Hc]. apply Hc. apply covers_cons. left. unfold In_rect. cbn. lia.
Defined.

(** ** Drawing *)

(** C14: Drawing the dirty part of the screen ends without a write outside of the frame buffer.
    A pixel is then the cursor's, or, if it was dirty, that of the window in front of all
    others there, or else as it was. *)
Theorem gui_draw_correct g : Drawable g -> dirty_rects (ctx g) <> [] ->
  exists c', gui_draw g = Some (set_ctx c' g) /\ dirty_rects c' = [] /\
    forall X Y, on_screen (ctx g) X Y -> pixel (pitch_32 (ctx g)) (fb c') X Y =
      if decide (at_cursor g X Y) then Some CURSOR_COLOR
      else if decide (covers (dirty_rects (ctx g)) X Y) then over (roots_colour (root_windows g)) (pixel (pitch_32 (ctx g)) (fb (ctx g))) X Y
      else pixel (pitch_32 (ctx g)) (fb (ctx g)) X Y.
Proof. intros Hd Hne. destruct (gui_draw_pixels g Hd Hne) as (c' & E & (_ & _ & _ & Ed & _) & _ & H). exists c'. split_and!; [done|exact Ed|done]. Qed.

(** ** The desktop *)

(** The pixels of a window that has come to the front from [g] to [g']. *)
Definition raised (g g' : Gui) (X Y : Z) : Prop :=
  exists root others root' others', root_windows g = root :: others /\ root_windows g' = root' :: others' /\ raised_in root root' X Y.

(** What happens on a desktop from its start: drawings, windows that programs open and close,
    and any event of the mouse.  The second index are the pixels of the windows that came to
    the front and were not drawn since. *)
Inductive desk_run (id : Z) (c : Context) (taskbar : Window) (keys : nat) : Gui -> (Z -> Z -> Prop) -> Prop :=
| run_start g : new_desktop id c taskbar keys = Some g -> desk_run id c taskbar keys g (fun _ _ => False)
| run_draw g S g' : desk_run id c taskbar keys g S -> gui_draw g = Some g' -> desk_run id c taskbar keys g' (fun X Y => S X Y /\ ~ covers (dirty_rects (ctx g)) X Y)
| run_create root others g S i ft x y w h : desk_run id c taskbar keys g S -> root_windows g = root :: others -> request_ok root x y w h ->
    NoDup [id_window i; id_titlebar i; id_close i; id_title i] -> Forall (fun a => a ∉ all_addrs (root_windows g)) [id_window i; id_titlebar i; id_close i; id_title i] ->
    desk_run id c taskbar keys (create_window i ft x y w h g) S
| run_close root others g S w g' : desk_run id c taskbar keys g S -> root_windows g = root :: others -> w ∈ children root -> destroy_window (addr w) g = Some g' -> desk_run id c taskbar keys g' S
| run_mouse g S ns g' : desk_run id c taskbar keys g S -> 0 <= px (pos ns) <= cwidth (ctx g) -> 0 <= py (pos ns) <= cheight (ctx g) -> handle_mouse ns g = Some g' ->
    desk_run id c taskbar keys g' (fun X Y => S X Y \/ raised g g' X Y).

(** The task bar: texts and buttons at the bottom of the screen. *)
Definition taskbar_ok (c : Context) (o : Window) : Prop := Plain o /\ Tidy o /\ within (outer0 o) (screen_rect c).

Lemma new_desktop_ok id c taskbar keys g : Screen c -> dirty_rects c = [] -> sub_rects c = [] -> taskbar_ok c (set_pos 0 (cheight c - TASKBAR_HEIGHT) taskbar) -> NoDup (id :: addrs taskbar) ->
  new_desktop id c taskbar keys = Some g -> exists root others, Desk root others g /\ Fresh (fun _ _ => False) g.
Proof.
  intros Hs Hd Hsub Hg Hnd. unfold new_desktop, TASKBAR_HEIGHT in *. destruct (Z.ltb_spec 30 (cheight c)) as [Hh|]; [|done]. cbn [assert mbind option_bind]. destruct Hs as [S1 S2 S3 S4] eqn:Ehs. clear Ehs.
  rewrite u32_small by lia. intros H. injection H as <-. eexists _, _. split.
  - split; cbn [ctx root_windows add_dirty set_dirty cwidth cheight dirty_rects sub_rects mouse_state pos px py rect rx ry children last_mouse_over dragging]; [by eapply Screen_eq|done| |split; [done|]|done|constructor|by constructor| |done|lia| |done|done].
    + apply Tidy_unfold. split; [|constructor]. unfold tidy_self. cbn [is_titlebar rect border titlebar titlebar_height rx ry width height left right bottom no_border]. split_and!; [done|lia..| |done].
      eexists. split; [done|]. apply Forall_singleton. split_and!; [cbn; lia|cbn; lia|apply within_refl|done].
    + unfold within, screen_rect. cbn. lia.
    + rewrite Hd. cbn [app]. repeat constructor; unfold within, screen_rect; cbn; lia.
    + rewrite !all_addrs_cons, (addrs_unfold (set_pos _ _ _)). cbn [titlebar children addr set_pos set_rect]. rewrite addrs_unfold in Hnd. cbn. rewrite app_nil_r. exact Hnd.
  - intros X Y Hon _ Hnc. destruct Hnc. cbn [ctx add_dirty set_dirty dirty_rects]. rewrite Hd. cbn [app]. rewrite !covers_cons, covers_nil. unfold on_screen, screen_rect, In_rect in *. cbn in *. lia.
Qed.

Lemma run_keeps id c taskbar keys g S : Screen c -> dirty_rects c = [] -> sub_rects c = [] -> taskbar_ok c (set_pos 0 (cheight c - TASKBAR_HEIGHT) taskbar) -> NoDup (id :: addrs taskbar) ->
  desk_run id c taskbar keys g S -> exists root others, Desk root others g /\ Fresh S g.
Proof.
  intros Hs Hd Hsub Ht Hnd. induction 1 as [g E|g S g' _ (root & others & HD & Hf) E|r o g S i ft x y w h _ (root & others & HD & Hf) Er Hrq Hi Hfr|r o g S w g' _ (root & others & HD & Hf) Er Hin E|g S ns g' _ (root & others & HD & Hf) Hx Hy E].
  - by eapply new_desktop_ok.
  - destruct (desk_draw S root others g HD Hf) as (g1 & E1 & HD1 & Hf1 & _). rewrite E in E1. injection E1 as <-. by exists root, others.
  - rewrite (dk_roots _ _ _ HD) in Er. injection Er as <- <-. destruct (desk_create S root others g i ft x y w h HD Hf Hrq Hi Hfr) as (root' & HD' & Hf' & _). by exists root', others.
  - rewrite (dk_roots _ _ _ HD) in Er. injection Er as <- <-. apply list_elem_of_split in Hin as (l1 & l2 & Ec). destruct (desk_destroy S root others g l1 w l2 HD Hf Ec) as (g1 & root' & E1 & HD' & Hf' & _). rewrite E in E1. injection E1 as <-. by exists root', others.
  - destruct (desk_mouse S root others g ns HD Hf Hx Hy) as (root' & others' & g1 & E1 & HD' & Hf'). rewrite E in E1. injection E1 as <-. exists root', others'. split; [done|]. eapply fresh_mono; [|exact Hf']. intros X Y [?|Hr]; [by left|right].
    exists root, others, root', others'. split_and!; [apply HD|apply HD'|done].
Qed.

(** C13: On a desktop on which programs open and close windows (where the desktop has room
    for them) and the mouse moves, clicks and drags in any way: no event of the mouse follows
    a stale pointer, the windows stay on the desktop, and after a drawing every pixel of the
    screen is that of the window in front, or the cursor's.  Excepted are the pixels of a
    window that was behind others and that a press on its title bar has brought to the front,
    until something marks them: nothing redraws them ([raise_not_redrawn]); moving the window
    does. *)
Theorem desktop_up_to_date id c taskbar keys g S : Screen c -> dirty_rects c = [] -> sub_rects c = [] -> taskbar_ok c (set_pos 0 (cheight c - TASKBAR_HEIGHT) taskbar) -> NoDup (id :: addrs taskbar) ->
  desk_run id c taskbar keys g S ->
  exists root others g', root_windows g = root :: others /\ Forall (fun w => within (outer0 w) (mkRect 0 0 (width (rect root)) (height (rect root)))) (children root) /\
    gui_draw g = Some g' /\ (forall X Y, on_screen (ctx g') X Y -> ~ S X Y \/ covers (dirty_rects (ctx g)) X Y -> right_pixel g' X Y) /\
    forall ns, 0 <= px (pos ns) <= cwidth (ctx g) -> 0 <= py (pos ns) <= cheight (ctx g) -> exists g'', handle_mouse ns g = Some g''.
Proof.
  intros Hs Hd Hsub Ht Hnd Hrun. destruct (run_keeps id c taskbar keys g S Hs Hd Hsub Ht Hnd Hrun) as (root & others & HD & Hf).
  destruct (desk_draw S root others g HD Hf) as (g' & E & HD' & Hf' & Ed). exists root, others, g'. split; [apply HD|]. split; [|split; [done|split]].
  - pose proof (proj1 (Tidy_unfold _) (dk_tidy _ _ _ HD)) as [_ Hch]. eapply Forall_impl; [exact Hch|]. by intros w [].
  - intros X Y Hon HS. apply Hf'; [done|tauto|]. rewrite Ed. intros Hn. by apply covers_nil in Hn.
  - intros ns Hx Hy. destruct (desk_mouse S root others g ns HD Hf Hx Hy) as (_ & _ & g'' & E' & _). by exists g''.
Qed.

(** ** A small desktop *)

Definition demo_ctx : Context := mkCtx (replicate (Z.to_nat 1950) 0) 30 30 65 0 0 [] [] [].
Definition demo_taskbar : Window := mkWindow 2 TaskbarWindow (mkRect 0 0 30 30) no_border 0xCFCFCF 0 true false None None None [].
Definition demo_font : Font := mkFont [] [].
Definition ids_a : Ids := mkIds 10 11 12 13.
Definition ids_b : Ids := mkIds 20 21 22 23.

Lemma demo_screen : Screen demo_ctx.
Proof. split; [cbn; lia..|]. cbn [fb demo_ctx pitch_32 cheight]. rewrite length_replicate. lia. Qed.

Lemma demo_taskbar_ok : taskbar_ok demo_ctx (set_pos 0 (cheight demo_ctx - TASKBAR_HEIGHT) demo_taskbar).
Proof.
  split; [done|]. split; [|unfold within; split_and!; vm_compute; discriminate]. apply Tidy_unfold. split; [|apply Forall_nil_2]. split_and!; [reflexivity|vm_compute; discriminate..| |exact I].
  eexists. split; [done|]. apply Forall_singleton. split_and!; [vm_compute; discriminate|vm_compute; discriminate|apply within_refl|exact I].
Qed.

Lemma demo_addrs : NoDup (1 :: addrs demo_taskbar).
Proof. cbn. apply NoDup_cons. split; [set_solver|apply NoDup_singleton]. Qed.

Lemma gui_draw_correct_witness : exists g0 c', new_desktop 1 demo_ctx demo_taskbar 4 = Some g0 /\ gui_draw g0 = Some (set_ctx c' g0) /\ pixel 30 (fb c') 20 60 = Some 0xCFCFCF.
Proof.
  destruct (new_desktop 1 demo_ctx demo_taskbar 4) as [g0|] eqn:E0; [|vm_compute in E0; discriminate E0].
  destruct (new_desktop_ok 1 demo_ctx demo_taskbar 4 g0 demo_screen eq_refl eq_refl demo_taskbar_ok demo_addrs E0) as (root & others & HD & _).
  assert (Hf : (fun g => (dirty_rects (ctx g), pitch_32 (ctx g), cwidth (ctx g), cheight (ctx g), draw_cursor g, mouse_state g, root_windows g)) <$> new_desktop 1 demo_ctx demo_taskbar 4 =
    Some ([mkRect 0 0 30 35; mkRect 0 35 30 30], 30, 30, 65, true, mkMouse (mkPoint 0 0) false false false,
          [mkWindow 1 BaseWindow (mkRect 0 0 30 35) no_border 0 0 true false None None None []; set_pos 0 35 demo_taskbar])) by (vm_compute; reflexivity).
  rewrite E0 in Hf. cbn [fmap option_fmap option_map] in Hf. injection Hf as Ed Ep Ew Eh Ec Em Er.
  destruct (gui_draw_correct g0 (desk_drawable _ _ _ HD)) as (c' & E & _ & H); [by rewrite Ed|]. exists g0, c'. split; [reflexivity|]. split; [exact E|].
  rewrite <- Ep, H by (unfold on_screen, screen_rect, In_rect; cbn; lia). rewrite decide_False by (unfold at_cursor, In_rect; rewrite Em; cbn; lia).
  rewrite decide_True by (rewrite Ed, !covers_cons; unfold In_rect; cbn; lia). rewrite Er. vm_compute. reflexivity.
Defined.

Definition mouse_at (x y : Z) (pressed : bool) : MouseState := mkMouse (mkPoint x y) pressed false false.

(** Two windows that overlap, the second one in front. *)
Definition two_windows (g : Gui) : Gui := create_window ids_b demo_font 4 6 16 4 (create_window ids_a demo_font 0 0 16 4 g).

(** The one behind is taken by its title bar and moved. *)
Definition demo_drag : option Gui :=
  g ← new_desktop 1 demo_ctx demo_taskbar 4; g ← gui_draw (two_windows g); g ← handle_mouse (mouse_at 20 3 true) g; handle_mouse (mouse_at 22 8 true) g.

Lemma demo_two g0 : new_desktop 1 demo_ctx demo_taskbar 4 = Some g0 -> desk_run 1 demo_ctx demo_taskbar 4 (two_windows g0) (fun _ _ => False).
Proof.
  intros E. assert (Hr : root_windows <$> new_desktop 1 demo_ctx demo_taskbar 4 = Some [mkWindow 1 BaseWindow (mkRect 0 0 30 35) no_border 0 0 true false None None None []; set_pos 0 35 demo_taskbar]) by (vm_compute; reflexivity).
  rewrite E in Hr. cbn [fmap option_fmap option_map] in Hr. injection Hr as Hr. assert (Hn : forall i, i = ids_a \/ i = ids_b -> NoDup [id_window i; id_titlebar i; id_close i; id_title i]).
  { intros i [-> | ->]; cbn; repeat (apply NoDup_cons; split; [set_solver|]); constructor. }
  assert (H1 : desk_run 1 demo_ctx demo_taskbar 4 (create_window ids_a demo_font 0 0 16 4 g0) (fun _ _ => False)).
  { eapply run_create; [by apply run_start|exact Hr|split; cbn; lia|apply Hn; by left|]. rewrite Hr. cbn. repeat (apply Forall_cons_2; [set_solver|]). apply Forall_nil_2. }
  assert (Hr2 : root_windows (create_window ids_a demo_font 0 0 16 4 g0) = [mkWindow 1 BaseWindow (mkRect 0 0 30 35) no_border 0 0 true false None None None [new_window ids_a demo_font 0 0 16 4 (replicate 64 0)]; set_pos 0 35 demo_taskbar]).
  { unfold create_window, add_window, mark. cbn [set_ctx set_roots root_windows]. rewrite Hr. vm_compute. reflexivity. }
  eapply run_create; [exact H1|exact Hr2|split; cbn; lia|apply Hn; by right|]. rewrite Hr2. cbn. repeat (apply Forall_cons_2; [set_solver|]). apply Forall_nil_2.
Qed.

Lemma demo_drag_run g : demo_drag = Some g -> exists S, desk_run 1 demo_ctx demo_taskbar 4 g S.
Proof.
  unfold demo_drag. intros H. apply bind_Some in H as (g0 & E0 & H). apply bind_Some in H as (g1 & E1 & H). apply bind_Some in H as (g2 & E2 & H). pose proof (run_draw _ _ _ _ _ _ _ (demo_two g0 E0) E1) as R1.
  assert (S1 : (fun g => (cwidth (ctx g), cheight (ctx g))) <$> (g ← new_desktop 1 demo_ctx demo_taskbar 4; gui_draw (two_windows g)) = Some (30, 65)) by (vm_compute; reflexivity).
  assert (S2 : (fun g => (cwidth (ctx g), cheight (ctx g))) <$> (g ← new_desktop 1 demo_ctx demo_taskbar 4; g ← gui_draw (two_windows g); handle_mouse (mouse_at 20 3 true) g) = Some (30, 65)) by (vm_compute; reflexivity).
  rewrite E0 in S1, S2. cbn [mbind option_bind] in S1, S2. rewrite E1 in S1, S2. cbn [mbind option_bind] in S2. rewrite E2 in S2. cbn [fmap option_fmap option_map] in S1, S2. injection S1 as W1 H1. injection S2 as W2 H2.
  eexists. eapply run_mouse; [eapply run_mouse; [exact R1| | |exact E2]| | |exact H]; rewrite ?W1, ?H1, ?W2, ?H2; cbn; lia.
Qed.

Lemma desktop_up_to_date_witness : exists g g', demo_drag = Some g /\ dragging g = Some 10 /\ gui_draw g = Some g' /\ forall X Y, 2 <= X < 26 -> 5 <= Y < 33 -> right_pixel g' X Y.
Proof.
  destruct demo_drag as [g|] eqn:E; [|vm_compute in E; discriminate E]. destruct (demo_drag_run g E) as (S & R).
  assert (Hf : (fun g => (dragging g, dirty_rects (ctx g), cwidth (ctx g), cheight (ctx g))) <$> demo_drag =
    Some (Some 10, [mkRect 0 0 10 10; mkRect 20 3 10 10; mkRect 0 0 2 28; mkRect 2 0 22 5; mkRect 2 5 24 28; mkRect 20 3 2 10; mkRect 22 3 8 5; mkRect 22 8 8 10], 30, 65)) by (vm_compute; reflexivity).
  assert (Hd : (fun g' => (cwidth (ctx g'), cheight (ctx g'))) <$> (g ← demo_drag; gui_draw g) = Some (30, 65)) by (vm_compute; reflexivity).
  rewrite E in Hf, Hd. cbn [fmap option_fmap option_map mbind option_bind] in Hf, Hd. injection Hf as Edr Edi _ _.
  destruct (desktop_up_to_date 1 demo_ctx demo_taskbar 4 g S demo_screen eq_refl eq_refl demo_taskbar_ok demo_addrs R) as (root & others & g' & _ & _ & Ed & H & _).
  rewrite Ed in Hd. cbn [fmap option_fmap option_map] in Hd. injection Hd as Ew Eh. exists g, g'. split; [reflexivity|]. split; [exact Edr|]. split; [exact Ed|].
  intros X Y HX HY. apply H; [unfold on_screen, screen_rect, In_rect; cbn; lia|]. right. rewrite Edi, !covers_cons. do 4 right. left. unfold In_rect. cbn. lia.
Defined.

(** ** Where it goes wrong *)

(** A click on the title bar of the window behind brings it to the front, but nothing marks
    it as dirty: the screen still shows the other one where they overlap. *)
Theorem raise_not_redrawn :
  (g ← new_desktop 1 demo_ctx demo_taskbar 4; g ← gui_draw (two_windows g);
   g ← handle_mouse (mouse_at 20 3 true) g; g ← gui_draw g;
   g ← handle_mouse (mouse_at 20 3 false) g; g ← gui_draw g;
   Some (addr <$> (root_windows g ≫= children), roots_colour (root_windows g) 5 22, pixel 30 (fb (ctx g)) 5 22)) = Some ([20; 10], Some 0, Some 0xFFFFFF).
Proof. vm_compute. reflexivity. Qed.

(** And the keyboard goes to the window that was clicked away. *)
Theorem raise_focuses_neighbour :
  (g ← new_desktop 1 demo_ctx demo_taskbar 4; g ← handle_mouse (mouse_at 20 3 true) (two_windows g); g ← handle_mouse (mouse_at 20 3 false) g;
   g ← handle_keyboard (mkKey 3 true) g; Some (events g)) = Some [Key 20 3 false true].
Proof. vm_compute. reflexivity. Qed.

(** The place of a window is what its program asks for: one that is not on the screen makes
    the desktop write outside of the frame buffer. *)
Theorem window_outside_screen :
  (g ← new_desktop 1 demo_ctx demo_taskbar 4; gui_draw (create_window ids_a demo_font 40 50 16 4 g)) = None /\
  exists g, new_desktop 1 demo_ctx demo_taskbar 4 = Some g /\ gui_draw g <> None.
Proof.
  split; [vm_compute; reflexivity|]. destruct (new_desktop 1 demo_ctx demo_taskbar 4) as [g|] eqn:E; [|vm_compute in E; discriminate E]. exists g. split; [done|].
  destruct (new_desktop_ok 1 demo_ctx demo_taskbar 4 g demo_screen eq_refl eq_refl demo_taskbar_ok demo_addrs E) as (root & others & HD & Hf). destruct (desk_draw _ root others g HD Hf) as (g' & -> & _). done.
Qed.

(** ** Text *)

(** Drawing a text with the cache of glyphs gives what drawing it without one gives, and
    leaves a cache of the same kind. *)
Theorem cached_text_same tw bg rect cache ctx calls : rep rect -> cache_ok tw bg cache -> text_calls tw bg rect = Some calls ->
  match for_each calls paint ctx with
  | Some ctx' => exists cache', UiText.draw tw bg rect cache ctx = Some (cache', ctx') /\ cache_ok tw bg cache'
  | None => UiText.draw tw bg rect cache ctx = None
  end.
Proof.
  intros Hr Hc H. unfold text_calls in H. apply bind_Some in H as (rest & Eg & H). injection H as <-. unfold UiText.draw. cbn [for_each paint].
  destruct (draw_filled_rect rect bg ctx) as [ctx1|]; [|done]. cbn [mbind option_bind]. by apply draw_text_calls.
Qed.

(** A font of two glyphs of 8 by 16 pixels. *)
Definition small_font : Font :=
  mkFont (le_bytes 4 0x864AB572 ++ le_bytes 4 0 ++ le_bytes 4 32 ++ le_bytes 4 0 ++ le_bytes 4 2 ++ le_bytes 4 16 ++ le_bytes 4 16 ++ le_bytes 4 8 ++ replicate 16 0 ++ replicate 16 0x81) [].
Definition small_text : TextWindow := mkText [1; 0; 1] 0xFF small_font.

Lemma cached_text_same_witness : exists cache' ctx', UiText.draw small_text 7 (mkRect 0 0 16 40) ∅ (set_clip [mkRect 0 0 16 16] demo_ctx) = Some (cache', ctx').
Proof.
  destruct (text_calls small_text 7 (mkRect 0 0 16 40)) as [calls|] eqn:E; [|vm_compute in E; discriminate E].
  assert (Hc : cache_ok small_text 7 ∅) by (intros c b H; by rewrite lookup_empty in H). assert (Hr : rep (mkRect 0 0 16 40)) by (unfold rep, fits; cbn; lia).
  pose proof (cached_text_same small_text 7 (mkRect 0 0 16 40) ∅ (set_clip [mkRect 0 0 16 16] demo_ctx) calls Hr Hc E) as H.
  assert (Hrun : match (calls ← text_calls small_text 7 (mkRect 0 0 16 40); for_each calls paint (set_clip [mkRect 0 0 16 16] demo_ctx)) with Some _ => true | None => false end = true) by (vm_compute; reflexivity).
  rewrite E in Hrun. cbn [mbind option_bind] in Hrun. destruct (for_each calls paint (set_clip [mkRect 0 0 16 16] demo_ctx)) as [ctx'|]; [|discriminate Hrun]. destruct H as (cache' & H & _). exists cache', ctx'. exact H.
Defined.

(** Pixel by pixel, a glyph of a font that is 8 pixels wide is made of the bits of its
    bytes, the highest one on the left. *)
Theorem glyph_pixels ft cp fg bg g : glyph_mappings ft = [] -> 0 <= cp < UINT16_MAX -> cp < num_glyph (font ft) -> hdr_width (font ft) = 8 -> hdr_height (font ft) = 16 -> bytes_per_glyph (font ft) = 16 ->
  header_size (font ft) = 32 -> Z.of_nat (length (font ft)) = 32 + 16 * num_glyph (font ft) -> num_glyph (font ft) <= UINT16_MAX ->
  g = take 16 (drop (Z.to_nat (32 + 16 * cp)) (font ft)) ->
  exists pixels, rasterize_glyph ft cp 8 16 fg bg = Some pixels /\ length pixels = 128%nat /\
    forall x y b, 0 <= x < 8 -> 0 <= y < 16 -> g !! Z.to_nat y = Some b -> pixels !! Z.to_nat (y * 8 + x) = Some (if Z.testbit b (7 - x) then fg else bg).
Proof.
  intros Hm Hcp Hn Hw Hh Hb Hs Hl Hmax ->. unfold rasterize_glyph. unfold UINT16_MAX in *. rewrite Hm, Hw, Hh, Hb, Hs. rewrite (proj2 (Nat.leb_le _ _)) by lia. cbn [assert mbind option_bind].
  rewrite (proj2 (Z.ltb_lt _ _)) by lia. cbn [mbind option_bind]. unfold u16. rewrite wrap_small by (unfold fits; lia). rewrite (proj2 (Z.ltb_lt _ _)) by lia. cbn [assert mbind option_bind]. rewrite (u32_small (cp * 16)) by lia.
  change (u32 (8 + 7) / 8) with 1. change (Z.to_nat (u32 (8 * 16))) with 128%nat. change (Z.to_nat 16) with 16%nat. change (Z.to_nat 8) with 8%nat.
  set (bit_of := fun X Y => match font ft !! Z.to_nat (32 + 16 * cp + Y) with Some b => Some (if Z.testbit b (7 - X) then fg else bg) | None => None end).
  destruct (rows_paint 8 (replicate 128 0) 16 0 (fun y pixels => for_range 8 0 (fun x pixels =>
      byte ← font ft !! Z.to_nat (32 + cp * 16 + y * 1 + (8 - 1 - x) / 8); put (u32 (y * 8 + x)) (if Z.land byte (Z.shiftl 1 ((8 - 1 - x) mod 8)) =? 0 then bg else fg) pixels) pixels) bit_of) as (pixels & E & Hlen & Hpx); [lia| |].
  - intros k g Hk Hg. rewrite length_replicate in Hg. set (Y := 0 + Z.of_nat k). assert (HY : 0 <= Y < 16) by lia. destruct (lookup_lt_is_Some_2 (font ft) (Z.to_nat (32 + 16 * cp + Y))) as [b Hbyte]; [lia|].
    set (J := fun (m : nat) (f : list Z) => paints 8 (fun X y => if decide (y = Y) then if decide (0 <= X < Z.of_nat m) then bit_of X Y else None else None) g f).
    destruct (for_range_spec J 8 0 (fun x pixels => byte ← font ft !! Z.to_nat (32 + cp * 16 + Y * 1 + (8 - 1 - x) / 8); put (u32 (Y * 8 + x)) (if Z.land byte (Z.shiftl 1 ((8 - 1 - x) mod 8)) =? 0 then bg else fg) pixels) g) as (f & Ef & HJ).
    + apply paints_none. intros X y. case_decide; [|done]. by rewrite decide_False by lia.
    + intros m f Hm8 HJ. rewrite Z.add_0_l. rewrite Z.div_small, Z.mod_small by lia. replace (32 + cp * 16 + Y * 1 + 0) with (32 + 16 * cp + Y) by lia. rewrite Hbyte. cbn [mbind option_bind]. rewrite u32_small by lia.
      destruct (put_paints 8 ltac:(lia) f (Z.of_nat m) Y (if Z.land b (Z.shiftl 1 (8 - 1 - Z.of_nat m)) =? 0 then bg else fg)) as (f' & Ef' & Hf'); [lia|lia|rewrite (proj1 HJ), Hg; lia|]. exists f'. split; [exact Ef'|].
      eapply paints_ext; [|exact (paints_trans _ _ _ _ _ _ HJ Hf')]. intros X y _ _. unfold over. assert (Hbit : Z.land b (Z.shiftl 1 (8 - 1 - Z.of_nat m)) =? 0 = negb (Z.testbit b (7 - Z.of_nat m))).
      { rewrite Z.shiftl_1_l. replace (8 - 1 - Z.of_nat m) with (7 - Z.of_nat m) by lia. destruct (Z.testbit b (7 - Z.of_nat m)) eqn:Et; cbn [negb].
        - apply Z.eqb_neq. intros E0. assert (Ht : Z.testbit (Z.land b (2 ^ (7 - Z.of_nat m))) (7 - Z.of_nat m) = false) by (by rewrite E0, Z.bits_0). rewrite Z.land_spec, Et, Z.pow2_bits_true in Ht by lia. done.
        - apply Z.eqb_eq, Z.bits_inj'. intros n Hn0. rewrite Z.land_spec, Z.bits_0, Z.pow2_bits_eqb by lia. destruct (Z.eqb_spec (7 - Z.of_nat m) n) as [<-|]; [by rewrite Et|by rewrite andb_false_r]. }
      rewrite Hbit. unfold bit_of. rewrite Hbyte. destruct (Z.eqb_spec X (Z.of_nat m)) as [->|], (Z.eqb_spec y Y) as [->|]; cbn [andb]; repeat case_decide; try done; try lia; by destruct (Z.testbit b (7 - Z.of_nat m)).
    + exists f. split; [exact Ef|]. eapply paints_ext; [|exact HJ]. intros X y HX _. unfold bit_of. cbv beta. repeat case_decide; try done; try lia. by subst y.
  - exists pixels. split; [exact E|]. split; [by rewrite Hlen, length_replicate|]. intros x y b Hx Hy Hbyte. specialize (Hpx x y Hx ltac:(lia)). unfold pixel, over in Hpx. rewrite Hpx, decide_True by lia.
    unfold bit_of. rewrite lookup_take_lt, lookup_drop in Hbyte by lia. replace (Z.to_nat (32 + 16 * cp + y)) with (Z.to_nat (32 + 16 * cp) + Z.to_nat y)%nat by lia. by rewrite Hbyte.
Qed.

Lemma glyph_pixels_witness : exists pixels, rasterize_glyph small_font 1 8 16 5 6 = Some pixels /\ pixels !! 8%nat = Some 5 /\ pixels !! 9%nat = Some 6.
Proof.
  destruct (glyph_pixels small_font 1 5 6 (replicate 16 0x81)) as (pixels & E & _ & H); [reflexivity|unfold UINT16_MAX; lia|vm_compute; reflexivity|reflexivity..|vm_compute; discriminate|reflexivity|].
  exists pixels. split; [exact E|]. split; [apply (H 0 1 0x81); [lia|lia|reflexivity]|apply (H 1 1 0x81); [lia|lia|reflexivity]].
Defined.

(** In a wider font the bytes of a line come out in the wrong order. *)
Theorem wide_glyph_swapped :
  let wide := mkFont (le_bytes 4 0x864AB572 ++ le_bytes 4 0 ++ le_bytes 4 32 ++ le_bytes 4 0 ++ le_bytes 4 1 ++ le_bytes 4 2 ++ le_bytes 4 1 ++ le_bytes 4 16 ++ [0xFF; 0]) [] in
  rasterize_glyph wide 0 16 1 1 0 = Some (replicate 8 0 ++ replicate 8 1).
Proof. vm_compute. reflexivity. Qed.

End UiDeskCorrect.
