(* ===== verification/Ipc.v ===== *)
(** * Sockets between processes (src/src/sched/ipc.cpp)

    A process has one IPC socket, on which others connect to it; [accept] makes a
    socket for each connection.  A thread in an operation is at a point of it, a
    [task], with the locks it holds at that point; [step] runs it to the next point
    where it takes a lock or waits for an event.  An event is the count of its
    signals; the lists of the threads that wait are in IpcWait.v.  The descriptors of processes (src/src/sched/process.cpp) that sockets
    own and delete are objects of the world. *)

From S2P Require Import Prelude RingBuffer.

Module Ipc.

Definition IPC_BUFFER_SIZE : Z := 512.
Definition ERR_INVALID_ARGUMENT : Z := -4095.
Definition ERR_TRY_AGAIN : Z := -4090.

(** ** State *)

(** [lock] is the thread that holds it. *)
Record IpcSocket := mkSocket {
  pending : option nat;
  target : option nat;
  target_address : option nat;
  owner_desc : nat;
  nonblock : bool;
  pending_event : Z;
  buf : list Z;
  buf_read_ptr : Z;
  buf_write_ptr : Z;
  buf_size : Z;
  write_event : Z;
  read_event : Z;
  lock : option nat
}.

Definition new_socket (owner : nat) (nonblock : bool) : IpcSocket :=
  mkSocket None None None owner nonblock 0 (replicate 512 0) 0 0 0 0 0 None.

Record ProcessDescriptor := mkDesc { process : option nat; exit_status : Z }.
Record Process := mkProc { ipc_socket : option nat; descriptors : list nat }.

(** The objects that exist; [refs] are the counts of the shared descriptors, and
    [next] is a number that no object has had. *)
Record world := mkWorld {
  socks : gmap nat IpcSocket;
  descs : gmap nat ProcessDescriptor;
  procs : gmap nat Process;
  refs : gmap nat Z;
  next : nat
}.

Definition set_sock (s : nat) (x : IpcSocket) (w : world) : world :=
  mkWorld (<[s := x]> (socks w)) (descs w) (procs w) (refs w) (next w).
Definition set_desc (d : nat) (x : ProcessDescriptor) (w : world) : world :=
  mkWorld (socks w) (<[d := x]> (descs w)) (procs w) (refs w) (next w).
Definition set_proc (p : nat) (x : Process) (w : world) : world :=
  mkWorld (socks w) (descs w) (<[p := x]> (procs w)) (refs w) (next w).
Definition set_refs (d : nat) (n : Z) (w : world) : world :=
  mkWorld (socks w) (descs w) (procs w) (<[d := n]> (refs w)) (next w).

Definition with_lock (l : option nat) (x : IpcSocket) : IpcSocket :=
  mkSocket (pending x) (target x) (target_address x) (owner_desc x) (nonblock x) (pending_event x)
    (buf x) (buf_read_ptr x) (buf_write_ptr x) (buf_size x) (write_event x) (read_event x) l.
Definition with_target (t a : option nat) (x : IpcSocket) : IpcSocket :=
  mkSocket (pending x) t a (owner_desc x) (nonblock x) (pending_event x)
    (buf x) (buf_read_ptr x) (buf_write_ptr x) (buf_size x) (write_event x) (read_event x) (lock x).
Definition with_pending (p : option nat) (x : IpcSocket) : IpcSocket :=
  mkSocket p (target x) (target_address x) (owner_desc x) (nonblock x) (pending_event x)
    (buf x) (buf_read_ptr x) (buf_write_ptr x) (buf_size x) (write_event x) (read_event x) (lock x).
Definition with_pending_event (n : Z) (x : IpcSocket) : IpcSocket :=
  mkSocket (pending x) (target x) (target_address x) (owner_desc x) (nonblock x) n
    (buf x) (buf_read_ptr x) (buf_write_ptr x) (buf_size x) (write_event x) (read_event x) (lock x).
Definition with_write_event (n : Z) (x : IpcSocket) : IpcSocket :=
  mkSocket (pending x) (target x) (target_address x) (owner_desc x) (nonblock x) (pending_event x)
    (buf x) (buf_read_ptr x) (buf_write_ptr x) (buf_size x) n (read_event x) (lock x).
Definition with_read_event (n : Z) (x : IpcSocket) : IpcSocket :=
  mkSocket (pending x) (target x) (target_address x) (owner_desc x) (nonblock x) (pending_event x)
    (buf x) (buf_read_ptr x) (buf_write_ptr x) (buf_size x) (write_event x) n (lock x).
Definition with_buf (b : list Z) (rp wp n : Z) (x : IpcSocket) : IpcSocket :=
  mkSocket (pending x) (target x) (target_address x) (owner_desc x) (nonblock x) (pending_event x)
    b rp wp n (write_event x) (read_event x) (lock x).

(** ** Descriptors of processes *)

Definition add_descriptor (p d : nat) (w : world) : option world :=
  x ← procs w !! p; Some (set_proc p (mkProc (ipc_socket x) (descriptors x ++ [d])) w).
Definition remove_descriptor (p d : nat) (w : world) : option world :=
  x ← procs w !! p; Some (set_proc p (mkProc (ipc_socket x) (filter (fun e => e <> d) (descriptors x))) w).

(** [new ProcessDescriptor]; [make_shared] counts one reference. *)
Definition new_descriptor (p : option nat) (status : Z) (w : world) : nat * world :=
  (next w, mkWorld (socks w) (<[next w := mkDesc p status]> (descs w)) (procs w) (refs w) (S (next w))).
Definition make_shared_descriptor (p : option nat) (status : Z) (w : world) : nat * world :=
  let '(d, w) := new_descriptor p status w in (d, set_refs d 1 w).

(** [delete descriptor]; there is no object the second time. *)
Definition delete_descriptor (d : nat) (w : world) : option world :=
  x ← descs w !! d;
  w ← match process x with Some p => remove_descriptor p d w | None => Some w end;
  Some (mkWorld (socks w) (delete d (descs w)) (procs w) (refs w) (next w)).

(** The destructor of a [shared_ptr]. *)
Definition release_descriptor (d : nat) (w : world) : option world :=
  n ← refs w !! d;
  let w := set_refs d (u64 (n - 1)) w in
  if n =? 1 then delete_descriptor d w else Some w.

Definition duplicate (d : nat) (w : world) : option (nat * world) :=
  x ← descs w !! d;
  match process x with
  | None => Some (make_shared_descriptor None 0 w)
  | Some p =>
      let '(e, w) := make_shared_descriptor (Some p) (exit_status x) w in
      w ← add_descriptor p e w; Some (e, w)
  end.

Fixpoint exit_loop (p : nat) (status : Z) (ds : list nat) (w : world) : option world :=
  match ds with
  | [] => Some w
  | d :: ds =>
      x ← descs w !! d;
      if decide (process x = Some p) then exit_loop p status ds (set_desc d (mkDesc None status) w) else None
  end.
Definition exit (p : nat) (status : Z) (w : world) : option world :=
  x ← procs w !! p;
  w ← exit_loop p status (descriptors x) w;
  Some (set_proc p (mkProc (ipc_socket x) []) w).

(** ** Creating sockets *)

(** The socket of a process, made when it is first asked for. *)
Definition get_ipc_socket (p : nat) (nonblock : bool) (w : world) : option (nat * world) :=
  x ← procs w !! p;
  match ipc_socket x with
  | Some s => Some (s, w)
  | None =>
      let '(d, w) := make_shared_descriptor (Some p) 0 w in
      w ← add_descriptor p d w;
      y ← procs w !! p;
      let s := next w in
      Some (s, mkWorld (<[s := new_socket d nonblock]> (socks w)) (descs w)
                 (<[p := mkProc (Some s) (descriptors y)]> (procs w)) (refs w) (S s))
  end.

(** [SYS_SOCKET_CREATE] with [SOCKET_TYPE_IPC]: what the handle refers to. *)
Definition socket_create := get_ipc_socket.

(** ** Operations *)

(** What follows [disconnect]. *)
Inductive after := Return | ThenConnect (is_ipc : bool) (descriptor : nat) | ThenDestroy.

Inductive task :=
| Disconnect (s : nat) (k : after)
| DisconnectTarget (s t : nat) (k : after)
| Connect (s : nat) (is_ipc : bool) (descriptor : nat)
| ConnectWait (s : nat)
| Destroy (s : nat)
| Listen (s : nat)
| ListenCheck (s : nat)
| Accept (s : nat) (nonblock : bool)
| AcceptPending (s p : nat) (nonblock : bool)
| Send (s : nat) (data : list Z)
| SendRound (s t : nat) (data : list Z) (orig_size : Z)
| SendWait (s t : nat) (data : list Z) (orig_size : Z)
| Receive (s : nat) (received : list Z) (total : Z)
| ReceiveCopy (s : nat) (received : list Z) (total : Z)
| ReceiveSignal (s : nat) (received : list Z) (total : Z)
| ReceiveWait (s : nat) (received : list Z) (total : Z)
| GetPeerName (s : nat)
| Done (ret : Z) (data : list Z) (size : Z) (socket : option nat).

Definition done (ret : Z) : task := Done ret [] 0 None.

(** [Blocked]: the thread spins on a lock or waits for an event; [Crash]: an
    assertion fails or an object that is gone is used. *)
Inductive outcome := Blocked | Crash | Next (t : task) (w : world).

Definition crash_or (o : option outcome) : outcome := default Crash o.

(** Runs [k] with the socket if no one holds its lock. *)
Definition locking (s : nat) (w : world) (k : IpcSocket -> outcome) : outcome :=
  match socks w !! s with
  | None => Crash
  | Some x => match lock x with Some _ => Blocked | None => k x end
  end.

Definition continue (s : nat) (k : after) : task :=
  match k with
  | Return => done 0
  | ThenConnect is_ipc d => Connect s is_ipc d
  | ThenDestroy => Destroy s
  end.

Definition disconnect (i s : nat) (k : after) (w : world) : outcome :=
  locking s w (fun x =>
    match target x with
    | None => Next (continue s k) w
    | Some t => Next (DisconnectTarget s t k) (set_sock s (with_lock (Some i) x) w)
    end).

Definition disconnect_target (s t : nat) (k : after) (w : world) : outcome :=
  locking t w (fun y => crash_or (
    if decide (target y = Some s) then
      let w := set_sock t (with_target None None y) w in
      x ← socks w !! s;
      w ← match target_address x with Some d => delete_descriptor d w | None => Some w end;
      Some (Next (continue s k) (set_sock s (with_lock None (with_target None None x)) w))
    else None)).

(** Up to the wait, with the locks of the descriptor and of the process's socket. *)
Definition connect (s : nat) (is_ipc : bool) (descriptor : nat) (w : world) : outcome :=
  if negb is_ipc then Next (done ERR_INVALID_ARGUMENT) w
  else crash_or (
    x ← descs w !! descriptor;
    match process x with
    | None => Some (Next (done ERR_INVALID_ARGUMENT) w)
    | Some p =>
        let '(d, w1) := new_descriptor (Some p) 0 w in
        me ← socks w1 !! s;
        let w1 := set_sock s (with_target (target me) (Some d) me) w1 in
        w1 ← add_descriptor p d w1;
        '(t, w1) ← get_ipc_socket p (nonblock me) w1;
        Some (locking t w1 (fun y =>
          let y := with_pending (Some s) y in
          Next (ConnectWait s) (set_sock t (with_pending_event (u64 (pending_event y + 1)) y) w1)))
    end).

(** [pending_event.wait()] *)
Definition pending_wait (s : nat) (next : task) (w : world) : outcome :=
  match socks w !! s with
  | None => Crash
  | Some x => if pending_event x =? 0 then Blocked
              else Next next (set_sock s (with_pending_event (pending_event x - 1) x) w)
  end.

(** The members of a socket are destroyed after [disconnect]. *)
Definition destroy (s : nat) (w : world) : outcome := crash_or (
  x ← socks w !! s;
  w ← release_descriptor (owner_desc x) w;
  Some (Next (done 0) (mkWorld (delete s (socks w)) (descs w) (procs w) (refs w) (next w)))).

Definition listen (s : nat) (w : world) : outcome :=
  match socks w !! s with
  | None => Crash
  | Some x =>
      if nonblock x then
        locking s w (fun x => Next (done (if pending x then 0 else ERR_TRY_AGAIN)) w)
      else pending_wait s (ListenCheck s) w
  end.

Definition listen_check (s : nat) (w : world) : outcome :=
  locking s w (fun x => match pending x with Some _ => Next (done 0) w | None => Crash end).

Definition accept (i s : nat) (nonblock : bool) (w : world) : outcome :=
  locking s w (fun x =>
    match pending x with
    | None => Next (done ERR_INVALID_ARGUMENT) w
    | Some p => Next (AcceptPending s p nonblock) (set_sock s (with_lock (Some i) x) w)
    end).

Definition accept_pending (s p : nat) (nonblock : bool) (w : world) : outcome :=
  locking p w (fun y => crash_or (
    x ← socks w !! s;
    n ← refs w !! owner_desc x;
    let c := next w in
    let conn := with_target (Some p) (Some (owner_desc y)) (new_socket (owner_desc x) nonblock) in
    let y := with_target (Some c) (target_address y) y in
    let w := mkWorld (<[c := conn]> (socks w)) (descs w) (procs w) (<[owner_desc x := u64 (n + 1)]> (refs w)) (S c) in
    let w := set_sock p (with_pending_event (u64 (pending_event y + 1)) y) w in
    Some (Next (Done 0 [] 0 (Some c)) (set_sock s (with_lock None (with_pending None x)) w)))).

(** A round of the loop of [send]: the bytes that are left and the peer. *)
Definition send_round (data : list Z) (t : IpcSocket) : list Z * IpcSocket :=
  let size := Z.of_nat (length data) in
  let t := if buf_size t =? 0 then with_write_event (u64 (write_event t + 1)) t else t in
  let to_write := Z.min (IPC_BUFFER_SIZE ⊟ buf_size t) size in
  let n := buf_size t ⊞ to_write in
  let remaining_at_end := IPC_BUFFER_SIZE ⊟ buf_write_ptr t in
  let copy := Z.min to_write remaining_at_end in
  let b := splice (Z.to_nat (buf_write_ptr t)) (take (Z.to_nat copy) data) (buf t) in
  let wp := buf_write_ptr t ⊞ copy in
  let '(b, wp) :=
    if wp =? IPC_BUFFER_SIZE then
      if negb (copy =? to_write) then
        (splice 0 (take (Z.to_nat (to_write ⊟ copy)) (drop (Z.to_nat copy) data)) b, 0 ⊞ (to_write ⊟ copy))
      else (b, 0)
    else (b, wp) in
  (drop (Z.to_nat to_write) data, with_buf b (buf_read_ptr t) wp n t).

Definition send (i s : nat) (data : list Z) (w : world) : outcome :=
  locking s w (fun x =>
    match target x with
    | None => Next (Done ERR_INVALID_ARGUMENT [] (Z.of_nat (length data)) None) w
    | Some t => Next (SendRound s t data (Z.of_nat (length data))) (set_sock s (with_lock (Some i) x) w)
    end).

(** The lock of [s] is held; it is given back only when [send] returns. *)
Definition send_step (s t : nat) (data : list Z) (orig_size : Z) (w : world) : outcome :=
  locking t w (fun y =>
    let '(data, y) := send_round data y in
    let w := set_sock t y w in
    let size := Z.of_nat (length data) in
    match socks w !! s with
    | None => Crash
    | Some x =>
        let unlocked := set_sock s (with_lock None x) w in
        if size =? 0 then Next (Done 0 [] orig_size None) unlocked
        else if nonblock x then Next (Done ERR_TRY_AGAIN [] (orig_size ⊟ size) None) unlocked
        else Next (SendWait s t data orig_size) w
    end).

(** [target->read_event.wait()] *)
Definition send_wait (s t : nat) (data : list Z) (orig_size : Z) (w : world) : outcome :=
  match socks w !! t with
  | None => Crash
  | Some y => if read_event y =? 0 then Blocked
              else Next (SendRound s t data orig_size) (set_sock t (with_read_event (read_event y - 1) y) w)
  end.

Definition receive (s : nat) (received : list Z) (total : Z) (w : world) : outcome :=
  let n := Z.of_nat (length received) in
  if negb (n <? total) then Next (Done 0 received total None) w
  else locking s w (fun x =>
    if negb (bool_decide (is_Some (target x))) && (buf_size x =? 0)
    then Next (Done ERR_INVALID_ARGUMENT received total None) w
    else if (buf_size x =? 0) && nonblock x then
      if negb (n =? 0) then Next (Done 0 received n None) w
      else Next (Done ERR_TRY_AGAIN received total None) w
    else if buf_size x =? 0 then Next (ReceiveSignal s received total) w
    else Next (ReceiveCopy s received total) w).

(** The bytes that a copy of [receive] takes. *)
Definition copy_out (size : Z) (x : IpcSocket) : list Z * IpcSocket :=
  let remaining_at_end := IPC_BUFFER_SIZE ⊟ buf_read_ptr x in
  let copy := Z.min (Z.min size (buf_size x)) remaining_at_end in
  let bytes := take (Z.to_nat copy) (drop (Z.to_nat (buf_read_ptr x)) (buf x)) in
  let rp := buf_read_ptr x ⊞ copy in
  let rp := if rp =? IPC_BUFFER_SIZE then 0 else rp in
  (bytes, with_buf (buf x) rp (buf_write_ptr x) (buf_size x ⊟ copy) x).

Definition receive_copy (s : nat) (received : list Z) (total : Z) (w : world) : outcome :=
  locking s w (fun x =>
    let '(bytes, x) := copy_out (total ⊟ Z.of_nat (length received)) x in
    Next (Receive s (received ++ bytes) total) (set_sock s x w)).

Definition receive_signal (s : nat) (received : list Z) (total : Z) (w : world) : outcome :=
  match socks w !! s with
  | None => Crash
  | Some x => Next (ReceiveWait s received total) (set_sock s (with_read_event (u64 (read_event x + 1)) x) w)
  end.

Definition receive_wait (s : nat) (received : list Z) (total : Z) (w : world) : outcome :=
  match socks w !! s with
  | None => Crash
  | Some x => if write_event x =? 0 then Blocked
              else Next (Receive s received total) (set_sock s (with_write_event (write_event x - 1) x) w)
  end.

(** The address is the descriptor. *)
Definition get_peer_name (s : nat) (w : world) : outcome :=
  locking s w (fun x =>
    match target x, target_address x with
    | None, _ => Next (done ERR_INVALID_ARGUMENT) w
    | Some _, None => Crash
    | Some _, Some d => Next (Done 0 [] 0 (Some d)) w
    end).

(** ** Threads *)

Definition step_task (i : nat) (t : task) (w : world) : outcome :=
  match t with
  | Disconnect s k => disconnect i s k w
  | DisconnectTarget s t k => disconnect_target s t k w
  | Connect s is_ipc d => connect s is_ipc d w
  | ConnectWait s => pending_wait s (done 0) w
  | Destroy s => destroy s w
  | Listen s => listen s w
  | ListenCheck s => listen_check s w
  | Accept s nb => accept i s nb w
  | AcceptPending s p nb => accept_pending s p nb w
  | Send s data => send i s data w
  | SendRound s t data orig => send_step s t data orig w
  | SendWait s t data orig => send_wait s t data orig w
  | Receive s r total => receive s r total w
  | ReceiveCopy s r total => receive_copy s r total w
  | ReceiveSignal s r total => receive_signal s r total w
  | ReceiveWait s r total => receive_wait s r total w
  | GetPeerName s => get_peer_name s w
  | Done _ _ _ _ => Blocked
  end.

(** The operations of a socket as they are called. *)
Definition call_connect (s : nat) (is_ipc : bool) (d : nat) : task := Disconnect s (ThenConnect is_ipc d).
Definition call_disconnect (s : nat) : task := Disconnect s Return.
Definition call_destroy (s : nat) : task := Disconnect s ThenDestroy.
Definition call_receive (s : nat) (size : Z) : task := Receive s [] size.

(** One operation alone, up to its end or to where it is blocked. *)
Inductive stop := Stopped (t : task) (w : world) | Crashed | NoFuel.
Fixpoint run (fuel : nat) (i : nat) (t : task) (w : world) : stop :=
  match fuel with
  | O => NoFuel
  | S fuel => match step_task i t w with
              | Blocked => Stopped t w
              | Crash => Crashed
              | Next t w => run fuel i t w
              end
  end.

End Ipc.
