(* ===== verification/IpcTransfer.v ===== *)
(** * The bytes of an IPC socket

    The array of a socket is a ring buffer; what is in it is the part of what was
    sent that has not been received, in any interleaving of any operations. *)

From S2P Require Import Prelude RingBuffer Ipc.


Module IpcInv.
Import Ipc.

Definition ring_of (x : IpcSocket) : RingBuffer.ring :=
  RingBuffer.mkRing (buf x) (write_event x) (read_event x) (buf_read_ptr x) (buf_write_ptr x) (buf_size x).
Definition queue (x : IpcSocket) : list Z := RingBuffer.contents (ring_of x).
Definition buf_ok (x : IpcSocket) : Prop := RingBuffer.ring_ok (ring_of x) /\ RingBuffer.capacity (ring_of x) = 512.

(** What a socket has besides its buffer. *)
Definition rest (x : IpcSocket) := (pending x, target x, target_address x, owner_desc x, nonblock x, pending_event x, read_event x, lock x).

Lemma queue_length x : buf_ok x -> Z.of_nat (length (queue x)) = buf_size x.
Proof. intros [H _]. by apply RingBuffer.length_contents in H. Qed.

Lemma queue_size x : buf_ok x -> 0 <= buf_size x <= 512.
Proof. intros [[_ _ H _] Hc]. rewrite Hc in H. exact H. Qed.

Lemma new_socket_ok d nb : buf_ok (new_socket d nb) /\ queue (new_socket d nb) = [].
Proof.
  destruct (RingBuffer.new_ring_ok 512) as [H1 H2]; [lia|].
  split; [split; [exact H1|done]|exact H2].
Qed.

(** A round of [send] appends what fits. *)
Lemma send_round_spec data y data' y' : buf_ok y -> fits 64 (Z.of_nat (length data)) -> send_round data y = (data', y') ->
  exists a, data = a ++ data' /\ queue y' = queue y ++ a /\ buf_ok y' /\ rest y' = rest y /\
    write_event y' = (if buf_size y =? 0 then u64 (write_event y + 1) else write_event y) /\
    (data' = [] \/ buf_size y' = 512).
Proof.
  intros [Hok Hcap] Hf Heq. unfold send_round, IPC_BUFFER_SIZE in Heq.
  set (y0 := if buf_size y =? 0 then _ else y) in *.
  assert (H0 : RingBuffer.ring_ok (ring_of y0) /\ RingBuffer.capacity (ring_of y0) = 512 /\ queue y0 = queue y /\ rest y0 = rest y /\
    write_event y0 = (if buf_size y =? 0 then u64 (write_event y + 1) else write_event y)).
  { subst y0. case_bool; [|done]. split_and!; try done. by destruct Hok; split. }
  clearbody y0. destruct H0 as (Hok0 & Hcap0 & <- & <- & <-). clear Hok Hcap.
  pose proof Hok0 as [_ Hrp Hbs Hwp]. rewrite Hcap0 in Hrp, Hbs, Hwp. unfold add64, sub64, fits in *.
  cbn [RingBuffer.read_ptr RingBuffer.buffer_size RingBuffer.write_ptr ring_of] in Hrp, Hbs, Hwp.
  assert (Hw : 0 <= buf_write_ptr y0 < 512) by (rewrite Hwp; case_bool; bool_to_prop; lia).
  rewrite (u64_small (512 - buf_size y0)), (u64_small (512 - buf_write_ptr y0)) in Heq by lia.
  set (n := Z.min (512 - buf_size y0) _) in *. set (c := Z.min n _) in *.
  assert (Hn : 0 <= n /\ n <= 512 - buf_size y0 /\ n <= Z.of_nat (length data) /\ (n = 512 - buf_size y0 \/ n = Z.of_nat (length data)))
    by (subst n; lia).
  assert (Hc : 0 <= c <= n /\ c <= 512 - buf_write_ptr y0 /\ (c = n \/ c = 512 - buf_write_ptr y0)) by (subst c; lia).
  clearbody n c. rewrite (u64_small (buf_size y0 + n)), (u64_small (buf_write_ptr y0 + c)) in Heq by lia.
  rewrite !(u64_small (n - c)) in Heq by lia. rewrite (u64_small (0 + (n - c))) in Heq by lia.
  assert (Hlc : Z.of_nat (length (take (Z.to_nat c) data)) = c) by (rewrite length_take; lia).
  exists (take (Z.to_nat n) data).
  assert (Hd : data' = drop (Z.to_nat n) data) by (repeat (case_match; simplify_eq/=); congruence).
  split; [by rewrite Hd, take_drop|].
  assert (Hend : data' = [] \/ buf_size y0 + n = 512).
  { rewrite Hd. destruct Hn as (? & ? & ? & [?| ->]); [right; lia|left]. rewrite Nat2Z.id. apply drop_all. }
  destruct (RingBuffer.contents_append (ring_of y0) (take (Z.to_nat c) data)
    (if buf_write_ptr y0 + c =? 512 then 0 else buf_write_ptr y0 + c)) as (Q1 & Ok1 & Cap1);
    rewrite ?Hlc, ?Hcap0; cbn; [done|lia|lia|done|]. rewrite Hcap0 in Cap1.
  destruct (Z.eqb_spec (buf_write_ptr y0 + c) 512) as [E|E]; [destruct (Z.eqb_spec c n) as [Ec|Ecn]|]; simpl in Heq; injection Heq as <- <-.
  - rewrite Ec in *. rewrite ?Hlc in *. by split_and!.
  - rewrite ?Hlc in *. set (z := drop (Z.to_nat c) data) in *.
    assert (Hlz : Z.of_nat (length (take (Z.to_nat (n - c)) z)) = n - c) by (subst z; rewrite length_take, length_drop; lia).
    destruct (RingBuffer.contents_append _ (take (Z.to_nat (n - c)) z) (n - c) Ok1) as (Q2 & Ok2 & Cap2);
      rewrite ?Hlz, ?Cap1; cbn; try lia.
    { destruct (Z.eqb_spec (0 + (n - c)) 512); lia. }
    cbn in Q2, Ok2, Cap2. rewrite Z.add_0_l in *. change (Z.to_nat 0) with 0%nat in *. rewrite ?Hlz in *. replace (buf_size y0 + c + (n - c)) with (buf_size y0 + n) in * by lia.
    split_and!; try done.
    + cbn in Q1. unfold queue, ring_of. cbn. rewrite Q2, Q1, <- app_assoc. f_equal. subst z.
      rewrite take_take_drop. f_equal. lia.
    + split; [exact Ok2|]. unfold ring_of. cbn in *. rewrite Cap2. exact Cap1.
  - assert (Ec : c = n) by lia. rewrite Ec in *. rewrite ?Hlc in *. by split_and!.
Qed.

(** A copy of [receive] takes from the front. *)
Lemma copy_out_spec size x bytes x' : buf_ok x -> fits 64 size -> copy_out size x = (bytes, x') ->
  queue x = bytes ++ queue x' /\ buf_ok x' /\ rest x' = rest x /\ write_event x' = write_event x /\
  Z.of_nat (length bytes) <= size /\ (0 < size -> 0 < buf_size x -> bytes <> []).
Proof.
  intros [Hok Hcap] Hs Heq.
  destruct (RingBuffer.read_chunk size (ring_of x)) as [[b1 s1] r1] eqn:E.
  destruct (RingBuffer.read_chunk_spec _ _ _ _ _ Hok Hs E) as (Hq & Ok1 & Hsz & Hpos & _ & Cap1 & _).
  unfold RingBuffer.read_chunk, copy_out in *. rewrite Hcap in E. simpl in E.
  rewrite (Z.min_comm size) in Heq. injection E as <- <- <-. injection Heq as <- <-. fold IPC_BUFFER_SIZE in *. split_and!; try done; [lia|].
  intros H1 H2. pose proof Hok as [_ Hrp Hbs Hwp]. rewrite Hcap in Hrp, Hbs. cbn in Hrp, Hbs, Hq, Hsz. unfold sub64, IPC_BUFFER_SIZE in *.
  rewrite (u64_small (512 - buf_read_ptr x)) by lia. intros Hnil. apply (f_equal length) in Hnil.
  unfold RingBuffer.capacity in Hcap. cbn in Hcap. rewrite length_take, length_drop in Hnil. cbn in Hnil. lia.
Qed.

(** ** What a step does to the buffers *)

Definition moved_in (t : task) (w : world) (s : nat) : list Z :=
  match t with
  | SendRound _ u data _ =>
      if decide (s = u) then
        match socks w !! u with Some y => take (length data - length (send_round data y).1) data | None => [] end
      else []
  | _ => []
  end.
Definition moved_out (t : task) (w : world) (s : nat) : list Z :=
  match t with
  | ReceiveCopy u received total =>
      if decide (s = u) then
        match socks w !! u with Some x => (copy_out (total ⊟ Z.of_nat (length received)) x).1 | None => [] end
      else []
  | _ => []
  end.
Definition nothing (s : nat) : list Z := [].

(** A socket that existed has gained [ins] and lost [outs]; a new one is empty. *)
Definition flow (w : world) (ins outs : nat -> list Z) (w' : world) : Prop :=
  (next w <= next w')%nat /\
  forall s x', socks w' !! s = Some x' ->
    (exists x, socks w !! s = Some x /\ (buf_ok x -> buf_ok x' /\ queue x ++ ins s = outs s ++ queue x')) \/
    ((next w <= s < next w')%nat /\ buf_ok x' /\ queue x' = []).
Definition kept (w w' : world) : Prop := flow w nothing nothing w'.

Definition same_buf (x x' : IpcSocket) : Prop :=
  buf x' = buf x /\ buf_read_ptr x' = buf_read_ptr x /\ buf_write_ptr x' = buf_write_ptr x /\ buf_size x' = buf_size x.

Lemma same_buf_ok x x' : same_buf x x' -> buf_ok x -> buf_ok x' /\ queue x' = queue x.
Proof.
  destruct x, x'. unfold same_buf, buf_ok, queue, ring_of. cbn. intros (-> & -> & -> & ->) [[H1 H2 H3 H4] H5].
  split; [split; [split|]|]; done.
Qed.

Lemma kept_socks w w' : socks w' = socks w -> (next w <= next w')%nat -> kept w w'.
Proof.
  intros E Hn. split; [done|]. intros s x' H. rewrite E in H. left. exists x'. split; [done|].
  intros Hb. split; [done|]. by rewrite app_nil_r.
Qed.

Lemma flow_kept w ins outs w1 w2 : flow w ins outs w1 -> kept w1 w2 -> flow w ins outs w2.
Proof.
  intros [Hn1 H1] [Hn2 H2]. split; [lia|]. intros s x2 Hx2. destruct (H2 s x2 Hx2) as [(x1 & Hx1 & Hk)|(? & ? & ?)].
  - destruct (H1 s x1 Hx1) as [(x & Hx & Hf)|(? & Hb & Hq)].
    + left. exists x. split; [done|]. intros Hb. destruct (Hf Hb) as [Hb1 E1]. destruct (Hk Hb1) as [Hb2 E2].
      split; [done|]. unfold nothing in E2. rewrite app_nil_r in E2. simpl in E2. congruence.
    + right. destruct (Hk Hb) as [Hb2 E2]. unfold nothing in E2. rewrite app_nil_r in E2. simpl in E2.
      split_and!; [lia|lia|done|congruence].
  - right. split_and!; [lia|lia|done|done].
Qed.

Lemma kept_trans w w1 w2 : kept w w1 -> kept w1 w2 -> kept w w2.
Proof. apply flow_kept. Qed.

Lemma kept_set w s x x' : socks w !! s = Some x -> same_buf x x' -> kept w (set_sock s x' w).
Proof.
  intros Hx Hs. split; [done|]. intros s' y H. cbn in H. destruct (decide (s' = s)) as [->|N].
  - rewrite lookup_insert_eq in H. simplify_eq. left. exists x. split; [done|].
    intros Hb. destruct (same_buf_ok _ _ Hs Hb) as [? Hq]. split; [done|]. by rewrite app_nil_r, Hq.
  - rewrite lookup_insert_ne in H by done. left. exists y. split; [done|]. intros ?. by rewrite app_nil_r.
Qed.

Lemma kept_fresh w s x ds ps rs : s = next w -> buf_ok x -> queue x = [] ->
  kept w (mkWorld (<[s := x]> (socks w)) ds ps rs (S s)).
Proof.
  intros -> Hb Hq. split; [cbn; lia|]. intros s' y H. cbn in H. destruct (decide (s' = next w)) as [->|N].
  - rewrite lookup_insert_eq in H. simplify_eq. right. cbn. split_and!; [lia|lia|done|done].
  - rewrite lookup_insert_ne in H by done. left. exists y. split; [done|]. intros ?. by rewrite app_nil_r.
Qed.

(** Descriptors and processes do not touch sockets. *)
Lemma add_descriptor_kept p d w w' : add_descriptor p d w = Some w' -> kept w w' /\ socks w' = socks w.
Proof. unfold add_descriptor. intros H. destruct (procs w !! p); simplify_eq/=. split; [by apply kept_socks|done]. Qed.

Lemma delete_descriptor_kept d w w' : delete_descriptor d w = Some w' -> kept w w' /\ socks w' = socks w.
Proof.
  unfold delete_descriptor, remove_descriptor. intros H. destruct (descs w !! d) as [x|]; [|done]. simpl in H.
  destruct (process x) as [p|]; [destruct (procs w !! p)|]; simplify_eq/=; (split; [by apply kept_socks|done]).
Qed.

Lemma release_descriptor_kept d w w' : release_descriptor d w = Some w' -> kept w w' /\ socks w' = socks w.
Proof.
  unfold release_descriptor. intros H. destruct (refs w !! d) as [n|]; [|done]. simpl in H. case_match; simplify_eq.
  - apply delete_descriptor_kept in H as [Hk Hs]. split; [|by rewrite Hs]. eapply kept_trans; [|exact Hk]. by apply kept_socks.
  - split; [by apply kept_socks|done].
Qed.

Lemma get_ipc_socket_kept p nb w s w' : get_ipc_socket p nb w = Some (s, w') -> kept w w'.
Proof.
  unfold get_ipc_socket. intros H. destruct (procs w !! p) as [x|] eqn:Ep; [|done]. simpl in H.
  destruct (ipc_socket x); [simplify_eq; by apply kept_socks|]. unfold add_descriptor in H. cbn in H. rewrite Ep in H. cbn in H.
  rewrite lookup_insert_eq in H. cbn in H. simplify_eq.
  apply (kept_trans _ (mkWorld (socks w) ∅ ∅ ∅ (S (next w)))); [apply kept_socks; [done|cbn; lia]|].
  exact (kept_fresh (mkWorld (socks w) ∅ ∅ ∅ (S (next w))) _ _ _ _ _ eq_refl (proj1 (new_socket_ok _ _)) (proj2 (new_socket_ok _ _))).
Qed.

Lemma duplicate_kept d w e w' : duplicate d w = Some (e, w') -> kept w w'.
Proof.
  unfold duplicate. intros H. destruct (descs w !! d) as [x|]; [|done]. simpl in H.
  destruct (process x) as [p|]; [unfold add_descriptor in H; cbn in H; destruct (procs w !! p); [|done]|];
    cbn in H; injection H as <- <-; (apply kept_socks; [done|cbn; lia]).
Qed.

Lemma exit_loop_kept p status ds : forall w w', exit_loop p status ds w = Some w' -> socks w' = socks w /\ next w' = next w.
Proof.
  induction ds as [|d ds IH]; intros w w' H; simpl in H; [by simplify_eq|].
  destruct (descs w !! d) as [x|]; [|done]. simpl in H. case_decide; [|done]. by apply IH in H.
Qed.

Lemma exit_kept p status w w' : Ipc.exit p status w = Some w' -> kept w w'.
Proof.
  unfold Ipc.exit. intros H. destruct (procs w !! p); [|done]. simpl in H.
  destruct (exit_loop _ _ _ w) as [w1|] eqn:E; simplify_eq/=. apply exit_loop_kept in E as [Hs Hn].
  apply kept_socks; cbn; [done|lia].
Qed.

Definition task_wf (t : task) : Prop :=
  match t with
  | Send _ data | SendRound _ _ data _ | SendWait _ _ data _ => fits 64 (Z.of_nat (length data))
  | Receive _ r total => Z.of_nat (length r) <= total /\ fits 64 total
  | ReceiveCopy _ r total | ReceiveSignal _ r total | ReceiveWait _ r total => Z.of_nat (length r) < total /\ fits 64 total
  | _ => True
  end.

Lemma locking_inv s w k t w' : locking s w k = Next t w' -> exists x, socks w !! s = Some x /\ lock x = None /\ k x = Next t w'.
Proof. unfold locking. intros H. repeat case_match; try done. eauto. Qed.

Lemma kept_refl w : kept w w.
Proof. by apply kept_socks. Qed.
Lemma same_buf_with_lock l x : same_buf x (with_lock l x).
Proof. done. Qed.
Create HintDb ipc.
#[local] Hint Resolve kept_refl : ipc.

Ltac inv_step H :=
  repeat match type of H with
  | locking _ _ _ = Next _ _ =>
      let x := fresh "x" in let Hx := fresh "Hx" in let Hl := fresh "Hl" in apply locking_inv in H as (x & Hx & Hl & H)
  | Next _ _ = Next _ _ => injection H as <- <-
  | Blocked = _ => discriminate H
  | Crash = _ => discriminate H
  | crash_or None = _ => discriminate H
  | crash_or (Some _) = _ => cbn [crash_or default] in H
  end.

Lemma disconnect_kept s t k w t' w' : disconnect_target s t k w = Next t' w' -> kept w w' /\ task_wf t'.
Proof.
  unfold disconnect_target. intros H. inv_step H. case_decide; [|done].
  destruct (socks (set_sock _ _ w) !! s) as [y|] eqn:Ey; [|done]. simpl in H.
  assert (Hk : kept w (set_sock t (with_target None None x) w)) by by apply (kept_set _ _ x).
  destruct (match target_address y with Some d => _ | None => _ end) as [w1|] eqn:E1; [|done]. cbn in H. injection H as <- <-.
  assert (kept w w1 /\ socks w1 !! s = Some y) as [Hk1 Hs1].
  { destruct (target_address y); [apply delete_descriptor_kept in E1 as [Hk1 Hs1]|injection E1 as <-]; [|done].
    split; [by eapply kept_trans|]. by rewrite Hs1. }
  split; [|by destruct k]. eapply kept_trans; [exact Hk1|]. by apply (kept_set _ _ y).
Qed.

Lemma connect_kept s b d w t' w' : connect s b d w = Next t' w' -> kept w w' /\ task_wf t'.
Proof.
  unfold connect. intros H. destruct b; cbn [negb] in H; [|inv_step H; split; [apply kept_refl|done]].
  destruct (descs w !! d) as [x|]; [|done]. cbn in H. destruct (process x) as [p|]; [|cbn in H; inv_step H; split; [apply kept_refl|done]].
  destruct (socks w !! s) as [me|] eqn:Es; [|done]. cbn in H.
  match type of H with context [add_descriptor _ _ ?w0] => set (w1 := w0) in H end.
  assert (K1 : kept w w1).
  { apply (kept_trans _ (snd (new_descriptor (Some p) 0 w))); [apply kept_socks; [done|cbn; lia]|]. by apply (kept_set _ _ me). }
  clearbody w1. destruct (add_descriptor _ _ w1) as [w2|] eqn:E2; [|done]. apply add_descriptor_kept in E2 as [K2 _]. cbn in H.
  destruct (get_ipc_socket p _ w2) as [[u w3]|] eqn:E3; [|done]. apply get_ipc_socket_kept in E3. cbn in H. inv_step H.
  split; [|done]. eapply kept_trans; [exact K1|]. eapply kept_trans; [exact K2|]. eapply kept_trans; [exact E3|].
  by apply (kept_set _ _ x0).
Qed.

Definition below (w : world) : Prop := forall s x, socks w !! s = Some x -> (s < next w)%nat.

Lemma accept_kept s p b w t' w' : below w -> accept_pending s p b w = Next t' w' -> kept w w' /\ task_wf t'.
Proof.
  unfold accept_pending. intros Hb H. inv_step H. destruct (socks w !! s) as [y|] eqn:Es; [|done]. cbn in H.
  destruct (refs w !! _) as [n|]; [|done]. cbn in H. injection H as <- <-. split; [|done].
  pose proof (Hb _ _ Hx). pose proof (Hb _ _ Es).
  apply (kept_trans _ (mkWorld (<[next w := with_target (Some p) (Some (owner_desc x)) (new_socket (owner_desc y) b)]> (socks w))
    (descs w) (procs w) (<[owner_desc y := u64 (n + 1)]> (refs w)) (S (next w)))).
  { apply kept_fresh; [done|apply (new_socket_ok 0 false)..]. }
  match goal with |- kept _ (set_sock s _ ?w2) => apply (kept_trans _ w2) end.
  { apply (kept_set _ p x); [cbn; by rewrite lookup_insert_ne by lia|done]. }
  destruct (decide (s = p)) as [->|].
  - assert (x = y) as <- by congruence. eapply kept_set; [apply lookup_insert_eq|done].
  - apply (kept_set _ _ y); [|done]. cbn. by rewrite !lookup_insert_ne by lia.
Qed.

Lemma flow_at w s x x' ins outs : socks w !! s = Some x ->
  (buf_ok x -> buf_ok x' /\ queue x ++ ins s = outs s ++ queue x') ->
  (forall u, u <> s -> ins u = [] /\ outs u = []) -> flow w ins outs (set_sock s x' w).
Proof.
  intros Hx Hf Ho. split; [done|]. intros u z Hz. cbn in Hz. destruct (decide (u = s)) as [->|N].
  - rewrite lookup_insert_eq in Hz. simplify_eq. left. eauto.
  - rewrite lookup_insert_ne in Hz by done. left. exists z. split; [done|]. intros ?.
    destruct (Ho u N) as [-> ->]. by rewrite app_nil_r.
Qed.

Lemma send_step_flow s t data orig w t' w' : fits 64 (Z.of_nat (length data)) -> send_step s t data orig w = Next t' w' ->
  flow w (moved_in (SendRound s t data orig) w) nothing w' /\ task_wf t'.
Proof.
  unfold send_step. intros Hf H. inv_step H. destruct (send_round data x) as [data' y] eqn:E.
  assert (Hd : data' = drop (length data - length data') data /\ (length data' <= length data)%nat).
  { unfold send_round in E. repeat case_match; simplify_eq; rewrite length_drop; (split; [|lia]).
    all: match goal with |- drop ?n _ = drop ?m _ => destruct (decide (n <= length data)%nat); [f_equal; lia|rewrite !drop_ge by lia; done] end. }
  assert (F : flow w (moved_in (SendRound s t data orig) w) nothing (set_sock t y w)).
  { apply (flow_at _ _ x); [done| |].
    - intros Hb. destruct (send_round_spec _ _ _ _ Hb Hf E) as (a & Ha & Hq & Hb' & _). split; [done|].
      cbn. rewrite decide_True by done. rewrite Hx, E. cbn. rewrite Hq. f_equal. rewrite Ha, length_app, Nat.add_sub, take_app_length. done.
    - intros u N. cbn. by rewrite decide_False. }
  destruct (socks (set_sock t y w) !! s) as [x1|] eqn:Es; [|done].
  repeat case_match; inv_step H; (split; [eapply flow_kept; [exact F|]; try by apply (kept_set _ _ x1)|cbn; unfold fits in *; try done; lia]).
  apply kept_refl.
Qed.

Lemma receive_copy_flow s r total w t' w' : Z.of_nat (length r) < total -> fits 64 total -> receive_copy s r total w = Next t' w' ->
  flow w nothing (moved_out (ReceiveCopy s r total) w) w' /\ task_wf t'.
Proof.
  unfold receive_copy. intros Hr Hf H. inv_step H. destruct (copy_out _ x) as [bytes y] eqn:E. inv_step H. unfold fits in *.
  assert (Hs : total ⊟ Z.of_nat (length r) = total - Z.of_nat (length r)) by (unfold sub64; apply u64_small; lia). split.
  - apply (flow_at _ _ x); [done| |].
    + intros Hb. destruct (copy_out_spec (total ⊟ Z.of_nat (length r)) x bytes y Hb ltac:(rewrite Hs; unfold fits; lia) E) as (Hq & Hb' & _). split; [done|].
      unfold moved_out. rewrite decide_True by done. rewrite Hx, E. cbn [fst]. unfold nothing. by rewrite app_nil_r.
    + intros u N. cbn. by rewrite decide_False.
  - cbn. unfold fits. rewrite length_app. rewrite Hs in E. unfold copy_out in E. injection E as <- _. rewrite length_take. lia.
Qed.

(** Every step keeps the order of the bytes in every socket. *)
Lemma step_flow i t w t' w' : below w -> task_wf t -> step_task i t w = Next t' w' ->
  flow w (moved_in t w) (moved_out t w) w' /\ task_wf t'.
Proof.
  intros Hb Hwf H. destruct t; cbn [step_task] in H; try done.
  all: change (fun s => moved_in _ _ s) with nothing; change (fun s => moved_out _ _ s) with nothing.
  - unfold disconnect in H. inv_step H. case_match; inv_step H; (split; [|by destruct k]); [by apply (kept_set _ _ x)|apply kept_refl].
  - by apply disconnect_kept in H.
  - by apply connect_kept in H.
  - unfold pending_wait in H. repeat case_match; inv_step H. split; [|done]. by eapply kept_set.
  - unfold destroy in H. destruct (socks w !! s) as [x|]; [|done]. cbn in H. destruct (release_descriptor _ w) as [w1|] eqn:E; [|done].
    cbn in H. injection H as <- <-. split; [|done]. apply release_descriptor_kept in E as [[Hn K] Hs]. split; [done|].
    intros u z Hz. cbn in Hz. apply lookup_delete_Some in Hz as [_ Hz]. exact (K u z Hz).
  - unfold listen, pending_wait in H. repeat case_match; inv_step H; (split; [|done]); [apply kept_refl|]. by eapply kept_set.
  - unfold listen_check in H. inv_step H. case_match; inv_step H. split; [apply kept_refl|done].
  - unfold accept in H. inv_step H. case_match; inv_step H; (split; [|done]); [by apply (kept_set _ _ x)|apply kept_refl].
  - by apply accept_kept in H.
  - unfold send in H. inv_step H. case_match; inv_step H; (split; [|done]); [by apply (kept_set _ _ x)|apply kept_refl].
  - by apply send_step_flow in H.
  - unfold send_wait in H. repeat case_match; inv_step H. split; [|done]. by eapply kept_set.
  - unfold receive in H. destruct (Z.of_nat (length received) <? total) eqn:El; cbn [negb] in H; bool_to_prop; inv_step H.
    + repeat case_match; inv_step H; (split; [apply kept_refl|]); try done; destruct Hwf; done.
    + split; [apply kept_refl|done].
  - destruct Hwf. by apply receive_copy_flow in H.
  - unfold receive_signal in H. repeat case_match; inv_step H. split; [|done]. by eapply kept_set.
  - unfold receive_wait in H. repeat case_match; inv_step H. split; [by eapply kept_set|]. destruct Hwf. split; [lia|done].
  - unfold get_peer_name in H. inv_step H. repeat case_match; inv_step H; (split; [apply kept_refl|done]).
Qed.

(** ** All interleavings *)

(** An operation as it is called. *)
Definition start (t : task) : Prop :=
  match t with
  | Disconnect _ _ | Listen _ | Accept _ _ | GetPeerName _ => True
  | Send _ data => fits 64 (Z.of_nat (length data))
  | Receive _ r total => r = [] /\ fits 64 total
  | _ => False
  end.

(** What the rest of the kernel does meanwhile. *)
Inductive kernel : world -> world -> Prop :=
| kernel_process w p : procs w !! p = None -> kernel w (set_proc p (mkProc None []) w)
| kernel_create w p nb s w' : socket_create p nb w = Some (s, w') -> kernel w w'
| kernel_duplicate w d e w' : duplicate d w = Some (e, w') -> kernel w w'
| kernel_release w d w' : release_descriptor d w = Some w' -> kernel w w'
| kernel_exit w p status w' : Ipc.exit p status w = Some w' -> kernel w w'.

Lemma kernel_kept w w' : kernel w w' -> kept w w'.
Proof.
  intros []; [by apply kept_socks|by eapply get_ipc_socket_kept|by eapply duplicate_kept| |by eapply exit_kept].
  by eapply release_descriptor_kept.
Qed.

(** What has been sent to and received from each socket. *)
Inductive exec : world -> gmap nat task -> (nat -> list Z) -> (nat -> list Z) -> Prop :=
| exec_boot w : socks w = ∅ -> exec w ∅ nothing nothing
| exec_call w ts ins outs i t : exec w ts ins outs -> ts !! i = None -> start t -> exec w (<[i := t]> ts) ins outs
| exec_step w ts ins outs i t t' w' : exec w ts ins outs -> ts !! i = Some t -> step_task i t w = Next t' w' ->
    exec w' (<[i := t']> ts) (fun s => ins s ++ moved_in t w s) (fun s => outs s ++ moved_out t w s)
| exec_return w ts ins outs i ret data size sock : exec w ts ins outs -> ts !! i = Some (Done ret data size sock) ->
    exec w (delete i ts) ins outs
| exec_kernel w ts ins outs w' : exec w ts ins outs -> kernel w w' -> exec w' ts ins outs.

Record FInv (w : world) (ts : gmap nat task) (ins outs : nat -> list Z) : Prop := {
  fi_below : below w;
  fi_tasks : map_Forall (fun _ => task_wf) ts;
  fi_socks : forall s x, socks w !! s = Some x -> buf_ok x /\ ins s = outs s ++ queue x;
  fi_fresh : forall s, (next w <= s)%nat -> ins s = [] /\ outs s = []
}.

Lemma ipc_start_wf t : start t -> task_wf t.
Proof. destruct t; cbn; try done. intros [-> H]. unfold fits in *. split; [cbn; lia|done]. Qed.

Lemma moved_fresh t w s : below w -> (next w <= s)%nat -> moved_in t w s = [] /\ moved_out t w s = [].
Proof.
  intros Hb Hs. assert (socks w !! s = None) by (destruct (socks w !! s) eqn:E; [apply Hb in E; lia|done]).
  destruct t; try done; unfold moved_in, moved_out; (case_decide; [subst|done]); by repeat case_match.
Qed.

Lemma flow_inv w ts ins outs w' i o : FInv w ts ins outs -> flow w i o w' ->
  (forall s, (next w <= s)%nat -> i s = [] /\ o s = []) -> FInv w' ts (fun s => ins s ++ i s) (fun s => outs s ++ o s).
Proof.
  intros [Hb Ht Hs Hf] [Hn Hw] Hio. split; [|done| |].
  - intros s x Hx. destruct (Hw s x Hx) as [(y & Hy & _)|[? _]]; [apply Hb in Hy|]; lia.
  - intros s x' Hx. destruct (Hw s x' Hx) as [(x & Hx0 & Hk)|([? _] & Hb' & Hq)].
    + destruct (Hs s x Hx0) as [Hbx Hq]. destruct (Hk Hbx) as [Hb' E]. split; [done|]. by rewrite Hq, <- !app_assoc, E.
    + split; [done|]. destruct (Hf s) as [-> ->]; [done|]. destruct (Hio s) as [-> ->]; [done|]. by rewrite Hq.
  - intros s H. destruct (Hf s) as [-> ->]; [lia|]. apply Hio. lia.
Qed.

Lemma ipc_exec_inv w ts ins outs : exec w ts ins outs -> FInv w ts ins outs.
Proof.
  induction 1 as [w Hw|w ts ins outs i t He IH Hi Ht|w ts ins outs i t t' w' He IH Hi Hst|w ts ins outs i ret data size sock He IH Hi|
    w ts ins outs w' He IH Hk].
  - split; [|done| |done]; intros s x; by rewrite Hw.
  - destruct IH as [H1 H2 H3 H4]. split; [done| |done|done]. apply map_Forall_insert_2; [by apply ipc_start_wf|done].
  - pose proof (fi_tasks _ _ _ _ IH i t Hi) as Hwf. pose proof (fi_below _ _ _ _ IH) as Hb.
    destruct (step_flow i t w t' w' Hb Hwf Hst) as [Hf Hwf'].
    destruct (flow_inv _ _ _ _ _ _ _ IH Hf (fun s => moved_fresh t w s Hb)) as [H1 H2 H3 H4].
    split; [done| |done|done]. by apply map_Forall_insert_2.
  - destruct IH as [H1 H2 H3 H4]. split; [done| |done|done]. by apply map_Forall_delete.
  - destruct (flow_inv _ _ _ _ _ _ _ IH (kernel_kept _ _ Hk) (fun s _ => conj eq_refl eq_refl)) as [H1 H2 H3 H4].
    split; [done|done| |].
    + intros s x Hx. destruct (H3 s x Hx) as [Hbx Hq]. unfold nothing in Hq. rewrite !app_nil_r in Hq. done.
    + intros s Hs. destruct (H4 s Hs) as [Hq1 Hq2]. unfold nothing in Hq1, Hq2. rewrite !app_nil_r in *. done.
Qed.

End IpcInv.

(** * A blocking transfer ends

    One thread sends on a socket and one receives on its peer.  Whatever the order
    of their steps, neither is left waiting and the bytes arrive: every step
    decreases a measure, and one of the two can always take one. *)

Module IpcTransfer.
Import Ipc IpcInv.

(** Whatever runs next, [P] is reached, and no one crashes before. *)
Inductive ends (P : world -> gmap nat task -> Prop) (w : world) (ts : gmap nat task) : Prop :=
| ends_now : P w ts -> ends P w ts
| ends_step :
    (forall i t, ts !! i = Some t -> step_task i t w <> Crash) ->
    (exists i t t' w', ts !! i = Some t /\ step_task i t w = Next t' w') ->
    (forall i t t' w', ts !! i = Some t -> step_task i t w = Next t' w' -> ends P w' (<[i := t']> ts)) ->
    ends P w ts.

Inductive sender := SStart | SRound | SWait | SDone.
Inductive receiver := RRecv | RCopy | RSignal | RWait | RDone.

Section Transfer.
Context (s t : nat) (data : list Z) (K : Z).
Hypothesis Hst : s <> t.
Hypothesis HK : K < 2 ^ 63.
Notation n := (Z.of_nat (length data)).
Hypothesis Hn : n < 2 ^ 63.

Definition sender_task (p : sender) (left : list Z) : task :=
  match p with
  | SStart => Send s left
  | SRound => SendRound s t left n
  | SWait => SendWait s t left n
  | SDone => Done 0 [] n None
  end.
Definition receiver_task (p : receiver) (acc : list Z) : task :=
  match p with
  | RRecv => Receive t acc n
  | RCopy => ReceiveCopy t acc n
  | RSignal => ReceiveSignal t acc n
  | RWait => ReceiveWait t acc n
  | RDone => Done 0 acc n None
  end.

Definition sender_ok (p : sender) (x : IpcSocket) (left : list Z) : Prop :=
  match p with
  | SStart => lock x = None /\ left = data /\ left <> []
  | SRound | SWait => lock x = Some 1%nat /\ left <> []
  | SDone => lock x = None /\ left = []
  end.
Definition receiver_ok (p : receiver) (q : sender) (y : IpcSocket) (acc : list Z) : Prop :=
  match p with
  | RRecv => True
  | RCopy => Z.of_nat (length acc) < n /\ queue y <> []
  | RSignal => Z.of_nat (length acc) < n /\ (queue y <> [] -> 1 <= write_event y)
  | RWait => Z.of_nat (length acc) < n /\ (queue y <> [] -> 1 <= write_event y) /\ (q = SWait -> queue y = [] -> 1 <= read_event y)
  | RDone => acc = data
  end.

Definition sender_weight (p : sender) : Z := match p with SStart => 2 | SRound => 1 | _ => 0 end.
Definition receiver_weight (q : receiver) : Z := match q with RRecv => 4 | RSignal => 3 | _ => 0 end.
Definition measure (p : sender) (q : receiver) (y : IpcSocket) (left : list Z) : Z :=
  11 * Z.of_nat (length left) + 5 * Z.of_nat (length (queue y)) + 2 * read_event y + 5 * write_event y +
  sender_weight p + receiver_weight q.

Record TInv (p : sender) (q : receiver) (x y : IpcSocket) (acc left : list Z) (w : world) : Prop := {
  ti_s : socks w !! s = Some x;
  ti_t : socks w !! t = Some y;
  ti_x : target x = Some t /\ nonblock x = false;
  ti_y : target y = Some s /\ nonblock y = false /\ lock y = None;
  ti_buf : buf_ok y;
  ti_ev : 0 <= read_event y /\ 0 <= write_event y;
  ti_data : data = acc ++ queue y ++ left;
  ti_p : sender_ok p x left;
  ti_q : receiver_ok q p y acc;
  ti_m : measure p q y left <= K
}.

Lemma weights p q : 0 <= sender_weight p <= 2 /\ 0 <= receiver_weight q <= 4.
Proof. destruct p, q; cbn; lia. Qed.

Lemma queue_with_read_event e y : queue (with_read_event e y) = queue y.
Proof. done. Qed.
Lemma queue_with_write_event e y : queue (with_write_event e y) = queue y.
Proof. done. Qed.

Lemma locking_free u w z k : socks w !! u = Some z -> lock z = None -> locking u w k = k z.
Proof. unfold locking. by intros -> ->. Qed.

Lemma sizes p q x y acc left w : TInv p q x y acc left w ->
  n = Z.of_nat (length acc) + Z.of_nat (length (queue y)) + Z.of_nat (length left).
Proof. intros H. rewrite (ti_data _ _ _ _ _ _ _ H), !length_app. lia. Qed.

Lemma rest_inv x y : rest x = rest y ->
  pending x = pending y /\ target x = target y /\ target_address x = target_address y /\ owner_desc x = owner_desc y /\
  nonblock x = nonblock y /\ pending_event x = pending_event y /\ read_event x = read_event y /\ lock x = lock y.
Proof. unfold rest. intros H. by simplify_eq. Qed.

(** What a step of the sender leads to. *)
Definition sends (p : sender) (q : receiver) (y : IpcSocket) (acc left : list Z) (o : outcome) : Prop :=
  match o with
  | Crash => False
  | Blocked => p = SDone \/ p = SWait /\ read_event y = 0
  | Next t' w' => exists p' x' y' left', t' = sender_task p' left' /\ TInv p' q x' y' acc left' w' /\
                    measure p' q y' left' < measure p q y left
  end.

Lemma round_sends q x y acc left w : TInv SRound q x y acc left w -> sends SRound q y acc left (send_step s t left n w).
Proof.
  intros H. pose proof (sizes _ _ _ _ _ _ _ H) as Hsz. destruct H as [Hs Ht [Hx1 Hx2] (Hy1 & Hy2 & Hy3) Hb Hev Hd [Hp1 Hp2] Hq Hm].
  unfold send_step. rewrite (locking_free t w y) by done. destruct (send_round left y) as [left' y'] eqn:E.
  destruct (send_round_spec left y left' y' Hb ltac:(unfold fits; lia) E) as (a & -> & Hq' & Hb' & Hr & Hw & Hend).
  apply rest_inv in Hr as (_ & Hr2 & _ & _ & Hr5 & _ & Hr7 & Hr8). pose proof (queue_length y Hb) as Hl. pose proof (queue_length y' Hb') as Hl'.
  cbn [set_sock socks]. rewrite lookup_insert_ne by done. rewrite Hs, Hx2. rewrite Hq', !length_app in *.
  assert (Hw' : 0 <= write_event y' /\ 5 * write_event y' <= 5 * write_event y + 5 * Z.of_nat (length a) /\
    (queue y' <> [] -> queue y <> [] \/ 1 <= write_event y')).
  { rewrite Hw, Hq'. destruct (Z.eqb_spec (buf_size y) 0) as [E0|E0].
    - unfold measure in Hm. rewrite !length_app in Hm. pose proof (weights SRound q). rewrite u64_small by lia.
      destruct a as [|c a]; [|cbn [length]; split_and!; [lia|lia|right; lia]]. exfalso. cbn in *. destruct Hend as [->|He]; [done|lia].
    - split_and!; [lia|lia|]. left. intros E1. rewrite E1 in Hl. cbn in Hl. lia. }
  destruct Hw' as (Hw1 & Hw2 & Hw3).
  assert (Hq2 : forall p', p' = SWait -> left' <> [] -> queue y' <> []).
  { intros _ _ Hne. destruct Hend as [->|He]; [done|]. intros Hnil. rewrite Hq' in Hnil. apply (f_equal length) in Hnil. rewrite length_app in Hnil. cbn in Hnil. lia. }
  assert (Hrq : forall p', (p' = SDone \/ (p' = SWait /\ left' <> [])) -> receiver_ok q p' y' acc).
  { intros p' Hp'. destruct q; cbn in *; try done.
    - destruct Hq as [? Hne]. split; [done|]. rewrite Hq'. destruct (queue y); done.
    - destruct Hq as [? Hne]. split; [done|]. intros Hn'. destruct (Hw3 Hn') as [Hqy|]; [|done]. specialize (Hne Hqy). rewrite Hw.
      destruct (Z.eqb_spec (buf_size y) 0); [|done]. destruct (queue y); [done|cbn in Hl; lia].
    - destruct Hq as (? & Hne & _). split; [done|]. split.
      + intros Hn'. destruct (Hw3 Hn') as [Hqy|]; [|done]. specialize (Hne Hqy). rewrite Hw.
        destruct (Z.eqb_spec (buf_size y) 0); [|done]. destruct (queue y); [done|cbn in Hl; lia].
      + intros -> Hnil. destruct Hp' as [|[_ Hne']]; [done|]. by destruct (Hq2 SWait). }
  assert (Hm' : measure SDone q y' left' < measure SRound q y (a ++ left')).
  { unfold measure. rewrite Hq', !length_app, Hr7. cbn [sender_weight]. lia. }
  destruct (Z.eqb_spec (Z.of_nat (length left')) 0) as [E0|E0].
  - assert (left' = []) as -> by (destruct left'; [done|cbn in E0; lia]).
    exists SDone, (with_lock None x), y', []. split; [done|]. split; [|done].
    split; cbn; rewrite ?lookup_insert_eq; try rewrite lookup_insert_ne by done; rewrite ?lookup_insert_eq; try done.
    + rewrite Hr2, Hr5, Hr8. done.
    + lia.
    + rewrite Hq', Hd. by rewrite <- !app_assoc.
    + apply Hrq. by left.
    + lia.
  - exists SWait, x, y', left'. split; [done|]. assert (left' <> []) by (by destruct left').
    split; [|exact Hm'].
    split; cbn; try rewrite lookup_insert_ne by done; rewrite ?lookup_insert_eq; try done.
    + rewrite Hr2, Hr5, Hr8. done.
    + lia.
    + rewrite Hq', Hd. by rewrite <- !app_assoc.
    + apply Hrq. by right.
    + change (measure SWait) with (measure SDone). lia.
Qed.

Lemma sender_sends p q x y acc left w : TInv p q x y acc left w -> sends p q y acc left (step_task 1 (sender_task p left) w).
Proof.
  intros H. destruct p; cbn [sender_task step_task].
  - pose proof H as [Hs Ht [Hx1 Hx2] Hy Hb Hev Hd (Hp1 & Hp2 & Hp3) Hq Hm]. unfold send. rewrite (locking_free s w x) by done. rewrite Hx1.
    exists SRound, (with_lock (Some 1%nat) x), y, left. split; [cbn; by rewrite Hp2|]. split; [|unfold measure; cbn; lia].
    split; cbn; try rewrite lookup_insert_ne by done; rewrite ?lookup_insert_eq; try done.
    + destruct q; cbn in *; try done. destruct Hq as (? & ? & ?). split_and!; done.
    + unfold measure in *. cbn in *. lia.
  - by apply (round_sends q x).
  - pose proof H as [Hs Ht Hx Hy Hb Hev Hd [Hp1 Hp2] Hq Hm]. unfold send_wait. rewrite Ht.
    destruct (Z.eqb_spec (read_event y) 0) as [E|E]; [by right|].
    exists SRound, x, (with_read_event (read_event y - 1) y), left. split; [done|]. split; [|unfold measure; rewrite queue_with_read_event; cbn; lia].
    split; cbn; try rewrite lookup_insert_ne by done; rewrite ?lookup_insert_eq; try done.
    + apply (same_buf_ok y); done.
    + lia.
    + destruct q; cbn in *; try done. destruct Hq as (? & ? & ?). split_and!; done.
    + unfold measure in *. rewrite queue_with_read_event. cbn in *. lia.
  - by left.
Qed.

Definition receives (p : sender) (q : receiver) (y : IpcSocket) (acc left : list Z) (o : outcome) : Prop :=
  match o with
  | Crash => False
  | Blocked => q = RDone \/ q = RWait /\ write_event y = 0
  | Next t' w' => exists q' x' y' acc', t' = receiver_task q' acc' /\ TInv p q' x' y' acc' left w' /\
                    measure p q' y' left < measure p q y left
  end.

Lemma receive_receives p x y acc left w : TInv p RRecv x y acc left w -> receives p RRecv y acc left (receive t acc n w).
Proof.
  intros H. pose proof (sizes _ _ _ _ _ _ _ H) as Hsz. pose proof H as [Hs Ht Hx (Hy1 & Hy2 & Hy3) Hb Hev Hd Hp Hq Hm].
  pose proof (queue_length y Hb) as Hl. unfold receive.
  assert (Hto : forall q', receiver_ok q' p y acc -> receiver_weight q' < 4 -> exists q0 x' y' acc', receiver_task q' acc = receiver_task q0 acc' /\
    TInv p q0 x' y' acc' left w /\ measure p q0 y' left < measure p RRecv y left).
  { intros q' Hok Hw. exists q', x, y, acc. unfold measure in *. cbn in *. split; [done|]. split; [|lia]. split; try done. unfold measure. lia. }
  destruct (Z.ltb_spec (Z.of_nat (length acc)) n) as [El|El]; cbn [negb].
  - rewrite (locking_free t w y) by done. rewrite Hy1, Hy2. cbn [bool_decide negb andb]. rewrite andb_false_r.
    destruct (Z.eqb_spec (buf_size y) 0) as [E|E]; [apply (Hto RSignal)|apply (Hto RCopy)]; cbn; try lia.
    + split; [done|]. intros Hne. destruct (queue y); [done|cbn in Hl; lia].
    + split; [done|]. intros Hnil. rewrite Hnil in Hl. cbn in Hl. lia.
  - apply (Hto RDone); cbn; [|lia].
    assert (queue y = [] /\ left = []) as [E1 E2] by (split; [destruct (queue y)|destruct left]; try done; cbn in Hsz; lia).
    rewrite Hd, E1, E2. by rewrite !app_nil_r.
Qed.

Lemma receiver_receives p q x y acc left w : TInv p q x y acc left w -> receives p q y acc left (step_task 2 (receiver_task q acc) w).
Proof.
  intros H. pose proof (sizes _ _ _ _ _ _ _ H) as Hsz. destruct q; cbn [receiver_task step_task].
  - by apply (receive_receives p x).
  - pose proof H as [Hs Ht Hx (Hy1 & Hy2 & Hy3) Hb Hev Hd Hp [Hq1 Hq2] Hm]. unfold receive_copy. rewrite (locking_free t w y) by done.
    unfold sub64. rewrite u64_small by lia. destruct (copy_out _ y) as [bytes y'] eqn:E.
    destruct (copy_out_spec (n - Z.of_nat (length acc)) y bytes y' Hb ltac:(unfold fits; lia) E) as (Hqe & Hb' & Hr & Hw & Hlen & Hne).
    apply rest_inv in Hr as (_ & Hr2 & _ & _ & Hr5 & _ & Hr7 & Hr8).
    assert (0 < length bytes)%nat.
    { pose proof (queue_length y Hb) as Hl. destruct bytes; [|cbn; lia]. destruct Hne; [lia| |done]. destruct (queue y); [done|cbn in Hl; lia]. }
    exists RRecv, x, y', (acc ++ bytes). split; [done|].
    assert (Hm' : measure p RRecv y' left < measure p RCopy y left).
    { unfold measure. rewrite Hqe, length_app, Hr7, Hw. cbn. lia. }
    split; [|done]. split; cbn; try rewrite lookup_insert_ne by done; rewrite ?lookup_insert_eq; try done.
    + rewrite Hr2, Hr5, Hr8. done.
    + lia.
    + rewrite Hd, Hqe. by rewrite <- !app_assoc.
    + lia.
  - pose proof H as [Hs Ht Hx Hy Hb Hev Hd Hp [Hq1 Hq2] Hm]. unfold receive_signal. rewrite Ht. pose proof (weights p RSignal).
    assert (Hu : u64 (read_event y + 1) = read_event y + 1) by (apply u64_small; unfold measure in Hm; lia).
    assert (Hm' : measure p RWait (with_read_event (u64 (read_event y + 1)) y) left < measure p RSignal y left).
    { unfold measure. rewrite queue_with_read_event. cbn. lia. }
    exists RWait, x, (with_read_event (u64 (read_event y + 1)) y), acc. split; [done|]. split; [|done].
    split; cbn; try rewrite lookup_insert_ne by done; rewrite ?lookup_insert_eq; try done.
    + apply (same_buf_ok y); done.
    + lia.
    + split_and!; [done|done|]. intros. lia.
    + lia.
  - pose proof H as [Hs Ht Hx Hy Hb Hev Hd Hp (Hq1 & Hq2 & Hq3) Hm]. unfold receive_wait. rewrite Ht.
    destruct (Z.eqb_spec (write_event y) 0) as [E|E]; [by right|].
    assert (Hm' : measure p RRecv (with_write_event (write_event y - 1) y) left < measure p RWait y left).
    { unfold measure. rewrite queue_with_write_event. cbn. lia. }
    exists RRecv, x, (with_write_event (write_event y - 1) y), acc. split; [done|]. split; [|done].
    split; cbn; try rewrite lookup_insert_ne by done; rewrite ?lookup_insert_eq; try done.
    + apply (same_buf_ok y); done.
    + lia.
    + lia.
  - by left.
Qed.

(** Both have returned, the receiver with the data. *)
Definition delivered (w : world) (ts : gmap nat task) : Prop :=
  ts !! 1%nat = Some (Done 0 [] n None) /\ ts !! 2%nat = Some (Done 0 data n None) /\
  exists x y, socks w !! s = Some x /\ socks w !! t = Some y /\ lock x = None /\ lock y = None /\ queue y = [].

Definition pair_of (a b : task) : gmap nat task := <[1%nat := a]> {[2%nat := b]}.

Lemma pair_lookup a b i u : pair_of a b !! i = Some u -> i = 1%nat /\ u = a \/ i = 2%nat /\ u = b.
Proof.
  unfold pair_of. intros H. destruct (decide (i = 1%nat)) as [->|]; [rewrite lookup_insert_eq in H; left; by simplify_eq|].
  rewrite lookup_insert_ne in H by done. apply lookup_singleton_Some in H as [<- <-]. by right.
Qed.

Lemma delivered_or_step p q x y acc left w : TInv p q x y acc left w ->
  delivered w (pair_of (sender_task p left) (receiver_task q acc)) \/
  step_task 1 (sender_task p left) w <> Blocked \/ step_task 2 (receiver_task q acc) w <> Blocked.
Proof.
  intros H. pose proof (sizes _ _ _ _ _ _ _ H) as Hsz. pose proof (sender_sends _ _ _ _ _ _ _ H) as Hs. pose proof (receiver_receives _ _ _ _ _ _ _ H) as Hr.
  destruct (step_task 1 _ w) eqn:E1; [|done|right; by left].
  destruct (step_task 2 _ w) eqn:E2; [|done|right; by right]. clear E1 E2. left. cbn in Hs, Hr.
  destruct H as [Hx Hy _ (_ & _ & Hly) Hb Hev Hd Hp Hq Hm].
  assert (Hend : p = SDone /\ q = RDone).
  { destruct Hr as [->|[-> Hw]], Hs as [->|[-> Hrd]]; cbn in Hp, Hq; try done.
    - subst acc. destruct Hp as [_ Hne]. destruct left; [done|]. cbn in Hsz. lia.
    - destruct Hp as [_ ->]. destruct Hq as (Hq1 & Hq2 & _). destruct (queue y); [cbn in Hsz; lia|]. specialize (Hq2 ltac:(done)). lia.
    - destruct Hq as (Hq1 & Hq2 & Hq3). destruct (queue y); [specialize (Hq3 eq_refl eq_refl)|specialize (Hq2 ltac:(done))]; lia. }
  destruct Hend as [-> ->]. cbn in Hp, Hq. destruct Hp as [Hlx ->]. subst acc.
  split; [apply lookup_insert_eq|]. split; [unfold pair_of; by rewrite lookup_insert_ne, lookup_singleton_eq by done|].
  exists x, y. split_and!; try done. destruct (queue y); [done|cbn in Hsz; lia].
Qed.

Lemma transfer_ends m : forall p q x y acc left w, TInv p q x y acc left w -> measure p q y left < Z.of_nat m ->
  ends delivered w (pair_of (sender_task p left) (receiver_task q acc)).
Proof.
  induction m as [|m IH]; intros p q x y acc left w H Hm.
  { exfalso. pose proof (weights p q). destruct (ti_ev _ _ _ _ _ _ _ H). unfold measure in Hm. lia. }
  destruct (delivered_or_step _ _ _ _ _ _ _ H) as [Hd|Hstep]; [by apply ends_now|].
  pose proof (sender_sends _ _ _ _ _ _ _ H) as Hs. pose proof (receiver_receives _ _ _ _ _ _ _ H) as Hr.
  apply ends_step.
  - intros i u Hi Hc. apply pair_lookup in Hi as [[-> ->]|[-> ->]]; [by rewrite Hc in Hs|by rewrite Hc in Hr].
  - destruct Hstep as [Hb|Hb]; [exists 1%nat, (sender_task p left)|exists 2%nat, (receiver_task q acc)].
    + destruct (step_task 1 _ w) as [| |t' w']; [done|done|]. exists t', w'. split; [apply lookup_insert_eq|done].
    + destruct (step_task 2 _ w) as [| |t' w']; [done|done|]. exists t', w'. split; [|done].
      unfold pair_of. rewrite lookup_insert_ne by done. apply lookup_singleton_eq.
  - intros i u t' w' Hi Hst'. apply pair_lookup in Hi as [[-> ->]|[-> ->]].
    + rewrite Hst' in Hs. destruct Hs as (p' & x' & y' & left' & -> & H' & Hm'). unfold pair_of. rewrite insert_insert_eq.
      apply (IH p' q x' y' acc left' w'); [done|lia].
    + rewrite Hst' in Hr. destruct Hr as (q' & x' & y' & acc' & -> & H' & Hm').
      unfold pair_of. rewrite insert_insert_ne, insert_singleton_eq by done.
      apply (IH p q' x' y' acc' left w'); [done|lia].
Qed.

End Transfer.
End IpcTransfer.
