(* ===== verification/IpcWait.v ===== *)
(** * The waits of IPC sockets (src/src/dev/event.cpp, src/src/sched/ipc.cpp)

    In Ipc.v an event is the count of its signals, and a thread waits as long as it is
    zero.  Here the threads also are in the lists of the events and are blocked: [wait]
    puts the thread into the list and then blocks it, and [signal_one] wakes the first of
    the list, which must not be the current thread of its CPU, as [unblock] asserts.
    Between the two steps of [wait] interrupts are off, so no other thread of that CPU
    runs; a thread of another CPU does. *)

From S2P Require Import Prelude RingBuffer Ipc IpcTransfer.


Module IpcWait.
Import Ipc IpcInv IpcTransfer.

Inductive kind := Pending | Write | Read.
#[global] Instance kind_dec : EqDecision kind.
Proof. solve_decision. Defined.

(** The event of a socket. *)
Definition event : Type := nat * kind.
Definition count (e : event) (w : world) : option Z :=
  x ← socks w !! e.1; Some (match e.2 with Pending => pending_event x | Write => write_event x | Read => read_event x end).

(** The event that a thread at a point waits for. *)
Definition waits_on (t : task) (w : world) : option event :=
  match t with
  | ConnectWait s => Some (s, Pending)
  | Listen s => x ← socks w !! s; if nonblock x then None else Some (s, Pending)
  | SendWait _ u _ _ => Some (u, Read)
  | ReceiveWait s _ _ => Some (s, Write)
  | _ => None
  end.

(** The event that a step to [t'] has signalled. *)
Definition signals (t t' : task) (w w' : world) : option event :=
  match t with
  | SendRound _ u _ _ => y ← socks w !! u; if buf_size y =? 0 then Some (u, Write) else None
  | ReceiveSignal s _ _ => Some (s, Read)
  | AcceptPending _ p _ => Some (p, Pending)
  | Connect _ _ d =>
      match t' with
      | ConnectWait _ => x ← descs w !! d; p ← process x; y ← procs w' !! p; l ← ipc_socket y; Some (l, Pending)
      | _ => None
      end
  | _ => None
  end.

(** In a [wait]: in the list of the event but still running, or blocked. *)
Inductive phase := Pushed (e : event) | Parked (e : event).
Definition is_pushed (p : phase) : Prop := match p with Pushed _ => True | Parked _ => False end.
#[global] Instance is_pushed_dec p : Decision (is_pushed p).
Proof. destruct p; apply _. Defined.

Record sys := mkSys { state : world; tasks : gmap nat task; waiters : event -> list nat; phases : gmap nat phase }.

Definition set_waiters (e : event) (l : list nat) (f : event -> list nat) (e' : event) : list nat := if decide (e' = e) then l else f e'.

(** Another thread of the CPU has its interrupts off in [wait]. *)
Definition busy (cpu : nat -> nat) (i : nat) (ps : gmap nat phase) : Prop := map_Exists (fun j p => j <> i /\ cpu j = cpu i /\ is_pushed p) ps.

(** The list of an event that is signalled: its first thread leaves it and must be blocked. *)
Definition signal_one (e : event) (ws : event -> list nat) (ps : gmap nat phase) : option (event -> list nat) :=
  match ws e with
  | [] => Some ws
  | j :: l => match ps !! j with Some (Parked _) => Some (set_waiters e l ws) | _ => None end
  end.

(** [Panic]: an assertion fails, or an object that is gone is used. *)
Inductive result := Idle | Panic | Go (k : sys).

Definition run_thread (cpu : nat -> nat) (i : nat) (k : sys) : result :=
  match tasks k !! i with
  | None => Idle
  | Some t =>
      if decide (busy cpu i (phases k)) then Idle
      else
        match phases k !! i with
        | Some (Pushed e) => Go (mkSys (state k) (tasks k) (waiters k) (<[i := Parked e]> (phases k)))
        | Some (Parked e) => if decide (i ∈ waiters k e) then Idle else Go (mkSys (state k) (tasks k) (waiters k) (delete i (phases k)))
        | None =>
            match step_task i t (state k) with
            | Crash => Panic
            | Blocked =>
                match waits_on t (state k) with
                | None => Idle
                | Some e => Go (mkSys (state k) (tasks k) (set_waiters e (waiters k e ++ [i]) (waiters k)) (<[i := Pushed e]> (phases k)))
                end
            | Next t' w' =>
                match signals t t' (state k) w' with
                | None => Go (mkSys w' (<[i := t']> (tasks k)) (waiters k) (phases k))
                | Some e => match signal_one e (waiters k) (phases k) with Some ws => Go (mkSys w' (<[i := t']> (tasks k)) ws (phases k)) | None => Panic end
                end
            end
        end
  end.

(** Whatever runs next, [P] is reached, and there is no panic before. *)
Inductive finishes (cpu : nat -> nat) (P : world -> gmap nat task -> Prop) (k : sys) : Prop :=
| finishes_now : P (state k) (tasks k) -> finishes cpu P k
| finishes_step : (forall i, run_thread cpu i k <> Panic) -> (exists i k', run_thread cpu i k = Go k') ->
    (forall i k', run_thread cpu i k = Go k' -> finishes cpu P k') -> finishes cpu P k.

(** No one waits. *)
Definition started (w : world) (ts : gmap nat task) : sys := mkSys w ts (fun _ => []) ∅.

(** ** A transfer on one CPU *)

(** A thread not in a wait, about to block, blocked, and woken. *)
Inductive place := Out | Pushing | Inside | Popped.
#[global] Instance place_dec : EqDecision place.
Proof. solve_decision. Defined.
Definition weight (f : place) : Z := match f with Out => 3 | Pushing => 2 | Inside => 1 | Popped => 4 end.
Definition listed (f : place) (i : nat) : list nat := match f with Pushing | Inside => [i] | _ => [] end.
Definition phase_of (f : place) (e : event) : option phase := match f with Out => None | Pushing => Some (Pushed e) | _ => Some (Parked e) end.

Section OneCpu.
Context (cpu : nat -> nat) (s t : nat) (data : list Z) (K : Z).
Hypothesis Hcpu : cpu 1%nat = cpu 2%nat.
Hypothesis Hst : s <> t.
Hypothesis HK : K < 2 ^ 63.
Hypothesis Hn : Z.of_nat (length data) < 2 ^ 63.

Record WInv (p : sender) (q : receiver) (f1 f2 : place) (y : IpcSocket) (acc left : list Z) (k : sys) : Prop := {
  wi_base : exists x, TInv s t data K p q x y acc left (state k);
  wi_tasks : tasks k = pair_of (sender_task s t data p left) (receiver_task t data q acc);
  wi_p1 : phases k !! 1%nat = phase_of f1 (t, Read);
  wi_p2 : phases k !! 2%nat = phase_of f2 (t, Write);
  wi_others : forall j, j <> 1%nat -> j <> 2%nat -> phases k !! j = None;
  wi_l1 : waiters k (t, Read) = listed f1 1;
  wi_l2 : waiters k (t, Write) = listed f2 2;
  wi_wait1 : f1 <> Out -> p = SWait;
  wi_wait2 : f2 <> Out -> q = RWait;
  wi_zero1 : listed f1 1 <> [] -> read_event y = 0;
  wi_zero2 : listed f2 2 <> [] -> write_event y = 0;
  wi_one : ~ (f1 = Pushing /\ f2 = Pushing)
}.

Definition work (p : sender) (q : receiver) (f1 f2 : place) (y : IpcSocket) (left : list Z) : Z := 8 * measure p q y left + weight f1 + weight f2.

(** A step of the sender changes the count of [write_event] only if it signals it. *)
Lemma sender_events p q x y acc left w t' w' y' : TInv s t data K p q x y acc left w -> step_task 1 (sender_task s t data p left) w = Next t' w' -> socks w' !! t = Some y' ->
  signals (sender_task s t data p left) t' w w' = Some (t, Write) \/ (signals (sender_task s t data p left) t' w w' = None /\ write_event y' = write_event y).
Proof.
  intros [Hs Ht [Hx1 Hx2] (Hy1 & Hy2 & Hy3) Hb Hev Hd Hp Hq Hm] E Hy'. destruct p; cbn [sender_task step_task signals] in *.
  - right. split; [done|]. unfold send in E. rewrite (locking_free s w x) in E by (done || apply Hp). rewrite Hx1 in E. injection E as <- <-. cbn in Hy'. rewrite lookup_insert_ne in Hy' by done. congruence.
  - rewrite Ht. cbn [mbind option_bind]. destruct (Z.eqb_spec (buf_size y) 0) as [E0|E0]; [by left|right]. split; [done|]. unfold send_step in E. rewrite (locking_free t w y) in E by done.
    destruct (send_round left y) as [left' y1] eqn:Er. destruct (send_round_spec left y left' y1 Hb) with (2 := Er) as (a & _ & _ & _ & _ & Hw & _).
    { assert (length left <= length data)%nat by (rewrite Hd, !length_app; lia). unfold fits. lia. }
    rewrite (proj2 (Z.eqb_neq _ _) E0) in Hw. cbn [set_sock socks] in E. rewrite lookup_insert_ne, Hs in E by done. destruct (_ =? 0).
    + injection E as <- <-. cbn in Hy'. rewrite lookup_insert_ne, lookup_insert_eq in Hy' by done. congruence.
    + rewrite Hx2 in E. injection E as <- <-. cbn in Hy'. rewrite lookup_insert_eq in Hy'. congruence.
  - right. split; [done|]. unfold send_wait in E. rewrite Ht in E. destruct (read_event y =? 0); [done|]. injection E as <- <-. cbn in Hy'. rewrite lookup_insert_eq in Hy'. by injection Hy' as <-.
  - done.
Qed.

Lemma receiver_events p q x y acc left w t' w' y' : TInv s t data K p q x y acc left w -> step_task 2 (receiver_task t data q acc) w = Next t' w' -> socks w' !! t = Some y' ->
  signals (receiver_task t data q acc) t' w w' = Some (t, Read) \/ (signals (receiver_task t data q acc) t' w w' = None /\ read_event y' = read_event y).
Proof.
  intros [Hs Ht [Hx1 Hx2] (Hy1 & Hy2 & Hy3) Hb Hev Hd Hp Hq Hm] E Hy'. destruct q; cbn [receiver_task step_task signals] in *.
  - right. split; [done|]. unfold receive in E. destruct (negb _); [injection E as <- <-; congruence|]. rewrite (locking_free t w y) in E by done. repeat case_match; injection E as <- <-; congruence.
  - right. split; [done|]. unfold receive_copy in E. rewrite (locking_free t w y) in E by done. destruct (copy_out _ y) as [bytes y1] eqn:Ec.
    unfold copy_out in Ec. injection Ec as _ <-. injection E as <- <-. cbn in Hy'. rewrite lookup_insert_eq in Hy'. by injection Hy' as <-.
  - by left.
  - right. split; [done|]. unfold receive_wait in E. rewrite Ht in E. destruct (write_event y =? 0); [done|]. injection E as <- <-. cbn in Hy'. rewrite lookup_insert_eq in Hy'. by injection Hy' as <-.
  - done.
Qed.

(** Who may run. *)
Lemma not_busy p q f1 f2 y acc left k i : WInv p q f1 f2 y acc left k -> (i = 1%nat /\ f2 <> Pushing \/ i = 2%nat /\ f1 <> Pushing) -> ~ busy cpu i (phases k).
Proof.
  intros H Hi (j & ph & Hj & Hne & Hc & Hp). destruct (decide (j = 1%nat)) as [->|N1]; [|destruct (decide (j = 2%nat)) as [->|N2]].
  - rewrite (wi_p1 _ _ _ _ _ _ _ _ H) in Hj. destruct Hi as [[-> _]|[-> Hf]]; [done|]. destruct f1; cbn in Hj; [done|..]; injection Hj as <-; done.
  - rewrite (wi_p2 _ _ _ _ _ _ _ _ H) in Hj. destruct Hi as [[-> Hf]|[-> _]]; [|done]. destruct f2; cbn in Hj; [done|..]; injection Hj as <-; done.
  - by rewrite (wi_others _ _ _ _ _ _ _ _ H j N1 N2) in Hj.
Qed.
Lemma is_busy p q f1 f2 y acc left k i : WInv p q f1 f2 y acc left k -> (i = 1%nat /\ f2 = Pushing \/ i = 2%nat /\ f1 = Pushing) -> busy cpu i (phases k).
Proof.
  intros H [[-> ->]|[-> ->]].
  - exists 2%nat, (Pushed (t, Write)). split; [exact (wi_p2 _ _ _ _ _ _ _ _ H)|]. split_and!; [done|congruence|done].
  - exists 1%nat, (Pushed (t, Read)). split; [exact (wi_p1 _ _ _ _ _ _ _ _ H)|]. split_and!; [done|congruence|done].
Qed.

(** What a step leads to. *)
Definition goes (p : sender) (q : receiver) (f1 f2 : place) (y : IpcSocket) (left : list Z) (r : result) : Prop :=
  match r with
  | Panic => False
  | Idle => True
  | Go k' => exists p' q' f1' f2' y' acc' left', WInv p' q' f1' f2' y' acc' left' k' /\ work p' q' f1' f2' y' left' < work p q f1 f2 y left
  end.

Lemma set_waiters_eq e l f : set_waiters e l f e = l.
Proof. unfold set_waiters. by rewrite decide_True. Qed.
Lemma set_waiters_ne e l f e' : e' <> e -> set_waiters e l f e' = f e'.
Proof. intros H. unfold set_waiters. by rewrite decide_False. Qed.

Ltac base H := destruct H as [[x Hbase] Htasks Hp1 Hp2 Hoth Hl1 Hl2 Hw1 Hw2 Hz1 Hz2 Hone].

Lemma sender_goes p q f1 f2 y acc left k : WInv p q f1 f2 y acc left k -> f2 <> Pushing -> goes p q f1 f2 y left (run_thread cpu 1 k).
Proof.
  intros H Hf2. pose proof (not_busy _ _ _ _ _ _ _ _ 1%nat H ltac:(by left)) as Hnb. pose proof H as HW. base H. unfold run_thread. rewrite Htasks. unfold pair_of at 1. rewrite lookup_insert_eq. rewrite decide_False by done. rewrite Hp1.
  destruct f1; cbn [phase_of].
  - pose proof (sender_sends s t data K Hst HK Hn _ _ _ _ _ _ _ Hbase) as Hs. destruct (step_task 1 (sender_task s t data p left) (state k)) as [| |t' w'] eqn:E; [| destruct Hs|].
    + destruct Hs as [->|[-> Hr]]; [done|]. cbn [sender_task waits_on goes]. exists SWait, q, Pushing, f2, y, acc, left. split; [|unfold work; cbn [weight]; lia].
      split; cbn [state tasks waiters phases]; try done; try (by eauto).
      * apply lookup_insert_eq.
      * by rewrite lookup_insert_ne.
      * intros j N1 N2. rewrite lookup_insert_ne by done. by apply Hoth.
      * rewrite set_waiters_eq, Hl1. done.
      * by rewrite set_waiters_ne.
      * intros [_ ?]. done.
    + destruct Hs as (p' & x' & y' & left' & -> & Hb' & Hm). pose proof (ti_t _ _ _ _ _ _ _ _ _ _ _ Hb') as Hy'. pose proof (sender_events _ _ _ _ _ _ _ _ _ _ Hbase E Hy') as Hev.
      assert (Hgo : forall wt f2', waiters k (t, Read) = wt (t, Read) -> wt (t, Write) = listed f2' 2 -> phase_of f2' (t, Write) = phase_of f2 (t, Write) -> (f2' <> Out -> f2 <> Out) -> f2' <> Pushing ->
        (listed f2' 2 <> [] -> write_event y' = 0) -> weight f2' <= weight f2 + 3 ->
        goes p q Out f2 y left (Go (mkSys w' (<[1%nat := sender_task s t data p' left']> (pair_of (sender_task s t data p left) (receiver_task t data q acc))) wt (phases k)))).
      { intros wt f2' W1 W2 W3 W4 W5 W6 W7. exists p', q, Out, f2', y', acc, left'. split; [|unfold work; cbn [weight]; lia]. split; cbn [state tasks waiters phases]; try done.
        - eauto.
        - by rewrite Hp2.
        - by rewrite <- W1.
        - intros Hne. apply Hw2. by apply W4.
        - intros [? _]. done. }
      destruct Hev as [->|[-> Hwe]].
      * unfold signal_one. rewrite Hl2. destruct f2; cbn [listed]; [by apply (Hgo _ Out)|done| |by apply (Hgo _ Popped)].
        rewrite Hp2. cbn [phase_of]. apply (Hgo _ Popped); try done; first [by rewrite set_waiters_eq|by rewrite set_waiters_ne|cbn; lia].
      * apply (Hgo _ f2); try done; [|lia]. intros Hne. rewrite Hwe. by apply Hz2.
  - exists p, q, Inside, f2, y, acc, left. split; [|unfold work; cbn [weight]; lia]. split; cbn [state tasks waiters phases]; try done; [by eauto|apply lookup_insert_eq|by rewrite lookup_insert_ne| |by intros _; apply Hw1|by intros [? _]].
    intros j N1 N2. rewrite lookup_insert_ne by done. by apply Hoth.
  - rewrite Hl1. cbn [listed]. rewrite decide_True by set_solver. done.
  - rewrite Hl1. cbn [listed]. rewrite decide_False by set_solver. exists p, q, Out, f2, y, acc, left. split; [|unfold work; cbn [weight]; lia].
    split; cbn [state tasks waiters phases]; try done; [by eauto|apply lookup_delete_eq|by rewrite lookup_delete_ne| |by intros [? _]]. intros j N1 N2. rewrite lookup_delete_ne by done. by apply Hoth.
Qed.

Lemma receiver_goes p q f1 f2 y acc left k : WInv p q f1 f2 y acc left k -> f1 <> Pushing -> goes p q f1 f2 y left (run_thread cpu 2 k).
Proof.
  intros H Hf1. pose proof (not_busy _ _ _ _ _ _ _ _ 2%nat H ltac:(by right)) as Hnb. pose proof H as HW. base H. unfold run_thread. rewrite Htasks. unfold pair_of at 1. rewrite lookup_insert_ne, lookup_singleton_eq by done. rewrite decide_False by done. rewrite Hp2.
  destruct f2; cbn [phase_of].
  - pose proof (receiver_receives s t data K Hst HK Hn _ _ _ _ _ _ _ Hbase) as Hs. destruct (step_task 2 (receiver_task t data q acc) (state k)) as [| |t' w'] eqn:E; [| destruct Hs|].
    + destruct Hs as [->|[-> Hr]]; [done|]. cbn [receiver_task waits_on goes]. exists p, RWait, f1, Pushing, y, acc, left. split; [|unfold work; cbn [weight]; lia].
      split; cbn [state tasks waiters phases]; try done; try (by eauto).
      * by rewrite lookup_insert_ne.
      * apply lookup_insert_eq.
      * intros j N1 N2. rewrite lookup_insert_ne by done. by apply Hoth.
      * by rewrite set_waiters_ne.
      * rewrite set_waiters_eq, Hl2. done.
      * intros [? _]. done.
    + destruct Hs as (q' & x' & y' & acc' & -> & Hb' & Hm). pose proof (ti_t _ _ _ _ _ _ _ _ _ _ _ Hb') as Hy'. pose proof (receiver_events _ _ _ _ _ _ _ _ _ _ Hbase E Hy') as Hev.
      assert (Hgo : forall wt f1', waiters k (t, Write) = wt (t, Write) -> wt (t, Read) = listed f1' 1 -> phase_of f1' (t, Read) = phase_of f1 (t, Read) -> (f1' <> Out -> f1 <> Out) -> f1' <> Pushing ->
        (listed f1' 1 <> [] -> read_event y' = 0) -> weight f1' <= weight f1 + 3 ->
        goes p q f1 Out y left (Go (mkSys w' (<[2%nat := receiver_task t data q' acc']> (pair_of (sender_task s t data p left) (receiver_task t data q acc))) wt (phases k)))).
      { intros wt f1' W1 W2 W3 W4 W5 W6 W7. exists p, q', f1', Out, y', acc', left. split; [|unfold work; cbn [weight]; lia]. split; cbn [state tasks waiters phases]; try done.
        - eauto.
        - by rewrite Hp1.
        - by rewrite <- W1.
        - intros Hne. apply Hw1. by apply W4.
        - intros [? _]. done. }
      destruct Hev as [->|[-> Hwe]].
      * unfold signal_one. rewrite Hl1. destruct f1; cbn [listed]; [by apply (Hgo _ Out)|done| |by apply (Hgo _ Popped)].
        rewrite Hp1. cbn [phase_of]. apply (Hgo _ Popped); try done; first [by rewrite set_waiters_eq|by rewrite set_waiters_ne|cbn; lia].
      * apply (Hgo _ f1); try done; [|lia]. intros Hne. rewrite Hwe. by apply Hz1.
  - exists p, q, f1, Inside, y, acc, left. split; [|unfold work; cbn [weight]; lia]. split; cbn [state tasks waiters phases]; try done; [by eauto|by rewrite lookup_insert_ne|apply lookup_insert_eq| |by intros _; apply Hw2|by intros [_ ?]].
    intros j N1 N2. rewrite lookup_insert_ne by done. by apply Hoth.
  - rewrite Hl2. cbn [listed]. rewrite decide_True by set_solver. done.
  - rewrite Hl2. cbn [listed]. rewrite decide_False by set_solver. exists p, q, f1, Out, y, acc, left. split; [|unfold work; cbn [weight]; lia].
    split; cbn [state tasks waiters phases]; try done; [by eauto|by rewrite lookup_delete_ne|apply lookup_delete_eq| |by intros [_ ?]]. intros j N1 N2. rewrite lookup_delete_ne by done. by apply Hoth.
Qed.

Lemma thread_goes p q f1 f2 y acc left k i : WInv p q f1 f2 y acc left k -> goes p q f1 f2 y left (run_thread cpu i k).
Proof.
  intros H. destruct (decide (i = 1%nat)) as [->|N1]; [|destruct (decide (i = 2%nat)) as [->|N2]].
  - destruct (decide (f2 = Pushing)) as [E|E]; [|by eapply sender_goes].
    unfold run_thread. destruct (tasks k !! 1%nat); [|done]. rewrite decide_True; [done|]. eapply is_busy; [exact H|by left].
  - destruct (decide (f1 = Pushing)) as [E|E]; [|by eapply receiver_goes].
    unfold run_thread. destruct (tasks k !! 2%nat); [|done]. rewrite decide_True; [done|]. eapply is_busy; [exact H|by right].
  - unfold run_thread. rewrite (wi_tasks _ _ _ _ _ _ _ _ H). unfold pair_of. by rewrite lookup_insert_ne, lookup_singleton_ne by done.
Qed.

(** Someone can run, or the transfer is over. *)
Lemma someone_goes p q f1 f2 y acc left k : WInv p q f1 f2 y acc left k -> delivered s t data (state k) (tasks k) \/ run_thread cpu 1 k <> Idle \/ run_thread cpu 2 k <> Idle.
Proof.
  intros H. pose proof (not_busy _ _ _ _ _ _ _ _ 1%nat H) as B1. pose proof (not_busy _ _ _ _ _ _ _ _ 2%nat H) as B2. pose proof H as HW. base H.
  assert (R1 : f2 <> Pushing -> (f1 = Pushing \/ f1 = Popped \/ f1 = Out /\ (step_task 1 (sender_task s t data p left) (state k) <> Blocked \/ p = SWait)) -> run_thread cpu 1 k <> Idle).
  { intros Hf Hc. unfold run_thread. rewrite Htasks. unfold pair_of at 1. rewrite lookup_insert_eq. rewrite decide_False by (apply B1; by left). rewrite Hp1.
    destruct Hc as [->|[->|[-> Hc]]]; cbn [phase_of]; [done|rewrite Hl1; cbn [listed]; by rewrite decide_False by set_solver|].
    destruct (step_task 1 _ (state k)); [destruct Hc as [? | ->]; done|done|]. repeat case_match; done. }
  assert (R2 : f1 <> Pushing -> (f2 = Pushing \/ f2 = Popped \/ f2 = Out /\ (step_task 2 (receiver_task t data q acc) (state k) <> Blocked \/ q = RWait)) -> run_thread cpu 2 k <> Idle).
  { intros Hf Hc. unfold run_thread. rewrite Htasks. unfold pair_of at 1. rewrite lookup_insert_ne, lookup_singleton_eq by done. rewrite decide_False by (apply B2; by right). rewrite Hp2.
    destruct Hc as [->|[->|[-> Hc]]]; cbn [phase_of]; [done|rewrite Hl2; cbn [listed]; by rewrite decide_False by set_solver|].
    destruct (step_task 2 _ (state k)); [destruct Hc as [? | ->]; done|done|]. repeat case_match; done. }
  destruct (decide (f2 = Pushing)) as [E2|E2]; [right; right; apply R2; [intros E1; by apply Hone|by left]|]. destruct (decide (f1 = Pushing)) as [E1|E1]; [right; left; apply R1; [done|by left]|].
  destruct (delivered_or_step s t data K Hst HK Hn _ _ _ _ _ _ _ Hbase) as [Hd|[Hs|Hs]]; [left; by rewrite Htasks|right; left; apply R1; [done|]|right; right; apply R2; [done|]].
  - destruct f1; [right; right; auto|done| |auto]. destruct Hs. pose proof (Hw1 ltac:(done)) as ->. cbn [sender_task step_task]. unfold send_wait. rewrite (ti_t _ _ _ _ _ _ _ _ _ _ _ Hbase), (Hz1 ltac:(done)). done.
  - destruct f2; [right; right; auto|done| |auto]. destruct Hs. pose proof (Hw2 ltac:(done)) as ->. cbn [receiver_task step_task]. unfold receive_wait. rewrite (ti_t _ _ _ _ _ _ _ _ _ _ _ Hbase), (Hz2 ltac:(done)). done.
Qed.

Lemma work_pos p q f1 f2 y acc left k : WInv p q f1 f2 y acc left k -> 0 <= work p q f1 f2 y left.
Proof.
  intros H. destruct (wi_base _ _ _ _ _ _ _ _ H) as [x Hb]. assert (0 <= sender_weight p /\ 0 <= receiver_weight q) by (split; [destruct p|destruct q]; cbn; lia). destruct (ti_ev _ _ _ _ _ _ _ _ _ _ _ Hb). unfold work, measure. assert (0 <= weight f1 /\ 0 <= weight f2) by (split; [destruct f1|destruct f2]; cbn; lia). lia.
Qed.

Lemma transfer_finishes m : forall p q f1 f2 y acc left k, WInv p q f1 f2 y acc left k -> work p q f1 f2 y left < Z.of_nat m -> finishes cpu (delivered s t data) k.
Proof.
  induction m as [|m IH]; intros p q f1 f2 y acc left k H Hm; [pose proof (work_pos _ _ _ _ _ _ _ _ H); lia|].
  assert (Hgo : forall i, goes p q f1 f2 y left (run_thread cpu i k)) by (intros i; by eapply thread_goes).
  destruct (someone_goes _ _ _ _ _ _ _ _ H) as [Hd|Hs]; [by apply finishes_now|]. apply finishes_step.
  - intros i E. specialize (Hgo i). by rewrite E in Hgo.
  - destruct Hs as [Hs|Hs]; [exists 1%nat|exists 2%nat]; [specialize (Hgo 1%nat)|specialize (Hgo 2%nat)]; destruct (run_thread cpu _ k) as [| |k']; try done; by exists k'.
  - intros i k' E. specialize (Hgo i). rewrite E in Hgo. destruct Hgo as (p' & q' & f1' & f2' & y' & acc' & left' & H' & Hlt). eapply IH; [exact H'|lia].
Qed.

End OneCpu.
End IpcWait.
