(* ===== verification/IpcCorrect.v ===== *)
(** * What IPC sockets promise *)

From S2P Require Import Prelude RingBuffer Ipc IpcTransfer IpcWait.

Module IpcCorrect.
Import Ipc IpcInv IpcTransfer IpcWait.

Lemma run_next fuel i t w t' w' : step_task i t w = Next t' w' -> run (S fuel) i t w = run fuel i t' w'.
Proof. intros H. cbn. by rewrite H. Qed.
Lemma run_blocked fuel i t w : step_task i t w = Blocked -> run (S fuel) i t w = Stopped t w.
Proof. intros H. cbn. by rewrite H. Qed.
Lemma run_crash fuel i t w : step_task i t w = Crash -> run (S fuel) i t w = Crashed.
Proof. intros H. cbn. by rewrite H. Qed.

Lemma locking_held u w z k j : socks w !! u = Some z -> lock z = Some j -> locking u w k = Blocked.
Proof. unfold locking. by intros -> ->. Qed.

(** ** Order *)

(** C31: C: in any interleaving of any operations on any sockets, with processes and
    sockets created and gone at any time, what has been received from a socket is a
    prefix of what has been sent to it; the rest, at most 512 bytes, is in its
    buffer. *)
Theorem ipc_fifo w ts ins outs s x : exec w ts ins outs -> socks w !! s = Some x ->
  ins s = outs s ++ queue x /\ Z.of_nat (length (queue x)) = buf_size x /\ buf_size x <= 512.
Proof.
  intros He Hx. destruct (fi_socks _ _ _ _ (ipc_exec_inv _ _ _ _ He) s x Hx) as [Hb Hq].
  pose proof (queue_length x Hb). pose proof (queue_size x Hb). split_and!; [done|done|lia].
Qed.

(** ** Transfers *)

(** C30: C: two threads of one CPU, one in a blocking [send] of 1 to 2^32 - 1 bytes to a
    peer whose buffer is empty, one in a [receive] of that size there: in every order of
    their steps, with the steps of [Event::wait] and [Event::signal_one], no assertion
    fails, both return with the bytes that were sent, and the locks are free again.  On two
    CPUs the assertion of [Scheduler::unblock] can fail ([two_cpus_panic]). *)
Theorem blocking_transfer cpu w s t x y data : cpu 1%nat = cpu 2%nat ->
  s <> t -> socks w !! s = Some x -> socks w !! t = Some y ->
  target x = Some t -> target y = Some s -> nonblock x = false -> nonblock y = false -> lock x = None -> lock y = None ->
  buf_ok y -> queue y = [] -> 0 <= read_event y < 2 ^ 32 -> 0 <= write_event y < 2 ^ 32 ->
  data <> [] -> Z.of_nat (length data) < 2 ^ 32 ->
  finishes cpu (delivered s t data) (started w (pair_of (Send s data) (Receive t [] (Z.of_nat (length data))))).
Proof.
  intros Hcpu Hst Hs Ht Hx1 Hy1 Hx2 Hy2 Hx3 Hy3 Hb Hq Hr Hw Hne Hlen.
  set (K := measure SStart RRecv y data).
  assert (HK : 0 <= K < 2 ^ 63) by (subst K; unfold measure; rewrite Hq; cbn; lia).
  apply (transfer_finishes cpu s t data K Hcpu Hst ltac:(lia) ltac:(lia) (Z.to_nat (8 * K + 6) + 1) SStart RRecv Out Out y [] data).
  - split; cbn; try done; [|by intros [? _]]. exists x. split; cbn; try done; [lia|by rewrite Hq].
  - unfold work. fold K. cbn. lia.
Qed.

(** ** Connections *)

(** What a client needs to connect to the socket [l] of the process of [d]. *)
Record connectable (w : world) (s l d p : nat) (x z : IpcSocket) (ps : Process) : Prop := {
  cn_ne : s <> l;
  cn_s : socks w !! s = Some x;
  cn_l : socks w !! l = Some z;
  cn_free : lock x = None /\ lock z = None;
  cn_alone : target x = None;
  cn_d : process <$> descs w !! d = Some (Some p);
  cn_p : procs w !! p = Some ps;
  cn_ps : ipc_socket ps = Some l
}.

(** The world when it waits. *)
Definition waiting (w : world) (s l p : nat) (x z : IpcSocket) (ps : Process) : world :=
  set_sock l (with_pending_event (u64 (pending_event z + 1)) (with_pending (Some s) z))
    (set_proc p (mkProc (Some l) (descriptors ps ++ [next w]))
      (set_sock s (with_target None (Some (next w)) x) (snd (new_descriptor (Some p) 0 w)))).

Lemma connect_waits w s l d p x z ps i : connectable w s l d p x z ps -> pending_event x = 0 ->
  run 3 i (call_connect s true d) w = Stopped (ConnectWait s) (waiting w s l p x z ps).
Proof.
  intros [Hsl Hs Hl [Hlx Hlz] Htx Hd Hps Hil] Hpx. destruct (descs w !! d) as [e|] eqn:Ed; [|done]. cbn in Hd. injection Hd as Hp.
  rewrite (run_next _ _ _ _ (Connect s true d) w).
  2:{ cbn. unfold disconnect. rewrite (locking_free s w x) by done. by rewrite Htx. }
  rewrite (run_next _ _ _ _ (ConnectWait s) (waiting w s l p x z ps)).
  2:{ cbn [step_task]. unfold connect. cbn [negb]. rewrite Ed. cbn. rewrite Hp, Hs. cbn. unfold add_descriptor. cbn. rewrite Hps. cbn.
    unfold get_ipc_socket. cbn. rewrite lookup_insert_eq. cbn. rewrite Hil. cbn.
    unfold locking. cbn. rewrite lookup_insert_ne by done. rewrite Hl, Hlz. unfold waiting. cbn. by rewrite Htx. }
  apply run_blocked. cbn. unfold pending_wait, waiting. cbn. rewrite lookup_insert_ne, lookup_insert_eq by done. cbn. by rewrite Hpx.
Qed.

(** The world after the socket [c] has been made for a connection. *)
Definition accepted (i : nat) (w : world) (s l : nat) (x z : IpcSocket) (n : Z) (nb : bool) : world :=
  let c := next w in
  let z := with_lock (Some i) z in
  set_sock l (with_lock None (with_pending None z)) (set_sock s (with_pending_event (u64 (pending_event x + 1)) (with_target (Some c) (target_address x) x))
    (mkWorld (<[c := with_target (Some s) (Some (owner_desc x)) (new_socket (owner_desc z) nb)]> (<[l := z]> (socks w)))
       (descs w) (procs w) (<[owner_desc z := u64 (n + 1)]> (refs w)) (S c))).

Lemma accept_accepts w s l x z n nb i : s <> l -> socks w !! s = Some x -> socks w !! l = Some z -> lock x = None -> lock z = None ->
  pending z = Some s -> refs w !! owner_desc z = Some n ->
  run 3 i (Accept l nb) w = Stopped (Done 0 [] 0 (Some (next w))) (accepted i w s l x z n nb).
Proof.
  intros Hsl Hs Hl Hlx Hlz Hp Hn. set (z1 := with_lock (Some i) z). set (w1 := set_sock l z1 w).
  rewrite (run_next _ _ _ _ (AcceptPending l s nb) w1).
  2:{ cbn. unfold accept. rewrite (locking_free l w z) by done. by rewrite Hp. }
  rewrite (run_next _ _ _ _ (Done 0 [] 0 (Some (next w))) (accepted i w s l x z n nb)); [by apply run_blocked|].
  cbn [step_task]. unfold accept_pending. rewrite (locking_free s w1 x); [|cbn; by rewrite lookup_insert_ne|done].
  replace (socks w1 !! l) with (Some z1) by (symmetry; apply lookup_insert_eq). cbn [mbind option_bind].
  replace (refs w1 !! owner_desc z1) with (Some n) by done. done.
Qed.

(** C: a client that connects to a process waits until the process accepts; then
    both sockets have each other as target, and the addresses are a new descriptor of
    the process and the descriptor of the client. *)
Theorem connect_accept w s l x z p d ps n nb : connectable w s l d p x z ps -> (s < next w)%nat -> (l < next w)%nat -> pending_event x = 0 ->
  refs w !! owner_desc z = Some n ->
  exists w1 w2 w3 c,
    run 3 1 (call_connect s true d) w = Stopped (ConnectWait s) w1 /\
    run 3 2 (Accept l nb) w1 = Stopped (Done 0 [] 0 (Some c)) w2 /\
    run 2 1 (ConnectWait s) w2 = Stopped (done 0) w3 /\
    (exists x', socks w3 !! s = Some x' /\ target x' = Some c /\ target_address x' = Some (next w) /\ lock x' = None) /\
    (exists y, socks w3 !! c = Some y /\ target y = Some s /\ target_address y = Some (owner_desc x) /\ lock y = None /\
       nonblock y = nb /\ buf_ok y /\ queue y = []) /\
    (exists z', socks w3 !! l = Some z' /\ pending z' = None /\ lock z' = None) /\
    descs w3 !! next w = Some (mkDesc (Some p) 0).
Proof.
  intros Hc Hns Hnl Hpx Hrf. pose proof Hc as [Hsl Hs Hl [Hlx Hlz] Htx _ _ _].
  set (w1 := waiting w s l p x z ps). set (x1 := with_target None (Some (next w)) x).
  set (z1 := with_pending_event (u64 (pending_event z + 1)) (with_pending (Some s) z)).
  assert (Hs1 : socks w1 !! s = Some x1) by (cbn; by rewrite lookup_insert_ne, lookup_insert_eq by done).
  assert (Hl1 : socks w1 !! l = Some z1) by apply lookup_insert_eq.
  set (w2 := accepted 2 w1 s l x1 z1 n nb). set (x2 := with_pending_event 1 (with_target (Some (S (next w))) (Some (next w)) x1)).
  assert (Hx2 : socks w2 !! s = Some x2).
  { cbn. rewrite lookup_insert_ne, lookup_insert_eq by done. f_equal. subst x2. f_equal. by rewrite Hpx. }
  exists w1, w2, (set_sock s (with_pending_event 0 x2) w2), (S (next w)). split_and!.
  - by apply (connect_waits _ _ _ d).
  - by apply accept_accepts.
  - rewrite (run_next _ _ _ _ (done 0) (set_sock s (with_pending_event 0 x2) w2)); [by apply run_blocked|].
    cbn [step_task]. unfold pending_wait. rewrite Hx2. done.
  - eexists. split; [apply lookup_insert_eq|]. done.
  - eexists. split; [cbn; rewrite !lookup_insert_ne by lia; apply lookup_insert_eq|]. cbn.
    split_and!; try done; apply (new_socket_ok 0 false).
  - eexists. split; [cbn; rewrite lookup_insert_ne by done; apply lookup_insert_eq|]. done.
  - cbn. apply lookup_insert_eq.
Qed.

(** ** Failures *)

(** C: two sides that send more than fits at the same time stop each other: the
    first waits with the lock of its socket, for which the second spins with the lock
    of its own, and nothing can be received from either. *)
Theorem both_send_deadlock w s t x y data1 data2 : s <> t -> socks w !! s = Some x -> socks w !! t = Some y ->
  target x = Some t -> target y = Some s -> nonblock x = false -> lock x = None -> lock y = None ->
  buf_ok y -> read_event y = 0 -> 512 < Z.of_nat (length data1) < 2 ^ 64 ->
  exists w1 w2 left, let n := Z.of_nat (length data1) in let m := Z.of_nat (length data2) in
    run 3 1 (Send s data1) w = Stopped (SendWait s t left n) w1 /\
    run 2 2 (Send t data2) w1 = Stopped (SendRound t s data2 m) w2 /\
    step_task 1 (SendWait s t left n) w2 = Blocked /\
    forall i size, 0 < size -> step_task i (Receive s [] size) w2 = Blocked /\ step_task i (Receive t [] size) w2 = Blocked.
Proof.
  intros Hst Hs Ht Hx Hy Hnb Hlx Hly Hb Hr Hlen.
  destruct (send_round data1 y) as [left y'] eqn:E.
  destruct (send_round_spec data1 y left y' Hb ltac:(unfold fits; lia) E) as (a & Ha & Hq' & Hb' & Hr' & _ & Hend).
  apply rest_inv in Hr' as (_ & Hr2 & _ & _ & _ & _ & Hr7 & Hr8).
  assert (Hleft : left <> []).
  { intros ->. pose proof (queue_length y' Hb') as Hl. pose proof (queue_size y' Hb'). rewrite Hq', length_app in Hl.
    rewrite Ha, app_nil_r in Hlen. lia. }
  set (w0 := set_sock s (with_lock (Some 1%nat) x) w). set (w1 := set_sock t y' w0).
  assert (Hs1 : socks w1 !! s = Some (with_lock (Some 1%nat) x)) by (cbn; rewrite lookup_insert_ne by done; apply lookup_insert_eq).
  assert (Ht1 : socks w1 !! t = Some y') by apply lookup_insert_eq.
  set (w2 := set_sock t (with_lock (Some 2%nat) y') w1).
  assert (Hs2 : socks w2 !! s = Some (with_lock (Some 1%nat) x)) by (cbn; rewrite lookup_insert_ne by done; exact Hs1).
  assert (Ht2 : socks w2 !! t = Some (with_lock (Some 2%nat) y')) by apply lookup_insert_eq.
  exists w1, w2, left. split_and!.
  - rewrite (run_next _ _ _ _ (SendRound s t data1 (Z.of_nat (length data1))) w0).
    2:{ cbn. unfold send. rewrite (locking_free s w x) by done. by rewrite Hx. }
    rewrite (run_next _ _ _ _ (SendWait s t left (Z.of_nat (length data1))) w1).
    + apply run_blocked. cbn. unfold send_wait. rewrite Ht1, Hr7, Hr. done.
    + cbn [step_task]. unfold send_step. rewrite (locking_free t w0 y); [|cbn; by rewrite lookup_insert_ne|done].
      rewrite E. fold w1. rewrite Hs1. cbn. rewrite Hnb. destruct left; [done|]. done.
  - rewrite (run_next _ _ _ _ (SendRound t s data2 (Z.of_nat (length data2))) w2).
    + apply run_blocked. cbn. unfold send_step. by rewrite (locking_held s w2 _ _ 1 Hs2).
    + cbn. unfold send. rewrite (locking_free t w1 y') by (done || congruence). by rewrite Hr2, Hy.
  - cbn. unfold send_wait. rewrite Ht2. cbn. by rewrite Hr7, Hr.
  - intros i size Hsz. cbn [step_task]. unfold receive. change (Z.of_nat (length (@nil Z))) with 0.
    assert (0 <? size = true) as -> by lia. cbn [negb].
    by rewrite (locking_held s w2 _ _ 1 Hs2), (locking_held t w2 _ _ 2 Ht2).
Qed.

(** Receives one after the other, each until it stops. *)
Fixpoint receive_all (fuel : nat) (t : nat) (sizes : list Z) (w : world) : option world :=
  match sizes with
  | [] => Some w
  | size :: sizes =>
      match run fuel 2 (call_receive t size) w with Stopped _ w => receive_all fuel t sizes w | _ => None end
  end.

Definition receiving (t : nat) (u : task) : Prop :=
  match u with Receive t' _ _ | ReceiveCopy t' _ _ => t' = t | Done _ _ _ _ => True | _ => False end.
Definition quiet (t : nat) (w : world) : Prop := exists y, socks w !! t = Some y /\ nonblock y = true /\ read_event y = 0.

Lemma quiet_step t u w u' w' : receiving t u -> quiet t w -> step_task 2 u w = Next u' w' -> receiving t u' /\ quiet t w'.
Proof.
  intros Hu (y & Hy & Hnb & Hr) H. destruct u; try done; cbn in Hu; subst; cbn [step_task] in H.
  - unfold receive in H. destruct (negb _); inv_step H; [by split; [|exists y]|]. assert (x = y) as -> by congruence. rewrite Hnb in H.
    repeat case_match; inv_step H; try (by split; [|exists y]). all: rewrite andb_true_r in *; congruence.
  - unfold receive_copy in H. inv_step H. assert (x = y) as -> by congruence. destruct (copy_out _ y) as [b x'] eqn:E. inv_step H.
    split; [done|]. unfold copy_out in E. injection E as _ <-. eexists. split; [apply lookup_insert_eq|]. done.
Qed.

Lemma quiet_run t fuel : forall u w u' w', receiving t u -> quiet t w -> run fuel 2 u w = Stopped u' w' -> quiet t w'.
Proof.
  induction fuel as [|fuel IH]; intros u w u' w' Hu Hq H; [done|]. cbn in H. destruct (step_task 2 u w) as [| |u1 w1] eqn:E; [|done|].
  - by simplify_eq.
  - destruct (quiet_step t u w u1 w1 Hu Hq E) as [Hu1 Hq1]. by apply (IH u1 w1 u' w').
Qed.

(** C: a sender that waits for room is never woken by a receiver that does not
    block, however often and however much it receives. *)
Theorem nonblocking_receiver_strands_sender fuel sizes w w' s t y left n : socks w !! t = Some y -> nonblock y = true -> read_event y = 0 ->
  receive_all fuel t sizes w = Some w' -> step_task 1 (SendWait s t left n) w' = Blocked.
Proof.
  intros Hy Hnb Hr H. assert (Hq : quiet t w) by by exists y. clear Hy Hnb Hr. revert w Hq H.
  induction sizes as [|size sizes IH]; intros w Hq H; cbn [receive_all] in H.
  - simplify_eq. destruct Hq as (z & Hz & _ & Hrz). cbn. unfold send_wait. by rewrite Hz, Hrz.
  - destruct (run _ _ _ w) as [u w1| |] eqn:E; try done. apply (IH w1); [|done]. by apply (quiet_run t fuel _ w u w1) in E.
Qed.

(** [disconnect] of a socket whose peer is not locked. *)
Definition severed (w : world) (c s d p : nat) (xc xs : IpcSocket) (ps : Process) : world :=
  let w := set_sock s (with_target None None xs) (set_sock c (with_lock (Some 1%nat) xc) w) in
  set_sock c (with_lock None (with_target None None xc))
    (mkWorld (socks w) (delete d (descs w)) (<[p := mkProc (ipc_socket ps) (filter (fun e => e <> d) (descriptors ps))]> (procs w)) (refs w) (next w)).

Lemma disconnect_severs w c s d p xc xs ps k : c <> s -> socks w !! c = Some xc -> socks w !! s = Some xs ->
  lock xc = None -> lock xs = None -> target xc = Some s -> target xs = Some c -> target_address xc = Some d ->
  process <$> descs w !! d = Some (Some p) -> procs w !! p = Some ps ->
  run 3 1 (Disconnect c k) w = run 1 1 (continue c k) (severed w c s d p xc xs ps).
Proof.
  intros Hcs Hc Hs Hlc Hls Htc Hts Hac Hd Hps. destruct (descs w !! d) as [e|] eqn:Ed; [|done]. cbn in Hd. injection Hd as Hp.
  set (w1 := set_sock c (with_lock (Some 1%nat) xc) w).
  rewrite (run_next _ _ _ _ (DisconnectTarget c s k) w1).
  2:{ cbn. unfold disconnect. rewrite (locking_free c w xc) by done. by rewrite Htc. }
  apply run_next. cbn [step_task]. unfold disconnect_target. rewrite (locking_free s w1 xs); [|cbn; by rewrite lookup_insert_ne|done].
  rewrite decide_True by done. cbn [set_sock socks]. rewrite lookup_insert_ne by done. unfold w1. cbn [set_sock socks]. rewrite lookup_insert_eq.
  cbn [mbind option_bind with_lock target_address]. rewrite Hac. unfold delete_descriptor. cbn [descs set_sock]. rewrite Ed. cbn [mbind option_bind].
  rewrite Hp. unfold remove_descriptor. cbn [procs set_sock]. rewrite Hps. cbn. done.
Qed.

(** C: when a process closes a connection that it has accepted, the descriptor that
    the other side owns is deleted: the other socket's destructor deletes it again.
    The descriptor that was made for the connection is lost. *)
Theorem disconnect_deletes_owner w c s d a p xc xs ps : c <> s -> socks w !! c = Some xc -> socks w !! s = Some xs ->
  lock xc = None -> lock xs = None -> target xc = Some s -> target xs = Some c ->
  target_address xc = Some d -> owner_desc xs = d -> refs w !! d = Some 1 -> target_address xs = Some a -> a <> d ->
  process <$> descs w !! d = Some (Some p) -> procs w !! p = Some ps ->
  exists w1, run 3 1 (call_disconnect c) w = Stopped (done 0) w1 /\
    run 3 2 (call_destroy s) w1 = Crashed /\
    descs w1 !! a = descs w !! a /\ target_address <$> socks w1 !! s = Some None.
Proof.
  intros Hcs Hc Hs Hlc Hls Htc Hts Hac Hown Hrf Hax Had Hd Hps. set (w1 := severed w c s d p xc xs ps).
  assert (Hs1 : socks w1 !! s = Some (with_target None None xs)) by (cbn; rewrite lookup_insert_ne, lookup_insert_eq by done; done).
  exists w1. split_and!.
  - unfold call_disconnect. by rewrite (disconnect_severs w c s d p xc xs ps).
  - unfold call_destroy. rewrite (run_next _ _ _ _ (Destroy s) w1).
    + apply run_crash. cbn [step_task]. unfold destroy. rewrite Hs1. cbn. rewrite Hown. unfold release_descriptor. cbn. rewrite Hrf. cbn.
      unfold delete_descriptor. cbn. by rewrite lookup_delete_eq.
    + cbn. unfold disconnect. by rewrite (locking_free s w1 (with_target None None xs)).
  - cbn. by rewrite lookup_delete_ne.
  - by rewrite Hs1.
Qed.

(** C: a [receive] that waits when the peer disconnects is not told: it stays
    blocked, while one that begins then fails at once. *)
Theorem disconnect_strands_receiver w c s d p xc xs ps r total size : c <> s -> socks w !! c = Some xc -> socks w !! s = Some xs ->
  lock xc = None -> lock xs = None -> target xc = Some s -> target xs = Some c -> target_address xc = Some d ->
  process <$> descs w !! d = Some (Some p) -> procs w !! p = Some ps -> write_event xs = 0 -> buf_size xs = 0 -> 0 < size ->
  exists w1, run 3 1 (call_disconnect c) w = Stopped (done 0) w1 /\
    step_task 2 (ReceiveWait s r total) w1 = Blocked /\
    step_task 3 (call_receive s size) w1 = Next (Done ERR_INVALID_ARGUMENT [] size None) w1.
Proof.
  intros Hcs Hc Hs Hlc Hls Htc Hts Hac Hd Hps Hw Hb Hsz. set (w1 := severed w c s d p xc xs ps).
  assert (Hs1 : socks w1 !! s = Some (with_target None None xs)) by (cbn; rewrite lookup_insert_ne, lookup_insert_eq by done; done).
  exists w1. split_and!.
  - unfold call_disconnect. by rewrite (disconnect_severs w c s d p xc xs ps).
  - cbn. unfold receive_wait. rewrite Hs1. cbn. by rewrite Hw.
  - cbn [step_task call_receive]. unfold receive. change (Z.of_nat (length (@nil Z))) with 0.
    assert (0 <? size = true) as -> by lia. cbn [negb].
    rewrite (locking_free s w1 (with_target None None xs)) by done. cbn. by rewrite Hb.
Qed.

(** C: of two clients that connect before the process listens, the first is
    forgotten and waits for ever; and the signal that it left makes the next
    [listen] fail its assertion, which stops the kernel. *)
Theorem second_connect_panics_listen w s1 s2 l d1 d2 p x1 x2 z ps n nb : connectable w s1 l d1 p x1 z ps -> connectable w s2 l d2 p x2 z ps ->
  s1 <> s2 -> (s1 < next w)%nat -> (s2 < next w)%nat -> (l < next w)%nat -> (d2 < next w)%nat ->
  pending_event x1 = 0 -> pending_event x2 = 0 -> pending_event z = 0 -> nonblock z = false -> refs w !! owner_desc z = Some n ->
  exists w1 w2 w3 w4 c,
    run 3 1 (call_connect s1 true d1) w = Stopped (ConnectWait s1) w1 /\
    run 3 2 (call_connect s2 true d2) w1 = Stopped (ConnectWait s2) w2 /\
    run 3 3 (Listen l) w2 = Stopped (done 0) w3 /\
    run 3 3 (Accept l nb) w3 = Stopped (Done 0 [] 0 (Some c)) w4 /\
    step_task 1 (ConnectWait s1) w4 = Blocked /\
    run 3 3 (Listen l) w4 = Crashed.
Proof.
  intros C1 C2 H12 Hn1 Hn2 Hnl Hnd Hp1 Hp2 Hpz Hnb Hrf.
  pose proof C1 as [N1 S1 L1 [F1 F3] T1 D1 P1 I1]. pose proof C2 as [N2 S2 L2 [F2 _] T2 D2 P2 I2].
  set (w1 := waiting w s1 l p x1 z ps). set (z1 := with_pending_event 1 (with_pending (Some s1) z)).
  set (ps1 := mkProc (Some l) (descriptors ps ++ [next w])).
  assert (Ez1 : with_pending_event (u64 (pending_event z + 1)) (with_pending (Some s1) z) = z1) by (by rewrite Hpz).
  assert (C2' : connectable w1 s2 l d2 p x2 z1 ps1).
  { split; try done; cbn.
    - by rewrite !lookup_insert_ne by done.
    - by rewrite Ez1, lookup_insert_eq.
    - rewrite lookup_insert_ne by lia. done.
    - apply lookup_insert_eq. }
  set (w2 := waiting w1 s2 l p x2 z1 ps1). set (z2 := with_pending_event 2 (with_pending (Some s2) z1)).
  assert (L2' : socks w2 !! l = Some z2) by (cbn; by rewrite lookup_insert_eq).
  set (w3 := set_sock l (with_pending_event 1 z2) w2). set (y2 := with_target None (Some (next w1)) x2).
  assert (S2' : socks w3 !! s2 = Some y2) by (cbn; by rewrite !lookup_insert_ne, lookup_insert_eq by done).
  assert (S1' : socks w3 !! s1 = Some (with_target None (Some (next w)) x1))
    by (cbn; by rewrite !lookup_insert_ne, lookup_insert_eq by done).
  assert (L3 : socks w3 !! l = Some (with_pending_event 1 z2)) by apply lookup_insert_eq.
  set (w4 := accepted 3 w3 s2 l y2 (with_pending_event 1 z2) n nb).
  assert (L4 : exists z4, socks w4 !! l = Some z4 /\ pending z4 = None /\ pending_event z4 = 1 /\ nonblock z4 = false /\ lock z4 = None).
  { eexists. split; [apply lookup_insert_eq|]. done. }
  destruct L4 as (z4 & L4 & Q1 & Q2 & Q3 & Q4).
  exists w1, w2, w3, w4, (next w3). split_and!.
  - by apply (connect_waits _ _ _ d1).
  - by apply (connect_waits _ _ _ d2).
  - rewrite (run_next _ _ _ _ (ListenCheck l) w3).
    + rewrite (run_next _ _ _ _ (done 0) w3); [by apply run_blocked|]. cbn. unfold listen_check. by rewrite (locking_free l w3 _ _ L3).
    + cbn. unfold listen, pending_wait. rewrite L2'. cbn. by rewrite Hnb.
  - by apply accept_accepts.
  - cbn [step_task]. unfold pending_wait. assert (socks w4 !! s1 = socks w3 !! s1) as ->.
    { cbn. rewrite !lookup_insert_ne by (done || lia). done. }
    rewrite S1'. cbn. by rewrite Hp1.
  - rewrite (run_next _ _ _ _ (ListenCheck l) (set_sock l (with_pending_event (pending_event z4 - 1) z4) w4)).
    + apply run_crash. cbn. unfold listen_check. erewrite locking_free; [|apply lookup_insert_eq|done]. cbn. by rewrite Q1.
    + cbn. unfold listen, pending_wait. by rewrite L4, Q3, Q2.
Qed.

(** ** Examples *)

(** Three processes with their sockets 1, 3 and 5; the descriptor 6 refers to the
    second process, and 7 is a connection of the first to it. *)
Definition processes : world := mkWorld ∅ ∅ (list_to_map [(0%nat, mkProc None []); (1%nat, mkProc None []); (2%nat, mkProc None [])]) ∅ 0.
Definition made (o : option (nat * world)) : world := match o with Some (_, w) => w | None => processes end.
Definition office1 : world := made (socket_create 0 false processes).
Definition office2 : world := made (socket_create 1 false office1).
Definition office3 : world := made (socket_create 2 false office2).
Definition office : world := made (duplicate 2 office3).
Definition after_run (o : stop) : world := match o with Stopped _ w => w | _ => processes end.
Definition stopped_at (o : stop) : task := match o with Stopped t _ => t | _ => done 0 end.
Definition connecting : world := after_run (run 3 1 (call_connect 1 true 6) office).
Definition accepting (nb : bool) : world := after_run (run 3 2 (Accept 3 nb) connecting).
Definition connected (nb : bool) : world := after_run (run 2 1 (ConnectWait 1) (accepting nb)).
Definition socket (s : nat) (w : world) : IpcSocket := default (new_socket 0 false) (socks w !! s).
Definition proc (p : nat) (w : world) : Process := default (mkProc None []) (procs w !! p).

Lemma exec_run fuel : forall w ts ins outs i t t' w', exec w ts ins outs -> ts !! i = Some t -> run fuel i t w = Stopped t' w' ->
  exists ins' outs', exec w' (<[i := t']> ts) ins' outs'.
Proof.
  induction fuel as [|fuel IH]; intros w ts ins outs i t t' w' He Hi H; [done|]. cbn in H.
  destruct (step_task i t w) as [| |t1 w1] eqn:E; [|done|].
  - simplify_eq. rewrite insert_id by done. eauto.
  - destruct (IH w1 (<[i := t1]> ts) _ _ i t1 t' w' (exec_step _ _ _ _ _ _ _ _ He Hi E) (lookup_insert_eq _ _ _) H) as (a & b & He').
    rewrite insert_insert_eq in He'. eauto.
Qed.

Lemma exec_do fuel w ts ins outs i t t' w' : exec w ts ins outs -> ts !! i = None -> start t -> run fuel i t w = Stopped t' w' ->
  exists ins' outs', exec w' (<[i := t']> ts) ins' outs'.
Proof.
  intros He Hi Hs H.
  destruct (exec_run fuel w (<[i := t]> ts) ins outs i t t' w' (exec_call _ _ _ _ _ _ He Hi Hs) (lookup_insert_eq _ _ _) H) as (a & b & He').
  rewrite insert_insert_eq in He'. eauto.
Qed.

Lemma exec_office : exists ins outs, exec office ∅ ins outs.
Proof.
  exists nothing, nothing.
  apply (exec_kernel office3); [|apply (kernel_duplicate _ 2 6); by vm_compute].
  apply (exec_kernel office2); [|apply (kernel_create _ 2 false 5); by vm_compute].
  apply (exec_kernel office1); [|apply (kernel_create _ 1 false 3); by vm_compute].
  apply (exec_kernel processes); [|apply (kernel_create _ 0 false 1); by vm_compute].
  by apply exec_boot.
Qed.

Definition sent : world := after_run (run 3 3 (Send 1 [10; 20; 30; 40; 50]) (accepting false)).
Definition received : world := after_run (run 9 4 (call_receive 8 2) sent).

Lemma exec_example : exists ts ins outs, exec received ts ins outs.
Proof.
  destruct exec_office as (i0 & o0 & E0).
  destruct (exec_do 3 _ _ _ _ 1 (call_connect 1 true 6) (ConnectWait 1) connecting E0) as (i1 & o1 & E1); [done|done|by vm_compute|].
  destruct (exec_do 3 _ _ _ _ 2 (Accept 3 false) (Done 0 [] 0 (Some 8%nat)) (accepting false) E1) as (i2 & o2 & E2); [done|done|by vm_compute|].
  destruct (exec_do 3 _ _ _ _ 3 (Send 1 [10; 20; 30; 40; 50]) (Done 0 [] 5 None) sent E2) as (i3 & o3 & E3);
    [done|unfold start, fits; cbn; lia|by vm_compute|].
  destruct (exec_do 9 _ _ _ _ 4 (call_receive 8 2) (Done 0 [10; 20] 2 None) received E3) as (i4 & o4 & E4);
    [done|unfold start, call_receive, fits; split; [done|lia]|by vm_compute|].
  eauto.
Qed.

Lemma ipc_fifo_witness : exists ins outs : nat -> list Z, ins 8%nat = outs 8%nat ++ [30; 40; 50].
Proof.
  destruct exec_example as (ts & ins & outs & He). exists ins, outs.
  replace [30; 40; 50] with (queue (socket 8 received)) by (vm_compute; reflexivity).
  apply (ipc_fifo received ts ins outs 8 (socket 8 received) He). vm_compute. reflexivity.
Defined.

Lemma office_connectable s : s = 1%nat \/ s = 5%nat -> connectable office s 3 6 1 (socket s office) (socket 3 office) (proc 1 office).
Proof. intros [->| ->]; split; try (by vm_compute); split; by vm_compute. Qed.

Lemma connect_accept_witness : exists w3 c, (exists w2, run 2 1 (ConnectWait 1) w2 = Stopped (done 0) w3) /\
  target <$> socks w3 !! 1%nat = Some (Some c) /\ target <$> socks w3 !! c = Some (Some 1%nat).
Proof.
  destruct (connect_accept office 1 3 (socket 1 office) (socket 3 office) 1 6 (proc 1 office) 1 false (office_connectable 1 ltac:(by left)))
    as (w1 & w2 & w3 & c & _ & _ & E & (x & Hx & Tx & _) & (y & Hy & Ty & _) & _).
  1, 2: vm_compute; lia. 1, 2: vm_compute; reflexivity.
  exists w3, c. split; [by exists w2|]. by rewrite Hx, Hy; cbn; rewrite Tx, Ty.
Defined.

Lemma blocking_transfer_witness :
  finishes (fun _ => 0%nat) (delivered 1 8 (replicate 1000 7)) (started (connected false) (pair_of (Send 1 (replicate 1000 7)) (Receive 8 [] 1000))).
Proof.
  apply (blocking_transfer (fun _ => 0%nat) (connected false) 1 8 (socket 1 (connected false)) (socket 8 (connected false)) (replicate 1000 7)); try (by vm_compute).
  apply (same_buf_ok (new_socket 0 false)); [by vm_compute|apply new_socket_ok].
Defined.

Fixpoint run_order (cpu : nat -> nat) (l : list nat) (k : sys) : result := match l with [] => Go k | i :: l => match run_thread cpu i k with Go k => run_order cpu l k | r => r end end.

(** The same two threads on two CPUs: the receiver is in the list of the event but has not
    blocked yet when the sender signals it. *)
Theorem two_cpus_panic :
  run_order (fun i => i) [2; 2; 2; 1; 1]%nat (started (connected false) (pair_of (Send 1 [7]) (Receive 8 [] 1))) = Panic.
Proof. by vm_compute. Qed.

Lemma both_send_deadlock_witness : exists w2, step_task 3 (Receive 1 [] 1) w2 = Blocked /\ step_task 3 (Receive 8 [] 1) w2 = Blocked.
Proof.
  destruct (both_send_deadlock (connected false) 1 8 (socket 1 (connected false)) (socket 8 (connected false)) (replicate 513 1) (replicate 513 2))
    as (w1 & w2 & left & _ & _ & _ & H); try (by vm_compute).
  - apply (same_buf_ok (new_socket 0 false)); [by vm_compute|apply new_socket_ok].
  - exists w2. by apply H.
Defined.

Definition full : world := after_run (run 3 1 (Send 1 (replicate 513 1)) (connected true)).
Lemma nonblocking_receiver_strands_sender_witness :
  stopped_at (run 3 1 (Send 1 (replicate 513 1)) (connected true)) = SendWait 1 8 [1] 513 /\
  step_task 1 (SendWait 1 8 [1] 513) (default full (receive_all 9 8 [512; 512] full)) = Blocked.
Proof.
  split; [by vm_compute|].
  apply (nonblocking_receiver_strands_sender 9 [512; 512] full _ 1 8 (socket 8 full) [1] 513); by vm_compute.
Defined.

Lemma disconnect_deletes_owner_witness : exists w1, run 3 2 (call_destroy 1) w1 = Crashed.
Proof.
  destruct (disconnect_deletes_owner (connected false) 8 1 0 7 0 (socket 8 (connected false)) (socket 1 (connected false)) (proc 0 (connected false)))
    as (w1 & _ & H & _); [by vm_compute..|].
  by exists w1.
Defined.

Lemma disconnect_strands_receiver_witness : exists w1, step_task 2 (ReceiveWait 1 [] 4) w1 = Blocked.
Proof.
  destruct (disconnect_strands_receiver (connected false) 8 1 0 0 (socket 8 (connected false)) (socket 1 (connected false)) (proc 0 (connected false)) [] 4 4)
    as (w1 & _ & H & _); [by vm_compute..|].
  by exists w1.
Defined.

Lemma second_connect_panics_listen_witness : exists w4, run 3 3 (Listen 3) w4 = Crashed.
Proof.
  destruct (second_connect_panics_listen office 1 5 3 6 6 1 (socket 1 office) (socket 5 office) (socket 3 office) (proc 1 office) 1 false
    (office_connectable 1 ltac:(by left)) (office_connectable 5 ltac:(by right))) as (w1 & w2 & w3 & w4 & c & _ & _ & _ & _ & _ & H);
    [first [by vm_compute|vm_compute; lia]..|].
  by exists w4.
Defined.

End IpcCorrect.
